(* ===== verification/_CoqProject ===== *)
-Q . S2P
Prelude.v
Kmath.v
Hashtable.v
Radix.v
CString.v
Fmt.v
Strbuf.v
Layout.v
Pmm.v
Memory.v
Bytes.v
Heap.v
Bitmap.v
Idr.v
Ringbuf.v
Klist.v
Vmregion.v
Paging.v
Vmm.v
NetBase.v
Netbuf.v
NetIf.v
Arp.v
Ipv4.v
Icmp.v
Udp.v
Tcp.v
Dns.v
Dhcp.v
Socket.v
Net.v
Handshake.v
Safe.v
NetSafe.v
Path.v
StateM.v
Kalloc.v
Files.v
Slab.v
SlabSpec.v
SlabMem.v
SlabThm.v
Uspace.v
UspaceSpec.v
UspaceMap.v
UspaceFree.v
UspaceNew.v
UspaceIso.v
UspaceThm.v
Loader.v
LoaderSpec.v
Usermem.v
Ustack.v
Dcache.v
Vnode.v
Vfs.v
Block.v
Hnxfs.v
HnxfsSpec.v
HnxfsDir.v
HnxfsTree.v
HnxfsDisk.v
HnxfsVnode.v
VfsHnxfs.v
VfsOps.v
