(* ===== verification/Prelude.v ===== *)
(** * The kernel of MyOS (HNX-x86): libraries, memory, networking, files and user memory

    A model of parts of the kernel under [src/myos/], written from the C sources, and theorems about it.

    ** How the C code is modelled

    - A C function is a function of the same name into [outcome] (this file): [Ret] its result, [Panic] for
      [kernel_panic], [Fault] for an access outside the object it works on, [Loop] when the bound of a loop is used
      up. A theorem that a function returns therefore also says that it makes no such access and that it ends.
    - Integers are values of [Z] with the wrap-around of their width written out ([u8] .. [u64], [i32], [i64]).
    - An array is a list read and written by [aget] and [aset], which give [Fault] out of range; raw memory is a
      finite map from addresses to bytes ([Memory]); the links of a list are a store of fields ([Klist]).
    - Code that threads a state through many calls is in the monad [stM] over [outcome] ([StateM]), with [wp], its rule for total
      correctness, [may], which allows a panic under a condition that it names, and [runs], which allows it always.
    - Global variables are records that are passed on. Objects the code points to are indices into a table where
      two pointers may name the same object (interfaces, TCBs, sockets).
    - A loop that counts is [for_range]; one that may end early is [find_range]; both have invariant rules here.
    - What an allocator answers is an argument (a function, or the number of allocations that succeed), or the interface
      [Kalloc]: new blocks are not blocks in use. [Kalloc.heap_laws] proves it of the heap.

    ** The parts

    Libraries ([kernel/lib], [kernel/src/string.c]), none of which depends on the rest of the kernel:
    - [Kmath] ([kmath.h]); [Bitmap] ([bitmap.c]) and, on top of it, [Idr] ([idr.c]); [Ringbuf] ([ringbuf.c]);
      [Klist] ([list.h], [list.c]); [Hashtable] ([hashtable.c]); [Radix] ([radix.c]);
    - [CString] ([string.c]); [Fmt] ([fmt.c]) and, on top of it, [Strbuf] ([strbuf.c]).

    Memory management ([kernel/memory], [kernel/arch/x86_64/paging.c]):
    - [Layout] ([memory_layout.h]) and [Memory], bytes of memory with loads and stores of any width;
    - [Pmm] ([pmm.c]): the bitmap of physical pages, filled from the memory map of the firmware;
    - [Heap] ([heap.c]): [kmalloc] and [kfree] on the bytes of the arena, block headers included;
    - [Slab] ([slab.c]): object caches and the general allocator [kmem_alloc] on bytes of physical memory, with pages from [Pmm] and
      the cache structures on the heap; [SlabSpec] (caches), [SlabMem] (destroying a cache, blocks and headers) and [SlabThm];
    - [Vmregion] ([vmregion.c]): the regions of an address space;
    - [Paging] ([paging.c]): the four levels of tables in physical memory, over an interface of page allocators
      (the classes [PageAllocator] and [PageAllocatorLaws]);
    - [Vmm] ([vmm.c]): the kernel's address space; [Pmm] is the allocator behind [Paging] there.

    Networking ([kernel/net]): one record [net] ([NetIf]) holds the variables of all the files.
    - [NetBase] ([net_endian.h], [net_addr.h], [checksum.c]); [Netbuf] ([netbuf.c], [ethernet.c]), over an interface of
      memory whose first contents are not known (the classes [Kmem] and [KmemOk]);
    - [NetIf] ([net_if.c]), [Arp], [Ipv4], [Icmp], [Udp], [Tcp], [Dns], [Dhcp], [Socket] (the files of these names): a
      layer has the functions behind its pointers (the transmit function, the receiver, the protocol above) as arguments;
    - [Net] ([e1000.c], [net.c]): the rings of the network card, and [stack_rx] and [link_tx], which put the layers
      together. A frame sent over the loopback interface is received before the send returns, so the two call each other;
    - [Handshake]: TCP connections over the loopback interface; [Safe] and [NetSafe]: memory safety of the whole stack.

    Files ([kernel/fs], [kernel/block], [tools/fs/mkhnxfs.py]):
    - [Path] ([path.c]); [Files] ([file.c], [fd.c], the descriptor calls of [syscall_proc.c], [wire_stdio]): open files with their
      reference counts on the heap;
    - [Block] ([block_cache.c], [block_device.c], [partition.c]): the sector cache over the interface [Drive];
    - [Hnxfs] ([hnxfs.c] and the files beside it): the on-disk format, bitmaps, inodes, files and directories over the interface [Disk];
      [HnxfsSpec] (files), [HnxfsDir] (directories), [HnxfsTree] (the tree of the disk) and [HnxfsDisk] have its invariant and theorems,
      [HnxfsVnode] its vnode cache and mounting;
    - [Dcache] ([dcache.c]): the name cache, on top of [Hashtable];
    - [Vnode], [Vfs] ([vfs.c]) and [VfsOps] ([vfs_ops.c]): mount table and file operations over the interface [Filesystems], which
      [VfsHnxfs] implements with HNXFS. [vfs_ops.c] alone calls the name cache.

    User memory ([kernel/user], [kernel/process]):
    - [Uspace] ([user_address_space.c], [user_copy.c]): address spaces on physical memory with [Paging] and [Pmm], the copies
      between kernel and user memory. [UspaceSpec] (copies), [UspaceMap] (mapping), [UspaceFree] (destroying), [UspaceNew] (creating)
      and [UspaceIso] (all of them together, with several spaces) have the lemmas, [UspaceThm] the theorems;
    - [Loader] and [LoaderSpec] ([user_loader.c]); [Usermem] ([process_brk], [process_sbrk] and the memory calls of
      [syscall_proc.c]); [Ustack] ([build_user_stack] of [process.c]).

    ** What the theorems show

    - Data structures refine what they stand for: the ring buffer a bounded queue, the hash table and the radix tree
      a finite map, the linked list a list of nodes (and its sort is stable), for every sequence of operations.
    - Bitmaps, ids and pages are handed out by the rule of the code (first fit, next fit), exactly when there is one.
    - The formatter writes the text of its format cut to the buffer; the string functions do what C says they do.
    - The heap is tiled by its blocks after any sequence of calls with sizes to 2^64 - 32, a size of 0 and pointers that are no
      blocks included; [kmalloc] is first fit and [kfree] merges.
    - The slab allocator refines a map from pointers to arrays of bytes: blocks are new, apart, large enough and keep their bytes, and
      a failure means that there is no run of as many free pages as the block needs. Freeing a small block twice is noticed.
    - Regions: inserting, removing and finding act on the set of mapped addresses, and what [vm_map_remove] loses when it gets no
      memory for the second half of a split region is described exactly. Page tables: mapping and unmapping
      change the translation of one page and of no other address. [vmm_init] builds the identity map and the kernel's map, or panics,
      and then there were fewer free pages than its tables need.
    - Networking: no frame, whatever its bytes, makes the receive path leave an object or panic, and handling it ends
      where no interface loops back. The checksum detects every change of one byte. Routes are
      longest prefix match, the ARP cache finds what was inserted. A datagram sent to a socket over loopback is what the
      socket receives; an echo request is answered; connecting to a listener ends in two synchronised ends.
      A DNS query is built and its answer read back; a DHCP OFFER and ACK configure the interface.
    - Files: any sequence of file operations keeps the tree of the disk, in which every block and inode has one owner and the
      directories are the map from names to files; what is written is read back, through the VFS as well; the sector cache
      cannot be told from the disk. This is for names of at most 119 bytes (longer ones are cut by the code), volumes whose
      bitmaps have one block each, as the kernel assumes and [mkhnxfs.py] makes them, and a drive that reads and writes. The count of an open file is the number of descriptors that name it. A resolved path is in
      normal form; the mount found is the longest prefix. [mkhnxfs.py] writes such a tree.
    - User memory: no operation for one process changes the pages or the bytes of another, and none frees a page that is in use,
      also when memory runs out in the middle of it;
      a copy to or from user memory transfers exactly the bytes of a range that the user may access and is refused otherwise;
      new pages are zeros, the user's and no other page's frame, and mapping them panics only when there are too few free pages;
      destroying a space frees its pages once. The loader accepts exactly the well-formed images and
      gives each segment its bytes; the break and [mmap] give the caller the memory they promise; the first stack has
      the layout that the program start code reads.
    - Errors of the code, as theorems: a string builder that is left without a terminator ([Strbuf]), a size that overflows
      ([Heap]), a TCP connection from an unnamed address ([Handshake]), the buffer each loopback send leaks ([Net]), the
      transaction id that DHCP ignores ([Dhcp]), a write through a partition that the cache of the disk does not see ([Block]), a
      superblock that points outside the disk ([HnxfsDisk]), a vnode that is reused while open ([HnxfsVnode]), renaming a file to
      itself ([VfsOps]), a segment table whose size wraps ([LoaderSpec]), unmapping a page of the kernel ([Usermem]), and objects
      that are never aligned as their cache asks ([SlabThm]).

    ** Bounds

    Every bound is on the number of turns of a loop and large enough: the length of the array for loops over one (strings,
    DNS labels, DHCP options, checksums), the width for loops over bits, two turns for folding a 32-bit checksum,
    one turn per 16 bytes of the arena for the heap, one per page for a run of pages. Where the C loop can run for ever
    (rounding up a size above 2^63 in [hashtable.c], a list whose links are broken) the bound is an argument. [link_tx]
    is bounded by the depth to which loopback sends nest; the theorems say which depth is enough (one for a datagram,
    two for a ping, three for a handshake, none without loopback) and memory safety holds at every depth. [e1000_poll]
    makes one turn per descriptor of the ring: the loop clears each one, and the card adds none while the model runs.
    The loops of [kmem_cache_destroy] make one turn per slab and one per cache.
    A copy to or from user memory makes a turn per page and one more; loops over directories and blocks one per entry.

    ** What is not modelled

    - The hardware: device registers, interrupts, the TLB, the bring-up of the network card ([e1000_init] is an argument
      of [net_init]), storage controllers, USB, PCI, assembly and the boot loader.
    - Concurrency: the functions here are called one at a time.
    - Log output.
    - The other file systems, the buffer and page caches, the scan of partition tables, the process table, scheduler,
      synchronisation, most system calls, terminal and the user programs: ordinary C that is not modelled yet.

    This file has the outcomes, machine integers, arrays and loops that the others share. *)

From Stdlib Require Export ZArith Lia Bool.
From stdpp Require Export base numbers list gmap sorting.

#[export] Set Default Goal Selector "!".
#[global] Open Scope Z_scope.

(** ** Results of C code *)

(** A C function of the kernel either returns a value ([Ret]), calls
    [kernel_panic] and never returns ([Panic]), performs an access outside the
    object it works on, which C leaves undefined ([Fault]), or is still running
    when the loop bound chosen for the model is used up ([Loop]). *)
Inductive outcome (A : Type) : Type :=
| Ret (a : A)
| Panic
| Fault
| Loop.
Arguments Ret {A} a.
Arguments Panic {A}.
Arguments Fault {A}.
Arguments Loop {A}.

#[export] Instance outcome_ret : MRet outcome := @Ret.
#[export] Instance outcome_bind : MBind outcome := λ A B f m,
  match m with
  | Ret a => f a
  | Panic => Panic
  | Fault => Fault
  | Loop => Loop
  end.
#[export] Instance outcome_fmap : FMap outcome := λ A B f m,
  match m with
  | Ret a => Ret (f a)
  | Panic => Panic
  | Fault => Fault
  | Loop => Loop
  end.

Lemma bind_Ret {A B} (f : A → outcome B) (a : A) : (Ret a ≫= f) = f a.
Proof. reflexivity. Qed.

Lemma bind_Ret_inv {A B} (f : A → outcome B) (m : outcome A) (b : B) :
  (m ≫= f) = Ret b → ∃ a, m = Ret a ∧ f a = Ret b.
Proof. destruct m; cbn; intros H; try discriminate; eauto. Qed.

(** ** Machine integers *)

(** Unsigned C integers of width [w] are kept as values of [Z] in
    [0 .. 2^w - 1]; [u8] .. [u64] are the conversions to them, which wrap. *)
Definition u8 (z : Z) : Z := z mod 2 ^ 8.
Definition u16 (z : Z) : Z := z mod 2 ^ 16.
Definition u32 (z : Z) : Z := z mod 2 ^ 32.
Definition u64 (z : Z) : Z := z mod 2 ^ 64.

(** Conversion to a signed [int] (two's complement, as the compiler does). *)
Definition i32 (z : Z) : Z := (z + 2 ^ 31) mod 2 ^ 32 - 2 ^ 31.
Definition i64 (z : Z) : Z := (z + 2 ^ 63) mod 2 ^ 64 - 2 ^ 63.

Definition is_u8 (z : Z) : Prop := 0 ≤ z < 2 ^ 8.
Definition is_u16 (z : Z) : Prop := 0 ≤ z < 2 ^ 16.
Definition is_u32 (z : Z) : Prop := 0 ≤ z < 2 ^ 32.
Definition is_u64 (z : Z) : Prop := 0 ≤ z < 2 ^ 64.
Definition bytes (l : list Z) : Prop := Forall is_u8 l.

(** [~x] on a 64-bit operand. *)
Definition not64 (z : Z) : Z := u64 (Z.lnot z).
Definition not32 (z : Z) : Z := u32 (Z.lnot z).
Definition not8 (z : Z) : Z := u8 (Z.lnot z).

(** The error numbers of [kernel/user/syscall_numbers.h]; functions return them negated. *)
Definition SYS_EPERM : Z := 1.
Definition SYS_ENOENT : Z := 2.
Definition SYS_ESRCH : Z := 3.
Definition SYS_EIO : Z := 5.
Definition SYS_EEXIST : Z := 17.
Definition SYS_EBADF : Z := 9.
Definition SYS_ECHILD : Z := 10.
Definition SYS_ENOMEM : Z := 12.
Definition SYS_EFAULT : Z := 14.
Definition SYS_ENOTDIR : Z := 20.
Definition SYS_EISDIR : Z := 21.
Definition SYS_EINVAL : Z := 22.
Definition SYS_EMFILE : Z := 24.
Definition SYS_ERANGE : Z := 34.
Definition SYS_ENAMETOOLONG : Z := 36.
Definition SYS_ENOSYS : Z := 38.

(** An [int] used as a truth value. *)
Definition b2z (b : bool) : Z := if b then 1 else 0.

Ltac unfold_ints := unfold is_u8, is_u16, is_u32, is_u64, u8, u16, u32, u64 in *.

(** [lia] after unfolding the ranges and turning div and mod into equations. *)
Ltac zlia := unfold_ints; Z.to_euclidean_division_equations; lia.

Lemma u64_small z : 0 ≤ z < 2 ^ 64 → u64 z = z.
Proof. apply Z.mod_small. Qed.
Lemma u32_small z : 0 ≤ z < 2 ^ 32 → u32 z = z.
Proof. apply Z.mod_small. Qed.
Lemma u16_small z : 0 ≤ z < 2 ^ 16 → u16 z = z.
Proof. apply Z.mod_small. Qed.
Lemma u8_small z : 0 ≤ z < 2 ^ 8 → u8 z = z.
Proof. apply Z.mod_small. Qed.

Lemma u64_range z : is_u64 (u64 z).
Proof. apply Z.mod_pos_bound. lia. Qed.

(** A sum wraps at most once. *)
Lemma u64_add x y : is_u64 x → is_u64 y → u64 (x + y) = if decide (x + y < 2 ^ 64) then x + y else x + y - 2 ^ 64.
Proof.
  unfold is_u64, u64. intros Hx Hy. destruct (decide (x + y < 2 ^ 64)); [apply Z.mod_small; lia|]. symmetry. apply (Z.mod_unique _ _ 1); lia.
Qed.
Lemma u32_range z : is_u32 (u32 z).
Proof. apply Z.mod_pos_bound. lia. Qed.
Lemma u16_range z : is_u16 (u16 z).
Proof. apply Z.mod_pos_bound. lia. Qed.
Lemma u8_range z : is_u8 (u8 z).
Proof. apply Z.mod_pos_bound. lia. Qed.

(** ** Bits *)

Lemma testbit_mod_pow2 z w i :
  0 ≤ w → 0 ≤ i → Z.testbit (z mod 2 ^ w) i = (i <? w) && Z.testbit z i.
Proof.
  intros Hw Hi. destruct (Z.ltb_spec i w) as [H | H].
  - rewrite Z.mod_pow2_bits_low by lia. reflexivity.
  - rewrite Z.mod_pow2_bits_high by lia. reflexivity.
Qed.

Lemma testbit_high z w i : 0 ≤ z < 2 ^ w → 0 ≤ w ≤ i → Z.testbit z i = false.
Proof.
  intros Hz Hi. rewrite <-(Z.mod_small z (2 ^ w)) by lia.
  apply Z.mod_pow2_bits_high. lia.
Qed.

Lemma testbit_pow2 n i : 0 ≤ n → Z.testbit (2 ^ n) i = bool_decide (i = n).
Proof.
  intros Hn. case_bool_decide as H.
  - subst. apply Z.pow2_bits_true. lia.
  - apply Z.pow2_bits_false. lia.
Qed.

(** A value all of whose bits from [w] up are clear is below [2^w]. *)
Lemma bits_lt_pow2 z w :
  0 ≤ z → 0 ≤ w → (∀ i, w ≤ i → Z.testbit z i = false) → z < 2 ^ w.
Proof.
  intros Hz Hw Hb. rewrite <-(Z.mod_small z (2 ^ w)) at 1.
  { apply Z.mod_pos_bound. lia. }
  split; [lia|].
  enough (z = z mod 2 ^ w) as -> by (apply Z.mod_pos_bound; lia).
  apply Z.bits_inj'. intros i Hi. rewrite testbit_mod_pow2 by lia.
  destruct (Z.ltb_spec i w); [reflexivity|]. rewrite Hb by lia. reflexivity.
Qed.

Lemma land_u_range z m w : 0 ≤ w → 0 ≤ z < 2 ^ w → 0 ≤ Z.land z m < 2 ^ w.
Proof.
  intros Hw Hz. assert (0 ≤ Z.land z m) by (apply Z.land_nonneg; lia).
  split; [done|]. apply bits_lt_pow2; [done..|]. intros i Hi.
  rewrite Z.land_spec, (testbit_high z w) by lia. reflexivity.
Qed.

Lemma lor_u_range z m w :
  0 ≤ w → 0 ≤ z < 2 ^ w → 0 ≤ m < 2 ^ w → 0 ≤ Z.lor z m < 2 ^ w.
Proof.
  intros Hw Hz Hm. assert (0 ≤ Z.lor z m) by (apply Z.lor_nonneg; lia).
  split; [done|]. apply bits_lt_pow2; [done..|]. intros i Hi.
  rewrite Z.lor_spec, (testbit_high z w), (testbit_high m w) by lia. reflexivity.
Qed.

Lemma testbit_not64 z i :
  0 ≤ i < 64 → Z.testbit (not64 z) i = negb (Z.testbit z i).
Proof.
  intros Hi. unfold not64, u64. rewrite testbit_mod_pow2 by lia.
  rewrite Z.lnot_spec by lia. destruct (Z.ltb_spec i 64); [reflexivity|lia].
Qed.

Lemma zero_bits z w :
  0 ≤ w → 0 ≤ z < 2 ^ w → (∀ i, 0 ≤ i < w → Z.testbit z i = false) → z = 0.
Proof.
  intros Hw Hz Hb. apply Z.bits_inj'. intros i Hi. rewrite Z.bits_0.
  destruct (decide (i < w)); [apply Hb; lia|]. apply (testbit_high z w); lia.
Qed.

Lemma land_ones_mod z w : 0 ≤ w → Z.land z (2 ^ w - 1) = z mod 2 ^ w.
Proof.
  intros Hw. rewrite <-Z.land_ones by done. rewrite Z.ones_equiv.
  unfold Z.pred. reflexivity.
Qed.

Lemma land_1_testbit z : Z.land z 1 = b2z (Z.testbit z 0).
Proof.
  change 1 with (2 ^ 1 - 1). rewrite land_ones_mod by lia.
  change (2 ^ 1) with 2. rewrite Zmod_odd, Z.bit0_odd. by destruct (Z.odd z).
Qed.

Lemma lor_shift_add a b k : 0 ≤ k → 0 ≤ b < 2 ^ k → Z.lor (Z.shiftl a k) b = a * 2 ^ k + b.
Proof.
  intros Hk Hb. rewrite <-Z.shiftl_mul_pow2 by done.
  assert (Z.land (Z.shiftl a k) b = 0) as Hd.
  { apply Z.bits_inj'. intros i Hi. rewrite Z.land_spec, Z.bits_0.
    destruct (decide (i < k)); [by rewrite Z.shiftl_spec_low|]. rewrite (testbit_high b k) by lia. apply andb_false_r. }
  by rewrite (Z.add_nocarry_lxor _ _ Hd), Z.lxor_lor.
Qed.

Lemma lor_add_shift a b k : 0 ≤ k → 0 ≤ b < 2 ^ k → Z.lor b (Z.shiftl a k) = a * 2 ^ k + b.
Proof. intros. rewrite Z.lor_comm. by apply lor_shift_add. Qed.

(** ** Arrays *)

(** A C array of known length is a list; an access outside it is a [Fault]. *)
Definition zlen {A} (l : list A) : Z := Z.of_nat (length l).

Definition aget {A} (l : list A) (i : Z) : outcome A :=
  if 0 <=? i then
    match l !! Z.to_nat i with Some x => Ret x | None => Fault end
  else Fault.

Definition aset {A} (l : list A) (i : Z) (x : A) : outcome (list A) :=
  if (0 <=? i) && (i <? zlen l) then Ret (<[Z.to_nat i := x]> l) else Fault.

Lemma aget_Some {A} (l : list A) i x :
  0 ≤ i → l !! Z.to_nat i = Some x → aget l i = Ret x.
Proof.
  intros Hi Hx. unfold aget. destruct (Z.leb_spec 0 i); [|lia]. by rewrite Hx.
Qed.

Lemma aget_Ret_inv {A} (l : list A) i x :
  aget l i = Ret x → 0 ≤ i < zlen l ∧ l !! Z.to_nat i = Some x.
Proof.
  unfold aget, zlen. destruct (Z.leb_spec 0 i); [|discriminate].
  destruct (l !! Z.to_nat i) eqn:E; [|discriminate].
  intros [= ->]. apply lookup_lt_Some in E as E'. split; [lia|done].
Qed.

Lemma lookup_in {A} (l : list A) i :
  0 ≤ i < zlen l → ∃ x, l !! Z.to_nat i = Some x.
Proof.
  intros Hi. apply lookup_lt_is_Some. unfold zlen in Hi. lia.
Qed.

Lemma aget_in {A} (l : list A) i :
  0 ≤ i < zlen l → ∃ x, l !! Z.to_nat i = Some x ∧ aget l i = Ret x.
Proof.
  intros Hi. destruct (lookup_in l i Hi) as [x Hx].
  exists x. split; [done|]. apply aget_Some; [lia|done].
Qed.

Lemma aset_in {A} (l : list A) i x :
  0 ≤ i < zlen l → aset l i x = Ret (<[Z.to_nat i := x]> l).
Proof.
  intros Hi. unfold aset.
  destruct (Z.leb_spec 0 i), (Z.ltb_spec i (zlen l)); try lia. reflexivity.
Qed.

Lemma aset_Ret_inv {A} (l l' : list A) i x :
  aset l i x = Ret l' → 0 ≤ i < zlen l ∧ l' = <[Z.to_nat i := x]> l.
Proof.
  unfold aset. destruct (Z.leb_spec 0 i), (Z.ltb_spec i (zlen l)); cbn;
    intros H'; try discriminate. injection H' as <-. split; [lia|done].
Qed.

Lemma zlen_insert {A} (l : list A) n x : zlen (<[n := x]> l) = zlen l.
Proof. unfold zlen. by rewrite length_insert. Qed.

Lemma zlen_app {A} (l k : list A) : zlen (l ++ k) = zlen l + zlen k.
Proof. unfold zlen. rewrite length_app. lia. Qed.

Lemma zlen_cons {A} x (l : list A) : zlen (x :: l) = 1 + zlen l.
Proof. unfold zlen. rewrite length_cons. lia. Qed.

Lemma zlen_nonneg {A} (l : list A) : 0 ≤ zlen l.
Proof. unfold zlen. lia. Qed.

Lemma zlen_replicate {A} n (x : A) : zlen (replicate n x) = Z.of_nat n.
Proof. unfold zlen. by rewrite length_replicate. Qed.

(** Reading back an array after a store. *)
Lemma lookup_insert_Z {A} (l : list A) i j (x : A) :
  0 ≤ i < zlen l → 0 ≤ j →
  <[Z.to_nat i := x]> l !! Z.to_nat j =
    if decide (i = j) then Some x else l !! Z.to_nat j.
Proof.
  intros Hi Hj. unfold zlen in Hi. case_decide as H.
  - subst. apply list_lookup_insert_eq. lia.
  - apply list_lookup_insert_ne. lia.
Qed.

Lemma list_eq_Z {A} (l k : list A) :
  (∀ i, 0 ≤ i → l !! Z.to_nat i = k !! Z.to_nat i) → l = k.
Proof.
  intros H. apply list_eq. intros i. rewrite <-(Nat2Z.id i). apply H. lia.
Qed.

(** The [n] elements from [off], and the array with a segment overwritten. *)
Definition zslice {A} (l : list A) (off n : Z) : list A :=
  take (Z.to_nat n) (drop (Z.to_nat off) l).

Definition zsplice {A} (l : list A) (off : Z) (x : list A) : list A :=
  take (Z.to_nat off) l ++ x ++ drop (Z.to_nat off + length x) l.

Lemma lookup_zslice {A} (l : list A) off n i :
  0 ≤ off → 0 ≤ i →
  zslice l off n !! Z.to_nat i = if decide (i < n) then l !! Z.to_nat (off + i) else None.
Proof.
  intros Ho Hi. unfold zslice. case_decide as H.
  - rewrite lookup_take_lt by lia. rewrite lookup_drop. f_equal. lia.
  - apply lookup_take_ge. lia.
Qed.

Lemma zlen_zslice {A} (l : list A) off n :
  0 ≤ off → 0 ≤ n → off + n ≤ zlen l → zlen (zslice l off n) = n.
Proof. intros H1 H2 H3. unfold zlen, zslice in *. rewrite length_take, length_drop. lia. Qed.

Lemma zlen_zsplice {A} (l x : list A) off :
  0 ≤ off → off + zlen x ≤ zlen l → zlen (zsplice l off x) = zlen l.
Proof.
  intros H1 H2. unfold zlen, zsplice in *. rewrite !length_app, length_take, length_drop. lia.
Qed.

Lemma lookup_zsplice {A} (l x : list A) off j :
  0 ≤ off → off + zlen x ≤ zlen l → 0 ≤ j →
  zsplice l off x !! Z.to_nat j =
    if decide (off ≤ j < off + zlen x) then x !! Z.to_nat (j - off) else l !! Z.to_nat j.
Proof.
  intros H1 H2 H3. unfold zsplice, zlen in *.
  assert (length (take (Z.to_nat off) l) = Z.to_nat off) as Hl by (rewrite length_take; lia).
  case_decide as H.
  - rewrite lookup_app_r by lia. rewrite Hl, lookup_app_l by lia. f_equal. lia.
  - destruct (decide (j < off)).
    + rewrite lookup_app_l by lia. rewrite lookup_take_lt by lia. done.
    + rewrite lookup_app_r by lia. rewrite Hl, lookup_app_r by lia. rewrite lookup_drop.
      f_equal. lia.
Qed.

Lemma zslice_zsplice {A} (l x : list A) off :
  0 ≤ off → off + zlen x ≤ zlen l → zslice (zsplice l off x) off (zlen x) = x.
Proof.
  intros H1 H2. apply list_eq_Z. intros i Hi. rewrite lookup_zslice by done.
  case_decide as H.
  - rewrite lookup_zsplice by lia. rewrite decide_True by lia. f_equal. lia.
  - symmetry. apply lookup_ge_None. unfold zlen in H. lia.
Qed.

Lemma zslice_zsplice_ne {A} (l x : list A) off off' n :
  0 ≤ off → off + zlen x ≤ zlen l → 0 ≤ off' → off' + n ≤ off ∨ off + zlen x ≤ off' →
  zslice (zsplice l off x) off' n = zslice l off' n.
Proof.
  intros H1 H2 H3 H4. apply list_eq_Z. intros i Hi. rewrite !lookup_zslice by done.
  case_decide as H; [|done]. rewrite lookup_zsplice by lia. by rewrite decide_False by lia.
Qed.

Lemma zslice_all {A} (l : list A) n : zlen l = n → zslice l 0 n = l.
Proof. intros <-. unfold zslice, zlen. change (Z.to_nat 0) with O. rewrite drop_0. apply take_ge. lia. Qed.

Lemma zsplice_all {A} (l x : list A) : zlen l = zlen x → zsplice l 0 x = x.
Proof.
  unfold zsplice, zlen. intros H. change (Z.to_nat 0) with O. rewrite take_0, drop_ge by lia. apply app_nil_r.
Qed.

Lemma zslice_plus {A} (l : list A) off n k : 0 ≤ off → 0 ≤ n → 0 ≤ k → zslice l off (n + k) = zslice l off n ++ zslice l (off + n) k.
Proof.
  intros H1 H2 H3. unfold zslice. replace (Z.to_nat (off + n)) with (Z.to_nat off + Z.to_nat n)%nat by lia. rewrite <-drop_drop.
  replace (Z.to_nat (n + k)) with (Z.to_nat n + Z.to_nat k)%nat by lia. by rewrite take_take_drop.
Qed.

Lemma zsplice_plus {A} (l x y : list A) : zlen x + zlen y ≤ zlen l → zsplice (zsplice l 0 x) (zlen x) y = zsplice l 0 (x ++ y).
Proof.
  intros H. pose proof (zlen_nonneg x). pose proof (zlen_nonneg y). apply list_eq_Z. intros i Hi.
  rewrite !lookup_zsplice by (rewrite ?zlen_zsplice, ?zlen_app by lia; lia). rewrite zlen_app. repeat case_decide; try lia; try done.
  - rewrite lookup_app_r by (unfold zlen in *; lia). f_equal. unfold zlen in *. lia.
  - rewrite lookup_app_l by (unfold zlen in *; lia). done.
Qed.

Lemma bytes_zslice l off n : bytes l → bytes (zslice l off n).
Proof. intros H. by apply Forall_take, Forall_drop. Qed.

(** [a % b]; a zero divisor is undefined in C. *)
Definition umod (a b : Z) : outcome Z := if b =? 0 then Fault else Ret (a mod b).

Lemma umod_pos a b : 0 < b → umod a b = Ret (a mod b).
Proof. intros Hb. unfold umod. destruct (Z.eqb_spec b 0); [lia|done]. Qed.

(** ** Loops *)

(** [for (i = lo; i < lo + n; i++) s = body(i, s)]. *)
Fixpoint for_up {S} (n : nat) (i : Z) (body : Z → S → outcome S) (s : S) : outcome S :=
  match n with
  | O => Ret s
  | S n => s' ← body i s; for_up n (i + 1) body s'
  end.

Definition for_range {S} (lo hi : Z) (body : Z → S → outcome S) (s : S) : outcome S :=
  for_up (Z.to_nat (hi - lo)) lo body s.

(** The same loop with a body that may leave the function early: [inl s] goes
    on with the next iteration, [inr r] is [return r]. *)
Fixpoint find_up {S R} (n : nat) (i : Z) (body : Z → S → outcome (S + R)) (s : S)
    : outcome (S + R) :=
  match n with
  | O => Ret (inl s)
  | S n =>
      r ← body i s;
      match r with
      | inl s' => find_up n (i + 1) body s'
      | inr r => Ret (inr r)
      end
  end.

Definition find_range {S R} (lo hi : Z) (body : Z → S → outcome (S + R)) (s : S)
    : outcome (S + R) :=
  find_up (Z.to_nat (hi - lo)) lo body s.

Lemma for_up_ext {S} (body body' : Z → S → outcome S) n lo s :
  (∀ i s, body i s = body' i s) → for_up n lo body s = for_up n lo body' s.
Proof.
  intros H. revert lo s. induction n as [|n IH]; intros lo s; cbn; [done|].
  rewrite H. destruct (body' lo s); cbn; [apply IH|done..].
Qed.

Lemma for_up_inv {S} (I : Z → S → Prop) body n lo (s : S) :
  (∀ i s, lo ≤ i < lo + Z.of_nat n → I i s → ∃ s', body i s = Ret s' ∧ I (i + 1) s') →
  I lo s → ∃ s', for_up n lo body s = Ret s' ∧ I (lo + Z.of_nat n) s'.
Proof.
  revert lo s. induction n as [|n IH]; intros lo s Hstep Hs.
  - exists s. rewrite Z.add_0_r. done.
  - destruct (Hstep lo s) as (s1 & E1 & H1); [lia|done|].
    destruct (IH (lo + 1) s1) as (s2 & E2 & H2); [|done|].
    { intros i s' Hi. apply Hstep. lia. }
    exists s2. cbn. rewrite E1. cbn. rewrite E2. split; [done|].
    replace (lo + Z.of_nat (Datatypes.S n)) with (lo + 1 + Z.of_nat n) by lia. done.
Qed.

(** Invariant rule for the counting loop: the loop returns, and the invariant
    holds at the upper bound. *)
Lemma for_range_inv {S} (I : Z → S → Prop) body lo hi (s : S) :
  lo ≤ hi →
  (∀ i s, lo ≤ i < hi → I i s → ∃ s', body i s = Ret s' ∧ I (i + 1) s') →
  I lo s → ∃ s', for_range lo hi body s = Ret s' ∧ I hi s'.
Proof.
  intros Hle Hstep Hs.
  destruct (for_up_inv I body (Z.to_nat (hi - lo)) lo s) as (s' & E & H); [|done|].
  { intros i s' Hi. apply Hstep. lia. }
  exists s'. split; [done|]. replace hi with (lo + Z.of_nat (Z.to_nat (hi - lo))) by lia.
  done.
Qed.

(** The same for a body that may panic, when [P] holds. *)
Lemma for_range_may {S} (P : Prop) (I : Z → S → Prop) body lo hi (s : S) :
  lo ≤ hi →
  (∀ i s, lo ≤ i < hi → I i s → (body i s = Panic ∧ P) ∨ ∃ s', body i s = Ret s' ∧ I (i + 1) s') →
  I lo s → (for_range lo hi body s = Panic ∧ P) ∨ ∃ s', for_range lo hi body s = Ret s' ∧ I hi s'.
Proof.
  intros Hle. unfold for_range. remember (Z.to_nat (hi - lo)) as n eqn:En. revert lo s Hle En. induction n as [|n IH]; intros lo s Hle En Hstep Hs; cbn [for_up].
  - right. exists s. split; [done|]. by replace hi with lo by lia.
  - destruct (Hstep lo s ltac:(lia) Hs) as [[-> HP]|(s1 & -> & H1)]; [by left|]. cbn [mbind outcome_bind].
    apply IH; [lia|lia| |done]. intros i s' Hi. apply Hstep. lia.
Qed.

Lemma for_range_empty {S} body lo hi (s : S) : hi ≤ lo → for_range lo hi body s = Ret s.
Proof. intros H. unfold for_range. replace (Z.to_nat (hi - lo)) with O by lia. done. Qed.

Lemma find_up_inv {S R} (I : Z → S → Prop) (Q : R → Prop) body n lo (s : S) :
  (∀ i s, lo ≤ i < lo + Z.of_nat n → I i s →
     (∃ s', body i s = Ret (inl s') ∧ I (i + 1) s') ∨
     (∃ r, body i s = Ret (inr r) ∧ Q r)) →
  I lo s →
  (∃ s', find_up n lo body s = Ret (inl s') ∧ I (lo + Z.of_nat n) s') ∨
  (∃ r, find_up n lo body s = Ret (inr r) ∧ Q r).
Proof.
  revert lo s. induction n as [|n IH]; intros lo s Hstep Hs.
  - left. exists s. rewrite Z.add_0_r. done.
  - destruct (Hstep lo s) as [(s1 & E1 & H1)|(r & E1 & H1)]; [lia|done|..].
    + destruct (IH (lo + 1) s1) as [(s2 & E2 & H2)|(r & E2 & H2)]; [|done|..].
      * intros i s' Hi. apply Hstep. lia.
      * left. exists s2. cbn. rewrite E1. cbn. rewrite E2. split; [done|].
        replace (lo + Z.of_nat (Datatypes.S n)) with (lo + 1 + Z.of_nat n) by lia. done.
      * right. exists r. cbn. rewrite E1. cbn. rewrite E2. done.
    + right. exists r. cbn. rewrite E1. done.
Qed.

(** Invariant rule for the search loop: it returns, either having run to the
    upper bound with the invariant, or early with a result satisfying [Q]. *)
Lemma find_range_inv {S R} (I : Z → S → Prop) (Q : R → Prop) body lo hi (s : S) :
  lo ≤ hi →
  (∀ i s, lo ≤ i < hi → I i s →
     (∃ s', body i s = Ret (inl s') ∧ I (i + 1) s') ∨
     (∃ r, body i s = Ret (inr r) ∧ Q r)) →
  I lo s →
  (∃ s', find_range lo hi body s = Ret (inl s') ∧ I hi s') ∨
  (∃ r, find_range lo hi body s = Ret (inr r) ∧ Q r).
Proof.
  intros Hle Hstep Hs.
  destruct (find_up_inv I Q body (Z.to_nat (hi - lo)) lo s)
    as [(s' & E & H)|(r & E & H)]; [|done|..].
  - intros i s' Hi. apply Hstep. lia.
  - left. exists s'. split; [done|].
    replace hi with (lo + Z.of_nat (Z.to_nat (hi - lo))) by lia. done.
  - right. exists r. done.
Qed.

Lemma find_range_empty {S R} (body : Z → S → outcome (S + R)) lo hi (s : S) :
  hi ≤ lo → find_range lo hi body s = Ret (inl s).
Proof. intros H. unfold find_range. replace (Z.to_nat (hi - lo)) with O by lia. done. Qed.

(** Two search loops whose bodies agree up to [R] end with results that agree up to [Q]. *)
Definition sum_rel {A B A' B'} (R : A → A' → Prop) (Q : B → B' → Prop) (x : A + B) (y : A' + B') : Prop :=
  match x, y with inl a, inl a' => R a a' | inr b, inr b' => Q b b' | _, _ => False end.

Lemma find_up_sim {S T S' T'} (R : Z → S → S' → Prop) (Q : T → T' → Prop) body body' n lo (s : S) (s' : S') :
  (∀ i s s', lo ≤ i < lo + Z.of_nat n → R i s s' →
     ∃ x x', body i s = Ret x ∧ body' i s' = Ret x' ∧ sum_rel (R (i + 1)) Q x x') →
  R lo s s' →
  ∃ x x', find_up n lo body s = Ret x ∧ find_up n lo body' s' = Ret x' ∧ sum_rel (R (lo + Z.of_nat n)) Q x x'.
Proof.
  revert lo s s'. induction n as [|n IH]; intros lo s s' Hstep Hs.
  - exists (inl s), (inl s'). rewrite Z.add_0_r. done.
  - destruct (Hstep lo s s') as (x & x' & E & E' & H); [lia|done|]. cbn. rewrite E, E'. cbn.
    destruct x as [s1|r], x' as [s1'|r']; try done.
    + destruct (IH (lo + 1) s1 s1') as (y & y' & F & F' & H'); [|done|].
      { intros i t t' Hi. apply Hstep. lia. }
      exists y, y'. rewrite F, F'. split_and!; [done|done|].
      by replace (lo + Z.of_nat (Datatypes.S n)) with (lo + 1 + Z.of_nat n) by lia.
    + by exists (inr r), (inr r').
Qed.

Lemma find_range_sim {S T S' T'} (R : Z → S → S' → Prop) (Q : T → T' → Prop) body body' lo hi (s : S) (s' : S') :
  lo ≤ hi →
  (∀ i s s', lo ≤ i < hi → R i s s' → ∃ x x', body i s = Ret x ∧ body' i s' = Ret x' ∧ sum_rel (R (i + 1)) Q x x') →
  R lo s s' →
  ∃ x x', find_range lo hi body s = Ret x ∧ find_range lo hi body' s' = Ret x' ∧ sum_rel (R hi) Q x x'.
Proof.
  intros Hle Hstep Hs. destruct (find_up_sim R Q body body' (Z.to_nat (hi - lo)) lo s s') as (x & x' & E & E' & H); [|done|].
  - intros i t t' Hi. apply Hstep. lia.
  - exists x, x'. split_and!; [done|done|]. by replace hi with (lo + Z.of_nat (Z.to_nat (hi - lo))) by lia.
Qed.

(** A loop over the elements of a list. *)
Fixpoint foldlM {A S} (f : A → S → outcome S) (l : list A) (s : S) : outcome S :=
  match l with
  | [] => Ret s
  | x :: l => s ← f x s; foldlM f l s
  end.

Lemma foldlM_app {A S} (f : A → S → outcome S) l k s :
  foldlM f (l ++ k) s = (foldlM f l s ≫= foldlM f k).
Proof.
  revert s. induction l as [|x l IH]; intros s; cbn; [done|].
  destruct (f x s); cbn; [apply IH|done..].
Qed.

Lemma foldlM_ext {A S} (f g : A → S → outcome S) l s :
  (∀ x s, f x s = g x s) → foldlM f l s = foldlM g l s.
Proof.
  intros H. revert s. induction l as [|x l IH]; intros s; cbn; [done|].
  rewrite H. destruct (g x s); cbn; [apply IH|done..].
Qed.

Lemma foldlM_collect {A} (l acc : list A) :
  foldlM (λ x acc, Ret (acc ++ [x])) l acc = Ret (acc ++ l).
Proof.
  revert acc. induction l as [|x l IH]; intros acc; cbn; [by rewrite app_nil_r|].
  rewrite IH. by rewrite <-app_assoc.
Qed.

(** A counting loop whose iterations run over lists is one loop over their
    concatenation. *)
Lemma for_up_foldlM {A S} (f : A → S → outcome S) (g : Z → list A) body n lo s :
  (∀ i s, lo ≤ i < lo + Z.of_nat n → body i s = foldlM f (g i) s) →
  for_up n lo body s = foldlM f (concat (g <$> seqZ lo (Z.of_nat n))) s.
Proof.
  revert lo s. induction n as [|n IH]; intros lo s Hb; [done|].
  rewrite seqZ_cons by lia. cbn [for_up fmap list_fmap concat]. rewrite Hb by lia. rewrite foldlM_app.
  destruct (foldlM f (g lo) s) as [s'| | |]; cbn [mbind outcome_bind]; try done.
  rewrite IH by (intros; apply Hb; lia).
  replace (Z.pred (Z.of_nat (Datatypes.S n))) with (Z.of_nat n) by lia. done.
Qed.

Lemma sorted_concat {A} (R : A → A → Prop) (g : Z → list A) n lo :
  (∀ i, lo ≤ i < lo + Z.of_nat n → StronglySorted R (g i)) →
  (∀ i j x y, lo ≤ i < j → j < lo + Z.of_nat n → x ∈ g i → y ∈ g j → R x y) →
  StronglySorted R (concat (g <$> seqZ lo (Z.of_nat n))).
Proof.
  revert lo. induction n as [|n IH]; intros lo Hs Hd; [constructor|].
  rewrite seqZ_cons by lia. cbn [fmap list_fmap concat].
  replace (Z.pred (Z.of_nat (Datatypes.S n))) with (Z.of_nat n) by lia.
  apply StronglySorted_app. split; [|split].
  - intros x y Hx Hy. apply list_elem_of_In, in_concat in Hy as (c & Hc & Hy).
    apply list_elem_of_In, list_elem_of_fmap in Hc as (j & -> & Hj).
    apply elem_of_seqZ in Hj. apply (Hd lo j x y); [lia|lia|done|]. by apply list_elem_of_In.
  - apply Hs. lia.
  - apply IH; [intros; apply Hs; lia|]. intros i j x y Hi Hj. apply Hd; lia.
Qed.

(** ** Counting *)

(** How many [i] in [0 .. n-1] satisfy [f]. *)
Fixpoint zcount (f : Z → bool) (n : nat) : Z :=
  match n with
  | O => 0
  | S n => zcount f n + b2z (f (Z.of_nat n))
  end.

Lemma zcount_ext f g n :
  (∀ i, 0 ≤ i < Z.of_nat n → f i = g i) → zcount f n = zcount g n.
Proof.
  induction n as [|n IH]; intros H; cbn; [done|].
  rewrite IH by (intros; apply H; lia). rewrite H by lia. done.
Qed.

Lemma zcount_range f n : 0 ≤ zcount f n ≤ Z.of_nat n.
Proof. induction n as [|n IH]; cbn; [lia|]. destruct (f _); cbn; lia. Qed.

Lemma zcount_app f n m :
  zcount f (n + m) = zcount f n + zcount (λ i, f (Z.of_nat n + i)) m.
Proof.
  induction m as [|m IH].
  - rewrite Nat.add_0_r. cbn. lia.
  - rewrite Nat.add_succ_r. cbn [zcount]. rewrite IH, Nat2Z.inj_add. lia.
Qed.

Lemma zcount_none f n :
  (∀ i, 0 ≤ i < Z.of_nat n → f i = false) → zcount f n = 0.
Proof.
  induction n as [|n IH]; intros H; cbn; [done|].
  rewrite IH by (intros; apply H; lia). rewrite H by lia. done.
Qed.

Lemma zcount_pos f n i : 0 ≤ i < Z.of_nat n → f i = true → 0 < zcount f n.
Proof.
  induction n as [|n IH]; intros Hi Hf; cbn; [lia|].
  destruct (decide (i = Z.of_nat n)) as [->|].
  - rewrite Hf. pose proof (zcount_range f n). cbn. lia.
  - assert (0 < zcount f n) by (apply IH; [lia|done]). destruct (f (Z.of_nat n)); cbn; lia.
Qed.

Lemma zcount_update f g n k :
  0 ≤ k < Z.of_nat n → (∀ i, 0 ≤ i < Z.of_nat n → i ≠ k → f i = g i) →
  zcount f n = zcount g n - b2z (g k) + b2z (f k).
Proof.
  induction n as [|n IH]; intros Hk H; cbn; [lia|].
  destruct (decide (k = Z.of_nat n)) as [->|].
  - rewrite (zcount_ext f g) by (intros; apply H; lia). lia.
  - rewrite IH by (try lia; intros; apply H; lia).
    rewrite (H (Z.of_nat n)) by lia. lia.
Qed.

(** ** Tactics *)

(** Case analysis on the outermost [decide] of the goal ([case_decide] may
    pick one inside a compound proposition). *)
Tactic Notation "dec_if" "as" ident(H) :=
  match goal with
  | |- context [if @decide ?P ?d then _ else _] => destruct (@decide P d) as [H|H]
  end.
Tactic Notation "dec_if" := let H := fresh "Hdec" in dec_if as H.

(** ** Rewriting with the facts above *)

Create HintDb ints.
#[export] Hint Resolve u8_range u16_range u32_range u64_range : ints.
Create Rewrite HintDb zlen.
#[export] Hint Rewrite @zlen_insert @zlen_app @zlen_cons @zlen_replicate : zlen.

Ltac zlen_simpl := autorewrite with zlen in *.
