(* ===== verification/Kmath.v ===== *)
(** The integer helpers of [kernel/lib/kmath.h]: overflow-checked arithmetic,
    alignment to a power of two, [ilog2] and rounding division. *)

From S2P Require Import Prelude.

(** ** Definitions *)

(** The checked operations return the status and, when it is 0, the value
    stored through [out]. *)
Definition check_add_u64 (a b : Z) : Z * option Z :=
  if u64 (not64 0 - b) <? a then (-1, None) else (0, Some (u64 (a + b))).

Definition check_mul_u64 (a b : Z) : Z * option Z :=
  if negb (a =? 0) && (not64 0 / a <? b) then (-1, None) else (0, Some (u64 (a * b))).

Definition check_add_size (a b : Z) : Z * option Z :=
  if u64 (not64 0 - b) <? a then (-1, None) else (0, Some (u64 (a + b))).

Definition check_mul_size (a b : Z) : Z * option Z :=
  if negb (a =? 0) && (not64 0 / a <? b) then (-1, None) else (0, Some (u64 (a * b))).

Definition align_up_u64 (x a : Z) : Z :=
  Z.land (u64 (x + u64 (a - 1))) (not64 (u64 (a - 1))).

Definition align_down_u64 (x a : Z) : Z := Z.land x (not64 (u64 (a - 1))).

Definition is_pow2_u64 (x : Z) : Z :=
  b2z (negb (x =? 0) && (Z.land x (u64 (x - 1)) =? 0)).

(** [while (x >>= 1) r++;] *)
Fixpoint ilog2_loop (fuel : nat) (x r : Z) : outcome Z :=
  match fuel with
  | O => Loop
  | S fuel =>
      let x := Z.shiftr x 1 in
      if x =? 0 then Ret r else ilog2_loop fuel x (u32 (r + 1))
  end.

(** A 64-bit value is shifted to zero in at most 64 steps. *)
Definition ilog2_u64 (x : Z) : outcome Z := ilog2_loop 64 x 0.

Definition div_round_up_u64 (a b : Z) : Z :=
  if b =? 0 then 0 else u64 (u64 (a + b) - 1) / b.

Definition min_u64 (a b : Z) : Z := if a <? b then a else b.
Definition max_u64 (a b : Z) : Z := if b <? a then a else b.
Definition clamp_i64 (v lo hi : Z) : Z := if v <? lo then lo else if hi <? v then hi else v.

(** ** Lemmas *)

Lemma not64_0 : not64 0 = 2 ^ 64 - 1.
Proof. reflexivity. Qed.

(** Clearing the low [k] bits with the mask [~(2^k - 1)]. *)
Lemma land_not_low x k :
  0 ≤ k ≤ 64 → is_u64 x → Z.land x (not64 (2 ^ k - 1)) = x - x mod 2 ^ k.
Proof.
  intros Hk Hx.
  assert (x - x mod 2 ^ k = 2 ^ k * (x / 2 ^ k)) as ->.
  { pose proof (Z.div_mod x (2 ^ k)) as H. pose proof (Z.pow_pos_nonneg 2 k). lia. }
  rewrite Z.mul_comm, <-Z.shiftr_div_pow2, <-Z.shiftl_mul_pow2 by lia.
  apply Z.bits_inj'. intros i Hi. rewrite Z.land_spec, Z.shiftl_spec by lia.
  destruct (decide (i < 64)) as [Hi64|Hi64].
  - rewrite testbit_not64 by lia. replace (2 ^ k - 1) with (Z.ones k) by (rewrite Z.ones_equiv; lia).
    destruct (decide (i < k)) as [Hik|Hik].
    + rewrite Z.ones_spec_low by lia. rewrite (Z.testbit_neg_r _ (i - k)) by lia. apply andb_false_r.
    + rewrite Z.ones_spec_high, Z.shiftr_spec by lia. cbn. rewrite andb_true_r. f_equal. lia.
  - rewrite (testbit_high x 64) by (unfold is_u64 in Hx; lia).
    rewrite Z.shiftr_spec by lia. rewrite (testbit_high x 64); [done|exact Hx|lia].
Qed.

Lemma align_down_u64_spec x k :
  0 ≤ k < 64 → is_u64 x → align_down_u64 x (2 ^ k) = x - x mod 2 ^ k.
Proof.
  intros Hk Hx. unfold align_down_u64.
  assert (1 ≤ 2 ^ k < 2 ^ 64) by (split; [|apply Z.pow_lt_mono_r; lia]; pose proof (Z.pow_pos_nonneg 2 k); lia).
  rewrite (u64_small (_ - 1)) by lia. apply land_not_low; [lia|done].
Qed.

Lemma align_up_u64_spec x k :
  0 ≤ k < 64 → is_u64 x → x + 2 ^ k ≤ 2 ^ 64 →
  align_up_u64 x (2 ^ k) = 2 ^ k * ((x + 2 ^ k - 1) / 2 ^ k).
Proof.
  intros Hk Hx Hov. unfold align_up_u64, is_u64 in *.
  assert (1 ≤ 2 ^ k < 2 ^ 64) by (split; [|apply Z.pow_lt_mono_r; lia]; pose proof (Z.pow_pos_nonneg 2 k); lia).
  rewrite (u64_small (2 ^ k - 1)), (u64_small (x + _)) by lia.
  rewrite land_not_low by (unfold is_u64; lia).
  pose proof (Z.div_mod (x + 2 ^ k - 1) (2 ^ k)) as H'.
  replace (x + (2 ^ k - 1)) with (x + 2 ^ k - 1) by lia. lia.
Qed.

(** Rounding up gives the least multiple that is not below [x]. *)
Lemma align_up_least x k :
  0 ≤ k < 64 → is_u64 x → x + 2 ^ k ≤ 2 ^ 64 →
  let y := align_up_u64 x (2 ^ k) in
  y mod 2 ^ k = 0 ∧ x ≤ y < x + 2 ^ k ∧ ∀ z, z mod 2 ^ k = 0 → x ≤ z → y ≤ z.
Proof.
  intros Hk Hx Hov y. subst y. rewrite align_up_u64_spec by done.
  assert (0 < 2 ^ k) as Hp by (apply Z.pow_pos_nonneg; lia).
  pose proof (Z.div_mod (x + 2 ^ k - 1) (2 ^ k) ltac:(lia)) as E.
  pose proof (Z.mod_pos_bound (x + 2 ^ k - 1) (2 ^ k) Hp) as B.
  set (d := (x + 2 ^ k - 1) / 2 ^ k) in *. set (m := 2 ^ k) in *.
  split; [rewrite Z.mul_comm; apply Z.mod_mul; lia|]. split; [lia|].
  intros z Hz Hxz. pose proof (Z.div_mod z m ltac:(lia)) as Ez. rewrite Hz in Ez.
  set (q := z / m) in *. clearbody d q m.
  assert (d < q + 1) by (apply (Z.mul_lt_mono_pos_l m); lia).
  assert (m * d ≤ m * q) by (apply Z.mul_le_mono_nonneg_l; lia). lia.
Qed.

Lemma ilog2_loop_spec fuel x r :
  0 < x → x < 2 ^ Z.of_nat fuel → 0 ≤ r → r + Z.of_nat fuel < 2 ^ 32 →
  ilog2_loop fuel x r = Ret (r + Z.log2 x).
Proof.
  revert x r. induction fuel as [|fuel IH]; intros x r Hx Hf Hr Hmax; [cbn in Hf; lia|].
  cbn [ilog2_loop]. rewrite Z.shiftr_div_pow2 by lia. change (2 ^ 1) with 2.
  destruct (Z.eqb_spec (x / 2) 0) as [Hz|Hz].
  - assert (x = 1) as -> by zlia. cbn. f_equal. lia.
  - rewrite u32_small by lia. rewrite IH; [|zlia| |lia|lia].
    + f_equal. assert (Z.log2 x = Z.succ (Z.log2 (x / 2))) as ->; [|lia].
      pose proof (Z.div_mod x 2 ltac:(lia)) as E.
      destruct (Z.mod_pos_bound x 2 ltac:(lia)) as [H0 H1].
      assert (x mod 2 = 0 ∨ x mod 2 = 1) as [M|M] by lia; rewrite M in E; rewrite E at 1.
      * rewrite Z.add_0_r. apply Z.log2_double. lia.
      * apply Z.log2_succ_double. lia.
    + rewrite Nat2Z.inj_succ, Z.pow_succ_r in Hf by lia. zlia.
Qed.

Lemma is_pow2_u64_spec x : is_u64 x → is_pow2_u64 x = 1 ↔ ∃ k, 0 ≤ k < 64 ∧ x = 2 ^ k.
Proof.
  intros Hx. unfold is_pow2_u64, is_u64 in *. destruct (Z.eqb_spec x 0) as [->|Hnz]; cbn [negb andb b2z].
  { split; [done|]. intros (k & Hk & E). pose proof (Z.pow_pos_nonneg 2 k). lia. }
  rewrite u64_small by lia. pose proof (Z.log2_spec x ltac:(lia)) as [L1 L2].
  pose proof (Z.log2_nonneg x) as L0.
  assert (Z.log2 x < 64) as L3 by (apply Z.log2_lt_pow2; lia).
  set (k := Z.log2 x) in *. rewrite Z.pow_succ_r in L2 by lia. split.
  - intros H. destruct (Z.eqb_spec (Z.land x (x - 1)) 0) as [E|]; [|discriminate].
    exists k. split; [lia|]. destruct (decide (x = 2 ^ k)) as [|Hne]; [done|].
    assert (Z.testbit (Z.land x (x - 1)) k = true) as B; [|by rewrite E, Z.bits_0 in B].
    assert (∀ y, 2 ^ k ≤ y < 2 * 2 ^ k → Z.testbit y k = true) as Htop.
    { intros y Hy. replace k with (Z.log2 y); [apply Z.bit_log2; lia|].
      apply Z.log2_unique; [lia|]. rewrite Z.pow_succ_r by lia. lia. }
    rewrite Z.land_spec, !Htop by lia. done.
  - intros (j & Hj & ->). rewrite land_ones_mod by lia. rewrite Z.mod_same; [done|].
    pose proof (Z.pow_pos_nonneg 2 j). lia.
Qed.

Lemma check_add_u64_spec a b :
  is_u64 a → is_u64 b →
  check_add_u64 a b = if a + b <? 2 ^ 64 then (0, Some (a + b)) else (-1, None).
Proof.
  intros Ha Hb. unfold check_add_u64, is_u64 in *. rewrite not64_0, (u64_small (_ - b)) by lia.
  destruct (Z.ltb_spec (2 ^ 64 - 1 - b) a), (Z.ltb_spec (a + b) (2 ^ 64)); try lia; [done|].
  by rewrite u64_small by lia.
Qed.

Lemma check_mul_u64_spec a b :
  is_u64 a → is_u64 b →
  check_mul_u64 a b = if a * b <? 2 ^ 64 then (0, Some (a * b)) else (-1, None).
Proof.
  intros Ha Hb. unfold check_mul_u64, is_u64 in *. rewrite not64_0.
  destruct (Z.eqb_spec a 0) as [->|Hnz]; cbn [negb andb]; [done|].
  pose proof (Z.div_mod (2 ^ 64 - 1) a Hnz) as E.
  pose proof (Z.mod_pos_bound (2 ^ 64 - 1) a ltac:(lia)) as B.
  set (q := (2 ^ 64 - 1) / a) in *. set (r := (2 ^ 64 - 1) mod a) in *.
  destruct (Z.ltb_spec q b) as [H1|H1].
  - assert (a * (q + 1) ≤ a * b) by (apply Z.mul_le_mono_nonneg_l; lia).
    destruct (Z.ltb_spec (a * b) (2 ^ 64)); [lia|done].
  - assert (a * b ≤ a * q) by (apply Z.mul_le_mono_nonneg_l; lia).
    assert (0 ≤ a * b) by (apply Z.mul_nonneg_nonneg; lia).
    destruct (Z.ltb_spec (a * b) (2 ^ 64)); [by rewrite u64_small by lia|lia].
Qed.

(** ** Theorems *)

(** The checked additions and multiplications succeed exactly when the
    mathematical result fits in 64 bits, and then store it; otherwise they return
    -1 and store nothing. *)
Theorem kmath_checked_exact a b :
  is_u64 a → is_u64 b →
  check_add_u64 a b = (if a + b <? 2 ^ 64 then (0, Some (a + b)) else (-1, None)) ∧
  check_add_size a b = (if a + b <? 2 ^ 64 then (0, Some (a + b)) else (-1, None)) ∧
  check_mul_u64 a b = (if a * b <? 2 ^ 64 then (0, Some (a * b)) else (-1, None)) ∧
  check_mul_size a b = (if a * b <? 2 ^ 64 then (0, Some (a * b)) else (-1, None)).
Proof.
  intros Ha Hb. pose proof (check_add_u64_spec a b Ha Hb). pose proof (check_mul_u64_spec a b Ha Hb).
  done.
Qed.

Lemma kmath_checked_exact_witness :
  check_mul_size (2 ^ 33) (2 ^ 31) = (-1, None) ∧ check_mul_u64 (2 ^ 33) (2 ^ 31) = (-1, None).
Proof.
  pose proof (kmath_checked_exact (2 ^ 33) (2 ^ 31)) as (_ & _ & H1 & H2);
    [split; lia|split; lia|]. split; [exact H2|exact H1].
Defined.

(** For a power of two [2^k]: [is_pow2_u64] recognises exactly the powers of
    two; [align_down_u64] gives the greatest multiple not above [x];
    [align_up_u64] the least multiple not below [x], when that addition does not
    wrap; [ilog2_u64] terminates with the floor of the logarithm. *)
Theorem kmath_pow2 x k :
  is_u64 x → 0 ≤ k < 64 →
  (is_pow2_u64 x = 1 ↔ ∃ j, 0 ≤ j < 64 ∧ x = 2 ^ j) ∧
  align_down_u64 x (2 ^ k) = x - x mod 2 ^ k ∧
  (x + 2 ^ k ≤ 2 ^ 64 →
   let y := align_up_u64 x (2 ^ k) in
   y mod 2 ^ k = 0 ∧ x ≤ y < x + 2 ^ k ∧ ∀ z, z mod 2 ^ k = 0 → x ≤ z → y ≤ z) ∧
  ilog2_u64 x = Ret (Z.log2 x).
Proof.
  intros Hx Hk. split; [by apply is_pow2_u64_spec|]. split; [by apply align_down_u64_spec|].
  split; [by apply align_up_least|]. unfold ilog2_u64, is_u64 in *.
  destruct (decide (x = 0)) as [->|Hnz]; [done|].
  rewrite ilog2_loop_spec; [done|lia|exact (proj2 Hx)|lia|lia].
Qed.

Lemma kmath_pow2_witness :
  align_down_u64 0x12345 (2 ^ 12) = 0x12000 ∧ align_up_u64 0x12345 (2 ^ 12) mod 2 ^ 12 = 0 ∧
  ilog2_u64 0x12345 = Ret 16.
Proof.
  pose proof (kmath_pow2 0x12345 12) as (_ & H1 & H2 & H3); [split; lia|lia|].
  split; [exact H1|]. split; [apply H2; lia|exact H3].
Defined.
