(* ===== verification/Hashtable.v ===== *)
(** The chained hash table, [kernel/lib/hashtable.c]: hashing, creation, put,
    get, remove, iteration and destruction, refined against a finite map. *)

From S2P Require Import Prelude.

(** ** Definitions *)

Definition hash_u64 (x : Z) : Z :=
  let x := u64 (x + 0x9E3779B97F4A7C15) in
  let x := u64 (Z.lxor x (Z.shiftr x 30) * 0xBF58476D1CE4E5B9) in
  let x := u64 (Z.lxor x (Z.shiftr x 27) * 0x94D049BB133111EB) in
  Z.lxor x (Z.shiftr x 31).

Definition hash_bytes_body (p : list Z) (i h : Z) : outcome Z :=
  b ← aget p i; Ret (u64 (Z.lxor h b * 0x100000001B3)).

Definition hash_bytes (p : list Z) (len : Z) : outcome Z :=
  for_range 0 len (hash_bytes_body p) 0xCBF29CE484222325.

Record hnode := mk_hnode { hn_key : Z; hn_value : Z }.

(** A bucket is the chain of nodes reachable from it, first node first; the
    table owns its nodes. [None] is a NULL bucket array. *)
Record hashtable := mk_hashtable {
  ht_buckets : option (list (list hnode));
  ht_nbuckets : Z;
  ht_mask : Z;
  ht_count : Z
}.

Fixpoint round_pow2_loop (fuel : nat) (v p : Z) : outcome Z :=
  if p <? v then
    match fuel with
    | O => Loop
    | S fuel => round_pow2_loop fuel v (u64 (Z.shiftl p 1))
    end
  else Ret p.

Definition round_pow2 (fuel : nat) (v : Z) : outcome Z := round_pow2_loop fuel v 8.

(** [alloc n] tells whether [kcalloc] returns a block for [n] pointers; when it
    does the block is zeroed. The fuel is that of [round_pow2]. *)
Definition hashtable_init (fuel : nat) (alloc : Z → bool) (ht : hashtable) (hint : Z)
    : outcome (hashtable * Z) :=
  n ← round_pow2 fuel (if hint =? 0 then 8 else hint);
  if alloc n then
    Ret (mk_hashtable (Some (replicate (Z.to_nat n) [])) n (u64 (n - 1)) 0, 0)
  else Ret (mk_hashtable None (ht_nbuckets ht) (ht_mask ht) (ht_count ht), -1).

Definition bucket_at (ht : hashtable) (b : Z) : outcome (list hnode) :=
  match ht_buckets ht with Some bs => aget bs b | None => Fault end.

Definition set_bucket (ht : hashtable) (b : Z) (c : list hnode) : outcome hashtable :=
  match ht_buckets ht with
  | Some bs =>
      bs ← aset bs b c;
      Ret (mk_hashtable (Some bs) (ht_nbuckets ht) (ht_mask ht) (ht_count ht))
  | None => Fault
  end.

(** The number of blocks passed to [kfree] is returned with the table. *)
Definition hashtable_destroy (ht : hashtable) : outcome (hashtable * Z) :=
  match ht_buckets ht with
  | None => Ret (ht, 0)
  | Some _ =>
      freed ← for_range 0 (ht_nbuckets ht)
                (λ i freed, c ← bucket_at ht i; Ret (freed + zlen c)) 0;
      Ret (mk_hashtable None 0 0 0, freed + 1)
  end.

(** Position of the node with [key] in a chain. *)
Fixpoint find_chain (c : list hnode) (key : Z) : option nat :=
  match c with
  | [] => None
  | n :: c => if hn_key n =? key then Some O else S <$> find_chain c key
  end.

Definition bucket_of (ht : hashtable) (key : Z) : Z := Z.land (hash_u64 key) (ht_mask ht).

(** The bucket and the position of the node in its chain. *)
Definition find_node (ht : hashtable) (key : Z) : outcome (Z * option nat) :=
  let b := bucket_of ht key in
  c ← bucket_at ht b;
  Ret (b, find_chain c key).

Definition hashtable_put (alloc : bool) (ht : hashtable) (key value : Z)
    : outcome (hashtable * Z) :=
  '(b, existing) ← find_node ht key;
  c ← bucket_at ht b;
  match existing with
  | Some i =>
      ht ← set_bucket ht b (alter (λ n, mk_hnode (hn_key n) value) i c);
      Ret (ht, 0)
  | None =>
      if alloc then
        ht ← set_bucket ht b (mk_hnode key value :: c);
        Ret (mk_hashtable (ht_buckets ht) (ht_nbuckets ht) (ht_mask ht) (u64 (ht_count ht + 1)), 0)
      else Ret (ht, -1)
  end.

(** The value returned and the one stored through [found]. *)
Definition hashtable_get (ht : hashtable) (key : Z) : outcome (Z * Z) :=
  '(b, pos) ← find_node ht key;
  c ← bucket_at ht b;
  match pos ≫= (c !!.) with
  | Some n => Ret (hn_value n, 1)
  | None => Ret (0, 0)
  end.

(** Unlink the first node with [key]; [None] when there is none. *)
Fixpoint remove_chain (c : list hnode) (key : Z) : option (Z * list hnode) :=
  match c with
  | [] => None
  | n :: c =>
      if hn_key n =? key then Some (hn_value n, c)
      else match remove_chain c key with
           | Some (v, c') => Some (v, n :: c')
           | None => None
           end
  end.

Definition hashtable_remove (ht : hashtable) (key : Z) : outcome (hashtable * Z) :=
  let b := bucket_of ht key in
  c ← bucket_at ht b;
  match remove_chain c key with
  | Some (val, c') =>
      ht ← set_bucket ht b c';
      Ret (mk_hashtable (ht_buckets ht) (ht_nbuckets ht) (ht_mask ht) (u64 (ht_count ht - 1)), val)
  | None => Ret (ht, 0)
  end.

Definition hashtable_contains (ht : hashtable) (key : Z) : outcome Z :=
  '(_, pos) ← find_node ht key;
  Ret (b2z (bool_decide (is_Some pos))).

Definition hashtable_count (ht : hashtable) : Z := ht_count ht.

Section Foreach.
Context {S : Type} (fn : Z → Z → S → outcome S).

Fixpoint foreach_chain (c : list hnode) (ctx : S) : outcome S :=
  match c with
  | [] => Ret ctx
  | n :: c => ctx ← fn (hn_key n) (hn_value n) ctx; foreach_chain c ctx
  end.

Definition foreach_bucket (ht : hashtable) (i : Z) (ctx : S) : outcome S :=
  c ← bucket_at ht i; foreach_chain c ctx.

Definition hashtable_foreach (ht : hashtable) (ctx : S) : outcome S :=
  for_range 0 (ht_nbuckets ht) (foreach_bucket ht) ctx.

End Foreach.

(** ** Specification *)

Definition node_pair (n : hnode) : Z * Z := (hn_key n, hn_value n).

Definition ht_nodes (ht : hashtable) : list hnode := concat (default [] (ht_buckets ht)).

(** The finite map a table stands for. *)
Definition ht_map (ht : hashtable) : gmap Z Z := list_to_map (node_pair <$> ht_nodes ht).

Definition placed (mask : Z) (bs : list (list hnode)) : Prop :=
  ∀ i c n, bs !! i = Some c → n ∈ c → Z.land (hash_u64 (hn_key n)) mask = Z.of_nat i.

Record ht_wf (ht : hashtable) (bs : list (list hnode)) : Prop := {
  wf_buckets : ht_buckets ht = Some bs;
  wf_nbuckets : ht_nbuckets ht = zlen bs;
  wf_pow2 : ∃ k, 3 ≤ k < 64 ∧ zlen bs = 2 ^ k;
  wf_mask : ht_mask ht = zlen bs - 1;
  wf_placed : placed (ht_mask ht) bs;
  wf_nodup : NoDup (hn_key <$> concat bs);
  wf_count : ht_count ht = u64 (zlen (concat bs))
}.

(** ** Lemmas *)

Lemma hash_u64_range x : is_u64 (hash_u64 x).
Proof.
  unfold hash_u64. cbv zeta. set (t := u64 _).
  assert (is_u64 t) as [H1 H2] by apply u64_range. clearbody t.
  assert (0 ≤ Z.lxor t (Z.shiftr t 31)) as Hn.
  { apply Z.lxor_nonneg. rewrite Z.shiftr_nonneg. lia. }
  split; [done|]. apply bits_lt_pow2; [done|lia|]. intros i Hi.
  rewrite Z.lxor_spec, Z.shiftr_spec, !(testbit_high t 64) by lia. done.
Qed.

Lemma bucket_of_range ht bs key : ht_wf ht bs → 0 ≤ bucket_of ht key < zlen bs.
Proof.
  intros [_ _ (k & Hk & E) Hm _ _ _]. unfold bucket_of. rewrite Hm, E, land_ones_mod by lia.
  apply Z.mod_pos_bound. apply Z.pow_pos_nonneg; lia.
Qed.

(** The chain of a bucket, and the rest of the table around it. *)
Lemma bucket_split ht bs key :
  ht_wf ht bs →
  ∃ c, bucket_at ht (bucket_of ht key) = Ret c ∧
    bs !! Z.to_nat (bucket_of ht key) = Some c ∧
    (∀ c', set_bucket ht (bucket_of ht key) c' =
           Ret (mk_hashtable (Some (<[Z.to_nat (bucket_of ht key) := c']> bs))
                  (ht_nbuckets ht) (ht_mask ht) (ht_count ht))).
Proof.
  intros H. pose proof (bucket_of_range ht bs key H) as Hr.
  destruct (aget_in bs _ Hr) as (c & Hc & E). exists c. unfold bucket_at, set_bucket.
  rewrite (wf_buckets _ _ H). split; [done|]. split; [done|].
  intros c'. rewrite aset_in by done. done.
Qed.

Lemma concat_update {A} (bs : list (list A)) i c :
  bs !! i = Some c → ∃ l1 l2, concat bs = l1 ++ c ++ l2 ∧
    (∀ c', concat (<[i := c']> bs) = l1 ++ c' ++ l2) ∧
    (∀ x, x ∈ l1 ++ l2 → ∃ j c', j ≠ i ∧ bs !! j = Some c' ∧ x ∈ c').
Proof.
  revert i. induction bs as [|b bs IH]; intros [|i] Hi; cbn in *; try discriminate.
  - injection Hi as ->. exists [], (concat bs). split; [done|]. split; [done|].
    intros x Hx. cbn in Hx. apply list_elem_of_In, in_concat in Hx as (c' & Hc & Hx).
    apply list_elem_of_In, list_elem_of_lookup in Hc as (j & Hj).
    exists (S j), c'. split; [done|]. split; [done|]. by apply list_elem_of_In.
  - destruct (IH i Hi) as (l1 & l2 & E & Hu & Hx). exists (b ++ l1), l2.
    rewrite E, <-app_assoc. split; [done|]. split; [intros c'; by rewrite Hu, <-app_assoc|].
    intros x Hin. rewrite <-app_assoc in Hin. apply elem_of_app in Hin as [Hin|Hin].
    + exists O, b. done.
    + destruct (Hx x Hin) as (j & c' & Hj & Hc & Hxc). exists (S j), c'. split; [lia|]. done.
Qed.

Lemma find_chain_Some c key i :
  find_chain c key = Some i →
  ∃ v R, c !! i = Some (mk_hnode key v) ∧ c ≡ₚ mk_hnode key v :: R ∧
    ∀ value, alter (λ n, mk_hnode (hn_key n) value) i c ≡ₚ mk_hnode key value :: R.
Proof.
  revert i. induction c as [|n c IH]; intros i H; cbn in H; [discriminate|].
  destruct (Z.eqb_spec (hn_key n) key) as [Hk|Hk].
  - injection H as <-. destruct n as [k v]; cbn in *; subst. by exists v, c.
  - destruct (find_chain c key) as [j|] eqn:E; [|discriminate]. injection H as <-.
    destruct (IH j eq_refl) as (v & R & H1 & H2 & H3). exists v, (n :: R). cbn.
    split; [done|]. split; [rewrite H2; apply perm_swap|].
    intros value. change (alter ?f (S j) (n :: c)) with (n :: alter f j c).
    rewrite H3. apply perm_swap.
Qed.

Lemma find_chain_None c key : find_chain c key = None → ∀ n, n ∈ c → hn_key n ≠ key.
Proof.
  induction c as [|n c IH]; cbn; intros H m Hm; [set_solver|].
  destruct (Z.eqb_spec (hn_key n) key); [discriminate|].
  destruct (find_chain c key); [discriminate|]. apply elem_of_cons in Hm as [->|Hm]; [done|].
  by apply IH.
Qed.

Lemma remove_chain_Some c key v c' :
  remove_chain c key = Some (v, c') → c ≡ₚ mk_hnode key v :: c'.
Proof.
  revert c'. induction c as [|n c IH]; cbn; intros c' H; [discriminate|].
  destruct (Z.eqb_spec (hn_key n) key) as [Hk|Hk].
  - injection H as <- <-. destruct n; cbn in *. by subst.
  - destruct (remove_chain c key) as [[v' c1]|]; [|discriminate]. injection H as -> <-.
    rewrite (IH c1) by done. apply perm_swap.
Qed.

Lemma remove_chain_None c key : remove_chain c key = None → ∀ n, n ∈ c → hn_key n ≠ key.
Proof.
  induction c as [|n c IH]; cbn; intros H m Hm; [set_solver|].
  destruct (Z.eqb_spec (hn_key n) key); [discriminate|].
  destruct (remove_chain c key) as [[]|]; [discriminate|].
  apply elem_of_cons in Hm as [->|Hm]; [done|]. by apply IH.
Qed.

Definition nodes_map (l : list hnode) : gmap Z Z := list_to_map (node_pair <$> l).

Lemma nodes_keys (l : list hnode) : (node_pair <$> l).*1 = hn_key <$> l.
Proof. rewrite <-list_fmap_compose. by apply list_fmap_ext. Qed.

Lemma nodes_map_perm l k : NoDup (hn_key <$> l) → l ≡ₚ k → nodes_map l = nodes_map k.
Proof.
  intros Hnd Hp. unfold nodes_map. apply list_to_map_proper; [by rewrite nodes_keys|by rewrite Hp].
Qed.

Lemma nodes_map_cons n l : nodes_map (n :: l) = <[hn_key n := hn_value n]> (nodes_map l).
Proof. done. Qed.

Lemma nodes_map_app l k : nodes_map (l ++ k) = nodes_map l ∪ nodes_map k.
Proof. unfold nodes_map. by rewrite fmap_app, list_to_map_app. Qed.

Lemma nodes_map_None l key : (∀ n, n ∈ l → hn_key n ≠ key) → nodes_map l !! key = None.
Proof.
  intros H. apply not_elem_of_list_to_map_1. rewrite nodes_keys. intros Hin.
  apply list_elem_of_fmap in Hin as (n & -> & Hn). by apply (H n).
Qed.

Lemma nodes_map_size l : NoDup (hn_key <$> l) → size (nodes_map l) = length l.
Proof.
  intros H. unfold nodes_map. rewrite map_size_list_to_map by (by rewrite nodes_keys).
  by rewrite length_fmap.
Qed.

(** Replacing one chain, up to the order of the nodes. *)
Lemma ht_update ht bs key c c' d :
  ht_wf ht bs → bs !! Z.to_nat (bucket_of ht key) = Some c →
  (∀ n, n ∈ c' → n ∈ c ∨ hn_key n = key) → NoDup (hn_key <$> c') → zlen c' = zlen c + d →
  let bs' := <[Z.to_nat (bucket_of ht key) := c']> bs in
  ht_wf (mk_hashtable (Some bs') (ht_nbuckets ht) (ht_mask ht) (u64 (ht_count ht + d))) bs' ∧
  ∃ R, concat bs ≡ₚ c ++ R ∧ concat bs' ≡ₚ c' ++ R ∧ ∀ n, n ∈ R → hn_key n ≠ key.
Proof.
  intros Hwf Hc Hin Hnd Hlen bs'. pose proof (bucket_of_range ht bs key Hwf) as Hr.
  destruct (concat_update bs _ c Hc) as (l1 & l2 & E & Hu & Hx).
  assert (concat bs ≡ₚ c ++ l1 ++ l2) as P1 by (rewrite E; apply Permutation_app_swap_app).
  assert (concat bs' ≡ₚ c' ++ l1 ++ l2) as P2.
  { unfold bs'. rewrite Hu. apply Permutation_app_swap_app. }
  assert (∀ n, n ∈ l1 ++ l2 → bucket_of ht (hn_key n) ≠ bucket_of ht key) as Hne.
  { intros n Hn. destruct (Hx n Hn) as (j & cj & Hj & Hcj & Hn').
    unfold bucket_of at 1. rewrite (wf_placed _ _ Hwf j cj n Hcj Hn'). lia. }
  split.
  - destruct Hwf as [H1 H2 H3 H4 H5 H6 H7].
    constructor; cbn; unfold bs' in *; rewrite ?zlen_insert; [done..| | |].
    + intros i ci n Hi Hn. destruct (decide (i = Z.to_nat (bucket_of ht key))) as [->|Hi'].
      * rewrite list_lookup_insert_eq in Hi by (apply lookup_lt_Some in Hc; lia). injection Hi as <-.
        destruct (Hin n Hn) as [Hn'|Hn']; [by apply (H5 _ c)|].
        rewrite Hn'. change (Z.land _ _) with (bucket_of ht key). lia.
      * rewrite list_lookup_insert_ne in Hi by done. by apply (H5 i ci).
    + rewrite P2, fmap_app. rewrite P1, fmap_app in H6. apply NoDup_app in H6 as (_ & H6 & H8).
      apply NoDup_app. split; [done|]. split; [|done]. intros k Hk Hk'.
      apply list_elem_of_fmap in Hk as (n & -> & Hn). destruct (Hin n Hn) as [Hn'|Hn'].
      * apply (H6 (hn_key n)); [|done]. apply list_elem_of_fmap. eauto.
      * apply list_elem_of_fmap in Hk' as (m & Em & Hm). apply (Hne m Hm). congruence.
    + rewrite H7. unfold u64. rewrite Zplus_mod_idemp_l. f_equal.
      assert (zlen (concat bs) = zlen (c ++ l1 ++ l2)) as -> by (unfold zlen; by rewrite P1).
      unfold zlen at 2. rewrite P2. fold (zlen (c' ++ l1 ++ l2)). rewrite !zlen_app. lia.
  - exists (l1 ++ l2). split; [done|]. split; [done|]. intros n Hn Hk. apply (Hne n Hn). by rewrite Hk.
Qed.

Lemma chain_nodup ht bs i c : ht_wf ht bs → bs !! i = Some c → NoDup (hn_key <$> c).
Proof.
  intros Hwf Hc. destruct (concat_update bs i c Hc) as (l1 & l2 & E & _).
  pose proof (wf_nodup _ _ Hwf) as H. rewrite E, !fmap_app in H.
  apply NoDup_app in H as (_ & _ & H). by apply NoDup_app in H as (H & _).
Qed.

Lemma ht_map_wf ht bs : ht_wf ht bs → ht_map ht = nodes_map (concat bs).
Proof. intros H. unfold ht_map, ht_nodes. by rewrite (wf_buckets _ _ H). Qed.

(** What [find_chain] on the bucket of [key] says about the map. *)
Lemma ht_map_bucket ht bs key c :
  ht_wf ht bs → bs !! Z.to_nat (bucket_of ht key) = Some c →
  ht_map ht !! key = nodes_map c !! key.
Proof.
  intros Hwf Hc. rewrite (ht_map_wf _ _ Hwf).
  destruct (ht_update ht bs key c c 0 Hwf Hc) as (_ & R & P & _ & HR);
    [by left|by eapply chain_nodup|lia|].
  rewrite (nodes_map_perm _ _ (wf_nodup _ _ Hwf) P), nodes_map_app, lookup_union.
  rewrite (nodes_map_None R key) by done. by destruct (nodes_map c !! key).
Qed.

Lemma hashtable_get_spec ht bs key :
  ht_wf ht bs →
  hashtable_get ht key = Ret (match ht_map ht !! key with Some v => (v, 1) | None => (0, 0) end) ∧
  hashtable_contains ht key = Ret (b2z (bool_decide (is_Some (ht_map ht !! key)))).
Proof.
  intros Hwf. unfold hashtable_get, hashtable_contains, find_node.
  destruct (bucket_split ht bs key Hwf) as (c & E & Hc & _). rewrite E. cbn [mbind outcome_bind].
  rewrite (ht_map_bucket ht bs key c Hwf Hc). rewrite E.
  destruct (find_chain c key) as [i|] eqn:Hf; cbn.
  - destruct (find_chain_Some c key i Hf) as (v & R & H1 & H2 & _). rewrite H1.
    rewrite (nodes_map_perm c _ (chain_nodup _ _ _ _ Hwf Hc) H2), nodes_map_cons. cbn.
    rewrite lookup_insert_eq. done.
  - rewrite nodes_map_None by (by apply find_chain_None). done.
Qed.

Lemma hashtable_put_spec ht bs alloc key value :
  ht_wf ht bs →
  if alloc || bool_decide (is_Some (ht_map ht !! key)) then
    ∃ ht' bs', hashtable_put alloc ht key value = Ret (ht', 0) ∧ ht_wf ht' bs' ∧
               ht_map ht' = <[key := value]> (ht_map ht)
  else hashtable_put alloc ht key value = Ret (ht, -1).
Proof.
  intros Hwf. unfold hashtable_put, find_node.
  destruct (bucket_split ht bs key Hwf) as (c & E & Hc & Hset). rewrite E. cbn [mbind outcome_bind].
  rewrite E. cbn [mbind outcome_bind]. rewrite (ht_map_bucket ht bs key c Hwf Hc).
  pose proof (chain_nodup _ _ _ _ Hwf Hc) as Hnd.
  destruct (find_chain c key) as [i|] eqn:Hf.
  - destruct (find_chain_Some c key i Hf) as (v & R & H1 & H2 & H3). specialize (H3 value).
    rewrite (nodes_map_perm c _ Hnd H2), nodes_map_cons, lookup_insert_eq.
    rewrite bool_decide_true by eauto. rewrite orb_true_r, Hset. cbn [mbind outcome_bind].
    set (c' := alter _ i c) in *.
    assert (zlen c' = zlen c + 0) as Hlen by (unfold zlen; rewrite H3, H2; cbn; lia).
    destruct (ht_update ht bs key c c' 0 Hwf Hc) as (Hwf' & R' & P1 & P2 & HR); [| |done|].
    { intros n. rewrite H3, H2. set_solver. }
    { rewrite H3. rewrite H2 in Hnd. done. }
    eexists _, _. split; [reflexivity|].
    assert (u64 (ht_count ht + 0) = ht_count ht) as E0.
    { rewrite (wf_count _ _ Hwf), Z.add_0_r. apply u64_small, u64_range. }
    rewrite E0 in Hwf'. split; [exact Hwf'|].
    rewrite (ht_map_wf _ _ Hwf), (ht_map_wf _ _ Hwf').
    rewrite (nodes_map_perm _ _ (wf_nodup _ _ Hwf) (transitivity P1 (Permutation_app_tail R' H2))).
    rewrite (nodes_map_perm _ _ (wf_nodup _ _ Hwf') (transitivity P2 (Permutation_app_tail R' H3))).
    cbn [app]. rewrite !nodes_map_cons. cbn. by rewrite insert_insert_eq.
  - rewrite nodes_map_None by (by apply find_chain_None).
    rewrite bool_decide_false by (by intros [? ?]). rewrite orb_false_r.
    destruct alloc; [|done]. rewrite Hset. cbn [mbind outcome_bind ht_buckets ht_nbuckets ht_mask ht_count].
    destruct (ht_update ht bs key c (mk_hnode key value :: c) 1 Hwf Hc) as (Hwf' & R' & P1 & P2 & HR).
    { intros n Hn. apply elem_of_cons in Hn as [->|Hn]; [by right|by left]. }
    { cbn. apply NoDup_cons. split; [|done]. intros Hk. apply list_elem_of_fmap in Hk as (n & Hk & Hn).
      by apply (find_chain_None c key Hf n Hn). }
    { rewrite zlen_cons. lia. }
    eexists _, _. split; [reflexivity|]. split; [exact Hwf'|].
    rewrite (ht_map_wf _ _ Hwf), (ht_map_wf _ _ Hwf').
    rewrite (nodes_map_perm _ _ (wf_nodup _ _ Hwf) P1), (nodes_map_perm _ _ (wf_nodup _ _ Hwf') P2).
    done.
Qed.

Lemma hashtable_remove_spec ht bs key :
  ht_wf ht bs →
  ∃ ht' bs', hashtable_remove ht key = Ret (ht', default 0 (ht_map ht !! key)) ∧ ht_wf ht' bs' ∧
             ht_map ht' = delete key (ht_map ht).
Proof.
  intros Hwf. unfold hashtable_remove.
  destruct (bucket_split ht bs key Hwf) as (c & E & Hc & Hset). rewrite E. cbn [mbind outcome_bind].
  pose proof (ht_map_bucket ht bs key c Hwf Hc) as Hm. pose proof (chain_nodup _ _ _ _ Hwf Hc) as Hnd.
  destruct (remove_chain c key) as [[v c']|] eqn:Hf.
  - pose proof (remove_chain_Some c key v c' Hf) as H2.
    rewrite (nodes_map_perm c _ Hnd H2), nodes_map_cons, lookup_insert_eq in Hm.
    rewrite Hset. cbn [mbind outcome_bind ht_buckets ht_nbuckets ht_mask ht_count default hn_value].
    rewrite H2 in Hnd. cbn in Hnd. apply NoDup_cons in Hnd as [Hk Hnd].
    destruct (ht_update ht bs key c c' (-1) Hwf Hc) as (Hwf' & R' & P1 & P2 & HR); [| done| |].
    { intros n Hn. left. rewrite H2. by apply list_elem_of_further. }
    { unfold zlen. rewrite H2. cbn. lia. }
    change (ht_count ht - 1) with (ht_count ht + -1).
    eexists _, _. split; [by rewrite Hm|]. split; [exact Hwf'|].
    rewrite (ht_map_wf _ _ Hwf), (ht_map_wf _ _ Hwf').
    rewrite (nodes_map_perm _ _ (wf_nodup _ _ Hwf) (transitivity P1 (Permutation_app_tail R' H2))).
    rewrite (nodes_map_perm _ _ (wf_nodup _ _ Hwf') P2). cbn [app]. rewrite nodes_map_cons. cbn.
    rewrite delete_insert_id; [done|]. apply nodes_map_None. intros n Hn.
    apply elem_of_app in Hn as [Hn|Hn]; [|by apply HR]. intros <-. apply Hk. apply list_elem_of_fmap. eauto.
  - rewrite nodes_map_None in Hm by (by apply remove_chain_None).
    exists ht, bs. split; [by rewrite Hm|]. split; [done|].
    by rewrite delete_id.
Qed.

Lemma hashtable_count_spec ht bs :
  ht_wf ht bs → hashtable_count ht = u64 (Z.of_nat (size (ht_map ht))).
Proof.
  intros Hwf. unfold hashtable_count. rewrite (wf_count _ _ Hwf), (ht_map_wf _ _ Hwf).
  by rewrite nodes_map_size by apply (wf_nodup _ _ Hwf).
Qed.

Lemma foreach_chain_app {S} (fn : Z → Z → S → outcome S) c d ctx :
  foreach_chain fn (c ++ d) ctx = (foreach_chain fn c ctx ≫= foreach_chain fn d).
Proof.
  revert ctx. induction c as [|n c IH]; intros ctx; cbn; [done|].
  destruct (fn _ _ ctx); cbn; [apply IH|done..].
Qed.

Lemma foreach_collect c acc :
  foreach_chain (λ k v acc, Ret (acc ++ [(k, v)])) c acc = Ret (acc ++ (node_pair <$> c)).
Proof.
  revert acc. induction c as [|n c IH]; intros acc; cbn; [by rewrite app_nil_r|].
  rewrite IH. by rewrite <-app_assoc.
Qed.

Lemma for_up_buckets {S} (fn : Z → Z → S → outcome S) ht bs pre suf ctx :
  ht_buckets ht = Some bs → bs = pre ++ suf →
  for_up (length suf) (zlen pre) (foreach_bucket fn ht) ctx =
  foreach_chain fn (concat suf) ctx.
Proof.
  intros Hb. revert pre ctx. induction suf as [|c suf IH]; intros pre ctx E; cbn [for_up length]; [done|].
  assert (foreach_bucket fn ht (zlen pre) ctx = foreach_chain fn c ctx) as ->.
  { unfold foreach_bucket, bucket_at. rewrite Hb, (aget_Some bs (zlen pre) c); [done|apply zlen_nonneg|].
    subst bs. unfold zlen. rewrite Nat2Z.id. by apply list_lookup_middle. }
  cbn [concat]. rewrite foreach_chain_app.
  destruct (foreach_chain fn c ctx) as [ctx'| | |]; cbn [mbind outcome_bind]; try done.
  replace (zlen pre + 1) with (zlen (pre ++ [c])) by (rewrite zlen_app; done).
  apply IH. by rewrite <-app_assoc.
Qed.

(** Iteration visits the nodes in table order. *)
Lemma hashtable_foreach_spec {S} (fn : Z → Z → S → outcome S) ht bs ctx :
  ht_wf ht bs → hashtable_foreach fn ht ctx = foreach_chain fn (ht_nodes ht) ctx.
Proof.
  intros Hwf. unfold hashtable_foreach, for_range. rewrite (wf_nbuckets _ _ Hwf), Z.sub_0_r.
  unfold zlen at 1. rewrite Nat2Z.id. unfold ht_nodes. rewrite (wf_buckets _ _ Hwf).
  apply (for_up_buckets fn ht bs [] bs ctx (wf_buckets _ _ Hwf)). done.
Qed.

Lemma ht_nodes_map ht bs : ht_wf ht bs → node_pair <$> ht_nodes ht ≡ₚ map_to_list (ht_map ht).
Proof.
  intros Hwf. unfold ht_map, ht_nodes. rewrite (wf_buckets _ _ Hwf). cbn.
  rewrite map_to_list_to_map; [done|]. rewrite nodes_keys. apply (wf_nodup _ _ Hwf).
Qed.

Lemma round_pow2_loop_spec fuel v j :
  0 ≤ j ≤ 63 → 63 ≤ j + Z.of_nat fuel → v ≤ 2 ^ 63 →
  ∃ k, round_pow2_loop fuel v (2 ^ j) = Ret (2 ^ k) ∧ j ≤ k ≤ 63 ∧ v ≤ 2 ^ k ∧
       (j < k → 2 ^ (k - 1) < v).
Proof.
  revert j. induction fuel as [|fuel IH]; intros j Hj Hf Hv.
  - assert (j = 63) as -> by lia. exists 63. cbn [round_pow2_loop].
    destruct (Z.ltb_spec (2 ^ 63) v); [lia|]. split; [done|]. split; [lia|]. split; lia.
  - cbn [round_pow2_loop]. destruct (Z.ltb_spec (2 ^ j) v) as [Hlt|Hge].
    + assert (j < 63) by (destruct (decide (j = 63)) as [->|]; lia).
      rewrite Z.shiftl_mul_pow2 by lia. change (2 ^ 1) with 2.
      replace (2 ^ j * 2) with (2 ^ (j + 1)) by (rewrite Z.pow_add_r by lia; lia).
      rewrite u64_small by (split; [apply Z.pow_nonneg|apply Z.pow_lt_mono_r]; lia).
      destruct (IH (j + 1)) as (k & -> & Hk & Hvk & Hmin); [lia..|].
      exists k. split; [done|]. split; [lia|]. split; [done|]. intros _.
      destruct (decide (j + 1 < k)); [by apply Hmin|]. by replace (k - 1) with j by lia.
    + exists j. split; [done|]. split; [lia|]. split; lia.
Qed.

(** A request above [2^63] makes the doubling wrap to 0 and never stop. *)
Lemma round_pow2_diverges fuel v : 2 ^ 63 < v → round_pow2 fuel v = Loop.
Proof.
  intros Hv. unfold round_pow2.
  assert (∀ fuel p, (p = 0 ∨ ∃ j, 0 ≤ j ≤ 63 ∧ p = 2 ^ j) → round_pow2_loop fuel v p = Loop) as H.
  { clear fuel. induction fuel as [|fuel IH]; intros p Hp; cbn [round_pow2_loop];
      (destruct (Z.ltb_spec p v) as [|Hge];
       [|destruct Hp as [->|(j & Hj & ->)]; [lia|];
         pose proof (Z.pow_le_mono_r 2 j 63); lia]); [done|].
    apply IH. rewrite Z.shiftl_mul_pow2 by lia. change (2 ^ 1) with 2.
    destruct Hp as [->|(j & Hj & ->)]; [left; done|]. destruct (decide (j = 63)) as [->|Hne].
    - left. done.
    - right. exists (j + 1). split; [lia|].
      replace (2 ^ j * 2) with (2 ^ (j + 1)) by (rewrite Z.pow_add_r by lia; lia).
      apply u64_small. split; [apply Z.pow_nonneg|apply Z.pow_lt_mono_r]; lia. }
  apply H. right. by exists 3.
Qed.

Lemma concat_replicate_nil {A} n : concat (replicate n (@nil A)) = [].
Proof. induction n; cbn; done. Qed.

Lemma hashtable_init_spec fuel (alloc : Z → bool) ht hint :
  60 ≤ Z.of_nat fuel → 0 ≤ hint ≤ 2 ^ 63 →
  ∃ k, 3 ≤ k ≤ 63 ∧ hint ≤ 2 ^ k ∧ (3 < k → 2 ^ (k - 1) < hint) ∧
    if alloc (2 ^ k) then
      ∃ ht' bs, hashtable_init fuel alloc ht hint = Ret (ht', 0) ∧ ht_wf ht' bs ∧
                zlen bs = 2 ^ k ∧ ht_map ht' = ∅
    else ∃ ht', hashtable_init fuel alloc ht hint = Ret (ht', -1) ∧ ht_buckets ht' = None.
Proof.
  intros Hf Hh. set (v := if hint =? 0 then 8 else hint).
  assert (hint ≤ v ≤ 2 ^ 63 ∧ (8 < v → v = hint)) as [Hv Hv'] by (unfold v; destruct (Z.eqb_spec hint 0); lia).
  destruct (round_pow2_loop_spec fuel v 3) as (k & E & Hk & Hvk & Hmin); [lia..|].
  assert (3 < k → 2 ^ (k - 1) < hint) as Hmin'.
  { intros H. rewrite <-Hv'; [by apply Hmin|].
    pose proof (Z.pow_le_mono_r 2 3 (k - 1) ltac:(lia) ltac:(lia)). specialize (Hmin H). lia. }
  exists k. split; [lia|]. split; [lia|]. split; [done|].
  unfold hashtable_init, round_pow2. change 8 with (2 ^ 3) at 2 4. fold v. rewrite E.
  cbn [mbind outcome_bind].
  assert (0 < 2 ^ k < 2 ^ 64) by (split; [apply Z.pow_pos_nonneg|apply Z.pow_lt_mono_r]; lia).
  assert (zlen (replicate (Z.to_nat (2 ^ k)) (@nil hnode)) = 2 ^ k) as Hlen
    by (rewrite zlen_replicate; lia).
  destruct (alloc (2 ^ k)).
  - eexists _, _. split; [reflexivity|]. split; [|split; [exact Hlen|]].
    + constructor; cbn; rewrite ?Hlen, ?concat_replicate_nil; [done|done| | | |constructor|done].
      * exists k. split; [lia|done].
      * apply u64_small. lia.
      * intros i c n Hi Hn. apply lookup_replicate in Hi as [-> _]. set_solver.
    + unfold ht_map, ht_nodes. cbn. by rewrite concat_replicate_nil.
  - by eexists.
Qed.

(** A sequence of operations of a client, and its meaning on a finite map. *)
Inductive ht_op :=
| HtPut (key value : Z) (alloc : bool)
| HtGet (key : Z)
| HtContains (key : Z)
| HtRemove (key : Z).

Definition ht_exec (o : ht_op) (ht : hashtable) : outcome (hashtable * Z) :=
  match o with
  | HtPut k v a => hashtable_put a ht k v
  | HtGet k => '(v, _) ← hashtable_get ht k; Ret (ht, v)
  | HtContains k => r ← hashtable_contains ht k; Ret (ht, r)
  | HtRemove k => hashtable_remove ht k
  end.

Definition map_exec (o : ht_op) (m : gmap Z Z) : gmap Z Z * Z :=
  match o with
  | HtPut k v a => if a || bool_decide (is_Some (m !! k)) then (<[k := v]> m, 0) else (m, -1)
  | HtGet k => (m, default 0 (m !! k))
  | HtContains k => (m, b2z (bool_decide (is_Some (m !! k))))
  | HtRemove k => (delete k m, default 0 (m !! k))
  end.

Fixpoint ht_run (os : list ht_op) (ht : hashtable) : outcome (hashtable * list Z) :=
  match os with
  | [] => Ret (ht, [])
  | o :: os => '(ht, r) ← ht_exec o ht; '(ht, rs) ← ht_run os ht; Ret (ht, r :: rs)
  end.

Fixpoint map_run (os : list ht_op) (m : gmap Z Z) : gmap Z Z * list Z :=
  match os with
  | [] => (m, [])
  | o :: os => let '(m, r) := map_exec o m in let '(m, rs) := map_run os m in (m, r :: rs)
  end.

Lemma ht_exec_refines o ht bs :
  ht_wf ht bs →
  ∃ ht' bs', ht_exec o ht = Ret (ht', (map_exec o (ht_map ht)).2) ∧ ht_wf ht' bs' ∧
             ht_map ht' = (map_exec o (ht_map ht)).1.
Proof.
  intros Hwf. destruct o as [k v a|k|k|k]; cbn [ht_exec map_exec].
  - pose proof (hashtable_put_spec ht bs a k v Hwf) as H. destruct (a || _); [exact H|].
    by exists ht, bs.
  - rewrite (proj1 (hashtable_get_spec ht bs k Hwf)). exists ht, bs.
    destruct (ht_map ht !! k); done.
  - rewrite (proj2 (hashtable_get_spec ht bs k Hwf)). by exists ht, bs.
  - by apply (hashtable_remove_spec ht bs).
Qed.

(** ** Theorems *)

(** C27. Every sequence of put, get, contains and remove on a freshly created
    table returns what the same sequence returns on a finite map, and leaves a
    table that stands for the resulting map; its count is the size of the map and
    iteration visits each binding exactly once. *)
Theorem hashtable_refines_map fuel (alloc : Z → bool) ht0 hint os ht :
  60 ≤ Z.of_nat fuel → 0 ≤ hint ≤ 2 ^ 63 →
  hashtable_init fuel alloc ht0 hint = Ret (ht, 0) →
  ∃ ht' l, ht_run os ht = Ret (ht', (map_run os ∅).2) ∧
    ht_map ht' = (map_run os ∅).1 ∧
    hashtable_count ht' = u64 (Z.of_nat (size (map_run os ∅).1)) ∧
    hashtable_foreach (λ k v acc, Ret (acc ++ [(k, v)])) ht' [] = Ret l ∧
    l ≡ₚ map_to_list (map_run os ∅).1.
Proof.
  intros Hf Hh Hi.
  destruct (hashtable_init_spec fuel alloc ht0 hint Hf Hh) as (k & _ & _ & _ & H).
  assert (∃ bs, ht_wf ht bs ∧ ht_map ht = ∅) as (bs & Hwf & Hm).
  { destruct (alloc (2 ^ k)).
    - destruct H as (ht' & bs & E & Hwf & _ & Hm). rewrite E in Hi. injection Hi as <-. eauto.
    - destruct H as (ht' & E & _). rewrite E in Hi. discriminate. }
  clear H Hi. rewrite <-Hm. clear Hm.
  assert (∃ ht' bs', ht_run os ht = Ret (ht', (map_run os (ht_map ht)).2) ∧ ht_wf ht' bs' ∧
          ht_map ht' = (map_run os (ht_map ht)).1) as (ht' & bs' & E & Hwf' & Hm).
  { revert ht bs Hwf. induction os as [|o os IH]; intros ht bs Hwf; [by exists ht, bs|].
    destruct (ht_exec_refines o ht bs Hwf) as (h1 & bs1 & E1 & Hwf1 & Hm1).
    destruct (IH h1 bs1 Hwf1) as (h2 & bs2 & E2 & Hwf2 & Hm2). exists h2, bs2.
    cbn [ht_run map_run]. rewrite E1. cbn [mbind outcome_bind]. rewrite E2, Hm1 in *.
    destruct (map_exec o (ht_map ht)) as [m r]. cbn [fst snd] in *. destruct (map_run os m). done. }
  exists ht', (node_pair <$> ht_nodes ht'). split; [done|]. split; [done|]. rewrite <-Hm.
  split; [by apply (hashtable_count_spec ht' bs')|]. split; [|by apply (ht_nodes_map ht' bs')].
  rewrite (hashtable_foreach_spec _ ht' bs' [] Hwf'). by rewrite foreach_collect.
Qed.

Lemma hashtable_refines_map_witness :
  ∃ ht ht' l, hashtable_init 60 (λ _, true) (mk_hashtable None 0 0 0) 0 = Ret (ht, 0) ∧
    ht_run [HtPut 5 50 true; HtPut 13 130 true; HtGet 5; HtRemove 5; HtContains 5] ht =
      Ret (ht', [0; 0; 50; 50; 0]) ∧
    l ≡ₚ map_to_list (ht_map ht').
Proof.
  eexists.
  destruct (hashtable_refines_map 60 (λ _, true) (mk_hashtable None 0 0 0) 0
    [HtPut 5 50 true; HtPut 13 130 true; HtGet 5; HtRemove 5; HtContains 5]
    (mk_hashtable (Some (replicate 8 [])) 8 7 0)) as (ht' & l & E & Hm & _ & _ & Hl).
  - lia.
  - lia.
  - reflexivity.
  - exists ht', l. split; [reflexivity|]. split; [exact E|]. rewrite Hm. exact Hl.
Defined.

(** [hashtable_init] with a hint of at most [2^63] terminates; when the
    allocation succeeds the table is empty, well formed, and has the least power
    of two of at least 8 buckets that is not below the hint; with a larger hint
    the rounding loop never ends. *)
Theorem hashtable_init_correct fuel (alloc : Z → bool) ht hint :
  60 ≤ Z.of_nat fuel → 0 ≤ hint →
  (2 ^ 63 < hint → hashtable_init fuel alloc ht hint = Loop) ∧
  (hint ≤ 2 ^ 63 →
   ∃ k, 3 ≤ k ≤ 63 ∧ hint ≤ 2 ^ k ∧ (3 < k → 2 ^ (k - 1) < hint) ∧
    if alloc (2 ^ k) then
      ∃ ht' bs, hashtable_init fuel alloc ht hint = Ret (ht', 0) ∧ ht_wf ht' bs ∧
                zlen bs = 2 ^ k ∧ ht_map ht' = ∅
    else ∃ ht', hashtable_init fuel alloc ht hint = Ret (ht', -1) ∧ ht_buckets ht' = None).
Proof.
  intros Hf Hh. split; [|intros Hh'; by apply hashtable_init_spec].
  intros Hbig. unfold hashtable_init. destruct (Z.eqb_spec hint 0); [lia|].
  by rewrite round_pow2_diverges.
Qed.

Lemma hashtable_init_correct_witness :
  ∃ k, 3 ≤ k ≤ 63 ∧ 100 ≤ 2 ^ k ∧ (3 < k → 2 ^ (k - 1) < 100).
Proof.
  destruct (hashtable_init_correct 60 (λ _, true) (mk_hashtable None 0 0 0) 100) as [_ H]; [lia|lia|].
  destruct H as (k & H1 & H2 & H3 & _); [lia|]. exists k. split; [exact H1|]. split; [exact H2|exact H3].
Defined.
