(* ===== verification/Radix.v ===== *)
(** The radix tree, [kernel/lib/radix.c]: six levels of 64-slot nodes from 36-bit
    keys to non-NULL values, refined against a finite map. *)

From S2P Require Import Prelude.

(** ** Definitions *)

Definition RADIX_BITS : Z := 6.
Definition RADIX_FANOUT : Z := Z.shiftl 1 RADIX_BITS.
Definition RADIX_MASK : Z := RADIX_FANOUT - 1.
Definition RADIX_LEVELS : Z := 6.
Definition RADIX_MAX_KEY : Z := Z.shiftl 1 (RADIX_BITS * RADIX_LEVELS) - 1.

(** A node with slots of type [A]; the C array has [RADIX_FANOUT] of them. *)
Record node (A : Type) := mk_node { slots : list A; used : Z }.
Arguments mk_node {A}.
Arguments slots {A}.
Arguments used {A}.

(** The slots of a node at level 0 hold values, 0 being NULL; those of a node
    above it hold children. *)
Fixpoint radix_node (level : nat) : Type :=
  match level with
  | O => node Z
  | S l => node (option (radix_node l))
  end.

(** [RADIX_LEVELS - 1], the level of the root. *)
Definition top_level : nat := 5.

Record radix_tree := mk_radix_tree { rt_root : option (radix_node top_level); rt_count : Z }.

Definition radix_init : radix_tree := mk_radix_tree None 0.

(** A zeroed node, as [kcalloc] returns it. *)
Definition node_new (level : nat) : radix_node level :=
  match level with
  | O => mk_node (replicate (Z.to_nat RADIX_FANOUT) 0) 0
  | S l => mk_node (replicate (Z.to_nat RADIX_FANOUT) None) 0
  end.

Definition slot {A} (null : A) (n : node A) (i : Z) : A := nth (Z.to_nat i) (slots n) null.

Definition set_slot {A} (n : node A) (i : Z) (x : A) (u : Z) : node A :=
  mk_node (<[Z.to_nat i := x]> (slots n)) u.

Definition slot_index (key : Z) (level : nat) : Z :=
  u32 (Z.land (Z.shiftr key (Z.of_nat level * RADIX_BITS)) RADIX_MASK).

(** The number of nodes passed to [kfree]. *)
Fixpoint node_free_recursive (level : nat) : radix_node level → Z :=
  match level with
  | O => λ n, 1
  | S l => λ (n : node (option (radix_node l))),
      foldr (λ s acc, match s with Some c => node_free_recursive l c | None => 0 end + acc)
        1 (slots n)
  end.

Definition radix_destroy (t : radix_tree) : radix_tree * Z :=
  (radix_init, match rt_root t with Some n => node_free_recursive top_level n | None => 0 end).

(** The descent of [radix_insert] below a node, in place: the updated node,
    whether the insertion succeeded, and whether the leaf slot was empty. [budget]
    is the number of further calls of [node_new] that return a node. *)
Fixpoint insert_at (level : nat) :
    radix_node level → Z → Z → nat → radix_node level * bool * bool :=
  match level with
  | O => λ n key value budget,
      let leaf := slot_index key 0 in
      let fresh := slot 0 n leaf =? 0 in
      (set_slot n leaf value
               (if fresh then u64 (used n + 1) else used n), true, fresh)
  | S l => λ (n : node (option (radix_node l))) key value budget,
      let idx := slot_index key (S l) in
      match slot None n idx with
      | Some child =>
          let '(child, ok, fresh) := insert_at l child key value budget in
          (set_slot n idx (Some child) (used n), ok, fresh)
      | None =>
          match budget with
          | O => (n, false, false)
          | S budget =>
              let '(child, ok, fresh) := insert_at l (node_new l) key value budget in
              (set_slot n idx (Some child) (u64 (used n + 1)), ok, fresh)
          end
      end
  end.

Definition radix_insert (budget : nat) (t : radix_tree) (key value : Z) : radix_tree * Z :=
  if (RADIX_MAX_KEY <? key) || (value =? 0) then (t, -1)
  else
    let finish n budget :=
      let '(n, ok, fresh) := insert_at top_level n key value budget in
      (mk_radix_tree (Some n) (if fresh : bool then u64 (rt_count t + 1) else rt_count t),
       if ok : bool then 0 else -1) in
    match rt_root t with
    | Some n => finish n budget
    | None =>
        match budget with
        | O => (t, -1)
        | S budget => finish (node_new top_level) budget
        end
    end.

Fixpoint lookup_at (level : nat) : radix_node level → Z → Z :=
  match level with
  | O => λ n key, slot 0 n (slot_index key 0)
  | S l => λ (n : node (option (radix_node l))) key,
      match slot None n (slot_index key (S l)) with
      | Some child => lookup_at l child key
      | None => 0
      end
  end.

Definition radix_lookup (t : radix_tree) (key : Z) : Z :=
  if RADIX_MAX_KEY <? key then 0
  else match rt_root t with Some n => lookup_at top_level n key | None => 0 end.

Definition node_used (level : nat) : radix_node level → Z :=
  match level with
  | O => used
  | S l => used
  end.

(** The descent of [radix_remove] and, on the way back, its pruning loop: the
    value removed, the updated node, and whether the pruning loop is still
    running when it reaches this node. [None] when the key is absent. *)
Fixpoint remove_at (level : nat) : radix_node level → Z → option (Z * radix_node level * bool) :=
  match level with
  | O => λ n key,
      let leaf := slot_index key 0 in
      let value := slot 0 n leaf in
      if value =? 0 then None
      else Some (value, set_slot n leaf 0 (u64 (used n - 1)), true)
  | S l => λ (n : node (option (radix_node l))) key,
      let i := slot_index key (S l) in
      match slot None n i with
      | None => None
      | Some child =>
          match remove_at l child key with
          | None => None
          | Some (value, cur, pruning) =>
              if pruning && (node_used l cur =? 0) then
                Some (value, set_slot n i None (u64 (used n - 1)), true)
              else
                Some (value, set_slot n i (Some cur) (used n), false)
          end
      end
  end.

Definition radix_remove (t : radix_tree) (key : Z) : radix_tree * Z :=
  if RADIX_MAX_KEY <? key then (t, 0)
  else
    match rt_root t with
    | None => (t, 0)
    | Some n =>
        match remove_at top_level n key with
        | None => (t, 0)
        | Some (value, n, _) =>
            (mk_radix_tree (if node_used top_level n =? 0 then None else Some n)
               (u64 (rt_count t - 1)), value)
        end
    end.

Definition radix_count (t : radix_tree) : Z := rt_count t.

Section Foreach.
Context {C : Type} (fn : Z → Z → C → outcome C).

Fixpoint foreach_rec (level : nat) : radix_node level → Z → C → outcome C :=
  match level with
  | O => λ n prefix ctx,
      for_range 0 RADIX_FANOUT (λ i ctx,
        if slot 0 n i =? 0 then Ret ctx
        else fn (Z.lor prefix (u64 (Z.shiftl i 0))) (slot 0 n i) ctx) ctx
  | S l => λ (n : node (option (radix_node l))) prefix ctx,
      for_range 0 RADIX_FANOUT (λ i ctx,
        match slot None n i with
        | None => Ret ctx
        | Some child =>
            foreach_rec l child
              (Z.lor prefix (u64 (Z.shiftl i (Z.of_nat (S l) * RADIX_BITS)))) ctx
        end) ctx
  end.

Definition radix_foreach (t : radix_tree) (ctx : C) : outcome C :=
  match rt_root t with
  | Some n => foreach_rec top_level n 0 ctx
  | None => Ret ctx
  end.

End Foreach.

(** ** Specification *)

Definition nonnull {A} (isnull : A → bool) (null : A) (n : node A) (i : Z) : bool :=
  negb (isnull (slot null n i)).

Definition node_ok {A} (isnull : A → bool) (null : A) (n : node A) : Prop :=
  length (slots n) = 64%nat ∧ used n = zcount (nonnull isnull null n) 64.

Definition is_none {A} (o : option A) : bool := match o with None => true | _ => false end.

(** Every node has 64 slots and [used] counts the occupied ones. *)
Fixpoint rwf (level : nat) : radix_node level → Prop :=
  match level with
  | O => λ n, node_ok (Z.eqb 0) 0 n
  | S l => λ (n : node (option (radix_node l))), node_ok is_none None n ∧ ∀ i c, slot None n i = Some c → rwf l c
  end.

(** The keys agree on the slot indices from [level] down. *)
Fixpoint same_path (level : nat) (k key : Z) : bool :=
  (slot_index k level =? slot_index key level) &&
  match level with O => true | S l => same_path l k key end.

#[local] Arguments slot_index : simpl never.
#[local] Arguments slot : simpl never.
#[local] Arguments u64 : simpl never.

(** ** Lemmas *)

Lemma slot_index_eq key level :
  0 ≤ key → slot_index key level = key / 64 ^ Z.of_nat level mod 64.
Proof.
  intros Hk. unfold slot_index, RADIX_MASK, RADIX_FANOUT, RADIX_BITS.
  change (Z.shiftl 1 6 - 1) with (2 ^ 6 - 1). rewrite land_ones_mod by lia.
  rewrite Z.shiftr_div_pow2 by lia. change 64 with (2 ^ 6). rewrite <-Z.pow_mul_r by lia.
  rewrite (Z.mul_comm 6). apply u32_small. pose proof (Z.mod_pos_bound (key / 2 ^ (Z.of_nat level * 6)) (2 ^ 6)).
  lia.
Qed.

Lemma slot_index_range key level : 0 ≤ slot_index key level < 64.
Proof.
  unfold slot_index, RADIX_MASK, RADIX_FANOUT, RADIX_BITS.
  change (Z.shiftl 1 6 - 1) with (2 ^ 6 - 1). rewrite land_ones_mod by lia.
  set (x := Z.shiftr _ _). pose proof (Z.mod_pos_bound x (2 ^ 6)). rewrite u32_small; lia.
Qed.

Lemma slot_insert {A} (null : A) n u i j x :
  length (slots n) = 64%nat → 0 ≤ i < 64 → 0 ≤ j →
  slot null (set_slot n i x u) j = if decide (j = i) then x else slot null n j.
Proof.
  intros Hl Hi Hj. unfold slot. cbn. rewrite !nth_lookup. dec_if as H.
  - subst. by rewrite list_lookup_insert_eq by lia.
  - by rewrite list_lookup_insert_ne by lia.
Qed.

(** Writing one slot and adjusting [used] keeps the node consistent. *)
Lemma node_ok_update {A} (isnull : A → bool) (null : A) n i x u :
  node_ok isnull null n → 0 ≤ i < 64 →
  u = used n - b2z (nonnull isnull null n i) + b2z (negb (isnull x)) →
  node_ok isnull null (set_slot n i x u).
Proof.
  intros [Hl Hu] Hi Eu. split; cbn [slots used set_slot]; [by rewrite length_insert|].
  rewrite (zcount_update _ (nonnull isnull null n) 64 i); [|lia|].
  - assert (nonnull isnull null (set_slot n i x u) i = negb (isnull x)) as ->.
    { unfold nonnull. rewrite (slot_insert null) by lia. by rewrite decide_True. }
    lia.
  - intros j Hj Hne. unfold nonnull. rewrite (slot_insert null) by lia.
    rewrite decide_False by done. done.
Qed.

Lemma node_ok_used {A} (isnull : A → bool) null n : node_ok isnull null n → 0 ≤ used n ≤ 64.
Proof. intros [_ ->]. apply (zcount_range _ 64). Qed.

Lemma node_ok_pos {A} (isnull : A → bool) null n i :
  node_ok isnull null n → 0 ≤ i < 64 → isnull (slot null n i) = false → 1 ≤ used n.
Proof.
  intros [_ Hu] Hi E. assert (0 < zcount (nonnull isnull null n) 64); [|lia].
  apply (zcount_pos _ 64 i); [lia|]. unfold nonnull. by rewrite E.
Qed.

Lemma node_ok_empty {A} (isnull : A → bool) null n i :
  node_ok isnull null n → used n = 0 → 0 ≤ i < 64 → isnull (slot null n i) = true.
Proof.
  intros Hok H0 Hi. destruct (isnull (slot null n i)) eqn:E; [done|].
  pose proof (node_ok_pos isnull null n i Hok Hi E). lia.
Qed.

Lemma slot_replicate {A} (null : A) n i : nth i (replicate n null) null = null.
Proof.
  rewrite nth_lookup. destruct (replicate n null !! i) eqn:E; [|done].
  by apply lookup_replicate in E as [-> _].
Qed.

Lemma rwf_new level : rwf level (node_new level).
Proof.
  destruct level as [|l]; cbn [node_new rwf].
  - split; [done|]. symmetry. apply zcount_none. intros i Hi. unfold nonnull, slot. cbn [slots].
    by rewrite slot_replicate.
  - split; [split; [done|]|].
    + symmetry. apply zcount_none. intros i Hi. unfold nonnull, slot. cbn [slots].
      by rewrite slot_replicate.
    + intros i c. unfold slot. cbn [slots]. by rewrite slot_replicate.
Qed.

Lemma lookup_new level key : lookup_at level (node_new level) key = 0.
Proof.
  destruct level as [|l]; cbn [node_new lookup_at]; unfold slot; cbn [slots]; by rewrite slot_replicate.
Qed.

Lemma rwf_used level n : rwf level n → 0 ≤ node_used level n ≤ 64.
Proof. destruct level; cbn; [|intros [H _]; revert H]; apply node_ok_used. Qed.

Lemma rwf_empty level n key : rwf level n → node_used level n = 0 → lookup_at level n key = 0.
Proof.
  intros Hwf H0. pose proof (slot_index_range key level) as Hi.
  destruct level as [|l]; cbn in *.
  - pose proof (node_ok_empty _ _ n _ Hwf H0 Hi) as H. by apply Z.eqb_eq in H.
  - destruct Hwf as [Hwf _]. pose proof (node_ok_empty _ _ n _ Hwf H0 Hi) as H.
    by destruct (slot None n (slot_index key (S l))).
Qed.

Lemma u64_used z : 0 ≤ z ≤ 66 → u64 z = z.
Proof. intros H. apply u64_small. lia. Qed.


Lemma node_slots {A} (n : node A) i (null : A) u : slot null (mk_node (slots n) u) i = slot null n i.
Proof. done. Qed.

(** One child replaced. *)
Lemma rwf_child l (n : node (option (radix_node l))) i c u :
  rwf (S l) n → 0 ≤ i < 64 → (∀ c', c = Some c' → rwf l c') →
  u = used n - b2z (negb (is_none (slot None n i))) + b2z (negb (is_none c)) →
  rwf (S l) (set_slot n i c u).
Proof.
  intros [Hok Hch] Hi Hc Hu. split; [by apply (node_ok_update is_none None)|].
  intros j c' Hj. destruct (decide (0 ≤ j)) as [Hj0|Hj0].
  - rewrite (slot_insert None) in Hj; [|apply Hok|done|done].
    destruct (decide (j = i)); [by apply Hc|]. apply (Hch j). done.
  - unfold slot in Hj. replace (Z.to_nat j) with (Z.to_nat 0) in Hj by lia.
    fold (slot None (set_slot n i c u) 0) in Hj.
    rewrite (slot_insert None) in Hj; [|apply Hok|done|lia].
    destruct (decide (0 = i)); [by apply Hc|]. apply (Hch 0). done.
Qed.

Lemma lookup_child l (n : node (option (radix_node l))) i c u key k :
  length (slots n) = 64%nat → i = slot_index key (S l) →
  lookup_at (S l) (set_slot n i c u) k =
  if slot_index k (S l) =? slot_index key (S l) then
    match c with Some c => lookup_at l c k | None => 0 end
  else lookup_at (S l) n k.
Proof.
  intros Hl ->. cbn [lookup_at]. pose proof (slot_index_range key (S l)). pose proof (slot_index_range k (S l)).
  rewrite (slot_insert None) by lia.
  destruct (Z.eqb_spec (slot_index k (S l)) (slot_index key (S l))) as [->|Hne].
  - by rewrite decide_True.
  - rewrite decide_False by done. done.
Qed.

Lemma insert_at_spec level n key value budget :
  rwf level n → value ≠ 0 →
  let '(n', ok, fresh) := insert_at level n key value budget in
  rwf level n' ∧
  (∀ k, lookup_at level n' k = if ok && same_path level k key then value else lookup_at level n k) ∧
  fresh = ok && (lookup_at level n key =? 0).
Proof.
  intros Hwf Hv. revert n budget Hwf. induction level as [|l IH]; intros n budget Hwf.
  - pose proof (slot_index_range key 0) as Hi. cbn [insert_at]. split; [|split; [|done]].
    + pose proof (node_ok_used _ _ _ Hwf) as Hu. apply (node_ok_update (Z.eqb 0)); [done|done|].
      unfold nonnull. rewrite (Z.eqb_sym 0 (slot _ _ _)), (proj2 (Z.eqb_neq 0 value)) by lia.
      destruct (slot 0 n (slot_index key 0) =? 0); cbn [b2z negb]; [rewrite u64_used|]; lia.
    + intros k. cbn [lookup_at same_path andb]. pose proof (slot_index_range k 0).
      rewrite (slot_insert 0); [|apply Hwf|lia|lia].
      destruct (Z.eqb_spec (slot_index k 0) (slot_index key 0)); cbn [andb].
      * by rewrite decide_True.
      * rewrite decide_False by done. done.
  - change (node (option (radix_node l))) in n.
    pose proof (slot_index_range key (S l)) as Hi. pose proof Hwf as [Hok Hch].
    pose proof (node_ok_used _ _ _ Hok) as Hu. pose proof (proj1 Hok) as Hl. cbn [insert_at].
    destruct (slot None n (slot_index key (S l))) as [child|] eqn:Hs; [|destruct budget as [|budget]].
    + specialize (IH child budget (Hch _ _ Hs)).
      destruct (insert_at l child key value budget) as [[child' ok] fresh]. destruct IH as (W & L & F).
      split; [|split].
      * apply rwf_child; [done|done|by intros ? [= <-]|]. rewrite Hs. cbn. lia.
      * intros k. rewrite (lookup_child l n _ _ _ key) by done. cbn [same_path].
        destruct (Z.eqb_spec (slot_index k (S l)) (slot_index key (S l))) as [E|E]; cbn [andb].
        -- rewrite L. cbn [lookup_at]. by rewrite E, Hs.
        -- by rewrite andb_false_r.
      * cbn [lookup_at]. by rewrite Hs.
    + split; [done|]. split; [done|]. done.
    + specialize (IH (node_new l) budget (rwf_new l)).
      destruct (insert_at l (node_new l) key value budget) as [[child' ok] fresh].
      destruct IH as (W & L & F). split; [|split].
      * apply rwf_child; [done|done|by intros ? [= <-]|]. rewrite Hs. cbn. rewrite u64_used; lia.
      * intros k. rewrite (lookup_child l n _ _ _ key) by done. cbn [same_path].
        destruct (Z.eqb_spec (slot_index k (S l)) (slot_index key (S l))) as [E|E]; cbn [andb].
        -- rewrite L, lookup_new. cbn [lookup_at]. by rewrite E, Hs.
        -- by rewrite andb_false_r.
      * cbn [lookup_at]. rewrite Hs. by rewrite lookup_new in F.
Qed.

Lemma remove_at_spec level n key :
  rwf level n →
  match remove_at level n key with
  | None => lookup_at level n key = 0
  | Some (v, n', _) =>
      v = lookup_at level n key ∧ v ≠ 0 ∧ rwf level n' ∧
      ∀ k, lookup_at level n' k = if same_path level k key then 0 else lookup_at level n k
  end.
Proof.
  intros Hwf. revert n Hwf. induction level as [|l IH]; intros n Hwf.
  - pose proof (slot_index_range key 0) as Hi. cbn [remove_at].
    destruct (Z.eqb_spec (slot 0 n (slot_index key 0)) 0) as [Hz|Hz]; [done|].
    split; [done|]. split; [done|]. split.
    + pose proof (node_ok_used _ _ _ Hwf) as Hu.
      pose proof (node_ok_pos (Z.eqb 0) 0 n (slot_index key 0) Hwf Hi) as Hp.
      rewrite (proj2 (Z.eqb_neq 0 (slot 0 n (slot_index key 0)))) in Hp by lia.
      specialize (Hp eq_refl). apply (node_ok_update (Z.eqb 0)); [done|done|].
      unfold nonnull. rewrite (proj2 (Z.eqb_neq 0 (slot 0 n (slot_index key 0)))) by lia.
      cbn. rewrite u64_used; lia.
    + intros k. cbn [lookup_at same_path andb]. pose proof (slot_index_range k 0).
      rewrite (slot_insert 0); [|apply Hwf|lia|lia].
      destruct (Z.eqb_spec (slot_index k 0) (slot_index key 0)); cbn [andb].
      * by rewrite decide_True.
      * rewrite decide_False by done. done.
  - change (node (option (radix_node l))) in n.
    pose proof (slot_index_range key (S l)) as Hi. pose proof Hwf as [Hok Hch].
    pose proof (node_ok_used _ _ _ Hok) as Hu. pose proof (proj1 Hok) as Hl. cbn [remove_at].
    destruct (slot None n (slot_index key (S l))) as [child|] eqn:Hs; [|cbn [lookup_at]; by rewrite Hs].
    specialize (IH child (Hch _ _ Hs)).
    destruct (remove_at l child key) as [[[v cur] pr]|]; [|cbn [lookup_at]; by rewrite Hs].
    destruct IH as (-> & Hv & W & L).
    pose proof (node_ok_pos is_none None n (slot_index key (S l)) Hok Hi) as Hp. rewrite Hs in Hp.
    specialize (Hp eq_refl).
    destruct (pr && (node_used l cur =? 0)) eqn:Hpr.
    + apply andb_true_iff in Hpr as [_ H0]. apply Z.eqb_eq in H0.
      split; [cbn [lookup_at]; by rewrite Hs|]. split; [done|]. split.
      * apply rwf_child; [done|done|done|]. rewrite Hs. cbn. rewrite u64_used; lia.
      * intros k. rewrite (lookup_child l n _ _ _ key) by done. cbn [same_path].
        destruct (Z.eqb_spec (slot_index k (S l)) (slot_index key (S l))) as [E|E]; cbn [andb]; [|done].
        cbn [lookup_at]. rewrite E, Hs, <-L. by rewrite rwf_empty.
    + split; [cbn [lookup_at]; by rewrite Hs|]. split; [done|]. split.
      * apply rwf_child; [done|done|by intros ? [= <-]|]. rewrite Hs. cbn. lia.
      * intros k. rewrite (lookup_child l n _ _ _ key) by done. cbn [same_path].
        destruct (Z.eqb_spec (slot_index k (S l)) (slot_index key (S l))) as [E|E]; cbn [andb]; [|done].
        cbn [lookup_at]. by rewrite E, Hs, <-L.
Qed.

(** ** Entries *)

(** The entries below a node, in slot order; [prefix] is the key of the first. *)
Fixpoint entries (level : nat) : radix_node level → Z → list (Z * Z) :=
  match level with
  | O => λ (n : node Z) prefix,
      concat ((λ i, if slot 0 n i =? 0 then [] else [(prefix + i, slot 0 n i)]) <$> seqZ 0 (Z.of_nat 64))
  | S l => λ (n : node (option (radix_node l))) prefix,
      concat ((λ i, match slot None n i with
                    | None => []
                    | Some c => entries l c (prefix + i * 64 ^ Z.of_nat (S l))
                    end) <$> seqZ 0 (Z.of_nat 64))
  end.

Lemma lor_add a b m : 0 ≤ m → a mod 2 ^ m = 0 → 0 ≤ b < 2 ^ m → Z.lor a b = a + b.
Proof.
  intros Hm Ha Hb. assert (Z.land a b = 0) as E.
  { apply Z.bits_inj'. intros i Hi. rewrite Z.land_spec, Z.bits_0.
    destruct (decide (i < m)).
    - rewrite <-(Z.mod_pow2_bits_low a m i) by lia. by rewrite Ha, Z.bits_0.
    - by rewrite (testbit_high b m), andb_false_r by lia. }
  pose proof (Z.add_lor_land a b). lia.
Qed.

Lemma pow64_succ level : 64 ^ Z.of_nat (S level) = 64 * 64 ^ Z.of_nat level.
Proof. rewrite Nat2Z.inj_succ, Z.pow_succ_r by lia. done. Qed.

Lemma pow64_pos level : 0 < 64 ^ Z.of_nat level.
Proof. apply Z.pow_pos_nonneg; lia. Qed.

Lemma pow64_2 level : 64 ^ Z.of_nat level = 2 ^ (Z.of_nat level * 6).
Proof. change 64 with (2 ^ 6). rewrite <-Z.pow_mul_r by lia. f_equal. lia. Qed.

(** The key built at a slot of a node whose keys start at [prefix]. *)
Lemma slot_key level prefix i :
  prefix mod 64 ^ Z.of_nat (S level) = 0 → 0 ≤ i < 64 → Z.of_nat level ≤ 5 →
  Z.lor prefix (u64 (Z.shiftl i (Z.of_nat level * 6))) = prefix + i * 64 ^ Z.of_nat level.
Proof.
  intros Hp Hi Hl. pose proof (pow64_pos level) as Hpos.
  assert (64 ^ Z.of_nat level ≤ 2 ^ 30) as Hle.
  { rewrite pow64_2. apply Z.pow_le_mono_r; lia. }
  rewrite Z.shiftl_mul_pow2, <-pow64_2 by lia. rewrite pow64_succ in Hp.
  assert (0 ≤ i * 64 ^ Z.of_nat level < 64 * 64 ^ Z.of_nat level) as B.
  { split; [apply Z.mul_nonneg_nonneg; lia|]. apply Z.mul_lt_mono_pos_r; lia. }
  rewrite u64_small by lia.
  apply (lor_add _ _ (Z.of_nat (S level) * 6)); [lia| |]; rewrite <-pow64_2, pow64_succ; done.
Qed.

Lemma child_prefix level prefix i :
  prefix mod 64 ^ Z.of_nat (S level) = 0 →
  (prefix + i * 64 ^ Z.of_nat level) mod 64 ^ Z.of_nat level = 0.
Proof.
  intros Hp. pose proof (pow64_pos level). rewrite pow64_succ in Hp.
  rewrite Z.mod_add by lia. apply Z.mod_divide; [lia|]. apply Z.mod_divide in Hp; [|lia].
  destruct Hp as [q ->]. exists (q * 64). lia.
Qed.

Lemma foreach_rec_entries {C} (fn : Z → Z → C → outcome C) level n prefix ctx :
  Z.of_nat level ≤ 5 → prefix mod 64 ^ Z.of_nat (S level) = 0 →
  foreach_rec fn level n prefix ctx =
  foldlM (λ kv, fn kv.1 kv.2) (entries level n prefix) ctx.
Proof.
  revert n prefix ctx. induction level as [|l IH]; intros n prefix ctx Hl Hp;
    cbn [foreach_rec entries]; unfold for_range; change (Z.to_nat (RADIX_FANOUT - 0)) with 64%nat.
  - apply for_up_foldlM. intros i s Hi. destruct (slot 0 n i =? 0); [done|]. cbn [foldlM fst snd].
    pose proof (slot_key 0 prefix i Hp) as E. change (Z.of_nat 0 * 6) with 0 in E. rewrite E by lia.
    change (64 ^ Z.of_nat 0) with 1. rewrite Z.mul_1_r. by destruct (fn _ _ s).
  - change (node (option (radix_node l))) in n. apply for_up_foldlM. intros i s Hi.
    destruct (slot None n i) as [c|]; [|done].
    rewrite IH; [|lia|].
    + unfold RADIX_BITS. by rewrite slot_key by (done || lia).
    + unfold RADIX_BITS. rewrite slot_key by (done || lia). by apply child_prefix.
Qed.

Lemma slot_index_add l j k i :
  (j ≤ l)%nat → 0 ≤ k → 0 ≤ i → slot_index (k + i * 64 ^ Z.of_nat (S l)) j = slot_index k j.
Proof.
  intros Hj Hk Hi. pose proof (pow64_pos (S l)). pose proof (pow64_pos j) as Hpj.
  rewrite !slot_index_eq by (try apply Z.add_nonneg_nonneg; try apply Z.mul_nonneg_nonneg; lia).
  replace (i * 64 ^ Z.of_nat (S l)) with (i * 64 ^ Z.of_nat (l - j) * 64 * 64 ^ Z.of_nat j).
  - rewrite Z.div_add by lia. by rewrite Z.mod_add.
  - replace (Z.of_nat (S l)) with (Z.of_nat (l - j) + 1 + Z.of_nat j) by lia.
    rewrite !Z.pow_add_r by lia. lia.
Qed.

Lemma lookup_at_add l c k i :
  0 ≤ k → 0 ≤ i → lookup_at l c (k + i * 64 ^ Z.of_nat (S l)) = lookup_at l c k.
Proof.
  intros Hk Hi.
  assert (∀ m, (m ≤ l)%nat → ∀ c : radix_node m,
    lookup_at m c (k + i * 64 ^ Z.of_nat (S l)) = lookup_at m c k) as H; [|by apply H].
  induction m as [|m IH]; intros Hm c'; cbn [lookup_at]; rewrite slot_index_add by lia; [done|].
  destruct (slot None _ _); [|done]. apply IH. lia.
Qed.

Lemma slot_index_top l k i :
  0 ≤ k < 64 ^ Z.of_nat (S l) → 0 ≤ i < 64 →
  slot_index (k + i * 64 ^ Z.of_nat (S l)) (S l) = i.
Proof.
  intros Hk Hi. pose proof (pow64_pos (S l)). rewrite slot_index_eq.
  - rewrite Z.div_add, Z.div_small by lia. apply Z.mod_small. lia.
  - apply Z.add_nonneg_nonneg; [lia|]. apply Z.mul_nonneg_nonneg; lia.
Qed.

Lemma elem_of_slots {A} (g : Z → list A) x :
  x ∈ concat (g <$> seqZ 0 (Z.of_nat 64)) ↔ ∃ i, 0 ≤ i < 64 ∧ x ∈ g i.
Proof.
  rewrite list_elem_of_In, in_concat. split.
  - intros (c & Hc & Hx). apply list_elem_of_In, list_elem_of_fmap in Hc as (i & -> & Hi).
    apply elem_of_seqZ in Hi. exists i. split; [lia|]. by apply list_elem_of_In.
  - intros (i & Hi & Hx). exists (g i). split; [|by apply list_elem_of_In].
    apply list_elem_of_In, list_elem_of_fmap. exists i. split; [done|]. apply elem_of_seqZ. lia.
Qed.

Lemma elem_of_entries level n prefix k v :
  (k, v) ∈ entries level n prefix ↔
  v ≠ 0 ∧ ∃ k', 0 ≤ k' < 64 ^ Z.of_nat (S level) ∧ k = prefix + k' ∧ lookup_at level n k' = v.
Proof.
  revert n prefix. induction level as [|l IH]; intros n prefix; cbn [entries lookup_at]; rewrite elem_of_slots.
  - change (64 ^ Z.of_nat 1) with 64.
    assert (∀ i, 0 ≤ i < 64 → slot_index i 0 = i) as Hidx.
    { intros i Hi. rewrite slot_index_eq by lia. change (64 ^ Z.of_nat 0) with 1.
      rewrite Z.div_1_r. apply Z.mod_small. lia. }
    split.
    + intros (i & Hi & H). destruct (Z.eqb_spec (slot 0 n i) 0); [set_solver|].
      apply list_elem_of_singleton in H as [= -> ->]. split; [done|]. exists i. by rewrite Hidx.
    + intros (Hv & i & Hi & -> & H). rewrite Hidx in H by done. exists i. split; [done|].
      rewrite H. rewrite (proj2 (Z.eqb_neq v 0) Hv). by apply list_elem_of_singleton.
  - change (node (option (radix_node l))) in n. pose proof (pow64_pos (S l)) as Hpos. split.
    + intros (i & Hi & H). destruct (slot None n i) as [c|] eqn:Hc; [|set_solver].
      apply IH in H as (Hv & k' & Hk & -> & H). split; [done|].
      exists (k' + i * 64 ^ Z.of_nat (S l)). rewrite (pow64_succ (S l)).
      assert (i * 64 ^ Z.of_nat (S l) ≤ 63 * 64 ^ Z.of_nat (S l)) by (apply Z.mul_le_mono_nonneg_r; lia).
      assert (0 ≤ i * 64 ^ Z.of_nat (S l)) by (apply Z.mul_nonneg_nonneg; lia).
      split; [lia|]. split; [lia|]. rewrite slot_index_top by lia. by rewrite Hc, lookup_at_add by lia.
    + intros (Hv & k' & Hk & -> & H). rewrite (pow64_succ (S l)) in Hk.
      set (i := k' / 64 ^ Z.of_nat (S l)). set (r := k' mod 64 ^ Z.of_nat (S l)).
      assert (k' = r + i * 64 ^ Z.of_nat (S l)) as E.
      { unfold r, i. pose proof (Z.div_mod k' (64 ^ Z.of_nat (S l))). lia. }
      assert (0 ≤ i < 64) as Hi.
      { split; [apply Z.div_pos; lia|]. apply Z.div_lt_upper_bound; lia. }
      assert (0 ≤ r < 64 ^ Z.of_nat (S l)) as Hr by (apply Z.mod_pos_bound; lia).
      rewrite E, slot_index_top in H by lia. exists i. split; [done|].
      destruct (slot None n i) as [c|]; [|done]. apply IH. split; [done|]. exists r.
      rewrite lookup_at_add in H by lia. split; [done|]. split; [|done]. lia.
Qed.

Lemma entries_sorted level n prefix :
  StronglySorted (λ a b, a.1 < b.1) (entries level n prefix).
Proof.
  revert n prefix. induction level as [|l IH]; intros n prefix; cbn [entries]; apply sorted_concat.
  - intros i _. destruct (slot 0 n i =? 0); repeat constructor.
  - intros i j [k v] [k' v'] Hij Hj Hx Hy. destruct (slot 0 n i =? 0); [set_solver|].
    destruct (slot 0 n j =? 0); [set_solver|]. apply list_elem_of_singleton in Hx, Hy.
    simplify_eq. cbn. lia.
  - intros i _. destruct (slot None _ i); [apply IH|constructor].
  - change (node (option (radix_node l))) in n.
    intros i j [k v] [k' v'] Hij Hj Hx Hy. destruct (slot None n i) as [c|]; [|set_solver].
    destruct (slot None n j) as [d|]; [|set_solver].
    apply elem_of_entries in Hx as (_ & a & Ha & -> & _).
    apply elem_of_entries in Hy as (_ & b & Hb & -> & _). cbn.
    pose proof (pow64_pos (S l)).
    assert ((i + 1) * 64 ^ Z.of_nat (S l) ≤ j * 64 ^ Z.of_nat (S l)) by (apply Z.mul_le_mono_nonneg_r; lia).
    lia.
Qed.

(** ** The finite map *)

Definition radix_entries (t : radix_tree) : list (Z * Z) :=
  match rt_root t with Some n => entries top_level n 0 | None => [] end.

Definition radix_map (t : radix_tree) : gmap Z Z := list_to_map (radix_entries t).

Record radix_wf (t : radix_tree) : Prop := {
  wf_root : ∀ n, rt_root t = Some n → rwf top_level n;
  wf_count : rt_count t = u64 (Z.of_nat (size (radix_map t)))
}.

Lemma radix_entries_sorted t : StronglySorted (λ a b, a.1 < b.1) (radix_entries t).
Proof. unfold radix_entries. destruct (rt_root t); [apply entries_sorted|constructor]. Qed.

Lemma sorted_keys_NoDup (l : list (Z * Z)) :
  StronglySorted (λ a b, a.1 < b.1) l → NoDup l.*1.
Proof.
  induction 1 as [|[k v] l _ IH Hf]; cbn; constructor; [|done].
  intros Hin. apply list_elem_of_fmap in Hin as (x & -> & Hx).
  rewrite Forall_forall in Hf. specialize (Hf x Hx). cbn in Hf. lia.
Qed.

Lemma radix_map_lookup t k v :
  radix_map t !! k = Some v ↔ v ≠ 0 ∧ 0 ≤ k ≤ RADIX_MAX_KEY ∧ radix_lookup t k = v.
Proof.
  unfold radix_map. rewrite <-elem_of_list_to_map by apply sorted_keys_NoDup, radix_entries_sorted.
  unfold radix_entries, radix_lookup. change (RADIX_MAX_KEY) with (64 ^ Z.of_nat (S top_level) - 1).
  destruct (rt_root t) as [n|].
  - rewrite elem_of_entries. split.
    + intros (Hv & k' & Hk & -> & H). split; [done|]. split; [lia|].
      destruct (Z.ltb_spec (64 ^ Z.of_nat (S top_level) - 1) (0 + k')); [lia|]. done.
    + intros (Hv & Hk & H). destruct (Z.ltb_spec (64 ^ Z.of_nat (S top_level) - 1) k); [lia|].
      split; [done|]. exists k. split; [lia|]. done.
  - split; [set_solver|]. intros (Hv & _ & H). destruct (Z.ltb _ _); lia.
Qed.

Lemma radix_map_default t k : 0 ≤ k → default 0 (radix_map t !! k) = radix_lookup t k.
Proof.
  intros Hk. destruct (radix_map t !! k) as [v|] eqn:E; cbn.
  - apply radix_map_lookup in E. naive_solver.
  - destruct (decide (radix_lookup t k = 0)) as [->|Hne]; [done|].
    assert (radix_map t !! k = Some (radix_lookup t k)) as H; [|congruence].
    apply radix_map_lookup. split; [done|]. split; [|done]. split; [done|].
    unfold radix_lookup in Hne. destruct (Z.ltb_spec RADIX_MAX_KEY k); lia.
Qed.

Lemma same_path_mod level k key :
  0 ≤ k → 0 ≤ key →
  same_path level k key = (k mod 64 ^ Z.of_nat (S level) =? key mod 64 ^ Z.of_nat (S level)).
Proof.
  intros Hk Hkey. induction level as [|l IH]; cbn [same_path].
  - rewrite !slot_index_eq by done. change (64 ^ Z.of_nat 0) with 1. rewrite !Z.div_1_r.
    apply andb_true_r.
  - rewrite IH, !slot_index_eq by done. rewrite (pow64_succ (S l)), (Z.mul_comm 64).
    pose proof (pow64_pos (S l)) as Hp. rewrite !(Z.rem_mul_r _ (64 ^ Z.of_nat (S l)) 64) by lia.
    set (p := 64 ^ Z.of_nat (S l)) in *.
    pose proof (Z.mod_pos_bound k p Hp). pose proof (Z.mod_pos_bound key p Hp).
    set (a := k / p mod 64). set (b := key / p mod 64). set (c := k mod p) in *. set (d := key mod p) in *.
    destruct (Z.eqb_spec a b) as [->|Hab]; cbn [andb].
    + destruct (Z.eqb_spec c d) as [->|]; [by rewrite Z.eqb_refl|]. symmetry. apply Z.eqb_neq. lia.
    + symmetry. apply Z.eqb_neq. intros E. apply Hab. nia.
Qed.

Lemma same_path_key k key :
  0 ≤ k ≤ RADIX_MAX_KEY → 0 ≤ key ≤ RADIX_MAX_KEY → same_path top_level k key = (k =? key).
Proof.
  change (RADIX_MAX_KEY) with (64 ^ Z.of_nat (S top_level) - 1). intros Hk Hkey.
  rewrite same_path_mod by lia. rewrite !Z.mod_small by lia. done.
Qed.

Lemma insert_at_ok level n key value budget :
  (level ≤ budget)%nat → (insert_at level n key value budget).1.2 = true.
Proof.
  revert n budget. induction level as [|l IH]; intros n budget Hb; [done|].
  change (node (option (radix_node l))) in n. cbn [insert_at].
  destruct (slot None n (slot_index key (S l))) as [c|]; [|destruct budget as [|budget]; [lia|]].
  - pose proof (IH c budget ltac:(lia)) as H.
    destruct (insert_at l c key value budget) as [[c' ok] fresh]. done.
  - pose proof (IH (node_new l) budget ltac:(lia)) as H.
    destruct (insert_at l (node_new l) key value budget) as [[c' ok] fresh]. done.
Qed.

(** The lookups of a tree determine its map. *)
Lemma radix_map_insert t t' key value :
  0 ≤ key ≤ RADIX_MAX_KEY → value ≠ 0 →
  (∀ k, 0 ≤ k ≤ RADIX_MAX_KEY → radix_lookup t' k = if k =? key then value else radix_lookup t k) →
  radix_map t' = <[key := value]> (radix_map t).
Proof.
  intros Hkey Hv H. apply map_eq. intros k. apply option_eq. intros v.
  rewrite lookup_insert. dec_if as Hk.
  - subst k. rewrite radix_map_lookup. split.
    + intros (Hv' & Hr & E). rewrite H, Z.eqb_refl in E by done. congruence.
    + intros [= <-]. split; [done|]. split; [done|]. by rewrite H, Z.eqb_refl by done.
  - rewrite !radix_map_lookup. split; intros (Hv' & Hr & E); (split; [done|]); (split; [done|]).
    + rewrite H in E by done. by rewrite (proj2 (Z.eqb_neq k key)) in E by congruence.
    + rewrite H by done. by rewrite (proj2 (Z.eqb_neq k key)) by congruence.
Qed.

Lemma radix_map_delete t t' key :
  0 ≤ key ≤ RADIX_MAX_KEY →
  (∀ k, 0 ≤ k ≤ RADIX_MAX_KEY → radix_lookup t' k = if k =? key then 0 else radix_lookup t k) →
  radix_map t' = delete key (radix_map t).
Proof.
  intros Hkey H. apply map_eq. intros k. apply option_eq. intros v.
  rewrite lookup_delete. dec_if as Hk.
  - subst k. rewrite radix_map_lookup. split; [|done].
    intros (Hv' & Hr & E). rewrite H, Z.eqb_refl in E by done. congruence.
  - rewrite !radix_map_lookup. split; intros (Hv' & Hr & E); (split; [done|]); (split; [done|]).
    + rewrite H in E by done. by rewrite (proj2 (Z.eqb_neq k key)) in E by congruence.
    + rewrite H by done. by rewrite (proj2 (Z.eqb_neq k key)) by congruence.
Qed.

Lemma radix_map_same t t' :
  (∀ k, 0 ≤ k ≤ RADIX_MAX_KEY → radix_lookup t' k = radix_lookup t k) → radix_map t' = radix_map t.
Proof.
  intros H. apply map_eq. intros k. apply option_eq. intros v. rewrite !radix_map_lookup.
  split; intros (Hv & Hr & E); (split; [done|]); (split; [done|]); [by rewrite <-H|by rewrite H].
Qed.

Lemma map_size_update (m m' : gmap Z Z) key v :
  m' = <[key := v]> m →
  Z.of_nat (size m') = Z.of_nat (size m) + (if m !! key then 0 else 1).
Proof.
  intros ->. destruct (m !! key) eqn:E.
  - rewrite map_size_insert_Some by (rewrite E; eauto). lia.
  - rewrite map_size_insert_None by done. lia.
Qed.

(** The step from an inserted node to the whole tree. *)
Lemma radix_insert_root t n0 key value budget :
  0 ≤ key ≤ RADIX_MAX_KEY → value ≠ 0 → rwf top_level n0 →
  rt_count t = u64 (Z.of_nat (size (radix_map t))) →
  (∀ k, 0 ≤ k ≤ RADIX_MAX_KEY → lookup_at top_level n0 k = radix_lookup t k) →
  let '(n, ok, fresh) := insert_at top_level n0 key value budget in
  let t' := mk_radix_tree (Some n) (if fresh : bool then u64 (rt_count t + 1) else rt_count t) in
  radix_wf t' ∧ radix_map t' = (if ok : bool then <[key := value]> (radix_map t) else radix_map t).
Proof.
  intros Hkey Hv Hwf Hcnt Hlk. pose proof (insert_at_spec top_level n0 key value budget Hwf Hv) as H.
  destruct (insert_at top_level n0 key value budget) as [[n ok] fresh]. destruct H as (W & L & F).
  cbv zeta. set (t' := mk_radix_tree _ _).
  assert (∀ k, 0 ≤ k ≤ RADIX_MAX_KEY →
    radix_lookup t' k = if ok && (k =? key) then value else radix_lookup t k) as HL.
  { intros k Hk. unfold radix_lookup at 1. cbn [rt_root t']. destruct (Z.ltb_spec RADIX_MAX_KEY k); [lia|].
    rewrite L, same_path_key, Hlk by done. done. }
  assert (radix_map t' = if ok then <[key := value]> (radix_map t) else radix_map t) as Hm.
  { destruct ok; [by apply radix_map_insert|by apply radix_map_same]. }
  split; [|done]. constructor; cbn [rt_root rt_count t'].
  - by intros ? [= <-].
  - rewrite Hm, F, Hcnt, Hlk by done. destruct ok; cbn [andb]; [|done].
    rewrite (map_size_update (radix_map t) (<[key := value]> (radix_map t)) key value) by done.
    rewrite <-(radix_map_default t key) by lia. destruct (radix_map t !! key) as [v|] eqn:E.
    + change (default 0 (Some v)) with v. apply radix_map_lookup in E as (Hv' & _). rewrite (proj2 (Z.eqb_neq v 0)) by done. f_equal. lia.
    + cbn. unfold u64. by rewrite Zplus_mod_idemp_l.
Qed.

Lemma radix_insert_spec t key value budget :
  radix_wf t → 0 ≤ key →
  let '(t', r) := radix_insert budget t key value in
  radix_wf t' ∧
  (if (RADIX_MAX_KEY <? key) || (value =? 0) then r = -1 ∧ radix_map t' = radix_map t
   else (r = 0 ∧ radix_map t' = <[key := value]> (radix_map t)) ∨
        (r = -1 ∧ radix_map t' = radix_map t ∧ (budget < 6)%nat)).
Proof.
  intros Hwf Hkey. pose proof Hwf as [Hr Hc]. unfold radix_insert.
  destruct (Z.ltb_spec RADIX_MAX_KEY key); cbn [orb]; [split; [exact Hwf|done]|].
  destruct (Z.eqb_spec value 0) as [|Hv]; [split; [exact Hwf|done]|].
  destruct (rt_root t) as [n|] eqn:Hroot; [|destruct budget as [|budget]].
  - pose proof (radix_insert_root t n key value budget) as H'.
    pose proof (insert_at_ok top_level n key value budget) as Hok.
    destruct (insert_at top_level n key value budget) as [[n' ok] fresh]. cbn in Hok.
    destruct H' as [W M]; [lia|done|by apply Hr|done| |].
    { intros k Hk. unfold radix_lookup. rewrite Hroot. destruct (Z.ltb_spec RADIX_MAX_KEY k); [lia|done]. }
    split; [exact W|]. destruct ok; [by left|]. right. split; [done|]. split; [done|].
    unfold top_level in Hok. destruct (decide (5 ≤ budget)%nat) as [Hb|]; [by specialize (Hok Hb)|lia].
  - split; [exact Hwf|]. right. split; [done|]. split; [done|lia].
  - pose proof (radix_insert_root t (node_new top_level) key value budget) as H'.
    pose proof (insert_at_ok top_level (node_new top_level) key value budget) as Hok.
    destruct (insert_at top_level (node_new top_level) key value budget) as [[n' ok] fresh]. cbn in Hok.
    destruct H' as [W M]; [lia|done|apply rwf_new|done| |].
    { intros k Hk. unfold radix_lookup. rewrite Hroot, lookup_new. by destruct (Z.ltb _ _). }
    split; [exact W|]. destruct ok; [by left|]. right. split; [done|]. split; [done|].
    unfold top_level in Hok. destruct (decide (5 ≤ budget)%nat) as [Hb|]; [by specialize (Hok Hb)|lia].
Qed.

Lemma radix_remove_spec t key :
  radix_wf t → 0 ≤ key →
  let '(t', r) := radix_remove t key in
  radix_wf t' ∧ r = default 0 (radix_map t !! key) ∧ radix_map t' = delete key (radix_map t).
Proof.
  intros Hwf Hkey. rewrite (radix_map_default t key Hkey).
  assert (radix_lookup t key = 0 → radix_map t = delete key (radix_map t)) as Hnone.
  { intros H. rewrite delete_id; [done|]. destruct (radix_map t !! key) eqn:E; [|done].
    apply radix_map_lookup in E. naive_solver. }
  unfold radix_remove. destruct (Z.ltb_spec RADIX_MAX_KEY key) as [Hbig|Hsmall].
  { assert (radix_lookup t key = 0) as E.
    { unfold radix_lookup. destruct (Z.ltb_spec RADIX_MAX_KEY key); [done|lia]. }
    rewrite E. auto. }
  assert (∀ k, 0 ≤ k ≤ RADIX_MAX_KEY → radix_lookup t k =
    match rt_root t with Some n => lookup_at top_level n k | None => 0 end) as Hlk.
  { intros k Hk. unfold radix_lookup. destruct (Z.ltb_spec RADIX_MAX_KEY k); [lia|done]. }
  pose proof (Hlk key ltac:(lia)) as Hkk.
  destruct (rt_root t) as [n|] eqn:Hroot; [|by rewrite Hkk; auto].
  pose proof (remove_at_spec top_level n key (wf_root _ Hwf n Hroot)) as H.
  destruct (remove_at top_level n key) as [[[v n'] pr]|]; [|rewrite Hkk, H in *; auto].
  destruct H as (-> & Hv & W & L). rewrite <-Hkk in *.
  set (t' := mk_radix_tree _ _).
  assert (radix_map t' = delete key (radix_map t)) as Hm.
  { apply radix_map_delete; [lia|]. intros k Hk. unfold radix_lookup at 1. cbn [rt_root t'].
    destruct (Z.ltb_spec RADIX_MAX_KEY k); [lia|].
    assert (lookup_at top_level n' k = if k =? key then 0 else radix_lookup t k) as E.
    { rewrite L, same_path_key by lia. by rewrite Hlk. }
    destruct (Z.eqb_spec (node_used top_level n') 0) as [H0|]; [|done].
    rewrite <-E. symmetry. by apply rwf_empty. }
  split; [|done]. constructor; cbn [rt_root rt_count t'].
  - intros n1. destruct (_ =? 0); [done|]. by intros [= <-].
  - rewrite Hm, (wf_count _ Hwf).
    assert (radix_map t !! key = Some (radix_lookup t key)) as Hs by (apply radix_map_lookup; auto with lia).
    rewrite map_size_delete_Some by (rewrite Hs; eauto).
    assert (size (radix_map t) ≠ 0%nat) by (apply map_size_ne_0_lookup; eauto).
    unfold u64. rewrite Zminus_mod_idemp_l. f_equal. lia.
Qed.

(** ** Operation sequences *)

Inductive radix_op :=
| RInsert (key value : Z) (budget : nat)
| RLookup (key : Z)
| RRemove (key : Z).

Definition op_key (o : radix_op) : Z :=
  match o with RInsert k _ _ | RLookup k | RRemove k => k end.

Definition radix_exec (o : radix_op) (t : radix_tree) : radix_tree * Z :=
  match o with
  | RInsert k v b => radix_insert b t k v
  | RLookup k => (t, radix_lookup t k)
  | RRemove k => radix_remove t k
  end.

(** What an operation may do to the map, and what it returns. An insertion fails
    only for a bad argument or when fewer than six nodes could be allocated, and
    then changes nothing. *)
Definition radix_allows (o : radix_op) (m m' : gmap Z Z) (r : Z) : Prop :=
  match o with
  | RInsert k v b =>
      if (RADIX_MAX_KEY <? k) || (v =? 0) then r = -1 ∧ m' = m
      else (r = 0 ∧ m' = <[k := v]> m) ∨ (r = -1 ∧ m' = m ∧ (b < 6)%nat)
  | RLookup k => r = default 0 (m !! k) ∧ m' = m
  | RRemove k => r = default 0 (m !! k) ∧ m' = delete k m
  end.

Fixpoint radix_run (os : list radix_op) (t : radix_tree) : radix_tree * list Z :=
  match os with
  | [] => (t, [])
  | o :: os => let '(t, r) := radix_exec o t in let '(t, rs) := radix_run os t in (t, r :: rs)
  end.

Fixpoint allows_run (os : list radix_op) (m m' : gmap Z Z) (rs : list Z) : Prop :=
  match os, rs with
  | [], [] => m' = m
  | o :: os, r :: rs => ∃ m1, radix_allows o m m1 r ∧ allows_run os m1 m' rs
  | _, _ => False
  end.

Lemma radix_exec_refines o t :
  radix_wf t → 0 ≤ op_key o →
  let '(t', r) := radix_exec o t in
  radix_wf t' ∧ radix_allows o (radix_map t) (radix_map t') r.
Proof.
  intros Hwf Hk. destruct o as [k v b|k|k]; cbn [op_key radix_exec radix_allows] in *.
  - by apply radix_insert_spec.
  - by rewrite radix_map_default.
  - by apply radix_remove_spec.
Qed.

Lemma radix_run_refines os t :
  radix_wf t → Forall (λ o, 0 ≤ op_key o) os →
  let '(t', rs) := radix_run os t in
  radix_wf t' ∧ allows_run os (radix_map t) (radix_map t') rs.
Proof.
  intros Hwf Hos. revert t Hwf. induction Hos as [|o os Ho _ IH]; intros t Hwf; [done|].
  cbn [radix_run]. pose proof (radix_exec_refines o t Hwf Ho) as H.
  destruct (radix_exec o t) as [t1 r]. destruct H as [Hwf1 H1]. specialize (IH t1 Hwf1).
  destruct (radix_run os t1) as [t' rs]. destruct IH as [Hwf' H']. cbn. eauto.
Qed.

Lemma radix_init_wf : radix_wf radix_init.
Proof. constructor; done. Qed.

(** ** Theorems *)

(** C28. Every sequence of inserts, lookups and removes from an empty tree returns
    what a finite map returns (an insertion may be refused only for a key above
    36 bits, a NULL value or a failed allocation, and then the map is unchanged),
    and the tree's count is the size of the map. *)
Theorem radix_refines_map os :
  Forall (λ o, 0 ≤ op_key o) os →
  let '(t, rs) := radix_run os radix_init in
  allows_run os ∅ (radix_map t) rs ∧
  radix_count t = u64 (Z.of_nat (size (radix_map t))) ∧
  ∀ k, 0 ≤ k → radix_lookup t k = default 0 (radix_map t !! k).
Proof.
  intros Hos. pose proof (radix_run_refines os radix_init radix_init_wf Hos) as H.
  destruct (radix_run os radix_init) as [t rs]. destruct H as [Hwf H].
  split; [exact H|]. split; [apply (wf_count _ Hwf)|]. intros k Hk. by rewrite radix_map_default.
Qed.

Lemma radix_refines_map_witness :
  (radix_run [RInsert 5 50 6; RInsert 0xFFFFFFFFF 7 6; RInsert 0x100000 1 2; RLookup 5; RRemove 5; RLookup 5]
     radix_init).2 = [0; 0; -1; 50; 50; 0] ∧
  allows_run [RInsert 5 50 6; RRemove 5] ∅
    (radix_map (radix_run [RInsert 5 50 6; RRemove 5] radix_init).1)
    (radix_run [RInsert 5 50 6; RRemove 5] radix_init).2.
Proof.
  split; [vm_compute; reflexivity|].
  pose proof (radix_refines_map [RInsert 5 50 6; RRemove 5]) as H.
  destruct (radix_run [RInsert 5 50 6; RRemove 5] radix_init) as [t rs].
  apply H. repeat constructor; cbn; lia.
Defined.

(** [radix_foreach] calls its function once for every key that
    [radix_lookup] finds, with its value, in strictly ascending key order. *)
Theorem radix_foreach_ascending (t : radix_tree) :
  ∃ l, radix_foreach (λ k v acc, Ret (acc ++ [(k, v)])) t [] = Ret l ∧
       StronglySorted (λ a b, a.1 < b.1) l ∧
       ∀ k v, (k, v) ∈ l ↔ v ≠ 0 ∧ 0 ≤ k ≤ RADIX_MAX_KEY ∧ radix_lookup t k = v.
Proof.
  exists (radix_entries t). split; [|split].
  - unfold radix_foreach, radix_entries. destruct (rt_root t) as [n|]; [|done].
    rewrite foreach_rec_entries by done. etransitivity; [|apply (foldlM_collect (entries top_level n 0) [])].
    by apply foldlM_ext; intros [k v] s.
  - apply radix_entries_sorted.
  - intros k v. rewrite <-radix_map_lookup. apply elem_of_list_to_map.
    apply sorted_keys_NoDup, radix_entries_sorted.
Qed.
