(* ===== verification/CString.v ===== *)
(** The freestanding memory and string primitives of [kernel/src/string.c]. The
    memory functions work on one flat array of bytes with addresses as indices,
    so that source and destination may overlap; the string functions take the
    bytes from the given pointer to the end of the object. *)

From S2P Require Import Prelude.

(** ** Definitions *)

Definition memset_body (d v : Z) (i : Z) (mem : list Z) : outcome (list Z) := aset mem (d + i) v.

Definition memset (mem : list Z) (d val n : Z) : outcome (list Z) :=
  for_range 0 n (memset_body d (u8 val)) mem.

Definition copy_byte (d s : Z) (mem : list Z) : outcome (list Z) :=
  b ← aget mem s; aset mem d b.

Definition memcpy (mem : list Z) (d s n : Z) : outcome (list Z) :=
  for_range 0 n (λ i mem, copy_byte (d + i) (s + i) mem) mem.

(** The same loop between two different objects: [n] bytes of [src] from [soff]
    to [dst] at [doff]. *)
Definition memcpy_from_body (src : list Z) (doff soff i : Z) (dst : list Z) : outcome (list Z) :=
  b ← aget src (soff + i); aset dst (doff + i) b.

Definition memcpy_from (dst : list Z) (doff : Z) (src : list Z) (soff n : Z) : outcome (list Z) :=
  for_range 0 n (memcpy_from_body src doff soff) dst.

Definition memmove (mem : list Z) (d s n : Z) : outcome (list Z) :=
  if (d =? s) || (n =? 0) then Ret mem
  else if d <? s then for_range 0 n (λ i mem, copy_byte (d + i) (s + i) mem) mem
  else for_range 0 n (λ i mem, copy_byte (d + n - i - 1) (s + n - i - 1) mem) mem.

Definition memcmp_body (mem : list Z) (a b i : Z) (_ : unit) : outcome (unit + Z) :=
  pa ← aget mem (a + i);
  pb ← aget mem (b + i);
  Ret (if pa =? pb then inl tt else inr (pa - pb)).

Definition memcmp (mem : list Z) (a b n : Z) : outcome Z :=
  r ← find_range 0 n (memcmp_body mem a b) tt;
  Ret (match r with inl _ => 0 | inr d => d end).

Fixpoint kstrlen_from (s : list Z) (n : Z) : outcome Z :=
  match s with
  | [] => Fault
  | c :: s => if c =? 0 then Ret n else kstrlen_from s (u64 (n + 1))
  end.

Definition kstrlen (s : list Z) : outcome Z := kstrlen_from s 0.
Definition strlen (s : list Z) : outcome Z := kstrlen s.

Fixpoint strcmp (a b : list Z) : outcome Z :=
  match a, b with
  | ca :: a, cb :: b =>
      if negb (ca =? 0) && (ca =? cb) then strcmp a b else Ret (ca - cb)
  | _, _ => Fault
  end.

Fixpoint strncmp (a b : list Z) (n : nat) : outcome Z :=
  match n with
  | O => Ret 0
  | S n =>
      match a, b with
      | ca :: a, cb :: b =>
          if negb (ca =? cb) then Ret (ca - cb)
          else if ca =? 0 then Ret 0
          else strncmp a b n
      | _, _ => Fault
      end
  end.

(** [i] is the number of bytes copied so far. *)
Fixpoint strcpy_from (dst src : list Z) (i : Z) : outcome (list Z) :=
  match src with
  | [] => Fault
  | c :: src =>
      dst ← aset dst i c;
      if c =? 0 then Ret dst else strcpy_from dst src (i + 1)
  end.

Definition strcpy (dst src : list Z) : outcome (list Z) := strcpy_from dst src 0.

(** The copying loop of [strncpy], over the bytes of [src] from [i]; the result
    has the index it stops at. *)
Fixpoint strncpy_copy (fuel : nat) (dst src : list Z) (n i : Z) : outcome (list Z * Z) :=
  if i <? n then
    c ← aget src i;
    if c =? 0 then Ret (dst, i)
    else
      match fuel with
      | O => Loop
      | S fuel => dst ← aset dst i c; strncpy_copy fuel dst src n (i + 1)
      end
  else Ret (dst, i).

Definition strncpy (dst src : list Z) (n : Z) : outcome (list Z) :=
  '(dst, i) ← strncpy_copy (Z.to_nat n) dst src n 0;
  for_range i n (λ i dst, aset dst i 0) dst.

Definition strlcpy (dst src : list Z) (dst_size : Z) : outcome (list Z * Z) :=
  srclen ← kstrlen src;
  if dst_size =? 0 then Ret (dst, srclen)
  else
    let n := if srclen <? dst_size - 1 then srclen else dst_size - 1 in
    dst ← memcpy_from dst 0 src 0 n;
    dst ← aset dst n 0;
    Ret (dst, srclen).

(** The position found, [None] for NULL. *)
Fixpoint strchr_from (s : list Z) (c i : Z) : outcome (option Z) :=
  match s with
  | [] => Fault
  | x :: s =>
      if x =? 0 then Ret (if c =? 0 then Some i else None)
      else if x =? u8 c then Ret (Some i)
      else strchr_from s c (i + 1)
  end.

Definition strchr (s : list Z) (c : Z) : outcome (option Z) := strchr_from s c 0.

Fixpoint strrchr_from (s : list Z) (c i : Z) (last : option Z) : outcome (option Z) :=
  match s with
  | [] => Fault
  | x :: s =>
      if x =? 0 then Ret (if c =? 0 then Some i else last)
      else strrchr_from s c (i + 1) (if x =? u8 c then Some i else last)
  end.

Definition strrchr (s : list Z) (c : Z) : outcome (option Z) := strrchr_from s c 0 None.

(** ** Specification *)

(** The object holds the NUL-terminated string [t]. *)
Definition cstr (s t : list Z) : Prop := 0 ∉ t ∧ ∃ rest, s = t ++ 0 :: rest.

(** Lexicographic comparison of byte strings, a proper prefix being smaller. *)
Fixpoint lexcmp (a b : list Z) : comparison :=
  match a, b with
  | [], [] => Eq
  | [], _ :: _ => Lt
  | _ :: _, [] => Gt
  | x :: a, y :: b => match x ?= y with Eq => lexcmp a b | c => c end
  end.

(** ** Lemmas *)

(** A copy loop that visits the offsets of [0 .. n) in an order given by [p] and
    reads every source byte before it is overwritten. *)
Lemma copy_loop mem d s n (p : Z → Z) :
  0 ≤ d → 0 ≤ s → 0 ≤ n → d + n ≤ zlen mem → s + n ≤ zlen mem →
  (∀ i, 0 ≤ i < n → 0 ≤ p i < n) →
  (∀ j, 0 ≤ j < n → ∃ i, 0 ≤ i < n ∧ p i = j) →
  (∀ i i', 0 ≤ i < i' → i' < n → d + p i ≠ s + p i' ∧ p i ≠ p i') →
  for_range 0 n (λ i mem, copy_byte (d + p i) (s + p i) mem) mem =
  Ret (zsplice mem d (zslice mem s n)).
Proof.
  intros Hd Hs Hn Hdl Hsl Hr Hsurj Hdisj.
  destruct (for_range_inv (λ i m, zlen m = zlen mem ∧
      (∀ j, 0 ≤ j → (∀ i', 0 ≤ i' < i → j ≠ d + p i') → m !! Z.to_nat j = mem !! Z.to_nat j) ∧
      (∀ i', 0 ≤ i' < i → m !! Z.to_nat (d + p i') = mem !! Z.to_nat (s + p i')))
    (λ i mem, copy_byte (d + p i) (s + p i) mem) 0 n mem) as (m & E & Hlen & Hout & Hin).
  - done.
  - intros i m Hi (Hlen & Hout & Hin). pose proof (Hr i Hi) as Hpi. unfold copy_byte.
    destruct (aget_in m (s + p i)) as (b & Hb & Eb); [rewrite Hlen; lia|]. rewrite Eb.
    cbn [mbind outcome_bind]. rewrite aset_in by (rewrite Hlen; lia). eexists. split; [done|].
    split; [by rewrite zlen_insert|].
    assert (mem !! Z.to_nat (s + p i) = Some b) as Hb'.
    { rewrite <-Hb. symmetry. apply Hout; [lia|]. intros i' Hi' Heq.
      destruct (Hdisj i' i) as [H1 _]; [lia|lia|]. lia. }
    split.
    + intros j Hj Hne. rewrite lookup_insert_Z by lia. rewrite decide_False.
      * apply Hout; [done|]. intros i' Hi'. apply Hne. lia.
      * specialize (Hne i ltac:(lia)). lia.
    + intros i' Hi'. destruct (decide (i' = i)) as [->|Hne].
      * rewrite lookup_insert_Z by lia. rewrite decide_True by done. by rewrite Hb'.
      * pose proof (Hr i' ltac:(lia)). rewrite lookup_insert_Z by lia.
        destruct (Hdisj i' i) as [_ H2]; [lia|lia|]. rewrite decide_False by lia. apply Hin. lia.
  - split; [done|]. split; [done|]. intros; lia.
  - rewrite E. f_equal. apply list_eq_Z. intros j Hj.
    assert (zlen (zslice mem s n) = n) as Hzl by (apply zlen_zslice; lia).
    rewrite lookup_zsplice by lia. rewrite Hzl. dec_if as H.
    + destruct (Hsurj (j - d)) as (i & Hi & Hp); [lia|].
      replace j with (d + p i) at 1 by lia. rewrite Hin by done.
      rewrite lookup_zslice by lia. rewrite decide_True by lia. f_equal. lia.
    + apply Hout; [done|]. intros i Hi. pose proof (Hr i Hi). lia.
Qed.

Lemma memmove_spec mem d s n :
  0 ≤ d → 0 ≤ s → 0 ≤ n → d + n ≤ zlen mem → s + n ≤ zlen mem →
  memmove mem d s n = Ret (zsplice mem d (zslice mem s n)).
Proof.
  intros Hd Hs Hn Hdl Hsl. unfold memmove.
  destruct (Z.eqb_spec d s) as [->|Hds]; cbn [orb].
  { f_equal. apply list_eq_Z. intros j Hj. assert (zlen (zslice mem s n) = n) as Hzl by (apply zlen_zslice; lia).
    rewrite lookup_zsplice by lia. rewrite Hzl. dec_if; [|done].
    rewrite lookup_zslice by lia. rewrite decide_True by lia. f_equal. lia. }
  destruct (Z.eqb_spec n 0) as [->|Hn0].
  { unfold zslice, zsplice. change (Z.to_nat 0) with O. rewrite take_0. cbn [app length].
    by rewrite Nat.add_0_r, take_drop. }
  destruct (Z.ltb_spec d s).
  - apply (copy_loop mem d s n (λ i, i)); [lia..|eauto|]. intros; lia.
  - rewrite <-(copy_loop mem d s n (λ i, n - 1 - i)); [|lia..| |intros; lia].
    + unfold for_range. apply for_up_ext. intros i m. f_equal; lia.
    + intros j Hj. exists (n - 1 - j). lia.
Qed.

Lemma memcpy_spec mem d s n :
  0 ≤ d → 0 ≤ s → 0 ≤ n → d + n ≤ zlen mem → s + n ≤ zlen mem → d ≤ s ∨ s + n ≤ d →
  memcpy mem d s n = Ret (zsplice mem d (zslice mem s n)).
Proof.
  intros Hd Hs Hn Hdl Hsl Hov. unfold memcpy.
  apply (copy_loop mem d s n (λ i, i)); [lia..|eauto|]. intros; lia.
Qed.

Lemma memset_spec mem d val n :
  0 ≤ d → 0 ≤ n → d + n ≤ zlen mem →
  memset mem d val n = Ret (zsplice mem d (replicate (Z.to_nat n) (u8 val))).
Proof.
  intros Hd Hn Hl. unfold memset.
  destruct (for_range_inv (λ i m, zlen m = zlen mem ∧
      ∀ j, 0 ≤ j → m !! Z.to_nat j = if decide (d ≤ j < d + i) then Some (u8 val) else mem !! Z.to_nat j)
    (memset_body d (u8 val)) 0 n mem) as (m & E & Hlen & Hm).
  - done.
  - intros i m Hi [Hlen Hm]. unfold memset_body. rewrite aset_in by lia. eexists. split; [done|].
    split; [by rewrite zlen_insert|]. intros j Hj. rewrite lookup_insert_Z by lia.
    rewrite Hm by done. repeat dec_if; done || lia.
  - split; [done|]. intros j Hj. rewrite decide_False by lia. done.
  - rewrite E. f_equal. apply list_eq_Z. intros j Hj. rewrite Hm by done.
    rewrite lookup_zsplice by (rewrite ?zlen_replicate; lia). rewrite zlen_replicate.
    repeat dec_if; try lia; [|done]. symmetry. apply lookup_replicate_2. lia.
Qed.

(** [memcmp] compares the two byte ranges lexicographically. *)
Lemma memcmp_spec mem a b n :
  0 ≤ a → 0 ≤ b → 0 ≤ n → a + n ≤ zlen mem → b + n ≤ zlen mem →
  ∃ r, memcmp mem a b n = Ret r ∧ (r ?= 0) = lexcmp (zslice mem a n) (zslice mem b n).
Proof.
  intros Ha Hb Hn Hal Hbl. unfold memcmp, find_range. rewrite Z.sub_0_r.
  assert (∀ k i, 0 ≤ i → i + Z.of_nat k = n →
    ∃ r, find_up k i (memcmp_body mem a b) tt = Ret r ∧
      match r with inl _ => 0 | inr d => d end ?= 0 =
      lexcmp (drop (Z.to_nat i) (zslice mem a n)) (drop (Z.to_nat i) (zslice mem b n))) as H.
  { induction k as [|k IH]; intros i Hi Hk.
    - eexists. split; [done|]. cbn.
      rewrite !drop_ge; [done| |]; unfold zslice, zlen in *; rewrite length_take, length_drop; lia.
    - cbn [find_up].
      destruct (aget_in mem (a + i)) as (x & Hx & Ex); [lia|].
      destruct (aget_in mem (b + i)) as (y & Hy & Ey); [lia|].
      assert (memcmp_body mem a b i tt = Ret (if x =? y then inl tt else inr (x - y))) as ->.
      { unfold memcmp_body. rewrite Ex. cbn [mbind outcome_bind]. by rewrite Ey. }
      cbn [mbind outcome_bind].
      assert (zslice mem a n !! Z.to_nat i = Some x) as Hx'
        by (rewrite lookup_zslice by lia; by rewrite decide_True by lia).
      assert (zslice mem b n !! Z.to_nat i = Some y) as Hy'
        by (rewrite lookup_zslice by lia; by rewrite decide_True by lia).
      rewrite (drop_S _ _ _ Hx'), (drop_S _ _ _ Hy'). cbn [lexcmp].
      destruct (Z.eqb_spec x y) as [->|Hne].
      + rewrite Z.compare_refl. destruct (IH (i + 1)) as (r & E & Hr); [lia|lia|].
        exists r. split; [exact E|]. rewrite Hr. by replace (Z.to_nat (i + 1)) with (S (Z.to_nat i)) by lia.
      + eexists. split; [done|]. cbn.
        destruct (Z.compare_spec x y), (Z.compare_spec (x - y) 0); done || lia. }
  destruct (H (Z.to_nat n) 0) as (r & E & Hr); [lia|lia|]. rewrite E. cbn [mbind outcome_bind].
  eexists. split; [done|]. exact Hr.
Qed.

Lemma lexcmp_eq a b : lexcmp a b = Eq ↔ a = b.
Proof.
  revert b. induction a as [|x a IH]; intros [|y b]; cbn [lexcmp]; try done. destruct (Z.compare_spec x y) as [->| |]; cbn; [rewrite IH; naive_solver|..]; (split; [done|]); intros [= -> _]; lia.
Qed.

Lemma kstrlen_from_spec t rest n :
  0 ∉ t → 0 ≤ n → n + zlen t < 2 ^ 64 → kstrlen_from (t ++ 0 :: rest) n = Ret (n + zlen t).
Proof.
  revert n. induction t as [|c t IH]; intros n Ht Hn Hl; cbn [app kstrlen_from].
  - cbn. f_equal. unfold zlen. cbn. lia.
  - apply not_elem_of_cons in Ht as [Hc Ht]. destruct (Z.eqb_spec c 0); [congruence|].
    rewrite zlen_cons in *. pose proof (zlen_nonneg t). rewrite u64_small by lia.
    rewrite IH by (done || lia). f_equal. lia.
Qed.

Lemma kstrlen_spec s t : cstr s t → zlen t < 2 ^ 64 → kstrlen s = Ret (zlen t).
Proof. intros [Ht [rest ->]] Hl. unfold kstrlen. by rewrite kstrlen_from_spec by (done || lia). Qed.

Lemma strcmp_spec a b ta tb :
  cstr a ta → cstr b tb → Forall is_u8 ta → Forall is_u8 tb →
  ∃ r, strcmp a b = Ret r ∧ (r ?= 0) = lexcmp ta tb.
Proof.
  intros [Ha [ra ->]] [Hb [rb ->]]. revert tb Hb.
  induction ta as [|x ta IH]; intros [|y tb] Hb Fa Fb; cbn [app strcmp lexcmp].
  - eexists. split; [reflexivity|done].
  - inversion Fb as [|?? Hy _]; subst. apply not_elem_of_cons in Hb as [Hb _]. unfold is_u8 in Hy.
    eexists. split; [reflexivity|]. apply Z.compare_lt_iff. lia.
  - inversion Fa as [|?? Hx _]; subst. apply not_elem_of_cons in Ha as [Ha _]. unfold is_u8 in Hx.
    rewrite (proj2 (Z.eqb_neq x 0)) by congruence.
    cbn [negb andb]. eexists. split; [reflexivity|]. apply Z.compare_gt_iff. lia.
  - inversion Fa as [|?? Hx Fa']; subst. inversion Fb as [|?? Hy Fb']; subst.
    apply not_elem_of_cons in Ha as [Ha Ha']. apply not_elem_of_cons in Hb as [Hb Hb'].
    rewrite (proj2 (Z.eqb_neq x 0)) by congruence. cbn [negb andb].
    destruct (Z.eqb_spec x y) as [->|Hne].
    + rewrite Z.compare_refl. by apply IH.
    + eexists. split; [done|]. destruct (Z.compare_spec x y), (Z.compare_spec (x - y) 0); done || lia.
Qed.

Lemma strncmp_spec a b ta tb n :
  cstr a ta → cstr b tb → Forall is_u8 ta → Forall is_u8 tb →
  ∃ r, strncmp a b n = Ret r ∧ (r ?= 0) = lexcmp (take n ta) (take n tb).
Proof.
  intros [Ha [ra ->]] [Hb [rb ->]]. revert n tb Hb.
  induction ta as [|x ta IH]; intros [|n] [|y tb] Hb Fa Fb; cbn [app strncmp lexcmp take];
    try (eexists; split; [reflexivity|done]).
  - inversion Fb as [|?? Hy _]; subst. apply not_elem_of_cons in Hb as [Hb _]. unfold is_u8 in Hy.
    rewrite (proj2 (Z.eqb_neq 0 y)) by congruence. cbn [negb].
    eexists. split; [reflexivity|]. apply Z.compare_lt_iff. lia.
  - inversion Fa as [|?? Hx _]; subst. apply not_elem_of_cons in Ha as [Ha _]. unfold is_u8 in Hx.
    rewrite (proj2 (Z.eqb_neq x 0)) by congruence.
    cbn [negb]. eexists. split; [reflexivity|]. apply Z.compare_gt_iff. lia.
  - inversion Fa as [|?? Hx Fa']; subst. inversion Fb as [|?? Hy Fb']; subst.
    apply not_elem_of_cons in Ha as [Ha Ha']. apply not_elem_of_cons in Hb as [Hb Hb'].
    destruct (Z.eqb_spec x y) as [->|Hne]; cbn [negb].
    + rewrite (proj2 (Z.eqb_neq y 0)) by congruence. rewrite Z.compare_refl. by apply IH.
    + eexists. split; [done|]. destruct (Z.compare_spec x y), (Z.compare_spec (x - y) 0); done || lia.
Qed.

Lemma memcpy_from_spec dst doff src soff n :
  0 ≤ doff → 0 ≤ soff → 0 ≤ n → doff + n ≤ zlen dst → soff + n ≤ zlen src →
  memcpy_from dst doff src soff n = Ret (zsplice dst doff (zslice src soff n)).
Proof.
  intros Hd Hs Hn Hdl Hsl. unfold memcpy_from.
  destruct (for_range_inv (λ i m, zlen m = zlen dst ∧
      ∀ j, 0 ≤ j → m !! Z.to_nat j =
        if decide (doff ≤ j < doff + i) then src !! Z.to_nat (j - doff + soff) else dst !! Z.to_nat j)
    (memcpy_from_body src doff soff) 0 n dst) as (m & E & Hlen & Hm).
  - done.
  - intros i m Hi [Hlen Hm]. unfold memcpy_from_body.
    destruct (aget_in src (soff + i)) as (b & Hb & ->); [lia|]. cbn [mbind outcome_bind].
    rewrite aset_in by lia. eexists. split; [done|].
    split; [by rewrite zlen_insert|]. intros j Hj. rewrite lookup_insert_Z by lia.
    rewrite Hm by done. repeat dec_if; try done; try lia.
    rewrite <-Hb. f_equal. lia.
  - split; [done|]. intros j Hj. rewrite decide_False by lia. done.
  - rewrite E. f_equal. assert (zlen (zslice src soff n) = n) as Hzl by (apply zlen_zslice; lia).
    apply list_eq_Z. intros j Hj. rewrite Hm by done. rewrite lookup_zsplice by lia. rewrite Hzl.
    dec_if as H; [|done]. rewrite lookup_zslice by lia. rewrite decide_True by lia. f_equal. lia.
Qed.

(** Overwriting the element after a prefix. *)
Lemma aset_middle {A} (p : list A) x r c : aset (p ++ x :: r) (zlen p) c = Ret (p ++ c :: r).
Proof.
  rewrite aset_in by (zlen_simpl; pose proof (zlen_nonneg p); pose proof (zlen_nonneg r); lia).
  f_equal. unfold zlen. rewrite Nat2Z.id. rewrite insert_app_r_alt by lia. by rewrite Nat.sub_diag.
Qed.

Lemma strcpy_from_spec p q t rest :
  0 ∉ t → zlen t < zlen q →
  strcpy_from (p ++ q) (t ++ 0 :: rest) (zlen p) = Ret (p ++ t ++ 0 :: drop (S (length t)) q).
Proof.
  revert p q. induction t as [|c t IH]; intros p [|x q] Ht Hl; zlen_simpl;
    try (pose proof (zlen_nonneg t)); try (unfold zlen in *; cbn in *; lia).
  - cbn [app strcpy_from]. rewrite aset_middle. done.
  - apply not_elem_of_cons in Ht as [Hc Ht]. cbn [app strcpy_from]. rewrite aset_middle.
    cbn [mbind outcome_bind]. destruct (Z.eqb_spec c 0); [congruence|].
    replace (zlen p + 1) with (zlen (p ++ [c])) by (zlen_simpl; unfold zlen; cbn; lia).
    replace (p ++ c :: q) with ((p ++ [c]) ++ q) by (by rewrite <-app_assoc).
    rewrite IH by (done || lia). by rewrite <-app_assoc.
Qed.

Lemma strncpy_copy_spec fuel p q t rest n u :
  0 ∉ t → u = p ++ t ++ 0 :: rest → zlen p ≤ n → n - zlen p ≤ zlen q → n - zlen p ≤ Z.of_nat fuel →
  strncpy_copy fuel (p ++ q) u n (zlen p) =
  Ret (p ++ take (Z.to_nat (n - zlen p)) t ++ drop (length (take (Z.to_nat (n - zlen p)) t)) q,
       zlen p + zlen (take (Z.to_nat (n - zlen p)) t)).
Proof.
  revert fuel p q. induction t as [|c t IH]; intros fuel p q Ht Hu Hp Hq Hf.
  - rewrite take_nil. cbn [app length drop]. change (@zlen Z []) with 0. rewrite Z.add_0_r.
    assert (aget u (zlen p) = Ret 0) as E.
    { apply aget_Some; [apply zlen_nonneg|]. subst u. unfold zlen. rewrite Nat2Z.id. by apply list_lookup_middle. }
    destruct fuel; cbn [strncpy_copy]; rewrite E; cbn [mbind outcome_bind]; by destruct (zlen p <? n).
  - apply not_elem_of_cons in Ht as [Hc Ht].
    assert (aget u (zlen p) = Ret c) as E.
    { apply aget_Some; [apply zlen_nonneg|]. subst u. unfold zlen. rewrite Nat2Z.id. by apply list_lookup_middle. }
    destruct (decide (zlen p = n)) as [<-|Hne].
    { rewrite Z.sub_diag. change (Z.to_nat 0) with O. cbn [take app length drop]. change (@zlen Z []) with 0.
      rewrite Z.add_0_r. destruct fuel; cbn [strncpy_copy]; by rewrite Z.ltb_irrefl. }
    destruct fuel as [|fuel]; [lia|]. destruct q as [|x q]; [change (@zlen Z []) with 0 in Hq; lia|].
    cbn [strncpy_copy]. rewrite (proj2 (Z.ltb_lt (zlen p) n)) by lia. rewrite E. cbn [mbind outcome_bind].
    destruct (Z.eqb_spec c 0); [congruence|]. rewrite aset_middle. cbn [mbind outcome_bind].
    replace (zlen p + 1) with (zlen (p ++ [c])) by (zlen_simpl; unfold zlen; cbn; lia).
    replace (p ++ c :: q) with ((p ++ [c]) ++ q) by (by rewrite <-app_assoc).
    assert (zlen (p ++ [c]) = zlen p + 1) as Ep by (zlen_simpl; unfold zlen; cbn; lia).
    rewrite zlen_cons in Hq.
    rewrite IH; [|done|subst u; by rewrite <-app_assoc|lia|lia|lia]. rewrite Ep.
    replace (Z.to_nat (n - zlen p)) with (S (Z.to_nat (n - (zlen p + 1)))) by lia.
    cbn [take length drop]. rewrite zlen_cons, <-app_assoc. cbn [app]. f_equal. f_equal. lia.
Qed.

Lemma for_range_zero_fill p q i n :
  i = zlen p → zlen p ≤ n → n - zlen p ≤ zlen q →
  for_range i n (λ i dst, aset dst i 0) (p ++ q) =
  Ret (p ++ replicate (Z.to_nat (n - zlen p)) 0 ++ drop (Z.to_nat (n - zlen p)) q).
Proof.
  intros -> Hn Hq. unfold for_range. remember (Z.to_nat (n - zlen p)) as k eqn:Hk.
  assert (k ≤ length q)%nat as Hkq by (unfold zlen in *; lia). clear n Hn Hq Hk.
  revert p q Hkq. induction k as [|k IH]; intros p q Hkq; [done|]. destruct q as [|x q]; [cbn in Hkq; lia|].
  cbn [for_up]. rewrite aset_middle. cbn [mbind outcome_bind].
  replace (zlen p + 1) with (zlen (p ++ [0])) by (zlen_simpl; unfold zlen; cbn; lia).
  replace (p ++ 0 :: q) with ((p ++ [0]) ++ q) by (by rewrite <-app_assoc).
  rewrite IH by (cbn in Hkq; lia). cbn. by rewrite <-app_assoc.
Qed.

Lemma strncpy_spec dst src t n :
  cstr src t → 0 ≤ n ≤ zlen dst →
  let t' := take (Z.to_nat n) t in
  strncpy dst src n =
  Ret (t' ++ replicate (Z.to_nat (n - zlen t')) 0 ++ drop (Z.to_nat n) dst).
Proof.
  intros [Ht [rest E]] Hn t'. unfold strncpy.
  pose proof (strncpy_copy_spec (Z.to_nat n) [] dst t rest n src Ht E) as H.
  change (@zlen Z []) with 0 in H. rewrite Z.sub_0_r, Z.add_0_l in H. cbn [app] in H.
  rewrite H by lia. cbn [mbind outcome_bind]. fold t'.
  assert (zlen t' ≤ n) as Hle by (unfold t', zlen; rewrite length_take; lia).
  rewrite for_range_zero_fill; [|done|done|].
  - rewrite drop_drop. do 4 f_equal. unfold zlen in *. lia.
  - unfold zlen in *. rewrite length_drop. lia.
Qed.

Lemma cstr_prefix src t n : cstr src t → 0 ≤ n ≤ zlen t → zslice src 0 n = take (Z.to_nat n) t.
Proof.
  intros [_ [rest ->]] Hn. unfold zslice. change (Z.to_nat 0) with O. rewrite drop_0.
  apply take_app_le. unfold zlen in Hn. lia.
Qed.

Lemma strlcpy_spec dst src t size :
  cstr src t → zlen t < 2 ^ 64 → 0 ≤ size ≤ zlen dst →
  strlcpy dst src size =
  Ret (if size =? 0 then dst
       else take (Z.to_nat (size - 1)) t ++ 0 :: drop (S (length (take (Z.to_nat (size - 1)) t))) dst,
       zlen t).
Proof.
  intros Hs Hl Hsz. unfold strlcpy. rewrite (kstrlen_spec src t Hs Hl). cbn [mbind outcome_bind].
  destruct (Z.eqb_spec size 0) as [|Hnz]; [done|].
  set (n := if zlen t <? size - 1 then zlen t else size - 1). pose proof (zlen_nonneg t).
  assert (0 ≤ n ≤ zlen t ∧ n ≤ size - 1 ∧ n = zlen (take (Z.to_nat (size - 1)) t)) as (Hn & Hns & En).
  { unfold n, zlen. rewrite length_take. unfold zlen in *. destruct (Z.ltb_spec (Z.of_nat (length t)) (size - 1)); lia. }
  assert (zlen t + 1 ≤ zlen src) as Hsl.
  { destruct Hs as [_ [rest ->]]. zlen_simpl. pose proof (zlen_nonneg rest). lia. }
  rewrite memcpy_from_spec by lia. cbn [mbind outcome_bind]. rewrite (cstr_prefix src t n Hs Hn).
  assert (take (Z.to_nat n) t = take (Z.to_nat (size - 1)) t) as ->.
  { rewrite En. unfold zlen. rewrite Nat2Z.id, length_take. destruct (decide (Z.to_nat (size - 1) ≤ length t)%nat).
    - by rewrite Nat.min_l by lia.
    - rewrite Nat.min_r by lia. rewrite !take_ge by lia. done. }
  set (k := take (Z.to_nat (size - 1)) t) in *. unfold zsplice. change (Z.to_nat 0) with O.
  rewrite Nat.add_0_l.
  destruct (drop (length k) dst) as [|x r] eqn:Hd.
  { apply (f_equal length) in Hd. rewrite length_drop in Hd. unfold zlen in *. cbn in Hd. lia. }
  rewrite take_0, app_nil_l, En, aset_middle. cbn [mbind outcome_bind].
  assert (drop (S (length k)) dst = r) as ->; [|done].
  replace (S (length k)) with (length k + 1)%nat by lia. rewrite <-drop_drop, Hd. done.
Qed.

Lemma strchr_from_spec t rest c i :
  0 ∉ t → u8 c = c →
  strchr_from (t ++ 0 :: rest) c i =
  Ret (match list_find (c =.) t with
       | Some (k, _) => Some (i + Z.of_nat k)
       | None => if c =? 0 then Some (i + zlen t) else None
       end).
Proof.
  intros Ht Hc. revert i. induction t as [|x t IH]; intros i; cbn [app strchr_from].
  - cbn. by rewrite Z.add_0_r.
  - apply not_elem_of_cons in Ht as [Hx Ht]. destruct (Z.eqb_spec x 0); [congruence|]. rewrite Hc.
    cbn [list_find]. destruct (Z.eqb_spec x c) as [->|Hne].
    + rewrite decide_True by done. by rewrite Z.add_0_r.
    + rewrite decide_False by congruence. rewrite IH by done. rewrite zlen_cons.
      destruct (list_find (c =.) t) as [[k y]|]; cbn; [do 2 f_equal; lia|].
      destruct (c =? 0); [do 2 f_equal; lia|done].
Qed.

(** The last occurrence is the first one of the reversed string. *)
Lemma strrchr_from_spec t rest c i last :
  0 ∉ t → u8 c = c → c ≠ 0 →
  ∃ r, strrchr_from (t ++ 0 :: rest) c i last = Ret r ∧
    match r with
    | Some p => (c ∉ t ∧ last = Some p) ∨
                (∃ k, p = i + Z.of_nat k ∧ t !! k = Some c ∧ c ∉ drop (S k) t)
    | None => c ∉ t ∧ last = None
    end.
Proof.
  intros Ht Hc Hnz. revert i last. induction t as [|x t IH]; intros i last; cbn [app strrchr_from].
  - eexists. split; [reflexivity|]. destruct (Z.eqb_spec c 0); [lia|]. destruct last; set_solver.
  - apply not_elem_of_cons in Ht as [Hx Ht]. destruct (Z.eqb_spec x 0); [congruence|]. rewrite Hc.
    destruct (IH Ht (i + 1) (if x =? c then Some i else last)) as (r & E & Hr).
    exists r. split; [exact E|]. destruct r as [p|].
    + destruct Hr as [[Hn Hl]|(k & -> & Hk & Hd)].
      * destruct (Z.eqb_spec x c) as [->|Hne].
        -- injection Hl as ->. right. exists O. split; [lia|]. split; [done|]. cbn. by rewrite drop_0.
        -- left. split; [|done]. apply not_elem_of_cons. split; [congruence|done].
      * right. exists (S k). split; [lia|]. done.
    + destruct Hr as [Hn Hl]. destruct (Z.eqb_spec x c) as [->|Hne]; [done|].
      split; [|done]. apply not_elem_of_cons. split; [congruence|done].
Qed.

(** ** Theorems *)

(** [memmove] copies the original [n] source bytes to the destination even
    when the ranges overlap; [memcpy] does so when the destination does not start
    inside the source range; [memset] fills exactly the range; [memcmp] orders the
    two ranges lexicographically. Nothing outside the destination changes. *)
Theorem mem_functions_correct mem d s n val :
  0 ≤ d → 0 ≤ s → 0 ≤ n → d + n ≤ zlen mem → s + n ≤ zlen mem →
  memmove mem d s n = Ret (zsplice mem d (zslice mem s n)) ∧
  (d ≤ s ∨ s + n ≤ d → memcpy mem d s n = Ret (zsplice mem d (zslice mem s n))) ∧
  memset mem d val n = Ret (zsplice mem d (replicate (Z.to_nat n) (u8 val))) ∧
  ∃ r, memcmp mem d s n = Ret r ∧ (r ?= 0) = lexcmp (zslice mem d n) (zslice mem s n).
Proof.
  intros Hd Hs Hn Hdl Hsl. split; [by apply memmove_spec|]. split; [by apply memcpy_spec|].
  split; [by apply memset_spec|by apply memcmp_spec].
Qed.

Lemma mem_functions_correct_witness :
  memmove [1; 2; 3; 4; 5] 1 0 3 = Ret [1; 1; 2; 3; 5] ∧ memset [1; 2; 3; 4; 5] 1 256 3 = Ret [1; 0; 0; 0; 5].
Proof.
  destruct (mem_functions_correct [1; 2; 3; 4; 5] 1 0 3 256) as (H1 & _ & H2 & _);
    [vm_compute; congruence..|].
  split; [exact H1|exact H2].
Defined.

(** On NUL-terminated strings: [strlen] is the length; [strcmp] and [strncmp]
    order (the first [n] bytes of) the strings lexicographically as unsigned
    bytes; [strlcpy] stores as much as fits and always a terminator, and returns
    the full length; [strncpy] stores at most [n] bytes and pads with NULs;
    [strchr] finds the first occurrence. *)
Theorem string_functions_correct a b ta tb dst n (k : nat) c :
  cstr a ta → cstr b tb → Forall is_u8 ta → Forall is_u8 tb → zlen ta < 2 ^ 64 →
  0 ≤ n ≤ zlen dst → is_u8 c →
  strlen a = Ret (zlen ta) ∧
  (∃ r, strcmp a b = Ret r ∧ (r ?= 0) = lexcmp ta tb) ∧
  (∃ r, strncmp a b k = Ret r ∧ (r ?= 0) = lexcmp (take k ta) (take k tb)) ∧
  strlcpy dst a n =
    Ret (if n =? 0 then dst
         else take (Z.to_nat (n - 1)) ta ++ 0 :: drop (S (length (take (Z.to_nat (n - 1)) ta))) dst,
         zlen ta) ∧
  strncpy dst a n =
    Ret (take (Z.to_nat n) ta ++ replicate (Z.to_nat (n - zlen (take (Z.to_nat n) ta))) 0 ++
         drop (Z.to_nat n) dst) ∧
  strchr a c =
    Ret (match list_find (c =.) ta with
         | Some (i, _) => Some (Z.of_nat i)
         | None => if c =? 0 then Some (zlen ta) else None
         end).
Proof.
  intros Ha Hb Fa Fb Hl Hn Hc. split; [by apply kstrlen_spec|]. split; [by apply strcmp_spec|].
  split; [by apply strncmp_spec|]. split; [by apply strlcpy_spec|]. split; [by apply strncpy_spec|].
  destruct Ha as [Ht [rest ->]]. unfold strchr. rewrite strchr_from_spec by (done || by apply u8_small).
  done.
Qed.

Lemma string_functions_correct_witness :
  strlcpy [9; 9; 9; 9] [104; 105; 106; 107; 0; 7] 3 = Ret ([104; 105; 0; 9], 4) ∧
  strchr [104; 105; 106; 107; 0; 7] 106 = Ret (Some 2).
Proof.
  destruct (string_functions_correct [104; 105; 106; 107; 0; 7] [0] [104; 105; 106; 107] [] [9; 9; 9; 9] 3 2 106)
    as (_ & _ & _ & H1 & _ & H2).
  - split; [apply (bool_decide_unpack _); vm_compute; exact I|]. exists [7]. reflexivity.
  - split; [apply (bool_decide_unpack _); vm_compute; exact I|]. exists []. reflexivity.
  - repeat constructor; lia.
  - constructor.
  - reflexivity.
  - vm_compute; split; congruence.
  - split; lia.
  - split; [exact H1|exact H2].
Defined.
