(* ===== verification/Fmt.v ===== *)
(** Formatted output, [kernel/lib/fmt.c]: number formatting, the bounded output
    sink and the [printf] subset of [kvsnprintf]. Characters are byte values, a
    format string is the array of its bytes with the terminating NUL. *)

From S2P Require Import Prelude CString.

(** ** Definitions *)

(** [buf] is [None] for a NULL buffer. *)
Record sink := mk_sink { sk_buf : option (list Z); sk_size : Z; sk_len : Z }.

Definition sink_putc (s : sink) (c : Z) : outcome sink :=
  buf ← (match sk_buf s with
         | Some buf =>
             if u64 (sk_len s + 1) <? sk_size s then buf ← aset buf (sk_len s) c; Ret (Some buf)
             else Ret (Some buf)
         | None => Ret None
         end : outcome (option (list Z)));
  Ret (mk_sink buf (sk_size s) (u64 (sk_len s + 1))).

Fixpoint sink_puts (s : sink) (str : list Z) : outcome sink :=
  match str with
  | [] => Fault
  | c :: str => if c =? 0 then Ret s else s ← sink_putc s c; sink_puts s str
  end.

(** The digit characters, ['0'] to ['9'] and then ['a'] or ['A'] to ['f'] or ['F']. *)
Definition digit_char (upper : bool) (d : Z) : Z :=
  if d <? 10 then 48 + d else if upper then 55 + d else 87 + d.

(** The [do ... while (v && n < sizeof(tmp))] loop; [k] is the room left in [tmp]. *)
Fixpoint digit_loop (k : nat) (v base : Z) (upper : bool) (tmp : list Z) : list Z :=
  match k with
  | O => tmp
  | S k =>
      let tmp := tmp ++ [digit_char upper (v mod base)] in
      let v := v / base in
      if v =? 0 then tmp else digit_loop k v base upper tmp
  end.

(** The loop that stores the digits of [tmp] last first, given reversed. *)
Fixpoint digit_out (buf : list Z) (size : Z) (rtmp : list Z) (out : Z) : outcome (list Z * Z) :=
  match rtmp with
  | [] => Ret (buf, out)
  | c :: rtmp =>
      if out + 1 <? size then buf ← aset buf out c; digit_out buf size rtmp (out + 1)
      else Ret (buf, out)
  end.

Definition kfmt_u64 (buf : list Z) (size v base : Z) (upper : bool) : outcome (list Z * Z) :=
  let base := if (base <? 2) || (16 <? base) then 10 else base in
  let tmp := digit_loop 32 v base upper [] in
  '(buf, out) ← digit_out buf size (reverse tmp) 0;
  buf ← (if 0 <? size then aset buf out 0 else Ret buf);
  Ret (buf, out).

Definition kfmt_hex64_body (v size : Z) (i : Z) (buf : list Z) : outcome (list Z + list Z) :=
  if i + 3 <=? size then
    let shift := (15 - i) * 4 in
    buf ← aset buf (2 + i) (digit_char true (Z.land (Z.shiftr v shift) 0xF));
    Ret (inl buf)
  else Ret (inr buf).

Definition kfmt_hex64 (buf : list Z) (size v : Z) : outcome (list Z) :=
  if size <? 3 then (if size =? 0 then Ret buf else aset buf 0 0)
  else
    buf ← aset buf 0 48;
    buf ← aset buf 1 120;
    r ← find_range 0 16 (kfmt_hex64_body v size) buf;
    let buf := match r with inl buf => buf | inr buf => buf end in
    let e := if 18 <? size then 18 else size - 1 in
    aset buf e 0.

(** [for (int i = 0; i < pad; i++) sink_putc(s, c);] *)
Definition sink_pad (pad c : Z) (s : sink) : outcome sink :=
  for_range 0 pad (λ _ s, sink_putc s c) s.

Definition emit_number (s : sink) (value : Z) (negative : bool) (base : Z) (upper : bool)
    (width : Z) (zero_pad left_align plus space : bool) : outcome sink :=
  '(digits, dn) ← kfmt_u64 (replicate 32 0) 32 value base upper;
  let sign := if negative then 45 else if plus then 43 else if space then 32 else 0 in
  let total := dn + (if sign =? 0 then 0 else 1) in
  let pad := if total <? width then width - total else 0 in
  s ← (if negb left_align && negb zero_pad then sink_pad pad 32 s else Ret s);
  s ← (if sign =? 0 then Ret s else sink_putc s sign);
  s ← (if negb left_align && zero_pad then sink_pad pad 48 s else Ret s);
  s ← sink_puts s digits;
  if left_align then sink_pad pad 32 s else Ret s.

(** A parsed conversion: flags, width, length modifier, conversion character. *)
Record conv := mk_conv {
  cv_left : bool; cv_zero : bool; cv_plus : bool; cv_space : bool;
  cv_width : Z; cv_long : Z; cv_char : Z
}.

Fixpoint parse_flags (p : list Z) (lft zero plus space : bool)
    : outcome (bool * bool * bool * bool * list Z) :=
  match p with
  | [] => Fault
  | c :: p' =>
      if c =? 45 then parse_flags p' true zero plus space
      else if c =? 48 then parse_flags p' lft true plus space
      else if c =? 43 then parse_flags p' lft zero true space
      else if c =? 32 then parse_flags p' lft zero plus true
      else Ret (lft, zero, plus, space, p)
  end.

(** A width that does not fit an [int] is signed overflow, hence undefined. *)
Fixpoint parse_width (p : list Z) (width : Z) : outcome (Z * list Z) :=
  match p with
  | [] => Fault
  | c :: p' =>
      if (48 <=? c) && (c <=? 57) then
        let w := width * 10 + (c - 48) in
        if w <? 2 ^ 31 then parse_width p' w else Fault
      else Ret (width, p)
  end.

Fixpoint parse_long (p : list Z) (longness : Z) : outcome (Z * list Z) :=
  match p with
  | [] => Fault
  | c :: p' => if c =? 108 then parse_long p' (longness + 1) else Ret (longness, p)
  end.

(** From the character after ['%'] to the one after the conversion character. *)
Definition parse_conv (p : list Z) : outcome (conv * list Z) :=
  '(lft, zero, plus, space, p) ← parse_flags p false false false false;
  '(width, p) ← parse_width p 0;
  '(longness, p) ← parse_long p 0;
  match p with
  | [] => Fault
  | c :: p' =>
      if c =? 122 then
        match p' with
        | [] => Fault
        | c :: p' => Ret (mk_conv lft zero plus space width 3 c, p')
        end
      else Ret (mk_conv lft zero plus space width longness c, p')
  end.

(** One variadic argument: an integer or pointer in its 64-bit slot, or the bytes
    a [char *] points to ([None] for NULL). Taking an argument that is not there,
    or of the other kind, is undefined. *)
Inductive va_val :=
| VInt (raw : Z)
| VStr (s : option (list Z)).

Definition va_int (args : list va_val) : outcome (Z * list va_val) :=
  match args with VInt raw :: args => Ret (raw, args) | _ => Fault end.

Definition va_str (args : list va_val) : outcome (option (list Z) * list va_val) :=
  match args with VStr s :: args => Ret (s, args) | _ => Fault end.

(** The value of an unsigned argument read with the given length modifier. *)
Definition va_unsigned (longness raw : Z) : Z :=
  if 1 <=? longness then u64 raw else u32 raw.

(** The text ["(null)"] with its terminator. *)
Definition null_text : list Z := [40; 110; 117; 108; 108; 41; 0].

(** The [switch] of [kvsnprintf]. *)
Definition emit_conv (s : sink) (cv : conv) (args : list va_val) : outcome (sink * list va_val) :=
  let c := cv_char cv in
  if (c =? 100) || (c =? 105) then
    '(raw, args) ← va_int args;
    let v := if 1 <=? cv_long cv then i64 raw else i32 raw in
    let neg := v <? 0 in
    let mag := if neg then u64 (u64 (- (v + 1)) + 1) else u64 v in
    s ← emit_number s mag neg 10 false (cv_width cv) (cv_zero cv) (cv_left cv) (cv_plus cv) (cv_space cv);
    Ret (s, args)
  else if c =? 117 then
    '(raw, args) ← va_int args;
    s ← emit_number s (va_unsigned (cv_long cv) raw) false 10 false (cv_width cv) (cv_zero cv) (cv_left cv)
          false false;
    Ret (s, args)
  else if (c =? 120) || (c =? 88) then
    '(raw, args) ← va_int args;
    s ← emit_number s (va_unsigned (cv_long cv) raw) false 16 (c =? 88) (cv_width cv) (cv_zero cv)
          (cv_left cv) false false;
    Ret (s, args)
  else if c =? 112 then
    '(raw, args) ← va_int args;
    s ← sink_puts s [48; 120; 0];
    s ← emit_number s (u64 raw) false 16 false (cv_width cv) (cv_zero cv) (cv_left cv) false false;
    Ret (s, args)
  else if c =? 99 then
    '(raw, args) ← va_int args;
    let pad := if 1 <? cv_width cv then cv_width cv - 1 else 0 in
    s ← (if cv_left cv then Ret s else sink_pad pad 32 s);
    s ← sink_putc s (u8 raw);
    s ← (if cv_left cv then sink_pad pad 32 s else Ret s);
    Ret (s, args)
  else if c =? 115 then
    '(str, args) ← va_str args;
    let str := default null_text str in
    n ← strlen str;
    let slen := i32 n in
    let pad := if slen <? cv_width cv then cv_width cv - slen else 0 in
    s ← (if cv_left cv then Ret s else sink_pad pad 32 s);
    s ← sink_puts s str;
    s ← (if cv_left cv then sink_pad pad 32 s else Ret s);
    Ret (s, args)
  else if c =? 37 then s ← sink_putc s 37; Ret (s, args)
  else
    s ← sink_putc s 37;
    s ← sink_putc s c;
    Ret (s, args).

(** The main loop; every iteration consumes a character of the format, so its
    length is fuel enough. *)
Fixpoint fmt_loop (fuel : nat) (s : sink) (p : list Z) (args : list va_val) : outcome sink :=
  match p with
  | [] => Fault
  | c :: p1 =>
      if c =? 0 then Ret s
      else
        match fuel with
        | O => Loop
        | S fuel =>
            if negb (c =? 37) then s ← sink_putc s c; fmt_loop fuel s p1 args
            else
              match p1 with
              | [] => Fault
              | c1 :: _ =>
                  if c1 =? 0 then Ret s
                  else
                    '(cv, p2) ← parse_conv p1;
                    '(s, args) ← emit_conv s cv args;
                    fmt_loop fuel s p2 args
              end
        end
  end.

(** The buffer after the call and the value returned. *)
Definition kvsnprintf (buf : option (list Z)) (size : Z) (fmt : list Z) (args : list va_val)
    : outcome (option (list Z) * Z) :=
  s ← fmt_loop (length fmt) (mk_sink buf size 0) fmt args;
  if 0 <? sk_size s then
    let term := if sk_len s <? sk_size s then sk_len s else sk_size s - 1 in
    match sk_buf s with
    | Some b => b ← aset b term 0; Ret (Some b, i32 (sk_len s))
    | None => Fault
    end
  else Ret (sk_buf s, i32 (sk_len s)).

Definition ksnprintf (buf : option (list Z)) (size : Z) (fmt : list Z) (args : list va_val)
    : outcome (option (list Z) * Z) :=
  kvsnprintf buf size fmt args.

(** The text handed to [kernel_log] and the value returned. *)
Definition kdprintf (fmt : list Z) (args : list va_val) : outcome (option (list Z) * Z) :=
  kvsnprintf (Some (replicate 512 0)) 512 fmt args.

(** ** Specification *)

(** The digits of [v], most significant first, at most 32 of them. *)
Definition num_text (v base : Z) (upper : bool) : list Z := reverse (digit_loop 32 v base upper []).

(** The value of a digit character, and of a digit string in a base. *)
Definition char_digit (c : Z) : Z := if c <? 58 then c - 48 else if c <? 97 then c - 55 else c - 87.

Definition num_value (base : Z) (t : list Z) : Z := foldl (λ acc c, acc * base + char_digit c) 0 t.

Definition repeat_char (n c : Z) : list Z := replicate (Z.to_nat n) c.

Definition render_number (value : Z) (negative : bool) (base : Z) (upper : bool)
    (width : Z) (zero_pad left_align plus space : bool) : list Z :=
  let digits := num_text value base upper in
  let sign := if negative then [45] else if plus then [43] else if space then [32] else [] in
  let pad := width - zlen (sign ++ digits) in
  if left_align then sign ++ digits ++ repeat_char pad 32
  else if zero_pad then sign ++ repeat_char pad 48 ++ digits
  else repeat_char pad 32 ++ sign ++ digits.

(** [t] padded with blanks to the width. *)
Definition render_padded (t : list Z) (lft : bool) (width : Z) : list Z :=
  let pad := repeat_char (width - zlen t) 32 in
  if lft then t ++ pad else pad ++ t.

Fixpoint until_nul (s : list Z) : outcome (list Z) :=
  match s with
  | [] => Fault
  | c :: s => if c =? 0 then Ret [] else t ← until_nul s; Ret (c :: t)
  end.

Definition render_conv (cv : conv) (args : list va_val) : outcome (list Z * list va_val) :=
  let c := cv_char cv in
  let number v neg base upper plus space :=
    render_number v neg base upper (cv_width cv) (cv_zero cv) (cv_left cv) plus space in
  if (c =? 100) || (c =? 105) then
    '(raw, args) ← va_int args;
    let v := if 1 <=? cv_long cv then i64 raw else i32 raw in
    Ret (number (Z.abs v) (v <? 0) 10 false (cv_plus cv) (cv_space cv), args)
  else if c =? 117 then
    '(raw, args) ← va_int args;
    Ret (number (va_unsigned (cv_long cv) raw) false 10 false false false, args)
  else if (c =? 120) || (c =? 88) then
    '(raw, args) ← va_int args;
    Ret (number (va_unsigned (cv_long cv) raw) false 16 (c =? 88) false false, args)
  else if c =? 112 then
    '(raw, args) ← va_int args;
    Ret ([48; 120] ++ number (u64 raw) false 16 false false false, args)
  else if c =? 99 then
    '(raw, args) ← va_int args;
    Ret (render_padded [u8 raw] (cv_left cv) (cv_width cv), args)
  else if c =? 115 then
    '(str, args) ← va_str args;
    t ← until_nul (default null_text str);
    Ret (render_padded t (cv_left cv) (cv_width cv), args)
  else if c =? 37 then Ret ([37], args)
  else Ret ([37; c], args).

Fixpoint render_loop (fuel : nat) (p : list Z) (args : list va_val) : outcome (list Z) :=
  match p with
  | [] => Fault
  | c :: p1 =>
      if c =? 0 then Ret []
      else
        match fuel with
        | O => Loop
        | S fuel =>
            if negb (c =? 37) then t ← render_loop fuel p1 args; Ret (c :: t)
            else
              match p1 with
              | [] => Fault
              | c1 :: _ =>
                  if c1 =? 0 then Ret []
                  else
                    '(cv, p2) ← parse_conv p1;
                    '(t1, args) ← render_conv cv args;
                    t2 ← render_loop fuel p2 args;
                    Ret (t1 ++ t2)
              end
        end
  end.

(** The whole text a format and its arguments stand for. *)
Definition fmt_text (fmt : list Z) (args : list va_val) : outcome (list Z) :=
  render_loop (length fmt) fmt args.

(** A buffer of capacity [size] after the text [t] has been put into it. *)
Definition fill (b : list Z) (size : Z) (t : list Z) : list Z :=
  let t := take (Z.to_nat (size - 1)) t in t ++ drop (length t) b.

Definition sink_of (b : option (list Z)) (size : Z) (t : list Z) : sink :=
  mk_sink ((λ b, fill b size t) <$> b) size (zlen t).

Definition buf_ok (b : option (list Z)) (size : Z) : Prop :=
  0 ≤ size < 2 ^ 64 ∧ match b with Some b => size ≤ zlen b | None => True end.

(** ** Digits *)

Lemma digit_loop_acc k v base upper tmp :
  digit_loop k v base upper tmp = tmp ++ digit_loop k v base upper [].
Proof.
  revert v tmp. induction k as [|k IH]; intros v tmp; cbn [digit_loop]; [by rewrite app_nil_r|].
  destruct (v / base =? 0); [done|]. rewrite IH, (IH _ ([] ++ _)). by rewrite app_assoc.
Qed.

Lemma digit_char_ok upper d : 0 ≤ d < 16 → char_digit (digit_char upper d) = d ∧ 48 ≤ digit_char upper d ≤ 102.
Proof.
  intros Hd. unfold char_digit, digit_char. destruct (Z.ltb_spec d 10).
  - destruct (Z.ltb_spec (48 + d) 58); lia.
  - destruct upper.
    + destruct (Z.ltb_spec (55 + d) 58), (Z.ltb_spec (55 + d) 97); lia.
    + destruct (Z.ltb_spec (87 + d) 58), (Z.ltb_spec (87 + d) 97); lia.
Qed.

(** Little-endian value of a digit string. *)
Definition le_value (base : Z) (l : list Z) : Z := foldr (λ c acc, char_digit c + base * acc) 0 l.

Lemma num_value_reverse base l : num_value base (reverse l) = le_value base l.
Proof.
  unfold num_value. induction l as [|c l IH]; [done|]. rewrite reverse_cons, foldl_app. cbn [foldl].
  rewrite IH. unfold le_value. cbn [foldr]. lia.
Qed.

Lemma digit_loop_value k v base upper :
  2 ≤ base ≤ 16 → 0 ≤ v → le_value base (digit_loop k v base upper []) = v mod base ^ Z.of_nat k.
Proof.
  intros Hb. revert v. induction k as [|k IH]; intros v Hv; [cbn; by rewrite Z.mod_1_r|].
  cbn [digit_loop]. pose proof (Z.mod_pos_bound v base ltac:(lia)) as Hm.
  pose proof (Z.div_pos v base Hv ltac:(lia)) as Hd.
  rewrite Nat2Z.inj_succ, Z.pow_succ_r by lia.
  assert (0 < base ^ Z.of_nat k) as Hp by (apply Z.pow_pos_nonneg; lia).
  rewrite Z.rem_mul_r by lia.
  destruct (Z.eqb_spec (v / base) 0) as [Hz|Hz].
  - cbn [app le_value foldr]. rewrite (proj1 (digit_char_ok upper (v mod base) ltac:(lia))), Hz.
    by rewrite Z.mod_0_l by lia.
  - rewrite digit_loop_acc. cbn [app le_value foldr]. fold (le_value base).
    rewrite (proj1 (digit_char_ok upper (v mod base) ltac:(lia))).
    change (foldr _ 0 ?l) with (le_value base l). by rewrite IH.
Qed.

Lemma digit_loop_length k v base upper j :
  2 ≤ base → 0 ≤ v < base ^ Z.of_nat (S j) → (1 ≤ k)%nat →
  (1 ≤ length (digit_loop k v base upper []) ≤ S j)%nat.
Proof.
  intros Hb. revert v j. induction k as [|k IH]; intros v j Hv Hk; [lia|].
  cbn [digit_loop]. destruct (Z.eqb_spec (v / base) 0) as [Hz|Hz]; [cbn; lia|].
  rewrite digit_loop_acc, length_app. cbn [length app].
  destruct j as [|j].
  { change (Z.of_nat 1) with 1 in Hv. rewrite Z.pow_1_r in Hv. rewrite Z.div_small in Hz by lia. lia. }
  destruct k as [|k]; [cbn; lia|].
  assert (0 ≤ v / base < base ^ Z.of_nat (S j)) as Hq.
  { split; [apply Z.div_pos; lia|]. apply Z.div_lt_upper_bound; [lia|].
    rewrite (Nat2Z.inj_succ (S j)), Z.pow_succ_r in Hv by lia. lia. }
  specialize (IH (v / base) j Hq ltac:(lia)). lia.
Qed.

Lemma digit_loop_chars k v base upper :
  2 ≤ base ≤ 16 → 0 ≤ v → Forall (λ c, 48 ≤ c ≤ 102) (digit_loop k v base upper []).
Proof.
  intros Hb. revert v. induction k as [|k IH]; intros v Hv; cbn [digit_loop]; [constructor|].
  pose proof (Z.mod_pos_bound v base ltac:(lia)) as Hm.
  pose proof (proj2 (digit_char_ok upper (v mod base) ltac:(lia))) as Hc.
  destruct (v / base =? 0); [by apply Forall_singleton|]. rewrite digit_loop_acc. cbn [app].
  constructor; [done|].
  apply IH, Z.div_pos; lia.
Qed.

(** No leading zero: the last digit produced is not zero, unless it is alone. *)
Lemma digit_loop_last k v base upper :
  2 ≤ base ≤ 16 → 0 < v < base ^ Z.of_nat k →
  ∃ d, last (digit_loop k v base upper []) = Some (digit_char upper d) ∧ 0 < d < base.
Proof.
  intros Hb. revert v. induction k as [|k IH]; intros v Hv; [cbn in Hv; lia|].
  cbn [digit_loop]. rewrite Nat2Z.inj_succ, Z.pow_succ_r in Hv by lia.
  pose proof (Z.div_pos v base ltac:(lia) ltac:(lia)) as Hd.
  destruct (Z.eqb_spec (v / base) 0) as [Hz|Hz].
  - exists (v mod base). split; [done|]. pose proof (Z.mod_pos_bound v base). pose proof (Z.div_mod v base). lia.
  - destruct (IH (v / base)) as (d & E & Hd').
    { split; [lia|]. apply Z.div_lt_upper_bound; lia. }
    exists d. split; [|done]. rewrite digit_loop_acc. rewrite last_app, E. done.
Qed.

Lemma digit_out_spec p q size rtmp :
  let m := take (Z.to_nat (size - 1 - zlen p)) rtmp in
  size ≤ zlen p + zlen q →
  digit_out (p ++ q) size rtmp (zlen p) = Ret (p ++ m ++ drop (length m) q, zlen p + zlen m).
Proof.
  revert p q. induction rtmp as [|c rtmp IH]; intros p q m Hq; cbn [digit_out].
  - unfold m. rewrite take_nil. cbn [app length drop]. change (@zlen Z []) with 0. by rewrite Z.add_0_r.
  - destruct (Z.ltb_spec (zlen p + 1) size) as [Hlt|Hge].
    + pose proof (zlen_nonneg p). destruct q as [|x q]; [change (@zlen Z []) with 0 in Hq; lia|].
      rewrite aset_middle. cbn [mbind outcome_bind].
      assert (zlen (p ++ [c]) = zlen p + 1) as Ep by (zlen_simpl; unfold zlen; cbn; lia).
      rewrite <-Ep. replace (p ++ c :: q) with ((p ++ [c]) ++ q) by (by rewrite <-app_assoc).
      rewrite zlen_cons in Hq. rewrite IH by lia. rewrite Ep. unfold m.
      replace (Z.to_nat (size - 1 - zlen p)) with (S (Z.to_nat (size - 1 - (zlen p + 1)))) by lia.
      cbn [take length drop]. rewrite zlen_cons, <-app_assoc. cbn [app]. f_equal. f_equal. lia.
    + unfold m. replace (Z.to_nat (size - 1 - zlen p)) with O by lia. cbn [take app length drop].
      change (@zlen Z []) with 0. by rewrite Z.add_0_r.
Qed.

Lemma kfmt_u64_spec buf size v base upper :
  2 ≤ base ≤ 16 → 0 ≤ size ≤ zlen buf →
  let t := take (Z.to_nat (size - 1)) (num_text v base upper) in
  kfmt_u64 buf size v base upper =
  Ret (if size =? 0 then buf else t ++ 0 :: drop (S (length t)) buf, zlen t).
Proof.
  intros Hb Hs t. unfold kfmt_u64. destruct (Z.ltb_spec base 2); [lia|]. destruct (Z.ltb_spec 16 base); [lia|].
  cbn [orb]. fold (num_text v base upper).
  pose proof (digit_out_spec [] buf size (num_text v base upper)) as E. change (@zlen Z []) with 0 in E.
  rewrite Z.sub_0_r in E. cbn [app] in E. fold t in E. rewrite E by lia. cbn [mbind outcome_bind].
  rewrite Z.add_0_l. destruct (Z.eqb_spec size 0) as [->|Hnz].
  - destruct (Z.ltb_spec 0 0); [lia|]. cbn [mbind outcome_bind].
    replace t with (@nil Z) by done. done.
  - destruct (Z.ltb_spec 0 size); [|lia].
    assert (length t < length buf)%nat as Hl by (unfold t, zlen in *; rewrite length_take; lia).
    destruct (drop (length t) buf) as [|x r] eqn:Hd.
    { apply (f_equal length) in Hd. rewrite length_drop in Hd. cbn in Hd. lia. }
    rewrite aset_middle. cbn [mbind outcome_bind].
    assert (drop (S (length t)) buf = r) as ->; [|done].
    replace (S (length t)) with (length t + 1)%nat by lia. rewrite <-drop_drop, Hd. done.
Qed.

(** ** The sink *)

Lemma sink_putc_spec b size t c :
  buf_ok b size → zlen t + 1 < 2 ^ 64 →
  sink_putc (sink_of b size t) c = Ret (sink_of b size (t ++ [c])).
Proof.
  intros [Hs Hb] Ht. pose proof (zlen_nonneg t) as Ht0. unfold sink_putc, sink_of. cbn [sk_buf sk_size sk_len].
  rewrite u64_small by lia. assert (zlen (t ++ [c]) = zlen t + 1) as E1 by (zlen_simpl; unfold zlen; cbn; lia).
  rewrite E1. destruct b as [b|]; cbn [fmap option_fmap option_map]; [|done].
  destruct (Z.ltb_spec (zlen t + 1) size) as [Hlt|Hge].
  - unfold fill. rewrite !take_ge by (rewrite ?length_app; unfold zlen in *; cbn; lia).
    destruct (drop (length t) b) as [|x r] eqn:Hd.
    { apply (f_equal length) in Hd. rewrite length_drop in Hd. unfold zlen in *. cbn in Hd. lia. }
    rewrite aset_middle. cbn [mbind outcome_bind]. do 3 f_equal. rewrite length_app. cbn [length].
    rewrite <-drop_drop, Hd, <-app_assoc. done.
  - cbn [mbind outcome_bind]. do 3 f_equal. unfold fill.
    rewrite take_app_le by (unfold zlen in *; lia). done.
Qed.

(** [op] appends [t] to the text, whatever the buffer. *)
Definition emits (op : sink → outcome sink) (t : list Z) : Prop :=
  ∀ b size t0, buf_ok b size → zlen t0 + zlen t < 2 ^ 64 →
    op (sink_of b size t0) = Ret (sink_of b size (t0 ++ t)).

Lemma emits_putc c : emits (λ s, sink_putc s c) [c].
Proof. intros b size t0 Hb Hl. apply sink_putc_spec; [done|]. exact Hl. Qed.

Lemma emits_nil : emits Ret [].
Proof. intros b size t0 Hb Hl. by rewrite app_nil_r. Qed.

Lemma emits_bind op1 op2 t1 t2 :
  emits op1 t1 → emits op2 t2 → emits (λ s, op1 s ≫= op2) (t1 ++ t2).
Proof.
  intros H1 H2 b size t0 Hb Hl. rewrite zlen_app in Hl. pose proof (zlen_nonneg t2).
  rewrite H1 by (done || lia). cbn [mbind outcome_bind]. rewrite H2 by (done || rewrite zlen_app; lia).
  by rewrite app_assoc.
Qed.

Lemma emits_pad pad c : emits (sink_pad pad c) (repeat_char pad c).
Proof.
  unfold sink_pad, for_range, repeat_char. rewrite Z.sub_0_r. generalize (Z.to_nat pad) 0.
  induction n as [|n IH]; intros i; cbn [for_up replicate]; [apply emits_nil|].
  apply (emits_bind _ _ [c]); [apply emits_putc|apply IH].
Qed.

Lemma emits_puts t rest : 0 ∉ t → emits (λ s, sink_puts s (t ++ 0 :: rest)) t.
Proof.
  induction t as [|c t IH]; intros Ht; cbn [app sink_puts]; [apply emits_nil|].
  apply not_elem_of_cons in Ht as [Hc Ht]. destruct (Z.eqb_spec c 0); [congruence|].
  apply (emits_bind _ _ [c]); [apply emits_putc|by apply IH].
Qed.

Lemma emits_if (c : bool) op1 op2 t1 t2 :
  emits op1 t1 → emits op2 t2 → emits (λ s, if c then op1 s else op2 s) (if c then t1 else t2).
Proof. by destruct c. Qed.

Lemma emits_text op t t' : t = t' → emits op t → emits op t'.
Proof. by intros ->. Qed.

Lemma num_text_length v base upper :
  base = 10 ∨ base = 16 → is_u64 v → (1 ≤ length (num_text v base upper) ≤ 20)%nat.
Proof.
  intros Hb Hv. unfold num_text, is_u64 in *. rewrite length_reverse.
  apply (digit_loop_length 32 v base upper 19); [lia| |lia]. split; [lia|].
  destruct Hb as [-> | ->]; change (Z.of_nat 20) with 20; lia.
Qed.

Lemma num_text_no_nul v base upper : 2 ≤ base ≤ 16 → 0 ≤ v → 0 ∉ num_text v base upper.
Proof.
  intros Hb Hv Hin. unfold num_text in Hin. rewrite elem_of_reverse in Hin.
  pose proof (digit_loop_chars 32 v base upper Hb Hv) as H. rewrite Forall_forall in H.
  specialize (H _ Hin). lia.
Qed.

Lemma emit_number_emits value negative base upper width zero lft plus space :
  base = 10 ∨ base = 16 → is_u64 value → 0 ≤ width < 2 ^ 31 →
  emits (λ s, emit_number s value negative base upper width zero lft plus space)
        (render_number value negative base upper width zero lft plus space).
Proof.
  intros Hb Hv Hw. unfold emit_number.
  pose proof (kfmt_u64_spec (replicate 32 0) 32 value base upper) as E.
  pose proof (num_text_length value base upper Hb Hv) as Hlen.
  rewrite take_ge in E by (unfold is_u64 in *; lia).
  change (32 =? 0) with false in E. rewrite E by (rewrite ?zlen_replicate; lia).
  cbn [mbind outcome_bind]. set (d := num_text value base upper) in *.
  assert (0 ∉ d) as Hd by (apply num_text_no_nul; unfold is_u64 in *; lia).
  set (sg := if negative then [45] else if plus then [43] else if space then [32] else []).
  set (sign := if negative then 45 else _).
  assert (emits (λ s, if sign =? 0 then Ret s else sink_putc s sign) sg ∧
          zlen d + (if sign =? 0 then 0 else 1) = zlen (sg ++ d)) as [Hsg Hz].
  { unfold sign, sg. rewrite zlen_app.
    destruct negative, plus, space; cbn [Z.eqb Pos.eqb]; (split; [apply emits_putc || apply emits_nil|]);
      unfold zlen; cbn; lia. }
  rewrite Hz. set (pad := if zlen (sg ++ d) <? width then _ else 0).
  assert (∀ c, repeat_char pad c = repeat_char (width - zlen (sg ++ d)) c) as Hpad.
  { intros c. unfold pad, repeat_char. destruct (Z.ltb_spec (zlen (sg ++ d)) width); [done|].
    by replace (Z.to_nat (width - zlen (sg ++ d))) with O by lia. }
  unfold render_number. fold d sg. rewrite <-!Hpad.
  destruct lft, zero; cbn [negb andb].
  - apply (emits_bind Ret _ []); [apply emits_nil|]. apply emits_bind; [done|].
    apply (emits_bind Ret _ []); [apply emits_nil|]. apply emits_bind; [by apply emits_puts|apply emits_pad].
  - apply (emits_bind Ret _ []); [apply emits_nil|]. apply emits_bind; [done|].
    apply (emits_bind Ret _ []); [apply emits_nil|]. apply emits_bind; [by apply emits_puts|apply emits_pad].
  - apply (emits_bind Ret _ []); [apply emits_nil|]. apply emits_bind; [done|].
    apply emits_bind; [apply emits_pad|]. apply (emits_text _ (d ++ [])); [apply app_nil_r|].
    apply emits_bind; [by apply emits_puts|apply emits_nil].
  - apply emits_bind; [apply emits_pad|]. apply emits_bind; [done|].
    apply (emits_bind Ret _ []); [apply emits_nil|]. apply (emits_text _ (d ++ [])); [apply app_nil_r|].
    apply emits_bind; [by apply emits_puts|apply emits_nil].
Qed.

Lemma until_nul_split s t : until_nul s = Ret t → 0 ∉ t ∧ ∃ rest, s = t ++ 0 :: rest.
Proof.
  revert t. induction s as [|c s IH]; intros t H; cbn in H; [discriminate|].
  destruct (Z.eqb_spec c 0) as [->|Hc].
  - injection H as <-. split; [set_solver|]. by exists s.
  - apply bind_Ret_inv in H as (t' & Ht & [= <-]). destruct (IH t' Ht) as [H0 [rest ->]].
    split; [|by exists rest]. apply not_elem_of_cons. split; [congruence|done].
Qed.

Lemma emits_padded op t (lft : bool) width pad :
  emits op t → pad = (if zlen t <? width then width - zlen t else 0) →
  emits (λ s : sink, s ← (if lft then Ret s else sink_pad pad 32 s);
              s ← op s; if lft then sink_pad pad 32 s else Ret s) (render_padded t lft width).
Proof.
  intros Ho Hp.
  assert (repeat_char pad 32 = repeat_char (width - zlen t) 32) as Hpad.
  { unfold repeat_char. rewrite Hp. destruct (Z.ltb_spec (zlen t) width); [done|].
    by replace (Z.to_nat (width - zlen t)) with O by lia. }
  unfold render_padded. rewrite <-Hpad. destruct lft.
  - apply (emits_bind Ret _ []); [apply emits_nil|]. apply emits_bind; [done|apply emits_pad].
  - apply emits_bind; [apply emits_pad|]. apply (emits_text _ (t ++ [])); [apply app_nil_r|].
    by apply emits_bind; [|apply emits_nil].
Qed.

(** The magnitude computed for a negative argument. *)
Lemma signed_magnitude v :
  - 2 ^ 63 ≤ v < 2 ^ 63 → (if v <? 0 then u64 (u64 (- (v + 1)) + 1) else u64 v) = Z.abs v.
Proof.
  intros Hv. destruct (Z.ltb_spec v 0).
  - rewrite (u64_small (- (v + 1))) by lia. rewrite u64_small by lia. lia.
  - rewrite u64_small by lia. lia.
Qed.

Lemma signed_range longness raw :
  let v := if 1 <=? longness then i64 raw else i32 raw in - 2 ^ 63 ≤ v < 2 ^ 63.
Proof.
  cbv zeta. unfold i64, i32. destruct (1 <=? longness).
  - pose proof (Z.mod_pos_bound (raw + 2 ^ 63) (2 ^ 64)). lia.
  - pose proof (Z.mod_pos_bound (raw + 2 ^ 31) (2 ^ 32)). lia.
Qed.

Lemma va_unsigned_range longness raw : is_u64 (va_unsigned longness raw).
Proof.
  unfold va_unsigned. destruct (1 <=? longness); [apply u64_range|].
  pose proof (u32_range raw). unfold is_u32, is_u64 in *. lia.
Qed.

Lemma zlen_padded t lft width : zlen t ≤ zlen (render_padded t lft width).
Proof.
  unfold render_padded. destruct lft; rewrite zlen_app; pose proof (zlen_nonneg (repeat_char (width - zlen t) 32)); lia.
Qed.

(** Running an operation that emits, then returning the remaining arguments. *)
Lemma emits_run {A} op t b size t0 (a : A) :
  emits op t → buf_ok b size → zlen t0 + zlen t < 2 ^ 31 →
  (s ← op (sink_of b size t0); Ret (s, a)) = Ret (sink_of b size (t0 ++ t), a).
Proof. intros H Hb Hl. rewrite H by (done || lia). done. Qed.

Lemma emit_conv_spec cv args t args' b size t0 :
  0 ≤ cv_width cv < 2 ^ 31 → render_conv cv args = Ret (t, args') →
  buf_ok b size → zlen t0 + zlen t < 2 ^ 31 →
  emit_conv (sink_of b size t0) cv args = Ret (sink_of b size (t0 ++ t), args').
Proof.
  intros Hw Hr Hb Hl. unfold render_conv in Hr. unfold emit_conv. cbv zeta in *.
  destruct ((cv_char cv =? 100) || (cv_char cv =? 105)).
  { apply bind_Ret_inv in Hr as ([raw a] & -> & [= <- <-]). cbn [mbind outcome_bind].
    pose proof (signed_range (cv_long cv) raw) as Hv. cbv zeta in Hv.
    rewrite signed_magnitude by done. apply (emits_run (λ s, emit_number s _ _ _ _ _ _ _ _ _)); [|done|done].
    apply emit_number_emits; [by left|unfold is_u64; lia|done]. }
  destruct (cv_char cv =? 117).
  { apply bind_Ret_inv in Hr as ([raw a] & -> & [= <- <-]). cbn [mbind outcome_bind].
    apply (emits_run (λ s, emit_number s _ _ _ _ _ _ _ _ _)); [|done|done].
    apply emit_number_emits; [by left|apply va_unsigned_range|done]. }
  destruct ((cv_char cv =? 120) || (cv_char cv =? 88)).
  { apply bind_Ret_inv in Hr as ([raw a] & -> & [= <- <-]). cbn [mbind outcome_bind].
    apply (emits_run (λ s, emit_number s _ _ _ _ _ _ _ _ _)); [|done|done].
    apply emit_number_emits; [by right|apply va_unsigned_range|done]. }
  destruct (cv_char cv =? 112).
  { apply bind_Ret_inv in Hr as ([raw a] & -> & Hr). injection Hr as <- <-. cbn [mbind outcome_bind].
    pose proof (emits_run (λ s : sink, s ← sink_puts s [48; 120; 0];
      emit_number s (u64 raw) false 16 false (cv_width cv) (cv_zero cv) (cv_left cv) false false)
      _ b size t0 a (emits_bind _ _ [48; 120] _ (emits_puts [48; 120] [] ltac:(set_solver))
        (emit_number_emits (u64 raw) false 16 false (cv_width cv) (cv_zero cv) (cv_left cv) false false
          (or_intror eq_refl) (u64_range raw) Hw)) Hb Hl) as E.
    cbn [app] in E. rewrite <-E. destruct (sink_puts _ _); done. }
  destruct (cv_char cv =? 99).
  { apply bind_Ret_inv in Hr as ([raw a] & -> & [= <- <-]). cbn [mbind outcome_bind].
    pose proof (emits_run _ _ b size t0 a (emits_padded _ _ (cv_left cv) (cv_width cv) _
      (emits_putc (u8 raw)) eq_refl) Hb Hl) as E. change (zlen [u8 raw]) with 1 in E.
    rewrite <-E. destruct (if cv_left cv then _ else _) as [s1| | |]; cbn [mbind outcome_bind]; [|done..].
    destruct (sink_putc s1 _); done. }
  destruct (cv_char cv =? 115).
  { apply bind_Ret_inv in Hr as ([str a] & -> & Hr). cbn [mbind outcome_bind].
    apply bind_Ret_inv in Hr as (u & Hu & [= <- <-]).
    destruct (until_nul_split _ _ Hu) as [Hu0 [rest Es]].
    pose proof (zlen_padded u (cv_left cv) (cv_width cv)) as Hpl. pose proof (zlen_nonneg t0).
    pose proof (zlen_nonneg u).
    unfold strlen. rewrite (kstrlen_spec (default null_text str) u) by (try (split; [done|by exists rest]); lia).
    cbn [mbind outcome_bind]. assert (i32 (zlen u) = zlen u) as ->.
    { unfold i32. rewrite Z.mod_small; lia. }
    pose proof (emits_run _ _ b size t0 a (emits_padded _ _ (cv_left cv) (cv_width cv) _
      (emits_puts u rest Hu0) eq_refl) Hb Hl) as E. rewrite <-Es in E.
    rewrite <-E. destruct (if cv_left cv then _ else _) as [s1| | |]; cbn [mbind outcome_bind]; [|done..].
    destruct (sink_puts s1 _); done. }
  destruct (cv_char cv =? 37).
  { injection Hr as <- <-. by apply (emits_run (λ s, sink_putc s _)); [apply emits_putc|..]. }
  injection Hr as <- <-.
  pose proof (emits_run _ _ b size t0 args (emits_bind _ _ _ _ (emits_putc 37) (emits_putc (cv_char cv))) Hb Hl) as E.
  cbn [app] in E. rewrite <-E. destruct (sink_putc _ 37); done.
Qed.

Lemma parse_width_range p w w' p' :
  0 ≤ w < 2 ^ 31 → parse_width p w = Ret (w', p') → 0 ≤ w' < 2 ^ 31.
Proof.
  revert w. induction p as [|c p IH]; intros w Hw H; cbn [parse_width] in H; [discriminate|].
  destruct (Z.leb_spec 48 c); cbn [andb] in H; [|by injection H as <- _].
  destruct (Z.leb_spec c 57); [|by injection H as <- _].
  destruct (Z.ltb_spec (w * 10 + (c - 48)) (2 ^ 31)); [|discriminate].
  apply (IH (w * 10 + (c - 48))); [lia|done].
Qed.

Lemma parse_conv_width p cv p' : parse_conv p = Ret (cv, p') → 0 ≤ cv_width cv < 2 ^ 31.
Proof.
  unfold parse_conv. intros H.
  apply bind_Ret_inv in H as ([[[[l z] pl] sp] p1] & _ & H).
  apply bind_Ret_inv in H as ([w p2] & Hw & H). apply (parse_width_range p1 0) in Hw; [|lia].
  apply bind_Ret_inv in H as ([lg p3] & _ & H). destruct p3 as [|c p3]; [discriminate|].
  destruct (c =? 122).
  - destruct p3; [discriminate|]. by injection H as <- _.
  - by injection H as <- _.
Qed.

Lemma fmt_loop_spec fuel p args t b size t0 :
  render_loop fuel p args = Ret t → buf_ok b size → zlen t0 + zlen t < 2 ^ 31 →
  fmt_loop fuel (sink_of b size t0) p args = Ret (sink_of b size (t0 ++ t)).
Proof.
  revert p args t t0. induction fuel as [|fuel IH]; intros p args t t0 Hr Hb Hl;
    (destruct p as [|c p]; [discriminate|]); cbn [render_loop fmt_loop] in *;
    (destruct (c =? 0); [injection Hr as <-; by rewrite app_nil_r|]); [discriminate|].
  pose proof (zlen_nonneg t0) as Ht0.
  destruct (negb (c =? 37)).
  - apply bind_Ret_inv in Hr as (t1 & Ht1 & [= <-]). rewrite zlen_cons in Hl.
    pose proof (zlen_nonneg t1). rewrite sink_putc_spec by (done || lia). cbn [mbind outcome_bind].
    rewrite (IH _ _ t1) by (done || zlen_simpl; change (@zlen Z []) with 0; lia). by rewrite <-app_assoc.
  - destruct p as [|c1 p]; [discriminate|].
    destruct (c1 =? 0); [injection Hr as <-; by rewrite app_nil_r|].
    apply bind_Ret_inv in Hr as ([cv p2] & Hc & Hr). rewrite Hc. cbn [mbind outcome_bind].
    apply bind_Ret_inv in Hr as ([t1 args'] & Hrc & Hr).
    apply bind_Ret_inv in Hr as (t2 & Ht2 & [= <-]). rewrite zlen_app in Hl.
    pose proof (zlen_nonneg t1). pose proof (zlen_nonneg t2).
    rewrite (emit_conv_spec cv args t1 args') by (done || lia || by eapply parse_conv_width).
    cbn [mbind outcome_bind]. rewrite (IH _ _ t2) by (done || rewrite zlen_app; lia).
    by rewrite <-app_assoc.
Qed.

Lemma fill_nil b size : fill b size [] = b.
Proof. unfold fill. by rewrite take_nil. Qed.

(** A format that ends inside a conversion makes the loop step over its
    terminator and read past the end of the string: ["%5"]. *)
Lemma trailing_conversion_overread :
  kvsnprintf (Some (replicate 16 0)) 16 [37; 53; 0] [] = Fault.
Proof. reflexivity. Qed.

Lemma kvsnprintf_spec b size fmt args t :
  fmt_text fmt args = Ret t → zlen t < 2 ^ 31 → buf_ok (Some b) size →
  let u := take (Z.to_nat (size - 1)) t in
  kvsnprintf (Some b) size fmt args =
  Ret (Some (if size =? 0 then b else u ++ 0 :: drop (S (length u)) b), zlen t).
Proof.
  intros Ht Hl Hb u. pose proof (zlen_nonneg t) as Ht0. unfold kvsnprintf.
  pose proof (fmt_loop_spec (length fmt) fmt args t (Some b) size [] Ht Hb) as E.
  cbn [app] in E. unfold sink_of at 1 in E. cbn [fmap option_fmap option_map] in E. rewrite fill_nil in E.
  change (zlen (@nil Z)) with 0 in E. rewrite E by lia. cbn [mbind outcome_bind sink_of sk_size sk_len sk_buf].
  assert (i32 (zlen t) = zlen t) as -> by (unfold i32; rewrite Z.mod_small; lia).
  destruct Hb as [Hs Hb]. cbn [fmap option_fmap option_map]. unfold fill. fold u.
  destruct (Z.eqb_spec size 0) as [->|Hnz]; [done|]. destruct (Z.ltb_spec 0 size); [|lia].
  assert ((if zlen t <? size then zlen t else size - 1) = zlen u) as ->.
  { unfold u, zlen. rewrite length_take. unfold zlen in *.
    destruct (Z.ltb_spec (Z.of_nat (length t)) size); lia. }
  assert (length u < length b)%nat as Hlu by (unfold u, zlen in *; rewrite length_take; lia).
  destruct (drop (length u) b) as [|x r] eqn:Hd.
  { apply (f_equal length) in Hd. rewrite length_drop in Hd. cbn in Hd. lia. }
  rewrite aset_middle. cbn [mbind outcome_bind].
  assert (drop (S (length u)) b = r) as ->; [|done].
  replace (S (length u)) with (length u + 1)%nat by lia. rewrite <-drop_drop, Hd. done.
Qed.

(** ** Theorems *)

(** [kvsnprintf] writes the text its format and arguments stand for, cut to
    the buffer: the first [size - 1] characters, always a terminating NUL when
    [size] is positive, nothing else of the buffer, and it returns the length of
    the uncut text. *)
Theorem kvsnprintf_truncates b size fmt args t :
  fmt_text fmt args = Ret t → zlen t < 2 ^ 31 → buf_ok (Some b) size →
  let u := take (Z.to_nat (size - 1)) t in
  kvsnprintf (Some b) size fmt args =
  Ret (Some (if size =? 0 then b else u ++ 0 :: drop (S (length u)) b), zlen t).
Proof. apply kvsnprintf_spec. Qed.

(** The format ["%05d|%-4s|%x"] with -42, "ab" and 255, cut to 8 bytes. *)
Lemma kvsnprintf_truncates_witness :
  kvsnprintf (Some (replicate 10 9)) 8
    [37; 48; 53; 100; 124; 37; 45; 52; 115; 124; 37; 120; 0]
    [VInt (-42); VStr (Some [97; 98; 0]); VInt 255] =
  Ret (Some [45; 48; 48; 52; 50; 124; 97; 0; 9; 9], 13).
Proof.
  apply (kvsnprintf_truncates (replicate 10 9) 8
    [37; 48; 53; 100; 124; 37; 45; 52; 115; 124; 37; 120; 0]
    [VInt (-42); VStr (Some [97; 98; 0]); VInt 255]
    [45; 48; 48; 52; 50; 124; 97; 98; 32; 32; 124; 102; 102]).
  - vm_compute. reflexivity.
  - vm_compute. reflexivity.
  - split; [lia|]. vm_compute. congruence.
Defined.

(** [kfmt_u64] stores the digits of [v] in the base, cut to the buffer and
    terminated, and returns their number; the digits stand for [v mod base^32]
    (the local buffer holds 32 of them, which in base 2 is less than the 64 the
    argument may need), and for [v] itself without a leading zero when
    [v < base^32]. *)
Theorem kfmt_u64_digits buf size v base upper :
  2 ≤ base ≤ 16 → 0 ≤ v → 0 ≤ size ≤ zlen buf →
  let text := num_text v base upper in
  let t := take (Z.to_nat (size - 1)) text in
  kfmt_u64 buf size v base upper =
    Ret (if size =? 0 then buf else t ++ 0 :: drop (S (length t)) buf, zlen t) ∧
  num_value base text = v mod base ^ 32 ∧
  (0 < v < base ^ 32 → ∃ d rest, text = digit_char upper d :: rest ∧ 0 < d < base).
Proof.
  intros Hb Hv Hs text t. split; [by apply kfmt_u64_spec|]. split.
  - unfold text, num_text. rewrite num_value_reverse. by apply (digit_loop_value 32).
  - intros Hv'. destruct (digit_loop_last 32 v base upper Hb) as (d & E & Hd); [exact Hv'|].
    exists d. unfold text, num_text. destruct (last_Some (digit_loop 32 v base upper []) (digit_char upper d)) as [H _].
    destruct (H E) as [l' ->]. rewrite reverse_app. by eexists.
Qed.

Lemma kfmt_u64_digits_witness :
  kfmt_u64 (replicate 8 7) 8 1234 10 false = Ret ([49; 50; 51; 52; 0; 7; 7; 7], 4) ∧
  num_value 2 (num_text (2 ^ 32 + 5) 2 false) = 5.
Proof.
  destruct (kfmt_u64_digits (replicate 8 7) 8 1234 10 false) as [H _];
    [lia|lia|split; vm_compute; congruence|].
  destruct (kfmt_u64_digits [] 0 (2 ^ 32 + 5) 2 false) as (_ & H2 & _);
    [lia|lia|split; vm_compute; congruence|].
  split; [exact H|exact H2].
Defined.
