(* ===== verification/Strbuf.v ===== *)
(** The bounded string builder, [kernel/lib/strbuf.c], on top of the formatter:
    what a sequence of appends leaves in the buffer. *)

From S2P Require Import Prelude CString Fmt.

(** ** Definitions *)

Record strbuf := mk_strbuf { sb_buf : list Z; sb_cap : Z; sb_len : Z; sb_truncated : Z }.

Definition strbuf_init (buf : list Z) (cap : Z) : outcome strbuf :=
  buf ← (if 0 <? cap then aset buf 0 0 else Ret buf);
  Ret (mk_strbuf buf cap 0 0).

Definition strbuf_reset (sb : strbuf) : outcome strbuf :=
  buf ← (if 0 <? sb_cap sb then aset (sb_buf sb) 0 0 else Ret (sb_buf sb));
  Ret (mk_strbuf buf (sb_cap sb) 0 0).

Definition strbuf_putc (sb : strbuf) (c : Z) : outcome strbuf :=
  if u64 (sb_len sb + 1) <? sb_cap sb then
    buf ← aset (sb_buf sb) (sb_len sb) c;
    let len := u64 (sb_len sb + 1) in
    buf ← aset buf len 0;
    Ret (mk_strbuf buf (sb_cap sb) len (sb_truncated sb))
  else Ret (mk_strbuf (sb_buf sb) (sb_cap sb) (sb_len sb) 1).

(** One iteration of the copying loop of [strbuf_putn]; [inr] is the early
    return. *)
Definition putn_body (s : list Z) (i : Z) (sb : strbuf) : outcome (strbuf + strbuf) :=
  if sb_cap sb <=? u64 (sb_len sb + 1) then
    Ret (inr (mk_strbuf (sb_buf sb) (sb_cap sb) (sb_len sb) 1))
  else
    c ← aget s i;
    buf ← aset (sb_buf sb) (sb_len sb) c;
    Ret (inl (mk_strbuf buf (sb_cap sb) (u64 (sb_len sb + 1)) (sb_truncated sb))).

Definition strbuf_putn (sb : strbuf) (s : list Z) (n : Z) : outcome strbuf :=
  r ← find_range 0 n (putn_body s) sb;
  match r with
  | inr sb => Ret sb
  | inl sb =>
      buf ← (if 0 <? sb_cap sb then aset (sb_buf sb) (sb_len sb) 0 else Ret (sb_buf sb));
      Ret (mk_strbuf buf (sb_cap sb) (sb_len sb) (sb_truncated sb))
  end.

Definition strbuf_puts (sb : strbuf) (s : list Z) : outcome strbuf :=
  n ← strlen s; strbuf_putn sb s n.

Definition strbuf_put_u64 (sb : strbuf) (v : Z) : outcome strbuf :=
  '(tmp, _) ← kfmt_u64 (replicate 24 0) 24 v 10 false;
  strbuf_puts sb tmp.

Definition strbuf_put_i64 (sb : strbuf) (v : Z) : outcome strbuf :=
  if v <? 0 then
    sb ← strbuf_putc sb 45;
    strbuf_put_u64 sb (u64 (u64 (- (v + 1)) + 1))
  else strbuf_put_u64 sb (u64 v).

Definition strbuf_put_hex (sb : strbuf) (v : Z) : outcome strbuf :=
  sb ← strbuf_puts sb [48; 120; 0];
  '(tmp, _) ← kfmt_u64 (replicate 20 0) 20 v 16 false;
  strbuf_puts sb tmp.

Definition strbuf_printf (sb : strbuf) (fmt : list Z) (args : list va_val) : outcome strbuf :=
  '(tmp, n) ← kvsnprintf (Some (replicate 256 0)) 256 fmt args;
  let sb := if 256 <=? n then mk_strbuf (sb_buf sb) (sb_cap sb) (sb_len sb) 1 else sb in
  match tmp with Some tmp => strbuf_puts sb tmp | None => Fault end.

Definition strbuf_len (sb : strbuf) : Z := sb_len sb.
Definition strbuf_str (sb : strbuf) : list Z := sb_buf sb.

(** ** Specification *)

(** The builder of capacity [cap] after the text [t] has been appended to it:
    the first [cap - 1] characters are in the buffer, followed by a NUL if the
    text fits. [cut] tells whether something has been dropped. *)
Record sb_holds (cap n : Z) (t : list Z) (cut : bool) (sb : strbuf) : Prop := {
  h_cap : sb_cap sb = cap;
  h_size : zlen (sb_buf sb) = n;
  h_len : sb_len sb = zlen (take (Z.to_nat (cap - 1)) t);
  h_text : take (Z.to_nat (sb_len sb)) (sb_buf sb) = take (Z.to_nat (cap - 1)) t;
  h_cut : sb_truncated sb = b2z cut;
  h_full : cap ≤ zlen t → cut = true;
  h_nul : zlen t < cap → sb_buf sb !! Z.to_nat (sb_len sb) = Some 0
}.

(** ** Lemmas *)

Section Append.
Context (cap n : Z) (Hcap : 0 < cap) (Hn : cap ≤ n) (Hmax : n < 2 ^ 64).

Lemma sb_holds_len t cut sb : sb_holds cap n t cut sb → sb_len sb = Z.min (zlen t) (cap - 1).
Proof.
  intros H. rewrite (h_len _ _ _ _ _ H). unfold zlen. rewrite length_take. lia.
Qed.

Lemma take_S_insert {A} (l : list A) k x :
  (k < length l)%nat → take (S k) (<[k := x]> l) = take k l ++ [x].
Proof.
  intros H. rewrite (take_S_r _ _ x) by (by apply list_lookup_insert_eq). by rewrite take_insert_ge.
Qed.

Lemma strbuf_putc_holds t cut sb c :
  sb_holds cap n t cut sb →
  ∃ sb', strbuf_putc sb c = Ret sb' ∧ sb_holds cap n (t ++ [c]) (cut || (cap <=? zlen t + 1)) sb'.
Proof.
  intros H. pose proof (sb_holds_len _ _ _ H) as Hlen. pose proof (zlen_nonneg t) as Ht.
  pose proof H as [E1 E2 E3 E4 E5 E6 E7]. unfold strbuf_putc. rewrite E1.
  rewrite (u64_small (sb_len sb + 1)) by lia.
  assert (zlen (t ++ [c]) = zlen t + 1) as Ez by (zlen_simpl; unfold zlen; cbn; lia).
  destruct (Z.ltb_spec (sb_len sb + 1) cap) as [Hlt|Hge].
  - rewrite aset_in by lia. cbn [mbind outcome_bind]. rewrite aset_in by (rewrite zlen_insert; lia).
    cbn [mbind outcome_bind]. eexists. split; [done|].
    assert (sb_len sb = zlen t) as El by lia.
    rewrite (take_ge t) in E4 by (unfold zlen in *; lia).
    constructor; cbn [sb_buf sb_cap sb_len sb_truncated].
    + done.
    + by rewrite !zlen_insert.
    + rewrite take_ge by (rewrite length_app; unfold zlen in *; cbn; lia). lia.
    + rewrite (take_ge (t ++ [c])) by (rewrite length_app; unfold zlen in *; cbn; lia).
      rewrite take_insert_ge by lia. replace (Z.to_nat (sb_len sb + 1)) with (S (Z.to_nat (sb_len sb))) by lia.
      rewrite take_S_insert by (unfold zlen in *; lia). by rewrite E4.
    + destruct (Z.leb_spec cap (zlen t + 1)); [lia|]. by rewrite orb_false_r.
    + lia.
    + intros _. rewrite list_lookup_insert_eq; [done|]. rewrite length_insert. unfold zlen in *. lia.
  - eexists. split; [done|].
    assert (take (Z.to_nat (cap - 1)) (t ++ [c]) = take (Z.to_nat (cap - 1)) t) as Et
      by (apply take_app_le; unfold zlen in *; lia).
    constructor; cbn [sb_buf sb_cap sb_len sb_truncated]; rewrite ?Et; try done.
    + destruct (Z.leb_spec cap (zlen t + 1)); [|lia]. by rewrite orb_true_r.
    + intros _. destruct (Z.leb_spec cap (zlen t + 1)); [|lia]. by rewrite orb_true_r.
    + lia.
Qed.

(** The state inside the copying loop: as [sb_holds], without the terminator. *)
Record sb_copying (t : list Z) (cut : bool) (sb : strbuf) : Prop := {
  c_cap : sb_cap sb = cap;
  c_size : zlen (sb_buf sb) = n;
  c_len : sb_len sb = zlen t;
  c_fit : zlen t < cap;
  c_text : take (Z.to_nat (sb_len sb)) (sb_buf sb) = t;
  c_cut : sb_truncated sb = b2z cut
}.

Lemma putn_body_step t cut sb s i c :
  sb_copying t cut sb → aget s i = Ret c →
  if cap <=? zlen t + 1 then
    putn_body s i sb = Ret (inr (mk_strbuf (sb_buf sb) cap (sb_len sb) 1))
  else ∃ sb', putn_body s i sb = Ret (inl sb') ∧ sb_copying (t ++ [c]) cut sb'.
Proof.
  intros [E1 E2 E3 E4 E5 E6] Hc. pose proof (zlen_nonneg t). unfold putn_body. rewrite E1.
  rewrite (u64_small (sb_len sb + 1)), E3 by lia.
  assert (zlen (t ++ [c]) = zlen t + 1) as Ez by (zlen_simpl; unfold zlen; cbn; lia).
  destruct (Z.leb_spec cap (zlen t + 1)); [done|]. rewrite Hc. cbn [mbind outcome_bind].
  rewrite aset_in by lia. cbn [mbind outcome_bind]. eexists. split; [done|].
  constructor; cbn [sb_buf sb_cap sb_len sb_truncated]; try done.
  - by rewrite zlen_insert.
  - lia.
  - replace (Z.to_nat (zlen t + 1)) with (S (Z.to_nat (zlen t))) by lia.
    rewrite take_S_insert by (unfold zlen in *; lia). rewrite <-E3. by rewrite E5.
Qed.

Lemma putn_loop k i t cut sb s :
  sb_copying t cut sb → 0 ≤ i → i + Z.of_nat k ≤ zlen s →
  let u := zslice s i (Z.of_nat k) in
  (zlen t + zlen u < cap ∧
   ∃ sb', find_up k i (putn_body s) sb = Ret (inl sb') ∧ sb_copying (t ++ u) cut sb') ∨
  (cap ≤ zlen t + zlen u ∧
   ∃ sb', find_up k i (putn_body s) sb = Ret (inr sb') ∧ sb_cap sb' = cap ∧ zlen (sb_buf sb') = n ∧
     sb_len sb' = cap - 1 ∧ take (Z.to_nat (cap - 1)) (sb_buf sb') = take (Z.to_nat (cap - 1)) (t ++ u) ∧
     sb_truncated sb' = 1).
Proof.
  revert i t sb. induction k as [|k IH]; intros i t sb H Hi Hk u.
  - left. assert (u = []) as -> by done. change (zlen (@nil Z)) with 0. rewrite app_nil_r.
    split; [pose proof (c_fit _ _ _ H); lia|]. exists sb. done.
  - destruct (aget_in s i) as (c & Hc & Ec); [lia|].
    assert (u = c :: zslice s (i + 1) (Z.of_nat k)) as Eu.
    { unfold u, zslice. rewrite (drop_S _ c) by done. rewrite !Nat2Z.id. cbn [take].
      by replace (Z.to_nat (i + 1)) with (S (Z.to_nat i)) by lia. }
    assert (t ++ u = (t ++ [c]) ++ zslice s (i + 1) (Z.of_nat k)) as Ea by (by rewrite Eu, <-app_assoc).
    assert (zlen t + zlen u = zlen (t ++ [c]) + zlen (zslice s (i + 1) (Z.of_nat k))) as Ezl
      by (rewrite <-!zlen_app; by rewrite Ea).
    pose proof (putn_body_step t cut sb s i c H Ec) as Hstep. cbn [find_up].
    destruct (Z.leb_spec cap (zlen t + 1)) as [Hfull|Hroom].
    + right. rewrite Hstep. cbn [mbind outcome_bind]. pose proof (c_fit _ _ _ H).
      split; [rewrite Eu, zlen_cons; pose proof (zlen_nonneg (zslice s (i + 1) (Z.of_nat k))); lia|].
      eexists. split; [done|]. cbn [sb_buf sb_cap sb_len sb_truncated]. pose proof (c_len _ _ _ H).
      split; [done|]. split; [apply (c_size _ _ _ H)|]. split; [lia|]. split; [|done].
      replace (cap - 1) with (sb_len sb) by lia. rewrite (c_text _ _ _ H). symmetry.
      rewrite take_app_le by (unfold zlen in *; lia). apply take_ge. unfold zlen in *; lia.
    + destruct Hstep as (sb' & -> & H'). cbn [mbind outcome_bind]. rewrite Ea, Ezl.
      apply IH; [done|lia|lia].
Qed.

Lemma strbuf_putn_holds t cut sb s k :
  sb_holds cap n t cut sb → 0 ≤ k ≤ zlen s →
  let t' := t ++ zslice s 0 k in
  ∃ sb', strbuf_putn sb s k = Ret sb' ∧ sb_holds cap n t' (cut || (cap <=? zlen t')) sb'.
Proof.
  intros H Hk t'. pose proof (sb_holds_len _ _ _ H) as Hlen. pose proof (zlen_nonneg t) as Ht.
  pose proof H as [E1 E2 E3 E4 E5 E6 E7]. unfold strbuf_putn, find_range. rewrite Z.sub_0_r.
  assert (zlen t' = zlen t + k) as Ezt by (unfold t'; rewrite zlen_app, zlen_zslice; lia).
  destruct (decide (cap ≤ zlen t)) as [Hfull|Hroom].
  - (* already full *) specialize (E6 Hfull). subst cut. cbn [orb].
    assert (take (Z.to_nat (cap - 1)) t' = take (Z.to_nat (cap - 1)) t) as Et
      by (apply take_app_le; unfold zlen in *; lia).
    destruct (decide (k = 0)) as [->|Hk0].
    + change (Z.to_nat 0) with O. cbn [find_up mbind outcome_bind]. rewrite E1. destruct (Z.ltb_spec 0 cap); [|lia].
      rewrite aset_in by lia. cbn [mbind outcome_bind]. eexists. split; [done|].
      constructor; cbn [sb_buf sb_cap sb_len sb_truncated]; rewrite ?Et, ?zlen_insert; try done; [|lia].
      by rewrite take_insert_ge by lia.
    + destruct (Z.to_nat k) as [|k'] eqn:Ek; [lia|]. cbn [find_up].
      assert (putn_body s 0 sb = Ret (inr (mk_strbuf (sb_buf sb) (sb_cap sb) (sb_len sb) 1))) as Hif.
      { unfold putn_body. rewrite E1, u64_small by lia.
        destruct (Z.leb_spec cap (sb_len sb + 1)); [done|lia]. }
      rewrite Hif. cbn [mbind outcome_bind]. eexists. split; [done|].
      constructor; cbn [sb_buf sb_cap sb_len sb_truncated]; rewrite ?Et; try done. lia.
  - assert (sb_len sb = zlen t) as El by lia.
    assert (sb_copying t cut sb) as Hc.
    { constructor; try done; [lia|]. rewrite E4. apply take_ge. unfold zlen in *; lia. }
    pose proof (putn_loop (Z.to_nat k) 0 t cut sb s Hc) as HL. cbv zeta in HL.
    rewrite Z2Nat.id in HL by lia. rewrite <-zlen_app in HL.
    change (t ++ zslice s 0 k) with t' in HL.
    destruct HL as [[Hfit (sb' & E & Hc')]|[Hcut (sb' & E & F1 & F2 & F3 & F4 & F5)]];
      [lia|lia|..]; rewrite E; cbn [mbind outcome_bind].
    + destruct Hc' as [C1 C2 C3 C4 C5 C6]. rewrite C1. destruct (Z.ltb_spec 0 cap); [|lia].
      rewrite aset_in by (pose proof (zlen_nonneg t'); lia). cbn [mbind outcome_bind]. eexists. split; [done|].
      constructor; cbn [sb_buf sb_cap sb_len sb_truncated]; rewrite ?zlen_insert; try done.
      * rewrite take_ge by (unfold zlen in *; lia). done.
      * rewrite take_insert_ge by lia. rewrite C5. symmetry. apply take_ge. unfold zlen in *; lia.
      * destruct (Z.leb_spec cap (zlen t')); [lia|]. by rewrite orb_false_r.
      * lia.
      * intros _. apply list_lookup_insert_eq. unfold zlen in *. lia.
    + eexists. split; [done|]. destruct (Z.leb_spec cap (zlen t')); [|lia]. rewrite orb_true_r.
      constructor; try done; [|by rewrite F3|lia].
      rewrite F3. unfold zlen in *. rewrite length_take. lia.
Qed.

Lemma strbuf_puts_holds t cut sb s u :
  sb_holds cap n t cut sb → cstr s u → zlen u < 2 ^ 64 →
  ∃ sb', strbuf_puts sb s = Ret sb' ∧ sb_holds cap n (t ++ u) (cut || (cap <=? zlen (t ++ u))) sb'.
Proof.
  intros H Hs Hu. unfold strbuf_puts, strlen. rewrite (kstrlen_spec s u Hs Hu). cbn [mbind outcome_bind].
  pose proof (strbuf_putn_holds t cut sb s (zlen u) H) as H'. cbv zeta in H'.
  rewrite (cstr_prefix s u (zlen u) Hs) in H' by (pose proof (zlen_nonneg u); lia).
  assert (take (Z.to_nat (zlen u)) u = u) as Eu by (apply take_ge; unfold zlen; lia).
  rewrite Eu in H'. apply H'.
  destruct Hs as [_ [rest ->]]. zlen_simpl. pose proof (zlen_nonneg u). pose proof (zlen_nonneg rest). lia.
Qed.

Lemma cstr_intro (t rest : list Z) : 0 ∉ t → cstr (t ++ 0 :: rest) t.
Proof. intros H. split; [done|]. by exists rest. Qed.

Lemma strbuf_put_u64_holds t cut sb v :
  sb_holds cap n t cut sb → is_u64 v →
  let u := num_text v 10 false in
  ∃ sb', strbuf_put_u64 sb v = Ret sb' ∧ sb_holds cap n (t ++ u) (cut || (cap <=? zlen (t ++ u))) sb'.
Proof.
  intros H Hv u. pose proof (num_text_length v 10 false (or_introl eq_refl) Hv) as Hl. fold u in Hl.
  unfold strbuf_put_u64. pose proof (kfmt_u64_spec (replicate 24 0) 24 v 10 false) as E. cbv zeta in E.
  fold u in E. rewrite take_ge in E by lia. change (24 =? 0) with false in E.
  rewrite E by (rewrite ?zlen_replicate; lia). cbn [mbind outcome_bind].
  apply strbuf_puts_holds; [done| |unfold zlen; lia].
  apply cstr_intro, num_text_no_nul; unfold is_u64 in *; lia.
Qed.

Lemma strbuf_put_i64_holds t cut sb v :
  sb_holds cap n t cut sb → - 2 ^ 63 ≤ v < 2 ^ 63 →
  let u := (if v <? 0 then [45] else []) ++ num_text (Z.abs v) 10 false in
  ∃ sb', strbuf_put_i64 sb v = Ret sb' ∧ sb_holds cap n (t ++ u) (cut || (cap <=? zlen (t ++ u))) sb'.
Proof.
  intros H Hv u. pose proof (signed_magnitude v Hv) as Hm. unfold strbuf_put_i64, u.
  destruct (v <? 0); rewrite Hm.
  - destruct (strbuf_putc_holds t cut sb 45 H) as (sb1 & -> & H1). cbn [mbind outcome_bind].
    destruct (strbuf_put_u64_holds _ _ sb1 (Z.abs v) H1) as (sb2 & -> & H2); [unfold is_u64; lia|].
    exists sb2. split; [done|]. rewrite <-app_assoc in H2.
    match type of H2 with sb_holds _ _ _ ?c _ => match goal with |- context [sb_holds _ _ _ ?d _] =>
      assert (d = c) as ->; [|exact H2] end end.
    rewrite app_assoc. set (w := num_text (Z.abs v) 10 false). pose proof (zlen_nonneg w).
    zlen_simpl. change (zlen (@nil Z)) with 0.
    destruct cut, (Z.leb_spec cap (zlen t + (1 + 0) + zlen w)), (Z.leb_spec cap (zlen t + 1));
      cbn [orb]; done || lia.
  - apply strbuf_put_u64_holds; [done|]. unfold is_u64. lia.
Qed.

Lemma strbuf_put_hex_holds t cut sb v :
  sb_holds cap n t cut sb → is_u64 v →
  let u := [48; 120] ++ num_text v 16 false in
  ∃ sb', strbuf_put_hex sb v = Ret sb' ∧ sb_holds cap n (t ++ u) (cut || (cap <=? zlen (t ++ u))) sb'.
Proof.
  intros H Hv u. unfold strbuf_put_hex, u.
  destruct (strbuf_puts_holds t cut sb [48; 120; 0] [48; 120] H) as (sb1 & -> & H1);
    [apply (cstr_intro [48; 120] []); set_solver|done|]. cbn [mbind outcome_bind].
  set (w := num_text v 16 false).
  assert (1 ≤ length w ≤ 16)%nat as Hl.
  { unfold w, num_text. rewrite length_reverse. apply (digit_loop_length 32 v 16 false 15); [lia| |lia].
    unfold is_u64 in Hv. change (Z.of_nat 16) with 16. lia. }
  pose proof (kfmt_u64_spec (replicate 20 0) 20 v 16 false) as E. cbv zeta in E. fold w in E.
  rewrite take_ge in E by lia. change (20 =? 0) with false in E.
  rewrite E by (rewrite ?zlen_replicate; lia). cbn [mbind outcome_bind].
  destruct (strbuf_puts_holds _ _ sb1 (w ++ 0 :: drop (S (length w)) (replicate 20 0)) w H1) as (sb2 & -> & H2).
  { apply cstr_intro, num_text_no_nul; unfold is_u64 in *; lia. }
  { unfold zlen. lia. }
  exists sb2. split; [done|]. rewrite <-app_assoc in H2.
  match type of H2 with sb_holds _ _ _ ?c _ => match goal with |- context [sb_holds _ _ _ ?d _] =>
    assert (d = c) as ->; [|exact H2] end end.
  pose proof (zlen_nonneg w). zlen_simpl. change (zlen (@nil Z)) with 0.
  destruct cut, (Z.leb_spec cap (zlen t + (1 + (1 + 0) + zlen w))), (Z.leb_spec cap (zlen t + (1 + (1 + 0))));
    cbn [orb]; done || lia.
Qed.

(** The formatted text, cut to the 255 characters of the local buffer. *)
Lemma strbuf_printf_holds t cut sb fmt args w :
  sb_holds cap n t cut sb → fmt_text fmt args = Ret w → zlen w < 2 ^ 31 → 0 ∉ w →
  let u := take 255 w in
  ∃ sb', strbuf_printf sb fmt args = Ret sb' ∧
         sb_holds cap n (t ++ u) (cut || (255 <? zlen w) || (cap <=? zlen (t ++ u))) sb'.
Proof.
  intros H Hw Hl H0 u. unfold strbuf_printf.
  pose proof (kvsnprintf_spec (replicate 256 0) 256 fmt args w Hw Hl) as E. cbv zeta in E.
  change (Z.to_nat (256 - 1)) with 255%nat in E. fold u in E. change (256 =? 0) with false in E.
  rewrite E by (split; [lia|]; rewrite zlen_replicate; lia). cbn [mbind outcome_bind].
  set (sb1 := if 256 <=? zlen w then _ else _).
  assert (sb_holds cap n t (cut || (255 <? zlen w)) sb1) as H1.
  { unfold sb1. destruct (Z.leb_spec 256 (zlen w)), (Z.ltb_spec 255 (zlen w)); try lia.
    - rewrite orb_true_r. destruct H. constructor; done.
    - by rewrite orb_false_r. }
  apply strbuf_puts_holds; [done| |unfold u, zlen; rewrite length_take; lia].
  apply cstr_intro. intros Hin. apply H0. unfold u in Hin. by apply elem_of_take in Hin as (i & Hi & _); eapply list_elem_of_lookup_2.
Qed.

End Append.

(** A sequence of appends. *)
Inductive sb_op :=
| SbPutc (c : Z)
| SbPuts (s : list Z)
| SbPutn (s : list Z) (k : Z)
| SbPutU64 (v : Z)
| SbPutI64 (v : Z)
| SbPutHex (v : Z)
| SbPrintf (fmt : list Z) (args : list va_val).

Definition sb_exec (o : sb_op) (sb : strbuf) : outcome strbuf :=
  match o with
  | SbPutc c => strbuf_putc sb c
  | SbPuts s => strbuf_puts sb s
  | SbPutn s k => strbuf_putn sb s k
  | SbPutU64 v => strbuf_put_u64 sb v
  | SbPutI64 v => strbuf_put_i64 sb v
  | SbPutHex v => strbuf_put_hex sb v
  | SbPrintf fmt args => strbuf_printf sb fmt args
  end.

(** The text an append stands for, and the arguments it is defined on. *)
Definition op_text (o : sb_op) (u : list Z) : Prop :=
  match o with
  | SbPutc c => u = [c]
  | SbPuts s => cstr s u ∧ zlen u < 2 ^ 64
  | SbPutn s k => 0 ≤ k ≤ zlen s ∧ u = zslice s 0 k
  | SbPutU64 v => is_u64 v ∧ u = num_text v 10 false
  | SbPutI64 v => - 2 ^ 63 ≤ v < 2 ^ 63 ∧ u = (if v <? 0 then [45] else []) ++ num_text (Z.abs v) 10 false
  | SbPutHex v => is_u64 v ∧ u = [48; 120] ++ num_text v 16 false
  | SbPrintf fmt args => fmt_text fmt args = Ret u ∧ zlen u < 256 ∧ 0 ∉ u
  end.

Lemma sb_exec_holds cap n t cut sb o u :
  0 < cap → cap ≤ n → n < 2 ^ 64 → op_text o u → sb_holds cap n t cut sb →
  ∃ sb', sb_exec o sb = Ret sb' ∧ sb_holds cap n (t ++ u) (cut || (cap <=? zlen (t ++ u))) sb'.
Proof.
  intros Hc Hn Hm Ho H. destruct o; cbn [op_text sb_exec] in *.
  - subst u. rewrite zlen_app. by apply strbuf_putc_holds.
  - destruct Ho. by apply strbuf_puts_holds.
  - destruct Ho as [Hk ->]. by apply strbuf_putn_holds.
  - destruct Ho as [Hv ->]. by apply strbuf_put_u64_holds.
  - destruct Ho as [Hv ->]. by apply strbuf_put_i64_holds.
  - destruct Ho as [Hv ->]. by apply strbuf_put_hex_holds.
  - destruct Ho as (Ht & Hl & H0).
    destruct (strbuf_printf_holds cap n Hc Hn Hm t cut sb fmt args u H Ht) as (sb' & E & H'); [lia|done|].
    rewrite take_ge in H' by (unfold zlen in Hl; lia). destruct (Z.ltb_spec 255 (zlen u)); [lia|].
    rewrite orb_false_r in H'. eauto.
Qed.

Fixpoint sb_run (os : list sb_op) (sb : strbuf) : outcome strbuf :=
  match os with
  | [] => Ret sb
  | o :: os => sb ← sb_exec o sb; sb_run os sb
  end.

(** ** Theorems *)

(** After any sequence of appends to a fresh builder of positive capacity,
    the buffer starts with the first [cap - 1] characters of the concatenated
    texts, [len] is their number, [truncated] is set exactly when the whole does
    not fit, and then only: if it fits the text is NUL-terminated. *)
Theorem strbuf_appends buf cap os us :
  0 < cap ≤ zlen buf → zlen buf < 2 ^ 64 → Forall2 op_text os us →
  let t := concat us in
  ∃ sb0 sb, strbuf_init buf cap = Ret sb0 ∧ sb_run os sb0 = Ret sb ∧
    zlen (strbuf_str sb) = zlen buf ∧
    strbuf_len sb = Z.min (zlen t) (cap - 1) ∧
    take (Z.to_nat (strbuf_len sb)) (strbuf_str sb) = take (Z.to_nat (cap - 1)) t ∧
    sb_truncated sb = b2z (cap <=? zlen t) ∧
    (zlen t < cap → strbuf_str sb !! Z.to_nat (strbuf_len sb) = Some 0).
Proof.
  intros Hc Hm Hos t. unfold strbuf_init. destruct (Z.ltb_spec 0 cap); [|lia].
  rewrite aset_in by lia. cbn [mbind outcome_bind]. eexists.
  assert (∀ t0 cut sb, sb_holds cap (zlen buf) t0 cut sb → cut = (cap <=? zlen t0) →
    ∃ sb', sb_run os sb = Ret sb' ∧ sb_holds cap (zlen buf) (t0 ++ t) (cap <=? zlen (t0 ++ t)) sb') as Hrun.
  { unfold t. clear t. induction Hos as [|o u os us Ho _ IH]; intros t0 cut sb Hh ->; cbn [sb_run concat].
    - exists sb. rewrite app_nil_r. done.
    - destruct (sb_exec_holds cap (zlen buf) t0 (cap <=? zlen t0) sb o u) as (sb1 & -> & H1); [lia|lia|lia|done|done|].
      cbn [mbind outcome_bind]. rewrite app_assoc. eapply IH; [exact H1|].
      pose proof (zlen_nonneg u). rewrite zlen_app.
      destruct (Z.leb_spec cap (zlen t0)), (Z.leb_spec cap (zlen t0 + zlen u)); done || lia. }
  destruct (Hrun [] false (mk_strbuf (<[Z.to_nat 0 := 0]> buf) cap 0 0)) as (sb & E & Hh).
  { constructor; cbn [sb_buf sb_cap sb_len sb_truncated]; rewrite ?take_nil, ?zlen_insert; try done.
    - change (zlen (@nil Z)) with 0. lia.
    - intros _. apply list_lookup_insert_eq. unfold zlen in *. lia. }
  { change (zlen (@nil Z)) with 0. destruct (Z.leb_spec cap 0); [lia|done]. }
  exists sb. split; [done|]. split; [exact E|]. cbn [app] in Hh.
  split; [apply (h_size _ _ _ _ _ Hh)|]. split; [by apply (sb_holds_len cap (zlen buf) H t (cap <=? zlen t))|].
  split; [apply (h_text _ _ _ _ _ Hh)|]. split; [apply (h_cut _ _ _ _ _ Hh)|apply (h_nul _ _ _ _ _ Hh)].
Qed.

Lemma strbuf_appends_witness :
  ∃ sb0 sb, strbuf_init (replicate 8 9) 8 = Ret sb0 ∧
    sb_run [SbPutI64 (-12); SbPutc 32; SbPutHex 255] sb0 = Ret sb ∧
    take (Z.to_nat (strbuf_len sb)) (strbuf_str sb) = [45; 49; 50; 32; 48; 120; 102].
Proof.
  destruct (strbuf_appends (replicate 8 9) 8 [SbPutI64 (-12); SbPutc 32; SbPutHex 255]
    [[45; 49; 50]; [32]; [48; 120; 102; 102]]) as (sb0 & sb & H1 & H2 & _ & _ & H3 & _).
  - vm_compute; split; congruence.
  - vm_compute; reflexivity.
  - repeat constructor; lia.
  - exists sb0, sb. split; [exact H1|]. split; [exact H2|]. exact H3.
Defined.

(** When an append does not fit, [strbuf_putn] returns without storing the
    terminator: a fresh builder of capacity 4 over a buffer filled with the byte 9
    holds no NUL at all after appending a six-character string. *)
Theorem strbuf_truncation_unterminated :
  ∃ sb0 sb, strbuf_init (replicate 4 9) 4 = Ret sb0 ∧
    strbuf_puts sb0 [97; 98; 99; 100; 101; 102; 0] = Ret sb ∧
    strbuf_str sb = [97; 98; 99; 9] ∧ strlen (strbuf_str sb) = Fault.
Proof. eexists _, _. split; [reflexivity|]. split; [reflexivity|]. split; reflexivity. Qed.
