(* ===== verification/Layout.v ===== *)
(** The page constants and address helpers of [kernel/memory/memory_layout.h]. *)

From S2P Require Import Prelude Kmath.

(** ** Definitions *)

Definition PAGE_SIZE : Z := 4096.
Definition PAGE_MASK : Z := PAGE_SIZE - 1.
Definition PAGE_SHIFT : Z := 12.
Definition LARGE_PAGE_SIZE : Z := 0x200000.
Definition LARGE_PAGE_MASK : Z := LARGE_PAGE_SIZE - 1.
Definition LOW_MEMORY_RESERVED_END : Z := 0x100000.
Definition KERNEL_HIGHER_HALF_BASE : Z := 0xFFFFFFFF80000000.
Definition KERNEL_DIRECT_MAP_BASE : Z := 0xFFFF800000000000.
Definition KERNEL_HEAP_BASE : Z := 0xFFFF900000000000.
Definition KERNEL_HEAP_SIZE : Z := 0x10000000.

Definition PAGE_ALIGN_DOWN (x : Z) : Z := Z.land x (not64 PAGE_MASK).
Definition PAGE_ALIGN_UP (x : Z) : Z := Z.land (u64 (x + PAGE_MASK)) (not64 PAGE_MASK).
Definition LARGE_ALIGN_DOWN (x : Z) : Z := Z.land x (not64 LARGE_PAGE_MASK).
Definition LARGE_ALIGN_UP (x : Z) : Z := Z.land (u64 (x + LARGE_PAGE_MASK)) (not64 LARGE_PAGE_MASK).
Definition PHYS_TO_HIGHER_HALF (p : Z) : Z := u64 (p + KERNEL_HIGHER_HALF_BASE).
Definition PHYS_TO_DIRECT_MAP (p : Z) : Z := u64 (p + KERNEL_DIRECT_MAP_BASE).

(** ** Lemmas *)

Lemma page_align_down_spec x : is_u64 x → PAGE_ALIGN_DOWN x = x - x mod 4096.
Proof. intros Hx. apply (land_not_low x 12); [lia|done]. Qed.

Lemma page_align_up_spec x :
  0 ≤ x → x + 4095 < 2 ^ 64 → PAGE_ALIGN_UP x = 4096 * ((x + 4095) / 4096).
Proof.
  intros Hx Hm. unfold PAGE_ALIGN_UP. change PAGE_MASK with 4095. rewrite u64_small by lia.
  change 4095 with (2 ^ 12 - 1) at 2. rewrite land_not_low by (unfold is_u64; lia).
  change (2 ^ 12) with 4096. pose proof (Z.div_mod (x + 4095) 4096). lia.
Qed.

Lemma page_offset_spec x : Z.land x PAGE_MASK = x mod 4096.
Proof. apply (land_ones_mod x 12). lia. Qed.

Lemma page_shift_spec x : Z.shiftr x PAGE_SHIFT = x / 4096.
Proof. unfold PAGE_SHIFT. by rewrite Z.shiftr_div_pow2. Qed.
