(* ===== verification/Pmm.v ===== *)
(** The physical page allocator, [kernel/memory/pmm.c]: initialisation from the
    UEFI memory map, single-page and contiguous allocation, and freeing, over a
    bitmap with one bit per 4 KiB page (1 = used). *)

From S2P Require Import Prelude Kmath Layout.

(** ** Definitions *)

Record efi_memory_descriptor_kernel := mk_desc {
  d_type : Z; d_padding : Z; d_physical_start : Z; d_virtual_start : Z;
  d_number_of_pages : Z; d_attribute : Z
}.

Definition EFI_CONVENTIONAL_MEMORY : Z := 7.

(** Loader code and data, boot and runtime services code and data, conventional
    memory, ACPI reclaim and NVS. *)
Definition efi_type_is_ram (type : Z) : bool :=
  (type =? 1) || (type =? 2) || (type =? 3) || (type =? 4) || (type =? 5) || (type =? 6) ||
  (type =? 7) || (type =? 9) || (type =? 10).

(** The parts of [struct boot_info] that are used here. [bi_descs] are the
    descriptors stored at [map_base], [bi_address] is the address of the
    structure itself. *)
Record boot_info := mk_boot_info {
  bi_address : Z;
  map_base : Z; map_size : Z; descriptor_size : Z;
  bi_descs : list efi_memory_descriptor_kernel;
  fb_base : Z; fb_size : Z;
  kernel_base : Z; kernel_size : Z; kernel_entry : Z
}.

Definition sizeof_boot_info : Z := 152.

(** The static variables of the file. *)
Record pmm := mk_pmm {
  g_bitmap : list Z;
  g_bitmap_bytes : Z;
  g_total_pages : Z;
  g_free_pages : Z;
  g_reserved_pages : Z;
  g_bitmap_phys : Z;
  g_bitmap_pages : Z;
  g_lowest_page : Z;
  g_highest_addr : Z
}.

Definition with_bitmap (s : pmm) (bm : list Z) (free : Z) : pmm :=
  mk_pmm bm (g_bitmap_bytes s) (g_total_pages s) free (g_reserved_pages s) (g_bitmap_phys s)
    (g_bitmap_pages s) (g_lowest_page s) (g_highest_addr s).

Definition bit_set (bm : list Z) (page : Z) : outcome (list Z) :=
  b ← aget bm (Z.shiftr page 3);
  aset bm (Z.shiftr page 3) (Z.lor b (u8 (Z.shiftl 1 (Z.land page 7)))).

Definition bit_clear (bm : list Z) (page : Z) : outcome (list Z) :=
  b ← aget bm (Z.shiftr page 3);
  aset bm (Z.shiftr page 3) (Z.land b (u8 (not32 (Z.shiftl 1 (Z.land page 7))))).

Definition bit_test (bm : list Z) (page : Z) : outcome bool :=
  b ← aget bm (Z.shiftr page 3);
  Ret (negb (Z.land (Z.shiftr b (Z.land page 7)) 1 =? 0)).

Definition desc_at (bi : boot_info) (index : Z) : outcome efi_memory_descriptor_kernel :=
  aget (bi_descs bi) index.

Definition desc_count (bi : boot_info) : outcome Z :=
  if descriptor_size bi =? 0 then Fault else Ret (map_size bi / descriptor_size bi).

Definition reserve_body (p : Z) (s : pmm) : outcome pmm :=
  used ← bit_test (g_bitmap s) p;
  if used : bool then Ret s
  else
    bm ← bit_set (g_bitmap s) p;
    Ret (with_bitmap s bm (if g_free_pages s =? 0 then 0 else g_free_pages s - 1)).

Definition reserve_range (s : pmm) (start size : Z) : outcome pmm :=
  if size =? 0 then Ret s
  else
    let first := Z.shiftr (PAGE_ALIGN_DOWN start) PAGE_SHIFT in
    let last := Z.shiftr (PAGE_ALIGN_UP (u64 (start + size))) PAGE_SHIFT in
    for_range first (Z.min last (g_total_pages s)) reserve_body s.

(** Step 1 of [pmm_init]: the highest RAM address. *)
Definition highest_body (bi : boot_info) (i highest : Z) : outcome Z :=
  d ← desc_at bi i;
  if efi_type_is_ram (d_type d) then
    let e := u64 (d_physical_start d + u64 (d_number_of_pages d * PAGE_SIZE)) in
    Ret (if highest <? e then e else highest)
  else Ret highest.

(** Step 2: a conventional region at or above 1 MiB that can hold the bitmap. *)
Definition bitmap_region_body (bi : boot_info) (bitmap_pages : Z) (i : Z) (_ : unit)
    : outcome (unit + Z) :=
  d ← desc_at bi i;
  Ret (if negb (d_type d =? EFI_CONVENTIONAL_MEMORY) then inl tt
       else if (bitmap_pages <=? d_number_of_pages d) &&
               (LOW_MEMORY_RESERVED_END <=? d_physical_start d)
            then inr (d_physical_start d) else inl tt).

(** Step 4: free the pages of a conventional descriptor. *)
Definition free_body (p : Z) (s : pmm) : outcome pmm :=
  used ← bit_test (g_bitmap s) p;
  if used : bool then
    bm ← bit_clear (g_bitmap s) p;
    Ret (with_bitmap s bm (u64 (g_free_pages s + 1)))
  else Ret s.

Definition free_desc_body (bi : boot_info) (i : Z) (s : pmm) : outcome pmm :=
  d ← desc_at bi i;
  if negb (d_type d =? EFI_CONVENTIONAL_MEMORY) then Ret s
  else
    let first := Z.shiftr (d_physical_start d) PAGE_SHIFT in
    let last := u64 (first + d_number_of_pages d) in
    for_range first (Z.min last (g_total_pages s)) free_body s.

(** Step 6: the lowest free page from 1 MiB up. *)
Definition lowest_body (bm : list Z) (p : Z) (_ : unit) : outcome (unit + Z) :=
  used ← bit_test bm p;
  Ret (if used : bool then inl tt else inr (Z.shiftl p PAGE_SHIFT)).

Definition pmm_init (bi : boot_info) : outcome pmm :=
  n ← desc_count bi;
  highest ← for_range 0 n (highest_body bi) 0;
  let total := Z.shiftr highest PAGE_SHIFT in
  let bytes := (total + 7) / 8 in
  let pages := Z.shiftr (PAGE_ALIGN_UP bytes) PAGE_SHIFT in
  r ← find_range 0 n (bitmap_region_body bi pages) tt;
  let phys := match r with inr a => a | inl _ => 0 end in
  if phys =? 0 then Panic
  else
    let s := mk_pmm (replicate (Z.to_nat bytes) 0xFF) bytes total 0 0 phys pages 0 highest in
    s ← for_range 0 n (free_desc_body bi) s;
    s ← reserve_range s 0 LOW_MEMORY_RESERVED_END;
    s ← reserve_range s (kernel_base bi) (kernel_size bi);
    s ← reserve_range s (bi_address bi) sizeof_boot_info;
    s ← reserve_range s (map_base bi) (map_size bi);
    s ← reserve_range s (fb_base bi) (fb_size bi);
    s ← reserve_range s (g_bitmap_phys s) (u64 (g_bitmap_pages s * PAGE_SIZE));
    let reserved := u64 (g_total_pages s - g_free_pages s) in
    l ← find_range (Z.shiftr LOW_MEMORY_RESERVED_END PAGE_SHIFT) (g_total_pages s)
          (lowest_body (g_bitmap s)) tt;
    Ret (mk_pmm (g_bitmap s) (g_bitmap_bytes s) (g_total_pages s) (g_free_pages s) reserved
           (g_bitmap_phys s) (g_bitmap_pages s) (match l with inr a => a | inl _ => 0 end)
           (g_highest_addr s)).

Definition PMM_INVALID_PAGE : Z := 0.

Definition alloc_page_body (s : pmm) (p : Z) (_ : unit) : outcome (unit + pmm * Z) :=
  used ← bit_test (g_bitmap s) p;
  if used : bool then Ret (inl tt)
  else
    bm ← bit_set (g_bitmap s) p;
    Ret (inr (with_bitmap s bm (u64 (g_free_pages s - 1)), u64 (Z.shiftl p PAGE_SHIFT))).

Definition pmm_alloc_page (s : pmm) : outcome (pmm * Z) :=
  r ← find_range (Z.shiftr LOW_MEMORY_RESERVED_END PAGE_SHIFT) (g_total_pages s) (alloc_page_body s) tt;
  match r with
  | inr res => Ret res
  | inl _ => Ret (s, PMM_INVALID_PAGE)
  end.

(** [while (run < count && !bit_test(p + run)) run++;] with [k = count - run]. *)
Fixpoint run_loop (bm : list Z) (p run : Z) (k : nat) : outcome Z :=
  match k with
  | O => Ret run
  | S k =>
      used ← bit_test bm (u64 (p + run));
      if used : bool then Ret run else run_loop bm p (run + 1) k
  end.

(** The search loop; [p] grows at every iteration, so [g_total_pages] is fuel
    enough. *)
Fixpoint contig_loop (fuel : nat) (s : pmm) (count p : Z) : outcome (pmm * Z) :=
  if u64 (p + count) <=? g_total_pages s then
    match fuel with
    | O => Loop
    | S fuel =>
        run ← run_loop (g_bitmap s) p 0 (Z.to_nat count);
        if run =? count then
          bm ← for_range 0 count (λ i bm, bit_set bm (u64 (p + i))) (g_bitmap s);
          Ret (with_bitmap s bm (u64 (g_free_pages s - count)), u64 (Z.shiftl p PAGE_SHIFT))
        else contig_loop fuel s count (u64 (u64 (p + run) + 1))
    end
  else Ret (s, PMM_INVALID_PAGE).

Definition pmm_alloc_contig (s : pmm) (count : Z) : outcome (pmm * Z) :=
  if count =? 0 then Ret (s, PMM_INVALID_PAGE)
  else if count =? 1 then pmm_alloc_page s
  else contig_loop (Z.to_nat (g_total_pages s)) s count (Z.shiftr LOW_MEMORY_RESERVED_END PAGE_SHIFT).

Definition pmm_free_page (s : pmm) (physical_address : Z) : outcome pmm :=
  if (physical_address =? 0) || negb (Z.land physical_address PAGE_MASK =? 0) then Panic
  else if physical_address <? LOW_MEMORY_RESERVED_END then Panic
  else
    let page := Z.shiftr physical_address PAGE_SHIFT in
    if g_total_pages s <=? page then Panic
    else
      used ← bit_test (g_bitmap s) page;
      if used : bool then
        bm ← bit_clear (g_bitmap s) page;
        Ret (with_bitmap s bm (u64 (g_free_pages s + 1)))
      else Panic.

Definition pmm_free_contig (s : pmm) (physical_address count : Z) : outcome pmm :=
  for_range 0 count (λ i s, pmm_free_page s (u64 (physical_address + u64 (i * PAGE_SIZE)))) s.

Definition pmm_total_pages (s : pmm) : Z := g_total_pages s.
Definition pmm_free_pages (s : pmm) : Z := g_free_pages s.
Definition pmm_used_pages (s : pmm) : Z := u64 (g_total_pages s - g_free_pages s).
Definition pmm_reserved_pages (s : pmm) : Z := g_reserved_pages s.
Definition pmm_bitmap_base (s : pmm) : Z := g_bitmap_phys s.
Definition pmm_bitmap_size (s : pmm) : Z := g_bitmap_bytes s.
Definition pmm_lowest_page (s : pmm) : Z := g_lowest_page s.
Definition pmm_highest_address (s : pmm) : Z := g_highest_addr s.

(** The allocation loop of [pmm_stress_test]: the pages so far, oldest first;
    [inr] is [return 0]. *)
Definition stress_alloc_body (i : Z) (st : pmm * list Z) : outcome (pmm * list Z + pmm) :=
  let '(s, pages) := st in
  '(s, a) ← pmm_alloc_page s;
  Ret (if a =? PMM_INVALID_PAGE then inr s
       else if negb (Z.land a PAGE_MASK =? 0) then inr s
       else if a <? LOW_MEMORY_RESERVED_END then inr s
       else if existsb (Z.eqb a) pages then inr s
       else inl (s, pages ++ [a])).

Definition pmm_stress_test (s : pmm) : outcome (pmm * Z) :=
  let before := pmm_free_pages s in
  r ← find_range 0 64 stress_alloc_body (s, []);
  match r with
  | inr s => Ret (s, 0)
  | inl (s, pages) =>
      if negb (pmm_free_pages s =? u64 (before - 64)) then Ret (s, 0)
      else
        s ← foldlM (λ a s, pmm_free_page s a) pages s;
        if negb (pmm_free_pages s =? before) then Ret (s, 0) else Ret (s, 1)
  end.

(** ** Specification *)

(** Is the page marked used? *)
Definition used (bm : list Z) (p : Z) : bool :=
  match bm !! Z.to_nat (p / 8) with Some b => Z.testbit b (p mod 8) | None => false end.

(** The number of free pages below [total]. *)
Definition nfree (bm : list Z) (total : Z) : Z := zcount (λ p, negb (used bm p)) (Z.to_nat total).

(** The bitmap has a bit for every page and the counter counts the clear ones. *)
Record pmm_bits (s : pmm) : Prop := {
  pb_total : 0 ≤ g_total_pages s < 2 ^ 52;
  pb_size : zlen (g_bitmap s) = (g_total_pages s + 7) / 8;
  pb_bytes : Forall is_u8 (g_bitmap s);
  pb_free : g_free_pages s = nfree (g_bitmap s) (g_total_pages s)
}.

(** The low 1 MiB is never free. *)
Definition low_reserved (s : pmm) : Prop :=
  ∀ p, 0 ≤ p < 256 → p < g_total_pages s → used (g_bitmap s) p = true.

Definition pmm_wf (s : pmm) : Prop := pmm_bits s ∧ low_reserved s.

(** ** Bits *)

Lemma byte_index p : Z.shiftr p 3 = p / 8.
Proof. by rewrite Z.shiftr_div_pow2. Qed.

Lemma bit_index p : Z.land p 7 = p mod 8.
Proof. apply (land_ones_mod p 3). lia. Qed.

Lemma page_pos_eq p q : 0 ≤ p → 0 ≤ q → p / 8 = q / 8 → p mod 8 = q mod 8 → p = q.
Proof. intros. zlia. Qed.

Lemma bit_test_spec bm p : 0 ≤ p < 8 * zlen bm → bit_test bm p = Ret (used bm p).
Proof.
  intros Hp. unfold bit_test, used. rewrite byte_index, bit_index.
  assert (0 ≤ p / 8 < zlen bm) as Hi by zlia.
  destruct (aget_in bm (p / 8) Hi) as (b & Hb & ->). rewrite Hb. cbn [mbind outcome_bind].
  rewrite land_1_testbit, Z.shiftr_spec, Z.add_0_l by lia. by destruct (Z.testbit b (p mod 8)).
Qed.

Lemma bit_write_spec bm p b v (x : bool) :
  0 ≤ p → bm !! Z.to_nat (p / 8) = Some b → Forall is_u8 bm → is_u8 v →
  (∀ i, 0 ≤ i < 8 → Z.testbit v i = if decide (i = p mod 8) then x else Z.testbit b i) →
  let bm' := <[Z.to_nat (p / 8) := v]> bm in
  zlen bm' = zlen bm ∧ Forall is_u8 bm' ∧
  ∀ q, 0 ≤ q → used bm' q = if decide (q = p) then x else used bm q.
Proof.
  intros Hp Hb HF Hv Hbits bm'. split; [apply zlen_insert|]. split; [by apply Forall_insert|].
  intros q Hq. unfold used, bm'.
  assert (0 ≤ p / 8 < zlen bm) as Hi.
  { apply lookup_lt_Some in Hb. pose proof (Z.div_pos p 8). unfold zlen. lia. }
  rewrite lookup_insert_Z by (try done; apply Z.div_pos; lia).
  destruct (decide (p / 8 = q / 8)) as [E|E].
  - rewrite Hbits by (apply Z.mod_pos_bound; lia). rewrite <-E, Hb.
    destruct (decide (q = p)) as [->|Hne]; [by rewrite decide_True|].
    rewrite decide_False; [done|]. intros E'. apply Hne. apply page_pos_eq; congruence || lia.
  - rewrite decide_False; [done|]. by intros ->.
Qed.

Lemma shl_bit p : 0 ≤ p → Z.shiftl 1 (p mod 8) = 2 ^ (p mod 8) ∧ 0 ≤ p mod 8 < 8 ∧ 0 < 2 ^ (p mod 8) < 2 ^ 8.
Proof.
  intros Hp. pose proof (Z.mod_pos_bound p 8 ltac:(lia)) as Hm. split; [by rewrite Z.shiftl_1_l|].
  split; [done|]. split; [apply Z.pow_pos_nonneg; lia|apply Z.pow_lt_mono_r; lia].
Qed.

Lemma bit_set_spec bm p :
  0 ≤ p < 8 * zlen bm → Forall is_u8 bm →
  ∃ bm', bit_set bm p = Ret bm' ∧ zlen bm' = zlen bm ∧ Forall is_u8 bm' ∧
         ∀ q, 0 ≤ q → used bm' q = if decide (q = p) then true else used bm q.
Proof.
  intros Hp HF. unfold bit_set. rewrite byte_index, bit_index.
  assert (0 ≤ p / 8 < zlen bm) as Hi by zlia.
  destruct (aget_in bm (p / 8) Hi) as (b & Hb & ->). cbn [mbind outcome_bind]. rewrite aset_in by done.
  pose proof (Forall_lookup_1 _ _ _ _ HF Hb) as Hb8. destruct (shl_bit p) as (-> & Hm & Hpow); [lia|].
  rewrite u8_small by lia. eexists. split; [done|]. apply (bit_write_spec bm p b); [lia|done|done| |].
  - apply (lor_u_range b (2 ^ (p mod 8)) 8); unfold is_u8 in *; lia.
  - intros i Hi'. rewrite Z.lor_spec, testbit_pow2 by lia. dec_if as E.
    + rewrite bool_decide_true by done. apply orb_true_r.
    + rewrite bool_decide_false by done. apply orb_false_r.
Qed.

Lemma bit_clear_spec bm p :
  0 ≤ p < 8 * zlen bm → Forall is_u8 bm →
  ∃ bm', bit_clear bm p = Ret bm' ∧ zlen bm' = zlen bm ∧ Forall is_u8 bm' ∧
         ∀ q, 0 ≤ q → used bm' q = if decide (q = p) then false else used bm q.
Proof.
  intros Hp HF. unfold bit_clear. rewrite byte_index, bit_index.
  assert (0 ≤ p / 8 < zlen bm) as Hi by zlia.
  destruct (aget_in bm (p / 8) Hi) as (b & Hb & ->). cbn [mbind outcome_bind]. rewrite aset_in by done.
  pose proof (Forall_lookup_1 _ _ _ _ HF Hb) as Hb8. destruct (shl_bit p) as (-> & Hm & Hpow); [lia|].
  eexists. split; [done|]. apply (bit_write_spec bm p b); [lia|done|done| |].
  - apply (land_u_range b _ 8); unfold is_u8 in *; lia.
  - intros i Hi'. rewrite Z.land_spec. unfold u8, not32, u32. rewrite !testbit_mod_pow2 by lia.
    rewrite Z.lnot_spec, testbit_pow2 by lia.
    destruct (Z.ltb_spec i 8), (Z.ltb_spec i 32); try lia. cbn [andb]. dec_if as E.
    + rewrite bool_decide_true by done. apply andb_false_r.
    + rewrite bool_decide_false by done. apply andb_true_r.
Qed.

(** Changing one page changes the free count by one. *)
Lemma nfree_change bm bm' total p x :
  0 ≤ p < total → (∀ q, 0 ≤ q → used bm' q = if decide (q = p) then x else used bm q) →
  nfree bm' total = nfree bm total - b2z (negb (used bm p)) + b2z (negb x).
Proof.
  intros Hp H. unfold nfree. rewrite (zcount_update _ (λ q, negb (used bm q)) _ p); [|lia|].
  - rewrite H by lia. by rewrite decide_True.
  - intros q Hq Hne. rewrite H by lia. by rewrite decide_False.
Qed.

Lemma nfree_pos bm total p : 0 ≤ p < total → used bm p = false → 0 < nfree bm total.
Proof. intros Hp Hu. apply (zcount_pos _ _ p); [lia|]. by rewrite Hu. Qed.

Lemma nfree_range bm total : 0 ≤ total → 0 ≤ nfree bm total ≤ total.
Proof. intros H. pose proof (zcount_range (λ p, negb (used bm p)) (Z.to_nat total)). unfold nfree. lia. Qed.

Lemma pb_index s p : pmm_bits s → 0 ≤ p < g_total_pages s → 0 ≤ p < 8 * zlen (g_bitmap s).
Proof. intros H Hp. rewrite (pb_size _ H). zlia. Qed.

(** The state after the bit of page [p] has been written and the counter set to
    the new number of free pages. *)
Lemma pmm_bits_write s bm' p x free :
  pmm_bits s → 0 ≤ p < g_total_pages s →
  zlen bm' = zlen (g_bitmap s) → Forall is_u8 bm' →
  (∀ q, 0 ≤ q → used bm' q = if decide (q = p) then x else used (g_bitmap s) q) →
  free = g_free_pages s - b2z (negb (used (g_bitmap s) p)) + b2z (negb x) →
  pmm_bits (with_bitmap s bm' free).
Proof.
  intros H Hp Hl HF Hu Hfree. destruct H as [H1 H2 H3 H4].
  constructor; cbn [with_bitmap g_bitmap g_total_pages g_free_pages]; [done|by rewrite Hl|done|].
  rewrite (nfree_change _ _ _ _ _ Hp Hu), <-H4. done.
Qed.

(** [s'] is [s] with the pages of [lo .. hi) marked [x] and the counter adjusted. *)
Record marked (s s' : pmm) (lo hi : Z) (x : bool) : Prop := {
  mk_bits : pmm_bits s';
  mk_rest : s' = with_bitmap s (g_bitmap s') (g_free_pages s');
  mk_used : ∀ q, 0 ≤ q → used (g_bitmap s') q = if decide (lo ≤ q < hi) then x else used (g_bitmap s) q
}.

Lemma marked_total s s' lo hi x : marked s s' lo hi x → g_total_pages s' = g_total_pages s.
Proof. intros [_ H _]. by rewrite H. Qed.

Lemma marked_empty s lo : pmm_bits s → marked s s lo lo true.
Proof. intros H. constructor; [done|by destruct s|]. intros q Hq. by rewrite decide_False by lia. Qed.

(** One page. *)
Lemma marked_one s bm' p x free :
  pmm_bits s → 0 ≤ p < g_total_pages s →
  zlen bm' = zlen (g_bitmap s) → Forall is_u8 bm' →
  (∀ q, 0 ≤ q → used bm' q = if decide (q = p) then x else used (g_bitmap s) q) →
  free = g_free_pages s - b2z (negb (used (g_bitmap s) p)) + b2z (negb x) →
  marked s (with_bitmap s bm' free) p (p + 1) x.
Proof.
  intros H Hp Hl HF Hu Hfree. constructor; [by apply (pmm_bits_write s bm' p x)|done|].
  intros q Hq. cbn [with_bitmap g_bitmap]. rewrite Hu by done. repeat dec_if; done || lia.
Qed.

Lemma marked_extend s s1 s2 lo mid hi x :
  marked s s1 lo mid x → marked s1 s2 mid hi x → lo ≤ mid ≤ hi → marked s s2 lo hi x.
Proof.
  intros [A1 A2 A3] [B1 B2 B3] H. constructor; [done|by rewrite B2, A2|].
  intros q Hq. rewrite B3, A3 by done. repeat dec_if; done || lia.
Qed.

Lemma alloc_page_body_spec s p :
  pmm_bits s → 0 ≤ p < g_total_pages s →
  if used (g_bitmap s) p then alloc_page_body s p tt = Ret (inl tt)
  else ∃ s', alloc_page_body s p tt = Ret (inr (s', p * 4096)) ∧ marked s s' p (p + 1) true.
Proof.
  intros H Hp. pose proof (pb_index s p H Hp) as Hi. unfold alloc_page_body.
  rewrite (bit_test_spec _ _ Hi). cbn [mbind outcome_bind].
  destruct (used (g_bitmap s) p) eqn:Hu; [done|].
  destruct (bit_set_spec _ _ Hi (pb_bytes _ H)) as (bm' & -> & Hl & HF & Hb). cbn [mbind outcome_bind].
  pose proof (pb_total _ H) as Ht. pose proof (nfree_pos (g_bitmap s) (g_total_pages s) p Hp Hu) as Hpos.
  pose proof (nfree_range (g_bitmap s) (g_total_pages s)) as Hr. rewrite <-(pb_free _ H) in Hpos, Hr.
  unfold PAGE_SHIFT. rewrite Z.shiftl_mul_pow2 by lia. change (2 ^ 12) with 4096.
  rewrite (u64_small (p * 4096)) by lia. eexists. split; [done|].
  apply marked_one; try done. rewrite Hu. cbn. rewrite u64_small; lia.
Qed.

(** First fit from 1 MiB up. *)
Lemma pmm_alloc_page_spec s :
  pmm_bits s →
  (∃ p s', pmm_alloc_page s = Ret (s', p * 4096) ∧ 256 ≤ p < g_total_pages s ∧
     used (g_bitmap s) p = false ∧ (∀ q, 256 ≤ q < p → used (g_bitmap s) q = true) ∧
     marked s s' p (p + 1) true) ∨
  (pmm_alloc_page s = Ret (s, PMM_INVALID_PAGE) ∧
   ∀ q, 256 ≤ q < g_total_pages s → used (g_bitmap s) q = true).
Proof.
  intros H. unfold pmm_alloc_page. change (Z.shiftr LOW_MEMORY_RESERVED_END PAGE_SHIFT) with 256.
  destruct (decide (256 ≤ g_total_pages s)) as [Hle|Hlt].
  2: { rewrite find_range_empty by lia. right. split; [done|]. intros; lia. }
  destruct (find_range_inv
    (λ i _, ∀ q, 256 ≤ q < i → used (g_bitmap s) q = true)
    (λ r, ∃ p, r.2 = p * 4096 ∧ 256 ≤ p < g_total_pages s ∧ used (g_bitmap s) p = false ∧
       (∀ q, 256 ≤ q < p → used (g_bitmap s) q = true) ∧ marked s r.1 p (p + 1) true)
    (alloc_page_body s) 256 (g_total_pages s) tt) as [([] & E & HI)|([s' a] & E & p & HQ)].
  - done.
  - intros i [] Hi HI. pose proof (alloc_page_body_spec s i H ltac:(lia)) as Hb.
    destruct (used (g_bitmap s) i) eqn:Hu.
    + left. exists tt. split; [done|]. intros q Hq. destruct (decide (q = i)) as [->|]; [done|]. apply HI. lia.
    + right. destruct Hb as (s' & E & Hm). eexists. split; [done|]. exists i. cbn. auto with lia.
  - intros; lia.
  - right. rewrite E. done.
  - left. rewrite E. cbn in HQ. destruct HQ as (-> & HQ). exists p, s'. done.
Qed.

Lemma bit_test_free s p : pmm_bits s → 0 ≤ p < g_total_pages s → bit_test (g_bitmap s) p = Ret (used (g_bitmap s) p).
Proof. intros H Hp. apply bit_test_spec. by apply pb_index. Qed.

Lemma run_loop_spec s p run k :
  pmm_bits s → 0 ≤ p → 0 ≤ run → p + run + Z.of_nat k ≤ g_total_pages s →
  ∃ r, run_loop (g_bitmap s) p run k = Ret r ∧ run ≤ r ≤ run + Z.of_nat k ∧
    (∀ j, run ≤ j < r → used (g_bitmap s) (p + j) = false) ∧
    (r < run + Z.of_nat k → used (g_bitmap s) (p + r) = true).
Proof.
  intros H Hp. revert run. induction k as [|k IH]; intros run Hr Hk; cbn [run_loop].
  - exists run. split; [done|]. split; [lia|]. split; lia.
  - pose proof (pb_total _ H). rewrite u64_small, bit_test_free by (done || lia). cbn [mbind outcome_bind].
    destruct (used (g_bitmap s) (p + run)) eqn:Hu.
    + exists run. split; [done|]. split; [lia|]. split; [lia|done].
    + destruct (IH (run + 1)) as (r & E & Hrange & Hfree & Hstop); [lia|lia|].
      exists r. split; [done|]. split; [lia|]. split; [|intros; apply Hstop; lia].
      intros j Hj. destruct (decide (j = run)) as [->|]; [done|]. apply Hfree. lia.
Qed.

(** Marking a run of pages used, one bit at a time. *)
Lemma set_run_spec s p count :
  pmm_bits s → 0 ≤ p → 0 ≤ count → p + count ≤ g_total_pages s →
  (∀ j, 0 ≤ j < count → used (g_bitmap s) (p + j) = false) →
  ∃ bm, for_range 0 count (λ i bm, bit_set bm (u64 (p + i))) (g_bitmap s) = Ret bm ∧
    marked s (with_bitmap s bm (g_free_pages s - count)) p (p + count) true.
Proof.
  intros H Hp Hc Ht Hfree. pose proof (pb_total _ H).
  destruct (for_range_inv (λ i bm, marked s (with_bitmap s bm (g_free_pages s - i)) p (p + i) true)
    (λ i bm, bit_set bm (u64 (p + i))) 0 count (g_bitmap s)) as (bm & E & HI).
  - done.
  - intros i bm Hi HI. rewrite u64_small by lia.
    set (s1 := with_bitmap s bm (g_free_pages s - i)) in *.
    pose proof (mk_bits _ _ _ _ _ HI) as H1.
    assert (0 ≤ p + i < 8 * zlen bm) as Hidx by (apply (pb_index s1); [done|cbn; lia]).
    destruct (bit_set_spec bm (p + i) Hidx (pb_bytes _ H1)) as (bm' & E & Hl & HF & Hu).
    exists bm'. split; [done|].
    assert (used bm (p + i) = false) as Hui.
    { pose proof (mk_used _ _ _ _ _ HI (p + i) ltac:(lia)) as Hq. cbn [s1 with_bitmap g_bitmap] in Hq.
      rewrite Hq, decide_False by lia. apply Hfree. lia. }
    apply (marked_extend s s1 _ p (p + i)); [done| |lia].
    replace (p + (i + 1)) with (p + i + 1) by lia.
    change (with_bitmap s bm' (g_free_pages s - (i + 1))) with (with_bitmap s1 bm' (g_free_pages s - (i + 1))).
    apply marked_one; try done; [cbn; lia|]. cbn [s1 with_bitmap g_bitmap g_free_pages]. rewrite Hui. cbn. lia.
  - rewrite Z.sub_0_r, Z.add_0_r. replace (with_bitmap s (g_bitmap s) (g_free_pages s)) with s by (by destruct s).
    by apply marked_empty.
  - exists bm. done.
Qed.

Lemma nfree_run s p count :
  pmm_bits s → 0 ≤ p → 0 ≤ count → p + count ≤ g_total_pages s →
  (∀ j, 0 ≤ j < count → used (g_bitmap s) (p + j) = false) → count ≤ g_free_pages s.
Proof.
  intros H Hp Hc Ht Hfree.
  destruct (set_run_spec s p count H Hp Hc Ht Hfree) as (bm & _ & Hm).
  pose proof (pb_free _ (mk_bits _ _ _ _ _ Hm)) as E. cbn [with_bitmap g_free_pages g_bitmap g_total_pages] in E.
  pose proof (nfree_range bm (g_total_pages s)). pose proof (pb_total _ H). lia.
Qed.

(** A run of [count] free pages starts at [p]. *)
Definition free_run (s : pmm) (p count : Z) : Prop :=
  256 ≤ p ∧ p + count ≤ g_total_pages s ∧ ∀ j, 0 ≤ j < count → used (g_bitmap s) (p + j) = false.

Lemma contig_loop_spec fuel s count p :
  pmm_bits s → 0 < count < 2 ^ 63 → 256 ≤ p ≤ 2 ^ 52 → g_total_pages s - p < Z.of_nat fuel →
  (∀ q, 256 ≤ q < p → ¬ free_run s q count) →
  (∃ q s', contig_loop fuel s count p = Ret (s', q * 4096) ∧ free_run s q count ∧
     (∀ q', q' < q → ¬ free_run s q' count) ∧ marked s s' q (q + count) true) ∨
  (contig_loop fuel s count p = Ret (s, PMM_INVALID_PAGE) ∧ ∀ q, ¬ free_run s q count).
Proof.
  intros H Hc. revert p. pose proof (pb_total _ H) as Ht.
  induction fuel as [|fuel IH]; intros p Hp Hf Hbefore; cbn [contig_loop]; rewrite u64_small by lia;
    (destruct (Z.leb_spec (p + count) (g_total_pages s)) as [Hfit|Hnofit];
     [|right; split; [done|]; intros q Hq; pose proof Hq as (Hq1 & Hq2 & _); apply (Hbefore q); [lia|done]]);
    [lia|].
  destruct (run_loop_spec s p 0 (Z.to_nat count) H) as (r & E & Hr & Hfree & Hstop); [lia|lia|lia|].
  rewrite E. cbn [mbind outcome_bind]. rewrite Z2Nat.id, Z.add_0_l in * by lia.
  destruct (Z.eqb_spec r count) as [->|Hne].
  - left. assert (free_run s p count) as Hrun by (split; [lia|]; split; [done|]; intros; apply Hfree; lia).
    destruct (set_run_spec s p count H) as (bm & Eb & Hm); [lia|lia|done|intros; apply Hfree; lia|].
    rewrite Eb. cbn [mbind outcome_bind].
    pose proof (nfree_run s p count H ltac:(lia) ltac:(lia) Hfit ltac:(intros; apply Hfree; lia)).
    pose proof (nfree_range (g_bitmap s) (g_total_pages s)) as Hnr. rewrite <-(pb_free _ H) in Hnr.
    rewrite (u64_small (g_free_pages s - count)) by lia.
    unfold PAGE_SHIFT. rewrite Z.shiftl_mul_pow2 by lia. change (2 ^ 12) with 4096.
    rewrite (u64_small (p * 4096)) by lia. eexists p, _. split; [done|]. split; [done|]. split; [|done].
    intros q' Hq' Hrun'. pose proof Hrun' as (Hq'1 & _). apply (Hbefore q'); [lia|done].
  - rewrite (u64_small (p + r)) by lia. rewrite u64_small by lia. apply IH; [lia|lia|].
    intros q Hq Hrun. destruct (decide (q < p)); [apply (Hbefore q); [lia|done]|].
    destruct Hrun as (_ & _ & Hrun). specialize (Hrun (p + r - q) ltac:(lia)).
    replace (q + (p + r - q)) with (p + r) in Hrun by lia.
    rewrite Hstop in Hrun by lia. discriminate.
Qed.

(** Freeing: what is checked, and the effect. *)
Lemma pmm_free_page_spec s a :
  pmm_bits s → is_u64 a →
  if decide (a mod 4096 = 0 ∧ LOW_MEMORY_RESERVED_END ≤ a ∧ a / 4096 < g_total_pages s ∧
             used (g_bitmap s) (a / 4096) = true)
  then ∃ s', pmm_free_page s a = Ret s' ∧ marked s s' (a / 4096) (a / 4096 + 1) false
  else pmm_free_page s a = Panic.
Proof.
  intros H Ha. unfold is_u64 in Ha. pose proof (pb_total _ H) as Ht.
  unfold pmm_free_page. rewrite page_offset_spec, page_shift_spec.
  destruct (Z.eqb_spec a 0) as [->|Hnz]; cbn [orb].
  { rewrite decide_False; [done|]. unfold LOW_MEMORY_RESERVED_END. lia. }
  destruct (Z.eqb_spec (a mod 4096) 0) as [Hal|Hal]; cbn [negb]; [|rewrite decide_False; [done|lia]].
  destruct (Z.ltb_spec a LOW_MEMORY_RESERVED_END); [rewrite decide_False; [done|lia]|].
  destruct (Z.leb_spec (g_total_pages s) (a / 4096)); [rewrite decide_False; [done|lia]|].
  assert (0 ≤ a / 4096 < g_total_pages s) as Hp by (split; [apply Z.div_pos; lia|done]).
  rewrite bit_test_free by done. cbn [mbind outcome_bind].
  destruct (used (g_bitmap s) (a / 4096)) eqn:Hu; [|rewrite decide_False; [done|naive_solver]].
  rewrite decide_True by done.
  destruct (bit_clear_spec _ _ (pb_index s _ H Hp) (pb_bytes _ H)) as (bm' & -> & Hl & HF & Hb).
  cbn [mbind outcome_bind]. eexists. split; [done|]. apply marked_one; try done.
  pose proof (nfree_range (g_bitmap s) (g_total_pages s)) as Hnr. rewrite <-(pb_free _ H) in Hnr.
  rewrite Hu. cbn. rewrite u64_small; lia.
Qed.

(** ** Initialisation *)

(** Writing the pages of [lo .. hi) to [x] by a loop that skips those already
    there. *)
Lemma mark_loop s body lo hi x :
  pmm_bits s → 0 ≤ lo ≤ hi → hi ≤ g_total_pages s →
  (∀ i s', pmm_bits s' → g_total_pages s' = g_total_pages s → lo ≤ i < hi →
     ∃ s'', body i s' = Ret s'' ∧ marked s' s'' i (i + 1) x) →
  ∃ s', for_range lo hi body s = Ret s' ∧ marked s s' lo hi x.
Proof.
  intros H Hlo Hhi Hbody.
  destruct (for_range_inv (λ i s', marked s s' lo i x) body lo hi s) as (s' & E & HI); [lia| | |eauto].
  - intros i s1 Hi H1. destruct (Hbody i s1) as (s2 & E & H2); [apply H1|by eapply marked_total|done|].
    exists s2. split; [done|]. apply (marked_extend s s1 s2 lo i); [done|done|lia].
  - constructor; [done|by destruct s|]. intros q Hq. by rewrite decide_False by lia.
Qed.

Lemma marked_skip s p x :
  pmm_bits s → used (g_bitmap s) p = x → marked s s p (p + 1) x.
Proof.
  intros H Hu. constructor; [done|by destruct s|]. intros q Hq. dec_if; [|done].
  by replace q with p by lia.
Qed.

Lemma reserve_body_spec s p :
  pmm_bits s → 0 ≤ p < g_total_pages s → ∃ s', reserve_body p s = Ret s' ∧ marked s s' p (p + 1) true.
Proof.
  intros H Hp. unfold reserve_body. rewrite bit_test_free by done. cbn [mbind outcome_bind].
  destruct (used (g_bitmap s) p) eqn:Hu; [exists s; split; [done|by apply marked_skip]|].
  destruct (bit_set_spec _ _ (pb_index s _ H Hp) (pb_bytes _ H)) as (bm' & -> & Hl & HF & Hb).
  cbn [mbind outcome_bind]. eexists. split; [done|]. apply marked_one; try done.
  pose proof (nfree_pos _ _ _ Hp Hu) as Hpos. rewrite <-(pb_free _ H) in Hpos. rewrite Hu. cbn.
  destruct (Z.eqb_spec (g_free_pages s) 0); lia.
Qed.

Lemma free_body_spec s p :
  pmm_bits s → 0 ≤ p < g_total_pages s → ∃ s', free_body p s = Ret s' ∧ marked s s' p (p + 1) false.
Proof.
  intros H Hp. unfold free_body. rewrite bit_test_free by done. cbn [mbind outcome_bind].
  destruct (used (g_bitmap s) p) eqn:Hu; [|exists s; split; [done|by apply marked_skip]].
  destruct (bit_clear_spec _ _ (pb_index s _ H Hp) (pb_bytes _ H)) as (bm' & -> & Hl & HF & Hb).
  cbn [mbind outcome_bind]. eexists. split; [done|]. apply marked_one; try done.
  pose proof (pb_total _ H). pose proof (nfree_range (g_bitmap s) (g_total_pages s)) as Hnr.
  rewrite <-(pb_free _ H) in Hnr. rewrite Hu. cbn. rewrite u64_small; lia.
Qed.

(** The pages that a byte range touches. *)
Definition touches (start size p : Z) : Prop :=
  0 < size ∧ start / 4096 ≤ p < (start + size + 4095) / 4096.

#[export] Instance touches_dec start size p : Decision (touches start size p).
Proof. unfold touches. apply _. Defined.

Lemma reserve_range_spec s start size :
  pmm_bits s → 0 ≤ start → 0 ≤ size → start + size + 4095 < 2 ^ 64 →
  ∃ s', reserve_range s start size = Ret s' ∧ pmm_bits s' ∧
    s' = with_bitmap s (g_bitmap s') (g_free_pages s') ∧
    ∀ q, 0 ≤ q < g_total_pages s →
      used (g_bitmap s') q = bool_decide (touches start size q) || used (g_bitmap s) q.
Proof.
  intros H Hs Hz Hm. unfold reserve_range.
  destruct (Z.eqb_spec size 0) as [->|Hnz].
  { exists s. split; [done|]. split; [done|]. split; [by destruct s|]. intros q Hq.
    rewrite bool_decide_false; [done|]. unfold touches. lia. }
  rewrite !page_shift_spec, page_align_down_spec by (unfold is_u64; lia).
  rewrite (u64_small (start + size)), page_align_up_spec by lia.
  replace ((start - start mod 4096) / 4096) with (start / 4096) by zlia.
  rewrite Z.mul_comm, Z.div_mul by lia.
  set (first := start / 4096). set (last := (start + size + 4095) / 4096).
  assert (0 ≤ first ∧ first ≤ last) as [Hf Hfl] by (unfold first, last; zlia).
  pose proof (pb_total _ H) as Ht. set (hi := Z.min last (g_total_pages s)).
  destruct (decide (first ≤ hi)) as [Hle|Hgt].
  - destruct (mark_loop s reserve_body first hi true H) as (s' & E & Hmk); [lia|lia| |].
    { intros i s' Hb Ht' Hi. apply reserve_body_spec; [done|lia]. }
    exists s'. split; [exact E|]. split; [apply Hmk|]. split; [apply Hmk|]. intros q Hq.
    rewrite (mk_used _ _ _ _ _ Hmk) by lia. unfold touches. fold first last.
    dec_if as Hd; [rewrite bool_decide_true by lia; done|rewrite bool_decide_false by lia; done].
  - rewrite for_range_empty by lia. exists s. split; [done|]. split; [done|]. split; [by destruct s|].
    intros q Hq. rewrite bool_decide_false; [done|]. unfold touches. fold first last. lia.
Qed.

(** Does a conventional-memory descriptor cover page [p]? *)
Definition conventional (d : efi_memory_descriptor_kernel) (p : Z) : bool :=
  (d_type d =? EFI_CONVENTIONAL_MEMORY) &&
  (d_physical_start d / 4096 <=? p) && (p <? d_physical_start d / 4096 + d_number_of_pages d).

Definition desc_end (d : efi_memory_descriptor_kernel) : Z :=
  d_physical_start d + d_number_of_pages d * 4096.

(** The end of the highest RAM region. *)
Definition ram_top (ds : list efi_memory_descriptor_kernel) : Z :=
  foldl (λ m d, if efi_type_is_ram (d_type d) then Z.max m (desc_end d) else m) 0 ds.

(** A boot information block as the loader hands it over: the map holds
    [map_size / descriptor_size] descriptors and no region reaches the end of the
    address space. *)
Record boot_ok (bi : boot_info) : Prop := {
  bo_count : 0 < descriptor_size bi ∧ map_size bi / descriptor_size bi = zlen (bi_descs bi);
  bo_descs : Forall (λ d, 0 ≤ d_physical_start d ∧ 0 ≤ d_number_of_pages d ∧
                          desc_end d < 2 ^ 63) (bi_descs bi);
  bo_map : 0 ≤ map_base bi ∧ 0 ≤ map_size bi ∧ map_base bi + map_size bi < 2 ^ 63;
  bo_kernel : 0 ≤ kernel_base bi ∧ 0 ≤ kernel_size bi ∧ kernel_base bi + kernel_size bi < 2 ^ 63;
  bo_fb : 0 ≤ fb_base bi ∧ 0 ≤ fb_size bi ∧ fb_base bi + fb_size bi < 2 ^ 63;
  bo_self : 0 ≤ bi_address bi < 2 ^ 62
}.

Section Init.
Context (bi : boot_info) (Hbi : boot_ok bi).

Lemma desc_at_ok i :
  0 ≤ i < zlen (bi_descs bi) →
  ∃ d, bi_descs bi !! Z.to_nat i = Some d ∧ desc_at bi i = Ret d ∧
    0 ≤ d_physical_start d ∧ 0 ≤ d_number_of_pages d ∧ desc_end d < 2 ^ 63.
Proof.
  intros Hi. destruct (aget_in (bi_descs bi) i Hi) as (d & Hd & E). exists d. split; [done|]. split; [done|].
  apply (Forall_lookup_1 _ _ _ _ (bo_descs _ Hbi) Hd).
Qed.

Lemma take_succ {A} (l : list A) i x :
  0 ≤ i → l !! Z.to_nat i = Some x → take (Z.to_nat (i + 1)) l = take (Z.to_nat i) l ++ [x].
Proof. intros Hi Hx. replace (Z.to_nat (i + 1)) with (S (Z.to_nat i)) by lia. by apply take_S_r. Qed.

Lemma ram_top_range ds :
  Forall (λ d, 0 ≤ d_physical_start d ∧ 0 ≤ d_number_of_pages d ∧ desc_end d < 2 ^ 63) ds →
  0 ≤ ram_top ds < 2 ^ 63.
Proof.
  intros H. unfold ram_top.
  assert (∀ m, 0 ≤ m < 2 ^ 63 →
    0 ≤ foldl (λ m d, if efi_type_is_ram (d_type d) then Z.max m (desc_end d) else m) m ds < 2 ^ 63) as G;
    [|by apply G].
  induction H as [|d ds Hd _ IH]; intros m Hm; cbn [foldl]; [done|]. apply IH.
  destruct (efi_type_is_ram _); lia.
Qed.

Lemma ram_top_snoc ds d :
  ram_top (ds ++ [d]) =
  if efi_type_is_ram (d_type d) then Z.max (ram_top ds) (desc_end d) else ram_top ds.
Proof. unfold ram_top. by rewrite foldl_app. Qed.

Lemma highest_loop : for_range 0 (zlen (bi_descs bi)) (highest_body bi) 0 = Ret (ram_top (bi_descs bi)).
Proof.
  destruct (for_range_inv (λ i h, h = ram_top (take (Z.to_nat i) (bi_descs bi)))
    (highest_body bi) 0 (zlen (bi_descs bi)) 0) as (h & E & ->).
  - apply zlen_nonneg.
  - intros i h Hi ->. destruct (desc_at_ok i Hi) as (d & Hd & E & Hs & Hn & He).
    unfold highest_body. rewrite E. cbn [mbind outcome_bind]. unfold desc_end in He.
    rewrite (take_succ _ _ d) by (done || lia). rewrite ram_top_snoc.
    destruct (efi_type_is_ram (d_type d)); [|eauto]. eexists. split; [reflexivity|].
    unfold PAGE_SIZE. rewrite (u64_small (d_number_of_pages d * 4096)), u64_small by lia. unfold desc_end.
    destruct (Z.ltb_spec (ram_top (take (Z.to_nat i) (bi_descs bi))) (d_physical_start d + d_number_of_pages d * 4096)); lia.
  - done.
  - rewrite E. unfold zlen. by rewrite Nat2Z.id, firstn_all.
Qed.

(** Freeing the conventional regions, from a bitmap that is all ones. *)
Lemma free_desc_loop s :
  pmm_bits s → (∀ q, 0 ≤ q < g_total_pages s → used (g_bitmap s) q = true) →
  ∃ s', for_range 0 (zlen (bi_descs bi)) (free_desc_body bi) s = Ret s' ∧ pmm_bits s' ∧
    s' = with_bitmap s (g_bitmap s') (g_free_pages s') ∧
    ∀ q, 0 ≤ q < g_total_pages s →
      used (g_bitmap s') q = negb (existsb (λ d, conventional d q) (bi_descs bi)).
Proof.
  intros H Hall. pose proof (pb_total _ H) as Ht.
  destruct (for_range_inv (λ i s', pmm_bits s' ∧ s' = with_bitmap s (g_bitmap s') (g_free_pages s') ∧
      ∀ q, 0 ≤ q < g_total_pages s →
        used (g_bitmap s') q = negb (existsb (λ d, conventional d q) (take (Z.to_nat i) (bi_descs bi))))
    (free_desc_body bi) 0 (zlen (bi_descs bi)) s) as (s' & E & HI).
  - apply zlen_nonneg.
  - intros i s1 Hi (H1 & R1 & U1). destruct (desc_at_ok i Hi) as (d & Hd & E & Hs & Hn & He).
    unfold free_desc_body. rewrite E. cbn [mbind outcome_bind]. unfold desc_end in He.
    rewrite (take_succ _ _ d) by (done || lia). setoid_rewrite existsb_app. cbn [existsb].
    setoid_rewrite orb_false_r.
    destruct (Z.eqb_spec (d_type d) EFI_CONVENTIONAL_MEMORY) as [Hty|Hty]; cbn [negb].
    2: { exists s1. split; [done|]. split; [done|]. split; [done|]. intros q Hq. rewrite U1 by done.
         unfold conventional. rewrite (proj2 (Z.eqb_neq _ _) Hty). by rewrite orb_false_r. }
    rewrite page_shift_spec. set (first := d_physical_start d / 4096).
    assert (0 ≤ first ∧ first + d_number_of_pages d < 2 ^ 63) as [Hf Hfl] by (unfold first; zlia).
    rewrite u64_small by lia.
    assert (g_total_pages s1 = g_total_pages s) as Ht1 by (by rewrite R1).
    set (hi := Z.min (first + d_number_of_pages d) (g_total_pages s1)).
    assert (∀ q, 0 ≤ q < g_total_pages s → conventional d q = bool_decide (first ≤ q < hi)) as Hconv.
    { intros q Hq. unfold conventional. rewrite (proj2 (Z.eqb_eq _ _) Hty). cbn [andb]. fold first.
      destruct (Z.leb_spec first q), (Z.ltb_spec q (first + d_number_of_pages d)); cbn [andb];
        [rewrite bool_decide_true by lia|rewrite bool_decide_false by lia..]; done. }
    destruct (decide (first ≤ hi)) as [Hle|Hgt].
    + destruct (mark_loop s1 free_body first hi false H1) as (s2 & E2 & Hmk); [lia|lia| |].
      { intros j s2 Hb Ht2 Hj. apply free_body_spec; [done|lia]. }
      exists s2. split; [exact E2|]. split; [apply Hmk|].
      split; [pose proof (mk_rest _ _ _ _ _ Hmk) as R2; rewrite R2, R1; by cbn|].
      intros q Hq. rewrite (mk_used _ _ _ _ _ Hmk) by lia. rewrite U1, Hconv by done.
      dec_if as Hd'; [rewrite bool_decide_true by done; by rewrite orb_true_r|].
      rewrite bool_decide_false by done. by rewrite orb_false_r.
    + rewrite for_range_empty by lia. exists s1. split; [done|]. split; [done|]. split; [done|].
      intros q Hq. rewrite U1, Hconv by done. rewrite bool_decide_false by lia. by rewrite orb_false_r.
  - split; [done|]. split; [by destruct s|]. intros q Hq. by rewrite Hall.
  - exists s'. unfold zlen in HI. rewrite Nat2Z.id, firstn_all in HI. done.
Qed.

End Init.

Lemma used_full n q : 0 ≤ q < 8 * Z.of_nat n → used (replicate n 0xFF) q = true.
Proof.
  intros Hq. unfold used. rewrite lookup_replicate_2 by zlia.
  assert (∀ i, 0 ≤ i < 8 → Z.testbit 255 i = true) as H.
  { intros i Hi. assert (i = 0 ∨ i = 1 ∨ i = 2 ∨ i = 3 ∨ i = 4 ∨ i = 5 ∨ i = 6 ∨ i = 7) as Hc by lia.
    by destruct Hc as [->|[->|[->|[->|[->|[->|[->| ->]]]]]]]. }
  apply H, Z.mod_pos_bound. lia.
Qed.

(** Can the region hold a bitmap of that many pages? *)
Definition region_ok (pages : Z) (d : efi_memory_descriptor_kernel) : bool :=
  (d_type d =? EFI_CONVENTIONAL_MEMORY) && (pages <=? d_number_of_pages d) &&
  (LOW_MEMORY_RESERVED_END <=? d_physical_start d).

Lemma find_first {A} (f : A → bool) l i x :
  l !! i = Some x → f x = true → (∀ j y, (j < i)%nat → l !! j = Some y → f y = false) →
  List.find f l = Some x.
Proof.
  revert i. induction l as [|y l IH]; intros [|i] Hi Hx Hbefore; cbn in *; try discriminate.
  - injection Hi as ->. by rewrite Hx.
  - rewrite (Hbefore O y) by (done || lia). apply (IH i); [done|done|].
    intros j z Hj Hz. apply (Hbefore (S j)); [lia|done].
Qed.

Lemma find_none {A} (f : A → bool) l :
  (∀ j y, l !! j = Some y → f y = false) → List.find f l = None.
Proof.
  induction l as [|y l IH]; intros H; cbn; [done|]. rewrite (H O y) by done.
  apply IH. intros j z Hz. by apply (H (S j)).
Qed.

Lemma bitmap_region_loop bi pages :
  find_range 0 (zlen (bi_descs bi)) (bitmap_region_body bi pages) tt =
  Ret (match List.find (region_ok pages) (bi_descs bi) with
       | Some d => inr (d_physical_start d) | None => inl tt end).
Proof.
  destruct (find_range_inv
    (λ i _, ∀ j y, (j < Z.to_nat i)%nat → bi_descs bi !! j = Some y → region_ok pages y = false)
    (λ r, ∃ d, List.find (region_ok pages) (bi_descs bi) = Some d ∧ r = d_physical_start d)
    (bitmap_region_body bi pages) 0 (zlen (bi_descs bi)) tt) as [([] & E & HI)|(r & E & d & Hd & ->)].
  - apply zlen_nonneg.
  - intros i [] Hi HI. destruct (aget_in (bi_descs bi) i Hi) as (d & Hd & E).
    unfold bitmap_region_body, desc_at. rewrite E. cbn [mbind outcome_bind].
    assert (∀ b, b = region_ok pages d →
      (if negb (d_type d =? EFI_CONVENTIONAL_MEMORY) then inl tt
       else if (pages <=? d_number_of_pages d) && (LOW_MEMORY_RESERVED_END <=? d_physical_start d)
            then inr (d_physical_start d) else inl tt) =
      (if b then inr (d_physical_start d) else inl tt : unit + Z)) as Hb.
    { intros b ->. unfold region_ok. destruct (_ =? _); cbn [negb andb]; [|done]. by destruct (_ && _). }
    rewrite (Hb _ eq_refl). destruct (region_ok pages d) eqn:Hr.
    + right. eexists. split; [done|]. exists d. split; [|done]. by apply (find_first _ _ (Z.to_nat i)).
    + left. exists tt. split; [done|]. intros j y Hj Hy.
      destruct (decide (j = Z.to_nat i)) as [->|]; [congruence|]. apply (HI j y); [lia|done].
  - intros; lia.
  - rewrite E. rewrite find_none; [done|]. intros j y Hy. apply (HI j y); [|done].
    apply lookup_lt_Some in Hy. unfold zlen. lia.
  - by rewrite E, Hd.
Qed.

Lemma lowest_loop s :
  pmm_bits s → ∃ r, find_range 256 (g_total_pages s) (lowest_body (g_bitmap s)) tt = Ret r.
Proof.
  intros H. destruct (decide (256 ≤ g_total_pages s)); [|rewrite find_range_empty by lia; eauto].
  destruct (find_range_inv (λ _ _, True) (λ _, True) (lowest_body (g_bitmap s)) 256 (g_total_pages s) tt)
    as [(? & E & _)|(? & E & _)]; [lia| |done|eauto|eauto].
  intros i [] Hi _. unfold lowest_body. rewrite bit_test_free by (done || lia). cbn [mbind outcome_bind].
  destruct (used _ i); eauto.
Qed.

Lemma pmm_init_spec bi :
  boot_ok bi →
  let total := ram_top (bi_descs bi) / 4096 in
  let pages := ((total + 7) / 8 + 4095) / 4096 in
  match List.find (region_ok pages) (bi_descs bi) with
  | None => pmm_init bi = Panic
  | Some d =>
      ∃ s, pmm_init bi = Ret s ∧ pmm_wf s ∧ g_total_pages s = total ∧
        g_bitmap_phys s = d_physical_start d ∧
        ∀ p, 0 ≤ p < total →
          used (g_bitmap s) p = false ↔
          existsb (λ d, conventional d p) (bi_descs bi) = true ∧
          ¬ touches 0 LOW_MEMORY_RESERVED_END p ∧
          ¬ touches (kernel_base bi) (kernel_size bi) p ∧
          ¬ touches (bi_address bi) sizeof_boot_info p ∧
          ¬ touches (map_base bi) (map_size bi) p ∧
          ¬ touches (fb_base bi) (fb_size bi) p ∧
          ¬ touches (d_physical_start d) (pages * 4096) p
  end.
Proof.
  intros Hbi total pages. destruct (bo_count _ Hbi) as [Hds Hcnt].
  pose proof (ram_top_range _ (bo_descs _ Hbi)) as Htop.
  assert (0 ≤ total < 2 ^ 51) as Ht by (unfold total; zlia).
  assert (0 ≤ (total + 7) / 8 < 2 ^ 49) as Hby by zlia.
  assert (0 ≤ pages < 2 ^ 40) as Hpg by (unfold pages; zlia).
  unfold pmm_init, desc_count. rewrite (proj2 (Z.eqb_neq _ _)) by lia. cbn [mbind outcome_bind].
  rewrite Hcnt, (highest_loop bi Hbi). cbn [mbind outcome_bind]. cbv zeta. rewrite (page_shift_spec (ram_top _)). fold total.
  assert (Z.shiftr (PAGE_ALIGN_UP ((total + 7) / 8)) PAGE_SHIFT = pages) as ->.
  { rewrite page_shift_spec, page_align_up_spec by lia. by rewrite (Z.mul_comm 4096), Z.div_mul by lia. }
  rewrite bitmap_region_loop. cbn [mbind outcome_bind].
  destruct (List.find (region_ok pages) (bi_descs bi)) as [d|] eqn:Hfind; [|done].
  apply find_some in Hfind as [Hin Hok]. unfold region_ok in Hok.
  apply andb_true_iff in Hok as [Hok Hlow]. apply andb_true_iff in Hok as [_ Hpages].
  apply Z.leb_le in Hlow, Hpages. unfold LOW_MEMORY_RESERVED_END in Hlow.
  pose proof (proj1 (List.Forall_forall _ _) (bo_descs _ Hbi) d Hin) as (Hd1 & Hd2 & Hd3). unfold desc_end in Hd3.
  rewrite (proj2 (Z.eqb_neq _ 0)) by lia.
  set (s0 := mk_pmm _ _ _ _ _ _ _ _ _).
  assert (∀ q, 0 ≤ q < total → used (g_bitmap s0) q = true) as Hfull.
  { intros q Hq. apply used_full. zlia. }
  assert (pmm_bits s0) as H0.
  { constructor; cbn [s0 g_bitmap g_total_pages g_free_pages]; [lia|rewrite zlen_replicate; lia| |].
    - apply Forall_replicate. unfold is_u8. lia.
    - symmetry. apply zcount_none. intros i Hi. by rewrite Hfull by lia. }
  destruct (free_desc_loop bi Hbi s0 H0 Hfull) as (s1 & -> & H1 & R1 & U1). cbn [mbind outcome_bind].
  assert (∀ s start size, pmm_bits s → s = with_bitmap s0 (g_bitmap s) (g_free_pages s) →
    0 ≤ start → 0 ≤ size → start + size < 2 ^ 63 →
    ∃ s', reserve_range s start size = Ret s' ∧ pmm_bits s' ∧
      s' = with_bitmap s0 (g_bitmap s') (g_free_pages s') ∧
      ∀ q, 0 ≤ q < total → used (g_bitmap s') q = bool_decide (touches start size q) || used (g_bitmap s) q)
    as Hres.
  { intros s start size Hb R Hst Hsz Hmx.
    destruct (reserve_range_spec s start size Hb) as (s' & E & Hb' & R' & U'); [lia|lia|lia|].
    exists s'. split; [done|]. split; [done|]. split; [by rewrite R', R|]. intros q Hq. apply U'. by rewrite R. }
  destruct (Hres s1 0 LOW_MEMORY_RESERVED_END) as (s2 & -> & H2 & R2 & U2); [done|done|lia|done|done|].
  cbn [mbind outcome_bind]. pose proof (bo_kernel _ Hbi) as Bk. pose proof (bo_map _ Hbi) as Bm.
  pose proof (bo_fb _ Hbi) as Bf. pose proof (bo_self _ Hbi) as Bs.
  destruct (Hres s2 (kernel_base bi) (kernel_size bi)) as (s3 & -> & H3 & R3 & U3); [done|done|lia..|].
  cbn [mbind outcome_bind].
  destruct (Hres s3 (bi_address bi) sizeof_boot_info) as (s4 & -> & H4 & R4 & U4);
    [done|done|lia|unfold sizeof_boot_info; lia|unfold sizeof_boot_info; lia|].
  cbn [mbind outcome_bind].
  destruct (Hres s4 (map_base bi) (map_size bi)) as (s5 & -> & H5 & R5 & U5); [done|done|lia..|].
  cbn [mbind outcome_bind].
  destruct (Hres s5 (fb_base bi) (fb_size bi)) as (s6 & -> & H6 & R6 & U6); [done|done|lia..|].
  cbn [mbind outcome_bind].
  assert (g_bitmap_phys s6 = d_physical_start d ∧ g_bitmap_pages s6 = pages) as [-> ->] by (by rewrite R6).
  unfold PAGE_SIZE. rewrite (u64_small (pages * 4096)) by lia.
  destruct (Hres s6 (d_physical_start d) (pages * 4096)) as (s7 & -> & H7 & R7 & U7); [done|done|lia..|].
  cbn [mbind outcome_bind]. change (Z.shiftr LOW_MEMORY_RESERVED_END PAGE_SHIFT) with 256.
  destruct (lowest_loop s7 H7) as (r & ->). cbn [mbind outcome_bind].
  assert (g_total_pages s7 = total) as Ht7 by (by rewrite R7).
  eexists. split; [done|]. cbn [g_bitmap g_total_pages g_bitmap_phys].
  assert (∀ p, 0 ≤ p < total → used (g_bitmap s7) p = false ↔
    existsb (λ d, conventional d p) (bi_descs bi) = true ∧
    ¬ touches 0 LOW_MEMORY_RESERVED_END p ∧ ¬ touches (kernel_base bi) (kernel_size bi) p ∧
    ¬ touches (bi_address bi) sizeof_boot_info p ∧ ¬ touches (map_base bi) (map_size bi) p ∧
    ¬ touches (fb_base bi) (fb_size bi) p ∧ ¬ touches (d_physical_start d) (pages * 4096) p) as HU.
  { intros p Hp. rewrite U7, U6, U5, U4, U3, U2, U1 by done. rewrite !orb_false_iff, negb_false_iff.
    rewrite !bool_decide_eq_false. tauto. }
  split; [|split; [done|split; [by rewrite R7|exact HU]]].
  split; [destruct H7; by constructor|]. intros p Hp Hpt. cbn [g_bitmap g_total_pages] in *.
  destruct (used (g_bitmap s7) p) eqn:E; [done|]. rewrite Ht7 in Hpt. apply HU in E; [|lia].
  destruct E as (_ & Hl & _). exfalso. apply Hl. unfold touches, LOW_MEMORY_RESERVED_END. zlia.
Qed.

(** ** Allocation after initialisation *)

Lemma pmm_wf_alloc s s' p :
  pmm_wf s → 256 ≤ p → marked s s' p (p + 1) true → used (g_bitmap s) p = false → p < g_total_pages s →
  pmm_wf s' ∧ g_free_pages s' = g_free_pages s - 1.
Proof.
  intros [Hb Hl] Hp Hm Hu Ht. pose proof (marked_total _ _ _ _ _ Hm) as Htot. split; [split|].
  - apply Hm.
  - intros q Hq Hqt. rewrite (mk_used _ _ _ _ _ Hm) by lia. rewrite decide_False by lia.
    apply Hl; [done|]. by rewrite <-Htot.
  - rewrite (pb_free _ (mk_bits _ _ _ _ _ Hm)), (pb_free _ Hb), Htot.
    rewrite (nfree_change (g_bitmap s) (g_bitmap s') _ p true); [|lia|].
    + rewrite Hu. cbn. lia.
    + intros q Hq. rewrite (mk_used _ _ _ _ _ Hm) by done. repeat dec_if; done || lia.
Qed.

(** With the low megabyte reserved, allocation fails exactly when no page is
    free. *)
Lemma pmm_wf_exhausted s :
  pmm_wf s → (∀ q, 256 ≤ q < g_total_pages s → used (g_bitmap s) q = true) ↔ g_free_pages s = 0.
Proof.
  intros [Hb Hl]. rewrite (pb_free _ Hb). split.
  - intros H. apply zcount_none. intros q Hq. pose proof (pb_total _ Hb).
    destruct (decide (256 ≤ q)); [by rewrite H by lia|]. by rewrite Hl by lia.
  - intros H q Hq. destruct (used (g_bitmap s) q) eqn:E; [done|].
    pose proof (nfree_pos (g_bitmap s) (g_total_pages s) q ltac:(lia) E). lia.
Qed.

(** Allocating, then freeing what was allocated, in any number. *)
Record allocated_from (s0 s : pmm) (pages : list Z) : Prop := {
  af_wf : pmm_wf s;
  af_total : g_total_pages s = g_total_pages s0;
  af_free : g_free_pages s = g_free_pages s0 - zlen pages;
  af_dup : NoDup pages;
  af_pages : Forall (λ a, a mod 4096 = 0 ∧ LOW_MEMORY_RESERVED_END ≤ a ∧ a / 4096 < g_total_pages s0 ∧
                          used (g_bitmap s0) (a / 4096) = false) pages;
  af_used : ∀ q, 0 ≤ q → used (g_bitmap s) q = bool_decide (q * 4096 ∈ pages) || used (g_bitmap s0) q
}.

Lemma allocated_step s0 s pages :
  allocated_from s0 s pages → 0 < g_free_pages s →
  ∃ s' a, pmm_alloc_page s = Ret (s', a) ∧ allocated_from s0 s' (pages ++ [a]) ∧ a ∉ pages.
Proof.
  intros H Hpos. pose proof H as [Hwf Ht Hf Hd Hp Hu]. pose proof (pb_total _ (proj1 Hwf)) as Htb.
  destruct (pmm_alloc_page_spec s (proj1 Hwf)) as [(p & s' & E & Hpr & Hup & _ & Hm)|[_ Hall]].
  2: { apply (pmm_wf_exhausted s Hwf) in Hall. lia. }
  destruct (pmm_wf_alloc s s' p Hwf ltac:(lia) Hm Hup ltac:(lia)) as [Hwf' Hf'].
  assert (p * 4096 ∉ pages) as Hfresh.
  { intros Hin. rewrite Hu in Hup by lia. rewrite bool_decide_true in Hup by done. discriminate. }
  exists s', (p * 4096). split; [done|]. split; [|done]. constructor.
  - done.
  - by rewrite (marked_total _ _ _ _ _ Hm).
  - rewrite Hf', Hf. zlen_simpl. change (zlen (@nil Z)) with 0. lia.
  - apply NoDup_app. split; [done|]. split; [set_solver|apply NoDup_singleton].
  - apply Forall_app. split; [done|]. apply Forall_singleton. rewrite Z.div_mul by lia.
    split; [apply Z.mod_mul; lia|]. split; [unfold LOW_MEMORY_RESERVED_END; lia|]. split; [lia|].
    rewrite Hu in Hup by lia. apply orb_false_iff in Hup; apply Hup.
  - intros q Hq. rewrite (mk_used _ _ _ _ _ Hm) by done. dec_if as Hd'.
    + rewrite bool_decide_true; [done|]. replace q with p by lia. set_solver.
    + rewrite Hu by done. f_equal. apply bool_decide_ext. rewrite elem_of_app, list_elem_of_singleton.
      split; [by left|]. intros [?|?]; [done|lia].
Qed.

Lemma free_step s0 s a pages :
  allocated_from s0 s (a :: pages) → is_u64 a →
  ∃ s', pmm_free_page s a = Ret s' ∧ allocated_from s0 s' pages.
Proof.
  intros H Ha. pose proof H as [Hwf Ht Hf Hd Hp Hu].
  apply NoDup_cons in Hd as [Hna Hd]. apply Forall_cons in Hp as [(Hal & Hlo & Hat & Hau) Hp].
  pose proof (pmm_free_page_spec s a (proj1 Hwf) Ha) as Hs. unfold LOW_MEMORY_RESERVED_END in *.
  assert (a / 4096 * 4096 = a) as Hdiv by zlia.
  rewrite decide_True in Hs.
  2: { split; [done|]. split; [done|]. split; [lia|]. rewrite Hu, Hdiv by zlia.
       rewrite bool_decide_true by set_solver. done. }
  destruct Hs as (s' & E & Hm). exists s'. split; [done|].
  pose proof (marked_total _ _ _ _ _ Hm) as Ht'. pose proof (pb_total _ (proj1 Hwf)).
  assert (used (g_bitmap s) (a / 4096) = true) as Hua.
  { rewrite Hu, Hdiv by zlia. by rewrite bool_decide_true by set_solver. }
  constructor.
  - split; [apply Hm|]. intros q Hq Hqt. rewrite (mk_used _ _ _ _ _ Hm) by lia.
    rewrite decide_False by zlia. apply (proj2 Hwf); [done|]. by rewrite <-Ht'.
  - by rewrite Ht'.
  - rewrite (pb_free _ (mk_bits _ _ _ _ _ Hm)), Ht'.
    rewrite (nfree_change (g_bitmap s) (g_bitmap s') _ (a / 4096) false); [|zlia|].
    + rewrite <-(pb_free _ (proj1 Hwf)), Hf, Hua. zlen_simpl. cbn. lia.
    + intros q Hq. rewrite (mk_used _ _ _ _ _ Hm) by done. repeat dec_if; done || lia.
  - done.
  - done.
  - intros q Hq. rewrite (mk_used _ _ _ _ _ Hm) by done. dec_if as Hd'.
    + replace q with (a / 4096) by lia. rewrite Hau, orb_false_r. symmetry. apply bool_decide_false.
      by rewrite Hdiv.
    + rewrite Hu by done. f_equal. apply bool_decide_ext. rewrite elem_of_cons.
      split; [|by right]. intros [?|?]; [|done]. exfalso. apply Hd'. subst a. rewrite Z.div_mul by lia. lia.
Qed.

Lemma pmm_stress_spec s :
  pmm_wf s → 64 ≤ g_free_pages s →
  ∃ s', pmm_stress_test s = Ret (s', 1) ∧ allocated_from s s' [].
Proof.
  intros Hwf H64. pose proof (pb_total _ (proj1 Hwf)) as Htb.
  pose proof (nfree_range (g_bitmap s) (g_total_pages s) ltac:(lia)) as Hnr. rewrite <-(pb_free _ (proj1 Hwf)) in Hnr.
  assert (allocated_from s s []) as H0.
  { constructor; [done|done| |constructor|constructor|].
    - change (zlen (@nil Z)) with 0. lia.
    - intros q Hq. rewrite bool_decide_false by set_solver. done. }
  unfold pmm_stress_test.
  destruct (find_range_inv (λ i st, allocated_from s st.1 st.2 ∧ zlen st.2 = i) (λ _, False)
    stress_alloc_body 0 64 (s, [])) as [([s1 pages] & -> & H1 & Hz)|(? & _ & [])].
  - lia.
  - intros i [s1 pages] Hi [H1 Hz]. cbn [fst snd] in *. left. unfold stress_alloc_body.
    destruct (allocated_step s s1 pages H1) as (s2 & a & E & H2 & Hna);
      [rewrite (af_free _ _ _ H1); lia|]. rewrite E. cbn [mbind outcome_bind].
    pose proof (af_pages _ _ _ H2) as Hp. apply Forall_app in Hp as [_ Hp].
    apply Forall_singleton in Hp as (Hal & Hlo & _). unfold LOW_MEMORY_RESERVED_END in *.
    rewrite page_offset_spec, Hal. rewrite (proj2 (Z.eqb_neq a PMM_INVALID_PAGE)) by (unfold PMM_INVALID_PAGE; lia).
    cbn [Z.eqb negb]. destruct (Z.ltb_spec a 0x100000); [lia|].
    assert (existsb (Z.eqb a) pages = false) as ->.
    { apply not_true_is_false. intros Hex. apply existsb_exists in Hex as (b & Hb & Hab).
      apply Z.eqb_eq in Hab. subst b. apply Hna. by apply list_elem_of_In. }
    eexists. split; [done|]. cbn [fst snd]. split; [done|]. zlen_simpl. change (zlen (@nil Z)) with 0. lia.
  - done.
  - cbn [fst snd] in *. cbn [mbind outcome_bind]. unfold pmm_free_pages. rewrite (af_free _ _ _ H1), Hz.
    rewrite u64_small, Z.eqb_refl by lia. cbn [negb].
    assert (∃ s', foldlM (λ a s, pmm_free_page s a) pages s1 = Ret s' ∧ allocated_from s s' []) as (s' & -> & H').
    { clear Hz. revert s1 H1. induction pages as [|a pages IH]; intros s1 H1; [exists s1; done|].
      pose proof (af_pages _ _ _ H1) as Hp. apply Forall_cons in Hp as [(Hal & Hlo & Hat & _) _].
      destruct (free_step s s1 a pages H1) as (s2 & E & H2); [unfold LOW_MEMORY_RESERVED_END, is_u64 in *; zlia|].
      cbn [foldlM]. rewrite E. cbn [mbind outcome_bind]. by apply IH. }
    cbn [mbind outcome_bind]. rewrite (af_free _ _ _ H'). change (zlen (@nil Z)) with 0.
    rewrite Z.sub_0_r, Z.eqb_refl. cbn [negb]. eauto.
Qed.

(** A decision procedure for the invariant. *)
Definition pmm_wfb (s : pmm) : bool :=
  (0 <=? g_total_pages s) && (g_total_pages s <? 2 ^ 52) &&
  (zlen (g_bitmap s) =? (g_total_pages s + 7) / 8) &&
  forallb (λ b, (0 <=? b) && (b <? 2 ^ 8)) (g_bitmap s) &&
  (g_free_pages s =? nfree (g_bitmap s) (g_total_pages s)) &&
  forallb (λ p, (g_total_pages s <=? p) || used (g_bitmap s) p) (seqZ 0 256).

Lemma pmm_wfb_sound s : pmm_wfb s = true → pmm_wf s.
Proof.
  unfold pmm_wfb. rewrite !andb_true_iff. intros [[[[[H1 H2] H3] H4] H5] H6].
  apply Z.leb_le in H1. apply Z.ltb_lt in H2. apply Z.eqb_eq in H3, H5.
  rewrite forallb_forall in H4, H6. split.
  - constructor; [lia|done| |done]. apply List.Forall_forall. intros b Hb. specialize (H4 b Hb).
    apply andb_true_iff in H4 as [H7 H8]. apply Z.leb_le in H7. apply Z.ltb_lt in H8. unfold is_u8. lia.
  - intros p Hp Ht. specialize (H6 p). rewrite <-list_elem_of_In, elem_of_seqZ in H6.
    specialize (H6 ltac:(lia)). apply orb_true_iff in H6 as [H6|H6]; [|done]. apply Z.leb_le in H6. lia.
Qed.

(** A bitmap whose first [8 * a] pages are in use. *)
Lemma used_low a b p : 0 ≤ p < 8 * (Z.of_nat a + Z.of_nat b) → used (replicate a 0xFF ++ replicate b 0) p = (p <? 8 * Z.of_nat a).
Proof.
  intros Hp. unfold used. destruct (Z.ltb_spec p (8 * Z.of_nat a)).
  - rewrite lookup_app_l by (rewrite length_replicate; zlia). rewrite lookup_replicate_2 by zlia. change 0xFF with (Z.ones 8). apply Z.ones_spec_low. zlia.
  - rewrite lookup_app_r by (rewrite length_replicate; zlia). rewrite length_replicate, lookup_replicate_2 by zlia. apply Z.bits_0.
Qed.

Lemma pmm_wf_low a b s :
  (32 ≤ a)%nat → 8 * (Z.of_nat a + Z.of_nat b) < 2 ^ 52 → g_bitmap s = replicate a 0xFF ++ replicate b 0 → g_total_pages s = 8 * (Z.of_nat a + Z.of_nat b) → g_free_pages s = 8 * Z.of_nat b → pmm_wf s.
Proof.
  intros Ha Ht Eb Et Ef. split.
  - constructor; rewrite ?Eb, ?Et, ?Ef; [lia|unfold zlen; rewrite length_app, !length_replicate; zlia|apply Forall_app; split; apply Forall_replicate; done|].
    unfold nfree. assert (∀ n, Z.of_nat n ≤ 8 * (Z.of_nat a + Z.of_nat b) → zcount (λ p, negb (used (replicate a 0xFF ++ replicate b 0) p)) n = Z.max 0 (Z.of_nat n - 8 * Z.of_nat a)) as Hc.
    { induction n as [|n IH]; intros Hn; [cbn; lia|]. cbn [zcount]. rewrite IH, used_low by lia. destruct (Z.ltb_spec (Z.of_nat n) (8 * Z.of_nat a)); cbn [negb b2z]; lia. }
    rewrite Hc by lia. lia.
  - intros p Hp Hl. rewrite Eb, used_low by lia. apply Z.ltb_lt. lia.
Qed.

(** Eight pages above 1 MiB, two of them in use. *)
Definition example_pmm : pmm :=
  mk_pmm (replicate 32 0xFF ++ [5]) 33 264 6 258 0x100000 1 0x101000 0x108000.

Lemma example_pmm_wf : pmm_wf example_pmm.
Proof. apply pmm_wfb_sound. vm_compute. reflexivity. Qed.

(** ** Theorems *)

(** [pmm_alloc_page] returns the lowest free page at or above 1 MiB, aligned
    and previously unused, marks exactly that page and decrements the free count;
    it returns [PMM_INVALID_PAGE], changing nothing, exactly when no page is
    free. The invariant is preserved. *)
Theorem pmm_alloc_page_first_fit s :
  pmm_wf s →
  (g_free_pages s = 0 ∧ pmm_alloc_page s = Ret (s, PMM_INVALID_PAGE)) ∨
  (0 < g_free_pages s ∧
   ∃ p s', pmm_alloc_page s = Ret (s', p * 4096) ∧ LOW_MEMORY_RESERVED_END ≤ p * 4096 ∧
     p < g_total_pages s ∧ used (g_bitmap s) p = false ∧
     (∀ q, 256 ≤ q < p → used (g_bitmap s) q = true) ∧
     (∀ q, 0 ≤ q → used (g_bitmap s') q = if decide (q = p) then true else used (g_bitmap s) q) ∧
     g_free_pages s' = g_free_pages s - 1 ∧ pmm_wf s').
Proof.
  intros Hwf. destruct (pmm_alloc_page_spec s (proj1 Hwf)) as [(p & s' & E & Hp & Hu & Hq & Hm)|[E Hall]].
  - right. destruct (pmm_wf_alloc s s' p Hwf ltac:(lia) Hm Hu ltac:(lia)) as [Hwf' Hf].
    split; [rewrite (pb_free _ (proj1 Hwf)); apply (nfree_pos _ _ p); [lia|done]|].
    exists p, s'. split; [done|]. split; [unfold LOW_MEMORY_RESERVED_END; lia|]. split; [lia|].
    split; [done|]. split; [done|]. split; [|done]. intros q Hq0. rewrite (mk_used _ _ _ _ _ Hm) by done.
    repeat dec_if; done || lia.
  - left. split; [by apply pmm_wf_exhausted|done].
Qed.

Lemma pmm_alloc_page_first_fit_witness :
  ∃ p s', pmm_alloc_page example_pmm = Ret (s', p * 4096) ∧ pmm_wf s' ∧ g_free_pages s' = 5.
Proof.
  destruct (pmm_alloc_page_first_fit example_pmm example_pmm_wf) as [[H _]|[_ (p & s' & E & H)]].
  - vm_compute in H. discriminate H.
  - exists p, s'. split; [exact E|]. split; [apply H|]. destruct H as (_ & _ & _ & _ & _ & H & _). exact H.
Defined.

(** [pmm_alloc_contig] finds the lowest run of [count] free pages at or above
    1 MiB and marks exactly that run, or reports failure when there is none; the
    search ends within the fuel of the model. *)
Theorem pmm_alloc_contig_first_fit s count :
  pmm_wf s → 2 ≤ count < 2 ^ 63 →
  (∃ q s', pmm_alloc_contig s count = Ret (s', q * 4096) ∧ free_run s q count ∧
     (∀ q', q' < q → ¬ free_run s q' count) ∧ marked s s' q (q + count) true) ∨
  (pmm_alloc_contig s count = Ret (s, PMM_INVALID_PAGE) ∧ ∀ q, ¬ free_run s q count).
Proof.
  intros [Hb _] Hc. unfold pmm_alloc_contig. rewrite !(proj2 (Z.eqb_neq count _)) by lia.
  change (Z.shiftr LOW_MEMORY_RESERVED_END PAGE_SHIFT) with 256. pose proof (pb_total _ Hb).
  apply contig_loop_spec; [done|lia|lia|lia|]. intros; lia.
Qed.

Lemma pmm_alloc_contig_first_fit_witness :
  ∃ q s', pmm_alloc_contig example_pmm 3 = Ret (s', q * 4096) ∧ free_run example_pmm q 3 ∧
          marked example_pmm s' q (q + 3) true.
Proof.
  destruct (pmm_alloc_contig_first_fit example_pmm 3 example_pmm_wf) as [(q & s' & E & H1 & _ & H2)|[E _]].
  - lia.
  - exists q, s'. split; [exact E|]. split; [exact H1|exact H2].
  - vm_compute in E. discriminate E.
Defined.

(** [pmm_free_page] accepts exactly the page-aligned addresses at or above
    1 MiB, inside managed memory, of pages that are in use, and marks that one
    page free; for every other address (misaligned, reserved, out of range, double
    free) it panics. *)
Theorem pmm_free_page_checked s a :
  pmm_wf s → is_u64 a →
  if decide (a mod 4096 = 0 ∧ LOW_MEMORY_RESERVED_END ≤ a ∧ a / 4096 < g_total_pages s ∧
             used (g_bitmap s) (a / 4096) = true)
  then ∃ s', pmm_free_page s a = Ret s' ∧ marked s s' (a / 4096) (a / 4096 + 1) false
  else pmm_free_page s a = Panic.
Proof. intros [Hb _]. by apply pmm_free_page_spec. Qed.

Lemma pmm_free_page_checked_witness :
  (∃ s', pmm_free_page example_pmm 0x102000 = Ret s' ∧ marked example_pmm s' 258 259 false) ∧
  pmm_free_page example_pmm 0x101000 = Panic.
Proof.
  split.
  - exact (pmm_free_page_checked example_pmm 0x102000 example_pmm_wf ltac:(split; lia)).
  - exact (pmm_free_page_checked example_pmm 0x101000 example_pmm_wf ltac:(split; lia)).
Defined.

(** C32. [pmm_init] panics exactly when no conventional region at or above 1 MiB
    can hold the bitmap; otherwise it establishes the invariant, and a page is
    free exactly when a conventional descriptor covers it and it is not touched by
    the low megabyte, the kernel image, the boot information, the UEFI map, the
    framebuffer or the bitmap itself. *)
Theorem pmm_init_exact bi :
  boot_ok bi →
  let total := ram_top (bi_descs bi) / 4096 in
  let pages := ((total + 7) / 8 + 4095) / 4096 in
  match List.find (region_ok pages) (bi_descs bi) with
  | None => pmm_init bi = Panic
  | Some d =>
      ∃ s, pmm_init bi = Ret s ∧ pmm_wf s ∧ g_total_pages s = total ∧
        g_bitmap_phys s = d_physical_start d ∧
        ∀ p, 0 ≤ p < total →
          used (g_bitmap s) p = false ↔
          existsb (λ d, conventional d p) (bi_descs bi) = true ∧
          ¬ touches 0 LOW_MEMORY_RESERVED_END p ∧
          ¬ touches (kernel_base bi) (kernel_size bi) p ∧
          ¬ touches (bi_address bi) sizeof_boot_info p ∧
          ¬ touches (map_base bi) (map_size bi) p ∧
          ¬ touches (fb_base bi) (fb_size bi) p ∧
          ¬ touches (d_physical_start d) (pages * 4096) p
  end.
Proof. apply pmm_init_spec. Qed.

Definition example_boot : boot_info :=
  mk_boot_info 0x1000 0x2000 96 48
    [mk_desc 7 0 0 0 159 0; mk_desc 7 0 0x100000 0 256 0] 0x80000000 0x1000 0x100000 0x3000 0x100000.

Lemma pmm_init_exact_witness :
  ∃ s, pmm_init example_boot = Ret s ∧ pmm_wf s ∧ g_total_pages s = 512.
Proof.
  pose proof (pmm_init_exact example_boot) as H.
  destruct H as (s & E & Hwf & Ht & _).
  - constructor; cbn [example_boot descriptor_size map_size bi_descs map_base kernel_base kernel_size
      fb_base fb_size bi_address]; try lia.
    + split; [lia|reflexivity].
    + repeat constructor; unfold desc_end; cbn; lia.
  - exists s. split; [exact E|]. split; [exact Hwf|exact Ht].
Defined.

(** The self-test [pmm_stress_test] succeeds on every well-formed state with
    at least 64 free pages and leaves every page and the free count as they
    were. *)
Theorem pmm_stress_test_passes s :
  pmm_wf s → 64 ≤ pmm_free_pages s →
  ∃ s', pmm_stress_test s = Ret (s', 1) ∧ pmm_wf s' ∧ pmm_free_pages s' = pmm_free_pages s ∧
        ∀ q, 0 ≤ q → used (g_bitmap s') q = used (g_bitmap s) q.
Proof.
  intros Hwf H64. destruct (pmm_stress_spec s Hwf H64) as (s' & E & [W _ F _ _ U]).
  exists s'. split; [done|]. split; [done|]. unfold pmm_free_pages.
  change (zlen (@nil Z)) with 0 in F. split; [lia|]. intros q Hq. rewrite U by done.
  by rewrite bool_decide_false by set_solver.
Qed.

Lemma pmm_stress_test_passes_witness :
  ∃ s', pmm_stress_test (mk_pmm (replicate 32 0xFF ++ replicate 8 0) 40 320 64 256 0x100000 1 0 0) = Ret (s', 1).
Proof.
  destruct (pmm_stress_test_passes (mk_pmm (replicate 32 0xFF ++ replicate 8 0) 40 320 64 256 0x100000 1 0 0))
    as (s' & E & _).
  - apply pmm_wfb_sound. vm_compute. reflexivity.
  - vm_compute. congruence.
  - exists s'. exact E.
Defined.
