(* ===== verification/Memory.v ===== *)
(** Byte-addressed memory, shared by the components that work on raw memory: a
    finite map from addresses to bytes (absent addresses read as zero, as fresh
    [.bss] does) with little-endian loads and stores of any width. *)

From S2P Require Import Prelude.

(** ** Definitions *)

Notation mem := (gmap Z Z).

Definition load8 (m : mem) (a : Z) : Z := default 0 (m !! a).
Definition store8 (m : mem) (a v : Z) : mem := <[a := v]> m.

(** [n] bytes, least significant first. *)
Fixpoint load (n : nat) (m : mem) (a : Z) : Z :=
  match n with
  | O => 0
  | S n => load8 m a + 256 * load n m (a + 1)
  end.

Fixpoint store (n : nat) (m : mem) (a v : Z) : mem :=
  match n with
  | O => m
  | S n => store n (store8 m a (v mod 256)) (a + 1) (v / 256)
  end.

Definition load32 (m : mem) (a : Z) : Z := load 4 m a.
Definition store32 (m : mem) (a v : Z) : mem := store 4 m a (u32 v).
Definition load64 (m : mem) (a : Z) : Z := load 8 m a.
Definition store64 (m : mem) (a v : Z) : mem := store 8 m a (u64 v).

(** A string of bytes. *)
Fixpoint store_bytes (m : mem) (a : Z) (l : list Z) : mem :=
  match l with [] => m | b :: l => store_bytes (store8 m a b) (a + 1) l end.
Definition load_bytes (m : mem) (a n : Z) : list Z := (λ i, load8 m (a + i)) <$> seqZ 0 n.

(** ** Lemmas *)

Lemma load8_store8 m a b v : load8 (store8 m a v) b = if decide (b = a) then v else load8 m b.
Proof.
  unfold load8, store8. dec_if as H.
  - subst. by rewrite lookup_insert_eq.
  - by rewrite lookup_insert_ne.
Qed.

Lemma load8_store n m a v b :
  b < a ∨ a + Z.of_nat n ≤ b → load8 (store n m a v) b = load8 m b.
Proof.
  revert m a v. induction n as [|n IH]; intros m a v H; cbn [store]; [done|].
  rewrite IH by lia. rewrite load8_store8. by rewrite decide_False by lia.
Qed.

Lemma load_ext n m m' a :
  (∀ b, a ≤ b < a + Z.of_nat n → load8 m' b = load8 m b) → load n m' a = load n m a.
Proof.
  revert a. induction n as [|n IH]; intros a H; cbn [load]; [done|].
  rewrite H by lia. rewrite IH; [done|]. intros b Hb. apply H. lia.
Qed.

(** A load from a range that a store does not touch. *)
Lemma load_store_other n k m a v b :
  b + Z.of_nat k ≤ a ∨ a + Z.of_nat n ≤ b → load k (store n m a v) b = load k m b.
Proof. intros H. apply load_ext. intros c Hc. apply load8_store. lia. Qed.

Lemma load_store_same n m a v : 0 ≤ v < 256 ^ Z.of_nat n → load n (store n m a v) a = v.
Proof.
  revert m a v. induction n as [|n IH]; intros m a v Hv; cbn [load store]; [cbn in Hv; lia|].
  rewrite load8_store by lia. rewrite load8_store8, decide_True by done.
  rewrite Nat2Z.inj_succ, Z.pow_succ_r in Hv by lia.
  rewrite IH; [pose proof (Z.div_mod v 256); lia|].
  split; [apply Z.div_pos; lia|]. apply Z.div_lt_upper_bound; lia.
Qed.

Lemma load32_store32 m a v : is_u32 v → load32 (store32 m a v) a = v.
Proof.
  intros Hv. unfold load32, store32. rewrite u32_small by done. apply load_store_same. exact Hv.
Qed.

Lemma load32_store32_ne m a b v : b + 4 ≤ a ∨ a + 4 ≤ b → load32 (store32 m a v) b = load32 m b.
Proof. intros H. apply load_store_other. lia. Qed.

Lemma load64_store64 m a v : is_u64 v → load64 (store64 m a v) a = v.
Proof.
  intros Hv. unfold load64, store64. rewrite u64_small by done. apply load_store_same. exact Hv.
Qed.

Lemma load64_store64_ne m a b v : b + 8 ≤ a ∨ a + 8 ≤ b → load64 (store64 m a v) b = load64 m b.
Proof. intros H. apply load_store_other. lia. Qed.

Lemma load8_store32 m a v b : b < a ∨ a + 4 ≤ b → load8 (store32 m a v) b = load8 m b.
Proof. intros H. apply load8_store. lia. Qed.

Lemma load32_ext m m' a : (∀ b, a ≤ b < a + 4 → load8 m' b = load8 m b) → load32 m' a = load32 m a.
Proof. intros H. apply load_ext. intros b Hb. apply H. lia. Qed.

Lemma load8_store_bytes m a l x :
  load8 (store_bytes m a l) x = if decide (a ≤ x < a + zlen l) then default 0 (l !! Z.to_nat (x - a)) else load8 m x.
Proof.
  revert m a. induction l as [|b l IH]; intros m a; cbn [store_bytes].
  - by rewrite decide_False by (change (zlen (@nil Z)) with 0; lia).
  - rewrite IH, zlen_cons, load8_store8. pose proof (zlen_nonneg l). repeat dec_if; try lia; [|subst; by rewrite Z.sub_diag].
    replace (Z.to_nat (x - a)) with (S (Z.to_nat (x - (a + 1)))) by lia. done.
Qed.

Lemma zlen_load_bytes m a n : 0 ≤ n → zlen (load_bytes m a n) = n.
Proof. intros H. unfold load_bytes, zlen. rewrite length_fmap, length_seqZ. lia. Qed.

Lemma lookup_load_bytes m a n i : 0 ≤ i < n → load_bytes m a n !! Z.to_nat i = Some (load8 m (a + i)).
Proof.
  intros H. unfold load_bytes. rewrite list_lookup_fmap, lookup_seqZ_lt by lia. cbn. by rewrite Z2Nat.id, Z.add_0_l by lia.
Qed.
