(* ===== verification/Bytes.v ===== *)
(** Little-endian integers in byte strings, as structures in files and on disk have them. [rd l off n] is the load of the
    [n]-byte field at [off] of an object whose bytes are [l]; a load that leaves the object is a fault. *)

From S2P Require Import Prelude.

(** ** Definitions *)

Fixpoint le_int (l : list Z) : Z :=
  match l with [] => 0 | b :: l => b + 2 ^ 8 * le_int l end.
Fixpoint le_bytes (n : nat) (z : Z) : list Z :=
  match n with O => [] | S n => u8 z :: le_bytes n (Z.shiftr z 8) end.

Definition le_at (l : list Z) (off n : Z) : Z := le_int (zslice l off n).

Definition rd (l : list Z) (off n : Z) : outcome Z :=
  if (0 <=? off) && (off + n <=? zlen l) then Ret (le_at l off n) else Fault.

(** ** Lemmas *)

Lemma zlen_le_bytes n z : zlen (le_bytes n z) = Z.of_nat n.
Proof. revert z. induction n as [|n IH]; intros z; [done|]. cbn [le_bytes]. rewrite zlen_cons, IH. lia. Qed.

Lemma bytes_le_bytes n z : bytes (le_bytes n z).
Proof. revert z. induction n as [|n IH]; intros z; constructor; [apply u8_range|apply IH]. Qed.

Lemma le_int_bytes n z : 0 ≤ z < 2 ^ (8 * Z.of_nat n) → le_int (le_bytes n z) = z.
Proof.
  revert z. induction n as [|n IH]; intros z Hz; cbn [le_bytes le_int]; [lia|].
  rewrite IH.
  - rewrite Z.shiftr_div_pow2 by lia. unfold u8. pose proof (Z.div_mod z (2 ^ 8)). lia.
  - rewrite Z.shiftr_div_pow2 by lia. split; [apply Z.div_pos; lia|]. apply Z.div_lt_upper_bound; [lia|].
    rewrite <-Z.pow_add_r by lia. replace (8 + 8 * Z.of_nat n) with (8 * Z.of_nat (S n)) by lia. apply Hz.
Qed.

Lemma le_int_range l : bytes l → 0 ≤ le_int l < 2 ^ (8 * zlen l).
Proof.
  induction 1 as [|b l Hb Hl IH]; [done|]. cbn [le_int]. rewrite zlen_cons.
  replace (8 * (1 + zlen l)) with (8 + 8 * zlen l) by lia. rewrite Z.pow_add_r by (pose proof (zlen_nonneg l); lia).
  unfold is_u8 in Hb. nia.
Qed.

Lemma bytes_zsplice l off x : bytes l → bytes x → bytes (zsplice l off x).
Proof. intros H Hx. apply Forall_app. split; [by apply Forall_take|]. apply Forall_app. split; [done|by apply Forall_drop]. Qed.

Lemma le_at_range l off n : bytes l → 0 ≤ off → 0 ≤ n → off + n ≤ zlen l → 0 ≤ le_at l off n < 2 ^ (8 * n).
Proof.
  intros H H1 H2 H3. unfold le_at. pose proof (le_int_range _ (bytes_zslice l off n H)) as Hr.
  by rewrite zlen_zslice in Hr.
Qed.

Lemma rd_in l off n : 0 ≤ off → off + n ≤ zlen l → rd l off n = Ret (le_at l off n).
Proof. intros H1 H2. unfold rd. destruct (Z.leb_spec 0 off), (Z.leb_spec (off + n) (zlen l)); done || lia. Qed.
