(* ===== verification/Heap.v ===== *)
(** The kernel heap, [kernel/memory/heap.c]: a first-fit allocator whose blocks
    tile a 2 MiB arena, each with a 16-byte header in the arena itself. The arena
    is byte-addressed memory; addresses are relative to the start of the arena,
    at which the kernel sees [g_arena]. *)

From S2P Require Import Prelude Kmath Memory.

(** ** Definitions *)

Definition HEAP_ARENA_SIZE : Z := 2 * 1024 * 1024.
Definition HEAP_ALIGN : Z := 16.
Definition HEAP_MAGIC : Z := 0x484E5848.
Definition sizeof_header : Z := 16.

(** The fields of the [struct block_header] at offset [b]. *)
Definition bh_size (m : mem) (b : Z) : Z := load32 m b.
Definition bh_free (m : mem) (b : Z) : Z := load32 m (b + 4).
Definition bh_magic (m : mem) (b : Z) : Z := load32 m (b + 8).
Definition set_size (m : mem) (b v : Z) : mem := store32 m b v.
Definition set_free (m : mem) (b v : Z) : mem := store32 m (b + 4) v.
Definition set_magic (m : mem) (b v : Z) : mem := store32 m (b + 8) v.
Definition set_pad (m : mem) (b v : Z) : mem := store32 m (b + 12) v.

Record heap := mk_heap {
  arena : mem;
  g_alloc_count : Z;
  g_free_count : Z;
  g_bytes_in_use : Z;
  g_high_water : Z
}.

Definition align_up (x a : Z) : Z := Z.land (u64 (x + u64 (a - 1))) (not64 (u64 (a - 1))).

Definition heap_init (h : heap) : heap :=
  let m := set_size (arena h) 0 HEAP_ARENA_SIZE in
  let m := set_free m 0 1 in
  let m := set_magic m 0 0 in
  let m := set_pad m 0 0 in
  mk_heap m 0 0 0 0.

Definition next_block (m : mem) (b : Z) : option Z :=
  let p := b + bh_size m b in
  if HEAP_ARENA_SIZE <=? p then None else Some p.

(** Blocks are at least 16 bytes, so there are never more than this. *)
Definition heap_fuel : nat := Z.to_nat 131072.

(** [while (n && n->free) { b->size += n->size; n = next_block(b); }] *)
Fixpoint absorb (fuel : nat) (m : mem) (b : Z) (n : option Z) : outcome mem :=
  match n with
  | None => Ret m
  | Some n =>
      if bh_free m n =? 0 then Ret m
      else
        match fuel with
        | O => Loop
        | S fuel =>
            let m := set_size m b (u32 (bh_size m b + bh_size m n)) in
            absorb fuel m b (next_block m b)
        end
  end.

Fixpoint coalesce_loop (fuel : nat) (m : mem) (b : option Z) : outcome mem :=
  match b with
  | None => Ret m
  | Some b =>
      match fuel with
      | O => Loop
      | S fuel' =>
          m ← (if bh_free m b =? 0 then Ret m else absorb heap_fuel m b (next_block m b));
          coalesce_loop fuel' m (next_block m b)
      end
  end.

Definition coalesce (m : mem) : outcome mem := coalesce_loop heap_fuel m (Some 0).

(** Split the free block [b] if the rest can hold a header and a minimal
    payload, then take it. *)
Definition take_block (h : heap) (b need : Z) : heap :=
  let m := arena h in
  let leftover := u64 (bh_size m b - need) in
  let m :=
    if sizeof_header + HEAP_ALIGN <=? leftover then
      let split := b + need in
      let m := set_size m split leftover in
      let m := set_free m split 1 in
      let m := set_magic m split 0 in
      let m := set_pad m split 0 in
      set_size m b need
    else m in
  let m := set_free m b 0 in
  let m := set_magic m b HEAP_MAGIC in
  let in_use := u64 (g_bytes_in_use h + bh_size m b) in
  mk_heap m (u64 (g_alloc_count h + 1)) (g_free_count h) in_use
    (if g_high_water h <? in_use then in_use else g_high_water h).

(** The search; running out of blocks is a panic. *)
Fixpoint kmalloc_loop (fuel : nat) (h : heap) (need : Z) (b : option Z) : outcome (heap * Z) :=
  match b with
  | None => Panic
  | Some b =>
      if negb (bh_free (arena h) b =? 0) && (need <=? bh_size (arena h) b) then
        Ret (take_block h b need, b + sizeof_header)
      else
        match fuel with
        | O => Loop
        | S fuel => kmalloc_loop fuel h need (next_block (arena h) b)
        end
  end.

Section Addresses.
(** The address of the arena; a pointer is an address, 0 is NULL. *)
Context (g_arena : Z).

Definition kmalloc (h : heap) (size : Z) : outcome (heap * Z) :=
  if size =? 0 then Ret (h, 0)
  else
    let need := align_up (u64 (sizeof_header + size)) HEAP_ALIGN in
    '(h, p) ← kmalloc_loop heap_fuel h need (Some 0);
    Ret (h, g_arena + p).

Definition zero_body (p i : Z) (m : mem) : outcome mem := Ret (store8 m (p + i) 0).

Definition kcalloc (h : heap) (count size : Z) : outcome (heap * Z) :=
  let total := u64 (count * size) in
  if negb (count =? 0) && negb (total / count =? size) then Ret (h, 0)
  else
    '(h, p) ← kmalloc h total;
    if p =? 0 then Ret (h, p)
    else
      m ← for_range 0 total (zero_body (p - g_arena)) (arena h);
      Ret (mk_heap m (g_alloc_count h) (g_free_count h) (g_bytes_in_use h) (g_high_water h), p).

Definition kfree (h : heap) (ptr : Z) : outcome heap :=
  if ptr =? 0 then Ret h
  else if (ptr <? g_arena + sizeof_header) || (g_arena + HEAP_ARENA_SIZE <=? ptr) then Ret h
  else
    let b := ptr - g_arena - sizeof_header in
    let m := arena h in
    if negb (bh_magic m b =? HEAP_MAGIC) then Ret h
    else
      let m := set_free m b 1 in
      let m := set_magic m b 0 in
      let in_use := if bh_size m b <=? g_bytes_in_use h then g_bytes_in_use h - bh_size m b
                    else g_bytes_in_use h in
      m ← coalesce m;
      Ret (mk_heap m (g_alloc_count h) (u64 (g_free_count h + 1)) in_use (g_high_water h)).

End Addresses.

(** The counters [heap_dump_stats] computes: free bytes and largest free block. *)
Fixpoint stats_loop (fuel : nat) (m : mem) (b : option Z) (free_bytes largest : Z) : outcome (Z * Z) :=
  match b with
  | None => Ret (free_bytes, largest)
  | Some b =>
      match fuel with
      | O => Loop
      | S fuel =>
          if bh_free m b =? 0 then stats_loop fuel m (next_block m b) free_bytes largest
          else stats_loop fuel m (next_block m b) (u64 (free_bytes + bh_size m b))
                 (if largest <? bh_size m b then bh_size m b else largest)
      end
  end.

Definition heap_dump_stats (h : heap) : outcome (Z * Z) := stats_loop heap_fuel (arena h) (Some 0) 0 0.

(** ** Specification *)

(** The arena as a list of blocks, in address order: size and whether free. *)
Definition tot (l : list (Z * bool)) : Z := foldr (λ b acc, b.1 + acc) 0 l.

(** The bytes of the blocks in use. *)
Definition used_total (l : list (Z * bool)) : Z :=
  foldr (λ b acc, (if b.2 : bool then 0 else b.1) + acc) 0 l.

Definition hdr_ok (m : mem) (b sz : Z) (fr : bool) : Prop :=
  bh_size m b = sz ∧ bh_free m b = b2z fr ∧ bh_magic m b = (if fr then 0 else HEAP_MAGIC) ∧
  32 ≤ sz ∧ sz mod 16 = 0.

(** From [b] to [e] the arena is tiled by the blocks [l]. *)
Fixpoint seg (m : mem) (b : Z) (l : list (Z * bool)) (e : Z) : Prop :=
  match l with
  | [] => b = e
  | (sz, fr) :: l => hdr_ok m b sz fr ∧ seg m (b + sz) l e
  end.

Definition heap_inv (h : heap) (l : list (Z * bool)) : Prop :=
  seg (arena h) 0 l HEAP_ARENA_SIZE ∧ g_bytes_in_use h = used_total l.

(** The first free block that is large enough, with what is before and after. *)
Fixpoint first_fit (need : Z) (l : list (Z * bool)) : option (list (Z * bool) * Z * list (Z * bool)) :=
  match l with
  | [] => None
  | (sz, fr) :: l =>
      if fr && (need <=? sz) then Some ([], sz, l)
      else match first_fit need l with
           | Some (l1, sz', l2) => Some ((sz, fr) :: l1, sz', l2)
           | None => None
           end
  end.

(** What becomes of a free block of size [sz] of which [need] bytes are taken. *)
Definition alloc_block (need sz : Z) : list (Z * bool) :=
  if 32 <=? sz - need then [(need, false); (sz - need, true)] else [(sz, false)].

(** Adjacent free blocks merged. *)
Fixpoint merge (l : list (Z * bool)) : list (Z * bool) :=
  match l with
  | [] => []
  | (sz, fr) :: l =>
      if fr : bool then
        match merge l with
        | (sz', true) :: r => (sz + sz', true) :: r
        | r => (sz, true) :: r
        end
      else (sz, false) :: merge l
  end.

(** The address lies in a block in use; the tiling starts at [b]. *)
Fixpoint in_use (b : Z) (l : list (Z * bool)) (a : Z) : Prop :=
  match l with
  | [] => False
  | (sz, fr) :: l => (fr = false ∧ b ≤ a < b + sz) ∨ in_use (b + sz) l a
  end.

(** ** Headers *)

#[local] Hint Rewrite load32_store32 using (unfold is_u32; lia) : hdr.
#[local] Hint Rewrite load32_store32_ne using lia : hdr.
#[local] Hint Rewrite load8_store32 using lia : hdr.

Ltac hdr_simpl :=
  unfold bh_size, bh_free, bh_magic, set_size, set_free, set_magic, set_pad in *; autorewrite with hdr.

Lemma hdr_frame m m' b sz fr :
  (∀ a, b ≤ a < b + 16 → load8 m' a = load8 m a) → hdr_ok m b sz fr → hdr_ok m' b sz fr.
Proof.
  intros H. unfold hdr_ok, bh_size, bh_free, bh_magic.
  rewrite !(load32_ext m m') by (intros; apply H; lia). done.
Qed.

Lemma seg_frame m m' b l e :
  (∀ a, b ≤ a < e → load8 m' a = load8 m a) → seg m b l e → seg m' b l e.
Proof.
  revert b. induction l as [|[sz fr] l IH]; intros b H; cbn [seg]; [done|].
  intros [Hh Hs]. assert (b + sz ≤ e) as Hle.
  { clear -Hs. revert b sz Hs. induction l as [|[s f] l IH]; intros b sz Hs; cbn in Hs; [lia|].
    destruct Hs as [(_ & _ & _ & H & _) Hs]. specialize (IH _ _ Hs). lia. }
  split; [apply (hdr_frame m); [|done]; intros a Ha; apply H; destruct Hh as (_ & _ & _ & ? & _); lia|].
  apply IH; [|done]. intros a Ha. apply H. destruct Hh as (_ & _ & _ & ? & _). lia.
Qed.

Lemma seg_app m b l1 l2 e :
  seg m b (l1 ++ l2) e ↔ seg m b l1 (b + tot l1) ∧ seg m (b + tot l1) l2 e.
Proof.
  revert b. induction l1 as [|[sz fr] l1 IH]; intros b; cbn [app seg tot foldr fst].
  - rewrite Z.add_0_r. tauto.
  - fold (tot l1). rewrite IH. rewrite !Z.add_assoc. tauto.
Qed.

Lemma seg_end m b l e : seg m b l e → e = b + tot l ∧ 32 * zlen l ≤ tot l.
Proof.
  revert b. induction l as [|[sz fr] l IH]; intros b Hs; cbn [seg tot foldr fst] in *.
  - change (zlen (@nil (Z * bool))) with 0. lia.
  - fold (tot l). destruct Hs as [(_ & _ & _ & H & _) Hs]. destruct (IH _ Hs) as [-> Hl].
    rewrite zlen_cons. lia.
Qed.

Lemma tot_app l1 l2 : tot (l1 ++ l2) = tot l1 + tot l2.
Proof. induction l1 as [|[sz fr] l1 IH]; cbn [app tot foldr fst]; [done|]. fold (tot (l1 ++ l2)) (tot l1). lia. Qed.

Lemma used_total_app l1 l2 : used_total (l1 ++ l2) = used_total l1 + used_total l2.
Proof.
  induction l1 as [|[sz fr] l1 IH]; cbn [app used_total foldr fst snd]; [done|].
  fold (used_total (l1 ++ l2)) (used_total l1). lia.
Qed.

Lemma used_total_range m b l e : seg m b l e → 0 ≤ used_total l ≤ tot l.
Proof.
  revert b. induction l as [|[sz fr] l IH]; intros b Hs; cbn [seg tot used_total foldr fst snd] in *; [lia|].
  fold (tot l) (used_total l). destruct Hs as [(_ & _ & _ & H & _) Hs]. specialize (IH _ Hs).
  destruct fr; lia.
Qed.

(** The pointer to the block at offset [o]; NULL at the end of the arena. *)
Definition at_block (o : Z) : option Z := if HEAP_ARENA_SIZE <=? o then None else Some o.

Lemma next_block_at m b sz fr : hdr_ok m b sz fr → next_block m b = at_block (b + sz).
Proof. intros (H & _). unfold next_block, at_block. by rewrite H. Qed.

Lemma at_block_seg m o sz fr l : seg m o ((sz, fr) :: l) HEAP_ARENA_SIZE → at_block o = Some o.
Proof.
  intros Hs. destruct (seg_end _ _ _ _ Hs) as [E Hl]. rewrite zlen_cons in Hl. pose proof (zlen_nonneg l).
  unfold at_block. destruct (Z.leb_spec HEAP_ARENA_SIZE o); [lia|done].
Qed.

Lemma at_block_end : at_block HEAP_ARENA_SIZE = None.
Proof. done. Qed.

(** ** Allocation *)

Lemma kmalloc_loop_spec fuel h need o l :
  seg (arena h) o l HEAP_ARENA_SIZE → (length l ≤ fuel)%nat →
  kmalloc_loop fuel h need (at_block o) =
  match first_fit need l with
  | Some (l1, _, _) => Ret (take_block h (o + tot l1) need, o + tot l1 + sizeof_header)
  | None => Panic
  end.
Proof.
  revert fuel o. induction l as [|[sz fr] l IH]; intros fuel o Hs Hf.
  - cbn in Hs. subst. by destruct fuel.
  - destruct fuel as [|fuel]; [cbn in Hf; lia|]. rewrite (at_block_seg _ _ _ _ _ Hs).
    cbn [kmalloc_loop first_fit]. pose proof Hs as [Hh Hs']. pose proof Hh as (E1 & E2 & _ & _).
    rewrite E1, E2. destruct fr; cbn [b2z Z.eqb negb andb].
    + destruct (need <=? sz).
      * cbn [tot foldr]. by rewrite Z.add_0_r.
      * rewrite (next_block_at _ _ _ _ Hh), IH by (done || cbn in Hf; lia).
        destruct (first_fit need l) as [[[l1 sz'] l2]|]; [|done]. cbn [tot foldr fst]. fold (tot l1).
        by rewrite Z.add_assoc.
    + rewrite (next_block_at _ _ _ _ Hh), IH by (done || cbn in Hf; lia).
      destruct (first_fit need l) as [[[l1 sz'] l2]|]; [|done]. cbn [tot foldr fst]. fold (tot l1).
      by rewrite Z.add_assoc.
Qed.

Lemma first_fit_Some need l l1 sz l2 :
  first_fit need l = Some (l1, sz, l2) →
  l = l1 ++ (sz, true) :: l2 ∧ need ≤ sz ∧ Forall (λ b, b.2 = true → b.1 < need) l1.
Proof.
  revert l1. induction l as [|[s f] l IH]; intros l1 H; cbn [first_fit] in H; [discriminate|].
  destruct (f && (need <=? s)) eqn:E.
  - injection H as <- <- <-. apply andb_true_iff in E as [-> E]. apply Z.leb_le in E. done.
  - destruct (first_fit need l) as [[[l1' s'] l2']|]; [|discriminate]. injection H as <- <- <-.
    destruct (IH l1' eq_refl) as (-> & Hle & HF). split; [done|]. split; [done|]. constructor; [|done].
    cbn. intros ->. cbn in E. apply Z.leb_gt in E. lia.
Qed.

Lemma take_block_spec h l1 sz l2 need :
  heap_inv h (l1 ++ (sz, true) :: l2) → 32 ≤ need ≤ sz → need mod 16 = 0 →
  let h' := take_block h (tot l1) need in
  heap_inv h' (l1 ++ alloc_block need sz ++ l2) ∧
  ∀ a, 0 ≤ a < HEAP_ARENA_SIZE → a < tot l1 ∨ tot l1 + sz ≤ a → load8 (arena h') a = load8 (arena h) a.
Proof.
  intros [Hs Hu] Hneed Hmod h'. pose proof (seg_end _ _ _ _ Hs) as [Hend _].
  assert (0 ≤ used_total (l1 ++ (sz, true) :: l2) ≤ HEAP_ARENA_SIZE) as Hur
    by (pose proof (used_total_range _ _ _ _ Hs); lia).
  rewrite tot_app in Hend. cbn [tot foldr fst] in Hend. fold (tot l2) in Hend. rewrite Z.add_0_l in Hend.
  apply seg_app in Hs as [Hs1 Hs2]. rewrite Z.add_0_l in *. destruct Hs2 as [Hh Hs2].
  pose proof (seg_end _ _ _ _ Hs1) as [_ Ht1]. pose proof (seg_end _ _ _ _ Hs2) as [_ Ht2].
  pose proof (zlen_nonneg l1). pose proof (zlen_nonneg l2). unfold HEAP_ARENA_SIZE in *.
  pose proof Hh as (E1 & E2 & E3 & E4 & E5). set (o := tot l1) in *.
  assert (∀ a, a < o ∨ o + sz ≤ a → load8 (arena h') a = load8 (arena h) a) as Hframe.
  { intros a Ha. unfold h', take_block. cbn [arena]. rewrite E1, u64_small by lia.
    unfold sizeof_header, HEAP_ALIGN. destruct (Z.leb_spec (16 + 16) (sz - need)); hdr_simpl; done. }
  assert (seg (arena h') o (alloc_block need sz) (o + sz)) as Hblk.
  { unfold h', take_block, alloc_block. cbn [arena]. rewrite E1, u64_small by lia.
    unfold sizeof_header, HEAP_ALIGN. change (16 + 16) with 32.
    destruct (Z.leb_spec 32 (sz - need)); cbn [seg].
    - unfold hdr_ok, HEAP_MAGIC. hdr_simpl. cbn [b2z].
      assert ((sz - need) mod 16 = 0) by zlia. split; [repeat split; lia|]. split; [repeat split; lia|]. lia.
    - unfold hdr_ok, HEAP_MAGIC. hdr_simpl. rewrite E1. cbn [b2z]. split; [repeat split; lia|]. done. }
  split; [|intros a _; apply Hframe]. split.
  - apply seg_app. rewrite Z.add_0_l. fold o. split; [apply (seg_frame (arena h)); [|done]; intros a Ha; apply Hframe; lia|].
    apply seg_app. assert (tot (alloc_block need sz) = sz) as ->.
    { unfold alloc_block. destruct (32 <=? sz - need); cbn; lia. }
    split; [done|]. apply (seg_frame (arena h)); [|done]. intros a Ha. apply Hframe. lia.
  - assert (g_bytes_in_use h' = u64 (g_bytes_in_use h + used_total (alloc_block need sz))) as ->.
    { unfold h', take_block, alloc_block. cbn [g_bytes_in_use]. f_equal. f_equal.
      rewrite E1, u64_small by lia. unfold sizeof_header, HEAP_ALIGN. change (16 + 16) with 32.
      destruct (Z.leb_spec 32 (sz - need)); hdr_simpl; rewrite ?E1; cbn; lia. }
    rewrite Hu, !used_total_app in *. cbn [used_total foldr fst snd] in *. fold (used_total l2) in *.
    assert (0 ≤ used_total (alloc_block need sz) ≤ sz) by
      (unfold alloc_block; destruct (32 <=? sz - need); cbn; lia).
    rewrite u64_small; lia.
Qed.

(** ** Coalescing *)

(** Absorb the free blocks that follow, left to right. *)
Fixpoint merge_from (s : Z) (l : list (Z * bool)) : Z * list (Z * bool) :=
  match l with
  | (s', true) :: l => merge_from (s + s') l
  | _ => (s, l)
  end.

Lemma merge_from_add s d l : merge_from (s + d) l = ((merge_from s l).1 + d, (merge_from s l).2).
Proof.
  revert s. induction l as [|[s' f] l IH]; intros s; cbn; [done|]. destruct f; [|done].
  replace (s + d + s') with (s + s' + d) by lia. apply IH.
Qed.

Lemma merge_free s l : merge ((s, true) :: l) = ((merge_from s l).1, true) :: merge (merge_from s l).2.
Proof.
  revert s. induction l as [|[s' f] l IH]; intros s; [done|]. destruct f; [|done].
  change (merge ((s, true) :: (s', true) :: l)) with
    (match merge ((s', true) :: l) with (x, true) :: r => (s + x, true) :: r | r => (s, true) :: r end).
  rewrite IH. cbn [merge_from]. rewrite (Z.add_comm s s'), merge_from_add. cbn. do 2 f_equal. lia.
Qed.

Lemma merge_from_length s l : (length (merge_from s l).2 ≤ length l)%nat.
Proof. revert s. induction l as [|[s' f] l IH]; intros s; cbn; [done|]. destruct f; cbn; [|done]. specialize (IH (s + s')). lia. Qed.

Lemma absorb_spec fuel m b s l :
  0 ≤ b → hdr_ok m b s true → seg m (b + s) l HEAP_ARENA_SIZE → (length l ≤ fuel)%nat →
  ∃ m', absorb fuel m b (at_block (b + s)) = Ret m' ∧
    hdr_ok m' b (merge_from s l).1 true ∧
    seg m' (b + (merge_from s l).1) (merge_from s l).2 HEAP_ARENA_SIZE ∧
    ∀ a, a < b ∨ b + 4 ≤ a → load8 m' a = load8 m a.
Proof.
  intros Hb. revert fuel m s. induction l as [|[s' f] l IH]; intros fuel m s Hh Hs Hf.
  - cbn in Hs. rewrite Hs, at_block_end. exists m. split; [by destruct fuel|]. cbn. auto.
  - rewrite (at_block_seg _ _ _ _ _ Hs). pose proof Hs as [Hh' Hs']. pose proof Hh' as (F1 & F2 & F3 & F4 & F5).
    pose proof Hh as (E1 & E2 & E3 & E4 & E5).
    destruct fuel as [|fuel]; [cbn in Hf; lia|]. cbn [absorb merge_from]. rewrite F2.
    destruct f; cbn [b2z Z.eqb].
    2: { exists m. split; [done|]. auto. }
    pose proof (seg_end _ _ _ _ Hs) as [Hend Hl]. cbn [tot foldr fst] in Hend, Hl. fold (tot l) in Hend, Hl.
    pose proof (seg_end _ _ _ _ Hs') as [_ Hl']. pose proof (zlen_nonneg l). unfold HEAP_ARENA_SIZE in *.
    rewrite E1, F1. rewrite (u32_small (s + s')) by lia. set (m1 := set_size m b (s + s')).
    assert (∀ a, a < b ∨ b + 4 ≤ a → load8 m1 a = load8 m a) as Hfr.
    { intros a Ha. unfold m1, set_size. by rewrite load8_store32 by lia. }
    assert (hdr_ok m1 b (s + s') true) as Hh1.
    { unfold hdr_ok, m1. hdr_simpl. assert ((s + s') mod 16 = 0) by zlia.
      split; [done|]. split; [done|]. split; [done|]. split; [lia|done]. }
    rewrite (next_block_at _ _ _ _ Hh1).
    destruct (IH fuel m1 (s + s') Hh1) as (m2 & E & H1 & H2 & H3).
    + rewrite Z.add_assoc. apply (seg_frame m); [|done]. intros a Ha. apply Hfr. lia.
    + cbn in Hf. lia.
    + exists m2. split; [done|]. split; [done|]. split; [done|]. intros a Ha. rewrite H3 by done. by apply Hfr.
Qed.

Lemma in_use_ge m b l e a : seg m b l e → in_use b l a → b ≤ a.
Proof.
  revert b. induction l as [|[s f] l IH]; intros b Hs Ha; cbn in *; [done|].
  destruct Hs as [(_ & _ & _ & H & _) Hs]. destruct Ha as [[_ Ha]|Ha]; [lia|]. specialize (IH _ Hs Ha). lia.
Qed.

Lemma in_use_lt m b l e a : seg m b l e → in_use b l a → a < e.
Proof.
  revert b. induction l as [|[s f] l IH]; intros b Hs Ha; cbn in *; [done|].
  destruct Hs as [(_ & _ & _ & H & _) Hs]. pose proof (seg_end _ _ _ _ Hs) as [He Htl]. pose proof (zlen_nonneg l).
  destruct Ha as [[_ Ha]|Ha]; [lia|]. by apply (IH _ Hs).
Qed.

Lemma in_use_merge_from b s l a : in_use (b + s) l a → in_use (b + (merge_from s l).1) (merge_from s l).2 a.
Proof.
  revert s. induction l as [|[s' f] l IH]; intros s Ha; cbn [merge_from]; [done|]. destruct f; [|done].
  apply IH. cbn in Ha. destruct Ha as [[H _]|Ha]; [done|]. by rewrite Z.add_assoc.
Qed.

Lemma coalesce_loop_spec fuel m o l :
  0 ≤ o → seg m o l HEAP_ARENA_SIZE → (length l ≤ fuel)%nat → (length l ≤ heap_fuel)%nat →
  ∃ m', coalesce_loop fuel m (at_block o) = Ret m' ∧ seg m' o (merge l) HEAP_ARENA_SIZE ∧
    (∀ a, a < o ∨ in_use o l a → load8 m' a = load8 m a).
Proof.
  revert m o l. induction fuel as [|fuel IH]; intros m o l Ho Hs Hf Hhf.
  { destruct l; [|cbn in Hf; lia]. cbn in Hs. subst. exists m. done. }
  destruct l as [|[s f] l].
  { cbn in Hs. subst. exists m. split; [done|]. done. }
  rewrite (at_block_seg _ _ _ _ _ Hs). cbn [coalesce_loop]. pose proof Hs as [Hh Hs'].
  pose proof Hh as (E1 & E2 & E3 & E4 & E5). rewrite E2. rewrite (next_block_at _ _ _ _ Hh).
  destruct f; cbn [b2z Z.eqb].
  - destruct (absorb_spec heap_fuel m o s l Ho Hh Hs') as (m1 & -> & H1 & H2 & H3); [cbn in Hhf; lia|].
    cbn [mbind outcome_bind]. rewrite (next_block_at _ _ _ _ H1).
    pose proof (merge_from_length s l) as Hml. rewrite merge_free.
    assert (32 ≤ (merge_from s l).1) as Hpos by apply H1.
    destruct (IH m1 (o + (merge_from s l).1) (merge_from s l).2) as (m2 & E & H4 & H5);
      [lia|done|cbn in Hf; lia|cbn in Hhf; lia|].
    exists m2. split; [done|]. split.
    + split; [|done]. apply (hdr_frame m1); [|done]. intros a Ha. apply H5. lia.
    + intros a Ha. rewrite H5.
      * apply H3. destruct Ha as [Ha|Ha]; [lia|]. destruct Ha as [[? _]|Ha]; [done|].
        pose proof (in_use_ge _ _ _ _ _ Hs' Ha). lia.
      * destruct Ha as [Ha|Ha]; [lia|]. destruct Ha as [[? _]|Ha]; [done|]. right. by apply in_use_merge_from.
  - cbn [mbind outcome_bind]. rewrite (next_block_at _ _ _ _ Hh). cbn [merge].
    destruct (IH m (o + s) l) as (m2 & E & H4 & H5); [lia|done|cbn in Hf; lia|cbn in Hhf; lia|].
    exists m2. split; [done|]. split.
    + split; [|done]. apply (hdr_frame m); [|done]. intros a Ha. apply H5. lia.
    + intros a Ha. apply H5. destruct Ha as [Ha|[[_ Ha]|Ha]]; [lia|lia|by right].
Qed.

Lemma seg_length m l : seg m 0 l HEAP_ARENA_SIZE → (length l ≤ heap_fuel)%nat.
Proof.
  intros Hs. destruct (seg_end _ _ _ _ Hs) as [E Hl]. unfold HEAP_ARENA_SIZE, heap_fuel, zlen in *. lia.
Qed.

Lemma coalesce_spec m l :
  seg m 0 l HEAP_ARENA_SIZE →
  ∃ m', coalesce m = Ret m' ∧ seg m' 0 (merge l) HEAP_ARENA_SIZE ∧
    (∀ a, in_use 0 l a → load8 m' a = load8 m a).
Proof.
  intros Hs. pose proof (seg_length _ _ Hs) as Hl.
  destruct (coalesce_loop_spec heap_fuel m 0 l) as (m' & E & H1 & H2); [lia|done|done|done|].
  exists m'. split; [exact E|]. split; [done|]. intros a Ha. apply H2. by right.
Qed.

Lemma used_total_merge l : used_total (merge l) = used_total l.
Proof.
  induction l as [|[s f] l IH]; [done|]. cbn [merge]. destruct f.
  - cbn [used_total foldr fst snd]. fold (used_total l). rewrite <-IH.
    unfold used_total. destruct (merge l) as [|[s' [|]] r]; cbn [foldr fst snd]; lia.
  - cbn [used_total foldr fst snd]. fold (used_total l) (used_total (merge l)). by rewrite IH.
Qed.

(** No two neighbours of the merged list are both free. *)
Fixpoint no_adjacent_free (l : list (Z * bool)) : bool :=
  match l with
  | (_, true) :: ((_, true) :: _) => false
  | _ :: l => no_adjacent_free l
  | [] => true
  end.

Lemma merge_no_adjacent l : no_adjacent_free (merge l) = true.
Proof.
  induction l as [|[s f] l IH]; [done|]. cbn [merge]. destruct f.
  - destruct (merge l) as [|[s' [|]] r]; done.
  - by destruct (merge l).
Qed.

Lemma in_use_app l1 s l2 b a :
  in_use b (l1 ++ (s, true) :: l2) a ↔ in_use b l1 a ∨ in_use (b + tot l1 + s) l2 a.
Proof.
  revert b. induction l1 as [|[s' f] l1 IH]; intros b; cbn [app in_use tot foldr fst].
  - rewrite Z.add_0_r. split; [intros [[? _]|?]; [done|by right]|intros [[]|?]; by right].
  - fold (tot l1). rewrite IH, !Z.add_assoc. tauto.
Qed.

(** ** The allocator's interface *)

Lemma align_up_16 size :
  0 < size ≤ 2 ^ 64 - 32 →
  align_up (u64 (sizeof_header + size)) HEAP_ALIGN = 16 * ((size + 31) / 16).
Proof.
  intros Hs. unfold sizeof_header, HEAP_ALIGN. rewrite (u64_small (16 + size)) by lia.
  change (align_up (16 + size) 16) with (align_up_u64 (16 + size) (2 ^ 4)).
  rewrite align_up_u64_spec by (unfold is_u64; lia). change (2 ^ 4) with 16. do 2 f_equal. lia.
Qed.

Section Claims.
Context (g_arena : Z) (Hbase : 0 < g_arena).

Lemma kmalloc_spec h l size :
  heap_inv h l → 0 < size ≤ 2 ^ 64 - 32 →
  let need := 16 * ((size + 31) / 16) in
  match first_fit need l with
  | None => kmalloc g_arena h size = Panic
  | Some (l1, sz, l2) =>
      ∃ h', kmalloc g_arena h size = Ret (h', g_arena + (tot l1 + 16)) ∧
        heap_inv h' (l1 ++ alloc_block need sz ++ l2) ∧
        size ≤ (if 32 <=? sz - need then need else sz) - 16 ∧
        ∀ a, in_use 0 l a → load8 (arena h') a = load8 (arena h) a
  end.
Proof.
  intros Hinv Hs need. pose proof Hinv as [Hseg _]. unfold kmalloc.
  rewrite (proj2 (Z.eqb_neq size 0)) by lia. rewrite align_up_16 by done. fold need.
  change (Some 0) with (at_block 0). rewrite (kmalloc_loop_spec heap_fuel h need 0 l Hseg) by (by apply (seg_length (arena h))).
  assert (32 ≤ need ∧ need mod 16 = 0 ∧ size + 16 ≤ need) as (Hn & Hm & Hfit) by (unfold need; zlia).
  destruct (first_fit need l) as [[[l1 sz] l2]|] eqn:Hff; [|done].
  apply first_fit_Some in Hff as (-> & Hle & _). cbn [mbind outcome_bind].
  destruct (take_block_spec h l1 sz l2 need Hinv) as [Hinv' Hfr]; [lia|done|]. rewrite Z.add_0_l.
  eexists. split; [done|]. split; [done|]. split; [destruct (32 <=? sz - need); lia|].
  intros a Ha. apply in_use_app in Ha. apply seg_app in Hseg as [Hs1 Hs2]. destruct Hs2 as [(_ & _ & _ & Hsz & _) Hs2].
  pose proof (seg_end _ _ _ _ Hs1) as [_ Ht1]. pose proof (seg_end _ _ _ _ Hs2) as [Hend _].
  pose proof (zlen_nonneg l1).
  rewrite !Z.add_0_l in *. apply Hfr; destruct Ha as [Ha|Ha].
  - pose proof (in_use_ge _ _ _ _ _ Hs1 Ha). pose proof (in_use_lt _ _ _ _ _ Hs1 Ha).
    pose proof (seg_end _ _ _ _ Hs2) as [? Ht2]. pose proof (zlen_nonneg l2). lia.
  - pose proof (in_use_ge _ _ _ _ _ Hs2 Ha). pose proof (in_use_lt _ _ _ _ _ Hs2 Ha). lia.
  - left. by apply (in_use_lt _ _ _ _ _ Hs1).
  - right. apply (in_use_ge _ _ _ _ _ Hs2 Ha).
Qed.

Lemma kfree_spec h l1 sz l2 :
  heap_inv h (l1 ++ (sz, false) :: l2) →
  ∃ h', kfree g_arena h (g_arena + (tot l1 + 16)) = Ret h' ∧
    heap_inv h' (merge (l1 ++ (sz, true) :: l2)) ∧
    ∀ a, in_use 0 (l1 ++ (sz, true) :: l2) a → load8 (arena h') a = load8 (arena h) a.
Proof.
  intros [Hs Hu]. pose proof (seg_end _ _ _ _ Hs) as [Hend _].
  pose proof (used_total_range _ _ _ _ Hs) as Hur.
  apply seg_app in Hs as [Hs1 Hs2]. rewrite Z.add_0_l in *. destruct Hs2 as [Hh Hs2].
  pose proof (seg_end _ _ _ _ Hs1) as [_ Ht1]. pose proof (seg_end _ _ _ _ Hs2) as [_ Ht2].
  pose proof (zlen_nonneg l1). pose proof (zlen_nonneg l2). pose proof Hh as (E1 & E2 & E3 & E4 & E5).
  rewrite tot_app in Hend. cbn [tot foldr fst] in Hend. fold (tot l2) in Hend.
  unfold kfree. rewrite (proj2 (Z.eqb_neq _ 0)) by lia.
  destruct (Z.ltb_spec (g_arena + (tot l1 + 16)) (g_arena + sizeof_header)); [unfold sizeof_header in *; lia|].
  destruct (Z.leb_spec (g_arena + HEAP_ARENA_SIZE) (g_arena + (tot l1 + 16))); [lia|]. cbn [orb].
  replace (g_arena + (tot l1 + 16) - g_arena - sizeof_header) with (tot l1) by (unfold sizeof_header; lia).
  rewrite E3, Z.eqb_refl. cbn [negb]. set (o := tot l1) in *.
  set (m1 := set_magic (set_free (arena h) o 1) o 0).
  assert (∀ a, a < o ∨ o + 12 ≤ a → load8 m1 a = load8 (arena h) a) as Hfr.
  { intros a Ha. unfold m1. hdr_simpl. done. }
  assert (seg m1 0 (l1 ++ (sz, true) :: l2) HEAP_ARENA_SIZE) as Hs'.
  { apply seg_app. rewrite Z.add_0_l. fold o. split; [apply (seg_frame (arena h)); [|done]; intros; apply Hfr; lia|].
    split; [|apply (seg_frame (arena h)); [|done]; intros; apply Hfr; lia].
    unfold hdr_ok, m1. hdr_simpl. cbn [b2z]. done. }
  assert (bh_size m1 o = sz) as -> by (apply seg_app in Hs' as [_ [(? & _) _]]; done).
  destruct (coalesce_spec m1 _ Hs') as (m2 & -> & Hs2' & Hfr2). cbn [mbind outcome_bind].
  eexists. split; [done|]. split; [split; cbn [arena g_bytes_in_use]; [done|]|].
  - rewrite used_total_merge, Hu. rewrite !used_total_app in *. cbn [used_total foldr fst snd] in *.
    fold (used_total l2) in *.
    pose proof (used_total_range _ _ _ _ Hs1). pose proof (used_total_range _ _ _ _ Hs2).
    destruct (Z.leb_spec sz (used_total l1 + (sz + used_total l2))); lia.
  - intros a Ha. cbn [arena]. rewrite Hfr2 by done. apply Hfr. apply in_use_app in Ha as [Ha|Ha].
    + left. by apply (in_use_lt _ _ _ _ _ Hs1).
    + right. rewrite Z.add_0_l in Ha. pose proof (in_use_ge _ _ _ _ _ Hs2 Ha). lia.
Qed.

(** Writing inside the payload of a block keeps the tiling. *)
Lemma payload_write h l1 sz fr l2 m' :
  heap_inv h (l1 ++ (sz, fr) :: l2) →
  (∀ a, a < tot l1 + 16 ∨ tot l1 + sz ≤ a → load8 m' a = load8 (arena h) a) →
  heap_inv (mk_heap m' (g_alloc_count h) (g_free_count h) (g_bytes_in_use h) (g_high_water h))
           (l1 ++ (sz, fr) :: l2).
Proof.
  intros [Hs Hu] Hm. split; [|done]. cbn [arena]. apply seg_app in Hs as [Hs1 Hs2]. rewrite Z.add_0_l in *.
  destruct Hs2 as [Hh Hs2]. apply seg_app. rewrite Z.add_0_l.
  split; [apply (seg_frame (arena h)); [|done]; intros; apply Hm; lia|].
  split; [apply (hdr_frame (arena h)); [|done]; intros; apply Hm; lia|].
  apply (seg_frame (arena h)); [|done]. intros; apply Hm; lia.
Qed.

Lemma zero_loop p n m :
  0 ≤ n → ∃ m', for_range 0 n (zero_body p) m = Ret m' ∧
    ∀ a, load8 m' a = if decide (p ≤ a < p + n) then 0 else load8 m a.
Proof.
  intros Hn. destruct (for_range_inv (λ i m', ∀ a, load8 m' a = if decide (p ≤ a < p + i) then 0 else load8 m a)
    (zero_body p) 0 n m) as (m' & E & H); [done| | |eauto].
  - intros i m1 Hi H1. eexists. split; [reflexivity|]. intros a. rewrite load8_store8, H1.
    repeat dec_if; done || lia.
  - intros a. by rewrite decide_False by lia.
Qed.

Lemma first_fit_alloc need l l1 sz l2 :
  first_fit need l = Some (l1, sz, l2) →
  ∃ s r, l1 ++ alloc_block need sz ++ l2 = l1 ++ (s, false) :: r ∧ s = (if 32 <=? sz - need then need else sz).
Proof. intros _. unfold alloc_block. destruct (32 <=? sz - need); eexists _, _; done. Qed.

(** Its check finds every product that overflows. *)
Lemma kcalloc_overflow h count size :
  0 ≤ count < 2 ^ 64 → 0 ≤ size < 2 ^ 64 → 2 ^ 64 ≤ count * size → kcalloc g_arena h count size = Ret (h, 0).
Proof.
  intros Hc Hz Ho. unfold kcalloc. pose proof (u64_range (count * size)) as Hu. unfold is_u64 in Hu. set (t := u64 (count * size)) in *. assert (count ≠ 0) as Hc0 by (intros ->; lia).
  rewrite (proj2 (Z.eqb_neq count 0)) by done. destruct (Z.eqb_spec (t / count) size) as [E|_]; [|done].
  pose proof (Z.mul_div_le t count ltac:(lia)). rewrite E in *. lia.
Qed.

(** [kcalloc] gives zeroed memory, or NULL when [count * size] overflows. *)
Lemma kcalloc_spec h l count size h' p :
  heap_inv h l → 0 ≤ count < 2 ^ 64 → 0 ≤ size < 2 ^ 64 → count * size ≤ 2 ^ 64 - 32 →
  kcalloc g_arena h count size = Ret (h', p) →
  (∃ l', heap_inv h' l') ∧
  ∀ i, p ≠ 0 → 0 ≤ i < count * size → load8 (arena h') (p - g_arena + i) = 0.
Proof.
  intros Hinv Hc Hz Hp. assert (0 ≤ count * size) by (apply Z.mul_nonneg_nonneg; lia).
  unfold kcalloc. rewrite (u64_small (count * size)) by lia.
  destruct (negb (count =? 0) && negb (count * size / count =? size)) eqn:Hov; [intros [= <- <-]; split; [by exists l|done]|].
  intros H'. apply bind_Ret_inv in H' as ([h1 q] & Hk & H').
  destruct (decide (count * size = 0)) as [E0|Hpos].
  { unfold kmalloc in Hk. rewrite E0 in Hk. injection Hk as <- <-. cbn in H'. injection H' as <- <-. split; [by exists l|done]. }
  pose proof (kmalloc_spec h l (count * size) Hinv ltac:(lia)) as Hspec. cbv zeta in Hspec.
  destruct (first_fit _ l) as [[[l1 sz] l2]|] eqn:Hff; [|congruence].
  destruct Hspec as (h2 & E & Hinv' & Hfit & _). rewrite E in Hk. injection Hk as <- <-.
  destruct (Z.eqb_spec (g_arena + (tot l1 + 16)) 0) as [|Hq]; [injection H' as <- <-; split; [by eexists|done]|].
  apply bind_Ret_inv in H' as (m' & Hm & [= <- <-]). cbn [arena].
  destruct (zero_loop (g_arena + (tot l1 + 16) - g_arena) (count * size) (arena h2)) as (m2 & E2 & Hz2); [lia|].
  rewrite E2 in Hm. injection Hm as <-. split.
  - destruct (first_fit_alloc _ _ _ _ _ Hff) as (s & r & El & Es). rewrite El in Hinv'. eexists.
    apply (payload_write h2 l1 s false r m2 Hinv'). intros a Ha. rewrite Hz2, decide_False; [done|]. lia.
  - intros i _ Hi. rewrite Hz2, decide_True by lia. done.
Qed.

(** What the rest of the kernel may do with the heap: allocate, free a pointer it
    was given, call [kfree] with anything that is not the payload of a block in
    use, and write into the payload of a block in use. A request is not one of the
    31 sizes below 2^64 for which [kmalloc]'s computation overflows. *)
Inductive heap_step : heap → heap → Prop :=
| step_malloc h h' size p :
    0 ≤ size ≤ 2 ^ 64 - 32 → kmalloc g_arena h size = Ret (h', p) → heap_step h h'
| step_calloc h h' count size p :
    0 ≤ count < 2 ^ 64 → 0 ≤ size < 2 ^ 64 → count * size ≤ 2 ^ 64 - 32 ∨ 2 ^ 64 ≤ count * size →
    kcalloc g_arena h count size = Ret (h', p) → heap_step h h'
| step_free h h' l1 sz l2 :
    heap_inv h (l1 ++ (sz, false) :: l2) →
    kfree g_arena h (g_arena + (tot l1 + 16)) = Ret h' → heap_step h h'
| step_free_foreign h h' ptr :
    ptr = 0 ∨ ptr < g_arena + 16 ∨ g_arena + HEAP_ARENA_SIZE ≤ ptr ∨ bh_magic (arena h) (ptr - g_arena - 16) ≠ HEAP_MAGIC →
    kfree g_arena h ptr = Ret h' → heap_step h h'
| step_write h l1 sz l2 a v :
    heap_inv h (l1 ++ (sz, false) :: l2) → tot l1 + 16 ≤ a < tot l1 + sz →
    heap_step h (mk_heap (store8 (arena h) a v) (g_alloc_count h) (g_free_count h)
                   (g_bytes_in_use h) (g_high_water h)).

Inductive heap_reachable : heap → Prop :=
| reach_init h : heap_reachable (heap_init h)
| reach_step h h' : heap_reachable h → heap_step h h' → heap_reachable h'.

Lemma heap_init_inv h : heap_inv (heap_init h) [(HEAP_ARENA_SIZE, true)].
Proof.
  split; [|done]. unfold heap_init, HEAP_ARENA_SIZE. cbn [arena seg].
  split; [|lia]. unfold hdr_ok. hdr_simpl. cbn [b2z]. split; [done|]. done.
Qed.

Lemma heap_step_inv h h' : (∃ l, heap_inv h l) → heap_step h h' → ∃ l, heap_inv h' l.
Proof.
  intros [l Hinv] Hstep. destruct Hstep as [h h' size p Hs E|h h' count size p Hc Hz Hp E|h h' l1 sz l2 Hi E|h h' ptr Hp E|h l1 sz l2 a v Hi Ha].
  - destruct (decide (size = 0)) as [->|Hs0]; [injection E as <- <-; eauto|].
    pose proof (kmalloc_spec h l size Hinv ltac:(lia)) as H. cbv zeta in H.
    destruct (first_fit _ l) as [[[l1 sz] l2]|]; [|congruence]. destruct H as (h2 & E2 & H & _).
    rewrite E2 in E. injection E as <- <-. eauto.
  - destruct Hp as [Hp|Hp]; [by destruct (kcalloc_spec h l count size h' p Hinv Hc Hz Hp E)|].
    rewrite kcalloc_overflow in E by done. injection E as <- <-. eauto.
  - destruct (kfree_spec h l1 sz l2 Hi) as (h2 & E2 & H & _). rewrite E2 in E. injection E as <-. eauto.
  - unfold kfree, sizeof_header in E. destruct (Z.eqb_spec ptr 0); [injection E as <-; eauto|].
    destruct (Z.ltb_spec ptr (g_arena + 16)); [injection E as <-; eauto|].
    destruct (Z.leb_spec (g_arena + HEAP_ARENA_SIZE) ptr); [injection E as <-; eauto|]. cbn [orb] in E.
    destruct Hp as [?|[?|[?|Hm]]]; [lia..|]. rewrite (proj2 (Z.eqb_neq _ _) Hm) in E. cbn [negb] in E. injection E as <-. eauto.
  - eexists. apply (payload_write h l1 sz false l2 _ Hi). intros c Hc. rewrite load8_store8.
    by rewrite decide_False by lia.
Qed.

End Claims.

(** ** Theorems *)

(** [kmalloc] takes the first free block that can hold the header and the
    payload rounded up to 16 bytes: the arena stays tiled, the returned payload
    holds [size] bytes, no byte of a block in use changes; with no such block it
    panics. *)
Theorem kmalloc_first_fit g_arena h l size :
  heap_inv h l → 0 < size ≤ 2 ^ 64 - 32 →
  let need := 16 * ((size + 31) / 16) in
  match first_fit need l with
  | None => kmalloc g_arena h size = Panic
  | Some (l1, sz, l2) =>
      ∃ h', kmalloc g_arena h size = Ret (h', g_arena + (tot l1 + 16)) ∧
        heap_inv h' (l1 ++ alloc_block need sz ++ l2) ∧
        size ≤ (if 32 <=? sz - need then need else sz) - 16 ∧
        ∀ a, in_use 0 l a → load8 (arena h') a = load8 (arena h) a
  end.
Proof. apply kmalloc_spec. Qed.

Definition fresh_heap : heap := heap_init (mk_heap ∅ 0 0 0 0).

Lemma kmalloc_first_fit_witness :
  ∃ h', kmalloc 0x200000 fresh_heap 100 = Ret (h', 0x200010) ∧
        heap_inv h' [(128, false); (HEAP_ARENA_SIZE - 128, true)].
Proof.
  destruct (kmalloc_first_fit 0x200000 fresh_heap [(HEAP_ARENA_SIZE, true)] 100) as (h' & E & H & _).
  - apply heap_init_inv.
  - lia.
  - exists h'. split; [exact E|exact H].
Defined.

(** [kfree] of a block in use makes it free, merges every run of adjacent free
    blocks (so that none is left), keeps the arena tiled and the accounting exact,
    and changes no byte of the blocks still in use. *)
Theorem kfree_coalesces g_arena h l1 sz l2 :
  0 < g_arena → heap_inv h (l1 ++ (sz, false) :: l2) →
  ∃ h', kfree g_arena h (g_arena + (tot l1 + 16)) = Ret h' ∧
    heap_inv h' (merge (l1 ++ (sz, true) :: l2)) ∧
    no_adjacent_free (merge (l1 ++ (sz, true) :: l2)) = true ∧
    g_bytes_in_use h' = g_bytes_in_use h - sz ∧
    ∀ a, in_use 0 (l1 ++ (sz, true) :: l2) a → load8 (arena h') a = load8 (arena h) a.
Proof.
  intros Hb Hinv. destruct (kfree_spec g_arena Hb h l1 sz l2 Hinv) as (h' & E & Hinv' & Hfr).
  exists h'. split; [done|]. split; [done|]. split; [apply merge_no_adjacent|]. split; [|done].
  rewrite (proj2 Hinv'), (proj2 Hinv), used_total_merge, !used_total_app. cbn [used_total foldr fst snd].
  fold (used_total l2). lia.
Qed.

Lemma kfree_coalesces_witness :
  ∃ h1 h2, kmalloc 0x200000 fresh_heap 100 = Ret (h1, 0x200010) ∧
    kfree 0x200000 h1 0x200010 = Ret h2 ∧ heap_inv h2 [(HEAP_ARENA_SIZE, true)].
Proof.
  destruct (kmalloc_spec 0x200000 fresh_heap [(HEAP_ARENA_SIZE, true)] 100) as (h1 & E1 & H1 & _);
    [apply heap_init_inv|lia|].
  destruct (kfree_coalesces 0x200000 h1 [] 128 [(HEAP_ARENA_SIZE - 128, true)]) as (h2 & E2 & H2 & _).
  - lia.
  - exact H1.
  - exists h1, h2. split; [exact E1|]. split; [exact E2|exact H2].
Defined.

(** C13. Through allocations, frees and payload writes, in any order, the blocks
    tile the arena with intact headers and the bytes in use are the sizes of the
    blocks in use. The requests are of at most 2^64 - 32 bytes (for [kcalloc], the
    product is not one of the 31 numbers between that and 2^64), for larger ones see
    [kmalloc_overflow_corrupts]; [kfree] is called for a block in use, or for an
    address that has no header of a block in use before it, as after a double free;
    writes are inside the payload of a block in use. *)
Theorem heap_always_tiled g_arena h :
  0 < g_arena → heap_reachable g_arena h → ∃ l, heap_inv h l.
Proof.
  intros Hb. induction 1 as [h|h h' _ IH Hstep].
  - eexists. apply heap_init_inv.
  - by apply (heap_step_inv g_arena Hb h).
Qed.

(** Two blocks, a write to the second, and the first is freed twice. *)
Lemma heap_always_tiled_witness :
  ∃ h1 h2 h3 h4 l, kmalloc 0x200000 fresh_heap 100 = Ret (h1, 0x200010) ∧ kmalloc 0x200000 h1 1 = Ret (h2, 0x200090) ∧
    kfree 0x200000 (mk_heap (store8 (arena h2) 144 7) (g_alloc_count h2) (g_free_count h2) (g_bytes_in_use h2) (g_high_water h2)) 0x200010 = Ret h3 ∧
    kfree 0x200000 h3 0x200010 = Ret h4 ∧ heap_inv h4 l.
Proof.
  destruct (kmalloc_spec 0x200000 fresh_heap [(HEAP_ARENA_SIZE, true)] 100) as (h1 & E1 & I1 & _); [apply heap_init_inv|lia|].
  destruct (kmalloc_spec 0x200000 h1 [(128, false); (HEAP_ARENA_SIZE - 128, true)] 1 I1) as (h2 & E2 & I2 & _); [lia|].
  set (h2' := mk_heap (store8 (arena h2) 144 7) (g_alloc_count h2) (g_free_count h2) (g_bytes_in_use h2) (g_high_water h2)).
  assert (heap_inv h2 ([(128, false)] ++ (32, false) :: [(HEAP_ARENA_SIZE - 160, true)])) as J2 by exact I2.
  assert (heap_inv h2' ([] ++ (128, false) :: [(32, false); (HEAP_ARENA_SIZE - 160, true)])) as I2'.
  { refine (payload_write h2 [(128, false)] 32 false _ _ J2 _). intros a Ha. rewrite load8_store8, decide_False; [done|]. cbn in Ha. lia. }
  destruct (kfree_spec 0x200000 ltac:(lia) h2' [] 128 _ I2') as (h3 & E3 & I3 & _).
  assert (bh_magic (arena h3) 0 ≠ HEAP_MAGIC) as Hm by (destruct I3 as [[(_ & _ & -> & _) _] _]; done).
  assert (kfree 0x200000 h3 0x200010 = Ret h3) as E4.
  { unfold kfree. change (0x200010 - 0x200000 - sizeof_header) with 0. cbv zeta. rewrite (proj2 (Z.eqb_neq _ _) Hm). reflexivity. }
  assert (heap_reachable 0x200000 h3) as R3.
  { apply (reach_step _ h2'); [|exact (step_free _ h2' h3 [] 128 _ I2' E3)]. apply (reach_step _ h2); [|exact (step_write _ h2 [(128, false)] 32 _ 144 7 J2 ltac:(cbn; lia))].
    apply (reach_step _ h1); [|exact (step_malloc _ h1 h2 1 _ ltac:(lia) E2)]. apply (reach_step _ fresh_heap); [constructor|exact (step_malloc _ fresh_heap h1 100 _ ltac:(lia) E1)]. }
  destruct (heap_always_tiled 0x200000 h3) as [l Hl]; [lia|apply (reach_step _ h3); [exact R3|apply (step_free_foreign _ h3 h3 0x200010); [by right; right; right|exact E4]]|].
  exists h1, h2, h3, h3, l. split; [exact E1|]. split; [exact E2|]. split; [exact E3|]. split; [exact E4|exact Hl].
Defined.

(** *** Requests that overflow *)

Lemma align_up_overflow size : 2 ^ 64 - 31 ≤ size ≤ 2 ^ 64 - 16 → align_up (u64 (sizeof_header + size)) HEAP_ALIGN = 0.
Proof.
  intros Hs. unfold align_up, sizeof_header, HEAP_ALIGN. change (u64 (16 - 1)) with (2 ^ 4 - 1).
  assert (u64 (u64 (16 + size) + (2 ^ 4 - 1)) = (size + 31) mod 2 ^ 64) as ->.
  { unfold u64. rewrite Zplus_mod_idemp_l. f_equal. lia. }
  rewrite <-(Z.mod_unique (size + 31) (2 ^ 64) 1 (size + 31 - 2 ^ 64)) by lia. rewrite land_not_low by (unfold is_u64; lia). change (2 ^ 4) with 16. zlia.
Qed.

(** A block of size zero in use: the search never leaves it. *)
Lemma zero_block_loops fuel h need o l :
  seg (arena h) o l (o + tot l) → Forall (λ b, b.2 = false) l → o + tot l < HEAP_ARENA_SIZE → bh_size (arena h) (o + tot l) = 0 → bh_free (arena h) (o + tot l) = 0 →
  kmalloc_loop fuel h need (Some o) = Loop.
Proof.
  revert o l. induction fuel as [|fuel IH]; intros o l Hs Hu Hlt Hz Hf.
  - destruct l as [|[sz fr] l]; cbn [kmalloc_loop].
    + cbn [tot foldr] in Hf. rewrite Z.add_0_r in Hf. by rewrite Hf.
    + apply Forall_cons in Hu as [Hfr _]. cbn in Hfr. subst fr. destruct Hs as [(_ & -> & _) _]. done.
  - destruct l as [|[sz fr] l]; cbn [kmalloc_loop].
    + cbn [tot foldr] in *. rewrite Z.add_0_r in *. rewrite Hf. cbn [Z.eqb negb andb]. unfold next_block. rewrite Hz, Z.add_0_r.
      destruct (Z.leb_spec HEAP_ARENA_SIZE o); [lia|]. apply (IH o []); cbn [tot foldr]; rewrite ?Z.add_0_r; done.
    + apply Forall_cons in Hu as [Hfr Hu]. cbn in Hfr. subst fr. destruct Hs as [Hh Hs]. pose proof Hh as (_ & -> & _). cbn [b2z Z.eqb negb andb]. rewrite (next_block_at _ _ _ _ Hh).
      cbn [tot foldr fst] in *. fold (tot l) in *. rewrite Z.add_assoc in *. destruct (seg_end _ _ _ _ Hs) as [_ Hl]. pose proof (zlen_nonneg l).
      unfold at_block. destruct (Z.leb_spec HEAP_ARENA_SIZE (o + sz)); [lia|]. by apply (IH (o + sz) l).
Qed.

(** C33. The size computation of [kmalloc] is not guarded against overflow. In any
    heap with a free block, a request of 2^64 - 31 to 2^64 - 16 bytes does not
    panic: it is granted in the first free block, whose size becomes zero. From then
    on every other call of [kmalloc], for whatever size but zero, comes to that block
    and never ends: no number of steps is enough for its search. *)
Theorem kmalloc_overflow_corrupts g_arena h l l1 sz l2 size :
  heap_inv h l → first_fit 0 l = Some (l1, sz, l2) → 2 ^ 64 - 31 ≤ size ≤ 2 ^ 64 - 16 →
  ∃ h', kmalloc g_arena h size = Ret (h', g_arena + (tot l1 + 16)) ∧ bh_size (arena h') (tot l1) = 0 ∧
    ∀ size', size' ≠ 0 → kmalloc g_arena h' size' = Loop ∧
      ∀ fuel, kmalloc_loop fuel h' (align_up (u64 (sizeof_header + size')) HEAP_ALIGN) (Some 0) = Loop.
Proof.
  intros [Hs Hu] Hff Hsz. pose proof (seg_end _ _ _ _ Hs) as [Hend _]. unfold kmalloc at 1. rewrite (proj2 (Z.eqb_neq size 0)) by lia. rewrite align_up_overflow by done.
  change (Some 0) with (at_block 0) at 1. rewrite (kmalloc_loop_spec heap_fuel h 0 0 l Hs) by (by apply (seg_length (arena h))). rewrite Hff. cbn [mbind outcome_bind]. rewrite Z.add_0_l.
  destruct (first_fit_Some _ _ _ _ _ Hff) as (-> & _ & HF). apply seg_app in Hs as [Hs1 [Hh Hs2]]. rewrite Z.add_0_l in *. pose proof Hh as (E1 & _ & _ & E4 & _).
  assert (Forall (λ b, b.2 = false) l1) as HF'. { clear -HF Hs1. revert Hs1 HF. generalize 0 at 1. generalize (tot l1). induction l1 as [|[s f] l1 IH]; intros e b; [constructor|]. cbn [seg]. intros [(_ & _ & _ & ? & _) Hs] [Hf HF]%Forall_cons.
    constructor; [|by eapply IH]. destruct f; [|done]. cbn in *. specialize (Hf eq_refl). lia. }
  pose proof (seg_end _ _ _ _ Hs1) as [_ T1]. pose proof (seg_end _ _ _ _ Hs2) as [_ T2]. pose proof (zlen_nonneg l1). pose proof (zlen_nonneg l2). rewrite tot_app in Hend. cbn [tot foldr fst] in Hend. fold (tot l2) in Hend. assert (HEAP_ARENA_SIZE = 2097152) as Ea by done.
  set (b := tot l1) in *. set (h' := take_block h b 0).
  assert (bh_size (arena h') b = 0 ∧ bh_free (arena h') b = 0 ∧ ∀ a, a < b → load8 (arena h') a = load8 (arena h) a) as (Z1 & Z2 & Z3).
  { unfold h', take_block. rewrite E1. rewrite (u64_small (sz - 0)) by lia. destruct (Z.leb_spec (sizeof_header + HEAP_ALIGN) (sz - 0)) as [_|Hc]; [|unfold sizeof_header, HEAP_ALIGN in Hc; lia]. cbn [arena].
    rewrite Z.add_0_r. hdr_simpl. split; [done|]. split; [done|]. intros a Ha. hdr_simpl. done. }
  exists h'. split; [done|]. split; [done|]. intros size' Hs'.
  assert (∀ fuel need, kmalloc_loop fuel h' need (Some 0) = Loop) as Hloop.
  { intros fuel need. apply (zero_block_loops fuel h' need 0 l1); rewrite ?Z.add_0_l; fold b; try done; [|lia]. apply (seg_frame (arena h)); [|done]. intros a Ha. apply Z3. lia. }
  split; [|done]. unfold kmalloc. rewrite (proj2 (Z.eqb_neq size' 0)) by done. by rewrite Hloop.
Qed.

Lemma kmalloc_overflow_corrupts_witness :
  ∃ h', kmalloc 0x200000 fresh_heap (2 ^ 64 - 16) = Ret (h', 0x200000 + (tot [] + 16)) ∧ bh_size (arena h') (tot []) = 0 ∧
    ∀ size', size' ≠ 0 → kmalloc 0x200000 h' size' = Loop ∧
      ∀ fuel, kmalloc_loop fuel h' (align_up (u64 (sizeof_header + size')) HEAP_ALIGN) (Some 0) = Loop.
Proof.
  apply (kmalloc_overflow_corrupts 0x200000 fresh_heap [(HEAP_ARENA_SIZE, true)] [] HEAP_ARENA_SIZE [] (2 ^ 64 - 16)); [apply heap_init_inv|reflexivity|lia].
Defined.
