(* ===== verification/Bitmap.v ===== *)
(** The fixed-storage bitmap library, [kernel/lib/bitmap.h] and
    [kernel/lib/bitmap.c]: single-bit and range updates, the SWAR population
    count, and the searches for a clear bit, a set bit and a run of clear bits.
    A bitmap is specified through [bm_bit], the value of each bit position. *)

From S2P Require Import Prelude.

(** ** Definitions *)

Definition BITMAP_WORD_BITS : Z := 64.
Definition BITMAP_WORDS (bm_nbits : Z) : Z :=
  u64 (bm_nbits + BITMAP_WORD_BITS - 1) / BITMAP_WORD_BITS.
Definition BITMAP_NONE : Z := u64 (-1).

Record bitmap := mk_bitmap { bm_words : list Z; bm_nbits : Z }.

Definition bitmap_attach (ws : list Z) (n : Z) : bitmap := mk_bitmap ws n.

Definition word_of (bit : Z) : Z := bit / BITMAP_WORD_BITS.
Definition off_of (bit : Z) : Z := bit mod BITMAP_WORD_BITS.

Definition bitmap_zero (b : bitmap) : outcome bitmap :=
  ws ← for_range 0 (BITMAP_WORDS (bm_nbits b)) (λ i ws, aset ws i 0) (bm_words b);
  Ret (mk_bitmap ws (bm_nbits b)).

Definition bitmap_fill (b : bitmap) : outcome bitmap :=
  let nwords := BITMAP_WORDS (bm_nbits b) in
  ws ← for_range 0 nwords (λ i ws, aset ws i (not64 0)) (bm_words b);
  let tail := u32 (bm_nbits b mod BITMAP_WORD_BITS) in
  if tail =? 0 then Ret (mk_bitmap ws (bm_nbits b))
  else
    w ← aget ws (u64 (nwords - 1));
    ws ← aset ws (u64 (nwords - 1)) (Z.land w (u64 (u64 (Z.shiftl 1 tail) - 1)));
    Ret (mk_bitmap ws (bm_nbits b)).

Definition bitmap_set (b : bitmap) (bit : Z) : outcome bitmap :=
  if bm_nbits b <=? bit then Ret b
  else
    w ← aget (bm_words b) (word_of bit);
    ws ← aset (bm_words b) (word_of bit) (Z.lor w (u64 (Z.shiftl 1 (off_of bit))));
    Ret (mk_bitmap ws (bm_nbits b)).

Definition bitmap_clear (b : bitmap) (bit : Z) : outcome bitmap :=
  if bm_nbits b <=? bit then Ret b
  else
    w ← aget (bm_words b) (word_of bit);
    ws ← aset (bm_words b) (word_of bit)
           (Z.land w (not64 (u64 (Z.shiftl 1 (off_of bit)))));
    Ret (mk_bitmap ws (bm_nbits b)).

Definition bitmap_test (b : bitmap) (bit : Z) : outcome Z :=
  if bm_nbits b <=? bit then Ret 0
  else
    w ← aget (bm_words b) (word_of bit);
    Ret (Z.land (Z.shiftr w (off_of bit)) 1).

Definition bitmap_set_range (b : bitmap) (start count : Z) : outcome bitmap :=
  for_range 0 count (λ i b, bitmap_set b (u64 (start + i))) b.

Definition bitmap_clear_range (b : bitmap) (start count : Z) : outcome bitmap :=
  for_range 0 count (λ i b, bitmap_clear b (u64 (start + i))) b.

Definition popcount64 (v : Z) : Z :=
  let v := u64 (v - Z.land (Z.shiftr v 1) 0x5555555555555555) in
  let v := u64 (Z.land v 0x3333333333333333 +
                Z.land (Z.shiftr v 2) 0x3333333333333333) in
  let v := Z.land (u64 (v + Z.shiftr v 4)) 0x0F0F0F0F0F0F0F0F in
  u32 (Z.shiftr (u64 (v * 0x0101010101010101)) 56).

Definition bitmap_weight (b : bitmap) : outcome Z :=
  for_range 0 (BITMAP_WORDS (bm_nbits b))
    (λ i total, w ← aget (bm_words b) i; Ret (u64 (total + popcount64 w))) 0.

(** [while ((v & 1) == 0) { v >>= 1; n++; }] *)
Fixpoint ctz_loop (fuel : nat) (v n : Z) : outcome Z :=
  match fuel with
  | O => Loop
  | S fuel => if Z.land v 1 =? 0 then ctz_loop fuel (Z.shiftr v 1) (u32 (n + 1)) else Ret n
  end.

Definition ctz64 (v : Z) : outcome Z := if v =? 0 then Ret 64 else ctz_loop 65 v 0.

Definition bitmap_find_first_zero (b : bitmap) : outcome Z :=
  r ← find_range 0 (BITMAP_WORDS (bm_nbits b))
        (λ i (_ : unit),
           w ← aget (bm_words b) i;
           let inv := not64 w in
           if inv =? 0 then Ret (inl tt)
           else
             c ← ctz64 inv;
             let bit := u64 (u64 (i * BITMAP_WORD_BITS) + c) in
             if bit <? bm_nbits b then Ret (inr bit) else Ret (inr BITMAP_NONE)) tt;
  Ret (match r with inl _ => BITMAP_NONE | inr bit => bit end).

Definition bitmap_find_first_set (b : bitmap) : outcome Z :=
  r ← find_range 0 (BITMAP_WORDS (bm_nbits b))
        (λ i (_ : unit),
           w ← aget (bm_words b) i;
           if w =? 0 then Ret (inl tt)
           else
             c ← ctz64 w;
             let bit := u64 (u64 (i * BITMAP_WORD_BITS) + c) in
             if bit <? bm_nbits b then Ret (inr bit) else Ret (inr BITMAP_NONE)) tt;
  Ret (match r with inl _ => BITMAP_NONE | inr bit => bit end).

(** The loop state is the pair of locals [run] and [start]. *)
Definition bitmap_find_zero_run (b : bitmap) (count : Z) : outcome Z :=
  if count =? 0 then Ret BITMAP_NONE
  else
    r ← find_range 0 (bm_nbits b)
          (λ bit '(run, start),
             t ← bitmap_test b bit;
             if t =? 0 then
               let start := if run =? 0 then bit else start in
               let run := u64 (run + 1) in
               if run =? count then Ret (inr start) else Ret (inl (run, start))
             else Ret (inl (0, start))) (0, 0);
    Ret (match r with inl _ => BITMAP_NONE | inr start => start end).

Definition bitmap_alloc (b : bitmap) : outcome (Z * bitmap) :=
  bit ← bitmap_find_first_zero b;
  if bit =? BITMAP_NONE then Ret (bit, b)
  else b' ← bitmap_set b bit; Ret (bit, b').

(** ** Specification *)

(** The value of bit position [i]. *)
Definition bm_bit (b : bitmap) (i : Z) : bool :=
  match bm_words b !! Z.to_nat (i / 64) with
  | Some w => Z.testbit w (i mod 64)
  | None => false
  end.

(** The caller attached storage of the right size for [nbits] bits. *)
Definition bitmap_wf (b : bitmap) : Prop :=
  0 ≤ bm_nbits b ∧ bm_nbits b + 63 < 2 ^ 64 ∧
  zlen (bm_words b) = (bm_nbits b + 63) / 64 ∧ Forall is_u64 (bm_words b).

(** The same as a boolean test. *)
Definition bitmap_wfb (b : bitmap) : bool :=
  (0 <=? bm_nbits b) && (bm_nbits b + 63 <? 2 ^ 64) &&
  (zlen (bm_words b) =? (bm_nbits b + 63) / 64) &&
  forallb (λ w, (0 <=? w) && (w <? 2 ^ 64)) (bm_words b).

Lemma bitmap_wfb_wf b : bitmap_wfb b = true → bitmap_wf b.
Proof.
  unfold bitmap_wfb, bitmap_wf. rewrite !andb_true_iff, forallb_forall. intros [[[? ?] ?] Hall].
  repeat split; try lia. apply Forall_forall. intros w Hw. apply list_elem_of_In in Hw.
  apply Hall in Hw. unfold is_u64. lia.
Qed.

(** The bits past [nbits] in the last word are clear. *)
Definition padding_clear (b : bitmap) : Prop := ∀ i, bm_nbits b ≤ i → bm_bit b i = false.

(** The number of set bits below [nbits]. *)
Definition bm_weight (b : bitmap) : Z := zcount (bm_bit b) (Z.to_nat (bm_nbits b)).

Lemma BITMAP_WORDS_eq n : 0 ≤ n → n + 63 < 2 ^ 64 → BITMAP_WORDS n = (n + 63) / 64.
Proof.
  intros H1 H2. unfold BITMAP_WORDS, BITMAP_WORD_BITS.
  rewrite u64_small by lia. f_equal. lia.
Qed.

(** The word that holds bit [i], when [i] is in range. *)
Lemma wf_word b i :
  bitmap_wf b → 0 ≤ i < bm_nbits b →
  ∃ w, bm_words b !! Z.to_nat (i / 64) = Some w ∧ is_u64 w ∧
       aget (bm_words b) (word_of i) = Ret w ∧ 0 ≤ word_of i < zlen (bm_words b) ∧
       bm_bit b i = Z.testbit w (off_of i).
Proof.
  intros (Hn & Hmax & Hlen & Hall) Hi.
  unfold word_of, off_of, BITMAP_WORD_BITS.
  assert (0 ≤ i / 64 < zlen (bm_words b)) as Hw by zlia.
  destruct (aget_in _ _ Hw) as (w & Hl & Hg).
  exists w. rewrite (Forall_lookup is_u64) in Hall.
  repeat split; eauto; try lia; try apply (Hall _ _ Hl).
  unfold bm_bit. by rewrite Hl.
Qed.

Lemma off_of_range i : 0 ≤ off_of i < 64.
Proof. unfold off_of, BITMAP_WORD_BITS. apply Z.mod_pos_bound. lia. Qed.

Lemma bit_mask_range i : is_u64 (2 ^ off_of i).
Proof.
  pose proof (off_of_range i). unfold is_u64. split; [lia|].
  apply Z.pow_lt_mono_r; lia.
Qed.

Lemma shiftl_off i : u64 (Z.shiftl 1 (off_of i)) = 2 ^ off_of i.
Proof.
  rewrite Z.shiftl_1_l. apply u64_small. apply bit_mask_range.
Qed.

(** Storing a word that differs from the old one only in bit [i]. *)
Lemma bit_store b i w w' v :
  bitmap_wf b → 0 ≤ i < bm_nbits b → bm_words b !! Z.to_nat (i / 64) = Some w → is_u64 w' →
  (∀ k, 0 ≤ k < 64 → Z.testbit w' k = if decide (k = off_of i) then v else Z.testbit w k) →
  let b' := mk_bitmap (<[Z.to_nat (word_of i) := w']> (bm_words b)) (bm_nbits b) in
  bitmap_wf b' ∧ ∀ j, 0 ≤ j → bm_bit b' j = if decide (j = i) then v else bm_bit b j.
Proof.
  intros Hwf Hi Hl Hu Hbits b'. destruct Hwf as (Hn & Hmax & Hlen & Hall).
  assert (0 ≤ word_of i < zlen (bm_words b)) as Hw.
  { unfold word_of, BITMAP_WORD_BITS. zlia. }
  split.
  - repeat split; cbn; try done.
    + by rewrite zlen_insert.
    + apply Forall_insert; done.
  - intros j Hj. unfold bm_bit, b'; cbn.
    assert (0 ≤ j / 64) by (apply Z.div_pos; lia).
    rewrite lookup_insert_Z by lia. unfold word_of, BITMAP_WORD_BITS in *.
    dec_if as E.
    + rewrite Hbits by (apply Z.mod_pos_bound; lia).
      unfold off_of, BITMAP_WORD_BITS. rewrite <-E, Hl.
      do 2 dec_if; subst; try done; try zlia.
    + dec_if; [|done]. subst. lia.
Qed.

(** ** Single bits *)

Lemma bitmap_set_spec b i :
  bitmap_wf b → 0 ≤ i →
  ∃ b', bitmap_set b i = Ret b' ∧ bitmap_wf b' ∧ bm_nbits b' = bm_nbits b ∧
        ∀ j, 0 ≤ j → bm_bit b' j = if decide (j = i ∧ i < bm_nbits b) then true else bm_bit b j.
Proof.
  intros Hwf Hi. unfold bitmap_set. destruct (Z.leb_spec (bm_nbits b) i).
  - exists b. repeat split; try apply Hwf. intros j Hj. dec_if; [lia|done].
  - destruct (wf_word b i Hwf) as (w & Hl & Hu & Hg & Hr & _); [lia|].
    rewrite Hg. cbn. rewrite aset_in by done. cbn. rewrite shiftl_off.
    edestruct (bit_store b i w (Z.lor w (2 ^ off_of i)) true) as [Hwf' Hb]; try done.
    + apply lor_u_range; [lia|done|apply bit_mask_range].
    + intros k Hk. rewrite Z.lor_spec, testbit_pow2 by apply off_of_range.
      case_bool_decide; dec_if; try done; [apply orb_true_r|apply orb_false_r].
    + eexists. split; [reflexivity|]. repeat split; try apply Hwf'.
      intros j Hj. rewrite Hb by done. do 2 dec_if; try done; lia.
Qed.

Lemma bitmap_clear_spec b i :
  bitmap_wf b → 0 ≤ i →
  ∃ b', bitmap_clear b i = Ret b' ∧ bitmap_wf b' ∧ bm_nbits b' = bm_nbits b ∧
        ∀ j, 0 ≤ j → bm_bit b' j = if decide (j = i ∧ i < bm_nbits b) then false else bm_bit b j.
Proof.
  intros Hwf Hi. unfold bitmap_clear. destruct (Z.leb_spec (bm_nbits b) i).
  - exists b. repeat split; try apply Hwf. intros j Hj. dec_if; [lia|done].
  - destruct (wf_word b i Hwf) as (w & Hl & Hu & Hg & Hr & _); [lia|].
    rewrite Hg. cbn. rewrite aset_in by done. cbn. rewrite shiftl_off.
    edestruct (bit_store b i w (Z.land w (not64 (2 ^ off_of i))) false) as [Hwf' Hb];
      try done.
    + apply land_u_range; [lia|done].
    + intros k Hk. rewrite Z.land_spec, testbit_not64, testbit_pow2
        by (lia || apply off_of_range).
      case_bool_decide; dec_if; try done; [apply andb_false_r|apply andb_true_r].
    + eexists. split; [reflexivity|]. repeat split; try apply Hwf'.
      intros j Hj. rewrite Hb by done. do 2 dec_if; try done; lia.
Qed.

Lemma bitmap_test_spec b i :
  bitmap_wf b → 0 ≤ i → bitmap_test b i = Ret (b2z ((i <? bm_nbits b) && bm_bit b i)).
Proof.
  intros Hwf Hi. unfold bitmap_test.
  destruct (Z.leb_spec (bm_nbits b) i), (Z.ltb_spec i (bm_nbits b)); try lia; cbn; [done|].
  destruct (wf_word b i Hwf) as (w & Hl & Hu & Hg & Hr & Hb); [lia|].
  rewrite Hg. cbn. rewrite land_1_testbit, Z.shiftr_spec, Hb by lia. done.
Qed.

(** ** Population count *)

(** The value of a little-endian list of bytes, and a mask that repeats the
    byte [m] over the same length. *)
Fixpoint bytes_val (l : list Z) : Z :=
  match l with
  | [] => 0
  | a :: l => a + 256 * bytes_val l
  end.

Definition rep_mask (m : Z) (l : list Z) : Z := bytes_val ((λ _, m) <$> l).

Lemma testbit_byte_cons a b i :
  0 ≤ a < 256 → 0 ≤ i →
  Z.testbit (a + 256 * b) i = if i <? 8 then Z.testbit a i else Z.testbit b (i - 8).
Proof.
  intros Ha Hi. destruct (Z.ltb_spec i 8).
  - rewrite <-(Z.mod_pow2_bits_low (a + 256 * b) 8 i) by lia.
    replace ((a + 256 * b) mod 2 ^ 8) with a by zlia. done.
  - assert (Z.shiftr (a + 256 * b) 8 = b) as E.
    { rewrite Z.shiftr_div_pow2 by lia. zlia. }
    rewrite <-E at 2. rewrite Z.shiftr_spec by lia.
    by replace (i - 8 + 8) with i by lia.
Qed.

Lemma land_byte_cons a b m n :
  0 ≤ a < 256 → 0 ≤ m < 256 →
  Z.land (a + 256 * b) (m + 256 * n) = Z.land a m + 256 * Z.land b n.
Proof.
  intros Ha Hm. pose proof (land_u_range a m 8). apply Z.bits_inj'. intros i Hi.
  rewrite Z.land_spec, !testbit_byte_cons by lia.
  destruct (Z.ltb_spec i 8); by rewrite Z.land_spec.
Qed.

(** Check a statement on all 256 bytes by evaluation. *)
Definition all_bytes (p : Z → bool) : bool := forallb p (seqZ 0 256).

Lemma all_bytes_spec p : all_bytes p = true → ∀ a, 0 ≤ a < 256 → p a = true.
Proof.
  unfold all_bytes. rewrite forallb_forall. intros H a Ha. apply H.
  apply list_elem_of_In, elem_of_seqZ. lia.
Qed.

Definition swar1 (a : Z) : Z := a - Z.land (a / 2) 0x55.
Definition swar2 (a : Z) : Z := Z.land a 0x33 + Z.land (a / 4) 0x33.
Definition swar3 (a : Z) : Z := Z.land (a + a / 16) 0x0F.

Lemma swar1_byte a c : 0 ≤ a < 256 → 0 ≤ c < 2 →
  Z.land (a / 2 + 128 * c) 0x55 = Z.land (a / 2) 0x55 ∧ 0 ≤ swar1 a < 256.
Proof.
  intros Ha Hc.
  assert (all_bytes (λ a, forallb (λ c, (Z.land (a / 2 + 128 * c) 0x55 =? Z.land (a / 2) 0x55)
    && (0 <=? swar1 a) && (swar1 a <? 256)) [0; 1]) = true) as H by (vm_compute; reflexivity).
  apply (all_bytes_spec _ H) in Ha. cbn in Ha.
  assert (c = 0 ∨ c = 1) as [->| ->] by lia; lia.
Qed.

Lemma swar2_byte a c : 0 ≤ a < 256 → 0 ≤ c < 4 →
  Z.land (a / 4 + 64 * c) 0x33 = Z.land (a / 4) 0x33 ∧ 0 ≤ swar2 a < 256.
Proof.
  intros Ha Hc.
  assert (all_bytes (λ a, forallb (λ c, (Z.land (a / 4 + 64 * c) 0x33 =? Z.land (a / 4) 0x33)
    && (0 <=? swar2 a) && (swar2 a <? 256)) [0; 1; 2; 3]) = true) as H
    by (vm_compute; reflexivity).
  apply (all_bytes_spec _ H) in Ha. cbn in Ha.
  assert (c = 0 ∨ c = 1 ∨ c = 2 ∨ c = 3) as [->|[->|[->| ->]]] by lia; lia.
Qed.

(** After two steps every nibble holds a count of at most four. *)
Definition nibbles_le4 (a : Z) : Prop := 0 ≤ a < 256 ∧ a mod 16 ≤ 4 ∧ a / 16 ≤ 4.

Lemma swar3_byte a c : nibbles_le4 a → 0 ≤ c < 5 →
  Z.land (a + a / 16 + 16 * c) 0x0F = swar3 a ∧ 0 ≤ swar3 a < 256.
Proof.
  intros (Ha & H1 & H2) Hc.
  assert (all_bytes (λ a, (4 <? a mod 16) || (4 <? a / 16) || forallb (λ c,
    (Z.land (a + a / 16 + 16 * c) 0x0F =? swar3 a) && (0 <=? swar3 a) && (swar3 a <? 256))
    [0; 1; 2; 3; 4]) = true) as H by (vm_compute; reflexivity).
  apply (all_bytes_spec _ H) in Ha.
  destruct (Z.ltb_spec 4 (a mod 16)); [lia|]. destruct (Z.ltb_spec 4 (a / 16)); [lia|].
  cbn in Ha.
  assert (c = 0 ∨ c = 1 ∨ c = 2 ∨ c = 3 ∨ c = 4) as [->|[->|[->|[->| ->]]]] by lia; lia.
Qed.

(** The three steps on one byte leave its number of set bits. *)
Lemma swar_byte a : 0 ≤ a < 256 →
  nibbles_le4 (swar2 (swar1 a)) ∧ swar3 (swar2 (swar1 a)) = zcount (Z.testbit a) 8.
Proof.
  intros Ha. unfold nibbles_le4.
  assert (all_bytes (λ a, let x := swar2 (swar1 a) in (0 <=? x) && (x <? 256) &&
    (x mod 16 <=? 4) && (x / 16 <=? 4) && (swar3 x =? zcount (Z.testbit a) 8)) = true) as H
    by (vm_compute; reflexivity).
  apply (all_bytes_spec _ H) in Ha. cbv beta zeta in Ha. lia.
Qed.

Lemma swar1_bytes l : Forall is_u8 l →
  bytes_val l - Z.land (Z.shiftr (bytes_val l) 1) (rep_mask 0x55 l) =
  bytes_val (swar1 <$> l).
Proof.
  induction 1 as [|a l Ha Hl IH]; [reflexivity|].
  unfold rep_mask in *. cbn [bytes_val fmap list_fmap].
  rewrite <-IH, !Z.shiftr_div_pow2 by lia. set (v := bytes_val l). set (m := bytes_val _).
  replace ((a + 256 * v) / 2 ^ 1) with ((a / 2 + 128 * (v mod 2)) + 256 * (v / 2)) by zlia.
  rewrite land_byte_cons by zlia.
  destruct (swar1_byte a (v mod 2)) as [-> _]; [done|zlia|].
  unfold swar1. change (2 ^ 1) with 2. lia.
Qed.

Lemma swar2_bytes l : Forall is_u8 l →
  Z.land (bytes_val l) (rep_mask 0x33 l) +
  Z.land (Z.shiftr (bytes_val l) 2) (rep_mask 0x33 l) = bytes_val (swar2 <$> l).
Proof.
  induction 1 as [|a l Ha Hl IH]; [reflexivity|].
  unfold rep_mask in *. cbn [bytes_val fmap list_fmap].
  rewrite <-IH, !Z.shiftr_div_pow2 by lia. set (v := bytes_val l). set (m := bytes_val _).
  replace ((a + 256 * v) / 2 ^ 2) with ((a / 4 + 64 * (v mod 4)) + 256 * (v / 4)) by zlia.
  rewrite !land_byte_cons by zlia.
  destruct (swar2_byte a (v mod 4)) as [-> _]; [done|zlia|].
  unfold swar2. change (2 ^ 2) with 4. lia.
Qed.

Lemma swar3_bytes l : Forall nibbles_le4 l →
  0 ≤ bytes_val l mod 16 ≤ 4 ∧
  Z.land (bytes_val l + Z.shiftr (bytes_val l) 4) (rep_mask 0x0F l) =
  bytes_val (swar3 <$> l).
Proof.
  induction 1 as [|a l Ha Hl [Hm IH]]; [split; [change (bytes_val []) with 0; zlia|reflexivity]|].
  unfold rep_mask in *. cbn [bytes_val fmap list_fmap].
  rewrite <-IH, !Z.shiftr_div_pow2 by lia. set (v := bytes_val l) in *. set (m := bytes_val _).
  destruct Ha as (Ha & H1 & H2). change (2 ^ 4) with 16. split; [zlia|].
  replace (a + 256 * v + (a + 256 * v) / 16)
    with ((a + a / 16 + 16 * (v mod 16)) + 256 * (v + v / 16)) by zlia.
  rewrite land_byte_cons by zlia.
  destruct (swar3_byte a (v mod 16)) as [-> _]; [done|lia|]. done.
Qed.

Fixpoint to_bytes (n : nat) (v : Z) : list Z :=
  match n with
  | O => []
  | S n => v mod 256 :: to_bytes n (v / 256)
  end.

Fixpoint zsum (l : list Z) : Z :=
  match l with
  | [] => 0
  | a :: l => a + zsum l
  end.

Lemma to_bytes_u8 n v : Forall is_u8 (to_bytes n v).
Proof.
  revert v. induction n as [|n IH]; intros v; cbn [to_bytes]; constructor; [|done].
  apply Z.mod_pos_bound. lia.
Qed.

Lemma bytes_val_to_bytes n v : 0 ≤ v < 256 ^ Z.of_nat n → bytes_val (to_bytes n v) = v.
Proof.
  revert v. induction n as [|n IH]; intros v Hv; cbn [to_bytes bytes_val].
  - rewrite Z.pow_0_r in Hv. lia.
  - rewrite Nat2Z.inj_succ, Z.pow_succ_r in Hv by lia. rewrite IH; zlia.
Qed.

Lemma zcount_to_bytes n v :
  0 ≤ v → zcount (Z.testbit v) (8 * n) =
  zsum ((λ a, zcount (Z.testbit a) 8) <$> to_bytes n v).
Proof.
  revert v. induction n as [|n IH]; intros v Hv; [done|].
  replace (8 * S n)%nat with (8 + 8 * n)%nat by lia. rewrite zcount_app.
  cbn [to_bytes fmap list_fmap zsum]. rewrite <-IH by (apply Z.div_pos; lia).
  f_equal; apply zcount_ext; intros i Hi.
  - change 256 with (2 ^ 8). rewrite Z.mod_pow2_bits_low by lia. done.
  - change 256 with (2 ^ 8). rewrite <-Z.shiftr_div_pow2, Z.shiftr_spec by lia.
    by replace (i + 8) with (8 + i) by lia.
Qed.

Lemma bytes_val_range l : Forall is_u8 l → 0 ≤ bytes_val l < 256 ^ zlen l.
Proof.
  induction 1 as [|a l Ha Hl IH]; [split; [done|reflexivity]|].
  rewrite zlen_cons, Z.pow_add_r by (try lia; apply zlen_nonneg).
  cbn [bytes_val]. unfold is_u8 in Ha. lia.
Qed.

(** The multiplication gathers the eight byte counts in the top byte. *)
Lemma gather_bytes l :
  length l = 8%nat → Forall (λ a, 0 ≤ a ≤ 8) l →
  u32 (Z.shiftr (u64 (bytes_val l * 0x0101010101010101)) 56) = zsum l.
Proof.
  intros Hlen Hall.
  destruct l as [|a0 l]; [discriminate|].
  destruct l as [|a1 l]; [discriminate|].
  destruct l as [|a2 l]; [discriminate|].
  destruct l as [|a3 l]; [discriminate|].
  destruct l as [|a4 l]; [discriminate|].
  destruct l as [|a5 l]; [discriminate|].
  destruct l as [|a6 l]; [discriminate|].
  destruct l as [|a7 l]; [discriminate|].
  destruct l; [|discriminate]. rewrite !Forall_cons in Hall. cbn [bytes_val zsum].
  destruct Hall as (?&?&?&?&?&?&?&?&_).
  set (t := (a0) * 2 ^ 0 + (a0 + a1) * 2 ^ 8 + (a0 + a1 + a2) * 2 ^ 16 + (a0 + a1 + a2 + a3) * 2
      ^ 24 + (a0 + a1 + a2 + a3 + a4) * 2 ^ 32 + (a0 + a1 + a2 + a3 + a4 + a5) * 2 ^ 40 +
      (a0 + a1 + a2 + a3 + a4 + a5 + a6) * 2 ^ 48).
  set (q := (a1 + a2 + a3 + a4 + a5 + a6 + a7) * 2 ^ 0 + (a2 + a3 + a4 + a5 + a6 + a7) * 2 ^ 8 +
      (a3 + a4 + a5 + a6 + a7) * 2 ^ 16 + (a4 + a5 + a6 + a7) * 2 ^ 24 + (a5 + a6 + a7) *
      2 ^ 32 + (a6 + a7) * 2 ^ 40 + (a7) * 2 ^ 48).
  set (s7 := (a0 + a1 + a2 + a3 + a4 + a5 + a6 + a7)).
  assert (0 ≤ t < 2 ^ 56) as Ht by lia. assert (0 ≤ s7 ≤ 64) as Hs by lia.
  match goal with |- context [u64 ?p] =>
    replace p with ((s7 * 2 ^ 56 + t) + q * 2 ^ 64) by lia end.
  unfold u64. rewrite Z_mod_plus_full, Z.mod_small by lia.
  rewrite Z.shiftr_div_pow2, Z.div_add_l, Z.div_small, u32_small by lia. lia.
Qed.

Lemma bytes_val_le l m :
  Forall (λ a, 0 ≤ a ≤ m) l → 0 ≤ bytes_val l ≤ rep_mask m l.
Proof.
  unfold rep_mask. induction 1; cbn [bytes_val fmap list_fmap]; [done|lia].
Qed.

Lemma bytes_val_map_u64 (f : Z → Z) l :
  length l = 8%nat → Forall (λ a, 0 ≤ f a < 256) l → 0 ≤ bytes_val (f <$> l) < 2 ^ 64.
Proof.
  intros Hl Hf. assert (Forall is_u8 (f <$> l)) as H by (rewrite Forall_fmap; exact Hf).
  apply bytes_val_range in H. unfold zlen in H. rewrite length_fmap, Hl in H. exact H.
Qed.

(** The three SWAR steps on a little-endian list of eight bytes. *)
Lemma swar_steps l v1 v2 :
  length l = 8%nat → Forall is_u8 l →
  v1 = u64 (bytes_val l - Z.land (Z.shiftr (bytes_val l) 1) 0x5555555555555555) →
  v2 = u64 (Z.land v1 0x3333333333333333 + Z.land (Z.shiftr v1 2) 0x3333333333333333) →
  Z.land (u64 (v2 + Z.shiftr v2 4)) 0x0F0F0F0F0F0F0F0F =
  bytes_val ((λ a, zcount (Z.testbit a) 8) <$> l).
Proof.
  intros Hl Hu E1 E2.
  assert (∀ m k, length k = 8%nat →
    rep_mask m k = bytes_val (replicate 8 m)) as Hmask.
  { intros m k Hk. unfold rep_mask. by do 9 (destruct k as [|? k]; try discriminate). }
  assert (Forall is_u8 (swar1 <$> l)) as Hu1.
  { rewrite Forall_fmap. eapply Forall_impl; [exact Hu|]. intros a Ha.
    apply (swar1_byte a 0); unfold is_u8 in *; lia. }
  assert (v1 = bytes_val (swar1 <$> l)) as ->.
  { rewrite E1. change 0x5555555555555555 with (bytes_val (replicate 8 0x55)).
    rewrite <-(Hmask _ l) by done. rewrite swar1_bytes by done. apply u64_small.
    apply bytes_val_map_u64; [done|]. rewrite Forall_fmap in Hu1. exact Hu1. }
  assert (Forall nibbles_le4 (swar2 <$> (swar1 <$> l))) as Hu2.
  { rewrite !Forall_fmap. eapply Forall_impl; [exact Hu|]. intros a Ha.
    apply (swar_byte a). done. }
  assert (v2 = bytes_val (swar2 <$> (swar1 <$> l))) as ->.
  { rewrite E2. change 0x3333333333333333 with (bytes_val (replicate 8 0x33)).
    rewrite <-(Hmask _ (swar1 <$> l)) by (by rewrite length_fmap).
    rewrite swar2_bytes by done. apply u64_small.
    apply bytes_val_map_u64; [by rewrite length_fmap|]. rewrite Forall_fmap in Hu2.
    eapply Forall_impl; [exact Hu2|]. intros a Ha. apply Ha. }
  change 0x0F0F0F0F0F0F0F0F with (bytes_val (replicate 8 0x0F)).
  rewrite <-(Hmask _ (swar2 <$> (swar1 <$> l))) by (by rewrite !length_fmap).
  rewrite u64_small.
  - destruct (swar3_bytes _ Hu2) as [_ ->]. f_equal. rewrite <-!list_fmap_compose.
    apply list_fmap_ext. intros i a Ha. apply swar_byte.
    rewrite (Forall_lookup is_u8) in Hu. apply (Hu _ _ Ha).
  - destruct (bytes_val_le (swar2 <$> (swar1 <$> l)) 68) as [H1 H2].
    { eapply Forall_impl; [exact Hu2|]. intros a (Ha & ? & ?). zlia. }
    rewrite Hmask in H2 by (by rewrite !length_fmap). rewrite Z.shiftr_div_pow2 by lia.
    change (bytes_val (replicate 8 68)) with 0x4444444444444444 in H2. zlia.
Qed.

(** The SWAR population count returns the number of set bits. *)
Lemma popcount64_spec v : is_u64 v → popcount64 v = zcount (Z.testbit v) 64.
Proof.
  intros Hv. assert (bytes_val (to_bytes 8 v) = v) as El.
  { apply bytes_val_to_bytes. unfold is_u64 in Hv. lia. }
  pose proof (swar_steps (to_bytes 8 v) _ _ eq_refl (to_bytes_u8 8 v) eq_refl eq_refl) as H.
  rewrite El in H. unfold popcount64. cbv zeta. rewrite H. clear H.
  change 64%nat with (8 * 8)%nat. rewrite zcount_to_bytes by apply Hv.
  apply gather_bytes; [done|]. rewrite Forall_fmap. apply Forall_true. intros a.
  cbv beta. pose proof (zcount_range (Z.testbit a) 8). cbn [compose]. lia.
Qed.

(** ** Weight *)

Lemma bit_in_word b i k w :
  bm_words b !! Z.to_nat i = Some w → 0 ≤ i → 0 ≤ k < 64 → bm_bit b (64 * i + k) = Z.testbit w k.
Proof.
  intros Hl Hi Hk. unfold bm_bit.
  replace ((64 * i + k) / 64) with i by zlia. rewrite Hl. f_equal. zlia.
Qed.

Lemma bit_beyond b i : bitmap_wf b → 64 * zlen (bm_words b) ≤ i → bm_bit b i = false.
Proof.
  intros _ Hi. unfold bm_bit. rewrite lookup_ge_None_2; [done|]. unfold zlen in Hi. zlia.
Qed.

Lemma wf_words_eq b :
  bitmap_wf b → BITMAP_WORDS (bm_nbits b) = zlen (bm_words b) ∧
         bm_nbits b ≤ 64 * zlen (bm_words b) < bm_nbits b + 64.
Proof.
  intros (Hn & Hmax & Hlen & _). rewrite BITMAP_WORDS_eq by lia. rewrite Hlen. zlia.
Qed.

(** [bitmap_weight] counts the set bits of the storage; that is the number of
    set bits below [nbits] when the padding of the last word is clear. *)
Lemma bitmap_weight_spec b :
  bitmap_wf b → padding_clear b → bitmap_weight b = Ret (bm_weight b).
Proof.
  intros Hwf Hpad. destruct (wf_words_eq b Hwf) as [Ew Hw].
  unfold bitmap_weight. rewrite Ew.
  destruct (for_range_inv (λ i t, t = zcount (bm_bit b) (Z.to_nat (64 * i)))
    (λ i total, w ← aget (bm_words b) i; Ret (u64 (total + popcount64 w)))
    0 (zlen (bm_words b)) 0) as (t & -> & Ht); [apply zlen_nonneg| |done|].
  - intros i t Hi ->. destruct (aget_in (bm_words b) i Hi) as (w & Hl & ->). cbn.
    eexists. split; [reflexivity|].
    destruct Hwf as (Hn & Hmax & Hlen & Hall). rewrite (Forall_lookup is_u64) in Hall.
    rewrite popcount64_spec by apply (Hall _ _ Hl).
    replace (Z.to_nat (64 * (i + 1))) with (Z.to_nat (64 * i) + 64)%nat by lia.
    rewrite zcount_app, u64_small.
    + f_equal. apply zcount_ext. intros k Hk. rewrite Z2Nat.id by lia.
      symmetry. apply bit_in_word; [done|lia|lia].
    + pose proof (zcount_range (bm_bit b) (Z.to_nat (64 * i))).
      pose proof (zcount_range (Z.testbit w) 64). lia.
  - f_equal. rewrite Ht. unfold bm_weight.
    replace (Z.to_nat (64 * zlen (bm_words b)))
      with (Z.to_nat (bm_nbits b) + Z.to_nat (64 * zlen (bm_words b) - bm_nbits b))%nat
      by (destruct Hwf; lia).
    rewrite zcount_app, (zcount_none (λ i, bm_bit b (_ + i))); [lia|].
    intros i Hi. apply Hpad. destruct Hwf. lia.
Qed.

(** ** Searches *)

Lemma ctz_loop_spec fuel v n :
  0 < v < 2 ^ 64 → 0 ≤ n → n + Z.of_nat fuel = 65 →
  (∀ k, 0 ≤ k < n → Z.testbit v k = false) →
  ∃ m, ctz_loop fuel (Z.shiftr v n) n = Ret m ∧ 0 ≤ m < 64 ∧
       Z.testbit v m = true ∧ ∀ k, 0 ≤ k < m → Z.testbit v k = false.
Proof.
  revert n. induction fuel as [|fuel IH]; intros n Hv Hn Hf Hlow.
  - assert (v = 0); [|lia]. apply (zero_bits v 64); [lia..|].
    intros i Hi. apply Hlow. lia.
  - cbn [ctz_loop]. rewrite land_1_testbit, Z.shiftr_spec, Z.add_0_l by lia.
    destruct (Z.testbit v n) eqn:E; cbn.
    + exists n. split; [done|]. split; [|done].
      destruct (decide (n < 64)); [lia|].
      rewrite (testbit_high v 64) in E by lia. discriminate.
    + rewrite Z.shiftr_shiftr, u32_small by lia. apply IH; try lia.
      intros k Hk. destruct (decide (k = n)); [by subst|]. apply Hlow. lia.
Qed.

Lemma ctz64_spec v :
  0 < v < 2 ^ 64 →
  ∃ m, ctz64 v = Ret m ∧ 0 ≤ m < 64 ∧ Z.testbit v m = true ∧
       ∀ k, 0 ≤ k < m → Z.testbit v k = false.
Proof.
  intros Hv. unfold ctz64. destruct (Z.eqb_spec v 0); [lia|].
  pose proof (ctz_loop_spec 65 v 0) as H. rewrite Z.shiftr_0_r in H. apply H; lia.
Qed.

(** [x] is the first position below [n] where [p] holds, or [BITMAP_NONE]. *)
Definition first_where (p : Z → bool) (n x : Z) : Prop :=
  (x = BITMAP_NONE ∧ ∀ i, 0 ≤ i < n → p i = false) ∨
  (0 ≤ x < n ∧ p x = true ∧ ∀ i, 0 ≤ i < x → p i = false).

(** The word-by-word search shared by both first-bit searches: [val] is the
    word to scan and [p] the bit predicate it represents. *)
Lemma find_first_word b (val : Z → Z) (p : Z → bool) :
  bitmap_wf b → (∀ w, is_u64 w → is_u64 (val w)) →
  (∀ i w, bm_words b !! Z.to_nat i = Some w → 0 ≤ i →
     ∀ k, 0 ≤ k < 64 → p (64 * i + k) = Z.testbit (val w) k) →
  ∃ x, (r ← find_range 0 (BITMAP_WORDS (bm_nbits b))
          (λ i (_ : unit), w ← aget (bm_words b) i;
             let inv := val w in
             if inv =? 0 then Ret (inl tt)
             else c ← ctz64 inv;
                  let bit := u64 (u64 (i * BITMAP_WORD_BITS) + c) in
                  if bit <? bm_nbits b then Ret (inr bit) else Ret (inr BITMAP_NONE)) tt;
        Ret (match r with inl _ => BITMAP_NONE | inr bit => bit end)) = Ret x ∧
       first_where p (bm_nbits b) x.
Proof.
  intros Hwf Hval Hp. destruct (wf_words_eq b Hwf) as [-> Hw].
  pose proof Hwf as (Hn & Hmax & Hlen & Hall). rewrite (Forall_lookup is_u64) in Hall.
  match goal with |- context [find_range _ _ ?body _] =>
    destruct (find_range_inv (λ i (_ : unit), ∀ j, 0 ≤ j < 64 * i → p j = false)
      (first_where p (bm_nbits b)) body 0 (zlen (bm_words b)) tt)
      as [([] & -> & H)|(x & -> & H)] end; [lia| |lia|..].
  - intros i [] Hi Hlow. destruct (aget_in (bm_words b) i Hi) as (w & Hl & ->). cbn.
    destruct (Z.eqb_spec (val w) 0) as [E|E].
    + left. exists tt. split; [done|]. intros j Hj.
      destruct (decide (j < 64 * i)); [by apply Hlow; lia|].
      replace j with (64 * i + (j - 64 * i)) by lia.
      rewrite (Hp i w) by (done || lia). rewrite E. apply Z.bits_0.
    + right. pose proof (Hval w (Hall _ _ Hl)) as Hv. unfold is_u64 in Hv.
      destruct (ctz64_spec (val w)) as (m & -> & Hm & Hset & Hclr); [lia|]. cbn.
      unfold BITMAP_WORD_BITS. rewrite (u64_small (i * 64)), u64_small by lia.
      assert (∀ j, 0 ≤ j < 64 * i + m → p j = false) as Hno.
      { intros j Hj. destruct (decide (j < 64 * i)); [by apply Hlow; lia|].
        replace j with (64 * i + (j - 64 * i)) by lia.
        rewrite (Hp i w) by (done || lia). apply Hclr. lia. }
      destruct (Z.ltb_spec (i * 64 + m) (bm_nbits b)).
      * eexists. split; [done|]. right. rewrite (Z.mul_comm i 64) in *.
        split; [lia|]. split; [|done]. rewrite (Hp i w) by (done || lia). done.
      * eexists. split; [done|]. left. split; [done|]. intros j Hj. apply Hno. lia.
  - exists BITMAP_NONE. split; [done|]. left. split; [done|]. intros i Hi. apply H. lia.
  - exists x. done.
Qed.

Lemma bitmap_find_first_zero_spec b :
  bitmap_wf b → ∃ x, bitmap_find_first_zero b = Ret x ∧
              first_where (λ i, negb (bm_bit b i)) (bm_nbits b) x.
Proof.
  intros Hwf. apply (find_first_word b not64); [done|..].
  - intros w Hw. apply u64_range.
  - intros i w Hl Hi k Hk. rewrite testbit_not64 by lia. f_equal.
    by apply bit_in_word.
Qed.

Lemma bitmap_find_first_set_spec b :
  bitmap_wf b → ∃ x, bitmap_find_first_set b = Ret x ∧ first_where (bm_bit b) (bm_nbits b) x.
Proof.
  intros Hwf. apply (find_first_word b (λ w, w)); [done..|].
  intros i w Hl Hi k Hk. by apply bit_in_word.
Qed.

(** [start] begins a run of [count] clear bits below [nbits]. *)
Definition zero_run (b : bitmap) (count start : Z) : Prop :=
  0 ≤ start ∧ start + count ≤ bm_nbits b ∧ ∀ k, start ≤ k < start + count → bm_bit b k = false.

Lemma bitmap_find_zero_run_spec b count :
  bitmap_wf b → 0 < count < 2 ^ 64 →
  ∃ x, bitmap_find_zero_run b count = Ret x ∧
       ((x = BITMAP_NONE ∧ ∀ s, ¬ zero_run b count s) ∨
        (zero_run b count x ∧ ∀ s, s < x → ¬ zero_run b count s)).
Proof.
  intros Hwf Hc. unfold bitmap_find_zero_run. destruct (Z.eqb_spec count 0); [lia|].
  pose proof Hwf as (Hn & Hmax & _).
  match goal with |- context [find_range _ _ ?body _] =>
    destruct (find_range_inv (λ p '(run, start),
        0 ≤ run < count ∧ run ≤ p ∧ (0 < run → start = p - run) ∧
        (∀ k, p - run ≤ k < p → bm_bit b k = false) ∧
        (∀ s, s < p - run → ¬ zero_run b count s))
      (λ x, zero_run b count x ∧ ∀ s, s < x → ¬ zero_run b count s)
      body 0 (bm_nbits b) (0, 0))
      as [([run start] & -> & H)|(x & -> & H)] end; [lia|..].
  - intros p [run start] Hp (Hrun & Hle & Hst & Hz & Hno).
    rewrite bitmap_test_spec by (done || lia). cbn.
    destruct (Z.ltb_spec p (bm_nbits b)); [|lia]. cbn. destruct (bm_bit b p) eqn:Eb; cbn.
    + left. eexists. split; [done|]. cbn. repeat split; try lia.
      intros s Hs Hr. destruct (decide (s < p - run)); [by apply (Hno s)|].
      destruct Hr as (_ & _ & Hr). rewrite Hr in Eb by lia. discriminate.
    + rewrite u64_small by lia.
      assert ((if run =? 0 then p else start) = p - run) as ->.
      { destruct (Z.eqb_spec run 0); [lia|]. apply Hst. lia. }
      assert (∀ k, p - run ≤ k < p + 1 → bm_bit b k = false) as Hz'.
      { intros k Hk. destruct (decide (k = p)); [by subst|]. apply Hz. lia. }
      destruct (Z.eqb_spec (run + 1) count).
      * right. eexists. split; [done|]. split; [|done].
        split; [lia|]. split; [lia|]. intros k Hk. apply Hz'. lia.
      * left. eexists. split; [done|]. cbn. repeat split; try lia.
        -- intros k Hk. apply Hz'. lia.
        -- intros s Hs. apply Hno. lia.
  - repeat split; try lia. intros s Hs (? & _). lia.
  - cbn in H. destruct H as (Hrun & Hle & _ & _ & Hno).
    exists BITMAP_NONE. split; [done|]. left. split; [done|].
    intros s Hr. apply (Hno s); [|done]. destruct Hr as (? & ? & _). lia.
  - exists x. cbn. split; [done|]. by right.
Qed.

(** ** Whole-bitmap and range updates *)

(** Storing [v] in every word. *)
Lemma store_all (ws : list Z) v :
  for_range 0 (zlen ws) (λ i ws, aset ws i v) ws = Ret (replicate (length ws) v).
Proof.
  destruct (for_range_inv (λ i ws', length ws' = length ws ∧
      ∀ k, 0 ≤ k < i → ws' !! Z.to_nat k = Some v) (λ i ws, aset ws i v) 0 (zlen ws) ws)
    as (ws' & -> & Hl & Hk); [apply zlen_nonneg| |split; [done|lia]|].
  - intros i ws' Hi [Hl Hk]. assert (zlen ws' = zlen ws) as Hz by (unfold zlen; lia).
    rewrite aset_in by lia. eexists. split; [done|]. rewrite length_insert.
    split; [done|]. intros k Hk'. rewrite lookup_insert_Z by lia.
    dec_if; [done|]. apply Hk. lia.
  - f_equal. apply list_eq. intros k. destruct (decide (k < length ws)%nat).
    + rewrite lookup_replicate_2 by done. rewrite <-(Nat2Z.id k). apply Hk. unfold zlen. lia.
    + rewrite !lookup_ge_None_2; [done|rewrite length_replicate|]; lia.
Qed.

Lemma bit_replicate n v m i :
  0 ≤ i → bm_bit (mk_bitmap (replicate n v) m) i =
          if decide (i < 64 * Z.of_nat n) then Z.testbit v (i mod 64) else false.
Proof.
  intros Hi. unfold bm_bit; cbn. assert (0 ≤ i / 64) by (apply Z.div_pos; lia).
  dec_if.
  - rewrite lookup_replicate_2; [done|]. zlia.
  - rewrite lookup_ge_None_2; [done|]. rewrite length_replicate. zlia.
Qed.

Lemma wf_replicate b v : bitmap_wf b → is_u64 v → bitmap_wf (mk_bitmap (replicate (length (bm_words b)) v) (bm_nbits b)).
Proof.
  intros (Hn & Hmax & Hlen & _) Hv. repeat split; cbn; try done.
  - unfold zlen in *. rewrite length_replicate. done.
  - by apply Forall_replicate.
Qed.

Lemma bitmap_zero_spec b :
  bitmap_wf b → ∃ b', bitmap_zero b = Ret b' ∧ bitmap_wf b' ∧ bm_nbits b' = bm_nbits b ∧
               ∀ i, 0 ≤ i → bm_bit b' i = false.
Proof.
  intros Hwf. unfold bitmap_zero. rewrite (proj1 (wf_words_eq b Hwf)), store_all. cbn.
  eexists. split; [done|]. split; [by apply wf_replicate|]. split; [done|].
  intros i Hi. rewrite bit_replicate by done. dec_if; [apply Z.bits_0|done].
Qed.

(** The mask of the low [tail] bits. *)
Lemma tail_mask t :
  0 ≤ t < 64 → u64 (u64 (Z.shiftl 1 t) - 1) = Z.ones t.
Proof.
  intros Ht. rewrite Z.shiftl_1_l, Z.ones_equiv.
  assert (0 < 2 ^ t < 2 ^ 64) by (split; [lia|apply Z.pow_lt_mono_r; lia]).
  rewrite (u64_small (2 ^ t)), u64_small by lia. lia.
Qed.

Lemma testbit_not64_0 k : 0 ≤ k < 64 → Z.testbit (not64 0) k = true.
Proof. intros Hk. by rewrite testbit_not64, Z.bits_0. Qed.

Lemma bitmap_fill_spec b :
  bitmap_wf b → ∃ b', bitmap_fill b = Ret b' ∧ bitmap_wf b' ∧ bm_nbits b' = bm_nbits b ∧
               ∀ i, 0 ≤ i → bm_bit b' i = (i <? bm_nbits b).
Proof.
  intros Hwf. unfold bitmap_fill. destruct (wf_words_eq b Hwf) as [-> Hw].
  pose proof Hwf as (Hn & Hmax & Hlen & _). pose proof (zlen_nonneg (bm_words b)).
  rewrite store_all. cbn [mbind outcome_bind]. unfold BITMAP_WORD_BITS.
  assert (0 ≤ bm_nbits b mod 64 < 64) as Ht by (apply Z.mod_pos_bound; lia).
  rewrite u32_small by lia.
  pose proof (wf_replicate b (not64 0) Hwf (u64_range _)) as Hwf1.
  set (b1 := mk_bitmap (replicate (length (bm_words b)) (not64 0)) (bm_nbits b)) in *.
  assert (∀ i, 0 ≤ i → bm_bit b1 i = bool_decide (i < 64 * zlen (bm_words b))) as Hb1.
  { intros i Hi. unfold b1. rewrite bit_replicate by done. unfold zlen.
    dec_if; case_bool_decide; try lia; try done.
    apply testbit_not64_0. apply Z.mod_pos_bound. lia. }
  destruct (Z.eqb_spec (bm_nbits b mod 64) 0) as [E|E].
  - exists b1. split; [done|]. split; [done|]. split; [done|]. intros i Hi.
    rewrite Hb1 by done. destruct (Z.ltb_spec i (bm_nbits b)); case_bool_decide; try done; zlia.
  - set (k := zlen (bm_words b) - 1). assert (0 ≤ k < zlen (bm_words b1)) as Hk.
    { unfold b1, k; cbn. rewrite zlen_replicate. unfold zlen in *. zlia. }
    rewrite !(u64_small k) by (unfold k in *; lia).
    change (replicate (length (bm_words b)) (not64 0)) with (bm_words b1).
    assert (bm_words b1 !! Z.to_nat k = Some (not64 0)) as Hl.
    { unfold b1; cbn. apply lookup_replicate_2. unfold k, zlen in *. lia. }
    rewrite (aget_Some _ _ _ (proj1 Hk) Hl). cbn [mbind outcome_bind].
    rewrite aset_in by done. cbn [mbind outcome_bind]. rewrite tail_mask by done.
    eexists. split; [done|].
    assert (is_u64 (Z.land (not64 0) (Z.ones (bm_nbits b mod 64)))) as Hu.
    { apply (land_u_range _ _ 64); [lia|]. apply u64_range. }
    split; [|split; [done|]].
    + destruct Hwf1 as (? & ? & Hl1 & Hall). repeat split; cbn; try done.
      * by rewrite zlen_insert.
      * by apply Forall_insert.
    + intros i Hi. unfold bm_bit; cbn [bm_words]. assert (0 ≤ i / 64) by (apply Z.div_pos; lia).
      rewrite lookup_insert_Z by done. pose proof (Hb1 i Hi) as Hbi. unfold bm_bit in Hbi.
      assert (0 ≤ i mod 64 < 64) by (apply Z.mod_pos_bound; lia).
      destruct (decide (k = i / 64)) as [Ek|Ek].
      * rewrite Z.land_spec, testbit_not64_0, Z.testbit_ones_nonneg by lia.
        cbn. destruct (Z.ltb_spec (i mod 64) (bm_nbits b mod 64)),
          (Z.ltb_spec i (bm_nbits b)); unfold k in *; try done; zlia.
      * rewrite Hbi. unfold k in *.
        destruct (Z.ltb_spec i (bm_nbits b)); case_bool_decide; try done; zlia.
Qed.

(** A range update through single-bit updates with value [v]. *)
Lemma range_update (f : bitmap → Z → outcome bitmap) (v : bool) :
  (∀ b i, bitmap_wf b → 0 ≤ i → ∃ b', f b i = Ret b' ∧ bitmap_wf b' ∧ bm_nbits b' = bm_nbits b ∧
     ∀ j, 0 ≤ j → bm_bit b' j = if decide (j = i ∧ i < bm_nbits b) then v else bm_bit b j) →
  ∀ b start count, bitmap_wf b → 0 ≤ start → 0 ≤ count → start + count < 2 ^ 64 →
  ∃ b', for_range 0 count (λ i b, f b (u64 (start + i))) b = Ret b' ∧ bitmap_wf b' ∧
        bm_nbits b' = bm_nbits b ∧
        ∀ j, 0 ≤ j → bm_bit b' j =
          if decide (start ≤ j < start + count ∧ j < bm_nbits b) then v else bm_bit b j.
Proof.
  intros Hf b start count Hwf Hs Hc Hmax.
  destruct (for_range_inv (λ i b', bitmap_wf b' ∧ bm_nbits b' = bm_nbits b ∧
      ∀ j, 0 ≤ j → bm_bit b' j =
        if decide (start ≤ j < start + i ∧ j < bm_nbits b) then v else bm_bit b j)
      (λ i b, f b (u64 (start + i))) 0 count b) as (b' & -> & H); [done| | |by exists b'].
  - intros i b1 Hi (Hwf1 & Hn1 & Hb1). rewrite u64_small by lia.
    destruct (Hf b1 (start + i) Hwf1) as (b2 & -> & Hwf2 & Hn2 & Hb2); [lia|].
    exists b2. split; [done|]. split; [done|]. split; [lia|].
    intros j Hj. rewrite Hb2, Hb1 by done. repeat dec_if; try done; lia.
  - split; [done|]. split; [done|]. intros j Hj. dec_if; [lia|done].
Qed.

Lemma bitmap_set_range_spec b start count :
  bitmap_wf b → 0 ≤ start → 0 ≤ count → start + count < 2 ^ 64 →
  ∃ b', bitmap_set_range b start count = Ret b' ∧ bitmap_wf b' ∧ bm_nbits b' = bm_nbits b ∧
        ∀ j, 0 ≤ j → bm_bit b' j =
          if decide (start ≤ j < start + count ∧ j < bm_nbits b) then true else bm_bit b j.
Proof. apply (range_update bitmap_set true). apply bitmap_set_spec. Qed.

Lemma bitmap_clear_range_spec b start count :
  bitmap_wf b → 0 ≤ start → 0 ≤ count → start + count < 2 ^ 64 →
  ∃ b', bitmap_clear_range b start count = Ret b' ∧ bitmap_wf b' ∧ bm_nbits b' = bm_nbits b ∧
        ∀ j, 0 ≤ j → bm_bit b' j =
          if decide (start ≤ j < start + count ∧ j < bm_nbits b) then false else bm_bit b j.
Proof. apply (range_update bitmap_clear false). apply bitmap_clear_spec. Qed.

(** ** Correctness *)

Lemma BITMAP_NONE_big b : bitmap_wf b → bm_nbits b < BITMAP_NONE.
Proof. intros (? & ? & _). unfold BITMAP_NONE. change (u64 (-1)) with (2 ^ 64 - 1). lia. Qed.

Lemma padding_clear_aligned b : bitmap_wf b → bm_nbits b mod 64 = 0 → padding_clear b.
Proof.
  intros Hwf Hm i Hi. apply bit_beyond; [done|]. pose proof (wf_words_eq b Hwf). zlia.
Qed.

Lemma weight_set b b' x :
  0 ≤ x < bm_nbits b → bm_nbits b' = bm_nbits b → bm_bit b x = false → bm_bit b' x = true →
  (∀ j, 0 ≤ j → j ≠ x → bm_bit b' j = bm_bit b j) → bm_weight b' = bm_weight b + 1.
Proof.
  intros Hx Hn Hf Ht Ho. unfold bm_weight. rewrite Hn.
  rewrite (zcount_update (bm_bit b') (bm_bit b) _ x); [rewrite Hf, Ht; cbn; lia|lia|].
  intros i Hi Hne. apply Ho; [lia|done].
Qed.

(** [bitmap_alloc] never touches memory outside the bitmap and is first
    fit: it returns [BITMAP_NONE] and changes nothing exactly when all [nbits]
    bits are set; otherwise it returns the lowest clear bit, sets that bit and
    no other, and the weight reported by [bitmap_weight] grows by one. *)
Theorem bitmap_alloc_first_fit b :
  bitmap_wf b → padding_clear b →
  ∃ x b', bitmap_alloc b = Ret (x, b') ∧ bitmap_wf b' ∧ padding_clear b' ∧
    ((x = BITMAP_NONE ∧ b' = b ∧ ∀ i, 0 ≤ i < bm_nbits b → bm_bit b i = true) ∨
     (0 ≤ x < bm_nbits b ∧ bitmap_test b x = Ret 0 ∧ (∀ i, 0 ≤ i < x → bm_bit b i = true) ∧
      bitmap_test b' x = Ret 1 ∧ (∀ j, 0 ≤ j → j ≠ x → bm_bit b' j = bm_bit b j) ∧
      bitmap_weight b' = Ret (bm_weight b + 1))).
Proof.
  intros Hwf Hpad. unfold bitmap_alloc.
  destruct (bitmap_find_first_zero_spec b Hwf) as (x & -> & Hx).
  pose proof (BITMAP_NONE_big b Hwf) as Hnone. cbn [mbind outcome_bind].
  destruct Hx as [[-> Hall]|(Hx & Hz & Hlow)].
  - rewrite Z.eqb_refl. exists BITMAP_NONE, b. repeat split; try apply Hwf; [done|].
    left. repeat split; try done. intros i Hi. apply negb_false_iff, Hall. done.
  - destruct (Z.eqb_spec x BITMAP_NONE); [lia|].
    destruct (bitmap_set_spec b x Hwf) as (b' & -> & Hwf' & Hn' & Hb'); [lia|].
    cbn [mbind outcome_bind]. apply negb_true_iff in Hz.
    assert (∀ j, 0 ≤ j → j ≠ x → bm_bit b' j = bm_bit b j) as Ho.
    { intros j Hj Hne. rewrite Hb' by done. dec_if; [lia|done]. }
    assert (bm_bit b' x = true) as Ht.
    { rewrite Hb' by lia. dec_if; [done|lia]. }
    assert (padding_clear b') as Hpad'.
    { intros i Hi. destruct Hwf. rewrite Ho by lia. apply Hpad. lia. }
    exists x, b'. split; [done|]. split; [done|]. split; [done|]. right.
    rewrite !bitmap_test_spec, bitmap_weight_spec, Hn', Hz, Ht by (done || lia).
    destruct (Z.ltb_spec x (bm_nbits b)); [|lia]. cbn.
    repeat split; try done; try lia.
    + intros i Hi. by apply negb_false_iff, Hlow.
    + f_equal. by apply (weight_set b b' x).
Qed.

Lemma bitmap_alloc_first_fit_witness :
  bitmap_wf (mk_bitmap [7; 0] 128) ∧ ∃ b', bitmap_alloc (mk_bitmap [7; 0] 128) = Ret (3, b') ∧
  bitmap_weight b' = Ret 4.
Proof.
  assert (bitmap_wf (mk_bitmap [7; 0] 128)) as Hwf.
  { by apply bitmap_wfb_wf. }
  split; [done|]. assert (padding_clear (mk_bitmap [7; 0] 128)) as Hp.
  { by apply padding_clear_aligned. }
  destruct (bitmap_alloc_first_fit _ Hwf Hp) as (x & b' & E & _ & _ & H).
  assert (x = 3) as -> by (vm_compute in E; congruence). exists b'. split; [done|].
  destruct H as [(? & _)|(_ & _ & _ & _ & _ & H)]; [discriminate|exact H].
Defined.

(** The SWAR population count agrees with counting bits one by one, and
    [bitmap_weight] is the number of set bits below [nbits]. *)
Theorem bitmap_weight_counts b :
  bitmap_wf b → padding_clear b →
  (∀ w, is_u64 w → popcount64 w = zcount (Z.testbit w) 64) ∧
  bitmap_weight b = Ret (zcount (bm_bit b) (Z.to_nat (bm_nbits b))).
Proof. intros Hwf Hpad. split; [apply popcount64_spec|by apply bitmap_weight_spec]. Qed.

Lemma bitmap_weight_counts_witness :
  bitmap_weight (mk_bitmap [0xF0F0; 3] 128) = Ret 10.
Proof.
  assert (bitmap_wf (mk_bitmap [0xF0F0; 3] 128)) as Hwf.
  { by apply bitmap_wfb_wf. }
  destruct (bitmap_weight_counts _ Hwf (padding_clear_aligned _ Hwf eq_refl)) as [_ ->].
  vm_compute. reflexivity.
Defined.

(** [bitmap_find_zero_run] returns the leftmost start of [count]
    consecutive clear bits, or [BITMAP_NONE] when there is no such run. *)
Theorem bitmap_find_zero_run_leftmost b count :
  bitmap_wf b → 0 < count < 2 ^ 64 →
  ∃ x, bitmap_find_zero_run b count = Ret x ∧
       ((x = BITMAP_NONE ∧ ∀ s, ¬ zero_run b count s) ∨
        (zero_run b count x ∧ ∀ s, s < x → ¬ zero_run b count s)).
Proof. apply bitmap_find_zero_run_spec. Qed.

Lemma bitmap_find_zero_run_leftmost_witness :
  zero_run (mk_bitmap [0x1FB] 64) 3 9.
Proof.
  assert (bitmap_wf (mk_bitmap [0x1FB] 64)) as Hwf.
  { by apply bitmap_wfb_wf. }
  destruct (bitmap_find_zero_run_leftmost _ 3 Hwf) as (x & E & H); [lia|].
  assert (x = 9) as -> by (vm_compute in E; congruence).
  destruct H as [[? _]|[H _]]; [discriminate|exact H].
Defined.
