(* ===== verification/Idr.v ===== *)
(** The id allocator, [kernel/lib/idr.h] and [kernel/lib/idr.c]: small integer
    handles in [base .. base + capacity - 1], kept in a bitmap and handed out
    round robin from a hint. *)

From S2P Require Import Prelude Bitmap.

(** ** Definitions *)

(** [storage] is the pointer field: whether the bitmap words are allocated. *)
Record idr := mk_idr {
  idr_map : bitmap;
  idr_storage : bool;
  idr_base : Z;
  idr_capacity : Z;
  idr_next_hint : Z;
}.

(** [ws] is what [kcalloc(words, sizeof(uint64_t))] returns: [None] for [NULL]. *)
Definition idr_init (ws : option (list Z)) (d : idr) (bs cap : Z) : outcome (Z * idr) :=
  match ws with
  | None => Ret (-1, mk_idr (idr_map d) false (idr_base d) (idr_capacity d) (idr_next_hint d))
  | Some ws =>
      m ← bitmap_zero (bitmap_attach ws cap);
      Ret (0, mk_idr m true bs cap 0)
  end.

(** After [kfree] the words are gone: [map] keeps a dangling pointer. *)
Definition idr_destroy (d : idr) : idr :=
  if idr_storage d
  then mk_idr (mk_bitmap [] (bm_nbits (idr_map d))) false (idr_base d) 0 (idr_next_hint d)
  else mk_idr (idr_map d) (idr_storage d) (idr_base d) 0 (idr_next_hint d).

(** The body of the inner loop: take position [i] if it is free. *)
Definition idr_alloc_body (d : idr) (i : Z) (_ : unit) : outcome (unit + Z * idr) :=
  t ← bitmap_test (idr_map d) i;
  if t =? 0 then
    m ← bitmap_set (idr_map d) i;
    let hint := if u32 (i + 1) <? idr_capacity d then u32 (i + 1) else 0 in
    Ret (inr (i32 (u32 (idr_base d + i)), mk_idr m (idr_storage d) (idr_base d) (idr_capacity d) hint))
  else Ret (inl tt).

Definition idr_alloc (d : idr) : outcome (Z * idr) :=
  r ← find_range 0 2
        (λ pass (_ : unit),
           let start := if pass =? 0 then idr_next_hint d else 0 in
           let stop := if pass =? 0 then idr_capacity d else idr_next_hint d in
           find_range start stop (idr_alloc_body d) tt) tt;
  Ret (match r with inl _ => (-1, d) | inr x => x end).

Definition idr_reserve (d : idr) (id : Z) : outcome (Z * idr) :=
  if id <? idr_base d then Ret (-1, d)
  else
    let i := u32 (id - idr_base d) in
    if idr_capacity d <=? i then Ret (-1, d)
    else
      t ← bitmap_test (idr_map d) i;
      if negb (t =? 0) then Ret (-1, d)
      else
        m ← bitmap_set (idr_map d) i;
        Ret (0, mk_idr m (idr_storage d) (idr_base d) (idr_capacity d) (idr_next_hint d)).

Definition idr_free (d : idr) (id : Z) : outcome idr :=
  if id <? idr_base d then Ret d
  else
    let i := u32 (id - idr_base d) in
    if i <? idr_capacity d then
      m ← bitmap_clear (idr_map d) i;
      Ret (mk_idr m (idr_storage d) (idr_base d) (idr_capacity d) (idr_next_hint d))
    else Ret d.

Definition idr_in_use (d : idr) (id : Z) : outcome Z :=
  if id <? idr_base d then Ret 0
  else
    let i := u32 (id - idr_base d) in
    if idr_capacity d <=? i then Ret 0 else bitmap_test (idr_map d) i.

Definition idr_used (d : idr) : outcome Z := w ← bitmap_weight (idr_map d); Ret (u32 w).

(** ** Specification *)

(** The allocator is initialised, its bitmap has [capacity] bits, the hint is a
    position, and all its ids are non-negative as an [int]. *)
Definition idr_wf (d : idr) : Prop :=
  bitmap_wf (idr_map d) ∧ padding_clear (idr_map d) ∧ bm_nbits (idr_map d) = idr_capacity d ∧
  0 ≤ idr_base d ∧ 0 ≤ idr_capacity d ∧ idr_base d + idr_capacity d < 2 ^ 31 ∧
  0 ≤ idr_next_hint d ∧ (idr_next_hint d < idr_capacity d ∨ idr_next_hint d = 0).

(** The ids in use. *)
Definition idr_live (d : idr) (id : Z) : Prop :=
  idr_base d ≤ id < idr_base d + idr_capacity d ∧ bm_bit (idr_map d) (id - idr_base d) = true.

(** [i] is the first free position from [hint] on, wrapping around once. *)
Definition next_fit (used : Z → bool) (cap hint i : Z) : Prop :=
  used i = false ∧
  ((hint ≤ i ∧ ∀ j, hint ≤ j < i → used j = true) ∨
   (i < hint ∧ (∀ j, hint ≤ j < cap → used j = true) ∧ ∀ j, 0 ≤ j < i → used j = true)).

Lemma find_range_0_2 {S R} (body : Z → S → outcome (S + R)) s :
  find_range 0 2 body s =
  (r ← body 0 s; match r with
                 | inl s' => r ← body 1 s'; match r with
                                            | inl s'' => Ret (inl s'')
                                            | inr x => Ret (inr x)
                                            end
                 | inr x => Ret (inr x)
                 end).
Proof. reflexivity. Qed.

(** Setting or clearing one position keeps the allocator well formed. *)
Lemma idr_wf_update d m hint v i :
  idr_wf d → bitmap_wf m → bm_nbits m = bm_nbits (idr_map d) → 0 ≤ i < idr_capacity d →
  (∀ j, 0 ≤ j → bm_bit m j = if decide (j = i ∧ i < bm_nbits (idr_map d)) then v else bm_bit (idr_map d) j) →
  0 ≤ hint → (hint < idr_capacity d ∨ hint = 0) →
  idr_wf (mk_idr m (idr_storage d) (idr_base d) (idr_capacity d) hint).
Proof.
  intros (Hwf & Hpad & Hn & ? & ? & ? & _) Hm Hnm Hi Hb Hh Hh'.
  repeat split; cbn; try done; try apply Hm; try lia.
  intros j Hj. rewrite Hb by lia. dec_if; [lia|]. apply Hpad. lia.
Qed.

(** One pass of the search over [lo .. hi-1]. *)
Lemma idr_pass d lo hi :
  idr_wf d → 0 ≤ lo → hi ≤ idr_capacity d → lo ≤ hi →
  (find_range lo hi (idr_alloc_body d) tt = Ret (inl tt) ∧ ∀ j, lo ≤ j < hi → bm_bit (idr_map d) j = true) ∨
  (∃ i d', find_range lo hi (idr_alloc_body d) tt = Ret (inr (idr_base d + i, d')) ∧ lo ≤ i < hi ∧
     bm_bit (idr_map d) i = false ∧ (∀ j, lo ≤ j < i → bm_bit (idr_map d) j = true) ∧
     idr_wf d' ∧ idr_base d' = idr_base d ∧ idr_capacity d' = idr_capacity d ∧
     idr_next_hint d' = (i + 1) mod idr_capacity d ∧
     ∀ j, 0 ≤ j → bm_bit (idr_map d') j = if decide (j = i) then true else bm_bit (idr_map d) j).
Proof.
  intros Hd Hlo Hhi Hle. pose proof Hd as (Hwf & Hpad & Hn & Hb & Hc & Hmax & _).
  destruct (find_range_inv (λ i (_ : unit), ∀ j, lo ≤ j < i → bm_bit (idr_map d) j = true)
    (λ '(r, d'), ∃ i, r = idr_base d + i ∧ lo ≤ i < hi ∧
     bm_bit (idr_map d) i = false ∧ (∀ j, lo ≤ j < i → bm_bit (idr_map d) j = true) ∧
     idr_wf d' ∧ idr_base d' = idr_base d ∧ idr_capacity d' = idr_capacity d ∧
     idr_next_hint d' = (i + 1) mod idr_capacity d ∧
     ∀ j, 0 ≤ j → bm_bit (idr_map d') j = if decide (j = i) then true else bm_bit (idr_map d) j)
    (idr_alloc_body d) lo hi tt) as [([] & E & H)|([r d'] & E & i & -> & H)]; [done| |lia|by left|].
  - intros i [] Hi Hlow. unfold idr_alloc_body. rewrite bitmap_test_spec by (done || lia). cbn.
    rewrite Hn. destruct (Z.ltb_spec i (idr_capacity d)); [|lia]. cbn.
    destruct (bm_bit (idr_map d) i) eqn:Eb; cbn.
    + left. exists tt. split; [done|]. intros j Hj.
      destruct (decide (j = i)); [by subst|]. apply Hlow. lia.
    + right. destruct (bitmap_set_spec (idr_map d) i Hwf) as (m & -> & Hm & Hnm & Hbm); [lia|].
      cbn. eexists (_, _). split; [reflexivity|]. exists i.
      rewrite !u32_small by lia.
      assert (i32 (idr_base d + i) = idr_base d + i) as -> by (unfold i32; zlia).
      assert ((if i + 1 <? idr_capacity d then i + 1 else 0) = (i + 1) mod idr_capacity d) as ->.
      { destruct (Z.ltb_spec (i + 1) (idr_capacity d)).
        - symmetry. apply Z.mod_small. lia.
        - assert (i + 1 = idr_capacity d) as -> by lia. symmetry. apply Z_mod_same_full. }
      assert (0 ≤ (i + 1) mod idr_capacity d < idr_capacity d) by (apply Z.mod_pos_bound; lia).
      do 4 (split; [done || lia|]). split.
      { apply (idr_wf_update d m _ true i); try done; lia. }
      do 3 (split; [done|]). intros j Hj. cbn. rewrite Hbm by done.
      repeat dec_if; try done; lia.
  - right. exists i, d'. done.
Qed.

Lemma idr_in_use_spec d id :
  idr_wf d → 0 ≤ id < 2 ^ 32 →
  ∃ t, idr_in_use d id = Ret t ∧ (t = 1 ↔ idr_live d id) ∧ (t = 0 ↔ ¬ idr_live d id).
Proof.
  intros (Hwf & Hpad & Hn & Hb & Hc & Hmax & _) Hid. unfold idr_in_use, idr_live.
  destruct (Z.ltb_spec id (idr_base d)); [exists 0; repeat split; lia|].
  rewrite u32_small by lia. destruct (Z.leb_spec (idr_capacity d) (id - idr_base d)).
  { exists 0; repeat split; lia. }
  rewrite bitmap_test_spec, Hn by (done || lia).
  destruct (Z.ltb_spec (id - idr_base d) (idr_capacity d)); [|lia]. cbn.
  eexists. split; [reflexivity|].
  destruct (bm_bit (idr_map d) (id - idr_base d)); cbn; intuition (try lia; try congruence).
Qed.

(** ** Correctness *)

(** [idr_alloc] returns [-1] and changes nothing exactly when every id is
    in use. Otherwise it returns an id of the range that was not in use, chosen
    next-fit from the hint (not the lowest free id); that id becomes in use, the
    state of every other id is kept, and the hint moves just past it. *)
Theorem idr_alloc_next_fit d :
  idr_wf d →
  ∃ r d', idr_alloc d = Ret (r, d') ∧ idr_wf d' ∧
    ((r = -1 ∧ d' = d ∧ ∀ id, idr_base d ≤ id < idr_base d + idr_capacity d → idr_live d id) ∨
     (idr_base d ≤ r < idr_base d + idr_capacity d ∧ ¬ idr_live d r ∧
      next_fit (bm_bit (idr_map d)) (idr_capacity d) (idr_next_hint d) (r - idr_base d) ∧
      (∀ id, idr_live d' id ↔ idr_live d id ∨ id = r) ∧
      idr_next_hint d' = (r - idr_base d + 1) mod idr_capacity d)).
Proof.
  intros Hd. pose proof Hd as (Hwf & Hpad & Hn & Hb & Hc & Hmax & Hh & Hh').
  unfold idr_alloc. rewrite find_range_0_2. change (0 =? 0) with true.
  change (1 =? 0) with false. cbv zeta iota.
  assert (∀ i d', 0 ≤ i < idr_capacity d → bm_bit (idr_map d) i = false →
    idr_base d' = idr_base d → idr_capacity d' = idr_capacity d →
    (∀ j, 0 ≤ j → bm_bit (idr_map d') j = if decide (j = i) then true else bm_bit (idr_map d) j) →
    ¬ idr_live d (idr_base d + i) ∧ ∀ id, idr_live d' id ↔ idr_live d id ∨ id = idr_base d + i) as Hlive.
  { intros i d' Hi Hf Eb Ec Hj. unfold idr_live. rewrite Eb, Ec. split.
    - intros [_ H]. rewrite Z.add_simpl_l in H. congruence.
    - intros id. split.
      + intros [Hr Hbit]. destruct (decide (id = idr_base d + i)); [by right|left].
        split; [done|]. rewrite Hj in Hbit by lia. revert Hbit. dec_if; [lia|done].
      + intros [[Hr Hbit]|Hr].
        * split; [done|]. rewrite Hj by lia. by dec_if.
        * split; [lia|]. rewrite Hj by lia. dec_if; [done|lia]. }
  destruct (idr_pass d (idr_next_hint d) (idr_capacity d) Hd)
    as [[-> H1]|(i & d' & -> & Hi & Hf & Hlow & Hwf' & Eb & Ec & Eh & Hj)]; [lia..| |].
  - cbn [mbind outcome_bind].
    destruct (idr_pass d 0 (idr_next_hint d) Hd)
      as [[-> H2]|(i & d' & -> & Hi & Hf & Hlow & Hwf' & Eb & Ec & Eh & Hj)]; [lia..| |].
    + cbn [mbind outcome_bind]. exists (-1), d. split; [done|]. split; [done|]. left.
      split; [done|]. split; [done|]. intros id Hid. split; [done|].
      destruct (decide (id - idr_base d < idr_next_hint d)); [apply H2|apply H1]; lia.
    + cbn [mbind outcome_bind]. exists (idr_base d + i), d'. split; [done|]. split; [done|].
      right. rewrite Z.add_simpl_l. destruct (Hlive i d') as [Hl1 Hl2]; [lia|done..|].
      split; [lia|]. split; [done|]. split; [|split; [done|done]].
      split; [done|]. right. split; [lia|done].
  - cbn [mbind outcome_bind]. exists (idr_base d + i), d'. split; [done|]. split; [done|].
    right. rewrite Z.add_simpl_l. destruct (Hlive i d') as [Hl1 Hl2]; [lia|done..|].
    split; [lia|]. split; [done|]. split; [|split; [done|done]].
    split; [done|]. left. split; [lia|done].
Qed.

Lemma idr_alloc_next_fit_witness :
  ∃ d', idr_alloc (mk_idr (mk_bitmap [0x17] 64) true 100 64 2) = Ret (103, d') ∧
        idr_next_hint d' = 4.
Proof.
  assert (idr_wf (mk_idr (mk_bitmap [0x17] 64) true 100 64 2)) as Hd.
  { assert (bitmap_wf (mk_bitmap [0x17] 64)) by (by apply bitmap_wfb_wf).
    split; [done|]. split; [by apply padding_clear_aligned|]. repeat split; cbn; lia. }
  destruct (idr_alloc_next_fit _ Hd) as (r & d' & E & _ & H).
  assert (r = 103) as -> by (vm_compute in E; congruence).
  exists d'. split; [exact E|].
  destruct H as [(? & _)|(_ & _ & _ & _ & H)]; [discriminate|exact H].
Defined.

(** Freeing an id makes exactly that id free, and reserving a free id of
    the range makes exactly that id in use; reserving fails, without a change,
    exactly when the id is outside the range or already in use. *)
Theorem idr_free_reserve d id :
  idr_wf d → 0 ≤ id < 2 ^ 32 →
  (∃ d', idr_free d id = Ret d' ∧ idr_wf d' ∧
         ∀ x, idr_live d' x ↔ idr_live d x ∧ x ≠ id) ∧
  (∃ r d', idr_reserve d id = Ret (r, d') ∧ idr_wf d' ∧
     ((r = -1 ∧ d' = d ∧ (¬ (idr_base d ≤ id < idr_base d + idr_capacity d) ∨ idr_live d id)) ∨
      (r = 0 ∧ idr_base d ≤ id < idr_base d + idr_capacity d ∧ ¬ idr_live d id ∧
       ∀ x, idr_live d' x ↔ idr_live d x ∨ x = id))).
Proof.
  intros Hd Hid. pose proof Hd as (Hwf & Hpad & Hn & Hb & Hc & Hmax & Hh & Hh').
  unfold idr_free, idr_reserve. destruct (Z.ltb_spec id (idr_base d)).
  { split.
    - exists d. split; [done|]. split; [done|]. unfold idr_live. intros x. split; [|tauto].
      intros Hx. split; [done|]. lia.
    - exists (-1), d. split; [done|]. split; [done|]. left. repeat split. left. lia. }
  rewrite u32_small by lia.
  destruct (Z.ltb_spec (id - idr_base d) (idr_capacity d)), (Z.leb_spec (idr_capacity d) (id - idr_base d));
    try lia.
  2:{ split.
      - exists d. split; [done|]. split; [done|]. unfold idr_live. intros x. split; [|tauto].
        intros Hx. split; [done|]. lia.
      - exists (-1), d. split; [done|]. split; [done|]. left. repeat split. left. lia. }
  destruct (bitmap_clear_spec (idr_map d) (id - idr_base d) Hwf) as (mc & -> & Hmc & Hnc & Hbc); [lia|].
  destruct (bitmap_set_spec (idr_map d) (id - idr_base d) Hwf) as (ms & -> & Hms & Hns & Hbs); [lia|].
  rewrite bitmap_test_spec by (done || lia). cbn [mbind outcome_bind].
  rewrite Hn in *. destruct (Z.ltb_spec (id - idr_base d) (idr_capacity d)); [|lia].
  split.
  - eexists. split; [reflexivity|]. split.
    + eapply (idr_wf_update d mc _ false (id - idr_base d)); rewrite ?Hn; try done; lia.
    + intros x. unfold idr_live; cbn. split.
      * intros [Hr Hx]. rewrite Hbc in Hx by lia. revert Hx. dec_if; [done|].
        intros Hx. repeat split; try done; lia.
      * intros [[Hr Hx] Hne]. split; [done|]. rewrite Hbc by lia. dec_if; [lia|done].
  - cbn [andb]. destruct (bm_bit (idr_map d) (id - idr_base d)) eqn:Eb; cbn.
    + exists (-1), d. split; [done|]. split; [done|]. left. repeat split. right.
      split; [lia|done].
    + eexists 0, _. split; [reflexivity|]. split.
      { eapply (idr_wf_update d ms _ true (id - idr_base d)); rewrite ?Hn; try done; lia. }
      right. unfold idr_live; cbn. split; [done|]. split; [lia|]. split.
      { intros [_ ?]. congruence. }
      intros x. split.
      * intros [Hr Hx]. rewrite Hbs in Hx by lia. revert Hx. dec_if; [right; lia|].
        intros Hx. left. done.
      * intros [[Hr Hx]| ->].
        -- split; [done|]. rewrite Hbs by lia. by dec_if.
        -- split; [lia|]. rewrite Hbs by lia. dec_if; [done|lia].
Qed.

Lemma idr_free_reserve_witness :
  ∃ d', idr_free (mk_idr (mk_bitmap [0x17] 64) true 100 64 2) 101 = Ret d' ∧ ¬ idr_live d' 101.
Proof.
  assert (idr_wf (mk_idr (mk_bitmap [0x17] 64) true 100 64 2)) as Hd.
  { assert (bitmap_wf (mk_bitmap [0x17] 64)) by (by apply bitmap_wfb_wf).
    split; [done|]. split; [by apply padding_clear_aligned|]. repeat split; cbn; lia. }
  destruct (idr_free_reserve _ 101 Hd) as [(d' & E & _ & H) _]; [lia|].
  exists d'. split; [exact E|]. intros Hl. apply H in Hl. lia.
Defined.
