(* ===== verification/Ringbuf.v ===== *)
(** The byte ring buffer, [kernel/lib/ringbuf.h] and [kernel/lib/ringbuf.c],
    and its refinement of a bounded FIFO queue. *)

From S2P Require Import Prelude.

(** ** Definitions *)

Record ringbuf := mk_ringbuf {
  rb_data : list Z;
  rb_capacity : Z;
  rb_head : Z;
  rb_tail : Z;
  rb_count : Z;
}.

Definition ringbuf_init (data : list Z) (cap : Z) : ringbuf := mk_ringbuf data cap 0 0 0.

Definition ringbuf_empty (r : ringbuf) : bool := rb_count r =? 0.
Definition ringbuf_full (r : ringbuf) : bool := rb_count r =? rb_capacity r.
Definition ringbuf_used (r : ringbuf) : Z := rb_count r.
Definition ringbuf_free (r : ringbuf) : Z := u64 (rb_capacity r - rb_count r).

(** [r->data[r->head] = c; r->head = (r->head + 1) % r->capacity; r->count++;] *)
Definition rb_store (r : ringbuf) (c : Z) : outcome ringbuf :=
  data ← aset (rb_data r) (rb_head r) c;
  head ← umod (u64 (rb_head r + 1)) (rb_capacity r);
  Ret (mk_ringbuf data (rb_capacity r) head (rb_tail r) (u64 (rb_count r + 1))).

(** [r->tail = (r->tail + 1) % r->capacity; r->count--;] *)
Definition rb_drop (r : ringbuf) : outcome ringbuf :=
  tail ← umod (u64 (rb_tail r + 1)) (rb_capacity r);
  Ret (mk_ringbuf (rb_data r) (rb_capacity r) (rb_head r) tail (u64 (rb_count r - 1))).

Definition ringbuf_putc (r : ringbuf) (c : Z) : outcome (Z * ringbuf) :=
  if ringbuf_full r then Ret (0, r)
  else r' ← rb_store r c; Ret (1, r').

(** The second component is [*out], when it is written. *)
Definition ringbuf_getc (r : ringbuf) : outcome (Z * option Z * ringbuf) :=
  if ringbuf_empty r then Ret (0, None, r)
  else
    c ← aget (rb_data r) (rb_tail r);
    r' ← rb_drop r;
    Ret (1, Some c, r').

Definition ringbuf_peek (r : ringbuf) : outcome (Z * option Z) :=
  if ringbuf_empty r then Ret (0, None)
  else c ← aget (rb_data r) (rb_tail r); Ret (1, Some c).

(** [while (written < n && !ringbuf_full(r))]; at most [n] iterations. *)
Fixpoint ringbuf_write_loop (fuel : nat) (src : list Z) (n : Z) (r : ringbuf) (written : Z)
    : outcome (Z * ringbuf) :=
  if (written <? n) && negb (ringbuf_full r) then
    match fuel with
    | O => Loop
    | S fuel =>
        c ← aget src written;
        r' ← rb_store r c;
        ringbuf_write_loop fuel src n r' (u64 (written + 1))
    end
  else Ret (written, r).

Definition ringbuf_write (r : ringbuf) (src : list Z) (n : Z) : outcome (Z * ringbuf) :=
  ringbuf_write_loop (Z.to_nat n) src n r 0.

(** [while (got < n && !ringbuf_empty(r))]; [dst] is the caller's array. *)
Fixpoint ringbuf_read_loop (fuel : nat) (dst : list Z) (n : Z) (r : ringbuf) (got : Z)
    : outcome (Z * list Z * ringbuf) :=
  if (got <? n) && negb (ringbuf_empty r) then
    match fuel with
    | O => Loop
    | S fuel =>
        c ← aget (rb_data r) (rb_tail r);
        dst' ← aset dst got c;
        r' ← rb_drop r;
        ringbuf_read_loop fuel dst' n r' (u64 (got + 1))
    end
  else Ret (got, dst, r).

Definition ringbuf_read (r : ringbuf) (dst : list Z) (n : Z) : outcome (Z * list Z * ringbuf) :=
  ringbuf_read_loop (Z.to_nat n) dst n r 0.

Definition ringbuf_force_putc (r : ringbuf) (c : Z) : outcome (Z * ringbuf) :=
  if ringbuf_full r then
    r1 ← rb_drop r;
    r2 ← rb_store r1 c;
    Ret (1, r2)
  else
    r2 ← rb_store r c;
    Ret (0, r2).

Definition ringbuf_reset (r : ringbuf) : ringbuf :=
  mk_ringbuf (rb_data r) (rb_capacity r) 0 0 0.

(** ** Specification: a bounded queue *)

(** The [k]-th stored byte, counted from the oldest. *)
Definition rb_nth (r : ringbuf) (k : Z) : Z :=
  default 0 (rb_data r !! Z.to_nat ((rb_tail r + k) mod rb_capacity r)).

(** The stored bytes, oldest first. *)
Definition rb_contents (r : ringbuf) : list Z := rb_nth r <$> seqZ 0 (rb_count r).

Definition rb_wf (r : ringbuf) : Prop :=
  0 < rb_capacity r < 2 ^ 64 ∧ rb_capacity r ≤ zlen (rb_data r) ∧
  0 ≤ rb_tail r < rb_capacity r ∧ 0 ≤ rb_count r ≤ rb_capacity r ∧
  rb_head r = (rb_tail r + rb_count r) mod rb_capacity r.

(** Operations of the interface, with the arrays they are given. *)
Inductive rb_op :=
| OpPutc (c : Z)
| OpGetc
| OpPeek
| OpWrite (src : list Z)
| OpRead (dst : list Z)
| OpForcePutc (c : Z)
| OpReset.

(** What an operation returns: its result and what it wrote for the caller. *)
Record rb_obs := mk_obs { obs_ret : Z; obs_out : list Z }.

Definition rb_exec (o : rb_op) (r : ringbuf) : outcome (rb_obs * ringbuf) :=
  match o with
  | OpPutc c => '(v, r') ← ringbuf_putc r c; Ret (mk_obs v [], r')
  | OpGetc => '(v, out, r') ← ringbuf_getc r; Ret (mk_obs v (option_list out), r')
  | OpPeek => '(v, out) ← ringbuf_peek r; Ret (mk_obs v (option_list out), r)
  | OpWrite src => '(v, r') ← ringbuf_write r src (zlen src); Ret (mk_obs v [], r')
  | OpRead dst => '(v, dst', r') ← ringbuf_read r dst (zlen dst); Ret (mk_obs v dst', r')
  | OpForcePutc c => '(v, r') ← ringbuf_force_putc r c; Ret (mk_obs v [], r')
  | OpReset => Ret (mk_obs 0 [], ringbuf_reset r)
  end.

(** The same operations on a queue of at most [cap] bytes. *)
Definition queue_exec (cap : nat) (o : rb_op) (q : list Z) : rb_obs * list Z :=
  match o with
  | OpPutc c => if (length q =? cap)%nat then (mk_obs 0 [], q) else (mk_obs 1 [], q ++ [c])
  | OpGetc => match q with [] => (mk_obs 0 [], []) | x :: q' => (mk_obs 1 [x], q') end
  | OpPeek => match q with [] => (mk_obs 0 [], []) | x :: _ => (mk_obs 1 [x], q) end
  | OpWrite src =>
      let stored := take (cap - length q) src in (mk_obs (zlen stored) [], q ++ stored)
  | OpRead dst =>
      let got := take (length dst) q in
      (mk_obs (zlen got) (got ++ drop (length got) dst), drop (length got) q)
  | OpForcePutc c =>
      if (length q =? cap)%nat then (mk_obs 1 [], drop 1 q ++ [c]) else (mk_obs 0 [], q ++ [c])
  | OpReset => (mk_obs 0 [], [])
  end.

Fixpoint rb_run (os : list rb_op) (r : ringbuf) : outcome (list rb_obs * ringbuf) :=
  match os with
  | [] => Ret ([], r)
  | o :: os =>
      '(v, r') ← rb_exec o r;
      '(vs, r'') ← rb_run os r';
      Ret (v :: vs, r'')
  end.

Fixpoint queue_run (cap : nat) (os : list rb_op) (q : list Z) : list rb_obs * list Z :=
  match os with
  | [] => ([], q)
  | o :: os =>
      let '(v, q') := queue_exec cap o q in
      let '(vs, q'') := queue_run cap os q' in
      (v :: vs, q'')
  end.

(** ** Single steps *)

Lemma rb_contents_length r : rb_wf r → zlen (rb_contents r) = rb_count r.
Proof.
  intros (_ & _ & _ & Hc & _). unfold rb_contents, zlen.
  rewrite length_fmap, length_seqZ. lia.
Qed.

Lemma rb_contents_lookup r k :
  rb_wf r → (k < Z.to_nat (rb_count r))%nat →
  rb_contents r !! k = Some (rb_nth r (Z.of_nat k)).
Proof.
  intros _ Hk. unfold rb_contents. rewrite list_lookup_fmap, lookup_seqZ_lt by lia. done.
Qed.

Lemma rb_contents_eq r q :
  rb_wf r → zlen q = rb_count r →
  (∀ k, (k < length q)%nat → q !! k = Some (rb_nth r (Z.of_nat k))) → rb_contents r = q.
Proof.
  intros Hwf Hl Hk. apply list_eq_same_length with (length q).
  - done.
  - pose proof (rb_contents_length r Hwf). unfold zlen in *. lia.
  - intros k x y Hlt Hx Hy. rewrite rb_contents_lookup in Hx by (done || unfold zlen in *; lia).
    rewrite Hk in Hy by done. congruence.
Qed.

(** The index [(tail + k) mod capacity] of the [k]-th byte is in range, and
    different for different [k]. *)
Lemma mod_add_inj a i j m : 0 ≤ i < m → 0 ≤ j < m → (a + i) mod m = (a + j) mod m → i = j.
Proof.
  intros Hi Hj E. assert (m ≠ 0) by lia.
  pose proof (Z.div_mod (a + i) m ltac:(lia)). pose proof (Z.div_mod (a + j) m ltac:(lia)).
  assert (i - j = m * ((a + i) / m - (a + j) / m)) by lia.
  assert ((a + i) / m - (a + j) / m = 0) by nia. nia.
Qed.

Lemma rb_store_spec r c :
  rb_wf r → rb_count r < rb_capacity r →
  ∃ r', rb_store r c = Ret r' ∧ rb_wf r' ∧ rb_capacity r' = rb_capacity r ∧
        rb_contents r' = rb_contents r ++ [c].
Proof.
  intros Hwf Hlt. pose proof Hwf as (Hcap & Hlen & Ht & Hc & Hh). unfold rb_store.
  assert (0 ≤ rb_head r < rb_capacity r) as Hhr.
  { rewrite Hh. apply Z.mod_pos_bound. lia. }
  rewrite aset_in by lia. cbn [mbind outcome_bind].
  rewrite umod_pos by lia. cbn [mbind outcome_bind]. rewrite !u64_small by lia.
  eexists. split; [reflexivity|].
  match goal with |- rb_wf ?x ∧ _ => assert (rb_wf x) as Hwf' end.
  { repeat split; cbn; try lia; try (by rewrite zlen_insert).
    rewrite Hh, Zplus_mod_idemp_l. f_equal. lia. }
  split; [done|]. split; [done|]. apply rb_contents_eq; [done|..].
  - rewrite zlen_app, rb_contents_length by done. cbn. unfold zlen. cbn. lia.
  - intros k Hk. pose proof (rb_contents_length r Hwf) as Hl. rewrite length_app in Hk.
    cbn in Hk. unfold rb_nth at 1; cbn. unfold zlen in Hl.
    pose proof (Z.mod_pos_bound (rb_tail r + Z.of_nat k) (rb_capacity r) ltac:(lia)).
    rewrite lookup_insert_Z by lia. dec_if as E.
    + assert (Z.of_nat k = rb_count r) as Ek.
      { apply (mod_add_inj (rb_tail r) _ _ (rb_capacity r)); [lia..|]. congruence. }
      rewrite lookup_app_r by lia. replace (k - _)%nat with O by lia. done.
    + assert (Z.of_nat k ≠ rb_count r) by (intros Ek; rewrite Ek in E; congruence).
      rewrite lookup_app_l by lia. rewrite rb_contents_lookup by (done || lia). done.
Qed.

Lemma rb_head_byte r :
  rb_wf r → 0 < rb_count r →
  ∃ c q, aget (rb_data r) (rb_tail r) = Ret c ∧ rb_contents r = c :: q.
Proof.
  intros Hwf Hpos. pose proof Hwf as (Hcap & Hlen & Ht & Hc & Hh).
  destruct (aget_in (rb_data r) (rb_tail r)) as (c & Hl & Hg); [lia|].
  destruct (rb_contents r) as [|c' q] eqn:E.
  { pose proof (rb_contents_length r Hwf) as H. rewrite E in H. unfold zlen in H; cbn in H. lia. }
  exists c, q. split; [done|]. f_equal.
  pose proof (rb_contents_lookup r 0 Hwf ltac:(lia)) as H0. rewrite E in H0.
  unfold rb_nth in H0. change (Z.of_nat 0) with 0 in H0.
  rewrite Z.add_0_r, (Z.mod_small (rb_tail r)), Hl in H0 by lia.
  cbn in H0. congruence.
Qed.

Lemma rb_drop_spec r :
  rb_wf r → 0 < rb_count r →
  ∃ r', rb_drop r = Ret r' ∧ rb_wf r' ∧ rb_capacity r' = rb_capacity r ∧
        rb_contents r' = drop 1 (rb_contents r).
Proof.
  intros Hwf Hpos. pose proof Hwf as (Hcap & Hlen & Ht & Hc & Hh). unfold rb_drop.
  rewrite umod_pos by lia. cbn [mbind outcome_bind]. rewrite !u64_small by lia.
  eexists. split; [reflexivity|].
  pose proof (Z.mod_pos_bound (rb_tail r + 1) (rb_capacity r) ltac:(lia)).
  match goal with |- rb_wf ?x ∧ _ => assert (rb_wf x) as Hwf' end.
  { repeat split; cbn; try lia. rewrite Hh, Zplus_mod_idemp_l. f_equal. lia. }
  split; [done|]. split; [done|]. pose proof (rb_contents_length r Hwf) as Hl.
  apply rb_contents_eq; [done|..].
  - unfold zlen in *. rewrite length_drop. cbn. lia.
  - intros k Hk. rewrite length_drop in Hk. unfold zlen in Hl.
    rewrite lookup_drop, rb_contents_lookup by (done || lia). f_equal.
    unfold rb_nth. cbn [rb_data rb_tail rb_capacity]. rewrite Zplus_mod_idemp_l.
    by replace (rb_tail r + 1 + Z.of_nat k) with (rb_tail r + Z.of_nat (1 + k)) by lia.
Qed.

(** ** The loops *)

Lemma rb_full_spec r : ringbuf_full r = bool_decide (rb_count r = rb_capacity r).
Proof. unfold ringbuf_full. destruct (Z.eqb_spec (rb_count r) (rb_capacity r));
  case_bool_decide; done. Qed.

Lemma ringbuf_write_loop_spec fuel src r w :
  rb_wf r → zlen src < 2 ^ 64 → 0 ≤ w ≤ zlen src → zlen src - w ≤ Z.of_nat fuel →
  ∃ r', ringbuf_write_loop fuel src (zlen src) r w =
          Ret (w + Z.min (zlen src - w) (rb_capacity r - rb_count r), r') ∧
        rb_wf r' ∧ rb_capacity r' = rb_capacity r ∧
        rb_contents r' = rb_contents r ++
          take (Z.to_nat (rb_capacity r - rb_count r)) (drop (Z.to_nat w) src).
Proof.
  revert r w. induction fuel as [|fuel IH]; intros r w Hwf Hsrc Hw Hf;
    pose proof Hwf as (Hcap & Hlen & Ht & Hc & Hh); cbn [ringbuf_write_loop];
    rewrite rb_full_spec.
  - destruct (Z.ltb_spec w (zlen src)); [lia|]. cbn. exists r.
    rewrite drop_ge by (unfold zlen in *; lia). rewrite take_nil, app_nil_r.
    repeat split; try done; try apply Hwf. do 2 f_equal. lia.
  - case_bool_decide as Hfull.
    + rewrite andb_false_r. exists r. rewrite Hfull, Z.sub_diag, app_nil_r.
      repeat split; try done; try apply Hwf. do 2 f_equal. lia.
    + destruct (Z.ltb_spec w (zlen src)); cbn [andb negb].
      2:{ exists r. rewrite drop_ge by (unfold zlen in *; lia).
          rewrite take_nil, app_nil_r.
          repeat split; try done; try apply Hwf. do 2 f_equal. lia. }
      destruct (aget_in src w) as (c & Hl & ->); [lia|]. cbn [mbind outcome_bind].
      destruct (rb_store_spec r c Hwf) as (r1 & -> & Hwf1 & Hcap1 & Hq1); [lia|].
      cbn [mbind outcome_bind]. rewrite u64_small by lia.
      assert (rb_count r1 = rb_count r + 1) as Hc1.
      { pose proof (rb_contents_length r Hwf). pose proof (rb_contents_length r1 Hwf1).
        rewrite Hq1, zlen_app in *. change (zlen [c]) with 1 in *. lia. }
      destruct (IH r1 (w + 1) Hwf1) as (r' & -> & Hwf' & Hcap' & Hq'); [lia..|].
      exists r'. split; [do 2 f_equal; lia|]. split; [done|]. split; [lia|].
      rewrite Hq', Hq1, Hcap1, Hc1, <-app_assoc. f_equal.
      rewrite (drop_S src c (Z.to_nat w)) by done.
      replace (Z.to_nat (rb_capacity r - rb_count r))
        with (S (Z.to_nat (rb_capacity r - (rb_count r + 1)))) by lia.
      cbn. do 2 f_equal. f_equal. lia.
Qed.

Lemma ringbuf_read_loop_spec fuel dst r g :
  rb_wf r → zlen dst < 2 ^ 64 → 0 ≤ g ≤ zlen dst → zlen dst - g ≤ Z.of_nat fuel →
  ∃ r', let got := take (Z.to_nat (zlen dst - g)) (rb_contents r) in
        ringbuf_read_loop fuel dst (zlen dst) r g =
          Ret (g + zlen got, take (Z.to_nat g) dst ++ got ++
                             drop (Z.to_nat g + length got) dst, r') ∧
        rb_wf r' ∧ rb_capacity r' = rb_capacity r ∧
        rb_contents r' = drop (length got) (rb_contents r).
Proof.
  revert dst r g. induction fuel as [|fuel IH]; intros dst r g Hwf Hdst Hg Hf;
    pose proof Hwf as (Hcap & Hlen & Ht & Hc & Hh); cbn [ringbuf_read_loop];
    unfold ringbuf_empty.
  - destruct (Z.ltb_spec g (zlen dst)); [lia|]. cbn. exists r.
    replace (zlen dst - g) with 0 by lia. change (Z.to_nat 0) with O. rewrite take_0. cbn [length app].
    change (@zlen Z []) with 0. rewrite Nat.add_0_r, take_drop, drop_0, Z.add_0_r. repeat split; try done; apply Hwf.
  - destruct (Z.eqb_spec (rb_count r) 0) as [E|E].
    + rewrite andb_false_r. exists r.
      assert (rb_contents r = []) as ->.
      { pose proof (rb_contents_length r Hwf). destruct (rb_contents r); [done|].
        rewrite zlen_cons in *. pose proof (zlen_nonneg l). lia. }
      rewrite take_nil. cbn [length app drop]. change (@zlen Z []) with 0. rewrite Nat.add_0_r, take_drop, Z.add_0_r.
      repeat split; try done; apply Hwf.
    + destruct (Z.ltb_spec g (zlen dst)); cbn [andb negb].
      2:{ exists r. replace (zlen dst - g) with 0 by lia. change (Z.to_nat 0) with O. rewrite take_0.
          cbn [length app]. change (@zlen Z []) with 0.
          rewrite Nat.add_0_r, take_drop, drop_0, Z.add_0_r. repeat split; try done; apply Hwf. }
      destruct (rb_head_byte r Hwf) as (c & q & -> & Hq); [lia|]. cbn [mbind outcome_bind].
      rewrite aset_in by lia. cbn [mbind outcome_bind].
      destruct (rb_drop_spec r Hwf) as (r1 & -> & Hwf1 & Hcap1 & Hq1); [lia|].
      cbn [mbind outcome_bind]. rewrite u64_small by lia. rewrite Hq in Hq1. cbn in Hq1.
      destruct (IH (<[Z.to_nat g:=c]> dst) r1 (g + 1) Hwf1) as (r' & HI); rewrite ?zlen_insert in *;
        [lia..|]. cbv zeta in HI. destruct HI as (-> & Hwf' & Hcap' & Hq').
      exists r'. rewrite drop_0 in Hq1. rewrite Hq1 in *. rewrite Hq.
      replace (Z.to_nat (zlen dst - g)) with (S (Z.to_nat (zlen dst - (g + 1)))) by lia.
      cbn [take]. set (got := take _ q) in *. split; [|split; [done|split; [lia|done]]].
      rewrite zlen_cons. do 3 f_equal; [lia|].
      replace (Z.to_nat (g + 1)) with (S (Z.to_nat g)) by lia.
      rewrite (take_S_r _ _ c) by (apply list_lookup_insert_eq; unfold zlen in *; lia).
      rewrite take_insert_ge by lia. rewrite <-app_assoc. cbn. do 3 f_equal.
      rewrite drop_insert_lt by lia. f_equal. lia.
Qed.

(** ** Refinement *)

(** The arrays passed to an operation fit in memory. *)
Definition rb_op_ok (o : rb_op) : Prop :=
  match o with
  | OpWrite src => zlen src < 2 ^ 64
  | OpRead dst => zlen dst < 2 ^ 64
  | _ => True
  end.

Lemma rb_length_cap r :
  rb_wf r →
  length (rb_contents r) = Z.to_nat (rb_count r) ∧
  (length (rb_contents r) =? Z.to_nat (rb_capacity r))%nat = ringbuf_full r.
Proof.
  intros Hwf. pose proof (rb_contents_length r Hwf) as Hl. unfold zlen in Hl.
  destruct Hwf as (? & ? & ? & ? & _). split; [lia|]. rewrite rb_full_spec.
  destruct (Nat.eqb_spec (length (rb_contents r)) (Z.to_nat (rb_capacity r)));
    case_bool_decide; done || lia.
Qed.

(** One operation on the ring buffer is the same operation on the queue. *)
Lemma rb_exec_refines o r :
  rb_wf r → rb_op_ok o →
  ∃ r', rb_exec o r = Ret ((queue_exec (Z.to_nat (rb_capacity r)) o (rb_contents r)).1, r') ∧
        rb_wf r' ∧ rb_capacity r' = rb_capacity r ∧
        rb_contents r' = (queue_exec (Z.to_nat (rb_capacity r)) o (rb_contents r)).2.
Proof.
  intros Hwf Hok. destruct (rb_length_cap r Hwf) as [Hlen Hfull].
  pose proof Hwf as (Hcap & Hdata & Ht & Hc & Hh).
  assert (rb_count r = 0 → rb_contents r = []) as Hnil.
  { intros E. rewrite E in Hlen. by apply nil_length_inv. }
  destruct o as [c| | |src|dst|c|]; cbn [rb_exec queue_exec].
  - unfold ringbuf_putc. rewrite Hfull. destruct (ringbuf_full r) eqn:E.
    + cbn. eauto.
    + apply Z.eqb_neq in E. destruct (rb_store_spec r c Hwf) as (r' & -> & ?); [lia|]. cbn. eauto.
  - unfold ringbuf_getc, ringbuf_empty. destruct (Z.eqb_spec (rb_count r) 0) as [E|E].
    + rewrite (Hnil E). cbn. rewrite <-(Hnil E). eauto.
    + destruct (rb_head_byte r Hwf) as (c & q & -> & Hq); [lia|].
      destruct (rb_drop_spec r Hwf) as (r' & E' & ? & ? & Hq'); [lia|].
      cbn [mbind outcome_bind]. rewrite E'. rewrite Hq in *. cbn in *. eauto.
  - unfold ringbuf_peek, ringbuf_empty. destruct (Z.eqb_spec (rb_count r) 0) as [E|E].
    + rewrite (Hnil E). cbn. rewrite <-(Hnil E). eauto.
    + destruct (rb_head_byte r Hwf) as (c & q & -> & Hq); [lia|].
      rewrite Hq. cbn. rewrite <-Hq. eauto.
  - cbn in Hok. unfold ringbuf_write.
    destruct (ringbuf_write_loop_spec (Z.to_nat (zlen src)) src r 0 Hwf Hok)
      as (r' & -> & ? & ? & Hq'); [pose proof (zlen_nonneg src); lia..|].
    cbn. exists r'. rewrite Hlen. rewrite drop_0 in Hq'.
    replace (Z.to_nat (rb_capacity r) - Z.to_nat (rb_count r))%nat
      with (Z.to_nat (rb_capacity r - rb_count r)) by lia.
    split; [|done]. do 3 f_equal. unfold zlen. rewrite length_take. unfold zlen in *. lia.
  - cbn in Hok. unfold ringbuf_read.
    destruct (ringbuf_read_loop_spec (Z.to_nat (zlen dst)) dst r 0 Hwf Hok)
      as (r' & HI); [pose proof (zlen_nonneg dst); lia..|].
    cbv zeta in HI. destruct HI as (-> & ? & ? & Hq'). cbn [mbind outcome_bind fst snd].
    rewrite Z.sub_0_r in *. replace (Z.to_nat (zlen dst)) with (length dst) in *
      by (unfold zlen; lia).
    exists r'. rewrite Z.add_0_l. change (Z.to_nat 0) with O. rewrite take_0. cbn. done.
  - unfold ringbuf_force_putc. rewrite Hfull. destruct (ringbuf_full r) eqn:E.
    + apply Z.eqb_eq in E.
      destruct (rb_drop_spec r Hwf) as (r1 & -> & Hwf1 & Hcap1 & Hq1); [lia|].
      cbn [mbind outcome_bind].
      assert (rb_count r1 = rb_count r - 1).
      { pose proof (rb_contents_length r1 Hwf1). unfold zlen in *.
        rewrite Hq1, length_drop, Hlen in *. lia. }
      destruct (rb_store_spec r1 c Hwf1) as (r2 & -> & Hwf2 & Hcap2 & Hq2); [lia|].
      cbn. exists r2. rewrite Hq2, Hq1. split; [done|]. split; [done|]. split; [lia|done].
    + apply Z.eqb_neq in E. destruct (rb_store_spec r c Hwf) as (r' & -> & ?); [lia|]. cbn. eauto.
  - exists (ringbuf_reset r). split; [done|].
    assert (rb_wf (ringbuf_reset r)) as Hw by (repeat split; cbn; try lia; rewrite Z.mod_0_l; lia).
    done.
Qed.

Lemma rb_init_wf data cap :
  0 < cap < 2 ^ 64 → cap ≤ zlen data →
  rb_wf (ringbuf_init data cap) ∧ rb_contents (ringbuf_init data cap) = [].
Proof.
  intros Hc Hl. split; [|done]. repeat split; cbn; try lia.
Qed.

(** C29. The ring buffer is a bounded FIFO queue: for every sequence of
    operations from initialisation, no access leaves the storage, every loop
    ends, and each result and every byte handed to the caller are those of a
    queue of [cap] bytes on which the same operations run. *)
Theorem ringbuf_refines_queue data cap os :
  0 < cap < 2 ^ 64 → cap ≤ zlen data → Forall rb_op_ok os →
  ∃ r', rb_run os (ringbuf_init data cap) = Ret ((queue_run (Z.to_nat cap) os []).1, r') ∧
        rb_wf r' ∧ rb_contents r' = (queue_run (Z.to_nat cap) os []).2.
Proof.
  intros Hc Hl Hos. destruct (rb_init_wf data cap Hc Hl) as [Hwf Hq].
  assert (rb_capacity (ringbuf_init data cap) = cap) as Ecap by done. revert Hwf Hq Ecap.
  generalize (ringbuf_init data cap) as r. generalize (@nil Z) as q.
  induction Hos as [|o os Ho Hos IH]; intros q r Hwf Hq Ecap; cbn [rb_run queue_run].
  - exists r. done.
  - destruct (rb_exec_refines o r Hwf Ho) as (r1 & -> & Hwf1 & Hcap1 & Hq1).
    rewrite Ecap, Hq in Hq1. cbn [mbind outcome_bind]. rewrite Ecap, Hq.
    destruct (queue_exec (Z.to_nat cap) o q) as [v q1] eqn:Eq. cbn in Hq1. cbn [fst].
    destruct (IH q1 r1 Hwf1 Hq1) as (r' & -> & Hwf' & Hq'); [lia|].
    destruct (queue_run (Z.to_nat cap) os q1) as [vs q'']. cbn in *. eauto.
Qed.

Lemma ringbuf_refines_queue_witness :
  ∃ r', rb_run [OpWrite [1; 2; 3; 4]; OpGetc; OpForcePutc 9; OpForcePutc 10; OpRead [0; 0; 0; 0]]
          (ringbuf_init [0; 0; 0] 3) =
        Ret ([mk_obs 3 []; mk_obs 1 [1]; mk_obs 0 []; mk_obs 1 []; mk_obs 3 [3; 9; 10; 0]], r').
Proof.
  destruct (ringbuf_refines_queue [0; 0; 0] 3
    [OpWrite [1; 2; 3; 4]; OpGetc; OpForcePutc 9; OpForcePutc 10; OpRead [0; 0; 0; 0]])
    as (r' & E & _); [lia|vm_compute; congruence|repeat constructor|].
  exists r'. exact E.
Defined.
