(* ===== verification/Klist.v ===== *)
(** The intrusive circular doubly linked list, [kernel/lib/list.h] and
    [kernel/lib/list.c], over an explicit store of link fields. The operations
    are related to lists of node addresses; [list_sort] is shown to be a stable
    sort that only relinks the given nodes. *)

From stdpp Require Import sorting.
From S2P Require Import Prelude.

(** ** Definitions *)

(** The memory that holds the link nodes: one map per field of
    [struct list_node], from the address of a node to the pointer stored there.
    An access to an address that holds no node is a [Fault]. *)
Record store := mk_store { st_next : gmap Z Z; st_prev : gmap Z Z }.

Definition get_next (st : store) (p : Z) : outcome Z :=
  match st_next st !! p with Some q => Ret q | None => Fault end.
Definition get_prev (st : store) (p : Z) : outcome Z :=
  match st_prev st !! p with Some q => Ret q | None => Fault end.
Definition set_next (st : store) (p q : Z) : outcome store :=
  _ ← get_next st p; Ret (mk_store (<[p := q]> (st_next st)) (st_prev st)).
Definition set_prev (st : store) (p q : Z) : outcome store :=
  _ ← get_prev st p; Ret (mk_store (st_next st) (<[p := q]> (st_prev st))).

Definition NULL : Z := 0.

Definition list_init (st : store) (n : Z) : outcome store :=
  st ← set_next st n n;
  set_prev st n n.

Definition list_empty (st : store) (head : Z) : outcome bool :=
  p ← get_next st head; Ret (p =? head).

Definition __list_add (st : store) (n prev next : Z) : outcome store :=
  st ← set_prev st next n;
  st ← set_next st n next;
  st ← set_prev st n prev;
  set_next st prev n.

Definition list_add (st : store) (n head : Z) : outcome store :=
  next ← get_next st head; __list_add st n head next.

Definition list_add_tail (st : store) (n head : Z) : outcome store :=
  prev ← get_prev st head; __list_add st n prev head.

Definition __list_del (st : store) (prev next : Z) : outcome store :=
  st ← set_prev st next prev;
  set_next st prev next.

Definition list_del (st : store) (n : Z) : outcome store :=
  prev ← get_prev st n;
  next ← get_next st n;
  st ← __list_del st prev next;
  st ← set_next st n NULL;
  set_prev st n NULL.

Definition list_del_init (st : store) (n : Z) : outcome store :=
  prev ← get_prev st n;
  next ← get_next st n;
  st ← __list_del st prev next;
  list_init st n.

Definition list_linked (st : store) (n : Z) : outcome bool :=
  p ← get_next st n; Ret (negb (p =? n) && negb (p =? NULL)).

Definition list_move (st : store) (n head : Z) : outcome store :=
  prev ← get_prev st n;
  next ← get_next st n;
  st ← __list_del st prev next;
  list_add st n head.

Definition list_move_tail (st : store) (n head : Z) : outcome store :=
  prev ← get_prev st n;
  next ← get_next st n;
  st ← __list_del st prev next;
  list_add_tail st n head.

Definition list_is_first (st : store) (n head : Z) : outcome bool :=
  p ← get_prev st n; Ret (p =? head).
Definition list_is_last (st : store) (n head : Z) : outcome bool :=
  p ← get_next st n; Ret (p =? head).

Definition list_splice_init (st : store) (src dst : Z) : outcome store :=
  e ← list_empty st src;
  if e : bool then Ret st
  else
    first ← get_next st src;
    last ← get_prev st src;
    st ← set_prev st first dst;
    dnext ← get_next st dst;
    st ← set_next st last dnext;
    dnext ← get_next st dst;
    st ← set_prev st dnext last;
    st ← set_next st dst first;
    list_init st src.

(** [while (p != head) { count++; p = p->next; }] *)
Fixpoint list_length_loop (fuel : nat) (st : store) (head p count : Z) : outcome Z :=
  if p =? head then Ret count
  else
    match fuel with
    | O => Loop
    | S fuel => p' ← get_next st p; list_length_loop fuel st head p' (u64 (count + 1))
    end.

Definition list_length (fuel : nat) (st : store) (head : Z) : outcome Z :=
  p ← get_next st head; list_length_loop fuel st head p 0.

Fixpoint list_contains_loop (fuel : nat) (st : store) (head n p : Z) : outcome Z :=
  if p =? head then Ret 0
  else if p =? n then Ret 1
  else
    match fuel with
    | O => Loop
    | S fuel => p' ← get_next st p; list_contains_loop fuel st head n p'
    end.

Definition list_contains (fuel : nat) (st : store) (head n : Z) : outcome Z :=
  p ← get_next st head; list_contains_loop fuel st head n p.

(** The [do ... while (p != head)] loop; [guard] is the iteration counter. *)
Fixpoint list_validate_loop (fuel : nat) (st : store) (head p guard : Z) : outcome Z :=
  match fuel with
  | O => Loop
  | S fuel =>
      n ← get_next st p;
      np ← get_prev st n;
      if negb (np =? p) then Ret 0
      else
        q ← get_prev st p;
        qn ← get_next st q;
        if negb (qn =? p) then Ret 0
        else
          p' ← get_next st p;
          let guard := u64 (guard + 1) in
          if 0x1000000 <? guard then Ret 0
          else if p' =? head then Ret 1
          else list_validate_loop fuel st head p' guard
  end.

Definition list_validate (fuel : nat) (st : store) (head : Z) : outcome Z :=
  list_validate_loop fuel st head head 0.

Section Sort.
Context (cmp : Z → Z → Z).

(** [while (pos != &sorted && cmp(pos, node) <= 0) pos = pos->next;] *)
Fixpoint sort_pos_loop (fuel : nat) (st : store) (sorted node pos : Z) : outcome Z :=
  if negb (pos =? sorted) && (cmp pos node <=? 0) then
    match fuel with
    | O => Loop
    | S fuel => pos' ← get_next st pos; sort_pos_loop fuel st sorted node pos'
    end
  else Ret pos.

Fixpoint list_sort_loop (fuel : nat) (bound : nat) (st : store) (head sorted node : Z)
    : outcome store :=
  if node =? head then Ret st
  else
    match fuel with
    | O => Loop
    | S fuel =>
        next ← get_next st node;
        pos ← get_next st sorted;
        pos ← sort_pos_loop bound st sorted node pos;
        prev ← get_prev st pos;
        st ← __list_add st node prev pos;
        list_sort_loop fuel bound st head sorted next
    end.

(** [sorted] is the address of the local list head; [fuel] bounds both loops. *)
Definition list_sort (fuel : nat) (st : store) (head sorted : Z) : outcome store :=
  e ← list_empty st head;
  if e : bool then Ret st
  else
    hn ← get_next st head;
    hnn ← get_next st hn;
    if hnn =? head then Ret st
    else
      st ← list_init st sorted;
      node ← get_next st head;
      st ← list_init st head;
      st ← list_sort_loop fuel fuel st head sorted node;
      list_splice_init st sorted head.

End Sort.

(** ** Specification *)

(** Consecutive nodes of [l] are linked in both directions. *)
Fixpoint links (st : store) (l : list Z) : Prop :=
  match l with
  | a :: (b :: _) as l' => st_next st !! a = Some b ∧ st_prev st !! b = Some a ∧ links st l'
  | _ => True
  end.

#[local] Arguments links : simpl never.
#[local] Arguments removelast : simpl never.

(** [head] is the sentinel of a list whose nodes are [xs], in order. *)
Definition dll (st : store) (head : Z) (xs : list Z) : Prop :=
  NoDup (head :: xs) ∧ links st (head :: xs ++ [head]).

(** The address holds a node. *)
Definition is_node (st : store) (p : Z) : Prop :=
  is_Some (st_next st !! p) ∧ is_Some (st_prev st !! p).

(** [st'] holds the same nodes as [st], with the same contents at every address
    outside [l]. *)
Definition only_touches (l : list Z) (st st' : store) : Prop :=
  (∀ p, p ∉ l → st_next st' !! p = st_next st !! p ∧ st_prev st' !! p = st_prev st !! p) ∧
  (∀ p, is_node st p → is_node st' p).

Lemma links_app st l1 a l2 :
  links st (l1 ++ a :: l2) ↔ links st (l1 ++ [a]) ∧ links st (a :: l2).
Proof.
  assert (∀ a b l, links st (a :: b :: l) ↔
    st_next st !! a = Some b ∧ st_prev st !! b = Some a ∧ links st (b :: l)) as Hc by done.
  assert (∀ a, links st [a]) as H1 by done.
  induction l1 as [|x l1 IH]; [cbn; pose proof (H1 a); tauto|].
  destruct l1 as [|y l1]; cbn [app] in *.
  - rewrite !Hc. pose proof (H1 a). tauto.
  - rewrite !Hc, IH. tauto.
Qed.

Lemma links_cons st a b l :
  links st (a :: b :: l) ↔ st_next st !! a = Some b ∧ st_prev st !! b = Some a ∧ links st (b :: l).
Proof. done. Qed.

(** Stores that agree on the fields the links are read from carry the same
    links: [next] of all but the last node, [prev] of all but the first. *)
Lemma links_frame st st' l :
  (∀ p, p ∈ removelast l → st_next st' !! p = st_next st !! p) →
  (∀ p, p ∈ tail l → st_prev st' !! p = st_prev st !! p) →
  links st l → links st' l.
Proof.
  induction l as [|a l IH]; intros Hn Hp; [done|]. destruct l as [|b l]; [done|].
  rewrite !links_cons. cbn [tail] in *.
  rewrite (Hn a), (Hp b) by (cbn; set_solver). intros (? & ? & ?). split; [done|].
  split; [done|]. apply IH; [|cbn; set_solver|done].
  intros p H'. apply Hn. change (removelast (a :: b :: l)) with (a :: removelast (b :: l)).
  set_solver.
Qed.

Lemma dll_frame st st' h xs :
  (∀ p, p ∈ h :: xs → st_next st' !! p = st_next st !! p ∧ st_prev st' !! p = st_prev st !! p) →
  dll st h xs → dll st' h xs.
Proof.
  intros H [Hnd Hl]. split; [done|]. revert Hl. apply links_frame; intros p Hp; apply H.
  - change (h :: xs ++ [h]) with ((h :: xs) ++ [h]) in Hp. by rewrite removelast_last in Hp.
  - cbn in Hp. set_solver.
Qed.

(** A list cut at any point: the node [p] before it, the node [q] after it. *)
Lemma dll_cut (h : Z) l1 l2 :
  ∃ k1 p q k2, h :: l1 = k1 ++ [p] ∧ l2 ++ [h] = q :: k2 ∧
               p = default h (last l1) ∧ q = hd h l2.
Proof.
  destruct (decide (l1 = [])) as [->|Hne].
  - destruct l2 as [|q l2]; eexists [], h, _, _; done.
  - destruct (exists_last Hne) as (l & p & ->).
    destruct l2 as [|q l2]; eexists (h :: l), p, _, _; rewrite last_snoc; done.
Qed.

(** ** Reading and writing fields *)

Lemma get_next_Some st p q : st_next st !! p = Some q → get_next st p = Ret q.
Proof. intros H. unfold get_next. by rewrite H. Qed.
Lemma get_prev_Some st p q : st_prev st !! p = Some q → get_prev st p = Ret q.
Proof. intros H. unfold get_prev. by rewrite H. Qed.
Lemma set_next_node st p q :
  is_node st p → set_next st p q = Ret (mk_store (<[p := q]> (st_next st)) (st_prev st)).
Proof. intros [[x H] _]. unfold set_next. by rewrite (get_next_Some _ _ _ H). Qed.
Lemma set_prev_node st p q :
  is_node st p → set_prev st p q = Ret (mk_store (st_next st) (<[p := q]> (st_prev st))).
Proof. intros [_ [x H]]. unfold set_prev. by rewrite (get_prev_Some _ _ _ H). Qed.

Lemma is_node_next st p q r : is_node st r → is_node (mk_store (<[p := q]> (st_next st)) (st_prev st)) r.
Proof. intros [H1 H2]. split; cbn; [|done]. rewrite lookup_insert. dec_if; done. Qed.
Lemma is_node_prev st p q r : is_node st r → is_node (mk_store (st_next st) (<[p := q]> (st_prev st))) r.
Proof. intros [H1 H2]. split; cbn; [done|]. rewrite lookup_insert. dec_if; done. Qed.

Lemma links_nodes st l p :
  links st l → p ∈ removelast l → p ∈ tail l → is_node st p.
Proof.
  intros Hl Hr Ht. split.
  - clear Ht. induction l as [|a l IH]; [set_solver|]. destruct l as [|b l]; [cbn in Hr; set_solver|].
    rewrite links_cons in Hl. destruct Hl as (H1 & H2 & H3).
    change (removelast (a :: b :: l)) with (a :: removelast (b :: l)) in Hr.
    apply elem_of_cons in Hr as [->|Hr]; [by rewrite H1|by apply IH].
  - clear Hr. induction l as [|a l IH]; [cbn in Ht; set_solver|].
    destruct l as [|b l]; [cbn in Ht; set_solver|].
    rewrite links_cons in Hl. destruct Hl as (H1 & H2 & H3). cbn [tail] in Ht.
    apply elem_of_cons in Ht as [->|Ht]; [by rewrite H2|by apply IH].
Qed.

Lemma dll_nodes st h xs p : dll st h xs → p ∈ h :: xs → is_node st p.
Proof.
  intros [_ Hl] Hp. apply (links_nodes _ _ _ Hl).
  - change (h :: xs ++ [h]) with ((h :: xs) ++ [h]). by rewrite removelast_last.
  - cbn. set_solver.
Qed.

(** ** Linking and unlinking one node *)

Lemma dll_cut_links st h l1 l2 k1 p q k2 :
  h :: l1 = k1 ++ [p] → l2 ++ [h] = q :: k2 →
  links st (h :: (l1 ++ l2) ++ [h]) ↔
  links st (k1 ++ [p]) ∧ st_next st !! p = Some q ∧ st_prev st !! q = Some p ∧ links st (q :: k2).
Proof.
  intros E1 E2.
  replace (h :: (l1 ++ l2) ++ [h]) with (k1 ++ p :: q :: k2).
  - rewrite links_app, links_cons. tauto.
  - rewrite <-app_assoc, E2. change (h :: l1 ++ q :: k2) with ((h :: l1) ++ q :: k2).
    rewrite E1, <-app_assoc. done.
Qed.

(** The addresses around a cut, for the frame conditions. *)
Lemma dll_cut_distinct (h : Z) l1 l2 k1 p q k2 :
  NoDup (h :: l1 ++ l2) → h :: l1 = k1 ++ [p] → l2 ++ [h] = q :: k2 →
  p ∉ k1 ∧ q ∉ tail (k1 ++ [p]) ∧ p ∉ removelast (q :: k2) ∧ q ∉ k2 ∧
  (∀ x, x ∈ k1 → x ∈ h :: l1) ∧ (∀ x, x ∈ tail (k1 ++ [p]) → x ∈ l1) ∧
  (∀ x, x ∈ removelast (q :: k2) → x ∈ l2) ∧ (∀ x, x ∈ k2 → x ∈ h :: l2) ∧
  p ∈ h :: l1 ∧ q ∈ h :: l2.
Proof.
  intros Hnd E1 E2. rewrite <-E1, <-E2, removelast_last. cbn [tail].
  assert (p ∈ h :: l1) as Hp by (rewrite E1; set_solver).
  assert (∀ x, x ∈ k1 → x ∈ h :: l1) as Hk1 by (intros x Hx; rewrite E1; set_solver).
  assert (h ∉ l1) as Hh by (apply NoDup_cons in Hnd as [? _]; set_solver).
  change (h :: l1 ++ l2) with ((h :: l1) ++ l2) in Hnd.
  apply NoDup_app in Hnd as (Hnd1 & Hdisj & Hnd2).
  assert (NoDup (q :: k2)) as Hnd3.
  { rewrite <-E2. apply NoDup_app. split; [done|]. split; [set_solver|apply NoDup_singleton]. }
  apply NoDup_cons in Hnd3 as [Hq _].
  assert (q ∈ l2 ++ [h]) as Hq' by (rewrite E2; set_solver).
  assert (∀ x, x ∈ k2 → x ∈ l2 ++ [h]) as Hk2 by (rewrite E2; set_solver).
  rewrite E1 in Hnd1. apply NoDup_app in Hnd1 as (_ & Hd & _).
  repeat split; try set_solver.
Qed.

Lemma NoDup_insert_node (h : Z) l1 n l2 :
  NoDup (h :: l1 ++ n :: l2) ↔ NoDup (n :: h :: l1 ++ l2).
Proof.
  assert (h :: l1 ++ n :: l2 ≡ₚ n :: h :: l1 ++ l2) as H.
  { rewrite <-Permutation_middle. apply perm_swap. }
  by rewrite H.
Qed.

Lemma __list_add_spec st h l1 l2 n :
  dll st h (l1 ++ l2) → n ∉ h :: l1 ++ l2 → is_node st n →
  ∃ st', __list_add st n (default h (last l1)) (hd h l2) = Ret st' ∧
         dll st' h (l1 ++ n :: l2) ∧ only_touches (n :: h :: l1 ++ l2) st st'.
Proof.
  intros Hd Hn Hnode. pose proof Hd as [Hnd Hl].
  destruct (dll_cut h l1 l2) as (k1 & p & q & k2 & E1 & E2 & <- & <-).
  destruct (dll_cut_distinct h l1 l2 k1 p q k2 Hnd E1 E2)
    as (D1 & D2 & D3 & D4 & D5 & D6 & D7 & D8 & D9 & D10).
  assert (is_node st p) as Hp by (apply (dll_nodes _ _ _ _ Hd); set_solver).
  assert (is_node st q) as Hq by (apply (dll_nodes _ _ _ _ Hd); set_solver).
  pose proof (proj1 (dll_cut_links st h l1 l2 k1 p q k2 E1 E2) Hl) as (L1 & L2 & L3 & L4).
  unfold __list_add. rewrite set_prev_node by done. cbn [mbind outcome_bind].
  rewrite set_next_node by (by apply is_node_prev). cbn [mbind outcome_bind st_next st_prev].
  rewrite set_prev_node by (by apply (is_node_next (mk_store _ _)), is_node_prev).
  cbn [mbind outcome_bind st_next st_prev].
  rewrite set_next_node
    by (by apply (is_node_prev (mk_store _ _)), (is_node_next (mk_store _ _)), is_node_prev).
  cbn [st_next st_prev]. eexists. split; [reflexivity|]. split; [split|].
  - apply NoDup_insert_node. by constructor.
  - assert (h :: (l1 ++ n :: l2) ++ [h] = k1 ++ p :: n :: q :: k2) as ->.
    { rewrite <-app_assoc. cbn. rewrite E2. change (h :: l1 ++ n :: q :: k2)
        with ((h :: l1) ++ n :: q :: k2). rewrite E1, <-app_assoc. done. }
    rewrite links_app, !links_cons; cbn [st_next st_prev].
    assert (n ≠ p) by set_solver. assert (n ≠ q) by set_solver.
    repeat split; simplify_map_eq; try done.
    + revert L1. apply links_frame; cbn [st_next st_prev]; intros x Hx.
      * rewrite removelast_last in Hx. rewrite !lookup_insert_ne; [done|set_solver..].
      * rewrite !lookup_insert_ne; [done|set_solver..].
    + revert L4. apply links_frame; cbn [st_next st_prev]; intros x Hx.
      * rewrite !lookup_insert_ne; [done|set_solver..].
      * cbn in Hx. rewrite !lookup_insert_ne; [done|set_solver..].
  - split; cbn [st_next st_prev].
    + intros x Hx. rewrite !lookup_insert_ne; [done|set_solver..].
    + intros x [H1 H2]. split; cbn; rewrite !lookup_insert; repeat dec_if; done.
Qed.

Lemma __list_del_spec st h l1 n l2 :
  dll st h (l1 ++ n :: l2) →
  st_prev st !! n = Some (default h (last l1)) ∧ st_next st !! n = Some (hd h l2) ∧
  ∃ st', __list_del st (default h (last l1)) (hd h l2) = Ret st' ∧
         dll st' h (l1 ++ l2) ∧ only_touches (h :: l1 ++ l2) st st'.
Proof.
  intros Hd. pose proof Hd as [Hnd Hl].
  destruct (dll_cut h l1 l2) as (k1 & p & q & k2 & E1 & E2 & <- & <-).
  assert (NoDup (n :: h :: l1 ++ l2)) as Hnd'.
  { by apply NoDup_insert_node. }
  apply NoDup_cons in Hnd' as [Hn Hnd'].
  destruct (dll_cut_distinct h l1 l2 k1 p q k2 Hnd' E1 E2)
    as (D1 & D2 & D3 & D4 & D5 & D6 & D7 & D8 & D9 & D10).
  assert (is_node st p) as Hp by (apply (dll_nodes _ _ _ _ Hd); set_solver).
  assert (is_node st q) as Hq by (apply (dll_nodes _ _ _ _ Hd); set_solver).
  assert (h :: (l1 ++ n :: l2) ++ [h] = k1 ++ p :: n :: q :: k2) as EL.
  { rewrite <-app_assoc. cbn. rewrite E2. change (h :: l1 ++ n :: q :: k2)
      with ((h :: l1) ++ n :: q :: k2). rewrite E1, <-app_assoc. done. }
  rewrite EL, links_app, !links_cons in Hl. destruct Hl as (L1 & L2 & L3 & L4 & L5 & L6).
  split; [done|]. split; [done|].
  unfold __list_del. rewrite set_prev_node by done. cbn [mbind outcome_bind].
  rewrite set_next_node by (by apply is_node_prev). cbn [st_next st_prev].
  eexists. split; [reflexivity|]. split; [split; [done|]|].
  - apply (dll_cut_links _ h l1 l2 k1 p q k2 E1 E2). cbn [st_next st_prev].
    repeat split; simplify_map_eq; try done.
    + revert L1. apply links_frame; cbn [st_next st_prev]; intros x Hx.
      * rewrite removelast_last in Hx. rewrite !lookup_insert_ne; [done|set_solver..].
      * rewrite !lookup_insert_ne; [done|set_solver..].
    + revert L6. apply links_frame; cbn [st_next st_prev]; intros x Hx.
      * rewrite !lookup_insert_ne; [done|set_solver..].
      * cbn in Hx. rewrite !lookup_insert_ne; [done|set_solver..].
  - split; cbn [st_next st_prev].
    + intros x Hx. rewrite !lookup_insert_ne; [done|set_solver..].
    + intros x [H1 H2]. split; cbn; rewrite !lookup_insert; repeat dec_if; done.
Qed.

Lemma only_touches_mono l k st st' :
  (∀ p, p ∈ l → p ∈ k) → only_touches l st st' → only_touches k st st'.
Proof. intros H [H1 H2]. split; [|done]. intros p Hp. apply H1. auto. Qed.

Lemma only_touches_trans l st st' st'' :
  only_touches l st st' → only_touches l st' st'' → only_touches l st st''.
Proof.
  intros [A1 A2] [B1 B2]. split; [|auto]. intros p Hp.
  destruct (A1 p Hp), (B1 p Hp). split; congruence.
Qed.

Lemma only_touches_dll l st st' h xs :
  only_touches l st st' → (∀ p, p ∈ h :: xs → p ∉ l) → dll st h xs → dll st' h xs.
Proof. intros [H _] Hd. apply dll_frame. auto. Qed.

Lemma dll_head st h xs :
  dll st h xs → get_next st h = Ret (hd h xs) ∧ get_prev st h = Ret (default h (last xs)).
Proof.
  intros [Hnd Hl]. split.
  - apply get_next_Some. destruct xs as [|x xs]; cbn in Hl; rewrite links_cons in Hl; apply Hl.
  - apply get_prev_Some. destruct (dll_cut h xs []) as (k1 & p & q & k2 & E1 & E2 & <- & _).
    cbn in E2. injection E2 as -> <-.
    pose proof (proj1 (dll_cut_links st q xs [] k1 p q [] E1 eq_refl)) as H.
    rewrite app_nil_r in H. apply H. done.
Qed.

Lemma list_init_spec st n :
  is_node st n → ∃ st', list_init st n = Ret st' ∧ dll st' n [] ∧ only_touches [n] st st'.
Proof.
  intros Hn. unfold list_init. rewrite set_next_node by done. cbn [mbind outcome_bind].
  rewrite set_prev_node by (by apply is_node_next). cbn [st_next st_prev].
  eexists. split; [reflexivity|]. split.
  - split; [apply NoDup_singleton|]. cbn. rewrite links_cons; cbn. by simplify_map_eq.
  - split; cbn.
    + intros x Hx. rewrite !lookup_insert_ne; [done|set_solver..].
    + intros x [H1 H2]. split; cbn; rewrite !lookup_insert; repeat dec_if; done.
Qed.

Lemma list_add_spec st h xs n :
  dll st h xs → n ∉ h :: xs → is_node st n →
  ∃ st', list_add st n h = Ret st' ∧ dll st' h (n :: xs) ∧ only_touches (n :: h :: xs) st st'.
Proof.
  intros Hd Hn Hnode. unfold list_add. rewrite (proj1 (dll_head _ _ _ Hd)).
  cbn [mbind outcome_bind]. apply (__list_add_spec st h [] xs n); done.
Qed.

Lemma list_add_tail_spec st h xs n :
  dll st h xs → n ∉ h :: xs → is_node st n →
  ∃ st', list_add_tail st n h = Ret st' ∧ dll st' h (xs ++ [n]) ∧
         only_touches (n :: h :: xs) st st'.
Proof.
  intros Hd Hn Hnode. unfold list_add_tail. rewrite (proj2 (dll_head _ _ _ Hd)).
  cbn [mbind outcome_bind]. pose proof (__list_add_spec st h xs [] n) as H.
  rewrite app_nil_r in H. by apply H.
Qed.

(** Unlinking [n] from the middle of a list, before its own fields are reset. *)
Lemma list_unlink st h l1 n l2 :
  dll st h (l1 ++ n :: l2) →
  ∃ prev next st1, get_prev st n = Ret prev ∧ get_next st n = Ret next ∧
    __list_del st prev next = Ret st1 ∧ dll st1 h (l1 ++ l2) ∧ is_node st1 n ∧
    n ∉ h :: l1 ++ l2 ∧ only_touches (h :: l1 ++ l2) st st1.
Proof.
  intros Hd. destruct (__list_del_spec st h l1 n l2 Hd) as (Hp & Hq & st1 & E & Hd1 & Ht).
  exists (default h (last l1)), (hd h l2), st1.
  split; [by apply get_prev_Some|]. split; [by apply get_next_Some|].
  do 2 (split; [done|]). split; [apply Ht; apply (dll_nodes _ _ _ _ Hd); set_solver|].
  split; [|done]. destruct Hd as [Hnd _]. by apply NoDup_insert_node, NoDup_cons in Hnd as [? _].
Qed.

Lemma list_del_spec st h l1 n l2 :
  dll st h (l1 ++ n :: l2) →
  ∃ st', list_del st n = Ret st' ∧ dll st' h (l1 ++ l2) ∧
         st_next st' !! n = Some NULL ∧ st_prev st' !! n = Some NULL ∧
         only_touches (n :: h :: l1 ++ l2) st st'.
Proof.
  intros Hd. destruct (list_unlink _ _ _ _ _ Hd) as (prev & next & st1 & Hp & Hq & E & Hd1 & Hn & Hni & Ht).
  unfold list_del. rewrite Hp. cbn [mbind outcome_bind]. rewrite Hq. cbn [mbind outcome_bind].
  rewrite E. cbn [mbind outcome_bind]. rewrite set_next_node by done. cbn [mbind outcome_bind].
  rewrite set_prev_node by (by apply is_node_next). cbn [st_next st_prev].
  eexists. split; [reflexivity|]. cbn. rewrite !lookup_insert_eq.
  assert (only_touches [n] st1 (mk_store (<[n:=NULL]> (st_next st1)) (<[n:=NULL]> (st_prev st1))))
    as Ht1.
  { split; cbn.
    - intros x Hx. rewrite !lookup_insert_ne; [done|set_solver..].
    - intros x [H1 H2]. split; cbn; rewrite !lookup_insert; repeat dec_if; done. }
  split; [apply (only_touches_dll _ _ _ _ _ Ht1); [set_solver|done]|]. split; [done|].
  split; [done|]. eapply only_touches_trans; eapply only_touches_mono; [|done| |done]; set_solver.
Qed.

Lemma list_del_init_spec st h l1 n l2 :
  dll st h (l1 ++ n :: l2) →
  ∃ st', list_del_init st n = Ret st' ∧ dll st' h (l1 ++ l2) ∧ dll st' n [] ∧
         only_touches (n :: h :: l1 ++ l2) st st'.
Proof.
  intros Hd. destruct (list_unlink _ _ _ _ _ Hd) as (prev & next & st1 & Hp & Hq & E & Hd1 & Hn & Hni & Ht).
  unfold list_del_init. rewrite Hp. cbn [mbind outcome_bind]. rewrite Hq.
  cbn [mbind outcome_bind]. rewrite E. cbn [mbind outcome_bind].
  destruct (list_init_spec st1 n Hn) as (st2 & -> & Hd2 & Ht2).
  exists st2. split; [done|].
  split; [apply (only_touches_dll _ _ _ _ _ Ht2); [set_solver|done]|]. split; [done|].
  eapply only_touches_trans; eapply only_touches_mono; [|done| |done]; set_solver.
Qed.

(** Moving a node to the front or the back of the list it is on. *)
Lemma list_move_spec st h l1 n l2 :
  dll st h (l1 ++ n :: l2) →
  (∃ st', list_move st n h = Ret st' ∧ dll st' h (n :: l1 ++ l2) ∧
          only_touches (n :: h :: l1 ++ l2) st st') ∧
  (∃ st', list_move_tail st n h = Ret st' ∧ dll st' h (l1 ++ l2 ++ [n]) ∧
          only_touches (n :: h :: l1 ++ l2) st st').
Proof.
  intros Hd. destruct (list_unlink _ _ _ _ _ Hd) as (prev & next & st1 & Hp & Hq & E & Hd1 & Hn & Hni & Ht).
  unfold list_move, list_move_tail. rewrite Hp. cbn [mbind outcome_bind]. rewrite Hq.
  cbn [mbind outcome_bind]. rewrite E. cbn [mbind outcome_bind]. split.
  - destruct (list_add_spec st1 h (l1 ++ l2) n Hd1 Hni Hn) as (st2 & -> & Hd2 & Ht2).
    exists st2. split; [done|]. split; [done|]. eapply only_touches_trans; [|done].
    eapply only_touches_mono; [|done]. set_solver.
  - destruct (list_add_tail_spec st1 h (l1 ++ l2) n Hd1 Hni Hn) as (st2 & -> & Hd2 & Ht2).
    rewrite <-app_assoc in Hd2.
    exists st2. split; [done|]. split; [done|]. eapply only_touches_trans; [|done].
    eapply only_touches_mono; [|done]. set_solver.
Qed.

(** ** Walks *)

(** The [next] pointers lead from [p] through [l] to [b]. *)
Fixpoint chain (st : store) (p : Z) (l : list Z) (b : Z) : Prop :=
  match l with
  | [] => p = b
  | x :: l => p = x ∧ ∃ q, st_next st !! x = Some q ∧ chain st q l b
  end.

Lemma links_chain st l b :
  links st (l ++ [b]) → chain st (hd b l) l b.
Proof.
  induction l as [|a l IH]; intros Hl; [done|]. cbn. split; [done|].
  destruct l as [|c l]; cbn [app] in Hl; rewrite links_cons in Hl;
    destruct Hl as (H1 & _ & H2); eexists; (split; [exact H1|]); [done|by apply IH].
Qed.

Lemma dll_chain st h xs : dll st h xs → chain st (hd h xs) xs h.
Proof.
  intros [_ Hl]. destruct xs as [|x xs]; [done|]. apply links_chain.
  cbn in Hl. rewrite links_cons in Hl. apply Hl.
Qed.

Lemma list_length_loop_spec fuel st h p l c :
  chain st p l h → h ∉ l → (length l ≤ fuel)%nat → 0 ≤ c → c + zlen l < 2 ^ 64 →
  list_length_loop fuel st h p c = Ret (c + zlen l).
Proof.
  revert fuel p c. induction l as [|x l IH]; intros fuel p c Hc Hh Hf Hc0 Hmax.
  - cbn in Hc. subst. destruct fuel; cbn; rewrite Z.eqb_refl; f_equal; unfold zlen; cbn; lia.
  - destruct Hc as [-> (q & Hq & Hc)]. rewrite zlen_cons in *. pose proof (zlen_nonneg l).
    destruct fuel as [|fuel]; [cbn in Hf; lia|]. cbn [list_length_loop].
    destruct (Z.eqb_spec x h); [set_solver|]. rewrite (get_next_Some _ _ _ Hq).
    cbn [mbind outcome_bind]. rewrite u64_small by lia.
    rewrite IH; [f_equal; lia|done|set_solver|cbn in Hf; lia|lia|lia].
Qed.

Lemma list_contains_loop_spec fuel st h n p l :
  chain st p l h → h ∉ l → (length l ≤ fuel)%nat →
  list_contains_loop fuel st h n p = Ret (if decide (n ∈ l) then 1 else 0).
Proof.
  revert fuel p. induction l as [|x l IH]; intros fuel p Hc Hh Hf.
  - cbn in Hc. subst. destruct fuel; cbn; rewrite Z.eqb_refl; dec_if; set_solver.
  - destruct Hc as [-> (q & Hq & Hc)]. destruct fuel as [|fuel]; [cbn in Hf; lia|].
    cbn [list_contains_loop]. destruct (Z.eqb_spec x h); [set_solver|].
    destruct (Z.eqb_spec x n).
    + dec_if; [done|set_solver].
    + rewrite (get_next_Some _ _ _ Hq). cbn [mbind outcome_bind].
      rewrite IH; [|done|set_solver|cbn in Hf; lia].
      repeat dec_if; set_solver.
Qed.

(** ** Validation *)

(** The test [list_validate] makes at node [p]. *)
Definition node_ok (st : store) (p : Z) : Prop :=
  ∃ n q, st_next st !! p = Some n ∧ st_prev st !! n = Some p ∧
         st_prev st !! p = Some q ∧ st_next st !! q = Some p.

Lemma dll_prev_at st h l1 l2 :
  dll st h (l1 ++ l2) →
  st_prev st !! hd h l2 = Some (default h (last l1)) ∧
  st_next st !! default h (last l1) = Some (hd h l2).
Proof.
  intros [_ Hl]. destruct (dll_cut h l1 l2) as (k1 & p & q & k2 & E1 & E2 & <- & <-).
  pose proof (proj1 (dll_cut_links st h l1 l2 k1 p q k2 E1 E2) Hl). tauto.
Qed.

Lemma dll_node_ok st h xs p : dll st h xs → p ∈ h :: xs → node_ok st p.
Proof.
  intros Hd Hp. apply elem_of_cons in Hp as [->|Hp].
  - pose proof (dll_prev_at st h [] xs Hd) as [H1 H2]. cbn in H1, H2.
    rewrite <-(app_nil_r xs) in Hd. pose proof (dll_prev_at st h xs [] Hd) as [H3 H4].
    cbn in H3, H4. by exists (hd h xs), (default h (last xs)).
  - apply list_elem_of_split in Hp as (l1 & l2 & ->).
    pose proof (dll_prev_at st h l1 (p :: l2) Hd) as [H1 H2].
    change (p :: l2) with ([p] ++ l2) in Hd. rewrite (app_assoc l1 [p] l2) in Hd.
    pose proof (dll_prev_at st h (l1 ++ [p]) l2 Hd) as [H3 H4].
    rewrite last_snoc in *. cbn in *. by exists (hd h l2), (default h (last l1)).
Qed.

Lemma list_validate_loop_step fuel st h p g n :
  node_ok st p → st_next st !! p = Some n → 0 ≤ g < 0x1000000 →
  list_validate_loop (S fuel) st h p g =
  if n =? h then Ret 1 else list_validate_loop fuel st h n (g + 1).
Proof.
  intros (n' & q & H1 & H2 & H3 & H4) Hn Hg. assert (n' = n) as -> by congruence.
  cbn [list_validate_loop]. rewrite (get_next_Some _ _ _ Hn). cbn [mbind outcome_bind].
  rewrite (get_prev_Some _ _ _ H2). cbn [mbind outcome_bind]. rewrite Z.eqb_refl. cbn [negb].
  rewrite (get_prev_Some _ _ _ H3). cbn [mbind outcome_bind].
  rewrite (get_next_Some _ _ _ H4). cbn [mbind outcome_bind]. rewrite Z.eqb_refl. cbn [negb].
  rewrite u64_small by lia. destruct (Z.ltb_spec 0x1000000 (g + 1)); [lia|done].
Qed.

Lemma list_validate_loop_intact fuel st h p l g :
  chain st p (p :: l) h → h ∉ l → (∀ x, x ∈ p :: l → node_ok st x) →
  (length l < fuel)%nat → 0 ≤ g → g + 1 + zlen l ≤ 0x1000000 →
  list_validate_loop fuel st h p g = Ret 1.
Proof.
  revert fuel p g. induction l as [|x l IH]; intros fuel p g [_ (q & Hq & Hc)] Hh Hok Hf Hg Hmax;
    (destruct fuel as [|fuel]; [lia|]).
  - rewrite (list_validate_loop_step _ _ _ _ _ q); [|apply Hok; set_solver|done|unfold zlen in *; cbn in *; lia].
    cbn in Hc. subst. by rewrite Z.eqb_refl.
  - pose proof (zlen_nonneg l). rewrite zlen_cons in Hmax.
    rewrite (list_validate_loop_step _ _ _ _ _ q); [|apply Hok; set_solver|done|lia].
    pose proof Hc as [-> _]. destruct (Z.eqb_spec x h); [set_solver|].
    apply IH; [done|set_solver|set_solver|cbn in Hf; lia|lia|lia].
Qed.

Lemma list_validate_loop_sound fuel st h p g :
  0 ≤ g < 0x1000000 → list_validate_loop fuel st h p g = Ret 1 →
  ∃ l, chain st p (p :: l) h ∧ h ∉ l ∧ (∀ x, x ∈ p :: l → node_ok st x) ∧
       g + 1 + zlen l ≤ 0x1000000.
Proof.
  revert p g. induction fuel as [|fuel IH]; intros p g Hg H; [discriminate|].
  assert (∃ n, node_ok st p ∧ st_next st !! p = Some n) as (n & Hok & Hn).
  { cbn [list_validate_loop] in H.
    apply bind_Ret_inv in H as (n & Hn & H). apply bind_Ret_inv in H as (np & Hnp & H).
    destruct (Z.eqb_spec np p); [|discriminate]. cbn [negb] in H.
    apply bind_Ret_inv in H as (q & Hq & H). apply bind_Ret_inv in H as (qn & Hqn & H).
    destruct (Z.eqb_spec qn p); [|discriminate]. subst.
    unfold get_next, get_prev in *. exists n.
    destruct (st_next st !! p) eqn:?; [|discriminate]. destruct (st_prev st !! n) eqn:?; [|discriminate].
    destruct (st_prev st !! p) eqn:?; [|discriminate]. destruct (st_next st !! q) eqn:?; [|discriminate].
    simplify_eq. split; [|done]. unfold node_ok. naive_solver. }
  rewrite (list_validate_loop_step _ _ _ _ _ n Hok Hn Hg) in H.
  destruct (decide (n = h)) as [->|Hne]; [clear H|rewrite (proj2 (Z.eqb_neq n h) Hne) in H].
  - exists []. cbn. split; [eauto|]. split; [set_solver|]. split; [|unfold zlen; cbn; lia].
    intros x Hx. apply list_elem_of_singleton in Hx as ->. done.
  - destruct (decide (g + 1 < 0x1000000)) as [Hlt|Hge].
    + destruct (IH n (g + 1)) as (l & Hc & Hh & Hall & Hmax); [lia|done|].
      exists (n :: l). split; [cbn; eauto|]. split; [set_solver|]. rewrite zlen_cons.
      split; [|lia]. intros x Hx. apply elem_of_cons in Hx as [->|Hx]; [done|by apply Hall].
    + exfalso. destruct fuel as [|fuel]; [discriminate|]. cbn [list_validate_loop] in H.
      apply bind_Ret_inv in H as (n1 & _ & H). apply bind_Ret_inv in H as (np & _ & H).
      destruct (negb (np =? n)); [discriminate|].
      apply bind_Ret_inv in H as (q & _ & H). apply bind_Ret_inv in H as (qn & _ & H).
      destruct (negb (qn =? n)); [discriminate|]. apply bind_Ret_inv in H as (p' & _ & H).
      rewrite u64_small in H by lia.
      destruct (Z.ltb_spec 0x1000000 (g + 1 + 1)); [discriminate|lia].
Qed.

Lemma chain_det st p l k h :
  chain st p l h → chain st p k h → h ∉ l → h ∉ k → l = k.
Proof.
  revert p k. induction l as [|x l IH]; intros p [|y k]; cbn; try done.
  - intros -> [-> _]. set_solver.
  - intros [-> _] ->. set_solver.
  - intros [-> (q & Hq & Hl)] [-> (q' & Hq' & Hk)] Hh Hh'. f_equal.
    assert (q' = q) as -> by congruence. apply (IH q k); set_solver.
Qed.

Lemma chain_NoDup st p l h : chain st p l h → h ∉ l → NoDup l.
Proof.
  revert p. induction l as [|x l IH]; intros p Hc Hh; [constructor|].
  pose proof Hc as [-> (q & Hq & Hl)]. constructor; [|apply (IH q); set_solver].
  intros Hx. apply list_elem_of_split in Hx as (l1 & l2 & El).
  assert (∀ q, chain st q (l1 ++ x :: l2) h → chain st x (x :: l2) h) as Hsuf.
  { clear. induction l1 as [|y l1 IH]; intros q H; [destruct H as [-> H]; done|].
    destruct H as [_ (q' & _ & H)]. by apply (IH q'). }
  assert (x :: l = x :: l2) as E.
  { apply (chain_det st x _ _ h); [done| |done|set_solver]. apply (Hsuf q). by rewrite <-El. }
  injection E as E. rewrite E in El. apply (f_equal length) in El.
  rewrite length_app in El. cbn in El. lia.
Qed.

Lemma chain_links st l h :
  chain st (hd h l) l h → (∀ x, x ∈ l → node_ok st x) → links st (l ++ [h]).
Proof.
  induction l as [|a l IH]; intros Hc Hok; [done|]. cbn in Hc.
  destruct Hc as [_ (q & Hq & Hc)]. destruct (Hok a) as (n & ? & Hn & Hp & _); [set_solver|].
  assert (n = q) as -> by congruence.
  destruct l as [|b l].
  - cbn in Hc. subst. cbn. by rewrite links_cons.
  - pose proof Hc as [-> _]. cbn. rewrite links_cons. split; [done|]. split; [done|].
    apply IH; [done|set_solver].
Qed.

(** ** Splicing *)

Lemma removelast_cons_ne (a : Z) l : l ≠ [] → removelast (a :: l) = a :: removelast l.
Proof. destruct l; done. Qed.

Lemma removelast_incl (l : list Z) p : p ∈ removelast l → p ∈ l.
Proof.
  intros H. destruct (decide (l = [])) as [->|Hne]; [done|].
  destruct (exists_last Hne) as (k & x & ->). rewrite removelast_last in H. set_solver.
Qed.

(** The four writes that move the nodes [f .. l] in front of the node [q] that
    follows [dst]. *)
Lemma splice_links st dst f xs' m l ys q k2 :
  f :: xs' = m ++ [l] → ys ++ [dst] = q :: k2 →
  links st (f :: xs') → links st (q :: k2) → NoDup (dst :: (f :: xs') ++ ys) →
  links (mk_store (<[dst := f]> (<[l := q]> (st_next st)))
                  (<[q := l]> (<[f := dst]> (st_prev st))))
        (dst :: ((f :: xs') ++ ys) ++ [dst]).
Proof.
  intros E1 E2 Hx Hq Hnd. set (st' := mk_store _ _).
  assert (f ≠ q ∧ dst ≠ l ∧ q ∉ xs' ∧ l ∉ m ∧ f ∉ xs' ∧ f ∉ k2 ∧ l ∉ ys ∧ q ∉ k2 ∧
          dst ∉ f :: xs' ∧ dst ∉ ys ∧ removelast (q :: k2) = ys)
    as (D1 & D2 & D3 & D4 & D5 & D6 & D7 & D8 & D9 & D10 & D11).
  { assert (l ∈ f :: xs') as Hl by (rewrite E1; set_solver).
    assert (NoDup (q :: k2)) as Hq2.
    { rewrite <-E2. apply NoDup_app. apply NoDup_cons in Hnd as [H1 H2].
      apply NoDup_app in H2 as (H2 & H3 & H4). split; [done|]. split; [set_solver|apply NoDup_singleton]. }
    assert (NoDup (m ++ [l])) as Hm.
    { rewrite <-E1. apply NoDup_cons in Hnd as [_ H2]. by apply NoDup_app in H2 as [? _]. }
    assert (∀ z, z ∈ q :: k2 ↔ z ∈ ys ∨ z = dst) as Hqk by (intros z; rewrite <-E2; set_solver).
    apply NoDup_cons in Hnd as [H1 H2]. apply NoDup_app in H2 as (H2 & H3 & H4).
    apply NoDup_cons in H2 as [H2 _]. apply NoDup_cons in Hq2 as [Hq2 _].
    apply NoDup_app in Hm as (_ & Hm & _).
    assert (∀ z, z ∈ f :: xs' → z ∉ q :: k2) as H5.
    { intros z Hz Hz'. apply Hqk in Hz' as [Hz'| ->]; [by apply (H3 z)|].
      apply H1. apply elem_of_app. by left. }
    assert (∀ z, z ∈ f :: xs' → dst ≠ z) as H6.
    { intros z Hz ->. apply H1. apply elem_of_app. by left. }
    assert (f ∈ f :: xs') as Hf by apply list_elem_of_here.
    assert (q ∈ q :: k2) as Hq3 by apply list_elem_of_here.
    split; [intros ->; by apply (H5 q)|]. split; [by apply H6|].
    split; [intros ?; apply (H5 q); [by apply list_elem_of_further|done]|].
    split; [intros Hlm; apply (Hm l Hlm), list_elem_of_here|]. split; [done|].
    split; [intros ?; apply (H5 f Hf); by apply list_elem_of_further|].
    split; [by apply H3|]. split; [done|]. split; [intros ?; by apply (H6 dst)|].
    split; [intros ?; apply H1; apply elem_of_app; by right|].
    rewrite <-E2. apply removelast_last. }
  rewrite <-app_assoc, E2. cbn [app]. rewrite links_cons. unfold st' at 1 2. cbn.
  split; [by rewrite lookup_insert_eq|].
  split; [rewrite lookup_insert_ne by done; by rewrite lookup_insert_eq|].
  change (f :: xs' ++ q :: k2) with ((f :: xs') ++ q :: k2). rewrite E1, <-app_assoc.
  change ([l] ++ q :: k2) with (l :: q :: k2). rewrite links_app, links_cons. split; [|split; [|split]].
  - rewrite <-E1. revert Hx. apply links_frame; unfold st'; cbn.
    + rewrite E1, removelast_last. intros p Hp.
      assert (p ∈ f :: xs') by (rewrite E1; set_solver).
      rewrite !lookup_insert_ne; [done|intros ->; contradiction..].
    + intros p Hp. cbn [tail] in Hp. rewrite !lookup_insert_ne; [done|intros ->; contradiction..].
  - unfold st'; cbn. rewrite lookup_insert_ne by done. by rewrite lookup_insert_eq.
  - unfold st'; cbn. by rewrite lookup_insert_eq.
  - revert Hq. apply links_frame; unfold st'; cbn.
    + rewrite D11. intros p Hp. cbn [tail] in Hp. rewrite !lookup_insert_ne; [done|intros ->; contradiction..].
    + intros p Hp. cbn [tail] in Hp. rewrite !lookup_insert_ne; [done|intros ->; contradiction..].
Qed.

(** Non-empty source: its nodes move, in order, to the front of the
    destination. *)
Lemma list_splice_init_spec st src dst xs ys :
  dll st src xs → dll st dst ys → NoDup (src :: dst :: xs ++ ys) →
  ∃ st', list_splice_init st src dst = Ret st' ∧ dll st' dst (xs ++ ys) ∧ dll st' src [] ∧
         only_touches (src :: dst :: xs ++ ys) st st'.
Proof.
  intros Hs Hd Hnd. unfold list_splice_init, list_empty.
  destruct (dll_head _ _ _ Hs) as [Hn Hp]. rewrite Hn. cbn [mbind outcome_bind].
  destruct xs as [|f xs'].
  { cbn [hd]. rewrite Z.eqb_refl. exists st. do 3 (split; [done|]). by split. }
  pose proof (proj1 (NoDup_cons _ _) Hnd) as [N1 N2].
  apply NoDup_cons in N2 as [N2 N3].
  cbn [hd]. destruct (Z.eqb_spec f src); [set_solver|]. cbn [mbind outcome_bind hd].
  rewrite Hp. cbn [mbind outcome_bind].
  assert (f :: xs' ≠ []) as Hne by done.
  destruct (exists_last Hne) as (m & l & E1). clear Hne.
  assert (default src (last (f :: xs')) = l) as -> by (by rewrite E1, last_snoc).
  assert (l ∈ f :: xs') as Hl by (rewrite E1; set_solver).
  destruct (dll_cut dst [] ys) as (? & ? & q & k2 & _ & E2 & _ & Eq).
  assert (q ∈ dst :: ys) as Hq.
  { assert (q ∈ ys ++ [dst]) by (rewrite E2; set_solver). set_solver. }
  pose proof (proj1 (dll_head _ _ _ Hd)) as Hdn. rewrite <-Eq in Hdn.
  rewrite set_prev_node by (apply (dll_nodes _ _ _ _ Hs); set_solver). cbn [mbind outcome_bind].
  change (get_next (mk_store (st_next st) ?x) dst) with (get_next st dst). rewrite Hdn.
  cbn [mbind outcome_bind].
  rewrite set_next_node by (apply is_node_prev, (dll_nodes _ _ _ _ Hs); set_solver).
  cbn [mbind outcome_bind st_next st_prev].
  unfold get_next at 1; cbn [st_next]. rewrite lookup_insert_ne by set_solver.
  unfold get_next in Hdn. destruct (st_next st !! dst) as [q'|] eqn:Hq'; [|done].
  injection Hdn as ->. cbn [mbind outcome_bind].
  set (st1 := mk_store _ _).
  assert (∀ r, is_node st r → is_node st1 r) as Hst1.
  { intros r Hr. unfold st1. apply (is_node_next (mk_store _ _)). by apply is_node_prev. }
  rewrite set_prev_node by (apply Hst1, (dll_nodes _ _ _ _ Hd); set_solver).
  cbn [mbind outcome_bind].
  rewrite set_next_node by (apply is_node_prev, Hst1, (dll_nodes _ _ _ _ Hd); set_solver).
  cbn [mbind outcome_bind st_next st_prev st1]. set (st2 := mk_store _ _).
  assert (∀ r, is_node st r → is_node st2 r) as Hst2.
  { intros r Hr. unfold st2. apply (is_node_next (mk_store _ _)).
    apply (is_node_prev st1). by apply Hst1. }
  destruct (list_init_spec st2 src) as (st3 & -> & Hd3 & Ht3);
    [apply Hst2, (dll_nodes _ _ _ _ Hs); set_solver|].
  exists st3. split; [done|]. split; [|split; [done|]].
  - apply (only_touches_dll [src] st2); [done|set_solver|]. split; [by apply NoDup_cons in Hnd as [_ ?]|].
    destruct Hs as [_ Hs]; destruct Hd as [_ Hd]. cbn [app] in Hs. rewrite links_cons in Hs.
    rewrite E2, links_cons in Hd.
    apply (splice_links st dst f xs' m l ys q k2 E1 E2); [|apply Hd|by apply NoDup_cons in Hnd as [_ ?]].
    destruct Hs as (_ & _ & Hs). change (f :: xs' ++ [src]) with ((f :: xs') ++ [src]) in Hs.
    rewrite E1, <-app_assoc in Hs. cbn in Hs. rewrite links_app in Hs. rewrite E1. apply Hs.
  - apply (only_touches_trans _ _ st2); [|apply (only_touches_mono [src]); [set_solver|done]].
    split; [|done]. intros p Hp'. unfold st2; cbn [st_next st_prev].
    rewrite !lookup_insert_ne; [done|set_solver..].
Qed.

(** ** Sorting *)

(** The list-level counterpart: insert after every node that does not compare
    greater. *)
Fixpoint sinsert (cmp : Z → Z → Z) (n : Z) (l : list Z) : list Z :=
  match l with
  | [] => [n]
  | y :: l' => if cmp y n <=? 0 then y :: sinsert cmp n l' else n :: l
  end.

Definition isort (cmp : Z → Z → Z) (xs : list Z) : list Z :=
  fold_left (λ acc x, sinsert cmp x acc) xs [].

Lemma sort_pos_loop_spec cmp fuel st s n p l2 :
  chain st p l2 s → s ∉ l2 → (length l2 ≤ fuel)%nat →
  ∃ l1 l2', l2 = l1 ++ l2' ∧ sinsert cmp n l2 = l1 ++ n :: l2' ∧
            sort_pos_loop cmp fuel st s n p = Ret (hd s l2').
Proof.
  revert p fuel. induction l2 as [|y l2 IH]; intros p fuel Hc Hs Hf.
  - cbn in Hc. subst. exists [], []. split; [done|]. split; [done|].
    destruct fuel; cbn; by rewrite Z.eqb_refl.
  - pose proof Hc as [-> (q & Hq & Hc')]. destruct fuel as [|fuel]; [cbn in Hf; lia|].
    cbn [sort_pos_loop sinsert]. destruct (Z.eqb_spec y s); [set_solver|].
    destruct (cmp y n <=? 0) eqn:Hcmp; cbn [negb andb].
    + rewrite (get_next_Some _ _ _ Hq). cbn [mbind outcome_bind].
      destruct (IH q fuel) as (l1 & l2' & -> & E & ->); [done|set_solver|cbn in Hf; lia|].
      exists (y :: l1), l2'. by rewrite E.
    + by exists [], (y :: l2).
Qed.

Lemma chain_frame l st st' p k b :
  only_touches l st st' → (∀ x, x ∈ k → x ∉ l) → chain st p k b → chain st' p k b.
Proof.
  intros [Ht _]. revert p. induction k as [|x k IH]; intros p Hd; cbn; [done|].
  intros [-> (q & Hq & Hc)]. split; [done|]. exists q. split.
  - rewrite (proj1 (Ht x (Hd x (list_elem_of_here _ _)))). done.
  - apply IH; [|done]. intros y Hy. apply Hd. by apply list_elem_of_further.
Qed.

Lemma sinsert_perm cmp n l : sinsert cmp n l ≡ₚ n :: l.
Proof.
  induction l as [|y l IH]; cbn; [done|]. destruct (cmp y n <=? 0); [|done].
  rewrite IH. apply perm_swap.
Qed.

Lemma sinsert_fold_perm cmp zs ys : fold_left (λ acc x, sinsert cmp x acc) zs ys ≡ₚ ys ++ zs.
Proof.
  revert ys. induction zs as [|z zs IH]; intros ys; cbn; [by rewrite app_nil_r|].
  rewrite IH, sinsert_perm. apply Permutation_middle.
Qed.

Lemma list_sort_loop_spec cmp fuel bound st h s node zs ys :
  dll st s ys → chain st node zs h → (∀ x, x ∈ zs → is_node st x) →
  NoDup (h :: s :: ys ++ zs) → (length zs ≤ fuel)%nat → (length (ys ++ zs) ≤ bound)%nat →
  ∃ st', list_sort_loop cmp fuel bound st h s node = Ret st' ∧
         dll st' s (fold_left (λ acc x, sinsert cmp x acc) zs ys) ∧
         only_touches (s :: ys ++ zs) st st'.
Proof.
  revert fuel st node ys. induction zs as [|z zs IH]; intros fuel st node ys Hd Hc Hnode Hnd Hf Hb.
  { cbn in Hc. subst. exists st. destruct fuel; cbn; rewrite Z.eqb_refl; (split; [done|]);
      (split; [done|by split]). }
  destruct fuel as [|fuel]; [cbn in Hf; lia|]. pose proof Hc as [-> (q & Hq & Hc')].
  pose proof (proj1 (NoDup_cons _ _) Hnd) as [N1 N2].
  pose proof (proj1 (NoDup_cons _ _) N2) as [N3 N4].
  assert (z ∉ s :: ys ∧ s ∉ ys ∧ (∀ x, x ∈ zs → x ∉ z :: s :: ys)) as (M1 & M2 & M3).
  { apply NoDup_app in N4 as (_ & N5 & N6). apply NoDup_cons in N6 as [N6 _].
    split; [set_solver|]. split; [set_solver|]. set_solver. }
  cbn [list_sort_loop]. destruct (Z.eqb_spec z h); [set_solver|].
  rewrite (get_next_Some _ _ _ Hq). cbn [mbind outcome_bind].
  rewrite (proj1 (dll_head _ _ _ Hd)). cbn [mbind outcome_bind].
  destruct (sort_pos_loop_spec cmp bound st s z (hd s ys) ys) as (l1 & l2 & E1 & E2 & ->);
    [by apply dll_chain|done|rewrite length_app in Hb; lia|]. cbn [mbind outcome_bind].
  subst ys. rewrite (get_prev_Some _ _ _ (proj1 (dll_prev_at _ _ _ _ Hd))). cbn [mbind outcome_bind].
  destruct (__list_add_spec st s l1 l2 z Hd M1) as (st1 & -> & Hd1 & Ht1);
    [apply Hnode; set_solver|]. cbn [mbind outcome_bind].
  cbn [fold_left]. rewrite E2.
  assert ((l1 ++ z :: l2) ++ zs ≡ₚ (l1 ++ l2) ++ z :: zs) as Hperm.
  { rewrite <-!Permutation_middle. cbn. by rewrite Permutation_middle. }
  destruct (IH fuel st1 q (l1 ++ z :: l2)) as (st2 & -> & Hd2 & Ht2); [done| | | | | |].
  - apply (chain_frame _ _ _ _ _ _ Ht1); done.
  - intros x Hx. apply Ht1, Hnode. set_solver.
  - by rewrite Hperm.
  - cbn in Hf. lia.
  - by rewrite Hperm.
  - exists st2. split; [done|]. split; [done|]. apply (only_touches_trans _ _ st1).
    + apply (only_touches_mono (z :: s :: l1 ++ l2)); [set_solver|done].
    + apply (only_touches_mono (s :: (l1 ++ z :: l2) ++ zs)); [set_solver|done].
Qed.

(** The pointer-level sort computes the list-level one, on the same nodes. *)
Lemma list_sort_spec cmp fuel st h s xs :
  dll st h xs → s ∉ h :: xs → is_node st s → (length xs ≤ fuel)%nat →
  ∃ st', list_sort cmp fuel st h s = Ret st' ∧ dll st' h (isort cmp xs) ∧
         only_touches (s :: h :: xs) st st'.
Proof.
  intros Hd Hs Hnode Hf. unfold list_sort, list_empty.
  pose proof (proj1 (dll_head _ _ _ Hd)) as Hn. rewrite Hn. cbn [mbind outcome_bind].
  pose proof Hd as [Hnd _].
  destruct xs as [|x xs].
  { cbn [hd]. rewrite Z.eqb_refl. exists st. split; [done|]. split; [done|]. by split. }
  cbn [hd]. destruct (Z.eqb_spec x h) as [->|Hx]; [apply NoDup_cons in Hnd; set_solver|].
  cbn [mbind outcome_bind]. pose proof (dll_chain _ _ _ Hd) as [_ (q & Hq & Hc)].
  rewrite (get_next_Some _ _ _ Hq). cbn [mbind outcome_bind].
  destruct xs as [|y xs].
  { cbn in Hc. subst q. rewrite Z.eqb_refl. exists st. split; [done|]. split; [done|]. by split. }
  pose proof Hc as [-> _].
  destruct (Z.eqb_spec y h) as [->|Hy]; [apply NoDup_cons in Hnd; set_solver|]. clear Hc Hq.
  destruct (list_init_spec st s Hnode) as (st1 & -> & Hd1 & Ht1). cbn [mbind outcome_bind].
  assert (dll st1 h (x :: y :: xs)) as Hd1'
    by (apply (only_touches_dll _ _ _ _ _ Ht1); [set_solver|done]).
  rewrite (proj1 (dll_head _ _ _ Hd1')). cbn [mbind outcome_bind].
  destruct (list_init_spec st1 h) as (st2 & -> & Hd2 & Ht2);
    [apply (dll_nodes _ _ _ _ Hd1'); set_solver|]. cbn [mbind outcome_bind].
  set (zs := x :: y :: xs) in *. pose proof (proj1 (NoDup_cons _ _) Hnd) as [Hh Hnd'].
  destruct (list_sort_loop_spec cmp fuel fuel st2 h s (hd h zs) zs []) as (st3 & -> & Hd3 & Ht3).
  - apply (only_touches_dll _ _ _ _ _ Ht2); [set_solver|done].
  - apply (chain_frame _ _ _ _ _ _ Ht2); [set_solver|]. by apply dll_chain.
  - intros p Hp. apply Ht2, Ht1. apply (dll_nodes _ _ _ _ Hd). set_solver.
  - cbn. apply NoDup_cons. split; [set_solver|]. apply NoDup_cons. split; [set_solver|done].
  - done.
  - done.
  - cbn [mbind outcome_bind]. change (fold_left _ zs []) with (isort cmp zs) in Hd3.
    assert (isort cmp zs ≡ₚ zs) as Hp by apply (sinsert_fold_perm cmp zs []).
    destruct (list_splice_init_spec st3 s h (isort cmp zs) []) as (st4 & -> & Hd4 & _ & Ht4).
    + done.
    + apply (only_touches_dll _ _ _ _ _ Ht3); [set_solver|done].
    + rewrite app_nil_r, Hp. apply NoDup_cons. split; [set_solver|done].
    + exists st4. split; [done|]. rewrite app_nil_r in Hd4. split; [done|].
      assert (∀ p, p ∈ isort cmp zs ↔ p ∈ zs) as Hin by (intros p; by rewrite Hp).
      rewrite app_nil_r in Ht4.
      apply (only_touches_trans _ _ st1); [apply (only_touches_mono [s]); [set_solver|done]|].
      apply (only_touches_trans _ _ st2); [apply (only_touches_mono [h]); [set_solver|done]|].
      apply (only_touches_trans _ _ st3); [apply (only_touches_mono (s :: [] ++ zs)); [set_solver|done]|].
      apply (only_touches_mono (s :: h :: isort cmp zs)); [set_solver|done].
Qed.

Lemma filter_none (P : Z → Prop) `{!∀ x, Decision (P x)} l :
  Forall (λ x, ¬ P x) l → filter P l = [].
Proof. induction 1 as [|x l Hx _ IH]; [done|]. rewrite filter_cons, decide_False by done. done. Qed.

Section Order.
Context (cmp : Z → Z → Z).
Context (cmp_total : ∀ a b, cmp a b ≤ 0 ∨ cmp b a ≤ 0).
Context (cmp_trans : ∀ a b c, cmp a b ≤ 0 → cmp b c ≤ 0 → cmp a c ≤ 0).

Lemma sinsert_sorted n l :
  StronglySorted (λ a b, cmp a b ≤ 0) l → StronglySorted (λ a b, cmp a b ≤ 0) (sinsert cmp n l).
Proof.
  induction l as [|y l IH]; intros Hs; cbn; [by repeat constructor|].
  apply StronglySorted_inv in Hs as [Hs Hy]. destruct (Z.leb_spec (cmp y n) 0) as [Hle|Hgt].
  - constructor; [by apply IH|]. rewrite sinsert_perm. by constructor.
  - assert (cmp n y ≤ 0) by (destruct (cmp_total n y); [done|lia]).
    constructor; [by constructor|]. constructor; [done|].
    eapply Forall_impl; [exact Hy|]. intros z Hz. by apply (cmp_trans n y z).
Qed.

Lemma sinsert_stable (P : Z → Prop) `{!∀ x, Decision (P x)} n l :
  (∀ x y, P x → P y → cmp x y ≤ 0) → StronglySorted (λ a b, cmp a b ≤ 0) l →
  filter P (sinsert cmp n l) = filter P (l ++ [n]).
Proof.
  intros HP. induction l as [|y l IH]; intros Hs; cbn [sinsert app]; [done|].
  apply StronglySorted_inv in Hs as [Hs Hy]. destruct (Z.leb_spec (cmp y n) 0) as [Hle|Hgt].
  - rewrite !filter_cons, IH by done. done.
  - rewrite (filter_cons _ n). dec_if as Hn.
    + assert (filter P (y :: l) = []) as E.
      { apply filter_none. constructor.
        - intros Hy'. pose proof (HP y n Hy' Hn). lia.
        - eapply Forall_impl; [exact Hy|]. intros z Hz Hz'. pose proof (cmp_trans y z n Hz (HP z n Hz' Hn)). lia. }
      change (y :: l ++ [n]) with ((y :: l) ++ [n]). rewrite filter_app, E, filter_cons.
      by rewrite decide_True by done.
    + change (y :: l ++ [n]) with ((y :: l) ++ [n]). rewrite filter_app, (filter_cons _ n).
      rewrite decide_False by done. by rewrite app_nil_r.
Qed.

Lemma isort_sorted_stable xs :
  StronglySorted (λ a b, cmp a b ≤ 0) (isort cmp xs) ∧
  ∀ (P : Z → Prop) `{!∀ x, Decision (P x)},
    (∀ x y, P x → P y → cmp x y ≤ 0) → filter P (isort cmp xs) = filter P xs.
Proof.
  unfold isort. induction xs as [|x xs [IH1 IH2]] using rev_ind; [by repeat constructor|].
  rewrite fold_left_app. cbn. split; [by apply sinsert_sorted|].
  intros P ? HP. rewrite sinsert_stable by done. rewrite !filter_app. by rewrite IH2 by done.
Qed.

End Order.

(** ** Theorems *)

(** [list_sort] with a comparator that orders the nodes terminates and
    leaves the same nodes on [head], well linked, in comparator order; nodes that
    compare equal keep their order; only the nodes of the list, the head and the
    local [sorted] head are written. *)
Theorem list_sort_sorts cmp fuel st h s xs :
  (∀ a b, cmp a b ≤ 0 ∨ cmp b a ≤ 0) →
  (∀ a b c, cmp a b ≤ 0 → cmp b c ≤ 0 → cmp a c ≤ 0) →
  dll st h xs → s ∉ h :: xs → is_node st s → (length xs ≤ fuel)%nat →
  ∃ st' ys, list_sort cmp fuel st h s = Ret st' ∧ dll st' h ys ∧ ys ≡ₚ xs ∧
    StronglySorted (λ a b, cmp a b ≤ 0) ys ∧
    (∀ a, filter (λ x, cmp x a ≤ 0 ∧ cmp a x ≤ 0) ys =
          filter (λ x, cmp x a ≤ 0 ∧ cmp a x ≤ 0) xs) ∧
    only_touches (s :: h :: xs) st st'.
Proof.
  intros Htot Htr Hd Hs Hn Hf.
  destruct (list_sort_spec cmp fuel st h s xs Hd Hs Hn Hf) as (st' & E & Hd' & Ht).
  destruct (isort_sorted_stable cmp Htot Htr xs) as [Hsort Hstab].
  exists st', (isort cmp xs). split; [done|]. split; [done|].
  split; [apply (sinsert_fold_perm cmp xs [])|]. split; [done|]. split; [|done].
  intros a. apply Hstab. intros x y [Hx _] [_ Hy]. by apply (Htr x a y).
Qed.

Definition example_store : store :=
  mk_store (list_to_map [(1, 10); (10, 20); (20, 30); (30, 1); (5, 5)])
           (list_to_map [(10, 1); (20, 10); (30, 20); (1, 30); (5, 5)]).

Lemma example_dll : dll example_store 1 [10; 20; 30].
Proof. split; [apply (bool_decide_unpack _); vm_compute; exact I|]. vm_compute. done. Qed.

(** Nodes compared by their address modulo 20: 20 < 10 = 30. *)
Lemma list_sort_sorts_witness :
  ∃ st' ys, list_sort (λ a b, a mod 20 - b mod 20) 3 example_store 1 5 = Ret st' ∧
    dll st' 1 ys ∧ ys ≡ₚ [10; 20; 30] ∧
    StronglySorted (λ a b, a mod 20 - b mod 20 ≤ 0) ys.
Proof.
  destruct (list_sort_sorts (λ a b, a mod 20 - b mod 20) 3 example_store 1 5 [10; 20; 30])
    as (st' & ys & E & Hd & Hp & Hs & _ & _).
  - intros; lia.
  - intros; lia.
  - exact example_dll.
  - apply (bool_decide_unpack _); vm_compute; exact I.
  - split; eexists; reflexivity.
  - cbn; lia.
  - exists st', ys. split; [exact E|]. split; [exact Hd|]. split; [exact Hp|exact Hs].
Defined.

(** The insertion, removal and move operations of [list.h] act on the list
    of nodes of [h] as cons, append, removal and rotation, terminate without a
    fault, leave the removed node as documented, and write no node outside the
    list and the given node. *)
Theorem list_ops_refine st h l1 n l2 m :
  dll st h (l1 ++ n :: l2) → m ∉ h :: l1 ++ n :: l2 → is_node st m →
  let xs := l1 ++ n :: l2 in
  (∃ st', list_add st m h = Ret st' ∧ dll st' h (m :: xs) ∧ only_touches (m :: h :: xs) st st') ∧
  (∃ st', list_add_tail st m h = Ret st' ∧ dll st' h (xs ++ [m]) ∧
          only_touches (m :: h :: xs) st st') ∧
  (∃ st', list_del st n = Ret st' ∧ dll st' h (l1 ++ l2) ∧ list_linked st' n = Ret false ∧
          only_touches (n :: h :: l1 ++ l2) st st') ∧
  (∃ st', list_del_init st n = Ret st' ∧ dll st' h (l1 ++ l2) ∧ dll st' n [] ∧
          only_touches (n :: h :: l1 ++ l2) st st') ∧
  (∃ st', list_move st n h = Ret st' ∧ dll st' h (n :: l1 ++ l2) ∧
          only_touches (n :: h :: l1 ++ l2) st st') ∧
  (∃ st', list_move_tail st n h = Ret st' ∧ dll st' h (l1 ++ l2 ++ [n]) ∧
          only_touches (n :: h :: l1 ++ l2) st st').
Proof.
  intros Hd Hm Hn xs. split; [by apply list_add_spec|]. split; [by apply list_add_tail_spec|].
  split; [|split; [by apply list_del_init_spec|by apply list_move_spec]].
  destruct (list_del_spec st h l1 n l2 Hd) as (st' & E & Hd' & H1 & H2 & Ht).
  exists st'. split; [done|]. split; [done|]. split; [|done].
  unfold list_linked. rewrite (get_next_Some _ _ _ H1). cbn [mbind outcome_bind].
  by rewrite Z.eqb_refl, andb_false_r.
Qed.

Lemma list_ops_refine_witness :
  ∃ st', list_del_init example_store 20 = Ret st' ∧ dll st' 1 [10; 30] ∧ dll st' 20 [] ∧
         only_touches [20; 1; 10; 30] example_store st'.
Proof.
  apply (list_ops_refine example_store 1 [10] 20 [30] 5).
  - exact example_dll.
  - apply (bool_decide_unpack _); vm_compute; exact I.
  - split; eexists; reflexivity.
Defined.

(** [list_validate] is a decision procedure: with enough fuel for its own
    guard it answers 1 exactly when [head] is the sentinel of a well-formed
    circular list with fewer than 2{^24} nodes. *)
Theorem list_validate_decides fuel st h :
  0x1000000 ≤ Z.of_nat fuel →
  list_validate fuel st h = Ret 1 ↔ ∃ xs, dll st h xs ∧ zlen xs < 0x1000000.
Proof.
  intros Hf. unfold list_validate. split.
  - intros H. destruct (list_validate_loop_sound fuel st h h 0) as (l & Hc & Hh & Hok & Hmax);
      [lia|done|]. exists l. split; [|lia]. split.
    + apply NoDup_cons. split; [done|]. pose proof Hc as [_ (q & _ & Hc')].
      by apply (chain_NoDup st q l h).
    + apply (chain_links st (h :: l) h); done.
  - intros (xs & Hd & Hlen). pose proof Hd as [Hnd Hl]. apply NoDup_cons in Hnd as [Hh _].
    apply (list_validate_loop_intact fuel st h h xs 0); [|done| |unfold zlen in Hlen; lia|lia|lia].
    + apply (links_chain st (h :: xs) h). done.
    + intros x Hx. by apply (dll_node_ok st h xs).
Qed.

Lemma list_validate_decides_witness :
  list_validate (Z.to_nat 0x1000000) example_store 1 = Ret 1.
Proof.
  apply (list_validate_decides (Z.to_nat 0x1000000) example_store 1).
  - rewrite Z2Nat.id; lia.
  - exists [10; 20; 30]. split; [exact example_dll|reflexivity].
Defined.
