(* ===== verification/Vmregion.v ===== *)
(** The virtual-memory region tracker, [kernel/memory/vmregion.c]: an address
    space as a list of disjoint, page-aligned regions in ascending order. The
    intrusive list is the list of its regions ([Klist] shows that the list
    operations keep such a sequence); a traversal by [list_for_each_safe] is an
    index into it. The region cache is outside: the number of region allocations
    that succeed is an argument. *)

From S2P Require Import Prelude Kmath Layout.

(** ** Definitions *)

Definition VM_PROT_READ : Z := 0x1.
Definition VM_PROT_WRITE : Z := 0x2.
Definition VM_PROT_EXEC : Z := 0x4.
Definition VM_FLAG_USER : Z := 0x01.
Definition VM_FLAG_ANON : Z := 0x02.
Definition VM_FLAG_FILE : Z := 0x04.
Definition VM_FLAG_COW : Z := 0x08.
Definition VM_FLAG_GROWSDOWN : Z := 0x10.
Definition VM_FLAG_FIXED : Z := 0x20.
Definition VM_FLAG_SHARED : Z := 0x40.

Record vm_region := mk_region {
  r_start : Z;
  r_end : Z;
  r_prot : Z;
  r_flags : Z;
  r_name : Z;
  r_fault_count : Z
}.

Record vm_map := mk_vm {
  regions : list vm_region;
  vm_base : Z;
  vm_limit : Z;
  region_count : Z;
  total_mapped : Z;
  vm_name : Z;
  minor_faults : Z;
  major_faults : Z;
  cow_faults : Z;
  protection_faults : Z
}.

(** The assignments to fields. *)
Definition with_start (r : vm_region) (v : Z) : vm_region :=
  mk_region v (r_end r) (r_prot r) (r_flags r) (r_name r) (r_fault_count r).
Definition with_end (r : vm_region) (v : Z) : vm_region :=
  mk_region (r_start r) v (r_prot r) (r_flags r) (r_name r) (r_fault_count r).
Definition with_prot (r : vm_region) (v : Z) : vm_region :=
  mk_region (r_start r) (r_end r) v (r_flags r) (r_name r) (r_fault_count r).
Definition with_flags (r : vm_region) (v : Z) : vm_region :=
  mk_region (r_start r) (r_end r) (r_prot r) v (r_name r) (r_fault_count r).
Definition with_fault_count (r : vm_region) (v : Z) : vm_region :=
  mk_region (r_start r) (r_end r) (r_prot r) (r_flags r) (r_name r) v.
Definition with_regions (m : vm_map) (l : list vm_region) (count total : Z) : vm_map :=
  mk_vm l (vm_base m) (vm_limit m) count total (vm_name m)
    (minor_faults m) (major_faults m) (cow_faults m) (protection_faults m).

Definition vm_map_init (base limit : Z) (name : Z) : vm_map :=
  mk_vm [] base limit 0 0 name 0 0 0 0.

Definition vm_map_destroy (m : vm_map) : vm_map := with_regions m [] 0 0.

Definition vm_map_overlaps (m : vm_map) (start end_ : Z) : bool :=
  existsb (λ r, (start <? r_end r) && (r_start r <? end_)) (regions m).

Definition aligned_range (start end_ : Z) : bool :=
  (Z.land start PAGE_MASK =? 0) && (Z.land end_ PAGE_MASK =? 0) && (start <? end_).

(** The position of the first region that starts above [start]. *)
Fixpoint insert_pos (l : list vm_region) (start : Z) : nat :=
  match l with
  | [] => O
  | r :: l => if start <? r_start r then O else S (insert_pos l start)
  end.

Definition vm_map_insert (alloc : nat) (m : vm_map) (start end_ prot flags : Z)
    (name : Z) : nat * vm_map * Z :=
  if negb (aligned_range start end_) then (alloc, m, -1)
  else if (start <? vm_base m) || (vm_limit m <? end_) then (alloc, m, -1)
  else if vm_map_overlaps m start end_ then (alloc, m, -1)
  else
    match alloc with
    | O => (O, m, -1)
    | S alloc =>
        let nr := mk_region start end_ prot flags name 0 in
        let pos := insert_pos (regions m) start in
        let l := take pos (regions m) ++ nr :: drop pos (regions m) in
        (alloc,
         with_regions m l (u64 (region_count m + 1)) (u64 (total_mapped m + u64 (end_ - start))),
         0)
    end.

(** The region that contains [addr], with its index in the list. *)
Fixpoint find_from (l : list vm_region) (i : nat) (addr : Z) : option (nat * vm_region) :=
  match l with
  | [] => None
  | r :: l =>
      if (r_start r <=? addr) && (addr <? r_end r) then Some (i, r)
      else if addr <? r_start r then None
      else find_from l (S i) addr
  end.

Definition vm_map_find (m : vm_map) (addr : Z) : option (nat * vm_region) :=
  find_from (regions m) O addr.

Fixpoint find_free_loop (l : list vm_region) (limit cursor size : Z) : Z :=
  match l with
  | [] => if u64 (cursor + size) <=? limit then cursor else 0
  | r :: l =>
      if r_end r <=? cursor then find_free_loop l limit cursor size
      else if u64 (cursor + size) <=? r_start r then cursor
      else find_free_loop l limit (if cursor <? r_end r then r_end r else cursor) size
  end.

Definition vm_map_find_free (m : vm_map) (hint size : Z) : Z :=
  let size := PAGE_ALIGN_UP size in
  if size =? 0 then 0
  else
    let cursor := if hint <? vm_base m then vm_base m else PAGE_ALIGN_UP hint in
    find_free_loop (regions m) (vm_limit m) cursor size.

(** One turn of the removal loop on the region [r] at index [i]; the result has
    the index of the region that was next in the list before the turn. *)
Definition remove_step (alloc : nat) (m : vm_map) (start end_ : Z) (i : nat) (r : vm_region)
    : nat * vm_map * Z * nat :=
  if (end_ <=? r_start r) || (r_end r <=? start) then (alloc, m, 0, S i)
  else
    let ostart := if start <? r_start r then r_start r else start in
    let oend := if r_end r <? end_ then r_end r else end_ in
    let removed := u64 (oend - ostart) in
    if (start <=? r_start r) && (r_end r <=? end_) then
      (alloc,
       with_regions m (delete i (regions m)) (u64 (region_count m - 1))
         (u64 (total_mapped m - u64 (r_end r - r_start r))),
       removed, i)
    else if (r_start r <? start) && (end_ <? r_end r) then
      let total := u64 (total_mapped m - u64 (r_end r - r_start r)) in
      let r' := with_end r start in
      let total := u64 (total + u64 (r_end r' - r_start r')) in
      let m1 := with_regions m (<[i := r']> (regions m)) (region_count m) total in
      let pos := insert_pos (regions m1) end_ in
      let '(alloc, m2, rc) :=
        vm_map_insert alloc m1 end_ (r_end r) (r_prot r) (r_flags r) (r_name r) in
      (alloc, m2, removed, if (rc =? 0) && (pos <=? S i)%nat then S (S i) else S i)
    else if start <=? r_start r then
      (alloc,
       with_regions m (<[i := with_start r end_]> (regions m)) (region_count m)
         (u64 (total_mapped m - u64 (end_ - r_start r))),
       removed, S i)
    else
      (alloc,
       with_regions m (<[i := with_end r start]> (regions m)) (region_count m)
         (u64 (total_mapped m - u64 (r_end r - start))),
       removed, S i).

Fixpoint remove_loop (fuel alloc : nat) (m : vm_map) (start end_ removed : Z) (i : nat)
    : outcome (nat * vm_map * Z) :=
  match regions m !! i with
  | None => Ret (alloc, m, removed)
  | Some r =>
      match fuel with
      | O => Loop
      | S fuel =>
          let '(alloc, m, n, i) := remove_step alloc m start end_ i r in
          remove_loop fuel alloc m start end_ (u64 (removed + n)) i
      end
  end.

(** Every turn passes one region of the list, or a part that a turn added; a part
    is added at most once per region. *)
Definition vm_map_remove (alloc : nat) (m : vm_map) (start end_ : Z) : outcome (nat * vm_map * Z) :=
  if negb (aligned_range start end_) then Ret (alloc, m, 0)
  else remove_loop (2 * length (regions m)) alloc m start end_ 0 O.

Definition outside (start end_ : Z) (r : vm_region) : bool :=
  (end_ <=? r_start r) || (r_end r <=? start).

Definition touched (start end_ : Z) (l : list vm_region) : Z :=
  zlen (filter (λ r, outside start end_ r = false) l).

Definition vm_map_protect (m : vm_map) (start end_ prot : Z) : vm_map * Z :=
  if negb (aligned_range start end_) then (m, -1)
  else
    (with_regions m
       (map (λ r, if outside start end_ r then r else with_prot r prot) (regions m))
       (region_count m) (total_mapped m),
     if touched start end_ (regions m) =? 0 then -1 else 0).

Definition vm_map_mark_cow (m : vm_map) (start end_ : Z) : vm_map * Z :=
  (with_regions m
     (map (λ r, if outside start end_ r then r
                else if Z.land (r_prot r) VM_PROT_WRITE =? 0 then r
                else with_flags r (Z.lor (r_flags r) VM_FLAG_COW)) (regions m))
     (region_count m) (total_mapped m),
   touched start end_ (regions m)).

Definition with_faults (m : vm_map) (l : list vm_region) (mi ma co pr : Z) : vm_map :=
  mk_vm l (vm_base m) (vm_limit m) (region_count m) (total_mapped m) (vm_name m)
    (u64 (minor_faults m + mi)) (u64 (major_faults m + ma))
    (u64 (cow_faults m + co)) (u64 (protection_faults m + pr)).

Definition vm_map_account_fault (m : vm_map) (addr : Z) (write present : bool)
    : vm_map * option (nat * vm_region) :=
  match vm_map_find m addr with
  | None => (with_faults m (regions m) 0 1 0 0, None)
  | Some (i, r) =>
      let r' := with_fault_count r (u64 (r_fault_count r + 1)) in
      let l := <[i := r']> (regions m) in
      let m' :=
        if write && negb (Z.land (r_flags r) VM_FLAG_COW =? 0) then with_faults m l 0 0 1 0
        else if write && (Z.land (r_prot r) VM_PROT_WRITE =? 0) then with_faults m l 0 0 0 1
        else if present then with_faults m l 1 0 0 0
        else with_faults m l 0 1 0 0 in
      (m', Some (i, r'))
  end.

(** ** Specification *)

(** Disjoint, nonempty, page-aligned regions in ascending order in [lo, hi). *)
Fixpoint ranges (lo hi : Z) (l : list vm_region) : Prop :=
  match l with
  | [] => lo ≤ hi
  | r :: l =>
      lo ≤ r_start r ∧ r_start r < r_end r ∧
      r_start r mod 4096 = 0 ∧ r_end r mod 4096 = 0 ∧ ranges (r_end r) hi l
  end.

Definition mapped (l : list vm_region) : Z := foldr (λ r n, r_end r - r_start r + n) 0 l.

Definition vm_inv (m : vm_map) : Prop :=
  ranges (vm_base m) (vm_limit m) (regions m) ∧ 0 ≤ vm_base m ∧ vm_limit m < 2 ^ 64 ∧
  region_count m = zlen (regions m) ∧ total_mapped m = mapped (regions m).

Definition covers (r : vm_region) (a : Z) : bool := (r_start r <=? a) && (a <? r_end r).

(** The protection, flags and name in force at the address [a]. *)
Fixpoint attr_at (l : list vm_region) (a : Z) : option (Z * Z * Z) :=
  match l with
  | [] => None
  | r :: l => if covers r a then Some (r_prot r, r_flags r, r_name r) else attr_at l a
  end.

(** No address of [start, end_) is mapped. *)
Definition unmapped (l : list vm_region) (start end_ : Z) : Prop :=
  ∀ a, start ≤ a < end_ → attr_at l a = None.

(** The parts of a region that survive the removal of [start, end_); [room] is
    whether there is memory for the right part of a hole. *)
Definition cut (room : bool) (start end_ : Z) (r : vm_region) : list vm_region :=
  if outside start end_ r then [r]
  else if (r_start r <? start) && (end_ <? r_end r) then
    with_end r start :: (if room then [mk_region end_ (r_end r) (r_prot r) (r_flags r) (r_name r) 0] else [])
  else (if r_start r <? start then [with_end r start] else []) ++
       (if end_ <? r_end r then [with_start r end_] else []).

(** The bytes of a region that are in the range. *)
Definition overlap (start end_ : Z) (r : vm_region) : Z := Z.max 0 (Z.min end_ (r_end r) - Z.max start (r_start r)).
Definition overlaps (start end_ : Z) (l : list vm_region) : Z := foldr (λ r n, overlap start end_ r + n) 0 l.

(** The address is above the hole in a region whose right part is not allocated. *)
Definition lost (room : bool) (start end_ a : Z) (r : vm_region) : bool :=
  negb room && (r_start r <? start) && (end_ <? r_end r) && (end_ <=? a) && (a <? r_end r).

(** ** Lemmas *)

(** Where the list [l] ends, when it starts at [lo]. *)
Definition lend (lo : Z) (l : list vm_region) : Z := foldl (λ _ r, r_end r) lo l.

Lemma ranges_app lo hi l1 l2 :
  ranges lo hi (l1 ++ l2) ↔ ranges lo (lend lo l1) l1 ∧ ranges (lend lo l1) hi l2.
Proof.
  revert lo. induction l1 as [|r l1 IH]; intros lo; cbn [app ranges lend foldl]; [|fold (lend (r_end r) l1); rewrite IH; tauto].
  split; [|tauto]. intros H. split; [lia|done].
Qed.

Lemma ranges_le lo hi l : ranges lo hi l → lo ≤ lend lo l ≤ hi.
Proof.
  revert lo. induction l as [|r l IH]; intros lo; cbn [ranges lend foldl]; [lia|].
  intros (H1 & H2 & _ & _ & H). apply IH in H. unfold lend in H. lia.
Qed.

Lemma ranges_weaken lo lo' hi hi' l : ranges lo hi l → lo' ≤ lo → hi ≤ hi' → ranges lo' hi' l.
Proof.
  revert lo lo'. induction l as [|r l IH]; intros lo lo'; cbn [ranges]; [lia|].
  intros (H1 & H2 & H3 & H4 & H) Hl Hh. repeat split; try done; [lia|]. eapply IH; [done| |done]. lia.
Qed.

Lemma mapped_app l1 l2 : mapped (l1 ++ l2) = mapped l1 + mapped l2.
Proof. induction l1 as [|r l1 IH]; [done|]. cbn [app mapped foldr]. unfold mapped in *. lia. Qed.

Lemma mapped_le lo hi l : ranges lo hi l → 0 ≤ mapped l ≤ hi - lo.
Proof.
  revert lo. induction l as [|r l IH]; intros lo; cbn [ranges mapped foldr]; [lia|].
  intros (H1 & H2 & _ & _ & H). apply IH in H. unfold mapped in H. lia.
Qed.

Lemma ranges_in lo hi l r :
  ranges lo hi l → r ∈ l → lo ≤ r_start r ∧ r_start r < r_end r ∧ r_end r ≤ hi.
Proof.
  revert lo. induction l as [|r' l IH]; intros lo; cbn [ranges]; [by intros _ H%elem_of_nil|].
  intros (H1 & H2 & _ & _ & H) [->|Hin]%elem_of_cons.
  - apply ranges_le in H. lia.
  - specialize (IH _ H Hin). lia.
Qed.

Lemma aligned_range_spec s e :
  aligned_range s e = true ↔ s mod 4096 = 0 ∧ e mod 4096 = 0 ∧ s < e.
Proof. unfold aligned_range. rewrite !page_offset_spec, !andb_true_iff, !Z.eqb_eq, Z.ltb_lt. tauto. Qed.

Lemma attr_at_app l1 l2 a :
  attr_at (l1 ++ l2) a = match attr_at l1 a with Some x => Some x | None => attr_at l2 a end.
Proof. induction l1 as [|r l1 IH]; [done|]. cbn [app attr_at]. by destruct (covers r a). Qed.

Lemma attr_at_None l a : attr_at l a = None ↔ ∀ r, r ∈ l → covers r a = false.
Proof.
  induction l as [|r l IH]; cbn [attr_at]; [split; [by intros _ r H%elem_of_nil|done]|].
  destruct (covers r a) eqn:E.
  - split; [done|]. intros H. rewrite H in E; [done|constructor].
  - rewrite IH. split.
    + intros H r' [->|Hr]%elem_of_cons; auto.
    + intros H r' Hr. apply H. by constructor.
Qed.

(** [vm_map_overlaps] decides whether an address of the range is mapped. *)
Lemma overlaps_spec m s e :
  (∀ r, r ∈ regions m → r_start r < r_end r) → s < e →
  vm_map_overlaps m s e = false ↔ unmapped (regions m) s e.
Proof.
  intros Hr Hse. unfold unmapped, vm_map_overlaps. rewrite <- not_true_iff_false, existsb_exists. split.
  - intros Hn a Ha. apply attr_at_None. intros r Hin. unfold covers.
    destruct (Z.leb_spec (r_start r) a), (Z.ltb_spec a (r_end r)); try done. exfalso. apply Hn.
    exists r. split; [by apply list_elem_of_In|]. apply andb_true_intro. split; apply Z.ltb_lt; lia.
  - intros Hu (r & Hin%list_elem_of_In & [H1%Z.ltb_lt H2%Z.ltb_lt]%andb_true_iff).
    specialize (Hr _ Hin). assert (s ≤ Z.max s (r_start r) < e) as Ha by lia.
    pose proof (proj1 (attr_at_None _ _) (Hu _ Ha) _ Hin) as Hc. unfold covers in Hc.
    apply andb_false_iff in Hc as [Hc%Z.leb_gt|Hc%Z.ltb_ge]; lia.
Qed.

(** Where the new region goes: all before it end at or below [s], all after it
    start at or above [e]. *)
Lemma insert_pos_ranges lo hi l s e :
  ranges lo hi l → lo ≤ s → s < e → e ≤ hi → s mod 4096 = 0 → e mod 4096 = 0 →
  (∀ r, r ∈ l → ¬ (s < r_end r ∧ r_start r < e)) →
  ∀ p f n c, ranges lo hi (take (insert_pos l s) l ++ mk_region s e p f n c :: drop (insert_pos l s) l).
Proof.
  intros H Hlo Hse Hhi Hs He Hov p f n c. revert lo H Hlo.
  induction l as [|r l IH]; intros lo; cbn [ranges insert_pos].
  - cbn. intros; repeat split; lia || done.
  - intros (H1 & H2 & H3 & H4 & H) Hlo. pose proof (Hov r ltac:(constructor)).
    destruct (Z.ltb_spec s (r_start r)); cbn [take drop app ranges r_start r_end].
    + repeat split; try done; lia.
    + repeat split; try done. apply IH; [|done|lia]. intros r' Hr'. apply Hov. by constructor.
Qed.

Lemma insert_mapped l i nr : mapped (take i l ++ nr :: drop i l) = mapped l + (r_end nr - r_start nr).
Proof. rewrite <- (take_drop i l) at 3. rewrite !mapped_app. cbn [mapped foldr]. unfold mapped. lia. Qed.

Lemma insert_zlen (l : list vm_region) i nr : zlen (take i l ++ nr :: drop i l) = zlen l + 1.
Proof. rewrite <- (take_drop i l) at 3. zlen_simpl. lia. Qed.

Lemma insert_attr l i nr a :
  (∀ r, r ∈ l → covers nr a = true → covers r a = false) →
  attr_at (take i l ++ nr :: drop i l) a =
    if covers nr a then Some (r_prot nr, r_flags nr, r_name nr) else attr_at l a.
Proof.
  intros H. rewrite <- (take_drop i l) at 3. rewrite !attr_at_app. cbn [attr_at].
  destruct (covers nr a) eqn:E; [|done]. rewrite (proj2 (attr_at_None (take i l) a)); [done|].
  intros r Hr. apply H; [|done]. rewrite <- (take_drop i l). apply elem_of_app; auto.
Qed.

Lemma vm_inv_pos m r : vm_inv m → r ∈ regions m → r_start r < r_end r.
Proof. intros [H _] Hr. by destruct (ranges_in _ _ _ _ H Hr) as (_ & ? & _). Qed.

(** The insertion when nothing is in the way. *)
Lemma vm_map_insert_ok alloc m s e p f n :
  vm_inv m → aligned_range s e = true → vm_base m ≤ s → e ≤ vm_limit m →
  unmapped (regions m) s e → zlen (regions m) + 1 < 2 ^ 64 →
  let l := take (insert_pos (regions m) s) (regions m) ++ mk_region s e p f n 0 ::
           drop (insert_pos (regions m) s) (regions m) in
  let m' := with_regions m l (region_count m + 1) (total_mapped m + (e - s)) in
  vm_map_insert (S alloc) m s e p f n = (alloc, m', 0) ∧ vm_inv m' ∧
  ∀ a, attr_at l a = if (s <=? a) && (a <? e) then Some (p, f, n) else attr_at (regions m) a.
Proof.
  intros Hinv Hal Hb Hl Hun Hlen. cbv zeta. pose proof Hinv as (Hr & H0 & Hlim & Hc & Ht).
  pose proof (proj1 (aligned_range_spec s e) Hal) as (Hs & He & Hse).
  assert (Hrng := insert_pos_ranges _ _ _ s e Hr Hb Hse Hl Hs He).
  assert (∀ r, r ∈ regions m → ¬ (s < r_end r ∧ r_start r < e)) as Hov.
  { intros r Hin [H1 H2]. pose proof (vm_inv_pos m r Hinv Hin).
    pose proof (proj1 (attr_at_None _ _) (Hun (Z.max s (r_start r)) ltac:(lia)) r Hin) as Hcv.
    unfold covers in Hcv. apply andb_false_iff in Hcv as [Hcv%Z.leb_gt|Hcv%Z.ltb_ge]; lia. }
  specialize (Hrng Hov p f n 0). pose proof (zlen_nonneg (regions m)).
  pose proof (mapped_le _ _ _ Hrng) as Hm. rewrite insert_mapped in Hm. cbn [r_end r_start] in Hm.
  pose proof (mapped_le _ _ _ Hr).
  split; [|split].
  - unfold vm_map_insert. rewrite Hal. cbn [negb].
    rewrite (proj2 (Z.ltb_ge s (vm_base m))), (proj2 (Z.ltb_ge (vm_limit m) e)) by lia. cbn [orb].
    rewrite (proj2 (overlaps_spec m s e (λ r Hr, vm_inv_pos m r Hinv Hr) Hse) Hun).
    rewrite (u64_small (e - s)), (u64_small (region_count m + 1)), (u64_small (total_mapped m + _)) by lia. done.
  - split; [exact Hrng|]. cbn. rewrite insert_zlen, insert_mapped. cbn. lia.
  - intros a. apply (insert_attr _ _ (mk_region s e p f n 0)). intros r Hin [Ha1%Z.leb_le Ha2%Z.ltb_lt]%andb_true_iff. cbn in Ha1, Ha2.
    apply (proj1 (attr_at_None _ _) (Hun a ltac:(lia)) r Hin).
Qed.

Lemma find_from_spec lo hi l i a :
  ranges lo hi l →
  match find_from l i a with
  | Some (j, r) => ∃ k, j = (i + k)%nat ∧ l !! k = Some r ∧ covers r a = true
  | None => attr_at l a = None
  end.
Proof.
  revert lo i. induction l as [|r l IH]; intros lo i; [done|]. intros (H1 & H2 & _ & _ & H).
  cbn [find_from attr_at]. fold (covers r a). destruct (covers r a) eqn:E.
  - exists O. rewrite Nat.add_0_r. done.
  - destruct (Z.ltb_spec a (r_start r)).
    + apply attr_at_None. intros r' Hin. destruct (ranges_in _ _ _ _ H Hin) as (? & ? & ?).
      unfold covers. rewrite (proj2 (Z.leb_gt (r_start r') a)) by lia. done.
    + specialize (IH _ (S i) H). destruct (find_from l (S i) a) as [[j r']|]; [|done].
      destruct IH as (k & -> & Hk & Hc). exists (S k). split; [lia|]. done.
Qed.

Lemma unmapped_cons r l s e :
  unmapped (r :: l) s e ↔ (∀ a, s ≤ a < e → covers r a = false) ∧ unmapped l s e.
Proof.
  unfold unmapped. split.
  - intros H. split; intros a Ha; specialize (H a Ha); cbn [attr_at] in H; by destruct (covers r a).
  - intros [H1 H2] a Ha. cbn [attr_at]. rewrite H1 by done. auto.
Qed.

Lemma covers_false r a : covers r a = false ↔ a < r_start r ∨ r_end r ≤ a.
Proof. unfold covers. rewrite andb_false_iff, Z.leb_gt, Z.ltb_ge. done. Qed.

(** The search for a gap finds the lowest one at or above the cursor. *)
Lemma find_free_loop_spec lo limit l cursor size :
  ranges lo limit l → 0 < cursor → 0 < size → cursor mod 4096 = 0 →
  cursor + size < 2 ^ 64 → limit + size < 2 ^ 64 →
  let c := find_free_loop l limit cursor size in
  (c ≠ 0 → cursor ≤ c ∧ c mod 4096 = 0 ∧ c + size ≤ limit ∧ unmapped l c (c + size)) ∧
  (∀ c', cursor ≤ c' → c' + size ≤ limit → unmapped l c' (c' + size) → c ≠ 0 ∧ c ≤ c').
Proof.
  intros Hr Hc0 Hs. cbv zeta. revert lo cursor Hr Hc0.
  induction l as [|r l IH]; intros lo cursor Hr Hc0 Hm Hw Hlim; cbn [find_free_loop].
  { rewrite u64_small by lia. destruct (Z.leb_spec (cursor + size) limit); [|split; [done|lia]].
    split; [|lia]. intros _. split; [lia|]. done. }
  destruct Hr as (H1 & H2 & H3 & H4 & H). pose proof (ranges_le _ _ _ H) as Hle.
  destruct (Z.leb_spec (r_end r) cursor).
  - destruct (IH _ cursor H Hc0 Hm Hw Hlim) as [IH1 IH2]. split.
    + intros Hnz. destruct (IH1 Hnz) as (? & ? & ? & ?). repeat (split; [done|]). apply unmapped_cons. split; [|done].
      intros a Ha. apply covers_false. lia.
    + intros c' ? ? [_ Hu]%unmapped_cons. auto.
  - rewrite u64_small by lia. destruct (Z.leb_spec (cursor + size) (r_start r)).
    + split; [|lia]. intros _. split; [lia|]. split; [done|]. split; [lia|]. intros a Ha. apply attr_at_None.
      intros r' [->|Hin]%elem_of_cons; apply covers_false; [lia|].
      destruct (ranges_in _ _ _ _ H Hin) as (? & ? & ?). lia.
    + rewrite (proj2 (Z.ltb_lt cursor (r_end r))) by lia.
      destruct (IH _ (r_end r) H ltac:(lia) H4 ltac:(lia) Hlim) as [IH1 IH2]. split.
      * intros Hnz. destruct (IH1 Hnz) as (? & ? & ? & ?). split; [lia|]. repeat (split; [done|]). apply unmapped_cons. split; [|done].
        intros a Ha. apply covers_false. lia.
      * intros c' Hc' Hl' [Hu1 Hu]%unmapped_cons. apply IH2; [|done|done].
        destruct (Z.le_gt_cases (r_end r) c'); [done|]. exfalso.
        specialize (Hu1 (Z.max c' (r_start r)) ltac:(lia)). apply covers_false in Hu1. lia.
Qed.

(** *** Removal *)

(** Cases of all comparisons. *)
Ltac cmp_cases :=
  repeat match goal with |- context [?x <=? ?y] => destruct (Z.leb_spec x y)
                    | |- context [?x <? ?y] => destruct (Z.ltb_spec x y) end.

Lemma cut_attr k s e r l a :
  s < e → r_start r < r_end r →
  attr_at (cut k s e r ++ l) a =
    if (negb ((s <=? a) && (a <? e)) && negb (lost k s e a r) && covers r a) then Some (r_prot r, r_flags r, r_name r)
    else attr_at l a.
Proof.
  intros Hse Hr. unfold cut, outside, lost, covers. destruct k;
  cmp_cases; try lia; cbn [andb orb negb app attr_at];
  unfold covers; cbn [r_start r_end r_prot r_flags r_name with_start with_end];
  cmp_cases; done || lia.
Qed.

Lemma cuts_attr k s e l a lo hi :
  ranges lo hi l → s < e →
  attr_at (flat_map (cut k s e) l) a = if ((s <=? a) && (a <? e)) || existsb (lost k s e a) l then None else attr_at l a.
Proof.
  intros H Hse. revert lo H. induction l as [|r l IH]; intros lo; cbn [ranges flat_map attr_at existsb].
  - by destruct (_ && _).
  - intros (_ & H2 & _ & _ & H). rewrite cut_attr by done. rewrite (IH _ H).
    destruct ((s <=? a) && (a <? e)); [done|]. cbn [orb negb andb]. destruct (lost k s e a r) eqn:El; cbn [orb negb andb].
    + assert (attr_at l a = None) as ->; [|by destruct (existsb _ _)]. apply attr_at_None. intros r' Hin. apply covers_false. left.
      destruct (ranges_in _ _ _ _ H Hin) as (? & _). unfold lost in El. rewrite !andb_true_iff, !Z.leb_le, !Z.ltb_lt in El. lia.
    + destruct (covers r a) eqn:Ec; [|done]. destruct (existsb (lost k s e a) l) eqn:Ex; [|done]. exfalso.
      apply existsb_exists in Ex as (r' & Hin & Hl). destruct (ranges_in _ _ _ _ H (proj2 (list_elem_of_In _ _) Hin)) as (? & _).
      unfold lost in Hl. unfold covers in Ec. rewrite !andb_true_iff, ?Z.leb_le, ?Z.ltb_lt in *. lia.
Qed.

Lemma cut_outside k s e r : outside s e r = true → cut k s e r = [r].
Proof. unfold cut. by intros ->. Qed.

(** After a region that reaches beyond [e], nothing is cut. *)
Lemma cuts_beyond k s e l lo hi : ranges lo hi l → e ≤ lo → flat_map (cut k s e) l = l.
Proof.
  revert lo. induction l as [|r l IH]; intros lo; [done|]. intros (H1 & H2 & _ & _ & H) He. cbn [flat_map].
  rewrite cut_outside by (unfold outside; rewrite (proj2 (Z.leb_le _ _)) by lia; done).
  rewrite (IH _ H) by lia. done.
Qed.

Lemma cuts_ranges k s e l lo hi :
  ranges lo hi l → s < e → s mod 4096 = 0 → e mod 4096 = 0 →
  ranges lo hi (flat_map (cut k s e) l) ∧ mapped (flat_map (cut k s e) l) ≤ mapped l.
Proof.
  intros H Hse Hs He. revert lo H. induction l as [|r l IH]; intros lo; [cbn; lia|].
  intros (H1 & H2 & H3 & H4 & H). destruct (IH _ H) as [IH1 IH2]. cbn [flat_map]. rewrite mapped_app.
  set (j := flat_map (cut k s e) l) in *. clearbody j. unfold cut, outside. destruct k;
  cmp_cases; try lia; cbn [andb orb negb app ranges mapped foldr r_start r_end with_start with_end];
  (split; [|unfold mapped in *; lia]); repeat split; try lia; try done;
  (eapply ranges_weaken; [exact IH1| |]; lia).
Qed.

(** With memory, what is gone is what was in the range. *)
Lemma cuts_overlaps s e l lo hi :
  ranges lo hi l → s < e → mapped l - mapped (flat_map (cut true s e) l) = overlaps s e l.
Proof.
  intros H Hse. revert lo H. induction l as [|r l IH]; intros lo; [done|]. intros (H1 & H2 & _ & _ & H). specialize (IH _ H).
  cbn [flat_map overlaps foldr mapped]. fold (overlaps s e l) (mapped l). rewrite mapped_app. enough (r_end r - r_start r - mapped (cut true s e r) = overlap s e r) by lia.
  clear IH H. unfold cut, outside, overlap. cmp_cases; try lia; cbn [andb orb negb app mapped foldr r_start r_end with_start with_end]; lia.
Qed.

Lemma overlap_range s e r : r_start r < r_end r → 0 ≤ overlap s e r ≤ r_end r - r_start r.
Proof. unfold overlap. lia. Qed.

Lemma overlaps_range s e l lo hi : ranges lo hi l → 0 ≤ overlaps s e l ≤ mapped l.
Proof.
  revert lo. induction l as [|r l IH]; intros lo; [done|]. intros (_ & H2 & _ & _ & H). specialize (IH _ H). cbn [overlaps mapped foldr]. fold (overlaps s e l) (mapped l).
  pose proof (overlap_range s e r H2). lia.
Qed.

Lemma ranges_concat lo mid hi l1 l2 : ranges lo mid l1 → ranges mid hi l2 → ranges lo hi (l1 ++ l2).
Proof.
  revert lo. induction l1 as [|r l1 IH]; intros lo; cbn [ranges app].
  - intros. eapply ranges_weaken; [done|lia|lia].
  - intros (H1 & H2 & H3 & H4 & H) Hl2. repeat (split; [done|]); eauto.
Qed.

(** The map with other regions, its counters following. *)
Definition vm_upd (m : vm_map) (l : list vm_region) : vm_map := with_regions m l (zlen l) (mapped l).

Lemma vm_upd_inv m l : vm_inv m → ranges (vm_base m) (vm_limit m) l → vm_inv (vm_upd m l).
Proof. intros (_ & Hb & Hl & _) H. done. Qed.

Lemma insert_pos_app lo mid l1 l2 s :
  ranges lo mid l1 → mid ≤ s → insert_pos (l1 ++ l2) s = (length l1 + insert_pos l2 s)%nat.
Proof.
  revert lo. induction l1 as [|r l1 IH]; intros lo; [done|]. intros (H1 & H2 & _ & _ & H) Hs.
  pose proof (ranges_le _ _ _ H). cbn [app insert_pos length].
  rewrite (proj2 (Z.ltb_ge s (r_start r))), (IH _ H) by lia. done.
Qed.

Lemma insert_pos_beyond lo hi l s : ranges lo hi l → s < lo → insert_pos l s = O.
Proof. destruct l as [|r l]; [done|]. intros (H & _) Hs. cbn. by rewrite (proj2 (Z.ltb_lt s (r_start r))) by lia. Qed.

Lemma delete_middle {A} (l1 l2 : list A) x : delete (length l1) (l1 ++ x :: l2) = l1 ++ l2.
Proof. induction l1 as [|y l1 IH]; [done|]. cbn. by rewrite <- IH. Qed.

Lemma insert_middle {A} (l1 l2 : list A) x y : <[length l1 := y]> (l1 ++ x :: l2) = l1 ++ y :: l2.
Proof. induction l1 as [|z l1 IH]; [done|]. cbn. by rewrite <- IH. Qed.

Section Removal.
Context (s e : Z) (Hal : aligned_range s e = true).

Lemma cut_ranges k lo r :
  ranges lo (r_end r) [r] → ranges lo (r_end r) (cut k s e r) ∧ mapped (cut k s e r) ≤ r_end r - r_start r.
Proof using Hal.
  intros H. apply aligned_range_spec in Hal as (Hs & He & Hse).
  pose proof (cuts_ranges k s e [r] lo (r_end r) H Hse Hs He) as [H1 H2].
  cbn [flat_map] in *. rewrite app_nil_r in *. cbn [mapped foldr] in *. unfold mapped in *. split; [done|lia].
Qed.

(** The hole: the left part stays, the right part is inserted after it. *)
Lemma remove_hole alloc m dn r todo :
  vm_inv m → regions m = dn ++ r :: todo → zlen (regions m) + 1 < 2 ^ 64 →
  r_start r < s → e < r_end r →
  let m1 := vm_upd m (dn ++ with_end r s :: todo) in
  vm_map_insert (S alloc) m1 e (r_end r) (r_prot r) (r_flags r) (r_name r) =
    (alloc, vm_upd m (dn ++ cut true s e r ++ todo), 0) ∧
  insert_pos (regions m1) e = S (length dn).
Proof using Hal.
  intros Hinv Hreg Hlen Hl Hr m1. pose proof Hinv as (Hrg & Hb & Hlim & _). rewrite Hreg in Hrg.
  apply ranges_app in Hrg as [Hdn Htodo]. destruct Htodo as (H1 & H2 & H3 & H4 & Htodo).
  pose proof (proj1 (aligned_range_spec s e) Hal) as (Hs & He & Hse).
  pose proof (ranges_le _ _ _ Hdn). pose proof (ranges_le _ _ _ Htodo).
  assert (ranges (vm_base m) s (dn ++ [with_end r s])) as Hleft.
  { apply ranges_app. split; [done|]. cbn. repeat split; lia || done. }
  assert (insert_pos (regions m1) e = S (length dn)) as Hpos.
  { cbn [m1 vm_upd regions with_regions]. rewrite (cons_middle (with_end r s) dn todo), (assoc_L (++)).
    rewrite (insert_pos_app _ _ _ _ _ Hleft) by lia. rewrite (insert_pos_beyond _ _ _ _ Htodo) by lia.
    rewrite length_app. cbn. lia. }
  split; [|done].
  assert (vm_inv m1) as Hinv1.
  { apply vm_upd_inv; [done|]. rewrite (cons_middle (with_end r s) dn todo), (assoc_L (++)).
    eapply ranges_concat; [exact Hleft|]. eapply ranges_weaken; [exact Htodo|lia|lia]. }
  destruct (vm_map_insert_ok alloc m1 e (r_end r) (r_prot r) (r_flags r) (r_name r) Hinv1) as (Hins & Hinv2 & _).
  - apply aligned_range_spec. split; [done|]. split; [done|lia].
  - cbn. lia.
  - cbn. lia.
  - intros a Ha. apply attr_at_None. cbn [m1 vm_upd regions with_regions]. intros r' Hin. apply covers_false.
    rewrite (cons_middle (with_end r s) dn todo), (assoc_L (++)) in Hin.
    apply elem_of_app in Hin as [Hin|Hin].
    + destruct (ranges_in _ _ _ _ Hleft Hin) as (? & ? & ?). lia.
    + destruct (ranges_in _ _ _ _ Htodo Hin) as (? & ? & ?). lia.
  - cbn [m1 vm_upd regions with_regions]. rewrite Hreg in Hlen. zlen_simpl. lia.
  - rewrite Hins. rewrite Hpos. f_equal. f_equal. unfold m1, vm_upd. cbn [regions with_regions region_count total_mapped vm_base vm_limit vm_name].
    rewrite (cons_middle (with_end r s) dn todo), (assoc_L (++)).
    rewrite take_app_length', drop_app_length' by (rewrite length_app; cbn; lia).
    unfold cut. assert (outside s e r = false) as ->.
    { unfold outside. rewrite (proj2 (Z.leb_gt e _)), (proj2 (Z.leb_gt _ s)) by lia. done. }
    rewrite (proj2 (Z.ltb_lt (r_start r) s)), (proj2 (Z.ltb_lt e (r_end r))) by lia. cbn [andb].
    rewrite <- !(assoc_L (++)). cbn [app]. unfold with_regions. cbn [vm_base vm_limit vm_name minor_faults major_faults cow_faults protection_faults]. f_equal; [zlen_simpl; lia|].
    rewrite !mapped_app. cbn [mapped foldr with_end r_start r_end]. unfold mapped. lia.
Qed.

Lemma with_regions_upd m l c t :
  c = zlen l → t = mapped l → with_regions m l c t = vm_upd m l.
Proof. by intros -> ->. Qed.

Lemma vm_upd_id m l : vm_inv m → regions m = l → vm_upd m l = m.
Proof. intros (_ & _ & _ & Hc & Ht) <-. unfold vm_upd. rewrite <- Hc, <- Ht. by destruct m. Qed.

Lemma step_result {A B} (a a' : A) (b b' : B) (n n' : Z) (k k' : nat) :
  a = a' → b = b' → n = n' → k = k' → (a, b, n, k) = (a', b', n', k').
Proof. congruence. Qed.

Ltac u64_lia := repeat match goal with |- context [u64 ?x] => rewrite (u64_small x) by lia end; lia.

Ltac step_fin :=
  cbn [app mapped foldr r_start r_end with_start with_end]; rewrite ?length_app; cbn [length];
  apply step_result;
  [done
  |first [done | apply with_regions_upd;
   [zlen_simpl; u64_lia
   |rewrite ?mapped_app; cbn [mapped foldr r_start r_end with_start with_end]; repeat match goal with |- context [foldr _ 0 ?l] => progress fold (mapped l) end; u64_lia]]
  |u64_lia
  |lia].

(** Whether a hole's right part can be allocated. *)
Definition has_room (alloc : nat) : bool := negb (alloc =? 0)%nat.

Lemma insert_without_room m start end_ prot flags name : vm_map_insert 0 m start end_ prot flags name = (O, m, -1).
Proof. unfold vm_map_insert. by destruct (negb (aligned_range start end_)), ((start <? vm_base m) || (vm_limit m <? end_)), (vm_map_overlaps m start end_). Qed.

(** One turn of the loop replaces the region by its remaining parts. A region is
    allocated only for a hole, after which nothing is left to cut. *)
Lemma remove_step_spec k alloc m dn r todo :
  vm_inv m → regions m = dn ++ r :: todo → zlen (regions m) + 1 < 2 ^ 64 →
  has_room alloc = k ∨ e ≤ r_start r →
  ∃ alloc', remove_step alloc m s e (length dn) r =
    (alloc', vm_upd m (dn ++ cut k s e r ++ todo), overlap s e r,
     length (dn ++ cut k s e r)) ∧ (alloc' = alloc ∨ e < r_end r).
Proof using Hal.
  intros Hinv Hreg Hlen Halloc. pose proof Hinv as (Hrg & Hb & Hlim & Hc & Ht). rewrite Hreg in Hrg, Hc, Ht, Hlen.
  pose proof (mapped_le _ _ _ Hrg) as Hm. rewrite mapped_app in Ht, Hm. cbn [mapped foldr] in Ht, Hm. fold (mapped todo) in Ht, Hm.
  apply ranges_app in Hrg as [Hdn Htodo]. destruct Htodo as (H1 & H2 & H3 & H4 & Htodo).
  pose proof (proj1 (aligned_range_spec s e) Hal) as (Hs & He & Hse).
  pose proof (mapped_le _ _ _ Hdn). pose proof (mapped_le _ _ _ Htodo).
  pose proof (ranges_le _ _ _ Hdn). pose proof (ranges_le _ _ _ Htodo).
  pose proof (zlen_nonneg todo). pose proof (zlen_nonneg dn). zlen_simpl.
  pose proof (remove_hole (pred alloc) m dn r todo Hinv Hreg ltac:(rewrite Hreg; zlen_simpl; lia)) as Hhole.
  unfold remove_step, overlap. rewrite !Hreg.
  rewrite delete_middle, !insert_middle.
  assert (∀ a b, 0 ≤ b ≤ a → a - b ≤ r_end r - r_start r → u64 (a - b) = a - b) as Hsub by (intros; apply u64_small; lia).
  assert (Hid := vm_upd_id m _ Hinv Hreg).
  unfold cut in *. change (outside s e r) with ((e <=? r_start r) || (r_end r <=? s)) in *.
  destruct (Z.leb_spec e (r_start r)), (Z.leb_spec (r_end r) s); cbn [orb] in *; try lia;
    [(exists alloc; split; [cbn [app]; rewrite Hid; step_fin|by left])..|].
  destruct Halloc as [Hk|]; [|lia].
  destruct (Z.ltb_spec s (r_start r)), (Z.leb_spec s (r_start r)), (Z.ltb_spec (r_end r) e), (Z.leb_spec (r_end r) e),
    (Z.ltb_spec (r_start r) s), (Z.ltb_spec e (r_end r)); cbn [andb] in *; try lia.
  all: try (exists alloc; split; [step_fin|by left]).
  rewrite (with_regions_upd m (dn ++ with_end r s :: todo)).
  2: zlen_simpl; lia.
  2: rewrite mapped_app; cbn [mapped foldr r_start r_end with_start with_end]; fold (mapped todo); u64_lia.
  destruct alloc as [|alloc]; cbn in Hk; subst k.
  - exists O. split; [|by left]. rewrite insert_without_room. cbn [Z.eqb andb]. step_fin.
  - destruct (Hhole ltac:(lia) ltac:(lia)) as [Hins Hpos]. exists alloc. split; [|right; lia].
    cbn [pred] in Hins. rewrite Hins, Hpos. cbn [Z.eqb andb]. rewrite (proj2 (Nat.leb_le _ _)) by lia. step_fin.
Qed.

Lemma remove_loop_spec k todo : ∀ fuel alloc m dn removed,
  vm_inv m → regions m = dn ++ todo → zlen dn + 2 * zlen todo + 1 < 2 ^ 64 →
  has_room alloc = k ∨ (∀ r, r ∈ todo → e ≤ r_start r) →
  (length todo ≤ fuel)%nat → 0 ≤ removed → removed + mapped todo < 2 ^ 64 →
  ∃ alloc', remove_loop fuel alloc m s e removed (length dn) =
    Ret (alloc', vm_upd m (dn ++ flat_map (cut k s e) todo), removed + overlaps s e todo).
Proof using Hal.
  induction todo as [|r todo IH]; intros fuel alloc m dn removed Hinv Hreg Hlen Halloc Hfuel Hr0 Hr1.
  { rewrite app_nil_r in Hreg. exists alloc. destruct fuel; cbn [remove_loop]; rewrite lookup_ge_None_2 by (rewrite Hreg; lia);
      cbn [flat_map overlaps foldr]; rewrite app_nil_r, vm_upd_id by done; do 2 f_equal; lia. }
  destruct fuel as [|fuel]; [cbn in Hfuel; lia|]. cbn [remove_loop].
  rewrite Hreg, list_lookup_middle by done.
  pose proof Hinv as (Hrg & Hb & Hlim & _). rewrite Hreg in Hrg. apply ranges_app in Hrg as [Hdn Hr].
  pose proof Hr as (Hr1' & Hr2 & Hr3 & Hr4 & Hrt). pose proof (ranges_le _ _ _ Hrt) as Hle.
  pose proof (mapped_le _ _ _ Hrt). zlen_simpl. pose proof (zlen_nonneg todo).
  destruct (remove_step_spec k alloc m dn r todo Hinv Hreg) as (alloc' & -> & Hal'); [rewrite Hreg; zlen_simpl; lia|destruct Halloc as [?|Hb']; [by left|right; apply Hb'; left]|].
  destruct (cut_ranges k (lend (vm_base m) dn) r) as [Hcr Hcm].
  { cbn. repeat split; lia || done. }
  pose proof (overlap_range s e r Hr2) as Hov. pose proof (ranges_le _ _ _ Hdn) as Hdle.
  cbn [mapped foldr] in Hr1. fold (mapped todo) in Hr1. rewrite u64_small by lia.
  assert (zlen (cut k s e r) ≤ 2) as Hcl.
  { unfold cut. destruct (outside s e r), (r_start r <? s), (e <? r_end r), k; unfold zlen; cbn [length app andb]; lia. }
  destruct (IH fuel alloc' (vm_upd m (dn ++ cut k s e r ++ todo)) (dn ++ cut k s e r)
              (removed + overlap s e r)) as [alloc2 E].
  - apply vm_upd_inv; [done|]. eapply ranges_concat; [done|]. eapply ranges_concat; [done|]. done.
  - by rewrite (assoc_L (++)).
  - zlen_simpl. lia.
  - destruct Hal' as [->|Hbey]; [destruct Halloc as [?|Hb']; [by left|right; intros; apply Hb'; by right]|]. right. intros r' Hin.
    destruct (ranges_in _ _ _ _ Hrt Hin) as (? & _). lia.
  - cbn in Hfuel. lia.
  - lia.
  - lia.
  - exists alloc2. rewrite E. do 2 f_equal.
    + cbn [flat_map]. rewrite <- (assoc_L (++)). done.
    + cbn [overlaps foldr]. fold (overlaps s e todo). lia.
Qed.

End Removal.

(** ** Theorems *)

(** [vm_map_insert] refuses exactly the ranges that are empty or unaligned,
    outside the map, or partly mapped (or when no region can be allocated), and
    then changes nothing; otherwise exactly the addresses of the range get the new
    attributes, and the regions stay sorted, disjoint and counted. *)
Theorem vm_map_insert_exact alloc m s e p f n :
  vm_inv m → zlen (regions m) + 1 < 2 ^ 64 →
  (¬ (s mod 4096 = 0 ∧ e mod 4096 = 0 ∧ s < e ∧ vm_base m ≤ s ∧ e ≤ vm_limit m ∧
      unmapped (regions m) s e ∧ alloc ≠ O) →
   vm_map_insert alloc m s e p f n = (alloc, m, -1)) ∧
  (s mod 4096 = 0 → e mod 4096 = 0 → s < e → vm_base m ≤ s → e ≤ vm_limit m →
   unmapped (regions m) s e → alloc ≠ O →
   ∃ m', vm_map_insert alloc m s e p f n = (pred alloc, m', 0) ∧ vm_inv m' ∧
     region_count m' = region_count m + 1 ∧ total_mapped m' = total_mapped m + (e - s) ∧
     ∀ a, attr_at (regions m') a =
          if (s <=? a) && (a <? e) then Some (p, f, n) else attr_at (regions m) a).
Proof.
  intros Hinv Hlen. split.
  - intros Hn. unfold vm_map_insert. destruct (aligned_range s e) eqn:Hal; [|done]. cbn [negb].
    apply aligned_range_spec in Hal as (Hs & He & Hse).
    destruct (Z.ltb_spec s (vm_base m)); [done|]. destruct (Z.ltb_spec (vm_limit m) e); [done|]. cbn [orb].
    destruct (vm_map_overlaps m s e) eqn:Hov; [done|]. destruct alloc; [done|]. exfalso. apply Hn.
    apply (overlaps_spec m s e (λ r Hr, vm_inv_pos m r Hinv Hr) Hse) in Hov. done.
  - intros Hs He Hse Hb Hl Hun Ha. destruct alloc as [|alloc]; [done|].
    destruct (vm_map_insert_ok alloc m s e p f n Hinv) as (E & Hinv' & Hat); try done.
    + by apply aligned_range_spec.
    + eexists. split; [exact E|]. split; [exact Hinv'|]. done.
Qed.

(** Three regions with gaps between them. *)
Definition demo_map : vm_map :=
  mk_vm [mk_region 0x400000 0x402000 5 1 1 0; mk_region 0x403000 0x408000 3 3 2 0;
         mk_region 0x700000 0x701000 3 0x11 3 0] 0x1000 0x800000 3 0x8000 4 0 0 0 0.

Lemma demo_map_inv : vm_inv demo_map.
Proof. unfold vm_inv. cbn. repeat split; lia. Qed.

Lemma vm_map_insert_exact_witness :
  vm_map_insert 1 demo_map 0x401000 0x403000 3 1 5 = (1%nat, demo_map, -1) ∧
  ∃ m', vm_map_insert 1 demo_map 0x402000 0x403000 3 1 5 = (O, m', 0) ∧ vm_inv m'.
Proof.
  split.
  - destruct (vm_map_insert_exact 1 demo_map 0x401000 0x403000 3 1 5 demo_map_inv) as [H _]; [by vm_compute|].
    apply H. intros (_ & _ & _ & _ & _ & Hu & _). specialize (Hu 0x401000 ltac:(lia)). done.
  - destruct (vm_map_insert_exact 1 demo_map 0x402000 0x403000 3 1 5 demo_map_inv) as [_ H]; [by vm_compute|].
    destruct H as (m' & E & Hi & _); [done|done|lia|by vm_compute|by vm_compute| |done|exists m'; done].
    intros a Ha. cbn. unfold covers. cbn [r_start r_end].
    repeat match goal with |- context [?x <=? ?y] => destruct (Z.leb_spec x y)
                      | |- context [?x <? ?y] => destruct (Z.ltb_spec x y) end; done || lia.
Defined.

(** [vm_map_find] finds the region that contains an address exactly when the
    address is mapped, and [vm_map_find_free] returns the lowest free page-aligned
    gap of the rounded size at or above the hint, zero when there is none. *)
Theorem vm_map_find_correct m addr hint size :
  vm_inv m → 0 < vm_base m → vm_base m mod 4096 = 0 →
  0 < size → 0 ≤ hint → hint + size + 8192 < 2 ^ 64 → vm_limit m + size + 4096 < 2 ^ 64 →
  let len := 4096 * ((size + 4095) / 4096) in
  let low := if hint <? vm_base m then vm_base m else 4096 * ((hint + 4095) / 4096) in
  let c := vm_map_find_free m hint size in
  match vm_map_find m addr with
  | Some (i, r) => regions m !! i = Some r ∧ r_start r ≤ addr < r_end r
  | None => attr_at (regions m) addr = None
  end ∧
  (c ≠ 0 → low ≤ c ∧ c mod 4096 = 0 ∧ c + len ≤ vm_limit m ∧ unmapped (regions m) c (c + len)) ∧
  (∀ c', low ≤ c' → c' + len ≤ vm_limit m → unmapped (regions m) c' (c' + len) → c ≠ 0 ∧ c ≤ c').
Proof.
  intros (Hr & _ & Hlim & _) Hb Hbm Hs Hh Hw Hw'. cbv zeta. split.
  - unfold vm_map_find. pose proof (find_from_spec _ _ _ 0 addr Hr) as H.
    destruct (find_from (regions m) 0 addr) as [[i r]|]; [|done]. destruct H as (k & -> & Hk & Hc).
    split; [done|]. unfold covers in Hc. lia.
  - unfold vm_map_find_free. rewrite (page_align_up_spec size) by lia.
    assert (size ≤ 4096 * ((size + 4095) / 4096) ≤ size + 4095) as Hlen by zlia.
    destruct (Z.eqb_spec (4096 * ((size + 4095) / 4096)) 0); [lia|].
    assert (hint ≤ 4096 * ((hint + 4095) / 4096) ≤ hint + 4095) as Hhl by zlia.
    rewrite (page_align_up_spec hint) by lia.
    pose proof (ranges_le _ _ _ Hr).
    apply (find_free_loop_spec (vm_base m)); try done; try lia;
      destruct (Z.ltb_spec hint (vm_base m)); try lia.
    rewrite Z.mul_comm. apply Z_mod_mult.
Qed.

Lemma vm_map_find_correct_witness :
  vm_map_find_free demo_map 0x400000 0x1800 = 0x408000 ∧
  unmapped (regions demo_map) 0x408000 0x40a000.
Proof.
  split; [reflexivity|].
  refine (proj2 (proj2 (proj2 (proj1 (proj2 (vm_map_find_correct demo_map 0x404000 0x400000 0x1800
            demo_map_inv _ _ _ _ _ _)) _)))); try done; by vm_compute.
Defined.

(** C25. [vm_map_remove] of a page-aligned range unmaps exactly its addresses, splitting
    a region in two where the range is a hole in it, unless there is no memory for
    the right part of that region, which is then lost as well. It returns the number
    of bytes of the range that were mapped, which is by how much the total went down
    when there was memory, and the regions stay sorted, disjoint and counted. A range
    that is empty or not page-aligned changes nothing. (For a list of regions that
    is not so long that its counter can overflow.) *)
Theorem vm_map_remove_exact alloc m s e :
  vm_inv m → 2 * zlen (regions m) + 1 < 2 ^ 64 →
  if aligned_range s e then
    ∃ alloc' m' removed,
      vm_map_remove alloc m s e = Ret (alloc', m', removed) ∧ vm_inv m' ∧
      removed = overlaps s e (regions m) ∧ 0 ≤ removed ∧ (alloc ≠ O → removed = total_mapped m - total_mapped m') ∧
      ∀ a, attr_at (regions m') a =
        if ((s <=? a) && (a <? e)) || existsb (lost (has_room alloc) s e a) (regions m) then None else attr_at (regions m) a
  else vm_map_remove alloc m s e = Ret (alloc, m, 0).
Proof.
  intros Hinv Hlen. pose proof Hinv as (Hr & Hb & Hlim & _ & Ht). unfold vm_map_remove. destruct (aligned_range s e) eqn:Hal; [|done].
  pose proof (proj1 (aligned_range_spec s e) Hal) as (Hs & He & Hse). pose proof (mapped_le _ _ _ Hr). pose proof (overlaps_range s e _ _ _ Hr).
  destruct (cuts_ranges (has_room alloc) s e _ _ _ Hr Hse Hs He) as [Hcr Hcm].
  destruct (remove_loop_spec s e Hal (has_room alloc) (regions m) (2 * length (regions m)) alloc m [] 0) as [alloc' E];
    try done; try (by left); try (change (zlen (@nil vm_region)) with 0; lia); try lia.
  cbn [negb]. eexists _, _, _. split; [exact E|]. split; [by apply vm_upd_inv|].
  cbn [vm_upd with_regions regions total_mapped app flat_map]. rewrite Ht, Z.add_0_l. split; [done|]. split; [lia|]. split.
  - intros Ha. assert (has_room alloc = true) as -> by (by destruct alloc). symmetry. by apply (cuts_overlaps s e _ _ _ Hr).
  - intros a. by apply (cuts_attr _ s e _ a _ _ Hr).
Qed.

(** With memory for a part and without. *)
Lemma vm_map_remove_exact_witness :
  ∃ m' m2, vm_map_remove 1 demo_map 0x401000 0x406000 = Ret (1%nat, m', 0x4000) ∧ vm_inv m' ∧ region_count m' = 3 ∧
    vm_map_remove 0 demo_map 0x404000 0x405000 = Ret (O, m2, 0x1000) ∧ vm_inv m2 ∧
    attr_at (regions demo_map) 0x406000 = Some (3, 3, 2) ∧ attr_at (regions m2) 0x406000 = None.
Proof.
  destruct (vm_map_remove_exact 1 demo_map 0x401000 0x406000 demo_map_inv) as (al & m' & rem & E & Hi & _); [by vm_compute|].
  destruct (vm_map_remove_exact 0 demo_map 0x404000 0x405000 demo_map_inv) as (al2 & m2 & rem2 & E2 & Hi2 & _); [by vm_compute|].
  vm_compute in E, E2. injection E as <- <- <-. injection E2 as <- <- <-. eexists _, _. split; [vm_compute; reflexivity|]. split; [exact Hi|]. split; [reflexivity|].
  split; [vm_compute; reflexivity|]. split; [exact Hi2|]. split; reflexivity.
Defined.

Lemma ranges_map lo hi l (g : vm_region → vm_region) :
  (∀ r, r_start (g r) = r_start r ∧ r_end (g r) = r_end r) →
  ranges lo hi l → ranges lo hi (map g l) ∧ mapped (map g l) = mapped l.
Proof.
  intros Hg. revert lo. induction l as [|r l IH]; intros lo; [done|]. intros (H1 & H2 & H3 & H4 & H).
  destruct (IH _ H) as [IH1 IH2]. destruct (Hg r) as [Hs He]. cbn [map ranges mapped foldr]. rewrite Hs, He.
  fold (mapped (map g l)) (mapped l). split; [done|lia].
Qed.

Lemma attr_at_map l (g : vm_region → vm_region) a :
  (∀ r, r_start (g r) = r_start r ∧ r_end (g r) = r_end r) →
  is_Some (attr_at (map g l) a) ↔ is_Some (attr_at l a).
Proof.
  intros Hg. induction l as [|r l IH]; [done|]. cbn [map attr_at]. destruct (Hg r) as [Hs He].
  unfold covers. rewrite Hs, He. destruct (_ && _); [|done]. split; by eexists.
Qed.

(** Changing protection or marking copy-on-write keeps the invariant and the set
    of mapped addresses. *)
Lemma vm_map_updates_preserve m s e p :
  vm_inv m →
  vm_inv (fst (vm_map_protect m s e p)) ∧ vm_inv (fst (vm_map_mark_cow m s e)) ∧
  ∀ a, (is_Some (attr_at (regions (fst (vm_map_protect m s e p))) a) ↔ is_Some (attr_at (regions m) a)) ∧
       (is_Some (attr_at (regions (fst (vm_map_mark_cow m s e))) a) ↔ is_Some (attr_at (regions m) a)).
Proof.
  intros Hinv. pose proof Hinv as (Hr & Hb & Hl & Hc & Ht).
  set (g1 := λ r, if outside s e r then r else with_prot r p).
  set (g2 := λ r, if outside s e r then r
                  else if Z.land (r_prot r) VM_PROT_WRITE =? 0 then r
                  else with_flags r (Z.lor (r_flags r) VM_FLAG_COW)).
  assert (∀ r, r_start (g1 r) = r_start r ∧ r_end (g1 r) = r_end r) as H1 by (intros r; unfold g1; by destruct (outside s e r)).
  assert (∀ r, r_start (g2 r) = r_start r ∧ r_end (g2 r) = r_end r) as H2
    by (intros r; unfold g2; destruct (outside s e r); [done|]; destruct (Z.land (r_prot r) VM_PROT_WRITE =? 0); done).
  destruct (ranges_map _ _ _ _ H1 Hr) as [Hr1 Hm1], (ranges_map _ _ _ _ H2 Hr) as [Hr2 Hm2].
  assert (∀ g : vm_region → vm_region, zlen (map g (regions m)) = zlen (regions m)) as Hz by (intros g; unfold zlen; by rewrite length_map).
  split; [|split].
  - unfold vm_map_protect. destruct (aligned_range s e); [|done]. cbn [negb fst]. split; [done|]. cbn [with_regions vm_base vm_limit regions region_count total_mapped]. fold g1. rewrite Hz. lia.
  - cbn [vm_map_mark_cow fst]. split; [done|]. cbn [with_regions vm_base vm_limit regions region_count total_mapped]. fold g2. rewrite Hz. lia.
  - intros a. split; [|by apply attr_at_map]. unfold vm_map_protect. destruct (aligned_range s e); [|done]. by apply attr_at_map.
Qed.
