(* ===== verification/Paging.v ===== *)
(** The page tables, [kernel/arch/x86_64/paging.c]: four levels of 512 entries in
    physical memory, which the kernel sees at its physical address. The page
    allocator that gives the tables is an interface, [PageAllocator], with the
    laws the page tables rely on. *)

From S2P Require Import Prelude Kmath Layout Memory.

(** ** Definitions *)

Definition K_OK : Z := 0.
Definition K_ERR_NOTFOUND : Z := -4.
Definition K_ERR_EXISTS : Z := -5.
Definition K_ERR_ALIGN : Z := -6.

Definition PAGE_PRESENT : Z := Z.shiftl 1 0.
Definition PAGE_WRITABLE : Z := Z.shiftl 1 1.
Definition PAGE_USER : Z := Z.shiftl 1 2.
Definition PAGE_WRITE_THROUGH : Z := Z.shiftl 1 3.
Definition PAGE_CACHE_DISABLE : Z := Z.shiftl 1 4.
Definition PAGE_HUGE : Z := Z.shiftl 1 7.
Definition PAGE_ADDR_MASK : Z := 0x000FFFFFFFFFF000.
Definition PAGING_NO_MAP : Z := not64 0.

(** What the page tables use of the page allocator: a page, or 0. *)
Class PageAllocator (A : Type) := alloc_page : A → outcome (A * Z).

(** What they rely on: a page that is given out is aligned, below 2^52, one of the
    pages the allocator manages, was free and no longer is; which pages are
    managed does not change; allocation fails exactly when no page is free. *)
Class PageAllocatorLaws (A : Type) {HA : PageAllocator A} := {
  pa_ok : A → Prop;
  pa_geometry : A → Z * Z;
  pa_managed : Z * Z → Z → Prop;
  pa_isfree : A → Z → Prop;
  pa_nfree : A → Z;
  pa_nonneg a : pa_ok a → 0 ≤ pa_nfree a;
  pa_alloc a :
    pa_ok a →
    (pa_nfree a = 0 ∧ alloc_page a = Ret (a, 0)) ∨
    (∃ a' p, alloc_page a = Ret (a', p) ∧ pa_ok a' ∧ pa_nfree a' = pa_nfree a - 1 ∧
       p mod 4096 = 0 ∧ 0 < p < 2 ^ 52 ∧ pa_managed (pa_geometry a) p ∧
       pa_isfree a p ∧ ¬ pa_isfree a' p ∧ pa_geometry a' = pa_geometry a ∧
       ∀ q, pa_isfree a' q → pa_isfree a q)
}.

(** An entry of the table at physical address [t]. *)
Definition pte (m : mem) (t i : Z) : Z := load64 m (t + 8 * i).
Definition set_pte (m : mem) (t i v : Z) : mem := store64 m (t + 8 * i) v.

(** [e & flag], as a condition. *)
Definition has (e flag : Z) : bool := negb (Z.land e flag =? 0).

Definition idx_pml4 (va : Z) : Z := Z.land (Z.shiftr va 39) 0x1FF.
Definition idx_pdpt (va : Z) : Z := Z.land (Z.shiftr va 30) 0x1FF.
Definition idx_pd (va : Z) : Z := Z.land (Z.shiftr va 21) 0x1FF.
Definition idx_pt (va : Z) : Z := Z.land (Z.shiftr va 12) 0x1FF.

Definition clear_body (phys i : Z) (m : mem) : outcome mem := Ret (set_pte m phys i 0).

Section Paging.
Context {A : Type} {HA : PageAllocator A}.

Definition paging_new_table (m : mem) (a : A) : outcome (mem * A * Z) :=
  '(a, phys) ← alloc_page a;
  if phys =? 0 then Panic
  else
    m ← for_range 0 512 (clear_body phys) m;
    Ret (m, a, phys).

Definition next_level (m : mem) (a : A) (table index level_flags : Z) : outcome (mem * A * Z) :=
  if negb (has (pte m table index) PAGE_PRESENT) then
    '(m, a, next) ← paging_new_table m a;
    Ret (set_pte m table index (Z.lor (Z.lor (Z.land next PAGE_ADDR_MASK) PAGE_PRESENT) level_flags), a, next)
  else Ret (m, a, Z.land (pte m table index) PAGE_ADDR_MASK).

Definition paging_map_4k (m : mem) (a : A) (pml4 va pa flags : Z) : outcome (mem * A * Z) :=
  let inter := Z.lor (Z.lor PAGE_PRESENT PAGE_WRITABLE) (Z.land flags PAGE_USER) in
  '(m, a, pdpt) ← next_level m a pml4 (idx_pml4 va) inter;
  '(m, a, pd) ← next_level m a pdpt (idx_pdpt va) inter;
  if has (pte m pd (idx_pd va)) PAGE_HUGE then Ret (m, a, K_ERR_EXISTS)
  else
    '(m, a, pt) ← next_level m a pd (idx_pd va) inter;
    let m := set_pte m pt (idx_pt va)
               (Z.lor (Z.lor (Z.land pa PAGE_ADDR_MASK) (Z.land flags (not64 PAGE_HUGE))) PAGE_PRESENT) in
    Ret (m, a, K_OK).

Definition paging_map_2m (m : mem) (a : A) (pml4 va pa flags : Z) : outcome (mem * A * Z) :=
  if has va LARGE_PAGE_MASK || has pa LARGE_PAGE_MASK then Ret (m, a, K_ERR_ALIGN)
  else
    let inter := Z.lor (Z.lor PAGE_PRESENT PAGE_WRITABLE) (Z.land flags PAGE_USER) in
    '(m, a, pdpt) ← next_level m a pml4 (idx_pml4 va) inter;
    '(m, a, pd) ← next_level m a pdpt (idx_pdpt va) inter;
    let m := set_pte m pd (idx_pd va)
               (Z.lor (Z.lor (Z.lor (Z.land pa PAGE_ADDR_MASK) (Z.land flags (not64 PAGE_HUGE))) PAGE_PRESENT)
                  PAGE_HUGE) in
    Ret (m, a, K_OK).

End Paging.

Definition paging_unmap_4k (m : mem) (pml4 va : Z) : mem * Z :=
  if negb (has (pte m pml4 (idx_pml4 va)) PAGE_PRESENT) then (m, K_ERR_NOTFOUND)
  else
    let pdpt := Z.land (pte m pml4 (idx_pml4 va)) PAGE_ADDR_MASK in
    if negb (has (pte m pdpt (idx_pdpt va)) PAGE_PRESENT) then (m, K_ERR_NOTFOUND)
    else
      let pd := Z.land (pte m pdpt (idx_pdpt va)) PAGE_ADDR_MASK in
      if negb (has (pte m pd (idx_pd va)) PAGE_PRESENT) || has (pte m pd (idx_pd va)) PAGE_HUGE
      then (m, K_ERR_NOTFOUND)
      else
        let pt := Z.land (pte m pd (idx_pd va)) PAGE_ADDR_MASK in
        if negb (has (pte m pt (idx_pt va)) PAGE_PRESENT) then (m, K_ERR_NOTFOUND)
        else (set_pte m pt (idx_pt va) 0, K_OK).

Definition paging_translate (m : mem) (pml4 va : Z) : Z :=
  if negb (has (pte m pml4 (idx_pml4 va)) PAGE_PRESENT) then PAGING_NO_MAP
  else
    let pdpt := Z.land (pte m pml4 (idx_pml4 va)) PAGE_ADDR_MASK in
    if negb (has (pte m pdpt (idx_pdpt va)) PAGE_PRESENT) then PAGING_NO_MAP
    else
      let pdpte := pte m pdpt (idx_pdpt va) in
      if has pdpte PAGE_HUGE then Z.lor (Z.land pdpte PAGE_ADDR_MASK) (Z.land va 0x3FFFFFFF)
      else
        let pd := Z.land pdpte PAGE_ADDR_MASK in
        if negb (has (pte m pd (idx_pd va)) PAGE_PRESENT) then PAGING_NO_MAP
        else
          let pde := pte m pd (idx_pd va) in
          if has pde PAGE_HUGE then Z.lor (Z.land pde PAGE_ADDR_MASK) (Z.land va LARGE_PAGE_MASK)
          else
            let pt := Z.land pde PAGE_ADDR_MASK in
            if negb (has (pte m pt (idx_pt va)) PAGE_PRESENT) then PAGING_NO_MAP
            else Z.lor (Z.land (pte m pt (idx_pt va)) PAGE_ADDR_MASK) (Z.land va PAGE_MASK).

(** ** Specification *)

(** The table at the end of a path of indices from the root. *)
Definition enter (m : mem) (t i : Z) : option Z :=
  let e := pte m t i in
  if has e PAGE_PRESENT && negb (has e PAGE_HUGE) then Some (Z.land e PAGE_ADDR_MASK) else None.

Definition walk (m : mem) (root : Z) (p : list Z) : option Z :=
  foldl (λ o i, t ← o; enter m t i) (Some root) p.

Definition vpath (p : list Z) : Prop := (length p ≤ 3)%nat ∧ Forall (λ i, 0 ≤ i < 512) p.

(** The page tables are a tree of distinct, allocated, aligned pages; only
    entries of the third level (page directories) map large pages. *)
Record pt_inv {A} {HA : PageAllocator A} {HL : PageAllocatorLaws A} (m : mem) (a : A) (root : Z) : Prop := {
  pi_alloc : pa_ok a;
  pi_page p t : vpath p → walk m root p = Some t → t mod 4096 = 0 ∧ 0 ≤ t < 2 ^ 52 ∧ ¬ pa_isfree a t;
  pi_inj p q t : vpath p → vpath q → walk m root p = Some t → walk m root q = Some t → p = q;
  pi_huge p t i : vpath p → (length p ≤ 2)%nat → walk m root p = Some t → 0 ≤ i < 512 →
    has (pte m t i) PAGE_HUGE = true → length p = 2%nat ∧ has (pte m t i) PAGE_PRESENT = true
}.

(** A table of the tree. *)
Definition is_table (m : mem) (root t : Z) : Prop := ∃ p, vpath p ∧ walk m root p = Some t.

(** From [m], [a] to [m'], [a'] at most [k] tables were added to the tree, all of
    them pages that were free, and only these and the tables were written to. *)
Definition grows {A} {HA : PageAllocator A} {HL : PageAllocatorLaws A} (k : Z) (m : mem) (a : A) (m' : mem) (a' : A)
    (root : Z) : Prop :=
  pa_nfree a - k ≤ pa_nfree a' ∧ (∀ q, pa_isfree a' q → pa_isfree a q) ∧
  pa_geometry a' = pa_geometry a ∧
  (∀ t, is_table m' root t → is_table m root t ∨ pa_isfree a t) ∧
  ∀ x, ¬ pa_isfree a (x - x mod 4096) → ¬ is_table m root (x - x mod 4096) → load8 m' x = load8 m x.

(** The number of the 4 KiB and of the 2 MiB page of an address. *)
Definition vpn (va : Z) : Z := (va / 4096) mod 2 ^ 36.
Definition lpn (va : Z) : Z := (va / 2 ^ 21) mod 2 ^ 27.

(** A 2 MiB page covers the address. *)
Definition covered_2m (m : mem) (root va : Z) : bool :=
  match walk m root [idx_pml4 va; idx_pdpt va] with
  | Some pd => has (pte m pd (idx_pd va)) PAGE_HUGE
  | None => false
  end.

(** The leaf entry that maps an address, [true] for a large page. *)
Definition slot (m : mem) (root va : Z) : option (bool * Z) :=
  match walk m root [idx_pml4 va; idx_pdpt va; idx_pd va] with
  | Some pt => let e := pte m pt (idx_pt va) in if has e PAGE_PRESENT then Some (false, e) else None
  | None =>
      pd ← walk m root [idx_pml4 va; idx_pdpt va];
      let e := pte m pd (idx_pd va) in if has e PAGE_PRESENT then Some (true, e) else None
  end.

(** ** Lemmas *)

Lemma has_bit e k : 0 ≤ k → has e (Z.shiftl 1 k) = Z.testbit e k.
Proof.
  intros Hk. unfold has. rewrite Z.shiftl_1_l. destruct (Z.testbit e k) eqn:E.
  - apply negb_true_iff, Z.eqb_neq. intros H0. apply (f_equal (λ z, Z.testbit z k)) in H0.
    rewrite Z.land_spec, E, Z.pow2_bits_true, Z.bits_0 in H0 by done. done.
  - apply negb_false_iff, Z.eqb_eq. apply Z.bits_inj'. intros i Hi.
    rewrite Z.land_spec, Z.bits_0, Z.pow2_bits_eqb by done.
    destruct (Z.eqb_spec k i) as [<-|]; [by rewrite E|by rewrite andb_false_r].
Qed.

Lemma has_present e : has e PAGE_PRESENT = Z.testbit e 0.
Proof. by apply has_bit. Qed.
Lemma has_huge e : has e PAGE_HUGE = Z.testbit e 7.
Proof. by apply has_bit. Qed.

Lemma has_mask e w : 0 ≤ w → has e (2 ^ w - 1) = negb (e mod 2 ^ w =? 0).
Proof. intros Hw. unfold has. by rewrite land_ones_mod. Qed.

Lemma mask_bit i : 0 ≤ i → Z.testbit PAGE_ADDR_MASK i = (12 <=? i) && (i <? 52).
Proof.
  intros Hi. change PAGE_ADDR_MASK with (Z.shiftl (Z.ones 40) 12). rewrite Z.shiftl_spec by done.
  destruct (Z.leb_spec 12 i); cbn [andb].
  - rewrite Z.testbit_ones_nonneg by lia. destruct (Z.ltb_spec (i - 12) 40), (Z.ltb_spec i 52); lia || done.
  - apply Z.testbit_neg_r. lia.
Qed.

Lemma mask_page e :
  Z.land e PAGE_ADDR_MASK mod 4096 = 0 ∧ 0 ≤ Z.land e PAGE_ADDR_MASK < 2 ^ 52.
Proof.
  split.
  - rewrite <- (land_ones_mod _ 12) by lia. rewrite <- Z.land_assoc. change (Z.land PAGE_ADDR_MASK (2 ^ 12 - 1)) with 0.
    apply Z.land_0_r.
  - rewrite Z.land_comm. by apply land_u_range.
Qed.

Lemma mask_id t : t mod 4096 = 0 → 0 ≤ t < 2 ^ 52 → Z.land t PAGE_ADDR_MASK = t.
Proof.
  intros Hm Ht. apply Z.bits_inj'. intros i Hi. rewrite Z.land_spec, mask_bit by done.
  destruct (Z.ltb_spec i 52); [|rewrite (testbit_high t 52) by lia; done].
  destruct (Z.leb_spec 12 i); cbn [andb]; [by rewrite andb_true_r|].
  rewrite andb_false_r. symmetry. replace t with (t / 4096 * 2 ^ 12) by (change (2 ^ 12) with 4096; zlia).
  apply Z.mul_pow2_bits_low. lia.
Qed.

Lemma entry_addr pa x :
  Z.land x PAGE_ADDR_MASK = 0 → Z.land (Z.lor (Z.land pa PAGE_ADDR_MASK) x) PAGE_ADDR_MASK = Z.land pa PAGE_ADDR_MASK.
Proof. intros Hx. by rewrite Z.land_lor_distr_l, <- Z.land_assoc, Z.land_diag, Hx, Z.lor_0_r. Qed.

(** An offset within a page of [2^w] bytes is added to an aligned address. *)
Lemma page_offset_add x va w :
  0 ≤ w → x mod 2 ^ w = 0 → Z.lor x (Z.land va (2 ^ w - 1)) = x + va mod 2 ^ w.
Proof.
  intros Hw Hx. rewrite land_ones_mod by done.
  rewrite Z.add_nocarry_lxor; [rewrite <- Z.lxor_lor; [done|]|].
  all: apply Z.bits_inj'; intros i Hi; rewrite Z.land_spec, Z.bits_0, testbit_mod_pow2 by done.
  all: destruct (Z.ltb_spec i w); [|by rewrite andb_false_r].
  all: replace x with (x / 2 ^ w * 2 ^ w) by (pose proof (Z.div_mod x (2 ^ w)); lia).
  all: rewrite Z.mul_pow2_bits_low by lia; done.
Qed.

Lemma idx_range va k : 0 ≤ Z.land (Z.shiftr va k) 0x1FF < 512.
Proof. change 0x1FF with (2 ^ 9 - 1). rewrite land_ones_mod by lia. apply Z.mod_pos_bound. lia. Qed.

Lemma idx_div va k : 0 ≤ k → Z.land (Z.shiftr va k) 0x1FF = (va / 2 ^ k) mod 512.
Proof. intros Hk. change 0x1FF with (2 ^ 9 - 1). by rewrite land_ones_mod, Z.shiftr_div_pow2 by lia. Qed.

(** Same indices, same page. *)
Lemma lpn_idx va va' :
  [idx_pml4 va; idx_pdpt va; idx_pd va] = [idx_pml4 va'; idx_pdpt va'; idx_pd va'] ↔ lpn va = lpn va'.
Proof.
  unfold idx_pml4, idx_pdpt, idx_pd, lpn. rewrite !idx_div by lia.
  assert (∀ x, (x / 2 ^ 39) = x / 2 ^ 21 / 2 ^ 18) as H1 by (intros; by rewrite Z.div_div).
  assert (∀ x, (x / 2 ^ 30) = x / 2 ^ 21 / 2 ^ 9) as H2 by (intros; by rewrite Z.div_div).
  rewrite !H1, !H2. generalize (va / 2 ^ 21) (va' / 2 ^ 21). clear. intros x y. split.
  - intros [= E1 E2 E3]. zlia.
  - intros E. assert (∀ a b, a mod 2 ^ 27 = b mod 2 ^ 27 → a mod 512 = b mod 512 ∧ a / 2 ^ 9 mod 512 = b / 2 ^ 9 mod 512 ∧
       a / 2 ^ 18 mod 512 = b / 2 ^ 18 mod 512) as H by (clear; intros; zlia).
    destruct (H _ _ E) as (-> & -> & ->). done.
Qed.

Lemma vpn_idx va va' : lpn va = lpn va' ∧ idx_pt va = idx_pt va' ↔ vpn va = vpn va'.
Proof.
  unfold idx_pt, lpn, vpn. rewrite !idx_div by lia. change (2 ^ 12) with 4096.
  assert (∀ x, (x / 2 ^ 21) = x / 4096 / 2 ^ 9) as H1 by (intros; by rewrite Z.div_div).
  rewrite !H1. generalize (va / 4096) (va' / 4096). clear. intros x y. split; [intros [E1 E2]|intros E; split]; zlia.
Qed.

(** *** Memory *)

Lemma pte_set m t i v : is_u64 v → pte (set_pte m t i v) t i = v.
Proof. apply load64_store64. Qed.

(** Entries of distinct pages, or with distinct indices, are apart. *)
Lemma pte_set_ne m t i v s j :
  t mod 4096 = 0 → s mod 4096 = 0 → 0 ≤ i < 512 → 0 ≤ j < 512 → (s, j) ≠ (t, i) →
  pte (set_pte m t i v) s j = pte m s j.
Proof.
  intros Ht Hs Hi Hj Hne. apply load64_store64_ne.
  destruct (decide (s = t)) as [->|]; [assert (i ≠ j) by congruence; lia|].
  assert (s = 4096 * (s / 4096) ∧ t = 4096 * (t / 4096)) as [Es Et] by zlia. lia.
Qed.

(** An entry is inside the page of its table. *)
Lemma load8_set_pte m t i v x :
  t mod 4096 = 0 → 0 ≤ i < 512 → x - x mod 4096 ≠ t → load8 (set_pte m t i v) x = load8 m x.
Proof. intros Ht Hi Hx. apply load8_store. zlia. Qed.

Lemma clear_table m t :
  t mod 4096 = 0 →
  ∃ m', for_range 0 512 (clear_body t) m = Ret m' ∧ (∀ j, 0 ≤ j < 512 → pte m' t j = 0) ∧
    (∀ s j, s mod 4096 = 0 → s ≠ t → 0 ≤ j < 512 → pte m' s j = pte m s j) ∧
    ∀ x, x - x mod 4096 ≠ t → load8 m' x = load8 m x.
Proof.
  intros Ht. destruct (for_range_inv (λ i m', (∀ j, 0 ≤ j < i → pte m' t j = 0) ∧
      (∀ s j, s mod 4096 = 0 → s ≠ t → 0 ≤ j < 512 → pte m' s j = pte m s j) ∧ ∀ x, x - x mod 4096 ≠ t → load8 m' x = load8 m x)
      (clear_body t) 0 512 m) as (m' & E & H).
  - lia.
  - intros i m1 Hi (H1 & H2 & H3). eexists. split; [reflexivity|]. split.
    + intros j Hj. destruct (decide (j = i)) as [->|]; [by apply pte_set|].
      rewrite pte_set_ne by (done || lia || congruence). apply H1. lia.
    + split; [intros s j Hs Hne Hj; rewrite pte_set_ne by (done || lia || congruence); by apply H2|].
      intros x Hx. rewrite load8_set_pte by (done || lia). by apply H3.
  - split; [intros; lia|done].
  - eauto.
Qed.

(** *** Walks *)

Lemma walk_snoc m r p i : walk m r (p ++ [i]) = (t ← walk m r p; enter m t i).
Proof. unfold walk. by rewrite foldl_app. Qed.

Lemma walk_app_None m r p q : walk m r p = None → walk m r (p ++ q) = None.
Proof.
  intros H. induction q as [|i q IH] using rev_ind; [by rewrite app_nil_r|].
  by rewrite (assoc_L (++)), walk_snoc, IH.
Qed.

Lemma vpath_snoc p i : vpath (p ++ [i]) → vpath p ∧ 0 ≤ i < 512.
Proof.
  intros [Hl Hf]. rewrite length_app in Hl. cbn in Hl. apply Forall_app in Hf as [Hf [Hi _]%Forall_cons].
  split; [|done]. split; [lia|done].
Qed.

Lemma vpath_snoc_2 p i : vpath p → (length p ≤ 2)%nat → 0 ≤ i < 512 → vpath (p ++ [i]).
Proof. intros [Hl Hf] H Hi. split; [rewrite length_app; cbn; lia|]. apply Forall_app. auto. Qed.

Section Invariant.
Context {A : Type} {HA : PageAllocator A} {HL : PageAllocatorLaws A}.

(** Memory [m'] differs from [m] in the tree only in entry [i] of the table at
    the end of [p]. *)
Definition same_but (m m' : mem) (root : Z) (p : list Z) (i : Z) : Prop :=
  ∀ q s j, vpath q → walk m root q = Some s → 0 ≤ j < 512 → (q, j) ≠ (p, i) → pte m' s j = pte m s j.

Lemma walk_same m m' a root p i q :
  pt_inv m a root → same_but m m' root p i → vpath q → ¬ p ++ [i] `prefix_of` q →
  walk m' root q = walk m root q.
Proof.
  intros Hinv Hsame. induction q as [|j q IH] using rev_ind; intros Hq Hpre; [done|].
  apply vpath_snoc in Hq as [Hq Hj]. rewrite !walk_snoc, IH; [|done|].
  - destruct (walk m root q) as [s|] eqn:Es; [|done]. cbn. unfold enter.
    rewrite (Hsame q s j); try done. intros [= -> ->]. apply Hpre. done.
  - intros Hp. apply Hpre. by apply prefix_app_r.
Qed.

Lemma enter_table m t i :
  has (pte m t i) PAGE_HUGE = false →
  enter m t i = if has (pte m t i) PAGE_PRESENT then Some (Z.land (pte m t i) PAGE_ADDR_MASK) else None.
Proof. unfold enter. intros ->. by rewrite andb_true_r. Qed.

(** The translation, in terms of the walk. *)
Definition leaf (m : mem) (root va : Z) : Z :=
  match slot m root va with
  | Some (false, e) => Z.land e PAGE_ADDR_MASK + va mod 4096
  | Some (true, e) => Z.lor (Z.land e PAGE_ADDR_MASK) (va mod 2 ^ 21)
  | None => PAGING_NO_MAP
  end.

Lemma vpath_va va :
  vpath [idx_pml4 va] ∧ vpath [idx_pml4 va; idx_pdpt va] ∧ vpath [idx_pml4 va; idx_pdpt va; idx_pd va].
Proof. unfold vpath. cbn [length]. split_and!; (lia || (repeat constructor; apply idx_range)). Qed.

Lemma not_huge m a root p t i :
  pt_inv m a root → vpath p → (length p ≤ 1)%nat → walk m root p = Some t → 0 ≤ i < 512 →
  has (pte m t i) PAGE_HUGE = false.
Proof.
  intros Hinv Hp Hl Hw Hi. destruct (has (pte m t i) PAGE_HUGE) eqn:E; [|done].
  destruct (pi_huge _ _ _ Hinv p t i Hp ltac:(lia) Hw Hi E). lia.
Qed.

Lemma translate_leaf m a root va : pt_inv m a root → paging_translate m root va = leaf m root va.
Proof.
  intros Hinv. destruct (vpath_va va) as (V1 & V2 & V3). unfold paging_translate, leaf, slot.
  assert (vpath []) as V0 by (split; [cbn; lia|constructor]).
  pose proof (not_huge m a root [] root (idx_pml4 va) Hinv V0 ltac:(cbn; lia) eq_refl ltac:(apply idx_range)) as N0.
  change ([idx_pml4 va; idx_pdpt va; idx_pd va]) with ((([] ++ [idx_pml4 va]) ++ [idx_pdpt va]) ++ [idx_pd va]).
  change ([idx_pml4 va; idx_pdpt va]) with (([] ++ [idx_pml4 va]) ++ [idx_pdpt va]).
  rewrite !walk_snoc. cbn [walk foldl mbind option_bind]. rewrite (enter_table _ _ _ N0).
  destruct (has (pte m root (idx_pml4 va)) PAGE_PRESENT) eqn:E1; [|done]. cbn [negb andb mbind option_bind].
  set (pdpt := Z.land (pte m root (idx_pml4 va)) PAGE_ADDR_MASK) in *.
  assert (walk m root [idx_pml4 va] = Some pdpt) as W1.
  { change [idx_pml4 va] with ([] ++ [idx_pml4 va]). rewrite walk_snoc. cbn. unfold enter. by rewrite E1, N0. }
  pose proof (not_huge m a root _ pdpt (idx_pdpt va) Hinv V1 ltac:(cbn; lia) W1 ltac:(apply idx_range)) as N1.
  rewrite (enter_table _ _ _ N1). destruct (has (pte m pdpt (idx_pdpt va)) PAGE_PRESENT) eqn:E2; [|done].
  cbn [negb andb mbind option_bind]. set (pd := Z.land (pte m pdpt (idx_pdpt va)) PAGE_ADDR_MASK) in *.
  rewrite N1. unfold enter. destruct (has (pte m pd (idx_pd va)) PAGE_PRESENT) eqn:E3; cbn [negb andb mbind option_bind]; rewrite ?E3; [|done].
  destruct (has (pte m pd (idx_pd va)) PAGE_HUGE); cbn [negb].
  - change LARGE_PAGE_MASK with (2 ^ 21 - 1). by rewrite land_ones_mod.
  - match goal with |- context [has ?e PAGE_PRESENT] => destruct (has e PAGE_PRESENT) end; [|done]. cbn [negb]. change PAGE_MASK with (2 ^ 12 - 1).
    apply page_offset_add; [done|]. apply mask_page.
Qed.

Lemma covered_slot m a root va :
  pt_inv m a root → covered_2m m root va = match slot m root va with Some (l, _) => l | None => false end.
Proof.
  intros Hinv. destruct (vpath_va va) as (_ & V2 & _). unfold covered_2m, slot.
  change ([idx_pml4 va; idx_pdpt va; idx_pd va]) with ([idx_pml4 va; idx_pdpt va] ++ [idx_pd va]). rewrite walk_snoc.
  destruct (walk m root [idx_pml4 va; idx_pdpt va]) as [pd|] eqn:W2; [|done]. cbn [mbind option_bind]. unfold enter.
  destruct (has (pte m pd (idx_pd va)) PAGE_HUGE) eqn:Eh.
  - destruct (pi_huge _ _ _ Hinv _ pd (idx_pd va) V2 ltac:(cbn; lia) W2 ltac:(apply idx_range) Eh) as [_ ->]. done.
  - destruct (has (pte m pd (idx_pd va)) PAGE_PRESENT); cbn [negb andb]; [|done]. by destruct (has _ PAGE_PRESENT).
Qed.

(** Equal leaf entries, equal translations. *)
Lemma same_slots m a m' a' root :
  pt_inv m a root → pt_inv m' a' root → (∀ va, slot m' root va = slot m root va) →
  ∀ va, leaf m' root va = leaf m root va ∧ covered_2m m' root va = covered_2m m root va.
Proof. intros H H' E va. rewrite (covered_slot _ _ _ _ H), (covered_slot _ _ _ _ H'). unfold leaf. by rewrite E. Qed.

(** The entry of a table of the tree is written. *)
Lemma set_same_but m a root p t i v :
  pt_inv m a root → vpath p → walk m root p = Some t → 0 ≤ i < 512 →
  same_but m (set_pte m t i v) root p i.
Proof.
  intros Hinv Hp Hw Hi q s j Hq Hs Hj Hne.
  destruct (pi_page _ _ _ Hinv p t Hp Hw) as [Ht _], (pi_page _ _ _ Hinv q s Hq Hs) as [Hs' _].
  apply pte_set_ne; try done. intros [= -> ->]. apply Hne. f_equal. by apply (pi_inj _ _ _ Hinv q p t).
Qed.

Lemma prefix_length_lt (p : list Z) i q : (length q ≤ length p)%nat → ¬ p ++ [i] `prefix_of` q.
Proof. intros Hl Hp%prefix_length. rewrite length_app in Hp. cbn in Hp. lia. Qed.

(** A fresh table is hung into an empty entry. *)
Lemma fresh_table m a root p t i m1 a1 n e' :
  pt_inv m a root → vpath p → (length p ≤ 2)%nat → walk m root p = Some t → 0 ≤ i < 512 →
  has (pte m t i) PAGE_PRESENT = false → n mod 4096 = 0 → 0 < n < 2 ^ 52 → pa_isfree a n → ¬ pa_isfree a1 n →
  pa_ok a1 → (∀ q, pa_isfree a1 q → pa_isfree a q) →
  (∀ j, 0 ≤ j < 512 → pte m1 n j = 0) →
  (∀ s j, s mod 4096 = 0 → s ≠ n → 0 ≤ j < 512 → pte m1 s j = pte m s j) →
  is_u64 e' → has e' PAGE_PRESENT = true → has e' PAGE_HUGE = false → Z.land e' PAGE_ADDR_MASK = n →
  let m' := set_pte m1 t i e' in
  pt_inv m' a1 root ∧ same_but m m' root p i ∧ walk m' root (p ++ [i]) = Some n ∧
  (∀ j, 0 ≤ j < 512 → pte m' n j = 0) ∧
  (∀ q s, vpath q → walk m root q = Some s → walk m' root q = Some s) ∧
  (∀ q s, vpath q → walk m' root q = Some s → walk m root q = Some s ∨ q = p ++ [i] ∧ s = n).
Proof.
  intros Hinv Hp Hl Hw Hi Hnp Hn Hnr Hfree Hused Hok Hmono Hz Hkeep Hu Hpr Hnh Hae m'.
  destruct (pi_page _ _ _ Hinv p t Hp Hw) as (Ht & _ & Htf).
  assert (t ≠ n) as Htn by (intros ->; done).
  assert (same_but m m' root p i) as Hsame.
  { intros q s j Hq Hs Hj Hne. destruct (pi_page _ _ _ Hinv q s Hq Hs) as (Hs' & _ & Hsf).
    unfold m'. rewrite pte_set_ne; try done; [apply Hkeep; try done; by intros ->|].
    intros [= -> ->]. apply Hne. f_equal. by apply (pi_inj _ _ _ Hinv q p t). }
  assert (∀ j, 0 ≤ j < 512 → pte m' n j = 0) as Hz'.
  { intros j Hj. unfold m'. rewrite pte_set_ne by (done || congruence). auto. }
  assert (walk m' root p = Some t) as Hw'.
  { rewrite (walk_same m m' a root p i p); try done. by apply prefix_length_lt. }
  assert (walk m' root (p ++ [i]) = Some n) as Hwn.
  { rewrite walk_snoc, Hw'. cbn [mbind option_bind]. unfold enter, m'. rewrite pte_set by done. by rewrite Hpr, Hnh, Hae. }
  assert (walk m root (p ++ [i]) = None) as Hwold.
  { rewrite walk_snoc, Hw. cbn [mbind option_bind]. unfold enter. by rewrite Hnp. }
  assert (∀ q s, vpath q → walk m root q = Some s → walk m' root q = Some s) as Hold.
  { intros q s Hq Hs. rewrite (walk_same m m' a root p i q); try done.
    intros [r ->]. by rewrite walk_app_None in Hs. }
  assert (∀ q s, vpath q → walk m' root q = Some s → walk m root q = Some s ∨ q = p ++ [i] ∧ s = n) as Hnew.
  { intros q s Hq Hs. destruct (decide (p ++ [i] `prefix_of` q)) as [[r ->]|Hno].
    - destruct r as [|j r]; [rewrite app_nil_r in *; right; split; [done|congruence]|].
      exfalso. assert (walk m' root ((p ++ [i]) ++ [j]) = None) as Hnone.
      { rewrite walk_snoc, Hwn. cbn [mbind option_bind]. unfold enter. rewrite Hz'; [done|].
        destruct Hq as [_ Hf]. apply Forall_app in Hf as [_ [Hj _]%Forall_cons]. done. }
      apply (walk_app_None _ _ _ r) in Hnone. rewrite <- (assoc_L (++)) in Hnone. cbn [app] in Hnone. congruence.
    - left. by rewrite (walk_same m m' a root p i q) in Hs. }
  split; [|done]. constructor.
  - done.
  - intros q s Hq Hs. destruct (Hnew q s Hq Hs) as [Hs'|[-> ->]]; [|split; [done|]; split; [lia|done]].
    destruct (pi_page _ _ _ Hinv q s Hq Hs') as (? & ? & Hf). split; [done|]. split; [done|]. auto.
  - intros q1 q2 s Hq1 Hq2 Hs1 Hs2.
    destruct (Hnew q1 s Hq1 Hs1) as [Hs1'|[-> Hs1']], (Hnew q2 s Hq2 Hs2) as [Hs2'|[-> Hs2']]; try subst s.
    + by apply (pi_inj _ _ _ Hinv q1 q2 s).
    + destruct (pi_page _ _ _ Hinv q1 n Hq1 Hs1') as (_ & _ & Hf). done.
    + destruct (pi_page _ _ _ Hinv q2 n Hq2 Hs2') as (_ & _ & Hf). done.
    + done.
  - intros q s j Hq Hql Hs Hj Hh. destruct (Hnew q s Hq Hs) as [Hs'|[-> ->]]; [|by rewrite Hz' in Hh].
    destruct (decide ((q, j) = (p, i))) as [[= -> ->]|Hne].
    + assert (s = t) as -> by congruence. unfold m' in Hh. rewrite pte_set in Hh by done. congruence.
    + rewrite (Hsame q s j) in * by done. by apply (pi_huge _ _ _ Hinv q s j).
Qed.

(** Hanging in an empty table changes no translation. *)
Lemma fresh_table_slot m m' a root p t i n va :
  pt_inv m a root → vpath p → (length p ≤ 2)%nat → walk m root p = Some t →
  has (pte m t i) PAGE_PRESENT = false → 0 ≤ i < 512 →
  same_but m m' root p i → walk m' root (p ++ [i]) = Some n → (∀ j, 0 ≤ j < 512 → pte m' n j = 0) →
  (∀ q s, vpath q → walk m root q = Some s → walk m' root q = Some s) →
  (∀ q s, vpath q → walk m' root q = Some s → walk m root q = Some s ∨ q = p ++ [i] ∧ s = n) →
  slot m' root va = slot m root va.
Proof.
  intros Hinv Hp Hl Hw Hnp Hi Hsame Hwn Hz Hold Hnew. destruct (vpath_va va) as (_ & V2 & V3).
  assert (has (pte m t i) PAGE_HUGE = false) as Hnh.
  { destruct (has (pte m t i) PAGE_HUGE) eqn:E; [|done].
    destruct (pi_huge _ _ _ Hinv p t i Hp Hl Hw Hi E) as [_ E']. congruence. }
  unfold slot. set (q2 := [idx_pml4 va; idx_pdpt va]) in *.
  set (q3 := [idx_pml4 va; idx_pdpt va; idx_pd va]) in *.
  assert (q3 = q2 ++ [idx_pd va]) as E3 by done.
  assert (∀ k, has 0 (Z.shiftl 1 k) = false) as H0 by done.
  assert (has 0 PAGE_PRESENT = false ∧ has 0 PAGE_HUGE = false) as [Hp0 Hh0] by done.
  assert (∀ pd, walk m root q2 = Some pd → (p, i) ≠ (q2, idx_pd va) → pte m' pd (idx_pd va) = pte m pd (idx_pd va)) as Hpd.
  { intros pd Hpd Hne. apply (Hsame q2); try done. apply idx_range. }
  destruct (walk m root q2) as [pd|] eqn:W2.
  - rewrite (Hold q2 pd V2 W2). destruct (decide ((p, i) = (q2, idx_pd va))) as [[= -> ->]|Hne].
    + assert (t = pd) as -> by congruence. rewrite <- E3 in Hwn. rewrite Hwn.
      rewrite Hz, Hp0 by apply idx_range. assert (walk m root q3 = None) as ->.
      { rewrite E3, walk_snoc, W2. cbn [mbind option_bind]. unfold enter. by rewrite Hnp. }
      cbn [mbind option_bind]. by rewrite Hnp.
    + cbn [mbind option_bind]. rewrite (Hpd pd) by done. destruct (walk m root q3) as [pt|] eqn:W3.
      * rewrite (Hold q3 pt V3 W3). rewrite (Hsame q3 pt); try done; [apply idx_range|].
        intros [= E _]. subst p. cbn in Hl. lia.
      * destruct (walk m' root q3) as [pt|] eqn:W3'; [|done].
        destruct (Hnew q3 pt V3 W3') as [?|[E _]]; [congruence|]. rewrite E3 in E.
        apply app_inj_tail in E as [E1 E2]. exfalso. apply Hne. congruence.
  - assert (walk m root q3 = None) as -> by (rewrite E3; by apply walk_app_None).
    destruct (walk m' root q2) as [pd|] eqn:W2'.
    + destruct (Hnew q2 pd V2 W2') as [?|[E ->]]; [congruence|].
      rewrite E3, walk_snoc, W2'. cbn [mbind option_bind]. unfold enter. rewrite Hz by apply idx_range. rewrite Hp0. by cbn [andb].
    + assert (walk m' root q3 = None) as -> by (rewrite E3; by apply walk_app_None). done.
Qed.

(** The next table, or the panic when there is no page for one. *)
Lemma next_level_spec m a root p t i lf :
  pt_inv m a root → vpath p → (length p ≤ 2)%nat → walk m root p = Some t → 0 ≤ i < 512 →
  has (pte m t i) PAGE_HUGE = false →
  is_u64 lf → Z.land lf PAGE_ADDR_MASK = 0 → has lf PAGE_HUGE = false →
  (next_level m a t i lf = Panic ∧ pa_nfree a = 0) ∨
  ∃ m' a' n, next_level m a t i lf = Ret (m', a', n) ∧ pt_inv m' a' root ∧
    walk m' root (p ++ [i]) = Some n ∧ grows 1 m a m' a' root ∧ ∀ va, slot m' root va = slot m root va.
Proof.
  intros Hinv Hp Hl Hw Hi Hnh Hlf Hlm Hlh. unfold next_level.
  destruct (has (pte m t i) PAGE_PRESENT) eqn:Hpr; cbn [negb].
  { right. eexists _, _, _. split; [done|]. split; [done|]. split; [|split; [split; [lia|auto]|done]].
    rewrite walk_snoc, Hw. cbn [mbind option_bind]. unfold enter. by rewrite Hpr, Hnh. }
  unfold paging_new_table.
  destruct (pa_alloc a (pi_alloc _ _ _ Hinv)) as [[? ->]|(a1 & n & -> & Hok & Hn1 & Hn & Hnr & _ & Hfree & Hused & Hgeo & Hmono)]; [by left|right].
  cbn [mbind outcome_bind]. rewrite (proj2 (Z.eqb_neq n 0)) by lia.
  destruct (clear_table m n Hn) as (m1 & -> & Hz & Hkeep & Hbyte). cbn [mbind outcome_bind].
  rewrite (mask_id n) by lia.
  set (e' := Z.lor (Z.lor n PAGE_PRESENT) lf).
  assert (is_u64 e') as Hu by (apply lor_u_range; [done| |done]; apply lor_u_range; [done|lia|done]).
  assert (Z.land e' PAGE_ADDR_MASK = n) as Hae.
  { unfold e'. rewrite !Z.land_lor_distr_l, Hlm, Z.lor_0_r. change (Z.land PAGE_PRESENT PAGE_ADDR_MASK) with 0.
    rewrite Z.lor_0_r. apply mask_id; lia. }
  assert (Z.testbit n 7 = false) as Hn7.
  { rewrite <- (mask_id n) by lia. by rewrite Z.land_spec, andb_false_r. }
  assert (has e' PAGE_PRESENT = true) as Hpe.
  { rewrite has_present. unfold e'. rewrite !Z.lor_spec. change (Z.testbit PAGE_PRESENT 0) with true. by rewrite orb_true_r. }
  assert (has e' PAGE_HUGE = false) as Hhe.
  { rewrite has_huge in *. unfold e'. by rewrite !Z.lor_spec, Hlh, Hn7. }
  destruct (fresh_table m a root p t i m1 a1 n e') as (Hinv' & Hsame & Hwn & Hz' & Hold & Hnew); try done.
  eexists _, _, _. split; [done|]. split; [done|]. split; [done|]. split.
  { split; [lia|]. split; [done|]. split; [done|]. split; [intros x (q & Hq & Hx); destruct (Hnew q x Hq Hx) as [?|[_ ->]]; [left; by exists q|by right]|].
    intros x Hxf Hxt. destruct (pi_page _ _ _ Hinv p t Hp Hw) as [Ht _]. rewrite load8_set_pte; [apply Hbyte; intros E; by rewrite E in Hxf|done|done|]. intros E. apply Hxt. rewrite E. by exists p. }
  intros va. by apply (fresh_table_slot m _ a root p t i n).
Qed.

Lemma grows_trans k1 k2 m a m1 a1 m2 a2 root :
  grows k1 m a m1 a1 root → grows k2 m1 a1 m2 a2 root → grows (k1 + k2) m a m2 a2 root.
Proof.
  intros (N1 & F1 & M1 & T1 & B1) (N2 & F2 & M2 & T2 & B2). split; [lia|]. split; [auto|]. split; [congruence|]. split.
  - intros t Ht. destruct (T2 t Ht) as [Ht1|]; [by apply T1|right; auto].
  - intros x Hf Ht. rewrite B2; [by apply B1|by auto|]. intros [|]%T1; done.
Qed.

(** An entry is written that leaves the tables that are reached among the old ones. *)
Lemma grows_write k m a m1 a1 m2 root :
  grows k m a m1 a1 root → (∀ q s, vpath q → walk m2 root q = Some s → walk m1 root q = Some s) →
  (∀ x, ¬ is_table m1 root (x - x mod 4096) → load8 m2 x = load8 m1 x) →
  grows k m a m2 a1 root.
Proof.
  intros (N & F & M & T & B) H HB. split; [done|]. split; [done|]. split; [done|]. split; [intros t (q & Hq & Hw); apply T; exists q; auto|].
  intros x Hf Ht. rewrite HB; [by apply B|]. intros [|]%T; done.
Qed.

(** A 4 KiB entry is written. *)
Lemma write_leaf m a root p pt i e' :
  pt_inv m a root → vpath p → length p = 3%nat → walk m root p = Some pt → 0 ≤ i < 512 → is_u64 e' →
  pt_inv (set_pte m pt i e') a root ∧
  (∀ q, vpath q → walk (set_pte m pt i e') root q = walk m root q) ∧
  (∀ x, ¬ is_table m root (x - x mod 4096) → load8 (set_pte m pt i e') x = load8 m x) ∧
  ∀ va, slot (set_pte m pt i e') root va =
    if decide ([idx_pml4 va; idx_pdpt va; idx_pd va] = p ∧ idx_pt va = i)
    then if has e' PAGE_PRESENT then Some (false, e') else None
    else slot m root va.
Proof.
  intros Hinv Hp Hl Hw Hi Hu. pose proof (set_same_but m a root p pt i e' Hinv Hp Hw Hi) as Hsame.
  assert (∀ q, vpath q → walk (set_pte m pt i e') root q = walk m root q) as Hwalk.
  { intros q Hq. apply (walk_same m _ a root p i q); try done. apply prefix_length_lt. rewrite Hl. apply Hq. }
  split; [|split; [done|split]].
  - constructor.
    + apply Hinv.
    + intros q s Hq. rewrite Hwalk by done. by apply (pi_page _ _ _ Hinv).
    + intros q1 q2 s H1 H2. rewrite !Hwalk by done. by apply (pi_inj _ _ _ Hinv).
    + intros q s j Hq Hql. rewrite Hwalk by done. intros Hs Hj. rewrite (Hsame q s j); try done.
      * by apply (pi_huge _ _ _ Hinv).
      * intros [= -> ->]. lia.
  - intros x Hx. destruct (pi_page _ _ _ Hinv p pt Hp Hw) as [Ht _]. apply load8_set_pte; try done. intros E. apply Hx. rewrite E. by exists p.
  - intros va. destruct (vpath_va va) as (_ & V2 & V3). unfold slot. rewrite !Hwalk by done.
    destruct (walk m root [idx_pml4 va; idx_pdpt va; idx_pd va]) as [pt'|] eqn:W3.
    + dec_if as Hd.
      * destruct Hd as [<- <-]. assert (pt' = pt) as -> by congruence. by rewrite pte_set.
      * rewrite (Hsame _ pt' (idx_pt va) V3 W3); [done|apply idx_range|]. intros [= <- <-]. by apply Hd.
    + rewrite decide_False by (intros [<- _]; congruence).
      destruct (walk m root [idx_pml4 va; idx_pdpt va]) as [pd|] eqn:W2; [|done].
      cbn [mbind option_bind]. rewrite (Hsame _ pd (idx_pd va) V2 W2); [done|apply idx_range|]. intros [= <- _]. done.
Qed.

(** A 2 MiB entry is written, whatever was there. *)
Lemma write_large m a root p pd i e' :
  pt_inv m a root → vpath p → length p = 2%nat → walk m root p = Some pd → 0 ≤ i < 512 → is_u64 e' →
  has e' PAGE_PRESENT = true → has e' PAGE_HUGE = true →
  pt_inv (set_pte m pd i e') a root ∧
  (∀ q s, vpath q → walk (set_pte m pd i e') root q = Some s → walk m root q = Some s) ∧
  (∀ x, ¬ is_table m root (x - x mod 4096) → load8 (set_pte m pd i e') x = load8 m x) ∧
  ∀ va, slot (set_pte m pd i e') root va =
    if decide ([idx_pml4 va; idx_pdpt va; idx_pd va] = p ++ [i]) then Some (true, e') else slot m root va.
Proof.
  intros Hinv Hp Hl Hw Hi Hu Hpr Hh. pose proof (set_same_but m a root p pd i e' Hinv Hp Hw Hi) as Hsame.
  set (m' := set_pte m pd i e') in *.
  assert (∀ q, vpath q → ¬ p ++ [i] `prefix_of` q → walk m' root q = walk m root q) as Hwalk.
  { intros q Hq Hno. by apply (walk_same m _ a root p i q). }
  assert (walk m' root p = Some pd) as Hw' by (rewrite Hwalk; [done|done|by apply prefix_length_lt]).
  assert (walk m' root (p ++ [i]) = None) as Hnone.
  { rewrite walk_snoc, Hw'. cbn [mbind option_bind]. unfold enter, m'. rewrite pte_set by done. by rewrite Hpr, Hh. }
  assert (∀ q s, vpath q → walk m' root q = Some s → walk m root q = Some s) as Hback.
  { intros q s Hq Hs. rewrite <- Hwalk; [done|done|]. intros [r ->]. by rewrite walk_app_None in Hs. }
  split; [|split; [done|split]].
  - constructor.
    + apply Hinv.
    + intros q s Hq Hs. apply (pi_page _ _ _ Hinv q s Hq). auto.
    + intros q1 q2 s H1 H2 Hs1 Hs2. apply (pi_inj _ _ _ Hinv q1 q2 s); auto.
    + intros q s j Hq Hql Hs Hj. destruct (decide ((q, j) = (p, i))) as [[= -> ->]|Hne].
      * assert (s = pd) as -> by congruence. unfold m'. rewrite pte_set by done. done.
      * rewrite (Hsame q s j) by auto. by apply (pi_huge _ _ _ Hinv); auto.
  - intros x Hx. destruct (pi_page _ _ _ Hinv p pd Hp Hw) as [Ht _]. apply load8_set_pte; try done. intros E. apply Hx. rewrite E. by exists p.
  - intros va. destruct (vpath_va va) as (_ & V2 & V3). unfold slot. set (q2 := [idx_pml4 va; idx_pdpt va]) in *.
    set (q3 := [idx_pml4 va; idx_pdpt va; idx_pd va]) in *. assert (q3 = q2 ++ [idx_pd va]) as E3 by done.
    assert (walk m' root q2 = walk m root q2) as ->.
    { apply Hwalk; [done|]. apply prefix_length_lt. rewrite Hl. done. }
    dec_if as Hd.
    + pose proof Hnone as Hn3. rewrite <- Hd in Hn3. rewrite Hn3. rewrite E3 in Hd. apply app_inj_tail in Hd as [Hd1 Hd2]. rewrite Hd1, Hd2, Hw.
      cbn [mbind option_bind]. unfold m'. by rewrite pte_set, Hpr.
    + assert (walk m' root q3 = walk m root q3) as ->.
      { apply Hwalk; [done|]. intros [r Hr]. apply Hd. rewrite Hr. destruct r; [by rewrite app_nil_r|].
        apply (f_equal length) in Hr. rewrite !length_app, Hl in Hr. cbn in Hr. lia. }
      destruct (walk m root q3) as [pt|] eqn:W3.
      * rewrite (Hsame q3 pt); try done; [apply idx_range|]. intros [= E _]. apply (f_equal length) in E. rewrite Hl in E. done.
      * destruct (walk m root q2) as [pd'|] eqn:W2; [|done]. cbn [mbind option_bind].
        rewrite (Hsame q2 pd'); try done; [apply idx_range|]. intros [= E1 E2]. apply Hd. rewrite E3. congruence.
Qed.

Lemma inter_flags flags :
  let inter := Z.lor (Z.lor PAGE_PRESENT PAGE_WRITABLE) (Z.land flags PAGE_USER) in
  is_u64 inter ∧ Z.land inter PAGE_ADDR_MASK = 0 ∧ has inter PAGE_HUGE = false.
Proof.
  cbv zeta. split_and!.
  - apply lor_u_range; [done|done|]. rewrite Z.land_comm. by apply land_u_range.
  - rewrite Z.land_lor_distr_l, <- Z.land_assoc. change (Z.land PAGE_USER PAGE_ADDR_MASK) with 0. by rewrite Z.land_0_r.
  - rewrite has_huge, Z.lor_spec, Z.land_spec. change (Z.testbit PAGE_USER 7) with false. by rewrite andb_false_r.
Qed.

(** The first two levels of a mapping. *)
Lemma two_levels m a root va flags :
  pt_inv m a root →
  let inter := Z.lor (Z.lor PAGE_PRESENT PAGE_WRITABLE) (Z.land flags PAGE_USER) in
  (pa_nfree a < 2 ∧ ('(m, a, pdpt) ← next_level m a root (idx_pml4 va) inter; next_level m a pdpt (idx_pdpt va) inter) = Panic) ∨
  ∃ m1 a1 pdpt m2 a2 pd,
    next_level m a root (idx_pml4 va) inter = Ret (m1, a1, pdpt) ∧
    next_level m1 a1 pdpt (idx_pdpt va) inter = Ret (m2, a2, pd) ∧
    pt_inv m2 a2 root ∧ walk m2 root [idx_pml4 va; idx_pdpt va] = Some pd ∧
    grows 2 m a m2 a2 root ∧ ∀ va', slot m2 root va' = slot m root va'.
Proof.
  intros Hinv inter. destruct (inter_flags flags) as (Hu & Hm & Hh).
  destruct (vpath_va va) as (V1 & V2 & _). assert (vpath []) as V0 by (split; [cbn; lia|constructor]).
  destruct (next_level_spec m a root [] root (idx_pml4 va) inter) as [[-> ?]|(m1 & a1 & pdpt & E1 & Hinv1 & W1 & N1 & L1)];
    try done; try (cbn; lia); try apply idx_range; [|left; split; [lia|done]|].
  { apply (not_huge m a root []); try done; try (cbn; lia); apply idx_range. }
  destruct (next_level_spec m1 a1 root [idx_pml4 va] pdpt (idx_pdpt va) inter)
    as [[E2 ?]|(m2 & a2 & pd & E2 & Hinv2 & W2 & N2 & L2)];
    try done; try (cbn; lia); try apply idx_range; [|left; split; [destruct N1; lia|by rewrite E1]|].
  { apply (not_huge m1 a1 root [idx_pml4 va]); try done; try (cbn; lia); apply idx_range. }
  right. exists m1, a1, pdpt, m2, a2, pd. repeat (split; [done|]). split; [by apply (grows_trans 1 1 m a m1 a1)|].
  intros va'. by rewrite L2, L1.
Qed.

(** A panic in the first two levels is one of the whole mapping. *)
Lemma two_levels_panic {B} (k : mem * A * Z → outcome B) m a root va inter :
  ('(m, a, pdpt) ← next_level m a root (idx_pml4 va) inter; next_level m a pdpt (idx_pdpt va) inter) = Panic →
  ('(m, a, pdpt) ← next_level m a root (idx_pml4 va) inter; next_level m a pdpt (idx_pdpt va) inter ≫= k) = Panic.
Proof.
  destruct (next_level m a root (idx_pml4 va) inter) as [[[m1 a1] pdpt]| | |]; try done. cbn [mbind outcome_bind].
  by intros ->.
Qed.

Lemma flags_entry pa flags :
  is_u64 flags → Z.land flags PAGE_ADDR_MASK = 0 →
  let e := Z.lor (Z.lor (Z.land pa PAGE_ADDR_MASK) (Z.land flags (not64 PAGE_HUGE))) PAGE_PRESENT in
  is_u64 e ∧ has e PAGE_PRESENT = true ∧ Z.land e PAGE_ADDR_MASK = Z.land pa PAGE_ADDR_MASK.
Proof.
  intros Hu Hf. cbv zeta. split_and!.
  - apply lor_u_range; [done| |done]. apply lor_u_range; [done| |by apply land_u_range].
    rewrite Z.land_comm. by apply land_u_range.
  - rewrite has_present, Z.lor_spec. change (Z.testbit PAGE_PRESENT 0) with true. apply orb_true_r.
  - rewrite <- Z.lor_assoc. apply entry_addr. rewrite Z.land_lor_distr_l, <- Z.land_assoc, (Z.land_comm (not64 _)), Z.land_assoc, Hf.
    done.
Qed.

(** The leaf entry that is written. *)
Definition leaf_entry (pa flags : Z) : Z := Z.lor (Z.lor (Z.land pa PAGE_ADDR_MASK) (Z.land flags (not64 PAGE_HUGE))) PAGE_PRESENT.

(** The mapping of a page: the slots of the tree after it, or the panic when there is no page for a table. *)
Lemma paging_map_4k_try m a root va pa flags :
  pt_inv m a root → is_u64 flags → Z.land flags PAGE_ADDR_MASK = 0 →
  (paging_map_4k m a root va pa flags = Panic ∧ pa_nfree a < 3) ∨
  ∃ m' a', paging_map_4k m a root va pa flags =
      Ret (m', a', if covered_2m m root va then K_ERR_EXISTS else K_OK) ∧
    pt_inv m' a' root ∧ grows 3 m a m' a' root ∧
    ∀ va', slot m' root va' =
      if decide (covered_2m m root va = false ∧ vpn va' = vpn va) then Some (false, leaf_entry pa flags) else slot m root va'.
Proof.
  intros Hinv Hu Hf. destruct (vpath_va va) as (V1 & V2 & V3). unfold paging_map_4k.
  destruct (two_levels m a root va flags Hinv) as [[Hn E]|(m1 & a1 & pdpt & m2 & a2 & pd & E1 & E2 & Hinv2 & W2 & N2 & L2)].
  { left. split; [by apply two_levels_panic|lia]. }
  rewrite E1. cbn [mbind outcome_bind]. rewrite E2. cbn [mbind outcome_bind].
  assert (covered_2m m root va = has (pte m2 pd (idx_pd va)) PAGE_HUGE) as Ec.
  { rewrite (covered_slot _ _ _ _ Hinv), <- L2, <- (covered_slot _ _ _ _ Hinv2). unfold covered_2m. by rewrite W2. }
  rewrite <- Ec. destruct (covered_2m m root va) eqn:Hc.
  { right. exists m2, a2. split; [done|]. split; [done|]. split; [destruct N2; split; [lia|done]|]. intros va'.
    rewrite decide_False by (intros [? _]; congruence). apply L2. }
  destruct (inter_flags flags) as (Hiu & Him & Hih).
  destruct (next_level_spec m2 a2 root [idx_pml4 va; idx_pdpt va] pd (idx_pd va) _ Hinv2 V2 ltac:(cbn; lia) W2
              ltac:(apply idx_range) ltac:(congruence) Hiu Him Hih)
    as [[E3 ?]|(m3 & a3 & pt & E3 & Hinv3 & W3 & N3 & L3)]; rewrite E3; [left; split; [done|destruct N2; lia]|right]. cbn [mbind outcome_bind].
  destruct (flags_entry pa flags Hu Hf) as (He & Hpr & Hae).
  destruct (write_leaf m3 a3 root [idx_pml4 va; idx_pdpt va; idx_pd va] pt (idx_pt va) _ Hinv3 V3 eq_refl W3
              ltac:(apply idx_range) He) as (Hinv4 & W4 & B4 & L4).
  eexists _, a3. split; [done|]. split; [done|].
  split; [apply (grows_write 3 m a m3); [by apply (grows_trans 2 1 m a m2 a2)|intros q s Hq; by rewrite W4|done]|]. intros va'.
  rewrite L4, Hpr, L3, L2. apply decide_ext. rewrite lpn_idx, vpn_idx. tauto.
Qed.

Lemma paging_map_4k_slots m a root va pa flags :
  pt_inv m a root → 3 ≤ pa_nfree a → is_u64 flags → Z.land flags PAGE_ADDR_MASK = 0 →
  ∃ m' a', paging_map_4k m a root va pa flags =
      Ret (m', a', if covered_2m m root va then K_ERR_EXISTS else K_OK) ∧
    pt_inv m' a' root ∧ grows 3 m a m' a' root ∧
    ∀ va', slot m' root va' =
      if decide (covered_2m m root va = false ∧ vpn va' = vpn va) then Some (false, leaf_entry pa flags) else slot m root va'.
Proof. intros Hinv Hn Hu Hf. destruct (paging_map_4k_try m a root va pa flags Hinv Hu Hf) as [[_ ?]|?]; [lia|done]. Qed.

Lemma paging_map_4k_spec m a root va pa flags :
  pt_inv m a root → 3 ≤ pa_nfree a → is_u64 flags → Z.land flags PAGE_ADDR_MASK = 0 →
  ∃ m' a', paging_map_4k m a root va pa flags =
      Ret (m', a', if covered_2m m root va then K_ERR_EXISTS else K_OK) ∧
    pt_inv m' a' root ∧ grows 3 m a m' a' root ∧
    ∀ va', paging_translate m' root va' =
      if decide (covered_2m m root va = false ∧ vpn va' = vpn va)
      then Z.land pa PAGE_ADDR_MASK + va' mod 4096 else paging_translate m root va'.
Proof.
  intros Hinv Hn Hu Hf. destruct (paging_map_4k_slots m a root va pa flags Hinv Hn Hu Hf) as (m' & a' & E & Hinv' & Hg & Hs).
  exists m', a'. split; [done|]. split; [done|]. split; [done|]. intros va'. rewrite (translate_leaf _ _ _ _ Hinv), (translate_leaf _ _ _ _ Hinv').
  unfold leaf. rewrite Hs. dec_if; [|done]. unfold leaf_entry. by rewrite (proj2 (proj2 (flags_entry pa flags Hu Hf))).
Qed.

Lemma large_entry pa flags :
  is_u64 flags → Z.land flags PAGE_ADDR_MASK = 0 → pa mod 2 ^ 21 = 0 → 0 ≤ pa < 2 ^ 52 →
  let e := Z.lor (leaf_entry pa flags) PAGE_HUGE in
  is_u64 e ∧ has e PAGE_PRESENT = true ∧ has e PAGE_HUGE = true ∧ Z.land e PAGE_ADDR_MASK = pa.
Proof.
  intros Hu Hf Hpa Hpr. cbv zeta. destruct (flags_entry pa flags Hu Hf) as (He & Hp & Hae). fold (leaf_entry pa flags) in He, Hp, Hae.
  split; [by apply lor_u_range|]. split; [rewrite has_present in *; by rewrite Z.lor_spec, Hp|].
  split; [rewrite has_huge, Z.lor_spec; change (Z.testbit PAGE_HUGE 7) with true; apply orb_true_r|].
  rewrite Z.land_lor_distr_l. change (Z.land PAGE_HUGE PAGE_ADDR_MASK) with 0. rewrite Z.lor_0_r, Hae. apply mask_id; [|done]. clear -Hpa. zlia.
Qed.

Lemma paging_map_2m_try m a root va pa flags :
  pt_inv m a root → is_u64 flags → Z.land flags PAGE_ADDR_MASK = 0 →
  va mod 2 ^ 21 = 0 → pa mod 2 ^ 21 = 0 → 0 ≤ pa < 2 ^ 52 →
  (paging_map_2m m a root va pa flags = Panic ∧ pa_nfree a < 2) ∨
  ∃ m' a', paging_map_2m m a root va pa flags = Ret (m', a', K_OK) ∧
    pt_inv m' a' root ∧ grows 2 m a m' a' root ∧
    ∀ va', slot m' root va' = if decide (lpn va' = lpn va) then Some (true, Z.lor (leaf_entry pa flags) PAGE_HUGE) else slot m root va'.
Proof.
  intros Hinv Hu Hf Hva Hpa Hpr. destruct (vpath_va va) as (V1 & V2 & V3).
  unfold paging_map_2m. change LARGE_PAGE_MASK with (2 ^ 21 - 1). rewrite !has_mask by done. rewrite Hva, Hpa. cbn [Z.eqb negb orb].
  destruct (two_levels m a root va flags Hinv) as [[Hn E]|(m1 & a1 & pdpt & m2 & a2 & pd & E1 & E2 & Hinv2 & W2 & N2 & L2)]; [left|right].
  { split; [by apply two_levels_panic|lia]. }
  rewrite E1. cbn [mbind outcome_bind]. rewrite E2. cbn [mbind outcome_bind]. fold (leaf_entry pa flags).
  destruct (large_entry pa flags Hu Hf Hpa Hpr) as (He & Hp & Hh & _).
  destruct (write_large m2 a2 root [idx_pml4 va; idx_pdpt va] pd (idx_pd va) _ Hinv2 V2 eq_refl W2
              ltac:(apply idx_range) He Hp Hh) as (Hinv3 & W3 & B3 & L3).
  eexists _, a2. split; [done|]. split; [done|]. split; [by apply (grows_write 2 m a m2)|]. intros va'.
  rewrite L3, L2. apply decide_ext. apply (lpn_idx va' va).
Qed.

Lemma paging_map_2m_may m a root va pa flags :
  pt_inv m a root → is_u64 flags → Z.land flags PAGE_ADDR_MASK = 0 →
  va mod 2 ^ 21 = 0 → pa mod 2 ^ 21 = 0 → 0 ≤ pa < 2 ^ 52 →
  (paging_map_2m m a root va pa flags = Panic ∧ pa_nfree a < 2) ∨
  ∃ m' a', paging_map_2m m a root va pa flags = Ret (m', a', K_OK) ∧
    pt_inv m' a' root ∧ grows 2 m a m' a' root ∧
    ∀ va', paging_translate m' root va' =
      if decide (lpn va' = lpn va) then pa + va' mod 2 ^ 21 else paging_translate m root va'.
Proof.
  intros Hinv Hu Hf Hva Hpa Hpr. destruct (paging_map_2m_try m a root va pa flags Hinv Hu Hf Hva Hpa Hpr) as [?|(m' & a' & E & Hinv' & Hg & Hs)]; [by left|right].
  exists m', a'. split; [done|]. split; [done|]. split; [done|]. intros va'. rewrite (translate_leaf _ _ _ _ Hinv), (translate_leaf _ _ _ _ Hinv').
  unfold leaf. rewrite Hs. dec_if; [|done]. destruct (large_entry pa flags Hu Hf Hpa Hpr) as (_ & _ & _ & ->).
  rewrite <- (land_ones_mod va' 21), page_offset_add by done. by rewrite land_ones_mod by done.
Qed.

Lemma paging_map_2m_spec m a root va pa flags :
  pt_inv m a root → 2 ≤ pa_nfree a → is_u64 flags → Z.land flags PAGE_ADDR_MASK = 0 →
  va mod 2 ^ 21 = 0 → pa mod 2 ^ 21 = 0 → 0 ≤ pa < 2 ^ 52 →
  ∃ m' a', paging_map_2m m a root va pa flags = Ret (m', a', K_OK) ∧
    pt_inv m' a' root ∧ grows 2 m a m' a' root ∧
    ∀ va', paging_translate m' root va' =
      if decide (lpn va' = lpn va) then pa + va' mod 2 ^ 21 else paging_translate m root va'.
Proof.
  intros Hinv Hn Hu Hf Hva Hpa Hpr. destruct (paging_map_2m_may m a root va pa flags Hinv Hu Hf Hva Hpa Hpr) as [[_ ?]|?]; [lia|done].
Qed.

Lemma unmap_walk m a root va :
  pt_inv m a root →
  paging_unmap_4k m root va =
    match walk m root [idx_pml4 va; idx_pdpt va; idx_pd va] with
    | Some pt => if has (pte m pt (idx_pt va)) PAGE_PRESENT then (set_pte m pt (idx_pt va) 0, K_OK) else (m, K_ERR_NOTFOUND)
    | None => (m, K_ERR_NOTFOUND)
    end.
Proof.
  intros Hinv. destruct (vpath_va va) as (V1 & V2 & V3). assert (vpath []) as V0 by (split; [cbn; lia|constructor]).
  pose proof (not_huge m a root [] root (idx_pml4 va) Hinv V0 ltac:(cbn; lia) eq_refl ltac:(apply idx_range)) as N0.
  change ([idx_pml4 va; idx_pdpt va; idx_pd va]) with ((([] ++ [idx_pml4 va]) ++ [idx_pdpt va]) ++ [idx_pd va]).
  unfold paging_unmap_4k. rewrite !walk_snoc. change (walk m root []) with (Some root). cbn [mbind option_bind]. rewrite (enter_table _ _ _ N0).
  destruct (has (pte m root (idx_pml4 va)) PAGE_PRESENT) eqn:E1; [|done]. cbn [negb mbind option_bind].
  set (pdpt := Z.land (pte m root (idx_pml4 va)) PAGE_ADDR_MASK) in *.
  assert (walk m root [idx_pml4 va] = Some pdpt) as W1.
  { change [idx_pml4 va] with ([] ++ [idx_pml4 va]). rewrite walk_snoc. cbn. unfold enter. by rewrite E1, N0. }
  pose proof (not_huge m a root _ pdpt (idx_pdpt va) Hinv V1 ltac:(cbn; lia) W1 ltac:(apply idx_range)) as N1.
  rewrite (enter_table _ _ _ N1). destruct (has (pte m pdpt (idx_pdpt va)) PAGE_PRESENT) eqn:E2; [|done].
  cbn [negb mbind option_bind]. set (pd := Z.land (pte m pdpt (idx_pdpt va)) PAGE_ADDR_MASK) in *.
  unfold enter. destruct (has (pte m pd (idx_pd va)) PAGE_PRESENT) eqn:E3, (has (pte m pd (idx_pd va)) PAGE_HUGE) eqn:E4; try done.
  cbn [negb orb andb]. set (pt := Z.land (pte m pd (idx_pd va)) PAGE_ADDR_MASK). by destruct (has (pte m pt (idx_pt va)) PAGE_PRESENT).
Qed.

Lemma covered_walk m root va :
  covered_2m m root va = true → walk m root [idx_pml4 va; idx_pdpt va; idx_pd va] = None.
Proof.
  unfold covered_2m. change ([idx_pml4 va; idx_pdpt va; idx_pd va]) with ([idx_pml4 va; idx_pdpt va] ++ [idx_pd va]).
  rewrite walk_snoc. destruct (walk m root _) as [pd|]; [|done]. cbn [mbind option_bind]. unfold enter. intros ->. by rewrite andb_false_r.
Qed.

Lemma paging_unmap_4k_slots m a root va :
  pt_inv m a root →
  let mapped := match slot m root va with Some (false, _) => true | _ => false end in
  let m' := fst (paging_unmap_4k m root va) in
  snd (paging_unmap_4k m root va) = (if mapped then K_OK else K_ERR_NOTFOUND) ∧
  pt_inv m' a root ∧ (∀ q, vpath q → walk m' root q = walk m root q) ∧
  (∀ x, ¬ is_table m root (x - x mod 4096) → load8 m' x = load8 m x) ∧
  ∀ va', slot m' root va' = if mapped && bool_decide (vpn va' = vpn va) then None else slot m root va'.
Proof.
  intros Hinv. cbv zeta. destruct (vpath_va va) as (V1 & V2 & V3). rewrite (unmap_walk m a root va Hinv). destruct (slot m root va) as [x|] eqn:Es; unfold slot in Es.
  all: destruct (walk m root [idx_pml4 va; idx_pdpt va; idx_pd va]) as [pt|] eqn:W3; cbv zeta in Es.
  2: { destruct (walk m root [idx_pml4 va; idx_pdpt va]) as [pd|]; cbn [mbind option_bind] in Es; [destruct (has _ _)|]; [|done|done]. by injection Es as <-. }
  2: { by destruct (has (pte m pt (idx_pt va)) PAGE_PRESENT). }
  2: done.
  destruct (has (pte m pt (idx_pt va)) PAGE_PRESENT) eqn:E; [|done]. injection Es as <-. cbn [fst snd]. split; [done|].
  destruct (write_leaf m a root _ pt (idx_pt va) 0 Hinv V3 eq_refl W3 ltac:(apply idx_range) ltac:(done)) as (Hinv' & Hw & Hb & L).
  split; [done|]. split; [done|]. split; [done|]. intros va'. rewrite L. change (has 0 PAGE_PRESENT) with false. cbn [andb].
  rewrite (decide_ext _ _ _ _ (iff_trans (and_iff_compat_r _ (lpn_idx va' va)) (vpn_idx va' va))). by case_bool_decide; dec_if.
Qed.

(** A mapped address translates below 2^53. *)
Lemma leaf_mapped m root va : leaf m root va = PAGING_NO_MAP ↔ slot m root va = None.
Proof.
  unfold leaf. split; [|by intros ->]. destruct (slot m root va) as [[[] e]|]; [|intros H|done].
  - intros H. exfalso. destruct (mask_page e) as [_ Hr]. pose proof (Z.mod_pos_bound va (2 ^ 21)).
    assert (0 ≤ Z.lor (Z.land e PAGE_ADDR_MASK) (va mod 2 ^ 21) < 2 ^ 52) by (apply lor_u_range; lia). change PAGING_NO_MAP with (2 ^ 64 - 1) in H. lia.
  - exfalso. destruct (mask_page e) as [_ Hr]. pose proof (Z.mod_pos_bound va 4096). change PAGING_NO_MAP with (2 ^ 64 - 1) in H. lia.
Qed.

Lemma paging_unmap_4k_spec m a root va :
  pt_inv m a root →
  let mapped := bool_decide (covered_2m m root va = false ∧ paging_translate m root va ≠ PAGING_NO_MAP) in
  let m' := fst (paging_unmap_4k m root va) in
  snd (paging_unmap_4k m root va) = (if mapped then K_OK else K_ERR_NOTFOUND) ∧
  pt_inv m' a root ∧
  ∀ va', paging_translate m' root va' =
    if mapped && bool_decide (vpn va' = vpn va) then PAGING_NO_MAP else paging_translate m root va'.
Proof.
  intros Hinv. cbv zeta. destruct (paging_unmap_4k_slots m a root va Hinv) as (E & Hinv' & _ & _ & L).
  assert (bool_decide (covered_2m m root va = false ∧ paging_translate m root va ≠ PAGING_NO_MAP) = match slot m root va with Some (false, _) => true | _ => false end) as ->.
  { rewrite (covered_slot _ _ _ _ Hinv), (translate_leaf _ _ _ _ Hinv). pose proof (leaf_mapped m root va) as Hl.
    destruct (slot m root va) as [[[] e]|]; [apply bool_decide_false|apply bool_decide_true|apply bool_decide_false]; naive_solver. }
  split; [done|]. split; [done|]. intros va'. rewrite (translate_leaf _ _ _ _ Hinv'), (translate_leaf _ _ _ _ Hinv). unfold leaf. rewrite L. by destruct (_ && _).
Qed.

(** A translation tells whether a large page covers the address. *)
Lemma unmapped_not_covered m a root va :
  pt_inv m a root → paging_translate m root va = PAGING_NO_MAP → covered_2m m root va = false.
Proof.
  intros Hinv. rewrite (translate_leaf _ _ _ _ Hinv), (covered_slot _ _ _ _ Hinv). by intros ->%leaf_mapped.
Qed.

(** Memory outside the tables may change freely. *)
Lemma data_write_inv m m' a root :
  pt_inv m a root → (∀ t j, is_table m root t → 0 ≤ j < 512 → pte m' t j = pte m t j) →
  pt_inv m' a root ∧ (∀ q, vpath q → walk m' root q = walk m root q) ∧
  (∀ va, slot m' root va = slot m root va) ∧ ∀ va, paging_translate m' root va = paging_translate m root va.
Proof.
  intros Hinv H.
  assert (∀ q, vpath q → walk m' root q = walk m root q) as Hwalk.
  { intros q. induction q as [|j q IH] using rev_ind; intros Hq; [done|]. apply vpath_snoc in Hq as [Hq Hj].
    rewrite !walk_snoc, IH by done. destruct (walk m root q) as [s|] eqn:Hs; [|done]. cbn [mbind option_bind].
    unfold enter. rewrite H; [done| |done]. by exists q. }
  assert (pt_inv m' a root) as Hinv'.
  { constructor.
    - apply Hinv.
    - intros q s Hq. rewrite Hwalk by done. by apply (pi_page _ _ _ Hinv).
    - intros q1 q2 s H1 H2. rewrite !Hwalk by done. by apply (pi_inj _ _ _ Hinv).
    - intros q s j Hq Hl. rewrite Hwalk by done. intros Hs Hj. rewrite H; [by apply (pi_huge _ _ _ Hinv)|by exists q|done]. }
  assert (∀ va, slot m' root va = slot m root va) as Hs.
  { intros va. destruct (vpath_va va) as (_ & V2 & V3). unfold slot. rewrite !Hwalk by done.
    destruct (walk m root [idx_pml4 va; idx_pdpt va; idx_pd va]) as [pt|] eqn:W3;
      [rewrite H; [done|exists [idx_pml4 va; idx_pdpt va; idx_pd va]; done|apply idx_range]|].
    destruct (walk m root [idx_pml4 va; idx_pdpt va]) as [pd|] eqn:W2; [|done]. cbn [mbind option_bind].
    rewrite H; [done|exists [idx_pml4 va; idx_pdpt va]; done|apply idx_range]. }
  split; [done|]. split; [done|]. split; [done|]. intros va. rewrite (translate_leaf _ _ _ _ Hinv), (translate_leaf _ _ _ _ Hinv').
  unfold leaf. by rewrite Hs.
Qed.

(** Allocating a page for something else keeps the tree. *)
Lemma pt_inv_alloc m a a' root :
  pt_inv m a root → pa_ok a' → (∀ q, pa_isfree a' q → pa_isfree a q) → pt_inv m a' root.
Proof.
  intros Hinv Hok Hmono. constructor; [done| |apply Hinv|apply Hinv].
  intros p t Hp Hw. destruct (pi_page _ _ _ Hinv p t Hp Hw) as (? & ? & Hf). split; [done|]. split; [done|]. auto.
Qed.

(** A table with no entries is a tree of its own. *)
Lemma empty_inv m a root :
  pa_ok a → root mod 4096 = 0 → 0 ≤ root < 2 ^ 52 → ¬ pa_isfree a root →
  (∀ j, 0 ≤ j < 512 → pte m root j = 0) → pt_inv m a root ∧ ∀ va, paging_translate m root va = PAGING_NO_MAP.
Proof.
  intros Hok Hr Hrr Hf Hz.
  assert (∀ i p, 0 ≤ i < 512 → walk m root (i :: p) = None) as Hnone.
  { intros i p Hi. apply (walk_app_None m root [i] p). change [i] with ([] ++ [i]). rewrite walk_snoc. cbn. unfold enter.
    by rewrite Hz. }
  assert (∀ p t, vpath p → walk m root p = Some t → p = [] ∧ t = root) as Honly.
  { intros [|i p] t [_ Hp] Hw; [split; [done|]; by injection Hw|]. apply Forall_cons in Hp as [Hi _]. by rewrite Hnone in Hw. }
  assert (pt_inv m a root) as Hinv.
  { constructor; [done|..].
    - intros p t Hp Hw. destruct (Honly p t Hp Hw) as [-> ->]. done.
    - intros p q t Hp Hq Hw1 Hw2. destruct (Honly p t Hp Hw1) as [-> _], (Honly q t Hq Hw2) as [-> _]. done.
    - intros p t i Hp _ Hw Hi. destruct (Honly p t Hp Hw) as [-> ->]. by rewrite Hz. }
  split; [done|]. intros va. rewrite (translate_leaf _ _ _ _ Hinv). unfold leaf, slot. by rewrite !Hnone by apply idx_range.
Qed.

End Invariant.

(** ** Theorems *)

(** Mapping a 4 KiB page: unless a 2 MiB page already covers the address, the
    page then translates to the given physical page and no other translation
    changes; the tables stay a tree of distinct allocated pages, to which only pages
    that were free are added. *)
Theorem paging_map_4k_maps {A} {HA : PageAllocator A} {HL : PageAllocatorLaws A} m (a : A) root va pa flags :
  pt_inv m a root → 3 ≤ pa_nfree a → is_u64 flags → Z.land flags PAGE_ADDR_MASK = 0 →
  ∃ m' a', paging_map_4k m a root va pa flags =
      Ret (m', a', if covered_2m m root va then K_ERR_EXISTS else K_OK) ∧
    pt_inv m' a' root ∧ grows 3 m a m' a' root ∧
    ∀ va', paging_translate m' root va' =
      if decide (covered_2m m root va = false ∧ vpn va' = vpn va)
      then Z.land pa PAGE_ADDR_MASK + va' mod 4096 else paging_translate m root va'.
Proof. apply paging_map_4k_spec. Qed.

(** A page allocator that hands out eight consecutive pages from 1 MiB. *)
Instance bump_allocator : PageAllocator Z :=
  λ n, if n <? 8 then Ret (n + 1, (256 + n) * 4096) else Ret (n, 0).

#[refine] Instance bump_laws : PageAllocatorLaws Z := {
  pa_ok n := 0 ≤ n ≤ 8;
  pa_geometry _ := (256, 264);
  pa_managed g p := g.1 * 4096 ≤ p < g.2 * 4096;
  pa_isfree n p := (256 + n) * 4096 ≤ p;
  pa_nfree n := 8 - n
}.
Proof.
  - lia.
  - intros n Hn. unfold alloc_page, bump_allocator. destruct (Z.ltb_spec n 8).
    + right. eexists _, _. split; [done|]. cbn [fst snd]. split_and!; try done; try lia; by rewrite Z_mod_mult.
    + left. split; [lia|done].
Defined.

Lemma empty_example : pt_inv ∅ 0 0x2000 ∧ ∀ va, paging_translate ∅ 0x2000 va = PAGING_NO_MAP.
Proof. apply empty_inv; try done; cbn; lia. Qed.

Lemma paging_map_4k_maps_witness :
  ∃ m' a', paging_map_4k ∅ 0 0x2000 0xFFFFFFFFC0000000 0x7000 PAGE_WRITABLE = Ret (m', a', K_OK) ∧
    paging_translate m' 0x2000 0xFFFFFFFFC0000123 = 0x7123.
Proof.
  destruct (paging_map_4k_maps ∅ 0 0x2000 0xFFFFFFFFC0000000 0x7000 PAGE_WRITABLE (proj1 empty_example))
    as (m' & a' & E & _ & _ & H); [cbn; lia|done|done|].
  exists m', a'. split; [exact E|]. rewrite H. vm_compute. reflexivity.
Defined.

(** Mapping a 2 MiB page makes every address of it translate to the large page,
    whatever was mapped there before, and changes no other translation. *)
Theorem paging_map_2m_maps {A} {HA : PageAllocator A} {HL : PageAllocatorLaws A} m (a : A) root va pa flags :
  pt_inv m a root → 2 ≤ pa_nfree a → is_u64 flags → Z.land flags PAGE_ADDR_MASK = 0 →
  va mod 2 ^ 21 = 0 → pa mod 2 ^ 21 = 0 → 0 ≤ pa < 2 ^ 52 →
  ∃ m' a', paging_map_2m m a root va pa flags = Ret (m', a', K_OK) ∧
    pt_inv m' a' root ∧ grows 2 m a m' a' root ∧
    ∀ va', paging_translate m' root va' =
      if decide (lpn va' = lpn va) then pa + va' mod 2 ^ 21 else paging_translate m root va'.
Proof. apply paging_map_2m_spec. Qed.

Lemma paging_map_2m_maps_witness :
  ∃ m' a', paging_map_2m ∅ 0 0x2000 0x400000 0x800000 PAGE_WRITABLE = Ret (m', a', K_OK) ∧
    paging_translate m' 0x2000 0x512345 = 0x912345.
Proof.
  destruct (paging_map_2m_maps ∅ 0 0x2000 0x400000 0x800000 PAGE_WRITABLE (proj1 empty_example))
    as (m' & a' & E & _ & _ & H); [cbn; lia|done|done|done|done|lia|].
  exists m', a'. split; [exact E|]. rewrite H. vm_compute. reflexivity.
Defined.

(** Unmapping succeeds exactly on addresses mapped by a 4 KiB page; afterwards
    that page does not translate and every other address translates as before. *)
Theorem paging_unmap_4k_unmaps {A} {HA : PageAllocator A} {HL : PageAllocatorLaws A} m (a : A) root va :
  pt_inv m a root →
  let mapped := bool_decide (covered_2m m root va = false ∧ paging_translate m root va ≠ PAGING_NO_MAP) in
  let m' := fst (paging_unmap_4k m root va) in
  snd (paging_unmap_4k m root va) = (if mapped then K_OK else K_ERR_NOTFOUND) ∧
  pt_inv m' a root ∧
  ∀ va', paging_translate m' root va' =
    if mapped && bool_decide (vpn va' = vpn va) then PAGING_NO_MAP else paging_translate m root va'.
Proof. apply paging_unmap_4k_spec. Qed.

(** One page mapped at 0x5000. *)
Definition example_mem : mem :=
  match paging_map_4k ∅ 0 0x2000 0x5000 0x7000 PAGE_WRITABLE with Ret (m, _, _) => m | _ => ∅ end.

Lemma example_mem_inv : ∃ a, pt_inv example_mem a 0x2000.
Proof.
  destruct (paging_map_4k_spec ∅ 0 0x2000 0x5000 0x7000 PAGE_WRITABLE (proj1 empty_example))
    as (m' & a' & E & Hinv & _); [cbn; lia|done|done|].
  exists a'. unfold example_mem. by rewrite E.
Qed.

Lemma paging_unmap_4k_unmaps_witness :
  paging_translate example_mem 0x2000 0x5008 = 0x7008 ∧
  paging_translate (fst (paging_unmap_4k example_mem 0x2000 0x5000)) 0x2000 0x5008 = PAGING_NO_MAP.
Proof.
  split; [vm_compute; reflexivity|]. destruct example_mem_inv as [a Hinv].
  destruct (paging_unmap_4k_unmaps example_mem a 0x2000 0x5000 Hinv) as (_ & _ & H).
  rewrite H. vm_compute. reflexivity.
Defined.
