(* ===== verification/Vmm.v ===== *)
(** The virtual memory manager, [kernel/memory/vmm.c]: the kernel's address space
    on top of the page tables ([Paging]) and the physical page allocator ([Pmm]),
    which implements the allocator interface of the page tables. The register CR3
    is part of the state; the processor translates by the page tables that CR3
    points to. *)

From S2P Require Import Prelude Kmath Layout Pmm Memory Paging.

(** ** Definitions *)

#[export] Instance pmm_allocator : PageAllocator pmm := pmm_alloc_page.

Definition VMM_SCRATCH_VA : Z := 0xFFFFFFFFC0000000.

Record vmm := mk_vmm {
  v_mem : mem;
  v_pmm : pmm;
  g_pml4 : Z;
  g_cr3_loaded : bool;
  v_cr3 : Z
}.

Definition identity_top_body (bi : boot_info) (i top : Z) : outcome Z :=
  d ← desc_at bi i;
  if negb (efi_type_is_ram (d_type d)) then Ret top
  else
    let end_ := u64 (d_physical_start d + u64 (d_number_of_pages d * PAGE_SIZE)) in
    Ret (if top <? end_ then end_ else top).

Definition compute_identity_top (bi : boot_info) : outcome Z :=
  count ← desc_count bi;
  top ← for_range 0 count (identity_top_body bi) 0x100000000;
  let fb_end := u64 (fb_base bi + fb_size bi) in
  Ret (LARGE_ALIGN_UP (if top <? fb_end then fb_end else top)).

(** [for (pa = lo; pa < hi; pa += LARGE_PAGE_SIZE)] *)
Definition large_pages (lo hi : Z) : Z := (hi - lo + LARGE_PAGE_MASK) / LARGE_PAGE_SIZE.

Definition identity_body (pml4 fb_start fb_end i : Z) (st : mem * pmm) : outcome (mem * pmm) :=
  let pa := i * LARGE_PAGE_SIZE in
  let flags := Z.lor PAGE_PRESENT PAGE_WRITABLE in
  let flags :=
    if (fb_start <=? pa) && (pa <? fb_end)
    then Z.lor flags (Z.lor PAGE_CACHE_DISABLE PAGE_WRITE_THROUGH) else flags in
  '(m, s, _) ← paging_map_2m st.1 st.2 pml4 pa pa flags;
  Ret (m, s).

Definition image_body (pml4 kbase i : Z) (st : mem * pmm) : outcome (mem * pmm) :=
  let pa := kbase + i * LARGE_PAGE_SIZE in
  '(m, s, _) ← paging_map_2m st.1 st.2 pml4 (u64 (KERNEL_HIGHER_HALF_BASE + (pa - kbase))) pa
                 (Z.lor PAGE_PRESENT PAGE_WRITABLE);
  Ret (m, s).

Definition vmm_init (v : vmm) (bi : boot_info) : outcome vmm :=
  '(m, s, pml4) ← paging_new_table (v_mem v) (v_pmm v);
  identity_top ← compute_identity_top bi;
  let fb_start := LARGE_ALIGN_DOWN (fb_base bi) in
  let fb_end := LARGE_ALIGN_UP (u64 (fb_base bi + fb_size bi)) in
  st ← for_range 0 (large_pages 0 identity_top) (identity_body pml4 fb_start fb_end) (m, s);
  let kbase := LARGE_ALIGN_DOWN (kernel_base bi) in
  let kend := LARGE_ALIGN_UP (u64 (kernel_base bi + kernel_size bi)) in
  st ← for_range 0 (large_pages kbase kend) (image_body pml4 kbase) st;
  Ret (mk_vmm st.1 st.2 pml4 (g_cr3_loaded v) (v_cr3 v)).

Definition vmm_load_kernel_address_space (v : vmm) : vmm :=
  mk_vmm (v_mem v) (v_pmm v) (g_pml4 v) true (g_pml4 v).

Definition vmm_cr3_loaded (v : vmm) : bool := g_cr3_loaded v.
Definition vmm_kernel_pml4 (v : vmm) : Z := g_pml4 v.

Definition with_tables (v : vmm) (m : mem) (s : pmm) : vmm :=
  mk_vmm m s (g_pml4 v) (g_cr3_loaded v) (v_cr3 v).

Definition vmm_map_mmio_2m (v : vmm) (phys : Z) : outcome (vmm * Z) :=
  if has phys LARGE_PAGE_MASK then Ret (v, -1)
  else
    '(m, s, rc) ← paging_map_2m (v_mem v) (v_pmm v) (g_pml4 v) phys phys
                    (Z.lor (Z.lor (Z.lor PAGE_PRESENT PAGE_WRITABLE) PAGE_CACHE_DISABLE) PAGE_WRITE_THROUGH);
    Ret (with_tables v m s, if rc =? K_OK then 0 else -1).

Definition vmm_map_page (v : vmm) (va pa flags : Z) : outcome (vmm * Z) :=
  '(m, s, rc) ← paging_map_4k (v_mem v) (v_pmm v) (g_pml4 v) va pa (Z.lor flags PAGE_PRESENT);
  Ret (with_tables v m s, if rc =? K_OK then 0 else -1).

Definition vmm_unmap_page (v : vmm) (va : Z) : vmm * Z :=
  let '(m, rc) := paging_unmap_4k (v_mem v) (g_pml4 v) va in
  (with_tables v m (v_pmm v), if rc =? K_OK then 0 else -1).

Definition vmm_get_physical (v : vmm) (va : Z) : Z := paging_translate (v_mem v) (g_pml4 v) va.

Definition check_identity (v : vmm) (va : Z) : bool :=
  let phys := paging_translate (v_mem v) (g_pml4 v) va in
  if phys =? PAGING_NO_MAP then false
  else Z.land phys (not64 PAGE_MASK) =? Z.land va (not64 PAGE_MASK).

(** A store and a load through the processor's translation. *)
Definition mmu_store64 (v : vmm) (va x : Z) : outcome vmm :=
  let phys := paging_translate (v_mem v) (v_cr3 v) va in
  if phys =? PAGING_NO_MAP then Fault
  else Ret (with_tables v (store64 (v_mem v) phys x) (v_pmm v)).

Definition mmu_load64 (v : vmm) (va : Z) : outcome Z :=
  let phys := paging_translate (v_mem v) (v_cr3 v) va in
  if phys =? PAGING_NO_MAP then Fault else Ret (load64 (v_mem v) phys).

(** The store to the scratch page and back, when CR3 is loaded. *)
Definition scratch_access (v : vmm) (ok : bool) : outcome (vmm * bool) :=
  if g_cr3_loaded v then
    v ← mmu_store64 v VMM_SCRATCH_VA 0xCAFEF00DDEADBEEF;
    x ← mmu_load64 v VMM_SCRATCH_VA;
    Ret (v, if negb (x =? 0xCAFEF00DDEADBEEF) then false else ok)
  else Ret (v, ok).

Definition vmm_validate_required_mappings (v : vmm) (bi : boot_info) : outcome (vmm * bool) :=
  let ok := if g_cr3_loaded v
            then if negb (Z.land (v_cr3 v) (not64 PAGE_MASK) =? g_pml4 v) then false else true
            else true in
  let ok := ok && check_identity v (kernel_entry bi) in
  let ok := ok && check_identity v (kernel_base bi) in
  let ok := ok && check_identity v (fb_base bi) in
  let ok := ok && check_identity v (bi_address bi) in
  let ok := ok && check_identity v (map_base bi) in
  let ok := ok && check_identity v (pmm_bitmap_base (v_pmm v)) in
  '(s, phys) ← pmm_alloc_page (v_pmm v);
  let v := with_tables v (v_mem v) s in
  if phys =? PMM_INVALID_PAGE then Ret (v, false)
  else
    '(v, rc) ← vmm_map_page v VMM_SCRATCH_VA phys PAGE_WRITABLE;
    if negb (rc =? 0) then
      s ← pmm_free_page (v_pmm v) phys;
      Ret (with_tables v (v_mem v) s, false)
    else
      let ok := if negb (Z.land (vmm_get_physical v VMM_SCRATCH_VA) (not64 PAGE_MASK) =? phys)
                then false else ok in
      '(v, ok) ← scratch_access v ok;
      let v := (vmm_unmap_page v VMM_SCRATCH_VA).1 in
      s ← pmm_free_page (v_pmm v) phys;
      Ret (with_tables v (v_mem v) s, ok).

(** ** The page allocator behind the tables *)

#[refine, export] Instance pmm_laws : PageAllocatorLaws pmm := {
  pa_ok s := pmm_wf s ∧ g_total_pages s ≤ 2 ^ 40;
  pa_geometry s := (g_total_pages s, g_bitmap_phys s);
  pa_managed g p := 256 ≤ p / 4096 < g.1;
  pa_isfree s p := 256 ≤ p / 4096 < g_total_pages s ∧ used (g_bitmap s) (p / 4096) = false;
  pa_nfree s := g_free_pages s
}.
Proof.
  - intros s [[Hb _] _]. rewrite (pb_free _ Hb). apply nfree_range. apply (pb_total _ Hb).
  - intros s [Hwf Ht]. change (alloc_page s) with (pmm_alloc_page s).
    destruct (pmm_alloc_page_spec s (proj1 Hwf)) as [(p & s' & E & Hp & Hu & _ & Hm)|[E Hall]].
    + right. destruct (pmm_wf_alloc s s' p Hwf ltac:(lia) Hm Hu ltac:(lia)) as [Hwf' Hf].
      pose proof (marked_total _ _ _ _ _ Hm) as Htot.
      assert (p * 4096 / 4096 = p) as Hdiv by (by rewrite Z.div_mul).
      eexists _, _. split; [exact E|]. rewrite Hdiv. cbn [fst]. rewrite Htot. split_and!; try done; try lia.
      * by rewrite Z_mod_mult.
      * rewrite (mk_used _ _ _ _ _ Hm) by lia. rewrite decide_True by lia. by intros [_ ?].
      * rewrite (mk_rest _ _ _ _ _ Hm). done.
      * intros q [Hq Hqu]. split; [done|]. rewrite (mk_used _ _ _ _ _ Hm) in Hqu by lia. revert Hqu. dec_if; done.
    + left. split; [by apply (pmm_wf_exhausted s Hwf)|done].
Defined.

(** ** Specification *)

(** The end of the memory to be mapped. *)
Definition identity_end (bi : boot_info) : Z :=
  Z.max (Z.max (2 ^ 32) (ram_top (bi_descs bi))) (fb_base bi + fb_size bi).

(** The number of 2 MiB pages of the identity map and of the kernel image. *)
Definition id_pages (bi : boot_info) : Z := (identity_end bi + (2 ^ 21 - 1)) / 2 ^ 21.
Definition image_first (bi : boot_info) : Z := kernel_base bi / 2 ^ 21.
Definition image_pages (bi : boot_info) : Z :=
  (kernel_base bi + kernel_size bi + (2 ^ 21 - 1)) / 2 ^ 21 - image_first bi.

(** The number of the 2 MiB page at which the image is mapped. *)
Definition high_lpn : Z := 2 ^ 27 - 2 ^ 10.

(** Physical memory below 64 TiB and an image of at most 1 GiB. *)
Record vmm_ok (bi : boot_info) (s : pmm) : Prop := {
  vo_boot : boot_ok bi;
  vo_pmm : pa_ok s;
  vo_top : identity_end bi ≤ 2 ^ 46;
  vo_image : kernel_base bi + kernel_size bi ≤ 2 ^ 46 ∧ image_pages bi ≤ 2 ^ 9
}.

(** Pages for the tables: the root, and at most two for each page that is mapped. *)
Definition table_pages (bi : boot_info) : Z := 1 + 2 * (id_pages bi + image_pages bi).

(** The translation that [vmm_init] sets up. *)
Definition kernel_space (bi : boot_info) (va : Z) : Z :=
  if decide (lpn va < id_pages bi) then lpn va * 2 ^ 21 + va mod 2 ^ 21
  else if decide (high_lpn ≤ lpn va < high_lpn + image_pages bi)
  then (image_first bi + (lpn va - high_lpn)) * 2 ^ 21 + va mod 2 ^ 21
  else PAGING_NO_MAP.

(** ** Lemmas *)

Lemma large_align_down_spec x : is_u64 x → LARGE_ALIGN_DOWN x = x / 2 ^ 21 * 2 ^ 21.
Proof.
  intros Hx. unfold LARGE_ALIGN_DOWN. change LARGE_PAGE_MASK with (2 ^ 21 - 1).
  rewrite land_not_low by (done || lia). zlia.
Qed.

Lemma large_align_up_spec x :
  0 ≤ x → x + (2 ^ 21 - 1) < 2 ^ 64 → LARGE_ALIGN_UP x = (x + (2 ^ 21 - 1)) / 2 ^ 21 * 2 ^ 21.
Proof.
  intros Hx Hm. unfold LARGE_ALIGN_UP. change LARGE_PAGE_MASK with (2 ^ 21 - 1). rewrite u64_small by lia.
  rewrite land_not_low by (unfold is_u64; lia). generalize (x + (2 ^ 21 - 1)). intros y. zlia.
Qed.

Lemma large_pages_spec a b : large_pages (a * 2 ^ 21) (b * 2 ^ 21) = b - a.
Proof. unfold large_pages, LARGE_PAGE_SIZE, LARGE_PAGE_MASK, LARGE_PAGE_SIZE. zlia. Qed.

Lemma large_pages_0 b : large_pages 0 (b * 2 ^ 21) = b.
Proof. rewrite <- (Z.sub_0_r b) at 2. apply (large_pages_spec 0). Qed.

Lemma identity_loop bi :
  boot_ok bi →
  for_range 0 (zlen (bi_descs bi)) (identity_top_body bi) 0x100000000 =
    Ret (Z.max (2 ^ 32) (ram_top (bi_descs bi))).
Proof.
  intros Hbi. destruct (for_range_inv (λ i h, h = Z.max (2 ^ 32) (ram_top (take (Z.to_nat i) (bi_descs bi))))
    (identity_top_body bi) 0 (zlen (bi_descs bi)) 0x100000000) as (h & E & ->).
  - apply zlen_nonneg.
  - intros i h Hi ->. destruct (desc_at_ok bi Hbi i Hi) as (d & Hd & E & Hs & Hn & He).
    unfold identity_top_body. rewrite E. cbn [mbind outcome_bind]. unfold desc_end in He.
    rewrite (take_succ _ _ d) by (done || lia). rewrite ram_top_snoc.
    destruct (efi_type_is_ram (d_type d)); [|eauto]. eexists. split; [reflexivity|].
    unfold PAGE_SIZE. rewrite (u64_small (d_number_of_pages d * 4096)), u64_small by lia. unfold desc_end.
    destruct (Z.ltb_spec (Z.max (2 ^ 32) (ram_top (take (Z.to_nat i) (bi_descs bi)))) (d_physical_start d + d_number_of_pages d * 4096)); lia.
  - done.
  - rewrite E. unfold zlen. by rewrite Nat2Z.id, firstn_all.
Qed.

Lemma compute_identity_top_spec bi :
  boot_ok bi → identity_end bi ≤ 2 ^ 46 → compute_identity_top bi = Ret (id_pages bi * 2 ^ 21).
Proof.
  intros Hbi He. unfold compute_identity_top, desc_count. destruct (bo_count _ Hbi) as [Hd Hn].
  rewrite (proj2 (Z.eqb_neq _ _)) by lia. cbn [mbind outcome_bind]. rewrite Hn, identity_loop by done. cbn [mbind outcome_bind].
  destruct (bo_fb _ Hbi) as (? & ? & ?). rewrite (u64_small (fb_base bi + fb_size bi)) by lia.
  f_equal. assert ((if Z.max (2 ^ 32) (ram_top (bi_descs bi)) <? fb_base bi + fb_size bi then fb_base bi + fb_size bi
          else Z.max (2 ^ 32) (ram_top (bi_descs bi))) = identity_end bi) as ->.
  { unfold identity_end. destruct (Z.ltb_spec (Z.max (2 ^ 32) (ram_top (bi_descs bi))) (fb_base bi + fb_size bi)); lia. }
  apply large_align_up_spec; unfold identity_end in *; lia.
Qed.

Lemma lpn_small va : 0 ≤ va < 2 ^ 48 → lpn va = va / 2 ^ 21.
Proof. intros H. unfold lpn. apply Z.mod_small. zlia. Qed.

Lemma lpn_range va : 0 ≤ lpn va < 2 ^ 27.
Proof. apply Z.mod_pos_bound. lia. Qed.

Lemma lpn_high i : 0 ≤ i < 2 ^ 10 → lpn (u64 (KERNEL_HIGHER_HALF_BASE + i * 2 ^ 21)) = high_lpn + i.
Proof.
  intros Hi. unfold KERNEL_HIGHER_HALF_BASE, high_lpn, lpn. rewrite u64_small by lia.
  replace (0xFFFFFFFF80000000 + i * 2 ^ 21) with ((2 ^ 43 - 2 ^ 10 + i) * 2 ^ 21) by lia.
  rewrite Z.div_mul by lia. zlia.
Qed.

(** One page of the identity map. *)
Lemma identity_step m s root fs fe i :
  pt_inv m s root → 0 ≤ i < 2 ^ 26 →
  (identity_body root fs fe i (m, s) = Panic ∧ g_free_pages s < 2) ∨
  ∃ m' s', identity_body root fs fe i (m, s) = Ret (m', s') ∧ pt_inv m' s' root ∧
    g_free_pages s - 2 ≤ g_free_pages s' ∧ pa_geometry s' = pa_geometry s ∧
    ∀ va, paging_translate m' root va =
      if decide (lpn va = i) then i * 2 ^ 21 + va mod 2 ^ 21 else paging_translate m root va.
Proof.
  intros Hinv Hi. unfold identity_body. change LARGE_PAGE_SIZE with (2 ^ 21). cbn [fst snd].
  set (fl := if (fs <=? i * 2 ^ 21) && (i * 2 ^ 21 <? fe) then _ else _).
  destruct (paging_map_2m_may m s root (i * 2 ^ 21) (i * 2 ^ 21) fl Hinv) as [[E Hf]|(m' & s' & E & Hinv' & (Hg & _ & Hgeo & _) & Ht)].
  - unfold fl. by destruct (_ && _).
  - unfold fl. by destruct (_ && _).
  - by rewrite Z_mod_mult.
  - by rewrite Z_mod_mult.
  - lia.
  - left. by rewrite E.
  - right. rewrite E. cbn [mbind outcome_bind]. exists m', s'. split; [done|]. split; [done|]. split; [done|]. split; [done|].
    intros va. rewrite Ht. apply decide_ext. rewrite (lpn_small (i * 2 ^ 21)), Z.div_mul by lia. done.
Qed.

Lemma image_step m s root kb i :
  pt_inv m s root → 0 ≤ i < 2 ^ 10 → 0 ≤ kb → kb + i < 2 ^ 26 →
  (image_body root (kb * 2 ^ 21) i (m, s) = Panic ∧ g_free_pages s < 2) ∨
  ∃ m' s', image_body root (kb * 2 ^ 21) i (m, s) = Ret (m', s') ∧ pt_inv m' s' root ∧
    g_free_pages s - 2 ≤ g_free_pages s' ∧ pa_geometry s' = pa_geometry s ∧
    ∀ va, paging_translate m' root va =
      if decide (lpn va = high_lpn + i) then (kb + i) * 2 ^ 21 + va mod 2 ^ 21 else paging_translate m root va.
Proof.
  intros Hinv Hi Hk Hki. unfold image_body. change LARGE_PAGE_SIZE with (2 ^ 21). cbn [fst snd].
  replace (kb * 2 ^ 21 + i * 2 ^ 21 - kb * 2 ^ 21) with (i * 2 ^ 21) by lia.
  replace (kb * 2 ^ 21 + i * 2 ^ 21) with ((kb + i) * 2 ^ 21) by lia.
  destruct (paging_map_2m_may m s root (u64 (KERNEL_HIGHER_HALF_BASE + i * 2 ^ 21)) ((kb + i) * 2 ^ 21)
    (Z.lor PAGE_PRESENT PAGE_WRITABLE) Hinv) as [[E Hf]|(m' & s' & E & Hinv' & (Hg & _ & Hgeo & _) & Ht)]; try done.
  - unfold KERNEL_HIGHER_HALF_BASE. rewrite u64_small by lia.
    replace (0xFFFFFFFF80000000 + i * 2 ^ 21) with ((2 ^ 43 - 2 ^ 10 + i) * 2 ^ 21) by lia. by rewrite Z_mod_mult.
  - by rewrite Z_mod_mult.
  - lia.
  - left. by rewrite E.
  - right. rewrite E. cbn [mbind outcome_bind]. exists m', s'. split; [done|]. split; [done|]. split; [done|]. split; [done|].
    intros va. rewrite Ht. apply decide_ext. by rewrite lpn_high.
Qed.

Lemma identity_map m s root fs fe n :
  pt_inv m s root → (∀ va, paging_translate m root va = PAGING_NO_MAP) →
  0 ≤ n ≤ 2 ^ 26 →
  (for_range 0 n (identity_body root fs fe) (m, s) = Panic ∧ g_free_pages s < 2 * n) ∨
  ∃ m' s', for_range 0 n (identity_body root fs fe) (m, s) = Ret (m', s') ∧ pt_inv m' s' root ∧
    g_free_pages s - 2 * n ≤ g_free_pages s' ∧ pa_geometry s' = pa_geometry s ∧
    ∀ va, paging_translate m' root va =
      if decide (lpn va < n) then lpn va * 2 ^ 21 + va mod 2 ^ 21 else PAGING_NO_MAP.
Proof.
  intros Hinv H0 Hn. destruct (for_range_may (g_free_pages s < 2 * n) (λ i st, pt_inv st.1 st.2 root ∧
      g_free_pages s - 2 * i ≤ g_free_pages st.2 ∧ pa_geometry st.2 = pa_geometry s ∧ ∀ va, paging_translate st.1 root va =
      if decide (lpn va < i) then lpn va * 2 ^ 21 + va mod 2 ^ 21 else PAGING_NO_MAP)
    (identity_body root fs fe) 0 n (m, s)) as [?|([m' s'] & E & H)].
  - lia.
  - intros i [m1 s1] Hi (I1 & I2 & I4 & I3). cbn [fst snd] in *.
    destruct (identity_step m1 s1 root fs fe i I1) as [[E Hf]|(m2 & s2 & E & J1 & J2 & J4 & J3)]; [lia|left; split; [done|lia]|right].
    exists (m2, s2). cbn [fst snd]. split; [done|]. split; [done|]. split; [lia|]. split; [congruence|]. intros va. rewrite J3, I3.
    repeat dec_if; try lia; congruence.
  - cbn [fst snd]. split; [done|]. split; [lia|]. split; [done|]. intros va. rewrite H0. pose proof (lpn_range va). by rewrite decide_False by lia.
  - by left.
  - right. exists m', s'. cbn in H. done.
Qed.

Lemma image_map m s root kb n :
  pt_inv m s root → 0 ≤ n ≤ 2 ^ 10 → 0 ≤ kb → kb + n ≤ 2 ^ 26 →
  (for_range 0 n (image_body root (kb * 2 ^ 21)) (m, s) = Panic ∧ g_free_pages s < 2 * n) ∨
  ∃ m' s', for_range 0 n (image_body root (kb * 2 ^ 21)) (m, s) = Ret (m', s') ∧ pt_inv m' s' root ∧
    g_free_pages s - 2 * n ≤ g_free_pages s' ∧ pa_geometry s' = pa_geometry s ∧
    ∀ va, paging_translate m' root va =
      if decide (high_lpn ≤ lpn va < high_lpn + n)
      then (kb + (lpn va - high_lpn)) * 2 ^ 21 + va mod 2 ^ 21 else paging_translate m root va.
Proof.
  intros Hinv Hn Hk Hkn. destruct (for_range_may (g_free_pages s < 2 * n) (λ i st, pt_inv st.1 st.2 root ∧
      g_free_pages s - 2 * i ≤ g_free_pages st.2 ∧ pa_geometry st.2 = pa_geometry s ∧ ∀ va, paging_translate st.1 root va =
      if decide (high_lpn ≤ lpn va < high_lpn + i)
      then (kb + (lpn va - high_lpn)) * 2 ^ 21 + va mod 2 ^ 21 else paging_translate m root va)
    (image_body root (kb * 2 ^ 21)) 0 n (m, s)) as [?|([m' s'] & E & H)].
  - lia.
  - intros i [m1 s1] Hi (I1 & I2 & I4 & I3). cbn [fst snd] in *.
    destruct (image_step m1 s1 root kb i I1) as [[E Hf]|(m2 & s2 & E & J1 & J2 & J4 & J3)]; [lia..|left; split; [done|lia]|right].
    exists (m2, s2). cbn [fst snd]. split; [done|]. split; [done|]. split; [lia|]. split; [congruence|]. intros va. rewrite J3, I3.
    repeat dec_if; done || lia.
  - cbn [fst snd]. split; [done|]. split; [lia|]. split; [done|]. intros va. by rewrite decide_False by lia.
  - by left.
  - right. exists m', s'. cbn in H. done.
Qed.

Lemma vmm_init_try v bi :
  vmm_ok bi (v_pmm v) →
  (vmm_init v bi = Panic ∧ g_free_pages (v_pmm v) < table_pages bi) ∨
  ∃ v', vmm_init v bi = Ret v' ∧ pt_inv (v_mem v') (v_pmm v') (g_pml4 v') ∧
    g_free_pages (v_pmm v) - table_pages bi ≤ g_free_pages (v_pmm v') ∧
    g_cr3_loaded v' = g_cr3_loaded v ∧ pa_geometry (v_pmm v') = pa_geometry (v_pmm v) ∧
    ∀ va, paging_translate (v_mem v') (g_pml4 v') va = kernel_space bi va.
Proof.
  intros [Hbi Hok Htop [Himg Hip]]. unfold table_pages.
  destruct (bo_kernel _ Hbi) as (Hk1 & Hk2 & Hk3). destruct (bo_fb _ Hbi) as (Hb1 & Hb2 & Hb3).
  assert (0 ≤ id_pages bi ≤ 2 ^ 26) as Hid.
  { unfold id_pages. assert (0 ≤ identity_end bi) by (unfold identity_end; lia). zlia. }
  assert (0 ≤ image_pages bi ∧ image_first bi + image_pages bi ≤ 2 ^ 26 ∧ 0 ≤ image_first bi) as (Hp0 & Hp1 & Hp2).
  { unfold image_pages, image_first. clear -Hk1 Hk2 Himg. zlia. }
  unfold vmm_init, paging_new_table.
  destruct (pa_alloc (v_pmm v) Hok) as [[H0 ->]|(s1 & root & -> & Hok1 & Hf1 & Hr1 & Hr2 & _ & _ & Hr3 & Hgeo & _)].
  { left. split; [done|]. cbn in H0. lia. }
  cbn [mbind outcome_bind]. rewrite (proj2 (Z.eqb_neq root 0)) by lia.
  destruct (clear_table (v_mem v) root Hr1) as (m1 & -> & Hz & _). cbn [mbind outcome_bind].
  rewrite compute_identity_top_spec by done. cbn [mbind outcome_bind].
  destruct (empty_inv m1 s1 root Hok1 Hr1 ltac:(lia) Hr3 Hz) as [Hinv1 Hno].
  rewrite large_pages_0. cbn [pa_nfree pmm_laws] in Hf1.
  destruct (identity_map m1 s1 root (LARGE_ALIGN_DOWN (fb_base bi)) (LARGE_ALIGN_UP (u64 (fb_base bi + fb_size bi)))
    (id_pages bi) Hinv1 Hno Hid) as [[-> Hx]|(m2 & s2 & -> & Hinv2 & Hf2 & Hgeo2 & Ht2)]; cbn [mbind outcome_bind]; [left; split; [done|lia]|].
  rewrite (u64_small (kernel_base bi + kernel_size bi)) by lia.
  rewrite large_align_down_spec, large_align_up_spec by (unfold is_u64; lia). rewrite large_pages_spec.
  fold (image_first bi). fold (image_pages bi).
  destruct (image_map m2 s2 root (image_first bi) (image_pages bi) Hinv2 ltac:(lia) Hp2 Hp1)
    as [[-> Hx]|(m3 & s3 & -> & Hinv3 & Hf3 & Hgeo3 & Ht3)]; cbn [mbind outcome_bind fst snd]; [left; split; [done|lia]|right].
  eexists. split; [done|]. cbn [v_mem v_pmm g_pml4 g_cr3_loaded]. split; [done|]. split; [lia|]. split; [done|].
  split; [by rewrite Hgeo3, Hgeo2, Hgeo|]. intros va. rewrite Ht3, Ht2. unfold kernel_space. unfold high_lpn. repeat dec_if; done || lia.
Qed.

Lemma vmm_init_spec v bi :
  vmm_ok bi (v_pmm v) → table_pages bi ≤ g_free_pages (v_pmm v) →
  ∃ v', vmm_init v bi = Ret v' ∧ pt_inv (v_mem v') (v_pmm v') (g_pml4 v') ∧
    g_free_pages (v_pmm v) - table_pages bi ≤ g_free_pages (v_pmm v') ∧
    g_cr3_loaded v' = g_cr3_loaded v ∧ pa_geometry (v_pmm v') = pa_geometry (v_pmm v) ∧
    ∀ va, paging_translate (v_mem v') (g_pml4 v') va = kernel_space bi va.
Proof. intros Hok Hf. destruct (vmm_init_try v bi Hok) as [[_ ?]|?]; [lia|done]. Qed.

(** An address below the end of memory is mapped to itself. *)
Lemma kernel_space_identity bi va :
  identity_end bi ≤ 2 ^ 46 → 0 ≤ va < identity_end bi → kernel_space bi va = va.
Proof.
  intros He Hva. unfold kernel_space. rewrite (lpn_small va) by lia.
  rewrite decide_True; [zlia|]. unfold id_pages. apply Z.div_lt_upper_bound; [lia|]. zlia.
Qed.

Lemma kernel_space_image bi off :
  id_pages bi ≤ 2 ^ 26 → 0 ≤ off < image_pages bi * 2 ^ 21 → image_pages bi ≤ 2 ^ 9 →
  kernel_space bi (KERNEL_HIGHER_HALF_BASE + off) = image_first bi * 2 ^ 21 + off.
Proof.
  intros Hid Hoff Hi. unfold kernel_space.
  assert (lpn (KERNEL_HIGHER_HALF_BASE + off) = high_lpn + off / 2 ^ 21) as El.
  { unfold lpn, KERNEL_HIGHER_HALF_BASE, high_lpn. zlia. }
  assert ((KERNEL_HIGHER_HALF_BASE + off) mod 2 ^ 21 = off mod 2 ^ 21) as ->.
  { unfold KERNEL_HIGHER_HALF_BASE. zlia. }
  rewrite El. unfold high_lpn in *. assert (0 ≤ off / 2 ^ 21 < image_pages bi) as Hd by (clear -Hoff; zlia).
  rewrite decide_False by lia. rewrite decide_True by lia.
  replace (2 ^ 27 - 2 ^ 10 + off / 2 ^ 21 - (2 ^ 27 - 2 ^ 10)) with (off / 2 ^ 21) by lia.
  pose proof (Z.div_mod off (2 ^ 21)). lia.
Qed.

Lemma check_identity_ok v va :
  0 ≤ va < 2 ^ 63 → paging_translate (v_mem v) (g_pml4 v) va = va → check_identity v va = true.
Proof.
  intros Hva E. unfold check_identity. rewrite E. change PAGING_NO_MAP with (2 ^ 64 - 1).
  rewrite (proj2 (Z.eqb_neq _ _)) by lia. apply Z.eqb_refl.
Qed.

Lemma page_base p : p mod 4096 = 0 → 0 ≤ p < 2 ^ 52 → Z.land p (not64 PAGE_MASK) = p.
Proof. intros Hm Hp. change (PAGE_ALIGN_DOWN p = p). rewrite page_align_down_spec by (unfold is_u64; lia). lia. Qed.

(** Storing a word at the start of a page that is not a table. *)
Lemma store_page_inv m s root p x :
  pt_inv m s root → p mod 4096 = 0 → ¬ is_table m root p →
  pt_inv (store64 m p x) s root ∧ ∀ va, paging_translate (store64 m p x) root va = paging_translate m root va.
Proof.
  intros Hinv Hp Hn. destruct (data_write_inv m (store64 m p x) s root Hinv) as (H1 & _ & _ & H2); [|done].
  intros t j Ht Hj. unfold pte. apply load64_store64_ne.
  assert (t ≠ p) by (intros ->; done). destruct Ht as (q & Hq & Hw).
  destruct (pi_page _ _ _ Hinv q t Hq Hw) as [Ht _]. clear -Hp Ht Hj H. zlia.
Qed.

(** The self-check on a kernel address space that is right. *)
Section Validate.
Context (v : vmm) (bi : boot_info).
Hypothesis Hinv : pt_inv (v_mem v) (v_pmm v) (g_pml4 v).
Hypothesis Hspace : ∀ va, paging_translate (v_mem v) (g_pml4 v) va = kernel_space bi va.
Hypothesis Hcr3 : g_cr3_loaded v = true ∧ v_cr3 v = g_pml4 v.
Hypothesis Hend : identity_end bi ≤ 2 ^ 46 ∧ image_pages bi ≤ 2 ^ 9.

Lemma kernel_space_scratch va : lpn va = lpn VMM_SCRATCH_VA → kernel_space bi va = PAGING_NO_MAP.
Proof using Hend.
  intros Hl. change (lpn VMM_SCRATCH_VA) with (2 ^ 27 - 2 ^ 9) in Hl.
  unfold kernel_space. rewrite Hl. unfold high_lpn.
  assert (id_pages bi ≤ 2 ^ 26) by (unfold id_pages; zlia).
  by rewrite !decide_False by lia.
Qed.

Lemma scratch_unmapped va : vpn va = vpn VMM_SCRATCH_VA → kernel_space bi va = PAGING_NO_MAP.
Proof using Hend. intros Hv. apply vpn_idx in Hv as [Hl _]. by apply kernel_space_scratch. Qed.

(** The scratch page is mapped, used through CR3 and unmapped again. *)
Lemma scratch_roundtrip s1 p :
  4 ≤ g_free_pages (v_pmm v) → pmm_alloc_page (v_pmm v) = Ret (s1, p) → p ≠ 0 →
  ∃ v', vmm_map_page (with_tables v (v_mem v) s1) VMM_SCRATCH_VA p PAGE_WRITABLE = Ret (v', 0) ∧
    vmm_get_physical v' VMM_SCRATCH_VA = p ∧ p mod 4096 = 0 ∧ 0 < p < 2 ^ 52 ∧
    ∃ v'', scratch_access v' true = Ret (v'', true) ∧ v_pmm v'' = v_pmm v' ∧ g_pml4 v'' = g_pml4 v ∧
      pt_inv (v_mem v'') (v_pmm v'') (g_pml4 v) ∧ ¬ pa_isfree (v_pmm v'') p ∧ pa_managed (pa_geometry (v_pmm v'')) p ∧
      ∀ va, paging_translate (v_mem v'') (g_pml4 v) va =
        if decide (vpn va = vpn VMM_SCRATCH_VA) then p + va mod 4096 else kernel_space bi va.
Proof using All.
  intros Hf Ha Hp0. destruct (pa_alloc (v_pmm v) (pi_alloc _ _ _ Hinv))
    as [[_ E]|(s2 & q & E & Hok & Hn & Hm & Hr & Hman & Hfr & Hnf & Hgeo & Hmono)]; [change (alloc_page _) with (pmm_alloc_page (v_pmm v)) in E; congruence|].
  change (alloc_page _) with (pmm_alloc_page (v_pmm v)) in E. rewrite E in Ha. injection Ha as -> ->.
  cbn [pa_nfree pmm_laws] in Hn.
  pose proof (pt_inv_alloc _ _ s1 _ Hinv Hok Hmono) as Hinv1.
  assert (covered_2m (v_mem v) (g_pml4 v) VMM_SCRATCH_VA = false) as Hc.
  { apply (unmapped_not_covered _ _ _ _ Hinv). rewrite Hspace. by apply scratch_unmapped. }
  destruct (paging_map_4k_spec (v_mem v) s1 (g_pml4 v) VMM_SCRATCH_VA p (Z.lor PAGE_WRITABLE PAGE_PRESENT) Hinv1)
    as (m' & s' & E' & Hinv' & (Hg1 & Hg2 & Hg3 & Hg4 & _) & Ht); [cbn; lia|done|done|].
  rewrite Hc in E', Ht. rewrite (mask_id p) in Ht by lia.
  assert (paging_translate m' (g_pml4 v) VMM_SCRATCH_VA = p) as Htp.
  { rewrite Ht, decide_True by done. change (VMM_SCRATCH_VA mod 4096) with 0. lia. }
  assert (¬ is_table m' (g_pml4 v) p) as Hnt.
  { intros [(q & Hq & Hw)|Hfree]%Hg4; [|done]. by destruct (pi_page _ _ _ Hinv q p Hq Hw) as (_ & _ & Hx). }
  destruct (store_page_inv m' s' (g_pml4 v) p 0xCAFEF00DDEADBEEF Hinv' Hm Hnt) as [Hinv2 Ht2].
  unfold vmm_map_page. cbn [with_tables v_mem v_pmm g_pml4]. rewrite E'. cbn [mbind outcome_bind].
  eexists. split; [done|]. split; [exact Htp|]. split; [done|]. split; [done|].
  unfold scratch_access, mmu_store64, mmu_load64. cbn [with_tables v_mem v_pmm g_pml4 v_cr3 g_cr3_loaded].
  destruct Hcr3 as [Hl Hc3]. rewrite Hl, Hc3, Htp. change PAGING_NO_MAP with (2 ^ 64 - 1). rewrite (proj2 (Z.eqb_neq p _)) by lia.
  cbn [mbind outcome_bind with_tables v_mem v_pmm g_pml4 v_cr3 g_cr3_loaded]. rewrite Hc3, Ht2, Htp. rewrite (proj2 (Z.eqb_neq p _)) by lia.
  rewrite load64_store64 by done. eexists. split; [done|].
  cbn [v_mem v_pmm g_pml4]. split; [done|]. split; [done|]. split; [done|]. split; [auto|]. split; [change (pa_managed (pa_geometry s') p); by rewrite Hg3, Hgeo|].
  intros va. rewrite Ht2, Ht, Hspace. repeat dec_if; tauto.
Qed.

End Validate.

(** Freeing a page that is managed and in use. *)
Lemma free_managed s p :
  pmm_wf s → p mod 4096 = 0 → 0 < p < 2 ^ 52 → ¬ pa_isfree s p → pa_managed (pa_geometry s) p →
  ∃ s', pmm_free_page s p = Ret s' ∧ marked s s' (p / 4096) (p / 4096 + 1) false.
Proof.
  intros [Hb _] Hm Hp Hf Hman. cbn [pa_isfree pa_managed pa_geometry pmm_laws fst] in Hf, Hman.
  pose proof (pmm_free_page_spec s p Hb ltac:(unfold is_u64; lia)) as H.
  rewrite decide_True in H; [done|]. unfold LOW_MEMORY_RESERVED_END. split_and!; [done|clear -Hm Hman; zlia|lia|].
  destruct (used (g_bitmap s) (p / 4096)) eqn:E; [done|]. by destruct Hf.
Qed.

Lemma vmm_validate_spec v bi :
  pt_inv (v_mem v) (v_pmm v) (g_pml4 v) →
  (∀ va, paging_translate (v_mem v) (g_pml4 v) va = kernel_space bi va) →
  g_cr3_loaded v = true ∧ v_cr3 v = g_pml4 v →
  identity_end bi ≤ 2 ^ 46 ∧ image_pages bi ≤ 2 ^ 9 → 4 ≤ g_free_pages (v_pmm v) →
  Forall (λ a, 0 ≤ a < identity_end bi)
    [kernel_entry bi; kernel_base bi; fb_base bi; bi_address bi; map_base bi; g_bitmap_phys (v_pmm v)] →
  ∃ v', vmm_validate_required_mappings v bi = Ret (v', true) ∧
    ∀ va, vmm_get_physical v' va = kernel_space bi va.
Proof.
  intros Hinv Hspace Hcr3 Hend Hfree Hall.
  assert (∀ a, 0 ≤ a < identity_end bi → check_identity v a = true) as Hid.
  { intros a Ha. apply check_identity_ok; [lia|]. rewrite Hspace. apply kernel_space_identity; lia. }
  repeat (apply Forall_cons in Hall as [? Hall]).
  destruct (pi_page _ _ _ Hinv [] (g_pml4 v)) as (Hr & Hrr & _); [by split; [cbn; lia|constructor]|done|].
  unfold vmm_validate_required_mappings. rewrite !Hid by done. destruct Hcr3 as [Hl Hc3]. rewrite Hl, Hc3.
  rewrite page_base, Z.eqb_refl by done. cbn [negb andb].
  destruct (pa_alloc (v_pmm v) (pi_alloc _ _ _ Hinv)) as [[Hn0 _]|(s1 & p & E & _ & _ & _ & Hp & _)];
    [cbn [pa_nfree pmm_laws] in Hn0; lia|].
  change (alloc_page (v_pmm v)) with (pmm_alloc_page (v_pmm v)) in E. rewrite E. cbn [mbind outcome_bind].
  unfold PMM_INVALID_PAGE. rewrite (proj2 (Z.eqb_neq p 0)) by lia.
  destruct (scratch_roundtrip v bi Hinv Hspace (conj Hl Hc3) Hend s1 p Hfree E ltac:(lia))
    as (v1 & -> & Hphys & Hm & _ & v2 & Hs & _ & Hroot & Hinv2 & Hnf & Hman & Ht). cbn [mbind outcome_bind].
  rewrite Hphys, page_base, !Z.eqb_refl by lia. cbn [negb Z.eqb].
  rewrite Hs. cbn [mbind outcome_bind].
  unfold vmm_unmap_page. rewrite Hroot.
  destruct (paging_unmap_4k_spec (v_mem v2) (v_pmm v2) (g_pml4 v) VMM_SCRATCH_VA Hinv2) as (_ & Hinv3 & Ht3).
  destruct (paging_unmap_4k (v_mem v2) (g_pml4 v) VMM_SCRATCH_VA) as [m3 rc]. cbn [fst snd with_tables v_pmm v_mem] in *.
  destruct (free_managed (v_pmm v2) p) as (s4 & -> & _); [apply Hinv2|done|done|done|done|]. cbn [mbind outcome_bind].
  eexists. split; [done|]. intros va. unfold vmm_get_physical. cbn [with_tables v_mem g_pml4]. rewrite Hroot, Ht3, (Ht va).
  destruct (bool_decide_reflect (vpn va = vpn VMM_SCRATCH_VA)) as [Hv|Hv];
    [|rewrite andb_false_r; by rewrite decide_False].
  rewrite andb_true_r, bool_decide_true; [symmetry; by apply (scratch_unmapped bi Hend)|].
  assert (paging_translate (v_mem v2) (g_pml4 v) VMM_SCRATCH_VA = p) as Hsc.
  { rewrite Ht, decide_True by done. change (VMM_SCRATCH_VA mod 4096) with 0. lia. }
  split; [|rewrite Hsc; change PAGING_NO_MAP with (2 ^ 64 - 1); lia].
  (* the page next to the scratch page is not mapped *)
  change (covered_2m (v_mem v2) (g_pml4 v) (VMM_SCRATCH_VA + 4096) = false).
  apply (unmapped_not_covered _ _ _ _ Hinv2). rewrite Ht, decide_False by done.
  apply (kernel_space_scratch bi Hend). reflexivity.
Qed.

(** ** Theorems *)

(** C12. [vmm_init] maps all of memory (RAM, the framebuffer, at least 4 GiB) to itself
    and the kernel image at [KERNEL_HIGHER_HALF_BASE], and nothing else is mapped, or
    it panics because there is no page for a table; it does not panic when there are
    pages for the root and for two tables for each 2 MiB page. For a boot information
    that is well-formed, physical memory below 64 TiB and an image that spans at most
    512 pages of 2 MiB. *)
Theorem vmm_init_maps v bi :
  vmm_ok bi (v_pmm v) →
  (vmm_init v bi = Panic ∧ g_free_pages (v_pmm v) < table_pages bi) ∨
  ∃ v', vmm_init v bi = Ret v' ∧ pt_inv (v_mem v') (v_pmm v') (g_pml4 v') ∧
    (∀ va, 0 ≤ va < identity_end bi → vmm_get_physical v' va = va) ∧
    (∀ off, 0 ≤ off < image_pages bi * 2 ^ 21 →
       vmm_get_physical v' (KERNEL_HIGHER_HALF_BASE + off) = image_first bi * 2 ^ 21 + off) ∧
    ∀ va, id_pages bi ≤ lpn va → ¬ (high_lpn ≤ lpn va < high_lpn + image_pages bi) →
      vmm_get_physical v' va = PAGING_NO_MAP.
Proof.
  intros Hok. destruct (vmm_init_try v bi Hok) as [?|(v' & E & Hinv & _ & _ & _ & Ht)]; [by left|right]. destruct Hok as [Hbi _ Htop [_ Hip]].
  exists v'. split; [done|]. split; [done|]. unfold vmm_get_physical. split_and!; intros *; rewrite Ht.
  - by apply kernel_space_identity.
  - intros Hoff. apply kernel_space_image; [|done|done]. unfold id_pages. zlia.
  - intros H1 H2. unfold kernel_space. by rewrite !decide_False by lia.
Qed.

(** 32 MiB of memory, all of it free above 1 MiB. *)
Definition big_pmm : pmm :=
  mk_pmm (replicate 32 0xFF ++ replicate 992 0) 1024 8192 7936 256 0x100000 1 0x100000 0x2000000.
Definition boot_vmm : vmm := mk_vmm ∅ big_pmm 0 false 0.

Lemma boot_vmm_ok : vmm_ok example_boot (v_pmm boot_vmm).
Proof.
  constructor.
  - constructor; cbn [example_boot descriptor_size map_size bi_descs map_base kernel_base kernel_size
      fb_base fb_size bi_address]; try lia.
    + split; [lia|reflexivity].
    + repeat constructor; unfold desc_end; cbn; lia.
  - split; [|cbn; lia]. apply (pmm_wf_low 32 992); [cbn; lia|cbn; lia|done|done|done].
  - vm_compute. discriminate.
  - split; vm_compute; discriminate.
Qed.

Lemma boot_vmm_pages : table_pages example_boot ≤ g_free_pages (v_pmm boot_vmm).
Proof. vm_compute. discriminate. Qed.

Lemma vmm_init_maps_witness :
  ∃ v', vmm_init boot_vmm example_boot = Ret v' ∧ vmm_get_physical v' 0xFEE00030 = 0xFEE00030 ∧
        vmm_get_physical v' (KERNEL_HIGHER_HALF_BASE + 0x100004) = 0x100004.
Proof.
  destruct (vmm_init_maps boot_vmm example_boot boot_vmm_ok) as [[_ Hx]|(v' & E & _ & H1 & H2 & _)]; [exfalso; pose proof boot_vmm_pages; lia|].
  exists v'. split; [exact E|]. split; [apply H1; vm_compute; split; congruence|].
  rewrite H2; [reflexivity|]. vm_compute; split; congruence.
Defined.

(** After [vmm_init] and the load of CR3 the self-check
    [vmm_validate_required_mappings] succeeds whenever the required structures lie
    in mapped memory: its scratch page is mapped, written and read back through
    CR3, unmapped and freed, and the address space is as it was. *)
Theorem vmm_validate_passes v bi v1 :
  vmm_ok bi (v_pmm v) → table_pages bi ≤ g_free_pages (v_pmm v) → vmm_init v bi = Ret v1 → 4 ≤ g_free_pages (v_pmm v1) →
  Forall (λ a, 0 ≤ a < identity_end bi)
    [kernel_entry bi; kernel_base bi; fb_base bi; bi_address bi; map_base bi; g_bitmap_phys (v_pmm v)] →
  ∃ v', vmm_validate_required_mappings (vmm_load_kernel_address_space v1) bi = Ret (v', true) ∧
    ∀ va, vmm_get_physical v' va = vmm_get_physical v1 va.
Proof.
  intros Hok Hpg E Hf Hall. destruct (vmm_init_spec v bi Hok Hpg) as (v1' & E1 & Hinv & _ & _ & Hgeo & Ht).
  rewrite E in E1. injection E1 as <-. destruct Hok as [Hbi _ Htop [_ Hip]].
  cbn [pa_geometry pmm_laws] in Hgeo. injection Hgeo as _ Hgeo.
  destruct (vmm_validate_spec (vmm_load_kernel_address_space v1) bi) as (v' & Ev & Hv); try done.
  { cbn [vmm_load_kernel_address_space v_pmm]. by rewrite Hgeo. }
  exists v'. split; [done|]. intros va. rewrite Hv. unfold vmm_get_physical. by rewrite Ht.
Qed.

Lemma vmm_validate_passes_witness :
  ∃ v1 v', vmm_init boot_vmm example_boot = Ret v1 ∧
    vmm_validate_required_mappings (vmm_load_kernel_address_space v1) example_boot = Ret (v', true).
Proof.
  destruct (vmm_init_spec boot_vmm example_boot boot_vmm_ok boot_vmm_pages) as (v1 & E & _ & Hf & _).
  assert (4 ≤ g_free_pages (v_pmm v1)) as Hf4.
  { change (g_free_pages (v_pmm boot_vmm)) with 7936 in Hf.
    assert (table_pages example_boot = 4099) by reflexivity. lia. }
  destruct (vmm_validate_passes boot_vmm example_boot v1 boot_vmm_ok boot_vmm_pages E Hf4) as (v' & Ev & _).
  - repeat constructor; vm_compute; congruence.
  - exists v1, v'. split; [exact E|exact Ev].
Defined.
