(* ===== verification/NetBase.v ===== *)
(** Byte order, addresses and the internet checksum: [kernel/net/net_endian.h],
    [kernel/net/net_addr.h] and [kernel/net/checksum.c]. Packets are lists of
    bytes with offsets for pointers; an address is the 32-bit value that holds it
    in network byte order. *)

From S2P Require Import Prelude.

(** ** Definitions *)

Definition net_bswap16 (v : Z) : Z := u16 (Z.lor (Z.shiftl v 8) (Z.shiftr v 8)).

Definition net_bswap32 (v : Z) : Z :=
  Z.lor (Z.lor (Z.lor (u32 (Z.shiftl (Z.land v 0x000000FF) 24)) (u32 (Z.shiftl (Z.land v 0x0000FF00) 8)))
           (Z.shiftr (Z.land v 0x00FF0000) 8)) (Z.shiftr (Z.land v 0xFF000000) 24).

Definition net_htons (v : Z) : Z := net_bswap16 v.
Definition net_ntohs (v : Z) : Z := net_bswap16 v.
Definition net_htonl (v : Z) : Z := net_bswap32 v.
Definition net_ntohl (v : Z) : Z := net_bswap32 v.

Definition net_get_be16 (b : list Z) (p : Z) : outcome Z :=
  b0 ← aget b p;
  b1 ← aget b (p + 1);
  Ret (u16 (Z.lor (Z.shiftl b0 8) b1)).

Definition net_get_be32 (b : list Z) (p : Z) : outcome Z :=
  b0 ← aget b p;
  b1 ← aget b (p + 1);
  b2 ← aget b (p + 2);
  b3 ← aget b (p + 3);
  Ret (Z.lor (Z.lor (Z.lor (u32 (Z.shiftl b0 24)) (Z.shiftl b1 16)) (Z.shiftl b2 8)) b3).

Definition net_put_be16 (b : list Z) (p v : Z) : outcome (list Z) :=
  b ← aset b p (u8 (Z.shiftr v 8));
  aset b (p + 1) (u8 v).

Definition net_put_be32 (b : list Z) (p v : Z) : outcome (list Z) :=
  b ← aset b p (u8 (Z.shiftr v 24));
  b ← aset b (p + 1) (u8 (Z.shiftr v 16));
  b ← aset b (p + 2) (u8 (Z.shiftr v 8));
  aset b (p + 3) (u8 v).

(** The bytes of a 16-bit or 32-bit object in memory (little-endian). *)
Definition le16 (v : Z) : list Z := [u8 v; u8 (Z.shiftr v 8)].
Definition le32 (v : Z) : list Z := [u8 v; u8 (Z.shiftr v 8); u8 (Z.shiftr v 16); u8 (Z.shiftr v 24)].

(** Reading and writing a packed field of a header in place. *)
Definition get_u16 (b : list Z) (p : Z) : outcome Z :=
  b0 ← aget b p;
  b1 ← aget b (p + 1);
  Ret (Z.lor b0 (Z.shiftl b1 8)).

Definition get_u32 (b : list Z) (p : Z) : outcome Z :=
  b0 ← aget b p;
  b1 ← aget b (p + 1);
  b2 ← aget b (p + 2);
  b3 ← aget b (p + 3);
  Ret (Z.lor (Z.lor (Z.lor b0 (Z.shiftl b1 8)) (Z.shiftl b2 16)) (Z.shiftl b3 24)).

Definition put_u16 (b : list Z) (p v : Z) : outcome (list Z) :=
  b ← aset b p (u8 v);
  aset b (p + 1) (u8 (Z.shiftr v 8)).

Definition put_u32 (b : list Z) (p v : Z) : outcome (list Z) :=
  b ← aset b p (u8 v);
  b ← aset b (p + 1) (u8 (Z.shiftr v 8));
  b ← aset b (p + 2) (u8 (Z.shiftr v 16));
  aset b (p + 3) (u8 (Z.shiftr v 24)).

Definition ip_make (a b c d : Z) : Z :=
  Z.lor (Z.lor (Z.lor a (Z.shiftl b 8)) (Z.shiftl c 16)) (u32 (Z.shiftl d 24)).
Definition ip_from_host (host : Z) : Z := net_htonl host.
Definition ip_to_host (ip : Z) : Z := net_ntohl ip.
Definition ip_equal (a b : Z) : bool := a =? b.
Definition ip_is_zero (a : Z) : bool := a =? 0.
Definition IP_ADDR_ANY : Z := ip_from_host 0x00000000.
Definition IP_ADDR_BROADCAST : Z := ip_from_host 0xFFFFFFFF.
Definition IP_ADDR_LOOPBACK : Z := ip_from_host 0x7F000001.
Definition ip_is_broadcast (a : Z) : bool := a =? 0xFFFFFFFF.
Definition ip_same_subnet (a net mask : Z) : bool := Z.land a mask =? Z.land net mask.

(** [p] and [len] are the loop's variables. *)
Fixpoint csum_loop (fuel : nat) (b : list Z) (p len sum : Z) : outcome Z :=
  if 1 <? len then
    match fuel with
    | O => Loop
    | S fuel =>
        b0 ← aget b p;
        b1 ← aget b (p + 1);
        csum_loop fuel b (p + 2) (len - 2) (u32 (sum + Z.lor (Z.shiftl b0 8) b1))
    end
  else if len =? 1 then
    b0 ← aget b p;
    Ret (u32 (sum + Z.shiftl b0 8))
  else Ret sum.

Definition net_csum_partial (b : list Z) (p len sum : Z) : outcome Z :=
  csum_loop (Z.to_nat len) b p len sum.

Fixpoint fold_loop (fuel : nat) (sum : Z) : outcome Z :=
  if Z.shiftr sum 16 =? 0 then Ret sum
  else
    match fuel with
    | O => Loop
    | S fuel => fold_loop fuel (u32 (Z.land sum 0xFFFF + Z.shiftr sum 16))
    end.

(** Two turns are enough for a 32-bit sum. *)
Definition net_csum_fold (sum : Z) : outcome Z :=
  sum ← fold_loop 2 sum;
  let host := u16 (not32 sum) in
  Ret (net_htons host).

Definition net_checksum (b : list Z) (p len : Z) : outcome Z :=
  sum ← net_csum_partial b p len 0;
  net_csum_fold sum.

Definition net_pseudo_header_sum (src_be dst_be proto transport_len : Z) : outcome Z :=
  sum ← net_csum_partial (le32 src_be) 0 4 0;
  sum ← net_csum_partial (le32 dst_be) 0 4 sum;
  let sum := u32 (sum + proto) in
  Ret (u32 (sum + transport_len)).

Definition net_transport_checksum (src_be dst_be proto : Z) (b : list Z) (p l4_len : Z) : outcome Z :=
  sum ← net_pseudo_header_sum src_be dst_be proto l4_len;
  sum ← net_csum_partial b p l4_len sum;
  net_csum_fold sum.

(** ** Specification *)

(** The sum of the 16-bit big-endian words, an odd last byte padded with zero. *)
Fixpoint wsum (l : list Z) : Z :=
  match l with
  | a :: b :: l => 256 * a + b + wsum l
  | [a] => 256 * a
  | [] => 0
  end.

(** One's complement: the residue modulo 65535 with 65535 for the nonzero
    multiples. *)
Definition ones (s : Z) : Z := if s =? 0 then 0 else (s - 1) mod 65535 + 1.

(** What the pseudo header adds to the sum. *)
Definition pseudo (src dst proto len : Z) : Z := wsum (le32 src) + wsum (le32 dst) + proto + len.

(** ** Lemmas *)

Lemma u8_Z z : is_u8 (u8 z).
Proof. apply u8_range. Qed.

Lemma bytes_app l1 l2 : bytes (l1 ++ l2) ↔ bytes l1 ∧ bytes l2.
Proof. apply Forall_app. Qed.

(** *** Byte order *)

Lemma be16_value a b : is_u8 a → is_u8 b → Z.lor (Z.shiftl a 8) b = 256 * a + b.
Proof. intros Ha Hb. rewrite lor_shift_add by (done || lia). lia. Qed.

Lemma bswap16_value v : is_u16 v → net_bswap16 v = 256 * (v mod 256) + v / 256.
Proof.
  intros Hv. unfold net_bswap16. rewrite Z.shiftr_div_pow2, lor_shift_add by (lia || zlia).
  change (2 ^ 8) with 256. zlia.
Qed.

Lemma land_byte v k : 0 ≤ k → Z.land v (Z.shiftl 0xFF k) = (v / 2 ^ k) mod 256 * 2 ^ k.
Proof.
  intros Hk. rewrite <-Z.shiftl_mul_pow2 by done. change 256 with (2 ^ 8). rewrite <-Z.land_ones, <-Z.shiftr_div_pow2 by lia.
  change (Z.ones 8) with 0xFF. rewrite Z.shiftl_land. apply Z.bits_inj'. intros i Hi.
  rewrite !Z.land_spec. destruct (decide (i < k)).
  - by rewrite (Z.shiftl_spec_low 255 k i), !andb_false_r by lia.
  - rewrite !(Z.shiftl_spec_high _ k i), Z.shiftr_spec by lia. do 2 f_equal. lia.
Qed.

Lemma bswap32_value v :
  is_u32 v →
  net_bswap32 v = 2 ^ 24 * (v mod 256) + 2 ^ 16 * (v / 2 ^ 8 mod 256) + 2 ^ 8 * (v / 2 ^ 16 mod 256) + v / 2 ^ 24.
Proof.
  intros Hv. unfold net_bswap32.
  change 0x000000FF with (Z.shiftl 0xFF 0). change 0x0000FF00 with (Z.shiftl 0xFF 8).
  change 0x00FF0000 with (Z.shiftl 0xFF 16). change 0xFF000000 with (Z.shiftl 0xFF 24).
  rewrite !land_byte by lia. change (2 ^ 0) with 1. rewrite Z.div_1_r, Z.mul_1_r.
  rewrite (Z.shiftl_mul_pow2 _ 8), Z.shiftr_div_pow2, Z.shiftr_div_pow2 by lia.
  replace (v / 2 ^ 8 mod 256 * 2 ^ 8 * 2 ^ 8) with (Z.shiftl (v / 2 ^ 8 mod 256) 16) by (rewrite Z.shiftl_mul_pow2; lia).
  replace (v / 2 ^ 16 mod 256 * 2 ^ 16 / 2 ^ 8) with (Z.shiftl (v / 2 ^ 16 mod 256) 8)
    by (rewrite Z.shiftl_mul_pow2 by lia; clear; zlia).
  rewrite Z.div_mul by lia.
  assert (∀ x, 0 ≤ x mod 256 < 256) as Hm by (intros; apply Z.mod_pos_bound; lia).
  pose proof (Hm v). pose proof (Hm (v / 2 ^ 8)). pose proof (Hm (v / 2 ^ 16)). pose proof (Hm (v / 2 ^ 24)).
  assert (v / 2 ^ 24 mod 256 = v / 2 ^ 24) as E4 by (unfold is_u32 in Hv; zlia). rewrite E4 in *.
  rewrite !u32_small by (rewrite Z.shiftl_mul_pow2 by lia; lia).
  rewrite <-!Z.lor_assoc. rewrite (lor_shift_add _ (v / 2 ^ 24) 8), (lor_shift_add _ _ 16), (lor_shift_add _ _ 24) by lia.
  lia.
Qed.

Lemma bswap16_range v : is_u16 (net_bswap16 v).
Proof. apply u16_range. Qed.

Lemma bswap16_zero v : is_u16 v → net_bswap16 v = 0 ↔ v = 0.
Proof. intros Hv. rewrite bswap16_value by done. zlia. Qed.

(** A 32-bit value by its bytes. *)
Definition bytes32 (a b c d : Z) : Z := a + 2 ^ 8 * b + 2 ^ 16 * c + 2 ^ 24 * d.

Lemma bytes32_digits a b c d :
  is_u8 a → is_u8 b → is_u8 c → is_u8 d →
  let v := bytes32 a b c d in
  is_u32 v ∧ v mod 256 = a ∧ v / 2 ^ 8 mod 256 = b ∧ v / 2 ^ 16 mod 256 = c ∧ v / 2 ^ 24 = d.
Proof. unfold bytes32. intros Ha Hb Hc Hd. cbv zeta. unfold_ints. split_and!; zlia. Qed.

Lemma bytes32_of v : is_u32 v → ∃ a b c d, v = bytes32 a b c d ∧ is_u8 a ∧ is_u8 b ∧ is_u8 c ∧ is_u8 d.
Proof.
  intros Hv. exists (v mod 256), (v / 2 ^ 8 mod 256), (v / 2 ^ 16 mod 256), (v / 2 ^ 24).
  unfold bytes32. split_and!; zlia.
Qed.

Lemma bswap32_bytes a b c d :
  is_u8 a → is_u8 b → is_u8 c → is_u8 d → net_bswap32 (bytes32 a b c d) = bytes32 d c b a.
Proof.
  intros Ha Hb Hc Hd. destruct (bytes32_digits a b c d Ha Hb Hc Hd) as (Hu & E1 & E2 & E3 & E4).
  rewrite bswap32_value by done. rewrite E1, E2, E3, E4. unfold bytes32. lia.
Qed.

Lemma bswap32_involutive v : is_u32 v → net_bswap32 (net_bswap32 v) = v ∧ is_u32 (net_bswap32 v).
Proof.
  intros Hv. destruct (bytes32_of v Hv) as (a & b & c & d & -> & Ha & Hb & Hc & Hd).
  rewrite !bswap32_bytes by done. split; [done|]. by apply bytes32_digits.
Qed.

Lemma le32_bytes a b c d :
  is_u8 a → is_u8 b → is_u8 c → is_u8 d → le32 (bytes32 a b c d) = [a; b; c; d].
Proof.
  intros Ha Hb Hc Hd. destruct (bytes32_digits a b c d Ha Hb Hc Hd) as (Hu & E1 & E2 & E3 & E4).
  unfold le32, u8. rewrite !Z.shiftr_div_pow2 by lia. change (2 ^ 8) with 256 in *. rewrite E1, E2, E3, E4.
  rewrite (Z.mod_small d) by done. done.
Qed.

Lemma bytes_le32 v : bytes (le32 v).
Proof. repeat constructor; apply u8_range. Qed.

(** *** Arrays with a known part in the middle *)

Lemma aset_mid {A} (pre hdr post : list A) i v :
  0 ≤ i < zlen hdr → aset (pre ++ hdr ++ post) (zlen pre + i) v = Ret (pre ++ <[Z.to_nat i := v]> hdr ++ post).
Proof.
  intros Hi. pose proof (zlen_nonneg pre). pose proof (zlen_nonneg post).
  rewrite aset_in by (rewrite !zlen_app; lia). f_equal.
  unfold zlen in *. rewrite insert_app_r_alt by lia. replace (Z.to_nat (Z.of_nat (length pre) + i) - length pre)%nat with (Z.to_nat i) by lia.
  rewrite insert_app_l by lia. done.
Qed.

Lemma aget_mid {A} (pre hdr post : list A) i x :
  0 ≤ i → hdr !! Z.to_nat i = Some x → aget (pre ++ hdr ++ post) (zlen pre + i) = Ret x.
Proof.
  intros Hi Hx. pose proof (zlen_nonneg pre). apply aget_Some; [lia|].
  pose proof (lookup_lt_Some _ _ _ Hx). unfold zlen in *.
  rewrite lookup_app_r by lia. replace (Z.to_nat (Z.of_nat (length pre) + i) - length pre)%nat with (Z.to_nat i) by lia.
  by rewrite lookup_app_l.
Qed.

(** *** The checksum *)

Lemma wsum_app l1 l2 : Nat.Even (length l1) → wsum (l1 ++ l2) = wsum l1 + wsum l2.
Proof.
  intros [n Hn]. revert l1 Hn. induction n as [|n IH]; intros l1 Hn.
  - destruct l1; [done|cbn in Hn; lia].
  - destruct l1 as [|a [|b l1]]; cbn in Hn; try lia. cbn [app wsum]. rewrite IH by lia. lia.
Qed.

Lemma wsum_range l : bytes l → 0 ≤ wsum l ≤ 65535 * ((zlen l + 1) / 2).
Proof.
  remember (length l) as n eqn:Hn. revert l Hn. induction n as [n IH] using lt_wf_ind. intros l -> Hb.
  destruct l as [|a [|b l]]; cbn [wsum].
  - by change (zlen (@nil Z)) with 0.
  - change (zlen [a]) with 1. change ((1 + 1) / 2) with 1. apply Forall_cons in Hb as [Ha _]. unfold is_u8 in Ha. lia.
  - apply Forall_cons in Hb as [Ha Hb]. apply Forall_cons in Hb as [Hb Hl]. unfold is_u8 in Ha, Hb.
    specialize (IH (length l) ltac:(cbn; lia) l eq_refl Hl). zlen_simpl.
    replace (1 + (1 + zlen l) + 1) with (zlen l + 1 + 1 * 2) by lia. rewrite Z.div_add by lia. lia.
Qed.

Lemma csum_loop_spec l : ∀ fuel pre post sum,
  bytes l → (length l ≤ 2 * fuel + 1)%nat → 0 ≤ sum → sum + 65535 * ((zlen l + 1) / 2) < 2 ^ 32 →
  csum_loop fuel (pre ++ l ++ post) (zlen pre) (zlen l) sum = Ret (sum + wsum l).
Proof.
  remember (length l) as n eqn:Hn. revert l Hn. induction n as [n IH] using lt_wf_ind.
  intros l -> fuel pre post sum Hb Hf Hs Hov. destruct l as [|a [|b l]].
  - destruct fuel; cbn; by rewrite Z.add_0_r.
  - apply Forall_cons in Hb as [Ha _]. unfold is_u8 in Ha. change ((zlen [a] + 1) / 2) with 1 in Hov.
    assert (aget (pre ++ [a] ++ post) (zlen pre) = Ret a) as E.
    { rewrite <-(Z.add_0_r (zlen pre)). by apply aget_mid. }
    destruct fuel; cbn [csum_loop]; change (zlen [a]) with 1; cbn [Z.ltb Z.eqb]; rewrite E; cbn [mbind outcome_bind wsum];
      rewrite Z.shiftl_mul_pow2, u32_small by lia; f_equal; lia.
  - apply Forall_cons in Hb as [Ha Hb]. apply Forall_cons in Hb as [Hb Hl].
    destruct fuel as [|fuel]; [cbn in Hf; lia|]. zlen_simpl.
    replace (1 + (1 + zlen l) + 1) with (zlen l + 1 + 1 * 2) in Hov by lia. rewrite Z.div_add in Hov by lia.
    assert (aget (pre ++ (a :: b :: l) ++ post) (zlen pre) = Ret a) as E0.
    { rewrite <-(Z.add_0_r (zlen pre)). by apply aget_mid. }
    assert (aget (pre ++ (a :: b :: l) ++ post) (zlen pre + 1) = Ret b) as E1 by by apply aget_mid.
    cbn [csum_loop]. pose proof (zlen_nonneg l). rewrite (proj2 (Z.ltb_lt 1 _)) by lia.
    rewrite E0. cbn [mbind outcome_bind]. rewrite E1. cbn [mbind outcome_bind].
    rewrite be16_value by done. pose proof (Z.div_pos (zlen l + 1) 2 ltac:(lia) ltac:(lia)). unfold is_u8 in Ha, Hb.
    rewrite u32_small by lia. replace (1 + (1 + zlen l) - 2) with (zlen l) by lia.
    replace (pre ++ (a :: b :: l) ++ post) with ((pre ++ [a; b]) ++ l ++ post) by by rewrite <-(assoc_L (++)).
    replace (zlen pre + 2) with (zlen (pre ++ [a; b])) by (zlen_simpl; change (zlen (@nil Z)) with 0; lia).
    rewrite (IH (length l)); [cbn [wsum]; f_equal; lia|cbn; lia|done|done|cbn in Hf; lia|lia|lia].
Qed.

Lemma ones_unique r s :
  0 ≤ s → 0 ≤ r ≤ 65535 → (r = 0 ↔ s = 0) → r mod 65535 = s mod 65535 → r = ones s.
Proof.
  intros Hs Hr H0 Hm. unfold ones. destruct (Z.eqb_spec s 0) as [->|Hs0]; [tauto|].
  assert (r ≠ 0) by tauto. zlia.
Qed.

Lemma ones_range s : 0 ≤ s → 0 ≤ ones s ≤ 65535 ∧ ones s mod 65535 = s mod 65535 ∧ (ones s = 0 ↔ s = 0).
Proof. intros Hs. unfold ones. destruct (Z.eqb_spec s 0) as [->|]; [done|]. zlia. Qed.

Lemma fold_step s :
  0 ≤ s < 2 ^ 32 → u32 (Z.land s 0xFFFF + s / 65536) = s mod 65536 + s / 65536.
Proof.
  intros Hs. change 0xFFFF with (2 ^ 16 - 1). rewrite land_ones_mod by lia.
  change (2 ^ 16) with 65536. apply u32_small. zlia.
Qed.

Lemma fold_loop_spec s : 0 ≤ s < 2 ^ 32 → fold_loop 2 s = Ret (ones s).
Proof.
  intros Hs. cbn [fold_loop]. rewrite !Z.shiftr_div_pow2 by lia. change (2 ^ 16) with 65536.
  destruct (Z.eqb_spec (s / 65536) 0) as [E0|E0].
  { f_equal. apply ones_unique; [lia|zlia|done|done]. }
  assert (s ≠ 0) by (intros ->; done).
  rewrite fold_step by done. set (s1 := s mod 65536 + s / 65536).
  assert (0 < s1 ≤ 131070 ∧ s1 mod 65535 = s mod 65535) as [H1 M1] by (unfold s1; zlia).
  destruct (Z.eqb_spec (s1 / 65536) 0) as [E1|E1].
  { f_equal. apply ones_unique; [lia|zlia|lia|done]. }
  rewrite fold_step by lia. set (s2 := s1 mod 65536 + s1 / 65536).
  assert (0 < s2 ≤ 65535 ∧ s2 mod 65535 = s1 mod 65535) as [H2 M2] by (unfold s2; zlia).
  rewrite (proj2 (Z.eqb_eq _ 0)) by zlia. f_equal. apply ones_unique; [lia|lia|lia|congruence].
Qed.

Lemma net_csum_fold_spec s : 0 ≤ s < 2 ^ 32 → net_csum_fold s = Ret (net_bswap16 (65535 - ones s)).
Proof.
  intros Hs. unfold net_csum_fold. rewrite fold_loop_spec by done. cbn [mbind outcome_bind]. unfold net_htons.
  do 2 f_equal. destruct (ones_range s ltac:(lia)) as [Hr _]. unfold not32, u16, Z.lnot. zlia.
Qed.

Lemma net_checksum_spec pre l post :
  bytes l → zlen l ≤ 65536 →
  net_checksum (pre ++ l ++ post) (zlen pre) (zlen l) = Ret (net_bswap16 (65535 - ones (wsum l))).
Proof.
  intros Hb Hl. unfold net_checksum, net_csum_partial. pose proof (zlen_nonneg l). pose proof (wsum_range l Hb).
  assert ((zlen l + 1) / 2 ≤ 32768) by zlia.
  rewrite csum_loop_spec; [|done|unfold zlen; lia|lia|lia]. cbn [mbind outcome_bind].
  rewrite Z.add_0_l. apply net_csum_fold_spec. lia.
Qed.

Lemma pseudo_range src dst proto len :
  is_u8 proto → is_u16 len → 0 ≤ pseudo src dst proto len ≤ 4 * 65535 + 65535 + 255.
Proof.
  intros Hp Hl. pose proof (wsum_range _ (bytes_le32 src)) as H1. pose proof (wsum_range _ (bytes_le32 dst)) as H2.
  change (65535 * ((zlen (le32 src) + 1) / 2)) with 131070 in H1. change (65535 * ((zlen (le32 dst) + 1) / 2)) with 131070 in H2.
  unfold pseudo. unfold is_u8, is_u16 in *. lia.
Qed.

Lemma net_transport_checksum_spec src dst proto pre l post :
  is_u8 proto → bytes l → is_u16 (zlen l) →
  net_transport_checksum src dst proto (pre ++ l ++ post) (zlen pre) (zlen l) =
    Ret (net_bswap16 (65535 - ones (pseudo src dst proto (zlen l) + wsum l))).
Proof.
  intros Hp Hb Hl. unfold net_transport_checksum, net_pseudo_header_sum, net_csum_partial.
  pose proof (wsum_range _ (bytes_le32 src)) as H1. pose proof (wsum_range _ (bytes_le32 dst)) as H2.
  change (65535 * ((zlen (le32 src) + 1) / 2)) with 131070 in H1. change (65535 * ((zlen (le32 dst) + 1) / 2)) with 131070 in H2.
  pose proof (csum_loop_spec (le32 src) 4 [] [] 0 (bytes_le32 src) ltac:(cbn; lia) ltac:(lia) ltac:(by vm_compute)) as E1.
  pose proof (λ s H, csum_loop_spec (le32 dst) 4 [] [] s (bytes_le32 dst) ltac:(cbn; lia) H) as E2.
  rewrite !app_nil_r in *. change (zlen (le32 src)) with 4 in E1. change (zlen (le32 dst)) with 4 in E2.
  cbn [app] in E1, E2. change (zlen (@nil Z)) with 0 in *. change (Z.to_nat 4) with 4%nat. rewrite E1. cbn [mbind outcome_bind].
  change ((4 + 1) / 2) with 2 in E2.
  rewrite E2 by lia. cbn [mbind outcome_bind]. pose proof (wsum_range l Hb). pose proof (zlen_nonneg l). unfold is_u8, is_u16 in *.
  assert ((zlen l + 1) / 2 ≤ 32768) by zlia.
  rewrite (u32_small (_ + proto)), u32_small by lia.
  rewrite csum_loop_spec; [|done|unfold zlen in *; lia|lia|lia]. cbn [mbind outcome_bind].
  rewrite net_csum_fold_spec by lia. unfold pseudo. do 4 f_equal; lia.
Qed.

(** The value stored in the checksum field for the sum [s] of the rest. *)
Definition csum_field (s : Z) : list Z := le16 (net_bswap16 (65535 - ones s)).

Lemma le16_bswap v : is_u16 v → le16 (net_bswap16 v) = [v / 256; v mod 256].
Proof.
  intros Hv. unfold le16. rewrite bswap16_value by done. rewrite Z.shiftr_div_pow2 by lia.
  change (2 ^ 8) with 256. unfold u8. change (2 ^ 8) with 256.
  f_equal; [zlia|]. f_equal. zlia.
Qed.

Lemma csum_field_spec s :
  0 ≤ s → csum_field s = [(65535 - ones s) / 256; (65535 - ones s) mod 256] ∧ bytes (csum_field s) ∧
  wsum (csum_field s) = 65535 - ones s.
Proof.
  intros Hs. destruct (ones_range s Hs) as [Hr _]. unfold csum_field. rewrite le16_bswap by (unfold is_u16; lia).
  split; [done|]. split; [repeat constructor; zlia|]. cbn [wsum]. zlia.
Qed.

(** A sum that includes its checksum verifies. *)
Lemma csum_verifies s : 0 ≤ s → net_bswap16 (65535 - ones (s + (65535 - ones s))) = 0.
Proof.
  intros Hs. destruct (ones_range s Hs) as (Hr & Hm & H0).
  rewrite <-(ones_unique 65535 (s + (65535 - ones s))); [done|lia|lia| |].
  - split; [done|]. intros E. assert (s = 0) as E0 by lia. apply H0 in E0. lia.
  - clear -Hm Hr. zlia.
Qed.

Lemma wsum_field a x y b :
  Nat.Even (length a) → wsum (a ++ [x; y] ++ b) = wsum (a ++ [0; 0] ++ b) + wsum [x; y].
Proof. intros Ha. rewrite (wsum_app a ([x; y] ++ b)), (wsum_app a ([0; 0] ++ b)) by done. cbn [app wsum]. lia. Qed.

(** A message that carries its checksum sums to zero, with [t] what else is summed. *)
Lemma csum_message a b t :
  Nat.Even (length a) → bytes a → bytes b → 0 ≤ t →
  net_bswap16 (65535 - ones (t + wsum (a ++ csum_field (t + wsum (a ++ [0; 0] ++ b)) ++ b))) = 0.
Proof.
  intros He Ha Hb Ht. assert (0 ≤ wsum (a ++ [0; 0] ++ b)) as Hw.
  { apply wsum_range. apply bytes_app. split; [done|]. apply bytes_app. split; [|done]. repeat constructor; done. }
  destruct (csum_field_spec (t + wsum (a ++ [0; 0] ++ b)) ltac:(lia)) as (E & _ & Es).
  rewrite E in *. rewrite wsum_field, Es, Z.add_assoc by done. apply csum_verifies. lia.
Qed.

Lemma csum_zero_iff s : 0 ≤ s → net_bswap16 (65535 - ones s) = 0 ↔ 0 < s ∧ s mod 65535 = 0.
Proof.
  intros Hs. destruct (ones_range s Hs) as (Hr & Hm & H0). rewrite bswap16_zero by (unfold is_u16; lia). zlia.
Qed.

Lemma wsum_insert l i y x :
  l !! i = Some y → wsum (<[i := x]> l) = wsum l + (x - y) * (if Nat.even i then 256 else 1).
Proof.
  revert i. remember (length l) as n eqn:Hn. revert l Hn. induction n as [n IH] using lt_wf_ind. intros l -> i Hy.
  destruct l as [|a [|b l]]; [done| |].
  - destruct i; [injection Hy as ->; cbn; lia|done].
  - destruct i as [|[|i]].
    + injection Hy as ->. cbn. lia.
    + injection Hy as ->. cbn. lia.
    + cbn in Hy. change (<[S (S i) := x]> (a :: b :: l)) with (a :: b :: <[i := x]> l).
      change (Nat.even (S (S i))) with (Nat.even i).
      cbn [wsum]. rewrite (IH (length l)) by (done || cbn; lia). lia.
Qed.

(** ** Theorems *)

(** The internet checksum: storing [net_checksum] of a packet whose (aligned)
    checksum field is zero makes the packet verify, and the verification fails on
    every packet that differs from it in exactly one byte. *)
Theorem net_checksum_detects pre l1 l2 post :
  bytes (l1 ++ l2) → Nat.Even (length l1) → zlen l1 + zlen l2 + 2 ≤ 65535 →
  let len := zlen l1 + zlen l2 + 2 in
  ∃ c, net_checksum (pre ++ (l1 ++ [0; 0] ++ l2) ++ post) (zlen pre) len = Ret c ∧
    let l := l1 ++ le16 c ++ l2 in
    net_checksum (pre ++ l ++ post) (zlen pre) len = Ret 0 ∧
    ∀ i y x, l !! i = Some y → is_u8 x → x ≠ y →
      ∃ c', net_checksum (pre ++ <[i := x]> l ++ post) (zlen pre) len = Ret c' ∧ c' ≠ 0.
Proof.
  intros Hb Hev Hlen len. apply bytes_app in Hb as [Hb1 Hb2].
  assert (∀ f : list Z, length f = 2%nat → zlen (l1 ++ f ++ l2) = len) as Hz.
  { intros f Hf. unfold zlen, len, zlen. rewrite !length_app, Hf. lia. }
  assert (∀ f, wsum f = wsum f → length f = 2%nat → wsum (l1 ++ f ++ l2) = wsum l1 + wsum l2 + wsum f) as Hw.
  { intros f _ Hf. rewrite (wsum_app l1) by done. rewrite (wsum_app f) by (exists 1%nat; lia). lia. }
  set (s := wsum l1 + wsum l2). pose proof (wsum_range l1 Hb1). pose proof (wsum_range l2 Hb2).
  assert (0 ≤ s) as Hs by (unfold s; lia).
  destruct (csum_field_spec s Hs) as (Ef & Hbf & Hwf).
  exists (net_bswap16 (65535 - ones s)). fold (csum_field s).
  assert (bytes (l1 ++ csum_field s ++ l2)) as Hbl by by rewrite !bytes_app.
  assert (wsum (l1 ++ csum_field s ++ l2) = s + (65535 - ones s)) as Hwl by (rewrite Hw by done; rewrite Hwf; done).
  split; [|split].
  - rewrite <-(Hz [0; 0]) by done. rewrite net_checksum_spec; [|rewrite !bytes_app; split; [done|]; split; [by repeat constructor|done]|rewrite Hz by done; lia].
    rewrite Hw by done. do 4 f_equal. cbn. unfold s. lia.
  - rewrite <-(Hz (csum_field s)) by done. rewrite net_checksum_spec; [|done|rewrite Hz by done; lia].
    rewrite Hwl. f_equal. by apply csum_verifies.
  - intros i y x Hy Hx Hne. assert (is_u8 y) as Hyb by (by apply (Forall_lookup_1 _ _ _ _ Hbl Hy)).
    assert (bytes (<[i := x]> (l1 ++ csum_field s ++ l2))) as Hbi by (by apply Forall_insert).
    assert (zlen (<[i := x]> (l1 ++ csum_field s ++ l2)) = len) as Hzi by (rewrite zlen_insert; by apply Hz).
    eexists. split; [rewrite <-Hzi; apply net_checksum_spec; [done|lia]|].
    rewrite (wsum_insert _ _ y) by done. rewrite Hwl.
    destruct (ones_range s Hs) as (Hr & Hm & Hs0).
    pose proof (wsum_range _ Hbi) as [Hnn _]. rewrite (wsum_insert _ _ y) in Hnn by done. rewrite Hwl in Hnn.
    rewrite csum_zero_iff by done. intros [_ Hz0]. unfold is_u8 in Hx, Hyb.
    clear -Hz0 Hm Hr Hx Hyb Hne. destruct (Nat.even i); zlia.
Qed.

Lemma net_checksum_detects_witness :
  ∃ c, net_checksum ([7] ++ ([0x45; 0; 0; 0x54] ++ [0; 0] ++ [10; 0; 2; 15; 1]) ++ []) 1 11 = Ret c ∧
       net_checksum ([7] ++ ([0x45; 0; 0; 0x54] ++ le16 c ++ [10; 0; 2; 15; 1]) ++ []) 1 11 = Ret 0.
Proof.
  destruct (net_checksum_detects [7] [0x45; 0; 0; 0x54] [10; 0; 2; 15; 1] []) as (c & E & H & _).
  - repeat constructor; lia.
  - exists 2%nat. reflexivity.
  - vm_compute. discriminate.
  - exists c. split; [exact E|exact H].
Defined.
