(* ===== verification/Netbuf.v ===== *)
(** Packet buffers and Ethernet framing: [kernel/net/netbuf.c] and
    [kernel/net/ethernet.c]. A buffer is a list of bytes with offsets for its
    [data] and [tail] pointers ([head] is 0 and [end] the length). The memory
    allocator behind the buffers is an interface, [Kmem]: what a fresh block
    holds is not specified. *)

From S2P Require Import Prelude CString NetBase.

(** ** Definitions *)

(** [kmem_alloc(n)]: the contents of a fresh block. *)
Class Kmem := kmem_bytes : Z → list Z.
Class KmemOk {K : Kmem} : Prop :=
  kmem_ok n : 0 ≤ n → zlen (kmem_bytes n) = n ∧ bytes (kmem_bytes n).

(** The memory for buffers: [live] buffers are in use and [room] of them fit. [kmem_alloc] fails when there are [room] buffers,
    whatever their sizes; [room] is arbitrary, and a buffer counts with both of its blocks. [netbuf_free] takes a buffer, which is
    not NULL at any call, and gives its two blocks back. *)
Record pool := mk_pool { live : Z; room : Z }.

Definition NETBUF_DEFAULT_HEADROOM : Z := 64.

Record netbuf := mk_nb {
  nb_buf : list Z;
  nb_data : Z;
  nb_tail : Z;
  nb_eth : option Z;
  nb_net : option Z;
  nb_xport : option Z;
  nb_netif : option nat
}.

Definition nb_end (nb : netbuf) : Z := zlen (nb_buf nb).

Definition with_ptrs (nb : netbuf) (data tail : Z) : netbuf :=
  mk_nb (nb_buf nb) data tail (nb_eth nb) (nb_net nb) (nb_xport nb) (nb_netif nb).
Definition with_buf (nb : netbuf) (b : list Z) : netbuf :=
  mk_nb b (nb_data nb) (nb_tail nb) (nb_eth nb) (nb_net nb) (nb_xport nb) (nb_netif nb).
Definition with_eth (nb : netbuf) (p : Z) : netbuf :=
  mk_nb (nb_buf nb) (nb_data nb) (nb_tail nb) (Some p) (nb_net nb) (nb_xport nb) (nb_netif nb).
Definition with_net (nb : netbuf) (p : Z) : netbuf :=
  mk_nb (nb_buf nb) (nb_data nb) (nb_tail nb) (nb_eth nb) (Some p) (nb_xport nb) (nb_netif nb).
Definition with_netif (nb : netbuf) (i : nat) : netbuf :=
  mk_nb (nb_buf nb) (nb_data nb) (nb_tail nb) (nb_eth nb) (nb_net nb) (nb_xport nb) (Some i).

Definition netbuf_len (nb : netbuf) : Z := u64 (nb_tail nb - nb_data nb).
Definition netbuf_headroom (nb : netbuf) : Z := u64 (nb_data nb).
Definition netbuf_tailroom (nb : netbuf) : Z := u64 (nb_end nb - nb_tail nb).

Definition netbuf_alloc_headroom `{Kmem} (k : pool) (capacity headroom : Z) : pool * option netbuf :=
  let total := u64 (capacity + headroom) in
  let total := if total =? 0 then 1 else total in
  if live k <? room k then
    (mk_pool (live k + 1) (room k),
     Some (mk_nb (kmem_bytes total) headroom headroom None None None None))
  else (k, None).

Definition netbuf_alloc `{Kmem} (k : pool) (capacity : Z) : pool * option netbuf :=
  netbuf_alloc_headroom k capacity NETBUF_DEFAULT_HEADROOM.

Definition netbuf_free (k : pool) (nb : netbuf) : pool := mk_pool (live k - 1) (room k).

Definition netbuf_reserve (nb : netbuf) (len : Z) : netbuf * Z :=
  if negb (netbuf_len nb =? 0) then (nb, -1)
  else if u64 (nb_end nb - nb_data nb) <? len then (nb, -1)
  else (with_ptrs nb (nb_data nb + len) (nb_data nb + len), 0).

Definition netbuf_push (nb : netbuf) (len : Z) : netbuf * option Z :=
  if netbuf_headroom nb <? len then (nb, None)
  else (with_ptrs nb (nb_data nb - len) (nb_tail nb), Some (nb_data nb - len)).

Definition netbuf_pull (nb : netbuf) (len : Z) : netbuf * option Z :=
  if netbuf_len nb <? len then (nb, None)
  else (with_ptrs nb (nb_data nb + len) (nb_tail nb), Some (nb_data nb + len)).

Definition netbuf_put (nb : netbuf) (len : Z) : netbuf * option Z :=
  if netbuf_tailroom nb <? len then (nb, None)
  else (with_ptrs nb (nb_data nb) (nb_tail nb + len), Some (nb_tail nb)).

Definition netbuf_trim (nb : netbuf) (len : Z) : netbuf :=
  if len <? netbuf_len nb then with_ptrs nb (nb_data nb) (nb_data nb + len) else nb.

Definition netbuf_reset (nb : netbuf) (headroom : Z) : netbuf :=
  let headroom := if nb_end nb <? headroom then 0 else headroom in
  mk_nb (nb_buf nb) headroom headroom None None None (nb_netif nb).

(** [src] is the source object, from its start. *)
Definition netbuf_put_data (nb : netbuf) (src : list Z) (len : Z) : outcome (netbuf * option Z) :=
  let '(nb, dst) := netbuf_put nb len in
  match dst with
  | Some p =>
      if len =? 0 then Ret (nb, dst)
      else b ← memcpy_from (nb_buf nb) p src 0 len; Ret (with_buf nb b, dst)
  | None => Ret (nb, dst)
  end.

(** *** Ethernet *)

Definition ETH_ALEN : Z := 6.
Definition ETH_HLEN : Z := 14.
Definition ETH_P_IPV4 : Z := 0x0800.
Definition ETH_P_ARP : Z := 0x0806.

Definition eth_broadcast : list Z := [0xFF; 0xFF; 0xFF; 0xFF; 0xFF; 0xFF].
Definition eth_zero : list Z := [0; 0; 0; 0; 0; 0].

Definition mac_equal_body (a b : list Z) (i : Z) (_ : unit) : outcome (unit + unit) :=
  x ← aget a i;
  y ← aget b i;
  Ret (if negb (x =? y) then inr tt else inl tt).

Definition mac_equal (a b : list Z) : outcome bool :=
  r ← find_range 0 ETH_ALEN (mac_equal_body a b) tt;
  Ret (match r with inl _ => true | inr _ => false end).

Definition mac_is_broadcast (m : list Z) : outcome bool := mac_equal m eth_broadcast.
Definition mac_is_multicast (m : list Z) : outcome bool :=
  x ← aget m 0; Ret (negb (Z.land x 0x01 =? 0)).
Definition mac_is_zero (m : list Z) : outcome bool := mac_equal m eth_zero.

Definition mac_copy (dst src : list Z) : outcome (list Z) := memcpy_from dst 0 src 0 ETH_ALEN.
Definition mac_make (a b c d e f : Z) : list Z := [a; b; c; d; e; f].

(** The header's fields: [dst] at 0, [src] at 6, [ethertype] at 12. *)
Definition eth_build (nb : netbuf) (dst src : list Z) (ethertype : Z) : outcome (netbuf * Z) :=
  let '(nb, p) := netbuf_push nb ETH_HLEN in
  match p with
  | None => Ret (nb, -1)
  | Some p =>
      b ← memcpy_from (nb_buf nb) p dst 0 ETH_ALEN;
      b ← memcpy_from b (p + 6) src 0 ETH_ALEN;
      b ← net_put_be16 b (p + 12) ethertype;
      Ret (with_eth (with_buf nb b) p, 0)
  end.

(** The outputs, or [None] for -1. *)
Definition eth_parse (nb : netbuf) : outcome (netbuf * option (list Z * list Z * Z)) :=
  if netbuf_len nb <? ETH_HLEN then Ret (nb, None)
  else
    let eh := nb_data nb in
    let nb := with_eth nb eh in
    dst ← memcpy_from eth_zero 0 (nb_buf nb) eh ETH_ALEN;
    src ← memcpy_from eth_zero 0 (nb_buf nb) (eh + 6) ETH_ALEN;
    ethertype ← net_get_be16 (nb_buf nb) (eh + 12);
    let nb := (netbuf_pull nb ETH_HLEN).1 in
    Ret (nb, Some (dst, src, ethertype)).

(** ** Specification *)

(** The buffer holds [c], with [pre] before it and [post] after it. *)
Definition holds (nb : netbuf) (pre c post : list Z) : Prop :=
  nb_buf nb = pre ++ c ++ post ∧ nb_data nb = zlen pre ∧ nb_tail nb = zlen pre + zlen c ∧
  zlen (nb_buf nb) < 2 ^ 63.

Definition mac (m : list Z) : Prop := length m = 6%nat ∧ bytes m.

Definition be16 (v : Z) : list Z := [u8 (Z.shiftr v 8); u8 v].
Definition be32 (v : Z) : list Z := [u8 (Z.shiftr v 24); u8 (Z.shiftr v 16); u8 (Z.shiftr v 8); u8 v].

Definition eth_header (dst src : list Z) (ethertype : Z) : list Z := dst ++ src ++ be16 ethertype.

(** ** Lemmas *)

(** *** Writing and reading a header in the middle of a buffer *)

Lemma zsplice_app {A} (a b c x : list A) i :
  0 ≤ i → i + zlen x ≤ zlen b → zsplice (a ++ b ++ c) (zlen a + i) x = a ++ zsplice b i x ++ c.
Proof.
  intros Hi Hx. unfold zsplice, zlen in *. pose proof (zlen_nonneg x).
  replace (Z.to_nat (Z.of_nat (length a) + i)) with (length a + Z.to_nat i)%nat by lia.
  rewrite take_app_add. rewrite <-!(assoc_L (++)). f_equal. rewrite take_app_le by lia. f_equal. f_equal.
  rewrite drop_app_ge by lia. rewrite drop_app_le by lia. f_equal. f_equal. lia.
Qed.

Lemma zslice_take {A} (l : list A) n : zslice l 0 n = take (Z.to_nat n) l.
Proof. done. Qed.

Lemma memcpy_mid pre hdr post src soff i n :
  0 ≤ i → 0 ≤ n → i + n ≤ zlen hdr → 0 ≤ soff → soff + n ≤ zlen src →
  memcpy_from (pre ++ hdr ++ post) (zlen pre + i) src soff n =
    Ret (pre ++ zsplice hdr i (zslice src soff n) ++ post).
Proof.
  intros Hi Hn Hh Hs Hsl. pose proof (zlen_nonneg pre). pose proof (zlen_nonneg post).
  rewrite memcpy_from_spec by (rewrite ?zlen_app; lia).
  f_equal. apply zsplice_app; [done|]. rewrite zlen_zslice; lia.
Qed.

Lemma memcpy_mid0 pre hdr post src soff n :
  0 ≤ n → n ≤ zlen hdr → 0 ≤ soff → soff + n ≤ zlen src →
  memcpy_from (pre ++ hdr ++ post) (zlen pre) src soff n = Ret (pre ++ zsplice hdr 0 (zslice src soff n) ++ post).
Proof. intros. rewrite <-(Z.add_0_r (zlen pre)). by apply memcpy_mid. Qed.

Lemma aset_mid0 {A} (pre hdr post : list A) v :
  0 < zlen hdr → aset (pre ++ hdr ++ post) (zlen pre) v = Ret (pre ++ <[O := v]> hdr ++ post).
Proof. intros. rewrite <-(Z.add_0_r (zlen pre)). by rewrite aset_mid. Qed.

Lemma put_be16_mid pre hdr post i v :
  0 ≤ i → i + 1 < zlen hdr →
  net_put_be16 (pre ++ hdr ++ post) (zlen pre + i) v =
    Ret (pre ++ <[Z.to_nat (i + 1) := u8 v]> (<[Z.to_nat i := u8 (Z.shiftr v 8)]> hdr) ++ post).
Proof.
  intros Hi Hl. unfold net_put_be16. rewrite aset_mid by lia. cbn [mbind outcome_bind].
  rewrite <-Z.add_assoc, aset_mid by (rewrite zlen_insert; lia). done.
Qed.

Lemma put_be16_mid0 pre hdr post v :
  1 < zlen hdr →
  net_put_be16 (pre ++ hdr ++ post) (zlen pre) v =
    Ret (pre ++ <[1%nat := u8 v]> (<[O := u8 (Z.shiftr v 8)]> hdr) ++ post).
Proof. intros. rewrite <-(Z.add_0_r (zlen pre)). by rewrite put_be16_mid. Qed.

Lemma put_be32_mid pre hdr post i v :
  0 ≤ i → i + 3 < zlen hdr →
  net_put_be32 (pre ++ hdr ++ post) (zlen pre + i) v =
    Ret (pre ++ <[Z.to_nat (i + 3) := u8 v]> (<[Z.to_nat (i + 2) := u8 (Z.shiftr v 8)]>
           (<[Z.to_nat (i + 1) := u8 (Z.shiftr v 16)]> (<[Z.to_nat i := u8 (Z.shiftr v 24)]> hdr))) ++ post).
Proof.
  intros Hi Hl. unfold net_put_be32. rewrite aset_mid by lia. cbn [mbind outcome_bind].
  rewrite <-!Z.add_assoc. do 3 (rewrite aset_mid by (rewrite ?zlen_insert; lia); cbn [mbind outcome_bind]). done.
Qed.

Lemma put_u16_mid pre hdr post i v :
  0 ≤ i → i + 1 < zlen hdr →
  put_u16 (pre ++ hdr ++ post) (zlen pre + i) v =
    Ret (pre ++ <[Z.to_nat (i + 1) := u8 (Z.shiftr v 8)]> (<[Z.to_nat i := u8 v]> hdr) ++ post).
Proof.
  intros Hi Hl. unfold put_u16. rewrite aset_mid by lia. cbn [mbind outcome_bind].
  rewrite <-Z.add_assoc, aset_mid by (rewrite zlen_insert; lia). done.
Qed.

Lemma put_u32_mid pre hdr post i v :
  0 ≤ i → i + 3 < zlen hdr →
  put_u32 (pre ++ hdr ++ post) (zlen pre + i) v =
    Ret (pre ++ <[Z.to_nat (i + 3) := u8 (Z.shiftr v 24)]> (<[Z.to_nat (i + 2) := u8 (Z.shiftr v 16)]>
           (<[Z.to_nat (i + 1) := u8 (Z.shiftr v 8)]> (<[Z.to_nat i := u8 v]> hdr))) ++ post).
Proof.
  intros Hi Hl. unfold put_u32. rewrite aset_mid by lia. cbn [mbind outcome_bind].
  rewrite <-!Z.add_assoc. do 3 (rewrite aset_mid by (rewrite ?zlen_insert; lia); cbn [mbind outcome_bind]). done.
Qed.

Lemma be16_join v : is_u16 v → u16 (Z.lor (Z.shiftl (u8 (Z.shiftr v 8)) 8) (u8 v)) = v.
Proof.
  intros Hv. rewrite be16_value by apply u8_range. rewrite Z.shiftr_div_pow2 by lia. unfold is_u16 in Hv. zlia.
Qed.

Lemma get_be16_mid pre hdr post i v :
  0 ≤ i → is_u16 v → hdr !! Z.to_nat i = Some (u8 (Z.shiftr v 8)) → hdr !! Z.to_nat (i + 1) = Some (u8 v) →
  net_get_be16 (pre ++ hdr ++ post) (zlen pre + i) = Ret v.
Proof.
  intros Hi Hv H0 H1. unfold net_get_be16. rewrite (aget_mid _ _ _ _ _ Hi H0). cbn [mbind outcome_bind].
  rewrite <-Z.add_assoc, (aget_mid pre hdr post (i + 1) (u8 v)) by (done || lia). cbn [mbind outcome_bind].
  by rewrite be16_join.
Qed.

Lemma be32_join a b c d :
  is_u8 a → is_u8 b → is_u8 c → is_u8 d →
  Z.lor (Z.lor (Z.lor (u32 (Z.shiftl a 24)) (Z.shiftl b 16)) (Z.shiftl c 8)) d = bytes32 d c b a.
Proof.
  intros Ha Hb Hc Hd. unfold is_u8 in *. rewrite u32_small by (rewrite Z.shiftl_mul_pow2; lia). rewrite <-!Z.lor_assoc.
  rewrite (lor_shift_add c d 8), (lor_shift_add b _ 16), (lor_shift_add a _ 24) by lia. unfold bytes32. lia.
Qed.

Lemma be32_bytes v :
  is_u32 v → ∃ a b c d, is_u8 a ∧ is_u8 b ∧ is_u8 c ∧ is_u8 d ∧ v = bytes32 d c b a ∧ be32 v = [a; b; c; d].
Proof.
  intros Hv. destruct (bytes32_of v Hv) as (d & c & b & a & -> & Hd & Hc & Hb & Ha). exists a, b, c, d. split_and!; try done.
  pose proof (le32_bytes d c b a Hd Hc Hb Ha) as [= E1 E2 E3 E4]. unfold be32. by rewrite E1, E2, E3, E4.
Qed.

Lemma get_be32_mid pre hdr post i v :
  0 ≤ i → is_u32 v → hdr !! Z.to_nat i = Some (u8 (Z.shiftr v 24)) → hdr !! Z.to_nat (i + 1) = Some (u8 (Z.shiftr v 16)) →
  hdr !! Z.to_nat (i + 2) = Some (u8 (Z.shiftr v 8)) → hdr !! Z.to_nat (i + 3) = Some (u8 v) →
  net_get_be32 (pre ++ hdr ++ post) (zlen pre + i) = Ret v.
Proof.
  intros Hi Hv H0 H1 H2 H3. destruct (be32_bytes v Hv) as (a & b & c & d & Ha & Hb & Hc & Hd & E & E').
  injection E' as E1 E2 E3 E4. rewrite E1 in H0. rewrite E2 in H1. rewrite E3 in H2. rewrite E4 in H3.
  unfold net_get_be32. rewrite <-!Z.add_assoc. rewrite (aget_mid _ _ _ _ _ Hi H0). cbn [mbind outcome_bind].
  rewrite (aget_mid pre hdr post (i + 1) b) by (done || lia). cbn [mbind outcome_bind].
  rewrite (aget_mid pre hdr post (i + 2) c) by (done || lia). cbn [mbind outcome_bind].
  rewrite (aget_mid pre hdr post (i + 3) d) by (done || lia). cbn [mbind outcome_bind].
  rewrite be32_join by done. by rewrite E.
Qed.

Lemma get_u32_mid pre hdr post i v :
  0 ≤ i → is_u32 v → hdr !! Z.to_nat i = Some (u8 v) → hdr !! Z.to_nat (i + 1) = Some (u8 (Z.shiftr v 8)) →
  hdr !! Z.to_nat (i + 2) = Some (u8 (Z.shiftr v 16)) → hdr !! Z.to_nat (i + 3) = Some (u8 (Z.shiftr v 24)) →
  get_u32 (pre ++ hdr ++ post) (zlen pre + i) = Ret v.
Proof.
  intros Hi Hv H0 H1 H2 H3. destruct (be32_bytes v Hv) as (a & b & c & d & Ha & Hb & Hc & Hd & E & E').
  injection E' as E1 E2 E3 E4. rewrite E1 in H3. rewrite E2 in H2. rewrite E3 in H1. rewrite E4 in H0.
  unfold get_u32. rewrite <-!Z.add_assoc. rewrite (aget_mid _ _ _ _ _ Hi H0). cbn [mbind outcome_bind].
  rewrite (aget_mid pre hdr post (i + 1) c) by (done || lia). cbn [mbind outcome_bind].
  rewrite (aget_mid pre hdr post (i + 2) b) by (done || lia). cbn [mbind outcome_bind].
  rewrite (aget_mid pre hdr post (i + 3) a) by (done || lia). cbn [mbind outcome_bind].
  unfold is_u8 in *. f_equal.
  rewrite (lor_add_shift c d 8), (lor_add_shift b _ 16), (lor_add_shift a _ 24) by lia. rewrite E. unfold bytes32. lia.
Qed.

Lemma get_be16_mid0 pre hdr post v :
  is_u16 v → hdr !! O = Some (u8 (Z.shiftr v 8)) → hdr !! 1%nat = Some (u8 v) →
  net_get_be16 (pre ++ hdr ++ post) (zlen pre) = Ret v.
Proof. intros. rewrite <-(Z.add_0_r (zlen pre)). by apply get_be16_mid. Qed.

Lemma aget_mid0 {A} (pre hdr post : list A) x :
  hdr !! O = Some x → aget (pre ++ hdr ++ post) (zlen pre) = Ret x.
Proof. intros. rewrite <-(Z.add_0_r (zlen pre)). by apply aget_mid. Qed.

(** The same at the position behind a prefix. *)
Lemma aget_at {A} (pre post : list A) x i : i = zlen pre → aget (pre ++ x :: post) i = Ret x.
Proof. intros ->. by apply (aget_mid0 pre [x] post). Qed.

Lemma aset_at {A} (pre post : list A) x y i : i = zlen pre → aset (pre ++ x :: post) i y = Ret (pre ++ y :: post).
Proof. intros ->. apply (aset_mid0 pre [x] post). by vm_compute. Qed.

Lemma get_be16_at pre post v i : is_u16 v → i = zlen pre → net_get_be16 (pre ++ be16 v ++ post) i = Ret v.
Proof. intros Hv ->. by apply get_be16_mid0. Qed.

Lemma put_be16_at pre post x y v i :
  i = zlen pre → net_put_be16 (pre ++ x :: y :: post) i v = Ret (pre ++ be16 v ++ post).
Proof. intros ->. apply (put_be16_mid0 pre [x; y] post). by vm_compute. Qed.

Lemma get_u32_addr pre post a b c d i :
  bytes [a; b; c; d] → i = zlen pre → get_u32 (pre ++ [a; b; c; d] ++ post) i = Ret (ip_make a b c d).
Proof.
  intros Hb ->. unfold get_u32. rewrite (aget_mid0 pre [a; b; c; d] post a) by done. cbn [mbind outcome_bind].
  rewrite (aget_mid pre [a; b; c; d] post 1 b), (aget_mid pre [a; b; c; d] post 2 c), (aget_mid pre [a; b; c; d] post 3 d) by done.
  cbn [mbind outcome_bind]. unfold ip_make. do 4 apply Forall_cons in Hb as [? Hb].
  rewrite u32_small; [done|]. unfold is_u8 in *. rewrite Z.shiftl_mul_pow2 by lia. lia.
Qed.

(** The bytes of an explicit list. *)
Ltac bytes_of := repeat (apply Forall_cons_2; [first [assumption | apply u8_range | by vm_compute]|]); try apply Forall_nil_2.

(** Step through the writes of a header whose length is known, and through the
    reads of one whose fields are known. *)
Ltac write_hdr := repeat (first
  [ rewrite aset_mid0 by (by vm_compute) | rewrite aset_mid by (by vm_compute)
  | rewrite memcpy_mid0 by (by vm_compute) | rewrite memcpy_mid by (by vm_compute)
  | rewrite put_be16_mid0 by (by vm_compute) | rewrite put_be16_mid by (by vm_compute)
  | rewrite put_be32_mid by (by vm_compute) | rewrite put_u16_mid by (by vm_compute)
  | rewrite put_u32_mid by (by vm_compute) ]; cbn [mbind outcome_bind]).

(** *** Buffers *)

Lemma holds_len nb pre c post : holds nb pre c post → netbuf_len nb = zlen c.
Proof.
  intros (E & Hd & Ht & Hl). unfold netbuf_len. rewrite Hd, Ht. rewrite E, !zlen_app in Hl.
  pose proof (zlen_nonneg pre). pose proof (zlen_nonneg c). pose proof (zlen_nonneg post). rewrite u64_small; lia.
Qed.

Lemma push_ok nb pre h c post n :
  holds nb (pre ++ h) c post → n = zlen h →
  ∃ nb', netbuf_push nb n = (nb', Some (zlen pre)) ∧ holds nb' pre (h ++ c) post ∧ nb_netif nb' = nb_netif nb.
Proof.
  intros (E & Hd & Ht & Hl) ->. pose proof Hl as Hl'. rewrite E, !zlen_app in Hl'. rewrite zlen_app in Hd, Ht.
  pose proof (zlen_nonneg pre). pose proof (zlen_nonneg h). pose proof (zlen_nonneg c). pose proof (zlen_nonneg post).
  unfold netbuf_push, netbuf_headroom. rewrite Hd, u64_small by lia.
  rewrite (proj2 (Z.ltb_ge _ _)) by lia. replace (zlen pre + zlen h - zlen h) with (zlen pre) by lia.
  eexists. split; [done|]. split; [|done]. unfold holds. cbn [with_ptrs nb_buf nb_data nb_tail]. rewrite E, <-!(assoc_L (++)).
  split; [done|]. split; [done|]. split; [rewrite Ht, zlen_app; lia|]. by rewrite E, <-!(assoc_L (++)) in Hl.
Qed.

Lemma push_fail nb pre c post n :
  holds nb pre c post → zlen pre < n → netbuf_push nb n = (nb, None).
Proof.
  intros (E & Hd & Ht & Hl) Hn. rewrite E, !zlen_app in Hl. pose proof (zlen_nonneg pre). pose proof (zlen_nonneg c).
  pose proof (zlen_nonneg post). unfold netbuf_push, netbuf_headroom. rewrite Hd, u64_small by lia.
  by rewrite (proj2 (Z.ltb_lt _ _)) by lia.
Qed.

Lemma pull_ok nb pre h c post n :
  holds nb pre (h ++ c) post → n = zlen h →
  ∃ nb', netbuf_pull nb n = (nb', Some (zlen pre + zlen h)) ∧ holds nb' (pre ++ h) c post ∧ nb_buf nb' = nb_buf nb ∧ nb_netif nb' = nb_netif nb.
Proof.
  intros H ->. pose proof (holds_len _ _ _ _ H) as Hlen. destruct H as (E & Hd & Ht & Hl).
  unfold netbuf_pull. rewrite Hlen, zlen_app. pose proof (zlen_nonneg c). rewrite (proj2 (Z.ltb_ge _ _)) by lia.
  rewrite Hd. eexists. split; [done|]. split; [|done]. unfold holds. cbn [with_ptrs nb_buf nb_data nb_tail]. rewrite !zlen_app in *.
  split; [by rewrite E, <-!(assoc_L (++))|]. split; [done|]. split; [lia|done].
Qed.

Lemma pull_fail nb pre c post n :
  holds nb pre c post → zlen c < n → netbuf_pull nb n = (nb, None).
Proof. intros H Hn. unfold netbuf_pull. rewrite (holds_len _ _ _ _ H). by rewrite (proj2 (Z.ltb_lt _ _)) by lia. Qed.

Lemma put_ok nb pre c h post n :
  holds nb pre c (h ++ post) → n = zlen h →
  ∃ nb', netbuf_put nb n = (nb', Some (zlen pre + zlen c)) ∧ holds nb' pre (c ++ h) post ∧ nb_buf nb' = nb_buf nb ∧ nb_netif nb' = nb_netif nb.
Proof.
  intros (E & Hd & Ht & Hl) ->. pose proof Hl as Hl'. rewrite E, !zlen_app in Hl'.
  pose proof (zlen_nonneg pre). pose proof (zlen_nonneg h). pose proof (zlen_nonneg c). pose proof (zlen_nonneg post).
  unfold netbuf_put, netbuf_tailroom, nb_end. rewrite Ht, E, !zlen_app, u64_small by lia.
  rewrite (proj2 (Z.ltb_ge _ _)) by lia. eexists. split; [done|]. split; [|done].
  unfold holds. cbn [with_ptrs nb_buf nb_data nb_tail]. split; [by rewrite E, <-!(assoc_L (++))|].
  split; [done|]. split; [rewrite zlen_app; lia|done].
Qed.

Lemma put_fail nb pre c post n :
  holds nb pre c post → zlen post < n → netbuf_put nb n = (nb, None).
Proof.
  intros (E & Hd & Ht & Hl) Hn. unfold netbuf_put, netbuf_tailroom, nb_end. rewrite E, !zlen_app in *.
  pose proof (zlen_nonneg pre). pose proof (zlen_nonneg c). pose proof (zlen_nonneg post). rewrite Ht, u64_small by lia.
  by rewrite (proj2 (Z.ltb_lt _ _)) by lia.
Qed.

Lemma trim_ok nb pre c d post :
  holds nb pre (c ++ d) post → holds (netbuf_trim nb (zlen c)) pre c (d ++ post).
Proof.
  intros H. pose proof (holds_len _ _ _ _ H) as Hlen. rewrite zlen_app in Hlen. destruct H as (E & Hd & Ht & Hl).
  unfold netbuf_trim. rewrite Hlen. pose proof (zlen_nonneg d). rewrite zlen_app in Ht.
  destruct (Z.ltb_spec (zlen c) (zlen c + zlen d)); unfold holds; cbn [with_ptrs nb_buf nb_data nb_tail];
    (split; [by rewrite E, <-!(assoc_L (++))|]); (split; [done|]); (split; [|done]); lia.
Qed.

Lemma holds_with_buf nb pre c post c' :
  holds nb pre c post → zlen c' = zlen c → holds (with_buf nb (pre ++ c' ++ post)) pre c' post.
Proof.
  intros (E & Hd & Ht & Hl) Hc. unfold holds. cbn [with_buf nb_buf nb_data nb_tail]. rewrite E, !zlen_app in Hl.
  split; [done|]. split; [done|]. rewrite !zlen_app. lia.
Qed.

Lemma holds_eth nb pre c post p : holds nb pre c post → holds (with_eth nb p) pre c post.
Proof. done. Qed.

Lemma holds_with_hdr nb pre h c post h' :
  holds nb pre (h ++ c) post → zlen h' = zlen h → holds (with_buf nb (pre ++ h' ++ c ++ post)) pre (h' ++ c) post.
Proof.
  intros H Hh. rewrite (assoc_L (++) h'). apply holds_with_buf with (h ++ c); [done|]. rewrite !zlen_app. lia.
Qed.

Lemma put_data_ok nb pre c gap post src len :
  holds nb pre c (gap ++ post) → len = zlen gap → len ≤ zlen src →
  ∃ nb', netbuf_put_data nb src len = Ret (nb', Some (zlen pre + zlen c)) ∧
    holds nb' pre (c ++ take (Z.to_nat len) src) post ∧ nb_netif nb' = nb_netif nb.
Proof.
  intros H Hg Hs. destruct (put_ok _ _ _ _ _ len H Hg) as (nb' & E & H' & Hb & Hi).
  pose proof (zlen_nonneg gap). unfold netbuf_put_data. rewrite E. destruct (Z.eqb_spec len 0) as [Hz|].
  { eexists. split; [done|]. rewrite Hz. rewrite Hz in Hg. destruct gap; [|by rewrite zlen_cons in Hg; pose proof (zlen_nonneg gap); lia].
    by split. }
  pose proof H' as (Eb & _). rewrite Eb. rewrite <-(assoc_L (++)), (assoc_L (++) pre), <-zlen_app.
  rewrite <-(Z.add_0_r (zlen (pre ++ c))). rewrite memcpy_mid by lia. cbn [mbind outcome_bind].
  eexists. split; [done|]. split; [|done].
  rewrite zsplice_all by (rewrite zlen_zslice; lia). rewrite zslice_take. rewrite <-(assoc_L (++)), (assoc_L (++) c).
  apply holds_with_buf with (c ++ gap); [done|]. rewrite !zlen_app. f_equal. rewrite Hg. rewrite <-zslice_take, zlen_zslice; lia.
Qed.

Lemma alloc_holds `{KmemOk} k capacity headroom :
  0 ≤ capacity → 0 ≤ headroom → 0 < capacity + headroom < 2 ^ 63 → live k < room k →
  ∃ nb pre post, netbuf_alloc_headroom k capacity headroom = (mk_pool (live k + 1) (room k), Some nb) ∧
    holds nb pre [] post ∧ zlen pre = headroom ∧ zlen post = capacity ∧ bytes pre ∧ bytes post.
Proof.
  intros Hc Hh Ht Hr. unfold netbuf_alloc_headroom. rewrite u64_small by lia.
  rewrite (proj2 (Z.eqb_neq _ 0)), (proj2 (Z.ltb_lt _ _)) by lia.
  destruct (kmem_ok (capacity + headroom) ltac:(lia)) as [Hl Hb].
  set (m := kmem_bytes (capacity + headroom)) in *.
  eexists _, (take (Z.to_nat headroom) m), (drop (Z.to_nat headroom) m). split; [done|]. rewrite <-(take_drop (Z.to_nat headroom) m) in Hb.
  apply bytes_app in Hb as [Hb1 Hb2].
  assert (zlen (take (Z.to_nat headroom) m) = headroom) as Hz1 by (unfold zlen in *; rewrite length_take; lia).
  assert (zlen (drop (Z.to_nat headroom) m) = capacity) as Hz2 by (unfold zlen in *; rewrite length_drop; lia).
  split_and!; try done. unfold holds. cbn [nb_buf nb_data nb_tail app]. rewrite take_drop.
  split_and!; try done; [change (zlen (@nil Z)) with 0|]; lia.
Qed.

(** *** Ethernet *)

(** Replace a list of known length by its elements. *)
Ltac list_elems l := repeat (destruct l as [|? l]; [discriminate|]); destruct l; [|discriminate].

Lemma memcpy_mac pre m post : mac m → memcpy_from eth_zero 0 (pre ++ m ++ post) (zlen pre) ETH_ALEN = Ret m.
Proof.
  intros [Hl _]. pose proof (zlen_nonneg pre). pose proof (zlen_nonneg post).
  rewrite memcpy_from_spec; [|done|done|by vm_compute|done|rewrite !zlen_app; unfold zlen at 3; rewrite Hl; unfold ETH_ALEN; lia].
  f_equal. rewrite zsplice_all; [|rewrite zlen_zslice; [done|done|done|rewrite !zlen_app; unfold zlen at 3; rewrite Hl; unfold ETH_ALEN; lia]].
  unfold zslice. rewrite drop_app_length' by (unfold zlen; lia). rewrite take_app_length' by (by rewrite Hl). done.
Qed.

Lemma eth_build_spec nb pre gap c post dst src ty :
  holds nb (pre ++ gap) c post → zlen gap = ETH_HLEN → mac dst → mac src →
  ∃ nb', eth_build nb dst src ty = Ret (nb', 0) ∧ holds nb' pre (eth_header dst src ty ++ c) post ∧ nb_netif nb' = nb_netif nb.
Proof.
  intros H Hg [Hd _] [Hs _]. destruct (push_ok _ _ _ _ _ ETH_HLEN H ltac:(done)) as (nb' & E & H' & Hi).
  unfold eth_build. rewrite E. pose proof H' as (Eb & _). rewrite Eb.
  assert (length gap = 14%nat) as Hg' by (unfold zlen, ETH_HLEN in Hg; lia). list_elems gap. list_elems dst. list_elems src.
  rewrite <-(assoc_L (++) _ c post). write_hdr.
  eexists. split; [done|]. split; [|done]. apply holds_eth, (holds_with_hdr _ _ _ _ _ _ H'). done.
Qed.

Lemma eth_build_fail nb pre c post dst src ty :
  holds nb pre c post → zlen pre < ETH_HLEN → eth_build nb dst src ty = Ret (nb, -1).
Proof. intros H Hp. unfold eth_build. by rewrite (push_fail _ _ _ _ _ H Hp). Qed.

Lemma eth_parse_spec nb pre dst src ty c post :
  holds nb pre (eth_header dst src ty ++ c) post → mac dst → mac src → is_u16 ty →
  ∃ nb', eth_parse nb = Ret (nb', Some (dst, src, ty)) ∧ holds nb' (pre ++ eth_header dst src ty) c post ∧ nb_netif nb' = nb_netif nb.
Proof.
  intros H Hd Hs Ht. assert (zlen (eth_header dst src ty) = ETH_HLEN) as Hz.
  { unfold eth_header. rewrite !zlen_app. unfold zlen. rewrite (proj1 Hd), (proj1 Hs). done. }
  unfold eth_parse. rewrite (holds_len _ _ _ _ H), zlen_app, Hz. pose proof (zlen_nonneg c).
  rewrite (proj2 (Z.ltb_ge _ _)) by lia. pose proof H as (Eb & Ed & _). cbn [with_eth nb_buf]. rewrite Eb, Ed.
  unfold eth_header. rewrite <-!(assoc_L (++)). rewrite memcpy_mac by done. cbn [mbind outcome_bind].
  rewrite (assoc_L (++) pre dst). replace (zlen pre + 6) with (zlen (pre ++ dst)) by (rewrite zlen_app; unfold zlen; rewrite (proj1 Hd); lia).
  rewrite memcpy_mac by done. cbn [mbind outcome_bind].
  rewrite (assoc_L (++) (pre ++ dst)). replace (zlen pre + 12) with (zlen ((pre ++ dst) ++ src) + 0)
    by (rewrite !zlen_app; unfold zlen; rewrite (proj1 Hd), (proj1 Hs); lia).
  rewrite (get_be16_mid _ _ _ 0 ty) by done. cbn [mbind outcome_bind].
  destruct (pull_ok _ _ _ _ _ ETH_HLEN (holds_eth _ _ _ _ (zlen pre) H) ltac:(done)) as (nb' & E & H' & _ & Hi).
  rewrite E. exists nb'. done.
Qed.

Lemma eth_parse_short nb pre c post : holds nb pre c post → zlen c < ETH_HLEN → eth_parse nb = Ret (nb, None).
Proof. intros H Hc. unfold eth_parse. rewrite (holds_len _ _ _ _ H). by rewrite (proj2 (Z.ltb_lt _ _)) by lia. Qed.

Lemma mac_copy_mac d m : mac d → mac m → mac_copy d m = Ret m.
Proof.
  intros [Hd _] [Hm _]. unfold mac_copy. rewrite memcpy_from_spec by (unfold zlen, ETH_ALEN; lia). f_equal.
  assert (zslice m 0 ETH_ALEN = m) as E by (rewrite zslice_take; apply take_ge; unfold ETH_ALEN; lia). rewrite E. apply zsplice_all. unfold zlen. lia.
Qed.

Lemma eth_zero_mac : mac eth_zero.
Proof. split; [done|]. bytes_of. Qed.
