(* ===== verification/NetIf.v ===== *)
(** The state of the network stack and its interfaces: [kernel/net/net_if.c],
    with the structures of the protocols above. An interface is an index into
    the interfaces of the machine ([n_ifs]); the registry holds the indices of
    the registered ones. Functions the interfaces call through a pointer or
    through a declaration ([nif->tx], [arp_input], [ipv4_input]) are arguments. *)

From S2P Require Import Prelude CString NetBase Netbuf.

(** ** Definitions *)

Definition NETIF_NAME_MAX : Z := 8.
Definition NETIF_MAX : Z := 4.
Definition NETIF_FLAG_UP : Z := 0x01.
Definition NETIF_FLAG_LOOPBACK : Z := 0x02.
Definition NETIF_FLAG_BROADCAST : Z := 0x04.

Record netif_stats := mk_stats {
  rx_packets : Z; tx_packets : Z; rx_bytes : Z; tx_bytes : Z;
  rx_dropped : Z; tx_dropped : Z; rx_errors : Z; tx_errors : Z
}.

(** The functions [nif->tx] can point to. *)
Inductive netif_tx_fn := loopback_tx_fn | e1000_netif_tx_fn.

Record netif := mk_nif {
  nif_name : list Z;
  nif_mac : list Z;
  nif_ip : Z;
  nif_netmask : Z;
  nif_gateway : Z;
  nif_mtu : Z;
  nif_flags : Z;
  nif_tx : option netif_tx_fn;
  nif_driver : option nat;
  nif_stats : netif_stats;
  nif_registered : bool
}.

(** *** Structures of the protocols *)

Inductive arp_state := ARP_FREE | ARP_INCOMPLETE | ARP_RESOLVED.
Record arp_entry := mk_arp { arp_st : arp_state; arp_ip : Z; arp_mac : list Z; arp_age : Z }.

Record ip_route := mk_route {
  rt_dest : Z; rt_netmask : Z; rt_gateway : Z; rt_nif : option nat; rt_valid : bool; rt_prefix_len : Z
}.

Record icmp_stats := mk_icmp { echo_requests_seen : Z; echo_replies_sent : Z; echo_replies_seen : Z }.

(** The functions a binding can name: the datagram sockets', the resolver's, or
    a client's own. *)
Inductive udp_recv_fn := sock_udp_recv_fn | dns_recv_fn | client_recv_fn.
Record udp_binding := mk_bind {
  ub_in_use : bool; ub_ip : Z; ub_port : Z; ub_recv : option udp_recv_fn; ub_ctx : nat
}.

Inductive tcp_state :=
| TCP_CLOSED | TCP_LISTEN | TCP_SYN_SENT | TCP_SYN_RECEIVED | TCP_ESTABLISHED | TCP_FIN_WAIT_1
| TCP_FIN_WAIT_2 | TCP_CLOSE_WAIT | TCP_CLOSING | TCP_LAST_ACK | TCP_TIME_WAIT.
#[export] Instance tcp_state_eq : EqDecision tcp_state.
Proof. solve_decision. Defined.

Record tcp_tcb := mk_tcb {
  t_in_use : bool; t_state : tcp_state;
  t_local_ip : Z; t_remote_ip : Z; t_local_port : Z; t_remote_port : Z;
  snd_una : Z; snd_nxt : Z; snd_wnd : Z; iss : Z;
  rcv_nxt : Z; rcv_wnd : Z; irs : Z
}.

Record sock_dgram := mk_dgram { dg_src : Z; dg_src_port : Z; dg_len : Z; dg_data : list Z }.

Record socket := mk_sock {
  s_in_use : bool; s_type : Z;
  s_local_ip : Z; s_local_port : Z; s_remote_ip : Z; s_remote_port : Z;
  s_bound : bool; s_connected : bool;
  s_rxq : list sock_dgram; s_rx_head : Z; s_rx_tail : Z; s_rx_count : Z;
  s_tcb : option Z
}.

(** [out] and [done] point to a resolution's result, kept with it. *)
Record dns_resolution := mk_res { res_id : Z; res_out : option Z; res_done : option Z }.

Record e1000_rx_desc := mk_rxd { rxd_length : Z; rxd_status : Z }.
Record e1000_tx_desc := mk_txd { txd_length : Z; txd_cmd : Z; txd_status : Z }.

(** [TDT] and [RDT] are the registers the driver writes. *)
Record e1000_device := mk_e1000 {
  rx_ring : list e1000_rx_desc; tx_ring : list e1000_tx_desc;
  rx_buffers : list (list Z); tx_buffers : list (list Z);
  rx_cur : Z; tx_cur : Z; reg_tdt : Z; reg_rdt : Z; e_nif : nat; e_initialized : bool
}.

(** A call of a client's UDP receiver: its [ctx], the endpoints and the payload. *)
Record udp_call := mk_call {
  uc_ctx : nat; uc_src : Z; uc_src_port : Z; uc_dst : Z; uc_dst_port : Z; uc_data : list Z
}.

Record net := mk_net {
  n_pool : pool;
  n_ifs : list netif;
  n_reg : list nat;
  n_arp : list arp_entry;
  n_arp_clock : Z;
  n_routes : list ip_route;
  n_ip_id : Z;
  n_icmp : icmp_stats;
  n_binds : list udp_binding;
  n_ephemeral : Z;
  n_datagrams : Z;
  n_tcbs : list tcp_tcb;
  n_iss : Z;
  n_socks : list socket;
  n_dns : dns_resolution;
  n_dns_id : Z;
  n_devs : list e1000_device;
  n_calls : list udp_call
}.

(** Assignments to one variable of the state. *)
Definition set_pool (n : net) (x : pool) : net :=
  mk_net x (n_ifs n) (n_reg n) (n_arp n) (n_arp_clock n) (n_routes n) (n_ip_id n) (n_icmp n) (n_binds n)
    (n_ephemeral n) (n_datagrams n) (n_tcbs n) (n_iss n) (n_socks n) (n_dns n) (n_dns_id n) (n_devs n)
    (n_calls n).
Definition set_ifs (n : net) (x : list netif) : net :=
  mk_net (n_pool n) x (n_reg n) (n_arp n) (n_arp_clock n) (n_routes n) (n_ip_id n) (n_icmp n) (n_binds n)
    (n_ephemeral n) (n_datagrams n) (n_tcbs n) (n_iss n) (n_socks n) (n_dns n) (n_dns_id n) (n_devs n)
    (n_calls n).
Definition set_reg (n : net) (x : list nat) : net :=
  mk_net (n_pool n) (n_ifs n) x (n_arp n) (n_arp_clock n) (n_routes n) (n_ip_id n) (n_icmp n) (n_binds n)
    (n_ephemeral n) (n_datagrams n) (n_tcbs n) (n_iss n) (n_socks n) (n_dns n) (n_dns_id n) (n_devs n)
    (n_calls n).
Definition set_arp (n : net) (x : list arp_entry) : net :=
  mk_net (n_pool n) (n_ifs n) (n_reg n) x (n_arp_clock n) (n_routes n) (n_ip_id n) (n_icmp n) (n_binds n)
    (n_ephemeral n) (n_datagrams n) (n_tcbs n) (n_iss n) (n_socks n) (n_dns n) (n_dns_id n) (n_devs n)
    (n_calls n).
Definition set_arp_clock (n : net) (x : Z) : net :=
  mk_net (n_pool n) (n_ifs n) (n_reg n) (n_arp n) x (n_routes n) (n_ip_id n) (n_icmp n) (n_binds n)
    (n_ephemeral n) (n_datagrams n) (n_tcbs n) (n_iss n) (n_socks n) (n_dns n) (n_dns_id n) (n_devs n)
    (n_calls n).
Definition set_routes (n : net) (x : list ip_route) : net :=
  mk_net (n_pool n) (n_ifs n) (n_reg n) (n_arp n) (n_arp_clock n) x (n_ip_id n) (n_icmp n) (n_binds n)
    (n_ephemeral n) (n_datagrams n) (n_tcbs n) (n_iss n) (n_socks n) (n_dns n) (n_dns_id n) (n_devs n)
    (n_calls n).
Definition set_ip_id (n : net) (x : Z) : net :=
  mk_net (n_pool n) (n_ifs n) (n_reg n) (n_arp n) (n_arp_clock n) (n_routes n) x (n_icmp n) (n_binds n)
    (n_ephemeral n) (n_datagrams n) (n_tcbs n) (n_iss n) (n_socks n) (n_dns n) (n_dns_id n) (n_devs n)
    (n_calls n).
Definition set_icmp (n : net) (x : icmp_stats) : net :=
  mk_net (n_pool n) (n_ifs n) (n_reg n) (n_arp n) (n_arp_clock n) (n_routes n) (n_ip_id n) x (n_binds n)
    (n_ephemeral n) (n_datagrams n) (n_tcbs n) (n_iss n) (n_socks n) (n_dns n) (n_dns_id n) (n_devs n)
    (n_calls n).
Definition set_binds (n : net) (x : list udp_binding) : net :=
  mk_net (n_pool n) (n_ifs n) (n_reg n) (n_arp n) (n_arp_clock n) (n_routes n) (n_ip_id n) (n_icmp n) x
    (n_ephemeral n) (n_datagrams n) (n_tcbs n) (n_iss n) (n_socks n) (n_dns n) (n_dns_id n) (n_devs n)
    (n_calls n).
Definition set_ephemeral (n : net) (x : Z) : net :=
  mk_net (n_pool n) (n_ifs n) (n_reg n) (n_arp n) (n_arp_clock n) (n_routes n) (n_ip_id n) (n_icmp n) (n_binds
    n) x (n_datagrams n) (n_tcbs n) (n_iss n) (n_socks n) (n_dns n) (n_dns_id n) (n_devs n) (n_calls n).
Definition set_datagrams (n : net) (x : Z) : net :=
  mk_net (n_pool n) (n_ifs n) (n_reg n) (n_arp n) (n_arp_clock n) (n_routes n) (n_ip_id n) (n_icmp n) (n_binds
    n) (n_ephemeral n) x (n_tcbs n) (n_iss n) (n_socks n) (n_dns n) (n_dns_id n) (n_devs n) (n_calls n).
Definition set_tcbs (n : net) (x : list tcp_tcb) : net :=
  mk_net (n_pool n) (n_ifs n) (n_reg n) (n_arp n) (n_arp_clock n) (n_routes n) (n_ip_id n) (n_icmp n) (n_binds
    n) (n_ephemeral n) (n_datagrams n) x (n_iss n) (n_socks n) (n_dns n) (n_dns_id n) (n_devs n) (n_calls n).
Definition set_iss (n : net) (x : Z) : net :=
  mk_net (n_pool n) (n_ifs n) (n_reg n) (n_arp n) (n_arp_clock n) (n_routes n) (n_ip_id n) (n_icmp n) (n_binds
    n) (n_ephemeral n) (n_datagrams n) (n_tcbs n) x (n_socks n) (n_dns n) (n_dns_id n) (n_devs n) (n_calls n).
Definition set_socks (n : net) (x : list socket) : net :=
  mk_net (n_pool n) (n_ifs n) (n_reg n) (n_arp n) (n_arp_clock n) (n_routes n) (n_ip_id n) (n_icmp n) (n_binds
    n) (n_ephemeral n) (n_datagrams n) (n_tcbs n) (n_iss n) x (n_dns n) (n_dns_id n) (n_devs n) (n_calls n).
Definition set_dns (n : net) (x : dns_resolution) : net :=
  mk_net (n_pool n) (n_ifs n) (n_reg n) (n_arp n) (n_arp_clock n) (n_routes n) (n_ip_id n) (n_icmp n) (n_binds
    n) (n_ephemeral n) (n_datagrams n) (n_tcbs n) (n_iss n) (n_socks n) x (n_dns_id n) (n_devs n) (n_calls n).
Definition set_dns_id (n : net) (x : Z) : net :=
  mk_net (n_pool n) (n_ifs n) (n_reg n) (n_arp n) (n_arp_clock n) (n_routes n) (n_ip_id n) (n_icmp n) (n_binds
    n) (n_ephemeral n) (n_datagrams n) (n_tcbs n) (n_iss n) (n_socks n) (n_dns n) x (n_devs n) (n_calls n).
Definition set_devs (n : net) (x : list e1000_device) : net :=
  mk_net (n_pool n) (n_ifs n) (n_reg n) (n_arp n) (n_arp_clock n) (n_routes n) (n_ip_id n) (n_icmp n) (n_binds
    n) (n_ephemeral n) (n_datagrams n) (n_tcbs n) (n_iss n) (n_socks n) (n_dns n) (n_dns_id n) x (n_calls n).
Definition set_calls (n : net) (x : list udp_call) : net :=
  mk_net (n_pool n) (n_ifs n) (n_reg n) (n_arp n) (n_arp_clock n) (n_routes n) (n_ip_id n) (n_icmp n) (n_binds
    n) (n_ephemeral n) (n_datagrams n) (n_tcbs n) (n_iss n) (n_socks n) (n_dns n) (n_dns_id n) (n_devs n) x.

(** [stats.f += d]. *)
Definition add_rx_packets (d : Z) (s : netif_stats) : netif_stats :=
  mk_stats (u64 (rx_packets s + d)) (tx_packets s) (rx_bytes s) (tx_bytes s) (rx_dropped s) (tx_dropped s)
    (rx_errors s) (tx_errors s).
Definition add_tx_packets (d : Z) (s : netif_stats) : netif_stats :=
  mk_stats (rx_packets s) (u64 (tx_packets s + d)) (rx_bytes s) (tx_bytes s) (rx_dropped s) (tx_dropped s)
    (rx_errors s) (tx_errors s).
Definition add_rx_bytes (d : Z) (s : netif_stats) : netif_stats :=
  mk_stats (rx_packets s) (tx_packets s) (u64 (rx_bytes s + d)) (tx_bytes s) (rx_dropped s) (tx_dropped s)
    (rx_errors s) (tx_errors s).
Definition add_tx_bytes (d : Z) (s : netif_stats) : netif_stats :=
  mk_stats (rx_packets s) (tx_packets s) (rx_bytes s) (u64 (tx_bytes s + d)) (rx_dropped s) (tx_dropped s)
    (rx_errors s) (tx_errors s).
Definition add_rx_dropped (d : Z) (s : netif_stats) : netif_stats :=
  mk_stats (rx_packets s) (tx_packets s) (rx_bytes s) (tx_bytes s) (u64 (rx_dropped s + d)) (tx_dropped s)
    (rx_errors s) (tx_errors s).
Definition add_tx_dropped (d : Z) (s : netif_stats) : netif_stats :=
  mk_stats (rx_packets s) (tx_packets s) (rx_bytes s) (tx_bytes s) (rx_dropped s) (u64 (tx_dropped s + d))
    (rx_errors s) (tx_errors s).
Definition add_rx_errors (d : Z) (s : netif_stats) : netif_stats :=
  mk_stats (rx_packets s) (tx_packets s) (rx_bytes s) (tx_bytes s) (rx_dropped s) (tx_dropped s) (u64
    (rx_errors s + d)) (tx_errors s).
Definition add_tx_errors (d : Z) (s : netif_stats) : netif_stats :=
  mk_stats (rx_packets s) (tx_packets s) (rx_bytes s) (tx_bytes s) (rx_dropped s) (tx_dropped s) (rx_errors s)
    (u64 (tx_errors s + d)).

Definition with_stats (g : netif_stats → netif_stats) (f : netif) : netif :=
  mk_nif (nif_name f) (nif_mac f) (nif_ip f) (nif_netmask f) (nif_gateway f) (nif_mtu f) (nif_flags f) (nif_tx f) (nif_driver f) (g (nif_stats f)) (nif_registered f).
Definition with_flags (x : Z) (f : netif) : netif :=
  mk_nif (nif_name f) (nif_mac f) (nif_ip f) (nif_netmask f) (nif_gateway f) (nif_mtu f) x (nif_tx f) (nif_driver f) (nif_stats f) (nif_registered f).
Definition with_addr (ip mask gw : Z) (f : netif) : netif :=
  mk_nif (nif_name f) (nif_mac f) ip mask gw (nif_mtu f) (nif_flags f) (nif_tx f) (nif_driver f) (nif_stats f) (nif_registered f).
Definition with_registered (f : netif) : netif :=
  mk_nif (nif_name f) (nif_mac f) (nif_ip f) (nif_netmask f) (nif_gateway f) (nif_mtu f) (nif_flags f) (nif_tx f) (nif_driver f) (nif_stats f) true.

(** Dereferencing an interface, and an assignment to one of its members. *)
Definition get_if (n : net) (i : nat) : outcome netif :=
  match n_ifs n !! i with Some f => Ret f | None => Fault end.
Definition upd_if (n : net) (i : nat) (g : netif → netif) : net := set_ifs n (alter g i (n_ifs n)).
Definition if_stat (n : net) (i : nat) (g : netif_stats → netif_stats) : net := upd_if n i (with_stats g).

(** *** net_if.c *)

Definition netif_registry_init (n : net) : net := set_reg n [].

Definition netif_register (n : net) (nif : option nat) : outcome (net * Z) :=
  match nif with
  | None => Ret (n, -1)
  | Some i =>
      if NETIF_MAX <=? zlen (n_reg n) then Ret (n, -1)
      else
        f ← get_if n i;
        if nif_registered f then Ret (n, 0)
        else Ret (upd_if (set_reg n (n_reg n ++ [i])) i with_registered, 0)
  end.

Definition netif_is_up (f : netif) : bool := negb (Z.land (nif_flags f) NETIF_FLAG_UP =? 0).

(** The registered interfaces in order, until [body] returns one. *)
Fixpoint scan_ifs {S} (n : net) (body : nat → netif → S → outcome (S + nat)) (l : list nat) (s : S) : outcome (S + nat) :=
  match l with
  | [] => Ret (inl s)
  | i :: l =>
      f ← get_if n i;
      r ← body i f s;
      match r with inl s => scan_ifs n body l s | inr j => Ret (inr j) end
  end.

Definition netif_get_body (name : list Z) (i : nat) (f : netif) (_ : unit) : outcome (unit + nat) :=
  c ← strcmp (nif_name f) name;
  Ret (if c =? 0 then inr i else inl tt).

Definition netif_get (n : net) (name : list Z) : outcome (option nat) :=
  r ← scan_ifs n (netif_get_body name) (n_reg n) tt;
  Ret (match r with inl _ => None | inr i => Some i end).

Definition netif_count (n : net) : Z := zlen (n_reg n).

Definition netif_get_by_index (n : net) (idx : Z) : outcome (option nat) :=
  if netif_count n <=? idx then Ret None
  else i ← aget (n_reg n) idx; Ret (Some i).

Definition netif_default_body (i : nat) (f : netif) (lo : option nat) : outcome (option nat + nat) :=
  Ret (if negb (netif_is_up f) then inl lo
       else if negb (Z.land (nif_flags f) NETIF_FLAG_LOOPBACK =? 0) then inl (Some i)
       else inr i).

Definition netif_default (n : net) : outcome (option nat) :=
  r ← scan_ifs n netif_default_body (n_reg n) None;
  Ret (match r with inl lo => lo | inr i => Some i end).

Definition netif_for_dest_body (dst : Z) (i : nat) (f : netif) (_ : unit) : outcome (unit + nat) :=
  Ret (if negb (netif_is_up f) || ip_is_zero (nif_ip f) then inl tt
       else if ip_same_subnet dst (nif_ip f) (nif_netmask f) then inr i
       else inl tt).

Definition netif_for_dest (n : net) (dst : Z) : outcome (option nat) :=
  r ← scan_ifs n (netif_for_dest_body dst) (n_reg n) tt;
  Ret (match r with inl _ => None | inr i => Some i end).

Definition netif_set_addr (n : net) (i : nat) (ip mask gw : Z) : net := upd_if n i (with_addr ip mask gw).

Definition netif_up (n : net) (i : nat) : net :=
  upd_if n i (λ f, with_flags (Z.lor (nif_flags f) NETIF_FLAG_UP) f).
Definition netif_down (n : net) (i : nat) : net :=
  upd_if n i (λ f, with_flags (Z.land (nif_flags f) (not32 NETIF_FLAG_UP)) f).

(** A transmit function: the interface, the frame, and the code returned. *)
Definition tx_fun : Type := net → nat → netbuf → outcome (net * Z).

Definition free_nb (n : net) (nb : netbuf) : net := set_pool n (netbuf_free (n_pool n) nb).

Definition netif_transmit (tx : tx_fun) (n : net) (nif : option nat) (nb : netbuf) : outcome (net * Z) :=
  match nif with
  | None => Ret (free_nb n nb, -1)
  | Some i =>
      f ← get_if n i;
      match nif_tx f with
      | None => Ret (free_nb n nb, -1)
      | Some _ =>
          if negb (netif_is_up f) then Ret (free_nb (if_stat n i (add_tx_dropped 1)) nb, -1)
          else
            let len := netbuf_len nb in
            '(n, rc) ← tx n i nb;
            if rc =? 0 then Ret (if_stat (if_stat n i (add_tx_packets 1)) i (add_tx_bytes len), rc)
            else Ret (if_stat n i (add_tx_errors 1), rc)
      end
  end.

Definition netif_rx (arp_input : net → nat → netbuf → outcome net) (ipv4_input : net → nat → netbuf → outcome net)
    (n : net) (i : nat) (nb : netbuf) : outcome net :=
  _ ← get_if n i;
  let n := if_stat n i (add_rx_packets 1) in
  let n := if_stat n i (add_rx_bytes (netbuf_len nb)) in
  '(nb, r) ← eth_parse nb;
  match r with
  | None => Ret (free_nb (if_stat n i (add_rx_errors 1)) nb)
  | Some (dst, src, ethertype) =>
      let nb := with_netif nb i in
      if ethertype =? ETH_P_ARP then n ← arp_input n i nb; Ret (free_nb n nb)
      else if ethertype =? ETH_P_IPV4 then n ← ipv4_input n i nb; Ret (free_nb n nb)
      else Ret (free_nb (if_stat n i (add_rx_dropped 1)) nb)
  end.

Section Loopback.
Context `{Kmem}.

(** [rx] is [netif_rx]. *)
Definition loopback_tx (rx : net → nat → netbuf → outcome net) (n : net) (i : nat) (nb : netbuf) : outcome (net * Z) :=
  let len := netbuf_len nb in
  let '(k, rxb) := netbuf_alloc (n_pool n) len in
  let n := set_pool n k in
  match rxb with
  | None => Ret (n, -1)
  | Some rxb =>
      '(rxb, _) ← netbuf_put_data rxb (drop (Z.to_nat (nb_data nb)) (nb_buf nb)) len;
      n ← rx n i rxb;
      Ret (n, 0)
  end.

End Loopback.

(** [g_loopback], the interface with index 0. *)
Definition LO : nat := 0.

Definition loopback_name : list Z := [108; 111; 0].

Definition zero_stats : netif_stats := mk_stats 0 0 0 0 0 0 0 0.

(** A machine before [net_init]: the tables are zeroed memory. *)
Definition zero_mem_if : netif := mk_nif (replicate 8 0) eth_zero 0 0 0 0 0 None None zero_stats false.
Definition empty_net : net :=
  mk_net (mk_pool 0 100) [zero_mem_if] [] (replicate 16 (mk_arp ARP_FREE 0 eth_zero 0)) 0 [] 0 (mk_icmp 0 0 0)
    (replicate 16 (mk_bind false 0 0 None 0)) 0 0 (replicate 8 (mk_tcb false TCP_CLOSED 0 0 0 0 0 0 0 0 0 0 0)) 0 []
    (mk_res 0 None None) 0x1000 [] [].

Definition loopback_init (n : net) : outcome net :=
  '(name, _) ← strlcpy (replicate 8 0) loopback_name NETIF_NAME_MAX;
  let n := upd_if n LO (λ _, mk_nif name eth_zero 0 0 0 65535 NETIF_FLAG_LOOPBACK (Some loopback_tx_fn) None zero_stats false) in
  let n := netif_set_addr n LO IP_ADDR_LOOPBACK (ip_make 255 0 0 0) IP_ADDR_ANY in
  '(n, _) ← netif_register n (Some LO);
  Ret (netif_up n LO).

(** ** Specification *)

(** The same interface, counters aside. *)
Definition same_if (f f' : netif) : Prop := f' = with_stats (λ _, nif_stats f') f.

(** [n'] differs from [n] in counters, the buffers in use and the next IPv4 id only. *)
Record quiet (n n' : net) : Prop := {
  q_ifs : Forall2 same_if (n_ifs n) (n_ifs n');
  q_reg : n_reg n' = n_reg n;
  q_arp : n_arp n' = n_arp n;
  q_arp_clock : n_arp_clock n' = n_arp_clock n;
  q_routes : n_routes n' = n_routes n;
  q_icmp : n_icmp n' = n_icmp n;
  q_binds : n_binds n' = n_binds n;
  q_ephemeral : n_ephemeral n' = n_ephemeral n;
  q_datagrams : n_datagrams n' = n_datagrams n;
  q_tcbs : n_tcbs n' = n_tcbs n;
  q_iss : n_iss n' = n_iss n;
  q_socks : n_socks n' = n_socks n;
  q_dns : n_dns n' = n_dns n;
  q_dns_id : n_dns_id n' = n_dns_id n;
  q_devs : n_devs n' = n_devs n;
  q_calls : n_calls n' = n_calls n;
  q_room : room (n_pool n') = room (n_pool n)
}.

Definition in_use (n : net) : Z := live (n_pool n).

(** ** Lemmas *)

Lemma same_if_refl f : same_if f f.
Proof. by destruct f. Qed.

Lemma same_if_trans f g h : same_if f g → same_if g h → same_if f h.
Proof. unfold same_if. intros -> ->. done. Qed.

#[export] Instance quiet_preorder : PreOrder quiet.
Proof.
  split.
  - intros n. split; try done. apply Forall2_same_length_lookup_2; [done|]. intros i f g E1 E2. simplify_eq. apply same_if_refl.
  - intros n1 n2 n3 [] []. split; try congruence.
    eapply Forall2_trans; [apply same_if_trans|done..].
Qed.

Lemma ifs_same l : Forall2 same_if l l.
Proof. induction l; constructor; [apply same_if_refl|done]. Qed.

Lemma quiet_pool n k : room k = room (n_pool n) → quiet n (set_pool n k).
Proof. intros. split; try done. apply ifs_same. Qed.

Lemma quiet_ip_id n x : quiet n (set_ip_id n x).
Proof. split; try done. apply ifs_same. Qed.

Lemma quiet_stat n i g : quiet n (if_stat n i g).
Proof.
  split; try done. cbn [if_stat upd_if set_ifs n_ifs]. apply Forall2_same_length_lookup_2; [by rewrite length_alter|].
  intros j f f' Ef Ef'. destruct (decide (i = j)) as [->|].
  - rewrite list_lookup_alter_eq, Ef in Ef'. injection Ef' as <-. done.
  - rewrite list_lookup_alter_ne, Ef in Ef' by done. simplify_eq. apply same_if_refl.
Qed.

Lemma quiet_free n nb : quiet n (free_nb n nb).
Proof. by apply quiet_pool. Qed.

Create HintDb quiet_db.
#[export] Hint Resolve quiet_ip_id quiet_stat quiet_free : quiet_db.

Lemma quiet_if n n' i f : quiet n n' → n_ifs n !! i = Some f → ∃ f', n_ifs n' !! i = Some f' ∧ same_if f f'.
Proof. intros [H _ _ _ _ _ _ _ _ _ _ _ _ _ _ _] Hf. by apply (Forall2_lookup_l _ _ _ _ _ H Hf). Qed.

Lemma get_if_Some n i f : n_ifs n !! i = Some f → get_if n i = Ret f.
Proof. unfold get_if. by intros ->. Qed.

(** What routing looks at is the same. *)
Record same_links (n n' : net) : Prop := {
  sl_ifs : Forall2 same_if (n_ifs n) (n_ifs n');
  sl_reg : n_reg n' = n_reg n;
  sl_routes : n_routes n' = n_routes n
}.

#[export] Instance same_links_preorder : PreOrder same_links.
Proof.
  split.
  - intros n. split; [apply ifs_same|done|done].
  - intros n1 n2 n3 [] []. split; try congruence. eapply Forall2_trans; [apply same_if_trans|done..].
Qed.

Lemma quiet_links n n' : quiet n n' → same_links n n'.
Proof. intros []. by split. Qed.

Lemma links_if n n' i f : same_links n n' → n_ifs n !! i = Some f → ∃ f', n_ifs n' !! i = Some f' ∧ same_if f f'.
Proof. intros [H _ _] Hf. by apply (Forall2_lookup_l _ _ _ _ _ H Hf). Qed.

Lemma scan_ifs_links {S} n n' (body : nat → netif → S → outcome (S + nat)) l s :
  same_links n n' → (∀ i f f' s, same_if f f' → body i f' s = body i f s) → scan_ifs n' body l s = scan_ifs n body l s.
Proof.
  intros Hq Hb. revert s. induction l as [|i l IH]; intros s; cbn [scan_ifs]; [done|]. unfold get_if.
  destruct (n_ifs n !! i) as [f|] eqn:E.
  - destruct (links_if _ _ _ _ Hq E) as (f' & -> & Hs). cbn [mbind outcome_bind]. rewrite (Hb _ _ _ _ Hs).
    destruct (body i f s) as [[]| | |]; cbn [mbind outcome_bind]; auto.
  - replace (n_ifs n' !! i) with (@None netif); [done|]. symmetry. apply lookup_ge_None in E. apply lookup_ge_None.
    by rewrite <-(Forall2_length _ _ _ (sl_ifs _ _ Hq)).
Qed.

Lemma netif_for_dest_links n n' dst : same_links n n' → netif_for_dest n' dst = netif_for_dest n dst.
Proof.
  intros Hq. unfold netif_for_dest. rewrite (sl_reg _ _ Hq), (scan_ifs_links n n'); [done|done|]. by intros i f f' s ->.
Qed.

Lemma netif_default_links n n' : same_links n n' → netif_default n' = netif_default n.
Proof.
  intros Hq. unfold netif_default. rewrite (sl_reg _ _ Hq), (scan_ifs_links n n'); [done|done|]. by intros i f f' s ->.
Qed.

Lemma quiet_set_datagrams n n' x : quiet n n' → quiet (set_datagrams n x) (set_datagrams n' x).
Proof. intros []. by split. Qed.
Lemma quiet_set_calls n n' x : quiet n n' → quiet (set_calls n x) (set_calls n' x).
Proof. intros []. by split. Qed.
Lemma quiet_set_socks n n' x : quiet n n' → quiet (set_socks n x) (set_socks n' x).
Proof. intros []. by split. Qed.
Lemma quiet_set_icmp n n' x : quiet n n' → quiet (set_icmp n x) (set_icmp n' x).
Proof. intros []. by split. Qed.
Lemma quiet_set_tcbs n n' x : quiet n n' → quiet (set_tcbs n x) (set_tcbs n' x).
Proof. intros []. by split. Qed.
Lemma quiet_set_iss n n' x : quiet n n' → quiet (set_iss n x) (set_iss n' x).
Proof. intros []. by split. Qed.
