(* ===== verification/Arp.v ===== *)
(** Address resolution: [kernel/net/arp.c]. *)

From S2P Require Import Prelude CString NetBase Netbuf NetIf.

(** ** Definitions *)

Definition ARP_HTYPE_ETHER : Z := 1.
Definition ARP_PTYPE_IPV4 : Z := 0x0800.
Definition ARP_OP_REQUEST : Z := 1.
Definition ARP_OP_REPLY : Z := 2.
Definition ARP_HDR_LEN : Z := 28.
Definition ARP_CACHE_SIZE : Z := 16.

Definition is_free (s : arp_state) : bool := match s with ARP_FREE => true | _ => false end.
Definition is_resolved (s : arp_state) : bool := match s with ARP_RESOLVED => true | _ => false end.

Definition arp_init (n : net) : net :=
  set_arp_clock (set_arp n (replicate 16 (mk_arp ARP_FREE IP_ADDR_ANY eth_zero 0))) 0.

Definition arp_find_body (c : list arp_entry) (ip i : Z) (_ : unit) : outcome (unit + Z) :=
  e ← aget c i;
  Ret (if negb (is_free (arp_st e)) && ip_equal (arp_ip e) ip then inr i else inl tt).

Definition arp_find (c : list arp_entry) (ip : Z) : outcome (option Z) :=
  r ← find_range 0 ARP_CACHE_SIZE (arp_find_body c ip) tt;
  Ret (match r with inl _ => None | inr i => Some i end).

Definition arp_alloc_body (c : list arp_entry) (i oldest : Z) : outcome (Z + Z) :=
  e ← aget c i;
  if is_free (arp_st e) then Ret (inr i)
  else
    o ← aget c oldest;
    Ret (inl (if arp_age e <? arp_age o then i else oldest)).

Definition arp_alloc_slot (c : list arp_entry) : outcome Z :=
  r ← find_range 0 ARP_CACHE_SIZE (arp_alloc_body c) 0;
  Ret (match r with inl oldest => oldest | inr i => i end).

(** [e = arp_find(ip)], or a slot allocated and given the address. *)
Definition arp_slot (c : list arp_entry) (ip : Z) : outcome (list arp_entry * Z) :=
  r ← arp_find c ip;
  match r with
  | Some j => Ret (c, j)
  | None =>
      j ← arp_alloc_slot c;
      e ← aget c j;
      c ← aset c j (mk_arp (arp_st e) ip (arp_mac e) (arp_age e));
      Ret (c, j)
  end.

Definition arp_cache_insert (n : net) (ip : Z) (m : list Z) : outcome net :=
  if ip_is_zero ip then Ret n
  else
    '(c, j) ← arp_slot (n_arp n) ip;
    e ← aget c j;
    mac ← mac_copy (arp_mac e) m;
    let clock := u32 (n_arp_clock n + 1) in
    c ← aset c j (mk_arp ARP_RESOLVED (arp_ip e) mac clock);
    Ret (set_arp_clock (set_arp n c) clock).

(** [out], or -1 as [None]. *)
Definition arp_cache_lookup (n : net) (ip : Z) (out : list Z) : outcome (option (list Z)) :=
  r ← arp_find (n_arp n) ip;
  match r with
  | None => Ret None
  | Some j =>
      e ← aget (n_arp n) j;
      if is_resolved (arp_st e) then out ← mac_copy out (arp_mac e); Ret (Some out) else Ret None
  end.

Definition arp_count_body (c : list arp_entry) (i k : Z) : outcome Z :=
  e ← aget c i; Ret (if negb (is_free (arp_st e)) then u32 (k + 1) else k).

Definition arp_cache_count (n : net) : outcome Z := for_range 0 ARP_CACHE_SIZE (arp_count_body (n_arp n)) 0.

Section Arp.
Context `{Kmem} (tx : tx_fun).

(** The header's fields at their offsets from [p]. *)
Definition arp_fill (b : list Z) (p : Z) (f : netif) (oper tpa : Z) (tha : list Z) : outcome (list Z) :=
  b ← net_put_be16 b p ARP_HTYPE_ETHER;
  b ← net_put_be16 b (p + 2) ARP_PTYPE_IPV4;
  b ← aset b (p + 4) ETH_ALEN;
  b ← aset b (p + 5) 4;
  b ← net_put_be16 b (p + 6) oper;
  b ← memcpy_from b (p + 8) (nif_mac f) 0 ETH_ALEN;
  b ← net_put_be32 b (p + 14) (ip_to_host (nif_ip f));
  b ← memcpy_from b (p + 18) tha 0 ETH_ALEN;
  net_put_be32 b (p + 24) (ip_to_host tpa).

Definition arp_build (n : net) (i : nat) (oper tpa : Z) (tha eth_dst : list Z) : outcome (net * option netbuf) :=
  f ← get_if n i;
  let '(k, nb) := netbuf_alloc (n_pool n) (ARP_HDR_LEN + ETH_HLEN) in
  let n := set_pool n k in
  match nb with
  | None => Ret (n, None)
  | Some nb =>
      let nb := (netbuf_reserve nb ETH_HLEN).1 in
      let '(nb, ah) := netbuf_put nb ARP_HDR_LEN in
      match ah with
      | None => Ret (free_nb n nb, None)
      | Some p =>
          b ← arp_fill (nb_buf nb) p f oper tpa tha;
          '(nb, rc) ← eth_build (with_buf nb b) eth_dst (nif_mac f) ETH_P_ARP;
          if negb (rc =? 0) then Ret (free_nb n nb, None) else Ret (n, Some nb)
      end
  end.

Definition arp_send_request (n : net) (i : nat) (target : Z) : outcome (net * Z) :=
  '(n, nb) ← arp_build n i ARP_OP_REQUEST target eth_zero eth_broadcast;
  match nb with None => Ret (n, -1) | Some nb => netif_transmit tx n (Some i) nb end.

Definition arp_announce (n : net) (i : nat) : outcome (net * Z) :=
  f ← get_if n i;
  '(n, nb) ← arp_build n i ARP_OP_REQUEST (nif_ip f) eth_broadcast eth_broadcast;
  match nb with None => Ret (n, -1) | Some nb => netif_transmit tx n (Some i) nb end.

Definition arp_pending (n : net) (i : nat) (ip : Z) : outcome net :=
  '(c, j) ← arp_slot (n_arp n) ip;
  e ← aget c j;
  let clock := u32 (n_arp_clock n + 1) in
  c ← aset c j (mk_arp ARP_INCOMPLETE (arp_ip e) (arp_mac e) clock);
  '(n, _) ← arp_send_request (set_arp_clock (set_arp n c) clock) i ip;
  Ret n.

(** The code and [*out]. *)
Definition arp_resolve (n : net) (nif : option nat) (ip : Z) (out : list Z) : outcome (net * Z * list Z) :=
  match nif with
  | None => Ret (n, -1, out)
  | Some i =>
      f ← get_if n i;
      if negb (Z.land (nif_flags f) NETIF_FLAG_LOOPBACK =? 0) then
        out ← mac_copy out (nif_mac f);
        Ret (n, 0, out)
      else
        let directed_bcast :=
          negb (nif_netmask f =? 0) && ip_same_subnet ip (nif_ip f) (nif_netmask f) &&
          (Z.land ip (not32 (nif_netmask f)) =? not32 (nif_netmask f)) in
        if ip_is_broadcast ip || directed_bcast then
          out ← mac_copy out eth_broadcast;
          Ret (n, 0, out)
        else
          r ← arp_cache_lookup n ip out;
          match r with
          | Some out => Ret (n, 0, out)
          | None => n ← arp_pending n i ip; Ret (n, 1, out)
          end
  end.

Definition arp_input (n : net) (i : nat) (nb : netbuf) : outcome net :=
  if netbuf_len nb <? ARP_HDR_LEN then Ret n
  else
    let b := nb_buf nb in
    let ah := nb_data nb in
    htype ← net_get_be16 b ah;
    ptype ← net_get_be16 b (ah + 2);
    hlen ← aget b (ah + 4);
    plen ← aget b (ah + 5);
    if negb (htype =? ARP_HTYPE_ETHER) || negb (ptype =? ARP_PTYPE_IPV4) || negb (hlen =? ETH_ALEN) || negb (plen =? 4)
    then Ret n
    else
      oper ← net_get_be16 b (ah + 6);
      spa ← net_get_be32 b (ah + 14);
      tpa ← net_get_be32 b (ah + 24);
      let spa := ip_from_host spa in
      let tpa := ip_from_host tpa in
      sha ← memcpy_from eth_zero 0 b (ah + 8) ETH_ALEN;
      n ← (if negb (ip_is_zero spa) then arp_cache_insert n spa sha else Ret n);
      f ← get_if n i;
      if (oper =? ARP_OP_REQUEST) && negb (ip_is_zero (nif_ip f)) && ip_equal tpa (nif_ip f) then
        '(n, reply) ← arp_build n i ARP_OP_REPLY spa sha sha;
        match reply with
        | None => Ret n
        | Some reply => '(n, _) ← netif_transmit tx n (Some i) reply; Ret n
        end
      else Ret n.

End Arp.

(** ** Specification *)

(** The cache is full size, its addresses are, and no address is in it twice. *)
Record arp_ok (c : list arp_entry) : Prop := {
  ao_len : zlen c = ARP_CACHE_SIZE;
  ao_mac : Forall (λ e, mac (arp_mac e)) c;
  ao_unique : ∀ i j e e', c !! i = Some e → c !! j = Some e' → arp_st e ≠ ARP_FREE → arp_st e' ≠ ARP_FREE → arp_ip e = arp_ip e' → i = j
}.

(** The address is in the entry [i]. *)
Definition arp_at (c : list arp_entry) (ip : Z) (i : nat) (e : arp_entry) : Prop :=
  c !! i = Some e ∧ arp_st e ≠ ARP_FREE ∧ arp_ip e = ip.

(** The cache as a map from addresses to resolved hardware addresses. *)
Definition resolves (c : list arp_entry) (ip : Z) (m : list Z) : Prop :=
  ∃ i e, arp_at c ip i e ∧ arp_st e = ARP_RESOLVED ∧ arp_mac e = m.

(** ** Lemmas *)

Lemma is_free_spec s : is_free s = true ↔ s = ARP_FREE.
Proof. by destruct s. Qed.

Lemma arp_find_spec c ip :
  zlen c = ARP_CACHE_SIZE →
  (∃ (j : nat) e, arp_find c ip = Ret (Some (Z.of_nat j)) ∧ arp_at c ip j e) ∨ (arp_find c ip = Ret None ∧ ∀ i e, ¬ arp_at c ip i e).
Proof.
  intros Hl. unfold arp_find.
  destruct (find_range_inv (λ i (_ : unit), ∀ k e, Z.of_nat k < i → ¬ arp_at c ip k e) (λ r, 0 ≤ r ∧ ∃ e, arp_at c ip (Z.to_nat r) e)
    (arp_find_body c ip) 0 ARP_CACHE_SIZE tt) as [([] & E & Hn)|(r & E & Hr & e & He)]; [done| |intros; lia|..].
  - intros i [] Hi Hn. unfold arp_find_body. destruct (aget_in c i) as (e & He & ->); [lia|]. cbn [mbind outcome_bind].
    destruct (is_free (arp_st e)) eqn:Ef; cbn [negb andb]; [|unfold ip_equal; destruct (Z.eqb_spec (arp_ip e) ip) as [Eip|Eip]].
    + left. eexists. split; [done|]. intros k e' Hk (He' & Hs & Hip). destruct (decide (Z.of_nat k = i)) as [<-|]; [|by apply (Hn k e'); [lia|]].
      rewrite Nat2Z.id in He. apply is_free_spec in Ef. congruence.
    + right. eexists. split; [done|]. split; [lia|]. exists e. split; [done|]. split; [|done]. intros Hs. by rewrite Hs in Ef.
    + left. eexists. split; [done|]. intros k e' Hk (He' & Hs & Hip). destruct (decide (Z.of_nat k = i)) as [<-|]; [|by apply (Hn k e'); [lia|]].
      rewrite Nat2Z.id in He. congruence.
  - right. rewrite E. split; [done|]. intros i e He. apply (Hn i e); [|done]. destruct He as [He _]. apply lookup_lt_Some in He. unfold zlen in Hl. lia.
  - left. exists (Z.to_nat r), e. rewrite E, Z2Nat.id by done. done.
Qed.

(** The slot taken is free, or none is and no entry is older. *)
Lemma arp_alloc_slot_spec c :
  zlen c = ARP_CACHE_SIZE →
  ∃ (j : nat) e, arp_alloc_slot c = Ret (Z.of_nat j) ∧ c !! j = Some e ∧
    (arp_st e = ARP_FREE ∨ ∀ i e', c !! i = Some e' → arp_st e' ≠ ARP_FREE ∧ arp_age e ≤ arp_age e').
Proof.
  intros Hl. unfold arp_alloc_slot.
  destruct (find_range_inv
    (λ i o, 0 ≤ o < ARP_CACHE_SIZE ∧ ∃ e, c !! Z.to_nat o = Some e ∧ ∀ k e', Z.of_nat k < i → c !! k = Some e' → arp_st e' ≠ ARP_FREE ∧ arp_age e ≤ arp_age e')
    (λ r, 0 ≤ r ∧ ∃ e, c !! Z.to_nat r = Some e ∧ arp_st e = ARP_FREE)
    (arp_alloc_body c) 0 ARP_CACHE_SIZE 0) as [(o & E & Ho & e & He & Hmin)|(r & E & Hr & e & He & Hs)]; [done| | |..].
  - intros i o Hi (Ho & e & He & Hmin). unfold arp_alloc_body. destruct (aget_in c i) as (e' & He' & ->); [lia|]. cbn [mbind outcome_bind].
    destruct (is_free (arp_st e')) eqn:Ef.
    + right. eexists. split; [done|]. split; [lia|]. exists e'. split; [done|]. by apply is_free_spec.
    + left. rewrite (aget_Some _ _ _ (proj1 Ho) He). cbn [mbind outcome_bind].
      assert (arp_st e' ≠ ARP_FREE) as Hne by (intros Hx; by rewrite Hx in Ef).
      destruct (Z.ltb_spec (arp_age e') (arp_age e)) as [Hlt|Hge]; eexists; (split; [done|]).
      * split; [lia|]. exists e'. split; [done|]. intros k e'' Hk Hk''. destruct (decide (Z.of_nat k = i)) as [<-|].
        -- rewrite Nat2Z.id in He'. simplify_eq. done.
        -- destruct (Hmin k e'' ltac:(lia) Hk''). split; [done|lia].
      * split; [done|]. exists e. split; [done|]. intros k e'' Hk Hk''. destruct (decide (Z.of_nat k = i)) as [<-|].
        -- rewrite Nat2Z.id in He'. simplify_eq. done.
        -- by apply (Hmin k); [lia|].
  - split; [done|]. destruct (lookup_in c 0) as [e He]; [by rewrite Hl|]. exists e. split; [done|]. intros k e' Hk. lia.
  - exists (Z.to_nat o), e. rewrite E, Z2Nat.id by lia. split; [done|]. split; [done|]. right. intros i e' Hi. apply (Hmin i); [|done].
    apply lookup_lt_Some in Hi. unfold zlen in Hl. lia.
  - exists (Z.to_nat r), e. rewrite E, Z2Nat.id by done. auto.
Qed.

(** The slot [j] is where [ip] is, or where it is to go. *)
Definition arp_slot_for (c : list arp_entry) (ip : Z) (j : nat) : Prop :=
  (∃ e, arp_at c ip j e) ∨
  (∀ i e, ¬ arp_at c ip i e) ∧ ∃ e, c !! j = Some e ∧ (arp_st e = ARP_FREE ∨ ∀ i e', c !! i = Some e' → arp_st e' ≠ ARP_FREE ∧ arp_age e ≤ arp_age e').

Lemma arp_slot_spec c ip :
  arp_ok c → ∃ (j : nat) e c', arp_slot c ip = Ret (c', Z.of_nat j) ∧ arp_slot_for c ip j ∧ c' !! j = Some e ∧ arp_ip e = ip ∧ mac (arp_mac e) ∧
    ∀ e', <[j := e']> c' = <[j := e']> c.
Proof.
  intros Hok. unfold arp_slot. destruct (arp_find_spec c ip (ao_len _ Hok)) as [(j & e & E & He)|[E Hn]]; rewrite E; cbn [mbind outcome_bind].
  - exists j, e, c. split; [done|]. split; [left; by exists e|]. destruct He as (He & _ & Hip). split; [done|]. split; [done|].
    split; [|done]. apply (Forall_lookup_1 _ _ _ _ (ao_mac _ Hok) He).
  - destruct (arp_alloc_slot_spec c (ao_len _ Hok)) as (j & e & E' & He & Hs). rewrite E'. cbn [mbind outcome_bind].
    pose proof (lookup_lt_Some _ _ _ He) as Hlt. rewrite (aget_Some c _ e) by (lia || by rewrite Nat2Z.id). cbn [mbind outcome_bind].
    rewrite aset_in by (unfold zlen; lia). cbn [mbind outcome_bind]. rewrite Nat2Z.id. eexists j, _, _. split; [done|].
    split; [right; split; [done|by exists e]|]. split; [by apply list_lookup_insert_eq|]. split; [done|].
    split; [apply (Forall_lookup_1 _ _ _ _ (ao_mac _ Hok) He)|]. intros e'. apply list_insert_insert_eq.
Qed.

Lemma arp_put_at c ip j e' :
  arp_ok c → arp_slot_for c ip j → arp_ip e' = ip → arp_st e' ≠ ARP_FREE → ∀ ip' i e,
  arp_at (<[j := e']> c) ip' i e ↔ (ip' = ip ∧ i = j ∧ e = e') ∨ (ip' ≠ ip ∧ i ≠ j ∧ arp_at c ip' i e).
Proof.
  intros Hok Hj Hip Hs ip' i e. assert (j < length c)%nat as Hlt.
  { destruct Hj as [(x & Hx & _)|(_ & x & Hx & _)]; by eapply lookup_lt_Some. }
  unfold arp_at. destruct (decide (i = j)) as [->|Hne].
  - rewrite list_lookup_insert_eq by done. split.
    + intros ([= <-] & _ & <-). by left.
    + intros [(-> & _ & ->)|(_ & Hx & _)]; [done|by destruct Hx].
  - rewrite list_lookup_insert_ne by done. split; [|intros [(_ & -> & _)|(_ & _ & Hx)]; done]. intros (He & Hst & Hipe). right. split; [|done].
    intros ->. destruct Hj as [(x & Hx & Hxs & Hxi)|(Hno & _)].
    + apply Hne. by eapply (ao_unique _ Hok); [exact He|exact Hx|done|done|congruence].
    + by apply (Hno i e).
Qed.

Lemma arp_put_ok c ip j e' :
  arp_ok c → arp_slot_for c ip j → arp_ip e' = ip → arp_st e' ≠ ARP_FREE → mac (arp_mac e') → arp_ok (<[j := e']> c).
Proof.
  intros Hok Hj Hip Hs Hm. split.
  - rewrite zlen_insert. apply (ao_len _ Hok).
  - by apply Forall_insert; [apply (ao_mac _ Hok)|].
  - intros i k e1 e2 H1 H2 Hs1 Hs2 Hips. pose proof (arp_put_at c ip j e' Hok Hj Hip Hs) as Hat.
    destruct (proj1 (Hat (arp_ip e1) i e1) (conj H1 (conj Hs1 eq_refl))) as [(? & -> & ->)|(? & ? & He1 & _)];
    destruct (proj1 (Hat (arp_ip e2) k e2) (conj H2 (conj Hs2 eq_refl))) as [(? & -> & ->)|(? & ? & He2 & _)]; try done; try congruence.
    by eapply (ao_unique _ Hok).
Qed.

Lemma arp_insert_spec n ip m :
  arp_ok (n_arp n) → ip ≠ 0 → mac m →
  ∃ j, arp_slot_for (n_arp n) ip j ∧
    let clock := u32 (n_arp_clock n + 1) in
    arp_cache_insert n ip m = Ret (set_arp_clock (set_arp n (<[j := mk_arp ARP_RESOLVED ip m clock]> (n_arp n))) clock).
Proof.
  intros Hok Hip Hm. unfold arp_cache_insert. unfold ip_is_zero. rewrite (proj2 (Z.eqb_neq _ 0)) by done.
  destruct (arp_slot_spec _ ip Hok) as (j & e & c' & E & Hj & He & Hipe & Hme & Hins). rewrite E. cbn [mbind outcome_bind].
  pose proof (lookup_lt_Some _ _ _ He). rewrite (aget_Some c' _ e) by (lia || by rewrite Nat2Z.id). cbn [mbind outcome_bind].
  rewrite mac_copy_mac by done. cbn [mbind outcome_bind]. rewrite aset_in by (unfold zlen; lia). cbn [mbind outcome_bind].
  rewrite Nat2Z.id, Hins, Hipe. by exists j.
Qed.

Lemma arp_lookup_spec n ip out :
  arp_ok (n_arp n) → mac out →
  ∃ r, arp_cache_lookup n ip out = Ret r ∧ ∀ m, r = Some m ↔ resolves (n_arp n) ip m.
Proof.
  intros Hok Hout. unfold arp_cache_lookup.
  destruct (arp_find_spec (n_arp n) ip (ao_len _ Hok)) as [(j & e & E & He)|[E Hn]]; rewrite E; cbn [mbind outcome_bind].
  - pose proof He as (He' & Hs & Hip). rewrite (aget_Some _ _ e) by (lia || by rewrite Nat2Z.id). cbn [mbind outcome_bind].
    assert (∀ m, resolves (n_arp n) ip m ↔ arp_st e = ARP_RESOLVED ∧ arp_mac e = m) as Hr.
    { intros m. split; [|intros []; by exists j, e]. intros (i & e2 & (H2 & Hs2 & Hip2) & Hr2 & Hm2).
      assert (i = j) as -> by (eapply (ao_unique _ Hok); [exact H2|exact He'|done|done|congruence]). by simplify_eq. }
    destruct (arp_st e) eqn:Es; cbn [is_resolved].
    + done.
    + eexists. split; [done|]. intros m. rewrite Hr. split; [done|intros []; done].
    + rewrite mac_copy_mac by (done || apply (Forall_lookup_1 _ _ _ _ (ao_mac _ Hok) He')). eexists. split; [done|]. intros m. rewrite Hr. naive_solver.
  - eexists. split; [done|]. intros m. split; [done|]. intros (i & e & He & _). by apply Hn in He.
Qed.

(** The ARP cache: inserting a mapping keeps the cache well formed and makes it
    the one found for its address; any other mapping is still found, unless the cache
    was full without the address and the mapping was the oldest one, which is replaced. *)
Theorem arp_cache_insert_correct n ip m out :
  arp_ok (n_arp n) → ip ≠ 0 → mac m → mac out →
  ∃ n', arp_cache_insert n ip m = Ret n' ∧ arp_ok (n_arp n') ∧ arp_cache_lookup n' ip out = Ret (Some m) ∧
    ∀ ip', ip' ≠ ip →
      arp_cache_lookup n' ip' out = arp_cache_lookup n ip' out ∨
      arp_cache_lookup n' ip' out = Ret None ∧ (∀ i e, ¬ arp_at (n_arp n) ip i e) ∧
        ∃ j e, arp_at (n_arp n) ip' j e ∧ ∀ i e', n_arp n !! i = Some e' → arp_st e' ≠ ARP_FREE ∧ arp_age e ≤ arp_age e'.
Proof.
  intros Hok Hip Hm Hout. destruct (arp_insert_spec n ip m Hok Hip Hm) as (j & Hj & E). cbn zeta in E.
  set (e' := mk_arp ARP_RESOLVED ip m (u32 (n_arp_clock n + 1))) in *. pose proof (arp_put_at (n_arp n) ip j e' Hok Hj eq_refl ltac:(done)) as Hat.
  pose proof (arp_put_ok (n_arp n) ip j e' Hok Hj eq_refl ltac:(done) Hm) as Hok'. eexists. split; [exact E|]. split; [exact Hok'|].
  set (n' := set_arp_clock _ _). split.
  { destruct (arp_lookup_spec n' ip out Hok' Hout) as (r & -> & Hr). f_equal. apply Hr. exists j, e'. split; [|done]. apply Hat. by left. }
  intros ip' Hne. destruct (arp_lookup_spec n' ip' out Hok' Hout) as (r' & Er' & Hr'). destruct (arp_lookup_spec n ip' out Hok Hout) as (r & Er & Hr).
  assert (∀ m', resolves (n_arp n') ip' m' → resolves (n_arp n) ip' m') as Hsub.
  { intros m' (i & e & He & Hs). apply Hat in He as [(? & _)|(_ & _ & He)]; [done|]. by exists i, e. }
  rewrite Er, Er'. destruct r as [m'|].
  2: { left. destruct r' as [m''|]; [|done]. specialize (proj1 (Hr' m'') eq_refl) as Hx. by apply Hsub, Hr in Hx. }
  specialize (proj1 (Hr m') eq_refl) as (i & e & He & Hs & Em). destruct (decide (i = j)) as [->|Hij].
  - right. split.
    + destruct r' as [m''|]; [|done]. exfalso. specialize (proj1 (Hr' m'') eq_refl) as (i & e2 & He2 & _).
      apply Hat in He2 as [(? & _)|(_ & Hij & He2)]; [done|]. apply Hij. destruct He as (H1 & H2 & H3). destruct He2 as (H4 & H5 & H6).
      eapply (ao_unique _ Hok); [exact H4|exact H1|done|done|congruence].
    + destruct Hj as [(x & Hx & _ & Hxi)|(Hno & x & Hx & Hold)].
      { destruct He as (H1 & _ & H3). congruence. }
      split; [done|]. exists j, e. split; [done|]. destruct He as (H1 & H2 & _). simplify_eq. by destruct Hold.
  - left. f_equal. apply Hr'. exists i, e. split; [|done]. apply Hat. by right.
Qed.

Lemma arp_cache_insert_correct_witness :
  ∃ n', arp_cache_insert (arp_init empty_net) (ip_make 10 0 2 2) [0x52; 0x54; 0; 0x12; 0x34; 0x56] = Ret n' ∧
    arp_cache_lookup n' (ip_make 10 0 2 2) eth_zero = Ret (Some [0x52; 0x54; 0; 0x12; 0x34; 0x56]).
Proof.
  destruct (arp_cache_insert_correct (arp_init empty_net) (ip_make 10 0 2 2) [0x52; 0x54; 0; 0x12; 0x34; 0x56] eth_zero) as (n' & E & _ & E' & _).
  - split; [done|apply Forall_replicate, eth_zero_mac|]. intros i j e e' Hi _ Hs. apply lookup_replicate in Hi as [-> _]. done.
  - by vm_compute.
  - split; [done|]. bytes_of.
  - apply eth_zero_mac.
  - by exists n'.
Defined.
