(* ===== verification/Ipv4.v ===== *)
(** IPv4: [kernel/net/ipv4.c], with the routing table. The handlers of the
    layer above ([icmp_input], [udp_input], [tcp_input]) and the transmit
    function behind an interface are arguments. *)

From S2P Require Import Prelude CString NetBase Netbuf NetIf Arp.

(** ** Definitions *)

Definition IP_PROTO_ICMP : Z := 1.
Definition IP_PROTO_TCP : Z := 6.
Definition IP_PROTO_UDP : Z := 17.
Definition IPV4_VERSION : Z := 4.
Definition IPV4_IHL_MIN : Z := 5.
Definition IPV4_HDR_LEN : Z := 20.
Definition IPV4_FLAG_DF : Z := 0x4000.
Definition IP_ROUTE_MAX : Z := 8.

Definition ipv4_version (ver_ihl : Z) : Z := u8 (Z.shiftr ver_ihl 4).
Definition ipv4_ihl (ver_ihl : Z) : Z := u8 (Z.land ver_ihl 0x0F).
Definition ipv4_hdr_bytes (ver_ihl : Z) : Z := u16 (ipv4_ihl ver_ihl * 4).

(** *** Routing *)

(** Turn [k] of the loop looks at bit [31 - k]. *)
Definition prefix_body (host k n : Z) : outcome (Z + Z) :=
  let i := 31 - k in
  Ret (if negb (Z.land host (u32 (Z.shiftl 1 i)) =? 0) then inl (u32 (n + 1)) else inr n).

Definition mask_prefix_len (mask : Z) : outcome Z :=
  let host := ip_to_host mask in
  r ← find_range 0 32 (prefix_body host) 0;
  Ret (match r with inl n => n | inr n => n end).

(** [n_routes] is the part of the table that is in use. *)
Definition route_init (n : net) : net := set_routes n [].

Definition route_add (n : net) (dest netmask gateway : Z) (nif : option nat) : outcome (net * Z) :=
  if IP_ROUTE_MAX <=? zlen (n_routes n) then Ret (n, -1)
  else
    len ← mask_prefix_len netmask;
    Ret (set_routes n (n_routes n ++ [mk_route dest netmask gateway nif true len]), 0).

Definition route_count (n : net) : Z := zlen (n_routes n).

Definition route_matches (r : ip_route) (dst : Z) : bool :=
  Z.land dst (rt_netmask r) =? Z.land (rt_dest r) (rt_netmask r).

(** The loop over the table, with [best]. *)
Definition route_body (dst : Z) (best : option ip_route) (r : ip_route) : option ip_route :=
  if negb (rt_valid r) then best
  else if route_matches r dst then
    match best with
    | None => Some r
    | Some b => if rt_prefix_len b <? rt_prefix_len r then Some r else best
    end
  else best.

(** The route and [*next_hop]. *)
Definition route_lookup (n : net) (dst : Z) : option (ip_route * Z) :=
  match foldl (route_body dst) None (n_routes n) with
  | None => None
  | Some best => Some (best, if ip_is_zero (rt_gateway best) then dst else rt_gateway best)
  end.

Definition ipv4_init (n : net) : net := set_ip_id n 0x1000.

(** *** Output *)

(** The header's fields at their offsets from [h]; [id] is [g_ip_id]. *)
Definition ipv4_fill (b : list Z) (h src dst proto ttl payload id : Z) : outcome (list Z) :=
  b ← aset b h (u8 (Z.lor (Z.shiftl IPV4_VERSION 4) IPV4_IHL_MIN));
  b ← aset b (h + 1) 0;
  b ← net_put_be16 b (h + 2) (u16 (IPV4_HDR_LEN + payload));
  b ← net_put_be16 b (h + 4) id;
  b ← net_put_be16 b (h + 6) IPV4_FLAG_DF;
  b ← aset b (h + 8) ttl;
  b ← aset b (h + 9) proto;
  b ← put_u16 b (h + 10) 0;
  b ← put_u32 b (h + 12) src;
  b ← put_u32 b (h + 16) dst;
  csum ← net_checksum b h IPV4_HDR_LEN;
  put_u16 b (h + 10) csum.

Definition ipv4_build (n : net) (nb : netbuf) (src dst proto ttl : Z) : outcome (net * netbuf * Z) :=
  let payload := u16 (netbuf_len nb) in
  let '(nb, h) := netbuf_push nb IPV4_HDR_LEN in
  match h with
  | None => Ret (n, nb, -1)
  | Some h =>
      b ← ipv4_fill (nb_buf nb) h src dst proto ttl payload (n_ip_id n);
      Ret (set_ip_id n (u16 (n_ip_id n + 1)), with_net (with_buf nb b) h, 0)
  end.

(** The interface a packet to [dst] leaves by, and the next hop. *)
Definition egress (n : net) (dst : Z) : outcome (option nat * Z) :=
  '(nif, next_hop) ←
    (match route_lookup n dst with
     | Some (r, next_hop) => Ret (rt_nif r, next_hop)
     | None => nif ← netif_for_dest n dst; Ret (nif, dst)
     end);
  match nif with
  | Some _ => Ret (nif, next_hop)
  | None => nif ← netif_default n; Ret (nif, next_hop)
  end.

Section Ipv4.
Context `{Kmem} (tx : tx_fun).

Definition ipv4_output (n : net) (nb : netbuf) (src dst proto ttl : Z) : outcome (net * Z) :=
  '(nif, next_hop) ← egress n dst;
  match nif with
  | None => Ret (free_nb n nb, -1)
  | Some i =>
      f ← get_if n i;
      let src := if ip_is_zero src then nif_ip f else src in
      '(n, nb, rc) ← ipv4_build n nb src dst proto ttl;
      if negb (rc =? 0) then Ret (free_nb n nb, -1)
      else
        '(n, rc, dmac) ← arp_resolve tx n (Some i) next_hop eth_zero;
        if negb (rc =? 0) then
          Ret (free_nb (if_stat n i (add_tx_dropped 1)) nb, if 0 <? rc then 1 else -1)
        else
          f ← get_if n i;
          '(nb, rc) ← eth_build nb dmac (nif_mac f) ETH_P_IPV4;
          if negb (rc =? 0) then Ret (free_nb n nb, -1)
          else netif_transmit tx n (Some i) nb
  end.

(** *** Input *)

Definition l4_input : Type := net → nat → netbuf → Z → Z → outcome net.

Definition ipv4_input (icmp_input udp_input tcp_input : l4_input) (n : net) (i : nat) (nb : netbuf) : outcome net :=
  let rx_error := Ret (if_stat n i (add_rx_errors 1)) in
  if netbuf_len nb <? IPV4_HDR_LEN then rx_error
  else
    let b := nb_buf nb in
    let h := nb_data nb in
    ver_ihl ← aget b h;
    if negb (ipv4_version ver_ihl =? IPV4_VERSION) then rx_error
    else
      let hdr_bytes := ipv4_hdr_bytes ver_ihl in
      if (hdr_bytes <? IPV4_HDR_LEN) || (netbuf_len nb <? hdr_bytes) then rx_error
      else
        csum ← net_checksum b h hdr_bytes;
        if negb (csum =? 0) then rx_error
        else
          total_len ← net_get_be16 b (h + 2);
          let nb :=
            if (total_len <? hdr_bytes) || (netbuf_len nb <? total_len) then
              if (hdr_bytes <=? total_len) && (total_len <=? netbuf_len nb) then netbuf_trim nb total_len else nb
            else netbuf_trim nb total_len in
          src ← get_u32 b (h + 12);
          dst ← get_u32 b (h + 16);
          proto ← aget b (h + 9);
          let nb := with_net nb (nb_data nb) in
          let nb := (netbuf_pull nb hdr_bytes).1 in
          if proto =? IP_PROTO_ICMP then icmp_input n i nb src dst
          else if proto =? IP_PROTO_UDP then udp_input n i nb src dst
          else if proto =? IP_PROTO_TCP then tcp_input n i nb src dst
          else Ret (if_stat n i (add_rx_dropped 1)).

End Ipv4.

(** ** Specification *)

(** The header's bytes with [ck] for its checksum. *)
Definition ip_front (len id ttl proto : Z) : list Z :=
  [0x45; 0] ++ be16 len ++ be16 id ++ be16 IPV4_FLAG_DF ++ [ttl; proto].
Definition ip_back (src dst : Z) : list Z := le32 src ++ le32 dst.
Definition ip_header (len id ttl proto src dst : Z) : list Z :=
  ip_front len id ttl proto ++ csum_field (wsum (ip_front len id ttl proto ++ [0; 0] ++ ip_back src dst)) ++ ip_back src dst.

(** ** Lemmas *)

Lemma ip_header_length len id ttl proto src dst : zlen (ip_header len id ttl proto src dst) = IPV4_HDR_LEN.
Proof. done. Qed.

Lemma bytes_be16 v : bytes (be16 v).
Proof. bytes_of. Qed.

Lemma ip_front_bytes len id ttl proto : is_u8 ttl → is_u8 proto → bytes (ip_front len id ttl proto).
Proof. intros. bytes_of. Qed.

Lemma ip_back_bytes src dst : bytes (ip_back src dst).
Proof. bytes_of. Qed.

Lemma ip_front_back_bytes len id ttl proto src dst :
  is_u8 ttl → is_u8 proto → bytes (ip_front len id ttl proto ++ [0; 0] ++ ip_back src dst).
Proof.
  intros. apply bytes_app. split; [by apply ip_front_bytes|]. apply bytes_app. split; [by bytes_of|]. apply ip_back_bytes.
Qed.

Lemma ip_header_bytes len id ttl proto src dst :
  is_u8 ttl → is_u8 proto → bytes (ip_header len id ttl proto src dst).
Proof.
  intros Ht Hp. apply bytes_app. split; [by apply ip_front_bytes|]. apply bytes_app. split; [|apply ip_back_bytes].
  apply csum_field_spec, wsum_range. by apply ip_front_back_bytes.
Qed.

Lemma ipv4_fill_spec pre gap post src dst proto ttl payload id :
  zlen gap = IPV4_HDR_LEN → is_u8 ttl → is_u8 proto →
  ipv4_fill (pre ++ gap ++ post) (zlen pre) src dst proto ttl payload id =
    Ret (pre ++ ip_header (u16 (IPV4_HDR_LEN + payload)) id ttl proto src dst ++ post).
Proof.
  intros Hg Ht Hp. assert (length gap = 20%nat) as Hg' by (unfold zlen, IPV4_HDR_LEN in Hg; lia). list_elems gap.
  unfold ipv4_fill. write_hdr. set (len := u16 (IPV4_HDR_LEN + payload)).
  match goal with |- context [pre ++ ?h ++ post] =>
    change h with (ip_front len id ttl proto ++ [0; 0] ++ ip_back src dst) end.
  change IPV4_HDR_LEN with (zlen (ip_front len id ttl proto ++ [0; 0] ++ ip_back src dst)).
  rewrite net_checksum_spec; [|by apply ip_front_back_bytes|done]. cbn [mbind outcome_bind].
  rewrite put_u16_mid by done. done.
Qed.

Lemma ipv4_build_spec n nb pre gap c post src dst proto ttl :
  holds nb (pre ++ gap) c post → zlen gap = IPV4_HDR_LEN → zlen c < 2 ^ 16 → is_u8 ttl → is_u8 proto →
  ∃ nb', ipv4_build n nb src dst proto ttl = Ret (set_ip_id n (u16 (n_ip_id n + 1)), nb', 0) ∧
    holds nb' pre (ip_header (u16 (IPV4_HDR_LEN + zlen c)) (n_ip_id n) ttl proto src dst ++ c) post ∧ nb_netif nb' = nb_netif nb.
Proof.
  intros H Hg Hc Ht Hp. unfold ipv4_build. rewrite (holds_len _ _ _ _ H). pose proof (zlen_nonneg c).
  destruct (push_ok _ _ _ _ _ IPV4_HDR_LEN H ltac:(done)) as (nb' & E & H' & Hi). rewrite E.
  pose proof H' as (Eb & _). rewrite Eb. rewrite <-(assoc_L (++) gap), ipv4_fill_spec by done. cbn [mbind outcome_bind].
  eexists. split; [done|]. split; [|done]. rewrite (u16_small (zlen c)) by lia.
  by apply (holds_with_hdr _ _ _ _ _ _ H').
Qed.

(** The dispatch on the protocol. *)
Definition l4_dispatch (icmp_input udp_input tcp_input : l4_input) (proto : Z) : l4_input := λ n i nb src dst,
  if proto =? IP_PROTO_ICMP then icmp_input n i nb src dst
  else if proto =? IP_PROTO_UDP then udp_input n i nb src dst
  else if proto =? IP_PROTO_TCP then tcp_input n i nb src dst
  else Ret (if_stat n i (add_rx_dropped 1)).

Lemma ip_checksum_ok pre len id ttl proto src dst post :
  is_u8 ttl → is_u8 proto →
  net_checksum (pre ++ ip_header len id ttl proto src dst ++ post) (zlen pre) 20 = Ret 0.
Proof.
  intros Ht Hp. change 20 with (zlen (ip_header len id ttl proto src dst)).
  rewrite net_checksum_spec; [|by apply ip_header_bytes|done].
  by rewrite <-(csum_message (ip_front len id ttl proto) (ip_back src dst) 0 ltac:(by exists 5%nat)
                  (ip_front_bytes _ _ _ _ Ht Hp) (ip_back_bytes src dst) ltac:(done)).
Qed.

Lemma ipv4_input_spec icmp udp tcp n i nb pre len id ttl proto src dst c pad post :
  holds nb pre (ip_header len id ttl proto src dst ++ c ++ pad) post → len = IPV4_HDR_LEN + zlen c → len < 2 ^ 16 →
  is_u8 ttl → is_u8 proto → is_u32 src → is_u32 dst →
  ∃ nb', ipv4_input icmp udp tcp n i nb = l4_dispatch icmp udp tcp proto n i nb' src dst ∧
    holds nb' (pre ++ ip_header len id ttl proto src dst) c (pad ++ post) ∧ nb_netif nb' = nb_netif nb ∧ nb_buf nb' = nb_buf nb.
Proof.
  intros H Hlen Hl Ht Hp Hs Hd. set (hdr := ip_header len id ttl proto src dst) in *.
  pose proof (zlen_nonneg c). pose proof (zlen_nonneg pad). assert (zlen hdr = 20) as Hh by done.
  assert (is_u16 len) as Hl16 by (unfold is_u16, IPV4_HDR_LEN in *; lia).
  unfold ipv4_input. pose proof (holds_len _ _ _ _ H) as El. rewrite !zlen_app, Hh in El.
  rewrite El. unfold IPV4_HDR_LEN in *. rewrite (proj2 (Z.ltb_ge _ _)) by lia.
  pose proof H as (Eb & Ed & _). rewrite Eb, Ed. rewrite <-(assoc_L (++) hdr).
  rewrite (aget_mid0 _ hdr _ 0x45) by done. cbn [mbind outcome_bind].
  change (ipv4_version 0x45 =? IPV4_VERSION) with true. change (ipv4_hdr_bytes 0x45) with 20. cbn [negb].
  change (20 <? 20) with false. rewrite (proj2 (Z.ltb_ge (20 + _) 20)) by lia. cbn [orb].
  rewrite (ip_checksum_ok pre len id ttl proto src dst (_ ++ post) Ht Hp : net_checksum (pre ++ hdr ++ _) _ _ = _). cbn [mbind outcome_bind].
  cbn [Z.eqb negb]. rewrite (get_be16_mid _ hdr _ 2 len) by done. cbn [mbind outcome_bind].
  rewrite (proj2 (Z.ltb_ge len 20)), (proj2 (Z.ltb_ge _ len)) by lia. cbn [orb].
  rewrite (get_u32_mid _ hdr _ 12 src), (get_u32_mid _ hdr _ 16 dst) by done. cbn [mbind outcome_bind].
  rewrite (aget_mid _ hdr _ 9 proto) by done. cbn [mbind outcome_bind].
  assert (holds (netbuf_trim nb len) pre (hdr ++ c) (pad ++ post)) as Htr.
  { replace len with (zlen (hdr ++ c)) by (rewrite zlen_app, Hh; lia). apply trim_ok. by rewrite <-(assoc_L (++)). }
  assert (nb_netif (netbuf_trim nb len) = nb_netif nb ∧ nb_buf (netbuf_trim nb len) = nb_buf nb) as [Hi Hbuf].
  { unfold netbuf_trim. by case_match. }
  destruct (pull_ok (with_net (netbuf_trim nb len) (nb_data (netbuf_trim nb len))) _ _ _ _ 20 Htr ltac:(done)) as (nb' & E & H' & Eb' & Hi').
  rewrite E. exists nb'. split; [done|]. split; [done|]. rewrite Hi', Eb'.
  split; [exact Hi|]. rewrite (assoc_L (++) hdr), <-Eb. exact Hbuf.
Qed.

Lemma egress_links n n' dst : same_links n n' → egress n' dst = egress n dst.
Proof.
  intros Hq. unfold egress, route_lookup. by rewrite (sl_routes _ _ Hq), (netif_for_dest_links _ _ _ Hq), (netif_default_links _ _ Hq).
Qed.

Lemma egress_quiet n n' dst : quiet n n' → egress n' dst = egress n dst.
Proof. intros Hq. by apply egress_links, quiet_links. Qed.

(** *** Routing *)

(** The mask has exactly [k] leading one bits. *)
Definition leading_ones (mask k : Z) : Prop :=
  0 ≤ k ≤ 32 ∧ (∀ j, 0 ≤ j < k → Z.testbit (ip_to_host mask) (31 - j) = true) ∧ (k < 32 → Z.testbit (ip_to_host mask) (31 - k) = false).

Lemma land_bit z i : 0 ≤ i < 32 → (Z.land z (u32 (Z.shiftl 1 i)) =? 0) = negb (Z.testbit z i).
Proof.
  intros Hi. rewrite Z.shiftl_1_l. rewrite u32_small by (split; [lia|apply Z.pow_lt_mono_r; lia]).
  destruct (Z.testbit z i) eqn:E; cbn [negb].
  - apply Z.eqb_neq. intros Hz. assert (Z.testbit (Z.land z (2 ^ i)) i = false) as H0 by (by rewrite Hz, Z.bits_0).
    rewrite Z.land_spec, E, testbit_pow2, bool_decide_eq_true_2 in H0 by lia. done.
  - apply Z.eqb_eq, Z.bits_inj'. intros j Hj. rewrite Z.land_spec, testbit_pow2, Z.bits_0 by lia.
    case_bool_decide; [subst; by rewrite E|apply andb_false_r].
Qed.

Lemma mask_prefix_len_spec mask : ∃ k, mask_prefix_len mask = Ret k ∧ leading_ones mask k.
Proof.
  unfold mask_prefix_len. set (host := ip_to_host mask).
  destruct (find_range_inv (λ i n, n = i ∧ ∀ j, 0 ≤ j < i → Z.testbit host (31 - j) = true) (leading_ones mask)
    (prefix_body host) 0 32 0) as [(n & E & -> & Hn)|(k & E & Hk)]; [lia| |split; [done|lia]|..].
  - intros i n Hi [-> Hn]. unfold prefix_body. rewrite land_bit, negb_involutive by lia. destruct (Z.testbit host (31 - i)) eqn:Eb.
    + left. eexists. split; [done|]. split; [apply u32_small; lia|]. intros j Hj. destruct (decide (j = i)) as [->|]; [done|apply Hn; lia].
    + right. eexists. split; [done|]. split; [lia|]. done.
  - exists 32. rewrite E. split; [done|]. split; [lia|]. split; [done|lia].
  - exists k. by rewrite E.
Qed.

Lemma leading_ones_unique mask k k' : leading_ones mask k → leading_ones mask k' → k = k'.
Proof.
  intros (Hk & H1 & H0) (Hk' & H1' & H0'). destruct (Z.lt_trichotomy k k') as [Hlt|[|Hlt]]; [|done|].
  - by rewrite H1' in H0 by lia; specialize (H0 ltac:(lia)).
  - by rewrite H1 in H0' by lia; specialize (H0' ltac:(lia)).
Qed.

(** The best of the routes seen so far. *)
Definition best_of (dst : Z) (seen : list ip_route) (best : option ip_route) : Prop :=
  match best with
  | None => ∀ r, r ∈ seen → rt_valid r = true → route_matches r dst = false
  | Some b => b ∈ seen ∧ rt_valid b = true ∧ route_matches b dst = true ∧
      ∀ r, r ∈ seen → rt_valid r = true → route_matches r dst = true → rt_prefix_len r ≤ rt_prefix_len b
  end.

Lemma route_body_best dst seen best r : best_of dst seen best → best_of dst (seen ++ [r]) (route_body dst best r).
Proof.
  intros Hb. unfold route_body. destruct (rt_valid r) eqn:Ev; cbn [negb]; [destruct (route_matches r dst) eqn:Em|].
  - destruct best as [b|]; cbn [best_of] in *.
    + destruct Hb as (Hin & Hv & Hm & Hmax). destruct (Z.ltb_spec (rt_prefix_len b) (rt_prefix_len r)); cbn [best_of].
      * split; [set_solver|]. split; [done|]. split; [done|]. intros r' [Hr'|Hr']%elem_of_app Hv' Hm'.
        -- specialize (Hmax r' Hr' Hv' Hm'). lia.
        -- apply list_elem_of_singleton in Hr' as ->. lia.
      * split; [set_solver|]. split; [done|]. split; [done|]. intros r' [Hr'|Hr']%elem_of_app Hv' Hm'; [by apply Hmax|].
        apply list_elem_of_singleton in Hr' as ->. lia.
    + split; [set_solver|]. split; [done|]. split; [done|]. intros r' [Hr'|Hr']%elem_of_app Hv' Hm'.
      * by rewrite (Hb r' Hr' Hv') in Hm'.
      * apply list_elem_of_singleton in Hr' as ->. lia.
  - destruct best as [b|]; cbn [best_of] in *.
    + destruct Hb as (Hin & Hv & Hm & Hmax). split; [set_solver|]. split; [done|]. split; [done|].
      intros r' [Hr'|Hr']%elem_of_app Hv' Hm'; [by apply Hmax|]. apply list_elem_of_singleton in Hr' as ->. congruence.
    + intros r' [Hr'|Hr']%elem_of_app Hv'; [by apply Hb|]. by apply list_elem_of_singleton in Hr' as ->.
  - destruct best as [b|]; cbn [best_of] in *.
    + destruct Hb as (Hin & Hv & Hm & Hmax). split; [set_solver|]. split; [done|]. split; [done|].
      intros r' [Hr'|Hr']%elem_of_app Hv' Hm'; [by apply Hmax|]. apply list_elem_of_singleton in Hr' as ->. congruence.
    + intros r' [Hr'|Hr']%elem_of_app Hv'; [by apply Hb|]. apply list_elem_of_singleton in Hr' as ->. congruence.
Qed.

Lemma route_fold_best dst l : ∀ seen best, best_of dst seen best → best_of dst (seen ++ l) (foldl (route_body dst) best l).
Proof.
  induction l as [|r l IH]; intros seen best Hb; cbn [foldl]; [by rewrite app_nil_r|].
  replace (seen ++ r :: l) with ((seen ++ [r]) ++ l) by (by rewrite <-(assoc_L (++))). apply IH. by apply route_body_best.
Qed.

(** A table filled by [route_add]: the destination, mask, gateway and interface of each call. *)
Definition route_args : Type := Z * Z * Z * option nat.
Definition add_route (a : route_args) (n : net) : outcome net :=
  let '(dest, mask, gw, nif) := a in '(n, _) ← route_add n dest mask gw nif; Ret n.

(** The table holds the routes [l], in order. *)
Definition routes_of (l : list route_args) (rs : list ip_route) : Prop :=
  Forall2 (λ a r, let '(dest, mask, gw, nif) := a in
             rt_dest r = dest ∧ rt_netmask r = mask ∧ rt_gateway r = gw ∧ rt_nif r = nif ∧ rt_valid r = true ∧
             leading_ones mask (rt_prefix_len r)) l rs.

Lemma add_route_spec n a l :
  routes_of l (n_routes n) → zlen l < IP_ROUTE_MAX →
  ∃ rs, add_route a n = Ret (set_routes n rs) ∧ routes_of (l ++ [a]) rs.
Proof.
  intros Hr Hl. destruct a as [[[dest mask] gw] nif]. unfold add_route, route_add.
  assert (zlen (n_routes n) = zlen l) as El by (unfold zlen; by rewrite <-(Forall2_length _ _ _ Hr)).
  rewrite (proj2 (Z.leb_gt _ _)) by lia. destruct (mask_prefix_len_spec mask) as (k & E & Hk). rewrite E. cbn [mbind outcome_bind].
  eexists. split; [done|]. apply Forall2_app; [done|]. constructor; [done|constructor].
Qed.

Lemma add_routes_spec l : ∀ n seen, routes_of seen (n_routes n) → zlen (seen ++ l) ≤ IP_ROUTE_MAX →
  ∃ rs, foldlM add_route l n = Ret (set_routes n rs) ∧ routes_of (seen ++ l) rs.
Proof.
  induction l as [|a l IH]; intros n seen Hr Hl; cbn [foldlM].
  - exists (n_routes n). rewrite app_nil_r. split; [by destruct n|done].
  - rewrite zlen_app, zlen_cons in Hl. pose proof (zlen_nonneg l). destruct (add_route_spec n a seen Hr ltac:(lia)) as (rs & E & Hrs).
    rewrite E. cbn [mbind outcome_bind]. destruct (IH (set_routes n rs) (seen ++ [a]) Hrs) as (rs' & E' & Hrs').
    { rewrite !zlen_app. change (zlen [a]) with 1. lia. }
    exists rs'. split; [exact E'|]. by rewrite <-(assoc_L (++)) in Hrs'.
Qed.

(** The next hop of a route. *)
Definition hop_of (gw dst : Z) : Z := if ip_is_zero gw then dst else gw.

(** What a lookup of [dst] is to find among the routes [l]. *)
Definition longest_match (l : list route_args) (dst : Z) (res : option (ip_route * Z)) : Prop :=
  match res with
  | Some (r, hop) => ∃ gw k, (rt_dest r, rt_netmask r, gw, rt_nif r) ∈ l ∧ hop = hop_of gw dst ∧ leading_ones (rt_netmask r) k ∧
      Z.land dst (rt_netmask r) = Z.land (rt_dest r) (rt_netmask r) ∧
      ∀ dest mask gw' nif k', (dest, mask, gw', nif) ∈ l → Z.land dst mask = Z.land dest mask → leading_ones mask k' → k' ≤ k
  | None => ∀ dest mask gw nif, (dest, mask, gw, nif) ∈ l → Z.land dst mask ≠ Z.land dest mask
  end.

(** C30. Longest prefix match: in a table filled by [route_add], [route_lookup]
    returns a route whose network contains the destination and whose mask has at
    least as many leading ones as that of every such route, with the gateway or, on
    link, the destination as next hop; it fails only when no route matches. *)
Theorem route_lookup_longest n l dst :
  zlen l ≤ IP_ROUTE_MAX →
  ∃ n', foldlM add_route l (route_init n) = Ret n' ∧
    longest_match l dst (route_lookup n' dst).
Proof.
  intros Hl. destruct (add_routes_spec l (route_init n) [] ltac:(constructor) Hl) as (rs & E & Hrs). cbn [app] in Hrs.
  eexists. split; [exact E|]. unfold longest_match, route_lookup. cbn [set_routes n_routes].
  pose proof (route_fold_best dst rs [] None ltac:(intros r Hr; by apply not_elem_of_nil in Hr)) as Hb. cbn [app] in Hb.
  assert (∀ dest mask gw nif, (dest, mask, gw, nif) ∈ l → Z.land dst mask = Z.land dest mask →
    ∃ r, r ∈ rs ∧ rt_valid r = true ∧ route_matches r dst = true ∧ leading_ones mask (rt_prefix_len r)) as Hin.
  { intros dest mask gw nif Ha Hm. apply list_elem_of_lookup_1 in Ha as [i Hi]. destruct (Forall2_lookup_l _ _ _ _ _ Hrs Hi) as (r & Hr & H).
    destruct H as (Ed & Em & _ & _ & Hv & Hk). exists r. split; [by eapply list_elem_of_lookup_2|]. split; [done|]. split; [|done].
    unfold route_matches. rewrite Ed, Em. by apply Z.eqb_eq. }
  destruct (foldl (route_body dst) None rs) as [b|]; cbn [best_of] in Hb.
  - destruct Hb as (Hbin & Hv & Hm & Hmax). apply list_elem_of_lookup_1 in Hbin as [i Hi]. destruct (Forall2_lookup_r _ _ _ _ _ Hrs Hi) as (a & Ha & H).
    destruct a as [[[dest mask] gw] nif]. destruct H as (Ed & Em & Eg & En & _ & Hk).
    exists gw, (rt_prefix_len b). rewrite Ed, Em, Eg, En. split; [by eapply list_elem_of_lookup_2|]. split; [done|]. split; [done|].
    split; [unfold route_matches in Hm; rewrite Ed, Em in Hm; by apply Z.eqb_eq|]. intros dest' mask' gw' nif' k' Ha' Hm' Hk'.
    destruct (Hin _ _ _ _ Ha' Hm') as (r & Hr & Hrv & Hrm & Hrk). rewrite (leading_ones_unique _ _ _ Hk' Hrk). by apply Hmax.
  - intros dest mask gw nif Ha Hm. destruct (Hin _ _ _ _ Ha Hm) as (r & Hr & Hrv & Hrm & _). rewrite (Hb r Hr Hrv) in Hrm. done.
Qed.

Definition example_routes : list route_args :=
  [(ip_make 127 0 0 0, ip_make 255 0 0 0, 0, Some 0%nat); (ip_make 10 0 2 0, ip_make 255 255 255 0, 0, Some 1%nat); (0, 0, ip_make 10 0 2 2, Some 1%nat)].

Lemma route_lookup_longest_witness :
  ∃ n', foldlM add_route example_routes (route_init empty_net) = Ret n' ∧
    longest_match example_routes (ip_make 10 0 2 77) (route_lookup n' (ip_make 10 0 2 77)).
Proof. apply (route_lookup_longest empty_net example_routes (ip_make 10 0 2 77)). by vm_compute. Defined.
