(* ===== verification/Icmp.v ===== *)
(** ICMP echo: [kernel/net/icmp.c]. *)

From S2P Require Import Prelude CString NetBase Netbuf NetIf Arp Ipv4.

(** ** Definitions *)

Definition ICMP_ECHO_REPLY : Z := 0.
Definition ICMP_ECHO_REQUEST : Z := 8.
Definition ICMP_HDR_LEN : Z := 8.

Definition icmp_init (n : net) : net := set_icmp n (mk_icmp 0 0 0).
Definition icmp_echo_requests_seen (n : net) : Z := echo_requests_seen (n_icmp n).
Definition icmp_echo_replies_sent (n : net) : Z := echo_replies_sent (n_icmp n).
Definition icmp_echo_replies_seen (n : net) : Z := echo_replies_seen (n_icmp n).

(** The payload put behind a header: a block to copy, from [data] at [off], or NULL for zeros. *)
Definition fill_body (b : list Z) (body : Z) (data : option (list Z * Z)) (len : Z) : outcome (list Z) :=
  match data with
  | Some (src, off) => memcpy_from b body src off len
  | None => memset b body 0 len
  end.

(** [netbuf_put(nb, len)] and the payload, or [None] when it does not fit. *)
Definition put_body (nb : netbuf) (data : option (list Z * Z)) (len : Z) : outcome (netbuf * bool) :=
  if 0 <? len then
    let '(nb, body) := netbuf_put nb len in
    match body with
    | None => Ret (nb, false)
    | Some body => b ← fill_body (nb_buf nb) body data len; Ret (with_buf nb b, true)
    end
  else Ret (nb, true).

Section Icmp.
Context `{Kmem} (tx : tx_fun).

(** The header's fields: [type] at 0, [code] 1, [checksum] 2, [id] 4, [seq] 6. *)
Definition icmp_fill (b : list Z) (ih type code id seq : Z) : outcome (list Z) :=
  b ← aset b ih type;
  b ← aset b (ih + 1) code;
  b ← put_u16 b (ih + 2) 0;
  b ← net_put_be16 b (ih + 4) id;
  net_put_be16 b (ih + 6) seq.

Definition icmp_build (n : net) (type code id seq : Z) (payload : option (list Z * Z)) (len : Z)
    : outcome (net * option netbuf) :=
  let cap := ICMP_HDR_LEN + len in
  let '(k, nb) := netbuf_alloc_headroom (n_pool n) cap NETBUF_DEFAULT_HEADROOM in
  let n := set_pool n k in
  match nb with
  | None => Ret (n, None)
  | Some nb =>
      let '(nb, ih) := netbuf_put nb ICMP_HDR_LEN in
      match ih with
      | None => Ret (free_nb n nb, None)
      | Some ih =>
          b ← icmp_fill (nb_buf nb) ih type code id seq;
          '(nb, ok) ← put_body (with_buf nb b) payload len;
          if negb ok then Ret (free_nb n nb, None)
          else
            csum ← net_checksum (nb_buf nb) (nb_data nb) (netbuf_len nb);
            b ← put_u16 (nb_buf nb) (ih + 2) csum;
            Ret (n, Some (with_buf nb b))
      end
  end.

Definition icmp_send_echo (n : net) (dst id seq : Z) (payload : option (list Z * Z)) (len : Z) : outcome (net * Z) :=
  '(n, nb) ← icmp_build n ICMP_ECHO_REQUEST 0 id seq payload len;
  match nb with
  | None => Ret (n, -1)
  | Some nb => ipv4_output tx n nb IP_ADDR_ANY dst IP_PROTO_ICMP 64
  end.

Definition icmp_echo (n : net) (nb : netbuf) (src dst id seq : Z) : outcome net :=
  let total := netbuf_len nb in
  let plen := total - ICMP_HDR_LEN in
  '(n, reply) ← icmp_build n ICMP_ECHO_REPLY 0 id seq (Some (nb_buf nb, nb_data nb + ICMP_HDR_LEN)) (u16 plen);
  match reply with
  | None => Ret n
  | Some reply =>
      '(n, rc) ← ipv4_output tx n reply dst src IP_PROTO_ICMP 64;
      let s := n_icmp n in
      Ret (if 0 <=? rc
           then set_icmp n (mk_icmp (echo_requests_seen s) (u64 (echo_replies_sent s + 1)) (echo_replies_seen s))
           else n)
  end.

Definition icmp_input (n : net) (i : nat) (nb : netbuf) (src dst : Z) : outcome net :=
  if netbuf_len nb <? ICMP_HDR_LEN then Ret n
  else
    let b := nb_buf nb in
    let ih := nb_data nb in
    csum ← net_checksum b ih (netbuf_len nb);
    if negb (csum =? 0) then Ret n
    else
      type ← aget b ih;
      id ← net_get_be16 b (ih + 4);
      seq ← net_get_be16 b (ih + 6);
      let s := n_icmp n in
      if type =? ICMP_ECHO_REPLY then
        Ret (set_icmp n (mk_icmp (echo_requests_seen s) (echo_replies_sent s) (u64 (echo_replies_seen s + 1))))
      else if negb (type =? ICMP_ECHO_REQUEST) then Ret n
      else
        icmp_echo (set_icmp n (mk_icmp (u64 (echo_requests_seen s + 1)) (echo_replies_sent s) (echo_replies_seen s)))
          nb src dst id seq.

End Icmp.

(** ** Specification *)

(** The bytes a payload argument stands for, and that it can be read. *)
Definition payload_of (data : option (list Z * Z)) (len : Z) : list Z :=
  match data with Some (src, off) => zslice src off len | None => replicate (Z.to_nat len) 0 end.

Definition payload_ok (data : option (list Z * Z)) (len : Z) : Prop :=
  0 ≤ len ∧ match data with Some (src, off) => 0 ≤ off ∧ off + len ≤ zlen src ∧ bytes (zslice src off len) | None => True end.

(** ** Lemmas *)

Lemma zlen_payload data len : payload_ok data len → zlen (payload_of data len) = len.
Proof.
  intros [Hl Hd]. destruct data as [[src off]|]; cbn [payload_of].
  - apply zlen_zslice; lia.
  - rewrite zlen_replicate. lia.
Qed.

Lemma bytes_payload data len : payload_ok data len → bytes (payload_of data len).
Proof.
  intros [Hl Hd]. destruct data as [[src off]|]; cbn [payload_of].
  - apply Hd.
  - by apply Forall_replicate.
Qed.

Lemma fill_body_spec pre gap post data len :
  payload_ok data len → zlen gap = len →
  fill_body (pre ++ gap ++ post) (zlen pre) data len = Ret (pre ++ payload_of data len ++ post).
Proof.
  intros Hd Hg. pose proof (zlen_payload _ _ Hd) as Hz. pose proof Hd as [Hl Hd']. destruct data as [[src off]|]; cbn [fill_body payload_of] in *.
  - rewrite memcpy_mid0 by lia. by rewrite zsplice_all by lia.
  - pose proof (zlen_nonneg pre). pose proof (zlen_nonneg post).
    rewrite memset_spec by (rewrite ?zlen_app; lia). change (u8 0) with 0. f_equal.
    rewrite <-(Z.add_0_r (zlen pre)), zsplice_app by lia. by rewrite zsplice_all by lia.
Qed.

Lemma put_body_spec nb pre c gap post data len :
  holds nb pre c (gap ++ post) → payload_ok data len → zlen gap = len →
  ∃ nb', put_body nb data len = Ret (nb', true) ∧ holds nb' pre (c ++ payload_of data len) post ∧ nb_netif nb' = nb_netif nb.
Proof.
  intros H Hd Hg. pose proof (zlen_payload _ _ Hd) as Hz. unfold put_body. destruct (Z.ltb_spec 0 len) as [Hl|Hl].
  - destruct (put_ok _ _ _ _ _ len H ltac:(done)) as (nb' & E & H' & _ & Hi). rewrite E.
    pose proof H' as (Eb & _). rewrite Eb, <-(assoc_L (++) c), (assoc_L (++) pre), <-zlen_app.
    rewrite fill_body_spec by done. cbn [mbind outcome_bind]. eexists. split; [done|]. split; [|done].
    rewrite <-(assoc_L (++) pre), (assoc_L (++) c). apply holds_with_buf with (c ++ gap); [done|]. rewrite !zlen_app. lia.
  - destruct Hd as [Hl' _]. exists nb. split; [done|]. split; [|done]. replace (payload_of data len) with (@nil Z).
    + destruct gap; [by rewrite app_nil_r|]. rewrite zlen_cons in Hg. pose proof (zlen_nonneg gap). lia.
    + destruct (payload_of data len); [done|]. rewrite zlen_cons in Hz. pose proof (zlen_nonneg l). lia.
Qed.

(** Allocating a message with a header of [h] bytes and room for [len] more. *)
Lemma alloc_hdr `{KmemOk} k h len :
  0 < h → 0 ≤ len → h + len < 2 ^ 62 → live k < room k →
  ∃ nb nb' pre hdr rest,
    netbuf_alloc_headroom k (h + len) NETBUF_DEFAULT_HEADROOM = (mk_pool (live k + 1) (room k), Some nb) ∧
    netbuf_put nb h = (nb', Some (zlen pre)) ∧ holds nb' pre hdr rest ∧
    zlen hdr = h ∧ zlen rest = len ∧ zlen pre = NETBUF_DEFAULT_HEADROOM.
Proof.
  intros Hh Hl Hm Hr.
  destruct (alloc_holds k (h + len) NETBUF_DEFAULT_HEADROOM) as (nb & pre & post & E & Hnb & Hp & Hq & _);
    [lia|done|unfold NETBUF_DEFAULT_HEADROOM; lia|done|].
  rewrite <-(take_drop (Z.to_nat h) post) in Hnb. set (hdr := take _ post) in *. set (rest := drop _ post) in *.
  assert (zlen hdr = h ∧ zlen rest = len) as [H1 H2].
  { unfold hdr, rest, zlen in *. rewrite length_take, length_drop. lia. }
  destruct (put_ok _ _ _ _ _ h Hnb ltac:(done)) as (nb' & E' & Hnb' & _).
  exists nb, nb', pre, hdr, rest. rewrite E'. change (zlen (@nil Z)) with 0. rewrite Z.add_0_r. done.
Qed.

(** Storing the checksum. *)
Lemma seal_ok nb pre a b post v p :
  holds nb pre (a ++ [0; 0] ++ b) post → p = zlen pre + zlen a →
  ∃ b', put_u16 (nb_buf nb) p v = Ret b' ∧ holds (with_buf nb b') pre (a ++ le16 v ++ b) post.
Proof.
  intros H ->. pose proof H as (Eb & _). rewrite Eb, <-!(assoc_L (++)), (assoc_L (++) pre a), <-zlen_app.
  rewrite <-(Z.add_0_r (zlen (pre ++ a))), put_u16_mid by done. eexists. split; [done|].
  change (<[Z.to_nat (0 + 1):=u8 (Z.shiftr v 8)]> (<[Z.to_nat 0:=u8 v]> [0; 0])) with (le16 v).
  replace ((pre ++ a) ++ le16 v ++ b ++ post) with (pre ++ (a ++ le16 v ++ b) ++ post) by (by rewrite <-!(assoc_L (++))).
  apply holds_with_buf with (a ++ [0; 0] ++ b); [done|]. rewrite !zlen_app. done.
Qed.

(** *** Messages *)

Definition icmp_tail (id seq : Z) (c : list Z) : list Z := be16 id ++ be16 seq ++ c.
Definition icmp_message (type code id seq : Z) (c : list Z) : list Z :=
  [type; code] ++ csum_field (0 + wsum ([type; code] ++ [0; 0] ++ icmp_tail id seq c)) ++ icmp_tail id seq c.

Lemma icmp_bytes type code id seq c :
  is_u8 type → is_u8 code → bytes c → bytes [type; code] ∧ bytes (icmp_tail id seq c).
Proof. intros. split; [bytes_of|]. apply bytes_app. split; [bytes_of|]. apply bytes_app. split; [bytes_of|done]. Qed.

Lemma zlen_icmp_tail id seq c : zlen (icmp_tail id seq c) = 4 + zlen c.
Proof. unfold icmp_tail. rewrite !zlen_app. change (zlen (be16 id)) with 2. change (zlen (be16 seq)) with 2. lia. Qed.

Lemma zlen_icmp type code id seq c : zlen (icmp_message type code id seq c) = ICMP_HDR_LEN + zlen c.
Proof.
  unfold icmp_message. rewrite !zlen_app, zlen_icmp_tail. change (zlen [type; code]) with 2.
  change (zlen (csum_field _)) with 2. unfold ICMP_HDR_LEN. lia.
Qed.

Lemma icmp_build_spec `{KmemOk} n type code id seq data len :
  in_use n < room (n_pool n) → payload_ok data len → len + ICMP_HDR_LEN ≤ 65536 → is_u8 type → is_u8 code →
  ∃ nb pre, icmp_build n type code id seq data len =
      Ret (set_pool n (mk_pool (in_use n + 1) (room (n_pool n))), Some nb) ∧
    holds nb pre (icmp_message type code id seq (payload_of data len)) [] ∧ zlen pre = NETBUF_DEFAULT_HEADROOM.
Proof.
  intros Hr Hd Hl Ht Hc. pose proof (proj1 Hd) as Hl0. pose proof (zlen_payload _ _ Hd) as Hz. pose proof (bytes_payload _ _ Hd) as Hb.
  unfold icmp_build. destruct (alloc_hdr (n_pool n) ICMP_HDR_LEN len) as (nb & nb1 & pre & hdr & rest & E & E1 & H1 & Hh & Hrest & Hp);
    [done|done|unfold ICMP_HDR_LEN in *; lia|done|].
  rewrite E, E1. pose proof H1 as (Eb & _). rewrite Eb.
  assert (length hdr = 8%nat) as Hh' by (unfold zlen, ICMP_HDR_LEN in Hh; lia). list_elems hdr. unfold icmp_fill. write_hdr.
  match goal with |- context [with_buf nb1 (pre ++ ?h ++ rest)] =>
    change h with ([type; code] ++ [0; 0] ++ icmp_tail id seq []);
    pose proof (holds_with_buf _ _ _ _ ([type; code] ++ [0; 0] ++ icmp_tail id seq []) H1 eq_refl) as H2 end.
  rewrite <-(app_nil_r rest) in H2 at 2.
  destruct (put_body_spec _ _ _ _ _ data len H2 Hd Hrest) as (nb2 & E2 & H3 & _). rewrite E2. cbn [mbind outcome_bind negb].
  set (c := payload_of data len) in *.
  assert (([type; code] ++ [0; 0] ++ icmp_tail id seq []) ++ c = [type; code] ++ [0; 0] ++ icmp_tail id seq c) as Ec by done.
  rewrite Ec in H3. rewrite (holds_len _ _ _ _ H3). pose proof H3 as (Eb3 & Ed3 & _). rewrite Eb3, Ed3.
  destruct (icmp_bytes type code id seq c Ht Hc Hb) as [B1 B2].
  rewrite net_checksum_spec.
  2: { apply bytes_app. split; [done|]. apply bytes_app. split; [by bytes_of|done]. }
  2: { rewrite !zlen_app, zlen_icmp_tail. change (zlen [type; code]) with 2. change (zlen [0; 0]) with 2. unfold ICMP_HDR_LEN in *. lia. }
  cbn [mbind outcome_bind]. rewrite <-Eb3.
  destruct (seal_ok _ _ _ _ _ (net_bswap16 (65535 - ones (wsum ([type; code] ++ [0; 0] ++ icmp_tail id seq c)))) (zlen pre + 2) H3 eq_refl)
    as (b' & E4 & H4).
  rewrite E4. cbn [mbind outcome_bind]. eexists _, pre. split; [done|]. split; [exact H4|done].
Qed.

Lemma icmp_checksum_ok pre type code id seq c post :
  is_u8 type → is_u8 code → bytes c → ICMP_HDR_LEN + zlen c ≤ 65536 →
  net_checksum (pre ++ icmp_message type code id seq c ++ post) (zlen pre) (zlen (icmp_message type code id seq c)) = Ret 0.
Proof.
  intros Ht Hc Hb Hl. destruct (icmp_bytes type code id seq c Ht Hc Hb) as [B1 B2].
  rewrite net_checksum_spec.
  - do 2 f_equal. exact (csum_message [type; code] (icmp_tail id seq c) 0 ltac:(by exists 1%nat) B1 B2 ltac:(done)).
  - apply bytes_app. split; [done|]. apply bytes_app. split; [|done]. apply csum_field_spec.
    enough (0 ≤ wsum ([type; code] ++ [0; 0] ++ icmp_tail id seq c)) by lia. apply wsum_range, bytes_app. split; [done|].
    apply bytes_app. split; [by bytes_of|done].
  - by rewrite zlen_icmp.
Qed.

Lemma icmp_payload nb p type id seq c q :
  holds nb p (icmp_message type 0 id seq c) q → bytes c →
  payload_ok (Some (nb_buf nb, zlen p + ICMP_HDR_LEN)) (zlen c) ∧ payload_of (Some (nb_buf nb, zlen p + ICMP_HDR_LEN)) (zlen c) = c.
Proof.
  intros Hnb Hb. pose proof Hnb as (Eb & _).
  set (k := csum_field (0 + wsum ([type; 0] ++ [0; 0] ++ icmp_tail id seq c))).
  assert (nb_buf nb = (p ++ [type; 0] ++ k ++ be16 id ++ be16 seq) ++ c ++ q) as E by (rewrite Eb, <-!(assoc_L (++)); done).
  assert (zlen p + ICMP_HDR_LEN = zlen (p ++ [type; 0] ++ k ++ be16 id ++ be16 seq)) as El by (rewrite zlen_app; done).
  assert (zslice (nb_buf nb) (zlen p + ICMP_HDR_LEN) (zlen c) = c) as Es.
  { rewrite E, El. unfold zslice. rewrite drop_app_length' by (unfold zlen; lia). by rewrite take_app_length' by (unfold zlen; lia). }
  pose proof (zlen_nonneg c). pose proof (zlen_nonneg p). pose proof (zlen_nonneg q). split; [|done]. split; [lia|]. rewrite Es.
  split; [unfold ICMP_HDR_LEN; lia|]. split; [|done]. rewrite E, El, (zlen_app _ (c ++ q)), (zlen_app c q). lia.
Qed.

Section IcmpInput.
Context `{Kmem} (tx : tx_fun).

Lemma icmp_input_spec n i nb p type id seq c q src dst :
  holds nb p (icmp_message type 0 id seq c) q → is_u8 type → is_u16 id → is_u16 seq → bytes c → ICMP_HDR_LEN + zlen c ≤ 65536 →
  let s := n_icmp n in
  icmp_input tx n i nb src dst =
    if type =? ICMP_ECHO_REPLY then
      Ret (set_icmp n (mk_icmp (echo_requests_seen s) (echo_replies_sent s) (u64 (echo_replies_seen s + 1))))
    else if negb (type =? ICMP_ECHO_REQUEST) then Ret n
    else icmp_echo tx (set_icmp n (mk_icmp (u64 (echo_requests_seen s + 1)) (echo_replies_sent s) (echo_replies_seen s))) nb src dst id seq.
Proof.
  intros Hnb Ht Hid Hseq Hb Hl s. unfold icmp_input. rewrite (holds_len _ _ _ _ Hnb). pose proof (zlen_nonneg c).
  rewrite (proj2 (Z.ltb_ge _ _)) by (rewrite zlen_icmp; lia). pose proof Hnb as (Eb & Ed & _). rewrite Eb, Ed.
  rewrite icmp_checksum_ok by done. cbn [mbind outcome_bind Z.eqb negb].
  set (k := csum_field (0 + wsum ([type; 0] ++ [0; 0] ++ icmp_tail id seq c))).
  assert (icmp_message type 0 id seq c ++ q = ([type; 0] ++ k ++ be16 id ++ be16 seq) ++ (c ++ q)) as E by done.
  rewrite E. rewrite (aget_mid0 _ _ _ type) by done. cbn [mbind outcome_bind].
  rewrite (get_be16_mid _ _ _ 4 id), (get_be16_mid _ _ _ 6 seq) by done. done.
Qed.

End IcmpInput.
