(* ===== verification/Udp.v ===== *)
(** UDP: [kernel/net/udp.c]. A binding's receiver is called through its
    pointer: [recv] is an argument. *)

From S2P Require Import Prelude CString NetBase Netbuf NetIf Arp Ipv4 Icmp.

(** ** Definitions *)

Definition UDP_HDR_LEN : Z := 8.
Definition UDP_BIND_MAX : Z := 16.

Definition clear_bind (b : udp_binding) : udp_binding := mk_bind false (ub_ip b) (ub_port b) (ub_recv b) (ub_ctx b).

Definition udp_init (n : net) : net :=
  set_datagrams (set_ephemeral (set_binds n (map clear_bind (n_binds n))) 49152) 0.

Definition udp_datagrams_received (n : net) : Z := n_datagrams n.

Definition udp_find_body (bs : list udp_binding) (ip port i : Z) (wild : option Z) : outcome (option Z + Z) :=
  b ← aget bs i;
  Ret (if negb (ub_in_use b) || negb (ub_port b =? port) then inl wild
       else if ip_equal (ub_ip b) ip then inr i
       else if ip_is_zero (ub_ip b) then inl (Some i)
       else inl wild).

Definition udp_find (bs : list udp_binding) (ip port : Z) : outcome (option Z) :=
  r ← find_range 0 UDP_BIND_MAX (udp_find_body bs ip port) None;
  Ret (match r with inl wild => wild | inr i => Some i end).

(** The slot that holds exactly [ip] and [port], if one does. *)
Definition exact_body (bs : list udp_binding) (ip port i : Z) (_ : unit) : outcome (unit + Z) :=
  b ← aget bs i;
  Ret (if ub_in_use b && (ub_port b =? port) && ip_equal (ub_ip b) ip then inr i else inl tt).

Definition unused_body (bs : list udp_binding) (i : Z) (_ : unit) : outcome (unit + Z) :=
  b ← aget bs i;
  Ret (if negb (ub_in_use b) then inr i else inl tt).

Definition udp_bind (n : net) (local_ip local_port : Z) (recv : option udp_recv_fn) (ctx : nat) : outcome (net * Z) :=
  r ← find_range 0 UDP_BIND_MAX (exact_body (n_binds n) local_ip local_port) tt;
  match r with
  | inr _ => Ret (n, -1)
  | inl _ =>
      r ← find_range 0 UDP_BIND_MAX (unused_body (n_binds n)) tt;
      match r with
      | inr i =>
          bs ← aset (n_binds n) i (mk_bind true local_ip local_port recv ctx);
          Ret (set_binds n bs, 0)
      | inl _ => Ret (n, -1)
      end
  end.

Definition udp_unbind (n : net) (local_ip local_port : Z) : outcome net :=
  r ← find_range 0 UDP_BIND_MAX (exact_body (n_binds n) local_ip local_port) tt;
  match r with
  | inr i =>
      b ← aget (n_binds n) i;
      bs ← aset (n_binds n) i (clear_bind b);
      Ret (set_binds n bs)
  | inl _ => Ret n
  end.

Definition taken_body (bs : list udp_binding) (port i : Z) (_ : unit) : outcome (unit + unit) :=
  b ← aget bs i;
  Ret (if ub_in_use b && (ub_port b =? port) then inr tt else inl tt).

Definition ephemeral_body (bs : list udp_binding) (tries next : Z) : outcome (Z + (Z * Z)) :=
  let port := next in
  let next := u16 (next + 1) in
  let next := if (next =? 0) || (next <? 49152) then 49152 else next in
  r ← find_range 0 UDP_BIND_MAX (taken_body bs port) tt;
  Ret (match r with inl _ => inr (next, port) | inr _ => inl next end).

Definition udp_ephemeral_port (n : net) : outcome (net * Z) :=
  r ← find_range 0 16384 (ephemeral_body (n_binds n)) (n_ephemeral n);
  match r with
  | inr (next, port) => Ret (set_ephemeral n next, port)
  | inl next => Ret (set_ephemeral n next, 0)
  end.

Section Udp.
Context `{Kmem} (tx : tx_fun).

(** The source of the pseudo header. *)
Definition udp_csum_src (n : net) (src dst : Z) : outcome Z :=
  if ip_is_zero src then
    nif ← (match route_lookup n dst with Some (r, _) => Ret (rt_nif r) | None => netif_for_dest n dst end);
    nif ← (match nif with None => netif_default n | Some _ => Ret nif end);
    match nif with
    | None => Ret src
    | Some i => f ← get_if n i; Ret (nif_ip f)
    end
  else Ret src.

(** The header's fields: [src_port] at 0, [dst_port] 2, [length] 4, [checksum] 6. *)
Definition udp_fill (b : list Z) (uh src_port dst_port len : Z) : outcome (list Z) :=
  b ← net_put_be16 b uh src_port;
  b ← net_put_be16 b (uh + 2) dst_port;
  b ← net_put_be16 b (uh + 4) (u16 (UDP_HDR_LEN + len));
  put_u16 b (uh + 6) 0.

Definition udp_output (n : net) (src src_port dst dst_port : Z) (data : option (list Z * Z)) (len : Z) : outcome (net * Z) :=
  let '(k, nb) := netbuf_alloc_headroom (n_pool n) (UDP_HDR_LEN + len) NETBUF_DEFAULT_HEADROOM in
  let n := set_pool n k in
  match nb with
  | None => Ret (n, -1)
  | Some nb =>
      let '(nb, uh) := netbuf_put nb UDP_HDR_LEN in
      match uh with
      | None => Ret (free_nb n nb, -1)
      | Some uh =>
          b ← udp_fill (nb_buf nb) uh src_port dst_port len;
          '(nb, ok) ← put_body (with_buf nb b) data len;
          if negb ok then Ret (free_nb n nb, -1)
          else
            csum_src ← udp_csum_src n src dst;
            let total := u16 (UDP_HDR_LEN + len) in
            csum ← net_transport_checksum csum_src dst IP_PROTO_UDP (nb_buf nb) (nb_data nb) total;
            let csum := if csum =? 0 then 0xFFFF else csum in
            b ← put_u16 (nb_buf nb) (uh + 6) csum;
            ipv4_output tx n (with_buf nb b) src dst IP_PROTO_UDP 64
      end
  end.

End Udp.

(** The call of a receiver: the function, its [ctx], the endpoints, and the payload as a buffer,
    the offset in it and the length. *)
Definition recv_fun : Type := udp_recv_fn → nat → net → Z → Z → Z → Z → list Z → Z → Z → outcome net.

Definition udp_input (recv : recv_fun) (n : net) (i : nat) (nb : netbuf) (src dst : Z) : outcome net :=
  if netbuf_len nb <? UDP_HDR_LEN then Ret n
  else
    let b := nb_buf nb in
    let uh := nb_data nb in
    ulen ← net_get_be16 b (uh + 4);
    if (ulen <? UDP_HDR_LEN) || (netbuf_len nb <? ulen) then Ret n
    else
      csum ← get_u16 b (uh + 6);
      bad ←
        (if negb (csum =? 0) then
           c ← net_transport_checksum src dst IP_PROTO_UDP b uh ulen; Ret (negb (c =? 0))
         else Ret false);
      if bad : bool then Ret n
      else
        src_port ← net_get_be16 b uh;
        dst_port ← net_get_be16 b (uh + 2);
        let plen := u16 (ulen - UDP_HDR_LEN) in
        let n := set_datagrams n (u64 (n_datagrams n + 1)) in
        r ← udp_find (n_binds n) dst dst_port;
        match r with
        | None => Ret n
        | Some j =>
            bd ← aget (n_binds n) j;
            match ub_recv bd with
            | None => Ret n
            | Some fn => recv fn (ub_ctx bd) n src src_port dst dst_port b (uh + UDP_HDR_LEN) plen
            end
        end.

(** ** Specification *)

Definition udp_front (src_port dst_port len : Z) : list Z := be16 src_port ++ be16 dst_port ++ be16 (UDP_HDR_LEN + len).

(** The value computed for the checksum field, and the field. *)
Definition udp_csum (src dst src_port dst_port : Z) (c : list Z) : Z :=
  net_bswap16 (65535 - ones (pseudo src dst IP_PROTO_UDP (UDP_HDR_LEN + zlen c) + wsum (udp_front src_port dst_port (zlen c) ++ [0; 0] ++ c))).
Definition udp_field (v : Z) : list Z := le16 (if v =? 0 then 0xFFFF else v).

Definition udp_message (src dst src_port dst_port : Z) (c : list Z) : list Z :=
  udp_front src_port dst_port (zlen c) ++ udp_field (udp_csum src dst src_port dst_port c) ++ c.

(** ** Lemmas *)

Lemma zlen_udp src dst sp dp c : zlen (udp_message src dst sp dp c) = UDP_HDR_LEN + zlen c.
Proof.
  unfold udp_message. rewrite !zlen_app. change (zlen (udp_front sp dp (zlen c))) with 6.
  change (zlen (udp_field _)) with 2. unfold UDP_HDR_LEN. lia.
Qed.

Lemma le16_value v : is_u16 v → ∃ a b, le16 v = [a; b] ∧ is_u8 a ∧ is_u8 b ∧ v = a + 256 * b.
Proof.
  intros Hv. exists (u8 v), (u8 (Z.shiftr v 8)). split; [done|]. split; [apply u8_range|]. split; [apply u8_range|].
  rewrite Z.shiftr_div_pow2 by lia. unfold is_u16 in Hv. zlia.
Qed.

(** The field is never zero and makes the message sum to zero. *)
Lemma udp_field_spec s :
  0 ≤ s →
  let v := net_bswap16 (65535 - ones s) in
  ∃ a b, udp_field v = [a; b] ∧ is_u8 a ∧ is_u8 b ∧ 0 < a + 256 * b ∧
    net_bswap16 (65535 - ones (s + wsum [a; b])) = 0.
Proof.
  intros Hs v. destruct (ones_range s Hs) as (Hr & Hm & H0). unfold udp_field.
  destruct (Z.eqb_spec v 0) as [Ev|Ev].
  - exists 255, 255. split; [done|]. split; [by vm_compute|]. split; [by vm_compute|]. split; [lia|].
    unfold v in Ev. rewrite bswap16_zero in Ev by (unfold is_u16; lia). assert (ones s = 65535) as E1 by lia.
    rewrite E1 in Hm. change (65535 mod 65535) with 0 in Hm. change (wsum [255; 255]) with 65535.
    apply csum_zero_iff; [lia|]. split; [lia|]. clear -Hm. zlia.
  - assert (is_u16 v) as Hv by apply bswap16_range. destruct (le16_value v Hv) as (a & b & E & Ha & Hb & Eab).
    exists a, b. split; [done|]. split; [done|]. split; [done|]. split; [unfold is_u8 in *; lia|].
    destruct (csum_field_spec s Hs) as (_ & _ & Ew). unfold csum_field in Ew. fold v in Ew. rewrite E in Ew. rewrite Ew.
    by apply csum_verifies.
Qed.

Lemma udp_front_bytes sp dp len : bytes (udp_front sp dp len).
Proof. bytes_of. Qed.

Lemma udp_sum_nonneg src dst sp dp c :
  bytes c → is_u16 (UDP_HDR_LEN + zlen c) →
  0 ≤ pseudo src dst IP_PROTO_UDP (UDP_HDR_LEN + zlen c) + wsum (udp_front sp dp (zlen c) ++ [0; 0] ++ c).
Proof.
  intros Hb Hl. assert (is_u8 IP_PROTO_UDP) as H17 by (by vm_compute).
  pose proof (pseudo_range src dst IP_PROTO_UDP _ H17 Hl).
  enough (0 ≤ wsum (udp_front sp dp (zlen c) ++ [0; 0] ++ c)) by lia.
  apply wsum_range, bytes_app. split; [apply udp_front_bytes|]. apply bytes_app. split; [by bytes_of|done].
Qed.

Lemma udp_message_spec src dst sp dp c :
  bytes c → is_u16 (UDP_HDR_LEN + zlen c) →
  bytes (udp_message src dst sp dp c) ∧
  (∃ a b, udp_field (udp_csum src dst sp dp c) = [a; b] ∧ is_u8 a ∧ is_u8 b ∧ 0 < a + 256 * b) ∧
  ∀ p q, net_transport_checksum src dst IP_PROTO_UDP (p ++ udp_message src dst sp dp c ++ q) (zlen p) (UDP_HDR_LEN + zlen c) = Ret 0.
Proof.
  intros Hb Hl. pose proof (udp_sum_nonneg src dst sp dp c Hb Hl) as Hs.
  destruct (udp_field_spec _ Hs) as (a & b & E & Ha & Hb' & Hpos & Hz).
  assert (udp_message src dst sp dp c = udp_front sp dp (zlen c) ++ [a; b] ++ c) as Em by (unfold udp_message, udp_csum; by rewrite E).
  assert (bytes (udp_message src dst sp dp c)) as Hbm.
  { rewrite Em. apply bytes_app. split; [apply udp_front_bytes|]. apply bytes_app. split; [by bytes_of|done]. }
  split; [done|]. split; [by exists a, b|]. intros p q. rewrite <-(zlen_udp src dst sp dp c).
  rewrite net_transport_checksum_spec; [|by vm_compute|done|by rewrite zlen_udp].
  f_equal. rewrite zlen_udp, Em, wsum_field, Z.add_assoc by (by exists 3%nat). exact Hz.
Qed.

Lemma udp_csum_spec src dst sp dp c p q :
  bytes c → is_u16 (UDP_HDR_LEN + zlen c) →
  net_transport_checksum src dst IP_PROTO_UDP (p ++ (udp_front sp dp (zlen c) ++ [0; 0] ++ c) ++ q) (zlen p) (UDP_HDR_LEN + zlen c) =
    Ret (udp_csum src dst sp dp c).
Proof.
  intros Hb Hl. assert (UDP_HDR_LEN + zlen c = zlen (udp_front sp dp (zlen c) ++ [0; 0] ++ c)) as Em.
  { rewrite !zlen_app. change (zlen (udp_front _ _ _)) with 6. change (zlen [0; 0]) with 2. unfold UDP_HDR_LEN. lia. }
  rewrite Em in Hl. rewrite Em, net_transport_checksum_spec; [|by vm_compute| |done].
  - unfold udp_csum. by rewrite Em.
  - apply bytes_app. split; [apply udp_front_bytes|]. apply bytes_app. split; [by bytes_of|done].
Qed.

Section UdpOutput.
Context `{KmemOk} (tx : tx_fun).

Lemma udp_fill_spec pre hdr post sp dp len :
  zlen hdr = UDP_HDR_LEN → 0 ≤ len → UDP_HDR_LEN + len < 2 ^ 16 →
  udp_fill (pre ++ hdr ++ post) (zlen pre) sp dp len = Ret (pre ++ (udp_front sp dp len ++ [0; 0]) ++ post).
Proof.
  intros Hh Hl0 Hl. assert (length hdr = 8%nat) as Hh' by (unfold zlen, UDP_HDR_LEN in Hh; lia). list_elems hdr.
  unfold udp_fill. write_hdr. rewrite u16_small by (unfold UDP_HDR_LEN in *; lia). done.
Qed.

Lemma udp_output_spec n src sp dst dp data len csrc :
  in_use n < room (n_pool n) → payload_ok data len → UDP_HDR_LEN + len < 2 ^ 16 →
  udp_csum_src (set_pool n (mk_pool (in_use n + 1) (room (n_pool n)))) src dst = Ret csrc →
  ∃ nb pre, udp_output tx n src sp dst dp data len =
      ipv4_output tx (set_pool n (mk_pool (in_use n + 1) (room (n_pool n)))) nb src dst IP_PROTO_UDP 64 ∧
    holds nb pre (udp_message csrc dst sp dp (payload_of data len)) [] ∧ zlen pre = NETBUF_DEFAULT_HEADROOM.
Proof.
  intros Hr Hd Hl Hsrc. pose proof (proj1 Hd) as Hl0. pose proof (zlen_payload _ _ Hd) as Hz. pose proof (bytes_payload _ _ Hd) as Hb.
  unfold udp_output. destruct (alloc_hdr (n_pool n) UDP_HDR_LEN len) as (nb & nb1 & pre & hdr & rest & E & E1 & H1 & Hh & Hrest & Hp);
    [done|done|unfold UDP_HDR_LEN in *; lia|done|].
  rewrite E, E1. pose proof H1 as (Eb & _). rewrite Eb, udp_fill_spec by done. cbn [mbind outcome_bind].
  pose proof (holds_with_buf _ _ _ _ (udp_front sp dp len ++ [0; 0]) H1 (eq_sym Hh)) as H2. rewrite <-(app_nil_r rest) in H2 at 2.
  destruct (put_body_spec _ _ _ _ _ data len H2 Hd Hrest) as (nb2 & E2 & H3 & _). rewrite E2. cbn [mbind outcome_bind negb].
  set (c := payload_of data len) in *. rewrite <-(assoc_L (++)), <-Hz in H3. fold (in_use n). rewrite Hsrc. cbn [mbind outcome_bind].
  rewrite (u16_small (UDP_HDR_LEN + len)) by (unfold UDP_HDR_LEN in *; lia). rewrite <-Hz in *.
  pose proof H3 as (Eb3 & Ed3 & _). rewrite Eb3, Ed3.
  rewrite udp_csum_spec by (done || unfold is_u16, UDP_HDR_LEN in *; lia). cbn [mbind outcome_bind]. rewrite <-Eb3.
  destruct (seal_ok _ _ _ _ _ (if udp_csum csrc dst sp dp c =? 0 then 0xFFFF else udp_csum csrc dst sp dp c) (zlen pre + 6) H3 eq_refl)
    as (b' & E4 & H4).
  rewrite E4. cbn [mbind outcome_bind]. eexists _, pre. split; [done|]. split; [exact H4|done].
Qed.

End UdpOutput.

Lemma udp_input_spec recv n i nb p src dst sp dp c q :
  holds nb p (udp_message src dst sp dp c) q → is_u16 sp → is_u16 dp → bytes c → UDP_HDR_LEN + zlen c < 2 ^ 16 →
  zslice (nb_buf nb) (zlen p + UDP_HDR_LEN) (zlen c) = c ∧
  udp_input recv n i nb src dst =
    (let n1 := set_datagrams n (u64 (n_datagrams n + 1)) in
     r ← udp_find (n_binds n) dst dp;
     match r with
     | None => Ret n1
     | Some j =>
         bd ← aget (n_binds n) j;
         match ub_recv bd with
         | None => Ret n1
         | Some fn => recv fn (ub_ctx bd) n1 src sp dst dp (nb_buf nb) (zlen p + UDP_HDR_LEN) (zlen c)
         end
     end).
Proof.
  intros Hnb Hsp Hdp Hb Hl. pose proof (zlen_nonneg c). pose proof (zlen_nonneg p).
  assert (is_u16 (UDP_HDR_LEN + zlen c)) as Hl16 by (unfold is_u16, UDP_HDR_LEN in *; lia).
  destruct (udp_message_spec src dst sp dp c Hb Hl16) as (Hbm & (a & b & Ef & Ha & Hb' & Hpos) & Hck).
  pose proof Hnb as (Eb & Ed & _). assert (nb_buf nb = p ++ (udp_front sp dp (zlen c) ++ [a; b]) ++ (c ++ q)) as Eb'.
  { rewrite Eb. unfold udp_message. rewrite Ef. by rewrite <-!(assoc_L (++)). }
  split.
  - rewrite Eb', (assoc_L (++) p). set (front := p ++ _). replace (zlen p + UDP_HDR_LEN) with (zlen front).
    + unfold zslice. rewrite drop_app_length' by (unfold zlen; lia). by rewrite take_app_length' by (unfold zlen; lia).
    + unfold front. rewrite !zlen_app. done.
  - unfold udp_input. rewrite (holds_len _ _ _ _ Hnb), zlen_udp. rewrite (proj2 (Z.ltb_ge _ _)) by lia. rewrite Ed.
    rewrite Eb' at 1. rewrite (get_be16_mid _ _ _ 4 (UDP_HDR_LEN + zlen c)) by done. cbn [mbind outcome_bind].
    rewrite Z.ltb_irrefl, (proj2 (Z.ltb_ge _ _)) by lia. cbn [orb].
    assert (get_u16 (nb_buf nb) (zlen p + 6) = Ret (a + 256 * b)) as ->.
    { unfold get_u16. rewrite Eb'. rewrite <-Z.add_assoc. rewrite (aget_mid _ _ _ 6 a), (aget_mid _ _ _ (6 + 1) b) by done.
      cbn [mbind outcome_bind]. rewrite lor_add_shift by (done || unfold is_u8 in *; lia). f_equal. lia. }
    cbn [mbind outcome_bind]. rewrite (proj2 (Z.eqb_neq _ 0)) by lia. cbn [negb].
    rewrite Eb at 1. rewrite Hck. cbn [mbind outcome_bind Z.eqb negb].
    rewrite Eb' at 1. rewrite (get_be16_mid0 _ _ _ sp) by done. cbn [mbind outcome_bind].
    rewrite Eb' at 1. rewrite (get_be16_mid _ _ _ 2 dp) by done. cbn [mbind outcome_bind].
    replace (UDP_HDR_LEN + zlen c - UDP_HDR_LEN) with (zlen c) by lia. rewrite u16_small by (unfold UDP_HDR_LEN in *; lia). done.
Qed.

Lemma udp_csum_src_egress n src dst i hop f :
  egress n dst = Ret (Some i, hop) → n_ifs n !! i = Some f →
  udp_csum_src n src dst = Ret (if ip_is_zero src then nif_ip f else src).
Proof.
  unfold udp_csum_src, egress. intros He Hf. destruct (ip_is_zero src); [|done].
  destruct (route_lookup n dst) as [[r nh]|].
  - cbn [mbind outcome_bind] in *. destruct (rt_nif r) as [k|]; cbn [mbind outcome_bind] in *.
    + injection He as -> <-. by rewrite (get_if_Some _ _ _ Hf).
    + destruct (netif_default n) as [d| | |]; cbn [mbind outcome_bind] in *; try discriminate. injection He as -> <-.
      by rewrite (get_if_Some _ _ _ Hf).
  - destruct (netif_for_dest n dst) as [[k|]| | |]; cbn [mbind outcome_bind] in *; try discriminate.
    + injection He as -> <-. by rewrite (get_if_Some _ _ _ Hf).
    + destruct (netif_default n) as [d| | |]; cbn [mbind outcome_bind] in *; try discriminate. injection He as -> <-.
      by rewrite (get_if_Some _ _ _ Hf).
Qed.
