(* ===== verification/Tcp.v ===== *)
(** TCP: [kernel/net/tcp.c]. A TCB is an index into the table; every access
    goes through the table, since a segment sent over the loopback interface
    comes back to the state machine before the send returns. *)

From S2P Require Import Prelude CString NetBase Netbuf NetIf Arp Ipv4 Icmp.

(** ** Definitions *)

Definition TCP_HDR_LEN : Z := 20.
Definition TCP_F_FIN : Z := 0x01.
Definition TCP_F_SYN : Z := 0x02.
Definition TCP_F_RST : Z := 0x04.
Definition TCP_F_PSH : Z := 0x08.
Definition TCP_F_ACK : Z := 0x10.
Definition TCP_F_URG : Z := 0x20.
Definition TCP_TCB_MAX : Z := 8.

Definition tcp_data_offset_words (data_off : Z) : Z := u8 (Z.shiftr data_off 4).
Definition tcp_header_bytes (data_off : Z) : Z := u16 (tcp_data_offset_words data_off * 4).

(** [flags & f] as a truth value. *)
Definition has (flags f : Z) : bool := negb (Z.land flags f =? 0).

(** Assignments to members of a TCB. *)
Definition tcb_state (s : tcp_state) (t : tcp_tcb) : tcp_tcb :=
  mk_tcb (t_in_use t) s (t_local_ip t) (t_remote_ip t) (t_local_port t) (t_remote_port t) (snd_una t) (snd_nxt
    t) (snd_wnd t) (iss t) (rcv_nxt t) (rcv_wnd t) (irs t).
Definition tcb_free  (t : tcp_tcb) : tcp_tcb :=
  mk_tcb false TCP_CLOSED (t_local_ip t) (t_remote_ip t) (t_local_port t) (t_remote_port t) (snd_una t)
    (snd_nxt t) (snd_wnd t) (iss t) (rcv_nxt t) (rcv_wnd t) (irs t).
Definition tcb_listen (ip port : Z) (t : tcp_tcb) : tcp_tcb :=
  mk_tcb (t_in_use t) TCP_LISTEN ip IP_ADDR_ANY port 0 (snd_una t) (snd_nxt t) (snd_wnd t) (iss t) (rcv_nxt t)
    (rcv_wnd t) (irs t).
Definition tcb_open (lip lport rip rport i : Z) (t : tcp_tcb) : tcp_tcb :=
  mk_tcb (t_in_use t) TCP_SYN_SENT lip rip lport rport i i (snd_wnd t) i 0 (rcv_wnd t) (irs t).
Definition tcb_peer (lip rip rport : Z) (t : tcp_tcb) : tcp_tcb :=
  mk_tcb (t_in_use t) (t_state t) lip rip (t_local_port t) rport (snd_una t) (snd_nxt t) (snd_wnd t) (iss t)
    (rcv_nxt t) (rcv_wnd t) (irs t).
Definition tcb_passive (seq i : Z) (t : tcp_tcb) : tcp_tcb :=
  mk_tcb (t_in_use t) TCP_SYN_RECEIVED (t_local_ip t) (t_remote_ip t) (t_local_port t) (t_remote_port t) i i
    (snd_wnd t) i (u32 (seq + 1)) (rcv_wnd t) seq.
Definition tcb_synack (seq ack : Z) (t : tcp_tcb) : tcp_tcb :=
  mk_tcb (t_in_use t) TCP_ESTABLISHED (t_local_ip t) (t_remote_ip t) (t_local_port t) (t_remote_port t) ack
    (snd_nxt t) (snd_wnd t) (iss t) (u32 (seq + 1)) (rcv_wnd t) seq.
Definition tcb_simopen (seq : Z) (t : tcp_tcb) : tcp_tcb :=
  mk_tcb (t_in_use t) TCP_SYN_RECEIVED (t_local_ip t) (t_remote_ip t) (t_local_port t) (t_remote_port t)
    (snd_una t) (snd_nxt t) (snd_wnd t) (iss t) (u32 (seq + 1)) (rcv_wnd t) seq.
Definition tcb_acked (ack : Z) (t : tcp_tcb) : tcp_tcb :=
  mk_tcb (t_in_use t) TCP_ESTABLISHED (t_local_ip t) (t_remote_ip t) (t_local_port t) (t_remote_port t) ack
    (snd_nxt t) (snd_wnd t) (iss t) (rcv_nxt t) (rcv_wnd t) (irs t).
Definition tcb_rcv (nxt : Z) (t : tcp_tcb) : tcp_tcb :=
  mk_tcb (t_in_use t) (t_state t) (t_local_ip t) (t_remote_ip t) (t_local_port t) (t_remote_port t) (snd_una
    t) (snd_nxt t) (snd_wnd t) (iss t) nxt (rcv_wnd t) (irs t).
Definition tcb_rcv_state (nxt : Z) (s : tcp_state) (t : tcp_tcb) : tcp_tcb :=
  mk_tcb (t_in_use t) s (t_local_ip t) (t_remote_ip t) (t_local_port t) (t_remote_port t) (snd_una t) (snd_nxt
    t) (snd_wnd t) (iss t) nxt (rcv_wnd t) (irs t).
Definition tcb_snd (nxt : Z) (t : tcp_tcb) : tcp_tcb :=
  mk_tcb (t_in_use t) (t_state t) (t_local_ip t) (t_remote_ip t) (t_local_port t) (t_remote_port t) (snd_una
    t) nxt (snd_wnd t) (iss t) (rcv_nxt t) (rcv_wnd t) (irs t).

Definition get_tcb (n : net) (j : Z) : outcome tcp_tcb := aget (n_tcbs n) j.
Definition upd_tcb (n : net) (j : Z) (g : tcp_tcb → tcp_tcb) : outcome net :=
  t ← get_tcb n j; ts ← aset (n_tcbs n) j (g t); Ret (set_tcbs n ts).

Definition tcp_init (n : net) : net := set_iss (set_tcbs n (map tcb_free (n_tcbs n))) 0x10000.

Definition tcp_gen_iss (n : net) : net * Z :=
  let iss := u32 (n_iss n + 64000) in (set_iss n iss, iss).

Definition fresh_tcb : tcp_tcb := mk_tcb true TCP_CLOSED 0 0 0 0 0 0 65535 0 0 65535 0.

Definition tcb_unused_body (ts : list tcp_tcb) (i : Z) (_ : unit) : outcome (unit + Z) :=
  t ← aget ts i; Ret (if negb (t_in_use t) then inr i else inl tt).

Definition tcp_tcb_alloc (n : net) : outcome (net * option Z) :=
  r ← find_range 0 TCP_TCB_MAX (tcb_unused_body (n_tcbs n)) tt;
  match r with
  | inr i => ts ← aset (n_tcbs n) i fresh_tcb; Ret (set_tcbs n ts, Some i)
  | inl _ => Ret (n, None)
  end.

Definition tcp_tcb_free (n : net) (tcb : option Z) : outcome net :=
  match tcb with None => Ret n | Some j => upd_tcb n j tcb_free end.

Definition tcp_lookup_body (ts : list tcp_tcb) (local_ip local_port remote_ip remote_port i : Z) (listener : option Z)
    : outcome (option Z + Z) :=
  t ← aget ts i;
  let ours := ip_is_zero (t_local_ip t) || ip_equal (t_local_ip t) local_ip in
  let listening := bool_decide (t_state t = TCP_LISTEN) in
  Ret (if negb (t_in_use t) || negb (t_local_port t =? local_port) then inl listener
       else if negb listening && (t_remote_port t =? remote_port) && ip_equal (t_remote_ip t) remote_ip && ours then inr i
       else if listening && ours then inl (Some i)
       else inl listener).

Definition tcp_lookup (ts : list tcp_tcb) (local_ip local_port remote_ip remote_port : Z) : outcome (option Z) :=
  r ← find_range 0 TCP_TCB_MAX (tcp_lookup_body ts local_ip local_port remote_ip remote_port) None;
  Ret (match r with inl listener => listener | inr i => Some i end).

Definition tcp_listen (n : net) (tcb : option Z) (local_ip local_port : Z) : outcome (net * Z) :=
  match tcb with
  | None => Ret (n, -1)
  | Some j => n ← upd_tcb n j (tcb_listen local_ip local_port); Ret (n, 0)
  end.

Section Tcp.
Context `{Kmem} (tx : tx_fun).

(** The header's fields: [src_port] at 0, [dst_port] 2, [seq] 4, [ack] 8, [data_off] 12, [flags] 13,
    [window] 14, [checksum] 16, [urg_ptr] 18. *)
Definition tcp_fill (b : list Z) (th src_port dst_port seq ack flags window : Z) : outcome (list Z) :=
  b ← net_put_be16 b th src_port;
  b ← net_put_be16 b (th + 2) dst_port;
  b ← net_put_be32 b (th + 4) seq;
  b ← net_put_be32 b (th + 8) ack;
  b ← aset b (th + 12) (u8 (Z.shiftl (TCP_HDR_LEN / 4) 4));
  b ← aset b (th + 13) flags;
  b ← net_put_be16 b (th + 14) window;
  b ← put_u16 b (th + 16) 0;
  net_put_be16 b (th + 18) 0.

Definition tcp_build_segment (n : net) (src src_port dst dst_port seq ack flags window : Z)
    (data : option (list Z * Z)) (len : Z) : outcome (net * option netbuf) :=
  let '(k, nb) := netbuf_alloc_headroom (n_pool n) (TCP_HDR_LEN + len) NETBUF_DEFAULT_HEADROOM in
  let n := set_pool n k in
  match nb with
  | None => Ret (n, None)
  | Some nb =>
      let '(nb, th) := netbuf_put nb TCP_HDR_LEN in
      match th with
      | None => Ret (free_nb n nb, None)
      | Some th =>
          b ← tcp_fill (nb_buf nb) th src_port dst_port seq ack flags window;
          '(nb, ok) ← put_body (with_buf nb b) data len;
          if negb ok then Ret (free_nb n nb, None)
          else
            let total := u16 (TCP_HDR_LEN + len) in
            csum ← net_transport_checksum src dst IP_PROTO_TCP (nb_buf nb) (nb_data nb) total;
            b ← put_u16 (nb_buf nb) (th + 16) csum;
            Ret (n, Some (with_buf nb b))
      end
  end.

(** [SND.NXT] after a segment with [flags] and [len] bytes. *)
Definition seq_after (nxt flags len : Z) : Z :=
  let nxt := if has flags TCP_F_SYN then u32 (nxt + 1) else nxt in
  let nxt := u32 (nxt + len) in
  if has flags TCP_F_FIN then u32 (nxt + 1) else nxt.

Definition tcp_send_segment (n : net) (tcb : option Z) (flags : Z) (data : option (list Z * Z)) (len : Z)
    : outcome (net * Z) :=
  match tcb with
  | None => Ret (n, -1)
  | Some j =>
      t ← get_tcb n j;
      '(n, nb) ← tcp_build_segment n (t_local_ip t) (t_local_port t) (t_remote_ip t) (t_remote_port t)
                   (snd_nxt t) (rcv_nxt t) flags (u16 (rcv_wnd t)) data len;
      match nb with
      | None => Ret (n, -1)
      | Some nb =>
          n ← upd_tcb n j (tcb_snd (seq_after (snd_nxt t) flags len));
          ipv4_output tx n nb (t_local_ip t) (t_remote_ip t) IP_PROTO_TCP 64
      end
  end.

Definition tcp_connect (n : net) (tcb : option Z) (local_ip local_port remote_ip remote_port : Z) : outcome (net * Z) :=
  match tcb with
  | None => Ret (n, -1)
  | Some j =>
      let '(n, iss) := tcp_gen_iss n in
      n ← upd_tcb n j (tcb_open local_ip local_port remote_ip remote_port iss);
      tcp_send_segment n tcb TCP_F_SYN None 0
  end.

Definition tcp_close (n : net) (tcb : option Z) : outcome (net * Z) :=
  match tcb with
  | None => Ret (n, -1)
  | Some j =>
      t ← get_tcb n j;
      match t_state t with
      | TCP_ESTABLISHED =>
          n ← upd_tcb n j (tcb_state TCP_FIN_WAIT_1);
          tcp_send_segment n tcb (Z.lor TCP_F_FIN TCP_F_ACK) None 0
      | TCP_CLOSE_WAIT =>
          n ← upd_tcb n j (tcb_state TCP_LAST_ACK);
          tcp_send_segment n tcb (Z.lor TCP_F_FIN TCP_F_ACK) None 0
      | TCP_SYN_SENT | TCP_SYN_RECEIVED | TCP_LISTEN =>
          n ← upd_tcb n j (tcb_state TCP_CLOSED); Ret (n, 0)
      | _ => Ret (n, 0)
      end
  end.

(** A send whose result is not looked at. *)
Definition send_ (n : net) (j flags : Z) : outcome net :=
  '(n, _) ← tcp_send_segment n (Some j) flags None 0; Ret n.

Definition tcp_state_machine (n : net) (j seq ack flags seglen : Z) : outcome net :=
  t ← get_tcb n j;
  match t_state t with
  | TCP_LISTEN =>
      if has flags TCP_F_SYN then
        let '(n, iss) := tcp_gen_iss n in
        n ← upd_tcb n j (tcb_passive seq iss);
        send_ n j (Z.lor TCP_F_SYN TCP_F_ACK)
      else Ret n
  | TCP_SYN_SENT =>
      if Z.land flags (Z.lor TCP_F_SYN TCP_F_ACK) =? Z.lor TCP_F_SYN TCP_F_ACK then
        n ← upd_tcb n j (tcb_synack seq ack);
        send_ n j TCP_F_ACK
      else if has flags TCP_F_SYN then
        n ← upd_tcb n j (tcb_simopen seq);
        send_ n j (Z.lor TCP_F_SYN TCP_F_ACK)
      else Ret n
  | TCP_SYN_RECEIVED =>
      if has flags TCP_F_ACK then upd_tcb n j (tcb_acked ack) else Ret n
  | TCP_ESTABLISHED =>
      n ← (if 0 <? seglen then
             n ← upd_tcb n j (tcb_rcv (u32 (seq + seglen))); send_ n j TCP_F_ACK
           else Ret n);
      if has flags TCP_F_FIN then
        n ← upd_tcb n j (tcb_rcv_state (u32 (seq + seglen + 1)) TCP_CLOSE_WAIT);
        send_ n j TCP_F_ACK
      else Ret n
  | TCP_FIN_WAIT_1 =>
      n ← (if has flags TCP_F_ACK then upd_tcb n j (tcb_state TCP_FIN_WAIT_2) else Ret n);
      if has flags TCP_F_FIN then
        t ← get_tcb n j;
        n ← upd_tcb n j (tcb_rcv_state (u32 (seq + 1))
                           (if bool_decide (t_state t = TCP_FIN_WAIT_2) then TCP_TIME_WAIT else TCP_CLOSING));
        send_ n j TCP_F_ACK
      else Ret n
  | TCP_FIN_WAIT_2 =>
      if has flags TCP_F_FIN then
        n ← upd_tcb n j (tcb_rcv_state (u32 (seq + 1)) TCP_TIME_WAIT);
        send_ n j TCP_F_ACK
      else Ret n
  | TCP_CLOSING =>
      if has flags TCP_F_ACK then upd_tcb n j (tcb_state TCP_TIME_WAIT) else Ret n
  | TCP_LAST_ACK =>
      if has flags TCP_F_ACK then
        n ← upd_tcb n j (tcb_state TCP_CLOSED);
        tcp_tcb_free n (Some j)
      else Ret n
  | TCP_TIME_WAIT | TCP_CLOSE_WAIT | TCP_CLOSED => Ret n
  end.

Definition tcp_input (n : net) (i : nat) (nb : netbuf) (src dst : Z) : outcome net :=
  if netbuf_len nb <? TCP_HDR_LEN then Ret n
  else
    let b := nb_buf nb in
    let th := nb_data nb in
    data_off ← aget b (th + 12);
    let hdr_bytes := tcp_header_bytes data_off in
    if (hdr_bytes <? TCP_HDR_LEN) || (netbuf_len nb <? hdr_bytes) then Ret n
    else
      let seg_total := u16 (netbuf_len nb) in
      csum ← net_transport_checksum src dst IP_PROTO_TCP b th seg_total;
      if negb (csum =? 0) then Ret n
      else
        src_port ← net_get_be16 b th;
        dst_port ← net_get_be16 b (th + 2);
        seq ← net_get_be32 b (th + 4);
        ack ← net_get_be32 b (th + 8);
        flags ← aget b (th + 13);
        let seglen := u16 (seg_total - hdr_bytes) in
        r ← tcp_lookup (n_tcbs n) dst dst_port src src_port;
        match r with
        | None => Ret n
        | Some j =>
            t ← get_tcb n j;
            n ← (if bool_decide (t_state t = TCP_LISTEN) then upd_tcb n j (tcb_peer dst src src_port) else Ret n);
            tcp_state_machine n j seq ack flags seglen
        end.

End Tcp.

(** ** Specification *)

Definition tcp_front (sp dp seq ack flags win : Z) : list Z :=
  be16 sp ++ be16 dp ++ be32 seq ++ be32 ack ++ [0x50; flags] ++ be16 win.
Definition tcp_back (c : list Z) : list Z := be16 0 ++ c.

(** A segment with the checksum of the pseudo header of [src] and [dst]. *)
Definition tcp_sum (src dst sp dp seq ack flags win : Z) (c : list Z) : Z :=
  pseudo src dst IP_PROTO_TCP (TCP_HDR_LEN + zlen c) + wsum (tcp_front sp dp seq ack flags win ++ [0; 0] ++ tcp_back c).
Definition tcp_segment (src dst sp dp seq ack flags win : Z) (c : list Z) : list Z :=
  tcp_front sp dp seq ack flags win ++ csum_field (tcp_sum src dst sp dp seq ack flags win c) ++ tcp_back c.

(** ** Lemmas *)

Lemma zlen_tcp_back c : zlen (tcp_back c) = 2 + zlen c.
Proof. unfold tcp_back. by rewrite zlen_app. Qed.

Lemma zlen_tcp src dst sp dp seq ack flags win c : zlen (tcp_segment src dst sp dp seq ack flags win c) = TCP_HDR_LEN + zlen c.
Proof.
  unfold tcp_segment. rewrite !zlen_app, zlen_tcp_back. change (zlen (tcp_front _ _ _ _ _ _)) with 16.
  change (zlen (csum_field _)) with 2. unfold TCP_HDR_LEN. lia.
Qed.

Lemma tcp_front_bytes sp dp seq ack flags win : is_u8 flags → bytes (tcp_front sp dp seq ack flags win).
Proof. intros. bytes_of. Qed.

Lemma tcp_back_bytes c : bytes c → bytes (tcp_back c).
Proof. intros. apply bytes_app. split; [bytes_of|done]. Qed.

Lemma tcp_zero_bytes sp dp seq ack flags win c :
  is_u8 flags → bytes c → bytes (tcp_front sp dp seq ack flags win ++ [0; 0] ++ tcp_back c).
Proof.
  intros. apply bytes_app. split; [by apply tcp_front_bytes|]. apply bytes_app. split; [by bytes_of|by apply tcp_back_bytes].
Qed.

Lemma tcp_sum_pos src dst sp dp seq ack flags win c :
  is_u8 flags → bytes c → is_u16 (TCP_HDR_LEN + zlen c) → 0 < tcp_sum src dst sp dp seq ack flags win c.
Proof.
  intros Hf Hb Hl. pose proof (wsum_range _ (bytes_le32 src)). pose proof (wsum_range _ (bytes_le32 dst)). pose proof (zlen_nonneg c).
  pose proof (wsum_range _ (tcp_zero_bytes sp dp seq ack flags win c Hf Hb)). unfold tcp_sum, pseudo, IP_PROTO_TCP, TCP_HDR_LEN. lia.
Qed.

Lemma tcp_bytes src dst sp dp seq ack flags win c :
  is_u8 flags → bytes c → is_u16 (TCP_HDR_LEN + zlen c) → bytes (tcp_segment src dst sp dp seq ack flags win c).
Proof.
  intros. apply bytes_app. split; [by apply tcp_front_bytes|]. apply bytes_app. split; [|by apply tcp_back_bytes].
  apply csum_field_spec, Z.lt_le_incl. by apply tcp_sum_pos.
Qed.

(** What the receiver computes when it takes [src'] for the source. *)
Lemma tcp_checksum_spec src src' dst sp dp seq ack flags win c p q :
  is_u8 flags → bytes c → is_u16 (TCP_HDR_LEN + zlen c) →
  ∃ v, net_transport_checksum src' dst IP_PROTO_TCP (p ++ tcp_segment src dst sp dp seq ack flags win c ++ q) (zlen p) (TCP_HDR_LEN + zlen c) = Ret v ∧
    (v = 0 ↔ wsum (le32 src) mod 65535 = wsum (le32 src') mod 65535).
Proof.
  intros Hf Hb Hl. rewrite <-(zlen_tcp src dst sp dp seq ack flags win c). eexists.
  rewrite net_transport_checksum_spec; [|by vm_compute|by apply tcp_bytes|by rewrite zlen_tcp]. split; [done|].
  pose proof (tcp_sum_pos src dst sp dp seq ack flags win c Hf Hb Hl) as Hs.
  assert (0 < tcp_sum src' dst sp dp seq ack flags win c) as Hs' by (by apply tcp_sum_pos).
  pose proof (Z.lt_le_incl _ _ Hs) as Hs0. destruct (csum_field_spec _ Hs0) as (Ef & _ & Ew). destruct (ones_range _ Hs0) as (Hr & Hm & _).
  rewrite zlen_tcp. unfold tcp_segment. rewrite Ef in *. rewrite wsum_field by (by exists 8%nat). rewrite Ew.
  set (s := tcp_sum src dst sp dp seq ack flags win c) in *.
  rewrite Z.add_assoc. change (pseudo _ _ _ _ + _) with (tcp_sum src' dst sp dp seq ack flags win c).
  assert (tcp_sum src' dst sp dp seq ack flags win c = s + wsum (le32 src') - wsum (le32 src)) as Ed.
  { unfold s, tcp_sum, pseudo. lia. }
  rewrite Ed in *. pose proof (wsum_range _ (bytes_le32 src)). pose proof (wsum_range _ (bytes_le32 src')).
  clearbody s. rewrite csum_zero_iff by lia. set (a := wsum (le32 src)) in *. set (b := wsum (le32 src')) in *.
  assert (∃ k, s = ones s + 65535 * k) as [k Hk].
  { exists (s / 65535 - ones s / 65535). clear -Hm. zlia. }
  replace (s + b - a + (65535 - ones s)) with (b - a + (k + 1) * 65535) by lia. rewrite Z.mod_add by lia.
  assert (0 < b - a + (k + 1) * 65535) as Hpos by lia. clearbody a b. clear -Hpos. split.
  - intros [_ Hz]. zlia.
  - intros Hz. split; [done|]. zlia.
Qed.

Lemma tcp_csum_spec src dst sp dp seq ack flags win c p q :
  is_u8 flags → bytes c → is_u16 (TCP_HDR_LEN + zlen c) →
  net_transport_checksum src dst IP_PROTO_TCP (p ++ (tcp_front sp dp seq ack flags win ++ [0; 0] ++ tcp_back c) ++ q) (zlen p) (TCP_HDR_LEN + zlen c) =
    Ret (net_bswap16 (65535 - ones (tcp_sum src dst sp dp seq ack flags win c))).
Proof.
  intros Hf Hb Hl. assert (TCP_HDR_LEN + zlen c = zlen (tcp_front sp dp seq ack flags win ++ [0; 0] ++ tcp_back c)) as Em.
  { rewrite !zlen_app, zlen_tcp_back. change (zlen (tcp_front _ _ _ _ _ _)) with 16. change (zlen [0; 0]) with 2. unfold TCP_HDR_LEN. lia. }
  rewrite Em in Hl. rewrite Em, net_transport_checksum_spec; [|by vm_compute|by apply tcp_zero_bytes|done].
  unfold tcp_sum. by rewrite Em.
Qed.

Section TcpOutput.
Context `{KmemOk} (tx : tx_fun).

Lemma tcp_fill_spec pre hdr post sp dp seq ack flags win :
  zlen hdr = TCP_HDR_LEN →
  tcp_fill (pre ++ hdr ++ post) (zlen pre) sp dp seq ack flags win =
    Ret (pre ++ (tcp_front sp dp seq ack flags win ++ [0; 0] ++ be16 0) ++ post).
Proof.
  intros Hh. assert (length hdr = 20%nat) as Hh' by (unfold zlen, TCP_HDR_LEN in Hh; lia). list_elems hdr.
  unfold tcp_fill. write_hdr. done.
Qed.

Lemma tcp_build_spec n src sp dst dp seq ack flags win data len :
  in_use n < room (n_pool n) → payload_ok data len → TCP_HDR_LEN + len < 2 ^ 16 → is_u8 flags →
  ∃ nb pre, tcp_build_segment n src sp dst dp seq ack flags win data len =
      Ret (set_pool n (mk_pool (in_use n + 1) (room (n_pool n))), Some nb) ∧
    holds nb pre (tcp_segment src dst sp dp seq ack flags win (payload_of data len)) [] ∧ zlen pre = NETBUF_DEFAULT_HEADROOM.
Proof.
  intros Hr Hd Hl Hf. pose proof (proj1 Hd) as Hl0. pose proof (zlen_payload _ _ Hd) as Hz. pose proof (bytes_payload _ _ Hd) as Hb.
  unfold tcp_build_segment. destruct (alloc_hdr (n_pool n) TCP_HDR_LEN len) as (nb & nb1 & pre & hdr & rest & E & E1 & H1 & Hh & Hrest & Hp);
    [done|done|unfold TCP_HDR_LEN in *; lia|done|].
  rewrite E, E1. pose proof H1 as (Eb & _). rewrite Eb, tcp_fill_spec by done. cbn [mbind outcome_bind].
  pose proof (holds_with_buf _ _ _ _ (tcp_front sp dp seq ack flags win ++ [0; 0] ++ be16 0) H1 (eq_sym Hh)) as H2.
  rewrite <-(app_nil_r rest) in H2 at 2.
  destruct (put_body_spec _ _ _ _ _ data len H2 Hd Hrest) as (nb2 & E2 & H3 & _). rewrite E2. cbn [mbind outcome_bind negb].
  set (c := payload_of data len) in *.
  assert ((tcp_front sp dp seq ack flags win ++ [0; 0] ++ be16 0) ++ c = tcp_front sp dp seq ack flags win ++ [0; 0] ++ tcp_back c) as Ec by done.
  rewrite Ec in H3. rewrite u16_small by (unfold TCP_HDR_LEN in *; lia). rewrite <-Hz in Hl |- *.
  pose proof H3 as (Eb3 & Ed3 & _). rewrite Eb3, Ed3.
  rewrite tcp_csum_spec by (done || unfold is_u16, TCP_HDR_LEN in *; lia). cbn [mbind outcome_bind]. rewrite <-Eb3.
  destruct (seal_ok _ _ _ _ _ (net_bswap16 (65535 - ones (tcp_sum src dst sp dp seq ack flags win c))) (zlen pre + 16) H3 eq_refl)
    as (b' & E4 & H4).
  rewrite E4. cbn [mbind outcome_bind]. eexists _, pre. split; [done|]. split; [exact H4|done].
Qed.

(** A segment is taken when the source fits its checksum, and dropped otherwise. *)
Lemma tcp_input_spec n i nb p src src' dst sp dp seq ack flags win c q :
  holds nb p (tcp_segment src dst sp dp seq ack flags win c) q → is_u16 sp → is_u16 dp → is_u32 seq → is_u32 ack → is_u8 flags →
  bytes c → TCP_HDR_LEN + zlen c < 2 ^ 16 →
  tcp_input tx n i nb src' dst =
    if wsum (le32 src) mod 65535 =? wsum (le32 src') mod 65535 then
      r ← tcp_lookup (n_tcbs n) dst dp src' sp;
      match r with
      | None => Ret n
      | Some j =>
          t ← get_tcb n j;
          n ← (if bool_decide (t_state t = TCP_LISTEN) then upd_tcb n j (tcb_peer dst src' sp) else Ret n);
          tcp_state_machine tx n j seq ack flags (zlen c)
      end
    else Ret n.
Proof.
  intros Hnb Hsp Hdp Hseq Hack Hf Hb Hl. pose proof (zlen_nonneg c).
  assert (is_u16 (TCP_HDR_LEN + zlen c)) as Hl16 by (unfold is_u16, TCP_HDR_LEN in *; lia).
  pose proof Hnb as (Eb & Ed & _).
  set (k := csum_field (tcp_sum src dst sp dp seq ack flags win c)).
  assert (nb_buf nb = p ++ (tcp_front sp dp seq ack flags win ++ k ++ be16 0) ++ (c ++ q)) as Eb'.
  { rewrite Eb. unfold tcp_segment, tcp_back. by rewrite <-!(assoc_L (++)). }
  unfold tcp_input. rewrite (holds_len _ _ _ _ Hnb), zlen_tcp. rewrite (proj2 (Z.ltb_ge _ _)) by lia. rewrite Ed, Eb'.
  rewrite (aget_mid _ _ _ 12 0x50) by done. cbn [mbind outcome_bind]. change (tcp_header_bytes 0x50) with TCP_HDR_LEN.
  change (TCP_HDR_LEN <? TCP_HDR_LEN) with false. rewrite (proj2 (Z.ltb_ge _ _)) by lia. cbn [orb].
  rewrite !(u16_small (TCP_HDR_LEN + zlen c)) by done. rewrite <-Eb', Eb.
  destruct (tcp_checksum_spec src src' dst sp dp seq ack flags win c p q Hf Hb Hl16) as (v & -> & Hv). cbn [mbind outcome_bind].
  destruct (Z.eqb_spec v 0) as [Ev|Ev]; cbn [negb].
  2: { rewrite (proj2 (Z.eqb_neq _ _)) by (intros Hx; by apply Ev, Hv). done. }
  rewrite (proj2 (Z.eqb_eq _ _)) by (by apply Hv). rewrite <-Eb, Eb'.
  rewrite (get_be16_mid0 _ _ _ sp), (get_be16_mid _ _ _ 2 dp) by done. cbn [mbind outcome_bind].
  rewrite (get_be32_mid _ _ _ 4 seq), (get_be32_mid _ _ _ 8 ack) by done. cbn [mbind outcome_bind].
  rewrite (aget_mid _ _ _ 13 flags) by done. cbn [mbind outcome_bind].
  replace (TCP_HDR_LEN + zlen c - TCP_HDR_LEN) with (zlen c) by lia. rewrite u16_small by (unfold TCP_HDR_LEN in *; lia). done.
Qed.

End TcpOutput.

(** *** Lookup *)

(** The TCB a segment for [lip]:[lport] from [rip]:[rport] belongs to. *)
Definition tcb_takes (t : tcp_tcb) (lip lport rip rport : Z) : Prop :=
  t_in_use t = true ∧ t_local_port t = lport ∧ (t_local_ip t = 0 ∨ t_local_ip t = lip) ∧
  (t_state t = TCP_LISTEN ∨ t_remote_port t = rport ∧ t_remote_ip t = rip).

Lemma tcp_lookup_unique ts (j : nat) t lip lport rip rport :
  zlen ts = TCP_TCB_MAX → ts !! j = Some t → tcb_takes t lip lport rip rport →
  (∀ k t', ts !! k = Some t' → k ≠ j → t_in_use t' = true → t_local_port t' ≠ lport) →
  tcp_lookup ts lip lport rip rport = Ret (Some (Z.of_nat j)).
Proof.
  intros Hl Hj (Hu & Hp & Hip & Hst) Huniq. unfold tcp_lookup.
  destruct (find_range_inv (λ i o, o = if Z.of_nat j <? i then Some (Z.of_nat j) else None) (λ r, r = Z.of_nat j)
    (tcp_lookup_body ts lip lport rip rport) 0 TCP_TCB_MAX None) as [(o & E & Ho)|(r & E & Hr)]; [done| | |..].
  - intros i o Hi ->. unfold tcp_lookup_body. destruct (aget_in ts i) as (t' & Ht' & ->); [lia|]. cbn [mbind outcome_bind].
    destruct (decide (i = Z.of_nat j)) as [->|Hne].
    + rewrite Nat2Z.id, Hj in Ht'. injection Ht' as <-. rewrite Hu, Hp, Z.eqb_refl. cbn [negb orb].
      assert (ip_is_zero (t_local_ip t) || ip_equal (t_local_ip t) lip = true) as ->.
      { apply orb_true_iff. unfold ip_is_zero, ip_equal. rewrite !Z.eqb_eq. done. }
      destruct Hst as [Hst|[Hrp Hrip]].
      * rewrite bool_decide_eq_true_2 by done. cbn [negb andb]. left. eexists. split; [done|].
        by rewrite (proj2 (Z.ltb_lt _ _)) by lia.
      * destruct (bool_decide (t_state t = TCP_LISTEN)); cbn [negb andb].
        -- left. eexists. split; [done|]. by rewrite (proj2 (Z.ltb_lt _ _)) by lia.
        -- unfold ip_equal. rewrite Hrp, Hrip, !Z.eqb_refl. right. by eexists.
    + assert (negb (t_in_use t') || negb (t_local_port t' =? lport) = true) as ->.
      { destruct (t_in_use t') eqn:Eu; [|done]. cbn [negb orb]. apply negb_true_iff, Z.eqb_neq. eapply Huniq; [exact Ht'|lia|done]. }
      left. eexists. split; [done|]. destruct (Z.ltb_spec (Z.of_nat j) i), (Z.ltb_spec (Z.of_nat j) (i + 1)); done || lia.
  - by rewrite (proj2 (Z.ltb_ge _ _)) by lia.
  - rewrite E. apply lookup_lt_Some in Hj. unfold zlen in Hl. cbn [mbind outcome_bind]. rewrite Ho, (proj2 (Z.ltb_lt _ _)) by lia. done.
  - rewrite E, Hr. done.
Qed.
