(* ===== verification/Dns.v ===== *)
(** The DNS resolver: [kernel/net/dns.c]. A packet is the object it lies in and
    the offset [p] of its first byte. *)

From S2P Require Import Prelude CString NetBase Netbuf NetIf Arp Ipv4 Icmp Udp.

(** ** Definitions *)

Definition DNS_PORT : Z := 53.
Definition DNS_MAX_PACKET : Z := 512.
Definition DNS_HDR_LEN : Z := 12.
Definition DNS_FLAG_QR : Z := 0x8000.
Definition DNS_FLAG_RD : Z := 0x0100.
Definition DNS_RCODE_MASK : Z := 0x000F.
Definition DNS_TYPE_A : Z := 1.
Definition DNS_CLASS_IN : Z := 1.

(** The dot, [0x2E]. *)
Definition DOT : Z := 46.

(** [while (name[i] != 0 && name[i] != '.') i++]. *)
Fixpoint label_end (fuel : nat) (name : list Z) (i : Z) : outcome Z :=
  c ← aget name i;
  if negb (c =? 0) && negb (c =? DOT) then
    match fuel with O => Loop | S fuel => label_end fuel name (i + 1) end
  else Ret i.

Definition label_body (name : list Z) (p out start j : Z) (b : list Z) : outcome (list Z) :=
  c ← aget name (start + j); aset b (p + out + j) (u8 c).

(** The loop over the labels: the buffer and [out], or [None] for an error. *)
Fixpoint encode_loop (fuel : nat) (name b : list Z) (p cap out i : Z) : outcome (list Z * option Z) :=
  c ← aget name i;
  if c =? 0 then Ret (b, Some out)
  else
    match fuel with
    | O => Loop
    | S fuel =>
        let start := i in
        i ← label_end (length name) name i;
        let label_len := i - start in
        if (label_len =? 0) || (63 <? label_len) then Ret (b, None)
        else if cap <=? out + 1 + label_len then Ret (b, None)
        else
          b ← aset b (p + out) (u8 label_len);
          b ← for_range 0 label_len (label_body name p (out + 1) start) b;
          c ← aget name i;
          encode_loop fuel name b p cap (out + 1 + label_len) (if c =? DOT then i + 1 else i)
    end.

Definition dns_encode_name (name b : list Z) (p cap : Z) : outcome (list Z * Z) :=
  '(b, out) ← encode_loop (length name) name b p cap 0 0;
  match out with
  | None => Ret (b, 0)
  | Some out =>
      if cap <? out + 1 then Ret (b, 0)
      else b ← aset b (p + out) 0; Ret (b, out + 1)
  end.

Definition dns_build_query (id : Z) (name : list Z) (qtype : Z) (b : list Z) (cap : Z) : outcome (list Z * Z) :=
  if cap <? DNS_HDR_LEN then Ret (b, 0)
  else
    b ← net_put_be16 b 0 id;
    b ← net_put_be16 b 2 DNS_FLAG_RD;
    b ← net_put_be16 b 4 1;
    b ← net_put_be16 b 6 0;
    b ← net_put_be16 b 8 0;
    b ← net_put_be16 b 10 0;
    let off := DNS_HDR_LEN in
    '(b, nlen) ← dns_encode_name name b off (cap - off);
    if nlen =? 0 then Ret (b, 0)
    else
      let off := off + nlen in
      if cap <? off + 4 then Ret (b, 0)
      else
        b ← net_put_be16 b off qtype;
        b ← net_put_be16 b (off + 2) DNS_CLASS_IN;
        Ret (b, off + 4).

(** Every turn moves [off] on: [len] turns are enough. *)
Fixpoint skip_loop (fuel : nat) (b : list Z) (p len off : Z) : outcome Z :=
  if off <? len then
    match fuel with
    | O => Loop
    | S fuel =>
        c ← aget b (p + off);
        if c =? 0 then Ret (off + 1)
        else if Z.land c 0xC0 =? 0xC0 then Ret (off + 2)
        else if negb (Z.land c 0xC0 =? 0) then Ret 0
        else skip_loop fuel b p len (off + (1 + c))
    end
  else Ret 0.

Definition dns_skip_name (b : list Z) (p len off : Z) : outcome Z := skip_loop (Z.to_nat len) b p len off.

Definition question_body (b : list Z) (p len q off : Z) : outcome (Z + unit) :=
  off ← dns_skip_name b p len off;
  Ret (if (off =? 0) || (len <? off + 4) then inr tt else inl (off + 4)).

(** The address found, or [None] for 0. *)
Definition answer_body (b : list Z) (p len a off : Z) : outcome (Z + option Z) :=
  off ← dns_skip_name b p len off;
  if (off =? 0) || (len <? off + 10) then Ret (inr None)
  else
    type ← net_get_be16 b (p + off);
    rdlen ← net_get_be16 b (p + off + 8);
    let off := off + 10 in
    if len <? off + rdlen then Ret (inr None)
    else if (type =? DNS_TYPE_A) && (rdlen =? 4) then
      addr ← get_u32 b (p + off);
      Ret (inr (Some addr))
    else Ret (inl (off + rdlen)).

Definition dns_parse_response (b : list Z) (p len match_id : Z) : outcome (option Z) :=
  if len <? DNS_HDR_LEN then Ret None
  else
    id ← net_get_be16 b p;
    flags ← net_get_be16 b (p + 2);
    if negb (match_id =? 0) && negb (id =? match_id) then Ret None
    else if Z.land flags DNS_FLAG_QR =? 0 then Ret None
    else if negb (Z.land flags DNS_RCODE_MASK =? 0) then Ret None
    else
      qd ← net_get_be16 b (p + 4);
      an ← net_get_be16 b (p + 6);
      if an =? 0 then Ret None
      else
        r ← find_range 0 qd (question_body b p len) DNS_HDR_LEN;
        match r with
        | inr _ => Ret None
        | inl off =>
            r ← find_range 0 an (answer_body b p len) off;
            Ret (match r with inr a => a | inl _ => None end)
        end.

(** The callback's context is the [struct dns_resolution] in flight: [res_out] and [res_done] are its pointers [out] and
    [done] together with what they point to, [None] for NULL, and a store through them updates the state. *)
Definition dns_recv (n : net) (b : list Z) (p len : Z) : outcome net :=
  let r := n_dns n in
  a ← dns_parse_response b p len (res_id r);
  match a with
  | None => Ret n
  | Some addr =>
      Ret (set_dns n (mk_res (res_id r) (match res_out r with Some _ => Some addr | None => None end)
                        (match res_done r with Some _ => Some 1 | None => None end)))
  end.

(** [out] and [done] with what they point to, [None] for NULL. *)
Definition dns_resolve `{Kmem} (tx : tx_fun) (n : net) (server : Z) (name : list Z) (out done : option Z)
    : outcome (net * Z) :=
  let id := n_dns_id n in
  let n := set_dns_id n (u16 (id + 1)) in
  '(query, qlen) ← dns_build_query id name DNS_TYPE_A (kmem_bytes DNS_MAX_PACKET) DNS_MAX_PACKET;
  if qlen =? 0 then Ret (n, -1)
  else
    let n := set_dns n (mk_res id out (match done with Some _ => Some 0 | None => None end)) in
    '(n, lport) ← udp_ephemeral_port n;
    '(n, _) ← udp_bind n IP_ADDR_ANY lport (Some dns_recv_fn) 0;
    '(n, rc) ← udp_output tx n IP_ADDR_ANY lport server DNS_PORT (Some (query, 0)) (u16 qlen);
    if rc <? 0 then n ← udp_unbind n IP_ADDR_ANY lport; Ret (n, -1)
    else Ret (n, 0).

(** ** Specification *)

(** A label of a name: 1 to 63 bytes, none of them a dot or a NUL. *)
Definition label (l : list Z) : Prop :=
  1 ≤ zlen l ≤ 63 ∧ Forall (λ c, is_u8 c ∧ c ≠ 0 ∧ c ≠ DOT) l.

(** The labels as text, separated by dots, and on the wire, each after its length. *)
Fixpoint dotted (ls : list (list Z)) : list Z :=
  match ls with
  | [] => []
  | [l] => l
  | l :: ls => l ++ DOT :: dotted ls
  end.
Fixpoint wire (ls : list (list Z)) : list Z :=
  match ls with
  | [] => []
  | l :: ls => zlen l :: l ++ wire ls
  end.

(** A name in a message ends in the root label or in a compression pointer. *)
Record dname := mk_dname { dn_labels : list (list Z); dn_ptr : option (Z * Z) }.
Definition dname_ok (d : dname) : Prop :=
  Forall label (dn_labels d) ∧ match dn_ptr d with None => True | Some (h, _) => 192 ≤ h < 256 end.
Definition dname_bytes (d : dname) : list Z :=
  wire (dn_labels d) ++ match dn_ptr d with None => [0] | Some (h, l) => [h; l] end.

Record dquestion := mk_dq { dq_name : dname; dq_type : Z; dq_class : Z }.
Definition dq_bytes (q : dquestion) : list Z := dname_bytes (dq_name q) ++ be16 (dq_type q) ++ be16 (dq_class q).

Record drecord := mk_rr { rr_name : dname; rr_type : Z; rr_class : Z; rr_ttl : Z; rr_data : list Z }.
Definition rr_ok (r : drecord) : Prop :=
  dname_ok (rr_name r) ∧ is_u16 (rr_type r) ∧ is_u16 (zlen (rr_data r)) ∧ bytes (rr_data r).
Definition rr_bytes (r : drecord) : list Z :=
  dname_bytes (rr_name r) ++
  (be16 (rr_type r) ++ be16 (rr_class r) ++ be32 (rr_ttl r) ++ be16 (zlen (rr_data r))) ++ rr_data r.

(** The address of a record, if it is an A record, and of the first such of a list. *)
Definition rr_addr (r : drecord) : option Z :=
  match rr_data r with
  | [a; b; c; d] => if rr_type r =? DNS_TYPE_A then Some (ip_make a b c d) else None
  | _ => None
  end.
Fixpoint first_addr (rs : list drecord) : option Z :=
  match rs with
  | [] => None
  | r :: rs => match rr_addr r with Some a => Some a | None => first_addr rs end
  end.

(** A message: header, questions, answers (and [rest], the sections the resolver does not read). *)
Definition dns_header (id flags qd an ns ar : Z) : list Z :=
  be16 id ++ be16 flags ++ be16 qd ++ be16 an ++ be16 ns ++ be16 ar.
Definition dns_query (id : Z) (q : dquestion) : list Z := dns_header id DNS_FLAG_RD 1 0 0 0 ++ dq_bytes q.
Definition dns_reply (id flags : Z) (qs : list dquestion) (rs : list drecord) (ns ar : Z) (rest : list Z) : list Z :=
  dns_header id flags (zlen qs) (zlen rs) ns ar ++ concat (dq_bytes <$> qs) ++ concat (rr_bytes <$> rs) ++ rest.

(** ** Lemmas *)

(** *** Encoding a name *)

Lemma label_end_spec l : ∀ fuel pre t post,
  Forall (λ c, is_u8 c ∧ c ≠ 0 ∧ c ≠ DOT) l → t = 0 ∨ t = DOT → (length l ≤ fuel)%nat →
  label_end fuel (pre ++ l ++ t :: post) (zlen pre) = Ret (zlen pre + zlen l).
Proof.
  induction l as [|c l IH]; intros fuel pre t post Hl Ht Hf.
  - destruct fuel; cbn [label_end app]; rewrite aget_at by done; cbn [mbind outcome_bind];
      (destruct Ht as [-> | ->]; cbn; by rewrite Z.add_0_r).
  - apply Forall_cons in Hl as [(_ & H0 & H1) Hl]. destruct fuel as [|fuel]; [cbn in Hf; lia|].
    cbn [label_end app]. rewrite aget_at by done. cbn [mbind outcome_bind].
    rewrite (proj2 (Z.eqb_neq _ _) H0), (proj2 (Z.eqb_neq _ _) H1). cbn [negb andb].
    pose proof (IH fuel (pre ++ [c]) t post Hl Ht ltac:(cbn in Hf; lia)) as E.
    rewrite <-(assoc_L (++)), zlen_app in E. change (zlen [c]) with 1 in E. rewrite zlen_cons, Z.add_assoc. exact E.
Qed.

Lemma label_copy l old npre npost bpre bpost p out :
  zlen old = zlen l → bytes l → p + out = zlen bpre →
  for_range 0 (zlen l) (label_body (npre ++ l ++ npost) p out (zlen npre)) (bpre ++ old ++ bpost) = Ret (bpre ++ l ++ bpost).
Proof.
  intros Ho Hl Hp. set (I := λ j b, b = bpre ++ (take (Z.to_nat j) l ++ drop (Z.to_nat j) old) ++ bpost).
  destruct (for_range_inv I (label_body (npre ++ l ++ npost) p out (zlen npre)) 0 (zlen l) (bpre ++ old ++ bpost))
    as (b & E & Hb); [apply zlen_nonneg| |done|].
  - intros j b Hj ->. unfold zlen in Ho, Hj. destruct (lookup_lt_is_Some_2 l (Z.to_nat j)) as [c Hc]; [lia|].
    eexists. split.
    + unfold label_body. rewrite (aget_mid npre l npost j c) by (done || lia). cbn [mbind outcome_bind].
      rewrite Hp, aset_mid by (unfold zlen; rewrite length_app, length_take, length_drop; lia). reflexivity.
    + unfold I. do 2 f_equal. assert (is_u8 c) as Hc8 by (eapply Forall_lookup_1; [apply Hl|done]).
      rewrite (u8_small c) by apply Hc8. rewrite insert_app_r_alt by (rewrite length_take; lia).
      rewrite length_take, Nat.min_l, Nat.sub_diag by lia.
      replace (Z.to_nat (j + 1)) with (S (Z.to_nat j)) by lia. rewrite (take_S_r l _ c) by done. rewrite <-(assoc_L (++)). f_equal.
      destruct (lookup_lt_is_Some_2 old (Z.to_nat j)) as [d Hd]; [lia|]. by rewrite (drop_S old d _ Hd).
  - rewrite E, Hb. unfold zlen in *. rewrite take_ge, drop_ge by lia. by rewrite app_nil_r.
Qed.

Lemma encode_step fuel l npre npost t old bpre bpost p cap out :
  label l → t = 0 ∨ t = DOT → zlen old = 1 + zlen l → p + out = zlen bpre → out + 1 + zlen l < cap →
  let name := npre ++ l ++ t :: npost in
  encode_loop (S fuel) name (bpre ++ old ++ bpost) p cap out (zlen npre) =
  encode_loop fuel name (bpre ++ (zlen l :: l) ++ bpost) p cap (out + 1 + zlen l)
    (if t =? DOT then zlen npre + zlen l + 1 else zlen npre + zlen l).
Proof.
  intros [Hl Hc] Ht Ho Hp Hcap name. cbn [encode_loop].
  destruct l as [|c l']; [change (zlen (@nil Z)) with 0 in Hl; lia|]. set (l := c :: l') in *.
  assert (aget name (zlen npre) = Ret c) as Ec by (by apply (aget_at npre (l' ++ t :: npost))).
  rewrite Ec. cbn [mbind outcome_bind]. apply Forall_cons in Hc as Hc'. destruct Hc' as [(_ & Hc0 & _) _].
  rewrite (proj2 (Z.eqb_neq _ _) Hc0).
  assert (label_end (length name) name (zlen npre) = Ret (zlen npre + zlen l)) as El.
  { apply label_end_spec; [done|done|]. unfold name. rewrite !length_app. lia. }
  rewrite El. cbn [mbind outcome_bind]. rewrite Z.add_simpl_l. rewrite (proj2 (Z.eqb_neq (zlen l) 0)), (proj2 (Z.ltb_ge _ _)) by lia.
  cbn [orb]. rewrite (proj2 (Z.leb_gt _ _)) by lia. destruct old as [|o old]; [change (zlen (@nil Z)) with 0 in Ho; lia|].
  rewrite zlen_cons in Ho. cbn [app]. rewrite aset_at by done. cbn [mbind outcome_bind]. rewrite u8_small by lia.
  assert (bytes l) as Hb by (eapply Forall_impl; [apply Hc|]; by intros ? [? _]).
  pose proof (label_copy l old npre (t :: npost) (bpre ++ [zlen l]) bpost p (out + 1) ltac:(lia) Hb
    ltac:(rewrite zlen_app; change (zlen [zlen l]) with 1; lia)) as Ecopy.
  rewrite <-!(assoc_L (++)) in Ecopy. fold name in Ecopy. cbn [app] in Ecopy. rewrite Ecopy. cbn [mbind outcome_bind].
  assert (aget name (zlen npre + zlen l) = Ret t) as Et.
  { unfold name. rewrite (assoc_L (++)). apply aget_at. by rewrite zlen_app. }
  rewrite Et. reflexivity.
Qed.

Lemma encode_loop_spec ls : ∀ fuel npre npost old bpre bpost p cap out,
  Forall label ls → zlen old = zlen (wire ls) → p + out = zlen bpre → out + zlen (wire ls) < cap → (length ls ≤ fuel)%nat →
  encode_loop fuel (npre ++ dotted ls ++ 0 :: npost) (bpre ++ old ++ bpost) p cap out (zlen npre) =
  Ret (bpre ++ wire ls ++ bpost, Some (out + zlen (wire ls))).
Proof.
  induction ls as [|l ls IH]; intros fuel npre npost old bpre bpost p cap out Hls Ho Hp Hcap Hf.
  - cbn [dotted wire app] in *. assert (old = []) as -> by (apply nil_length_inv; unfold zlen in Ho; cbn in Ho; lia).
    change (zlen (@nil Z)) with 0. rewrite Z.add_0_r. destruct fuel; cbn [encode_loop]; by rewrite aget_at by done.
  - apply Forall_cons in Hls as [Hl Hls]. destruct fuel as [|fuel]; [cbn in Hf; lia|]. cbn [wire] in *.
    rewrite zlen_cons, zlen_app in Ho, Hcap. pose proof (zlen_nonneg (wire ls)). pose proof (zlen_nonneg l).
    rewrite <-(take_drop (Z.to_nat (1 + zlen l)) old).
    set (o1 := take _ old). set (o2 := drop _ old).
    assert (zlen o1 = 1 + zlen l) as H1 by (unfold o1, zlen in *; rewrite length_take; lia).
    assert (zlen o2 = zlen (wire ls)) as H2 by (unfold o2, zlen in *; rewrite length_drop; lia).
    assert (zlen (bpre ++ zlen l :: l) = p + (out + 1 + zlen l)) as H3 by (rewrite zlen_app, zlen_cons; lia).
    rewrite <-(assoc_L (++)).
    destruct ls as [|l2 ls].
    + cbn [dotted]. rewrite encode_step by (done || lia || by left). cbn [Z.eqb DOT].
      pose proof (IH fuel (npre ++ l) npost o2 (bpre ++ zlen l :: l) bpost p cap (out + 1 + zlen l) Hls H2 (eq_sym H3)
        ltac:(lia) ltac:(cbn in *; lia)) as E.
      rewrite <-!(assoc_L (++)), zlen_app in E. cbn [dotted app] in E |- *. rewrite E.
      rewrite zlen_cons, zlen_app, <-(assoc_L (++)). do 3 f_equal. lia.
    + change (dotted (l :: l2 :: ls)) with (l ++ DOT :: dotted (l2 :: ls)).
      rewrite <-(assoc_L (++)). cbn [app]. rewrite encode_step by (done || lia || by right). change (DOT =? DOT) with true. cbv iota.
      pose proof (IH fuel (npre ++ l ++ [DOT]) npost o2 (bpre ++ zlen l :: l) bpost p cap (out + 1 + zlen l) Hls H2 (eq_sym H3)
        ltac:(lia) ltac:(cbn in *; lia)) as E.
      rewrite <-!(assoc_L (++)), !zlen_app in E. change (zlen [DOT]) with 1 in E. cbn [app] in E |- *.
      rewrite (Z.add_assoc (zlen npre)) in E. rewrite E.
      rewrite zlen_cons, zlen_app, <-(assoc_L (++)). do 3 f_equal. lia.
Qed.

Lemma dotted_length ls : Forall label ls → (length ls ≤ length (dotted ls ++ [0%Z]))%nat.
Proof.
  intros Hls. rewrite length_app. cbn [length]. enough (length ls ≤ S (length (dotted ls)))%nat by lia.
  induction Hls as [|l ls [Hl _] Hls IH]; [cbn; lia|]. unfold zlen in Hl. destruct ls as [|l2 ls]; [cbn; lia|].
  change (dotted (l :: l2 :: ls)) with (l ++ DOT :: dotted (l2 :: ls)). rewrite length_app. cbn [length] in IH |- *. lia.
Qed.

(** A name is encoded as its labels and the root label, behind what is before it in the buffer. *)
Lemma dns_encode_spec ls bpre old bpost cap :
  Forall label ls → zlen old = zlen (wire ls) + 1 → zlen (wire ls) < cap →
  dns_encode_name (dotted ls ++ [0]) (bpre ++ old ++ bpost) (zlen bpre) cap =
  Ret (bpre ++ (wire ls ++ [0]) ++ bpost, zlen (wire ls) + 1).
Proof.
  intros Hls Ho Hcap. unfold dns_encode_name. pose proof (zlen_nonneg (wire ls)).
  destruct (exists_last (l := old)) as (old' & o & ->); [intros ->; change (zlen (@nil Z)) with 0 in Ho; lia|].
  rewrite zlen_app in Ho. change (zlen [o]) with 1 in Ho. rewrite <-(assoc_L (++) old').
  pose proof (encode_loop_spec ls (length (dotted ls ++ [0])) [] [] old' bpre ([o] ++ bpost) (zlen bpre) cap 0 Hls
    ltac:(lia) ltac:(lia) ltac:(lia) (dotted_length ls Hls)) as E.
  cbn [app] in E |- *. change (zlen (@nil Z)) with 0 in E. rewrite E. cbn [mbind outcome_bind].
  rewrite (proj2 (Z.ltb_ge _ _)) by lia. rewrite (assoc_L (++) bpre), aset_at by (rewrite zlen_app; lia).
  cbn [mbind outcome_bind]. by rewrite <-!(assoc_L (++)).
Qed.

(** *** Skipping a name *)

Lemma label_len_bits c : 0 ≤ c ≤ 63 → Z.land c 0xC0 = 0.
Proof.
  intros Hc. assert (Forall (λ c, Z.land c 0xC0 = 0) (seqZ 0 64)) as H by (repeat constructor).
  rewrite Forall_forall in H. apply H, elem_of_seqZ. lia.
Qed.

Lemma pointer_bits c : 192 ≤ c < 256 → Z.land c 0xC0 = 0xC0.
Proof.
  intros Hc. assert (Forall (λ c, Z.land c 0xC0 = 0xC0) (seqZ 192 64)) as H by (repeat constructor).
  rewrite Forall_forall in H. apply H, elem_of_seqZ. lia.
Qed.

Lemma skip_loop_spec ls : ∀ fuel pre post p len off n e,
  Forall label ls → p + off = zlen pre → 0 ≤ off → off + zlen (wire ls) < len → (length ls < fuel)%nat →
  (e = [0] ∧ n = 1) ∨ (∃ h l, e = [h; l] ∧ 192 ≤ h < 256 ∧ n = 2) →
  skip_loop fuel (pre ++ wire ls ++ e ++ post) p len off = Ret (off + zlen (wire ls) + n).
Proof.
  induction ls as [|l ls IH]; intros fuel pre post p len off n e Hls Hp Ho Hlen Hf He;
    (destruct fuel as [|fuel]; [cbn in Hf; lia|]); cbn [skip_loop wire app] in *.
  - change (zlen (@nil Z)) with 0 in *. rewrite (proj2 (Z.ltb_lt _ _)) by lia. rewrite Z.add_0_r.
    destruct He as [[-> ->]|(h & l & -> & Hh & ->)]; cbn [app]; rewrite aget_at by done; cbn [mbind outcome_bind]; [done|].
    rewrite (proj2 (Z.eqb_neq h 0)) by lia. by rewrite pointer_bits.
  - apply Forall_cons in Hls as [[Hl _] Hls]. rewrite zlen_cons, zlen_app in Hlen |- *. pose proof (zlen_nonneg (wire ls)).
    rewrite (proj2 (Z.ltb_lt _ _)) by lia. rewrite aget_at by done. cbn [mbind outcome_bind].
    rewrite (proj2 (Z.eqb_neq (zlen l) 0)) by lia. rewrite label_len_bits by lia. change (0 =? 192) with false.
    change (negb (0 =? 0)) with false. cbv iota.
    pose proof (IH fuel (pre ++ zlen l :: l) post p len (off + (1 + zlen l)) n e Hls
      ltac:(rewrite zlen_app, zlen_cons; lia) ltac:(lia) ltac:(lia) ltac:(cbn in Hf; lia) He) as E.
    rewrite <-!(assoc_L (++)) in E |- *. cbn [app] in E. rewrite E. f_equal. lia.
Qed.

Lemma wire_length ls : Z.of_nat (length ls) ≤ zlen (wire ls).
Proof.
  induction ls as [|l ls IH]; [by vm_compute|]. cbn [wire length]. rewrite zlen_cons, zlen_app. pose proof (zlen_nonneg l). lia.
Qed.

(** Skipping a name of a message leads to the byte behind it. *)
Lemma dns_skip_spec d pre post p len off :
  dname_ok d → p + off = zlen pre → 0 ≤ off → off + zlen (dname_bytes d) ≤ len →
  dns_skip_name (pre ++ dname_bytes d ++ post) p len off = Ret (off + zlen (dname_bytes d)).
Proof.
  intros [Hl Hptr] Hp Ho Hlen. unfold dns_skip_name, dname_bytes in *. pose proof (wire_length (dn_labels d)).
  rewrite zlen_app in Hlen |- *. rewrite <-(assoc_L (++)), Z.add_assoc.
  destruct (dn_ptr d) as [[h l]|].
  - change (zlen [h; l]) with 2 in *. apply skip_loop_spec; [done|done|done|lia|lia|]. right. by exists h, l.
  - change (zlen [0]) with 1 in *. apply skip_loop_spec; [done|done|done|lia|lia|]. by left.
Qed.

(** *** The sections of a message *)

Lemma dname_pos d : 0 < zlen (dname_bytes d).
Proof.
  unfold dname_bytes. rewrite zlen_app. pose proof (zlen_nonneg (wire (dn_labels d))). destruct (dn_ptr d) as [[h l]|].
  - change (zlen [h; l]) with 2. lia.
  - change (zlen [0]) with 1. lia.
Qed.

Lemma questions_spec p len qs : ∀ lo pre post off,
  Forall (λ q, dname_ok (dq_name q)) qs → p + off = zlen pre → 0 ≤ off → off + zlen (concat (dq_bytes <$> qs)) ≤ len →
  find_up (length qs) lo (question_body (pre ++ concat (dq_bytes <$> qs) ++ post) p len) off =
  Ret (inl (off + zlen (concat (dq_bytes <$> qs)))).
Proof.
  induction qs as [|q qs IH]; intros lo pre post off Hq Hp Ho Hl; cbn [find_up length fmap list_fmap concat] in *.
  - change (zlen (@nil Z)) with 0. by rewrite Z.add_0_r.
  - apply Forall_cons in Hq as [Hq Hqs]. rewrite zlen_app in Hl |- *. pose proof (zlen_nonneg (concat (dq_bytes <$> qs))).
    pose proof (dname_pos (dq_name q)).
    assert (zlen (dq_bytes q) = zlen (dname_bytes (dq_name q)) + 4) as Ez by (unfold dq_bytes; rewrite zlen_app; done).
    assert (question_body (pre ++ (dq_bytes q ++ concat (dq_bytes <$> qs)) ++ post) p len lo off
      = Ret (inl (off + zlen (dq_bytes q)))) as E.
    { unfold question_body, dq_bytes. rewrite <-!(assoc_L (++)). rewrite dns_skip_spec by (done || lia).
      cbn [mbind outcome_bind]. rewrite (proj2 (Z.eqb_neq _ 0)), (proj2 (Z.ltb_ge _ _)) by lia. cbn [orb].
      fold (dq_bytes q). rewrite Ez. do 2 f_equal. lia. }
    rewrite E. cbn [mbind outcome_bind].
    pose proof (IH (lo + 1) (pre ++ dq_bytes q) post (off + zlen (dq_bytes q)) Hqs ltac:(rewrite zlen_app; lia)
      ltac:(lia) ltac:(lia)) as E2.
    rewrite <-!(assoc_L (++)) in E2 |- *. rewrite E2. do 2 f_equal. lia.
Qed.

Lemma answer_spec p len r lo pre post off :
  rr_ok r → p + off = zlen pre → 0 ≤ off → off + zlen (rr_bytes r) ≤ len →
  answer_body (pre ++ rr_bytes r ++ post) p len lo off =
  Ret (match rr_addr r with Some a => inr (Some a) | None => inl (off + zlen (rr_bytes r)) end).
Proof.
  intros (Hn & Ht & Hd & Hb) Hp Ho Hl. unfold answer_body, rr_bytes in *. pose proof (dname_pos (rr_name r)).
  pose proof (zlen_nonneg (rr_data r)). set (nm := dname_bytes (rr_name r)) in *.
  set (T := be16 (rr_type r) ++ be16 (rr_class r) ++ be32 (rr_ttl r) ++ be16 (zlen (rr_data r))) in *.
  assert (zlen T = 10) as HT by done. rewrite !zlen_app, HT in Hl |- *. rewrite <-!(assoc_L (++)).
  assert (dns_skip_name (pre ++ nm ++ T ++ rr_data r ++ post) p len off = Ret (off + zlen nm)) as Es.
  { apply dns_skip_spec; [done|done|done|]. fold nm. lia. }
  rewrite Es. cbn [mbind outcome_bind].
  rewrite (proj2 (Z.eqb_neq _ 0)), (proj2 (Z.ltb_ge _ _)) by lia. cbn [orb]. rewrite (assoc_L (++) pre nm).
  replace (p + (off + zlen nm)) with (zlen (pre ++ nm)) by (rewrite zlen_app; lia).
  rewrite (get_be16_mid0 _ T _ (rr_type r)) by done. cbn [mbind outcome_bind].
  rewrite (get_be16_mid _ T _ 8 (zlen (rr_data r))) by done. cbn [mbind outcome_bind].
  rewrite (proj2 (Z.ltb_ge _ _)) by lia. unfold rr_addr.
  destruct (Z.eqb_spec (zlen (rr_data r)) 4) as [E4|N4].
  - destruct (rr_data r) as [|a [|b [|c [|d [|]]]]] eqn:Ed; try (exfalso; unfold zlen in E4; cbn [length] in E4; lia).
    destruct (Z.eqb_spec (rr_type r) DNS_TYPE_A); cbn [andb].
    + rewrite (assoc_L (++) (pre ++ nm)). rewrite get_u32_addr; [done|done|]. rewrite !zlen_app, HT. lia.
    + do 2 f_equal. rewrite E4. lia.
  - rewrite andb_false_r. destruct (rr_data r) as [|a [|b [|c [|d [|]]]]]; try (do 2 f_equal; lia). by destruct N4.
Qed.

Lemma answers_spec p len rs : ∀ lo pre post off,
  Forall rr_ok rs → p + off = zlen pre → 0 ≤ off → off + zlen (concat (rr_bytes <$> rs)) ≤ len →
  find_up (length rs) lo (answer_body (pre ++ concat (rr_bytes <$> rs) ++ post) p len) off =
  Ret (match first_addr rs with Some a => inr (Some a) | None => inl (off + zlen (concat (rr_bytes <$> rs))) end).
Proof.
  induction rs as [|r rs IH]; intros lo pre post off Hr Hp Ho Hl; cbn [find_up length fmap list_fmap concat first_addr] in *.
  - change (zlen (@nil Z)) with 0. by rewrite Z.add_0_r.
  - apply Forall_cons in Hr as [Hr Hrs]. rewrite zlen_app in Hl |- *. pose proof (zlen_nonneg (concat (rr_bytes <$> rs))).
    pose proof (zlen_nonneg (rr_bytes r)). pose proof (answer_spec p len r lo pre (concat (rr_bytes <$> rs) ++ post) off Hr Hp Ho
      ltac:(lia)) as E.
    rewrite <-!(assoc_L (++)). rewrite E. cbn [mbind outcome_bind]. destruct (rr_addr r); [done|].
    pose proof (IH (lo + 1) (pre ++ rr_bytes r) post (off + zlen (rr_bytes r)) Hrs ltac:(rewrite zlen_app; lia)
      ltac:(lia) ltac:(lia)) as E2.
    rewrite <-!(assoc_L (++)) in E2. rewrite E2. destruct (first_addr rs); [done|]. do 2 f_equal. lia.
Qed.

(** A reply with its questions and answers is parsed to the first address it has. *)
Lemma dns_parse_spec id mid flags qs rs ns ar rest pre post :
  let msg := dns_reply id flags qs rs ns ar rest in
  is_u16 id → is_u16 flags → mid = 0 ∨ mid = id → Z.land flags DNS_FLAG_QR ≠ 0 → Z.land flags DNS_RCODE_MASK = 0 →
  is_u16 (zlen qs) → is_u16 (zlen rs) → Forall (λ q, dname_ok (dq_name q)) qs → Forall rr_ok rs →
  dns_parse_response (pre ++ msg ++ post) (zlen pre) (zlen msg) mid = Ret (first_addr rs).
Proof.
  intros msg Hid Hfl Hmid Hqr Hrc Hqd Han Hqs Hrs. unfold dns_parse_response.
  set (H := dns_header id flags (zlen qs) (zlen rs) ns ar). set (Q := concat (dq_bytes <$> qs)).
  set (R := concat (rr_bytes <$> rs)). assert (msg = H ++ Q ++ R ++ rest) as Em by done. clearbody msg. subst msg.
  assert (zlen H = DNS_HDR_LEN) as HH by done. rewrite !zlen_app, HH. rewrite <-!(assoc_L (++)).
  pose proof (zlen_nonneg Q). pose proof (zlen_nonneg R). pose proof (zlen_nonneg rest).
  rewrite (proj2 (Z.ltb_ge _ _)) by lia. rewrite (get_be16_mid0 _ H _ id) by done. cbn [mbind outcome_bind].
  rewrite (get_be16_mid _ H _ 2 flags) by done. cbn [mbind outcome_bind].
  replace (negb (mid =? 0) && negb (id =? mid)) with false
    by (destruct Hmid as [-> | ->]; [done|by rewrite Z.eqb_refl, andb_false_r]).
  rewrite (proj2 (Z.eqb_neq _ _) Hqr), Hrc. change (negb (0 =? 0)) with false. cbv iota.
  rewrite (get_be16_mid _ H _ 4 (zlen qs)) by done. cbn [mbind outcome_bind].
  rewrite (get_be16_mid _ H _ 6 (zlen rs)) by done. cbn [mbind outcome_bind].
  destruct (Z.eqb_spec (zlen rs) 0) as [E0|_].
  { by rewrite (nil_length_inv rs) by (unfold zlen in E0; lia). }
  unfold find_range. rewrite !Z.sub_0_r. replace (Z.to_nat (zlen qs)) with (length qs) by (unfold zlen; lia).
  replace (Z.to_nat (zlen rs)) with (length rs) by (unfold zlen; lia). rewrite (assoc_L (++) pre H).
  rewrite questions_spec; [|done|rewrite zlen_app, HH; done|done|fold Q; lia]. fold Q. cbn [mbind outcome_bind].
  rewrite (assoc_L (++) (pre ++ H)). rewrite answers_spec; [|done|rewrite !zlen_app, HH; lia|unfold DNS_HDR_LEN; lia|fold R; lia].
  cbn [mbind outcome_bind]. by destruct (first_addr rs).
Qed.

(** *** Building a query *)

Lemma split_at {A} (l : list A) n : 0 ≤ n ≤ zlen l → ∃ a b, l = a ++ b ∧ zlen a = n.
Proof.
  intros Hn. exists (take (Z.to_nat n) l), (drop (Z.to_nat n) l). split; [by rewrite take_drop|].
  unfold zlen in *. rewrite length_take. lia.
Qed.

Lemma dns_header_written id b post :
  length b = 12%nat →
  (b ← net_put_be16 (b ++ post) 0 id;
   b ← net_put_be16 b 2 DNS_FLAG_RD;
   b ← net_put_be16 b 4 1;
   b ← net_put_be16 b 6 0;
   b ← net_put_be16 b 8 0;
   net_put_be16 b 10 0) = Ret (dns_header id DNS_FLAG_RD 1 0 0 0 ++ post).
Proof.
  intros Hb. do 12 (destruct b as [|? b]; [discriminate|]). destruct b; [|discriminate]. cbn [app].
  match goal with |- context [net_put_be16 (?x :: ?y :: ?t) 0 id] => change (x :: y :: t) with ([] ++ x :: y :: t) end.
  do 6 (rewrite put_be16_at by done; cbn [mbind outcome_bind]; rewrite ?(assoc_L (++))). reflexivity.
Qed.

Lemma dns_query_spec id ls qtype b cap :
  let q := dns_query id (mk_dq (mk_dname ls None) qtype DNS_CLASS_IN) in
  Forall label ls → zlen q ≤ cap → cap ≤ zlen b →
  ∃ rest, zlen (q ++ rest) = zlen b ∧ dns_build_query id (dotted ls ++ [0]) qtype b cap = Ret (q ++ rest, zlen q).
Proof.
  intros q Hls Hq Hcap. set (w := wire ls ++ [0]).
  assert (q = dns_header id DNS_FLAG_RD 1 0 0 0 ++ w ++ be16 qtype ++ be16 DNS_CLASS_IN) as Eq by done. clearbody q. subst q.
  set (h := dns_header id DNS_FLAG_RD 1 0 0 0) in *.
  assert (zlen w = zlen (wire ls) + 1) as Hw by (unfold w; by rewrite zlen_app). pose proof (zlen_nonneg (wire ls)).
  assert (zlen (h ++ w ++ be16 qtype ++ be16 DNS_CLASS_IN) = DNS_HDR_LEN + (zlen w + 4)) as Ez by (rewrite !zlen_app; done).
  rewrite Ez in *. unfold DNS_HDR_LEN in *.
  destruct (split_at b 12) as (b0 & b1 & -> & H0); [lia|]. rewrite zlen_app in Hcap.
  destruct (split_at b1 (zlen w)) as (old & b2 & -> & H1); [lia|]. rewrite zlen_app in Hcap.
  destruct (split_at b2 4) as (tl & rest & -> & H2); [lia|]. exists rest.
  split; [rewrite (zlen_app _ rest), Ez, !zlen_app; lia|].
  destruct tl as [|t0 [|t1 [|t2 [|t3 [|]]]]]; try (exfalso; unfold zlen in H2; cbn [length] in H2; lia).
  pose proof (dns_header_written id b0 (old ++ [t0; t1; t2; t3] ++ rest) ltac:(unfold zlen in H0; lia)) as Eh. fold h in Eh.
  unfold dns_build_query, DNS_HDR_LEN. rewrite (proj2 (Z.ltb_ge _ _)) by lia.
  do 5 (apply bind_Ret_inv in Eh as (? & E & Eh); rewrite E; clear E; cbn [mbind outcome_bind]).
  rewrite Eh. cbn [mbind outcome_bind].
  pose proof (dns_encode_spec ls h old ([t0; t1; t2; t3] ++ rest) (cap - 12) Hls ltac:(lia) ltac:(lia)) as En.
  change (zlen h) with 12 in En. rewrite En. fold w. cbn [mbind outcome_bind]. rewrite <-Hw.
  rewrite (proj2 (Z.eqb_neq _ _)), (proj2 (Z.ltb_ge _ _)) by lia. rewrite (assoc_L (++) h).
  cbn [app]. rewrite put_be16_at by (by rewrite zlen_app). cbn [mbind outcome_bind]. rewrite (assoc_L (++) (h ++ w)).
  rewrite put_be16_at by (rewrite !zlen_app; change (zlen h) with 12; change (zlen (be16 qtype)) with 2; lia).
  cbn [mbind outcome_bind]. rewrite <-!(assoc_L (++)). do 2 f_equal. lia.
Qed.

(** ** Theorems *)

(** A DNS exchange: a name of valid labels is encoded into a query that asks for its address,
    whatever the buffer held before; and a reply under that id that repeats the question, with no error code, is
    parsed to the address of its first A record, whatever other records come before or after it and whether
    their names are written out or compressed (to no address if it has none). *)
Theorem dns_exchange id ls b flags rs ns ar rest pre post :
  let question := mk_dq (mk_dname ls None) DNS_TYPE_A DNS_CLASS_IN in
  let reply := dns_reply id flags [question] rs ns ar rest in
  is_u16 id → Forall label ls → zlen (dns_query id question) ≤ DNS_MAX_PACKET → zlen b = DNS_MAX_PACKET →
  is_u16 flags → Z.land flags DNS_FLAG_QR ≠ 0 → Z.land flags DNS_RCODE_MASK = 0 → is_u16 (zlen rs) → Forall rr_ok rs →
  (∃ b', zlen (dns_query id question ++ b') = DNS_MAX_PACKET ∧
     dns_build_query id (dotted ls ++ [0]) DNS_TYPE_A b DNS_MAX_PACKET =
     Ret (dns_query id question ++ b', zlen (dns_query id question))) ∧
  dns_parse_response (pre ++ reply ++ post) (zlen pre) (zlen reply) id = Ret (first_addr rs).
Proof.
  intros question reply Hid Hls Hq Hb Hf Hqr Hrc Hn Hrs. split.
  - rewrite <-Hb. apply dns_query_spec; [done|by rewrite Hb|lia].
  - apply dns_parse_spec; [done|done|by right|done|done|by vm_compute|done| |done]. by apply Forall_cons_2.
Qed.

(** [hn.x], answered by a CNAME and the address 10.0.2.7. *)
Definition example_labels : list (list Z) := [[104; 110]; [120]].
Definition example_answers : list drecord :=
  [mk_rr (mk_dname [] (Some (192, 12))) 5 1 60 [1; 97; 0]; mk_rr (mk_dname [[97]] None) 1 1 60 [10; 0; 2; 7]].

Lemma dns_exchange_witness :
  (∃ b', zlen (dns_query 7 (mk_dq (mk_dname example_labels None) DNS_TYPE_A DNS_CLASS_IN) ++ b') = DNS_MAX_PACKET ∧
     dns_build_query 7 [104; 110; 46; 120; 0] DNS_TYPE_A (replicate 512 9) DNS_MAX_PACKET =
     Ret (dns_query 7 (mk_dq (mk_dname example_labels None) DNS_TYPE_A DNS_CLASS_IN) ++ b', 22)) ∧
  dns_parse_response
    ([] ++ dns_reply 7 0x8180 [mk_dq (mk_dname example_labels None) DNS_TYPE_A DNS_CLASS_IN] example_answers 0 0 [] ++ [])
    0 59 7 = Ret (Some (ip_make 10 0 2 7)).
Proof.
  apply (dns_exchange 7 example_labels (replicate 512 9) 0x8180 example_answers 0 0 [] [] []); try (by vm_compute).
  - repeat constructor; by vm_compute.
  - repeat constructor; by vm_compute.
Defined.
