(* ===== verification/Dhcp.v ===== *)
(** The DHCP client: [kernel/net/dhcp.c]. A message is the object it lies in
    and the offset [p] of its first byte. *)

From S2P Require Import Prelude CString NetBase Netbuf NetIf Arp Ipv4 Icmp Udp.

(** ** Definitions *)

Definition DHCP_OP_REQUEST : Z := 1.
Definition DHCP_OP_REPLY : Z := 2.
Definition DHCP_HTYPE_ETHER : Z := 1.
Definition DHCP_MAGIC : Z := 0x63825363.
Definition DHCP_SERVER_PORT : Z := 67.
Definition DHCP_CLIENT_PORT : Z := 68.
Definition DHCP_OPT_PAD : Z := 0.
Definition DHCP_OPT_SUBNET_MASK : Z := 1.
Definition DHCP_OPT_ROUTER : Z := 3.
Definition DHCP_OPT_DNS : Z := 6.
Definition DHCP_OPT_REQUESTED_IP : Z := 50.
Definition DHCP_OPT_LEASE_TIME : Z := 51.
Definition DHCP_OPT_MSG_TYPE : Z := 53.
Definition DHCP_OPT_SERVER_ID : Z := 54.
Definition DHCP_OPT_PARAM_LIST : Z := 55.
Definition DHCP_OPT_END : Z := 255.
Definition DHCP_DISCOVER : Z := 1.
Definition DHCP_OFFER : Z := 2.
Definition DHCP_REQUEST : Z := 3.
Definition DHCP_ACK : Z := 5.
Definition DHCP_NAK : Z := 6.

(** Sizes of [struct dhcp_message], of its fixed part and of its options. *)
Definition DHCP_MSG_LEN : Z := 552.
Definition DHCP_FIXED : Z := 240.
Definition DHCP_OPTIONS : Z := 312.

Inductive dhcp_state := DHCP_STATE_INIT | DHCP_STATE_SELECTING | DHCP_STATE_REQUESTING | DHCP_STATE_BOUND.

Record dhcp_client := mk_dhcp {
  dh_nif : option nat; dh_state : dhcp_state; dh_xid : Z; dh_offered_ip : Z; dh_server_id : Z;
  dh_subnet_mask : Z; dh_router : Z; dh_dns : Z; dh_lease_secs : Z
}.

(** Assignments to members. *)
Definition dh_set_state (c : dhcp_client) (x : dhcp_state) : dhcp_client :=
  mk_dhcp (dh_nif c) x (dh_xid c) (dh_offered_ip c) (dh_server_id c) (dh_subnet_mask c) (dh_router c) (dh_dns
    c) (dh_lease_secs c).
Definition dh_set_offered_ip (c : dhcp_client) (x : Z) : dhcp_client :=
  mk_dhcp (dh_nif c) (dh_state c) (dh_xid c) x (dh_server_id c) (dh_subnet_mask c) (dh_router c) (dh_dns c)
    (dh_lease_secs c).
Definition dh_set_server_id (c : dhcp_client) (x : Z) : dhcp_client :=
  mk_dhcp (dh_nif c) (dh_state c) (dh_xid c) (dh_offered_ip c) x (dh_subnet_mask c) (dh_router c) (dh_dns c)
    (dh_lease_secs c).
Definition dh_set_subnet_mask (c : dhcp_client) (x : Z) : dhcp_client :=
  mk_dhcp (dh_nif c) (dh_state c) (dh_xid c) (dh_offered_ip c) (dh_server_id c) x (dh_router c) (dh_dns c)
    (dh_lease_secs c).
Definition dh_set_router (c : dhcp_client) (x : Z) : dhcp_client :=
  mk_dhcp (dh_nif c) (dh_state c) (dh_xid c) (dh_offered_ip c) (dh_server_id c) (dh_subnet_mask c) x (dh_dns
    c) (dh_lease_secs c).
Definition dh_set_dns (c : dhcp_client) (x : Z) : dhcp_client :=
  mk_dhcp (dh_nif c) (dh_state c) (dh_xid c) (dh_offered_ip c) (dh_server_id c) (dh_subnet_mask c) (dh_router
    c) x (dh_lease_secs c).
Definition dh_set_lease_secs (c : dhcp_client) (x : Z) : dhcp_client :=
  mk_dhcp (dh_nif c) (dh_state c) (dh_xid c) (dh_offered_ip c) (dh_server_id c) (dh_subnet_mask c) (dh_router
    c) (dh_dns c) x.

Definition dhcp_client_init (nif : option nat) : dhcp_client := mk_dhcp nif DHCP_STATE_INIT 0x4D594F53 0 0 0 0 0 0.

(** The options start at [o] in the message; [val] has [len] bytes. *)
Definition opt_put (b : list Z) (o off code len : Z) (val : list Z) : outcome (list Z * Z) :=
  b ← aset b (o + off) code;
  b ← aset b (o + off + 1) len;
  b ← (if 0 <? len then memcpy_from b (o + off + 2) val 0 len else Ret b);
  Ret (b, off + 2 + len).

(** The fixed part: [op] at 0, [htype] 1, [hlen] 2, [hops] 3, [xid] 4, [secs] 8, [flags] 10, [yiaddr] 16,
    [chaddr] 28, [magic] 236. *)
Definition dhcp_fixed (b : list Z) (xid : Z) (mac : list Z) : outcome (list Z) :=
  b ← aset b 0 DHCP_OP_REQUEST;
  b ← aset b 1 DHCP_HTYPE_ETHER;
  b ← aset b 2 ETH_ALEN;
  b ← aset b 3 0;
  b ← net_put_be32 b 4 xid;
  b ← put_u16 b 8 0;
  b ← net_put_be16 b 10 0x8000;
  b ← memcpy_from b 28 mac 0 ETH_ALEN;
  net_put_be32 b 236 DHCP_MAGIC.

(** [out] is the caller's message. *)
Definition dhcp_build (n : net) (c : dhcp_client) (msg_type : Z) (out : list Z) : outcome (list Z * Z) :=
  b ← memset out 0 0 DHCP_MSG_LEN;
  match dh_nif c with
  | None => Fault
  | Some i =>
      f ← get_if n i;
      b ← dhcp_fixed b (dh_xid c) (nif_mac f);
      let o := DHCP_FIXED in
      '(b, off) ← opt_put b o 0 DHCP_OPT_MSG_TYPE 1 [msg_type];
      '(b, off) ←
        (if msg_type =? DHCP_REQUEST then
           '(b, off) ← opt_put b o off DHCP_OPT_REQUESTED_IP 4 (le32 (dh_offered_ip c));
           opt_put b o off DHCP_OPT_SERVER_ID 4 (le32 (dh_server_id c))
         else Ret (b, off));
      '(b, off) ← opt_put b o off DHCP_OPT_PARAM_LIST 3 [DHCP_OPT_SUBNET_MASK; DHCP_OPT_ROUTER; DHCP_OPT_DNS];
      b ← aset b (o + off) DHCP_OPT_END;
      Ret (b, DHCP_FIXED + (off + 1))
  end.

(** One option: [v] is the offset of its value. *)
Definition dhcp_option (b : list Z) (v code olen : Z) (c : dhcp_client) (msg_type : Z) : outcome (dhcp_client * Z) :=
  if code =? DHCP_OPT_MSG_TYPE then
    if 1 <=? olen then t ← aget b v; Ret (c, t) else Ret (c, msg_type)
  else if code =? DHCP_OPT_SUBNET_MASK then
    if 4 <=? olen then x ← get_u32 b v; Ret (dh_set_subnet_mask c x, msg_type) else Ret (c, msg_type)
  else if code =? DHCP_OPT_ROUTER then
    if 4 <=? olen then x ← get_u32 b v; Ret (dh_set_router c x, msg_type) else Ret (c, msg_type)
  else if code =? DHCP_OPT_DNS then
    if 4 <=? olen then x ← get_u32 b v; Ret (dh_set_dns c x, msg_type) else Ret (c, msg_type)
  else if code =? DHCP_OPT_SERVER_ID then
    if 4 <=? olen then x ← get_u32 b v; Ret (dh_set_server_id c x, msg_type) else Ret (c, msg_type)
  else if code =? DHCP_OPT_LEASE_TIME then
    if 4 <=? olen then x ← net_get_be32 b v; Ret (dh_set_lease_secs c x, msg_type) else Ret (c, msg_type)
  else Ret (c, msg_type).

(** The options start at [o]; every turn moves [i] on. *)
Fixpoint options_loop (fuel : nat) (b : list Z) (o opt_len i : Z) (c : dhcp_client) (msg_type : Z)
    : outcome (dhcp_client * Z) :=
  if i <? opt_len then
    match fuel with
    | O => Loop
    | S fuel =>
        code ← aget b (o + i);
        let i := i + 1 in
        if code =? DHCP_OPT_END then Ret (c, msg_type)
        else if code =? DHCP_OPT_PAD then options_loop fuel b o opt_len i c msg_type
        else if opt_len <=? i then Ret (c, msg_type)
        else
          olen ← aget b (o + i);
          let i := i + 1 in
          if opt_len <? i + olen then Ret (c, msg_type)
          else
            '(c, msg_type) ← dhcp_option b (o + i) code olen c msg_type;
            options_loop fuel b o opt_len (i + olen) c msg_type
    end
  else Ret (c, msg_type).

Definition dhcp_parse (c : dhcp_client) (b : list Z) (p len : Z) : outcome (dhcp_client * Z) :=
  if len <? DHCP_FIXED + 1 then Ret (c, 0)
  else
    magic ← net_get_be32 b (p + 236);
    if negb (magic =? DHCP_MAGIC) then Ret (c, 0)
    else
      op ← aget b p;
      if negb (op =? DHCP_OP_REPLY) then Ret (c, 0)
      else
        yiaddr ← get_u32 b (p + 16);
        let c := dh_set_offered_ip c yiaddr in
        let opt_len := len - DHCP_FIXED in
        let opt_len := if DHCP_OPTIONS <? opt_len then DHCP_OPTIONS else opt_len in
        options_loop (Z.to_nat opt_len) b (p + DHCP_FIXED) opt_len 0 c 0.

Section Dhcp.
Context `{Kmem} (tx : tx_fun).

(** The message lies in the caller's frame, whose contents are not known. *)
Definition dhcp_send (n : net) (c : dhcp_client) (msg_type : Z) : outcome (net * Z) :=
  '(msg, len) ← dhcp_build n c msg_type (kmem_bytes DHCP_MSG_LEN);
  udp_output tx n IP_ADDR_ANY DHCP_CLIENT_PORT IP_ADDR_BROADCAST DHCP_SERVER_PORT (Some (msg, 0)) (u16 len).

Definition dhcp_start (n : net) (c : dhcp_client) : outcome (net * dhcp_client * Z) :=
  let c := dh_set_state c DHCP_STATE_SELECTING in
  '(n, rc) ← dhcp_send n c DHCP_DISCOVER;
  Ret (n, c, rc).

Definition dhcp_commit (n : net) (c : dhcp_client) : net :=
  match dh_nif c with
  | Some i =>
      if negb (ip_is_zero (dh_offered_ip c)) then
        let mask := if ip_is_zero (dh_subnet_mask c) then ip_make 255 255 255 0 else dh_subnet_mask c in
        netif_set_addr n i (dh_offered_ip c) mask (dh_router c)
      else n
  | None => n
  end.

Definition dhcp_input (n : net) (c : dhcp_client) (b : list Z) (p len : Z) : outcome (net * dhcp_client * Z) :=
  '(c, type) ← dhcp_parse c b p len;
  if type =? 0 then Ret (n, c, 0)
  else
    match dh_state c with
    | DHCP_STATE_SELECTING =>
        if type =? DHCP_OFFER then
          let c := dh_set_state c DHCP_STATE_REQUESTING in
          '(n, _) ← dhcp_send n c DHCP_REQUEST;
          Ret (n, c, type)
        else Ret (n, c, type)
    | DHCP_STATE_REQUESTING =>
        if type =? DHCP_ACK then
          let c := dh_set_state c DHCP_STATE_BOUND in
          Ret (dhcp_commit n c, c, type)
        else if type =? DHCP_NAK then Ret (n, dh_set_state c DHCP_STATE_INIT, type)
        else Ret (n, c, type)
    | DHCP_STATE_INIT | DHCP_STATE_BOUND => Ret (n, c, type)
    end.

End Dhcp.

(** ** Specification *)

(** An option is its code and its value. *)
Definition opt_ok (o : Z * list Z) : Prop :=
  is_u8 o.1 ∧ o.1 ≠ DHCP_OPT_PAD ∧ o.1 ≠ DHCP_OPT_END ∧ is_u8 (zlen o.2) ∧ bytes o.2.
Definition opt_bytes (o : Z * list Z) : list Z := o.1 :: zlen o.2 :: o.2.

(** What the options say: the last one with the code and enough bytes counts, [x] if there is none. *)
Definition opt_addr (code : Z) (os : list (Z * list Z)) (x : Z) : Z :=
  foldl (λ x o, match o.2 with a :: b :: c :: d :: _ => if o.1 =? code then ip_make a b c d else x | _ => x end) x os.
Definition opt_secs (os : list (Z * list Z)) (x : Z) : Z :=
  foldl (λ x o, match o.2 with
                | a :: b :: c :: d :: _ => if o.1 =? DHCP_OPT_LEASE_TIME then bytes32 d c b a else x
                | _ => x
                end) x os.
Definition opt_type (os : list (Z * list Z)) (x : Z) : Z :=
  foldl (λ x o, match o.2 with a :: _ => if o.1 =? DHCP_OPT_MSG_TYPE then a else x | [] => x end) x os.

Definition opts_client (c : dhcp_client) (os : list (Z * list Z)) : dhcp_client :=
  mk_dhcp (dh_nif c) (dh_state c) (dh_xid c) (dh_offered_ip c) (opt_addr DHCP_OPT_SERVER_ID os (dh_server_id c))
    (opt_addr DHCP_OPT_SUBNET_MASK os (dh_subnet_mask c)) (opt_addr DHCP_OPT_ROUTER os (dh_router c))
    (opt_addr DHCP_OPT_DNS os (dh_dns c)) (opt_secs os (dh_lease_secs c)).

(** A reply that offers or grants the address [a]: [f1] (hardware type, transaction id and the rest up to
    [yiaddr]) and [f2] (up to the magic number) are any bytes. *)
Record reply := mk_reply { rp_f1 : list Z; rp_addr : Z * Z * Z * Z; rp_f2 : list Z; rp_opts : list (Z * list Z); rp_pad : list Z }.
Definition rp_yiaddr (r : reply) : Z := let '(a, b, c, d) := rp_addr r in ip_make a b c d.
Definition reply_bytes (r : reply) : list Z :=
  let '(a, b, c, d) := rp_addr r in
  ((DHCP_OP_REPLY :: rp_f1 r) ++ [a; b; c; d] ++ rp_f2 r ++ be32 DHCP_MAGIC) ++
  concat (opt_bytes <$> rp_opts r) ++ DHCP_OPT_END :: rp_pad r.
Definition reply_ok (r : reply) : Prop :=
  let '(a, b, c, d) := rp_addr r in
  zlen (rp_f1 r) = 15 ∧ bytes [a; b; c; d] ∧ zlen (rp_f2 r) = 216 ∧ Forall opt_ok (rp_opts r) ∧ zlen (reply_bytes r) ≤ DHCP_MSG_LEN.

(** ** Lemmas *)

Lemma get_be32_addr pre post a b c d i :
  bytes [a; b; c; d] → i = zlen pre → net_get_be32 (pre ++ [a; b; c; d] ++ post) i = Ret (bytes32 d c b a).
Proof.
  intros Hb ->. unfold net_get_be32. rewrite (aget_mid0 pre [a; b; c; d] post a) by done. cbn [mbind outcome_bind].
  rewrite (aget_mid pre [a; b; c; d] post 1 b), (aget_mid pre [a; b; c; d] post 2 c), (aget_mid pre [a; b; c; d] post 3 d) by done.
  cbn [mbind outcome_bind]. do 4 apply Forall_cons in Hb as [? Hb]. by rewrite be32_join by done.
Qed.

(** One option updates the client as its entry says. *)
Lemma dhcp_option_spec pre post c t o :
  opt_ok o →
  dhcp_option (pre ++ o.2 ++ post) (zlen pre) o.1 (zlen o.2) c t = Ret (opts_client c [o], opt_type [o] t).
Proof.
  destruct o as [code v]. intros (_ & _ & _ & _ & Hv). cbn [fst snd] in *. destruct c.
  assert (∀ a l, v = a :: l → aget (pre ++ v ++ post) (zlen pre) = Ret a) as E1 by (intros a l ->; by apply aget_at).
  assert (∀ a b c d l, v = a :: b :: c :: d :: l →
    get_u32 (pre ++ v ++ post) (zlen pre) = Ret (ip_make a b c d) ∧
    net_get_be32 (pre ++ v ++ post) (zlen pre) = Ret (bytes32 d c b a)) as E4.
  { intros a b c d l ->. do 4 apply Forall_cons in Hv as [? Hv].
    split; [apply (get_u32_addr pre (l ++ post))|apply (get_be32_addr pre (l ++ post))]; (done || by bytes_of). }
  assert ((1 <=? zlen v) = match v with [] => false | _ => true end) as L1.
  { destruct v; [done|]. apply Z.leb_le. rewrite zlen_cons. pose proof (zlen_nonneg v). lia. }
  assert ((4 <=? zlen v) = match v with _ :: _ :: _ :: _ :: _ => true | _ => false end) as L4.
  { destruct v as [|? [|? [|? [|? v]]]]; [done..|]. apply Z.leb_le. rewrite !zlen_cons. pose proof (zlen_nonneg v). lia. }
  unfold dhcp_option, opts_client, opt_addr, opt_secs, opt_type. cbn [foldl fst snd]. rewrite L1, L4. clear L1 L4 Hv.
  destruct v as [|a [|b [|c [|d v]]]]; [|rewrite ?(E1 _ _ eq_refl)..];
    [..|destruct (E4 _ _ _ _ _ eq_refl) as [-> ->]]; clear E1 E4;
    repeat match goal with |- context [code =? ?x] => destruct (Z.eqb_spec code x) as [->|]; [reflexivity|] end; reflexivity.
Qed.

Lemma options_loop_spec o opt_len post os : ∀ fuel pre c t i,
  Forall opt_ok os → o + i = zlen pre → 0 ≤ i → i + zlen (concat (opt_bytes <$> os)) < opt_len → (length os < fuel)%nat →
  options_loop fuel (pre ++ concat (opt_bytes <$> os) ++ DHCP_OPT_END :: post) o opt_len i c t =
  Ret (opts_client c os, opt_type os t).
Proof.
  induction os as [|[code v] os IH]; intros fuel pre c t i Hos Hp Hi Hl Hf; (destruct fuel as [|fuel]; [cbn in Hf; lia|]);
    cbn [options_loop fmap list_fmap concat app] in *.
  - change (zlen (@nil Z)) with 0 in Hl. rewrite (proj2 (Z.ltb_lt _ _)) by lia. rewrite (aget_at pre post _ (o + i)) by done. cbn [mbind outcome_bind].
    change (DHCP_OPT_END =? DHCP_OPT_END) with true. cbv iota. by destruct c.
  - apply Forall_cons in Hos as [Ho Hos]. pose proof Ho as (_ & Hpad & Hend & Hz & _). cbn [fst snd] in *.
    change (opt_bytes (code, v)) with (code :: zlen v :: v) in *.
    rewrite zlen_app, !zlen_cons in Hl. pose proof (zlen_nonneg v). pose proof (zlen_nonneg (concat (opt_bytes <$> os))).
    rewrite (proj2 (Z.ltb_lt _ _)) by lia. cbn [app]. rewrite <-(assoc_L (++)). set (R := _ ++ DHCP_OPT_END :: post).
    rewrite (aget_at pre _ code (o + i)) by done. cbn [mbind outcome_bind].
    rewrite (proj2 (Z.eqb_neq _ _) Hend), (proj2 (Z.eqb_neq _ _) Hpad), (proj2 (Z.leb_gt _ _)) by lia.
    change (pre ++ code :: zlen v :: v ++ R) with (pre ++ [code] ++ zlen v :: v ++ R). rewrite (assoc_L (++)).
    rewrite aget_at by (rewrite zlen_app; change (zlen [code]) with 1; lia). cbn [mbind outcome_bind].
    rewrite (proj2 (Z.ltb_ge _ _)) by lia.
    change ((pre ++ [code]) ++ zlen v :: v ++ R) with ((pre ++ [code]) ++ [zlen v] ++ v ++ R).
    rewrite (assoc_L (++) (pre ++ [code])).
    assert (zlen ((pre ++ [code]) ++ [zlen v]) = o + (i + 1 + 1)) as Hz2
      by (rewrite !zlen_app; change (zlen [code]) with 1; change (zlen [zlen v]) with 1; lia).
    rewrite <-Hz2. rewrite (dhcp_option_spec _ R c t (code, v) Ho). cbn [mbind outcome_bind]. rewrite (assoc_L (++) _ v R).
    unfold R. rewrite (IH fuel); [done|done|rewrite zlen_app, Hz2; lia|lia|lia|cbn in Hf; lia].
Qed.

Lemma opts_length os : Z.of_nat (length os) ≤ zlen (concat (opt_bytes <$> os)).
Proof.
  induction os as [|[code v] os IH]; [by vm_compute|]. cbn [fmap list_fmap concat length]. rewrite zlen_app.
  change (opt_bytes (code, v)) with (code :: zlen v :: v). rewrite !zlen_cons. pose proof (zlen_nonneg v). lia.
Qed.

(** A reply sets the address offered and what its options say. *)
Lemma dhcp_parse_spec r c pre post :
  reply_ok r →
  dhcp_parse c (pre ++ reply_bytes r ++ post) (zlen pre) (zlen (reply_bytes r)) =
  Ret (opts_client (dh_set_offered_ip c (rp_yiaddr r)) (rp_opts r), opt_type (rp_opts r) 0).
Proof.
  unfold reply_ok, reply_bytes, rp_yiaddr. destruct (rp_addr r) as [[[a b] c0] d]. intros (H1 & Hb & H2 & Hos & Hl).
  set (os := rp_opts r) in *. set (f1 := rp_f1 r) in *. set (f2 := rp_f2 r) in *. set (O := concat (opt_bytes <$> os)) in *.
  set (op := DHCP_OP_REPLY :: f1) in *. set (M := be32 DHCP_MAGIC) in *.
  assert (zlen op = 16) as Hop by (unfold op; rewrite zlen_cons; lia). assert (zlen M = 4) as HM by done.
  assert (zlen (op ++ [a; b; c0; d] ++ f2 ++ M) = DHCP_FIXED) as HF.
  { rewrite !zlen_app, Hop, H2, HM. done. }
  assert (zlen ((op ++ [a; b; c0; d] ++ f2 ++ M) ++ O ++ DHCP_OPT_END :: rp_pad r) = 240 + (zlen O + (1 + zlen (rp_pad r)))) as HZ.
  { by rewrite zlen_app, HF, zlen_app, zlen_cons. }
  rewrite HZ in Hl |- *. unfold DHCP_FIXED, DHCP_MSG_LEN in *.
  pose proof (zlen_nonneg O). pose proof (zlen_nonneg (rp_pad r)). pose proof (opts_length os : Z.of_nat (length os) ≤ zlen O).
  unfold dhcp_parse, DHCP_FIXED, DHCP_OPTIONS. rewrite (proj2 (Z.ltb_ge _ _)) by lia.
  set (T := O ++ _).
  assert (net_get_be32 (pre ++ ((op ++ [a; b; c0; d] ++ f2 ++ M) ++ T) ++ post) (zlen pre + 236) = Ret DHCP_MAGIC) as E1.
  { replace (pre ++ _ ++ post) with ((pre ++ op ++ [a; b; c0; d] ++ f2) ++ M ++ T ++ post) by (by rewrite <-!(assoc_L (++))).
    apply (get_be32_addr _ _ 99 130 83 99); [by bytes_of|]. rewrite !zlen_app, Hop, H2. done. }
  assert (aget (pre ++ ((op ++ [a; b; c0; d] ++ f2 ++ M) ++ T) ++ post) (zlen pre) = Ret DHCP_OP_REPLY) as E2.
  { rewrite <-!(assoc_L (++)). unfold op. cbn [app]. by apply aget_at. }
  assert (get_u32 (pre ++ ((op ++ [a; b; c0; d] ++ f2 ++ M) ++ T) ++ post) (zlen pre + 16) = Ret (ip_make a b c0 d)) as E3.
  { rewrite <-!(assoc_L (++)), (assoc_L (++) pre op). apply get_u32_addr; [done|]. rewrite zlen_app, Hop. done. }
  rewrite E1. cbn [mbind outcome_bind]. rewrite E2. cbn [mbind outcome_bind]. rewrite E3. cbn [mbind outcome_bind].
  change (negb (DHCP_MAGIC =? DHCP_MAGIC)) with false. change (negb (DHCP_OP_REPLY =? DHCP_OP_REPLY)) with false. cbv iota.
  rewrite (proj2 (Z.ltb_ge 312 _)) by lia. rewrite (Z.add_simpl_l 240). unfold T. rewrite <-(assoc_L (++) _ _ post), <-(assoc_L (++) O).
  rewrite (assoc_L (++) pre).
  apply (options_loop_spec _ _ (rp_pad r ++ post)); [done|rewrite zlen_app, HF; unfold DHCP_FIXED; lia|done|change (0 + zlen O < zlen O + (1 + zlen (rp_pad r))); lia|lia].
Qed.

Lemma commit_addr n i c f mask :
  n_ifs n !! i = Some f → dh_nif c = Some i → dh_offered_ip c ≠ 0 →
  mask = (if ip_is_zero (dh_subnet_mask c) then ip_make 255 255 255 0 else dh_subnet_mask c) →
  get_if (dhcp_commit n c) i = Ret (with_addr (dh_offered_ip c) mask (dh_router c) f).
Proof.
  intros Hf Hi Ha ->. unfold dhcp_commit, get_if, netif_set_addr, upd_if. rewrite Hi. unfold ip_is_zero at 1.
  rewrite (proj2 (Z.eqb_neq _ _) Ha). cbn [negb n_ifs set_ifs]. by rewrite list_lookup_alter_eq, Hf.
Qed.

(** ** Theorems *)

(** A lease: a client that has sent its DISCOVER and gets an OFFER records the address offered and the
    server that offers it and sends a REQUEST; when an ACK follows it is BOUND for the time the ACK gives, and its
    interface has the address granted, the mask announced (a /24 if none was) and the router announced. The
    replies may carry any options in any order, the last one of a kind counting. Their transaction id is part of the
    arbitrary bytes [rp_f1]: the client does not look at it. *)
Theorem dhcp_lease `{Kmem} (tx : tx_fun) n c i offer ack n1 rc f pre1 post1 pre2 post2 :
  dh_state c = DHCP_STATE_SELECTING → dh_nif c = Some i →
  reply_ok offer → opt_type (rp_opts offer) 0 = DHCP_OFFER →
  reply_ok ack → opt_type (rp_opts ack) 0 = DHCP_ACK → rp_yiaddr ack ≠ 0 →
  let c1 := dh_set_state (opts_client (dh_set_offered_ip c (rp_yiaddr offer)) (rp_opts offer)) DHCP_STATE_REQUESTING in
  dhcp_send tx n c1 DHCP_REQUEST = Ret (n1, rc) → n_ifs n1 !! i = Some f →
  let mask := opt_addr DHCP_OPT_SUBNET_MASK (rp_opts ack) (dh_subnet_mask c1) in
  let router := opt_addr DHCP_OPT_ROUTER (rp_opts ack) (dh_router c1) in
  dhcp_input tx n c (pre1 ++ reply_bytes offer ++ post1) (zlen pre1) (zlen (reply_bytes offer)) = Ret (n1, c1, DHCP_OFFER) ∧
  dh_offered_ip c1 = rp_yiaddr offer ∧
  dh_server_id c1 = opt_addr DHCP_OPT_SERVER_ID (rp_opts offer) (dh_server_id c) ∧
  ∃ n2 c2,
    dhcp_input tx n1 c1 (pre2 ++ reply_bytes ack ++ post2) (zlen pre2) (zlen (reply_bytes ack)) = Ret (n2, c2, DHCP_ACK) ∧
    dh_state c2 = DHCP_STATE_BOUND ∧ dh_lease_secs c2 = opt_secs (rp_opts ack) (dh_lease_secs c1) ∧
    get_if n2 i = Ret (with_addr (rp_yiaddr ack) (if mask =? 0 then ip_make 255 255 255 0 else mask) router f).
Proof.
  intros Hs Hi Ho Hot Ha Hat Hy c1 Hsend Hf mask router. split; [|split; [done|split; [done|]]].
  - unfold dhcp_input. rewrite dhcp_parse_spec by done. cbn [mbind outcome_bind]. rewrite Hot. change (DHCP_OFFER =? 0) with false.
    cbn [opts_client dh_state dh_set_offered_ip]. rewrite Hs. change (DHCP_OFFER =? DHCP_OFFER) with true. cbv iota zeta.
    fold (opts_client (dh_set_offered_ip c (rp_yiaddr offer)) (rp_opts offer)).
    change (dhcp_send tx n _ DHCP_REQUEST) with (dhcp_send tx n c1 DHCP_REQUEST). by rewrite Hsend.
  - eexists _, _. unfold dhcp_input. rewrite dhcp_parse_spec by done. cbn [mbind outcome_bind]. rewrite Hat.
    split; [reflexivity|]. split; [done|]. split; [done|].
    by apply (commit_addr n1 i (dh_set_state (opts_client (dh_set_offered_ip c1 (rp_yiaddr ack)) (rp_opts ack)) DHCP_STATE_BOUND) f).
Qed.

(** A client on one interface that is up and whose driver takes every frame; the replies carry a transaction id of zeros. *)
Definition lease_kmem : Kmem := λ n, replicate (Z.to_nat n) 0xAA.
Definition lease_tx : tx_fun := λ n i nb, Ret (free_nb n nb, 0).
Definition lease_if : netif :=
  mk_nif [101; 116; 104; 48; 0; 0; 0; 0] [82; 84; 0; 18; 52; 86] 0 0 0 1500 1 (Some e1000_netif_tx_fn) None zero_stats true.
Definition lease_net : net := set_reg (set_ifs empty_net [lease_if]) [0%nat].
Definition lease_client : dhcp_client := dh_set_state (dhcp_client_init (Some 0%nat)) DHCP_STATE_SELECTING.
Definition lease_reply (type : Z) : reply :=
  mk_reply (replicate 15 0) (10, 0, 2, 15) (replicate 216 0)
    [(DHCP_OPT_MSG_TYPE, [type]); (DHCP_OPT_SERVER_ID, [10; 0; 2; 2]); (DHCP_OPT_ROUTER, [10; 0; 2; 2]);
     (DHCP_OPT_LEASE_TIME, [0; 1; 81; 128])] [].
Definition lease_requesting : dhcp_client :=
  dh_set_state (opts_client (dh_set_offered_ip lease_client (ip_make 10 0 2 15)) (rp_opts (lease_reply DHCP_OFFER)))
    DHCP_STATE_REQUESTING.
Definition lease_sent : net * Z :=
  match @dhcp_send lease_kmem lease_tx lease_net lease_requesting DHCP_REQUEST with
  | Ret x => x
  | _ => (lease_net, -1)
  end.

Lemma lease_reply_ok t : is_u8 t → reply_ok (lease_reply t).
Proof.
  intros Ht. split; [done|]. split; [by bytes_of|]. split; [done|]. split; [|by vm_compute].
  repeat apply Forall_cons_2; try apply Forall_nil_2;
    (split; [by vm_compute|]; split; [done|]; split; [done|]; split; [by vm_compute|]; cbn [snd]; by bytes_of).
Qed.

Lemma lease_sent_ok : @dhcp_send lease_kmem lease_tx lease_net lease_requesting DHCP_REQUEST = Ret (lease_sent.1, lease_sent.2).
Proof. by vm_compute. Qed.

Lemma lease_sent_if : n_ifs lease_sent.1 !! 0%nat = Some (with_stats (λ _, mk_stats 0 1 0 303 0 0 0 0) lease_if).
Proof. vm_compute. reflexivity. Qed.

Lemma dhcp_lease_witness :
  ∃ n2 c2,
    @dhcp_input lease_kmem lease_tx lease_net lease_client ([] ++ reply_bytes (lease_reply DHCP_OFFER) ++ [])
      (zlen (@nil Z)) (zlen (reply_bytes (lease_reply DHCP_OFFER))) = Ret (lease_sent.1, lease_requesting, DHCP_OFFER) ∧
    @dhcp_input lease_kmem lease_tx lease_sent.1 lease_requesting ([] ++ reply_bytes (lease_reply DHCP_ACK) ++ [])
      (zlen (@nil Z)) (zlen (reply_bytes (lease_reply DHCP_ACK))) = Ret (n2, c2, DHCP_ACK) ∧
    dh_state c2 = DHCP_STATE_BOUND ∧ dh_lease_secs c2 = 86400 ∧
    ∃ f, get_if n2 0 = Ret f ∧ nif_ip f = ip_make 10 0 2 15 ∧ nif_netmask f = ip_make 255 255 255 0 ∧ nif_gateway f = ip_make 10 0 2 2.
Proof.
  destruct (@dhcp_lease lease_kmem lease_tx lease_net lease_client 0 (lease_reply DHCP_OFFER) (lease_reply DHCP_ACK) lease_sent.1
    lease_sent.2 (with_stats (λ _, mk_stats 0 1 0 303 0 0 0 0) lease_if) [] [] [] [] eq_refl eq_refl
    (lease_reply_ok DHCP_OFFER ltac:(by vm_compute)) eq_refl (lease_reply_ok DHCP_ACK ltac:(by vm_compute)) eq_refl
    ltac:(by vm_compute) lease_sent_ok lease_sent_if) as (E1 & _ & _ & n2 & c2 & E2 & E3 & E4 & E5).
  exists n2, c2. refine (conj E1 (conj E2 (conj E3 (conj _ _)))).
  - rewrite E4. vm_compute. reflexivity.
  - eexists. refine (conj E5 _). vm_compute. exact (conj eq_refl (conj eq_refl eq_refl)).
Defined.
