(* ===== verification/Socket.v ===== *)
(** Sockets: [kernel/net/socket.c]. *)

From S2P Require Import Prelude CString NetBase Netbuf NetIf Arp Ipv4 Icmp Udp Tcp.

(** ** Definitions *)

Definition SOCK_DGRAM : Z := 1.
Definition SOCK_STREAM : Z := 2.
Definition SOCKET_MAX : Z := 16.
Definition SOCKET_RX_QUEUE : Z := 8.
Definition SOCKET_RX_PAYLOAD : Z := 1472.

Definition zero_dgram : sock_dgram := mk_dgram 0 0 0 (replicate 1472 0).
Definition zero_sock : socket := mk_sock false 0 0 0 0 0 false false (replicate 8 zero_dgram) 0 0 0 None.

(** Assignments to members. *)
Definition sock_open (type : Z) (tcb : option Z) (s : socket) : socket :=
  mk_sock true type (s_local_ip s) (s_local_port s) (s_remote_ip s) (s_remote_port s) (s_bound s) (s_connected
    s) (s_rxq s) (s_rx_head s) (s_rx_tail s) (s_rx_count s) tcb.
Definition sock_release (tcb : option Z) (s : socket) : socket :=
  mk_sock false (s_type s) (s_local_ip s) (s_local_port s) (s_remote_ip s) (s_remote_port s) (s_bound s)
    (s_connected s) (s_rxq s) (s_rx_head s) (s_rx_tail s) (s_rx_count s) tcb.
Definition sock_local (ip port : Z) (s : socket) : socket :=
  mk_sock (s_in_use s) (s_type s) ip port (s_remote_ip s) (s_remote_port s) true (s_connected s) (s_rxq s)
    (s_rx_head s) (s_rx_tail s) (s_rx_count s) (s_tcb s).
Definition sock_peer (ip port : Z) (s : socket) : socket :=
  mk_sock (s_in_use s) (s_type s) (s_local_ip s) (s_local_port s) ip port (s_bound s) true (s_rxq s)
    (s_rx_head s) (s_rx_tail s) (s_rx_count s) (s_tcb s).
Definition sock_enqueue (q : list sock_dgram) (tail count : Z) (s : socket) : socket :=
  mk_sock (s_in_use s) (s_type s) (s_local_ip s) (s_local_port s) (s_remote_ip s) (s_remote_port s) (s_bound
    s) (s_connected s) q (s_rx_head s) tail count (s_tcb s).
Definition sock_dequeue (head count : Z) (s : socket) : socket :=
  mk_sock (s_in_use s) (s_type s) (s_local_ip s) (s_local_port s) (s_remote_ip s) (s_remote_port s) (s_bound
    s) (s_connected s) (s_rxq s) head (s_rx_tail s) count (s_tcb s).

Definition get_sock (n : net) (sd : Z) : outcome socket := aget (n_socks n) sd.
Definition put_sock (n : net) (sd : Z) (s : socket) : outcome net :=
  ss ← aset (n_socks n) sd s; Ret (set_socks n ss).

Definition net_socket_init (n : net) : net := set_socks n (replicate 16 zero_sock).

Definition sock_get (n : net) (sd : Z) : outcome (option socket) :=
  if (sd <? 0) || (SOCKET_MAX <=? u32 sd) then Ret None
  else s ← get_sock n sd; Ret (if s_in_use s then Some s else None).

Definition sock_unused_body (ss : list socket) (i : Z) (_ : unit) : outcome (unit + Z) :=
  s ← aget ss i; Ret (if negb (s_in_use s) then inr i else inl tt).

Definition sock_create (n : net) (type : Z) : outcome (net * Z) :=
  if negb (type =? SOCK_DGRAM) && negb (type =? SOCK_STREAM) then Ret (n, -1)
  else
    r ← find_range 0 SOCKET_MAX (sock_unused_body (n_socks n)) tt;
    match r with
    | inl _ => Ret (n, -1)
    | inr i =>
        n ← put_sock n i (sock_open type None zero_sock);
        if type =? SOCK_STREAM then
          '(n, tcb) ← tcp_tcb_alloc n;
          match tcb with
          | None => n ← put_sock n i (sock_release None (sock_open type None zero_sock)); Ret (n, -1)
          | Some j => n ← put_sock n i (sock_open type (Some j) zero_sock); Ret (n, i)
          end
        else Ret (n, i)
    end.

(** [ctx] is the socket; the payload is at [data] in [b]. *)
Definition sock_udp_recv (n : net) (ctx : nat) (src src_port : Z) (b : list Z) (data len : Z) : outcome net :=
  let sd := Z.of_nat ctx in
  s ← get_sock n sd;
  if negb (s_in_use s) || negb (s_type s =? SOCK_DGRAM) then Ret n
  else if SOCKET_RX_QUEUE <=? s_rx_count s then Ret n
  else
    d ← aget (s_rxq s) (s_rx_tail s);
    let k := if SOCKET_RX_PAYLOAD <? len then SOCKET_RX_PAYLOAD else len in
    bytes ← (if 0 <? k then memcpy_from (dg_data d) 0 b data k else Ret (dg_data d));
    q ← aset (s_rxq s) (s_rx_tail s) (mk_dgram src src_port k bytes);
    put_sock n sd (sock_enqueue q ((s_rx_tail s + 1) mod SOCKET_RX_QUEUE) (u32 (s_rx_count s + 1)) s).

Definition sock_bind_dgram (n : net) (sd ip port : Z) : outcome (net * option Z) :=
  '(n, port) ← (if port =? 0 then udp_ephemeral_port n else Ret (n, port));
  if port =? 0 then Ret (n, None)
  else
    '(n, rc) ← udp_bind n ip port (Some sock_udp_recv_fn) (Z.to_nat sd);
    Ret (n, if negb (rc =? 0) then None else Some port).

Definition sock_bind_stream (n : net) (s : socket) (ip port : Z) : outcome (net * option Z) :=
  '(n, port) ← (if port =? 0 then udp_ephemeral_port n else Ret (n, port));
  match s_tcb s with
  | Some j => '(n, _) ← tcp_listen n (Some j) ip port; Ret (n, Some port)
  | None => Ret (n, Some port)
  end.

Definition sock_bind (n : net) (sd ip port : Z) : outcome (net * Z) :=
  r ← sock_get n sd;
  match r with
  | None => Ret (n, -1)
  | Some s =>
      if s_bound s then Ret (n, -1)
      else
        '(n, port) ← (if s_type s =? SOCK_DGRAM then sock_bind_dgram n sd ip port else sock_bind_stream n s ip port);
        match port with
        | None => Ret (n, -1)
        | Some port =>
            s ← get_sock n sd;
            n ← put_sock n sd (sock_local ip port s);
            Ret (n, 0)
        end
  end.

(** [if (!s->bound) sock_bind(sd, IP_ADDR_ANY, 0)]. *)
Definition sock_autobind (n : net) (sd : Z) (s : socket) : outcome (net * Z) :=
  if negb (s_bound s) then sock_bind n sd IP_ADDR_ANY 0 else Ret (n, 0).

Section Socket.
Context `{Kmem} (tx : tx_fun).

Definition sock_connect (n : net) (sd ip port : Z) : outcome (net * Z) :=
  r ← sock_get n sd;
  match r with
  | None => Ret (n, -1)
  | Some s =>
      if s_type s =? SOCK_DGRAM then
        '(n, rc) ← sock_autobind n sd s;
        if negb (rc =? 0) then Ret (n, -1)
        else
          s ← get_sock n sd;
          n ← put_sock n sd (sock_peer ip port s);
          Ret (n, 0)
      else
        match s_tcb s with
        | None => Ret (n, -1)
        | Some j =>
            '(n, s) ←
              (if negb (s_bound s) then
                 '(n, lport) ← udp_ephemeral_port n; Ret (n, sock_local IP_ADDR_ANY lport s)
               else Ret (n, s));
            let s := sock_peer ip port s in
            n ← put_sock n sd s;
            tcp_connect tx n (Some j) (s_local_ip s) (s_local_port s) ip port
        end
  end.

Definition sock_sendto (n : net) (sd : Z) (buf : list Z * Z) (len dst dport : Z) : outcome (net * Z) :=
  r ← sock_get n sd;
  match r with
  | None => Ret (n, -1)
  | Some s =>
      if negb (s_type s =? SOCK_DGRAM) then Ret (n, -1)
      else
        '(n, rc) ← sock_autobind n sd s;
        if negb (rc =? 0) then Ret (n, -1)
        else
          s ← get_sock n sd;
          let '(dst, dport) :=
            if ip_is_zero dst && (dport =? 0) && s_connected s then (s_remote_ip s, s_remote_port s) else (dst, dport) in
          '(n, rc) ← udp_output tx n (s_local_ip s) (s_local_port s) dst dport (Some buf) len;
          Ret (n, if rc <? 0 then -1 else len)
  end.

(** The count, the caller's buffer and the source, or [None] for -1. *)
Definition sock_recvfrom (n : net) (sd : Z) (buf : list Z) (cap : Z) : outcome (net * list Z * option (Z * Z * Z)) :=
  r ← sock_get n sd;
  match r with
  | None => Ret (n, buf, None)
  | Some s =>
      if negb (s_type s =? SOCK_DGRAM) then Ret (n, buf, None)
      else if s_rx_count s =? 0 then Ret (n, buf, None)
      else
        d ← aget (s_rxq s) (s_rx_head s);
        let k := if cap <? dg_len d then cap else dg_len d in
        buf ← (if 0 <? k then memcpy_from buf 0 (dg_data d) 0 k else Ret buf);
        n ← put_sock n sd (sock_dequeue ((s_rx_head s + 1) mod SOCKET_RX_QUEUE) (u32 (s_rx_count s - 1)) s);
        Ret (n, buf, Some (k, dg_src d, dg_src_port d))
  end.

Definition sock_close (n : net) (sd : Z) : outcome (net * Z) :=
  r ← sock_get n sd;
  match r with
  | None => Ret (n, -1)
  | Some s =>
      n ← (if (s_type s =? SOCK_DGRAM) && s_bound s then udp_unbind n (s_local_ip s) (s_local_port s) else Ret n);
      n ← (match s_tcb s with
           | Some j =>
               if s_type s =? SOCK_STREAM then
                 '(n, _) ← tcp_close tx n (Some j);
                 tcp_tcb_free n (Some j)
               else Ret n
           | None => Ret n
           end);
      s ← get_sock n sd;
      n ← put_sock n sd (sock_release (if s_type s =? SOCK_STREAM then None else s_tcb s) s);
      Ret (n, 0)
  end.

End Socket.

(** ** Specification *)

(** A datagram as the reader sees it: the source and the bytes. *)
Definition dg_view (d : sock_dgram) : Z * Z * list Z := (dg_src d, dg_src_port d, take (Z.to_nat (dg_len d)) (dg_data d)).

(** The ring as a queue, the oldest first. *)
Definition sock_queue (s : socket) : list (Z * Z * list Z) :=
  map (λ k, dg_view (default zero_dgram (s_rxq s !! Z.to_nat ((s_rx_head s + Z.of_nat k) mod SOCKET_RX_QUEUE))))
    (seq 0 (Z.to_nat (s_rx_count s))).

Definition dgram_ok (d : sock_dgram) : Prop := zlen (dg_data d) = SOCKET_RX_PAYLOAD ∧ 0 ≤ dg_len d ≤ SOCKET_RX_PAYLOAD.

Record sock_ok (s : socket) : Prop := {
  so_ring : zlen (s_rxq s) = SOCKET_RX_QUEUE;
  so_head : 0 ≤ s_rx_head s < SOCKET_RX_QUEUE;
  so_count : 0 ≤ s_rx_count s ≤ SOCKET_RX_QUEUE;
  so_tail : s_rx_tail s = (s_rx_head s + s_rx_count s) mod SOCKET_RX_QUEUE;
  so_data : Forall dgram_ok (s_rxq s)
}.

(** ** Lemmas *)

Lemma zero_sock_ok : sock_ok zero_sock.
Proof. split; try done. apply Forall_replicate. by vm_compute. Qed.

Lemma zslice_app_l {A} (l k : list A) off n : 0 ≤ off → off + n ≤ zlen l → zslice (l ++ k) off n = zslice l off n.
Proof.
  intros Ho Hn. apply list_eq_Z. intros i Hi. rewrite !lookup_zslice by done. dec_if; [|done].
  apply lookup_app_l. unfold zlen in *. lia.
Qed.

(** Copying [k] bytes to the start of a datagram's data. *)
Lemma dgram_copy data b off k :
  zlen data = SOCKET_RX_PAYLOAD → 0 ≤ k ≤ SOCKET_RX_PAYLOAD → 0 ≤ off → off + k ≤ zlen b →
  ∃ data', (if 0 <? k then memcpy_from data 0 b off k else Ret data) = Ret data' ∧
    zlen data' = SOCKET_RX_PAYLOAD ∧ take (Z.to_nat k) data' = zslice b off k.
Proof.
  intros Hd Hk Ho Hb. destruct (Z.ltb_spec 0 k).
  - rewrite memcpy_from_spec by lia. eexists. split; [done|].
    assert (zlen (zslice b off k) = k) as Hz by (apply zlen_zslice; lia).
    split; [rewrite zlen_zsplice; lia|]. unfold zsplice. change (Z.to_nat 0) with O. rewrite take_0. cbn [app].
    by rewrite take_app_length' by (unfold zlen in Hz; lia).
  - exists data. split; [done|]. split; [done|]. replace k with 0 by lia. done.
Qed.

Lemma enqueue_spec s d :
  sock_ok s → s_rx_count s < SOCKET_RX_QUEUE → dgram_ok d →
  let s' := sock_enqueue (<[Z.to_nat (s_rx_tail s) := d]> (s_rxq s)) ((s_rx_tail s + 1) mod SOCKET_RX_QUEUE)
              (u32 (s_rx_count s + 1)) s in
  sock_ok s' ∧ sock_queue s' = sock_queue s ++ [dg_view d].
Proof.
  intros [Hr Hh Hc Ht Hd] Hlt Hok s'. unfold SOCKET_RX_QUEUE in *.
  assert (s_rx_count s' = s_rx_count s + 1) as Ec by (cbn; rewrite u32_small; lia).
  assert (0 ≤ s_rx_tail s < 8) as Htr by (rewrite Ht; apply Z.mod_pos_bound; lia).
  split.
  - split; rewrite ?Ec; cbn [s' sock_enqueue s_rxq s_rx_head s_rx_tail]; unfold SOCKET_RX_QUEUE; try lia.
    + by rewrite zlen_insert.
    + rewrite Ht, Z.add_mod_idemp_l by lia. f_equal. lia.
    + by apply Forall_insert.
  - unfold sock_queue. rewrite Ec. replace (Z.to_nat (s_rx_count s + 1)) with (S (Z.to_nat (s_rx_count s))) by lia.
    rewrite seq_S, map_app. cbn [s' sock_enqueue s_rxq s_rx_head map]. f_equal.
    + apply map_ext_in. intros k Hk%in_seq. f_equal. f_equal. unfold SOCKET_RX_QUEUE. apply list_lookup_insert_ne.
      rewrite Ht. intros E. assert (0 ≤ (s_rx_head s + Z.of_nat k) mod 8 < 8) by (apply Z.mod_pos_bound; lia).
      rewrite Z2Nat.inj_iff in E by (lia || apply Z.mod_pos_bound; lia). clear -E Hk Hlt Hh Hc. zlia.
    + f_equal. f_equal. unfold SOCKET_RX_QUEUE. rewrite Nat.add_0_l, Z2Nat.id, <-Ht by lia.
      rewrite list_lookup_insert_eq by (unfold zlen in Hr; lia). done.
Qed.

Lemma dequeue_spec s :
  sock_ok s → 0 < s_rx_count s →
  ∃ d, s_rxq s !! Z.to_nat (s_rx_head s) = Some d ∧ dgram_ok d ∧
    let s' := sock_dequeue ((s_rx_head s + 1) mod SOCKET_RX_QUEUE) (u32 (s_rx_count s - 1)) s in
    sock_ok s' ∧ sock_queue s = dg_view d :: sock_queue s'.
Proof.
  intros [Hr Hh Hc Ht Hd] Hlt. unfold SOCKET_RX_QUEUE in *. destruct (lookup_in (s_rxq s) (s_rx_head s)) as [d Hdd]; [lia|].
  exists d. split; [done|]. split; [by apply (Forall_lookup_1 _ _ _ _ Hd Hdd)|]. set (s' := sock_dequeue _ _ s).
  assert (s_rx_count s' = s_rx_count s - 1) as Ec by (cbn; rewrite u32_small; lia).
  split.
  - split; rewrite ?Ec; cbn [s' sock_dequeue s_rxq s_rx_head s_rx_tail]; unfold SOCKET_RX_QUEUE; try done; try lia.
    + apply Z.mod_pos_bound. lia.
    + rewrite Ht, Z.add_mod_idemp_l by lia. f_equal. lia.
  - unfold sock_queue. rewrite Ec. replace (Z.to_nat (s_rx_count s)) with (S (Z.to_nat (s_rx_count s - 1))) by lia.
    cbn [seq map]. f_equal.
    + change (Z.of_nat 0) with 0. rewrite Z.add_0_r, Z.mod_small by (unfold SOCKET_RX_QUEUE; lia). by rewrite Hdd.
    + rewrite <-seq_shift, map_map. apply map_ext_in. intros k _. cbn [s' sock_dequeue s_rxq s_rx_head].
      do 3 f_equal. unfold SOCKET_RX_QUEUE. rewrite Z.add_mod_idemp_l by lia. do 2 f_equal. lia.
Qed.

Lemma get_sock_Some n (sd : nat) s : n_socks n !! sd = Some s → get_sock n (Z.of_nat sd) = Ret s.
Proof. intros Hs. apply aget_Some; [lia|]. by rewrite Nat2Z.id. Qed.

Lemma put_sock_in n (sd : nat) s s' :
  n_socks n !! sd = Some s → put_sock n (Z.of_nat sd) s' = Ret (set_socks n (<[sd := s']> (n_socks n))).
Proof.
  intros Hs. apply lookup_lt_Some in Hs. unfold put_sock. rewrite aset_in by (unfold zlen; lia). by rewrite Nat2Z.id.
Qed.

Lemma sock_udp_recv_spec n sd s src sport b data len :
  n_socks n !! sd = Some s → sock_ok s → s_in_use s = true → s_type s = SOCK_DGRAM →
  0 ≤ data → 0 ≤ len → data + len ≤ zlen b →
  if s_rx_count s <? SOCKET_RX_QUEUE then
    ∃ q t c, sock_udp_recv n sd src sport b data len = Ret (set_socks n (<[sd := sock_enqueue q t c s]> (n_socks n))) ∧
      sock_ok (sock_enqueue q t c s) ∧
      sock_queue (sock_enqueue q t c s) = sock_queue s ++ [(src, sport, take (Z.to_nat SOCKET_RX_PAYLOAD) (zslice b data len))]
  else sock_udp_recv n sd src sport b data len = Ret n.
Proof.
  intros Hs Hok Hu Ht Hd Hl Hb. unfold sock_udp_recv. rewrite (get_sock_Some _ _ _ Hs). cbn [mbind outcome_bind].
  rewrite Hu, Ht. change (SOCK_DGRAM =? SOCK_DGRAM) with true. cbn [negb orb].
  destruct (Z.ltb_spec (s_rx_count s) SOCKET_RX_QUEUE) as [Hc|Hc]; [|by rewrite (proj2 (Z.leb_le _ _)) by lia].
  rewrite (proj2 (Z.leb_gt _ _)) by lia.
  assert (0 ≤ s_rx_tail s < zlen (s_rxq s)) as Htr.
  { rewrite (so_ring _ Hok), (so_tail _ Hok). by apply Z.mod_pos_bound. }
  destruct (aget_in _ _ Htr) as (d & Hdd & ->). cbn [mbind outcome_bind].
  pose proof (Forall_lookup_1 _ _ _ _ (so_data _ Hok) Hdd) as [Hdl _].
  set (k := if SOCKET_RX_PAYLOAD <? len then SOCKET_RX_PAYLOAD else len).
  assert (0 ≤ k ≤ SOCKET_RX_PAYLOAD ∧ k ≤ len) as [Hk Hkl].
  { unfold k. destruct (Z.ltb_spec SOCKET_RX_PAYLOAD len); unfold SOCKET_RX_PAYLOAD in *; lia. }
  destruct (dgram_copy (dg_data d) b data k Hdl Hk Hd ltac:(lia)) as (data' & E & Hdl' & Htk). rewrite E. cbn [mbind outcome_bind].
  rewrite aset_in by done. cbn [mbind outcome_bind]. rewrite (put_sock_in _ _ _ _ Hs).
  destruct (enqueue_spec s (mk_dgram src sport k data') Hok Hc ltac:(done)) as [Hok' Hq].
  eexists _, _, _. split; [done|]. split; [exact Hok'|]. rewrite Hq. unfold dg_view. cbn [dg_src dg_src_port dg_len dg_data].
  rewrite Htk. do 3 f_equal. unfold zslice. rewrite take_take. f_equal. unfold k.
  destruct (Z.ltb_spec SOCKET_RX_PAYLOAD len); unfold SOCKET_RX_PAYLOAD in *; lia.
Qed.

Lemma sock_get_Some n (sd : nat) s :
  n_socks n !! sd = Some s → Z.of_nat sd < SOCKET_MAX → s_in_use s = true → sock_get n (Z.of_nat sd) = Ret (Some s).
Proof.
  intros Hs Hm Hu. unfold sock_get. rewrite u32_small by (unfold SOCKET_MAX in *; lia).
  rewrite (proj2 (Z.ltb_ge _ _)), (proj2 (Z.leb_gt _ _)) by lia. cbn [orb]. rewrite (get_sock_Some _ _ _ Hs). cbn [mbind outcome_bind].
  by rewrite Hu.
Qed.

Lemma sock_recvfrom_spec n (sd : nat) s buf cap src sport bs rest :
  n_socks n !! sd = Some s → Z.of_nat sd < SOCKET_MAX → sock_ok s → s_in_use s = true → s_type s = SOCK_DGRAM →
  0 ≤ cap ≤ zlen buf → sock_queue s = (src, sport, bs) :: rest →
  ∃ h c buf', let k := Z.min cap (zlen bs) in
    sock_recvfrom n (Z.of_nat sd) buf cap =
      Ret (set_socks n (<[sd := sock_dequeue h c s]> (n_socks n)), buf', Some (k, src, sport)) ∧
    buf' = zsplice buf 0 (take (Z.to_nat k) bs) ∧
    sock_ok (sock_dequeue h c s) ∧ sock_queue (sock_dequeue h c s) = rest.
Proof.
  intros Hs Hm Hok Hu Ht Hcap Hq. unfold sock_recvfrom. rewrite (sock_get_Some _ _ _ Hs Hm Hu). cbn [mbind outcome_bind].
  rewrite Ht. change (SOCK_DGRAM =? SOCK_DGRAM) with true. cbn [negb].
  assert (0 < s_rx_count s) as Hc.
  { pose proof (so_count _ Hok). destruct (decide (s_rx_count s = 0)) as [E|]; [|lia]. unfold sock_queue in Hq. by rewrite E in Hq. }
  rewrite (proj2 (Z.eqb_neq _ 0)) by lia. destruct (dequeue_spec s Hok Hc) as (d & Hd & [Hdl Hlen] & Hok' & Hq').
  rewrite Hq in Hq'. injection Hq' as Es Ep Eb Er. rewrite (aget_Some _ _ _ (proj1 (so_head _ Hok)) Hd). cbn [mbind outcome_bind].
  assert (zlen bs = dg_len d) as Hbs by (rewrite Eb; unfold zlen, SOCKET_RX_PAYLOAD in *; rewrite length_take; lia).
  set (k := if cap <? dg_len d then cap else dg_len d).
  assert (k = Z.min cap (zlen bs)) as Ek by (unfold k; destruct (Z.ltb_spec cap (dg_len d)); lia).
  assert ((if 0 <? k then memcpy_from buf 0 (dg_data d) 0 k else Ret buf) = Ret (zsplice buf 0 (take (Z.to_nat k) bs))) as ->.
  { destruct (Z.ltb_spec 0 k).
    - rewrite memcpy_from_spec by lia. do 2 f_equal. rewrite zslice_take, Eb, take_take. f_equal. lia.
    - replace k with 0 by lia. done. }
  cbn [mbind outcome_bind]. rewrite (put_sock_in _ _ _ _ Hs). cbn [mbind outcome_bind]. rewrite Es, Ep.
  eexists _, _, _. rewrite <-Ek. split; [done|]. split; [done|]. split; [exact Hok'|]. done.
Qed.
