(* ===== verification/Net.v ===== *)
(** The stack put together: the driver's rings ([kernel/net/e1000.c]), the
    functions behind the pointers, and [net_init] ([kernel/net/net.c]). *)

From S2P Require Import Prelude CString NetBase Netbuf NetIf Arp Ipv4 Icmp Udp Tcp Dns Dhcp Socket.

(** ** Definitions *)

(** *** The e1000's rings *)

Definition E1000_TXD_CMD_EOP : Z := 1.
Definition E1000_TXD_CMD_IFCS : Z := 2.
Definition E1000_TXD_CMD_RS : Z := 8.
Definition E1000_TXD_STAT_DD : Z := 1.
Definition E1000_RXD_STAT_DD : Z := 1.
Definition E1000_NUM_RX_DESC : Z := 32.
Definition E1000_NUM_TX_DESC : Z := 32.
Definition E1000_RX_BUF_SIZE : Z := 2048.

(** The frame is at [p] in [b]. *)
Definition e1000_tx_frame (d : e1000_device) (b : list Z) (p len : Z) : outcome (e1000_device * Z) :=
  if E1000_RX_BUF_SIZE <? len then Ret (d, -1)
  else
    let i := tx_cur d in
    desc ← aget (tx_ring d) i;
    if Z.land (txd_status desc) E1000_TXD_STAT_DD =? 0 then Ret (d, -1)
    else
      buf ← aget (tx_buffers d) i;
      buf ← memcpy_from buf 0 b p len;
      bufs ← aset (tx_buffers d) i buf;
      ring ← aset (tx_ring d) i
               (mk_txd len (Z.lor (Z.lor E1000_TXD_CMD_EOP E1000_TXD_CMD_IFCS) E1000_TXD_CMD_RS) 0);
      let cur := (i + 1) mod E1000_NUM_TX_DESC in
      Ret (mk_e1000 (rx_ring d) ring (rx_buffers d) bufs (rx_cur d) cur cur (reg_rdt d) (e_nif d) (e_initialized d), 0).

Definition e1000_tx_raw (dev : option e1000_device) (b : list Z) (p len : Z) : outcome (option e1000_device * Z) :=
  match dev with
  | None => Ret (None, -1)
  | Some d => '(d, rc) ← e1000_tx_frame d b p len; Ret (Some d, rc)
  end.

Definition e1000_netif_tx (n : net) (i : nat) (nb : netbuf) : outcome (net * Z) :=
  f ← get_if n i;
  match nif_driver f with
  | None => Ret (free_nb n nb, -1)
  | Some k =>
      d ← aget (n_devs n) (Z.of_nat k);
      if negb (e_initialized d) then Ret (free_nb n nb, -1)
      else
        '(d, rc) ← e1000_tx_frame d (nb_buf nb) (nb_data nb) (u16 (netbuf_len nb));
        ds ← aset (n_devs n) (Z.of_nat k) d;
        Ret (free_nb (set_devs n ds) nb, rc)
  end.

(** *** The functions behind the pointers *)

Section Stack.
Context `{Kmem}.

(** [b->recv(b->ctx, ...)]; a client's own receiver is only seen being called. *)
Definition call_recv : recv_fun := λ fn ctx n src src_port dst dst_port b data len,
  match fn with
  | sock_udp_recv_fn => sock_udp_recv n ctx src src_port b data len
  | dns_recv_fn => dns_recv n b data len
  | client_recv_fn =>
      Ret (set_calls n (n_calls n ++ [mk_call ctx src src_port dst dst_port (zslice b data len)]))
  end.

(** [netif_rx] of a machine whose interfaces transmit with [tx]. *)
Definition stack_rx (tx : tx_fun) : net → nat → netbuf → outcome net :=
  netif_rx (arp_input tx) (ipv4_input (icmp_input tx) (udp_input call_recv) (tcp_input tx)).

(** [nif->tx(nif, nb)]. A frame sent over the loopback interface is received
    before the call returns: [depth] bounds how deep such calls nest. *)
Fixpoint link_tx (depth : nat) : tx_fun := λ n i nb,
  f ← get_if n i;
  match nif_tx f with
  | None => Fault
  | Some loopback_tx_fn =>
      match depth with
      | O => Loop
      | S depth => loopback_tx (stack_rx (link_tx depth)) n i nb
      end
  | Some e1000_netif_tx_fn => e1000_netif_tx n i nb
  end.

(** The driver's receive loop; it stops at the first descriptor the device has not filled. *)
Fixpoint e1000_poll_loop (fuel : nat) (tx : tx_fun) (n : net) (k : nat) (delivered : Z) : outcome (net * Z) :=
  d ← aget (n_devs n) (Z.of_nat k);
  let i := rx_cur d in
  desc ← aget (rx_ring d) i;
  if Z.land (rxd_status desc) E1000_RXD_STAT_DD =? 0 then Ret (n, delivered)
  else
    match fuel with
    | O => Loop
    | S fuel =>
        let len := rxd_length desc in
        let '(p, nb) := netbuf_alloc (n_pool n) len in
        let n := set_pool n p in
        '(n, delivered) ←
          (match nb with
           | None => Ret (n, delivered)
           | Some nb =>
               buf ← aget (rx_buffers d) i;
               '(nb, _) ← netbuf_put_data nb buf len;
               n ← stack_rx tx n (e_nif d) nb;
               Ret (n, u32 (delivered + 1))
           end);
        d ← aget (n_devs n) (Z.of_nat k);
        desc ← aget (rx_ring d) i;
        ring ← aset (rx_ring d) i (mk_rxd (rxd_length desc) 0);
        ds ← aset (n_devs n) (Z.of_nat k)
               (mk_e1000 ring (tx_ring d) (rx_buffers d) (tx_buffers d) ((i + 1) mod E1000_NUM_RX_DESC) (tx_cur d)
                  (reg_tdt d) i (e_nif d) (e_initialized d));
        e1000_poll_loop fuel tx (set_devs n ds) k delivered
    end.

Definition e1000_poll (tx : tx_fun) (n : net) (dev : option nat) : outcome (net * Z) :=
  match dev with
  | None => Ret (n, 0)
  | Some k =>
      d ← aget (n_devs n) (Z.of_nat k);
      if negb (e_initialized d) then Ret (n, 0)
      else e1000_poll_loop (Z.to_nat E1000_NUM_RX_DESC) tx n k 0
  end.

End Stack.

(** *** net_init *)

(** [dns_init] has an empty body. [e1000_init] is an argument: it programs the card; it gives its result code
    and the interface of [e1000_primary] if there is one. *)
Definition net_init (e1000_init : net → outcome (net * Z * option nat)) (n : net) : outcome net :=
  let n := netif_registry_init n in
  let n := arp_init n in
  let n := route_init n in
  let n := ipv4_init n in
  let n := icmp_init n in
  let n := udp_init n in
  let n := tcp_init n in
  let n := net_socket_init n in
  n ← loopback_init n;
  '(n, _) ← route_add n (ip_make 127 0 0 0) (ip_make 255 0 0 0) IP_ADDR_ANY (Some LO);
  '(n, rc, dev) ← e1000_init n;
  if rc =? 0 then
    match dev with
    | None => Ret n
    | Some i =>
        let n := netif_set_addr n i (ip_make 10 0 2 15) (ip_make 255 255 255 0) (ip_make 10 0 2 2) in
        let n := netif_up n i in
        '(n, _) ← route_add n (ip_make 10 0 2 0) (ip_make 255 255 255 0) IP_ADDR_ANY (Some i);
        '(n, _) ← route_add n IP_ADDR_ANY IP_ADDR_ANY (ip_make 10 0 2 2) (Some i);
        Ret n
    end
  else Ret n.

(** ** Specification *)

(** A loopback interface that is up. *)
Definition lo_if (f : netif) : Prop :=
  nif_tx f = Some loopback_tx_fn ∧ netif_is_up f = true ∧ Z.land (nif_flags f) NETIF_FLAG_LOOPBACK ≠ 0 ∧ mac (nif_mac f).

(** ** Lemmas *)

Lemma mac_copy_spec m : mac m → mac_copy eth_zero m = Ret m.
Proof. intros Hm. pose proof (memcpy_mac [] m [] Hm) as E. by rewrite app_nil_r in E. Qed.

Lemma lo_if_same f f' : same_if f f' → lo_if f → lo_if f'.
Proof. unfold same_if, lo_if. intros ->. done. Qed.

Section Loopback.
Context `{KmemOk}.

Lemma arp_resolve_lo tx n i f hop :
  n_ifs n !! i = Some f → lo_if f → arp_resolve tx n (Some i) hop eth_zero = Ret (n, 0, nif_mac f).
Proof.
  intros Hf (_ & _ & Hlo & Hm). unfold arp_resolve. rewrite (get_if_Some _ _ _ Hf). cbn [mbind outcome_bind].
  rewrite (proj2 (Z.eqb_neq _ 0)) by done. cbn [negb]. by rewrite mac_copy_spec.
Qed.

Lemma loopback_tx_spec rx n i nb pre frame post :
  holds nb pre frame post → in_use n < room (n_pool n) → zlen frame < 2 ^ 62 → frame ≠ [] →
  ∃ rxb p q, loopback_tx rx n i nb =
      (n' ← rx (set_pool n (mk_pool (in_use n + 1) (room (n_pool n)))) i rxb; Ret (n', 0)) ∧ holds rxb p frame q.
Proof.
  intros Hnb Hr Hl Hne. unfold loopback_tx. rewrite (holds_len _ _ _ _ Hnb). pose proof (zlen_nonneg frame).
  assert (0 < zlen frame) by (destruct frame; [done|rewrite zlen_cons in *; pose proof (zlen_nonneg frame); lia]).
  destruct (alloc_holds (n_pool n) (zlen frame) NETBUF_DEFAULT_HEADROOM) as (rxb & p & q & E & Hh & Hp & Hq & _);
    [lia|done|unfold NETBUF_DEFAULT_HEADROOM; lia|done|].
  unfold netbuf_alloc. rewrite E. pose proof Hnb as (Eb & Ed & _). rewrite Eb, Ed.
  rewrite drop_app_length' by (unfold zlen; lia).
  rewrite <-(app_nil_r q) in Hh.
  destruct (put_data_ok _ _ _ q [] (frame ++ post) (zlen frame) Hh) as (rxb' & E' & Hh' & _).
  { done. } { rewrite zlen_app. pose proof (zlen_nonneg post). lia. }
  rewrite E'. cbn [mbind outcome_bind]. exists rxb', p, []. split; [done|].
  by rewrite take_app_length' in Hh' by (unfold zlen; lia).
Qed.

Lemma stack_rx_ipv4 tx n i f nb pre dst src len id ttl proto ipsrc ipdst c pad post :
  n_ifs n !! i = Some f →
  holds nb pre (eth_header dst src ETH_P_IPV4 ++ ip_header len id ttl proto ipsrc ipdst ++ c ++ pad) post →
  mac dst → mac src → len = IPV4_HDR_LEN + zlen c → len < 2 ^ 16 → is_u8 ttl → is_u8 proto → is_u32 ipsrc → is_u32 ipdst →
  ∃ n1 nb1 nb2 p q, quiet n n1 ∧ n_pool n1 = n_pool n ∧ holds nb1 p c q ∧
    stack_rx tx n i nb =
      (n' ← l4_dispatch (icmp_input tx) (udp_input call_recv) (tcp_input tx) proto n1 i nb1 ipsrc ipdst; Ret (free_nb n' nb2)).
Proof.
  intros Hf H1 Hd Hs Hlen Hl Ht Hp Hsrc Hdst. unfold stack_rx, netif_rx. rewrite (get_if_Some _ _ _ Hf). cbn [mbind outcome_bind].
  destruct (eth_parse_spec _ _ _ _ _ _ _ H1 Hd Hs ltac:(by vm_compute)) as (nb' & E & H2 & _). rewrite E. cbn [mbind outcome_bind].
  change (ETH_P_IPV4 =? ETH_P_ARP) with false. change (ETH_P_IPV4 =? ETH_P_IPV4) with true. cbn beta iota.
  set (n1 := if_stat (if_stat n i _) i _).
  destruct (ipv4_input_spec (icmp_input tx) (udp_input call_recv) (tcp_input tx) n1 i (with_netif nb' i) _ _ _ _ _ _ _ _ _ _ H2
              Hlen Hl Ht Hp Hsrc Hdst) as (nb1 & E1 & H3 & _).
  rewrite E1. eexists n1, nb1, _, _, _. split; [unfold n1; etrans; apply quiet_stat|]. split; [done|]. split; [exact H3|]. done.
Qed.

Definition l4 (tx : tx_fun) : Z → l4_input := l4_dispatch (icmp_input tx) (udp_input call_recv) (tcp_input tx).

(** A frame sent over the loopback interface is received: its payload reaches the protocol's handler. *)
Lemma lo_transmit depth n i f nb pre len id ttl proto src dst c post :
  n_ifs n !! i = Some f → lo_if f → in_use n < room (n_pool n) →
  holds nb pre (eth_header (nif_mac f) (nif_mac f) ETH_P_IPV4 ++ ip_header len id ttl proto src dst ++ c) post →
  len = IPV4_HDR_LEN + zlen c → len < 2 ^ 16 → is_u8 ttl → is_u8 proto → is_u32 src → is_u32 dst →
  ∃ n1 nb1 p q sent, quiet n n1 ∧ in_use n1 = in_use n + 1 ∧ holds nb1 p c q ∧
    (∀ n', quiet n' (sent n') ∧ in_use (sent n') = in_use n' - 1) ∧
    netif_transmit (link_tx (S depth)) n (Some i) nb =
      (n' ← l4 (link_tx depth) proto n1 i nb1 src dst; Ret (sent n', 0)).
Proof.
  intros Hf Hlo Hr Hnb Hlen Hl Ht Hp Hs Hd. pose proof Hlo as (Htx & Hup & _ & Hm). unfold netif_transmit.
  rewrite (get_if_Some _ _ _ Hf). cbn [mbind outcome_bind]. rewrite Htx, Hup. cbn [negb].
  cbn [link_tx]. rewrite (get_if_Some _ _ _ Hf). cbn [mbind outcome_bind]. rewrite Htx.
  destruct (loopback_tx_spec (stack_rx (link_tx depth)) n i _ _ _ _ Hnb Hr) as (rxb & p & q & E & Hrx);
    [|by destruct Hm as [Hm _]; unfold eth_header; destruct (nif_mac f)|].
  { rewrite !zlen_app, ip_header_length. unfold eth_header. rewrite !zlen_app. unfold zlen at 1 2. rewrite !(proj1 Hm).
    change (zlen (be16 ETH_P_IPV4)) with 2. lia. }
  rewrite <-(app_nil_r c) in Hrx.
  destruct (stack_rx_ipv4 (link_tx depth) (set_pool n (mk_pool (in_use n + 1) (room (n_pool n)))) i f _ _ _ _ _ _ _ _ _ _ _ _ _ Hf Hrx)
    as (n1 & nb1 & nb2 & p' & q' & Hq & Hpool & Hnb1 & E1); try done.
  rewrite E, E1. unfold l4.
  exists n1, nb1, p', q', (λ n', if_stat (if_stat (free_nb n' nb2) i (add_tx_packets 1)) i (add_tx_bytes (netbuf_len nb))).
  split; [etrans; [by apply (quiet_pool n (mk_pool (in_use n + 1) (room (n_pool n))))|done]|].
  split; [unfold in_use; by rewrite Hpool|]. split; [done|].
  split; [intros n'; split; [|done]; etrans; [|apply quiet_stat]; etrans; [|apply quiet_stat]; apply quiet_free|].
  by destruct (l4_dispatch _ _ _ _ _ _ _ _ _).
Qed.

Lemma lo_output depth n i f hop nb pre gap c post src dst proto ttl :
  egress n dst = Ret (Some i, hop) → n_ifs n !! i = Some f → lo_if f → in_use n < room (n_pool n) →
  holds nb (pre ++ gap) c post → zlen gap = ETH_HLEN + IPV4_HDR_LEN → IPV4_HDR_LEN + zlen c < 2 ^ 16 →
  is_u8 ttl → is_u8 proto → is_u32 (if ip_is_zero src then nif_ip f else src) → is_u32 dst →
  ∃ n1 nb1 p q sent, quiet n n1 ∧ in_use n1 = in_use n + 1 ∧ holds nb1 p c q ∧
    (∀ n', quiet n' (sent n') ∧ in_use (sent n') = in_use n' - 1) ∧
    ipv4_output (link_tx (S depth)) n nb src dst proto ttl =
      (n' ← l4 (link_tx depth) proto n1 i nb1 (if ip_is_zero src then nif_ip f else src) dst; Ret (sent n', 0)).
Proof.
  intros He Hf Hlo Hr Hnb Hg Hl Ht Hp Hs Hd. pose proof (zlen_nonneg c). unfold ipv4_output. rewrite He. cbn [mbind outcome_bind].
  rewrite (get_if_Some _ _ _ Hf). cbn [mbind outcome_bind]. set (src' := if ip_is_zero src then nif_ip f else src) in *.
  rewrite <-(take_drop (Z.to_nat ETH_HLEN) gap) in Hnb, Hg. rewrite zlen_app in Hg.
  set (g1 := take _ gap) in *. set (g2 := drop _ gap) in *.
  assert (zlen g1 = ETH_HLEN) as H1.
  { unfold g1, g2, zlen in *. rewrite length_take, length_drop in *. unfold ETH_HLEN, IPV4_HDR_LEN in *. lia. }
  assert (zlen g2 = IPV4_HDR_LEN) as H2 by lia. rewrite (assoc_L (++)) in Hnb.
  destruct (ipv4_build_spec n _ _ _ _ _ src' dst proto ttl Hnb H2 ltac:(unfold IPV4_HDR_LEN in *; lia) Ht Hp) as (nb1 & E1 & Hn1 & _).
  rewrite E1. cbn [mbind outcome_bind Z.eqb negb]. set (n1 := set_ip_id n _).
  rewrite (arp_resolve_lo _ n1 i f hop Hf Hlo). cbn [mbind outcome_bind Z.eqb negb].
  rewrite (get_if_Some n1 i f Hf). cbn [mbind outcome_bind].
  destruct (eth_build_spec _ _ _ _ _ (nif_mac f) (nif_mac f) ETH_P_IPV4 Hn1 H1) as (nb2 & E2 & Hn2 & _); [apply Hlo..|].
  rewrite E2. cbn [mbind outcome_bind Z.eqb negb]. rewrite u16_small in Hn2 by (unfold IPV4_HDR_LEN in *; lia).
  destruct (lo_transmit depth n1 i f nb2 _ _ _ _ _ _ _ _ _ Hf Hlo Hr Hn2) as (n2 & nb3 & p & q & sent & Hq & Hu & Hn3 & Hsent & E3); try done.
  exists n2, nb3, p, q, sent. split_and!; try done. etrans; [apply quiet_ip_id|done].
Qed.

(** A datagram sent over the loopback interface reaches the receiver bound to its destination. *)
Lemma udp_loopback depth n src sp dst dp data len i hop f j bd fn :
  egress n dst = Ret (Some i, hop) → n_ifs n !! i = Some f → lo_if f → in_use n + 1 < room (n_pool n) →
  payload_ok data len → IPV4_HDR_LEN + UDP_HDR_LEN + len < 2 ^ 16 → is_u16 sp → is_u16 dp → is_u32 dst →
  is_u32 (if ip_is_zero src then nif_ip f else src) →
  udp_find (n_binds n) dst dp = Ret (Some j) → aget (n_binds n) j = Ret bd → ub_recv bd = Some fn →
  ∃ n1 b off sent, quiet (set_datagrams n (u64 (n_datagrams n + 1))) n1 ∧ in_use n1 = in_use n + 2 ∧
    zslice b off len = payload_of data len ∧ 0 ≤ off ∧ off + len ≤ zlen b ∧
    (∀ n', quiet n' (sent n') ∧ in_use (sent n') = in_use n' - 1) ∧
    udp_output (link_tx (S depth)) n src sp dst dp data len =
      (n' ← call_recv fn (ub_ctx bd) n1 (if ip_is_zero src then nif_ip f else src) sp dst dp b off len; Ret (sent n', 0)).
Proof.
  intros He Hf Hlo Hr Hd Hl Hsp Hdp Hdst Hsrc Hfind Hget Hfn. set (src' := if ip_is_zero src then nif_ip f else src) in *.
  pose proof (proj1 Hd) as Hl0. pose proof (zlen_payload _ _ Hd) as Hz. pose proof (bytes_payload _ _ Hd) as Hb.
  set (n0 := set_pool n (mk_pool (in_use n + 1) (room (n_pool n)))). unfold IPV4_HDR_LEN, UDP_HDR_LEN in Hl.
  assert (quiet n n0) as Hq0 by (by apply quiet_pool). pose proof He as He0. rewrite <-(egress_quiet _ _ _ Hq0) in He0.
  destruct (udp_output_spec (link_tx (S depth)) n src sp dst dp data len src') as (nb & pre & E & Hnb & Hpre);
    [lia|done|unfold UDP_HDR_LEN; lia|exact (udp_csum_src_egress n0 src dst i hop f He0 Hf)|].
  fold n0 in E. rewrite E. set (c := payload_of data len) in *.
  rewrite <-(take_drop (Z.to_nat 30) pre) in Hnb.
  destruct (lo_output depth n0 i f hop nb _ _ _ _ src dst IP_PROTO_UDP 64 He0 Hf Hlo ltac:(exact Hr) Hnb)
    as (n1 & nb1 & p & q & sent & Hq & Hu & Hnb1 & Hsent & E1); [| |by vm_compute|by vm_compute|exact Hsrc|exact Hdst|].
  { unfold zlen in *. rewrite length_drop. unfold NETBUF_DEFAULT_HEADROOM, ETH_HLEN, IPV4_HDR_LEN in *. lia. }
  { rewrite zlen_udp, Hz. unfold IPV4_HDR_LEN, UDP_HDR_LEN. lia. }
  fold src' in E1. rewrite E1. unfold l4, l4_dispatch. change (IP_PROTO_UDP =? IP_PROTO_ICMP) with false. change (IP_PROTO_UDP =? IP_PROTO_UDP) with true.
  cbn beta iota. assert (quiet n n1) as Hq' by (by etrans).
  destruct (udp_input_spec call_recv n1 i nb1 p src' dst sp dp c q Hnb1 Hsp Hdp Hb) as [Hsl E2]; [unfold UDP_HDR_LEN; lia|].
  rewrite E2, (q_binds _ _ Hq'), Hfind. cbn [mbind outcome_bind]. rewrite Hget. cbn [mbind outcome_bind]. rewrite Hfn, Hz in *.
  exists (set_datagrams n1 (u64 (n_datagrams n1 + 1))), (nb_buf nb1), (zlen p + UDP_HDR_LEN), sent.
  split; [rewrite (q_datagrams _ _ Hq'); by apply quiet_set_datagrams|].
  split; [change (in_use n1 = in_use n + 2); rewrite Hu; change (in_use n0) with (in_use n + 1); lia|].
  split; [done|]. pose proof (zlen_nonneg p). pose proof (zlen_nonneg q). split; [unfold UDP_HDR_LEN; lia|].
  split; [rewrite (proj1 Hnb1), !zlen_app, zlen_udp; lia|]. done.
Qed.

End Loopback.

Section Claims.
Context `{KmemOk}.

(** Over an interface that loops back, [udp_output] hands the receiver bound
    to the destination exactly the bytes sent, once, with the addresses and ports
    of the packet, and nothing else of the stack changes but counters; the frame
    given to [loopback_tx] is never freed, so one more buffer is in use. *)
Theorem udp_loopback_delivers depth n src sp dst dp data len i hop f j bd :
  egress n dst = Ret (Some i, hop) → n_ifs n !! i = Some f → lo_if f → in_use n + 1 < room (n_pool n) →
  payload_ok data len → IPV4_HDR_LEN + UDP_HDR_LEN + len < 2 ^ 16 → is_u16 sp → is_u16 dp → is_u32 dst →
  is_u32 (if ip_is_zero src then nif_ip f else src) →
  udp_find (n_binds n) dst dp = Ret (Some j) → aget (n_binds n) j = Ret bd → ub_recv bd = Some client_recv_fn →
  ∃ n', udp_output (link_tx (S depth)) n src sp dst dp data len = Ret (n', 0) ∧
    quiet (set_calls (set_datagrams n (u64 (n_datagrams n + 1)))
             (n_calls n ++ [mk_call (ub_ctx bd) (if ip_is_zero src then nif_ip f else src) sp dst dp (payload_of data len)])) n' ∧
    in_use n' = in_use n + 1.
Proof.
  intros He Hf Hlo Hr Hd Hl Hsp Hdp Hdst Hsrc Hfind Hget Hfn.
  destruct (udp_loopback depth n src sp dst dp data len i hop f j bd client_recv_fn) as (n1 & b & off & sent & Hq & Hu & Hsl & _ & _ & Hsent & E); try done.
  rewrite E. cbn [call_recv mbind outcome_bind]. eexists. split; [done|]. destruct (Hsent (set_calls n1
    (n_calls n1 ++ [mk_call (ub_ctx bd) (if ip_is_zero src then nif_ip f else src) sp dst dp (zslice b off len)]))) as [Hq' Hu'].
  split; [|rewrite Hu'; change (in_use n1 - 1 = in_use n + 1); lia].
  rewrite Hsl, (q_calls _ _ Hq) in *. etrans; [|exact Hq']. apply quiet_set_calls, Hq.
Qed.

(** C7. A datagram sent with [sock_sendto] over an interface that loops back to a
    bound datagram socket with an empty queue is what [sock_recvfrom] on that socket
    returns, once: its first bytes, as many as the queue keeps of a datagram (1472)
    and as the caller's buffer takes, their number, and the sender's address and
    port. The call sends from a bound socket to an address that is not 0.0.0.0, the
    datagram fits in an IP packet, and there are two buffers for it. *)
Theorem sock_loopback_roundtrip depth n (sd1 sd2 : nat) s1 s2 data off len dst dp i hop f j bd buf cap :
  n_socks n !! sd1 = Some s1 → Z.of_nat sd1 < SOCKET_MAX → s_in_use s1 = true → s_type s1 = SOCK_DGRAM → s_bound s1 = true →
  n_socks n !! sd2 = Some s2 → Z.of_nat sd2 < SOCKET_MAX → s_in_use s2 = true → s_type s2 = SOCK_DGRAM → sock_ok s2 → sock_queue s2 = [] →
  egress n dst = Ret (Some i, hop) → n_ifs n !! i = Some f → lo_if f → in_use n + 1 < room (n_pool n) →
  payload_ok (Some (data, off)) len → IPV4_HDR_LEN + UDP_HDR_LEN + len < 2 ^ 16 → is_u16 (s_local_port s1) → is_u16 dp → is_u32 dst → ip_is_zero dst = false →
  is_u32 (if ip_is_zero (s_local_ip s1) then nif_ip f else s_local_ip s1) →
  udp_find (n_binds n) dst dp = Ret (Some j) → aget (n_binds n) j = Ret bd → ub_recv bd = Some sock_udp_recv_fn → ub_ctx bd = sd2 →
  0 ≤ cap ≤ zlen buf →
  let k := Z.min cap (Z.min SOCKET_RX_PAYLOAD len) in
  ∃ n1 n2 s', sock_sendto (link_tx (S depth)) n (Z.of_nat sd1) (data, off) len dst dp = Ret (n1, len) ∧
    sock_recvfrom n1 (Z.of_nat sd2) buf cap =
      Ret (n2, zsplice buf 0 (zslice data off k),
           Some (k, if ip_is_zero (s_local_ip s1) then nif_ip f else s_local_ip s1, s_local_port s1)) ∧
    n_socks n2 !! sd2 = Some s' ∧ sock_queue s' = [].
Proof.
  intros Hs1 Hm1 Hu1 Ht1 Hb1 Hs2 Hm2 Hu2 Ht2 Hok Hq2 He Hf Hlo Hr Hd Hl Hsp Hdp Hdst Hz Hsrc Hfind Hget Hfn Hctx Hcap k.
  set (src' := if ip_is_zero (s_local_ip s1) then nif_ip f else s_local_ip s1) in *.
  pose proof (proj1 Hd) as Hl0. unfold SOCKET_RX_PAYLOAD in k.
  destruct (udp_loopback depth n (s_local_ip s1) (s_local_port s1) dst dp (Some (data, off)) len i hop f j bd sock_udp_recv_fn)
    as (n1 & b & o & sent & Hq & Hu & Hsl & Ho & Hol & Hsent & E); try done.
  unfold sock_sendto. rewrite (sock_get_Some _ _ _ Hs1 Hm1 Hu1). cbn [mbind outcome_bind]. rewrite Ht1. change (SOCK_DGRAM =? SOCK_DGRAM) with true.
  cbn [negb]. unfold sock_autobind. rewrite Hb1. cbn [negb mbind outcome_bind Z.eqb].
  rewrite (get_sock_Some _ _ _ Hs1). cbn [mbind outcome_bind]. rewrite Hz. cbn [andb]. rewrite E.
  cbn [call_recv]. rewrite Hctx. assert (n_socks n1 = n_socks n) as Es by apply (q_socks _ _ Hq).
  pose proof (sock_udp_recv_spec n1 sd2 s2 src' (s_local_port s1) b o len ltac:(by rewrite Es) Hok Hu2 Ht2 Ho Hl0 Hol) as Hrecv.
  assert (s_rx_count s2 = 0) as Hc0.
  { pose proof (so_count _ Hok). unfold sock_queue in Hq2. apply map_eq_nil in Hq2. destruct (Z.to_nat (s_rx_count s2)) eqn:Ec; [lia|done]. }
  rewrite Hc0 in Hrecv. destruct Hrecv as (q & t & c & E2 & Hok' & Hq'). fold src'. rewrite E2. cbn [mbind outcome_bind Z.ltb].
  set (n2 := set_socks n1 _). destruct (Hsent n2) as [Hqs _].
  rewrite Hq2, Hsl in Hq'. cbn [app payload_of] in Hq'. assert (zlen (zslice data off len) = len) as Hzl by (apply (zlen_payload (Some (data, off))), Hd).
  set (bs := take _ (zslice data off len)) in Hq'. assert (zlen bs = Z.min 1472 len) as Hbs by (unfold bs, zlen, SOCKET_RX_PAYLOAD in *; rewrite length_take; lia).
  assert (n_socks (sent n2) !! sd2 = Some (sock_enqueue q t c s2)) as Hs2'.
  { rewrite (q_socks _ _ Hqs). cbn [n2 set_socks n_socks]. rewrite Es. apply list_lookup_insert_eq, (lookup_lt_Some _ _ _ Hs2). }
  destruct (sock_recvfrom_spec (sent n2) sd2 (sock_enqueue q t c s2) buf cap src' (s_local_port s1) bs [])
    as (h & c' & buf' & E3 & Eb & _ & Hq3); try done.
  rewrite Hbs in E3, Eb. fold k in E3, Eb. set (s3 := sock_dequeue h c' (sock_enqueue q t c s2)) in *.
  exists (sent n2), (set_socks (sent n2) (<[sd2 := s3]> (n_socks (sent n2)))), s3. split; [done|]. split; [rewrite E3, Eb|split; [|exact Hq3]].
  2: { cbn [set_socks n_socks]. apply list_lookup_insert_eq, (lookup_lt_Some _ _ _ Hs2'). }
  do 3 f_equal. unfold bs, zslice. rewrite !take_take. do 2 f_equal. unfold SOCKET_RX_PAYLOAD. lia.
Qed.

(** One ICMP message over the loopback interface. *)
Lemma icmp_loopback depth n nb pre type id seq c src dst i hop f :
  egress n dst = Ret (Some i, hop) → n_ifs n !! i = Some f → lo_if f → in_use n < room (n_pool n) →
  holds nb pre (icmp_message type 0 id seq c) [] → zlen pre = NETBUF_DEFAULT_HEADROOM → IPV4_HDR_LEN + ICMP_HDR_LEN + zlen c < 2 ^ 16 →
  is_u32 (if ip_is_zero src then nif_ip f else src) → is_u32 dst →
  ∃ n1 nb1 p q sent, quiet n n1 ∧ in_use n1 = in_use n + 1 ∧ holds nb1 p (icmp_message type 0 id seq c) q ∧
    (∀ n', quiet n' (sent n') ∧ in_use (sent n') = in_use n' - 1) ∧
    ipv4_output (link_tx (S depth)) n nb src dst IP_PROTO_ICMP 64 =
      (n' ← icmp_input (link_tx depth) n1 i nb1 (if ip_is_zero src then nif_ip f else src) dst; Ret (sent n', 0)).
Proof.
  intros He Hf Hlo Hr Hnb Hpre Hl Hsrc Hdst. rewrite <-(take_drop (Z.to_nat 30) pre) in Hnb.
  destruct (lo_output depth n i f hop nb _ _ _ _ src dst IP_PROTO_ICMP 64 He Hf Hlo Hr Hnb)
    as (n1 & nb1 & p & q & sent & Hq & Hu & Hnb1 & Hsent & E1); [| |by vm_compute|by vm_compute|exact Hsrc|exact Hdst|].
  { unfold zlen in *. rewrite length_drop. unfold NETBUF_DEFAULT_HEADROOM, ETH_HLEN, IPV4_HDR_LEN in *. lia. }
  { rewrite zlen_icmp. lia. }
  by exists n1, nb1, p, q, sent.
Qed.

Definition count_ping (s : icmp_stats) : icmp_stats :=
  mk_icmp (u64 (echo_requests_seen s + 1)) (u64 (echo_replies_sent s + 1)) (u64 (echo_replies_seen s + 1)).

(** An echo request sent over an interface that loops back is answered, with
    the same id, sequence number and payload, and the answer is received: each of
    the three counters goes up by one and nothing else changes but interface
    counters and the two frames that are never freed. *)
Theorem ping_loopback depth n dst id seq data len i hop hop' f :
  egress n dst = Ret (Some i, hop) → egress n (nif_ip f) = Ret (Some i, hop') → n_ifs n !! i = Some f → lo_if f →
  in_use n + 3 < room (n_pool n) → payload_ok data len → IPV4_HDR_LEN + ICMP_HDR_LEN + len < 2 ^ 16 → is_u16 id → is_u16 seq →
  is_u32 dst → is_u32 (nif_ip f) →
  ∃ n', icmp_send_echo (link_tx (S (S depth))) n dst id seq data len = Ret (n', 0) ∧
    quiet (set_icmp n (count_ping (n_icmp n))) n' ∧ in_use n' = in_use n + 2.
Proof.
  intros He He' Hf Hlo Hr Hd Hl Hid Hseq Hdst Hip. pose proof (proj1 Hd) as Hl0. pose proof (zlen_payload _ _ Hd) as Hz.
  pose proof (bytes_payload _ _ Hd) as Hb. set (c := payload_of data len) in *. unfold IPV4_HDR_LEN, ICMP_HDR_LEN in Hl.
  set (n0 := set_pool n (mk_pool (in_use n + 1) (room (n_pool n)))). assert (quiet n n0) as Hq0 by (by apply quiet_pool).
  destruct (icmp_build_spec n ICMP_ECHO_REQUEST 0 id seq data len) as (nb & pre & E & Hnb & Hpre);
    [lia|done|unfold ICMP_HDR_LEN; lia|by vm_compute|by vm_compute|]. fold n0 in E.
  unfold icmp_send_echo. rewrite E. cbn [mbind outcome_bind].
  destruct (icmp_loopback (S depth) n0 nb pre ICMP_ECHO_REQUEST id seq c IP_ADDR_ANY dst i hop f)
    as (n1 & nb1 & p & q & sent & Hq1 & Hu1 & Hnb1 & Hsent & E1);
    [by rewrite (egress_quiet _ _ _ Hq0)|done|done|change (in_use n + 1 < room (n_pool n)); lia|done|done|unfold IPV4_HDR_LEN, ICMP_HDR_LEN; lia|done|done|].
  rewrite E1. change (ip_is_zero IP_ADDR_ANY) with true. cbn beta iota.
  rewrite (icmp_input_spec _ n1 i nb1 p _ id seq c q _ dst Hnb1 ltac:(by vm_compute) Hid Hseq Hb ltac:(unfold ICMP_HDR_LEN; lia)).
  change (ICMP_ECHO_REQUEST =? ICMP_ECHO_REPLY) with false. change (ICMP_ECHO_REQUEST =? ICMP_ECHO_REQUEST) with true. cbn [negb].
  assert (quiet n n1) as Hq by (by etrans). rewrite (q_icmp _ _ Hq).
  set (s1 := mk_icmp _ _ _). set (n2 := set_icmp n1 s1). unfold icmp_echo.
  rewrite (holds_len _ _ _ _ Hnb1), zlen_icmp. replace (ICMP_HDR_LEN + zlen c - ICMP_HDR_LEN) with (zlen c) by lia.
  rewrite u16_small by lia. rewrite (proj1 (proj2 Hnb1)). destruct (icmp_payload _ _ _ _ _ _ _ Hnb1 Hb) as [Hd1 Ec].
  assert (in_use n2 = in_use n + 2) as Hu2 by (change (in_use n1 = in_use n + 2); rewrite Hu1; change (in_use n0) with (in_use n + 1); lia).
  assert (room (n_pool n2) = room (n_pool n)) as Hr2 by apply (q_room _ _ Hq).
  destruct (icmp_build_spec n2 ICMP_ECHO_REPLY 0 id seq _ _ ltac:(lia) Hd1 ltac:(unfold ICMP_HDR_LEN; lia) ltac:(by vm_compute) ltac:(by vm_compute))
    as (nb2 & pre2 & E2 & Hnb2 & Hpre2).
  rewrite E2. cbn [mbind outcome_bind]. rewrite Ec in Hnb2. set (n3 := set_pool n2 _). assert (quiet n2 n3) as Hq3 by (by apply quiet_pool).
  assert (egress n3 (nif_ip f) = Ret (Some i, hop')) as He3.
  { rewrite (egress_quiet _ _ _ Hq3). rewrite <-He', <-(egress_quiet _ _ _ Hq).
    apply egress_links. split; [apply ifs_same|done|done]. }
  destruct (quiet_if _ _ _ _ Hq Hf) as (f' & Hf' & Hsame).
  assert (nif_ip f' = nif_ip f) as Eip by (by rewrite Hsame).
  destruct (icmp_loopback depth n3 nb2 pre2 ICMP_ECHO_REPLY id seq c dst (nif_ip f) i hop' f' He3 Hf' (lo_if_same _ _ Hsame Hlo))
    as (n4 & nb3 & p' & q' & sent' & Hq4 & Hu4 & Hnb3 & Hsent' & E3);
    [change (in_use n2 + 1 < room (n_pool n2)); lia|done|done|unfold IPV4_HDR_LEN, ICMP_HDR_LEN; lia|rewrite Eip; by destruct (ip_is_zero dst)|done|].
  rewrite E3. rewrite (icmp_input_spec _ n4 i nb3 p' _ id seq c q' _ _ Hnb3 ltac:(by vm_compute) Hid Hseq Hb ltac:(unfold ICMP_HDR_LEN; lia)).
  change (ICMP_ECHO_REPLY =? ICMP_ECHO_REPLY) with true. cbn [mbind outcome_bind]. change (0 <=? 0) with true. cbn beta iota.
  set (n5 := set_icmp n4 _). destruct (Hsent' n5) as [Hq5 Hu5]. set (n6 := set_icmp (sent' n5) _). destruct (Hsent n6) as [Hq6 Hu6].
  exists (sent n6). split; [done|]. assert (n_icmp n4 = s1) as Es by (rewrite (q_icmp _ _ Hq4); apply (q_icmp _ _ Hq3)).
  split.
  - etrans; [|exact Hq6]. unfold n6. rewrite (q_icmp _ _ Hq5). cbn [n5 set_icmp n_icmp]. rewrite Es.
    set (s3 := mk_icmp _ _ _). change s3 with (count_ping (n_icmp n)). clearbody s3.
    etrans; [apply (quiet_set_icmp n n1 _ Hq)|]. etrans; [apply (quiet_set_icmp n2 n3 _ Hq3)|].
    etrans; [apply (quiet_set_icmp n3 n4 _ Hq4)|]. apply (quiet_set_icmp n5 (sent' n5) _ Hq5).
  - rewrite Hu6. change (in_use n6) with (in_use (sent' n5)). rewrite Hu5. change (in_use n5) with (in_use n4). rewrite Hu4.
    change (in_use n3) with (in_use n2 + 1). lia.
Qed.

End Claims.

(** ** Examples *)

(** Fresh memory full of one byte, and a machine with the loopback interface only. *)
Definition example_kmem : Kmem := λ n, replicate (Z.to_nat n) 0xAA.

Lemma example_kmem_ok : @KmemOk example_kmem.
Proof.
  intros n Hn. unfold kmem_bytes, example_kmem. split; [rewrite zlen_replicate; lia|]. apply Forall_replicate. by vm_compute.
Qed.

Definition example_lo : netif :=
  mk_nif [108; 111; 0; 0; 0; 0; 0; 0] eth_zero IP_ADDR_LOOPBACK (ip_make 255 0 0 0) 0 65535 3 (Some loopback_tx_fn) None zero_stats true.

Definition example_net (bs : list udp_binding) (ts : list tcp_tcb) (ss : list socket) : net :=
  mk_net (mk_pool 0 100) [example_lo] [LO] (replicate 16 (mk_arp ARP_FREE 0 eth_zero 0)) 0
    [mk_route (ip_make 127 0 0 0) (ip_make 255 0 0 0) 0 (Some LO) true 8] 0x1000 (mk_icmp 0 0 0) bs 49152 0 ts 0x10000 ss
    (mk_res 0 None None) 0x1000 [] [].

Definition no_bind : udp_binding := mk_bind false 0 0 None 0.

Lemma example_lo_if : lo_if example_lo.
Proof. split; [done|]. split; [done|]. split; [by vm_compute|]. split; [done|]. bytes_of. Qed.

Definition example_udp : net := example_net (mk_bind true 0 7 (Some client_recv_fn) 5 :: replicate 15 no_bind) [] [].

Lemma example_payload : payload_ok (Some ([1; 2; 3], 0)) 3.
Proof. split; [done|]. split; [done|]. split; [done|]. change (bytes [1; 2; 3]). bytes_of. Qed.

Lemma udp_loopback_delivers_witness :
  ∃ n', @udp_output example_kmem (@link_tx example_kmem 1) example_udp 0 1234 IP_ADDR_LOOPBACK 7 (Some ([1; 2; 3], 0)) 3 = Ret (n', 0) ∧
    n_calls n' = [mk_call 5 IP_ADDR_LOOPBACK 1234 IP_ADDR_LOOPBACK 7 [1; 2; 3]] ∧ in_use n' = 1.
Proof.
  destruct (@udp_loopback_delivers example_kmem example_kmem_ok 0 example_udp 0 1234 IP_ADDR_LOOPBACK 7 (Some ([1; 2; 3], 0)) 3 LO IP_ADDR_LOOPBACK
              example_lo 0 (mk_bind true 0 7 (Some client_recv_fn) 5)) as (n' & E & Hq & Hu);
    [by vm_compute|done|exact example_lo_if|by vm_compute|exact example_payload|by vm_compute|by vm_compute|by vm_compute|by vm_compute|by vm_compute
    |by vm_compute|done|done|].
  exists n'. split; [exact E|]. split; [exact (q_calls _ _ Hq)|exact Hu].
Defined.

Definition example_sock (port : Z) : socket := sock_local 0 port (sock_open SOCK_DGRAM None zero_sock).
Definition example_socks : net :=
  example_net (mk_bind true 0 7 (Some sock_udp_recv_fn) 1 :: replicate 15 no_bind) []
    (example_sock 1234 :: example_sock 7 :: replicate 14 zero_sock).

Lemma example_sock_ok port : sock_ok (example_sock port).
Proof. destruct zero_sock_ok. by split. Qed.

(** The buffer takes two of the three bytes. *)
Lemma sock_loopback_roundtrip_witness :
  ∃ n1 n2 s', @sock_sendto example_kmem (@link_tx example_kmem 1) example_socks 0 ([1; 2; 3], 0) 3 IP_ADDR_LOOPBACK 7 = Ret (n1, 3) ∧
    sock_recvfrom n1 1 [0; 0; 0; 0] 2 = Ret (n2, [1; 2; 0; 0], Some (2, IP_ADDR_LOOPBACK, 1234)) ∧ n_socks n2 !! 1%nat = Some s' ∧ sock_queue s' = [].
Proof.
  apply (@sock_loopback_roundtrip example_kmem example_kmem_ok 0 example_socks 0 1 (example_sock 1234) (example_sock 7) [1; 2; 3] 0 3
           IP_ADDR_LOOPBACK 7 LO IP_ADDR_LOOPBACK example_lo 0 (mk_bind true 0 7 (Some sock_udp_recv_fn) 1) [0; 0; 0; 0] 2);
    try done; try by vm_compute.
  - apply example_sock_ok.
  - exact example_lo_if.
  - exact example_payload.
Defined.

Lemma ping_loopback_witness :
  ∃ n', @icmp_send_echo example_kmem (@link_tx example_kmem 2) example_udp IP_ADDR_LOOPBACK 1 2 (Some ([1; 2; 3], 0)) 3 = Ret (n', 0) ∧
    n_icmp n' = mk_icmp 1 1 1 ∧ in_use n' = 2.
Proof.
  destruct (@ping_loopback example_kmem example_kmem_ok 0 example_udp IP_ADDR_LOOPBACK 1 2 (Some ([1; 2; 3], 0)) 3 LO IP_ADDR_LOOPBACK
              IP_ADDR_LOOPBACK example_lo) as (n' & E & Hq & Hu);
    [by vm_compute|by vm_compute|done|exact example_lo_if|by vm_compute|exact example_payload|by vm_compute..|].
  exists n'. split; [exact E|]. split; [exact (q_icmp _ _ Hq)|exact Hu].
Defined.
