(* ===== verification/Handshake.v ===== *)
(** TCP over the loopback interface: the stack of [Net], with the segments of a
    connection traced through it. *)

From S2P Require Import Prelude CString NetBase Netbuf NetIf Arp Ipv4 Icmp Udp Tcp Socket Net.

Section Handshake.
Context `{KmemOk}.

(** *** TCP *)

(** The state is [n] with the table [ts] and the clock [y], counters and buffers aside. *)
Definition tcp_view (n : net) (ts : list tcp_tcb) (y : Z) (n' : net) : Prop := quiet (set_iss (set_tcbs n ts) y) n'.

Lemma tcp_view_links n ts y n' : tcp_view n ts y n' → same_links n n'.
Proof. intros Hv. etrans; [|exact (quiet_links _ _ Hv)]. split; [apply ifs_same|done|done]. Qed.

Lemma tcp_view_refl n : tcp_view n (n_tcbs n) (n_iss n) n.
Proof. destruct n. unfold tcp_view. cbn. reflexivity. Qed.

Lemma tcp_view_quiet n ts y n1 n2 : tcp_view n ts y n1 → quiet n1 n2 → tcp_view n ts y n2.
Proof. unfold tcp_view. intros. by etrans. Qed.

Lemma view_get n ts y n' (j : nat) t : tcp_view n ts y n' → ts !! j = Some t → get_tcb n' (Z.of_nat j) = Ret t.
Proof. intros Hv Hj. unfold get_tcb. rewrite (q_tcbs _ _ Hv). apply aget_Some; [lia|]. by rewrite Nat2Z.id. Qed.

Lemma view_upd n ts y n' (j : nat) t g :
  tcp_view n ts y n' → ts !! j = Some t →
  ∃ n2, upd_tcb n' (Z.of_nat j) g = Ret n2 ∧ tcp_view n (<[j := g t]> ts) y n2 ∧ in_use n2 = in_use n'.
Proof.
  intros Hv Hj. unfold upd_tcb. rewrite (view_get _ _ _ _ _ _ Hv Hj). cbn [mbind outcome_bind]. rewrite (q_tcbs _ _ Hv).
  cbn [set_iss set_tcbs n_tcbs]. pose proof (lookup_lt_Some _ _ _ Hj).
  rewrite aset_in by (unfold zlen; lia). cbn [mbind outcome_bind]. rewrite Nat2Z.id. eexists. split; [done|]. split; [|done].
  exact (quiet_set_tcbs _ _ (<[j := g t]> ts) Hv).
Qed.

Lemma view_gen_iss n ts y n' : tcp_view n ts y n' → ∃ n2, tcp_gen_iss n' = (n2, u32 (y + 64000)) ∧ tcp_view n ts (u32 (y + 64000)) n2 ∧ in_use n2 = in_use n'.
Proof.
  intros Hv. unfold tcp_gen_iss. rewrite (q_iss _ _ Hv). cbn [set_iss n_iss]. eexists. split; [done|]. split; [|done].
  exact (quiet_set_iss _ _ (u32 (y + 64000)) Hv).
Qed.

(** A control segment sent over the loopback interface. *)
Lemma view_send depth n ts y n' (j : nat) t flags i f hop :
  tcp_view n ts y n' → ts !! j = Some t → egress n (t_remote_ip t) = Ret (Some i, hop) → n_ifs n !! i = Some f → lo_if f →
  in_use n' + 1 < room (n_pool n) → is_u8 flags → is_u32 (t_remote_ip t) →
  is_u32 (if ip_is_zero (t_local_ip t) then nif_ip f else t_local_ip t) →
  ∃ n2 nb p q sent, tcp_view n (<[j := tcb_snd (seq_after (snd_nxt t) flags 0) t]> ts) y n2 ∧ in_use n2 = in_use n' + 2 ∧
    holds nb p (tcp_segment (t_local_ip t) (t_remote_ip t) (t_local_port t) (t_remote_port t) (snd_nxt t) (rcv_nxt t) flags (u16 (rcv_wnd t)) []) q ∧
    (∀ n', quiet n' (sent n') ∧ in_use (sent n') = in_use n' - 1) ∧
    tcp_send_segment (link_tx (S depth)) n' (Some (Z.of_nat j)) flags None 0 =
      (n3 ← tcp_input (link_tx depth) n2 i nb (if ip_is_zero (t_local_ip t) then nif_ip f else t_local_ip t) (t_remote_ip t); Ret (sent n3, 0)).
Proof.
  intros Hv Hj He Hf Hlo Hr Hfl Hdst Hsrc. assert (room (n_pool n') = room (n_pool n)) as Hroom by apply (q_room _ _ Hv).
  unfold tcp_send_segment. rewrite (view_get _ _ _ _ _ _ Hv Hj). cbn [mbind outcome_bind].
  destruct (tcp_build_spec n' (t_local_ip t) (t_local_port t) (t_remote_ip t) (t_remote_port t) (snd_nxt t) (rcv_nxt t) flags (u16 (rcv_wnd t)) None 0)
    as (nb & pre & E & Hnb & Hpre); [lia|done|by vm_compute|done|].
  rewrite E. cbn [mbind outcome_bind]. set (n1 := set_pool n' _).
  assert (tcp_view n ts y n1) as Hv1 by (apply (tcp_view_quiet _ _ _ n'); [done|by apply quiet_pool]).
  destruct (view_upd _ _ _ _ _ _ (tcb_snd (seq_after (snd_nxt t) flags 0)) Hv1 Hj) as (n2 & E2 & Hv2 & Hu2). rewrite E2. cbn [mbind outcome_bind].
  pose proof (tcp_view_links _ _ _ _ Hv2) as Hl2. destruct (links_if _ _ _ _ Hl2 Hf) as (f' & Hf' & Hsame).
  assert (nif_ip f' = nif_ip f) as Eip by (by rewrite Hsame).
  rewrite <-(take_drop (Z.to_nat 30) pre) in Hnb.
  destruct (lo_output depth n2 i f' hop nb _ _ _ _ (t_local_ip t) (t_remote_ip t) IP_PROTO_TCP 64 ltac:(by rewrite (egress_links _ _ _ Hl2))
              Hf' (lo_if_same _ _ Hsame Hlo) ltac:(rewrite (q_room _ _ Hv2), Hu2; exact Hr) Hnb)
    as (n3 & nb1 & p & q & sent & Hq & Hu & Hnb1 & Hsent & E3); [|by vm_compute..|by rewrite Eip|done|].
  { unfold zlen in *. rewrite length_drop. unfold NETBUF_DEFAULT_HEADROOM, ETH_HLEN, IPV4_HDR_LEN in *. lia. }
  rewrite Eip in E3. exists n3, nb1, p, q, sent. split; [by apply (tcp_view_quiet _ _ _ n2)|].
  split; [rewrite Hu, Hu2; change (in_use n1) with (in_use n' + 1); lia|]. split; [exact Hnb1|]. split; [done|exact E3].
Qed.

(** Two TCBs, and no other in use has their local ports. *)
Record tcb_pair (ts : list tcp_tcb) (a b : nat) (ta tb : tcp_tcb) (pa pb : Z) : Prop := {
  tp_len : zlen ts = TCP_TCB_MAX;
  tp_ne : a ≠ b;
  tp_a : ts !! a = Some ta;
  tp_b : ts !! b = Some tb;
  tp_ports : pa ≠ pb;
  tp_others : ∀ k t, ts !! k = Some t → k ≠ a → k ≠ b → t_in_use t = true → t_local_port t ≠ pa ∧ t_local_port t ≠ pb
}.

Lemma pair_upd_a ts a b ta tb pa pb t : tcb_pair ts a b ta tb pa pb → tcb_pair (<[a := t]> ts) a b t tb pa pb.
Proof.
  intros [Hl Hne Ha Hb Hp Ho]. split; try done.
  - by rewrite zlen_insert.
  - apply list_lookup_insert_eq, (lookup_lt_Some _ _ _ Ha).
  - by rewrite list_lookup_insert_ne.
  - intros k t' Hk Hka Hkb. rewrite list_lookup_insert_ne in Hk by done. by apply (Ho k).
Qed.

Lemma pair_upd_b ts a b ta tb pa pb t : tcb_pair ts a b ta tb pa pb → tcb_pair (<[b := t]> ts) a b ta t pa pb.
Proof.
  intros [Hl Hne Ha Hb Hp Ho]. split; try done.
  - by rewrite zlen_insert.
  - by rewrite list_lookup_insert_ne.
  - apply list_lookup_insert_eq, (lookup_lt_Some _ _ _ Hb).
  - intros k t' Hk Hka Hkb. rewrite list_lookup_insert_ne in Hk by done. by apply (Ho k).
Qed.

(** A control segment arrives for the TCB [j]. *)
Lemma view_input tx n ts y n2 i nb p q src dst sp dp seq ack flags win (j : nat) t :
  tcp_view n ts y n2 → holds nb p (tcp_segment src dst sp dp seq ack flags win []) q → is_u16 sp → is_u16 dp → is_u32 seq → is_u32 ack →
  is_u8 flags → zlen ts = TCP_TCB_MAX → ts !! j = Some t → tcb_takes t dst dp src sp →
  (∀ k t', ts !! k = Some t' → k ≠ j → t_in_use t' = true → t_local_port t' ≠ dp) →
  ∃ n3, tcp_view n (<[j := if bool_decide (t_state t = TCP_LISTEN) then tcb_peer dst src sp t else t]> ts) y n3 ∧ in_use n3 = in_use n2 ∧
    tcp_input tx n2 i nb src dst = tcp_state_machine tx n3 (Z.of_nat j) seq ack flags 0.
Proof.
  intros Hv Hnb Hsp Hdp Hseq Hack Hfl Hl Hj Ht Hu.
  rewrite (tcp_input_spec tx n2 i nb p src src dst sp dp seq ack flags win [] q Hnb) by (done || by vm_compute).
  rewrite Z.eqb_refl. assert (n_tcbs n2 = ts) as Ets by apply (q_tcbs _ _ Hv). rewrite Ets, (tcp_lookup_unique ts j t) by done.
  cbn [mbind outcome_bind]. rewrite (view_get _ _ _ _ _ _ Hv Hj). cbn [mbind outcome_bind].
  destruct (bool_decide (t_state t = TCP_LISTEN)).
  - destruct (view_upd _ _ _ _ _ _ (tcb_peer dst src sp) Hv Hj) as (n3 & E & Hv3 & Hu3). rewrite E. by exists n3.
  - exists n2. rewrite list_insert_id by done. done.
Qed.

(** Both ends are established, name each other, and agree on every sequence number. *)
Record synced (t u : tcp_tcb) : Prop := {
  sy_t : t_state t = TCP_ESTABLISHED;
  sy_u : t_state u = TCP_ESTABLISHED;
  sy_ip : t_local_ip t = t_remote_ip u ∧ t_local_ip u = t_remote_ip t;
  sy_port : t_local_port t = t_remote_port u ∧ t_local_port u = t_remote_port t;
  sy_nxt : snd_nxt t = rcv_nxt u ∧ snd_nxt u = rcv_nxt t;
  sy_una : snd_una t = snd_nxt t ∧ snd_una u = snd_nxt u
}.

(** The steps of the handshake, the last first: the listener gets the ACK. *)
Lemma listener_acked tx n ts y n' (j : nat) t seq ack :
  tcp_view n ts y n' → ts !! j = Some t → t_state t = TCP_SYN_RECEIVED →
  ∃ n2, tcp_state_machine tx n' (Z.of_nat j) seq ack TCP_F_ACK 0 = Ret n2 ∧ tcp_view n (<[j := tcb_acked ack t]> ts) y n2 ∧ in_use n2 = in_use n'.
Proof.
  intros Hv Hj Hs. unfold tcp_state_machine. rewrite (view_get _ _ _ _ _ _ Hv Hj). cbn [mbind outcome_bind]. rewrite Hs.
  change (has TCP_F_ACK TCP_F_ACK) with true. cbn beta iota. exact (view_upd _ _ _ _ _ _ (tcb_acked ack) Hv Hj).
Qed.

(** The client gets the SYN+ACK and answers it. *)
Lemma client_synack depth n ts y n' a b ta tb pa pb i f hop seq ack :
  tcp_view n ts y n' → tcb_pair ts a b ta tb pa pb → t_state tb = TCP_SYN_SENT → t_state ta = TCP_SYN_RECEIVED →
  egress n (t_remote_ip tb) = Ret (Some i, hop) → n_ifs n !! i = Some f → lo_if f → in_use n' + 1 < room (n_pool n) →
  is_u32 (t_local_ip tb) → t_local_ip tb ≠ 0 → is_u32 (t_remote_ip tb) → is_u16 (t_local_port tb) → is_u16 (t_remote_port tb) →
  is_u32 (snd_nxt tb) → tcb_takes ta (t_remote_ip tb) (t_remote_port tb) (t_local_ip tb) (t_local_port tb) →
  t_remote_port tb = pa → t_local_port tb = pb → t_in_use tb = true →
  let tb' := tcb_snd (snd_nxt tb) (tcb_synack seq ack tb) in
  let ta' := tcb_acked (u32 (seq + 1)) ta in
  ∃ n2 ts2, tcp_state_machine (link_tx (S depth)) n' (Z.of_nat b) seq ack (Z.lor TCP_F_SYN TCP_F_ACK) 0 = Ret n2 ∧
    tcp_view n ts2 y n2 ∧ tcb_pair ts2 a b ta' tb' pa pb ∧ (∀ k, k ≠ a → k ≠ b → ts2 !! k = ts !! k) ∧ in_use n2 = in_use n' + 1.
Proof.
  intros Hv Hp Hsb Hsa He Hf Hlo Hr Hlip Hnz Hrip Hlp Hrp Hsn Htk Epa Epb Hub tb' ta'. unfold tcp_state_machine.
  rewrite (view_get _ _ _ _ _ _ Hv (tp_b _ _ _ _ _ _ _ Hp)). cbn [mbind outcome_bind]. rewrite Hsb.
  change (Z.land (Z.lor TCP_F_SYN TCP_F_ACK) (Z.lor TCP_F_SYN TCP_F_ACK) =? Z.lor TCP_F_SYN TCP_F_ACK) with true. cbn beta iota.
  destruct (view_upd _ _ _ _ _ _ (tcb_synack seq ack) Hv (tp_b _ _ _ _ _ _ _ Hp)) as (n1 & E1 & Hv1 & Hu1). rewrite E1. cbn [mbind outcome_bind].
  set (tb1 := tcb_synack seq ack tb) in *. pose proof (pair_upd_b _ _ _ _ _ _ _ tb1 Hp) as Hp1.
  unfold send_. destruct (view_send depth n _ y n1 b tb1 TCP_F_ACK i f hop Hv1 (tp_b _ _ _ _ _ _ _ Hp1) He Hf Hlo) as
    (n2 & nb & p & q & sent & Hv2 & Hu2 & Hnb & Hsent & E2); [lia|by vm_compute|done|by destruct (ip_is_zero _) eqn:Ez; [apply Z.eqb_eq in Ez|]|].
  rewrite E2. assert (ip_is_zero (t_local_ip tb1) = false) as -> by (by apply Z.eqb_neq). cbn beta iota in *.
  assert (seq_after (snd_nxt tb1) TCP_F_ACK 0 = snd_nxt tb) as Esq.
  { unfold seq_after. change (has TCP_F_ACK TCP_F_SYN) with false. change (has TCP_F_ACK TCP_F_FIN) with false. cbn beta iota.
    rewrite Z.add_0_r, u32_small; done. }
  rewrite Esq in Hv2. pose proof (pair_upd_b _ _ _ _ _ _ _ tb' Hp1) as Hp2. fold tb' in Hv2.
  destruct (view_input (link_tx depth) n _ y n2 i nb p q _ _ _ _ _ _ _ _ a ta Hv2 Hnb) as (n3 & Hv3 & Hu3 & E3);
    [exact Hlp|exact Hrp|exact Hsn|apply u32_range|by vm_compute|apply (tp_len _ _ _ _ _ _ _ Hp2)|apply (tp_a _ _ _ _ _ _ _ Hp2)|exact Htk| |].
  { intros k t' Hk Hka Hut. destruct (decide (k = b)) as [->|Hkb].
    - rewrite (tp_b _ _ _ _ _ _ _ Hp2) in Hk. injection Hk as <-. change (t_local_port tb ≠ t_remote_port tb).
      pose proof (tp_ports _ _ _ _ _ _ _ Hp). congruence.
    - change (t_local_port t' ≠ t_remote_port tb). rewrite Epa. by apply (tp_others _ _ _ _ _ _ _ Hp2 k). }
  rewrite E3. rewrite bool_decide_eq_false_2 in Hv3 by congruence. rewrite list_insert_id in Hv3 by apply (tp_a _ _ _ _ _ _ _ Hp2).
  destruct (listener_acked (link_tx depth) n _ y n3 a ta (snd_nxt tb1) (rcv_nxt tb1) Hv3 (tp_a _ _ _ _ _ _ _ Hp2) Hsa) as (n4 & E4 & Hv4 & Hu4).
  rewrite E4. cbn [mbind outcome_bind]. destruct (Hsent n4) as [Hq5 Hu5]. eexists (sent n4), _. split; [done|].
  split; [exact (tcp_view_quiet _ _ _ _ _ Hv4 Hq5)|]. split; [exact (pair_upd_a _ _ _ _ _ _ _ ta' Hp2)|].
  split; [intros k Hka Hkb; by rewrite !list_lookup_insert_ne by done|]. lia.
Qed.

(** The listener, already given the peer, gets the SYN and answers it. *)
Lemma listener_syn depth n ts y n' a b ta tb pa pb i f hop hop' seq ack :
  tcp_view n ts y n' → tcb_pair ts a b ta tb pa pb → t_state ta = TCP_LISTEN → t_state tb = TCP_SYN_SENT →
  egress n (t_remote_ip tb) = Ret (Some i, hop) → egress n (t_local_ip tb) = Ret (Some i, hop') →
  n_ifs n !! i = Some f → lo_if f → in_use n' + 3 < room (n_pool n) →
  is_u32 (t_local_ip tb) → t_local_ip tb ≠ 0 → is_u32 (t_remote_ip tb) → t_remote_ip tb ≠ 0 → is_u16 (t_local_port tb) → is_u16 (t_remote_port tb) →
  is_u32 (snd_nxt tb) → is_u32 seq →
  t_local_ip ta = t_remote_ip tb → t_local_port ta = t_remote_port tb → t_remote_ip ta = t_local_ip tb → t_remote_port ta = t_local_port tb →
  t_remote_port tb = pa → t_local_port tb = pb → t_in_use ta = true → t_in_use tb = true → snd_nxt tb = u32 (seq + 1) →
  ∃ n2 ts2 y2 ta2 tb2, tcp_state_machine (link_tx (S (S depth))) n' (Z.of_nat a) seq ack TCP_F_SYN 0 = Ret n2 ∧
    tcp_view n ts2 y2 n2 ∧ tcb_pair ts2 a b ta2 tb2 pa pb ∧ synced ta2 tb2 ∧
    (∀ k, k ≠ a → k ≠ b → ts2 !! k = ts !! k) ∧ in_use n2 = in_use n' + 2.
Proof.
  intros Hv Hp Hsa Hsb He He' Hf Hlo Hr Hlip Hlnz Hrip Hrnz Hlp Hrp Hsn Hseq Eip Eport Erip Erport Epa Epb Hua Hub Esn. unfold tcp_state_machine.
  rewrite (view_get _ _ _ _ _ _ Hv (tp_a _ _ _ _ _ _ _ Hp)). cbn [mbind outcome_bind]. rewrite Hsa. change (has TCP_F_SYN TCP_F_SYN) with true. cbn beta iota.
  destruct (view_gen_iss _ _ _ _ Hv) as (n1 & E1 & Hv1 & Hu1). rewrite E1. set (y1 := u32 (y + 64000)) in *.
  destruct (view_upd _ _ _ _ _ _ (tcb_passive seq y1) Hv1 (tp_a _ _ _ _ _ _ _ Hp)) as (n2 & E2 & Hv2 & Hu2). rewrite E2. cbn [mbind outcome_bind].
  set (ta1 := tcb_passive seq y1 ta) in *. pose proof (pair_upd_a _ _ _ _ _ _ _ ta1 Hp) as Hp1.
  unfold send_. destruct (view_send (S depth) n _ y1 n2 a ta1 (Z.lor TCP_F_SYN TCP_F_ACK) i f hop' Hv2 (tp_a _ _ _ _ _ _ _ Hp1)) as
    (n3 & nb & p & q & sent & Hv3 & Hu3 & Hnb & Hsent & E3);
    [change (egress n (t_remote_ip ta) = Ret (Some i, hop')); by rewrite Erip|done|done|lia|by vm_compute|change (is_u32 (t_remote_ip ta)); by rewrite Erip
    |change (is_u32 (if ip_is_zero (t_local_ip ta) then nif_ip f else t_local_ip ta)); rewrite Eip; unfold ip_is_zero; by rewrite (proj2 (Z.eqb_neq _ 0))|].
  rewrite E3. assert (ip_is_zero (t_local_ip ta1) = false) as -> by (apply Z.eqb_neq; change (t_local_ip ta ≠ 0); congruence). cbn beta iota.
  set (ta2 := tcb_snd (seq_after (snd_nxt ta1) (Z.lor TCP_F_SYN TCP_F_ACK) 0) ta1) in *.
  assert (snd_nxt ta2 = u32 (y1 + 1)) as Esn2.
  { change (u32 (u32 (y1 + 1) + 0) = u32 (y1 + 1)). rewrite Z.add_0_r. apply u32_small, u32_range. }
  pose proof (pair_upd_a _ _ _ _ _ _ _ ta2 Hp1) as Hp2.
  change (t_local_ip ta1) with (t_local_ip ta) in *. change (t_remote_ip ta1) with (t_remote_ip ta) in *.
  change (t_local_port ta1) with (t_local_port ta) in *. change (t_remote_port ta1) with (t_remote_port ta) in *.
  rewrite Eip, Erip, Eport, Erport in *.
  destruct (view_input (link_tx (S depth)) n _ y1 n3 i nb p q _ _ _ _ _ _ _ _ b tb Hv3 Hnb) as (n4 & Hv4 & Hu4 & E4);
    [exact Hrp|exact Hlp|apply u32_range|apply u32_range|by vm_compute|apply (tp_len _ _ _ _ _ _ _ Hp2)|apply (tp_b _ _ _ _ _ _ _ Hp2)
    |split_and!; auto| |].
  { intros k t' Hk Hkb Hut. destruct (decide (k = a)) as [->|Hka].
    - rewrite (tp_a _ _ _ _ _ _ _ Hp2) in Hk. injection Hk as <-. change (t_local_port ta ≠ t_local_port tb).
      pose proof (tp_ports _ _ _ _ _ _ _ Hp). congruence.
    - rewrite Epb. by apply (tp_others _ _ _ _ _ _ _ Hp2 k). }
  rewrite E4. rewrite bool_decide_eq_false_2 in Hv4 by congruence. rewrite list_insert_id in Hv4 by apply (tp_b _ _ _ _ _ _ _ Hp2).
  destruct (client_synack depth n _ y1 n4 a b ta2 tb pa pb i f hop (snd_nxt ta1) (rcv_nxt ta1) Hv4 Hp2 Hsb eq_refl He Hf Hlo) as
    (n5 & ts5 & E5 & Hv5 & Hp5 & Hk5 & Hu5); [lia|done|done|done|done|done|done| |done|done|done|].
  { split_and!; [done|exact Eport|right; exact Eip|right; split; [exact Erport|exact Erip]]. }
  rewrite E5. cbn [mbind outcome_bind]. destruct (Hsent n5) as [Hq6 Hu6].
  eexists (sent n5), ts5, y1, _, _. split; [done|]. split; [exact (tcp_view_quiet _ _ _ _ _ Hv5 Hq6)|]. split; [exact Hp5|].
  split; [|split; [intros k Hka Hkb; rewrite Hk5 by done; by rewrite !list_lookup_insert_ne by done|lia]].
  split; cbn [tcb_acked tcb_snd tcb_synack t_state t_local_ip t_remote_ip t_local_port t_remote_port snd_nxt rcv_nxt snd_una]; try done.
Qed.

(** C8. The three-way handshake: connecting from a named address over an interface
    that loops back to a TCB that listens on the destination ends, within the one call,
    with both ends established, naming each other and agreeing on all sequence numbers;
    no other TCB changes. *)
Theorem tcp_handshake depth n ts a b ta tb lip lp rip rp i f hop hop' :
  n_tcbs n = ts → tcb_pair ts a b ta tb rp lp → t_state ta = TCP_LISTEN → t_in_use ta = true → t_in_use tb = true →
  t_local_port ta = rp → t_local_ip ta = 0 ∨ t_local_ip ta = rip →
  egress n rip = Ret (Some i, hop) → egress n lip = Ret (Some i, hop') → n_ifs n !! i = Some f → lo_if f → in_use n + 5 < room (n_pool n) →
  is_u32 lip → lip ≠ 0 → is_u32 rip → rip ≠ 0 → is_u16 lp → is_u16 rp →
  ∃ n' ts' y ta' tb', tcp_connect (link_tx (S (S (S depth)))) n (Some (Z.of_nat b)) lip lp rip rp = Ret (n', 0) ∧
    quiet (set_iss (set_tcbs n ts') y) n' ∧ ts' !! a = Some ta' ∧ ts' !! b = Some tb' ∧ synced ta' tb' ∧
    (∀ k, k ≠ a → k ≠ b → ts' !! k = ts !! k) ∧ in_use n' = in_use n + 3.
Proof.
  intros Ets Hp Hsa Hua Hub Eport Hip He He' Hf Hlo Hr Hlip Hlnz Hrip Hrnz Hlp Hrp. unfold tcp_connect.
  assert (tcp_view n ts (n_iss n) n) as Hv by (subst ts; apply tcp_view_refl).
  destruct (view_gen_iss _ _ _ _ Hv) as (n1 & E1 & Hv1 & Hu1). rewrite E1. set (y := u32 (n_iss n + 64000)) in *.
  destruct (view_upd _ _ _ _ _ _ (tcb_open lip lp rip rp y) Hv1 (tp_b _ _ _ _ _ _ _ Hp)) as (n2 & E2 & Hv2 & Hu2). rewrite E2. cbn [mbind outcome_bind].
  set (tb1 := tcb_open lip lp rip rp y tb) in *. pose proof (pair_upd_b _ _ _ _ _ _ _ tb1 Hp) as Hp1.
  destruct (view_send (S (S depth)) n _ y n2 b tb1 TCP_F_SYN i f hop Hv2 (tp_b _ _ _ _ _ _ _ Hp1) He Hf Hlo) as
    (n3 & nb & p & q & sent & Hv3 & Hu3 & Hnb & Hsent & E3);
    [lia|by vm_compute|done|change (is_u32 (if ip_is_zero lip then nif_ip f else lip)); unfold ip_is_zero; by rewrite (proj2 (Z.eqb_neq _ 0))|].
  rewrite E3. assert (ip_is_zero (t_local_ip tb1) = false) as -> by (by apply Z.eqb_neq). cbn beta iota.
  set (tb2 := tcb_snd (seq_after (snd_nxt tb1) TCP_F_SYN 0) tb1) in *. pose proof (pair_upd_b _ _ _ _ _ _ _ tb2 Hp1) as Hp2.
  assert (snd_nxt tb2 = u32 (y + 1)) as Esn.
  { change (u32 (u32 (y + 1) + 0) = u32 (y + 1)). rewrite Z.add_0_r. apply u32_small, u32_range. }
  change (snd_nxt tb1) with y in *. change (t_local_ip tb1) with lip in *. change (t_remote_ip tb1) with rip in *.
  change (t_local_port tb1) with lp in *. change (t_remote_port tb1) with rp in *.
  destruct (view_input (link_tx (S (S depth))) n _ y n3 i nb p q _ _ _ _ _ _ _ _ a ta Hv3 Hnb) as (n4 & Hv4 & Hu4 & E4);
    [exact Hlp|exact Hrp|apply u32_range|by vm_compute|by vm_compute|apply (tp_len _ _ _ _ _ _ _ Hp2)|apply (tp_a _ _ _ _ _ _ _ Hp2)|split_and!; auto| |].
  { intros k t' Hk Hka Hut. destruct (decide (k = b)) as [->|Hkb].
    - rewrite (tp_b _ _ _ _ _ _ _ Hp2) in Hk. injection Hk as <-. change (lp ≠ rp). pose proof (tp_ports _ _ _ _ _ _ _ Hp). congruence.
    - by apply (tp_others _ _ _ _ _ _ _ Hp2 k). }
  rewrite E4. rewrite bool_decide_eq_true_2 in Hv4 by done. set (ta1 := tcb_peer rip lip lp ta) in *. pose proof (pair_upd_a _ _ _ _ _ _ _ ta1 Hp2) as Hp3.
  destruct (listener_syn depth n _ y n4 a b ta1 tb2 rp lp i f hop hop' y (rcv_nxt tb1) Hv4 Hp3 Hsa eq_refl He He' Hf Hlo) as
    (n5 & ts5 & y5 & ta5 & tb5 & E5 & Hv5 & Hp5 & Hsy & Hk5 & Hu5); try (exact eq_refl); try assumption; [lia|rewrite Esn; apply u32_range|apply u32_range|].
  rewrite E5. cbn [mbind outcome_bind]. destruct (Hsent n5) as [Hq6 Hu6].
  exists (sent n5), ts5, y5, ta5, tb5. split; [done|]. split; [exact (tcp_view_quiet _ _ _ _ _ Hv5 Hq6)|].
  split; [apply (tp_a _ _ _ _ _ _ _ Hp5)|]. split; [apply (tp_b _ _ _ _ _ _ _ Hp5)|]. split; [exact Hsy|].
  split; [intros k Hka Hkb; rewrite Hk5 by done; by rewrite !list_lookup_insert_ne by done|lia].
Qed.

(** C31. A connection from an unnamed local address, as [sock_connect] opens one for an
    unbound stream socket, cannot be made: the checksum of the SYN is computed for the
    source 0.0.0.0 while the packet carries the interface's address, and the receiver
    drops it, whatever listens. The call returns 0, and the TCB stays in SYN_SENT. *)
Theorem tcp_connect_any_dropped depth n (b : nat) tb lp rip rp i f hop :
  n_tcbs n !! b = Some tb → egress n rip = Ret (Some i, hop) → n_ifs n !! i = Some f → lo_if f → in_use n + 1 < room (n_pool n) →
  is_u32 rip → is_u32 (nif_ip f) → wsum (le32 (nif_ip f)) mod 65535 ≠ 0 → is_u16 lp → is_u16 rp →
  ∃ n' y, tcp_connect (link_tx (S depth)) n (Some (Z.of_nat b)) IP_ADDR_ANY lp rip rp = Ret (n', 0) ∧
    quiet (set_iss (set_tcbs n (<[b := tcb_snd (u32 (y + 1)) (tcb_open IP_ADDR_ANY lp rip rp y tb)]> (n_tcbs n))) y) n'.
Proof.
  intros Hb He Hf Hlo Hr Hrip Hip Hw Hlp Hrp. unfold tcp_connect. set (ts := n_tcbs n) in *.
  assert (tcp_view n ts (n_iss n) n) as Hv by apply tcp_view_refl.
  destruct (view_gen_iss _ _ _ _ Hv) as (n1 & E1 & Hv1 & Hu1). rewrite E1. set (y := u32 (n_iss n + 64000)) in *.
  destruct (view_upd _ _ _ _ _ _ (tcb_open IP_ADDR_ANY lp rip rp y) Hv1 Hb) as (n2 & E2 & Hv2 & Hu2). rewrite E2. cbn [mbind outcome_bind].
  set (tb1 := tcb_open IP_ADDR_ANY lp rip rp y tb) in *. pose proof (lookup_lt_Some _ _ _ Hb) as Hlt.
  destruct (view_send depth n _ y n2 b tb1 TCP_F_SYN i f hop Hv2 (list_lookup_insert_eq _ _ _ Hlt) He Hf Hlo) as
    (n3 & nb & p & q & sent & Hv3 & Hu3 & Hnb & Hsent & E3); [lia|by vm_compute|done|exact Hip|].
  rewrite E3. change (ip_is_zero (t_local_ip tb1)) with true. cbn beta iota.
  rewrite (tcp_input_spec _ n3 i nb p _ _ _ _ _ _ _ _ _ _ q Hnb);
    [|exact Hlp|exact Hrp|apply u32_range|by vm_compute|by vm_compute|apply Forall_nil_2|by vm_compute].
  change (wsum (le32 (t_local_ip tb1)) mod 65535) with 0. rewrite (proj2 (Z.eqb_neq 0 _)) by congruence. cbn [mbind outcome_bind].
  destruct (Hsent n3) as [Hq4 _]. exists (sent n3), y. split; [done|]. etrans; [|exact Hq4].
  rewrite list_insert_insert_eq in Hv3. change (seq_after (snd_nxt tb1) TCP_F_SYN 0) with (u32 (u32 (y + 1) + 0)) in Hv3.
  rewrite Z.add_0_r, (u32_small (u32 _)) in Hv3 by apply u32_range. exact Hv3.
Qed.

End Handshake.

(** ** Examples *)

Definition no_tcb : tcp_tcb := mk_tcb false TCP_CLOSED 0 0 0 0 0 0 0 0 0 0 0.
Definition example_tcp : net := example_net [] (tcb_listen 0 80 fresh_tcb :: fresh_tcb :: replicate 6 no_tcb) [].

Lemma example_pair : tcb_pair (n_tcbs example_tcp) 0 1 (tcb_listen 0 80 fresh_tcb) fresh_tcb 80 5000.
Proof.
  split; try done. intros k t Hk Hk0 Hk1 Hu. destruct k as [|[|k]]; [done..|]. cbn [n_tcbs example_tcp example_net] in Hk.
  change (replicate 6 no_tcb !! k = Some t) in Hk. apply lookup_replicate in Hk as [-> _]. done.
Qed.

Lemma tcp_handshake_witness :
  ∃ n' ts' y ta tb, @tcp_connect example_kmem (@link_tx example_kmem 3) example_tcp (Some 1) IP_ADDR_LOOPBACK 5000 IP_ADDR_LOOPBACK 80 = Ret (n', 0) ∧
    quiet (set_iss (set_tcbs example_tcp ts') y) n' ∧ ts' !! 0%nat = Some ta ∧ ts' !! 1%nat = Some tb ∧ synced ta tb.
Proof.
  destruct (@tcp_handshake example_kmem example_kmem_ok 0 example_tcp _ 0 1 _ _ IP_ADDR_LOOPBACK 5000 IP_ADDR_LOOPBACK 80 LO example_lo
              IP_ADDR_LOOPBACK IP_ADDR_LOOPBACK eq_refl example_pair) as (n' & ts' & y & ta & tb & E & Hq & Ha & Hb & Hs & _);
    [done|done|done|done|by left|by vm_compute|by vm_compute|done|exact example_lo_if|by vm_compute..|].
  exists n', ts', y, ta, tb. exact (conj E (conj Hq (conj Ha (conj Hb Hs)))).
Defined.

Lemma tcp_connect_any_dropped_witness :
  ∃ n' y, @tcp_connect example_kmem (@link_tx example_kmem 1) example_tcp (Some 1) IP_ADDR_ANY 5000 IP_ADDR_LOOPBACK 80 = Ret (n', 0) ∧
    quiet (set_iss (set_tcbs example_tcp (<[1%nat := tcb_snd (u32 (y + 1)) (tcb_open IP_ADDR_ANY 5000 IP_ADDR_LOOPBACK 80 y fresh_tcb)]>
                                          (n_tcbs example_tcp))) y) n'.
Proof.
  apply (@tcp_connect_any_dropped example_kmem example_kmem_ok 0 example_tcp 1 fresh_tcb 5000 IP_ADDR_LOOPBACK 80 LO example_lo IP_ADDR_LOOPBACK);
    [done|by vm_compute|done|exact example_lo_if|by vm_compute..].
Defined.
