(* ===== verification/Safe.v ===== *)
(** Memory safety of the receive path, part one: reads and writes of packet
    memory, and the data the stack keeps. [safe L m Q] says that [m] makes no
    access outside an object and does not panic, that what it returns satisfies
    [Q], and that it runs out of its bound only if [L]. *)

From S2P Require Import Prelude CString NetBase Netbuf NetIf Arp Ipv4 Icmp Udp Tcp Dns Dhcp Socket Net.

Definition safe {A} (L : Prop) (m : outcome A) (Q : A → Prop) : Prop :=
  match m with Ret a => Q a | Loop => L | Panic | Fault => False end.

Lemma safe_bind {A B} L (m : outcome A) (f : A → outcome B) P Q :
  safe L m P → (∀ a, P a → safe L (f a) Q) → safe L (m ≫= f) Q.
Proof. destruct m; cbn; auto. Qed.

Lemma safe_mono {A} L (m : outcome A) (P Q : A → Prop) : safe L m P → (∀ a, P a → Q a) → safe L m Q.
Proof. destruct m; cbn; auto. Qed.

(** Use a lemma about the first step, and go on with what it gives. *)
Ltac sstep H := eapply safe_bind; [eapply H|].

Section Bytes.
Context (L : Prop).
Implicit Types b : list Z.

Definition same_size b b' : Prop := bytes b' ∧ zlen b' = zlen b.

Lemma aget_safe b p : bytes b → 0 ≤ p < zlen b → safe L (aget b p) is_u8.
Proof. intros Hb Hp. destruct (aget_in b p Hp) as (x & Hx & ->). apply (Forall_lookup_1 _ _ _ _ Hb Hx). Qed.

Lemma aset_safe b p v : bytes b → is_u8 v → 0 ≤ p < zlen b → safe L (aset b p v) (same_size b).
Proof. intros Hb Hv Hp. rewrite aset_in by done. split; [by apply Forall_insert|apply zlen_insert]. Qed.

Lemma same_size_trans b b1 b2 : same_size b b1 → same_size b1 b2 → same_size b b2.
Proof. intros [H1 E1] [H2 E2]. split; [done|congruence]. Qed.

Lemma wr_bind b b1 (m : outcome (list Z)) f :
  safe L m (same_size b1) → same_size b b1 → (∀ b2, same_size b b2 → safe L (f b2) (same_size b)) → safe L (m ≫= f) (same_size b).
Proof. intros Hm Hb Hf. eapply safe_bind; [exact Hm|]. intros b2 Hb2. apply Hf. by eapply same_size_trans. Qed.

Lemma put_be16_safe b p v : bytes b → 0 ≤ p → p + 2 ≤ zlen b → safe L (net_put_be16 b p v) (same_size b).
Proof.
  intros Hb Hp Hl. unfold net_put_be16. sstep aset_safe; [done|apply u8_range|lia|]. intros b1 [Hb1 E1].
  eapply safe_mono; [apply aset_safe; [done|apply u8_range|lia]|]. intros b2 [Hb2 E2]. split; [done|congruence].
Qed.

Lemma put_u16_safe b p v : bytes b → 0 ≤ p → p + 2 ≤ zlen b → safe L (put_u16 b p v) (same_size b).
Proof.
  intros Hb Hp Hl. unfold put_u16. sstep aset_safe; [done|apply u8_range|lia|]. intros b1 [Hb1 E1].
  eapply safe_mono; [apply aset_safe; [done|apply u8_range|lia]|]. intros b2 [Hb2 E2]. split; [done|congruence].
Qed.

Lemma put_be32_safe b p v : bytes b → 0 ≤ p → p + 4 ≤ zlen b → safe L (net_put_be32 b p v) (same_size b).
Proof.
  intros Hb Hp Hl. unfold net_put_be32. sstep aset_safe; [done|apply u8_range|lia|]. intros b1 [Hb1 E1].
  sstep aset_safe; [done|apply u8_range|lia|]. intros b2 [Hb2 E2]. sstep aset_safe; [done|apply u8_range|lia|]. intros b3 [Hb3 E3].
  eapply safe_mono; [apply aset_safe; [done|apply u8_range|lia]|]. intros b4 [Hb4 E4]. split; [done|congruence].
Qed.

Lemma put_u32_safe b p v : bytes b → 0 ≤ p → p + 4 ≤ zlen b → safe L (put_u32 b p v) (same_size b).
Proof.
  intros Hb Hp Hl. unfold put_u32. sstep aset_safe; [done|apply u8_range|lia|]. intros b1 [Hb1 E1].
  sstep aset_safe; [done|apply u8_range|lia|]. intros b2 [Hb2 E2]. sstep aset_safe; [done|apply u8_range|lia|]. intros b3 [Hb3 E3].
  eapply safe_mono; [apply aset_safe; [done|apply u8_range|lia]|]. intros b4 [Hb4 E4]. split; [done|congruence].
Qed.

Lemma memcpy_safe dst p src q n :
  bytes dst → bytes src → 0 ≤ p → 0 ≤ n → p + n ≤ zlen dst → 0 ≤ q → q + n ≤ zlen src → safe L (memcpy_from dst p src q n) (same_size dst).
Proof.
  intros Hd Hs Hp Hn Hpd Hq Hqs. rewrite memcpy_from_spec by done. split.
  - unfold zsplice. apply bytes_app. split; [by apply Forall_take|]. apply bytes_app. split; [by apply bytes_zslice|by apply Forall_drop].
  - apply zlen_zsplice; [done|]. rewrite zlen_zslice; lia.
Qed.

Lemma memset_safe b p n : bytes b → 0 ≤ p → 0 ≤ n → p + n ≤ zlen b → safe L (memset b p 0 n) (same_size b).
Proof.
  intros Hb Hp Hn Hl. rewrite memset_spec by done. split.
  - unfold zsplice. apply bytes_app. split; [by apply Forall_take|]. apply bytes_app. split; [by apply Forall_replicate|by apply Forall_drop].
  - apply zlen_zsplice; [done|]. rewrite zlen_replicate. lia.
Qed.

Lemma get_be16_safe b p : bytes b → 0 ≤ p → p + 2 ≤ zlen b → safe L (net_get_be16 b p) is_u16.
Proof.
  intros Hb Hp Hl. unfold net_get_be16. sstep aget_safe; [done|lia|]. intros x _. sstep aget_safe; [done|lia|]. intros y _. apply u16_range.
Qed.

Lemma get_u16_safe b p : bytes b → 0 ≤ p → p + 2 ≤ zlen b → safe L (get_u16 b p) is_u16.
Proof.
  intros Hb Hp Hl. unfold get_u16. sstep aget_safe; [done|lia|]. intros x Hx. sstep aget_safe; [done|lia|]. intros y Hy. cbn [safe].
  unfold is_u8, is_u16 in *. rewrite lor_add_shift by lia. lia.
Qed.

Lemma get_be32_safe b p : bytes b → 0 ≤ p → p + 4 ≤ zlen b → safe L (net_get_be32 b p) is_u32.
Proof.
  intros Hb Hp Hl. unfold net_get_be32. sstep aget_safe; [done|lia|]. intros x Hx. sstep aget_safe; [done|lia|]. intros y Hy.
  sstep aget_safe; [done|lia|]. intros z Hz. sstep aget_safe; [done|lia|]. intros w Hw. cbn [safe]. rewrite be32_join by done.
  unfold bytes32, is_u8, is_u32 in *. lia.
Qed.

Lemma get_u32_safe b p : bytes b → 0 ≤ p → p + 4 ≤ zlen b → safe L (get_u32 b p) is_u32.
Proof.
  intros Hb Hp Hl. unfold get_u32. sstep aget_safe; [done|lia|]. intros x Hx. sstep aget_safe; [done|lia|]. intros y Hy.
  sstep aget_safe; [done|lia|]. intros z Hz. sstep aget_safe; [done|lia|]. intros w Hw. cbn [safe].
  unfold is_u8, is_u32 in *. rewrite (lor_add_shift y x 8), (lor_add_shift z _ 16), (lor_add_shift w _ 24) by lia. lia.
Qed.

(** *** Checksums *)

Lemma csum_loop_safe fuel : ∀ b p len sum,
  bytes b → 0 ≤ p → len ≤ Z.of_nat fuel → p + len ≤ zlen b → is_u32 sum → safe L (csum_loop fuel b p len sum) is_u32.
Proof.
  induction fuel as [|fuel IH]; intros b p len sum Hb Hp Hf Hl Hs; cbn [csum_loop].
  - rewrite (proj2 (Z.ltb_ge _ _)) by lia. rewrite (proj2 (Z.eqb_neq _ _)) by lia. done.
  - destruct (Z.ltb_spec 1 len).
    + sstep aget_safe; [done|lia|]. intros x _. sstep aget_safe; [done|lia|]. intros y _. apply IH; [done|lia|lia|lia|apply u32_range].
    + destruct (Z.eqb_spec len 1); [|done]. sstep aget_safe; [done|lia|]. intros x _. apply u32_range.
Qed.

Lemma csum_partial_safe b p len sum :
  bytes b → 0 ≤ p → p + len ≤ zlen b → is_u32 sum → safe L (net_csum_partial b p len sum) is_u32.
Proof. intros. apply csum_loop_safe; try done. lia. Qed.

Lemma csum_fold_safe s : is_u32 s → safe L (net_csum_fold s) is_u16.
Proof. intros Hs. rewrite net_csum_fold_spec by done. apply bswap16_range. Qed.

Lemma checksum_safe b p len : bytes b → 0 ≤ p → p + len ≤ zlen b → safe L (net_checksum b p len) is_u16.
Proof.
  intros. unfold net_checksum. sstep csum_partial_safe; [done..|by vm_compute|]. intros s Hs. by apply csum_fold_safe.
Qed.

Lemma transport_safe src dst proto b p len :
  bytes b → 0 ≤ p → p + len ≤ zlen b → safe L (net_transport_checksum src dst proto b p len) is_u16.
Proof.
  intros. unfold net_transport_checksum, net_pseudo_header_sum.
  eapply (safe_bind _ _ _ is_u32).
  { sstep csum_partial_safe; [apply bytes_le32|done|done|by vm_compute|]. intros s Hs.
    sstep csum_partial_safe; [apply bytes_le32|done|done|done|]. intros s' Hs'. apply u32_range. }
  intros s Hs. sstep csum_partial_safe; [done..|]. intros s' Hs'. by apply csum_fold_safe.
Qed.

End Bytes.

(** ** Buffers *)

Record nb_ok (B : Z) (nb : netbuf) : Prop := {
  no_bytes : bytes (nb_buf nb);
  no_data : 0 ≤ nb_data nb;
  no_order : nb_data nb ≤ nb_tail nb;
  no_tail : nb_tail nb ≤ zlen (nb_buf nb);
  no_size : zlen (nb_buf nb) ≤ B
}.

(** Sizes of the buffers received and of those sent. *)
Definition RX_MAX : Z := 2 ^ 62.
Definition TX_MAX : Z := 2 ^ 20.

Section Buffers.
Context (L : Prop).

Lemma nb_len B nb : nb_ok B nb → B ≤ RX_MAX → netbuf_len nb = nb_tail nb - nb_data nb.
Proof. intros [] Hb. unfold netbuf_len, RX_MAX in *. apply u64_small. lia. Qed.

Lemma nb_ok_buf B nb b : nb_ok B nb → same_size (nb_buf nb) b → nb_ok B (with_buf nb b).
Proof. intros [] [Hb E]. by split; cbn [with_buf nb_buf nb_data nb_tail]; rewrite ?E. Qed.

Lemma nb_ok_ptrs B nb d t : nb_ok B nb → 0 ≤ d → d ≤ t → t ≤ zlen (nb_buf nb) → nb_ok B (with_ptrs nb d t).
Proof. intros []. by split. Qed.

Lemma nb_ok_eth B nb p : nb_ok B nb → nb_ok B (with_eth nb p).
Proof. intros []. by split. Qed.
Lemma nb_ok_net B nb p : nb_ok B nb → nb_ok B (with_net nb p).
Proof. intros []. by split. Qed.
Lemma nb_ok_netif B nb i : nb_ok B nb → nb_ok B (with_netif nb i).
Proof. intros []. by split. Qed.

Lemma push_safe B nb len nb' r :
  nb_ok B nb → B ≤ RX_MAX → 0 ≤ len → netbuf_push nb len = (nb', r) →
  nb_ok B nb' ∧ nb_buf nb' = nb_buf nb ∧ match r with Some p => p = nb_data nb' ∧ 0 ≤ p ∧ p + len ≤ zlen (nb_buf nb) | None => True end.
Proof.
  intros Hok Hb Hl. pose proof Hok as []. unfold netbuf_push, netbuf_headroom, RX_MAX in *. rewrite u64_small by lia.
  destruct (Z.ltb_spec (nb_data nb) len); intros [= <- <-]; [done|]. split; [apply nb_ok_ptrs; [done|lia..]|]. split; [done|].
  split; [done|lia].
Qed.

Lemma put_safe B nb len nb' r :
  nb_ok B nb → B ≤ RX_MAX → 0 ≤ len → netbuf_put nb len = (nb', r) →
  nb_ok B nb' ∧ nb_buf nb' = nb_buf nb ∧ nb_data nb' = nb_data nb ∧
  match r with Some p => p = nb_tail nb ∧ 0 ≤ p ∧ p + len ≤ zlen (nb_buf nb) ∧ nb_tail nb' = p + len | None => nb_tail nb' = nb_tail nb end.
Proof.
  intros Hok Hb Hl. pose proof Hok as []. unfold netbuf_put, netbuf_tailroom, nb_end, RX_MAX in *. rewrite u64_small by lia.
  destruct (Z.ltb_spec (zlen (nb_buf nb) - nb_tail nb) len); intros [= <- <-]; [done|]. split; [apply nb_ok_ptrs; [done|lia..]|].
  split; [done|]. split; [done|]. split; [done|]. split; [lia|]. split; [lia|done].
Qed.

Lemma pull_safe B nb len : nb_ok B nb → B ≤ RX_MAX → 0 ≤ len → nb_ok B (netbuf_pull nb len).1 ∧ nb_buf (netbuf_pull nb len).1 = nb_buf nb.
Proof.
  intros Hok Hb Hl. pose proof Hok as []. unfold netbuf_pull. rewrite (nb_len B) by done.
  destruct (Z.ltb_spec (nb_tail nb - nb_data nb) len); cbn [fst]; [done|]. split; [apply nb_ok_ptrs; [done|lia..]|done].
Qed.

Lemma trim_safe B nb len : nb_ok B nb → B ≤ RX_MAX → 0 ≤ len → nb_ok B (netbuf_trim nb len) ∧ nb_buf (netbuf_trim nb len) = nb_buf nb.
Proof.
  intros Hok Hb Hl. pose proof Hok as []. unfold netbuf_trim. rewrite (nb_len B) by done.
  destruct (Z.ltb_spec len (nb_tail nb - nb_data nb)); [|done]. split; [apply nb_ok_ptrs; [done|lia..]|done].
Qed.

Lemma eth_build_safe B nb dst src ty :
  nb_ok B nb → B ≤ RX_MAX → mac dst → mac src → safe L (eth_build nb dst src ty) (λ r, nb_ok B r.1).
Proof.
  intros Hok Hb [Hd Bd] [Hs Bs]. unfold eth_build. destruct (netbuf_push nb ETH_HLEN) as [nb' r] eqn:E.
  destruct (push_safe B nb ETH_HLEN nb' r Hok Hb ltac:(done) E) as (Hok' & Eb & Hr). destruct r as [p|]; [|done]. destruct Hr as (-> & Hp & Hpl).
  rewrite Eb. unfold ETH_HLEN, ETH_ALEN in *. assert (zlen dst = 6 ∧ zlen src = 6) as [Zd Zs] by (unfold zlen; lia).
  pose proof (no_bytes _ _ Hok) as Bb.
  eapply (safe_bind _ _ _ (λ b, same_size (nb_buf nb) b)); [apply memcpy_safe; (done || lia)|]. intros b1 [B1 E1].
  eapply (safe_bind _ _ _ (λ b, same_size b1 b)); [apply memcpy_safe; (done || lia)|]. intros b2 [B2 E2].
  eapply (safe_bind _ _ _ (λ b, same_size b2 b)); [apply put_be16_safe; (done || lia)|]. intros b3 [B3 E3].
  cbn [safe fst]. apply nb_ok_eth, (nb_ok_buf B nb' b3); [done|]. split; [done|]. rewrite Eb. congruence.
Qed.

Lemma eth_parse_safe B nb : nb_ok B nb → B ≤ RX_MAX → safe L (eth_parse nb) (λ r, nb_ok B r.1).
Proof.
  intros Hok Hb. unfold eth_parse. rewrite (nb_len B) by done. destruct (Z.ltb_spec (nb_tail nb - nb_data nb) ETH_HLEN); [done|].
  pose proof (nb_ok_eth B nb (nb_data nb) Hok) as Hok'. destruct eth_zero_mac as [_ B0]. pose proof Hok as [].
  unfold ETH_HLEN, ETH_ALEN in *. cbn [with_eth nb_buf].
  sstep memcpy_safe; (done || (try lia)). intros d _. sstep memcpy_safe; (done || (try lia)). intros s _.
  sstep get_be16_safe; [done|lia|lia|]. intros ty _. cbn [safe fst]. by apply pull_safe.
Qed.

Lemma alloc_safe `{KmemOk} k cap head k' r :
  0 ≤ cap → 0 ≤ head → cap + head ≤ 2 ^ 62 → netbuf_alloc_headroom k cap head = (k', r) →
  match r with
  | Some nb => bytes (nb_buf nb) ∧ nb_data nb = head ∧ nb_tail nb = head ∧ zlen (nb_buf nb) = Z.max 1 (cap + head)
  | None => True
  end.
Proof.
  intros Hc Hh Hl. unfold netbuf_alloc_headroom. rewrite u64_small by lia. destruct (live k <? room k); intros [= <- <-]; [|done].
  cbn [nb_buf nb_data nb_tail]. destruct (Z.eqb_spec (cap + head) 0).
  - destruct (kmem_ok 1 ltac:(lia)) as [E B]. rewrite E. split; [done|]. split; [done|]. split; [done|]. lia.
  - destruct (kmem_ok (cap + head) ltac:(lia)) as [E B]. rewrite E. split; [done|]. split; [done|]. split; [done|]. lia.
Qed.

Lemma alloc_nb_ok `{KmemOk} B k cap head k' nb :
  0 ≤ cap → 0 ≤ head → cap + head ≤ B → 1 ≤ B → B ≤ RX_MAX → netbuf_alloc_headroom k cap head = (k', Some nb) → nb_ok B nb.
Proof.
  intros Hc Hh Hl H1 Hb E. pose proof (alloc_safe k cap head k' (Some nb) Hc Hh ltac:(unfold RX_MAX in *; lia) E) as (B1 & E1 & E2 & E3).
  split; try done; lia.
Qed.

End Buffers.

(** ** The stack's data *)

Create HintDb net_ok_db.

Section Data.
Context (L : Prop).

Definition arp_tbl (c : list arp_entry) : Prop := zlen c = ARP_CACHE_SIZE ∧ Forall (λ e, mac (arp_mac e)) c.

(** [k] interfaces and [d] devices. *)
Definition if_ok (d : nat) (f : netif) : Prop :=
  mac (nif_mac f) ∧ (nif_tx f = Some loopback_tx_fn → L) ∧ match nif_driver f with Some j => (j < d)%nat | None => True end.

Definition route_ok (k : nat) (r : ip_route) : Prop := match rt_nif r with Some i => (i < k)%nat | None => True end.

Definition bind_ok (b : udp_binding) : Prop := ub_recv b = Some sock_udp_recv_fn → Z.of_nat (ub_ctx b) < SOCKET_MAX.

(** The transmit side of a device: a page of memory for each descriptor. *)
Definition dev_ok (d : e1000_device) : Prop :=
  zlen (tx_ring d) = E1000_NUM_TX_DESC ∧ zlen (tx_buffers d) = E1000_NUM_TX_DESC ∧ Forall (λ b, zlen b = 4096 ∧ bytes b) (tx_buffers d) ∧
  0 ≤ tx_cur d < E1000_NUM_TX_DESC.

Record net_ok (k : nat) (n : net) : Prop := {
  ok_len : length (n_ifs n) = k;
  ok_ifs : Forall (if_ok (length (n_devs n))) (n_ifs n);
  ok_reg : Forall (λ i, (i < k)%nat) (n_reg n);
  ok_arp : arp_tbl (n_arp n);
  ok_routes : Forall (route_ok k) (n_routes n);
  ok_binds : zlen (n_binds n) = UDP_BIND_MAX ∧ Forall bind_ok (n_binds n);
  ok_tcbs : zlen (n_tcbs n) = TCP_TCB_MAX;
  ok_socks : zlen (n_socks n) = SOCKET_MAX ∧ Forall sock_ok (n_socks n);
  ok_devs : Forall dev_ok (n_devs n)
}.

Lemma ok_pool k n x : net_ok k n → net_ok k (set_pool n x).
Proof. intros []. by split. Qed.
Lemma ok_free k n nb : net_ok k n → net_ok k (free_nb n nb).
Proof. intros []. by split. Qed.
Lemma ok_ip_id k n x : net_ok k n → net_ok k (set_ip_id n x).
Proof. intros []. by split. Qed.
Lemma ok_icmp k n x : net_ok k n → net_ok k (set_icmp n x).
Proof. intros []. by split. Qed.
Lemma ok_datagrams k n x : net_ok k n → net_ok k (set_datagrams n x).
Proof. intros []. by split. Qed.
Lemma ok_calls k n x : net_ok k n → net_ok k (set_calls n x).
Proof. intros []. by split. Qed.
Lemma ok_dns k n x : net_ok k n → net_ok k (set_dns n x).
Proof. intros []. by split. Qed.
Lemma ok_iss k n x : net_ok k n → net_ok k (set_iss n x).
Proof. intros []. by split. Qed.
Lemma ok_set_arp k n c x : net_ok k n → arp_tbl c → net_ok k (set_arp_clock (set_arp n c) x).
Proof. intros []. by split. Qed.
Lemma ok_set_tcbs k n ts : net_ok k n → zlen ts = TCP_TCB_MAX → net_ok k (set_tcbs n ts).
Proof. intros []. by split. Qed.
Lemma ok_set_socks k n ss : net_ok k n → zlen ss = SOCKET_MAX → Forall sock_ok ss → net_ok k (set_socks n ss).
Proof. intros []. by split. Qed.

Lemma ok_stat k n i g : net_ok k n → net_ok k (if_stat n i g).
Proof.
  intros []. split; try done; cbn [if_stat upd_if set_ifs n_ifs n_devs].
  - by rewrite length_alter.
  - by apply Forall_alter.
Qed.

#[local] Hint Resolve ok_pool ok_free ok_ip_id ok_icmp ok_datagrams ok_calls ok_dns ok_iss ok_stat : net_ok_db.

Lemma get_if_safe k n i : net_ok k n → (i < k)%nat → safe L (get_if n i) (λ f, n_ifs n !! i = Some f ∧ if_ok (length (n_devs n)) f).
Proof.
  intros Hok Hi. unfold get_if. destruct (lookup_lt_is_Some_2 (n_ifs n) i) as [f Hf]; [by rewrite (ok_len _ _ Hok)|]. rewrite Hf.
  split; [done|]. apply (Forall_lookup_1 _ _ _ _ (ok_ifs _ _ Hok) Hf).
Qed.

End Data.

#[export] Hint Resolve ok_pool ok_free ok_ip_id ok_icmp ok_datagrams ok_calls ok_dns ok_iss ok_stat : net_ok_db.
