(* ===== verification/NetSafe.v ===== *)
(** Memory safety of the receive path, part two: every handler of the stack, for
    arbitrary packets, and the stack as a whole. *)

From S2P Require Import Prelude CString NetBase Netbuf NetIf Arp Ipv4 Icmp Udp Tcp Dns Dhcp Socket Net Safe.

Section Handlers.
Context `{KmemOk} (L : Prop) (k : nat).

Definition tx_safe (tx : tx_fun) : Prop := ∀ n i nb,
  net_ok L k n → (i < k)%nat → nb_ok TX_MAX nb → (∃ f, n_ifs n !! i = Some f ∧ nif_tx f ≠ None) →
  safe L (tx n i nb) (λ r, net_ok L k r.1).

Context (tx : tx_fun) (Htx : tx_safe tx).

#[local] Hint Resolve nb_ok_eth nb_ok_net nb_ok_netif : net_ok_db.

Lemma netif_transmit_safe n i nb :
  net_ok L k n → (i < k)%nat → nb_ok TX_MAX nb → safe L (netif_transmit tx n (Some i) nb) (λ r, net_ok L k r.1).
Proof.
  intros Hok Hi Hnb. unfold netif_transmit. sstep get_if_safe; [exact Hok|exact Hi|]. intros f [Hf Hfok].
  destruct (nif_tx f) eqn:Et; [|cbn [safe fst]; auto with net_ok_db].
  destruct (netif_is_up f); cbn [negb]; [|cbn [safe fst]; auto with net_ok_db].
  eapply safe_bind; [apply Htx; [done..|]|].
  { exists f. split; [done|congruence]. }
  intros [n' rc] Hn'. cbn [fst] in Hn'. destruct (rc =? 0); cbn [safe fst]; auto with net_ok_db.
Qed.

(** *** ARP *)

Lemma arp_slot_safe c ip : arp_tbl c → safe L (arp_slot c ip) (λ r, arp_tbl r.1 ∧ 0 ≤ r.2 < ARP_CACHE_SIZE).
Proof.
  intros [Hl Hm]. unfold arp_slot. destruct (arp_find_spec c ip Hl) as [(j & e & E & He & _)|[E _]]; rewrite E; cbn [mbind outcome_bind].
  - apply lookup_lt_Some in He. split; [done|]. cbn [snd]. unfold zlen in Hl. lia.
  - destruct (arp_alloc_slot_spec c Hl) as (j & e & E' & He & _). rewrite E'. cbn [mbind outcome_bind]. pose proof (lookup_lt_Some _ _ _ He) as Hlt.
    rewrite (aget_Some c _ e) by (lia || by rewrite Nat2Z.id). cbn [mbind outcome_bind]. rewrite aset_in by (unfold zlen; lia). cbn [mbind outcome_bind safe fst snd].
    split; [|unfold zlen in Hl; lia]. split; [by rewrite zlen_insert|]. apply Forall_insert; [done|]. apply (Forall_lookup_1 _ _ _ _ Hm He).
Qed.

Lemma arp_get c j : arp_tbl c → 0 ≤ j < ARP_CACHE_SIZE → ∃ e, aget c j = Ret e ∧ mac (arp_mac e).
Proof.
  intros [Hl Hm] Hj. destruct (aget_in c j) as (e & He & E); [lia|]. exists e. split; [done|]. apply (Forall_lookup_1 _ _ _ _ Hm He).
Qed.

Lemma arp_set c j e : arp_tbl c → 0 ≤ j < ARP_CACHE_SIZE → mac (arp_mac e) → ∃ c', aset c j e = Ret c' ∧ arp_tbl c'.
Proof.
  intros [Hl Hm] Hj He. rewrite aset_in by lia. eexists. split; [done|]. split; [by rewrite zlen_insert|]. by apply Forall_insert.
Qed.

Lemma arp_cache_insert_safe n ip m : net_ok L k n → mac m → safe L (arp_cache_insert n ip m) (net_ok L k).
Proof.
  intros Hok Hm. unfold arp_cache_insert. destruct (ip_is_zero ip); [done|]. sstep arp_slot_safe; [apply (ok_arp _ _ _ Hok)|].
  intros [c j] [Hc Hj]. cbn [fst snd] in *. destruct (arp_get c j Hc Hj) as (e & -> & He). cbn [mbind outcome_bind].
  rewrite mac_copy_mac by done. cbn [mbind outcome_bind].
  edestruct (arp_set c j) as (c' & -> & Hc'); [done|done| |]; [|cbn [mbind outcome_bind safe]; by apply ok_set_arp]. done.
Qed.

Lemma arp_cache_lookup_safe n ip out :
  net_ok L k n → mac out → safe L (arp_cache_lookup n ip out) (λ r, match r with Some m => mac m | None => True end).
Proof.
  intros Hok Hout. unfold arp_cache_lookup. pose proof (ok_arp _ _ _ Hok) as Hc.
  destruct (arp_find_spec (n_arp n) ip (proj1 Hc)) as [(j & e & E & He & _)|[E _]]; rewrite E; cbn [mbind outcome_bind]; [|done].
  apply lookup_lt_Some in He. destruct (arp_get (n_arp n) (Z.of_nat j) Hc) as (e' & -> & He'); [destruct Hc as [Hl _]; unfold zlen in Hl; lia|].
  cbn [mbind outcome_bind]. destruct (is_resolved (arp_st e')); [|done]. by rewrite mac_copy_mac.
Qed.

Lemma arp_fill_safe b p f oper tpa tha :
  bytes b → 0 ≤ p → p + ARP_HDR_LEN ≤ zlen b → mac (nif_mac f) → mac tha → safe L (arp_fill b p f oper tpa tha) (same_size b).
Proof.
  intros Hb Hp Hl [Hm Bm] [Ht Bt]. unfold ARP_HDR_LEN in Hl. assert (zlen (nif_mac f) = 6 ∧ zlen tha = 6) as [Z1 Z2] by (unfold zlen; lia).
  unfold arp_fill, ETH_ALEN.
  eapply wr_bind; [apply put_be16_safe; (done || lia)|done|]. intros b1 [B1 E1].
  eapply wr_bind; [apply put_be16_safe; (done || lia)|done|]. intros b2 [B2 E2].
  eapply wr_bind; [apply aset_safe; [done|by vm_compute|lia]|done|]. intros b3 [B3 E3].
  eapply wr_bind; [apply aset_safe; [done|by vm_compute|lia]|done|]. intros b4 [B4 E4].
  eapply wr_bind; [apply put_be16_safe; (done || lia)|done|]. intros b5 [B5 E5].
  eapply wr_bind; [apply memcpy_safe; (done || lia)|done|]. intros b6 [B6 E6].
  eapply wr_bind; [apply put_be32_safe; (done || lia)|done|]. intros b7 [B7 E7].
  eapply wr_bind; [apply memcpy_safe; (done || lia)|done|]. intros b8 [B8 E8].
  eapply safe_mono; [apply put_be32_safe; (done || lia)|]. intros b9 [B9 E9]. split; [done|congruence].
Qed.

Lemma arp_build_safe n i oper tpa tha dst :
  net_ok L k n → (i < k)%nat → mac tha → mac dst →
  safe L (arp_build n i oper tpa tha dst) (λ r, net_ok L k r.1 ∧ match r.2 with Some nb => nb_ok TX_MAX nb | None => True end).
Proof.
  intros Hok Hi Ht Hd. unfold arp_build. sstep get_if_safe; [exact Hok|exact Hi|]. intros f [Hf (Hm & _)].
  unfold netbuf_alloc. destruct (netbuf_alloc_headroom _ _ _) as [p r] eqn:Ea. destruct r as [nb|]; [|cbn [safe fst snd]; auto with net_ok_db].
  pose proof (alloc_nb_ok TX_MAX _ (ARP_HDR_LEN + ETH_HLEN) NETBUF_DEFAULT_HEADROOM _ _ ltac:(done) ltac:(done) ltac:(by vm_compute) ltac:(by vm_compute) ltac:(by vm_compute) Ea) as Hnb.
  assert (nb_ok TX_MAX (netbuf_reserve nb ETH_HLEN).1) as Hnb1.
  { pose proof Hnb as []. unfold netbuf_reserve. destruct (negb (netbuf_len nb =? 0)); [done|]. unfold nb_end.
    rewrite u64_small by (unfold TX_MAX in *; lia). destruct (Z.ltb_spec (zlen (nb_buf nb) - nb_data nb) ETH_HLEN); cbn [fst]; [done|].
    apply nb_ok_ptrs; [done|unfold ETH_HLEN in *; lia..]. }
  destruct (netbuf_put _ ARP_HDR_LEN) as [nb2 r2] eqn:Ep.
  destruct (put_safe TX_MAX _ ARP_HDR_LEN _ _ Hnb1 ltac:(by vm_compute) ltac:(done) Ep) as (Hnb2 & Eb2 & _ & Hr2).
  destruct r2 as [q|]; [|cbn [safe fst snd]; auto with net_ok_db]. destruct Hr2 as (-> & Hq & Hql & _).
  eapply safe_bind; [apply arp_fill_safe; [apply (no_bytes _ _ Hnb2)|done|by rewrite Eb2|done|done]|]. intros b Hb.
  sstep eth_build_safe; [by apply nb_ok_buf|by vm_compute|done|done|]. intros [nb3 rc] Hnb3. cbn [fst] in Hnb3.
  destruct (negb (rc =? 0)); cbn [safe fst snd]; auto with net_ok_db.
Qed.

Lemma arp_send_request_safe n i target :
  net_ok L k n → (i < k)%nat → safe L (arp_send_request tx n i target) (λ r, net_ok L k r.1).
Proof.
  intros Hok Hi. unfold arp_send_request. sstep arp_build_safe; [exact Hok|exact Hi|apply eth_zero_mac| |].
  { split; [done|]. bytes_of. }
  intros [n' [nb|]] [Hn' Hnb]; cbn [fst snd] in *; [|done]. by apply netif_transmit_safe.
Qed.

Lemma arp_pending_safe n i ip : net_ok L k n → (i < k)%nat → safe L (arp_pending tx n i ip) (net_ok L k).
Proof.
  intros Hok Hi. unfold arp_pending. sstep arp_slot_safe; [apply (ok_arp _ _ _ Hok)|]. intros [c j] [Hc Hj]. cbn [fst snd] in *.
  destruct (arp_get c j Hc Hj) as (e & -> & He). cbn [mbind outcome_bind].
  edestruct (arp_set c j) as (c' & -> & Hc'); [done|done| |cbn [mbind outcome_bind]].
  { exact He. }
  sstep arp_send_request_safe; [by apply ok_set_arp|done|]. intros [n' rc] Hn'. done.
Qed.

Lemma arp_resolve_safe n i ip out :
  net_ok L k n → (i < k)%nat → mac out → safe L (arp_resolve tx n (Some i) ip out) (λ r, net_ok L k r.1.1 ∧ mac r.2).
Proof.
  intros Hok Hi Hout. unfold arp_resolve. sstep get_if_safe; [exact Hok|exact Hi|]. intros f [Hf (Hm & _)].
  destruct (negb (Z.land (nif_flags f) NETIF_FLAG_LOOPBACK =? 0)); [rewrite mac_copy_mac by done; split; [exact Hok|exact Hm]|].
  destruct (ip_is_broadcast ip || _).
  { assert (mac eth_broadcast) as Hbc by (split; [done|bytes_of]). rewrite mac_copy_mac by done. split; [exact Hok|exact Hbc]. }
  sstep arp_cache_lookup_safe; [exact Hok|exact Hout|]. intros [m|] Hr; [split; [exact Hok|exact Hr]|]. sstep arp_pending_safe; [exact Hok|exact Hi|]. intros n' Hn'. split; [exact Hn'|exact Hout].
Qed.

Lemma arp_input_safe n i nb : net_ok L k n → (i < k)%nat → nb_ok RX_MAX nb → safe L (arp_input tx n i nb) (net_ok L k).
Proof.
  intros Hok Hi Hnb. unfold arp_input. rewrite (nb_len RX_MAX) by done. destruct (Z.ltb_spec (nb_tail nb - nb_data nb) ARP_HDR_LEN); [done|].
  pose proof Hnb as []. unfold ARP_HDR_LEN in *.
  sstep get_be16_safe; [done|lia|lia|]. intros htype _. sstep get_be16_safe; [done|lia|lia|]. intros ptype _.
  sstep aget_safe; [done|lia|]. intros hlen _. sstep aget_safe; [done|lia|]. intros plen _.
  destruct (_ || _); [done|]. sstep get_be16_safe; [done|lia|lia|]. intros oper _. sstep get_be32_safe; [done|lia|lia|]. intros spa _.
  sstep get_be32_safe; [done|lia|lia|]. intros tpa _. destruct eth_zero_mac as [E0 B0].
  eapply safe_bind; [apply memcpy_safe; try done; unfold ETH_ALEN in *; lia|]. intros sha [Bsha Esha].
  assert (mac sha) as Hsha by (split; [unfold zlen in Esha; rewrite E0 in Esha; lia|done]).
  eapply (safe_bind _ _ _ (net_ok L k)); [destruct (negb _); [by apply arp_cache_insert_safe|done]|]. intros n1 Hn1.
  sstep get_if_safe; [exact Hn1|exact Hi|]. intros f [Hf _]. destruct (_ && _); [|done].
  sstep arp_build_safe; [done..|]. intros [n2 [reply|]] [Hn2 Hr]; cbn [fst snd] in *; [|done].
  sstep netif_transmit_safe; [done..|]. intros [n3 rc] Hn3. done.
Qed.

(** *** IPv4 output *)

Definition if_index (o : option nat) : Prop := match o with Some i => (i < k)%nat | None => True end.

Lemma scan_ifs_safe {S} n (body : nat → netif → S → outcome (S + nat)) (I : S → Prop) l s :
  net_ok L k n → Forall (λ i, (i < k)%nat) l → I s →
  (∀ i f s, (i < k)%nat → I s → safe L (body i f s) (λ r, match r with inl s => I s | inr j => (j < k)%nat end)) →
  safe L (scan_ifs n body l s) (λ r, match r with inl s => I s | inr j => (j < k)%nat end).
Proof.
  intros Hok Hl Hs Hb. revert s Hs. induction Hl as [|i l Hi Hl IH]; intros s Hs; cbn [scan_ifs]; [done|].
  sstep get_if_safe; [exact Hok|exact Hi|]. intros f _. eapply safe_bind; [by apply Hb|]. intros [s'|j] Hr; [by apply IH|done].
Qed.

Lemma netif_for_dest_safe n dst : net_ok L k n → safe L (netif_for_dest n dst) if_index.
Proof.
  intros Hok. unfold netif_for_dest. eapply safe_bind.
  - apply (scan_ifs_safe n _ (λ _, True)); [done|apply (ok_reg _ _ _ Hok)|done|]. intros i f s Hi _. unfold netif_for_dest_body.
    destruct (_ || _); [done|]. by destruct (ip_same_subnet _ _ _).
  - by intros [s|j] Hr.
Qed.

Lemma netif_default_safe n : net_ok L k n → safe L (netif_default n) if_index.
Proof.
  intros Hok. unfold netif_default. eapply safe_bind.
  - apply (scan_ifs_safe n _ if_index); [done|apply (ok_reg _ _ _ Hok)|done|]. intros i f s Hi Hs. unfold netif_default_body.
    destruct (negb (netif_is_up f)); [done|]. by destruct (negb _).
  - by intros [s|j] Hr.
Qed.

Lemma route_lookup_safe n dst r hop : net_ok L k n → route_lookup n dst = Some (r, hop) → if_index (rt_nif r).
Proof.
  intros Hok. unfold route_lookup. pose proof (ok_routes _ _ _ Hok) as Hr.
  assert (∀ l best, Forall (route_ok k) l → match best with Some b => route_ok k b | None => True end →
    match foldl (route_body dst) best l with Some b => route_ok k b | None => True end) as Hfold.
  { induction l as [|x l IH]; intros best Hl Hb; cbn [foldl]; [done|]. apply Forall_cons in Hl as [Hx Hl]. apply IH; [done|].
    unfold route_body. destruct (negb (rt_valid x)); [done|]. destruct (route_matches x dst); [|done]. destruct best as [b|]; [|done].
    by destruct (_ <? _). }
  specialize (Hfold _ None Hr I). destruct (foldl _ None _) as [b|]; intros [= <- _]. done.
Qed.

Lemma egress_safe n dst : net_ok L k n → safe L (egress n dst) (λ r, if_index r.1).
Proof.
  intros Hok. unfold egress. eapply (safe_bind _ _ _ (λ r, if_index r.1)).
  - destruct (route_lookup n dst) as [[r hop]|] eqn:E; [by apply (route_lookup_safe n dst r hop)|].
    sstep netif_for_dest_safe; [exact Hok|]. intros o Ho. done.
  - intros [[i|] hop] Hi; cbn [fst] in Hi; [done|]. sstep netif_default_safe; [exact Hok|]. intros o Ho. done.
Qed.

Lemma ipv4_fill_safe b h src dst proto ttl payload id :
  bytes b → 0 ≤ h → h + IPV4_HDR_LEN ≤ zlen b → is_u8 proto → is_u8 ttl → safe L (ipv4_fill b h src dst proto ttl payload id) (same_size b).
Proof.
  intros Hb Hh Hl Hp Ht. unfold IPV4_HDR_LEN in Hl. unfold ipv4_fill.
  eapply wr_bind; [apply aset_safe; [done|by vm_compute|lia]|done|]. intros b1 [B1 E1].
  eapply wr_bind; [apply aset_safe; [done|by vm_compute|lia]|done|]. intros b2 [B2 E2].
  eapply wr_bind; [apply put_be16_safe; (done || lia)|done|]. intros b3 [B3 E3].
  eapply wr_bind; [apply put_be16_safe; (done || lia)|done|]. intros b4 [B4 E4].
  eapply wr_bind; [apply put_be16_safe; (done || lia)|done|]. intros b5 [B5 E5].
  eapply wr_bind; [apply aset_safe; [done|done|lia]|done|]. intros b6 [B6 E6].
  eapply wr_bind; [apply aset_safe; [done|done|lia]|done|]. intros b7 [B7 E7].
  eapply wr_bind; [apply put_u16_safe; (done || lia)|done|]. intros b8 [B8 E8].
  eapply wr_bind; [apply put_u32_safe; (done || lia)|done|]. intros b9 [B9 E9].
  eapply wr_bind; [apply put_u32_safe; (done || lia)|done|]. intros b10 [B10 E10].
  sstep checksum_safe; [done|lia|unfold IPV4_HDR_LEN; lia|]. intros v _.
  eapply safe_mono; [apply put_u16_safe; (done || lia)|]. intros b11 [B11 E11]. split; [done|congruence].
Qed.

Lemma ipv4_output_safe n nb src dst proto ttl :
  net_ok L k n → nb_ok TX_MAX nb → is_u8 proto → is_u8 ttl → safe L (ipv4_output tx n nb src dst proto ttl) (λ r, net_ok L k r.1).
Proof.
  intros Hok Hnb Hp Ht. unfold ipv4_output. sstep egress_safe; [exact Hok|]. intros [[i|] hop] Hi; cbn [fst if_index] in Hi; [|cbn [safe fst]; auto with net_ok_db].
  sstep get_if_safe; [exact Hok|exact Hi|]. intros f [Hf _].
  eapply (safe_bind _ _ _ (λ r, net_ok L k r.1.1 ∧ nb_ok TX_MAX r.1.2)).
  { unfold ipv4_build. destruct (netbuf_push nb IPV4_HDR_LEN) as [nb1 r] eqn:E.
    destruct (push_safe TX_MAX _ IPV4_HDR_LEN _ _ Hnb ltac:(by vm_compute) ltac:(done) E) as (Hnb1 & Eb & Hr). destruct r as [h|]; [|done].
    destruct Hr as (-> & Hh & Hl). eapply safe_bind; [apply ipv4_fill_safe; [apply (no_bytes _ _ Hnb1)|done|by rewrite Eb|done|done]|].
    intros b Hb. split; cbn [fst snd]; [auto with net_ok_db|]. by apply nb_ok_net, nb_ok_buf. }
  intros [[n1 nb1] rc] [Hn1 Hnb1]. cbn [fst snd] in *. destruct (negb (rc =? 0)); [cbn [safe fst]; auto with net_ok_db|].
  sstep arp_resolve_safe; [exact Hn1|exact Hi|apply eth_zero_mac|]. intros [[n2 rc2] dmac] [Hn2 Hm]. cbn [fst snd] in *.
  destruct (negb (rc2 =? 0)); [cbn [safe fst]; auto with net_ok_db|]. sstep get_if_safe; [exact Hn2|exact Hi|]. intros f' [Hf' (Hm' & _)].
  sstep eth_build_safe; [exact Hnb1|by vm_compute|done|done|]. intros [nb2 rc3] Hnb2. cbn [fst] in Hnb2.
  destruct (negb (rc3 =? 0)); [cbn [safe fst]; auto with net_ok_db|]. by apply netif_transmit_safe.
Qed.

(** *** ICMP *)

(** A payload that can be read. *)
Definition data_ok (data : option (list Z * Z)) (len : Z) : Prop :=
  is_u16 len ∧ match data with Some (src, off) => bytes src ∧ 0 ≤ off ∧ off + len ≤ zlen src | None => True end.

Lemma put_body_safe nb data len :
  nb_ok TX_MAX nb → data_ok data len →
  safe L (put_body nb data len) (λ r, nb_ok TX_MAX r.1 ∧ zlen (nb_buf r.1) = zlen (nb_buf nb) ∧ nb_data r.1 = nb_data nb ∧
    (r.2 = true → nb_tail r.1 = nb_tail nb + len)).
Proof.
  intros Hnb [Hl Hd]. unfold is_u16 in Hl. unfold put_body. destruct (Z.ltb_spec 0 len) as [Hpos|].
  2: { split; [done|]. split; [done|]. split; [done|]. intros _. cbn [fst]. lia. }
  destruct (netbuf_put nb len) as [nb1 r] eqn:E.
  destruct (put_safe TX_MAX _ len _ _ Hnb ltac:(by vm_compute) ltac:(lia) E) as (Hnb1 & Eb & Ed & Hr). destruct r as [p|].
  2: { split; [done|]. split; [by cbn [fst]; rewrite Eb|]. split; [done|done]. }
  destruct Hr as (-> & Hp & Hpl & Ht). eapply (safe_bind _ _ _ (same_size (nb_buf nb1))).
  { destruct data as [[src off]|]; cbn [fill_body].
    - apply memcpy_safe; [apply (no_bytes _ _ Hnb1)|apply Hd|done|lia|by rewrite Eb|apply Hd..].
    - apply memset_safe; [apply (no_bytes _ _ Hnb1)|done|lia|by rewrite Eb]. }
  intros b [B E']. cbn [safe fst snd with_buf nb_buf nb_data nb_tail]. split; [by apply nb_ok_buf|]. split; [by rewrite E', Eb|]. split; [done|]. intros _. lia.
Qed.

(** A fresh buffer with a header of [h] bytes at its start. *)
Lemma alloc_put_safe h len kp kp' nb nb1 r :
  netbuf_alloc_headroom kp (h + len) NETBUF_DEFAULT_HEADROOM = (kp', Some nb) → netbuf_put nb h = (nb1, r) → 0 < h ≤ 64 → is_u16 len →
  nb_ok TX_MAX nb1 ∧ r = Some NETBUF_DEFAULT_HEADROOM ∧ nb_data nb1 = NETBUF_DEFAULT_HEADROOM ∧ nb_tail nb1 = NETBUF_DEFAULT_HEADROOM + h ∧
  zlen (nb_buf nb1) = NETBUF_DEFAULT_HEADROOM + h + len.
Proof.
  intros Ea Ep Hh Hl. unfold is_u16, NETBUF_DEFAULT_HEADROOM in *.
  destruct (alloc_safe kp (h + len) 64 kp' (Some nb) ltac:(lia) ltac:(lia) ltac:(lia) Ea) as (B & Ed & Et & Ez).
  assert (nb_ok TX_MAX nb) as Hnb by (split; unfold TX_MAX; (done || lia)).
  destruct (put_safe TX_MAX nb h nb1 r Hnb ltac:(by vm_compute) ltac:(lia) Ep) as (Hnb1 & Eb & Ed1 & Hr).
  assert (r = Some 64) as ->.
  { revert Ep. unfold netbuf_put, netbuf_tailroom, nb_end. rewrite Ez, Et, u64_small, (proj2 (Z.ltb_ge _ _)) by lia. by intros [= _ <-]. }
  destruct Hr as (_ & _ & _ & Et1). rewrite Ed1, Et1, Eb. split; [done|]. split; [done|]. split; [done|]. split; lia.
Qed.

Lemma icmp_fill_safe b p type code id seq :
  bytes b → 0 ≤ p → p + ICMP_HDR_LEN ≤ zlen b → is_u8 type → is_u8 code → safe L (icmp_fill b p type code id seq) (same_size b).
Proof.
  intros Hb Hp Hl Ht Hc. unfold ICMP_HDR_LEN in Hl. unfold icmp_fill.
  eapply wr_bind; [apply aset_safe; [done|done|lia]|done|]. intros b1 [B1 E1].
  eapply wr_bind; [apply aset_safe; [done|done|lia]|done|]. intros b2 [B2 E2].
  eapply wr_bind; [apply put_u16_safe; (done || lia)|done|]. intros b3 [B3 E3].
  eapply wr_bind; [apply put_be16_safe; (done || lia)|done|]. intros b4 [B4 E4].
  eapply safe_mono; [apply put_be16_safe; (done || lia)|]. intros b5 [B5 E5]. split; [done|congruence].
Qed.

Lemma icmp_build_safe n type code id seq data len :
  net_ok L k n → data_ok data len → is_u8 type → is_u8 code →
  safe L (icmp_build n type code id seq data len) (λ r, net_ok L k r.1 ∧ match r.2 with Some nb => nb_ok TX_MAX nb | None => True end).
Proof.
  intros Hok Hd Ht Hc. unfold icmp_build. destruct (netbuf_alloc_headroom _ _ _) as [kp r] eqn:Ea.
  destruct r as [nb|]; [|cbn [safe fst snd]; auto with net_ok_db]. destruct (netbuf_put nb ICMP_HDR_LEN) as [nb1 r] eqn:Ep.
  destruct (alloc_put_safe _ _ _ _ _ _ _ Ea Ep ltac:(done) (proj1 Hd)) as (Hnb1 & -> & Ed & Et & Ez). destruct Hd as [Hl Hd]. pose proof Hl as Hl'.
  unfold NETBUF_DEFAULT_HEADROOM, ICMP_HDR_LEN, is_u16 in *.
  eapply safe_bind; [apply icmp_fill_safe; [apply (no_bytes _ _ Hnb1)|lia|unfold ICMP_HDR_LEN; lia|done|done]|]. intros b Hb.
  sstep put_body_safe; [by apply nb_ok_buf|by split|]. intros [nb2 ok] (Hnb2 & Ez2 & Ed2 & Et2). cbn [fst snd with_buf nb_buf nb_data nb_tail] in *.
  destruct ok; cbn [negb]; [|cbn [safe fst snd]; auto with net_ok_db]. specialize (Et2 eq_refl). destruct Hb as [_ Eb]. pose proof Hnb2 as [].
  rewrite (nb_len TX_MAX) by (done || by vm_compute). sstep checksum_safe; [done|lia|lia|]. intros v _.
  eapply safe_bind; [apply put_u16_safe; (done || lia)|]. intros b' Hb'. split; cbn [fst snd]; [auto with net_ok_db|by apply nb_ok_buf].
Qed.

Lemma icmp_input_safe n i nb src dst : net_ok L k n → nb_ok RX_MAX nb → safe L (icmp_input tx n i nb src dst) (net_ok L k).
Proof.
  intros Hok Hnb. unfold icmp_input. rewrite !(nb_len RX_MAX) by done. destruct (Z.ltb_spec (nb_tail nb - nb_data nb) ICMP_HDR_LEN); [done|].
  pose proof Hnb as []. unfold ICMP_HDR_LEN in *. sstep checksum_safe; [done|lia|lia|]. intros v _. destruct (negb (v =? 0)); [done|].
  sstep aget_safe; [done|lia|]. intros type _. sstep get_be16_safe; [done|lia|lia|]. intros id _. sstep get_be16_safe; [done|lia|lia|]. intros seq _.
  destruct (type =? ICMP_ECHO_REPLY); [cbn [safe]; auto with net_ok_db|]. destruct (negb (type =? ICMP_ECHO_REQUEST)); [done|].
  unfold icmp_echo. rewrite (nb_len RX_MAX) by done. unfold ICMP_HDR_LEN. pose proof (u16_range (nb_tail nb - nb_data nb - 8)) as Hu.
  sstep icmp_build_safe; [auto with net_ok_db| |by vm_compute|by vm_compute|].
  { split; [done|]. split; [done|]. split; [lia|]. assert (u16 (nb_tail nb - nb_data nb - 8) ≤ nb_tail nb - nb_data nb - 8) by (apply Z.mod_le; lia). lia. }
  intros [n1 [reply|]] [Hn1 Hr]; cbn [fst snd] in *; [|done]. sstep ipv4_output_safe; [done|done|by vm_compute|by vm_compute|].
  intros [n2 rc] Hn2. cbn [fst] in Hn2. cbn [safe]. destruct (0 <=? rc); auto with net_ok_db.
Qed.

(** *** TCP *)

Lemma tcp_fill_safe b p sp dp seq ack flags win :
  bytes b → 0 ≤ p → p + TCP_HDR_LEN ≤ zlen b → is_u8 flags → safe L (tcp_fill b p sp dp seq ack flags win) (same_size b).
Proof.
  intros Hb Hp Hl Hf. unfold TCP_HDR_LEN in Hl. unfold tcp_fill.
  eapply wr_bind; [apply put_be16_safe; (done || lia)|done|]. intros b1 [B1 E1].
  eapply wr_bind; [apply put_be16_safe; (done || lia)|done|]. intros b2 [B2 E2].
  eapply wr_bind; [apply put_be32_safe; (done || lia)|done|]. intros b3 [B3 E3].
  eapply wr_bind; [apply put_be32_safe; (done || lia)|done|]. intros b4 [B4 E4].
  eapply wr_bind; [apply aset_safe; [done|by vm_compute|lia]|done|]. intros b5 [B5 E5].
  eapply wr_bind; [apply aset_safe; [done|done|lia]|done|]. intros b6 [B6 E6].
  eapply wr_bind; [apply put_be16_safe; (done || lia)|done|]. intros b7 [B7 E7].
  eapply wr_bind; [apply put_u16_safe; (done || lia)|done|]. intros b8 [B8 E8].
  eapply safe_mono; [apply put_be16_safe; (done || lia)|]. intros b9 [B9 E9]. split; [done|congruence].
Qed.

Lemma tcp_build_safe n src sp dst dp seq ack flags win data len :
  net_ok L k n → data_ok data len → TCP_HDR_LEN + len < 2 ^ 16 → is_u8 flags →
  safe L (tcp_build_segment n src sp dst dp seq ack flags win data len) (λ r, net_ok L k r.1 ∧ match r.2 with Some nb => nb_ok TX_MAX nb | None => True end).
Proof.
  intros Hok Hd Hlen Hf. unfold tcp_build_segment. destruct (netbuf_alloc_headroom _ _ _) as [kp r] eqn:Ea.
  destruct r as [nb|]; [|cbn [safe fst snd]; auto with net_ok_db]. destruct (netbuf_put nb TCP_HDR_LEN) as [nb1 r] eqn:Ep.
  destruct (alloc_put_safe _ _ _ _ _ _ _ Ea Ep ltac:(done) (proj1 Hd)) as (Hnb1 & -> & Ed & Et & Ez). destruct Hd as [Hl Hd]. pose proof Hl as Hl'.
  unfold NETBUF_DEFAULT_HEADROOM, TCP_HDR_LEN, is_u16 in *.
  eapply safe_bind; [apply tcp_fill_safe; [apply (no_bytes _ _ Hnb1)|lia|unfold TCP_HDR_LEN; lia|done]|]. intros b Hb.
  sstep put_body_safe; [by apply nb_ok_buf|by split|]. intros [nb2 ok] (Hnb2 & Ez2 & Ed2 & Et2). cbn [fst snd with_buf nb_buf nb_data nb_tail] in *.
  destruct ok; cbn [negb]; [|cbn [safe fst snd]; auto with net_ok_db]. specialize (Et2 eq_refl). destruct Hb as [_ Eb]. pose proof Hnb2 as [].
  rewrite u16_small by lia. sstep transport_safe; [done|lia|lia|]. intros v _.
  eapply safe_bind; [apply put_u16_safe; (done || lia)|]. intros b' Hb'. split; cbn [fst snd]; [auto with net_ok_db|by apply nb_ok_buf].
Qed.

Definition tcb_index (j : Z) : Prop := 0 ≤ j < TCP_TCB_MAX.

Lemma get_tcb_safe n j : net_ok L k n → tcb_index j → safe L (get_tcb n j) (λ _, True).
Proof. intros Hok Hj. unfold get_tcb. destruct (aget_in (n_tcbs n) j) as (t & _ & ->); [by rewrite (ok_tcbs _ _ _ Hok)|done]. Qed.

Lemma upd_tcb_safe n j g : net_ok L k n → tcb_index j → safe L (upd_tcb n j g) (net_ok L k).
Proof.
  intros Hok Hj. unfold upd_tcb. sstep get_tcb_safe; [exact Hok|exact Hj|]. intros t _. rewrite aset_in by (by rewrite (ok_tcbs _ _ _ Hok)).
  cbn [mbind outcome_bind safe]. apply ok_set_tcbs; [done|]. rewrite zlen_insert. apply (ok_tcbs _ _ _ Hok).
Qed.

Lemma send_safe n j flags : net_ok L k n → tcb_index j → is_u8 flags → safe L (send_ tx n j flags) (net_ok L k).
Proof.
  intros Hok Hj Hf. unfold send_. eapply (safe_bind _ _ _ (λ r, net_ok L k r.1)); [|by intros [n' rc] Hn'].
  unfold tcp_send_segment. sstep get_tcb_safe; [exact Hok|exact Hj|]. intros t _.
  sstep tcp_build_safe; [exact Hok|split; [by vm_compute|done]|by vm_compute|done|]. intros [n1 [nb|]] [Hn1 Hnb]; cbn [fst snd] in *; [|done].
  sstep upd_tcb_safe; [exact Hn1|exact Hj|]. intros n2 Hn2. apply ipv4_output_safe; [done|done|by vm_compute|by vm_compute].
Qed.

(** An assignment to the TCB and a segment. *)
Lemma upd_send_safe n j g flags :
  net_ok L k n → tcb_index j → is_u8 flags → safe L (n1 ← upd_tcb n j g; send_ tx n1 j flags) (net_ok L k).
Proof. intros Hok Hj Hf. sstep upd_tcb_safe; [exact Hok|exact Hj|]. intros n1 Hn1. by apply send_safe. Qed.

Lemma tcp_state_machine_safe n j seq ack flags seglen :
  net_ok L k n → tcb_index j → safe L (tcp_state_machine tx n j seq ack flags seglen) (net_ok L k).
Proof.
  intros Hok Hj. unfold tcp_state_machine. sstep get_tcb_safe; [exact Hok|exact Hj|]. intros t _.
  assert (is_u8 TCP_F_ACK) as Ha by (by vm_compute). assert (is_u8 (Z.lor TCP_F_SYN TCP_F_ACK)) as Hsa by (by vm_compute).
  destruct (t_state t); try done.
  - destruct (has _ _); [|done]. unfold tcp_gen_iss. apply upd_send_safe; [auto with net_ok_db|done|done].
  - destruct (_ =? _); [by apply upd_send_safe|]. destruct (has _ _); [by apply upd_send_safe|done].
  - destruct (has _ _); [by apply upd_tcb_safe|done].
  - eapply (safe_bind _ _ _ (net_ok L k)); [destruct (_ <? _); [by apply upd_send_safe|done]|]. intros n1 Hn1. destruct (has _ _); [by apply upd_send_safe|done].
  - eapply (safe_bind _ _ _ (net_ok L k)); [destruct (has _ _); [by apply upd_tcb_safe|done]|]. intros n1 Hn1. destruct (has _ _); [|done].
    sstep get_tcb_safe; [exact Hn1|exact Hj|]. intros t1 _. by apply upd_send_safe.
  - destruct (has _ _); [by apply upd_send_safe|done].
  - destruct (has _ _); [by apply upd_tcb_safe|done].
  - destruct (has _ _); [|done]. sstep upd_tcb_safe; [exact Hok|exact Hj|]. intros n1 Hn1. by apply upd_tcb_safe.
Qed.

Lemma tcp_lookup_safe n lip lport rip rport :
  net_ok L k n → safe L (tcp_lookup (n_tcbs n) lip lport rip rport) (λ r, match r with Some j => tcb_index j | None => True end).
Proof.
  intros Hok. unfold tcp_lookup. pose proof (ok_tcbs _ _ _ Hok) as Hl.
  destruct (find_range_inv (λ _ o, match o with Some j => tcb_index j | None => True end) tcb_index
    (tcp_lookup_body (n_tcbs n) lip lport rip rport) 0 TCP_TCB_MAX None) as [(o & E & Ho)|(r & E & Hr)]; [done| |done|by rewrite E..].
  intros i o Hi Ho. unfold tcp_lookup_body. destruct (aget_in (n_tcbs n) i) as (t & _ & ->); [lia|]. cbn [mbind outcome_bind].
  destruct (_ || negb _); [left; by eexists|]. destruct (_ && _); [right; by eexists|]. destruct (_ && _); left; by eexists.
Qed.

Lemma tcp_input_safe n i nb src dst : net_ok L k n → nb_ok RX_MAX nb → safe L (tcp_input tx n i nb src dst) (net_ok L k).
Proof.
  intros Hok Hnb. unfold tcp_input. rewrite !(nb_len RX_MAX) by done. destruct (Z.ltb_spec (nb_tail nb - nb_data nb) TCP_HDR_LEN); [done|].
  pose proof Hnb as []. unfold TCP_HDR_LEN in *. sstep aget_safe; [done|lia|]. intros off _. destruct (_ || _); [done|].
  assert (u16 (nb_tail nb - nb_data nb) ≤ nb_tail nb - nb_data nb) by (apply Z.mod_le; lia).
  sstep transport_safe; [done|lia|lia|]. intros v _. destruct (negb (v =? 0)); [done|].
  sstep get_be16_safe; [done|lia|lia|]. intros sp _. sstep get_be16_safe; [done|lia|lia|]. intros dp _.
  sstep get_be32_safe; [done|lia|lia|]. intros seq _. sstep get_be32_safe; [done|lia|lia|]. intros ack _. sstep aget_safe; [done|lia|]. intros flags _.
  sstep tcp_lookup_safe; [exact Hok|]. intros [j|] Hj; [|done]. sstep get_tcb_safe; [exact Hok|exact Hj|]. intros t _.
  eapply (safe_bind _ _ _ (net_ok L k)); [destruct (bool_decide _); [by apply upd_tcb_safe|done]|]. intros n1 Hn1. by apply tcp_state_machine_safe.
Qed.

(** *** UDP and the receivers *)

Lemma udp_find_safe bs ip port :
  zlen bs = UDP_BIND_MAX → safe L (udp_find bs ip port) (λ r, match r with Some j => 0 ≤ j < UDP_BIND_MAX | None => True end).
Proof.
  intros Hl. unfold udp_find.
  destruct (find_range_inv (λ _ o, match o with Some j => 0 ≤ j < UDP_BIND_MAX | None => True end) (λ j, 0 ≤ j < UDP_BIND_MAX)
    (udp_find_body bs ip port) 0 UDP_BIND_MAX None) as [(o & E & Ho)|(r & E & Hr)]; [done| |done|by rewrite E..].
  intros i o Hi Ho. unfold udp_find_body. destruct (aget_in bs i) as (b & _ & ->); [lia|]. cbn [mbind outcome_bind].
  destruct (_ || negb _); [left; by eexists|]. destruct (ip_equal _ _); [right; by eexists|]. destruct (ip_is_zero _); left; by eexists.
Qed.

(** DNS answers are read inside the packet. *)
Lemma skip_loop_safe fuel : ∀ b p len off,
  bytes b → 0 ≤ p → p + len ≤ zlen b → 0 ≤ off → len - off ≤ Z.of_nat fuel → safe L (skip_loop fuel b p len off) (λ r, 0 ≤ r).
Proof.
  induction fuel as [|fuel IH]; intros b p len off Hb Hp Hl Ho Hf; cbn [skip_loop].
  - by rewrite (proj2 (Z.ltb_ge _ _)) by lia.
  - destruct (Z.ltb_spec off len); [|done]. sstep aget_safe; [done|lia|]. intros c Hc. unfold is_u8 in Hc.
    destruct (c =? 0); [cbn [safe]; lia|]. destruct (_ =? _); [cbn [safe]; lia|]. destruct (negb _); [done|]. apply IH; (done || lia).
Qed.

Lemma skip_name_safe b p len off :
  bytes b → 0 ≤ p → p + len ≤ zlen b → 0 ≤ off → 0 ≤ len → safe L (dns_skip_name b p len off) (λ r, 0 ≤ r).
Proof. intros. apply skip_loop_safe; (done || lia). Qed.

Lemma find_range_safe {S R} lo hi (body : Z → S → outcome (S + R)) s (I : S → Prop) (Q : R → Prop) :
  I s → (∀ i s, lo ≤ i < hi → I s → safe L (body i s) (λ r, match r with inl s => I s | inr r => Q r end)) →
  safe L (find_range lo hi body s) (λ r, match r with inl s => I s | inr r => Q r end).
Proof.
  intros Hs Hb. unfold find_range. assert (∀ m i s, lo ≤ i → i + Z.of_nat m ≤ lo + Z.of_nat (Z.to_nat (hi - lo)) → I s →
    safe L (find_up m i body s) (λ r, match r with inl s => I s | inr r => Q r end)) as Hloop.
  { induction m as [|m IH]; intros i s' Hi Hm Hs'; cbn [find_up]; [done|]. eapply safe_bind; [apply Hb; [lia|done]|].
    intros [s1|r1] H1; [apply IH; [lia|lia|done]|done]. }
  apply Hloop; (done || lia).
Qed.

Lemma dns_parse_safe b p len id : bytes b → 0 ≤ p → 0 ≤ len → p + len ≤ zlen b → safe L (dns_parse_response b p len id) (λ _, True).
Proof.
  intros Hb Hp Hl0 Hl. unfold dns_parse_response. destruct (Z.ltb_spec len DNS_HDR_LEN); [done|]. unfold DNS_HDR_LEN in *.
  sstep get_be16_safe; [done|lia|lia|]. intros rid _. sstep get_be16_safe; [done|lia|lia|]. intros flags _. destruct (_ && _); [done|].
  destruct (_ =? 0); [done|]. destruct (negb _); [done|]. sstep get_be16_safe; [done|lia|lia|]. intros qd _. sstep get_be16_safe; [done|lia|lia|]. intros an _.
  destruct (an =? 0); [done|]. eapply safe_bind; [apply (find_range_safe 0 qd (question_body b p len) 12 (λ off, 0 ≤ off) (λ _, True)); [lia|]|].
  { intros q off _ Hoff. unfold question_body. sstep skip_name_safe; [done..|]. intros off' Ho'. cbn beta in Ho'. destruct (_ || _); cbn [safe]; [done|lia]. }
  intros [off|r] Hoff; [|done]. eapply safe_bind; [apply (find_range_safe 0 an (answer_body b p len) off (λ off, 0 ≤ off) (λ _, True)); [done|]|].
  { intros a off1 _ Ho1. unfold answer_body. sstep skip_name_safe; [done..|]. intros off2 Ho2. cbn beta in Ho2. destruct (Z.eqb_spec off2 0); [done|].
    cbn [orb]. destruct (Z.ltb_spec len (off2 + 10)); [done|]. sstep get_be16_safe; [done|lia|lia|]. intros type _. sstep get_be16_safe; [done|lia|lia|].
    intros rdlen Hrd. unfold is_u16 in Hrd. destruct (Z.ltb_spec len (off2 + 10 + rdlen)); [done|]. destruct (type =? DNS_TYPE_A); cbn [andb].
    - destruct (Z.eqb_spec rdlen 4); [|cbn [safe]; lia]. sstep get_u32_safe; [done|lia|lia|]. done.
    - cbn [safe]. lia. }
  by intros [o|r] _.
Qed.

Lemma call_recv_safe fn ctx n src sp dst dp b off len :
  net_ok L k n → (fn = sock_udp_recv_fn → Z.of_nat ctx < SOCKET_MAX) → bytes b → 0 ≤ off → 0 ≤ len → off + len ≤ zlen b →
  safe L (call_recv fn ctx n src sp dst dp b off len) (net_ok L k).
Proof.
  intros Hok Hctx Hb Ho Hl0 Hl. destruct fn; cbn [call_recv].
  - destruct (ok_socks _ _ _ Hok) as [Hsl Hso]. specialize (Hctx eq_refl). destruct (lookup_in (n_socks n) (Z.of_nat ctx)) as [s Hs]; [lia|].
    rewrite Nat2Z.id in Hs. pose proof (Forall_lookup_1 _ _ _ _ Hso Hs) as Hsok.
    destruct (s_in_use s) eqn:Eu, (Z.eqb_spec (s_type s) SOCK_DGRAM) as [Et|Et].
    + pose proof (sock_udp_recv_spec n ctx s src sp b off len Hs Hsok Eu Et Ho Hl0 Hl) as Hr. destruct (s_rx_count s <? SOCKET_RX_QUEUE); [|by rewrite Hr].
      destruct Hr as (q & t & c & -> & Hok' & _). cbn [safe]. apply ok_set_socks; [done|by rewrite zlen_insert|by apply Forall_insert].
    + unfold sock_udp_recv. rewrite (get_sock_Some _ _ _ Hs). cbn [mbind outcome_bind]. rewrite Eu, (proj2 (Z.eqb_neq _ _)) by done. done.
    + unfold sock_udp_recv. rewrite (get_sock_Some _ _ _ Hs). cbn [mbind outcome_bind]. by rewrite Eu.
    + unfold sock_udp_recv. rewrite (get_sock_Some _ _ _ Hs). cbn [mbind outcome_bind]. by rewrite Eu.
  - unfold dns_recv. sstep dns_parse_safe; [done..|]. intros [a|] _; cbn [safe]; auto with net_ok_db.
  - cbn [safe]. auto with net_ok_db.
Qed.

Lemma udp_input_safe n i nb src dst : net_ok L k n → nb_ok RX_MAX nb → safe L (udp_input call_recv n i nb src dst) (net_ok L k).
Proof.
  intros Hok Hnb. unfold udp_input. rewrite !(nb_len RX_MAX) by done. destruct (Z.ltb_spec (nb_tail nb - nb_data nb) UDP_HDR_LEN); [done|].
  pose proof Hnb as []. unfold UDP_HDR_LEN in *. sstep get_be16_safe; [done|lia|lia|]. intros ulen Hu. unfold is_u16 in Hu.
  destruct (Z.ltb_spec ulen 8); [done|]. cbn [orb]. destruct (Z.ltb_spec (nb_tail nb - nb_data nb) ulen); [done|].
  sstep get_u16_safe; [done|lia|lia|]. intros ck _. eapply (safe_bind _ _ _ (λ _, True)).
  { destruct (negb (ck =? 0)); [|done]. sstep transport_safe; [done|lia|lia|]. done. }
  intros bad _. destruct bad; [done|]. sstep get_be16_safe; [done|lia|lia|]. intros sp _. sstep get_be16_safe; [done|lia|lia|]. intros dp _.
  destruct (ok_binds _ _ _ Hok) as [Hbl Hbo]. sstep udp_find_safe; [exact Hbl|]. intros [j|] Hj; [|cbn [safe]; auto with net_ok_db].
  destruct (aget_in (n_binds n) j) as (bd & Hbd & Eg); [lia|]. cbn [set_datagrams n_binds]. rewrite Eg. cbn [mbind outcome_bind].
  destruct (ub_recv bd) as [fn|] eqn:Ef; [|cbn [safe]; auto with net_ok_db]. rewrite u16_small by lia. apply call_recv_safe; [auto with net_ok_db| |done|lia..].
  intros ->. by apply (Forall_lookup_1 _ _ _ _ Hbo Hbd).
Qed.

(** *** The stack *)

Lemma ipv4_input_safe n i nb :
  net_ok L k n → (i < k)%nat → nb_ok RX_MAX nb → safe L (ipv4_input (icmp_input tx) (udp_input call_recv) (tcp_input tx) n i nb) (net_ok L k).
Proof.
  intros Hok Hi Hnb. unfold ipv4_input. rewrite !(nb_len RX_MAX) by done. cbn zeta.
  destruct (Z.ltb_spec (nb_tail nb - nb_data nb) IPV4_HDR_LEN); [cbn [safe]; auto with net_ok_db|]. pose proof Hnb as []. unfold IPV4_HDR_LEN in *.
  sstep aget_safe; [done|lia|]. intros vi _. destruct (negb _); [cbn [safe]; auto with net_ok_db|]. set (hb := ipv4_hdr_bytes vi).
  destruct (Z.ltb_spec hb 20); [cbn [safe orb]; auto with net_ok_db|]. cbn [orb].
  destruct (Z.ltb_spec (nb_tail nb - nb_data nb) hb); [cbn [safe]; auto with net_ok_db|].
  sstep checksum_safe; [done|lia|lia|]. intros v _. destruct (negb (v =? 0)); [cbn [safe]; auto with net_ok_db|].
  sstep get_be16_safe; [done|lia|lia|]. intros tl Htl. unfold is_u16 in Htl. set (nb1 := if _ || _ then _ else _).
  assert (nb_ok RX_MAX nb1) as Hnb1.
  { unfold nb1. destruct (_ || _); [destruct (_ && _); [|done]|]; by apply trim_safe; (done || lia). }
  sstep get_u32_safe; [done|lia|lia|]. intros src _. sstep get_u32_safe; [done|lia|lia|]. intros dst _. sstep aget_safe; [done|lia|]. intros proto _.
  assert (nb_ok RX_MAX (netbuf_pull (with_net nb1 (nb_data nb1)) hb).1) as Hnb2 by (apply pull_safe; [by apply nb_ok_net|done|lia]).
  destruct (proto =? IP_PROTO_ICMP); [by apply icmp_input_safe|]. destruct (proto =? IP_PROTO_UDP); [by apply udp_input_safe|].
  destruct (proto =? IP_PROTO_TCP); [by apply tcp_input_safe|]. cbn [safe]. auto with net_ok_db.
Qed.

Lemma stack_rx_safe n i nb : net_ok L k n → (i < k)%nat → nb_ok RX_MAX nb → safe L (stack_rx tx n i nb) (net_ok L k).
Proof.
  intros Hok Hi Hnb. unfold stack_rx, netif_rx. sstep get_if_safe; [exact Hok|exact Hi|]. intros f _.
  sstep eth_parse_safe; [exact Hnb|done|]. intros [nb1 r] Hnb1. cbn [fst] in Hnb1. destruct r as [[[d s] ty]|]; [|cbn [safe]; auto with net_ok_db].
  destruct (ty =? ETH_P_ARP).
  { sstep arp_input_safe; [auto with net_ok_db|exact Hi|auto with net_ok_db|]. intros n1 Hn1. cbn [safe]. auto with net_ok_db. }
  destruct (ty =? ETH_P_IPV4); [|cbn [safe]; auto with net_ok_db].
  sstep ipv4_input_safe; [auto with net_ok_db|exact Hi|auto with net_ok_db|]. intros n1 Hn1. cbn [safe]. auto with net_ok_db.
Qed.

End Handlers.

(** ** The interfaces' transmit functions *)

Section Links.
Context `{KmemOk} (L : Prop) (k : nat).

Lemma put_data_safe B nb src len :
  nb_ok B nb → B ≤ RX_MAX → bytes src → 0 ≤ len → len ≤ zlen src → safe L (netbuf_put_data nb src len) (λ r, nb_ok B r.1).
Proof.
  intros Hnb HB Hs Hl0 Hl. unfold netbuf_put_data. destruct (netbuf_put nb len) as [nb1 r] eqn:E.
  destruct (put_safe B _ len _ _ Hnb HB Hl0 E) as (Hnb1 & Eb & _ & Hr). destruct r as [p|]; [|done]. destruct (len =? 0); [done|].
  destruct Hr as (-> & Hp & Hpl & _). rewrite Eb.
  eapply safe_bind; [apply memcpy_safe; try done; apply (no_bytes _ _ Hnb)|]. intros b Hb. cbn [safe fst].
  apply nb_ok_buf; [done|]. by rewrite Eb.
Qed.

Lemma loopback_tx_safe tx n i nb :
  tx_safe L k tx → net_ok L k n → (i < k)%nat → nb_ok TX_MAX nb → safe L (loopback_tx (stack_rx tx) n i nb) (λ r, net_ok L k r.1).
Proof.
  intros Htx Hok Hi Hnb. unfold loopback_tx. rewrite (nb_len TX_MAX) by (done || by vm_compute). pose proof Hnb as [].
  unfold netbuf_alloc. destruct (netbuf_alloc_headroom _ _ _) as [kp [rxb|]] eqn:Ea; [|cbn [safe fst]; auto with net_ok_db].
  assert (nb_ok RX_MAX rxb) as Hrxb.
  { apply (alloc_nb_ok RX_MAX _ (nb_tail nb - nb_data nb) NETBUF_DEFAULT_HEADROOM _ _) in Ea; [done|lia|done| |done|done].
    unfold TX_MAX, RX_MAX, NETBUF_DEFAULT_HEADROOM in *. lia. }
  sstep put_data_safe; [exact Hrxb|done|by apply Forall_drop|lia| |].
  { unfold zlen in *. rewrite length_drop. lia. }
  intros [rxb1 o] Hrxb1. cbn [fst] in Hrxb1. eapply safe_bind; [by apply (stack_rx_safe L k tx Htx); [apply ok_pool|..]|].
  intros n1 Hn1. done.
Qed.

Lemma e1000_tx_frame_safe d b p len :
  dev_ok d → bytes b → 0 ≤ p → 0 ≤ len → p + len ≤ zlen b → safe L (e1000_tx_frame d b p len) (λ r, dev_ok r.1).
Proof.
  intros (Hr & Hb & Hbs & Hc) Hby Hp Hl0 Hl. unfold e1000_tx_frame. destruct (Z.ltb_spec E1000_RX_BUF_SIZE len); [done|]. unfold E1000_RX_BUF_SIZE, E1000_NUM_TX_DESC in *.
  destruct (aget_in (tx_ring d) (tx_cur d)) as (desc & _ & ->); [lia|]. cbn [mbind outcome_bind]. destruct (_ =? 0); [done|].
  destruct (aget_in (tx_buffers d) (tx_cur d)) as (buf & Hbuf & ->); [lia|]. cbn [mbind outcome_bind].
  pose proof (Forall_lookup_1 _ _ _ _ Hbs Hbuf) as [Ez Bbuf]. eapply safe_bind; [apply memcpy_safe; (done || lia)|]. intros buf' [Bb' Eb'].
  rewrite !aset_in by lia. cbn [mbind outcome_bind safe fst]. split; cbn [tx_ring tx_buffers tx_cur]; [by rewrite zlen_insert|].
  split; [by rewrite zlen_insert|]. split; [apply Forall_insert; [done|split; [lia|done]]|]. apply Z.mod_pos_bound. done.
Qed.

Lemma e1000_netif_tx_safe n i nb : net_ok L k n → (i < k)%nat → nb_ok TX_MAX nb → safe L (e1000_netif_tx n i nb) (λ r, net_ok L k r.1).
Proof.
  intros Hok Hi Hnb. unfold e1000_netif_tx. sstep get_if_safe; [exact Hok|exact Hi|]. intros f [Hf (_ & _ & Hdrv)].
  destruct (nif_driver f) as [j|]; [|cbn [safe fst]; auto with net_ok_db].
  destruct (aget_in (n_devs n) (Z.of_nat j)) as (d & Hd & ->); [unfold zlen; lia|]. cbn [mbind outcome_bind].
  destruct (negb (e_initialized d)); [cbn [safe fst]; auto with net_ok_db|].
  rewrite (nb_len TX_MAX) by (done || by vm_compute). pose proof Hnb as [].
  assert (0 ≤ u16 (nb_tail nb - nb_data nb) ≤ nb_tail nb - nb_data nb) as Hu by (split; [apply u16_range|apply Z.mod_le; lia]).
  sstep e1000_tx_frame_safe; [apply (Forall_lookup_1 _ _ _ _ (ok_devs _ _ _ Hok) Hd)|done|done|lia|lia|]. intros [d' rc] Hd'. cbn [fst] in Hd'.
  rewrite aset_in by (unfold zlen; lia). cbn [mbind outcome_bind safe fst]. apply ok_free. destruct Hok. split; try done; cbn [set_devs n_ifs n_devs].
  - by rewrite length_insert.
  - by apply Forall_insert.
Qed.

Lemma link_tx_safe depth : tx_safe L k (link_tx depth).
Proof.
  induction depth as [|depth IH]; intros n i nb Hok Hi Hnb (f & Hf & Htx); cbn [link_tx]; rewrite (get_if_Some _ _ _ Hf); cbn [mbind outcome_bind].
  - pose proof (Forall_lookup_1 _ _ _ _ (ok_ifs _ _ _ Hok) Hf) as (_ & HL & _).
    destruct (nif_tx f) as [[]|]; [by apply HL|by apply e1000_netif_tx_safe|done].
  - destruct (nif_tx f) as [[]|]; [by apply loopback_tx_safe|by apply e1000_netif_tx_safe|done].
Qed.

End Links.

(** C3. Memory safety of the receive path: whatever bytes a frame holds, the stack
    ([netif_rx] with everything it calls: Ethernet, ARP, IPv4, ICMP, UDP with the
    sockets and the DNS resolver behind it, TCP, and what they send in answer) makes no
    access outside an object and does not panic, and its tables stay well formed. *)
Theorem net_rx_safe `{KmemOk} depth k n i nb :
  net_ok True k n → (i < k)%nat → nb_ok RX_MAX nb →
  match stack_rx (link_tx depth) n i nb with Ret n' => net_ok True k n' | Loop => True | Panic | Fault => False end.
Proof. intros Hok Hi Hnb. exact (stack_rx_safe True k (link_tx depth) (link_tx_safe True k depth) n i nb Hok Hi Hnb). Qed.

(** C23. On a machine none of whose interfaces loops back, handling a frame always
    ends, and does so without entering the link layer again. *)
Theorem net_rx_terminates `{KmemOk} k n i nb :
  net_ok False k n → (i < k)%nat → nb_ok RX_MAX nb → ∃ n', stack_rx (link_tx 0) n i nb = Ret n' ∧ net_ok False k n'.
Proof.
  intros Hok Hi Hnb. pose proof (stack_rx_safe False k (link_tx 0) (link_tx_safe False k 0) n i nb Hok Hi Hnb) as Hs.
  destruct (stack_rx (link_tx 0) n i nb) as [n'| | |]; try done. by exists n'.
Qed.

(** ** Examples *)

Definition no_tcb0 : tcp_tcb := mk_tcb false TCP_CLOSED 0 0 0 0 0 0 0 0 0 0 0.

(** A frame with arbitrary contents. *)
Definition example_frame : netbuf := mk_nb ([1; 2; 3; 4; 5; 6; 1; 2; 3; 4; 5; 6; 8; 0] ++ replicate 30 0x46) 0 44 None None None None.

Lemma example_frame_ok : nb_ok RX_MAX example_frame.
Proof. split; try (by vm_compute). cbn [example_frame nb_buf]. apply bytes_app. split; [bytes_of|]. apply Forall_replicate. by vm_compute. Qed.

Definition example_full : net := example_net (replicate 16 no_bind) (replicate 8 no_tcb0) (replicate 16 zero_sock).

Lemma example_full_ok : net_ok True 1 example_full.
Proof.
  split; try done.
  - constructor; [|constructor]. split; [apply eth_zero_mac|]. done.
  - constructor; [unfold LO; lia|constructor].
  - split; [done|]. apply Forall_replicate, eth_zero_mac.
  - constructor; [|constructor]. cbn. unfold LO. lia.
  - split; [done|]. by apply Forall_replicate.
  - split; [done|]. apply Forall_replicate, zero_sock_ok.
Qed.

Lemma net_rx_safe_witness :
  match @stack_rx example_kmem (@link_tx example_kmem 3) example_full 0 example_frame with
  | Ret n' => net_ok True 1 n' | Loop => True | Panic | Fault => False end.
Proof. apply (@net_rx_safe example_kmem example_kmem_ok 3 1 example_full 0 example_frame example_full_ok); [lia|apply example_frame_ok]. Defined.

(** The same machine with a network card in place of the loopback interface. *)
Definition example_dev : e1000_device :=
  mk_e1000 (replicate 32 (mk_rxd 0 0)) (replicate 32 (mk_txd 0 0 1)) (replicate 32 (replicate 4096 0)) (replicate 32 (replicate 4096 0)) 0 0 0 31 0 true.
Definition example_eth : netif :=
  mk_nif [101; 116; 104; 48; 0; 0; 0; 0] [0x52; 0x54; 0; 0x12; 0x34; 0x56] (ip_make 10 0 2 15) (ip_make 255 255 255 0) (ip_make 10 0 2 2) 1500 5
    (Some e1000_netif_tx_fn) (Some 0%nat) zero_stats true.
Definition example_nic : net := set_devs (set_ifs example_full [example_eth]) [example_dev].

Lemma example_nic_ok : net_ok False 1 example_nic.
Proof.
  destruct example_full_ok. split; try done.
  - constructor; [|constructor]. split; [split; [done|bytes_of]|]. split; [done|]. cbn. lia.
  - constructor; [|constructor]. split; [done|]. split; [done|]. split; [|by vm_compute]. apply Forall_replicate. split; [by vm_compute|]. by apply Forall_replicate.
Qed.

Lemma net_rx_terminates_witness :
  ∃ n', @stack_rx example_kmem (@link_tx example_kmem 0) example_nic 0 example_frame = Ret n' ∧ net_ok False 1 n'.
Proof. apply (@net_rx_terminates example_kmem example_kmem_ok 1 example_nic 0 example_frame example_nic_ok); [lia|apply example_frame_ok]. Defined.
