(* ===== verification/Path.v ===== *)
(** Paths ([kernel/fs/path.c]). [path_resolve] copies the working directory and the path to a buffer, keeps a stack of the
    components and writes the result; the theorem says that this is the normal form of the path, computed on lists of
    components. A string is a list that has a NUL; [None] is a null pointer. *)

From S2P Require Import Prelude CString.

(** ** Definitions *)

Definition VFS_NAME_MAX : Z := 128.
Definition VFS_PATH_MAX : Z := 256.
Definition MAX_COMPONENTS : Z := 32.
Definition SLASH : Z := 47.
Definition DOT : Z := 46.

(** [while (i < wlen && p(w[i])) i++]. *)
Fixpoint scan (fuel : nat) (p : Z → bool) (w : list Z) (wlen i : Z) : outcome Z :=
  if i <? wlen then
    c ← aget w i;
    if p c then match fuel with O => Loop | S fuel => scan fuel p w wlen (i + 1) end else Ret i
  else Ret i.

(** [comps] and [lens], with [top] of their elements in use. *)
Record cstack := mk_cstack { cs_comps : list (Z * Z); cs_top : Z }.

(** The loop over the components; [None] is the return with [-SYS_ENAMETOOLONG]. *)
Fixpoint tokenize (fuel : nat) (w : list Z) (wlen i : Z) (st : cstack) : outcome (option cstack) :=
  if i <? wlen then
    i ← scan (Z.to_nat wlen) (λ c, c =? SLASH) w wlen i;
    let start := i in
    i ← scan (Z.to_nat wlen) (λ c, negb (c =? SLASH)) w wlen i;
    let clen := i - start in
    match fuel with
    | O => Loop
    | S fuel =>
        if clen =? 0 then tokenize fuel w wlen i st
        else
          dot ← (if clen =? 1 then c ← aget w start; Ret (c =? DOT) else Ret false);
          if dot : bool then tokenize fuel w wlen i st
          else
            dotdot ← (if clen =? 2 then c ← aget w start; c' ← aget w (start + 1); Ret ((c =? DOT) && (c' =? DOT)) else Ret false);
            if dotdot : bool then tokenize fuel w wlen i (mk_cstack (cs_comps st) (if 0 <? cs_top st then cs_top st - 1 else cs_top st))
            else if MAX_COMPONENTS <=? cs_top st then Ret None
            else
              comps ← aset (cs_comps st) (cs_top st) (start, clen);
              tokenize fuel w wlen i (mk_cstack comps (cs_top st + 1))
    end
  else Ret (Some st).

(** [/a/b/c] from the components; [inr] is the return with [-SYS_ENAMETOOLONG]. *)
Definition rebuild_step (w : list Z) (comps : list (Z * Z)) (out_size c : Z) (st : list Z * Z) : outcome (list Z * Z + list Z) :=
  let '(out, o) := st in
  '(start, len) ← aget comps c;
  if out_size <=? o + 1 + len then Ret (inr out)
  else
    out ← aset out o SLASH;
    out ← memcpy_from out (o + 1) w start len;
    Ret (inl (out, o + 1 + len)).

(** [cwd && cwd[0]]. *)
Definition base_of (cwd : option (list Z)) : outcome (list Z) :=
  match cwd with
  | None => Ret [SLASH; 0]
  | Some cwd => c ← aget cwd 0; Ret (if negb (c =? 0) then cwd else [SLASH; 0])
  end.

(** The working directory in [work], unless the path is absolute; [None] is the return with [-SYS_ENAMETOOLONG]. *)
Definition seed_work (cwd : option (list Z)) (path w : list Z) : outcome (option (list Z * Z)) :=
  c ← aget path 0;
  if negb (c =? SLASH) then
    base ← base_of cwd;
    bl ← strlen base;
    if VFS_PATH_MAX * 2 - 2 <=? bl then Ret None
    else
      w ← memcpy_from w 0 base 0 bl;
      w ← aset w bl SLASH;
      Ret (Some (w, bl + 1))
  else Ret (Some (w, 0)).

(** The components of [w], written to [out]. *)
Definition resolve_work (w : list Z) (wlen : Z) (out : list Z) (out_size : Z) : outcome (list Z * Z) :=
  r ← tokenize (Z.to_nat wlen) w wlen 0 (mk_cstack (replicate (Z.to_nat MAX_COMPONENTS) (0, 0)) 0);
  match r with
  | None => Ret (out, - SYS_ENAMETOOLONG)
  | Some st =>
      if cs_top st =? 0 then
        out ← aset out 0 SLASH;
        out ← aset out 1 0;
        Ret (out, 0)
      else
        r ← find_range 0 (cs_top st) (rebuild_step w (cs_comps st) out_size) (out, 0);
        match r with
        | inr out => Ret (out, - SYS_ENAMETOOLONG)
        | inl (out, o) => out ← aset out o 0; Ret (out, 0)
        end
  end.

(** The result has the bytes of [out] after the call. *)
Definition path_resolve (cwd path : option (list Z)) (out : list Z) (out_size : Z) : outcome (list Z * Z) :=
  match path with
  | None => Ret (out, - SYS_EINVAL)
  | Some path =>
      if out_size <? 2 then Ret (out, - SYS_EINVAL)
      else
        let wcap := VFS_PATH_MAX * 2 in
        r ← seed_work cwd path (replicate (Z.to_nat wcap) 0);
        match r with
        | None => Ret (out, - SYS_ENAMETOOLONG)
        | Some (w, wlen) =>
            pl ← strlen path;
            if wcap <=? wlen + pl then Ret (out, - SYS_ENAMETOOLONG)
            else
              w ← memcpy_from w wlen path 0 pl;
              let wlen := wlen + pl in
              w ← aset w wlen 0;
              resolve_work w wlen out out_size
        end
  end.

(** The string that the result points to. *)
Definition path_basename (path : list Z) : outcome (list Z) :=
  slash ← strrchr path SLASH;
  Ret (match slash with Some i => drop (Z.to_nat (i + 1)) path | None => path end).

(** [while (n > lo && p(s[n - 1])) n--]. *)
Fixpoint scan_down (fuel : nat) (p : Z → bool) (s : list Z) (lo n : Z) : outcome Z :=
  if lo <? n then
    c ← aget s (n - 1);
    if p c then match fuel with O => Loop | S fuel => scan_down fuel p s lo (n - 1) end else Ret n
  else Ret n.

Definition path_parent (abspath : list Z) (out : list Z) (out_size : Z) : outcome (list Z * Z) :=
  n ← strlen abspath;
  if (n =? 0) || (out_size <? 2) then Ret (out, - SYS_EINVAL)
  else
    n ← scan_down (Z.to_nat n) (λ c, negb (c =? SLASH)) abspath 0 n;
    n ← scan_down (Z.to_nat n) (λ c, c =? SLASH) abspath 1 n;
    let n := if n =? 0 then 1 else n in
    if out_size <=? n then Ret (out, - SYS_ENAMETOOLONG)
    else
      out ← memcpy_from out 0 abspath 0 n;
      out ← aset out n 0;
      Ret (out, 0).

(** ** Specification *)

(** The components of a string: what is between slashes, if not empty. *)
Definition flush (acc : list Z) : list (list Z) := match acc with [] => [] | _ => [acc] end.
Fixpoint comps_from (acc l : list Z) : list (list Z) :=
  match l with
  | [] => flush acc
  | c :: l => if c =? SLASH then flush acc ++ comps_from [] l else comps_from (acc ++ [c]) l
  end.
Definition comps (l : list Z) : list (list Z) := comps_from [] l.

(** The path so far and the next component; [None] when it has too many components. *)
Definition walk (stk : option (list (list Z))) (c : list Z) : option (list (list Z)) :=
  stk ← stk;
  if decide (c = [DOT]) then Some stk
  else if decide (c = [DOT; DOT]) then Some (removelast stk)
  else if MAX_COMPONENTS <=? zlen stk then None
  else Some (stk ++ [c]).
Definition normal (cs : list (list Z)) : option (list (list Z)) := foldl walk (Some []) cs.

(** The string of a normal path. *)
Definition slashed (cs : list (list Z)) : list Z := concat ((λ c, SLASH :: c) <$> cs).
Definition join (cs : list (list Z)) : list Z := match cs with [] => [SLASH] | _ => slashed cs end.

(** A component of a normal path. *)
Definition plain (c : list Z) : Prop := c ≠ [] ∧ SLASH ∉ c ∧ 0 ∉ c ∧ c ≠ [DOT] ∧ c ≠ [DOT; DOT].

(** The working directory of a relative path. *)
Definition base (cwd : option (list Z)) : list Z := match cwd with Some (c :: cwd) => c :: cwd | _ => [SLASH] end.

(** What [path_resolve] computes, on strings: the normal form, or the error. *)
Definition resolved (cwd : option (list Z)) (path : list Z) (out_size : Z) : Z + list (list Z) :=
  let full := (if decide (head path = Some SLASH) then [] else base cwd ++ [SLASH]) ++ path in
  let too_long := if decide (head path = Some SLASH) then false else VFS_PATH_MAX * 2 - 2 <=? zlen (base cwd) in
  if too_long || (VFS_PATH_MAX * 2 <=? zlen full) then inl (- SYS_ENAMETOOLONG)
  else
    match normal (comps full) with
    | None => inl (- SYS_ENAMETOOLONG)
    | Some cs => if decide (cs ≠ [] ∧ out_size ≤ zlen (join cs)) then inl (- SYS_ENAMETOOLONG) else inr cs
    end.

(** ** Lemmas *)

Lemma scan_spec fuel p w wlen i :
  0 ≤ i ≤ wlen → wlen ≤ zlen w → wlen - i ≤ Z.of_nat fuel →
  ∃ j, scan fuel p w wlen i = Ret j ∧ i ≤ j ≤ wlen ∧ (∀ k c, i ≤ k < j → w !! Z.to_nat k = Some c → p c = true) ∧
    (∀ c, j < wlen → w !! Z.to_nat j = Some c → p c = false).
Proof.
  revert i. induction fuel as [|fuel IH]; intros i Hi Hw Hf; cbn [scan]; (destruct (Z.ltb_spec i wlen); [|exists i; split_and!; try done; lia]); [lia|].
  destruct (aget_in w i) as (c & Hc & ->); [lia|]. cbn [mbind outcome_bind]. destruct (p c) eqn:Ep.
  - destruct (IH (i + 1)) as (j & -> & Hj & H1 & H2); [lia|done|lia|]. exists j. split_and!; [done|lia|lia| |done].
    intros k d Hk Hd. destruct (decide (k = i)) as [->|]; [congruence|]. apply (H1 k d); [lia|done].
  - exists i. split_and!; try done; try lia. intros d _ Hd. congruence.
Qed.

Lemma comps_from_word acc word rest : SLASH ∉ word → comps_from acc (word ++ rest) = comps_from (acc ++ word) rest.
Proof.
  revert acc. induction word as [|c word IH]; intros acc Hw; [by rewrite app_nil_r|]. apply not_elem_of_cons in Hw as [Hc Hw]. cbn [app comps_from].
  destruct (Z.eqb_spec c SLASH); [congruence|]. rewrite IH by done. by rewrite <-app_assoc.
Qed.

Lemma comps_word word rest : SLASH ∉ word → word ≠ [] → (rest = [] ∨ ∃ r, rest = SLASH :: r) → comps (word ++ rest) = word :: comps rest.
Proof.
  intros Hw Hne Hr. unfold comps. rewrite comps_from_word by done. rewrite app_nil_l. destruct Hr as [->|[r ->]]; cbn [comps_from]; [|rewrite Z.eqb_refl]; by destruct word.
Qed.

Lemma comps_skip sl rest : Forall (λ c, c = SLASH) sl → comps (sl ++ rest) = comps rest.
Proof. induction 1 as [|c sl -> _ IH]; [done|]. unfold comps in *. cbn [app comps_from]. rewrite Z.eqb_refl. exact IH. Qed.

Lemma zslice_split {A} (l : list A) i j n : 0 ≤ i ≤ j → j ≤ n → zslice l i (n - i) = zslice l i (j - i) ++ zslice l j (n - j).
Proof.
  intros Hi Hj. unfold zslice. rewrite <-(take_drop (Z.to_nat (j - i)) (take (Z.to_nat (n - i)) _)). f_equal.
  - rewrite take_take. f_equal. lia.
  - rewrite skipn_firstn_comm, drop_drop. f_equal; [lia|]. f_equal. lia.
Qed.

Lemma elem_of_zslice {A} (l : list A) off n x : 0 ≤ off → 0 ≤ n → x ∈ zslice l off n → ∃ k, off ≤ k < off + n ∧ l !! Z.to_nat k = Some x.
Proof.
  intros Ho Hn Hx. apply list_elem_of_lookup in Hx as [i Hi]. rewrite <-(Nat2Z.id i) in Hi. rewrite lookup_zslice in Hi by lia.
  destruct (decide (Z.of_nat i < n)); [|done]. exists (off + Z.of_nat i). split; [lia|done].
Qed.

(** The stack in memory is the path [stk]. *)
Definition stacked (w : list Z) (wlen : Z) (st : cstack) (stk : list (list Z)) : Prop :=
  cs_top st = zlen stk ∧ zlen (cs_comps st) = MAX_COMPONENTS ∧ zlen stk ≤ MAX_COMPONENTS ∧
  ∀ k c, 0 ≤ k → stk !! Z.to_nat k = Some c → ∃ start, cs_comps st !! Z.to_nat k = Some (start, zlen c) ∧ 0 ≤ start ∧ start + zlen c ≤ wlen ∧ zslice w start (zlen c) = c.

Lemma stacked_pop w wlen st stk : stacked w wlen st stk →
  stacked w wlen (mk_cstack (cs_comps st) (if 0 <? cs_top st then cs_top st - 1 else cs_top st)) (removelast stk).
Proof.
  intros (Ht & Hc & Hm & Hs). destruct (decide (stk = [])) as [->|Hne].
  - rewrite Ht. split_and!; try done.
  - assert (zlen (removelast stk) = zlen stk - 1) as Hz.
    { destruct (exists_last Hne) as (l & x & ->). rewrite removelast_last, zlen_app, zlen_cons. change (zlen []) with 0. lia. }
    assert (0 < zlen stk) as Hp by (destruct stk; [done|rewrite zlen_cons; pose proof (zlen_nonneg stk); lia]).
    rewrite Ht. destruct (Z.ltb_spec 0 (zlen stk)); [|lia]. split_and!; [cbn; lia|done|lia|]. intros k c Hk Hkc. apply Hs; [done|].
    destruct (exists_last Hne) as (l & x & ->). rewrite removelast_last in Hkc. apply lookup_lt_Some in Hkc as Hlt. by rewrite lookup_app_l.
Qed.

Lemma stacked_push w wlen st stk start c :
  stacked w wlen st stk → zlen stk < MAX_COMPONENTS → 0 ≤ start → start + zlen c ≤ wlen → zslice w start (zlen c) = c →
  ∃ cs, aset (cs_comps st) (cs_top st) (start, zlen c) = Ret cs ∧ stacked w wlen (mk_cstack cs (cs_top st + 1)) (stk ++ [c]).
Proof.
  intros (Ht & Hc & Hm & Hs) Hlt Hst Hen Hsl. pose proof (zlen_nonneg stk). rewrite Ht, aset_in by lia. eexists. split; [done|].
  split_and!; [cbn; rewrite zlen_app; done|cbn; by rewrite zlen_insert|rewrite zlen_app; change (zlen [c]) with 1; lia|].
  intros k d Hk Hd. cbn [cs_comps]. rewrite lookup_insert_Z by lia. dec_if as H'.
  - subst k. rewrite lookup_app_r in Hd by (unfold zlen; lia). replace (Z.to_nat (zlen stk) - length stk)%nat with O in Hd by (unfold zlen; lia). injection Hd as <-. by exists start.
  - apply Hs; [done|]. apply lookup_app_Some in Hd as [Hd|[Hge Hd]]; [done|]. apply lookup_lt_Some in Hd. cbn in Hd. unfold zlen in H'. lia.
Qed.

(** One turn of the loop: the slashes and the word at [i]. *)
Lemma word_at w wlen i : 0 ≤ i < wlen → wlen ≤ zlen w →
  ∃ start j, scan (Z.to_nat wlen) (λ c, c =? SLASH) w wlen i = Ret start ∧
    scan (Z.to_nat wlen) (λ c, negb (c =? SLASH)) w wlen start = Ret j ∧ i ≤ start ≤ j ∧ i < j ≤ wlen ∧
    (let word := zslice w start (j - start) in zlen word = j - start ∧
      comps (zslice w i (wlen - i)) = flush word ++ comps (zslice w j (wlen - j))).
Proof.
  intros Hi Hw. destruct (scan_spec (Z.to_nat wlen) (λ c, c =? SLASH) w wlen i) as (start & E1 & H1 & Hs1 & Hn1); [lia..|].
  destruct (scan_spec (Z.to_nat wlen) (λ c, negb (c =? SLASH)) w wlen start) as (j & E2 & H2 & Hs2 & Hn2); [lia..|].
  exists start, j. split_and!; try done; try lia.
  - destruct (decide (start = i)) as [->|]; [|lia]. destruct (decide (j = i)) as [->|]; [|lia].
    destruct (lookup_in w i) as [c Hc]; [lia|]. specialize (Hn1 c ltac:(lia) Hc). specialize (Hn2 c ltac:(lia) Hc). cbn in *. by rewrite Hn1 in Hn2.
  - assert (zlen (zslice w start (j - start)) = j - start) as Hz by (apply zlen_zslice; lia). split; [done|].
    rewrite (zslice_split w i start wlen) by lia. rewrite comps_skip.
    2:{ apply Forall_forall. intros c Hc. apply elem_of_zslice in Hc as (k & Hk & Hkc); [|lia..]. specialize (Hs1 k c ltac:(lia) Hkc). cbn in Hs1. lia. }
    rewrite (zslice_split w start j wlen) by lia.
    destruct (decide (j = start)) as [->|Hne].
    { replace (start - start) with 0 by lia. reflexivity. }
    rewrite comps_word.
    + destruct (zslice w start (j - start)); [change (zlen []) with 0 in Hz; lia|done].
    + intros Hc. apply elem_of_zslice in Hc as (k & Hk & Hkc); [|lia..]. specialize (Hs2 k _ ltac:(lia) Hkc). cbn in Hs2. done.
    + intros E. rewrite E in Hz. change (zlen []) with 0 in Hz. lia.
    + destruct (decide (j = wlen)) as [->|]; [left; by replace (wlen - wlen) with 0 by lia|]. right.
      destruct (lookup_in w j) as [c Hc]; [lia|]. specialize (Hn2 c ltac:(lia) Hc). cbn in Hn2.
      exists (zslice w (j + 1) (wlen - (j + 1))). rewrite (zslice_split w j (j + 1) wlen) by lia.
      apply list_eq_Z. intros k Hk. assert (c = SLASH) as -> by lia.
      assert (zslice w j (j + 1 - j) = [SLASH]) as ->; [|done]. unfold zslice. replace (j + 1 - j) with 1 by lia. by rewrite (drop_S _ SLASH) by done.
Qed.

Lemma fold_walk_None cs : foldl walk None cs = None.
Proof. by induction cs. Qed.

Lemma zslice_at {A} (w : list A) start n x k : zslice w start n = x → 0 ≤ start → 0 ≤ k < n → w !! Z.to_nat (start + k) = x !! Z.to_nat k.
Proof. intros <- Hs Hk. rewrite lookup_zslice by lia. dec_if; [done|lia]. Qed.

(** The tests of the loop for [.] and [..]. *)
Lemma dot_test w start word : 0 ≤ start → zslice w start (zlen word) = word →
  (if zlen word =? 1 then c ← aget w start; Ret (c =? DOT) else Ret false) = Ret (bool_decide (word = [DOT])).
Proof.
  intros Hs Hw. destruct (Z.eqb_spec (zlen word) 1) as [E|E].
  - destruct word as [|c [|? wd]]; [done| |rewrite !zlen_cons in E; pose proof (zlen_nonneg wd); lia].
    rewrite (aget_Some w start c); [|done|by rewrite <-(Z.add_0_r start), (zslice_at _ _ _ _ 0 Hw) by lia].
    cbn [mbind outcome_bind]. f_equal. destruct (Z.eqb_spec c DOT) as [->|]; [by rewrite bool_decide_true|rewrite bool_decide_false; congruence].
  - rewrite bool_decide_false; [done|]. intros ->. by apply E.
Qed.

Lemma dotdot_test w start word : 0 ≤ start → zslice w start (zlen word) = word →
  (if zlen word =? 2 then c ← aget w start; c' ← aget w (start + 1); Ret ((c =? DOT) && (c' =? DOT)) else Ret false) = Ret (bool_decide (word = [DOT; DOT])).
Proof.
  intros Hs Hw. destruct (Z.eqb_spec (zlen word) 2) as [E|E].
  - destruct word as [|c [|c' [|? wd]]]; [done|done| |rewrite !zlen_cons in E; pose proof (zlen_nonneg wd); lia]. rewrite E in Hw.
    rewrite (aget_Some w start c), (aget_Some w (start + 1) c'); [|lia|by rewrite (zslice_at _ _ _ _ 1 Hw) by lia|done|by rewrite <-(Z.add_0_r start), (zslice_at _ _ _ _ 0 Hw) by lia].
    cbn [mbind outcome_bind]. f_equal. destruct (Z.eqb_spec c DOT) as [->|], (Z.eqb_spec c' DOT) as [->|]; cbn; first [by rewrite bool_decide_true|rewrite bool_decide_false; congruence].
  - rewrite bool_decide_false; [done|]. intros ->. by apply E.
Qed.

Lemma tokenize_spec fuel w wlen i st stk :
  0 ≤ i ≤ wlen → wlen ≤ zlen w → wlen - i ≤ Z.of_nat fuel → stacked w wlen st stk →
  ∃ r, tokenize fuel w wlen i st = Ret r ∧
    match foldl walk (Some stk) (comps (zslice w i (wlen - i))) with
    | None => r = None
    | Some stk' => ∃ st', r = Some st' ∧ stacked w wlen st' stk'
    end.
Proof.
  revert i st stk. induction fuel as [|fuel IH]; intros i st stk Hi Hw Hf Hst; cbn [tokenize].
  { destruct (Z.ltb_spec i wlen); [lia|]. replace (wlen - i) with 0 by lia. eexists. split; [done|]. by exists st. }
  destruct (Z.ltb_spec i wlen). 2:{ replace (wlen - i) with 0 by lia. eexists. split; [done|]. by exists st. }
  destruct (word_at w wlen i) as (start & j & -> & E2 & H1 & H2 & Hz & ->); [lia..|]. cbn [mbind outcome_bind]. rewrite E2. cbn [mbind outcome_bind].
  set (word := zslice w start (j - start)) in *. rewrite <-Hz. assert (zslice w start (zlen word) = word) as Hword by (by rewrite Hz).
  rewrite foldl_app. destruct (Z.eqb_spec (zlen word) 0) as [E|E].
  { destruct word as [|? wd]; [|rewrite zlen_cons in E; pose proof (zlen_nonneg wd); lia]. cbn [flush foldl]. apply IH; [lia..|done]. }
  assert (flush word = [word]) as -> by (by destruct word). cbn [foldl].
  rewrite dot_test by (done || lia). cbn [mbind outcome_bind]. unfold walk at 2. cbn [mbind option_bind]. case_bool_decide as Hd; (dec_if as Hd'; [|]); try done.
  { apply IH; [lia..|done]. }
  rewrite dotdot_test by (done || lia). cbn [mbind outcome_bind]. case_bool_decide as Hdd; (dec_if as Hdd'; [|]); try done.
  { apply IH; [lia..|by apply stacked_pop]. }
  rewrite (proj1 Hst). destruct (Z.leb_spec MAX_COMPONENTS (zlen stk)).
  { rewrite fold_walk_None. by eexists. }
  destruct (stacked_push w wlen st stk start word) as (cs & E3 & Hst'); [done|lia|lia|lia|done|]. rewrite (proj1 Hst) in E3, Hst'. rewrite E3. cbn [mbind outcome_bind].
  apply IH; [lia..|done].
Qed.

Lemma slashed_snoc cs c : slashed (cs ++ [c]) = slashed cs ++ SLASH :: c.
Proof. unfold slashed. rewrite fmap_app, concat_app. cbn. by rewrite app_nil_r. Qed.

Lemma slashed_take_le cs k : zlen (slashed (take k cs)) ≤ zlen (slashed cs).
Proof. rewrite <-(take_drop k cs) at 2. unfold slashed. rewrite fmap_app, concat_app, zlen_app. pose proof (zlen_nonneg (concat ((λ c, SLASH :: c) <$> drop k cs))). lia. Qed.

Lemma append_at {A} (out d c : list A) x :
  zslice out 0 (zlen d) = d → zlen d + 1 + zlen c ≤ zlen out →
  zslice (zsplice (<[Z.to_nat (zlen d) := x]> out) (zlen d + 1) c) 0 (zlen d + 1 + zlen c) = d ++ x :: c.
Proof.
  intros Hd Hl. pose proof (zlen_nonneg d). pose proof (zlen_nonneg c).
  replace (zlen d + 1 + zlen c) with (zlen d + 1 + zlen c - 0) by lia. rewrite (zslice_split _ 0 (zlen d) (zlen d + 1 + zlen c)) by lia.
  rewrite (zslice_split _ (zlen d) (zlen d + 1) (zlen d + 1 + zlen c)) by lia. replace (zlen d + 1 + zlen c - (zlen d + 1)) with (zlen c) by lia.
  rewrite zslice_zsplice by (rewrite ?zlen_insert; lia). rewrite !zslice_zsplice_ne by (rewrite ?zlen_insert; lia).
  f_equal; [|change (x :: c) with ([x] ++ c); f_equal].
  - rewrite Z.sub_0_r. etrans; [|exact Hd]. apply list_eq_Z. intros j Hj. rewrite !lookup_zslice by lia. dec_if; [|done].
    rewrite lookup_insert_Z by lia. dec_if; [lia|done].
  - unfold zslice. replace (zlen d + 1 - zlen d) with 1 by lia. rewrite (drop_S _ x); [done|]. apply list_lookup_insert_eq. unfold zlen in *. lia.
Qed.

(** The loop that writes the components. *)
Lemma rebuild_spec w wlen st cs out out_size :
  stacked w wlen st cs → wlen ≤ zlen w → 0 < out_size ≤ zlen out →
  if zlen (slashed cs) <? out_size then
    ∃ out', find_range 0 (cs_top st) (rebuild_step w (cs_comps st) out_size) (out, 0) = Ret (inl (out', zlen (slashed cs))) ∧
      zlen out' = zlen out ∧ zslice out' 0 (zlen (slashed cs)) = slashed cs
  else ∃ out', find_range 0 (cs_top st) (rebuild_step w (cs_comps st) out_size) (out, 0) = Ret (inr out') ∧ zlen out' = zlen out.
Proof.
  intros (Ht & Hc & Hm & Hs) Hw Ho. pose proof (zlen_nonneg cs) as Hcs.
  destruct (find_range_inv
    (λ k s, let d := slashed (take (Z.to_nat k) cs) in s.2 = zlen d ∧ zlen s.1 = zlen out ∧ zslice s.1 0 (zlen d) = d ∧ zlen d < out_size)
    (λ r, zlen r = zlen out ∧ out_size ≤ zlen (slashed cs)) (rebuild_step w (cs_comps st) out_size) 0 (cs_top st) (out, 0))
    as [([out' o] & -> & Ho' & Hl & Hz & Hlt)|(out' & -> & Hl & Hge)].
  - lia.
  - intros k [out' o] Hk (Ho' & Hl & Hz & Hlt). cbn [fst snd] in *. subst o. destruct (lookup_in cs k) as [c Hkc]; [lia|].
    destruct (Hs k c ltac:(lia) Hkc) as (start & Hks & H1 & H2 & Hsl). unfold rebuild_step. rewrite (aget_Some _ k _ ltac:(lia) Hks). cbn [mbind outcome_bind].
    assert (take (Z.to_nat (k + 1)) cs = take (Z.to_nat k) cs ++ [c]) as Etk by (replace (Z.to_nat (k + 1)) with (S (Z.to_nat k)) by lia; by apply take_S_r).
    set (d := slashed (take (Z.to_nat k) cs)) in *. pose proof (zlen_nonneg d). pose proof (zlen_nonneg c).
    assert (slashed (take (Z.to_nat (k + 1)) cs) = d ++ SLASH :: c) as Ed by (by rewrite Etk, slashed_snoc).
    destruct (Z.leb_spec out_size (zlen d + 1 + zlen c)) as [Hge|Hfit].
    + right. exists out'. split_and!; [done|done|]. pose proof (slashed_take_le cs (Z.to_nat (k + 1))) as Hle. rewrite Ed, zlen_app, zlen_cons in Hle. lia.
    + rewrite aset_in by lia. cbn [mbind outcome_bind]. rewrite memcpy_from_spec by (rewrite ?zlen_insert; lia). cbn [mbind outcome_bind]. rewrite Hsl.
      left. eexists. split; [done|]. cbn [fst snd]. rewrite Ed, zlen_app, zlen_cons. split_and!; [lia|by rewrite zlen_zsplice, zlen_insert by (rewrite ?zlen_insert; lia)| |lia].
      rewrite Z.add_assoc. apply append_at; [done|lia].
  - change (0 = 0 ∧ zlen out = zlen out ∧ @nil Z = [] ∧ 0 < out_size). split_and!; [done..|lia].
  - cbn [fst snd] in *. rewrite Ht, take_ge in Ho', Hz, Hlt by (unfold zlen; lia). destruct (Z.ltb_spec (zlen (slashed cs)) out_size); [|lia].
    subst o. by exists out'.
  - destruct (Z.ltb_spec (zlen (slashed cs)) out_size); [lia|]. by exists out'.
Qed.

(** The components are not empty and have no slash; a normal path has no [.] and [..]. *)
Lemma comps_from_good acc l : SLASH ∉ acc → 0 ∉ acc → 0 ∉ l → Forall (λ c, c ≠ [] ∧ SLASH ∉ c ∧ 0 ∉ c) (comps_from acc l).
Proof.
  assert (∀ acc, SLASH ∉ acc → 0 ∉ acc → Forall (λ c, c ≠ [] ∧ SLASH ∉ c ∧ 0 ∉ c) (flush acc)) as Hf.
  { intros [|c a] H1 H2; [constructor|]. by repeat constructor. }
  revert acc. induction l as [|c l IH]; intros acc H1 H2 H3; cbn [comps_from]; [by apply Hf|].
  apply not_elem_of_cons in H3 as [Hc H3]. destruct (Z.eqb_spec c SLASH).
  - apply Forall_app. split; [by apply Hf|]. apply IH; [by apply not_elem_of_nil..|done].
  - apply IH; [| |done]; apply not_elem_of_app; split; try done; intros ?%list_elem_of_singleton; congruence.
Qed.

Lemma walk_plain cs stk stk' :
  foldl walk (Some stk) cs = Some stk' → Forall (λ c, c ≠ [] ∧ SLASH ∉ c ∧ 0 ∉ c) cs → Forall plain stk → Forall plain stk' ∧ (zlen stk ≤ MAX_COMPONENTS → zlen stk' ≤ MAX_COMPONENTS).
Proof.
  intros E Hcs. revert stk E. induction Hcs as [|c cs Hc _ IH]; intros stk E Hs; cbn [foldl] in E; [by injection E as <-|].
  unfold walk at 2 in E. cbn [mbind option_bind] in E. revert E. dec_if as H1; [intros E; by apply (IH stk)|]. dec_if as H2; intros E.
  - assert (zlen (removelast stk) ≤ zlen stk ∧ Forall plain (removelast stk)) as [Hl Hp].
    { destruct (decide (stk = [])) as [->|Hne]; [done|]. destruct (exists_last Hne) as (l & x & ->). rewrite removelast_last, zlen_app. pose proof (zlen_nonneg [x]).
      split; [lia|]. by apply Forall_app in Hs as [? _]. }
    destruct (IH _ E Hp) as [? Hm]. split; [done|]. intros ?. apply Hm. lia.
  - destruct (Z.leb_spec MAX_COMPONENTS (zlen stk)); [by rewrite fold_walk_None in E|]. destruct (IH _ E) as [? Hm].
    + apply Forall_app. split; [done|]. constructor; [|constructor]. by destruct Hc as (? & ? & ?).
    + split; [done|]. intros _. apply Hm. rewrite zlen_app. change (zlen [c]) with 1. lia.
Qed.

(** A normal path is its own normal form. *)
Lemma comps_slashed cs rest : Forall plain cs → (rest = [] ∨ ∃ r, rest = SLASH :: r) → comps (slashed cs ++ rest) = cs ++ comps rest.
Proof.
  intros Hcs Hr. induction Hcs as [|c cs (Hne & Hsl & _) _ IH]; [done|]. unfold slashed in *. cbn [fmap list_fmap concat]. rewrite <-app_assoc.
  change ((SLASH :: c) ++ concat ((λ c, SLASH :: c) <$> cs) ++ rest) with ([SLASH] ++ c ++ concat ((λ c, SLASH :: c) <$> cs) ++ rest).
  rewrite comps_skip by (by repeat constructor). rewrite comps_word; [by rewrite IH|done|done|].
  destruct cs; [done|]. right. cbn. by eexists.
Qed.

Lemma walk_plain_id cs stk : Forall plain cs → zlen stk + zlen cs ≤ MAX_COMPONENTS → foldl walk (Some stk) cs = Some (stk ++ cs).
Proof.
  intros Hcs. revert stk. induction Hcs as [|c cs (_ & _ & _ & Hd & Hdd) _ IH]; intros stk Hl; cbn [foldl]; [by rewrite app_nil_r|]. rewrite zlen_cons in Hl. pose proof (zlen_nonneg cs).
  unfold walk at 2. cbn [mbind option_bind]. dec_if; [done|]. dec_if; [done|]. destruct (Z.leb_spec MAX_COMPONENTS (zlen stk)); [lia|].
  rewrite IH by (rewrite zlen_app; change (zlen [c]) with 1; lia). by rewrite <-app_assoc.
Qed.

Lemma normal_join cs : Forall plain cs → zlen cs ≤ MAX_COMPONENTS → normal (comps (join cs)) = Some cs.
Proof.
  intros Hcs Hl. assert (comps (join cs) = cs) as ->.
  { destruct cs as [|c cs]; [done|]. unfold join. rewrite <-(app_nil_r (slashed _)), comps_slashed by auto. apply app_nil_r. }
  unfold normal. rewrite walk_plain_id; [done|done|]. change (zlen []) with 0. lia.
Qed.

Lemma slashed_no_nul cs : Forall plain cs → 0 ∉ slashed cs.
Proof.
  induction 1 as [|c cs (_ & _ & Hc & _) _ IH]; [apply not_elem_of_nil|]. unfold slashed. cbn [fmap list_fmap concat]. apply not_elem_of_app. split; [|exact IH].
  apply not_elem_of_cons. by split.
Qed.

Lemma cstr_insert l t : zslice l 0 (zlen t) = t → zlen t < zlen l → 0 ∉ t → cstr (<[Z.to_nat (zlen t) := 0]> l) t.
Proof.
  intros Hz Hl H0. split; [done|]. exists (drop (S (length t)) l). etrans; [apply insert_take_drop; unfold zlen in *; lia|].
  unfold zslice in Hz. change (Z.to_nat 0) with O in Hz. rewrite drop_0 in Hz. rewrite Hz. unfold zlen. by rewrite Nat2Z.id.
Qed.

Lemma resolve_work_spec w wlen full out out_size :
  0 ≤ wlen ≤ zlen w → zslice w 0 wlen = full → 0 ∉ full → 2 ≤ out_size ≤ zlen out →
  match normal (comps full) with
  | None => resolve_work w wlen out out_size = Ret (out, - SYS_ENAMETOOLONG)
  | Some cs => Forall plain cs ∧ zlen cs ≤ MAX_COMPONENTS ∧ ∃ out' rc, resolve_work w wlen out out_size = Ret (out', rc) ∧ zlen out' = zlen out ∧
      if decide (cs ≠ [] ∧ out_size ≤ zlen (join cs)) then rc = - SYS_ENAMETOOLONG else rc = 0 ∧ cstr out' (join cs)
  end.
Proof.
  intros Hw Hf H0 Ho. unfold resolve_work.
  destruct (tokenize_spec (Z.to_nat wlen) w wlen 0 (mk_cstack (replicate (Z.to_nat MAX_COMPONENTS) (0, 0)) 0) []) as (r & -> & Hr); [lia|lia|lia|by split_and!|].
  cbn [mbind outcome_bind]. rewrite Z.sub_0_r, Hf in Hr. fold (normal (comps full)) in Hr. destruct (normal (comps full)) as [cs|] eqn:En; [|by subst r].
  destruct Hr as (st & -> & Hst). destruct (walk_plain _ [] cs En) as [Hp Hm]; [apply comps_from_good; [apply not_elem_of_nil..|done]|done|].
  assert (zlen cs ≤ MAX_COMPONENTS) as Hcm by (by apply Hm). split; [done|]. split; [done|]. rewrite (proj1 Hst).
  destruct cs as [|c cs'].
  - change (zlen [] =? 0) with true. cbv iota. rewrite aset_in by lia. cbn [mbind outcome_bind]. rewrite aset_in by (rewrite ?zlen_insert; lia).
    eexists _, 0. split; [done|]. split; [by rewrite !zlen_insert|]. dec_if as H; [by destruct H|]. split; [done|].
    destruct out as [|? [|? out]]; [change (zlen []) with 0 in Ho; lia|change (zlen [z]) with 1 in Ho; lia|]. split; [|by exists out]. by intros ?%list_elem_of_singleton.
  - set (cs := c :: cs') in *. assert (join cs = slashed cs) as Ej by done. assert (zlen cs ≠ 0) as Hne by (unfold cs; rewrite zlen_cons; pose proof (zlen_nonneg cs'); lia).
    destruct (Z.eqb_spec (zlen cs) 0); [done|]. rewrite <-(proj1 Hst). pose proof (rebuild_spec w wlen st cs out out_size Hst ltac:(lia) ltac:(lia)) as Hb. rewrite Ej.
    destruct (Z.ltb_spec (zlen (slashed cs)) out_size) as [Hlt|Hge].
    + destruct Hb as (out' & -> & Hl & Hz). cbn [mbind outcome_bind]. pose proof (zlen_nonneg (slashed cs)). rewrite aset_in by lia. cbn [mbind outcome_bind].
      eexists _, 0. split; [done|]. split; [by rewrite zlen_insert|]. dec_if as H'; [lia|]. split; [done|]. by apply cstr_insert; [|lia|apply slashed_no_nul].
    + destruct Hb as (out' & -> & Hl). cbn [mbind outcome_bind]. eexists _, _. split; [done|]. split; [done|]. dec_if as H; [done|]. destruct H. split; [done|lia].
Qed.

(** The working directory in [work]. *)
Definition cwd_str (cwd t : option (list Z)) : Prop :=
  match cwd, t with None, None => True | Some s, Some t => cstr s t ∧ zlen t < 2 ^ 64 | _, _ => False end.

Lemma base_spec cwd t : cwd_str cwd t → ∃ s, base_of cwd = Ret s ∧ cstr s (base t) ∧ zlen (base t) < 2 ^ 64.
Proof.
  assert (cstr [SLASH; 0] [SLASH]) as Hr by (split; [by intros ?%list_elem_of_singleton|by exists []]).
  destruct cwd as [s|], t as [t|]; cbn [cwd_str]; try done; [|intros _; by exists [SLASH; 0]].
  intros [[H0 [rest ->]] Hl]. cbn [base_of]. destruct t as [|c t].
  - exists [SLASH; 0]. split_and!; [done|done|done].
  - apply not_elem_of_cons in H0 as Hc. rewrite (aget_Some _ 0 c) by done. cbn [mbind outcome_bind]. destruct (Z.eqb_spec c 0); [naive_solver|].
    eexists. split; [done|]. split; [|done]. split; [done|by exists rest].
Qed.

Lemma cstr_head s t c : cstr s t → s !! 0%nat = Some c → if decide (head t = Some SLASH) then c = SLASH else c ≠ SLASH.
Proof. intros [H0 [rest ->]]. destruct t as [|d t]; cbn; intros [= <-]; dec_if as H; [done|done|congruence|congruence]. Qed.

Lemma cstr_len s t : cstr s t → zlen t < zlen s.
Proof. intros [_ [rest ->]]. rewrite zlen_app, zlen_cons. pose proof (zlen_nonneg rest). lia. Qed.

Lemma seed_spec cwd t path tp w :
  cwd_str cwd t → cstr path tp → zlen w = VFS_PATH_MAX * 2 →
  ∃ r, seed_work cwd path w = Ret r ∧
    let pre := if decide (head tp = Some SLASH) then [] else base t ++ [SLASH] in
    if (if decide (head tp = Some SLASH) then false else VFS_PATH_MAX * 2 - 2 <=? zlen (base t)) then r = None
    else ∃ w', r = Some (w', zlen pre) ∧ zlen w' = zlen w ∧ zslice w' 0 (zlen pre) = pre.
Proof.
  intros Hc Hp Hw. unfold seed_work. pose proof (cstr_len _ _ Hp). pose proof (zlen_nonneg tp). destruct (aget_in path 0) as (c & Hc0 & ->); [lia|]. cbn [mbind outcome_bind].
  pose proof (cstr_head _ _ _ Hp Hc0) as Hh. destruct (decide (head tp = Some SLASH)) as [Hs|Hs].
  { subst c. change (SLASH =? SLASH) with true. eexists. split; [done|]. by exists w. }
  destruct (Z.eqb_spec c SLASH); [done|]. cbn [negb]. destruct (base_spec _ _ Hc) as (s & -> & Hb & Hbl). cbn [mbind outcome_bind].
  unfold strlen. rewrite (kstrlen_spec _ _ Hb Hbl). cbn [mbind outcome_bind]. destruct (Z.leb_spec (VFS_PATH_MAX * 2 - 2) (zlen (base t))); [by eexists|].
  pose proof (cstr_len _ _ Hb). pose proof (zlen_nonneg (base t)). rewrite memcpy_from_spec by lia. cbn [mbind outcome_bind].
  assert (zslice s 0 (zlen (base t)) = base t) as Hsb by (rewrite (cstr_prefix _ _ _ Hb) by lia; apply take_ge; unfold zlen; lia).
  rewrite Hsb. rewrite aset_in by (rewrite zlen_zsplice by lia; lia). cbn [mbind outcome_bind]. eexists. split; [done|].
  assert (zlen (zsplice w 0 (base t)) = zlen w) as Hz by (apply zlen_zsplice; lia).
  eexists. rewrite zlen_app. change (zlen [SLASH]) with 1. split_and!; [done|by rewrite zlen_insert|].
  pose proof (append_at (zsplice w 0 (base t)) (base t) [] SLASH) as Ha. change (zlen []) with 0 in Ha. rewrite Z.add_0_r in Ha.
  etrans; [|apply Ha; [apply zslice_zsplice; lia|lia]]. f_equal. unfold zsplice at 2. cbn [app length]. rewrite Nat.add_0_r, take_drop. done.
Qed.

Lemma base_no_nul cwd t : cwd_str cwd t → 0 ∉ base t.
Proof. intros H. by destruct (base_spec _ _ H) as (s & _ & [H0 _] & _). Qed.

Lemma path_resolve_spec cwd t path tp out out_size :
  cwd_str cwd t → cstr path tp → zlen tp < 2 ^ 64 → 2 ≤ out_size ≤ zlen out →
  ∃ out' rc, path_resolve cwd (Some path) out out_size = Ret (out', rc) ∧ zlen out' = zlen out ∧
    match resolved t tp out_size with
    | inl e => rc = e
    | inr cs => rc = 0 ∧ cstr out' (join cs) ∧ Forall plain cs ∧ normal (comps (join cs)) = Some cs
    end.
Proof.
  intros Hc Hp Hl Ho. unfold path_resolve, resolved. destruct (Z.ltb_spec out_size 2); [lia|].
  destruct (seed_spec cwd t path tp (replicate (Z.to_nat (VFS_PATH_MAX * 2)) 0) Hc Hp ltac:(done)) as (r & -> & Hr). cbn [mbind outcome_bind].
  set (pre := if decide (head tp = Some SLASH) then [] else base t ++ [SLASH]) in *. set (long := if decide (head tp = Some SLASH) then false else _) in *. cbv zeta in Hr.
  destruct long; cbn [orb]; [subst r; by eexists _, _|]. destruct Hr as (w & -> & Hw & Hz). rewrite zlen_replicate in Hw.
  pose proof (cstr_len _ _ Hp). pose proof (zlen_nonneg pre). pose proof (zlen_nonneg tp).
  unfold strlen. rewrite (kstrlen_spec _ _ Hp Hl). cbn [mbind outcome_bind]. rewrite zlen_app. destruct (Z.leb_spec (VFS_PATH_MAX * 2) (zlen pre + zlen tp)); [by eexists _, _|].
  rewrite memcpy_from_spec by lia. cbn [mbind outcome_bind].
  assert (zslice path 0 (zlen tp) = tp) as Hsb by (rewrite (cstr_prefix _ _ _ Hp) by lia; apply take_ge; unfold zlen; lia). rewrite Hsb.
  assert (zlen (zsplice w (zlen pre) tp) = zlen w) as Hzl by (apply zlen_zsplice; lia). rewrite aset_in by lia. cbn [mbind outcome_bind].
  set (w' := <[_ := 0]> _). assert (zlen w' = zlen w) as Hw' by (unfold w'; by rewrite zlen_insert).
  assert (zslice w' 0 (zlen pre + zlen tp) = pre ++ tp) as Hz'.
  { etrans; [|exact (f_equal2 app Hz eq_refl)]. replace (zlen pre + zlen tp) with (zlen pre + zlen tp - 0) by lia. rewrite (zslice_split _ 0 (zlen pre)) by lia.
    assert (∀ off n, 0 ≤ off → off + n ≤ zlen pre + zlen tp → zslice w' off n = zslice (zsplice w (zlen pre) tp) off n) as Hi.
    { intros off n Ho1 Ho2. apply list_eq_Z. intros j Hj. rewrite !lookup_zslice by lia. dec_if; [|done]. unfold w'. rewrite lookup_insert_Z by lia. dec_if; [lia|done]. }
    rewrite !Hi by lia. f_equal; [rewrite Z.sub_0_r; apply zslice_zsplice_ne; lia|]. replace (zlen pre + zlen tp - zlen pre) with (zlen tp) by lia. apply zslice_zsplice; lia. }
  assert (0 ∉ pre ++ tp) as Hnul.
  { apply not_elem_of_app. split; [|by destruct Hp]. unfold pre. dec_if; [apply not_elem_of_nil|]. apply not_elem_of_app. split; [by eapply base_no_nul|]. by intros ?%list_elem_of_singleton. }
  pose proof (resolve_work_spec w' (zlen pre + zlen tp) _ out out_size ltac:(lia) Hz' Hnul Ho) as Hres.
  destruct (normal (comps (pre ++ tp))) as [cs|]; [|by eexists _, _].
  destruct Hres as (Hpl & Hcm & out' & rc & -> & Hlo & Hrc). exists out', rc. split; [done|]. split; [done|].
  destruct (decide (cs ≠ [] ∧ out_size ≤ zlen (join cs))); [done|]. destruct Hrc as [-> Hs]. split_and!; [done|done|done|by apply normal_join].
Qed.

(** *** Parent and last component of a normal path *)

Lemma scan_down_spec fuel p s lo n :
  0 ≤ lo ≤ n → n ≤ zlen s → n - lo ≤ Z.of_nat fuel →
  ∃ j, scan_down fuel p s lo n = Ret j ∧ lo ≤ j ≤ n ∧ (∀ k c, j ≤ k < n → s !! Z.to_nat k = Some c → p c = true) ∧
    (∀ c, lo < j → s !! Z.to_nat (j - 1) = Some c → p c = false).
Proof.
  revert n. induction fuel as [|fuel IH]; intros n Hn Hs Hf; cbn [scan_down]; (destruct (Z.ltb_spec lo n); [|exists n; split_and!; try done; lia]); [lia|].
  destruct (aget_in s (n - 1)) as (c & Hc & ->); [lia|]. cbn [mbind outcome_bind]. destruct (p c) eqn:Ep.
  - destruct (IH (n - 1)) as (j & -> & Hj & H1 & H2); [lia|lia|lia|]. exists j. split_and!; [done|lia|lia| |done].
    intros k d Hk Hd. destruct (decide (k = n - 1)) as [->|]; [congruence|]. apply (H1 k d); [lia|done].
  - exists n. split_and!; try done; try lia. intros d _ Hd. congruence.
Qed.

Lemma slashed_last cs c : slashed (cs ++ [c]) !! length (slashed cs) = Some SLASH.
Proof. rewrite slashed_snoc, lookup_app_r, Nat.sub_diag by lia. done. Qed.

Lemma slashed_end cs : Forall plain cs → cs ≠ [] → ∃ l x, slashed cs = l ++ [x] ∧ x ≠ SLASH ∧ l ≠ [].
Proof.
  intros Hcs Hne. destruct (exists_last Hne) as (k & c & ->). apply Forall_app in Hcs as [_ Hc]. apply Forall_inv in Hc as (Hn & Hs & _).
  destruct (exists_last Hn) as (d & x & ->). exists (slashed k ++ SLASH :: d), x. rewrite slashed_snoc, <-app_assoc. split; [done|]. split; [|by destruct (slashed k)].
  intros ->. apply Hs, elem_of_app. right. by left.
Qed.

Lemma join_snoc cs c : join (cs ++ [c]) = slashed cs ++ SLASH :: c.
Proof. rewrite <-slashed_snoc. by destruct cs. Qed.

(** The two loops of [path_parent]: to after the last slash, and to the end of the parent. *)
Section Parent.
Context (abspath : list Z) (cs : list (list Z)) (c : list Z).
Context (Ha : cstr abspath (slashed cs ++ SLASH :: c)) (Hcs : Forall plain cs) (Hc : SLASH ∉ c).

Lemma parent_at k x : 0 ≤ k < zlen (slashed cs ++ SLASH :: c) → abspath !! Z.to_nat k = Some x → (slashed cs ++ SLASH :: c) !! Z.to_nat k = Some x.
Proof. intros Hk Hx. destruct Ha as [_ [rest E]]. rewrite E, lookup_app_l in Hx; [done|]. unfold zlen in *. lia. Qed.

Lemma parent_slash x : abspath !! Z.to_nat (zlen (slashed cs)) = Some x → x = SLASH.
Proof.
  pose proof (zlen_nonneg (slashed cs)). pose proof (zlen_nonneg c). intros Hx%parent_at; [|rewrite zlen_app, zlen_cons; lia].
  rewrite lookup_app_r in Hx by (unfold zlen; lia). replace (Z.to_nat (zlen (slashed cs)) - length (slashed cs))%nat with O in Hx by (unfold zlen; lia). by injection Hx.
Qed.

Lemma parent_scan1 fuel : zlen (slashed cs) + 1 + zlen c ≤ Z.of_nat fuel →
  scan_down fuel (λ c, negb (c =? SLASH)) abspath 0 (zlen (slashed cs) + 1 + zlen c) = Ret (zlen (slashed cs) + 1).
Proof.
  intros Hf. pose proof (cstr_len _ _ Ha) as Hlen. rewrite zlen_app, zlen_cons in Hlen. set (L := zlen (slashed cs)) in *. pose proof (zlen_nonneg (slashed cs)). pose proof (zlen_nonneg c).
  destruct (scan_down_spec fuel (λ c, negb (c =? SLASH)) abspath 0 (L + 1 + zlen c)) as (n1 & -> & Hn1 & Ha1 & Hb1); [lia..|]. f_equal.
  destruct (decide (n1 ≤ L)) as [Hle|Hgt].
  - exfalso. destruct (lookup_in abspath L) as [x Hx]; [lia|]. specialize (Ha1 L x ltac:(lia) Hx). apply parent_slash in Hx as ->. by cbn in Ha1.
  - destruct (decide (n1 = L + 1)); [done|]. exfalso. destruct (lookup_in abspath (n1 - 1)) as [x Hx]; [lia|]. specialize (Hb1 x ltac:(lia) Hx). apply parent_at in Hx; [|rewrite zlen_app, zlen_cons; lia].
    rewrite lookup_app_r in Hx by (unfold L, zlen in *; lia). replace (Z.to_nat (n1 - 1) - length (slashed cs))%nat with (S (Z.to_nat (n1 - 2 - L))) in Hx by (unfold L, zlen in *; lia).
    cbn in Hx. apply Hc. apply list_elem_of_lookup. assert (x = SLASH) as -> by lia. eauto.
Qed.

Lemma parent_scan2 fuel : zlen (slashed cs) ≤ Z.of_nat fuel → scan_down fuel (λ c, c =? SLASH) abspath 1 (zlen (slashed cs) + 1) = Ret (zlen (join cs)).
Proof.
  intros Hf. pose proof (cstr_len _ _ Ha) as Hlen. rewrite zlen_app, zlen_cons in Hlen. set (L := zlen (slashed cs)) in *. pose proof (zlen_nonneg (slashed cs)). pose proof (zlen_nonneg c).
  destruct (scan_down_spec fuel (λ c, c =? SLASH) abspath 1 (L + 1)) as (n2 & -> & Hn2 & Ha2 & Hb2); [lia..|]. f_equal.
  destruct (decide (cs = [])) as [E0|Hne]; [unfold L in *; rewrite E0 in *; change (zlen (join [])) with 1; change (zlen (slashed [])) with 0 in *; lia|].
  destruct (slashed_end cs Hcs Hne) as (l & x & El & Hx & Hl0). assert (join cs = slashed cs) as -> by (by destruct cs). fold L. assert (L = zlen l + 1) as EL by (unfold L; rewrite El, zlen_app; done).
  assert (1 ≤ zlen l) as Hl1 by (destruct l as [|? l']; [done|]; rewrite zlen_cons; pose proof (zlen_nonneg l'); lia).
  destruct (decide (n2 < L)); [|destruct (decide (n2 = L)); [done|]]; exfalso.
  - destruct (lookup_in abspath (L - 1)) as [y Hy]; [lia|]. specialize (Ha2 (L - 1) y ltac:(lia) Hy). apply parent_at in Hy; [|rewrite zlen_app, zlen_cons; lia].
    rewrite El, <-app_assoc, lookup_app_r in Hy by (unfold zlen in *; lia). replace (Z.to_nat (L - 1) - length l)%nat with O in Hy by (unfold zlen in *; lia). injection Hy as <-. cbn in Ha2. lia.
  - assert (n2 = L + 1) as -> by lia. destruct (lookup_in abspath L) as [y Hy]; [lia|]. replace (L + 1 - 1) with L in Hb2 by lia. specialize (Hb2 y ltac:(lia) Hy). apply parent_slash in Hy as ->. by cbn in Hb2.
Qed.
End Parent.

Lemma join_pos cs : 1 ≤ zlen (join cs).
Proof.
  destruct cs as [|c cs]; [done|]. unfold join, slashed. cbn [fmap list_fmap concat app]. rewrite zlen_cons. pose proof (zlen_nonneg (c ++ concat ((λ c, SLASH :: c) <$> cs))). lia.
Qed.

Lemma join_no_nul cs : Forall plain cs → 0 ∉ join cs.
Proof. intros Hcs. destruct cs; [by intros ?%list_elem_of_singleton|]. by apply slashed_no_nul. Qed.

Lemma path_parent_spec abspath cs c out out_size :
  cstr abspath (join (cs ++ [c])) → Forall plain (cs ++ [c]) → zlen (join (cs ++ [c])) < 2 ^ 64 → 2 ≤ out_size → zlen (join cs) < out_size ≤ zlen out →
  ∃ out', path_parent abspath out out_size = Ret (out', 0) ∧ cstr out' (join cs) ∧ zlen out' = zlen out.
Proof.
  intros Ha Hp Hl Ho2 Ho. apply Forall_app in Hp as [Hcs Hc]. apply Forall_inv in Hc as (_ & Hcs' & _). pose proof (cstr_len _ _ Ha) as Hlen.
  unfold path_parent, strlen. rewrite (kstrlen_spec _ _ Ha Hl). cbn [mbind outcome_bind]. rewrite join_snoc in *. pose proof (zlen_nonneg (slashed cs)). pose proof (zlen_nonneg c). pose proof (join_pos cs).
  assert (zlen (slashed cs ++ SLASH :: c) = zlen (slashed cs) + 1 + zlen c) as Hn by (rewrite zlen_app, zlen_cons; lia). rewrite Hn in *.
  destruct (Z.eqb_spec (zlen (slashed cs) + 1 + zlen c) 0), (Z.ltb_spec out_size 2); try lia. cbn [orb].
  rewrite (parent_scan1 _ _ _ Ha Hcs') by lia. cbn [mbind outcome_bind]. rewrite (parent_scan2 _ _ _ Ha Hcs) by lia. cbn [mbind outcome_bind].
  destruct (Z.eqb_spec (zlen (join cs)) 0); [lia|]. destruct (Z.leb_spec out_size (zlen (join cs))); [lia|].
  assert (zlen (join cs) ≤ zlen (slashed cs) + 1) as Hjl by (destruct cs; [done|unfold join; lia]). rewrite memcpy_from_spec by lia. cbn [mbind outcome_bind].
  assert (zslice abspath 0 (zlen (join cs)) = join cs) as ->.
  { rewrite (cstr_prefix _ _ _ Ha) by lia. destruct cs as [|d cs]; [done|]. unfold join. rewrite take_app_le by (unfold zlen; lia). apply take_ge. unfold zlen. lia. }
  assert (zlen (zsplice out 0 (join cs)) = zlen out) as Hz by (apply zlen_zsplice; lia). rewrite aset_in by lia. cbn [mbind outcome_bind].
  eexists. split; [done|]. split; [|by rewrite zlen_insert]. apply cstr_insert; [apply zslice_zsplice; lia|lia|by apply join_no_nul].
Qed.

Lemma path_basename_spec abspath cs c :
  cstr abspath (join (cs ++ [c])) → SLASH ∉ c → ∃ base, path_basename abspath = Ret base ∧ cstr base c.
Proof.
  intros [H0 [rest ->]] Hc. rewrite join_snoc in *. unfold path_basename, strrchr.
  destruct (strrchr_from_spec (slashed cs ++ SLASH :: c) rest SLASH 0 None H0) as (r & -> & Hr); [done|done|]. cbn [mbind outcome_bind].
  destruct r as [k|]; [|destruct Hr as [Hr _]; exfalso; apply Hr, elem_of_app; right; by left]. destruct Hr as [[_ ?]|(n & -> & Hn & Hd)]; [done|].
  assert (n = length (slashed cs)) as ->.
  { destruct (lt_eq_lt_dec n (length (slashed cs))) as [[Hlt|]|Hgt]; [|done|]; exfalso.
    - apply Hd. rewrite drop_app_le by lia. apply elem_of_app. right. by left.
    - rewrite lookup_app_r in Hn by lia. replace (n - length (slashed cs))%nat with (S (n - S (length (slashed cs)))) in Hn by lia. apply Hc, list_elem_of_lookup. eauto. }
  eexists. split; [done|]. replace (Z.to_nat (0 + Z.of_nat (length (slashed cs)) + 1)) with (length (slashed cs ++ [SLASH])) by (rewrite length_app; cbn; lia).
  replace ((slashed cs ++ SLASH :: c) ++ 0 :: rest) with ((slashed cs ++ [SLASH]) ++ (c ++ 0 :: rest)) by (by rewrite <-!app_assoc). rewrite drop_app_length.
  split; [|by exists rest]. intros Hin. apply H0, elem_of_app. right. by right.
Qed.

(** C20. [path_resolve] agrees with the reference: on strings [path] and [cwd] ([None] a null pointer) and a buffer of
    [out_size] bytes it returns, without a fault, what [resolved] computes on lists of components. That is an error exactly
    when a string or the number of components is too big, and else a NUL-terminated absolute path with no empty, [.] or
    [..] component; that path is its own normal form. *)
Theorem path_resolve_normal cwd t path tp out out_size :
  cwd_str cwd t → cstr path tp → zlen tp < 2 ^ 64 → 2 ≤ out_size ≤ zlen out →
  ∃ out' rc, path_resolve cwd (Some path) out out_size = Ret (out', rc) ∧ zlen out' = zlen out ∧
    match resolved t tp out_size with
    | inl e => rc = e
    | inr cs => rc = 0 ∧ cstr out' (join cs) ∧ Forall plain cs ∧ normal (comps (join cs)) = Some cs
    end.
Proof. apply path_resolve_spec. Qed.

(** [../b/./c/] from [/a]. *)
Definition ex_cwd : list Z := [47; 97].
Definition ex_path : list Z := [46; 46; 47; 98; 47; 46; 47; 99; 47].

Lemma path_resolve_normal_witness :
  resolved (Some ex_cwd) ex_path 256 = inr [[98]; [99]] ∧
  ∃ out' rc, path_resolve (Some (ex_cwd ++ [0])) (Some (ex_path ++ [0])) (replicate 256 0) 256 = Ret (out', rc) ∧ rc = 0 ∧ cstr out' [47; 98; 47; 99].
Proof.
  assert (resolved (Some ex_cwd) ex_path 256 = inr [[98]; [99]]) as E by (vm_compute; reflexivity).
  split; [exact E|].
  destruct (path_resolve_normal (Some (ex_cwd ++ [0])) (Some ex_cwd) (ex_path ++ [0]) ex_path (replicate 256 0) 256) as (out' & rc & E1 & _ & E2).
  - split; [|reflexivity]. split; [by apply (bool_decide_unpack _)|by exists []].
  - split; [by apply (bool_decide_unpack _)|by exists []].
  - reflexivity.
  - by split.
  - rewrite E in E2. destruct E2 as (Hrc & Hs & _). exact (ex_intro _ out' (ex_intro _ rc (conj E1 (conj Hrc Hs)))).
Defined.
