(* ===== verification/StateM.v ===== *)
(** Code that works on a state and may fail: [stM St A] is a function from the state before to the state after and a
    result, in [outcome]. [wp m s Q] says that [m] returns from [s] with a result and a state that satisfy [Q]; it is total
    correctness, a loop that runs out of fuel does not satisfy it. [may P m s Q] also allows [m] to panic, but only when [P]
    holds, and [runs m s Q] whenever. *)

From S2P Require Import Prelude.

(** ** Definitions *)

Definition stM (St A : Type) : Type := St → outcome (St * A).

#[export] Instance stM_ret {St} : MRet (stM St) := λ A a s, Ret (s, a).
#[export] Instance stM_bind {St} : MBind (stM St) := λ A B f m s, '(s, a) ← m s; f a s.

(** A computation that does not look at the state. *)
Definition lift {St A} (m : outcome A) : stM St A := λ s, a ← m; Ret (s, a).

(** [for (i = lo; i < hi; i++)] with local variables [l] and a body that may leave the function. *)
Fixpoint seek_up {St L R} (n : nat) (i : Z) (body : Z → L → stM St (L + R)) (l : L) : stM St (L + R) :=
  match n with
  | O => mret (inl l)
  | S n => r ← body i l; match r with inl l => seek_up n (i + 1) body l | inr r => mret (inr r) end
  end.

Definition seek {St L R} (lo hi : Z) (body : Z → L → stM St (L + R)) (l : L) : stM St (L + R) :=
  seek_up (Z.to_nat (hi - lo)) lo body l.

(** [while], [inr] being the end of the loop. *)
Fixpoint while {St L R} (fuel : nat) (body : L → stM St (L + R)) (l : L) : stM St R :=
  match fuel with
  | O => λ _, Loop
  | S fuel => r ← body l; match r with inl l => while fuel body l | inr r => mret r end
  end.

(** ** Weakest preconditions *)

Definition wp {St A} (m : stM St A) (s : St) (Q : A → St → Prop) : Prop :=
  match m s with Ret (s', a) => Q a s' | _ => False end.

Section WP.
Context {St : Type}.
Implicit Types s : St.

Lemma wp_ret {A} (a : A) s (Q : A → St → Prop) : Q a s → wp (mret a) s Q.
Proof. done. Qed.

Lemma wp_bind {A B} (m : stM St A) (f : A → stM St B) s (Q : B → St → Prop) :
  wp m s (λ a s, wp (f a) s Q) → wp (m ≫= f) s Q.
Proof. unfold wp, mbind, stM_bind. by destruct (m s) as [[s' a]| | |]. Qed.

Lemma wp_mono {A} (m : stM St A) s (Q R : A → St → Prop) : wp m s Q → (∀ a s, Q a s → R a s) → wp m s R.
Proof. unfold wp. destruct (m s) as [[s' a]| | |]; auto. Qed.

Lemma wp_step {A B} (m : stM St A) (f : A → stM St B) s (Q : A → St → Prop) (R : B → St → Prop) :
  wp m s Q → (∀ a s, Q a s → wp (f a) s R) → wp (m ≫= f) s R.
Proof. intros H1 H2. apply wp_bind. by eapply wp_mono. Qed.

Lemma wp_lift {A} (m : outcome A) a s (Q : A → St → Prop) : m = Ret a → Q a s → wp (lift m) s Q.
Proof. intros ->. done. Qed.

Lemma wp_lift_bind {A B} (m : outcome A) a (f : A → stM St B) s (Q : B → St → Prop) :
  m = Ret a → wp (f a) s Q → wp (lift m ≫= f) s Q.
Proof. intros -> H. apply wp_bind. done. Qed.

Lemma wp_run {A} (m : stM St A) s (Q : A → St → Prop) : wp m s Q → ∃ s' a, m s = Ret (s', a) ∧ Q a s'.
Proof. unfold wp. destruct (m s) as [[s' a]| | |]; try done. eauto. Qed.

(** A sequence whose first step is known. *)
Lemma bind_run {A B} (m : stM St A) (f : A → stM St B) s s' a : m s = Ret (s', a) → (m ≫= f) s = f a s'.
Proof. unfold mbind, stM_bind. by intros ->. Qed.
Lemma wp_known {A B} (m : stM St A) (f : A → stM St B) s s' a (Q : B → St → Prop) : m s = Ret (s', a) → wp (f a) s' Q → wp (m ≫= f) s Q.
Proof. intros E H. unfold wp. by rewrite (bind_run _ _ _ _ _ E). Qed.
Lemma bind_fault {A B} (m : stM St A) (f : A → stM St B) s : m s = Fault → (m ≫= f) s = Fault.
Proof. unfold mbind, stM_bind. by intros ->. Qed.

Lemma wp_seek_up {L R} (I : Z → L → St → Prop) (Q : R → St → Prop) body n lo (l : L) s :
  (∀ i l s, lo ≤ i < lo + Z.of_nat n → I i l s →
     wp (body i l) s (λ r s, match r with inl l => I (i + 1) l s | inr r => Q r s end)) →
  I lo l s →
  wp (seek_up n lo body l) s (λ r s, match r with inl l => I (lo + Z.of_nat n) l s | inr r => Q r s end).
Proof.
  revert lo l s. induction n as [|n IH]; intros lo l s Hb Hi; cbn [seek_up].
  - apply wp_ret. by rewrite Z.add_0_r.
  - eapply wp_step; [apply Hb; [lia|done]|]. intros [l'|r] s' H'; [|by apply wp_ret].
    eapply wp_mono; [apply IH; [|exact H']; intros; apply Hb; [lia|done]|]. intros [l2|r] s2 H2; [|done].
    by replace (lo + Z.of_nat (S n)) with (lo + 1 + Z.of_nat n) by lia.
Qed.

(** The invariant rule of the counting loop. *)
Lemma wp_seek {L R} (I : Z → L → St → Prop) (Q : R → St → Prop) body lo hi (l : L) s :
  lo ≤ hi →
  (∀ i l s, lo ≤ i < hi → I i l s → wp (body i l) s (λ r s, match r with inl l => I (i + 1) l s | inr r => Q r s end)) →
  I lo l s →
  wp (seek lo hi body l) s (λ r s, match r with inl l => I hi l s | inr r => Q r s end).
Proof.
  intros Hle Hb Hi. unfold seek. eapply wp_mono; [apply (wp_seek_up I Q); [|done]; intros; apply Hb; [lia|done]|].
  intros [l'|r] s' H; [|done]. by replace hi with (lo + Z.of_nat (Z.to_nat (hi - lo))) by lia.
Qed.

(** The rule of [while]: a measure below the fuel that every iteration makes smaller. *)
Lemma wp_while {L R} (I : L → St → Prop) (mu : L → Z) (Q : R → St → Prop) body fuel (l : L) s :
  (∀ l s, I l s → wp (body l) s (λ r s, match r with inl l' => I l' s ∧ 0 ≤ mu l' < mu l | inr r => Q r s end)) →
  I l s → 0 ≤ mu l < Z.of_nat fuel →
  wp (while fuel body l) s Q.
Proof.
  intros Hb. revert l s. induction fuel as [|fuel IH]; intros l s Hi Hf; cbn [while]; [lia|].
  eapply wp_step; [by apply Hb|]. intros [l'|r] s' H; [|by apply wp_ret]. apply IH; [apply H|lia].
Qed.

(** The same for code that may panic, when [P] holds. *)
Definition may {A} (P : Prop) (m : stM St A) s (Q : A → St → Prop) : Prop :=
  match m s with Ret (s', a) => Q a s' | Panic => P | _ => False end.

Lemma wp_may {A} P (m : stM St A) s (Q : A → St → Prop) : wp m s Q → may P m s Q.
Proof. unfold wp, may. by destruct (m s) as [[s' a]| | |]. Qed.
Lemma may_wp {A} (P : Prop) (m : stM St A) s (Q : A → St → Prop) : may P m s Q → ¬ P → wp m s Q.
Proof. unfold wp, may. by destruct (m s) as [[s' a]| | |]. Qed.
Lemma may_ret {A} P (a : A) s (Q : A → St → Prop) : Q a s → may P (mret a) s Q.
Proof. done. Qed.
Lemma may_mono {A} (P P' : Prop) (m : stM St A) s (Q R : A → St → Prop) : may P m s Q → (P → P') → (∀ a s, Q a s → R a s) → may P' m s R.
Proof. unfold may. destruct (m s) as [[s' a]| | |]; auto. Qed.
Lemma may_step {A B} P (m : stM St A) (f : A → stM St B) s (Q : A → St → Prop) (R : B → St → Prop) :
  may P m s Q → (∀ a s, Q a s → may P (f a) s R) → may P (m ≫= f) s R.
Proof. intros H1 H2. unfold may, mbind, stM_bind in *. destruct (m s) as [[s' a]| | |]; try done. by apply (H2 a s'). Qed.
Lemma may_known {A B} P (m : stM St A) (f : A → stM St B) s s' a (Q : B → St → Prop) : m s = Ret (s', a) → may P (f a) s' Q → may P (m ≫= f) s Q.
Proof. intros E H. unfold may. by rewrite (bind_run _ _ _ _ _ E). Qed.
Lemma may_panic {A B} (P : Prop) (m : stM St A) (f : A → stM St B) s (Q : B → St → Prop) : m s = Panic → P → may P (m ≫= f) s Q.
Proof. intros E H. unfold may, mbind, stM_bind. by rewrite E. Qed.

Lemma may_seek_up {L R} P (I : Z → L → St → Prop) (Q : R → St → Prop) body n lo (l : L) s :
  (∀ i l s, lo ≤ i < lo + Z.of_nat n → I i l s → may P (body i l) s (λ r s, match r with inl l => I (i + 1) l s | inr r => Q r s end)) →
  I lo l s → may P (seek_up n lo body l) s (λ r s, match r with inl l => I (lo + Z.of_nat n) l s | inr r => Q r s end).
Proof.
  revert lo l s. induction n as [|n IH]; intros lo l s Hb Hi; cbn [seek_up].
  - unfold may. cbn. by rewrite Z.add_0_r.
  - eapply may_step; [apply Hb; [lia|done]|]. intros [l'|r] s' H'; [|done].
    eapply may_mono; [apply IH; [|exact H']; intros; apply Hb; [lia|done]|done|]. intros [l2|r] s2 H2; [|done].
    by replace (lo + Z.of_nat (S n)) with (lo + 1 + Z.of_nat n) by lia.
Qed.

Lemma may_seek {L R} P (I : Z → L → St → Prop) (Q : R → St → Prop) body lo hi (l : L) s :
  lo ≤ hi → (∀ i l s, lo ≤ i < hi → I i l s → may P (body i l) s (λ r s, match r with inl l => I (i + 1) l s | inr r => Q r s end)) →
  I lo l s → may P (seek lo hi body l) s (λ r s, match r with inl l => I hi l s | inr r => Q r s end).
Proof.
  intros Hle Hb Hi. unfold seek. eapply may_mono; [apply (may_seek_up P I Q); [|done]; intros; apply Hb; [lia|done]|done|].
  intros [l'|r] s' H; [|done]. by replace hi with (lo + Z.of_nat (Z.to_nat (hi - lo))) by lia.
Qed.

(** Code that may panic whatever the state. *)
Definition runs {A} (m : stM St A) s (Q : A → St → Prop) : Prop :=
  match m s with Ret (s', a) => Q a s' | Panic => True | _ => False end.

Lemma may_runs {A} P (m : stM St A) s (Q : A → St → Prop) : may P m s Q → runs m s Q.
Proof. unfold may, runs. by destruct (m s) as [[s' a]| | |]. Qed.
Lemma wp_runs {A} (m : stM St A) s (Q : A → St → Prop) : wp m s Q → runs m s Q.
Proof. intros H. exact (wp_may True m s Q H). Qed.
Lemma runs_mono {A} (m : stM St A) s (Q R : A → St → Prop) : runs m s Q → (∀ a s, Q a s → R a s) → runs m s R.
Proof. intros H HR. exact (may_mono True True m s Q R H id HR). Qed.
Lemma runs_step {A B} (m : stM St A) (f : A → stM St B) s (Q : A → St → Prop) (R : B → St → Prop) :
  runs m s Q → (∀ a s, Q a s → runs (f a) s R) → runs (m ≫= f) s R.
Proof. exact (may_step True m f s Q R). Qed.
Lemma runs_run {A} (m : stM St A) s (Q : A → St → Prop) : runs m s Q → m s = Panic ∨ ∃ s' a, m s = Ret (s', a) ∧ Q a s'.
Proof. unfold runs. destruct (m s) as [[s' a]| | |]; try done; eauto. Qed.
Lemma runs_seek {L R} (I : Z → L → St → Prop) (Q : R → St → Prop) body lo hi (l : L) s :
  lo ≤ hi → (∀ i l s, lo ≤ i < hi → I i l s → runs (body i l) s (λ r s, match r with inl l => I (i + 1) l s | inr r => Q r s end)) →
  I lo l s → runs (seek lo hi body l) s (λ r s, match r with inl l => I hi l s | inr r => Q r s end).
Proof. exact (may_seek True I Q body lo hi l s). Qed.
Lemma runs_ret {A} (m : stM St A) s (Q : A → St → Prop) s' a : runs m s Q → m s = Ret (s', a) → Q a s'.
Proof. unfold runs. intros H E. by rewrite E in H. Qed.

End WP.

(** The first step of a sequence by a lemma about it. *)
Ltac wstep H := eapply wp_step; [eapply H|].
