(* ===== verification/Kalloc.v ===== *)
(** The kernel heap as the rest of the kernel uses it: [kcalloc(1, size)] and [kfree] with the set of live blocks. The
    interface is [Kalloc]; the heap of [kernel/memory/heap.c] implements it. *)

From stdpp Require Import gmap.
From S2P Require Import Prelude Memory Heap.

(** ** Interface *)

Class Kalloc (H : Type) := {
  knew : H → Z → outcome (H * Z);
  kdrop : H → Z → outcome H
}.

(** A new block is not NULL and not a block in use; when there is no memory the kernel panics. *)
Class KallocLaws (H : Type) {KA : Kalloc H} := {
  klive : H → gset Z → Prop;
  knew_spec h L n : klive h L → 0 < n ≤ 2 ^ 32 →
    knew h n = Panic ∨ ∃ h' p, knew h n = Ret (h', p) ∧ p ≠ 0 ∧ p ∉ L ∧ klive h' ({[p]} ∪ L);
  kdrop_spec h L p : klive h L → p ∈ L → ∃ h', kdrop h p = Ret h' ∧ klive h' (L ∖ {[p]});
  klive_nonzero h L : klive h L → 0 ∉ L
}.

(** ** The heap *)

Section Heap.
Context (g_arena : Z) (Hbase : 0 < g_arena).

#[local] Instance heap_kalloc : Kalloc heap := {
  knew h n := kcalloc g_arena h 1 n;
  kdrop h p := kfree g_arena h p
}.

(** A block in use starts at [p]; the tiling starts at [b]. *)
Fixpoint used_at (b : Z) (l : list (Z * bool)) (p : Z) : Prop :=
  match l with
  | [] => False
  | (sz, fr) :: l => (fr = false ∧ p = b) ∨ used_at (b + sz) l p
  end.

Definition heap_live (h : heap) (L : gset Z) : Prop := ∃ l, heap_inv h l ∧ ∀ p, p ∈ L → used_at 0 l (p - g_arena - 16).

Lemma used_at_app b l1 l2 p : used_at b (l1 ++ l2) p ↔ used_at b l1 p ∨ used_at (b + tot l1) l2 p.
Proof.
  revert b. induction l1 as [|[s f] l1 IH]; intros b; cbn [app used_at].
  - change (tot []) with 0. rewrite Z.add_0_r. tauto.
  - rewrite IH. change (tot ((s, f) :: l1)) with (s + tot l1). rewrite Z.add_assoc. tauto.
Qed.

Lemma used_at_range m b l e p : seg m b l e → used_at b l p → b ≤ p < e.
Proof.
  revert b. induction l as [|[s f] l IH]; intros b Hs Hp; cbn in *; [done|]. destruct Hs as [(_ & _ & _ & Hsz & _) Hs].
  destruct (seg_end _ _ _ _ Hs) as [He Hl]. pose proof (zlen_nonneg l). destruct Hp as [[_ ->]|Hp]; [lia|]. specialize (IH _ Hs Hp). lia.
Qed.

Lemma used_at_split b l p : used_at b l p → ∃ l1 sz l2, l = l1 ++ (sz, false) :: l2 ∧ p = b + tot l1.
Proof.
  revert b. induction l as [|[s f] l IH]; intros b Hp; cbn in *; [done|]. destruct Hp as [[-> ->]|Hp].
  - exists [], s, l. split; [done|]. change (tot []) with 0. lia.
  - destruct (IH _ Hp) as (l1 & sz & l2 & -> & ->). exists ((s, f) :: l1), sz, l2. split; [done|]. change (tot ((s, f) :: l1)) with (s + tot l1). lia.
Qed.

Lemma used_at_merge b l p : used_at b l p → used_at b (merge l) p.
Proof.
  revert b. induction l as [|[s f] l IH]; intros b; cbn [merge used_at]; [done|]. intros [[-> ->]|Hp]; [by left|].
  apply IH in Hp. destruct f; [|by right]. destruct (merge l) as [|[s' [|]] r]; cbn [used_at] in *; [done| |by auto].
  destruct Hp as [[? _]|Hp]; [done|]. right. by rewrite Z.add_assoc.
Qed.

Lemma heap_new h L n : heap_live h L → 0 < n ≤ 2 ^ 32 →
  knew h n = Panic ∨ ∃ h' p, knew h n = Ret (h', p) ∧ p ≠ 0 ∧ p ∉ L ∧ heap_live h' ({[p]} ∪ L).
Proof.
  intros (l & Hinv & HL) Hn. cbn [knew heap_kalloc]. unfold kcalloc. rewrite Z.mul_1_l, u64_small by lia. rewrite Z.div_1_r, Z.eqb_refl. cbn [negb andb Z.eqb].
  pose proof (kmalloc_spec g_arena h l n Hinv ltac:(lia)) as Hk. cbv zeta in Hk. set (need := 16 * ((n + 31) / 16)) in *.
  destruct (first_fit need l) as [[[l1 sz] l2]|] eqn:Hff; [|left; by rewrite Hk]. right. destruct Hk as (h1 & -> & Hinv1 & Hfit & _). cbn [mbind outcome_bind].
  apply first_fit_Some in Hff as Hl. destruct Hl as (-> & _ & _). pose proof Hinv as [Hs _]. apply seg_app in Hs as [Hs1 Hs2]. destruct (seg_end _ _ _ _ Hs1) as [_ Ht]. pose proof (zlen_nonneg l1).
  destruct (Z.eqb_spec (g_arena + (tot l1 + 16)) 0); [lia|].
  destruct (zero_loop (g_arena + (tot l1 + 16) - g_arena) n (arena h1)) as (m & -> & Hm); [lia|]. cbn [mbind outcome_bind]. eexists _, _. split; [done|]. split; [done|].
  destruct (first_fit_alloc _ _ _ _ _ Hff) as (s & r & El & Es).
  assert (∀ p, used_at 0 (l1 ++ (sz, true) :: l2) p → p ≠ tot l1 ∧ used_at 0 (l1 ++ alloc_block need sz ++ l2) p) as Hold.
  { intros p Hp. apply used_at_app in Hp as [Hp|[[? _]|Hp]]; [|done|].
    - split; [pose proof (used_at_range _ _ _ _ _ Hs1 Hp); lia|]. apply used_at_app. by left.
    - destruct Hs2 as [(_ & _ & _ & H32 & _) Hs2]. split; [pose proof (used_at_range _ _ _ _ _ Hs2 Hp); lia|]. apply used_at_app. right.
      unfold alloc_block. destruct (32 <=? sz - need); cbn [app used_at]; right; [right|]; [by replace (0 + tot l1 + need + (sz - need)) with (0 + tot l1 + sz) by lia|done]. }
  split.
  - intros Hp. apply HL in Hp. apply Hold in Hp as [Hp _]. lia.
  - exists (l1 ++ alloc_block need sz ++ l2). split.
    + rewrite El in *. apply (payload_write h1 l1 s false r m Hinv1). intros a Ha. rewrite Hm, decide_False; [done|]. lia.
    + intros p Hp. apply elem_of_union in Hp as [Hp|Hp]; [|by apply Hold, HL]. apply elem_of_singleton in Hp as ->. rewrite El. apply used_at_app. right. left. split; [done|lia].
Qed.

Lemma heap_drop h L p : heap_live h L → p ∈ L → ∃ h', kdrop h p = Ret h' ∧ heap_live h' (L ∖ {[p]}).
Proof.
  intros (l & Hinv & HL) Hp. apply HL in Hp as Hu. apply used_at_split in Hu as (l1 & sz & l2 & -> & Ep). pose proof Hinv as [Hs _].
  destruct (kfree_spec g_arena Hbase h l1 sz l2 Hinv) as (h' & E & Hinv' & _). exists h'. cbn [kdrop heap_kalloc].
  replace p with (g_arena + (tot l1 + 16)) by lia. split; [done|]. eexists. split; [exact Hinv'|]. intros q Hq. apply elem_of_difference in Hq as [Hq Hne]. rewrite elem_of_singleton in Hne.
  apply used_at_merge. apply HL in Hq. apply used_at_app in Hq as [Hq|[[_ Hq]|Hq]]; apply used_at_app; [by left|lia|right; by right].
Qed.

Lemma heap_nonzero h L : heap_live h L → 0 ∉ L.
Proof. intros (l & [Hs _] & HL) H0. apply HL in H0. pose proof (used_at_range _ _ _ _ _ Hs H0). lia. Qed.

#[local] Instance heap_laws : KallocLaws heap := {
  klive := heap_live;
  knew_spec := heap_new;
  kdrop_spec := heap_drop;
  klive_nonzero := heap_nonzero
}.

End Heap.
