(* ===== verification/Files.v ===== *)
(** Open files and descriptor tables ([kernel/fs/file.c], [kernel/process/fd_table.c], and what works on them:
    [wire_stdio] of [kernel/process/process.c], [sys_dup], [sys_dup2] and [sys_fcntl] of [kernel/user/syscall_proc.c]).
    Files and tables are blocks of the kernel heap; a pointer is an address, 0 is NULL, and the use of a block that is not
    live faults. [V] is the type of pointers to vnodes. *)

From stdpp Require Import gmap.
From S2P Require Import Prelude CString Heap StateM Kalloc.

(** ** Definitions *)

Definition FD_MAX : Z := 32.
Definition PATH_BYTES : Z := 256.
Definition O_RDWR : Z := 2.
Definition F_DUPFD : Z := 0.
Definition F_GETFD : Z := 1.
Definition F_SETFD : Z := 2.
Definition F_GETFL : Z := 3.
Definition F_SETFL : Z := 4.

Record file (V : Type) := mk_file { f_vnode : V; f_offset : Z; f_flags : Z; f_refcount : Z; f_path : list Z }.
Arguments mk_file {V} _ _ _ _ _.
Arguments f_vnode {V} _.
Arguments f_offset {V} _.
Arguments f_flags {V} _.
Arguments f_refcount {V} _.
Arguments f_path {V} _.

Definition sizeof_file : Z := 280.
Definition sizeof_fd_table : Z := 256.

Record files (H V : Type) := mk_files { fl_heap : H; fl_files : gmap Z (file V); fl_tables : gmap Z (list Z) }.
Arguments mk_files {H V} _ _ _.
Arguments fl_heap {H V} _.
Arguments fl_files {H V} _.
Arguments fl_tables {H V} _.

Section Files.
Context {H V : Type} {KA : Kalloc H}.
Implicit Types s : files H V.

Definition set_refcount (f : file V) (n : Z) : file V := mk_file (f_vnode f) (f_offset f) (f_flags f) n (f_path f).
Definition set_offset (f : file V) (n : Z) : file V := mk_file (f_vnode f) n (f_flags f) (f_refcount f) (f_path f).
Definition set_flags (f : file V) (n : Z) : file V := mk_file (f_vnode f) (f_offset f) n (f_refcount f) (f_path f).

(** Memory accesses. *)
Definition load_file (p : Z) : stM (files H V) (file V) := λ s,
  match fl_files s !! p with Some f => Ret (s, f) | None => Fault end.
Definition store_file (p : Z) (f : file V) : stM (files H V) unit := λ s,
  match fl_files s !! p with Some _ => Ret (mk_files (fl_heap s) (<[p := f]> (fl_files s)) (fl_tables s), tt) | None => Fault end.
Definition load_entry (t i : Z) : stM (files H V) Z := λ s,
  match fl_tables s !! t with Some l => e ← aget l i; Ret (s, e) | None => Fault end.
Definition store_entry (t i p : Z) : stM (files H V) unit := λ s,
  match fl_tables s !! t with
  | Some l => l ← aset l i p; Ret (mk_files (fl_heap s) (fl_files s) (<[t := l]> (fl_tables s)), tt)
  | None => Fault
  end.

(** *** [file.c] *)

Definition file_alloc (vn : V) (flags : Z) (abspath : option (list Z)) : stM (files H V) Z := λ s,
  '(h, p) ← knew (fl_heap s) sizeof_file;
  if p =? 0 then Ret (mk_files h (fl_files s) (fl_tables s), 0)
  else
    path ← match abspath with
           | Some a => '(d, _) ← strlcpy (replicate (Z.to_nat PATH_BYTES) 0) a PATH_BYTES; Ret d
           | None => Ret (replicate (Z.to_nat PATH_BYTES) 0)
           end;
    Ret (mk_files h (<[p := mk_file vn 0 flags 1 path]> (fl_files s)) (fl_tables s), p).

Definition file_ref (p : Z) : stM (files H V) unit :=
  if negb (p =? 0) then
    f ← load_file p;
    store_file p (set_refcount f (i32 (f_refcount f + 1)))
  else mret tt.

(** [kfree] of a file. *)
Definition free_file (p : Z) : stM (files H V) unit := λ s,
  h ← kdrop (fl_heap s) p; Ret (mk_files h (delete p (fl_files s)) (fl_tables s), tt).

Definition file_unref (p : Z) : stM (files H V) unit :=
  if p =? 0 then mret tt
  else
    f ← load_file p;
    let rc := i32 (f_refcount f - 1) in
    store_file p (set_refcount f rc);;
    if rc <=? 0 then free_file p else mret tt.

(** *** [fd_table.c] *)

Definition fd_table_create : stM (files H V) Z := λ s,
  '(h, t) ← knew (fl_heap s) sizeof_fd_table;
  if t =? 0 then Ret (mk_files h (fl_files s) (fl_tables s), 0)
  else Ret (mk_files h (fl_files s) (<[t := replicate (Z.to_nat FD_MAX) 0]> (fl_tables s)), t).

Definition destroy_step (t i : Z) (_ : unit) : stM (files H V) (unit + unit) :=
  e ← load_entry t i;
  if negb (e =? 0) then
    file_unref e;;
    store_entry t i 0;;
    mret (inl tt)
  else mret (inl tt).

Definition free_table (t : Z) : stM (files H V) unit := λ s,
  h ← kdrop (fl_heap s) t; Ret (mk_files h (fl_files s) (delete t (fl_tables s)), tt).

Definition fd_table_destroy (t : Z) : stM (files H V) unit :=
  if t =? 0 then mret tt
  else
    seek 0 FD_MAX (destroy_step t) tt;;
    free_table t.

Definition fd_alloc_step (t f i : Z) (_ : unit) : stM (files H V) (unit + Z) :=
  e ← load_entry t i;
  if e =? 0 then store_entry t i f;; mret (inr i) else mret (inl tt).

Definition fd_alloc (t f : Z) : stM (files H V) Z :=
  if (t =? 0) || (f =? 0) then mret (- SYS_EINVAL)
  else
    r ← seek 0 FD_MAX (fd_alloc_step t f) tt;
    mret (match r with inr i => i | inl _ => - SYS_EMFILE end).

Definition fd_install_at (t fd f : Z) : stM (files H V) Z :=
  if (t =? 0) || (fd <? 0) || (FD_MAX <=? fd) then mret (- SYS_EBADF)
  else
    e ← load_entry t fd;
    (if negb (e =? 0) then file_unref e else mret tt);;
    store_entry t fd f;;
    mret fd.

Definition fd_close (t fd : Z) : stM (files H V) Z :=
  if (t =? 0) || (fd <? 0) || (FD_MAX <=? fd) then mret (- SYS_EBADF)
  else
    e ← load_entry t fd;
    if e =? 0 then mret (- SYS_EBADF)
    else
      file_unref e;;
      store_entry t fd 0;;
      mret 0.

Definition fd_get (t fd : Z) : stM (files H V) Z :=
  if (t =? 0) || (fd <? 0) || (FD_MAX <=? fd) then mret 0 else load_entry t fd.

(** *** The tail of [vfs_open]: a descriptor for a vnode *)

Definition open_file (t : Z) (vn : V) (flags : Z) (abs : list Z) : stM (files H V) Z :=
  f ← file_alloc vn flags (Some abs);
  if f =? 0 then mret (- SYS_ENOMEM)
  else
    fd ← fd_alloc t f;
    if fd <? 0 then file_unref f;; mret fd else mret fd.

(** *** [process.c] *)

(** [con] is what [vfs_resolve("/dev/console")] returned. *)
Definition wire_stdio (t : Z) (con : option V) (path : list Z) : stM (files H V) unit :=
  match con with
  | None => mret tt
  | Some con =>
      f ← file_alloc con O_RDWR (Some path);
      if f =? 0 then mret tt
      else
        fd_install_at t 0 f;;
        file_ref f;;
        fd_install_at t 1 f;;
        file_ref f;;
        fd_install_at t 2 f;;
        mret tt
  end.

(** *** [syscall_proc.c]; [p] is the table of the current process, [None] when there is none *)

Definition sys_dup (p : option Z) (fd : Z) : stM (files H V) Z :=
  match p with
  | None => mret (- SYS_ESRCH)
  | Some t =>
      file ← fd_get t (i32 fd);
      if file =? 0 then mret (- SYS_EBADF)
      else
        file_ref file;;
        nfd ← fd_alloc t file;
        if nfd <? 0 then file_unref file;; mret (- SYS_EMFILE) else mret nfd
  end.

Definition sys_dup2 (p : option Z) (rdi rsi : Z) : stM (files H V) Z :=
  match p with
  | None => mret (- SYS_ESRCH)
  | Some t =>
      let oldfd := i32 rdi in
      let newfd := i32 rsi in
      file ← fd_get t oldfd;
      if file =? 0 then mret (- SYS_EBADF)
      else if oldfd =? newfd then mret newfd
      else if (newfd <? 0) || (FD_MAX <=? newfd) then mret (- SYS_EBADF)
      else
        file_ref file;;
        fd_install_at t newfd file;;
        mret newfd
  end.

Definition sys_fcntl (p : option Z) (rdi rsi rdx : Z) : stM (files H V) Z :=
  match p with
  | None => mret (- SYS_ESRCH)
  | Some t =>
      let fd := i32 rdi in
      let cmd := i32 rsi in
      file ← fd_get t fd;
      if file =? 0 then mret (- SYS_EBADF)
      else if cmd =? F_DUPFD then
        file_ref file;;
        nfd ← fd_alloc t file;
        if nfd <? 0 then file_unref file;; mret (- SYS_EMFILE) else mret nfd
      else if cmd =? F_GETFD then mret 0
      else if cmd =? F_SETFD then mret 0
      else if cmd =? F_GETFL then f ← load_file file; mret (f_flags f)
      else if cmd =? F_SETFL then f ← load_file file; store_file file (set_flags f (i32 rdx));; mret 0
      else mret (- SYS_EINVAL)
  end.

End Files.

(** ** Specification *)

(** The descriptors of a table, and of all tables, that refer to the file at [p]. *)
Definition cnt (l : list Z) (p : Z) : Z := zlen (filter (λ e, e = p) l).
Definition refs (T : gmap Z (list Z)) (p : Z) : Z := map_fold (λ _ l n, cnt l p + n) 0 T.

(** A process has one table; the process table has [PROCESS_MAX] slots. *)
Definition PROCESS_MAX : Z := 64.

(** ** Counting *)

Lemma cnt_nil p : cnt [] p = 0.
Proof. done. Qed.
Lemma cnt_cons e l p : cnt (e :: l) p = (if decide (e = p) then 1 else 0) + cnt l p.
Proof. unfold cnt. rewrite filter_cons. dec_if; [by rewrite zlen_cons|done]. Qed.
Lemma cnt_range l p : 0 ≤ cnt l p ≤ zlen l.
Proof. unfold cnt, zlen. pose proof (length_filter (λ e, e = p) l). lia. Qed.

Lemma cnt_insert l i e e' p : 0 ≤ i → l !! Z.to_nat i = Some e →
  cnt (<[Z.to_nat i := e']> l) p = cnt l p - (if decide (e = p) then 1 else 0) + (if decide (e' = p) then 1 else 0).
Proof.
  intros _. generalize (Z.to_nat i). intros n. revert n. induction l as [|x l IH]; intros [|n] Hn; [done..| |].
  - injection Hn as ->. change (<[0%nat := e']> (e :: l)) with (e' :: l). rewrite !cnt_cons. lia.
  - change (<[S n := e']> (x :: l)) with (x :: <[n := e']> l). rewrite !cnt_cons. rewrite (IH n Hn). lia.
Qed.

Lemma cnt_zero l p : p ∉ l → cnt l p = 0.
Proof. induction l as [|e l IH]; [done|]. intros [Hne Hl]%not_elem_of_cons. rewrite cnt_cons, IH by done. dec_if; [congruence|lia]. Qed.
Lemma cnt_pos l p : p ∈ l → 0 < cnt l p.
Proof.
  induction l as [|e l IH]; [by intros ?%not_elem_of_nil|]. pose proof (cnt_range l p). rewrite elem_of_cons, cnt_cons.
  dec_if as E; intros [Hp|Hp]; try lia. specialize (IH Hp). lia.
Qed.

Lemma refs_insert_new T t l p : T !! t = None → refs (<[t := l]> T) p = cnt l p + refs T p.
Proof. intros Ht. unfold refs. rewrite map_fold_insert_L; [done| |done]. intros. lia. Qed.

Lemma refs_empty p : refs ∅ p = 0.
Proof. apply map_fold_empty. Qed.

Lemma refs_delete T t l p : T !! t = Some l → refs T p = cnt l p + refs (delete t T) p.
Proof. intros Ht. rewrite <-(insert_delete_id T t l Ht) at 1. apply refs_insert_new, lookup_delete_eq. Qed.

Lemma refs_insert T t l l' p : T !! t = Some l → refs (<[t := l']> T) p = refs T p - cnt l p + cnt l' p.
Proof.
  intros Ht. rewrite (refs_delete T t l) by done. rewrite (refs_delete (<[t := l']> T) t l') by apply lookup_insert_eq.
  rewrite delete_insert_eq. lia.
Qed.

Lemma refs_range T p : (∀ t l, T !! t = Some l → zlen l = FD_MAX) → 0 ≤ refs T p ≤ FD_MAX * Z.of_nat (size T).
Proof.
  induction T as [|t l T Ht IH] using map_ind; intros Hl; [rewrite refs_empty; unfold FD_MAX; lia|].
  rewrite refs_insert_new, map_size_insert_None by done. pose proof (cnt_range l p). rewrite (Hl t l) in * by apply lookup_insert_eq.
  assert (0 ≤ refs T p ≤ FD_MAX * Z.of_nat (size T)); [|lia]. apply IH. intros t' l' Ht'. apply (Hl t'). rewrite lookup_insert_ne by congruence. done.
Qed.

Lemma refs_pos T t l p : (∀ t l, T !! t = Some l → zlen l = FD_MAX) → T !! t = Some l → p ∈ l → 0 < refs T p.
Proof.
  intros Hl Ht Hp. rewrite (refs_delete T t l) by done. pose proof (cnt_pos l p Hp).
  assert (0 ≤ refs (delete t T) p); [|lia]. apply refs_range. intros t' l' Ht'. apply lookup_delete_Some in Ht' as [_ Ht']. by apply (Hl t').
Qed.

Lemma refs_zero T p : (∀ t l, T !! t = Some l → p ∉ l) → refs T p = 0.
Proof.
  induction T as [|t l T Ht IH] using map_ind; intros Hl; [apply refs_empty|]. rewrite refs_insert_new by done.
  rewrite cnt_zero by (apply (Hl t), lookup_insert_eq). rewrite IH; [lia|]. intros t' l' Ht'. apply (Hl t'). rewrite lookup_insert_ne by congruence. done.
Qed.

(** ** The invariant *)

Section Spec.
Context {H V : Type} {KA : Kalloc H} {KL : KallocLaws H}.
Implicit Types s : files H V.

(** The invariant; [held] are references that a function in progress has. *)
Record files_ok s (held : list Z) : Prop := {
  fo_live : klive (fl_heap s) (dom (fl_files s) ∪ dom (fl_tables s));
  fo_disj : dom (fl_files s) ## dom (fl_tables s);
  fo_few : Z.of_nat (size (fl_tables s)) ≤ PROCESS_MAX;
  fo_held : zlen held ≤ 8;
  fo_len t l : fl_tables s !! t = Some l → zlen l = FD_MAX;
  fo_entry t l e : fl_tables s !! t = Some l → e ∈ l → e ≠ 0 → is_Some (fl_files s !! e);
  fo_in_flight e : e ∈ held → is_Some (fl_files s !! e);
  fo_count p f : fl_files s !! p = Some f → f_refcount f = refs (fl_tables s) p + cnt held p ∧ 0 < f_refcount f
}.


Lemma load_file_run s p f : fl_files s !! p = Some f → load_file p s = Ret (s, f).
Proof. unfold load_file. by intros ->. Qed.
Lemma store_file_run s p f f' : fl_files s !! p = Some f → store_file p f' s = Ret (mk_files (fl_heap s) (<[p := f']> (fl_files s)) (fl_tables s), tt).
Proof. unfold store_file. by intros ->. Qed.
Lemma load_entry_run s t l i e : fl_tables s !! t = Some l → 0 ≤ i → l !! Z.to_nat i = Some e → load_entry t i s = Ret (s, e).
Proof. unfold load_entry. intros -> Hi He. by rewrite (aget_Some l i e Hi He). Qed.
Lemma store_entry_run s t l i p : fl_tables s !! t = Some l → 0 ≤ i < zlen l →
  store_entry t i p s = Ret (mk_files (fl_heap s) (fl_files s) (<[t := <[Z.to_nat i := p]> l]> (fl_tables s)), tt).
Proof. unfold store_entry. intros -> Hi. by rewrite aset_in. Qed.

Lemma count_range s held p : files_ok s held → 0 ≤ refs (fl_tables s) p + cnt held p < 2 ^ 31 - 1.
Proof.
  intros Ho. pose proof (refs_range (fl_tables s) p (fo_len _ _ Ho)). pose proof (cnt_range held p). pose proof (fo_held _ _ Ho). pose proof (fo_few _ _ Ho).
  unfold FD_MAX, PROCESS_MAX in *. lia.
Qed.

Lemma i32_small z : - 2 ^ 31 ≤ z < 2 ^ 31 → i32 z = z.
Proof. intros Hz. unfold i32. rewrite Z.mod_small; lia. Qed.

(** A file changes, and not its reference count. *)
Lemma files_ok_file s held p f f' : files_ok s held → fl_files s !! p = Some f → f_refcount f' = f_refcount f →
  files_ok (mk_files (fl_heap s) (<[p := f']> (fl_files s)) (fl_tables s)) held.
Proof.
  intros Ho Hf Hrc. assert (∀ e, is_Some (fl_files s !! e) → is_Some (<[p := f']> (fl_files s) !! e)) as Hi.
  { intros e He. rewrite lookup_insert_is_Some. destruct (decide (p = e)); [by left|by right]. }
  split; cbn [fl_heap fl_files fl_tables]; rewrite ?dom_insert_lookup_L by done; try apply Ho.
  - intros t l e Ht He Hne. apply Hi. by eapply (fo_entry _ _ Ho).
  - intros e He. by apply Hi, (fo_in_flight _ _ Ho).
  - intros q g Hq. apply lookup_insert_Some in Hq as [[<- <-]|[Hne Hq]]; [rewrite Hrc|]; by apply (fo_count _ _ Ho).
Qed.

(** A reference is taken. *)
Lemma file_ref_spec s held p : files_ok s held → is_Some (fl_files s !! p) → zlen held < 8 →
  wp (file_ref p) s (λ _ s', files_ok s' (p :: held) ∧ fl_tables s' = fl_tables s).
Proof.
  intros Ho [f Hf] Hh. assert (p ≠ 0) as Hp.
  { intros ->. apply (klive_nonzero _ _ (fo_live _ _ Ho)). apply elem_of_union_l. by eapply elem_of_dom_2. }
  unfold file_ref. destruct (Z.eqb_spec p 0); [done|]. cbn [negb]. unfold wp. erewrite bind_run by (by apply load_file_run). erewrite store_file_run by done.
  split; [|done]. pose proof (fo_count _ _ Ho p f Hf) as [Hc Hpos]. pose proof (count_range s held p Ho).
  split; cbn [fl_heap fl_files fl_tables].
  - rewrite dom_insert_lookup_L by done. apply (fo_live _ _ Ho).
  - rewrite dom_insert_lookup_L by done. apply (fo_disj _ _ Ho).
  - apply (fo_few _ _ Ho).
  - rewrite zlen_cons. lia.
  - apply (fo_len _ _ Ho).
  - intros t l e Ht He Hne. rewrite lookup_insert_is_Some. destruct (decide (p = e)); [by left|right]. split; [done|]. by eapply (fo_entry _ _ Ho).
  - intros e He. rewrite lookup_insert_is_Some. destruct (decide (p = e)); [by left|right]. split; [done|]. apply elem_of_cons in He as [->|He]; [done|]. by apply (fo_in_flight _ _ Ho).
  - intros q g Hq. rewrite cnt_cons. apply lookup_insert_Some in Hq as [[<- <-]|[Hne Hq]].
    + rewrite decide_True by done. cbn [f_refcount set_refcount]. rewrite i32_small by lia. lia.
    + rewrite decide_False by done. destruct (fo_count _ _ Ho q g Hq). lia.
Qed.

(** A reference is given up; the last one frees the file. *)
Lemma file_unref_spec s held p : files_ok s (p :: held) →
  wp (file_unref p) s (λ _ s', files_ok s' held ∧ fl_tables s' = fl_tables s).
Proof.
  intros Ho. destruct (fo_in_flight _ _ Ho p) as [f Hf]; [by left|]. assert (p ≠ 0) as Hp.
  { intros ->. apply (klive_nonzero _ _ (fo_live _ _ Ho)). apply elem_of_union_l. by eapply elem_of_dom_2. }
  pose proof (fo_count _ _ Ho p f Hf) as [Hc Hpos]. pose proof (count_range s _ p Ho) as Hrange. pose proof (fo_held _ _ Ho) as Hh. rewrite zlen_cons in Hh. pose proof (zlen_nonneg held).
  rewrite cnt_cons, decide_True in Hc, Hrange by done. pose proof (refs_range _ p (fo_len _ _ Ho)) as Hr. pose proof (cnt_range held p) as Hcr.
  unfold file_unref. destruct (Z.eqb_spec p 0); [done|]. unfold wp. erewrite bind_run by (by apply load_file_run). erewrite bind_run by (by eapply store_file_run).
  rewrite i32_small by lia. destruct (Z.leb_spec (f_refcount f - 1) 0) as [Hz|Hz].
  - unfold free_file. cbn [fl_heap fl_files fl_tables]. destruct (kdrop_spec _ _ p (fo_live _ _ Ho)) as (h & -> & Hl).
    { apply elem_of_union_l. by eapply elem_of_dom_2. }
    cbn [mbind outcome_bind]. split; [|done]. rewrite delete_insert_eq. assert (p ∉ dom (fl_tables s)) as Hnt.
    { intros Ht. apply (fo_disj _ _ Ho p); [by eapply elem_of_dom_2|done]. }
    split; cbn [fl_heap fl_files fl_tables].
    + rewrite dom_delete_L. replace (dom (fl_files s) ∖ {[p]} ∪ dom (fl_tables s)) with ((dom (fl_files s) ∪ dom (fl_tables s)) ∖ {[p]}) by set_solver. done.
    + pose proof (fo_disj _ _ Ho). rewrite dom_delete_L. set_solver.
    + apply (fo_few _ _ Ho).
    + lia.
    + apply (fo_len _ _ Ho).
    + intros t l e Ht He Hne. rewrite lookup_delete_is_Some. split; [|by eapply (fo_entry _ _ Ho)]. intros <-. pose proof (refs_pos _ _ _ _ (fo_len _ _ Ho) Ht He). lia.
    + intros e He. rewrite lookup_delete_is_Some. split; [|apply (fo_in_flight _ _ Ho); by right]. intros <-. pose proof (cnt_pos _ _ He). lia.
    + intros q g Hq. apply lookup_delete_Some in Hq as [Hne Hq]. destruct (fo_count _ _ Ho q g Hq) as [Hq1 Hq2]. rewrite cnt_cons, decide_False in Hq1 by done. lia.
  - split; [|done]. split; cbn [fl_heap fl_files fl_tables].
    + rewrite dom_insert_lookup_L by done. apply (fo_live _ _ Ho).
    + rewrite dom_insert_lookup_L by done. apply (fo_disj _ _ Ho).
    + apply (fo_few _ _ Ho).
    + lia.
    + apply (fo_len _ _ Ho).
    + intros t l e Ht He Hne. rewrite lookup_insert_is_Some. destruct (decide (p = e)); [by left|right]. split; [done|]. by eapply (fo_entry _ _ Ho).
    + intros e He. rewrite lookup_insert_is_Some. destruct (decide (p = e)); [by left|right]. split; [done|]. apply (fo_in_flight _ _ Ho). by right.
    + intros q g Hq. apply lookup_insert_Some in Hq as [[<- <-]|[Hne Hq]].
      * cbn [f_refcount set_refcount]. lia.
      * destruct (fo_count _ _ Ho q g Hq) as [Hq1 Hq2]. rewrite cnt_cons, decide_False in Hq1 by done. lia.
Qed.

(** The references that an entry stands for. *)
Definition ref_of (e : Z) : list Z := if decide (e = 0) then [] else [e].

Lemma cnt_ref_of e p : p ≠ 0 → cnt (ref_of e) p = if decide (e = p) then 1 else 0.
Proof. intros Hp. unfold ref_of. dec_if as E; [subst; by rewrite decide_False|]. by rewrite cnt_cons, cnt_nil, Z.add_0_r. Qed.

Lemma cnt_app l k p : cnt (l ++ k) p = cnt l p + cnt k p.
Proof. unfold cnt. by rewrite filter_app, zlen_app. Qed.

(** A held reference moves to an entry, and the one that was there is held. *)
Lemma store_entry_spec s held t l i e f :
  files_ok s (ref_of f ++ held) → zlen held < 8 → fl_tables s !! t = Some l → 0 ≤ i → l !! Z.to_nat i = Some e →
  wp (store_entry t i f) s (λ _ s', files_ok s' (ref_of e ++ held) ∧ fl_tables s' = <[t := <[Z.to_nat i := f]> l]> (fl_tables s) ∧ fl_files s' = fl_files s).
Proof.
  intros Ho Hh Ht Hi He. assert (0 ≤ i < zlen l) as Hil by (apply lookup_lt_Some in He; unfold zlen; lia). unfold wp. erewrite store_entry_run by done. split; [|by split].
  assert (0 ∉ dom (fl_files s)) as H0 by (intros Hz; apply (klive_nonzero _ _ (fo_live _ _ Ho)); set_solver).
  split; cbn [fl_heap fl_files fl_tables].
  - rewrite dom_insert_lookup_L by done. apply (fo_live _ _ Ho).
  - rewrite dom_insert_lookup_L by done. apply (fo_disj _ _ Ho).
  - rewrite map_size_insert_Some by done. apply (fo_few _ _ Ho).
  - rewrite zlen_app. unfold ref_of. dec_if; change (zlen []) with 0; [|change (zlen [e]) with 1]; lia.
  - intros t' l' Ht'. apply lookup_insert_Some in Ht' as [[_ <-]|[_ Ht']]; [rewrite zlen_insert|]; by eapply (fo_len _ _ Ho).
  - intros t' l' e' Ht' He' Hne. apply lookup_insert_Some in Ht' as [[_ <-]|[_ Ht']]; [|by eapply (fo_entry _ _ Ho)].
    apply list_elem_of_lookup in He' as [j Hj]. apply list_lookup_insert_Some in Hj as [(_ & -> & _)|[_ Hj]].
    + apply (fo_in_flight _ _ Ho). apply elem_of_app. left. unfold ref_of. rewrite decide_False by done. by left.
    + eapply (fo_entry _ _ Ho); [done| |done]. by eapply list_elem_of_lookup_2.
  - intros e' He'. apply elem_of_app in He' as [He'|He'].
    + unfold ref_of in He'. revert He'. dec_if; [by intros ?%not_elem_of_nil|]. intros ->%list_elem_of_singleton. eapply (fo_entry _ _ Ho); [done| |done]. by eapply list_elem_of_lookup_2.
    + apply (fo_in_flight _ _ Ho). apply elem_of_app. by right.
  - intros q g Hq. destruct (fo_count _ _ Ho q g Hq) as [Hq1 Hq2]. split; [|done]. rewrite Hq1. assert (q ≠ 0) as Hq0 by (intros ->; apply H0; by eapply elem_of_dom_2).
    rewrite !cnt_app, !cnt_ref_of by done. rewrite (refs_insert _ t l) by done. rewrite (cnt_insert l i e f) by done. lia.
Qed.

(** [file_unref] does not look at the tables. *)
Definition with_tables s (T : gmap Z (list Z)) : files H V := mk_files (fl_heap s) (fl_files s) T.
Lemma file_unref_tables s p T :
  file_unref p (with_tables s T) = match file_unref p s with Ret (s', u) => Ret (with_tables s' T, u) | Panic => Panic | Fault => Fault | Loop => Loop end ∧
  (∀ s' u, file_unref p s = Ret (s', u) → fl_tables s' = fl_tables s).
Proof.
  unfold file_unref. destruct (p =? 0); [split; [done|]; by intros ?? [= <- _]|].
  unfold mbind, stM_bind, load_file, store_file, free_file, with_tables. cbn [fl_heap fl_files fl_tables].
  destruct (fl_files s !! p) as [f|] eqn:Ef; cbn [mbind outcome_bind fl_heap fl_files fl_tables]; [|done]. rewrite Ef. cbn [mbind outcome_bind fl_heap fl_files fl_tables].
  destruct (_ <=? 0); cbn [mbind outcome_bind fl_heap fl_files fl_tables]; [|split; [done|]; by intros ?? [= <- _]].
  destruct (kdrop (fl_heap s) p); cbn [mbind outcome_bind fl_heap fl_files fl_tables]; try done. split; [done|]. by intros ?? [= <- _].
Qed.

(** The order in which the code releases the old entry and overwrites it does not matter. *)
Lemma unref_then_store s t l i e f (Q : unit → files H V → Prop) :
  fl_tables s !! t = Some l → 0 ≤ i < zlen l →
  wp (store_entry t i f;; file_unref e) s Q → wp (file_unref e;; store_entry t i f) s Q.
Proof.
  intros Ht Hi Hw. unfold wp in *. erewrite bind_run in Hw by (by eapply store_entry_run).
  destruct (file_unref_tables s e (<[t := <[Z.to_nat i := f]> l]> (fl_tables s))) as [E1 E2]. unfold with_tables in E1 at 1. rewrite E1 in Hw.
  unfold mbind, stM_bind. destruct (file_unref e s) as [[s1 u]| | |] eqn:E; try done. cbn [mbind outcome_bind]. erewrite store_entry_run; [|rewrite (E2 _ _ eq_refl); exact Ht|exact Hi].
  rewrite (E2 _ _ eq_refl). destruct u. exact Hw.
Qed.

(** *** The operations *)

Lemma live_nonzero s held : files_ok s held → fl_files s !! 0 = None ∧ fl_tables s !! 0 = None.
Proof.
  intros Ho. pose proof (klive_nonzero _ _ (fo_live _ _ Ho)) as H0. rewrite not_elem_of_union, !not_elem_of_dom in H0. done.
Qed.

Lemma table_nonzero s held t : files_ok s held → is_Some (fl_tables s !! t) → t ≠ 0.
Proof. intros Ho Ht ->. rewrite (proj2 (live_nonzero _ _ Ho)) in Ht. by destruct Ht. Qed.

Lemma file_nonzero s held p : files_ok s held → is_Some (fl_files s !! p) → p ≠ 0.
Proof. intros Ho Hf ->. rewrite (proj1 (live_nonzero _ _ Ho)) in Hf. by destruct Hf. Qed.

Lemma ref_of_nonzero e : e ≠ 0 → ref_of e = [e].
Proof. intros He. unfold ref_of. by rewrite decide_False. Qed.

(** [fd_alloc]: the lowest free descriptor. *)
Lemma fd_alloc_spec s held t l f : files_ok s (f :: held) → fl_tables s !! t = Some l →
  wp (fd_alloc t f) s (λ r s',
    (0 ≤ r < FD_MAX ∧ l !! Z.to_nat r = Some 0 ∧ (∀ j, 0 ≤ j < r → l !! Z.to_nat j ≠ Some 0) ∧ files_ok s' held ∧ fl_tables s' = <[t := <[Z.to_nat r := f]> l]> (fl_tables s) ∧ fl_files s' = fl_files s) ∨
    (r = - SYS_EMFILE ∧ s' = s ∧ 0 ∉ l)).
Proof.
  intros Ho Ht. pose proof (table_nonzero _ _ t Ho ltac:(eauto)) as Ht0. pose proof (file_nonzero _ _ f Ho (fo_in_flight _ _ Ho f ltac:(by left))) as Hf0.
  pose proof (fo_len _ _ Ho t l Ht) as Hl. unfold fd_alloc. destruct (Z.eqb_spec t 0), (Z.eqb_spec f 0); try done. cbn [orb].
  assert (zlen held < 8) as Hh by (pose proof (fo_held _ _ Ho) as Hh; rewrite zlen_cons in Hh; lia).
  eapply wp_step; [apply (wp_seek (λ i _ s', s' = s ∧ ∀ j, 0 ≤ j < i → l !! Z.to_nat j ≠ Some 0)
    (λ r s', 0 ≤ r < FD_MAX ∧ l !! Z.to_nat r = Some 0 ∧ (∀ j, 0 ≤ j < r → l !! Z.to_nat j ≠ Some 0) ∧ files_ok s' held ∧ fl_tables s' = <[t := <[Z.to_nat r := f]> l]> (fl_tables s) ∧ fl_files s' = fl_files s))|].
  - by vm_compute.
  - intros i u s' Hi [-> Hn]. destruct (lookup_in l i) as [e He]; [lia|]. unfold fd_alloc_step. eapply wp_known; [by eapply load_entry_run; [|lia|]|].
    destruct (Z.eqb_spec e 0) as [->|Hne].
    + eapply wp_step; [eapply (store_entry_spec s held t l i 0 f); [by rewrite ref_of_nonzero|done|done|lia|done]|]. intros _ s1 (Hok & Htb & Hfl). apply wp_ret. split_and!; try done; lia.
    + apply wp_ret. split; [done|]. intros j Hj. destruct (decide (j = i)) as [->|]; [congruence|]. apply Hn. lia.
  - split; [done|]. lia.
  - intros [u|r] s' Hr; apply wp_ret; [right|by left]. destruct Hr as [-> Hn]. split; [done|]. split; [done|]. intros [j Hj]%list_elem_of_lookup.
    apply (Hn (Z.of_nat j)); [apply lookup_lt_Some in Hj; unfold zlen in Hl; lia|by rewrite Nat2Z.id].
Qed.

(** [fd_install_at] and [fd_close]: the reference of the entry is given up, and replaced. *)
Lemma replace_entry s held t l fd e f : files_ok s (ref_of f ++ held) → zlen held < 8 → fl_tables s !! t = Some l → 0 ≤ fd → l !! Z.to_nat fd = Some e → e ≠ 0 →
  wp (file_unref e;; store_entry t fd f) s (λ _ s', files_ok s' held ∧ fl_tables s' = <[t := <[Z.to_nat fd := f]> l]> (fl_tables s)).
Proof.
  intros Ho Hh Ht Hfd He Hne. apply (unref_then_store s t l); [done|apply lookup_lt_Some in He; unfold zlen; lia|].
  eapply wp_step; [by apply (store_entry_spec s held t l fd e f)|]. intros u s1 (Ho1 & Ht1 & _). rewrite ref_of_nonzero in Ho1 by done.
  eapply wp_mono; [by apply (file_unref_spec s1 held e)|]. intros u2 s2 [Ho2 Ht2]. by rewrite Ht2.
Qed.

Lemma fd_install_spec s held t l fd f : files_ok s (ref_of f ++ held) → zlen held < 8 → fl_tables s !! t = Some l → 0 ≤ fd < FD_MAX →
  wp (fd_install_at t fd f) s (λ r s', r = fd ∧ files_ok s' held ∧ fl_tables s' = <[t := <[Z.to_nat fd := f]> l]> (fl_tables s)).
Proof.
  intros Ho Hh Ht Hfd. pose proof (table_nonzero _ _ t Ho ltac:(eauto)) as Ht0. pose proof (fo_len _ _ Ho t l Ht) as Hl. unfold fd_install_at.
  destruct (Z.eqb_spec t 0), (Z.ltb_spec fd 0), (Z.leb_spec FD_MAX fd); try done; try lia. cbn [orb]. destruct (lookup_in l fd) as [e He]; [lia|].
  eapply wp_known; [by eapply load_entry_run; [|lia|]|]. destruct (Z.eqb_spec e 0) as [->|Hne]; cbn [negb].
  - eapply wp_known; [done|]. eapply wp_step; [apply (store_entry_spec s held t l fd 0 f); [done|done|done|lia|done]|]. intros u s1 (Ho1 & Ht1 & _). by apply wp_ret.
  - pose proof (replace_entry s held t l fd e f Ho Hh Ht ltac:(lia) He Hne) as Hw.
    apply wp_run in Hw as (s1 & u & E & Hs1). unfold wp, mbind, stM_bind in *. destruct (file_unref e s) as [[s2 u2]| | |]; try done. cbn [mbind outcome_bind] in *. by rewrite E.
Qed.

Lemma fd_close_spec s held t l fd : files_ok s held → zlen held < 8 → fl_tables s !! t = Some l →
  wp (fd_close t fd) s (λ r s', files_ok s' held ∧
    match (if decide (0 ≤ fd) then l !! Z.to_nat fd else None) with
    | Some e => if decide (e = 0) then r = - SYS_EBADF ∧ s' = s else r = 0 ∧ fl_tables s' = <[t := <[Z.to_nat fd := 0]> l]> (fl_tables s)
    | None => r = - SYS_EBADF ∧ s' = s
    end).
Proof.
  intros Ho Hh Ht. pose proof (table_nonzero _ _ t Ho ltac:(eauto)) as Ht0. pose proof (fo_len _ _ Ho t l Ht) as Hl. unfold fd_close.
  destruct (Z.eqb_spec t 0), (Z.ltb_spec fd 0), (Z.leb_spec FD_MAX fd); try done; cbn [orb];
    try (apply wp_ret; split; [done|]; repeat dec_if; try lia; try done; by rewrite lookup_ge_None_2 by (unfold zlen in Hl; lia)).
  rewrite decide_True by done. destruct (lookup_in l fd) as [e He]; [lia|]. rewrite He. eapply wp_known; [by eapply load_entry_run|].
  destruct (Z.eqb_spec e 0) as [->|Hne]; [by apply wp_ret|]. destruct (decide (e = 0)) as [|_]; [done|].
  pose proof (replace_entry s held t l fd e 0 Ho Hh Ht ltac:(lia) He Hne) as Hw.
  apply wp_run in Hw as (s1 & u & E & Hs1 & Ht1). unfold wp, mbind, stM_bind in *. destruct (file_unref e s) as [[s2 u2]| | |]; try done. cbn [mbind outcome_bind] in *. by rewrite E.
Qed.

Lemma fd_get_spec s held t l fd : files_ok s held → fl_tables s !! t = Some l →
  fd_get t fd s = Ret (s, if decide (0 ≤ fd) then default 0 (l !! Z.to_nat fd) else 0).
Proof.
  intros Ho Ht. pose proof (table_nonzero _ _ t Ho ltac:(eauto)) as Ht0. pose proof (fo_len _ _ Ho t l Ht) as Hl. unfold fd_get.
  destruct (Z.eqb_spec t 0), (Z.ltb_spec fd 0), (Z.leb_spec FD_MAX fd); try done; cbn [orb]; dec_if; try lia; try done.
  - by rewrite lookup_ge_None_2 by (unfold zlen in Hl; lia).
  - destruct (lookup_in l fd) as [e He]; [lia|]. rewrite He. by eapply load_entry_run.
Qed.

Lemma file_alloc_spec s held vn flags path t : files_ok s held → zlen held < 8 → cstr path t → zlen t < 2 ^ 64 →
  runs (file_alloc vn flags (Some path)) s (λ p s', files_ok s' (p :: held) ∧ fl_tables s' = fl_tables s ∧ fl_files s !! p = None ∧
    ∃ name, fl_files s' = <[p := mk_file vn 0 flags 1 name]> (fl_files s) ∧ cstr name (take 255 t)).
Proof.
  intros Ho Hh Hp Hl. unfold file_alloc, runs. destruct (knew_spec _ _ sizeof_file (fo_live _ _ Ho) ltac:(by vm_compute)) as [->|(h & p & -> & Hp0 & Hnew & Hlive)]; [done|].
  cbn [mbind outcome_bind]. destruct (Z.eqb_spec p 0); [done|].
  rewrite (strlcpy_spec (replicate (Z.to_nat PATH_BYTES) 0) path t PATH_BYTES Hp Hl) by by vm_compute. change (PATH_BYTES =? 0) with false. cbn [mbind outcome_bind].
  assert (fl_files s !! p = None) as Hn by (apply not_elem_of_dom; set_solver). set (name := take _ t ++ _). split; [|split; [done|split; [done|]]].
  - split; cbn [fl_heap fl_files fl_tables].
    + by rewrite dom_insert_L, <-(assoc_L (∪)).
    + rewrite dom_insert_L. pose proof (fo_disj _ _ Ho). set_solver.
    + apply (fo_few _ _ Ho).
    + rewrite zlen_cons. lia.
    + apply (fo_len _ _ Ho).
    + intros t' l e Ht He Hne. rewrite lookup_insert_is_Some. destruct (decide (p = e)); [by left|right]. split; [done|]. by eapply (fo_entry _ _ Ho).
    + intros e He. rewrite lookup_insert_is_Some. destruct (decide (p = e)); [by left|right]. split; [done|]. apply elem_of_cons in He as [->|He]; [done|]. by apply (fo_in_flight _ _ Ho).
    + intros q g Hq. rewrite cnt_cons. apply lookup_insert_Some in Hq as [[<- <-]|[Hne Hq]].
      * rewrite decide_True by done. cbn [f_refcount]. rewrite refs_zero, cnt_zero; [done| |].
        -- intros Hin. apply (fo_in_flight _ _ Ho) in Hin. rewrite Hn in Hin. by destruct Hin.
        -- intros t' l Ht Hin. apply (fo_entry _ _ Ho t' l p Ht Hin) in Hp0. rewrite Hn in Hp0. by destruct Hp0.
      * rewrite decide_False by done. destruct (fo_count _ _ Ho q g Hq). lia.
  - exists name. split; [done|]. split; [|unfold name; by eexists]. intros H0. apply (proj1 Hp). unfold name in H0. apply elem_of_take in H0 as (i & Hi & _). by eapply list_elem_of_lookup_2.
Qed.

Lemma insert_zero_table T t p : T !! t = None → refs (<[t := replicate (Z.to_nat FD_MAX) 0]> T) p = (if decide (p = 0) then FD_MAX else 0) + refs T p.
Proof.
  intros Ht. rewrite refs_insert_new by done. f_equal. dec_if as E; [by subst|]. apply cnt_zero. intros Hin. apply elem_of_replicate in Hin as [-> _]. done.
Qed.

Lemma fd_table_create_spec s held : files_ok s held → Z.of_nat (size (fl_tables s)) < PROCESS_MAX →
  runs fd_table_create s (λ t s', files_ok s' held ∧ fl_tables s !! t = None ∧ t ≠ 0 ∧ fl_files s' = fl_files s ∧
    fl_tables s' = <[t := replicate (Z.to_nat FD_MAX) 0]> (fl_tables s)).
Proof.
  intros Ho Hsz. unfold fd_table_create, runs. destruct (knew_spec _ _ sizeof_fd_table (fo_live _ _ Ho) ltac:(by vm_compute)) as [->|(h & t & -> & Ht0 & Hnew & Hlive)]; [done|].
  cbn [mbind outcome_bind]. destruct (Z.eqb_spec t 0); [done|]. assert (fl_tables s !! t = None) as Hn by (apply not_elem_of_dom; set_solver).
  split; [|by split_and!]. split; cbn [fl_heap fl_files fl_tables].
  - rewrite dom_insert_L. by replace (dom (fl_files s) ∪ ({[t]} ∪ dom (fl_tables s))) with ({[t]} ∪ (dom (fl_files s) ∪ dom (fl_tables s))) by set_solver.
  - rewrite dom_insert_L. pose proof (fo_disj _ _ Ho). set_solver.
  - rewrite map_size_insert_None by done. lia.
  - apply (fo_held _ _ Ho).
  - intros t' l Hl. apply lookup_insert_Some in Hl as [[_ <-]|[_ Hl]]; [by vm_compute|by eapply (fo_len _ _ Ho)].
  - intros t' l e Hl He Hne. apply lookup_insert_Some in Hl as [[_ <-]|[_ Hl]]; [|by eapply (fo_entry _ _ Ho)]. by apply elem_of_replicate in He as [-> _].
  - apply (fo_in_flight _ _ Ho).
  - intros p f Hp. pose proof (file_nonzero _ _ p Ho ltac:(eauto)) as Hp0. rewrite insert_zero_table by done. rewrite decide_False by done. apply (fo_count _ _ Ho p f Hp).
Qed.

(** All references of the table are given up. *)
Lemma fd_table_destroy_spec s t l : files_ok s [] → fl_tables s !! t = Some l →
  wp (fd_table_destroy t) s (λ _ s', files_ok s' [] ∧ fl_tables s' = delete t (fl_tables s)).
Proof.
  intros Ho Ht. pose proof (table_nonzero _ _ t Ho ltac:(eauto)) as Ht0. unfold fd_table_destroy. destruct (Z.eqb_spec t 0); [done|].
  eapply wp_step; [apply (wp_seek (λ i _ s', files_ok s' [] ∧ ∃ l', fl_tables s' = <[t := l']> (fl_tables s) ∧ ∀ j, 0 ≤ j < i → l' !! Z.to_nat j = Some 0) (λ _ _, False))|].
  - by vm_compute.
  - intros i u s' Hi (Ho' & l' & Ht' & Hz). assert (fl_tables s' !! t = Some l') as Hl' by (rewrite Ht'; apply lookup_insert_eq). pose proof (fo_len _ _ Ho' t l' Hl') as Hlen.
    destruct (lookup_in l' i) as [e He]; [lia|]. unfold destroy_step. eapply wp_known; [by eapply load_entry_run; [|lia|]|]. destruct (Z.eqb_spec e 0) as [->|Hne]; cbn [negb].
    + apply wp_ret. split; [done|]. exists l'. split; [done|]. intros j Hj. destruct (decide (j = i)) as [->|]; [done|]. apply Hz. lia.
    + pose proof (replace_entry s' [] t l' i e 0 Ho' ltac:(by vm_compute) Hl' ltac:(lia) He Hne) as Hw.
      apply wp_run in Hw as (s1 & u1 & E & Hs1 & Ht1). unfold wp, mbind, stM_bind in *. destruct (file_unref e s') as [[s2 u2]| | |]; try done. cbn [mbind outcome_bind] in *. rewrite E. cbn [mbind outcome_bind].
      split; [done|]. exists (<[Z.to_nat i := 0]> l'). split; [by rewrite Ht1, Ht', insert_insert_eq|]. intros j Hj. rewrite lookup_insert_Z by lia. dec_if; [done|]. apply Hz. lia.
  - split; [done|]. exists l. split; [by rewrite insert_id|lia].
  - intros [u|[]] s' Hs'; [|done]. destruct Hs' as (Ho' & l' & Ht' & Hz). assert (fl_tables s' !! t = Some l') as Hl' by (rewrite Ht'; apply lookup_insert_eq).
    pose proof (fo_len _ _ Ho' t l' Hl') as Hlen. assert (∀ e, e ∈ l' → e = 0) as Hall.
    { intros e [j Hj]%list_elem_of_lookup. apply lookup_lt_Some in Hj as Hlt. specialize (Hz (Z.of_nat j)). rewrite Nat2Z.id in Hz. unfold zlen in Hlen. rewrite Hz in Hj by lia. congruence. }
    unfold free_table, wp. destruct (kdrop_spec _ _ t (fo_live _ _ Ho')) as (h & -> & Hlive); [apply elem_of_union_r; by eapply elem_of_dom_2|]. cbn [mbind outcome_bind].
    split; [|by rewrite Ht', delete_insert_eq]. assert (t ∉ dom (fl_files s')) as Htf by (intros Hf; apply (fo_disj _ _ Ho' t Hf); by eapply elem_of_dom_2).
    split; cbn [fl_heap fl_files fl_tables].
    + rewrite dom_delete_L. replace (dom (fl_files s') ∪ dom (fl_tables s') ∖ {[t]}) with ((dom (fl_files s') ∪ dom (fl_tables s')) ∖ {[t]}) by set_solver. done.
    + pose proof (fo_disj _ _ Ho'). rewrite dom_delete_L. set_solver.
    + rewrite map_size_delete_Some by eauto. pose proof (fo_few _ _ Ho'). lia.
    + apply (fo_held _ _ Ho').
    + intros t' l1 Hl1. apply lookup_delete_Some in Hl1 as [_ Hl1]. by eapply (fo_len _ _ Ho').
    + intros t' l1 e Hl1. apply lookup_delete_Some in Hl1 as [_ Hl1]. by eapply (fo_entry _ _ Ho').
    + by intros e ?%not_elem_of_nil.
    + intros p f Hp. pose proof (file_nonzero _ _ p Ho' ltac:(eauto)) as Hp0. destruct (fo_count _ _ Ho' p f Hp) as [Hc Hpos]. rewrite (refs_delete _ t l') in Hc by done.
      rewrite (cnt_zero l' p) in Hc by (intros Hin; by apply Hp0, Hall). lia.
Qed.

(** What the system calls keep: the invariant, and the tables that there are. *)
Definition kept s s' : Prop := files_ok s' [] ∧ dom (fl_tables s') = dom (fl_tables s).

Lemma open_file_spec s t l vn flags path tp : files_ok s [] → fl_tables s !! t = Some l → cstr path tp → zlen tp < 2 ^ 64 →
  runs (open_file t vn flags path) s (λ r s', kept s s' ∧
    ((0 ≤ r < FD_MAX ∧ l !! Z.to_nat r = Some 0 ∧ (∀ j, 0 ≤ j < r → l !! Z.to_nat j ≠ Some 0) ∧
      ∃ p name, fl_files s !! p = None ∧ fl_files s' !! p = Some (mk_file vn 0 flags 1 name) ∧ fl_tables s' = <[t := <[Z.to_nat r := p]> l]> (fl_tables s) ∧ cstr name (take 255 tp)) ∨
    (r = - SYS_EMFILE ∧ 0 ∉ l ∧ fl_tables s' = fl_tables s))).
Proof.
  intros Ho Ht Hp Hl. unfold open_file. eapply runs_step; [by apply (file_alloc_spec s [] vn flags path tp)|]. intros p s1 (Ho1 & Ht1 & Hnew & name & Hf1 & Hname).
  pose proof (file_nonzero _ _ p Ho1 (fo_in_flight _ _ Ho1 p ltac:(by left))) as Hp0. destruct (Z.eqb_spec p 0); [done|]. rewrite <-Ht1 in Ht.
  eapply runs_step; [apply wp_runs, (fd_alloc_spec s1 [] t l p Ho1 Ht)|]. intros r s2 [(Hr & Hl0 & Hlow & Ho2 & Ht2 & Hf2)|(-> & -> & Hfull)].
  - destruct (Z.ltb_spec r 0); [lia|]. apply wp_runs, wp_ret. split; [split; [done|by rewrite Ht2, dom_insert_lookup_L, Ht1 by eauto]|]. left. split_and!; try done; try lia.
    exists p, name. rewrite Hf2, Hf1, Ht2, Ht1. split_and!; try done. apply lookup_insert_eq.
  - apply wp_runs. change (- SYS_EMFILE <? 0) with true. eapply wp_step; [by apply (file_unref_spec s1 [] p)|]. intros u s2 [Ho2 Ht2]. apply wp_ret.
    split; [split; [done|by rewrite Ht2, Ht1]|]. right. by rewrite Ht2, Ht1.
Qed.

(** [sys_dup], and [sys_fcntl] with [F_DUPFD]: a second descriptor for a file that an entry refers to. *)
Lemma dup_spec s t l file : files_ok s [] → fl_tables s !! t = Some l → file ∈ l → file ≠ 0 →
  wp (file_ref file;; nfd ← fd_alloc t file; if nfd <? 0 then file_unref file;; mret (- SYS_EMFILE) else mret nfd) s (λ r s', kept s s' ∧
    (0 ≤ r < FD_MAX ∧ l !! Z.to_nat r = Some 0 ∧ (∀ j, 0 ≤ j < r → l !! Z.to_nat j ≠ Some 0) ∧ fl_tables s' = <[t := <[Z.to_nat r := file]> l]> (fl_tables s) ∨
     r = - SYS_EMFILE ∧ 0 ∉ l ∧ fl_tables s' = fl_tables s)).
Proof.
  intros Ho Ht Hin Hne. eapply wp_step; [apply (file_ref_spec s [] file Ho); [by eapply (fo_entry _ _ Ho)|by vm_compute]|]. intros u s1 [Ho1 Ht1]. rewrite <-Ht1 in Ht.
  eapply wp_step; [apply (fd_alloc_spec s1 [] t l file Ho1 Ht)|]. intros r s2 [(Hr & Hl0 & Hlow & Ho2 & Ht2 & Hf2)|(-> & -> & Hfull)].
  - destruct (Z.ltb_spec r 0); [lia|]. apply wp_ret. split; [split; [done|by rewrite Ht2, dom_insert_lookup_L, Ht1 by eauto]|]. left. rewrite Ht2, Ht1. split_and!; try done; lia.
  - change (- SYS_EMFILE <? 0) with true. eapply wp_step; [by apply (file_unref_spec s1 [] file)|]. intros u2 s2 [Ho2 Ht2]. apply wp_ret.
    split; [split; [done|by rewrite Ht2, Ht1]|]. right. by rewrite Ht2, Ht1.
Qed.

Lemma fd_get_entry l fd : zlen l = FD_MAX → (if decide (0 ≤ fd) then default 0 (l !! Z.to_nat fd) else 0) ≠ 0 →
  0 ≤ fd < FD_MAX ∧ l !! Z.to_nat fd = Some (if decide (0 ≤ fd) then default 0 (l !! Z.to_nat fd) else 0).
Proof.
  intros Hl. dec_if; [|done]. destruct (l !! Z.to_nat fd) as [e|] eqn:E; cbn; [|done]. intros He. apply lookup_lt_Some in E as Hlt. unfold zlen in Hl. split; [lia|done].
Qed.

Lemma sys_dup_spec s t l fd : files_ok s [] → fl_tables s !! t = Some l → wp (sys_dup (Some t) fd) s (λ _ s', kept s s').
Proof.
  intros Ho Ht. unfold sys_dup. eapply wp_known; [by apply (fd_get_spec s [])|]. set (e := if decide _ then _ else _). destruct (Z.eqb_spec e 0) as [|Hne]; [by apply wp_ret|].
  destruct (fd_get_entry l (i32 fd) (fo_len _ _ Ho t l Ht) Hne) as [_ He]. eapply wp_mono; [apply (dup_spec s t l); [done|done|by eapply list_elem_of_lookup_2|done]|]. by intros r s' [? _].
Qed.

Lemma sys_dup2_spec s t l oldfd newfd : files_ok s [] → fl_tables s !! t = Some l → wp (sys_dup2 (Some t) oldfd newfd) s (λ _ s', kept s s').
Proof.
  intros Ho Ht. unfold sys_dup2. eapply wp_known; [by apply (fd_get_spec s [])|]. set (e := if decide _ then _ else _). destruct (Z.eqb_spec e 0) as [|Hne]; [by apply wp_ret|].
  destruct (i32 oldfd =? i32 newfd); [by apply wp_ret|]. destruct (Z.ltb_spec (i32 newfd) 0), (Z.leb_spec FD_MAX (i32 newfd)); cbn [orb]; try by apply wp_ret.
  destruct (fd_get_entry l (i32 oldfd) (fo_len _ _ Ho t l Ht) Hne) as [_ He].
  eapply wp_step; [apply (file_ref_spec s [] e Ho); [eapply (fo_entry _ _ Ho); [done|by eapply list_elem_of_lookup_2|done]|by vm_compute]|]. intros u s1 [Ho1 Ht1]. rewrite <-Ht1 in Ht.
  eapply wp_step; [apply (fd_install_spec s1 [] t l (i32 newfd) e); [by rewrite ref_of_nonzero|by vm_compute|done|lia]|]. intros r s2 (_ & Ho2 & Ht2). apply wp_ret.
  split; [done|]. by rewrite Ht2, dom_insert_lookup_L, Ht1 by eauto.
Qed.

Lemma sys_fcntl_spec s t l fd cmd arg : files_ok s [] → fl_tables s !! t = Some l → wp (sys_fcntl (Some t) fd cmd arg) s (λ _ s', kept s s').
Proof.
  intros Ho Ht. unfold sys_fcntl. eapply wp_known; [by apply (fd_get_spec s [])|]. set (e := if decide _ then _ else _). destruct (Z.eqb_spec e 0) as [|Hne]; [by apply wp_ret|].
  destruct (fd_get_entry l (i32 fd) (fo_len _ _ Ho t l Ht) Hne) as [_ He]. fold e in He. apply list_elem_of_lookup_2 in He.
  destruct (_ =? F_DUPFD). { eapply wp_mono; [by apply (dup_spec s t l)|]. by intros r s' [? _]. }
  destruct (_ =? F_GETFD); [by apply wp_ret|]. destruct (_ =? F_SETFD); [by apply wp_ret|]. destruct (fo_entry _ _ Ho t l e Ht He Hne) as [f Hf].
  destruct (_ =? F_GETFL). { eapply wp_known; [by apply load_file_run|]. by apply wp_ret. }
  destruct (_ =? F_SETFL); [|by apply wp_ret]. eapply wp_known; [by apply load_file_run|]. eapply wp_known; [by eapply store_file_run|]. apply wp_ret.
  split; [|done]. eapply files_ok_file; [done|done|done].
Qed.

Lemma wire_stdio_spec s t l con path tp : files_ok s [] → fl_tables s !! t = Some l → cstr path tp → zlen tp < 2 ^ 64 →
  runs (wire_stdio t con path) s (λ _ s', kept s s').
Proof.
  intros Ho Ht Hp Hl. unfold wire_stdio. destruct con as [con|]; [|by apply wp_runs, wp_ret]. pose proof (fo_len _ _ Ho t l Ht) as Hlen.
  eapply runs_step; [by apply (file_alloc_spec s [] con O_RDWR path tp)|]. intros p s1 (Ho1 & Ht1 & _). apply wp_runs.
  pose proof (file_nonzero _ _ p Ho1 (fo_in_flight _ _ Ho1 p ltac:(by left))) as Hp0. destruct (Z.eqb_spec p 0); [done|].
  assert (∀ s1 l1 fd, fl_tables s1 !! t = Some l1 → files_ok s1 [p] → 0 ≤ fd < FD_MAX →
    wp (fd_install_at t fd p) s1 (λ r s', files_ok s' [] ∧ dom (fl_tables s') = dom (fl_tables s1) ∧ ∃ l2, fl_tables s' !! t = Some l2 ∧ p ∈ l2)) as Hins.
  { intros s2 l2 fd Hl2 Ho2 Hfd. pose proof (fo_len _ _ Ho2 t l2 Hl2) as Hlen2. eapply wp_mono; [apply (fd_install_spec s2 [] t l2 fd p); [by rewrite ref_of_nonzero|by vm_compute|done|done]|].
    intros r s3 (_ & Ho3 & Ht3). split; [done|]. split; [by rewrite Ht3, dom_insert_lookup_L by eauto|]. eexists. split; [rewrite Ht3; apply lookup_insert_eq|].
    apply list_elem_of_lookup. exists (Z.to_nat fd). apply list_lookup_insert_eq. unfold zlen in Hlen2. lia. }
  assert (∀ s1 l1, fl_tables s1 !! t = Some l1 → p ∈ l1 → files_ok s1 [] → wp (file_ref p) s1 (λ _ s', files_ok s' [p] ∧ fl_tables s' = fl_tables s1)) as Href.
  { intros s2 l2 Hl2 Hin Ho2. apply (file_ref_spec s2 [] p Ho2); [by eapply (fo_entry _ _ Ho2)|by vm_compute]. }
  rewrite <-Ht1 in Ht. eapply wp_step; [by apply (Hins s1 l 0)|]. intros r2 s2 (Ho2 & Hd2 & l2 & Hl2 & Hin2).
  eapply wp_step; [by apply (Href s2 l2)|]. intros r3 s3 (Ho3 & Ht3). rewrite <-Ht3 in Hl2. eapply wp_step; [by apply (Hins s3 l2 1)|]. intros r4 s4 (Ho4 & Hd4 & l4 & Hl4 & Hin4).
  eapply wp_step; [by apply (Href s4 l4)|]. intros r5 s5 (Ho5 & Ht5). rewrite <-Ht5 in Hl4. eapply wp_step; [by apply (Hins s5 l4 2)|]. intros r6 s6 (Ho6 & Hd6 & _).
  apply wp_ret. split; [done|]. by rewrite Hd6, Ht5, Hd4, Ht3, Hd2, Ht1.
Qed.

(** *** The calls *)

Inductive fd_call :=
  | Spawn (con : option V) (path : list Z)
  | Reap (t : Z)
  | Open (t : Z) (vn : V) (flags : Z) (path : list Z)
  | Close (t fd : Z)
  | Dup (t fd : Z)
  | Dup2 (t oldfd newfd : Z)
  | Fcntl (t fd cmd arg : Z).

Definition fd_run (c : fd_call) : stM (files H V) Z :=
  match c with
  | Spawn con path => t ← fd_table_create; if t =? 0 then mret 0 else wire_stdio t con (path ++ [0]);; mret t
  | Reap t => fd_table_destroy t;; mret 0
  | Open t vn flags path => open_file t vn flags (path ++ [0])
  | Close t fd => fd_close t fd
  | Dup t fd => sys_dup (Some t) fd
  | Dup2 t oldfd newfd => sys_dup2 (Some t) oldfd newfd
  | Fcntl t fd cmd arg => sys_fcntl (Some t) fd cmd arg
  end.

(** The tables are those of the processes there are, and paths are strings. *)
Definition fd_call_ok s (c : fd_call) : Prop :=
  match c with
  | Spawn _ path => Z.of_nat (size (fl_tables s)) < PROCESS_MAX ∧ 0 ∉ path ∧ zlen path < 2 ^ 64
  | Reap t | Close t _ | Dup t _ | Dup2 t _ _ | Fcntl t _ _ _ => is_Some (fl_tables s !! t)
  | Open t _ _ path => is_Some (fl_tables s !! t) ∧ 0 ∉ path ∧ zlen path < 2 ^ 64
  end.

Inductive fd_reached (h : H) : files H V → Prop :=
  | fd_start : fd_reached h (mk_files h ∅ ∅)
  | fd_step s c s' r : fd_reached h s → fd_call_ok s c → fd_run c s = Ret (s', r) → fd_reached h s'.

Lemma fd_run_spec s c : files_ok s [] → fd_call_ok s c → runs (fd_run c) s (λ _ s', files_ok s' []).
Proof.
  intros Ho Hc. assert (∀ path, 0 ∉ path → cstr (path ++ [0]) path) as Hcs by (intros path Hp; split; [done|by exists []]).
  destruct c as [con path|t|t vn flags path|t fd|t fd|t o n|t fd cmd arg]; cbn [fd_run fd_call_ok] in *.
  - destruct Hc as (Hsz & Hp & Hl). eapply runs_step; [by apply (fd_table_create_spec s [])|]. intros t s1 (Ho1 & _ & Ht0 & _ & Ht1). destruct (Z.eqb_spec t 0); [done|].
    eapply runs_step; [eapply wire_stdio_spec; [done|rewrite Ht1; apply lookup_insert_eq|by apply Hcs|done]|]. intros u s2 [Ho2 _]. by apply wp_runs, wp_ret.
  - destruct Hc as [l Ht]. eapply runs_step; [apply wp_runs; by apply (fd_table_destroy_spec s t l)|]. intros u s1 [Ho1 _]. by apply wp_runs, wp_ret.
  - destruct Hc as ([l Ht] & Hp & Hl). eapply runs_mono; [by eapply (open_file_spec s t l vn flags); [| |apply Hcs|]|]. by intros r s1 [[Ho1 _] _].
  - destruct Hc as [l Ht]. apply wp_runs. eapply wp_mono; [by apply (fd_close_spec s [] t l)|]. by intros r s1 [Ho1 _].
  - destruct Hc as [l Ht]. apply wp_runs. eapply wp_mono; [by apply (sys_dup_spec s t l)|]. by intros r s1 [Ho1 _].
  - destruct Hc as [l Ht]. apply wp_runs. eapply wp_mono; [by apply (sys_dup2_spec s t l)|]. by intros r s1 [Ho1 _].
  - destruct Hc as [l Ht]. apply wp_runs. eapply wp_mono; [by apply (sys_fcntl_spec s t l)|]. by intros r s1 [Ho1 _].
Qed.

Lemma fd_reached_ok h s : klive h ∅ → fd_reached h s → files_ok s [].
Proof.
  intros Hh. induction 1 as [|s c s' r _ IH Hc E].
  - assert (dom (∅ : gmap Z (file V)) ∪ dom (∅ : gmap Z (list Z)) = ∅) as E by set_solver. split; cbn [fl_heap fl_files fl_tables]; rewrite ?E; try done.
    by intros e ?%not_elem_of_nil.
  - pose proof (fd_run_spec s c IH Hc) as Hr. unfold runs in Hr. by rewrite E in Hr.
Qed.

(** C15. Reference counts are exact: whatever descriptors processes open, close and duplicate, and whenever they start and end,
    the count of every open file is the number of descriptors of all processes that refer to it, and not 0; every
    descriptor in use refers to a file that is there. So no call uses or frees a file that is gone, and a file without
    descriptor is freed: every call returns, or panics for lack of memory. *)
Theorem fd_refcounts_exact h s :
  klive h ∅ → fd_reached h s →
  (∀ p f, fl_files s !! p = Some f → f_refcount f = refs (fl_tables s) p ∧ 0 < f_refcount f) ∧
  (∀ t l e, fl_tables s !! t = Some l → e ∈ l → e ≠ 0 → is_Some (fl_files s !! e)) ∧
  ∀ c, fd_call_ok s c → fd_run c s = Panic ∨ ∃ s' r, fd_run c s = Ret (s', r).
Proof.
  intros Hh Hs. pose proof (fd_reached_ok h s Hh Hs) as Ho. split_and!.
  - intros p f Hf. destruct (fo_count _ _ Ho p f Hf) as [Hc Hp]. rewrite cnt_nil, Z.add_0_r in Hc. done.
  - apply (fo_entry _ _ Ho).
  - intros c Hc. destruct (runs_run _ _ _ (fd_run_spec s c Ho Hc)) as [|(s' & r & E & _)]; eauto.
Qed.

End Spec.

(** ** Example: a process with its console, on the heap *)

Definition ex_arena : Z := 0x200000.
#[local] Instance ex_kalloc : Kalloc heap := heap_kalloc ex_arena.
#[local] Instance ex_laws : KallocLaws heap := heap_laws ex_arena eq_refl.
Definition ex_spawn : fd_call (V := Z) := Spawn (Some 7) [47; 99].
Definition ex_start : files heap Z := mk_files fresh_heap ∅ ∅.
Definition returned {A} (o : outcome A) : bool := match o with Ret _ => true | _ => false end.

Lemma returned_inv {A} (o : outcome A) : returned o = true → ∃ a, o = Ret a.
Proof. destruct o; try done. by eexists. Qed.

Lemma ex_live : heap_live ex_arena fresh_heap ∅.
Proof. exists [(HEAP_ARENA_SIZE, true)]. split; [exact (heap_init_inv (mk_heap ∅ 0 0 0 0))|]. intros p Hp. destruct (not_elem_of_empty p Hp). Qed.

Lemma fd_refcounts_exact_witness :
  ∃ s r, fd_run ex_spawn ex_start = Ret (s, r) ∧
  (∀ p f, fl_files s !! p = Some f → f_refcount f = refs (fl_tables s) p ∧ 0 < f_refcount f) ∧
  (∀ t l e, fl_tables s !! t = Some l → e ∈ l → e ≠ 0 → is_Some (fl_files s !! e)) ∧
  ∀ c, fd_call_ok s c → fd_run c s = Panic ∨ ∃ s' r, fd_run c s = Ret (s', r).
Proof.
  assert (returned (fd_run ex_spawn ex_start) = true) as Hr by (vm_compute; reflexivity).
  apply returned_inv in Hr as [[s r] E]. exists s, r. split; [exact E|].
  apply (fd_refcounts_exact fresh_heap s).
  - exact ex_live.
  - apply (fd_step fresh_heap ex_start ex_spawn s r); [apply fd_start| |exact E].
    split; [by vm_compute|]. split; [by apply (bool_decide_unpack _)|by vm_compute].
Defined.
