(* ===== verification/Slab.v ===== *)
(** The slab allocator, [kernel/memory/slab.c]. Slabs, objects and headers are bytes of physical memory, which the kernel sees at
    their physical address; a [struct kmem_cache] is a block of the kernel heap. Messages to the log are the boolean results
    of [kmem_cache_free] and [kmem_free]; the names of the classes' caches are not modelled. *)

From stdpp Require Import gmap.
From S2P Require Import Prelude Kmath Layout Pmm Memory StateM Heap Kalloc.

(** ** Definitions *)

Definition SLAB_MIN_OBJS : Z := 8.
Definition REDZONE_VALUE : Z := 0xA5A5A5A5A5A5A5A5.
Definition KMEM_MAGIC : Z := 0x4B4D454D.
Definition KMEM_CACHE_REDZONE : Z := 1.
Definition KMEM_CACHE_ZERO : Z := 2.

(** [struct kmem_slab], at the start of its pages: the offsets of its fields. *)
Definition sizeof_kmem_slab : Z := 48.
Definition slab_cache : Z := 0.
Definition slab_next : Z := 8.
Definition slab_base : Z := 16.
Definition slab_pages : Z := 24.
Definition slab_nobjs : Z := 32.
Definition slab_inuse : Z := 40.

Record kmem_cache := mk_cache {
  c_name : Z; c_obj_size : Z; c_slot_size : Z; c_align : Z; c_flags : Z; c_free_list : Z; c_slabs : Z; c_objs_per_slab : Z; c_slab_pages : Z;
  c_alloc_count : Z; c_free_count : Z; c_active : Z; c_slab_count : Z; c_grow_count : Z; c_next : Z
}.
Definition sizeof_kmem_cache : Z := 120.

Definition with_free_list (c : kmem_cache) (fl : Z) : kmem_cache :=
  mk_cache (c_name c) (c_obj_size c) (c_slot_size c) (c_align c) (c_flags c) fl (c_slabs c) (c_objs_per_slab c) (c_slab_pages c)
    (c_alloc_count c) (c_free_count c) (c_active c) (c_slab_count c) (c_grow_count c) (c_next c).
Definition with_slab (c : kmem_cache) (fl slab : Z) : kmem_cache :=
  mk_cache (c_name c) (c_obj_size c) (c_slot_size c) (c_align c) (c_flags c) fl slab (c_objs_per_slab c) (c_slab_pages c)
    (c_alloc_count c) (c_free_count c) (c_active c) (u64 (c_slab_count c + 1)) (u64 (c_grow_count c + 1)) (c_next c).
Definition with_counts (c : kmem_cache) (fl allocs frees : Z) : kmem_cache :=
  mk_cache (c_name c) (c_obj_size c) (c_slot_size c) (c_align c) (c_flags c) fl (c_slabs c) (c_objs_per_slab c) (c_slab_pages c)
    allocs frees (u64 (allocs - frees)) (c_slab_count c) (c_grow_count c) (c_next c).
Definition with_next (c : kmem_cache) (next : Z) : kmem_cache :=
  mk_cache (c_name c) (c_obj_size c) (c_slot_size c) (c_align c) (c_flags c) (c_free_list c) (c_slabs c) (c_objs_per_slab c) (c_slab_pages c)
    (c_alloc_count c) (c_free_count c) (c_active c) (c_slab_count c) (c_grow_count c) next.

Definition has_flag (c : kmem_cache) (f : Z) : bool := negb (Z.land (c_flags c) f =? 0).

Definition cache_slot_size (obj_size align flags : Z) : Z :=
  let s := if negb (Z.land flags KMEM_CACHE_REDZONE =? 0) then u64 (obj_size + 8) else obj_size in
  let s := if s <? 8 then 8 else s in
  align_up_u64 s align.

(** The fields that [kmem_cache_create] computes. *)
Definition new_cache (name obj_size align flags next : Z) : kmem_cache :=
  let align := if align =? 0 then 16 else align in
  let align := if is_pow2_u64 align =? 0 then 16 else align in
  let slot := cache_slot_size obj_size align flags in
  let want := u64 (sizeof_kmem_slab + u64 (slot * SLAB_MIN_OBJS)) in
  let pages := div_round_up_u64 want PAGE_SIZE in
  let pages := if pages =? 0 then 1 else pages in
  let usable := u64 (u64 (pages * PAGE_SIZE) - sizeof_kmem_slab) in
  mk_cache name obj_size slot align flags 0 0 (usable / slot) pages 0 0 0 0 0 next.

(** One object onto the free list. *)
Definition thread_body (base slot i : Z) (st : mem * Z) : outcome (mem * Z) :=
  let '(m, free_list) := st in
  let fs := base + i * slot in
  Ret (store64 m fs free_list, fs).

(** The header that [cache_grow] writes. *)
Definition slab_header (m : mem) (slab cache pages nobjs next : Z) : mem :=
  let m := store64 m (slab + slab_cache) cache in
  let m := store64 m (slab + slab_base) (slab + sizeof_kmem_slab) in
  let m := store64 m (slab + slab_pages) pages in
  let m := store64 m (slab + slab_nobjs) nobjs in
  let m := store64 m (slab + slab_inuse) 0 in
  store64 m (slab + slab_next) next.

Definition set_redzone (m : mem) (c : kmem_cache) (obj : Z) : mem :=
  if has_flag c KMEM_CACHE_REDZONE then store64 m (obj + c_obj_size c) REDZONE_VALUE else m.
Definition check_redzone (m : mem) (c : kmem_cache) (obj : Z) : bool :=
  if has_flag c KMEM_CACHE_REDZONE then load64 m (obj + c_obj_size c) =? REDZONE_VALUE else true.

(** [memset(p, 0, n)]. *)
Definition zero_mem (m : mem) (p n : Z) : mem := store_bytes m p (replicate (Z.to_nat n) 0).

Record slabs (H : Type) := mk_slabs {
  sb_mem : mem; sb_pmm : pmm; sb_heap : H; sb_caches : gmap Z kmem_cache; g_cache_registry : Z; g_size_caches : list Z;
  g_total_allocs : Z; g_total_frees : Z; g_bytes_live : Z; g_large_allocs : Z
}.
Arguments mk_slabs {H} _ _ _ _ _ _ _ _ _ _.
Arguments sb_mem {H} _.
Arguments sb_pmm {H} _.
Arguments sb_heap {H} _.
Arguments sb_caches {H} _.
Arguments g_cache_registry {H} _.
Arguments g_size_caches {H} _.
Arguments g_total_allocs {H} _.
Arguments g_total_frees {H} _.
Arguments g_bytes_live {H} _.
Arguments g_large_allocs {H} _.

(** Usable sizes per class, and [struct kmem_hdr]. *)
Definition g_class_usable : list Z := [16; 32; 64; 128; 256; 512; 1024; 2048; 4096].
Definition NUM_CLASSES : Z := 9.
Definition KMEM_HDR_SIZE : Z := 16.
Definition load16 (m : mem) (a : Z) : Z := load 2 m a.
Definition store16 (m : mem) (a v : Z) : mem := store 2 m a (u16 v).
Definition hdr_magic (m : mem) (h : Z) : Z := load32 m h.
Definition hdr_class (m : mem) (h : Z) : Z := load16 m (h + 4).
Definition hdr_npages (m : mem) (h : Z) : Z := load64 m (h + 8).
Definition write_hdr (m : mem) (h class npages : Z) : mem :=
  let m := store32 m h KMEM_MAGIC in
  let m := store16 m (h + 4) class in
  let m := store16 m (h + 6) 0 in
  store64 m (h + 8) npages.

Definition size_to_class (size : Z) : Z :=
  match list_find (λ u, size ≤ u) g_class_usable with Some (i, _) => Z.of_nat i | None => -1 end.

Section Slab.
Context {H : Type} {KA : Kalloc H}.
Notation St := (slabs H).

Definition get_cache (p : Z) : stM St kmem_cache := λ s, match sb_caches s !! p with Some c => Ret (s, c) | None => Fault end.
Definition put_cache (p : Z) (c : kmem_cache) : stM St unit := λ s,
  Ret (mk_slabs (sb_mem s) (sb_pmm s) (sb_heap s) (<[p := c]> (sb_caches s)) (g_cache_registry s) (g_size_caches s) (g_total_allocs s) (g_total_frees s) (g_bytes_live s) (g_large_allocs s), tt).
Definition rd_mem : stM St mem := λ s, Ret (s, sb_mem s).
Definition wr_mem (m : mem) : stM St unit := λ s,
  Ret (mk_slabs m (sb_pmm s) (sb_heap s) (sb_caches s) (g_cache_registry s) (g_size_caches s) (g_total_allocs s) (g_total_frees s) (g_bytes_live s) (g_large_allocs s), tt).
Definition on_pmm {A} (f : pmm → outcome (pmm * A)) : stM St A := λ s,
  '(a, r) ← f (sb_pmm s);
  Ret (mk_slabs (sb_mem s) a (sb_heap s) (sb_caches s) (g_cache_registry s) (g_size_caches s) (g_total_allocs s) (g_total_frees s) (g_bytes_live s) (g_large_allocs s), r).
Definition set_registry (p : Z) : stM St unit := λ s,
  Ret (mk_slabs (sb_mem s) (sb_pmm s) (sb_heap s) (sb_caches s) p (g_size_caches s) (g_total_allocs s) (g_total_frees s) (g_bytes_live s) (g_large_allocs s), tt).
Definition get_registry : stM St Z := λ s, Ret (s, g_cache_registry s).
Definition set_stats (allocs frees bytes large : Z) : stM St unit := λ s,
  Ret (mk_slabs (sb_mem s) (sb_pmm s) (sb_heap s) (sb_caches s) (g_cache_registry s) (g_size_caches s) allocs frees bytes large, tt).
Definition set_size_caches (l : list Z) : stM St unit := λ s,
  Ret (mk_slabs (sb_mem s) (sb_pmm s) (sb_heap s) (sb_caches s) (g_cache_registry s) l (g_total_allocs s) (g_total_frees s) (g_bytes_live s) (g_large_allocs s), tt).
Definition get_state : stM St St := λ s, Ret (s, s).

(** [kmalloc] and [memset] of the structure. *)
Definition new_cache_block : stM St Z := λ s,
  '(h, p) ← knew (sb_heap s) sizeof_kmem_cache;
  Ret (mk_slabs (sb_mem s) (sb_pmm s) h (sb_caches s) (g_cache_registry s) (g_size_caches s) (g_total_allocs s) (g_total_frees s) (g_bytes_live s) (g_large_allocs s), p).
Definition drop_cache_block (p : Z) : stM St unit := λ s,
  h ← kdrop (sb_heap s) p;
  Ret (mk_slabs (sb_mem s) (sb_pmm s) h (delete p (sb_caches s)) (g_cache_registry s) (g_size_caches s) (g_total_allocs s) (g_total_frees s) (g_bytes_live s) (g_large_allocs s), tt).

Definition kmem_cache_create (name obj_size align flags : Z) : stM St Z :=
  c ← new_cache_block;
  if c =? 0 then mret 0
  else
    next ← get_registry;
    put_cache c (new_cache name obj_size align flags next);;
    set_registry c;;
    mret c.

Definition cache_grow (p : Z) : stM St Z :=
  c ← get_cache p;
  phys ← on_pmm (λ a, pmm_alloc_contig a (c_slab_pages c));
  if phys =? PMM_INVALID_PAGE then mret (-1)
  else
    m ← rd_mem;
    let m := slab_header m phys p (c_slab_pages c) (c_objs_per_slab c) (c_slabs c) in
    st ← lift (for_range 0 (c_objs_per_slab c) (thread_body (phys + sizeof_kmem_slab) (c_slot_size c)) (m, c_free_list c));
    wr_mem st.1;;
    put_cache p (with_slab c st.2 phys);;
    mret 0.

Definition kmem_cache_alloc (p : Z) : stM St Z :=
  c ← get_cache p;
  ok ← (if c_free_list c =? 0 then r ← cache_grow p; mret (r =? 0) else mret true);
  if negb ok then mret 0
  else
    c ← get_cache p;
    m ← rd_mem;
    let obj := c_free_list c in
    let next := load64 m obj in
    put_cache p (with_counts c next (u64 (c_alloc_count c + 1)) (c_free_count c));;
    let m := if has_flag c KMEM_CACHE_ZERO then zero_mem m obj (c_obj_size c) else m in
    wr_mem (set_redzone m c obj);;
    mret obj.

(** The result tells whether the corruption was logged. *)
Definition kmem_cache_free (p obj : Z) : stM St bool :=
  if obj =? 0 then mret false
  else
    c ← get_cache p;
    m ← rd_mem;
    let logged := negb (check_redzone m c obj) in
    wr_mem (store64 m obj (c_free_list c));;
    put_cache p (with_counts c obj (c_alloc_count c) (u64 (c_free_count c + 1)));;
    mret logged.

(** The loops of [kmem_cache_destroy]: the slabs, and the link to [c] in the registry; [pp] is the cache whose [next] is looked
    at, 0 for the registry itself. *)
Definition free_slab_step (s : Z) : stM St (Z + unit) :=
  if s =? 0 then mret (inr tt)
  else
    m ← rd_mem;
    let next := load64 m (s + slab_next) in
    on_pmm (λ a, a ← pmm_free_contig a s (load64 m (s + slab_pages)); Ret (a, tt));;
    mret (inl next).

Definition unlink_step (c pp : Z) : stM St (Z + unit) :=
  cur ← (if pp =? 0 then get_registry else cc ← get_cache pp; mret (c_next cc));
  if cur =? 0 then mret (inr tt)
  else if cur =? c then
    cc ← get_cache c;
    (if pp =? 0 then set_registry (c_next cc) else pc ← get_cache pp; put_cache pp (with_next pc (c_next cc)));;
    mret (inr tt)
  else mret (inl cur).

Definition kmem_cache_destroy (p : Z) : stM St unit :=
  c ← get_cache p;
  while (Z.to_nat (c_slab_count c) + 1) free_slab_step (c_slabs c);;
  s ← get_state;
  while (size (sb_caches s) + 1) (unlink_step p) 0;;
  drop_cache_block p.

Definition kmem_cache_active (p : Z) : stM St Z := c ← get_cache p; mret (c_active c).

(** *** Size classes *)

Definition init_body (i : Z) (_ : unit) : stM St (unit + unit) :=
  u ← lift (aget g_class_usable i);
  c ← kmem_cache_create 0 (u + KMEM_HDR_SIZE) 16 0;
  s ← get_state;
  l ← lift (aset (g_size_caches s) i c);
  set_size_caches l;;
  mret (inl tt).
Definition slab_init : stM St unit := _ ← seek 0 NUM_CLASSES init_body tt; mret tt.

Definition kmem_alloc (size : Z) : stM St Z :=
  if size =? 0 then mret 0
  else
    s ← get_state;
    set_stats (u64 (g_total_allocs s + 1)) (g_total_frees s) (g_bytes_live s) (g_large_allocs s);;
    let cls := size_to_class size in
    if 0 <=? cls then
      c ← lift (aget (g_size_caches s) cls);
      slot ← kmem_cache_alloc c;
      if slot =? 0 then mret 0
      else
        m ← rd_mem;
        wr_mem (write_hdr m slot cls 0);;
        u ← lift (aget g_class_usable cls);
        s ← get_state;
        set_stats (g_total_allocs s) (g_total_frees s) (u64 (g_bytes_live s + u)) (g_large_allocs s);;
        mret (slot + KMEM_HDR_SIZE)
    else
      match check_add_size size KMEM_HDR_SIZE with
      | (_, None) => mret 0
      | (_, Some total) =>
          let npages := div_round_up_u64 total PAGE_SIZE in
          phys ← on_pmm (λ a, pmm_alloc_contig a npages);
          if phys =? PMM_INVALID_PAGE then mret 0
          else
            m ← rd_mem;
            wr_mem (write_hdr m phys 0xFFFF npages);;
            s ← get_state;
            set_stats (g_total_allocs s) (g_total_frees s) (u64 (g_bytes_live s + u64 (npages * PAGE_SIZE))) (u64 (g_large_allocs s + 1));;
            mret (phys + KMEM_HDR_SIZE)
      end.

Definition kmem_zalloc (size : Z) : stM St Z :=
  p ← kmem_alloc size;
  if negb (p =? 0) then m ← rd_mem; wr_mem (zero_mem m p size);; mret p else mret p.

Definition kmem_alloc_size (ptr : Z) : stM St Z :=
  if ptr =? 0 then mret 0
  else
    m ← rd_mem;
    let h := ptr - KMEM_HDR_SIZE in
    if negb (hdr_magic m h =? KMEM_MAGIC) then mret 0
    else if hdr_class m h =? 0xFFFF then mret (u64 (u64 (hdr_npages m h * PAGE_SIZE) - KMEM_HDR_SIZE))
    else lift (aget g_class_usable (hdr_class m h)).

(** The result tells whether a bad free was logged, or the corruption of the slot. *)
Definition kmem_free (ptr : Z) : stM St bool :=
  if ptr =? 0 then mret false
  else
    m ← rd_mem;
    let h := ptr - KMEM_HDR_SIZE in
    if negb (hdr_magic m h =? KMEM_MAGIC) then mret true
    else
      s ← get_state;
      let frees := u64 (g_total_frees s + 1) in
      if hdr_class m h =? 0xFFFF then
        let npages := hdr_npages m h in
        let bytes := u64 (npages * PAGE_SIZE) in
        wr_mem (store32 m h 0);;
        set_stats (g_total_allocs s) frees (if bytes <=? g_bytes_live s then g_bytes_live s - bytes else g_bytes_live s) (g_large_allocs s);;
        on_pmm (λ a, a ← pmm_free_contig a h npages; Ret (a, tt));;
        mret false
      else
        let cls := hdr_class m h in
        u ← lift (aget g_class_usable cls);
        wr_mem (store32 m h 0);;
        set_stats (g_total_allocs s) frees (if u <=? g_bytes_live s then g_bytes_live s - u else g_bytes_live s) (g_large_allocs s);;
        c ← lift (aget (g_size_caches s) cls);
        kmem_cache_free c h.

Definition kmem_realloc (ptr new_size : Z) : stM St Z :=
  if ptr =? 0 then kmem_alloc new_size
  else if new_size =? 0 then kmem_free ptr;; mret 0
  else
    old ← kmem_alloc_size ptr;
    if new_size <=? old then mret ptr
    else
      n ← kmem_alloc new_size;
      if n =? 0 then mret 0
      else
        m ← rd_mem;
        wr_mem (store_bytes m n (load_bytes m ptr old));;
        kmem_free ptr;;
        mret n.

(** [struct kmem_stats]: allocations, frees, live objects, live bytes, large allocations, caches. *)
Definition count_step (l : Z * Z) : stM St (Z * Z + Z) :=
  let '(c, n) := l in
  if c =? 0 then mret (inr n) else cc ← get_cache c; mret (inl (c_next cc, u64 (n + 1))).
Definition kmem_get_stats : stM St (Z * Z * Z * Z * Z * Z) :=
  s ← get_state;
  n ← while (size (sb_caches s) + 1) count_step (g_cache_registry s, 0);
  mret (g_total_allocs s, g_total_frees s, u64 (g_total_allocs s - g_total_frees s), g_bytes_live s, g_large_allocs s, n).

End Slab.
