(* ===== verification/SlabSpec.v ===== *)
(** The invariant of the slab allocator ([Slab]) and the specification of its operations: each cache's slabs and free objects are
    chains in memory, the free and the live objects are the slots of its slabs, and the runs of pages of the caches and of the
    large blocks are in use and apart. *)

From stdpp Require Import gmap sorting.
From S2P Require Import Prelude Kmath Layout Pmm Memory StateM Heap Kalloc Slab.

(** ** Runs of pages *)

Record run_used (a : pmm) (p n : Z) : Prop := {
  ru_page : p mod 4096 = 0;
  ru_len : 0 < n;
  ru_range : 256 ≤ p / 4096 ∧ p / 4096 + n ≤ g_total_pages a;
  ru_used q : p / 4096 ≤ q < p / 4096 + n → used (g_bitmap a) q = true
}.

Lemma run_addr a p n : pmm_wf a → run_used a p n → 0x100000 ≤ p ∧ p + n * 4096 < 2 ^ 64.
Proof. intros [Hb _] [R1 R2 R3 _]. pose proof (pb_total _ Hb). split; zlia. Qed.

Lemma marked_wf a a' lo hi x : pmm_wf a → 256 ≤ lo → marked a a' lo hi x → pmm_wf a'.
Proof.
  intros [Hb Hl] Hlo Hm. split; [apply Hm|]. intros p Hp Ht. rewrite (marked_total _ _ _ _ _ Hm) in Ht. rewrite (mk_used _ _ _ _ _ Hm) by lia. rewrite decide_False by lia. by apply Hl.
Qed.

(** The pages that a call takes, and that no run in use has. *)
Definition run_taken (a a' : pmm) (p n : Z) : Prop :=
  pmm_wf a' ∧ run_used a' p n ∧ (∀ b k, run_used a b k → run_used a' b k ∧ (b + k * 4096 ≤ p ∨ p + n * 4096 ≤ b)).

Lemma run_taken_spec a a' q n :
  pmm_wf a → 0 < n → 256 ≤ q → q + n ≤ g_total_pages a → (∀ j, 0 ≤ j < n → used (g_bitmap a) (q + j) = false) → marked a a' q (q + n) true → run_taken a a' (q * 4096) n.
Proof.
  intros Hw Hn Hq Ht Hf Hm. pose proof (marked_total _ _ _ _ _ Hm) as Et. split; [by eapply marked_wf|]. split.
  - split; rewrite ?Et, ?Z.div_mul by lia; [apply Z.mod_mul; lia|done|lia|]. intros k Hk. rewrite (mk_used _ _ _ _ _ Hm) by lia. by rewrite decide_True.
  - intros b k [R1 R2 R3 R4]. split.
    + split; rewrite ?Et; [done|done|done|]. intros k' Hk. rewrite (mk_used _ _ _ _ _ Hm) by lia. dec_if; [done|by apply R4].
    + destruct (decide (b / 4096 + k ≤ q)); [zlia|]. destruct (decide (q + n ≤ b / 4096)); [zlia|]. exfalso.
      assert (used (g_bitmap a) (Z.max q (b / 4096)) = true) as Hu by (apply R4; lia).
      specialize (Hf (Z.max q (b / 4096) - q) ltac:(lia)). replace (q + (Z.max q (b / 4096) - q)) with (Z.max q (b / 4096)) in Hf by lia. congruence.
Qed.

Lemma alloc_contig_spec a n : pmm_wf a → 0 ≤ n < 2 ^ 63 →
  (∃ a' p, pmm_alloc_contig a n = Ret (a', p) ∧ p ≠ PMM_INVALID_PAGE ∧ run_taken a a' p n) ∨ (pmm_alloc_contig a n = Ret (a, PMM_INVALID_PAGE) ∧ (n = 0 ∨ ∀ q, ¬ free_run a q n)).
Proof.
  intros Hw Hn. destruct (decide (n = 0)) as [->|Hn0]; [right; split; [done|by left]|]. pose proof (pb_total _ (proj1 Hw)) as Hpt.
  assert (∀ q, 256 ≤ q → q * 4096 ≠ PMM_INVALID_PAGE) as Hinv by (intros q Hq; change PMM_INVALID_PAGE with 0; lia).
  unfold pmm_alloc_contig. destruct (Z.eqb_spec n 0) as [|_]; [done|]. destruct (Z.eqb_spec n 1) as [->|Hn1].
  - destruct (pmm_alloc_page_spec a (proj1 Hw)) as [(p & a' & E & Hp & Hu & _ & Hm)|[E Hall]].
    2: { right. split; [done|]. right. intros q (Q1 & Q2 & Q3). specialize (Q3 0 ltac:(lia)). rewrite Z.add_0_r in Q3. rewrite Hall in Q3 by lia. done. }
    left. exists a', (p * 4096).
    split; [done|]. split; [apply Hinv; lia|]. apply run_taken_spec; try done; try lia. intros j Hj. by replace (p + j) with p by lia.
  - change (Z.shiftr LOW_MEMORY_RESERVED_END PAGE_SHIFT) with 256.
    destruct (contig_loop_spec (Z.to_nat (g_total_pages a)) a n 256) as [(q & a' & E & (R1 & R2 & R3) & _ & Hm)|[E Hall]]; [apply Hw|lia|lia|lia|intros; lia| |right; split; [done|by right]].
    left. exists a', (q * 4096). split; [done|]. split; [apply Hinv; lia|]. apply run_taken_spec; try done; lia.
Qed.

(** Giving a run back. *)
Lemma free_contig_spec a p n : pmm_wf a → run_used a p n →
  ∃ a', pmm_free_contig a p n = Ret a' ∧ pmm_wf a' ∧ ∀ b k, run_used a b k → b + k * 4096 ≤ p ∨ p + n * 4096 ≤ b → run_used a' b k.
Proof.
  intros Hw Hr. destruct (run_addr _ _ _ Hw Hr) as [Hp1 Hp2]. destruct Hr as [R1 R2 R3 R4]. unfold pmm_free_contig.
  destruct (for_range_inv (λ i a', pmm_wf a' ∧ g_total_pages a' = g_total_pages a ∧ ∀ q, 0 ≤ q → used (g_bitmap a') q = if decide (p / 4096 ≤ q < p / 4096 + i) then false else used (g_bitmap a) q)
    (λ i s, pmm_free_page s (u64 (p + u64 (i * PAGE_SIZE)))) 0 n a) as (a' & E & Hw' & Ht' & Hu').
  - lia.
  - intros i s Hi (I1 & I2 & I3). change PAGE_SIZE with 4096. rewrite (u64_small (i * 4096)), u64_small by (unfold is_u64; lia).
    pose proof (pmm_free_page_spec s (p + i * 4096) (proj1 I1) ltac:(unfold is_u64; lia)) as Hs. replace ((p + i * 4096) / 4096) with (p / 4096 + i) in Hs by zlia.
    rewrite decide_True in Hs; [|split_and!; [zlia|unfold LOW_MEMORY_RESERVED_END; zlia|rewrite I2; lia|rewrite I3 by lia; rewrite decide_False by lia; apply R4; lia]].
    destruct Hs as (s' & E & Hm). exists s'. split; [done|]. split; [eapply marked_wf; [exact I1| |exact Hm]; lia|]. split; [by rewrite (marked_total _ _ _ _ _ Hm)|].
    intros q Hq. rewrite (mk_used _ _ _ _ _ Hm), I3 by done. repeat dec_if; done || lia.
  - split; [done|]. split; [done|]. intros q Hq. by rewrite decide_False by lia.
  - exists a'. split; [done|]. split; [done|]. intros b k [B1 B2 B3 B4] Hd. split; rewrite ?Ht'; [done|done|done|].
    intros q Hq. rewrite Hu' by lia. rewrite decide_False; [by apply B4|]. zlia.
Qed.

(** ** Chains in memory *)

Fixpoint chain (m : mem) (off p : Z) (l : list Z) : Prop :=
  match l with [] => p = 0 | x :: l => p = x ∧ 0 < x < 2 ^ 64 ∧ chain m off (load64 m (x + off)) l end.

Definition same_at (m m' : mem) (a n : Z) : Prop := ∀ x, a ≤ x < a + n → load8 m' x = load8 m x.

Lemma same_load64 m m' a : same_at m m' a 8 → load64 m' a = load64 m a.
Proof. intros H. apply load_ext. intros b Hb. apply H. lia. Qed.
Lemma same_store64 m a v b n : b + n ≤ a ∨ a + 8 ≤ b → same_at m (store64 m a v) b n.
Proof. intros H x Hx. apply load8_store. lia. Qed.
Lemma same_trans m1 m2 m3 a n : same_at m1 m2 a n → same_at m2 m3 a n → same_at m1 m3 a n.
Proof. intros H1 H2 x Hx. rewrite H2, H1 by done. done. Qed.
Lemma same_sub m m' a n b k : same_at m m' a n → a ≤ b → b + k ≤ a + n → same_at m m' b k.
Proof. intros H Hb Hk x Hx. apply H. lia. Qed.
Lemma same_refl m a n : same_at m m a n.
Proof. done. Qed.
Lemma same_bytes m l a b n : b + n ≤ a ∨ a + zlen l ≤ b → same_at m (store_bytes m a l) b n.
Proof. intros H x Hx. rewrite load8_store_bytes. by rewrite decide_False by lia. Qed.
Lemma same_store16 m a v b n : b + n ≤ a ∨ a + 2 ≤ b → same_at m (store16 m a v) b n.
Proof. intros H x Hx. apply load8_store. lia. Qed.
Lemma same_store32 m a v b n : b + n ≤ a ∨ a + 4 ≤ b → same_at m (store32 m a v) b n.
Proof. intros H x Hx. apply load8_store. lia. Qed.
Lemma same_zero m a n b k : 0 ≤ n → b + k ≤ a ∨ a + n ≤ b → same_at m (zero_mem m a n) b k.
Proof. intros Hn H. apply same_bytes. unfold zlen. rewrite length_replicate. lia. Qed.

Lemma mchain_frame m m' off p l : (∀ x, x ∈ l → same_at m m' (x + off) 8) → chain m off p l → chain m' off p l.
Proof.
  revert p. induction l as [|x l IH]; intros p Hs; cbn [chain]; [done|]. intros (-> & Hx & Hc). split; [done|]. split; [done|]. rewrite (same_load64 m m') by (apply Hs; left). apply IH; [|done]. intros y Hy. apply Hs. by right.
Qed.

Lemma chain_nonzero m off p l : chain m off p l → 0 ≤ p < 2 ^ 64 ∧ (p = 0 ↔ l = []).
Proof. destruct l as [|x l]; cbn [chain]; [intros ->; done|]. intros (-> & Hx & _). split; [lia|]. split; [lia|done]. Qed.

Lemma chain_push m off x p l : 0 < x < 2 ^ 64 → (∀ y, y ∈ l → y + 8 ≤ x ∨ x + 8 ≤ y) → chain m off p l → chain (store64 m (x + off) p) off x (x :: l).
Proof.
  intros Hx Hd Hc. destruct (chain_nonzero _ _ _ _ Hc) as [Hp _]. split; [done|]. split; [done|]. rewrite load64_store64 by done.
  apply (mchain_frame m); [|done]. intros y Hy. apply same_store64. specialize (Hd y Hy). lia.
Qed.

(** ** One cache *)

Record ghost := mk_ghost { gh_slabs : list Z; gh_free : list Z; gh_live : list Z }.

Definition redzone_size (c : kmem_cache) : Z := if has_flag c KMEM_CACHE_REDZONE then 8 else 0.

Record shape (c : kmem_cache) : Prop := {
  sh_slot : 8 ≤ c_slot_size c;
  sh_obj : 0 ≤ c_obj_size c ∧ c_obj_size c + redzone_size c ≤ c_slot_size c;
  sh_count : 0 < c_objs_per_slab c;
  sh_fit : sizeof_kmem_slab + c_objs_per_slab c * c_slot_size c ≤ c_slab_pages c * 4096;
  sh_pages : 0 < c_slab_pages c < 2 ^ 52;
  sh_align : ∃ k, 0 ≤ k ≤ 32 ∧ c_align c = 2 ^ k ∧ c_slot_size c mod 2 ^ k = 0
}.

Definition slab_slots (c : kmem_cache) (a : Z) : list Z := (λ i, a + sizeof_kmem_slab + i * c_slot_size c) <$> seqZ 0 (c_objs_per_slab c).
Definition slots (c : kmem_cache) (sl : list Z) : list Z := sl ≫= slab_slots c.

Record cinv (m : mem) (c : kmem_cache) (g : ghost) : Prop := {
  ci_shape : shape c;
  ci_slabs : chain m slab_next (c_slabs c) (gh_slabs g);
  ci_pages a : a ∈ gh_slabs g → load64 m (a + slab_pages) = c_slab_pages c;
  ci_free : chain m 0 (c_free_list c) (gh_free g);
  ci_objs : gh_free g ++ gh_live g ≡ₚ slots c (gh_slabs g);
  ci_nodup : NoDup (gh_free g ++ gh_live g) ∧ NoDup (gh_slabs g);
  ci_count : c_slab_count c = u64 (zlen (gh_slabs g));
  ci_active : c_active c = u64 (zlen (gh_live g)) ∧ c_active c = u64 (c_alloc_count c - c_free_count c)
}.

Lemma elem_of_cache_slots c sl x : x ∈ slots c sl ↔ ∃ a i, a ∈ sl ∧ 0 ≤ i < c_objs_per_slab c ∧ x = a + sizeof_kmem_slab + i * c_slot_size c.
Proof.
  unfold slots, slab_slots. rewrite list_elem_of_bind. split.
  - intros (a & Hx & Ha). apply list_elem_of_fmap in Hx as (i & -> & Hi%elem_of_seqZ). exists a, i. split_and!; [done|lia|lia|done].
  - intros (a & i & Ha & Hi & ->). exists a. split; [|done]. apply list_elem_of_fmap. exists i. split; [done|]. apply elem_of_seqZ. lia.
Qed.

Lemma slot_inside c sl x : shape c → x ∈ slots c sl → ∃ a, a ∈ sl ∧ a + sizeof_kmem_slab ≤ x ∧ x + c_slot_size c ≤ a + c_slab_pages c * 4096.
Proof.
  intros [S1 S2 S3 S4 S5 _] (a & i & Ha & Hi & ->)%elem_of_cache_slots. exists a. split; [done|]. split; [nia|]. nia.
Qed.

(** What the invariant of a cache says about memory: the headers of its slabs and the links of its free objects. *)
Lemma cinv_frame m m' c g :
  (∀ a, a ∈ gh_slabs g → same_at m m' a sizeof_kmem_slab) → (∀ x, x ∈ gh_free g → same_at m m' x 8) → cinv m c g → cinv m' c g.
Proof.
  intros H1 H2 [C1 C2 C3 C4 C5 C6 C7 C8]. split; try done.
  - apply (mchain_frame m); [|done]. intros a Ha. apply (same_sub _ _ a sizeof_kmem_slab); [by apply H1|unfold slab_next, sizeof_kmem_slab; lia..].
  - intros a Ha. rewrite <-(C3 a Ha). apply same_load64. apply (same_sub _ _ a sizeof_kmem_slab); [by apply H1|unfold slab_pages, sizeof_kmem_slab; lia..].
  - apply (mchain_frame m); [|done]. intros x Hx. rewrite Z.add_0_r. by apply H2.
Qed.

(** ** All caches and the large blocks *)

(** The registry, through the field [next]. *)
Fixpoint rchain (C : gmap Z kmem_cache) (p : Z) (l : list Z) : Prop :=
  match l with [] => p = 0 | x :: l => p = x ∧ ∃ c, C !! x = Some c ∧ rchain C (c_next c) l end.

Section Inv.
Context {H : Type} {KA : Kalloc H} {KL : KallocLaws H}.
Implicit Types (s : slabs H) (G : gmap Z ghost) (B : gmap Z Z).

(** The runs of pages: those of a cache's slabs, and the large blocks [B], which have their number of pages. *)
Definition owns (C : gmap Z kmem_cache) G B (o : option Z) (a n : Z) : Prop :=
  match o with
  | Some p => ∃ c g, C !! p = Some c ∧ G !! p = Some g ∧ a ∈ gh_slabs g ∧ n = c_slab_pages c
  | None => B !! a = Some n
  end.

Definition apart_runs (a n b k : Z) : Prop := a + n * 4096 ≤ b ∨ b + k * 4096 ≤ a.

Record sinv s G B : Prop := {
  si_pmm : pmm_wf (sb_pmm s);
  si_heap : klive (sb_heap s) (dom (sb_caches s));
  si_reg : ∃ reg, rchain (sb_caches s) (g_cache_registry s) reg ∧ NoDup reg ∧ ∀ p, p ∈ reg ↔ p ∈ dom (sb_caches s);
  si_dom p : is_Some (G !! p) ↔ is_Some (sb_caches s !! p);
  si_cache p c g : sb_caches s !! p = Some c → G !! p = Some g → cinv (sb_mem s) c g;
  si_run o a n : owns (sb_caches s) G B o a n → run_used (sb_pmm s) a n;
  si_apart o a n o' a' n' : owns (sb_caches s) G B o a n → owns (sb_caches s) G B o' a' n' → (o, a) = (o', a') ∨ apart_runs a n a' n'
}.

Lemma owns_size C G B o a n n' : owns C G B o a n → owns C G B o a n' → n = n'.
Proof.
  destruct o as [p|]; cbn; [|congruence]. intros (c & g & E1 & _ & _ & ->) (c' & g' & E1' & _ & _ & ->). congruence.
Qed.

(** The slot of an object, free or live, and the slab it is in. *)
Lemma object_slot s G B p c g x :
  sinv s G B → sb_caches s !! p = Some c → G !! p = Some g → x ∈ gh_free g ++ gh_live g →
  shape c ∧ ∃ a, owns (sb_caches s) G B (Some p) a (c_slab_pages c) ∧ a + sizeof_kmem_slab ≤ x ∧ x + c_slot_size c ≤ a + c_slab_pages c * 4096.
Proof.
  intros Hs Hc Hg Hx. pose proof (si_cache _ _ _ Hs _ _ _ Hc Hg) as Hi. split; [apply Hi|]. rewrite (ci_objs _ _ _ Hi) in Hx. destruct (slot_inside c (gh_slabs g) x (ci_shape _ _ _ Hi) Hx) as (a & Ha & H1 & H2).
  exists a. split; [|done]. by exists c, g.
Qed.

Lemma object_range s G B p c g x :
  sinv s G B → sb_caches s !! p = Some c → G !! p = Some g → x ∈ gh_free g ++ gh_live g → 0x100000 < x ∧ x + c_slot_size c < 2 ^ 64.
Proof.
  intros Hs Hc Hg Hx. destruct (object_slot _ _ _ _ _ _ _ Hs Hc Hg Hx) as (Hsh & a & Ho & H1 & H2). destruct (run_addr _ _ _ (si_pmm _ _ _ Hs) (si_run _ _ _ Hs _ _ _ Ho)) as [H3 H4].
  unfold sizeof_kmem_slab in *. lia.
Qed.

(** Two objects are apart. *)
Lemma objects_apart s G B p c g x p' c' g' x' :
  sinv s G B → sb_caches s !! p = Some c → G !! p = Some g → x ∈ gh_free g ++ gh_live g →
  sb_caches s !! p' = Some c' → G !! p' = Some g' → x' ∈ gh_free g' ++ gh_live g' →
  (p, x) = (p', x') ∨ x + c_slot_size c ≤ x' ∨ x' + c_slot_size c' ≤ x.
Proof.
  intros Hs Hc Hg Hx Hc' Hg' Hx'. pose proof (si_cache _ _ _ Hs _ _ _ Hc Hg) as Hi. pose proof (si_cache _ _ _ Hs _ _ _ Hc' Hg') as Hi'.
  rewrite (ci_objs _ _ _ Hi) in Hx. rewrite (ci_objs _ _ _ Hi') in Hx'. pose proof (slot_inside _ _ _ (ci_shape _ _ _ Hi) Hx) as Hin. pose proof (slot_inside _ _ _ (ci_shape _ _ _ Hi') Hx') as Hin'.
  apply elem_of_cache_slots in Hx as (a & i & Ha & Hi1 & Ex), Hx' as (a' & i' & Ha' & Hi1' & Ex').
  assert (owns (sb_caches s) G B (Some p) a (c_slab_pages c)) as Ho by (by exists c, g). assert (owns (sb_caches s) G B (Some p') a' (c_slab_pages c')) as Ho' by (by exists c', g').
  destruct (si_apart _ _ _ Hs _ _ _ _ _ _ Ho Ho') as [[= -> ->]|Hd].
  - rewrite Hc in Hc'. injection Hc' as <-. pose proof (sh_slot _ (ci_shape _ _ _ Hi)). destruct (decide (i = i')) as [->|Hne]; [left; by subst|right]. nia.
  - right. destruct (ci_shape _ _ _ Hi) as [S1 S2 S3 S4 S5 _], (ci_shape _ _ _ Hi') as [T1 T2 T3 T4 T5 _]. unfold apart_runs, sizeof_kmem_slab in *. subst x x'. nia.
Qed.

Lemma object_run_apart s G B p c g x b n :
  sinv s G B → sb_caches s !! p = Some c → G !! p = Some g → x ∈ gh_free g ++ gh_live g → B !! b = Some n → x + c_slot_size c ≤ b ∨ b + n * 4096 ≤ x.
Proof.
  intros Hs Hc Hg Hx Hb. destruct (object_slot _ _ _ _ _ _ _ Hs Hc Hg Hx) as (Hsh & a & Ho & H1 & H2). destruct (si_apart _ _ _ Hs _ _ _ None b n Ho Hb) as [|Hd]; [done|].
  unfold apart_runs, sizeof_kmem_slab in *. lia.
Qed.

(** An object is apart from the headers of all slabs. *)
Lemma object_header_apart s G B p c g x p' c' g' a' :
  sinv s G B → sb_caches s !! p = Some c → G !! p = Some g → x ∈ gh_free g ++ gh_live g → sb_caches s !! p' = Some c' → G !! p' = Some g' → a' ∈ gh_slabs g' →
  x + c_slot_size c ≤ a' ∨ a' + sizeof_kmem_slab ≤ x.
Proof.
  intros Hs Hc Hg Hx Hc' Hg' Ha'. destruct (object_slot _ _ _ _ _ _ _ Hs Hc Hg Hx) as (Hsh & a & Ho & H1 & H2).
  assert (owns (sb_caches s) G B (Some p') a' (c_slab_pages c')) as Ho' by (by exists c', g'). pose proof (ci_shape _ _ _ (si_cache _ _ _ Hs _ _ _ Hc' Hg')) as [T1 T2 T3 T4 T5 _].
  destruct (si_apart _ _ _ Hs _ _ _ _ _ _ Ho Ho') as [[= -> ->]|Hd]; [by right|]. unfold apart_runs, sizeof_kmem_slab in *. nia.
Qed.

(** *** A change in one object *)

Definition upd s (m : mem) (p : Z) (c : kmem_cache) : slabs H :=
  mk_slabs m (sb_pmm s) (sb_heap s) (<[p := c]> (sb_caches s)) (g_cache_registry s) (g_size_caches s) (g_total_allocs s) (g_total_frees s) (g_bytes_live s) (g_large_allocs s).
Definition with_mem s (m : mem) : slabs H :=
  mk_slabs m (sb_pmm s) (sb_heap s) (sb_caches s) (g_cache_registry s) (g_size_caches s) (g_total_allocs s) (g_total_frees s) (g_bytes_live s) (g_large_allocs s).

Definition only_in (m m' : mem) (x n : Z) : Prop := ∀ y, ¬ x ≤ y < x + n → load8 m' y = load8 m y.

Lemma only_same m m' x n a k : only_in m m' x n → a + k ≤ x ∨ x + n ≤ a → same_at m m' a k.
Proof. intros Ho Hd y Hy. apply Ho. lia. Qed.
Lemma only_trans m1 m2 m3 x n : only_in m1 m2 x n → only_in m2 m3 x n → only_in m1 m3 x n.
Proof. intros H1 H2 y Hy. rewrite H2, H1 by done. done. Qed.
Lemma only_sub m m' x n y k : only_in m m' y k → x ≤ y → y + k ≤ x + n → only_in m m' x n.
Proof. intros Ho H1 H2 z Hz. apply Ho. lia. Qed.
Lemma only_store64 m x v : only_in m (store64 m x v) x 8.
Proof. intros y Hy. apply load8_store. lia. Qed.

Lemma rchain_insert C p c c' q l : C !! p = Some c → c_next c' = c_next c → rchain C q l → rchain (<[p := c']> C) q l.
Proof.
  intros Hc Hn. revert q. induction l as [|x l IH]; intros q; cbn; [done|]. intros (-> & cx & Hx & Hr). split; [done|]. destruct (decide (x = p)) as [->|Hne].
  - exists c'. rewrite lookup_insert_eq. split; [done|]. rewrite Hc in Hx. injection Hx as <-. rewrite Hn. by apply IH.
  - exists cx. rewrite lookup_insert_ne by done. split; [done|]. by apply IH.
Qed.

Lemma owns_insert C G B p c g c' g' o a n :
  C !! p = Some c → G !! p = Some g → gh_slabs g' = gh_slabs g → c_slab_pages c' = c_slab_pages c → owns (<[p := c']> C) (<[p := g']> G) B o a n → owns C G B o a n.
Proof.
  intros Hc Hg E1 E2. destruct o as [q|]; cbn; [|done]. intros (cq & gq & Hcq & Hgq & Ha & ->). destruct (decide (q = p)) as [->|Hne].
  - rewrite lookup_insert_eq in Hcq; rewrite lookup_insert_eq in Hgq. injection Hcq as <-. injection Hgq as <-. exists c, g. rewrite <-E1, E2. done.
  - rewrite lookup_insert_ne in Hcq by done; rewrite lookup_insert_ne in Hgq by done. by exists cq, gq.
Qed.

Lemma sinv_object s G B p c g x m' c' g' :
  sinv s G B → sb_caches s !! p = Some c → G !! p = Some g → x ∈ gh_free g ++ gh_live g → only_in (sb_mem s) m' x (c_slot_size c) →
  cinv m' c' g' → gh_slabs g' = gh_slabs g → c_slab_pages c' = c_slab_pages c → c_next c' = c_next c → sinv (upd s m' p c') (<[p := g']> G) B.
Proof.
  intros Hs Hc Hg Hx Ho Hi E1 E2 E3. pose proof Hs as [I1 I2 (reg & R1 & R2 & R3) I4 I5 I6 I7]. split; cbn [upd sb_pmm sb_heap sb_caches sb_mem g_cache_registry].
  - done.
  - rewrite dom_insert_lookup_L; [done|by exists c].
  - exists reg. split; [by eapply rchain_insert|]. split; [done|]. rewrite dom_insert_lookup_L; [done|by exists c].
  - intros q. destruct (decide (q = p)) as [->|Hne]; [rewrite !lookup_insert_eq; split; by eexists|]. rewrite !lookup_insert_ne by done. apply I4.
  - intros q cq gq Hcq Hgq. destruct (decide (q = p)) as [->|Hne].
    + rewrite lookup_insert_eq in Hcq; rewrite lookup_insert_eq in Hgq. injection Hcq as <-. by injection Hgq as <-.
    + rewrite lookup_insert_ne in Hcq by done; rewrite lookup_insert_ne in Hgq by done. apply (cinv_frame (sb_mem s)); [| |by apply (I5 q)].
      * intros a Ha. apply (only_same _ _ _ _ _ _ Ho). destruct (object_header_apart s G B p c g x q cq gq a Hs Hc Hg Hx Hcq Hgq Ha); lia.
      * intros y Hy. apply (only_same _ _ _ _ _ _ Ho). assert (y ∈ gh_free gq ++ gh_live gq) as Hy' by (apply elem_of_app; by left).
        pose proof (sh_slot _ (ci_shape _ _ _ (I5 q _ _ Hcq Hgq))). destruct (objects_apart s G B p c g x q cq gq y Hs Hc Hg Hx Hcq Hgq Hy') as [[=]|[?|?]]; [congruence|lia|lia].
  - intros o a n Ha%(owns_insert _ _ _ _ _ _ _ _ _ _ _ Hc Hg E1 E2). by apply (I6 o).
  - intros o a n o' a' n' Ha%(owns_insert _ _ _ _ _ _ _ _ _ _ _ Hc Hg E1 E2) Ha'%(owns_insert _ _ _ _ _ _ _ _ _ _ _ Hc Hg E1 E2). by apply (I7 o a n).
Qed.

(** The free objects of a cache that are not [x] keep their links, the slabs their headers. *)
Lemma cache_kept s G B p c g x m' :
  sinv s G B → sb_caches s !! p = Some c → G !! p = Some g → x ∈ gh_free g ++ gh_live g → only_in (sb_mem s) m' x (c_slot_size c) →
  (∀ a, a ∈ gh_slabs g → same_at (sb_mem s) m' a sizeof_kmem_slab) ∧ ∀ y, y ∈ gh_free g ++ gh_live g → y ≠ x → same_at (sb_mem s) m' y (c_slot_size c).
Proof.
  intros Hs Hc Hg Hx Ho. split.
  - intros a Ha. apply (only_same _ _ _ _ _ _ Ho). destruct (object_header_apart s G B p c g x p c g a Hs Hc Hg Hx Hc Hg Ha); lia.
  - intros y Hy Hne. apply (only_same _ _ _ _ _ _ Ho). destruct (objects_apart s G B p c g x p c g y Hs Hc Hg Hx Hc Hg Hy) as [[=]|[?|?]]; [congruence|lia|lia].
Qed.

(** *** Taking and returning an object *)

Definition popped (m : mem) (c : kmem_cache) (x : Z) : mem := set_redzone (if has_flag c KMEM_CACHE_ZERO then zero_mem m x (c_obj_size c) else m) c x.

Lemma popped_only m c x : shape c → only_in m (popped m c x) x (c_slot_size c).
Proof.
  intros [S1 [S2 S3] _ _ _]. unfold popped, set_redzone, redzone_size in *.
  apply (only_trans _ (if has_flag c KMEM_CACHE_ZERO then zero_mem m x (c_obj_size c) else m)).
  - destruct (has_flag c KMEM_CACHE_ZERO); [|done]. intros y Hy. apply (same_zero _ _ _ y 1); [lia| |lia]. destruct (has_flag c KMEM_CACHE_REDZONE); lia.
  - destruct (has_flag c KMEM_CACHE_REDZONE); [|done]. apply (only_sub _ _ _ _ (x + c_obj_size c) 8); [apply only_store64|lia|lia].
Qed.

Definition pop_cache (m : mem) (c : kmem_cache) (x : Z) : kmem_cache := with_counts c (load64 m x) (u64 (c_alloc_count c + 1)) (c_free_count c).
Definition pop_ghost (g : ghost) (x : Z) (fr : list Z) : ghost := mk_ghost (gh_slabs g) fr (x :: gh_live g).

Lemma pop_spec s G B p c g x fr :
  sinv s G B → sb_caches s !! p = Some c → G !! p = Some g → gh_free g = x :: fr →
  sinv (upd s (popped (sb_mem s) c x) p (pop_cache (sb_mem s) c x)) (<[p := pop_ghost g x fr]> G) B.
Proof.
  intros Hs Hc Hg Ef. pose proof (si_cache _ _ _ Hs _ _ _ Hc Hg) as Hi. assert (x ∈ gh_free g ++ gh_live g) as Hx by (rewrite Ef; left).
  pose proof (popped_only (sb_mem s) c x (ci_shape _ _ _ Hi)) as Ho. destruct (cache_kept _ _ _ _ _ _ _ _ Hs Hc Hg Hx Ho) as [K1 K2].
  pose proof Hi as [C1 C2 C3 C4 C5 [C6 C6'] C7 [C8 C9]]. rewrite Ef in C4, C5, C6, K2. cbn [chain] in C4. destruct C4 as (E & Hx0 & C4). rewrite Z.add_0_r in C4.
  apply (sinv_object s G B p c g x); try done. assert (c_slab_pages (pop_cache (sb_mem s) c x) = c_slab_pages c) as Ep by done.
  assert (cinv (sb_mem s) (pop_cache (sb_mem s) c x) (pop_ghost g x fr)) as Hi'.
  { split; cbn [pop_ghost gh_slabs gh_free gh_live pop_cache with_counts c_slabs c_slab_pages c_free_list c_slab_count c_active c_alloc_count c_free_count]; try done.
    - destruct C1. by split.
    - change (slots (with_counts _ _ _ _) (gh_slabs g)) with (slots c (gh_slabs g)). rewrite <-C5. cbn [app]. by rewrite Permutation_middle.
    - split; [|done]. by rewrite <-Permutation_middle.
    - split; [|done]. rewrite zlen_cons. rewrite C8 in C9. clear -C9. unfold u64 in *. rewrite Zminus_mod_idemp_l.
      replace (c_alloc_count c + 1 - c_free_count c) with (c_alloc_count c - c_free_count c + 1) by lia. rewrite <-(Zplus_mod_idemp_l (c_alloc_count c - c_free_count c)), <-C9, Zplus_mod_idemp_l. f_equal. lia. }
  apply (cinv_frame (sb_mem s)); [done| |done]. intros y Hy. cbn [pop_ghost gh_free] in Hy. apply (same_sub _ _ y (c_slot_size c)); [|lia|pose proof (sh_slot _ C1); lia].
  apply K2; [apply elem_of_app; left; by right|]. intros ->. apply NoDup_cons in C6 as [C6 _]. apply C6, elem_of_app. by left.
Qed.

Definition push_cache (c : kmem_cache) (x : Z) : kmem_cache := with_counts c x (c_alloc_count c) (u64 (c_free_count c + 1)).
Definition push_ghost (g : ghost) (x : Z) (lv : list Z) : ghost := mk_ghost (gh_slabs g) (x :: gh_free g) lv.

Lemma push_spec s G B p c g x lv :
  sinv s G B → sb_caches s !! p = Some c → G !! p = Some g → gh_live g ≡ₚ x :: lv →
  sinv (upd s (store64 (sb_mem s) x (c_free_list c)) p (push_cache c x)) (<[p := push_ghost g x lv]> G) B.
Proof.
  intros Hs Hc Hg El. pose proof (si_cache _ _ _ Hs _ _ _ Hc Hg) as Hi. assert (x ∈ gh_free g ++ gh_live g) as Hx by (rewrite El; apply elem_of_app; right; left).
  pose proof (sh_slot _ (ci_shape _ _ _ Hi)) as S1. assert (only_in (sb_mem s) (store64 (sb_mem s) x (c_free_list c)) x (c_slot_size c)) as Ho by (apply (only_sub _ _ _ _ x 8); [apply only_store64|lia|lia]).
  destruct (cache_kept _ _ _ _ _ _ _ _ Hs Hc Hg Hx Ho) as [K1 K2]. destruct (object_range _ _ _ _ _ _ _ Hs Hc Hg Hx) as [Hx1 Hx2].
  pose proof Hi as [C1 C2 C3 C4 C5 [C6 C6'] C7 [C8 C9]].
  assert (∀ y, y ∈ gh_free g → y ≠ x) as Hne. { intros y Hy ->. rewrite El in C6. apply NoDup_app in C6 as (_ & C6 & _). apply (C6 x Hy). left. }
  apply (sinv_object s G B p c g x); try done.
  split; cbn [push_ghost gh_slabs gh_free gh_live push_cache with_counts c_slabs c_slab_pages c_free_list c_slab_count c_active c_alloc_count c_free_count]; try done.
  - destruct C1. by split.
  - apply (mchain_frame (sb_mem s)); [|done]. intros a Ha. apply (same_sub _ _ a sizeof_kmem_slab); [by apply K1|unfold slab_next, sizeof_kmem_slab; lia..].
  - intros a Ha. rewrite <-(C3 a Ha). apply same_load64, (same_sub _ _ a sizeof_kmem_slab); [by apply K1|unfold slab_pages, sizeof_kmem_slab; lia..].
  - replace x with (x + 0) at 1 by lia. apply chain_push; [lia| |done]. intros y Hy.
    destruct (objects_apart s G B p c g x p c g y Hs Hc Hg Hx Hc Hg ltac:(apply elem_of_app; by left)) as [[=]|[?|?]]; [by destruct (Hne y Hy)|lia|lia].
  - change (slots (with_counts c x (c_alloc_count c) (u64 (c_free_count c + 1))) (gh_slabs g)) with (slots c (gh_slabs g)). rewrite <-C5, El. cbn [app]. by rewrite Permutation_middle.
  - split; [|done]. rewrite El in C6. cbn [app]. by rewrite Permutation_middle.
  - split; [|done]. assert (zlen (gh_live g) = 1 + zlen lv) as Ez by (unfold zlen; rewrite El; cbn [length]; lia). rewrite C8, Ez in C9. clear -C9. unfold u64 in *. rewrite Zminus_mod_idemp_r.
    replace (c_alloc_count c - (c_free_count c + 1)) with (c_alloc_count c - c_free_count c - 1) by lia. rewrite <-(Zminus_mod_idemp_l (c_alloc_count c - c_free_count c)), <-C9, Zminus_mod_idemp_l. f_equal. lia.
Qed.

(** A write of a client inside a live object. *)
Lemma write_spec s G B p c g x m' :
  sinv s G B → sb_caches s !! p = Some c → G !! p = Some g → x ∈ gh_live g → only_in (sb_mem s) m' x (c_slot_size c) → sinv (with_mem s m') G B.
Proof.
  intros Hs Hc Hg Hx Ho. assert (x ∈ gh_free g ++ gh_live g) as Hx' by (apply elem_of_app; by right). pose proof (si_cache _ _ _ Hs _ _ _ Hc Hg) as Hi.
  destruct (cache_kept _ _ _ _ _ _ _ _ Hs Hc Hg Hx' Ho) as [K1 K2].
  assert (sinv (upd s m' p c) (<[p := g]> G) B) as Hs'.
  { apply (sinv_object s G B p c g x); try done. apply (cinv_frame (sb_mem s)); [done| |done]. intros y Hy. pose proof (sh_slot _ (ci_shape _ _ _ Hi)).
    apply (same_sub _ _ y (c_slot_size c)); [|lia|lia]. apply K2; [apply elem_of_app; by left|]. intros ->. by apply (proj1 (NoDup_app _ _) (proj1 (ci_nodup _ _ _ Hi))) in Hy. }
  unfold upd in Hs'. rewrite (insert_id G p g) in Hs' by done. rewrite (insert_id (sb_caches s) p c) in Hs' by done. exact Hs'.
Qed.

(** *** A new slab *)

Lemma thread_spec m base slot n fl l :
  8 ≤ slot → 0 < base → 0 ≤ n → base + n * slot < 2 ^ 64 → chain m 0 fl l → (∀ y, y ∈ l → y + 8 ≤ base ∨ base + n * slot ≤ y) →
  ∃ m' fl', for_range 0 n (thread_body base slot) (m, fl) = Ret (m', fl') ∧ chain m' 0 fl' (reverse ((λ i, base + i * slot) <$> seqZ 0 n) ++ l) ∧ only_in m m' base (n * slot).
Proof.
  intros Hs Hb Hn Ht Hc Hd.
  destruct (for_range_inv (λ i st, chain st.1 0 st.2 (reverse ((λ i, base + i * slot) <$> seqZ 0 i) ++ l) ∧ only_in m st.1 base (i * slot)) (thread_body base slot) 0 n (m, fl)) as ([m' fl'] & E & H1 & H2).
  - lia.
  - intros i [mi fi] Hi [I1 I2]. exists (store64 mi (base + i * slot) fi, base + i * slot). split; [done|]. cbn [fst snd] in *. split.
    + rewrite seqZ_app by lia. change (seqZ (0 + i) 1) with [0 + (0 + i)]. rewrite fmap_app, reverse_app. cbn [fmap list_fmap]. replace (0 + (0 + i)) with i by lia. change (reverse [base + i * slot]) with [base + i * slot]. cbn [app].
      rewrite <-(Z.add_0_r (base + i * slot)) at 1. apply chain_push; [nia| |done]. intros y Hy. apply elem_of_app in Hy as [Hy|Hy].
      * rewrite elem_of_reverse in Hy. apply list_elem_of_fmap in Hy as (j & -> & Hj%elem_of_seqZ). nia.
      * specialize (Hd y Hy). nia.
    + apply (only_trans _ mi); [apply (only_sub _ _ _ _ base (i * slot)); [done|lia|nia]|]. apply (only_sub _ _ _ _ (base + i * slot) 8); [apply only_store64|nia|nia].
  - split; [done|]. cbn [fst]. done.
  - exists m', fl'. done.
Qed.

Lemma header_spec m slab cache pages nobjs next : is_u64 pages → is_u64 next →
  let m' := slab_header m slab cache pages nobjs next in only_in m m' slab sizeof_kmem_slab ∧ load64 m' (slab + slab_next) = next ∧ load64 m' (slab + slab_pages) = pages.
Proof.
  intros Hp Hn. unfold slab_header, sizeof_kmem_slab, slab_cache, slab_base, slab_pages, slab_nobjs, slab_inuse, slab_next. cbv zeta. split; [|split].
  - intros y Hy. unfold store64. rewrite !load8_store by lia. done.
  - by rewrite load64_store64.
  - rewrite !load64_store64_ne by lia. by rewrite load64_store64.
Qed.

Definition grown s (a : pmm) (m : mem) (p : Z) (c : kmem_cache) : slabs H :=
  mk_slabs m a (sb_heap s) (<[p := c]> (sb_caches s)) (g_cache_registry s) (g_size_caches s) (g_total_allocs s) (g_total_frees s) (g_bytes_live s) (g_large_allocs s).
Definition grow_ghost (c : kmem_cache) (g : ghost) (slab : Z) : ghost := mk_ghost (slab :: gh_slabs g) (reverse (slab_slots c slab) ++ gh_free g) (gh_live g).

Lemma grown_owns C G B p c g fl slab o b n :
  C !! p = Some c → G !! p = Some g → owns (<[p := with_slab c fl slab]> C) (<[p := grow_ghost c g slab]> G) B o b n → owns C G B o b n ∨ (o = Some p ∧ b = slab ∧ n = c_slab_pages c).
Proof.
  intros Hc Hg. destruct o as [q|]; cbn; [|by left]. intros (cq & gq & Hcq & Hgq & Ha & ->). destruct (decide (q = p)) as [->|Hne].
  - rewrite lookup_insert_eq in Hcq; rewrite lookup_insert_eq in Hgq. injection Hcq as <-. injection Hgq as <-. cbn [grow_ghost gh_slabs with_slab c_slab_pages] in *.
    apply elem_of_cons in Ha as [->|Ha]; [by right|left]. by exists c, g.
  - rewrite lookup_insert_ne in Hcq by done; rewrite lookup_insert_ne in Hgq by done. left. by exists cq, gq.
Qed.

(** The cache's part of the invariant after the growth. *)
Lemma grow_cinv m m' c g slab fl :
  cinv m c g → 0 < slab < 2 ^ 64 → (∀ a, a ∈ gh_slabs g → a ≠ slab) → (∀ x, x ∈ gh_free g ++ gh_live g → x ∉ slab_slots c slab) →
  (∀ a, a ∈ gh_slabs g → same_at m m' a sizeof_kmem_slab) → load64 m' (slab + slab_next) = c_slabs c → load64 m' (slab + slab_pages) = c_slab_pages c →
  chain m' 0 fl (reverse (slab_slots c slab) ++ gh_free g) → cinv m' (with_slab c fl slab) (grow_ghost c g slab).
Proof.
  intros [C1 C2 C3 C4 C5 [C6 C6'] C7 C8] Hs Hne Hnew Hh E1 E2 Hch.
  split; cbn [grow_ghost gh_slabs gh_free gh_live with_slab c_slabs c_slab_pages c_free_list c_slab_count c_active c_alloc_count c_free_count]; try done.
  - destruct C1. by split.
  - cbn [chain]. split; [done|]. split; [done|]. rewrite E1. apply (mchain_frame m); [|done]. intros a Ha. apply (same_sub _ _ a sizeof_kmem_slab); [by apply Hh|unfold slab_next, sizeof_kmem_slab; lia..].
  - intros a [->|Ha]%elem_of_cons; [done|]. rewrite <-(C3 a Ha). apply same_load64, (same_sub _ _ a sizeof_kmem_slab); [by apply Hh|unfold slab_pages, sizeof_kmem_slab; lia..].
  - change (slots (with_slab c fl slab) (slab :: gh_slabs g)) with (slab_slots c slab ++ slots c (gh_slabs g)). rewrite <-app_assoc, reverse_Permutation, C5. done.
  - split; [|apply NoDup_cons; split; [intros Ha; by apply (Hne slab)|done]]. rewrite <-app_assoc. apply NoDup_app. split; [|split; [|done]].
    + rewrite reverse_Permutation. unfold slab_slots. apply NoDup_fmap_2_strong; [|apply NoDup_seqZ]. intros i j _ _ E. pose proof (sh_slot _ C1). nia.
    + intros x Hx Hx'. rewrite elem_of_reverse in Hx. by apply (Hnew x).
  - rewrite zlen_cons, C7. unfold u64. rewrite Zplus_mod_idemp_l. f_equal. lia.
Qed.

Lemma grow_sinv s G B p c g a m slab fl :
  sinv s G B → sb_caches s !! p = Some c → G !! p = Some g → run_taken (sb_pmm s) a slab (c_slab_pages c) →
  only_in (sb_mem s) m slab (c_slab_pages c * 4096) → load64 m (slab + slab_next) = c_slabs c → load64 m (slab + slab_pages) = c_slab_pages c →
  chain m 0 fl (reverse (slab_slots c slab) ++ gh_free g) → sinv (grown s a m p (with_slab c fl slab)) (<[p := grow_ghost c g slab]> G) B.
Proof.
  intros Hs Hc Hg (T1 & T2 & T3) Ho E1 E2 Hch. pose proof Hs as [I1 I2 (reg & R1 & R2 & R3) I4 I5 I6 I7]. destruct (run_addr _ _ _ T1 T2) as [A1 A2].
  assert (∀ o b n, owns (sb_caches s) G B o b n → 0 < n ∧ run_used a b n ∧ apart_runs b n slab (c_slab_pages c)) as Hap.
  { intros o b n Hb. pose proof (I6 _ _ _ Hb) as Hu. split; [apply Hu|]. destruct (T3 _ _ Hu) as [Hu' Hd]. split; [done|]. unfold apart_runs. lia. }
  pose proof (ci_shape _ _ _ (I5 _ _ _ Hc Hg)) as [S1 S2 S3 S4 S5 _].
  assert (∀ q cq gq b, sb_caches s !! q = Some cq → G !! q = Some gq → b ∈ gh_slabs gq → same_at (sb_mem s) m b (c_slab_pages cq * 4096) ∧ b ≠ slab) as Hsl.
  { intros q cq gq b Hcq Hgq Hb. destruct (Hap (Some q) b (c_slab_pages cq)) as (Hn & _ & Hd); [by exists cq, gq|]. split; [apply (only_same _ _ _ _ _ _ Ho); unfold apart_runs in *; lia|]. intros ->. unfold apart_runs in *. lia. }
  assert (∀ q cq gq x, sb_caches s !! q = Some cq → G !! q = Some gq → x ∈ gh_free gq ++ gh_live gq → x + 8 ≤ slab ∨ slab + c_slab_pages c * 4096 ≤ x) as Hob.
  { intros q cq gq x Hcq Hgq Hx. destruct (object_slot _ _ _ _ _ _ _ Hs Hcq Hgq Hx) as (Hsh & b & Hb & X1 & X2). destruct (Hap _ _ _ Hb) as (_ & _ & Hd). pose proof (sh_slot _ Hsh). unfold apart_runs, sizeof_kmem_slab in *. lia. }
  split; cbn [grown sb_pmm sb_heap sb_caches sb_mem g_cache_registry].
  - done.
  - rewrite dom_insert_lookup_L; [done|by exists c].
  - exists reg. split; [by eapply rchain_insert|]. split; [done|]. rewrite dom_insert_lookup_L; [done|by exists c].
  - intros q. destruct (decide (q = p)) as [->|Hne]; [rewrite !lookup_insert_eq; split; by eexists|]. rewrite !lookup_insert_ne by done. apply I4.
  - intros q cq gq Hcq Hgq. destruct (decide (q = p)) as [->|Hne].
    + rewrite lookup_insert_eq in Hcq; rewrite lookup_insert_eq in Hgq. injection Hcq as <-. injection Hgq as <-. apply (grow_cinv (sb_mem s)); try done.
      * by apply (I5 p).
      * pose proof (ru_len _ _ _ T2). lia.
      * intros b Hb. by apply (Hsl p c g).
      * intros x Hx Hin. specialize (Hob p c g x Hc Hg Hx). apply list_elem_of_fmap in Hin as (i & -> & Hi%elem_of_seqZ). unfold sizeof_kmem_slab in *. nia.
      * intros b Hb. apply (same_sub _ _ b (c_slab_pages c * 4096)); [by apply (Hsl p c g)|lia|unfold sizeof_kmem_slab in *; lia].
    + rewrite lookup_insert_ne in Hcq by done; rewrite lookup_insert_ne in Hgq by done. apply (cinv_frame (sb_mem s)); [| |by apply (I5 q)].
      * intros b Hb. pose proof (ci_shape _ _ _ (I5 _ _ _ Hcq Hgq)) as [_ _ _ _ T5 _]. apply (same_sub _ _ b (c_slab_pages cq * 4096)); [by apply (Hsl q cq gq)|lia|unfold sizeof_kmem_slab in *; lia].
      * intros x Hx. apply (only_same _ _ _ _ _ _ Ho). apply (Hob q cq gq x Hcq Hgq). apply elem_of_app. by left.
  - intros o b n Hb%(grown_owns _ _ _ _ _ _ _ _ _ _ _ Hc Hg). destruct Hb as [Hb|(-> & -> & ->)]; [by apply (Hap o)|done].
  - intros o b n o' b' n' Hb%(grown_owns _ _ _ _ _ _ _ _ _ _ _ Hc Hg) Hb'%(grown_owns _ _ _ _ _ _ _ _ _ _ _ Hc Hg).
    destruct Hb as [Hb|(-> & -> & ->)], Hb' as [Hb'|(-> & -> & ->)]; [by apply (I7 o b n)|right; by apply (Hap o)| |by left].
    right. destruct (Hap _ _ _ Hb') as (_ & _ & Hd). unfold apart_runs in *. lia.
Qed.

Lemma grow_spec s G B p c g :
  sinv s G B → sb_caches s !! p = Some c → G !! p = Some g →
  wp (cache_grow p) s (λ r s', (r = -1 ∧ s' = s ∧ ∀ q, ¬ free_run (sb_pmm s) q (c_slab_pages c)) ∨ (r = 0 ∧ ∃ a m fl slab, s' = grown s a m p (with_slab c fl slab) ∧ sinv s' (<[p := grow_ghost c g slab]> G) B ∧
    run_taken (sb_pmm s) a slab (c_slab_pages c) ∧ only_in (sb_mem s) m slab (c_slab_pages c * 4096))).
Proof.
  intros Hs Hc Hg. pose proof (si_cache _ _ _ Hs _ _ _ Hc Hg) as Hi. pose proof (ci_shape _ _ _ Hi) as [S1 S2 S3 S4 S5 _]. unfold cache_grow.
  eapply (wp_known (get_cache p) _ s s c); [unfold get_cache; by rewrite Hc|].
  destruct (alloc_contig_spec (sb_pmm s) (c_slab_pages c) (si_pmm _ _ _ Hs) ltac:(lia)) as [(a & slab & E & Hne & Ht)|[E Hno]].
  2: { eapply (wp_known (on_pmm _) _ s s PMM_INVALID_PAGE); [unfold on_pmm; rewrite E; by destruct s|]. rewrite Z.eqb_refl. apply wp_ret. left. split; [done|]. split; [done|]. destruct Hno as [Hno|Hno]; [lia|done]. }
  eapply (wp_known (on_pmm _)); [unfold on_pmm; rewrite E; done|]. rewrite (proj2 (Z.eqb_neq _ _) Hne).
  eapply (wp_known rd_mem); [done|]. cbn [sb_mem]. cbv zeta. pose proof Ht as (T1 & T2 & T3). destruct (run_addr _ _ _ T1 T2) as [A1 A2].
  destruct (header_spec (sb_mem s) slab p (c_slab_pages c) (c_objs_per_slab c) (c_slabs c)) as (H1 & H2 & H3); [unfold is_u64; lia|apply (chain_nonzero _ _ _ _ (ci_slabs _ _ _ Hi))|].
  set (m1 := slab_header _ _ _ _ _ _) in *.
  assert (∀ x, x ∈ gh_free g ++ gh_live g → x + 8 ≤ slab ∨ slab + c_slab_pages c * 4096 ≤ x) as Hob.
  { intros x Hx. destruct (object_slot _ _ _ _ _ _ _ Hs Hc Hg Hx) as (Hsh & b & Hb & X1 & X2). destruct (T3 _ _ (si_run _ _ _ Hs _ _ _ Hb)) as [_ Hd]. unfold sizeof_kmem_slab in *. lia. }
  destruct (thread_spec m1 (slab + sizeof_kmem_slab) (c_slot_size c) (c_objs_per_slab c) (c_free_list c) (gh_free g)) as (m2 & fl & E2 & Hch & Ho2).
  { done. } { unfold sizeof_kmem_slab. lia. } { lia. } { unfold sizeof_kmem_slab in *. lia. }
  { apply (mchain_frame (sb_mem s)); [|apply Hi]. intros x Hx. apply (only_same _ _ _ _ _ _ H1). specialize (Hob x ltac:(apply elem_of_app; by left)). unfold sizeof_kmem_slab in *. nia. }
  { intros x Hx. specialize (Hob x ltac:(apply elem_of_app; by left)). unfold sizeof_kmem_slab in *. nia. }
  eapply wp_lift_bind; [exact E2|]. cbn [fst snd]. eapply (wp_known (wr_mem m2)); [done|]. eapply (wp_known (put_cache _ _)); [done|]. apply wp_ret. right. split; [done|].
  exists a, m2, fl, slab. assert (only_in (sb_mem s) m2 slab (c_slab_pages c * 4096)) as Ho.
  { apply (only_trans _ m1); [apply (only_sub _ _ _ _ slab sizeof_kmem_slab); [done|lia|]|apply (only_sub _ _ _ _ (slab + sizeof_kmem_slab) (c_objs_per_slab c * c_slot_size c)); [done|..]]; unfold sizeof_kmem_slab in *; nia. }
  split; [done|]. split; [|done]. apply (grow_sinv s G B p c g a m2 slab fl); [done|done|done|done|done| | |exact Hch]; (erewrite same_load64; [eassumption|]); apply (only_same _ _ _ _ _ _ Ho2); unfold sizeof_kmem_slab, slab_next, slab_pages; lia.
Qed.

(** *** The operations on a cache *)

(** What clients see of the caches: the parameters of each and its live objects. *)
Definition params (c : kmem_cache) : Z * Z * Z * Z * Z := (c_obj_size c, c_slot_size c, c_flags c, c_objs_per_slab c, c_slab_pages c).
Definition view s G (q : Z) : option (Z * Z * Z * Z * Z * list Z) :=
  match sb_caches s !! q, G !! q with Some c, Some g => Some (params c, gh_live g) | _, _ => None end.

(** The bytes of the live objects and of the large blocks. *)
Definition keeps s G B (m' : mem) : Prop :=
  (∀ q c g y, sb_caches s !! q = Some c → G !! q = Some g → y ∈ gh_live g → same_at (sb_mem s) m' y (c_slot_size c)) ∧
  ∀ b n, B !! b = Some n → same_at (sb_mem s) m' b (n * 4096).

Lemma keeps_run s G B a m slab n : sinv s G B → run_taken (sb_pmm s) a slab n → only_in (sb_mem s) m slab (n * 4096) → keeps s G B m.
Proof.
  intros Hs (_ & _ & T) Ho. split.
  - intros q c g y Hc Hg Hy. destruct (object_slot s G B q c g y Hs Hc Hg ltac:(apply elem_of_app; by right)) as (Hsh & b & Hb & X1 & X2). destruct (T _ _ (si_run _ _ _ Hs _ _ _ Hb)) as [_ Hd].
    apply (only_same _ _ _ _ _ _ Ho). unfold sizeof_kmem_slab in *. lia.
  - intros b k Hb. destruct (T _ _ (si_run _ _ _ Hs None _ _ Hb)) as [_ Hd]. apply (only_same _ _ _ _ _ _ Ho). lia.
Qed.

(** The slot of an object that is not live is no part of what is kept. *)
Lemma keeps_slot s G B p c g x m : sinv s G B → sb_caches s !! p = Some c → G !! p = Some g → x ∈ gh_free g → only_in (sb_mem s) m x (c_slot_size c) → keeps s G B m.
Proof.
  intros Hs Hc Hg Hx Ho. assert (x ∈ gh_free g ++ gh_live g) as Hx' by (apply elem_of_app; by left). split.
  - intros q cq gq y Hcq Hgq Hy. apply (only_same _ _ _ _ _ _ Ho). destruct (objects_apart s G B p c g x q cq gq y Hs Hc Hg Hx' Hcq Hgq ltac:(apply elem_of_app; by right)) as [E|[?|?]]; [|lia|lia]. exfalso.
    injection E as <- <-. rewrite Hg in Hgq. injection Hgq as <-. pose proof (proj1 (ci_nodup _ _ _ (si_cache _ _ _ Hs _ _ _ Hc Hg))) as (_ & Hnd & _)%NoDup_app. by apply (Hnd x Hx).
  - intros b n Hb. apply (only_same _ _ _ _ _ _ Ho). pose proof (object_run_apart s G B p c g x b n Hs Hc Hg Hx' Hb). lia.
Qed.

Record alloc_post s G B (p : Z) (c : kmem_cache) (g : ghost) (x : Z) (s' : slabs H) : Prop := {
  ap_state : ∃ a m c', s' = grown s a m p c';
  ap_inv : ∃ G', sinv s' G' B ∧ ∀ q, view s' G' q = if decide (q = p) then Some (params c, x :: gh_live g) else view s G q;
  ap_keep : keeps s G B (sb_mem s');
  ap_zero : has_flag c KMEM_CACHE_ZERO = true → same_at ∅ (sb_mem s') x (c_obj_size c);
  ap_redzone : check_redzone (sb_mem s') c x = true;
  ap_align : c_align <$> sb_caches s' !! p = Some (c_align c)
}.

Lemma popped_content m c x : shape c → (has_flag c KMEM_CACHE_ZERO = true → same_at ∅ (popped m c x) x (c_obj_size c)) ∧ check_redzone (popped m c x) c x = true.
Proof.
  intros [S1 S2 S3 S4 S5 _]. unfold popped, set_redzone, check_redzone, redzone_size in *. split.
  - intros Hz y Hy. rewrite Hz. assert (load8 (zero_mem m x (c_obj_size c)) y = 0) as E.
    { unfold zero_mem. rewrite load8_store_bytes. unfold zlen. rewrite length_replicate, decide_True by lia. by rewrite lookup_replicate_2 by lia. }
    change (load8 ∅ y) with 0. destruct (has_flag c KMEM_CACHE_REDZONE); [|done]. rewrite <-E. apply load8_store. lia.
  - destruct (has_flag c KMEM_CACHE_REDZONE); [|done]. rewrite load64_store64 by done. apply Z.eqb_refl.
Qed.

Lemma pop_run s G B p c g x fr :
  sb_caches s !! p = Some c → sinv s G B → G !! p = Some g → gh_free g = x :: fr →
  wp (c ← get_cache p; m ← rd_mem; let obj := c_free_list c in let next := load64 m obj in
      put_cache p (with_counts c next (u64 (c_alloc_count c + 1)) (c_free_count c));;
      let m := if has_flag c KMEM_CACHE_ZERO then zero_mem m obj (c_obj_size c) else m in
      wr_mem (set_redzone m c obj);; mret obj) s (λ r s', r = x ∧ alloc_post s G B p c g x s').
Proof.
  intros Hc Hs Hg Ef. pose proof (si_cache _ _ _ Hs _ _ _ Hc Hg) as Hi. pose proof (ci_free _ _ _ Hi) as Hch. rewrite Ef in Hch. cbn [chain] in Hch. destruct Hch as (Ex & Hx0 & _).
  eapply (wp_known (get_cache p) _ s s c); [unfold get_cache; by rewrite Hc|]. eapply (wp_known rd_mem); [done|]. cbv zeta. rewrite Ex.
  eapply (wp_known (put_cache _ _)); [done|]. eapply (wp_known (wr_mem _)); [done|]. apply wp_ret. split; [done|].
  change (mk_slabs _ _ _ _ _ _ _ _ _ _) with (upd s (popped (sb_mem s) c x) p (pop_cache (sb_mem s) c x)). destruct (popped_content (sb_mem s) c x (ci_shape _ _ _ Hi)) as [Z1 Z2]. split; try done.
  - by eexists _, _, _.
  - exists (<[p := pop_ghost g x fr]> G). split; [by apply pop_spec|]. intros q. unfold view. cbn [upd sb_caches]. dec_if as Hq; [subst q; by rewrite !lookup_insert_eq|]. by rewrite !lookup_insert_ne.
  - apply (keeps_slot s G B p c g x); try done; [rewrite Ef; left|]. apply popped_only. apply Hi.
  - cbn [upd sb_caches]. by rewrite lookup_insert_eq.
Qed.

(** The same with a slab added before. *)
Lemma alloc_post_grown s G B p c g a m fl slab x s' :
  sinv s G B → sb_caches s !! p = Some c → G !! p = Some g → run_taken (sb_pmm s) a slab (c_slab_pages c) → only_in (sb_mem s) m slab (c_slab_pages c * 4096) →
  alloc_post (grown s a m p (with_slab c fl slab)) (<[p := grow_ghost c g slab]> G) B p (with_slab c fl slab) (grow_ghost c g slab) x s' → alloc_post s G B p c g x s'.
Proof.
  intros Hs Hc Hg Ht Ho [(a2 & m2 & c2 & ->) (G2 & P1 & P2) [P3 P4] P5 P6 P7]. destruct (keeps_run _ _ _ _ _ _ _ Hs Ht Ho) as [K1 K2]. split; [| | |exact P5|exact P6|exact P7].
  - exists a2, m2, c2. unfold grown. cbn [sb_caches sb_heap g_cache_registry g_size_caches g_total_allocs g_total_frees g_bytes_live g_large_allocs]. by rewrite insert_insert_eq.
  - exists G2. split; [done|]. intros q. rewrite P2. dec_if as Hq; [done|]. unfold view. cbn [grown sb_caches]. by rewrite !lookup_insert_ne.
  - split.
    + intros q cq gq y Hcq Hgq Hy. eapply same_trans; [by apply (K1 q cq gq)|]. destruct (decide (q = p)) as [->|Hne].
      * rewrite Hc in Hcq. injection Hcq as <-. rewrite Hg in Hgq. injection Hgq as <-. apply (P3 p (with_slab c fl slab) (grow_ghost c g slab)); [apply lookup_insert_eq|apply lookup_insert_eq|done].
      * apply (P3 q cq gq); [cbn [grown sb_caches]; by rewrite lookup_insert_ne|by rewrite lookup_insert_ne|done].
    + intros b n Hb. eapply same_trans; [by apply K2|by apply P4].
Qed.

Lemma kmem_cache_alloc_spec s G B p c g :
  sinv s G B → sb_caches s !! p = Some c → G !! p = Some g → wp (kmem_cache_alloc p) s (λ r s', (r = 0 ∧ s' = s ∧ ∀ q, ¬ free_run (sb_pmm s) q (c_slab_pages c)) ∨ (r ≠ 0 ∧ alloc_post s G B p c g r s')).
Proof.
  intros Hs Hc Hg. pose proof (si_cache _ _ _ Hs _ _ _ Hc Hg) as Hi. unfold kmem_cache_alloc. eapply (wp_known (get_cache p) _ s s c); [unfold get_cache; by rewrite Hc|].
  destruct (chain_nonzero _ _ _ _ (ci_free _ _ _ Hi)) as [_ Hz]. destruct (gh_free g) as [|x fr] eqn:Ef.
  - rewrite (proj2 Hz eq_refl). cbn [Z.eqb]. apply wp_bind. eapply wp_step; [by apply (grow_spec s G B p c g)|]. intros r s1 [(-> & -> & Hno)|(-> & a & m & fl & slab & -> & Hs1 & Ht & Ho)]; apply wp_ret; cbn [Z.eqb negb].
    { apply wp_ret. by left. }
    destruct (gh_free (grow_ghost c g slab)) as [|x fr] eqn:E1.
    { exfalso. apply (f_equal length) in E1. cbn [grow_ghost gh_free length] in E1. rewrite length_app, length_reverse in E1. unfold slab_slots in E1. rewrite length_fmap, length_seqZ in E1. pose proof (sh_count _ (ci_shape _ _ _ Hi)). lia. }
    eapply wp_mono; [apply (pop_run _ (<[p := grow_ghost c g slab]> G) B p (with_slab c fl slab) (grow_ghost c g slab) x fr); [apply lookup_insert_eq|done|apply lookup_insert_eq|done]|].
    intros r s2 [-> Hp]. right. split; [|by eapply alloc_post_grown]. destruct (object_range _ _ B p (with_slab c fl slab) (grow_ghost c g slab) x Hs1) as [Hx _]; [apply lookup_insert_eq|apply lookup_insert_eq|rewrite E1; left|lia].
  - destruct (Z.eqb_spec (c_free_list c) 0) as [E0|_]; [by apply Hz in E0|]. eapply (wp_known (mret true)); [done|]. cbn [negb].
    eapply wp_mono; [by apply (pop_run s G B p c g x fr)|]. intros r s2 [-> Hp]. right. split; [|done]. destruct (object_range s G B p c g x Hs Hc Hg) as [Hx _]; [rewrite Ef; left|lia].
Qed.

(** Returning a live object. *)
Lemma kmem_cache_free_spec s G B p c g x lv :
  sinv s G B → sb_caches s !! p = Some c → G !! p = Some g → gh_live g ≡ₚ x :: lv →
  wp (kmem_cache_free p x) s (λ r s', r = negb (check_redzone (sb_mem s) c x) ∧ s' = upd s (store64 (sb_mem s) x (c_free_list c)) p (push_cache c x) ∧
    sinv s' (<[p := push_ghost g x lv]> G) B).
Proof.
  intros Hs Hc Hg El. unfold kmem_cache_free. assert (x ∈ gh_free g ++ gh_live g) as Hx by (rewrite El; apply elem_of_app; right; left).
  destruct (object_range s G B p c g x Hs Hc Hg Hx) as [Hx0 _]. destruct (Z.eqb_spec x 0) as [|_]; [lia|].
  eapply (wp_known (get_cache p) _ s s c); [unfold get_cache; by rewrite Hc|]. eapply (wp_known rd_mem); [done|]. cbv zeta.
  eapply (wp_known (wr_mem _)); [done|]. eapply (wp_known (put_cache _ _)); [done|]. apply wp_ret. split; [done|]. split; [done|]. exact (push_spec s G B p c g x lv Hs Hc Hg El).
Qed.

(** *** New caches *)

Definition new_align (align : Z) : Z := if is_pow2_u64 (if align =? 0 then 16 else align) =? 0 then 16 else if align =? 0 then 16 else align.

Lemma new_align_pow2 align : is_u64 align → align ≤ 2 ^ 32 → ∃ k, 0 ≤ k ≤ 32 ∧ new_align align = 2 ^ k.
Proof.
  intros Hu Hl. unfold new_align. set (a := if align =? 0 then 16 else align). assert (is_u64 a ∧ 0 < a ≤ 2 ^ 32) as [Ha Ha2] by (unfold a, is_u64 in *; destruct (Z.eqb_spec align 0); lia).
  destruct (Z.eqb_spec (is_pow2_u64 a) 0) as [E|E]; [by exists 4|]. assert (is_pow2_u64 a = 1) as E1 by (unfold is_pow2_u64, b2z in *; destruct (_ && _); lia).
  apply is_pow2_u64_spec in E1 as (k & Hk & E1); [|done]. exists k. split; [|done]. split; [lia|]. apply (Z.pow_le_mono_r_iff 2); lia.
Qed.

Lemma new_align_id k : 0 ≤ k < 64 → new_align (2 ^ k) = 2 ^ k.
Proof.
  intros Hk. assert (0 < 2 ^ k < 2 ^ 64) as Hp by (split; [lia|apply Z.pow_lt_mono_r; lia]). unfold new_align. destruct (Z.eqb_spec (2 ^ k) 0) as [|_]; [lia|].
  rewrite (proj2 (is_pow2_u64_spec (2 ^ k) ltac:(unfold is_u64; lia))); [done|]. by exists k.
Qed.

Lemma slot_size_spec obj align flags k : 0 ≤ obj ≤ 2 ^ 32 → 0 ≤ k ≤ 32 → align = 2 ^ k →
  let n := cache_slot_size obj align flags in let r := if negb (Z.land flags KMEM_CACHE_REDZONE =? 0) then 8 else 0 in
  8 ≤ n < 2 ^ 34 ∧ obj + r ≤ n ∧ n mod align = 0.
Proof.
  intros Ho Hk ->. unfold cache_slot_size. set (b := negb (Z.land flags KMEM_CACHE_REDZONE =? 0)). cbv zeta.
  set (x := if (if b then u64 (obj + 8) else obj) <? 8 then 8 else if b then u64 (obj + 8) else obj).
  assert (8 ≤ x ≤ 2 ^ 32 + 8 ∧ obj + (if b then 8 else 0) ≤ x) as [Hx1 Hx2].
  { unfold x. destruct b; [rewrite u64_small by lia|]; [destruct (Z.ltb_spec (obj + 8) 8)|destruct (Z.ltb_spec obj 8)]; lia. }
  assert (0 < 2 ^ k ≤ 2 ^ 32) as Hp by (split; [lia|apply Z.pow_le_mono_r; lia]).
  rewrite align_up_u64_spec by (unfold is_u64; lia). pose proof (Z.mul_div_le (x + 2 ^ k - 1) (2 ^ k) ltac:(lia)). pose proof (Z.mul_succ_div_gt (x + 2 ^ k - 1) (2 ^ k) ltac:(lia)).
  split; [lia|]. split; [lia|]. rewrite Z.mul_comm. apply Z.mod_mul. lia.
Qed.

Lemma shape_new name obj align flags next : 0 ≤ obj ≤ 2 ^ 32 → is_u64 align → align ≤ 2 ^ 32 →
  let c := new_cache name obj align flags next in shape c ∧ c_slot_size c mod new_align align = 0 ∧ 8 ≤ c_objs_per_slab c.
Proof.
  intros Ho Hu Hl. destruct (new_align_pow2 align Hu Hl) as (k & Hk & Ek). unfold new_cache. fold (new_align align). rewrite Ek. cbv zeta.
  destruct (slot_size_spec obj (2 ^ k) flags k Ho Hk eq_refl) as (N1 & N2 & N3). cbv zeta in N1, N2, N3. set (n := cache_slot_size obj (2 ^ k) flags) in *.
  unfold SLAB_MIN_OBJS, sizeof_kmem_slab. change PAGE_SIZE with 4096. rewrite (u64_small (n * 8)), (u64_small (48 + n * 8)) by lia.
  assert (div_round_up_u64 (48 + n * 8) 4096 = (48 + n * 8 + 4095) / 4096) as Ed by (unfold div_round_up_u64; cbn [Z.eqb]; rewrite u64_small, u64_small by (rewrite ?u64_small; lia); f_equal; lia).
  rewrite Ed. set (np := (48 + n * 8 + 4095) / 4096). assert (1 ≤ np < 2 ^ 34 ∧ 48 + n * 8 ≤ np * 4096) as [Hn1 Hn2] by (unfold np; zlia).
  destruct (Z.eqb_spec np 0) as [|_]; [lia|]. rewrite !(u64_small (np * 4096)), u64_small by lia. set (cnt := (np * 4096 - 48) / n).
  pose proof (Z.mul_div_le (np * 4096 - 48) n ltac:(lia)) as Hc1. assert (8 ≤ cnt) as Hc2 by (unfold cnt; apply Z.div_le_lower_bound; lia). fold cnt in Hc1.
  split; [|done]. split; cbn [c_slot_size c_obj_size c_objs_per_slab c_slab_pages c_align]; unfold redzone_size, has_flag, sizeof_kmem_slab; cbn [c_flags]; try lia. by exists k.
Qed.

Lemma rchain_fresh C p c q l : C !! p = None → rchain C q l → rchain (<[p := c]> C) q l.
Proof.
  intros Hp. revert q. induction l as [|x l IH]; intros q; cbn; [done|]. intros (-> & cx & Hx & Hr). split; [done|]. exists cx. rewrite lookup_insert_ne by congruence. split; [done|]. by apply IH.
Qed.

Definition created s (h : H) (p : Z) (c : kmem_cache) : slabs H :=
  mk_slabs (sb_mem s) (sb_pmm s) h (<[p := c]> (sb_caches s)) p (g_size_caches s) (g_total_allocs s) (g_total_frees s) (g_bytes_live s) (g_large_allocs s).

Lemma kmem_cache_create_spec s G B name obj align flags :
  sinv s G B → 0 ≤ obj ≤ 2 ^ 32 → is_u64 align → align ≤ 2 ^ 32 →
  runs (kmem_cache_create name obj align flags) s (λ p s', p ≠ 0 ∧ sb_caches s !! p = None ∧ ∃ h, s' = created s h p (new_cache name obj align flags (g_cache_registry s)) ∧
    sinv s' (<[p := mk_ghost [] [] []]> G) B).
Proof.
  intros Hs Ho Hu Hl. pose proof Hs as [I1 I2 (reg & R1 & R2 & R3) I4 I5 I6 I7]. unfold kmem_cache_create.
  destruct (knew_spec (sb_heap s) (dom (sb_caches s)) sizeof_kmem_cache I2 ltac:(done)) as [E|(h & p & E & Hp & Hf & Hk)].
  { unfold runs, mbind, stM_bind, new_cache_block. by rewrite E. }
  apply wp_runs. eapply (wp_known new_cache_block); [unfold new_cache_block; by rewrite E|]. destruct (Z.eqb_spec p 0) as [|_]; [done|].
  eapply (wp_known get_registry); [done|]. eapply (wp_known (put_cache _ _)); [done|]. eapply (wp_known (set_registry _)); [done|]. apply wp_ret. apply not_elem_of_dom in Hf.
  split; [done|]. split; [done|]. exists h. split; [done|]. destruct (shape_new name obj align flags (g_cache_registry s) Ho Hu Hl) as [Hsh _]. cbn [g_cache_registry].
  set (c := new_cache name obj align flags (g_cache_registry s)) in *. assert (G !! p = None) as Hgp by (apply eq_None_not_Some; rewrite I4, Hf; by intros []).
  assert (∀ o a n, owns (<[p := c]> (sb_caches s)) (<[p := mk_ghost [] [] []]> G) B o a n → owns (sb_caches s) G B o a n) as Hown.
  { intros [q|] a n; cbn; [|done]. intros (cq & gq & Hcq & Hgq & Ha & ->). destruct (decide (q = p)) as [->|Hne].
    - rewrite lookup_insert_eq in Hgq. injection Hgq as <-. by apply not_elem_of_nil in Ha.
    - rewrite lookup_insert_ne in Hcq by done; rewrite lookup_insert_ne in Hgq by done. by exists cq, gq. }
  split; cbn [sb_pmm sb_heap sb_caches sb_mem g_cache_registry].
  - done.
  - by rewrite dom_insert_L.
  - exists (p :: reg). split; [|split].
    + cbn [rchain]. split; [done|]. exists c. rewrite lookup_insert_eq. split; [done|]. by apply rchain_fresh.
    + apply NoDup_cons. split; [|done]. rewrite R3. by apply not_elem_of_dom.
    + intros q. rewrite elem_of_cons, dom_insert_L, elem_of_union, elem_of_singleton, R3. done.
  - intros q. destruct (decide (q = p)) as [->|Hne]; [rewrite !lookup_insert_eq; split; by eexists|]. rewrite !lookup_insert_ne by done. apply I4.
  - intros q cq gq Hcq Hgq. destruct (decide (q = p)) as [->|Hne].
    + rewrite lookup_insert_eq in Hcq; rewrite lookup_insert_eq in Hgq. injection Hcq as <-. injection Hgq as <-. split; try done; [intros a Ha; by apply not_elem_of_nil in Ha|split; constructor].
    + rewrite lookup_insert_ne in Hcq by done; rewrite lookup_insert_ne in Hgq by done. by apply (I5 q).
  - intros o a n Ha%Hown. by apply (I6 o).
  - intros o a n o' a' n' Ha%Hown Ha'%Hown. by apply (I7 o a n).
Qed.

End Inv.
