(* ===== verification/SlabMem.v ===== *)
(** Destroying a cache, and the general allocator on top of the caches ([kmem_alloc] and the functions beside it in
    [kernel/memory/slab.c]): its blocks are live objects of the size classes or large blocks, with a header before them. *)

From stdpp Require Import gmap sorting.
From S2P Require Import Prelude Kmath Layout Pmm Memory StateM Heap Kalloc Slab SlabSpec.

(** A list without repetitions of numbers below [n]. *)
Lemma NoDup_bounded (l : list Z) n : NoDup l → (∀ x, x ∈ l → 0 ≤ x < n) → zlen l ≤ Z.max 0 n.
Proof.
  intros Hd Hb. assert (l ⊆+ seqZ 0 n) as Hs by (apply NoDup_submseteq; [done|]; intros x Hx; apply elem_of_seqZ; specialize (Hb x Hx); lia).
  apply submseteq_length in Hs. rewrite length_seqZ in Hs. unfold zlen. lia.
Qed.

Section Destroy.
Context {H : Type} {KA : Kalloc H} {KL : KallocLaws H}.
Implicit Types (s : slabs H) (G : gmap Z ghost) (B : gmap Z Z).

Definition with_pmm s (a : pmm) : slabs H :=
  mk_slabs (sb_mem s) a (sb_heap s) (sb_caches s) (g_cache_registry s) (g_size_caches s) (g_total_allocs s) (g_total_frees s) (g_bytes_live s) (g_large_allocs s).
Definition with_links s (C : gmap Z kmem_cache) (r : Z) : slabs H :=
  mk_slabs (sb_mem s) (sb_pmm s) (sb_heap s) C r (g_size_caches s) (g_total_allocs s) (g_total_frees s) (g_bytes_live s) (g_large_allocs s).

Lemma slab_total s G B p c g : sinv s G B → sb_caches s !! p = Some c → G !! p = Some g → zlen (gh_slabs g) < 2 ^ 64.
Proof.
  intros Hs Hc Hg. pose proof (pb_total _ (proj1 (si_pmm _ _ _ Hs))) as Ht. pose proof (si_cache _ _ _ Hs _ _ _ Hc Hg) as Hi.
  assert (∀ a, a ∈ gh_slabs g → run_used (sb_pmm s) a (c_slab_pages c)) as Hr by (intros a Ha; apply (si_run _ _ _ Hs (Some p)); by exists c, g).
  pose proof (NoDup_bounded ((λ a, a / 4096) <$> gh_slabs g) (g_total_pages (sb_pmm s))) as Hb. unfold zlen in Hb. rewrite length_fmap in Hb. unfold zlen. eapply Z.le_lt_trans; [apply Hb|lia].
  - apply NoDup_fmap_2_strong; [|apply Hi]. intros a b Ha Hb' E. pose proof (ru_page _ _ _ (Hr a Ha)). pose proof (ru_page _ _ _ (Hr b Hb')). zlia.
  - intros x (a & -> & Ha)%list_elem_of_fmap. destruct (Hr a Ha) as [_ R2 R3 _]. lia.
Qed.

(** The loop that frees the slabs. *)
Lemma free_slabs_spec (R : Z → Z → Prop) s n sl fuel cur :
  chain (sb_mem s) slab_next cur sl → (∀ a, a ∈ sl → load64 (sb_mem s) (a + slab_pages) = n) → NoDup sl → zlen sl < Z.of_nat fuel →
  pmm_wf (sb_pmm s) → (∀ a, a ∈ sl → run_used (sb_pmm s) a n) → (∀ b k, R b k → run_used (sb_pmm s) b k) →
  (∀ a b, a ∈ sl → b ∈ sl → a = b ∨ apart_runs a n b n) → (∀ a b k, a ∈ sl → R b k → apart_runs a n b k) →
  wp (while fuel free_slab_step cur) s (λ _ s', ∃ a, s' = with_pmm s a ∧ pmm_wf a ∧ ∀ b k, R b k → run_used a b k).
Proof.
  revert s fuel cur. induction sl as [|x sl IH]; intros s fuel cur Hc Hn Hd Hf Hw Hu HR Hap HRp; (destruct fuel as [|fuel]; [pose proof (zlen_nonneg (A := Z) []); unfold zlen in *; lia|]); cbn [while].
  - cbn in Hc. subst cur. eapply (wp_known (free_slab_step 0)); [done|]. apply wp_ret. exists (sb_pmm s). split; [by destruct s|done].
  - cbn [chain] in Hc. destruct Hc as (-> & Hx & Hc). rewrite zlen_cons in Hf. apply NoDup_cons in Hd as [Hd1 Hd2].
    destruct (free_contig_spec (sb_pmm s) x n Hw (Hu x ltac:(left))) as (a & E & Hw' & Hk).
    eapply (wp_known _ _ s (with_pmm s a) (inl (load64 (sb_mem s) (x + slab_next)))).
    { unfold free_slab_step. destruct (Z.eqb_spec x 0) as [|_]; [lia|]. rewrite (bind_run rd_mem _ s s (sb_mem s)) by done. cbv zeta. rewrite (Hn x ltac:(left)).
      rewrite (bind_run (on_pmm _) _ s (with_pmm s a) tt); [done|]. unfold on_pmm. rewrite E. done. }
    eapply wp_mono; [apply (IH (with_pmm s a)); cbn [with_pmm sb_mem sb_pmm]; try done|].
    + intros b Hb. apply Hn. by right.
    + lia.
    + intros b Hb. apply Hk; [apply Hu; by right|]. destruct (Hap x b ltac:(left) ltac:(by right)) as [<-|Hp]; [done|]. unfold apart_runs in *. lia.
    + intros b k Hb. apply Hk; [by apply HR|]. pose proof (HRp x b k ltac:(left) Hb). unfold apart_runs in *. lia.
    + intros b b' Hb Hb'. apply Hap; by right.
    + intros b b' k Hb. apply HRp. by right.
    + intros _ s' (a' & -> & Hw2 & Hr2). exists a'. done.
Qed.

(** The loop that unlinks the cache: the other links stay, and nothing but links changes. *)
Definition no_next (C : gmap Z kmem_cache) : gmap Z kmem_cache := (λ c, with_next c 0) <$> C.
Definition link s (pp v : Z) : Prop := if pp =? 0 then g_cache_registry s = v else ∃ c, sb_caches s !! pp = Some c ∧ c_next c = v.

Lemma rchain_same C C' q l : (∀ x, x ∈ l → C' !! x = C !! x) → rchain C q l → rchain C' q l.
Proof.
  revert q. induction l as [|x l IH]; intros q Hs; cbn; [done|]. intros (-> & c & Hx & Hr). split; [done|]. exists c. rewrite Hs by left. split; [done|]. apply IH; [|done]. intros y Hy. apply Hs. by right.
Qed.

Lemma no_next_insert C pp c n : C !! pp = Some c → no_next (<[pp := with_next c n]> C) = no_next C.
Proof. intros Hc. unfold no_next. rewrite fmap_insert. apply insert_id. rewrite lookup_fmap, Hc. done. Qed.

Lemma unlink_spec p l s pp head fuel :
  link s pp head → rchain (sb_caches s) head l → p ∈ l → NoDup (pp :: l) → 0 ∉ l → (length l < fuel)%nat →
  wp (while fuel (unlink_step p) pp) s (λ _ s', ∃ C r v l', s' = with_links s C r ∧ no_next C = no_next (sb_caches s) ∧ (∀ q, q ∉ pp :: l → C !! q = sb_caches s !! q) ∧
    (pp ≠ 0 → r = g_cache_registry s) ∧ link s' pp v ∧ rchain C v l' ∧ NoDup l' ∧ ∀ q, q ∈ l' ↔ q ∈ l ∧ q ≠ p).
Proof.
  revert s pp head fuel. induction l as [|x l IH]; intros s pp head fuel Hl Hr Hp Hd H0 Hf; [by apply not_elem_of_nil in Hp|]. destruct fuel as [|fuel]; [cbn in Hf; lia|].
  cbn [rchain] in Hr. destruct Hr as (-> & cx & Hcx & Hr). apply NoDup_cons in Hd as [Hd1 Hd2]. pose proof Hd2 as [Hd3 Hd4]%NoDup_cons. cbn [while]. apply wp_bind. unfold unlink_step at 1.
  assert ((if pp =? 0 then get_registry else cc ← get_cache pp; mret (c_next cc)) s = Ret (s, x)) as Ecur.
  { unfold link in Hl. destruct (pp =? 0); [unfold get_registry; by rewrite Hl|]. destruct Hl as (c & Hc & E). rewrite (bind_run (get_cache pp) _ s s c) by (unfold get_cache; by rewrite Hc). unfold mret, stM_ret. by rewrite E. }
  eapply wp_known; [exact Ecur|]. destruct (Z.eqb_spec x 0) as [->|Hx0]; [by destruct H0; left|]. destruct (Z.eqb_spec x p) as [->|Hxp].
  - eapply (wp_known (get_cache p) _ s s cx); [unfold get_cache; by rewrite Hcx|]. unfold link in Hl. destruct (Z.eqb_spec pp 0) as [->|Hpp].
    + eapply (wp_known (set_registry _)); [done|]. apply wp_ret. apply wp_ret. exists (sb_caches s), (c_next cx), (c_next cx), l. split; [done|]. split; [done|]. split; [done|]. split; [done|]. split; [done|].
      split; [done|]. split; [done|]. intros q. rewrite elem_of_cons. split; [|tauto]. intros Hq. split; [by right|]. by intros ->.
    + destruct Hl as (cp & Hcp & Ep). assert (p ≠ pp) as Hne by (intros ->; apply Hd1; left). eapply (wp_known _ _ s (upd s (sb_mem s) pp (with_next cp (c_next cx))) tt).
      { rewrite (bind_run (get_cache pp) _ s s cp) by (unfold get_cache; by rewrite Hcp). done. }
      apply wp_ret. apply wp_ret. exists (<[pp := with_next cp (c_next cx)]> (sb_caches s)), (g_cache_registry s), (c_next cx), l. split; [done|]. split; [by apply no_next_insert|].
      split; [intros q Hq; rewrite lookup_insert_ne; [done|]; intros <-; apply Hq; left|]. split; [done|]. split; [|split; [|split; [done|]]].
      * unfold link. rewrite (proj2 (Z.eqb_neq _ _) Hpp). exists (with_next cp (c_next cx)). split; [apply lookup_insert_eq|done].
      * apply (rchain_same (sb_caches s)); [|done]. intros y Hy. rewrite lookup_insert_ne; [done|]. intros <-. apply Hd1. by right.
      * intros q. rewrite elem_of_cons. split; [|tauto]. intros Hq. split; [by right|]. by intros ->.
  - apply wp_ret. apply elem_of_cons in Hp as [Hp|Hp]; [by subst|].
    eapply wp_mono; [apply (IH s x (c_next cx) fuel); [unfold link; rewrite (proj2 (Z.eqb_neq _ _) Hx0); by exists cx|done|done|done|intros Hz; apply H0; by right|cbn in Hf; lia]|].
    intros _ s' (C & r & v & l' & -> & E1 & E2 & E3 & E4 & E5 & E6 & E7). exists C, r, x, (x :: l'). split; [done|]. split; [done|].
    split; [intros q Hq; apply E2; intros Hq'; apply Hq; by right|]. specialize (E3 Hx0) as ->. split; [done|]. split; [|split; [|split]].
    + unfold link in *. cbn [with_links g_cache_registry sb_caches]. destruct (pp =? 0); [done|]. destruct Hl as (c & Hc & Ec). exists c. rewrite E2 by done. done.
    + cbn [rchain]. split; [done|]. unfold link in E4. rewrite (proj2 (Z.eqb_neq _ _) Hx0) in E4. destruct E4 as (c & Hc & <-). exists c. done.
    + apply NoDup_cons. split; [|done]. rewrite E7. tauto.
    + intros q. rewrite !elem_of_cons, E7. split; [intros [->|[Hq Hne]]; [by split; [left|]|by split; [right|]]|]. intros [[->|Hq] Hne]; [by left|right; done].
Qed.

Lemma no_next_lookup C C' q c : no_next C' = no_next C → C' !! q = Some c → ∃ c0, C !! q = Some c0 ∧ with_next c0 0 = with_next c 0.
Proof.
  intros E Hq. assert (no_next C' !! q = Some (with_next c 0)) as Hn by (unfold no_next; by rewrite lookup_fmap, Hq). rewrite E in Hn. unfold no_next in Hn. rewrite lookup_fmap in Hn.
  destruct (C !! q) as [c0|]; [|done]. exists c0. split; [done|]. by apply (inj Some).
Qed.

Lemma no_next_dom C C' q : no_next C' = no_next C → is_Some (C' !! q) ↔ is_Some (C !! q).
Proof. intros E. assert (is_Some (no_next C' !! q) ↔ is_Some (no_next C !! q)) as Hd by (by rewrite E). unfold no_next in Hd. rewrite !lookup_fmap in Hd. by rewrite !fmap_is_Some in Hd. Qed.

Lemma cinv_next m c c' g : with_next c 0 = with_next c' 0 → cinv m c g → cinv m c' g ∧ c_slab_pages c' = c_slab_pages c ∧ params c' = params c.
Proof. intros E Hi. destruct c, c'. injection E as <- <- <- <- <- <- <- <- <- <- <- <- <- <-. split; [|done]. destruct Hi as [[? ? ? ? ?] ? ? ? ? ? ? ?]. by split. Qed.

Lemma kmem_cache_destroy_spec s G B p c g :
  sinv s G B → sb_caches s !! p = Some c → G !! p = Some g →
  wp (kmem_cache_destroy p) s (λ _ s', ∃ a h C r, s' = mk_slabs (sb_mem s) a h C r (g_size_caches s) (g_total_allocs s) (g_total_frees s) (g_bytes_live s) (g_large_allocs s) ∧
    sinv s' (delete p G) B ∧ ∀ q, view s' (delete p G) q = if decide (q = p) then None else view s G q).
Proof.
  intros Hs Hc Hg. pose proof Hs as [I1 I2 (reg & R1 & R2 & R3) I4 I5 I6 I7]. pose proof (I5 _ _ _ Hc Hg) as Hi. unfold kmem_cache_destroy.
  eapply (wp_known (get_cache p) _ s s c); [unfold get_cache; by rewrite Hc|].
  set (R := λ b k, ∃ o, owns (sb_caches s) G B o b k ∧ ∀ a, a ∈ gh_slabs g → (o, b) ≠ (Some p, a)).
  assert (∀ a, a ∈ gh_slabs g → owns (sb_caches s) G B (Some p) a (c_slab_pages c)) as Hown by (intros a Ha; by exists c, g).
  eapply wp_step; [apply (free_slabs_spec R s (c_slab_pages c) (gh_slabs g)); [apply Hi|apply Hi|apply Hi| |done|..]|].
  { pose proof (slab_total _ _ _ _ _ _ Hs Hc Hg). rewrite (ci_count _ _ _ Hi), u64_small by (pose proof (zlen_nonneg (gh_slabs g)); lia). pose proof (zlen_nonneg (gh_slabs g)). lia. }
  { intros a Ha. by apply (I6 (Some p)), Hown. }
  { intros b k (o & Ho & _). by apply (I6 o). }
  { intros a b Ha Hb. destruct (I7 _ _ _ _ _ _ (Hown a Ha) (Hown b Hb)) as [[= ->]|Hp]; [by left|by right]. }
  { intros a b k Ha (o & Ho & Hne). destruct (I7 _ _ _ _ _ _ (Hown a Ha) Ho) as [E|Hp]; [|done]. by destruct (Hne a Ha). }
  intros _ s1 (a & -> & Hw & Hr). eapply (wp_known get_state); [done|]. cbn [with_pmm sb_caches].
  assert (0 ∉ reg) as H0. { rewrite R3. by apply klive_nonzero in I2. }
  assert (p ∈ reg) as Hpr. { rewrite R3. apply elem_of_dom. by exists c. }
  eapply wp_step; [apply (unlink_spec p reg (with_pmm s a) 0 (g_cache_registry s)); [done|done|done|by apply NoDup_cons|done|]|].
  { assert (length reg = size (sb_caches s)) as Hlen; [|lia]. rewrite <-size_dom. assert (dom (sb_caches s) = list_to_set reg) as -> by (apply set_eq; intros q; rewrite elem_of_list_to_set, R3; done). by rewrite size_list_to_set. }
  intros _ s2 (C & r & v & l' & -> & E1 & E2 & _ & E4 & E5 & E6 & E7). cbn [with_pmm with_links sb_caches sb_heap sb_mem sb_pmm] in *. unfold link in E4. cbn [Z.eqb with_links g_cache_registry] in E4. subst v.
  destruct (kdrop_spec (sb_heap s) (dom (sb_caches s)) p I2) as (h & Eh & Hh); [apply elem_of_dom; by exists c|].
  unfold wp, drop_cache_block. cbn [with_links with_pmm sb_heap sb_caches sb_mem sb_pmm]. rewrite Eh. cbn [mbind outcome_bind]. exists a, h, (delete p C), r. split; [done|].
  assert (∀ q, is_Some (C !! q) ↔ is_Some (sb_caches s !! q)) as Hdom by (intros q; by apply no_next_dom).
  assert (∀ o b n, owns (delete p C) (delete p G) B o b n → owns (sb_caches s) G B o b n ∧ ∀ a, a ∈ gh_slabs g → (o, b) ≠ (Some p, a)) as Hown'.
  { intros [q|] b n; cbn; [|done]. intros (cq & gq & Hcq & Hgq & Hb & ->). apply lookup_delete_Some in Hcq as [Hne Hcq]. apply lookup_delete_Some in Hgq as [_ Hgq]. destruct (no_next_lookup _ _ _ _ E1 Hcq) as (c0 & Hc0 & En).
    split; [exists c0, gq; split_and!; try done; by destruct (cinv_next _ _ _ _ En (I5 _ _ _ Hc0 Hgq)) as (_ & -> & _)|]. intros a' _ [= ->]. done. }
  split; [split; cbn [sb_pmm sb_heap sb_caches sb_mem g_cache_registry]|].
  - done.
  - replace (dom (delete p C)) with (dom (sb_caches s) ∖ {[p]}); [done|]. apply set_eq. intros q. rewrite dom_delete_L, !elem_of_difference, !elem_of_dom, Hdom. done.
  - exists l'. split; [|split; [done|]].
    + apply (rchain_same C); [|done]. intros q Hq. apply lookup_delete_ne. intros <-. by apply E7 in Hq as [_ Hq].
    + intros q. rewrite E7, R3, dom_delete_L, elem_of_difference, elem_of_singleton, !elem_of_dom, Hdom. done.
  - intros q. destruct (decide (q = p)) as [->|Hne]; [rewrite !lookup_delete_eq; by split; intros []|]. rewrite !lookup_delete_ne by done. by rewrite Hdom, I4.
  - intros q cq gq Hcq Hgq. apply lookup_delete_Some in Hcq as [Hne Hcq]. apply lookup_delete_Some in Hgq as [_ Hgq]. destruct (no_next_lookup _ _ _ _ E1 Hcq) as (c0 & Hc0 & En). by apply (cinv_next _ _ _ _ En), (I5 q).
  - intros o b n [Ho Hne]%Hown'. apply Hr. by exists o.
  - intros o b n o' b' n' [Ho _]%Hown' [Ho' _]%Hown'. by apply (I7 o b n).
  - intros q. unfold view. cbn [sb_caches]. dec_if as Hq; [subst q; by rewrite lookup_delete_eq|]. rewrite !lookup_delete_ne by done. destruct (C !! q) as [cq|] eqn:Ecq.
    + destruct (no_next_lookup _ _ _ _ E1 Ecq) as (c0 & Hc0 & En). rewrite Hc0. destruct (G !! q) as [gq|] eqn:Egq; [|done]. by destruct (cinv_next _ _ _ _ En (I5 _ _ _ Hc0 Egq)) as (_ & _ & ->).
    + destruct (sb_caches s !! q) eqn:Esq; [|done]. destruct (proj2 (Hdom q)) as [? ?]; [by eexists|congruence].
Qed.

End Destroy.

(** ** Headers *)

Lemma write_hdr_only m h cls np : only_in m (write_hdr m h cls np) h 16.
Proof. intros y Hy. unfold write_hdr, store64, store16, store32. cbv zeta. rewrite !load8_store by lia. done. Qed.

Lemma write_hdr_read m h cls np : 0 ≤ cls < 2 ^ 16 → is_u64 np →
  let m' := write_hdr m h cls np in hdr_magic m' h = KMEM_MAGIC ∧ hdr_class m' h = cls ∧ hdr_npages m' h = np.
Proof.
  intros Hc Hn. unfold write_hdr, hdr_magic, hdr_class, hdr_npages. cbv zeta. split; [|split].
  - unfold store64, store16, load32. rewrite !load_store_other by lia. apply (load32_store32 m h KMEM_MAGIC). done.
  - unfold store64, store16, load16. rewrite !load_store_other by lia. unfold u16. rewrite Z.mod_small by lia. apply load_store_same. done.
  - by apply load64_store64.
Qed.

Lemma hdr_same m m' h : same_at m m' h 16 → hdr_magic m' h = hdr_magic m h ∧ hdr_class m' h = hdr_class m h ∧ hdr_npages m' h = hdr_npages m h.
Proof. intros Hs. split_and!; (apply load_ext; intros b Hb; apply Hs; lia). Qed.

Lemma load_bytes_same m m' a n : same_at m m' a n → load_bytes m' a n = load_bytes m a n.
Proof. intros Hs. unfold load_bytes. apply list_fmap_ext. intros i x Hx%lookup_seqZ. apply Hs. lia. Qed.

(** The low half of a 64-bit word. *)
Lemma load64_split m a : ∃ hi, load64 m a = load32 m a + 2 ^ 32 * hi.
Proof. exists (load 4 m (a + 4)). unfold load32, load64. cbn [load]. replace (a + 1 + 1 + 1 + 1) with (a + 4) by lia. lia. Qed.

(** ** The blocks of the general allocator *)

Section Blocks.
Context {H : Type} {KA : Kalloc H} {KL : KallocLaws H}.
Implicit Types (s : slabs H) (G : gmap Z ghost) (B : gmap Z Z).

(** The pages of a slab of the class with [n] usable bytes. *)
Definition class_pages (n : Z) : Z := c_slab_pages (new_cache 0 (n + KMEM_HDR_SIZE) 16 0 0).

(** The cache of class [i]: its usable size, its slot size and its live objects. *)
Definition class_at s G (i p n slot : Z) (lv : list Z) : Prop :=
  g_size_caches s !! Z.to_nat i = Some p ∧ g_class_usable !! Z.to_nat i = Some n ∧ 0 ≤ i < NUM_CLASSES ∧ slot mod 16 = 0 ∧ ∃ cnt pages, view s G p = Some (n + KMEM_HDR_SIZE, slot, 0, cnt, pages, lv) ∧ pages = class_pages n.

Inductive block_kind s G B (ptr n : Z) : Prop :=
| BClass i p slot lv : class_at s G i p n slot lv → hdr_class (sb_mem s) (ptr - KMEM_HDR_SIZE) = i → ptr - KMEM_HDR_SIZE ∈ lv → block_kind s G B ptr n
| BLarge k : B !! (ptr - KMEM_HDR_SIZE) = Some k → k < 2 ^ 52 ∧ 4096 < n → n = k * 4096 - KMEM_HDR_SIZE → hdr_class (sb_mem s) (ptr - KMEM_HDR_SIZE) = 0xFFFF → hdr_npages (sb_mem s) (ptr - KMEM_HDR_SIZE) = k → block_kind s G B ptr n.

Record block_ok s G B (ptr : Z) (l : list Z) : Prop := {
  bk_kind : block_kind s G B ptr (zlen l);
  bk_magic : hdr_magic (sb_mem s) (ptr - KMEM_HDR_SIZE) = KMEM_MAGIC;
  bk_bytes : load_bytes (sb_mem s) ptr (zlen l) = l
}.

(** The state with the blocks [A], each with its contents. *)
Record kinv s G B (A : gmap Z (list Z)) : Prop := {
  ki_inv : sinv s G B;
  ki_classes i : 0 ≤ i < NUM_CLASSES → ∃ p n slot lv, class_at s G i p n slot lv;
  ki_block ptr l : A !! ptr = Some l → block_ok s G B ptr l
}.

Lemma class_cache s G B i p n slot lv : sinv s G B → class_at s G i p n slot lv →
  ∃ c g, sb_caches s !! p = Some c ∧ G !! p = Some g ∧ gh_live g = lv ∧ c_obj_size c = n + KMEM_HDR_SIZE ∧ c_slot_size c = slot ∧ c_flags c = 0 ∧ n + KMEM_HDR_SIZE ≤ slot ∧ slot mod 16 = 0 ∧ c_slab_pages c = class_pages n.
Proof.
  intros Hs (E1 & E2 & Hi & Hm & cnt & pages & Hv & Hpg). unfold view in Hv. destruct (sb_caches s !! p) as [c|] eqn:Hc; [|done]. destruct (G !! p) as [g|] eqn:Hg; [|done].
  exists c, g. injection Hv as V1 V2 V3 V4 V5 V6. subst. destruct (ci_shape _ _ _ (si_cache _ _ _ Hs _ _ _ Hc Hg)) as [_ [_ S2] _ _ _ _]. split_and!; try done. rewrite <-V1. unfold redzone_size in S2. destruct (has_flag c KMEM_CACHE_REDZONE); lia.
Qed.

(** The object or run that a block lies in. *)
Definition region s G B (ptr n : Z) : Prop :=
  (∃ p c g, sb_caches s !! p = Some c ∧ G !! p = Some g ∧ ptr - KMEM_HDR_SIZE ∈ gh_live g ∧ KMEM_HDR_SIZE + n ≤ c_slot_size c) ∨
  (∃ k, B !! (ptr - KMEM_HDR_SIZE) = Some k ∧ KMEM_HDR_SIZE + n = k * 4096).

Lemma block_region s G B ptr n : sinv s G B → block_kind s G B ptr n → region s G B ptr n.
Proof.
  intros Hs [i p slot lv Hc _ Hin|k Hk Hk2 -> _ _]; [left|right; exists k; split; [done|lia]].
  destruct (class_cache _ _ _ _ _ _ _ _ Hs Hc) as (c & g & H1 & H2 & <- & H4 & <- & H6 & H7 & H8 & H9). exists p, c, g. split_and!; try done. lia.
Qed.

Lemma regions_apart s G B ptr n ptr' n' : sinv s G B → region s G B ptr n → region s G B ptr' n' → ptr ≠ ptr' → ptr + n ≤ ptr' - KMEM_HDR_SIZE ∨ ptr' + n' ≤ ptr - KMEM_HDR_SIZE.
Proof.
  intros Hs [(p & c & g & Hc & Hg & Hx & Hn)|(k & Hk & En)] [(p' & c' & g' & Hc' & Hg' & Hx' & Hn')|(k' & Hk' & En')] Hne; unfold KMEM_HDR_SIZE in *.
  - destruct (objects_apart s G B p c g _ p' c' g' _ Hs Hc Hg ltac:(apply elem_of_app; right; exact Hx) Hc' Hg' ltac:(apply elem_of_app; right; exact Hx')) as [[= _ E]|[?|?]]; lia.
  - pose proof (object_run_apart s G B p c g _ _ _ Hs Hc Hg ltac:(apply elem_of_app; right; exact Hx) Hk'). lia.
  - pose proof (object_run_apart s G B p' c' g' _ _ _ Hs Hc' Hg' ltac:(apply elem_of_app; right; exact Hx') Hk). lia.
  - destruct (si_apart _ _ _ Hs None _ _ None _ _ Hk Hk') as [[= E]|[?|?]]; lia.
Qed.

Lemma region_range s G B ptr n : sinv s G B → region s G B ptr n → 0x100000 ≤ ptr - KMEM_HDR_SIZE ∧ ptr + n < 2 ^ 64.
Proof.
  intros Hs [(p & c & g & Hc & Hg & Hx & Hn)|(k & Hk & En)]; unfold KMEM_HDR_SIZE in *.
  - destruct (object_range s G B p c g _ Hs Hc Hg ltac:(apply elem_of_app; right; exact Hx)). lia.
  - destruct (run_addr _ _ _ (si_pmm _ _ _ Hs) (si_run _ _ _ Hs None _ _ Hk)). lia.
Qed.

(** A block stays when its object stays live and its bytes do not change. *)
Lemma block_stays s G B s' G' B' ptr l :
  block_ok s G B ptr l → g_size_caches s' = g_size_caches s →
  (∀ p pr lv, view s G p = Some (pr, lv) → ptr - KMEM_HDR_SIZE ∈ lv → ∃ lv', view s' G' p = Some (pr, lv') ∧ ptr - KMEM_HDR_SIZE ∈ lv') →
  (∀ k, B !! (ptr - KMEM_HDR_SIZE) = Some k → B' !! (ptr - KMEM_HDR_SIZE) = Some k) →
  same_at (sb_mem s) (sb_mem s') (ptr - KMEM_HDR_SIZE) (KMEM_HDR_SIZE + zlen l) → block_ok s' G' B' ptr l.
Proof.
  intros [Hk Hm Hb] Es Hv HB Hsm. pose proof (zlen_nonneg l). destruct (hdr_same (sb_mem s) (sb_mem s') (ptr - KMEM_HDR_SIZE)) as (E1 & E2 & E3); [apply (same_sub _ _ (ptr - KMEM_HDR_SIZE) (KMEM_HDR_SIZE + zlen l)); [done|lia|unfold KMEM_HDR_SIZE; lia]|]. split.
  - destruct Hk as [i p slot lv (C1 & C2 & C3 & C4 & cnt & pages & C5 & C6) Hh Hin|k Hk Hk2 E Hh Hp].
    + destruct (Hv _ _ _ C5 Hin) as (lv' & V & Hin'). apply (BClass _ _ _ _ _ i p slot lv'); [|congruence|done]. unfold class_at. rewrite Es. repeat (split; [done|]). by exists cnt, pages.
    + apply (BLarge _ _ _ _ _ k); [by apply HB|done|done|congruence|congruence].
  - congruence.
  - rewrite (load_bytes_same (sb_mem s) (sb_mem s')); [done|]. apply (same_sub _ _ (ptr - KMEM_HDR_SIZE) (KMEM_HDR_SIZE + zlen l)); [done|unfold KMEM_HDR_SIZE; lia|lia].
Qed.

Lemma class_stays s G s' G' i p n slot lv lv' : class_at s G i p n slot lv → g_size_caches s' = g_size_caches s → (∀ pr, view s G p = Some (pr, lv) → view s' G' p = Some (pr, lv')) → class_at s' G' i p n slot lv'.
Proof. intros (C1 & C2 & C3 & C4 & cnt & pages & C5 & C6) Es Hv. unfold class_at. rewrite Es. repeat (split; [done|]). exists cnt, pages. split; [by apply Hv|done]. Qed.

End Blocks.
