(* ===== verification/SlabThm.v ===== *)
(** The general allocator of [kernel/memory/slab.c] refines a map from pointers to arrays of bytes: [kmem_alloc], [kmem_zalloc],
    [kmem_realloc], [kmem_free] and the writes of their callers. *)

From stdpp Require Import gmap sorting.
From S2P Require Import Prelude Kmath Layout Pmm Memory StateM Heap Kalloc Files Slab SlabSpec SlabMem.

Section Ops.
Context {H : Type} {KA : Kalloc H} {KL : KallocLaws H}.
Implicit Types (s : slabs H) (G : gmap Z ghost) (B : gmap Z Z) (A : gmap Z (list Z)).

Definition with_stats s (a f b l : Z) : slabs H := mk_slabs (sb_mem s) (sb_pmm s) (sb_heap s) (sb_caches s) (g_cache_registry s) (g_size_caches s) a f b l.
Definition with_run s (a : pmm) (m : mem) : slabs H :=
  mk_slabs m a (sb_heap s) (sb_caches s) (g_cache_registry s) (g_size_caches s) (g_total_allocs s) (g_total_frees s) (g_bytes_live s) (g_large_allocs s).

Lemma sinv_stats s G B a f b l : sinv s G B → sinv (with_stats s a f b l) G B.
Proof. intros []. by split. Qed.

Lemma kinv_stats s G B A a f b l : kinv s G B A → kinv (with_stats s a f b l) G B A.
Proof.
  intros [K1 K2 K3]. split; [by apply sinv_stats|done|]. intros ptr c Hp. apply (block_stays s G B); [by apply K3|done| |done|done]. intros p pr lv Hv Hin. by exists lv.
Qed.

(** *** Large blocks *)

Lemma keeps_cinv s G B m q c g : sinv s G B → sb_caches s !! q = Some c → G !! q = Some g → (∀ a, a ∈ gh_slabs g → same_at (sb_mem s) m a (c_slab_pages c * 4096)) → cinv m c g.
Proof.
  intros Hs Hc Hg Hsm. pose proof (si_cache _ _ _ Hs _ _ _ Hc Hg) as Hi. destruct (ci_shape _ _ _ Hi) as [S1 S2 S3 S4 S5 _]. apply (cinv_frame (sb_mem s)); [| |done].
  - intros a Ha. apply (same_sub _ _ a (c_slab_pages c * 4096)); [by apply Hsm|lia|unfold sizeof_kmem_slab in *; nia].
  - intros x Hx. assert (x ∈ slots c (gh_slabs g)) as Hx' by (rewrite <-(ci_objs _ _ _ Hi); apply elem_of_app; by left). destruct (slot_inside _ _ _ (ci_shape _ _ _ Hi) Hx') as (a & Ha & X1 & X2).
    apply (same_sub _ _ a (c_slab_pages c * 4096)); [by apply Hsm|unfold sizeof_kmem_slab in *; lia|lia].
Qed.

Lemma owns_large C G B b n o a k : owns C G (<[b := n]> B) o a k → owns C G B o a k ∨ (o = None ∧ a = b ∧ k = n).
Proof. destruct o as [p|]; cbn; [by left|]. intros [[<- <-]|[_ Hk]]%lookup_insert_Some; [by right|by left]. Qed.

Lemma large_new s G B a m b n :
  sinv s G B → run_taken (sb_pmm s) a b n → only_in (sb_mem s) m b (n * 4096) → sinv (with_run s a m) G (<[b := n]> B) ∧ B !! b = None.
Proof.
  intros Hs Ht Ho. pose proof Hs as [I1 I2 I3 I4 I5 I6 I7]. destruct Ht as (T1 & T2 & T3). pose proof (ru_len _ _ _ T2) as Hn0.
  assert (∀ o x k, owns (sb_caches s) G B o x k → 0 < k ∧ run_used a x k ∧ apart_runs x k b n) as Hap.
  { intros o x k Hx. pose proof (I6 _ _ _ Hx) as Hu. destruct (T3 _ _ Hu). split; [apply Hu|]. by split. }
  split; [split; cbn [with_run sb_pmm sb_heap sb_caches sb_mem g_cache_registry]; try done|].
  - intros q c g Hc Hg. apply (keeps_cinv s G B m q); try done. intros x Hx. destruct (Hap (Some q) x (c_slab_pages c)) as (_ & _ & Hd); [by exists c, g|]. apply (only_same _ _ _ _ _ _ Ho). unfold apart_runs in *. lia.
  - intros o x k [Hx|(-> & -> & ->)]%owns_large; [by apply (Hap o)|done].
  - intros o x k o' x' k' [Hx|(-> & -> & ->)]%owns_large [Hx'|(-> & -> & ->)]%owns_large; [by apply (I7 o x k)|right; by apply (Hap o)| |by left].
    right. destruct (Hap _ _ _ Hx') as (_ & _ & Hd). unfold apart_runs in *. lia.
  - apply eq_None_not_Some. intros [k Hk]. destruct (Hap None b k Hk) as (Hk0 & _ & Hd). unfold apart_runs in *. lia.
Qed.

(** Writes inside a block, its header included. *)
Lemma region_write s G B ptr n m : sinv s G B → region s G B ptr n → only_in (sb_mem s) m (ptr - KMEM_HDR_SIZE) (KMEM_HDR_SIZE + n) → sinv (with_mem s m) G B.
Proof.
  intros Hs [(p & c & g & Hc & Hg & Hx & Hn)|(k & Hk & En)] Ho.
  - apply (write_spec s G B p c g (ptr - KMEM_HDR_SIZE)); try done. by apply (only_sub _ _ _ _ (ptr - KMEM_HDR_SIZE) (KMEM_HDR_SIZE + n)); [|lia|lia].
  - rewrite En in Ho. pose proof Hs as [I1 I2 I3 I4 I5 I6 I7]. split; cbn [with_mem sb_pmm sb_heap sb_caches sb_mem g_cache_registry]; try done.
    intros q c g Hc Hg. apply (keeps_cinv s G B m q); try done. intros x Hx. assert (owns (sb_caches s) G B (Some q) x (c_slab_pages c)) as Hox by (by exists c, g).
    destruct (I7 _ _ _ None _ k Hox Hk) as [[=]|Hd]. apply (only_same _ _ _ _ _ _ Ho). unfold apart_runs in *. lia.
Qed.

Lemma large_free s G B b n : sinv s G B → B !! b = Some n →
  ∃ a, pmm_free_contig (sb_pmm s) b n = Ret a ∧ sinv (with_run s a (sb_mem s)) G (delete b B).
Proof.
  intros Hs Hb. pose proof Hs as [I1 I2 I3 I4 I5 I6 I7]. destruct (free_contig_spec (sb_pmm s) b n I1 (I6 None _ _ Hb)) as (a & E & Hw & Hk). exists a. split; [done|].
  assert (∀ o x k, owns (sb_caches s) G (delete b B) o x k → owns (sb_caches s) G B o x k ∧ (o, x) ≠ (None, b)) as Hown.
  { intros [q|] x k; cbn; [done|]. intros [Hne Hx]%lookup_delete_Some. split; [done|]. congruence. }
  split; cbn [with_run sb_pmm sb_heap sb_caches sb_mem g_cache_registry]; try done.
  - intros o x k [Hx Hne]%Hown. apply Hk; [by apply (I6 o)|]. destruct (I7 _ _ _ None b n Hx Hb) as [|Hd]; [done|]. unfold apart_runs in *. lia.
  - intros o x k o' x' k' [Hx _]%Hown [Hx' _]%Hown. by apply (I7 o x k).
Qed.

Lemma region_same s G B m ptr n : keeps s G B m → region s G B ptr n → same_at (sb_mem s) m (ptr - KMEM_HDR_SIZE) (KMEM_HDR_SIZE + n).
Proof.
  intros [K1 K2] [(p & c & g & Hc & Hg & Hx & Hn)|(k & Hk & En)].
  - apply (same_sub _ _ (ptr - KMEM_HDR_SIZE) (c_slot_size c)); [by apply (K1 p c g)|lia|lia].
  - rewrite En. by apply K2.
Qed.

Lemma view_Some s G q pr lv : view s G q = Some (pr, lv) ↔ ∃ c g, sb_caches s !! q = Some c ∧ G !! q = Some g ∧ params c = pr ∧ gh_live g = lv.
Proof.
  unfold view. split.
  - destruct (sb_caches s !! q) as [c|]; [|done]. destruct (G !! q) as [g|]; [|done]. intros E. apply (inj Some) in E. assert (params c = pr ∧ gh_live g = lv) as [E1 E2] by (by injection E as <- <-). by exists c, g.
  - intros (c & g & -> & -> & <- & <-). done.
Qed.

(** A new object is none of the live ones. *)
Lemma object_fresh s G B p c g x s1 G1 n :
  sinv s G B → sinv s1 G1 B → sb_caches s !! p = Some c → G !! p = Some g → (∀ q, view s1 G1 q = if decide (q = p) then Some (params c, x :: gh_live g) else view s G q) →
  ¬ region s G B (x + KMEM_HDR_SIZE) n.
Proof.
  intros Hs Hs1 Hc Hg Hv Hr. assert (view s1 G1 p = Some (params c, x :: gh_live g)) as Hvp by (rewrite Hv; by rewrite decide_True).
  apply view_Some in Hvp as (c1 & g1 & Hc1 & Hg1 & Ep & El). assert (x ∈ gh_free g1 ++ gh_live g1) as Hx1 by (rewrite El; apply elem_of_app; right; left). pose proof (sh_slot _ (ci_shape _ _ _ (si_cache _ _ _ Hs1 _ _ _ Hc1 Hg1))).
  unfold region in Hr. rewrite Z.add_simpl_r in Hr. destruct Hr as [(p' & c' & g' & Hc' & Hg' & Hx & _)|(k & Hk & _)].
  - destruct (decide (p' = p)) as [->|Hne].
    + rewrite Hg in Hg'. injection Hg' as <-. pose proof (proj1 (ci_nodup _ _ _ (si_cache _ _ _ Hs1 _ _ _ Hc1 Hg1))) as (_ & _ & Hnd)%NoDup_app. rewrite El in Hnd. by apply NoDup_cons in Hnd as [? _].
    + assert (view s1 G1 p' = Some (params c', gh_live g')) as Hv' by (rewrite Hv, decide_False by done; apply view_Some; by exists c', g'). apply view_Some in Hv' as (c2 & g2 & Hc2 & Hg2 & _ & El2).
      destruct (objects_apart s1 G1 B p c1 g1 x p' c2 g2 x Hs1 Hc1 Hg1 Hx1 Hc2 Hg2) as [[= <-]|Hd]; [rewrite El2; apply elem_of_app; by right|done|]. pose proof (sh_slot _ (ci_shape _ _ _ (si_cache _ _ _ Hs1 _ _ _ Hc2 Hg2))). lia.
  - pose proof (object_run_apart s1 G1 B p c1 g1 x x k Hs1 Hc1 Hg1 Hx1 Hk). pose proof (ru_len _ _ _ (si_run _ _ _ Hs None _ _ Hk)). lia.
Qed.

Lemma region_view s G B s' G' B' ptr n :
  region s G B ptr n → (∀ p pr lv, view s G p = Some (pr, lv) → ∃ lv', view s' G' p = Some (pr, lv') ∧ ∀ x, x ∈ lv → x ∈ lv') → (∀ b k, B !! b = Some k → B' !! b = Some k) → region s' G' B' ptr n.
Proof.
  intros [(p & c & g & Hc & Hg & Hx & Hn)|(k & Hk & En)] Hv HB; [left|right; exists k; split; [by apply HB|done]].
  destruct (Hv p (params c) (gh_live g)) as (lv' & Hv' & Hsub); [apply view_Some; by exists c, g|]. apply view_Some in Hv' as (c' & g' & Hc' & Hg' & Ep & <-). exists p, c', g'. split_and!; try done; [by apply Hsub|]. injection Ep as _ -> _ _ _. done.
Qed.

(** One more block. *)
Lemma kinv_add s G B A s' G' B' ptr l :
  kinv s G B A → sinv s' G' B' → g_size_caches s' = g_size_caches s →
  (∀ p pr lv, view s G p = Some (pr, lv) → ∃ lv', view s' G' p = Some (pr, lv') ∧ ∀ x, x ∈ lv → x ∈ lv') → (∀ b k, B !! b = Some k → B' !! b = Some k) →
  (∀ ptr' n, region s G B ptr' n → same_at (sb_mem s) (sb_mem s') (ptr' - KMEM_HDR_SIZE) (KMEM_HDR_SIZE + n)) →
  block_ok s' G' B' ptr l → kinv s' G' B' (<[ptr := l]> A).
Proof.
  intros [K1 K2 K3] Hs' Es Hv HB Hm Hb. split; [done| |].
  - intros i Hi. destruct (K2 i Hi) as (p & n & slot & lv & Hc). pose proof Hc as (_ & _ & _ & _ & cnt & pages & Hvp & _). destruct (Hv _ _ _ Hvp) as (lv' & Hv' & _). exists p, n, slot, lv'.
    eapply class_stays; [done|done|]. intros pr Hpr. rewrite Hvp in Hpr. apply (inj Some) in Hpr. assert (pr = (n + KMEM_HDR_SIZE, slot, 0, cnt, pages)) as -> by (by injection Hpr as <-). done.
  - intros ptr' l' [[<- <-]|[Hne Hl]]%lookup_insert_Some; [done|]. apply (block_stays s G B); [by apply K3|done| |apply HB|].
    + intros p pr lv Hvp Hin. destruct (Hv _ _ _ Hvp) as (lv' & Hv' & Hsub). exists lv'. split; [done|by apply Hsub].
    + apply Hm, (block_region _ _ _ _ _ K1), (K3 _ _ Hl).
Qed.

Lemma block_not_region s G B A ptr : kinv s G B A → (∀ n, ¬ region s G B ptr n) → A !! ptr = None.
Proof. intros [K1 K2 K3] Hr. apply eq_None_not_Some. intros [l Hl]. by apply (Hr (zlen l)), (block_region _ _ _ _ _ K1), (K3 _ _ Hl). Qed.

(** *** Allocation *)

Lemma size_to_class_spec size :
  (∃ n, g_class_usable !! Z.to_nat (size_to_class size) = Some n ∧ 0 ≤ size_to_class size < NUM_CLASSES ∧ size ≤ n ∧ n ≤ 4096) ∨ (size_to_class size = -1 ∧ 4096 < size).
Proof.
  unfold size_to_class. destruct (list_find (λ u, size ≤ u) g_class_usable) as [[i n]|] eqn:E.
  - left. apply list_find_Some in E as (Hi & Hn & _). exists n. rewrite Nat2Z.id. pose proof (lookup_lt_Some _ _ _ Hi) as Hlt. cbn in Hlt. split; [done|]. unfold NUM_CLASSES. split; [lia|]. split; [done|].
    assert (Forall (λ u, u ≤ 4096) g_class_usable) as HF by (repeat constructor; lia). by eapply Forall_lookup_1 in HF.
  - right. split; [done|]. apply list_find_None in E. assert (¬ size ≤ 4096); [|lia]. rewrite Forall_forall in E. apply E. unfold g_class_usable. set_solver.
Qed.

Lemma object_aligned s G B p c g x : sinv s G B → sb_caches s !! p = Some c → G !! p = Some g → c_slot_size c mod 16 = 0 → x ∈ gh_free g ++ gh_live g → x mod 16 = 0.
Proof.
  intros Hs Hc Hg Hm Hx. pose proof (si_cache _ _ _ Hs _ _ _ Hc Hg) as Hi. rewrite (ci_objs _ _ _ Hi) in Hx. apply elem_of_cache_slots in Hx as (a & i & Ha & _ & ->).
  pose proof (ru_page _ _ _ (si_run _ _ _ Hs (Some p) a (c_slab_pages c) ltac:(by exists c, g))). unfold sizeof_kmem_slab. apply Z.mod_divide; [lia|]. apply Z.divide_add_r; [apply Z.divide_add_r|].
  - apply Z.mod_divide; [lia|]. zlia.
  - by exists 3.
  - apply Z.divide_mul_r. apply Z.mod_divide; [lia|done].
Qed.

Definition block_added s A (size r : Z) (s' : slabs H) : Prop :=
  r ≠ 0 ∧ r mod 16 = 0 ∧ A !! r = None ∧ ∃ G B l, size ≤ zlen l ∧ kinv s' G B (<[r := l]> A).

(** A new object of a class, with its header. *)
Lemma class_block s G B A i p n slot c g x s1 np st1 st2 st3 st4 :
  kinv s G B A → class_at s G i p n slot (gh_live g) → sb_caches s !! p = Some c → G !! p = Some g → is_u64 np → x ≠ 0 → alloc_post s G B p c g x s1 →
  block_added s A n (x + KMEM_HDR_SIZE) (with_stats (with_mem s1 (write_hdr (sb_mem s1) x i np)) st1 st2 st3 st4).
Proof.
  intros HK Hcl Hc Hg Hnp Hx0 [(a & m & c' & ->) (G1 & Hs1 & Hv) Hkeep _ _ _]. pose proof HK as [Hs K2 K3]. pose proof Hcl as (L1 & L2 & Li & L4 & cnt & pages & Lv & Lp).
  destruct (class_cache _ _ _ _ _ _ _ _ Hs Hcl) as (c0 & g0 & Hc0 & Hg0 & _ & Eo & Esl & Ef & Hfit & Hm & Hpg). rewrite Hc in Hc0. injection Hc0 as <-. rewrite Hg in Hg0. injection Hg0 as <-.
  set (s1 := grown s a m p c') in *. set (m2 := write_hdr m x i np). change (sb_mem s1) with m in *. fold m2.
  assert (view s1 G1 p = Some (params c, x :: gh_live g)) as Hvp by (rewrite Hv; by rewrite decide_True). pose proof (proj1 (view_Some _ _ _ _ _) Hvp) as (c1 & g1 & Hc1 & Hg1 & Ep & El). injection Ep as E1 E2 E3 E4 E5.
  assert (∀ q pr lv, view s G q = Some (pr, lv) → ∃ lv', view s1 G1 q = Some (pr, lv') ∧ ∀ y, y ∈ lv → y ∈ lv') as Hvs.
  { intros q pr lv Hq. rewrite Hv. dec_if as Hqp; [|by exists lv]. subst q. assert (view s G p = Some (params c, gh_live g)) as E by (apply view_Some; by exists c, g). rewrite E in Hq. apply (inj Some) in Hq.
    apply pair_equal_spec in Hq as [<- <-]. eexists. split; [done|]. intros y Hy. by right. }
  assert (0 ≤ n) as Hn0. { unfold g_class_usable in L2. assert (Forall (λ u, 0 ≤ u) g_class_usable) as HF by (repeat constructor; lia). by eapply Forall_lookup_1 in HF. }
  assert (region s1 G1 B (x + KMEM_HDR_SIZE) n) as Hnew. { left. exists p, c1, g1. rewrite Z.add_simpl_r, El. split_and!; try done; [left|lia]. }
  assert (sinv (with_mem s1 m2) G1 B) as Hs2. { apply (region_write s1 G1 B (x + KMEM_HDR_SIZE) n); try done. rewrite Z.add_simpl_r. apply (only_sub _ _ _ _ x 16); [apply write_hdr_only|lia|unfold KMEM_HDR_SIZE; lia]. }
  assert (∀ k, ¬ region s G B (x + KMEM_HDR_SIZE) k) as Hfr by (intros k; by apply (object_fresh s G B p c g x s1 G1)).
  pose proof (object_aligned s1 G1 B p c1 g1 x Hs1 Hc1 Hg1 ltac:(congruence) ltac:(rewrite El; apply elem_of_app; right; left)) as Hal.
  destruct (region_range _ _ _ _ _ Hs1 Hnew) as [Hr1 Hr2]. unfold block_added. split; [unfold KMEM_HDR_SIZE in *; lia|]. split; [unfold KMEM_HDR_SIZE; zlia|]. split; [by apply (block_not_region s G B A)|].
  exists G1, B, (load_bytes m2 (x + KMEM_HDR_SIZE) n). rewrite zlen_load_bytes by done. split; [done|]. apply kinv_stats. apply (kinv_add s G B); try done.
  - intros ptr k Hr. apply (same_trans _ m); [by apply (region_same s G B)|]. apply (only_same _ _ x 16 _ _ (write_hdr_only m x i np)).
    assert (ptr ≠ x + KMEM_HDR_SIZE) as Hne by (intros ->; by apply (Hfr k)). destruct (regions_apart s1 G1 B ptr k (x + KMEM_HDR_SIZE) n Hs1 (region_view _ _ _ _ _ _ _ _ Hr Hvs ltac:(done)) Hnew Hne); unfold KMEM_HDR_SIZE in *; lia.
  - destruct (write_hdr_read m x i np) as (W1 & W2 & W3); [unfold NUM_CLASSES in Li; lia|done|]. split; rewrite ?Z.add_simpl_r, ?zlen_load_bytes by done; [|done|done].
    apply (BClass _ _ _ _ _ i p slot (x :: gh_live g)); rewrite ?Z.add_simpl_r; [|done|left]. unfold class_at. split; [done|]. split; [done|]. split; [done|]. split; [done|]. exists cnt, pages. split; [|done].
    change (view (with_mem s1 m2) G1 p) with (view s1 G1 p). rewrite Hvp. assert (view s G p = Some (params c, gh_live g)) as E by (apply view_Some; by exists c, g). rewrite E in Lv. apply (inj Some) in Lv. f_equal. f_equal. apply pair_equal_spec in Lv as [-> _]. done.
Qed.

Lemma large_block s G B A a x k st1 st2 st3 st4 :
  kinv s G B A → run_taken (sb_pmm s) a x k → k < 2 ^ 52 → 4096 < k * 4096 - KMEM_HDR_SIZE →
  block_added s A (k * 4096 - KMEM_HDR_SIZE) (x + KMEM_HDR_SIZE) (with_stats (with_run s a (write_hdr (sb_mem s) x 0xFFFF k)) st1 st2 st3 st4).
Proof.
  intros HK Ht Hk Hbig. pose proof HK as [Hs K2 K3]. set (m2 := write_hdr (sb_mem s) x 0xFFFF k). pose proof Ht as (T1 & T2 & T3). pose proof (ru_len _ _ _ T2) as Hk0. destruct (run_addr _ _ _ T1 T2) as [A1 A2].
  assert (only_in (sb_mem s) m2 x (k * 4096)) as Ho by (apply (only_sub _ _ _ _ x 16); [apply write_hdr_only|lia|lia]). destruct (large_new s G B a m2 x k Hs Ht Ho) as [Hs2 Hb].
  pose proof (keeps_run _ _ _ _ _ _ _ Hs Ht Ho) as Hkeep. unfold block_added. split; [unfold KMEM_HDR_SIZE; lia|]. split; [pose proof (ru_page _ _ _ T2); unfold KMEM_HDR_SIZE; zlia|].
  assert (0 ≤ k * 4096 - KMEM_HDR_SIZE) as Hn by (unfold KMEM_HDR_SIZE; lia). split.
  { apply (block_not_region s G B A); [done|]. intros n. unfold region. rewrite Z.add_simpl_r. intros [(p & c & g & Hc & Hg & Hx & _)|(k' & Hk' & _)]; [|congruence].
    destruct (object_slot s G B p c g x Hs Hc Hg ltac:(apply elem_of_app; by right)) as (Hsh & b & Hb' & X1 & X2). destruct (T3 _ _ (si_run _ _ _ Hs _ _ _ Hb')) as [_ Hd]. pose proof (sh_slot _ Hsh). unfold sizeof_kmem_slab in *. lia. }
  exists G, (<[x := k]> B), (load_bytes m2 (x + KMEM_HDR_SIZE) (k * 4096 - KMEM_HDR_SIZE)). rewrite zlen_load_bytes by done. split; [done|]. apply kinv_stats. apply (kinv_add s G B); try done.
  - intros p pr lv Hv. exists lv. split; [exact Hv|done].
  - intros b k' Hb'. rewrite lookup_insert_ne; [done|]. congruence.
  - intros ptr n. by apply (region_same s G B).
  - destruct (write_hdr_read (sb_mem s) x 0xFFFF k) as (W1 & W2 & W3); [lia|unfold is_u64; lia|]. split; rewrite ?Z.add_simpl_r, ?zlen_load_bytes by done; [|done|done].
    apply (BLarge _ _ _ _ _ k); rewrite ?Z.add_simpl_r; [apply lookup_insert_eq|done|done|done|done].
Qed.

Lemma large_pages size : is_u64 size →
  match check_add_size size KMEM_HDR_SIZE with
  | (_, None) => 2 ^ 64 - 8192 ≤ size
  | (_, Some total) => let k := div_round_up_u64 total PAGE_SIZE in 0 ≤ k < 2 ^ 52 ∧ (0 < k → size ≤ k * 4096 - KMEM_HDR_SIZE) ∧ (size < 2 ^ 64 - 8192 → 0 < k ≤ (size + KMEM_HDR_SIZE + 4095) / 4096)
  end.
Proof.
  intros Hs. unfold check_add_size, KMEM_HDR_SIZE, is_u64 in *. change (u64 (not64 0 - 16)) with (2 ^ 64 - 17). destruct (Z.ltb_spec (2 ^ 64 - 17) size); [lia|]. change PAGE_SIZE with 4096.
  rewrite u64_small by lia. unfold div_round_up_u64. cbn [Z.eqb]. cbv zeta. rewrite u64_add by (unfold is_u64; lia). dec_if as Hw.
  - rewrite u64_small by lia. zlia.
  - destruct (decide (size + 16 + 4096 - 2 ^ 64 = 0)) as [E|Hne]; [rewrite E; change (u64 (0 - 1)) with (2 ^ 64 - 1); zlia|]. rewrite u64_small by lia. zlia.
Qed.

(** The pages that [kmem_alloc] needs at most: those of one slab of the class, or of a block of its own with its header. *)
Definition run_pages (size : Z) : Z :=
  if decide (size ≤ 4096) then class_pages (default 0 (g_class_usable !! Z.to_nat (size_to_class size))) else (size + KMEM_HDR_SIZE + 4095) / 4096.

(** Memory for [size] bytes: these pages are free, one after the other. *)
Definition room s (size : Z) : Prop := size ≠ 0 ∧ ∃ q, free_run (sb_pmm s) q (run_pages size).

Lemma free_run_sub a q n k : free_run a q n → 0 < k ≤ n → free_run a q k.
Proof. intros (F1 & F2 & F3) Hk. split; [done|]. split; [lia|]. intros j Hj. apply F3. lia. Qed.

Lemma kmem_alloc_spec s G B A size : kinv s G B A → is_u64 size →
  wp (kmem_alloc size) s (λ r s', (r = 0 ∧ kinv s' G B A ∧ ¬ room s size) ∨ block_added s A size r s').
Proof.
  intros HK Hsz. unfold kmem_alloc. destruct (Z.eqb_spec size 0) as [->|Hnz]; [apply wp_ret; left; split_and!; [done|done|by intros []]|]. eapply (wp_known get_state); [done|].
  eapply (wp_known (set_stats _ _ _ _) _ s (with_stats s (u64 (g_total_allocs s + 1)) (g_total_frees s) (g_bytes_live s) (g_large_allocs s)) tt); [done|].
  set (s0 := with_stats s _ _ _ _). assert (kinv s0 G B A) as HK0 by (by apply kinv_stats). pose proof HK0 as [Hs K2 K3]. cbv zeta. destruct (size_to_class_spec size) as [(n & En & Hi & Hn & Hn2)|[-> Hbig]].
  - set (i := size_to_class size) in *. destruct (Z.leb_spec 0 i) as [_|]; [|lia]. destruct (K2 i Hi) as (p & n' & slot & lv & Hcl). pose proof Hcl as (L1 & L2 & _ & _). assert (n' = n) as -> by congruence.
    destruct (class_cache _ _ _ _ _ _ _ _ Hs Hcl) as (c & g & Hc & Hg & <- & _ & _ & _ & _ & _ & Hpg). eapply wp_lift_bind; [apply aget_Some; [lia|eassumption]|].
    eapply wp_step; [by apply (kmem_cache_alloc_spec s0 G B p c g)|]. intros x s1 [(-> & -> & Hno)|[Hx Hp]].
    { apply wp_ret. left. split; [done|]. split; [done|]. intros (_ & q & Hq). unfold run_pages in Hq. fold i in Hq. rewrite decide_True in Hq by lia. rewrite En in Hq. apply (Hno q). by rewrite Hpg. }
    destruct (Z.eqb_spec x 0) as [|_]; [done|].
    eapply (wp_known rd_mem); [done|]. eapply (wp_known (wr_mem _)); [done|]. eapply wp_lift_bind; [apply aget_Some; [lia|eassumption]|]. eapply (wp_known get_state); [done|]. eapply (wp_known (set_stats _ _ _ _)); [done|].
    apply wp_ret. right. destruct (class_block s0 G B A i p n slot c g x s1 0 (g_total_allocs s1) (g_total_frees s1) (u64 (g_bytes_live s1 + n)) (g_large_allocs s1) HK0 Hcl Hc Hg ltac:(done) Hx Hp) as (B1 & B2 & B3 & G' & B' & l & B4 & B5).
    split; [done|]. split; [done|]. split; [done|]. exists G', B', l. split; [lia|]. exact B5.
  - destruct (Z.leb_spec 0 (-1)); [lia|]. pose proof (large_pages size Hsz) as Hp. destruct (check_add_size size KMEM_HDR_SIZE) as [rc [total|]].
    2: { apply wp_ret. left. split; [done|]. split; [done|]. intros (_ & q & F1 & F2 & _). unfold run_pages in F2. rewrite decide_False in F2 by lia. pose proof (pb_total _ (proj1 (si_pmm _ _ _ Hs))) as Hpt. change (sb_pmm s0) with (sb_pmm s) in Hpt. unfold KMEM_HDR_SIZE in *. zlia. }
    cbv zeta in Hp. destruct Hp as (Hk & Hk2 & Hk3).
    set (k := div_round_up_u64 total PAGE_SIZE) in *. cbv zeta. destruct (alloc_contig_spec (sb_pmm s0) k (si_pmm _ _ _ Hs) ltac:(lia)) as [(a & x & E & Hne & Ht)|[E Hno]].
    2: { eapply (wp_known (on_pmm _) _ s0 s0 PMM_INVALID_PAGE); [unfold on_pmm; rewrite E; by destruct s|]. rewrite Z.eqb_refl. apply wp_ret. left. split; [done|]. split; [done|]. intros (_ & q & Hq). unfold run_pages in Hq. rewrite decide_False in Hq by lia.
      pose proof (pb_total _ (proj1 (si_pmm _ _ _ Hs))) as Hpt. change (sb_pmm s0) with (sb_pmm s) in Hpt. pose proof Hq as (F1 & F2 & _).
      assert (0 < k ≤ (size + KMEM_HDR_SIZE + 4095) / 4096) as Hkk by (apply Hk3; unfold KMEM_HDR_SIZE in *; zlia). destruct Hno as [Hno|Hno]; [lia|]. by apply (Hno q), (free_run_sub _ _ _ _ Hq). }
    eapply (wp_known (on_pmm _)); [unfold on_pmm; rewrite E; done|]. rewrite (proj2 (Z.eqb_neq _ _) Hne). eapply (wp_known rd_mem); [done|]. eapply (wp_known (wr_mem _)); [done|].
    eapply (wp_known get_state); [done|]. eapply (wp_known (set_stats _ _ _ _)); [done|]. apply wp_ret. right. pose proof (ru_len _ _ _ (proj1 (proj2 Ht))) as Hk0.
    destruct (large_block s0 G B A a x k (g_total_allocs s0) (g_total_frees s0) (u64 (g_bytes_live s0 + u64 (k * PAGE_SIZE))) (u64 (g_large_allocs s0 + 1)) HK0 Ht ltac:(lia) ltac:(specialize (Hk2 Hk0); lia)) as (B1 & B2 & B3 & G' & B' & l & B4 & B5).
    split; [done|]. split; [done|]. split; [done|]. exists G', B', l. split; [specialize (Hk2 Hk0); lia|]. exact B5.
Qed.

(** *** Freeing *)

Lemma kinv_remove s G B A ptr l s' G' B' :
  kinv s G B A → A !! ptr = Some l → sinv s' G' B' → g_size_caches s' = g_size_caches s →
  (∀ p pr lv, view s G p = Some (pr, lv) → ∃ lv', view s' G' p = Some (pr, lv') ∧ ∀ x, x ∈ lv → x ≠ ptr - KMEM_HDR_SIZE → x ∈ lv') →
  (∀ b k, b ≠ ptr - KMEM_HDR_SIZE → B !! b = Some k → B' !! b = Some k) → only_in (sb_mem s) (sb_mem s') (ptr - KMEM_HDR_SIZE) (KMEM_HDR_SIZE + zlen l) →
  kinv s' G' B' (delete ptr A).
Proof.
  intros HK Hl Hs' Es Hv HB Ho. pose proof HK as [K1 K2 K3]. pose proof (block_region _ _ _ _ _ K1 (bk_kind _ _ _ _ _ (K3 _ _ Hl))) as Hr. split; [done| |].
  - intros i Hi. destruct (K2 i Hi) as (p & n & slot & lv & Hc). pose proof Hc as (_ & _ & _ & _ & cnt & pages & Hvp & _). destruct (Hv _ _ _ Hvp) as (lv' & Hv' & _). exists p, n, slot, lv'.
    eapply class_stays; [done|done|]. intros pr Hpr. rewrite Hvp in Hpr. apply (inj Some) in Hpr. apply pair_equal_spec in Hpr as [<- _]. done.
  - intros ptr' l' [Hne Hl']%lookup_delete_Some. apply (block_stays s G B); [by apply K3|done| | |].
    + intros p pr lv Hvp Hin. destruct (Hv _ _ _ Hvp) as (lv' & Hv' & Hsub). exists lv'. split; [done|]. apply Hsub; [done|lia].
    + intros k. apply HB. lia.
    + apply (only_same _ _ _ _ _ _ Ho). destruct (regions_apart s G B ptr (zlen l) ptr' (zlen l') K1 Hr) as [?|?]; [by apply (block_region _ _ _ _ _ K1), (K3 _ _ Hl')|done|unfold KMEM_HDR_SIZE in *; lia|unfold KMEM_HDR_SIZE in *; lia].
Qed.

(** The slots of the classes that are free. *)
Definition slot_free s G (x : Z) : Prop := ∃ i p n slot lv g, class_at s G i p n slot lv ∧ G !! p = Some g ∧ x ∈ gh_free g.

Lemma store32_only m x v n : 4 ≤ n → only_in m (store32 m x v) x n.
Proof. intros Hn y Hy. apply load8_store. lia. Qed.

Lemma free_class s G B A ptr l i p slot lv st1 st2 st3 st4 :
  kinv s G B A → A !! ptr = Some l → class_at s G i p (zlen l) slot lv → ptr - KMEM_HDR_SIZE ∈ lv →
  wp (kmem_cache_free p (ptr - KMEM_HDR_SIZE)) (with_stats (with_mem s (store32 (sb_mem s) (ptr - KMEM_HDR_SIZE) 0)) st1 st2 st3 st4)
    (λ r s', r = false ∧ ∃ G', kinv s' G' B (delete ptr A) ∧ slot_free s' G' (ptr - KMEM_HDR_SIZE)).
Proof.
  intros HK Hl Hcl Hin. pose proof HK as [Hs K2 K3]. set (x := ptr - KMEM_HDR_SIZE) in *. destruct (class_cache _ _ _ _ _ _ _ _ Hs Hcl) as (c & g & Hc & Hg & <- & Eo & Esl & Ef & Hfit & Hm & Hpg).
  pose proof (block_region _ _ _ _ _ Hs (bk_kind _ _ _ _ _ (K3 _ _ Hl))) as Hr. pose proof (zlen_nonneg l).
  set (m1 := store32 (sb_mem s) x 0). assert (only_in (sb_mem s) m1 x (KMEM_HDR_SIZE + zlen l)) as Ho1 by (apply store32_only; unfold KMEM_HDR_SIZE; lia).
  set (s1 := with_stats (with_mem s m1) st1 st2 st3 st4). assert (sinv s1 G B) as Hs1 by (apply sinv_stats; by apply (region_write s G B ptr (zlen l))).
  apply elem_of_Permutation in Hin as [lv El]. eapply wp_mono; [by apply (kmem_cache_free_spec s1 G B p c g x lv)|]. intros r s2 (-> & -> & Hs2).
  split; [unfold check_redzone, has_flag; by rewrite Ef|]. exists (<[p := push_ghost g x lv]> G).
  assert (∀ q pr lv0, view s G q = Some (pr, lv0) → view (upd s1 (store64 m1 x (c_free_list c)) p (push_cache c x)) (<[p := push_ghost g x lv]> G) q = Some (pr, if decide (q = p) then lv else lv0)) as Hv.
  { intros q pr lv0 Hq. unfold view. cbn [upd sb_caches with_stats with_mem s1]. dec_if as Hqp; [|rewrite !lookup_insert_ne by done; exact Hq]. subst q. rewrite !lookup_insert_eq.
    unfold view in Hq. rewrite Hc, Hg in Hq. apply (inj Some) in Hq. apply pair_equal_spec in Hq as [<- _]. done. }
  split.
  - apply (kinv_remove s G B A ptr l); try done.
    + intros q pr lv0 Hq. exists (if decide (q = p) then lv else lv0). split; [by apply Hv|]. intros y Hy Hne. dec_if as Hqp; [|done]. subst q. unfold view in Hq. rewrite Hc, Hg in Hq. apply (inj Some) in Hq. apply pair_equal_spec in Hq as [_ <-].
      rewrite El in Hy. apply elem_of_cons in Hy as [->|Hy]; [done|done].
    + change (ptr - KMEM_HDR_SIZE) with x. apply (only_trans _ m1); [done|]. apply (only_sub _ _ _ _ x 8); [apply only_store64|lia|unfold KMEM_HDR_SIZE; lia].
  - exists i, p, (zlen l), slot, lv, (push_ghost g x lv). split; [|split; [apply lookup_insert_eq|left]]. eapply class_stays; [exact Hcl|done|]. intros pr Hpr. specialize (Hv _ _ _ Hpr). rewrite decide_True in Hv by done. exact Hv.
Qed.

Lemma kmem_free_spec s G B A ptr l : kinv s G B A → A !! ptr = Some l →
  wp (kmem_free ptr) s (λ r s', r = false ∧ ∃ G' B', kinv s' G' B' (delete ptr A) ∧ (zlen l ≤ 4096 → slot_free s' G' (ptr - KMEM_HDR_SIZE))).
Proof.
  intros HK Hl. pose proof HK as [Hs K2 K3]. pose proof (K3 _ _ Hl) as [Hk Hm Hb]. destruct (region_range _ _ _ _ _ Hs (block_region _ _ _ _ _ Hs Hk)) as [Hr1 Hr2]. unfold kmem_free.
  destruct (Z.eqb_spec ptr 0) as [|_]; [unfold KMEM_HDR_SIZE in *; lia|]. eapply (wp_known rd_mem); [done|]. cbv zeta. rewrite Hm, Z.eqb_refl. cbn [negb]. eapply (wp_known get_state); [done|]. cbv zeta.
  destruct Hk as [i p slot lv Hcl Hh Hin|k Hk Hk2 En Hh Hp].
  - pose proof Hcl as (L1 & L2 & Li & _). rewrite Hh. destruct (Z.eqb_spec i 0xFFFF) as [->|_]; [unfold NUM_CLASSES in Li; lia|]. eapply wp_lift_bind; [apply aget_Some; [lia|exact L2]|].
    eapply (wp_known (wr_mem _)); [done|]. eapply (wp_known (set_stats _ _ _ _)); [done|]. eapply wp_lift_bind; [apply aget_Some; [lia|exact L1]|].
    eapply wp_mono; [by apply (free_class s G B A ptr l i p slot lv)|]. intros r s' (-> & G' & HK' & Hf). split; [done|]. exists G', B. done.
  - rewrite Hh, Z.eqb_refl, Hp. eapply (wp_known (wr_mem _)); [done|]. eapply (wp_known (set_stats _ _ _ _)); [done|]. set (x := ptr - KMEM_HDR_SIZE) in *.
    set (m1 := store32 (sb_mem s) x 0). pose proof (zlen_nonneg l). assert (only_in (sb_mem s) m1 x (KMEM_HDR_SIZE + zlen l)) as Ho1 by (apply store32_only; unfold KMEM_HDR_SIZE; lia).
    match goal with |- wp _ ?t _ => set (s1 := t) end. assert (sinv s1 G B) as Hs1. { apply sinv_stats, (region_write s G B ptr (zlen l)); [done| |done]. right. exists k. split; [done|]. rewrite En. lia. }
    destruct (large_free s1 G B x k Hs1 Hk) as (a & E & Hs2). eapply (wp_known (on_pmm _)); [unfold on_pmm; rewrite E; done|]. apply wp_ret. split; [done|]. exists G, (delete x B). split; [|lia].
    apply (kinv_remove s G B A ptr l); try done.
    + intros p pr lv Hv. exists lv. split; [exact Hv|done].
    + intros b k' Hne Hb'. by rewrite lookup_delete_ne.
Qed.

(** *** Writes, sizes and copies *)

Lemma kinv_write s G B A ptr l m : kinv s G B A → A !! ptr = Some l → only_in (sb_mem s) m ptr (zlen l) → kinv (with_mem s m) G B (<[ptr := load_bytes m ptr (zlen l)]> A).
Proof.
  intros HK Hl Ho. pose proof HK as [Hs K2 K3]. pose proof (zlen_nonneg l) as H0. pose proof (K3 _ _ Hl) as [Hk Hm Hb]. pose proof (block_region _ _ _ _ _ Hs Hk) as Hr.
  assert (sinv (with_mem s m) G B) as Hs'. { apply (region_write s G B ptr (zlen l)); try done. apply (only_sub _ _ _ _ ptr (zlen l)); [done|unfold KMEM_HDR_SIZE; lia|unfold KMEM_HDR_SIZE; lia]. }
  split; [done|done|]. intros ptr' l' [[<- <-]|[Hne Hl']]%lookup_insert_Some.
  - destruct (hdr_same (sb_mem s) m (ptr - KMEM_HDR_SIZE)) as (E1 & E2 & E3); [apply (only_same _ _ _ _ _ _ Ho); unfold KMEM_HDR_SIZE; lia|]. split; rewrite ?zlen_load_bytes by done; [|cbn [with_mem sb_mem]; congruence|done].
    destruct Hk as [i p slot lv Hcl Hh Hin|k Hk Hk2 En Hh Hp]; [apply (BClass _ _ _ _ _ i p slot lv)|apply (BLarge _ _ _ _ _ k)]; cbn [with_mem sb_mem]; try done; congruence.
  - apply (block_stays s G B); [by apply K3|done| |done|]. { intros p pr lv Hv Hin. by exists lv. }
    apply (only_same _ _ _ _ _ _ Ho). pose proof (zlen_nonneg l'). destruct (regions_apart s G B ptr (zlen l) ptr' (zlen l') Hs Hr) as [?|?]; [by apply (block_region _ _ _ _ _ Hs), (K3 _ _ Hl')|done|unfold KMEM_HDR_SIZE in *; lia|unfold KMEM_HDR_SIZE in *; lia].
Qed.

Lemma load_store_bytes m a n off d : 0 ≤ off → off + zlen d ≤ n → load_bytes (store_bytes m (a + off) d) a n = zsplice (load_bytes m a n) off d.
Proof.
  intros H1 H2. pose proof (zlen_nonneg d). apply list_eq_Z. intros i Hi. destruct (decide (i < n)) as [Hlt|Hge].
  - rewrite lookup_zsplice by (rewrite ?zlen_load_bytes; lia). rewrite !lookup_load_bytes by lia. rewrite load8_store_bytes. repeat dec_if; try lia; [|done].
    replace (a + i - (a + off)) with (i - off) by lia. destruct (d !! Z.to_nat (i - off)) eqn:E; [done|]. apply lookup_ge_None in E. unfold zlen in *. lia.
  - rewrite !lookup_ge_None_2; [done| |].
    + pose proof (zlen_zsplice (load_bytes m a n) d off H1 ltac:(rewrite zlen_load_bytes; lia)) as E. rewrite zlen_load_bytes in E by lia. unfold zlen in E. lia.
    + pose proof (zlen_load_bytes (store_bytes m (a + off) d) a n ltac:(lia)) as E. unfold zlen in E. lia.
Qed.

Lemma write_only m a off d n : 0 ≤ off → off + zlen d ≤ n → only_in m (store_bytes m (a + off) d) a n.
Proof. intros H1 H2 y Hy. rewrite load8_store_bytes. by rewrite decide_False by lia. Qed.

Lemma kinv_splice s G B A ptr l off d : kinv s G B A → A !! ptr = Some l → 0 ≤ off → off + zlen d ≤ zlen l →
  kinv (with_mem s (store_bytes (sb_mem s) (ptr + off) d)) G B (<[ptr := zsplice l off d]> A).
Proof.
  intros HK Hl H1 H2. pose proof (bk_bytes _ _ _ _ _ (ki_block _ _ _ _ HK _ _ Hl)) as Hb. pose proof (kinv_write s G B A ptr l _ HK Hl (write_only (sb_mem s) ptr off d (zlen l) H1 H2)) as Hw.
  by rewrite load_store_bytes, Hb in Hw by done.
Qed.

Lemma kmem_alloc_size_spec s G B A ptr l : kinv s G B A → A !! ptr = Some l → wp (kmem_alloc_size ptr) s (λ r s', s' = s ∧ r = zlen l).
Proof.
  intros HK Hl. pose proof HK as [Hs K2 K3]. pose proof (K3 _ _ Hl) as [Hk Hm Hb]. destruct (region_range _ _ _ _ _ Hs (block_region _ _ _ _ _ Hs Hk)) as [Hr1 Hr2]. unfold kmem_alloc_size.
  destruct (Z.eqb_spec ptr 0) as [|_]; [unfold KMEM_HDR_SIZE in *; lia|]. eapply (wp_known rd_mem); [done|]. cbv zeta. rewrite Hm, Z.eqb_refl. cbn [negb].
  destruct Hk as [i p slot lv Hcl Hh Hin|k Hk Hk2 En Hh Hp].
  - pose proof Hcl as (L1 & L2 & Li & _). rewrite Hh. destruct (Z.eqb_spec i 0xFFFF) as [->|_]; [unfold NUM_CLASSES in Li; lia|]. eapply wp_lift; [apply aget_Some; [lia|exact L2]|done].
  - rewrite Hh, Z.eqb_refl, Hp. apply wp_ret. split; [done|]. change PAGE_SIZE with 4096. pose proof (ru_len _ _ _ (si_run _ _ _ Hs None _ _ Hk)). unfold KMEM_HDR_SIZE in *. rewrite (u64_small (k * 4096)), u64_small by lia. lia.
Qed.

(** *** The specification: a map from pointers to their bytes *)

Inductive kop := KAlloc (size : Z) | KZalloc (size : Z) | KRealloc (ptr size : Z) | KFree (ptr : Z) | KWrite (ptr off : Z) (data : list Z).

Definition run_kop (op : kop) : stM (slabs H) Z :=
  match op with
  | KAlloc size => kmem_alloc size
  | KZalloc size => kmem_zalloc size
  | KRealloc ptr size => kmem_realloc ptr size
  | KFree ptr => kmem_free ptr;; mret 0
  | KWrite ptr off data => m ← rd_mem; wr_mem (store_bytes m (ptr + off) data);; mret 0
  end.

(** The callers free and resize blocks that they have, and write inside them. *)
Definition kop_ok A (op : kop) : Prop :=
  match op with
  | KAlloc size | KZalloc size => is_u64 size
  | KRealloc ptr size => is_u64 size ∧ (ptr = 0 ∨ is_Some (A !! ptr))
  | KFree ptr => is_Some (A !! ptr)
  | KWrite ptr off data => ∃ l, A !! ptr = Some l ∧ 0 ≤ off ∧ off + zlen data ≤ zlen l
  end.

(** A block that was not there, of at least [size] bytes, which start with [pre]. *)
Definition new_block A (size r : Z) (l pre : list Z) : Prop := r ≠ 0 ∧ r mod 16 = 0 ∧ A !! r = None ∧ size ≤ zlen l ∧ zslice l 0 (zlen pre) = pre.

(** [fits size] says that there is memory for [size] bytes. *)
Inductive kstep (fits : Z → Prop) A : kop → Z → gmap Z (list Z) → Prop :=
| SAllocNone size : ¬ fits size → kstep fits A (KAlloc size) 0 A
| SAlloc size r l : new_block A size r l [] → kstep fits A (KAlloc size) r (<[r := l]> A)
| SZallocNone size : ¬ fits size → kstep fits A (KZalloc size) 0 A
| SZalloc size r l : new_block A size r l (replicate (Z.to_nat size) 0) → kstep fits A (KZalloc size) r (<[r := l]> A)
| SRealloc0 size r l : new_block A size r l [] → kstep fits A (KRealloc 0 size) r (<[r := l]> A)
| SReallocNone ptr size : ¬ fits size → size ≠ 0 ∨ ptr = 0 → kstep fits A (KRealloc ptr size) 0 A
| SReallocFree ptr l : A !! ptr = Some l → kstep fits A (KRealloc ptr 0) 0 (delete ptr A)
| SReallocIn ptr size l : A !! ptr = Some l → 0 < size ≤ zlen l → kstep fits A (KRealloc ptr size) ptr A
| SReallocMove ptr size l r l' : A !! ptr = Some l → zlen l < size → new_block A size r l' l → kstep fits A (KRealloc ptr size) r (delete ptr (<[r := l']> A))
| SFree ptr l : A !! ptr = Some l → kstep fits A (KFree ptr) 0 (delete ptr A)
| SWrite ptr off data l : A !! ptr = Some l → kstep fits A (KWrite ptr off data) 0 (<[ptr := zsplice l off data]> A).

Definition kmem_ok s A : Prop := ∃ G B, kinv s G B A.

Lemma kmem_zalloc_spec s G B A size : kinv s G B A → is_u64 size →
  wp (kmem_zalloc size) s (λ r s', (r = 0 ∧ kmem_ok s' A ∧ ¬ room s size) ∨ ∃ l, new_block A size r l (replicate (Z.to_nat size) 0) ∧ kmem_ok s' (<[r := l]> A)).
Proof.
  intros HK Hsz. unfold kmem_zalloc, is_u64 in *. wstep kmem_alloc_spec; [done|done|]. intros r s1 [(-> & HK1 & Hno)|(H1 & H2 & H3 & G1 & B1 & l & H4 & HK1)]; [apply wp_ret; left; split; [done|]; split; [by exists G, B|done]|].
  rewrite (proj2 (Z.eqb_neq _ _) H1). cbn [negb]. eapply (wp_known rd_mem); [done|]. eapply (wp_known (wr_mem _)); [done|]. apply wp_ret. right. exists (zsplice l 0 (replicate (Z.to_nat size) 0)).
  assert (zlen (replicate (Z.to_nat size) 0) = size) as Ez by (unfold zlen; rewrite length_replicate; lia). split.
  - split; [done|]. split; [done|]. split; [done|]. rewrite zlen_zsplice by lia. split; [done|]. by rewrite zslice_zsplice by lia.
  - exists G1, B1. pose proof (kinv_splice s1 G1 B1 _ r l 0 (replicate (Z.to_nat size) 0) HK1 ltac:(apply lookup_insert_eq) ltac:(lia) ltac:(lia)) as HK2. rewrite Z.add_0_r, insert_insert_eq in HK2. exact HK2.
Qed.

Lemma kmem_realloc_spec s G B A ptr size : kinv s G B A → kop_ok A (KRealloc ptr size) → wp (kmem_realloc ptr size) s (λ r s', ∃ A', kstep (room s) A (KRealloc ptr size) r A' ∧ kmem_ok s' A').
Proof.
  intros HK [Hsz Hp]. unfold kmem_realloc. destruct (Z.eqb_spec ptr 0) as [->|Hp0].
  { eapply wp_mono; [by eapply kmem_alloc_spec|]. intros r s1 [(-> & HK1 & Hno)|(H1 & H2 & H3 & G1 & B1 & l & H4 & HK1)]; [exists A; split; [apply SReallocNone; [done|by right]|]; by exists G, B|].
    exists (<[r := l]> A). split; [by apply SRealloc0|]. by exists G1, B1. }
  destruct Hp as [|[l Hl]]; [done|]. destruct (Z.eqb_spec size 0) as [->|Hs0].
  { wstep kmem_free_spec; [done|done|]. intros r s1 (-> & G1 & B1 & HK1 & _). apply wp_ret. exists (delete ptr A). split; [by eapply SReallocFree|]. by exists G1, B1. }
  wstep kmem_alloc_size_spec; [done|done|]. intros r s1 [-> ->]. unfold is_u64 in Hsz. destruct (Z.leb_spec size (zlen l)) as [Hle|Hgt].
  { apply wp_ret. exists A. split; [eapply SReallocIn; [done|lia]|]. by exists G, B. }
  wstep kmem_alloc_spec; [done|done|]. intros r s1 [(-> & HK1 & Hno)|(H1 & H2 & H3 & G1 & B1 & l1 & H4 & HK1)].
  { apply wp_ret. exists A. split; [apply SReallocNone; [done|by left]|]. by exists G, B. }
  rewrite (proj2 (Z.eqb_neq _ _) H1). eapply (wp_known rd_mem); [done|]. assert (ptr ≠ r) as Hne by congruence. assert (<[r := l1]> A !! ptr = Some l) as Hl1 by (by rewrite lookup_insert_ne).
  rewrite (bk_bytes _ _ _ _ _ (ki_block _ _ _ _ HK1 _ _ Hl1)). pose proof (kinv_splice s1 G1 B1 _ r l1 0 l HK1 ltac:(apply lookup_insert_eq) ltac:(lia) ltac:(lia)) as HK2. rewrite Z.add_0_r, insert_insert_eq in HK2.
  eapply (wp_known (wr_mem _)); [done|]. eapply wp_step; [apply (kmem_free_spec _ _ _ _ ptr l HK2); by rewrite lookup_insert_ne|]. intros ? s2 (-> & G2 & B2 & HK3 & _). apply wp_ret.
  exists (delete ptr (<[r := zsplice l1 0 l]> A)). split; [|by exists G2, B2]. pose proof (zlen_nonneg l). eapply SReallocMove; [done|lia|]. split; [done|]. split; [done|]. split; [done|]. rewrite zlen_zsplice by lia. split; [done|]. by rewrite zslice_zsplice by lia.
Qed.

Lemma kop_spec s A op : kmem_ok s A → kop_ok A op → wp (run_kop op) s (λ r s', ∃ A', kstep (room s) A op r A' ∧ kmem_ok s' A').
Proof.
  intros (G & B & HK) Hop. destruct op as [size|size|ptr size|ptr|ptr off data]; cbn [run_kop kop_ok] in *.
  - eapply wp_mono; [by eapply kmem_alloc_spec|]. intros r s1 [(-> & HK1 & Hno)|(H1 & H2 & H3 & G1 & B1 & l & H4 & HK1)]; [exists A; split; [by constructor|]; by exists G, B|].
    exists (<[r := l]> A). split; [by apply SAlloc|]. by exists G1, B1.
  - eapply wp_mono; [by eapply kmem_zalloc_spec|]. intros r s1 [(-> & HK1 & Hno)|(l & Hn & HK1)]; [exists A; split; [by constructor|done]|]. exists (<[r := l]> A). split; [by apply SZalloc|done].
  - by apply (kmem_realloc_spec s G B A).
  - destruct Hop as [l Hl]. wstep kmem_free_spec; [done|done|]. intros r s1 (-> & G1 & B1 & HK1 & _). apply wp_ret. exists (delete ptr A). split; [by eapply SFree|]. by exists G1, B1.
  - destruct Hop as (l & Hl & H1 & H2). eapply (wp_known rd_mem); [done|]. eapply (wp_known (wr_mem _)); [done|]. apply wp_ret. exists (<[ptr := zsplice l off data]> A). split; [by apply SWrite|]. exists G, B. by apply kinv_splice.
Qed.

(** *** The start *)

(** Before [slab_init]: no caches. *)
Record slab_boot s : Prop := {
  sb_wf : pmm_wf (sb_pmm s);
  sb_live : klive (sb_heap s) ∅;
  sb_none : sb_caches s = ∅ ∧ g_cache_registry s = 0;
  sb_classes : zlen (g_size_caches s) = NUM_CLASSES
}.

Lemma boot_sinv s : slab_boot s → sinv s ∅ ∅.
Proof.
  intros [W1 W2 [W3 W4] W5]. assert (∀ o a n, ¬ owns (sb_caches s) ∅ ∅ o a n) as Hno. { intros [p|] a n; cbn; [|by rewrite lookup_empty]. intros (c & g & _ & Hg & _). by rewrite lookup_empty in Hg. }
  split; try done.
  - by rewrite W3, dom_empty_L.
  - exists []. split; [done|]. split; [constructor|]. intros p. rewrite W3, dom_empty_L. set_solver.
  - intros p. rewrite W3, !lookup_empty. done.
  - intros o a n Ho. by destruct (Hno o a n).
  - intros o a n o' a' n' Ho. by destruct (Hno o a n).
Qed.

(** The parameters of the classes' caches. *)
Lemma class_params i n : g_class_usable !! Z.to_nat i = Some n → 0 ≤ i < NUM_CLASSES → 0 ≤ n + KMEM_HDR_SIZE ≤ 2 ^ 32 ∧
  ∀ next, ∃ slot cnt pages, params (new_cache 0 (n + KMEM_HDR_SIZE) 16 0 next) = (n + KMEM_HDR_SIZE, slot, 0, cnt, pages) ∧ slot mod 16 = 0 ∧ pages = class_pages n.
Proof.
  intros Hn Hi. assert (Forall (λ n, 0 ≤ n + KMEM_HDR_SIZE ≤ 2 ^ 32 ∧ c_slot_size (new_cache 0 (n + KMEM_HDR_SIZE) 16 0 0) mod 16 = 0) g_class_usable) as HF.
  { repeat constructor; vm_compute; done. }
  destruct (Forall_lookup_1 _ _ _ _ HF Hn) as (H1 & H2). split; [done|]. intros next. eexists _, _, _. split; [reflexivity|]. split; [exact H2|reflexivity].
Qed.

Lemma slab_init_spec s : slab_boot s → runs slab_init s (λ _ s', kmem_ok s' ∅).
Proof.
  intros Hb. unfold slab_init.
  eapply runs_step; [apply (runs_seek (λ i _ s', ∃ G, sinv s' G ∅ ∧ zlen (g_size_caches s') = NUM_CLASSES ∧ ∀ j, 0 ≤ j < i → ∃ p n slot lv, class_at s' G j p n slot lv) (λ _ _, False))|].
  - done.
  - intros i [] s1 Hi (G & Hs1 & Hlen & Hcl). unfold init_body. assert (is_Some (g_class_usable !! Z.to_nat i)) as [n Hn] by (apply lookup_lt_is_Some; unfold NUM_CLASSES in Hi; cbn; lia).
    eapply runs_step; [apply wp_runs, (wp_lift _ n); [apply aget_Some; [lia|done]|]; by instantiate (1 := λ a s, a = n ∧ s = s1)|]. intros ? ? [-> ->].
    destruct (class_params i n Hn Hi) as [Ho Hp]. eapply runs_step; [apply (kmem_cache_create_spec s1 G ∅ 0 (n + KMEM_HDR_SIZE) 16 0 Hs1 Ho); [unfold is_u64; lia|lia]|].
    intros p s2 (Hp0 & Hfr & h & -> & Hs2). destruct (Hp (g_cache_registry s1)) as (slot & cnt & pages & Ep & Hm & Hpg). set (c := new_cache 0 (n + KMEM_HDR_SIZE) 16 0 (g_cache_registry s1)) in *.
    apply wp_runs. eapply (wp_known get_state); [done|]. eapply wp_lift_bind; [apply aset_in; unfold NUM_CLASSES in *; cbn [created g_size_caches]; lia|]. eapply (wp_known (set_size_caches _)); [done|]. apply wp_ret. exists (<[p := mk_ghost [] [] []]> G). split; [by destruct Hs2|]. cbn [created g_size_caches]. split; [unfold zlen; by rewrite length_insert|].
    intros j Hj. destruct (decide (j = i)) as [->|Hne].
    + exists p, n, slot, []. split; [cbn [g_size_caches]; apply list_lookup_insert_eq; unfold zlen, NUM_CLASSES in *; lia|]. split; [done|]. split; [lia|]. split; [done|]. exists cnt, pages. split; [|done]. unfold view. cbn [created sb_caches]. rewrite !lookup_insert_eq. by rewrite Ep.
    + destruct (Hcl j ltac:(lia)) as (p' & n' & slot' & lv & L1 & L2 & L3 & L4 & cnt' & pages' & L5 & L6). exists p', n', slot', lv.
      assert (p' ≠ p) as Hpp. { intros ->. unfold view in L5. by rewrite Hfr in L5. }
      split; [cbn [g_size_caches]; by rewrite list_lookup_insert_ne by lia|]. split; [done|]. split; [done|]. split; [done|]. exists cnt', pages'. split; [|done]. unfold view. cbn [created sb_caches]. by rewrite !lookup_insert_ne.
  - exists ∅. split; [by apply boot_sinv|]. split; [apply Hb|]. intros; lia.
  - intros [[]|[]] s' Hr; [|done]. destruct Hr as (G & Hs & _ & Hcl). exists G, ∅. split; [done|done|]. intros ptr l Hl. by rewrite lookup_empty in Hl.
Qed.

(** *** Free slots and alignment *)

Lemma chain_link m off p l x : chain m off p l → x ∈ l → load64 m (x + off) = 0 ∨ load64 m (x + off) ∈ l.
Proof.
  revert p. induction l as [|y l IH]; intros p Hc Hx; [by apply not_elem_of_nil in Hx|]. cbn [chain] in Hc. destruct Hc as (-> & _ & Hc). apply elem_of_cons in Hx as [->|Hx].
  - destruct l as [|z l]; cbn [chain] in Hc; [by left|]. destruct Hc as (-> & _). right. right. left.
  - destruct (IH _ Hc Hx) as [E|E]; [by left|right; by right].
Qed.

Lemma free_slot_magic s G B A x : kinv s G B A → slot_free s G x → x ≠ - KMEM_HDR_SIZE ∧ hdr_magic (sb_mem s) x ≠ KMEM_MAGIC.
Proof.
  intros [Hs K2 K3] (i & p & n & slot & lv & g & Hcl & Hg & Hx). destruct (class_cache _ _ _ _ _ _ _ _ Hs Hcl) as (c & g' & Hc & Hg' & _ & _ & Esl & _ & _ & Hm & _). rewrite Hg in Hg'. injection Hg' as <-.
  split; [destruct (object_range s G B p c g x Hs Hc Hg ltac:(apply elem_of_app; by left)); unfold KMEM_HDR_SIZE; lia|].
  pose proof (chain_link _ _ _ _ x (ci_free _ _ _ (si_cache _ _ _ Hs _ _ _ Hc Hg)) Hx) as Hl. rewrite Z.add_0_r in Hl.
  assert (load64 (sb_mem s) x mod 16 = 0) as Hal. { destruct Hl as [->|Hl]; [done|]. apply (object_aligned s G B p c g); [done|done|done|congruence|apply elem_of_app; by left]. }
  destruct (load64_split (sb_mem s) x) as [hi E]. unfold hdr_magic, KMEM_MAGIC. rewrite E in Hal. zlia.
Qed.

End Ops.

(** ** Theorems *)

Section Thm.
Context {H : Type} {KA : Kalloc H} {KL : KallocLaws H}.
Implicit Types (s : slabs H) (G : gmap Z ghost) (B : gmap Z Z) (A : gmap Z (list Z)).

(** C9. The general allocator refines a map from pointers to arrays of bytes. [slab_init] starts it with no blocks (or panics when
    the kernel heap has no memory for a cache); then every call of [kmem_alloc], [kmem_zalloc], [kmem_realloc] and [kmem_free]
    and every write of a caller inside a block it has returns and does to memory what the specification [kstep] does to the
    map: a block that was not there with at least the bytes asked for, zeros or the bytes of the old block, and NULL only
    when there is no run of free pages for it. The blocks do not overlap, and memory holds their bytes. *)
Theorem kmem_refines :
  (∀ s, slab_boot s → runs slab_init s (λ _ s', kmem_ok s' ∅)) ∧
  (∀ s A op, kmem_ok s A → kop_ok A op → wp (run_kop op) s (λ r s', ∃ A', kstep (room s) A op r A' ∧ kmem_ok s' A')) ∧
  ∀ s A x l, kmem_ok s A → A !! x = Some l → load_bytes (sb_mem s) x (zlen l) = l ∧ ∀ y k, A !! y = Some k → x ≠ y → x + zlen l ≤ y ∨ y + zlen k ≤ x.
Proof.
  split; [exact slab_init_spec|]. split; [exact kop_spec|]. intros s A x l (G & B & [Hs _ Hb]) Hx. split; [apply (Hb _ _ Hx)|]. intros y k Hy Hne.
  destruct (regions_apart s G B x (zlen l) y (zlen k) Hs) as [?|?]; [apply (block_region _ _ _ _ _ Hs), (Hb _ _ Hx)|apply (block_region _ _ _ _ _ Hs), (Hb _ _ Hy)|done|unfold KMEM_HDR_SIZE in *; lia|unfold KMEM_HDR_SIZE in *; lia].
Qed.

(** C24. A second [kmem_free] of a block of the size classes is noticed: it is logged and changes nothing. The magic number of the
    header is overwritten by the link of the free list, whose low half is never the magic number. *)
Theorem kmem_double_free s A ptr l : kmem_ok s A → A !! ptr = Some l → zlen l ≤ 4096 → wp (kmem_free ptr) s (λ _ s', kmem_free ptr s' = Ret (s', true)).
Proof.
  intros (G & B & HK) Hl Hsm. eapply wp_mono; [by eapply kmem_free_spec|]. intros r s' (_ & G' & B' & HK' & Hf). destruct (free_slot_magic s' G' B' _ _ HK' (Hf Hsm)) as [H0 Hm].
  unfold kmem_free. destruct (Z.eqb_spec ptr 0) as [->|_]; [unfold KMEM_HDR_SIZE in *; lia|]. rewrite (bind_run rd_mem _ s' s' (sb_mem s')) by done. cbv zeta. by rewrite (proj2 (Z.eqb_neq _ _) Hm).
Qed.

(** Objects start 48 bytes after the start of a page. *)
Lemma object_unaligned s G B p c g x : sinv s G B → sb_caches s !! p = Some c → G !! p = Some g → 32 ≤ c_align c ≤ 4096 → x ∈ gh_free g ++ gh_live g → x mod c_align c ≠ 0.
Proof.
  intros Hs Hc Hg Ha Hx. pose proof (si_cache _ _ _ Hs _ _ _ Hc Hg) as Hi. destruct (sh_align _ (ci_shape _ _ _ Hi)) as (k & Hk & Ek & Hm). rewrite Ek in *.
  assert (5 ≤ k ≤ 12) as Hk2. { change 32 with (2 ^ 5) in Ha. change 4096 with (2 ^ 12) in Ha. split; apply (Z.pow_le_mono_r_iff 2); lia. }
  rewrite (ci_objs _ _ _ Hi) in Hx. apply elem_of_cache_slots in Hx as (a & i & Hin & _ & ->). pose proof (ru_page _ _ _ (si_run _ _ _ Hs (Some p) a (c_slab_pages c) ltac:(by exists c, g))) as Hpage. unfold sizeof_kmem_slab.
  assert (2 ^ 12 = 2 ^ k * 2 ^ (12 - k)) as E12 by (rewrite <-Z.pow_add_r by lia; f_equal; lia). intros Hz.
  assert (48 mod 2 ^ k = 0) as H48. { apply Z.mod_divide in Hz, Hm; [|lia|lia]. apply Z.mod_divide; [lia|]. replace 48 with (a + 48 + i * c_slot_size c - a - i * c_slot_size c) by lia. apply Z.divide_sub_r; [apply Z.divide_sub_r; [done|]|by apply Z.divide_mul_r].
    apply Z.mod_divide in Hpage; [|lia]. change 4096 with (2 ^ 12) in Hpage. rewrite E12 in Hpage. destruct Hpage as [w ->]. exists (w * 2 ^ (12 - k)). lia. }
  assert (k = 5 ∨ 48 < 2 ^ k) as [->|Hbig]; [|done|rewrite Z.mod_small in H48; lia]. destruct (decide (k = 5)); [by left|right]. assert (2 ^ 6 ≤ 2 ^ k) by (apply Z.pow_le_mono_r; lia). lia.
Qed.

Lemma new_cache_align name obj k flags next : 0 ≤ k < 64 → c_align (new_cache name obj (2 ^ k) flags next) = 2 ^ k.
Proof. intros Hk. exact (new_align_id k Hk). Qed.

(** C40. Caches with an alignment of 32 to 4096 never return an aligned object: the objects start 48 bytes, the size of the slab's
    header, after the start of a page. [kmem_cache_create] with an alignment that is a power of two, for objects of up to 2^32
    bytes, makes a cache with that alignment (or panics, or the kernel heap has no memory); and in any state of the allocator
    each call of [kmem_cache_alloc] on a cache whose alignment is in that range returns NULL or an object that is not aligned,
    and leaves the allocator and the cache's alignment so that this holds for the next call. *)
Theorem kmem_cache_unaligned s G B : sinv s G B →
  (∀ name obj flags k, 0 ≤ obj ≤ 2 ^ 32 → 0 ≤ k ≤ 32 →
     runs (kmem_cache_create name obj (2 ^ k) flags) s (λ p s', c_align <$> sb_caches s' !! p = Some (2 ^ k) ∧ ∃ G', sinv s' G' B)) ∧
  ∀ p c, sb_caches s !! p = Some c → 32 ≤ c_align c ≤ 4096 →
     wp (kmem_cache_alloc p) s (λ r s', (r = 0 ∨ r mod c_align c ≠ 0) ∧ c_align <$> sb_caches s' !! p = Some (c_align c) ∧ ∃ G', sinv s' G' B).
Proof.
  intros Hs. split.
  - intros name obj flags k Ho Hk. assert (1 ≤ 2 ^ k ≤ 2 ^ 32) as Hp by (split; [change 1 with (2 ^ 0)|]; apply Z.pow_le_mono_r; lia).
    eapply runs_mono; [apply (kmem_cache_create_spec s G B name obj (2 ^ k) flags Hs Ho); unfold is_u64; lia|]. intros p s' (_ & _ & h & -> & Hs1).
    split; [|by eexists]. cbn [created sb_caches]. rewrite lookup_insert_eq. cbn [fmap option_fmap option_map]. by rewrite new_cache_align by lia.
  - intros p c Hc Ha. destruct (proj2 (si_dom _ _ _ Hs p) ltac:(by exists c)) as [g Hg]. eapply wp_mono; [by apply (kmem_cache_alloc_spec s G B p c g)|].
    intros r s2 [(-> & -> & _)|[Hr [_ (G2 & Hs2 & Hv) _ _ _ Hal]]]; [split; [by left|]; rewrite Hc; split; [done|by exists G]|]. split; [right|split; [done|by exists G2]].
    assert (view s2 G2 p = Some (params c, r :: gh_live g)) as Hvp by (rewrite Hv; by rewrite decide_True). apply view_Some in Hvp as (c2 & g2 & Hc2 & Hg2 & _ & El).
    rewrite Hc2 in Hal. cbn [fmap option_fmap option_map] in Hal. apply (inj Some) in Hal. rewrite <-Hal in Ha |- *.
    apply (object_unaligned s2 G2 B p c2 g2 r Hs2 Hc2 Hg2 Ha). rewrite El. apply elem_of_app. right. left.
Qed.

End Thm.

(** ** Example *)

#[local] Instance ex_kalloc : Kalloc heap := heap_kalloc ex_arena.
#[local] Instance ex_laws : KallocLaws heap := heap_laws ex_arena eq_refl.

(** 2 MiB of memory with the upper half free, and no caches. *)
Definition ex_slab_boot : slabs heap :=
  mk_slabs ∅ (mk_pmm (replicate 32 0xFF ++ replicate 32 0) 64 512 256 256 0x100000 1 0x100000 0x200000) fresh_heap ∅ 0 (replicate 9 0) 0 0 0 0.

Lemma ex_slab_boot_ok : slab_boot ex_slab_boot.
Proof. split; [apply (pmm_wf_low 32 32); done|exact ex_live|done|done]. Qed.

Definition slab_after {A} (s : slabs heap) (o : outcome (slabs heap * A)) : slabs heap := match o with Ret (s', _) => s' | _ => s end.
Definition slab_result (o : outcome (slabs heap * Z)) : Z := match o with Ret (_, r) => r | _ => 0 end.

Definition ex_ready : slabs heap := slab_after ex_slab_boot (slab_init ex_slab_boot).
Definition ex_held : slabs heap := slab_after ex_ready (kmem_alloc 100 ex_ready).
Definition ex_ptr : Z := 0x100F70.

Lemma ex_ready_run : returned (slab_init ex_slab_boot) = true.
Proof. vm_compute. reflexivity. Qed.
Lemma ex_held_run : slab_result (kmem_alloc 100 ex_ready) = ex_ptr ∧ hdr_class (sb_mem ex_held) (ex_ptr - KMEM_HDR_SIZE) = 3.
Proof. split; vm_compute; reflexivity. Qed.

Lemma slab_after_run {A} (s : slabs heap) (o : outcome (slabs heap * A)) : returned o = true → ∃ a, o = Ret (slab_after s o, a).
Proof. destruct o as [[s' a]| | |]; try done. intros _. by exists a. Qed.

Lemma ex_ready_ok : kmem_ok ex_ready ∅.
Proof. destruct (slab_after_run ex_slab_boot _ ex_ready_run) as [a E]. exact (runs_ret _ _ _ _ _ (slab_init_spec ex_slab_boot ex_slab_boot_ok) E). Qed.

(** What [kmem_alloc] leaves, with the pointer known. *)
Lemma alloc_held (s : slabs heap) r size : kmem_ok s ∅ → is_u64 size → slab_result (kmem_alloc size s) = r → r ≠ 0 → ∃ l, kmem_ok (slab_after s (kmem_alloc size s)) (<[r := l]> ∅).
Proof.
  intros Hs Hz Er Hr. destruct (wp_run _ _ _ (kop_spec s ∅ (KAlloc size) Hs Hz)) as (s' & r' & E & A' & Hst & Hk). cbn [run_kop] in E. rewrite E in Er |- *. cbn [slab_result slab_after] in *. subst r'. inversion Hst; subst; [done|]. by eexists.
Qed.

Lemma block_small (s : slabs heap) A ptr l : kmem_ok s A → A !! ptr = Some l → hdr_class (sb_mem s) (ptr - KMEM_HDR_SIZE) = 3 → zlen l ≤ 4096.
Proof.
  intros (G & B & [Hs _ Hb]) Hl Hh. destruct (Hb _ _ Hl) as [[i p slot lv (_ & Hn & _) _ _|k _ _ _ Hh' _] _ _]; [|congruence].
  assert (Forall (λ u, u ≤ 4096) g_class_usable) as HF by (repeat constructor; lia). by eapply Forall_lookup_1 in HF.
Qed.

Lemma kmem_refines_witness :
  kmem_ok ex_ready ∅ ∧ wp (run_kop (KAlloc 100)) ex_ready (λ r s', ∃ A', kstep (room ex_ready) ∅ (KAlloc 100) r A' ∧ kmem_ok s' A').
Proof.
  destruct (kmem_refines (H := heap)) as (H1 & H2 & _). assert (kmem_ok ex_ready ∅) as Hr.
  { destruct (slab_after_run ex_slab_boot _ ex_ready_run) as [a E]. exact (runs_ret _ _ _ _ _ (H1 ex_slab_boot ex_slab_boot_ok) E). }
  split; [exact Hr|]. apply H2; [exact Hr|split; lia].
Defined.

Lemma ex_size : is_u64 100.
Proof. split; lia. Qed.
Lemma ex_ptr_nonzero : ex_ptr ≠ 0.
Proof. done. Qed.

Lemma ex_held_ok : ∃ l, kmem_ok ex_held (<[ex_ptr := l]> ∅).
Proof. exact (alloc_held ex_ready ex_ptr 100 ex_ready_ok ex_size (proj1 ex_held_run) ex_ptr_nonzero). Qed.

Lemma kmem_double_free_witness : wp (kmem_free ex_ptr) ex_held (λ _ s', kmem_free ex_ptr s' = Ret (s', true)).
Proof.
  destruct ex_held_ok as [l Hk]. pose proof (lookup_insert_eq (∅ : gmap Z (list Z)) ex_ptr l) as Hl.
  apply (kmem_double_free ex_held (<[ex_ptr := l]> ∅) ex_ptr l Hk Hl). exact (block_small ex_held _ _ _ Hk Hl (proj2 ex_held_run)).
Defined.

(** A cache with alignment 64, and an object of it. *)
Definition ex_aligned : slabs heap := slab_after ex_slab_boot (kmem_cache_create 0 100 (2 ^ 6) 0 ex_slab_boot).

Lemma ex_aligned_run : returned (kmem_cache_create 0 100 (2 ^ 6) 0 ex_slab_boot) = true.
Proof. vm_compute. reflexivity. Qed.

Lemma ex_aligned_after (Q : Z → slabs heap → Prop) : runs (kmem_cache_create 0 100 (2 ^ 6) 0) ex_slab_boot Q → ∃ p, Q p ex_aligned.
Proof. intros Hr. destruct (slab_after_run ex_slab_boot _ ex_aligned_run) as [p E]. exists p. exact (runs_ret _ _ _ _ _ Hr E). Qed.

Lemma kmem_cache_unaligned_witness : ∃ p c, sb_caches ex_aligned !! p = Some c ∧ c_align c = 2 ^ 6 ∧
  wp (kmem_cache_alloc p) ex_aligned (λ r s', (r = 0 ∨ r mod c_align c ≠ 0) ∧ c_align <$> sb_caches s' !! p = Some (c_align c) ∧ ∃ G', sinv s' G' ∅).
Proof.
  destruct (kmem_cache_unaligned ex_slab_boot ∅ ∅ (boot_sinv _ ex_slab_boot_ok)) as [Hcr _].
  destruct (ex_aligned_after _ (Hcr 0 100 0 6 ltac:(clear; lia) ltac:(clear; lia))) as (p & Ha & G & Hs).
  apply fmap_Some in Ha as (c & Hc & Ec). exists p, c. split; [exact Hc|]. split; [exact (eq_sym Ec)|].
  apply (proj2 (kmem_cache_unaligned ex_aligned G ∅ Hs) p c Hc). rewrite <-Ec. clear. lia.
Defined.
