(* ===== verification/Uspace.v ===== *)
(** User address spaces, [kernel/user/user_address_space.c] and [kernel/user/user_copy.c]: the page tables of a process on
    physical memory, its pages, and the copies between kernel and user memory. The state has the physical memory, the page
    allocator ([Pmm]), the kernel heap with the [struct user_address_space] that live on it, and CR3. Kernel code sees
    physical memory at its physical address, which holds under the kernel's own page tables ([Vmm.vmm_init_maps]). *)

From stdpp Require Import gmap.
From S2P Require Import Prelude Kmath CString Layout Pmm Memory Paging Vmm StateM Heap Kalloc.

(** ** Definitions *)

Definition USER_IMAGE_BASE : Z := 0x400000.
Definition USER_TOP : Z := 0x800000000000.

(** [us_spaces] has the field [pml4] of each [struct user_address_space]; [us_kernel] is [vmm_kernel_pml4()]. *)
Record us (H : Type) := mk_us { us_mem : mem; us_pmm : pmm; us_heap : H; us_spaces : gmap Z Z; us_cr3 : Z; us_kernel : Z }.
Arguments mk_us {H} _ _ _ _ _ _.
Arguments us_mem {H} _.
Arguments us_pmm {H} _.
Arguments us_heap {H} _.
Arguments us_spaces {H} _.
Arguments us_cr3 {H} _.
Arguments us_kernel {H} _.

(** What the boot loader and the APIC code tell. *)
Record machine := mk_machine { mc_boot : boot_info; mc_initramfs_base : Z; mc_initramfs_size : Z; mc_lapic : Z }.

(** The leaf entry and whether it maps 2 MiB. *)
Definition walk_leaf (m : mem) (pml4 va : Z) : Z * bool :=
  if negb (has (pte m pml4 (idx_pml4 va)) PAGE_PRESENT) then (0, false)
  else
    let pdpt := Z.land (pte m pml4 (idx_pml4 va)) PAGE_ADDR_MASK in
    if negb (has (pte m pdpt (idx_pdpt va)) PAGE_PRESENT) then (0, false)
    else if has (pte m pdpt (idx_pdpt va)) PAGE_HUGE then (pte m pdpt (idx_pdpt va), false)
    else
      let pd := Z.land (pte m pdpt (idx_pdpt va)) PAGE_ADDR_MASK in
      if negb (has (pte m pd (idx_pd va)) PAGE_PRESENT) then (0, false)
      else if has (pte m pd (idx_pd va)) PAGE_HUGE then (pte m pd (idx_pd va), true)
      else
        let pt := Z.land (pte m pd (idx_pd va)) PAGE_ADDR_MASK in
        if negb (has (pte m pt (idx_pt va)) PAGE_PRESENT) then (0, false) else (pte m pt (idx_pt va), false).

(** The loops of [user_address_space_destroy], from the inside out: the pages of a page table, the page tables of a page
    directory, the directories of a table of the third level, and these. *)
Definition free_leaf_body (m : mem) (pt l : Z) (a : pmm) : outcome pmm :=
  let e := pte m pt l in
  if has e PAGE_PRESENT && has e PAGE_USER then pmm_free_page a (Z.land e PAGE_ADDR_MASK) else Ret a.
Definition free_pt_body (m : mem) (pd k : Z) (a : pmm) : outcome pmm :=
  let e := pte m pd k in
  if negb (has e PAGE_PRESENT) || has e PAGE_HUGE then Ret a
  else
    a ← for_range 0 512 (free_leaf_body m (Z.land e PAGE_ADDR_MASK)) a;
    pmm_free_page a (Z.land e PAGE_ADDR_MASK).
Definition free_pd_body (m : mem) (pdpt j : Z) (a : pmm) : outcome pmm :=
  let e := pte m pdpt j in
  if negb (has e PAGE_PRESENT) || has e PAGE_HUGE then Ret a
  else
    a ← for_range 0 512 (free_pt_body m (Z.land e PAGE_ADDR_MASK)) a;
    pmm_free_page a (Z.land e PAGE_ADDR_MASK).
Definition free_pdpt_body (m : mem) (pml4 i : Z) (a : pmm) : outcome pmm :=
  let e := pte m pml4 i in
  if negb (has e PAGE_PRESENT) then Ret a
  else
    a ← for_range 0 512 (free_pd_body m (Z.land e PAGE_ADDR_MASK)) a;
    pmm_free_page a (Z.land e PAGE_ADDR_MASK).
Definition free_space (m : mem) (pml4 : Z) (a : pmm) : outcome pmm :=
  a ← for_range 0 512 (free_pdpt_body m pml4) a;
  pmm_free_page a pml4.

(** [PAGE_USER] on the two levels above the user image. *)
Definition allow_user (m : mem) (pml4 : Z) : mem :=
  let m := set_pte m pml4 (idx_pml4 USER_IMAGE_BASE) (Z.lor (pte m pml4 (idx_pml4 USER_IMAGE_BASE)) PAGE_USER) in
  let pdpt := Z.land (pte m pml4 (idx_pml4 USER_IMAGE_BASE)) PAGE_ADDR_MASK in
  set_pte m pdpt (idx_pdpt USER_IMAGE_BASE) (Z.lor (pte m pdpt (idx_pdpt USER_IMAGE_BASE)) PAGE_USER).

Definition span_pages (lo hi : Z) : Z := (hi - lo + PAGE_MASK) / PAGE_SIZE.

(** [user_range_is_valid] looks at the pages from the one of [addr] on. *)
Definition valid_body (m : mem) (pml4 first : Z) (require_write : bool) (i : Z) (_ : unit) : outcome (unit + unit) :=
  let leaf := (walk_leaf m pml4 (first + i * PAGE_SIZE)).1 in
  Ret (if negb (has leaf PAGE_PRESENT) || negb (has leaf PAGE_USER) then inr tt
       else if require_write && negb (has leaf PAGE_WRITABLE) then inr tt
       else inl tt).

(** The bytes of the copy that are in the page of [cur]. *)
Definition page_chunk (cur remaining : Z) : Z :=
  let n := PAGE_SIZE - Z.land cur PAGE_MASK in if remaining <? n then remaining else n.
Definition copy_fuel (size : Z) : nat := Z.to_nat (size / PAGE_SIZE + 3).

(** The [n] bytes that a [memcpy] reads from a kernel buffer. *)
Definition source (src : list Z) (off n : Z) : outcome (list Z) :=
  if (0 <=? off) && (off + n <=? zlen src) then Ret (zslice src off n) else Fault.

(** What [memset(pa, 0, PAGE_SIZE)] writes. *)
Definition zero_page : list Z := replicate (Z.to_nat PAGE_SIZE) 0.

Section Uspace.
Context {H : Type} {KA : Kalloc H}.
Notation St := (us H).
Implicit Types s : St.

Definition get_mem : stM St mem := λ s, Ret (s, us_mem s).
Definition put_mem (m : mem) : stM St unit := λ s, Ret (mk_us m (us_pmm s) (us_heap s) (us_spaces s) (us_cr3 s) (us_kernel s), tt).
Definition on_tables {A} (f : mem → pmm → outcome (mem * pmm * A)) : stM St A := λ s,
  '(m, a, r) ← f (us_mem s) (us_pmm s);
  Ret (mk_us m a (us_heap s) (us_spaces s) (us_cr3 s) (us_kernel s), r).
Definition alloc_frame : stM St Z := on_tables (λ m a, '(a, p) ← pmm_alloc_page a; Ret (m, a, p)).
Definition free_frame (p : Z) : stM St unit := on_tables (λ m a, a ← pmm_free_page a p; Ret (m, a, tt)).
Definition get_pml4 (space : Z) : stM St Z := λ s, match us_spaces s !! space with Some p => Ret (s, p) | None => Fault end.

(** [kcalloc] of the structure with its [pml4], and [kfree]. *)
Definition new_space : stM St Z := λ s,
  '(h, p) ← knew (us_heap s) 8;
  Ret (mk_us (us_mem s) (us_pmm s) h (if p =? 0 then us_spaces s else <[p := 0]> (us_spaces s)) (us_cr3 s) (us_kernel s), p).
Definition set_pml4 (space pml4 : Z) : stM St unit := λ s,
  Ret (mk_us (us_mem s) (us_pmm s) (us_heap s) (<[space := pml4]> (us_spaces s)) (us_cr3 s) (us_kernel s), tt).
Definition drop_space (space : Z) : stM St unit := λ s,
  h ← kdrop (us_heap s) space;
  Ret (mk_us (us_mem s) (us_pmm s) h (delete space (us_spaces s)) (us_cr3 s) (us_kernel s), tt).

Definition user_address_space_destroy (space : Z) : stM St unit :=
  if space =? 0 then mret tt
  else
    pml4 ← get_pml4 space;
    if pml4 =? 0 then drop_space space
    else
      on_tables (λ m a, a ← free_space m pml4 a; Ret (m, a, tt));;
      drop_space space.

Definition supervisor_body (pml4 start flags i : Z) (_ : unit) : stM St (unit + unit) :=
  let pa := start + i * LARGE_PAGE_SIZE in
  rc ← on_tables (λ m a, paging_map_2m m a pml4 pa pa flags);
  mret (if negb (rc =? K_OK) then inr tt else inl tt).

Definition map_supervisor_2m (pml4 phys span flags : Z) : stM St Z :=
  let start := LARGE_ALIGN_DOWN phys in
  let end_ := LARGE_ALIGN_UP (u64 (phys + span)) in
  r ← seek 0 (large_pages start end_) (supervisor_body pml4 start flags) tt;
  mret (match r with inl _ => 0 | inr _ => -1 end).

Definition MMIO_FLAGS : Z := Z.lor (Z.lor (Z.lor PAGE_PRESENT PAGE_WRITABLE) PAGE_CACHE_DISABLE) PAGE_WRITE_THROUGH.

(** The windows of [user_address_space_create], in its order: base, size and flags. *)
Definition windows (mc : machine) : list (Z * Z * Z) :=
  let bi := mc_boot mc in
  [(0, USER_IMAGE_BASE, Z.lor PAGE_PRESENT PAGE_WRITABLE)] ++
  (if negb (fb_base bi =? 0) && negb (fb_size bi =? 0) then [(fb_base bi, fb_size bi, MMIO_FLAGS)] else []) ++
  [(mc_lapic mc, LARGE_PAGE_SIZE, MMIO_FLAGS)] ++
  (if negb (mc_initramfs_base mc =? 0) && negb (mc_initramfs_size mc =? 0)
   then [(mc_initramfs_base mc, mc_initramfs_size mc, Z.lor PAGE_PRESENT PAGE_WRITABLE)] else []).

Fixpoint map_windows (pml4 : Z) (ws : list (Z * Z * Z)) : stM St Z :=
  match ws with
  | [] => mret 0
  | (base, size, flags) :: ws =>
      r ← map_supervisor_2m pml4 base size flags;
      if negb (r =? 0) then mret (-1) else map_windows pml4 ws
  end.

Definition user_address_space_create (mc : machine) : stM St Z :=
  if USER_IMAGE_BASE <? u64 (kernel_base (mc_boot mc) + kernel_size (mc_boot mc)) then λ _, Panic
  else
    space ← new_space;
    if space =? 0 then mret 0
    else
      pml4 ← on_tables paging_new_table;
      set_pml4 space pml4;;
      r ← map_windows pml4 (windows mc);
      if negb (r =? 0) then user_address_space_destroy space;; mret 0
      else
        m ← get_mem;
        put_mem (allow_user m pml4);;
        mret space.

Definition user_address_space_cr3 (space : Z) : stM St Z := if space =? 0 then mret 0 else get_pml4 space.

Definition user_map_page (space va pa flags : Z) : stM St Z :=
  if (space =? 0) || (USER_TOP <=? va) || has va PAGE_MASK || has pa PAGE_MASK then mret (-1)
  else
    pml4 ← get_pml4 space;
    let leaf := Z.lor (Z.lor (Z.land flags PAGE_WRITABLE) PAGE_USER) PAGE_PRESENT in
    rc ← on_tables (λ m a, paging_map_4k m a pml4 va pa leaf);
    mret (if rc =? K_OK then 0 else -1).

Definition map_range_body (space va flags i : Z) (_ : unit) : stM St (unit + unit) :=
  pa ← alloc_frame;
  if pa =? PMM_INVALID_PAGE then mret (inr tt)
  else
    m ← get_mem;
    put_mem (store_bytes m pa zero_page);;
    r ← user_map_page space (va + i * PAGE_SIZE) pa flags;
    if negb (r =? 0) then free_frame pa;; mret (inr tt) else mret (inl tt).

Definition user_map_range (space va size flags : Z) : stM St Z :=
  if (space =? 0) || has va PAGE_MASK then mret (-1)
  else
    let end_ := u64 (va + PAGE_ALIGN_UP size) in
    if (end_ <=? va) || (USER_TOP <? end_) then mret (-1)
    else
      r ← seek 0 (span_pages va end_) (map_range_body space va flags) tt;
      mret (match r with inl _ => 0 | inr _ => -1 end).

Definition unmap_range_body (space va i : Z) (_ : unit) : stM St (unit + unit) :=
  pml4 ← get_pml4 space;
  m ← get_mem;
  let a := va + i * PAGE_SIZE in
  let phys := paging_translate m pml4 a in
  if negb (phys =? PAGING_NO_MAP) then
    put_mem (paging_unmap_4k m pml4 a).1;;
    free_frame (Z.land phys PAGE_ADDR_MASK);;
    mret (inl tt)
  else mret (inl tt).

Definition user_unmap_range (space va size : Z) : stM St Z :=
  if (space =? 0) || has va PAGE_MASK then mret (-1)
  else
    let end_ := u64 (va + PAGE_ALIGN_UP size) in
    if (end_ <=? va) || (USER_TOP <? end_) then mret (-1)
    else
      _ ← seek 0 (span_pages va end_) (unmap_range_body space va) tt;
      mret 0.

(** One turn of the copy loops; [done] bytes are copied. *)
Definition copy_to_step (space : Z) (src : list Z) (soff size user_dst done : Z) : stM St (Z + Z) :=
  if size - done =? 0 then mret (inr 0)
  else
    pml4 ← get_pml4 space;
    m ← get_mem;
    let cur := u64 (user_dst + done) in
    let phys := paging_translate m pml4 cur in
    if phys =? PAGING_NO_MAP then mret (inr (-1))
    else
      let n := page_chunk cur (size - done) in
      data ← lift (source src (soff + done) n);
      put_mem (store_bytes m phys data);;
      mret (inl (done + n)).

Definition user_copy_to_space (space user_dst : Z) (src : list Z) (soff size : Z) : stM St Z :=
  if space =? 0 then mret (-1) else while (copy_fuel size) (copy_to_step space src soff size user_dst) 0.

Definition copy_from_step (space size user_src : Z) (l : Z * list Z) : stM St (Z * list Z + Z * list Z) :=
  let '(done, dst) := l in
  if size - done =? 0 then mret (inr (0, dst))
  else
    pml4 ← get_pml4 space;
    m ← get_mem;
    let cur := u64 (user_src + done) in
    let phys := paging_translate m pml4 cur in
    if phys =? PAGING_NO_MAP then mret (inr (-1, dst))
    else
      let n := page_chunk cur (size - done) in
      dst ← lift (memcpy_from dst done (load_bytes m phys n) 0 n);
      mret (inl (done + n, dst)).

Definition user_copy_from_space (space : Z) (dst : list Z) (user_src size : Z) : stM St (Z * list Z) :=
  if space =? 0 then mret (-1, dst) else while (copy_fuel size) (copy_from_step space size user_src) (0, dst).

Definition zero_step (space size user_dst done : Z) : stM St (Z + Z) :=
  if size - done =? 0 then mret (inr 0)
  else
    pml4 ← get_pml4 space;
    m ← get_mem;
    let cur := u64 (user_dst + done) in
    let phys := paging_translate m pml4 cur in
    if phys =? PAGING_NO_MAP then mret (inr (-1))
    else
      let n := page_chunk cur (size - done) in
      put_mem (store_bytes m phys (replicate (Z.to_nat n) 0));;
      mret (inl (done + n)).

Definition user_zero_in_space (space user_dst size : Z) : stM St Z :=
  if space =? 0 then mret (-1) else while (copy_fuel size) (zero_step space size user_dst) 0.

Definition user_range_is_valid (space addr size : Z) (require_write : bool) : stM St bool :=
  if space =? 0 then mret false
  else if size =? 0 then mret true
  else
    let end_ := u64 (addr + size) in
    if (end_ <=? addr) || (USER_TOP <? end_) then mret false
    else
      pml4 ← get_pml4 space;
      m ← get_mem;
      let first := PAGE_ALIGN_DOWN addr in
      r ← lift (find_range 0 (span_pages first end_) (valid_body m pml4 first require_write) tt);
      mret (match r with inl _ => true | inr _ => false end).

(** *** [user_copy.c] *)

Definition load_cr3 (cr3 : Z) : stM St unit := λ s, Ret (mk_us (us_mem s) (us_pmm s) (us_heap s) (us_spaces s) cr3 (us_kernel s), tt).
Definition user_with_kernel_cr3 : stM St Z := λ s, Ret (mk_us (us_mem s) (us_pmm s) (us_heap s) (us_spaces s) (us_kernel s) (us_kernel s), us_cr3 s).
Definition user_restore_cr3 (saved : Z) : stM St unit := load_cr3 saved.

(** [space] is the address space of the current process, 0 when there is none. *)
Definition user_copy_from_user (space : Z) (kdst : list Z) (usrc n : Z) : stM St (Z * list Z) :=
  if n =? 0 then mret (0, kdst)
  else if space =? 0 then mret (- SYS_EFAULT, kdst)
  else
    saved ← user_with_kernel_cr3;
    valid ← user_range_is_valid space usrc n false;
    r ← (if valid : bool then user_copy_from_space space kdst usrc n else mret (-1, kdst));
    user_restore_cr3 saved;;
    mret (if r.1 =? 0 then 0 else - SYS_EFAULT, r.2).

Definition user_copy_to_user (space udst : Z) (ksrc : list Z) (n : Z) : stM St Z :=
  if n =? 0 then mret 0
  else if space =? 0 then mret (- SYS_EFAULT)
  else
    saved ← user_with_kernel_cr3;
    valid ← user_range_is_valid space udst n true;
    r ← (if valid : bool then user_copy_to_space space udst ksrc 0 n else mret (-1));
    user_restore_cr3 saved;;
    mret (if r =? 0 then 0 else - SYS_EFAULT).

(** The loop that measures the string; the result is the length with the NUL, [None] without one. *)
Definition measure_step (space usrc maxlen len : Z) : stM St (Z + option Z) :=
  if len <? maxlen then
    valid ← user_range_is_valid space (u64 (usrc + len)) 1 false;
    if negb valid then mret (inr None)
    else
      pml4 ← user_address_space_cr3 space;
      m ← get_mem;
      let phys := paging_translate m pml4 (u64 (usrc + len)) in
      if phys =? PAGING_NO_MAP then mret (inr None)
      else if load8 m phys =? 0 then mret (inr (Some (len + 1))) else mret (inl (len + 1))
  else mret (inr None).

(** [kmem n] is the contents of the block [kmalloc(n)] returns, [None] for NULL. *)
Definition user_copy_string_from_user (kmem : Z → option (list Z)) (space usrc maxlen : Z) : stM St (option (list Z)) :=
  if (space =? 0) || (maxlen =? 0) then mret None
  else
    saved ← user_with_kernel_cr3;
    r ← while (Z.to_nat maxlen + 1) (measure_step space usrc maxlen) 0;
    buf ← match r with
          | None => mret None
          | Some len =>
              match kmem len with
              | None => mret None
              | Some buf => r ← user_copy_from_space space buf usrc len; mret (if negb (r.1 =? 0) then None else Some r.2)
              end
          end;
    user_restore_cr3 saved;;
    mret buf.

End Uspace.
