(* ===== verification/UspaceSpec.v ===== *)
(** What the functions of [Uspace] do. The memory of a user is [ubyte]: the byte at a virtual address that a 4 KiB page maps.
    [user_ok] is the invariant of one address space: its tables are a tree of pages of their own, every 4 KiB page is a user
    page with a frame of its own, and large pages are not user pages. [footprint] is the set of pages that belong to the
    space, and [within] says that a step stays inside it, so that it can not be seen in another space. *)

From stdpp Require Import gmap.
From S2P Require Import Prelude Kmath CString Layout Pmm Memory Paging Vmm StateM Heap Kalloc Uspace.

(** ** Specification *)

Definition page (x : Z) : Z := x - x mod 4096.
Definition frame_of (e : Z) : Z := Z.land e PAGE_ADDR_MASK.

(** The memory of the user. *)
Definition ubyte (m : mem) (root va : Z) : option Z :=
  match slot m root va with Some (false, e) => Some (load8 m (frame_of e + va mod 4096)) | _ => None end.

(** The pages of a space: its tables and the frames of its 4 KiB pages. *)
Definition footprint (m : mem) (root p : Z) : Prop :=
  is_table m root p ∨ ∃ va e, slot m root va = Some (false, e) ∧ p = frame_of e.

Record user_ok (m : mem) (a : pmm) (root : Z) : Prop := {
  uo_tree : pt_inv m a root;
  uo_managed t : is_table m root t → pa_managed (pa_geometry a) t;
  uo_leaf va e : slot m root va = Some (false, e) →
    has e PAGE_USER = true ∧ ¬ is_table m root (frame_of e) ∧ ¬ pa_isfree a (frame_of e) ∧ pa_managed (pa_geometry a) (frame_of e);
  uo_inj va va' e e' : slot m root va = Some (false, e) → slot m root va' = Some (false, e') → frame_of e = frame_of e' → vpn va = vpn va';
  uo_large va e : slot m root va = Some (true, e) → has e PAGE_USER = false
}.

(** From [m], [a] to [m'], [a'] only bytes of the space and of free pages change, only pages of the space are freed, and the
    space gets only pages that were free. *)
Definition within (m : mem) (a : pmm) (m' : mem) (a' : pmm) (root : Z) : Prop :=
  pa_geometry a' = pa_geometry a ∧
  (∀ x, ¬ pa_isfree a (page x) → ¬ footprint m root (page x) → load8 m' x = load8 m x) ∧
  (∀ x, pa_isfree a' (page x) → pa_isfree a (page x) ∨ footprint m root (page x)) ∧
  (∀ x, footprint m' root (page x) → footprint m root (page x) ∨ pa_isfree a (page x)).

(** ** Lemmas *)

Lemma page_mod x : page x mod 4096 = 0.
Proof. unfold page. zlia. Qed.
Lemma page_id p : p mod 4096 = 0 → page p = p.
Proof. unfold page. lia. Qed.
Lemma page_add p o : p mod 4096 = 0 → 0 ≤ o < 4096 → page (p + o) = p.
Proof. unfold page. intros. zlia. Qed.
Lemma frame_page e : frame_of e mod 4096 = 0 ∧ 0 ≤ frame_of e < 2 ^ 52.
Proof. apply mask_page. Qed.
Lemma page_frame e va : page (frame_of e + va mod 4096) = frame_of e.
Proof. destruct (frame_page e). apply page_add; [done|]. apply Z.mod_pos_bound. lia. Qed.
Lemma isfree_page a p : pa_isfree a (page p) ↔ pa_isfree a p.
Proof. cbn [pa_isfree pmm_laws]. unfold page. by replace ((p - p mod 4096) / 4096) with (p / 4096) by zlia. Qed.
Lemma free_is_managed (a : pmm) p : pa_isfree a p → pa_managed (pa_geometry a) p.
Proof. by intros [? _]. Qed.

Lemma within_refl m a root : within m a m a root.
Proof. split_and!; auto. Qed.

Lemma within_trans m a m1 a1 m2 a2 root : within m a m1 a1 root → within m1 a1 m2 a2 root → within m a m2 a2 root.
Proof.
  intros (G1 & B1 & F1 & P1) (G2 & B2 & F2 & P2). split; [congruence|]. split; [|split].
  - intros x Hf Hp. rewrite B2; [by apply B1|by intros [?|?]%F1|by intros [?|?]%P1].
  - intros x [Hf|Hp]%F2; [by apply F1|]. apply P1 in Hp. tauto.
  - intros x [Hp|Hf]%P2; [by apply P1|]. apply F1 in Hf. tauto.
Qed.

Lemma footprint_page m a root p : pt_inv m a root → footprint m root p → page p = p.
Proof.
  intros Hinv [(q & Hq & Hw)|(va & e & _ & ->)]; apply page_id; [by apply (pi_page _ _ _ Hinv q p Hq Hw)|by destruct (frame_page e)].
Qed.

(** The pages of a space are in use. *)
Lemma footprint_used m a root p : user_ok m a root → footprint m root p → ¬ pa_isfree a p.
Proof.
  intros Ho [(q & Hq & Hw)|(va & e & Hs & ->)]; [by apply (pi_page _ _ _ (uo_tree _ _ _ Ho) q p Hq Hw)|by apply (uo_leaf _ _ _ Ho va)].
Qed.

Lemma walk_leaf_slot m a root va : pt_inv m a root → (walk_leaf m root va).1 = match slot m root va with Some (_, e) => e | None => 0 end.
Proof.
  intros Hinv. destruct (vpath_va va) as (V1 & V2 & V3). assert (vpath []) as V0 by (split; [cbn; lia|constructor]).
  pose proof (not_huge m a root [] root (idx_pml4 va) Hinv V0 ltac:(cbn; lia) eq_refl ltac:(apply idx_range)) as N0.
  unfold walk_leaf, slot. change ([idx_pml4 va; idx_pdpt va; idx_pd va]) with ((([] ++ [idx_pml4 va]) ++ [idx_pdpt va]) ++ [idx_pd va]).
  change ([idx_pml4 va; idx_pdpt va]) with (([] ++ [idx_pml4 va]) ++ [idx_pdpt va]).
  rewrite !walk_snoc. cbn [walk foldl mbind option_bind]. rewrite (enter_table _ _ _ N0).
  destruct (has (pte m root (idx_pml4 va)) PAGE_PRESENT) eqn:E1; [|done]. cbn [negb mbind option_bind].
  set (pdpt := Z.land (pte m root (idx_pml4 va)) PAGE_ADDR_MASK) in *.
  assert (walk m root [idx_pml4 va] = Some pdpt) as W1.
  { change [idx_pml4 va] with ([] ++ [idx_pml4 va]). rewrite walk_snoc. cbn. unfold enter. by rewrite E1, N0. }
  pose proof (not_huge m a root _ pdpt (idx_pdpt va) Hinv V1 ltac:(cbn; lia) W1 ltac:(apply idx_range)) as N1.
  rewrite (enter_table _ _ _ N1), N1. destruct (has (pte m pdpt (idx_pdpt va)) PAGE_PRESENT) eqn:E2; [|done].
  cbn [negb mbind option_bind]. set (pd := Z.land (pte m pdpt (idx_pdpt va)) PAGE_ADDR_MASK) in *. unfold enter.
  destruct (has (pte m pd (idx_pd va)) PAGE_PRESENT) eqn:E3; cbn [negb andb mbind option_bind]; [|done].
  destruct (has (pte m pd (idx_pd va)) PAGE_HUGE); cbn [negb]; [done|].
  set (pt := Z.land (pte m pd (idx_pd va)) PAGE_ADDR_MASK). by destruct (has (pte m pt (idx_pt va)) PAGE_PRESENT).
Qed.

Lemma slot_present m root va l e : slot m root va = Some (l, e) → has e PAGE_PRESENT = true.
Proof.
  unfold slot. destruct (walk m root [idx_pml4 va; idx_pdpt va; idx_pd va]) as [pt|]; cbv zeta.
  - destruct (has (pte m pt (idx_pt va)) PAGE_PRESENT) eqn:E; [|done]. by intros [= <- <-].
  - destruct (walk m root [idx_pml4 va; idx_pdpt va]) as [pd|]; cbn [mbind option_bind]; [|done].
    destruct (has (pte m pd (idx_pd va)) PAGE_PRESENT) eqn:E; [|done]. by intros [= <- <-].
Qed.

Lemma translate_user m a root va e : pt_inv m a root → slot m root va = Some (false, e) → paging_translate m root va = frame_of e + va mod 4096.
Proof. intros Hinv Hs. rewrite (translate_leaf _ _ _ _ Hinv). unfold leaf. by rewrite Hs. Qed.

Lemma mapped_translate e o : 0 ≤ o < 4096 → (frame_of e + o =? PAGING_NO_MAP) = false.
Proof. intros Ho. destruct (frame_page e). apply Z.eqb_neq. change PAGING_NO_MAP with (2 ^ 64 - 1). lia. Qed.

(** Addresses of one page have one entry. *)
Lemma slot_vpn m root va va' : vpn va = vpn va' → slot m root va = slot m root va'.
Proof.
  intros [Hl Hi]%vpn_idx. apply lpn_idx in Hl. unfold slot. rewrite Hl, Hi. by injection Hl as -> -> ->.
Qed.

(** *** Writing to user pages *)

Lemma vpn_user va : 0 ≤ va < USER_TOP → vpn va = va / 4096.
Proof. unfold USER_TOP, vpn. intros H. apply Z.mod_small. zlia. Qed.

(** Bytes that are not in a table may change. *)
Lemma pte_ext m m' t j : t mod 4096 = 0 → 0 ≤ j < 512 → (∀ x, page x = t → load8 m' x = load8 m x) → pte m' t j = pte m t j.
Proof. intros Ht Hj H. apply load_ext. intros b Hb. apply H. unfold page. zlia. Qed.

Lemma slots_ext m m' a root :
  pt_inv m a root → (∀ x, is_table m root (page x) → load8 m' x = load8 m x) →
  pt_inv m' a root ∧ (∀ q, vpath q → walk m' root q = walk m root q) ∧ ∀ va, slot m' root va = slot m root va.
Proof.
  intros Hinv H. destruct (data_write_inv m m' a root Hinv) as (H1 & H2 & H3 & _); [|done].
  intros t j Ht Hj. pose proof Ht as (q & Hq & Hw). apply pte_ext; [by apply (pi_page _ _ _ Hinv q t Hq Hw)|done|]. intros x <-. by apply H.
Qed.

Lemma is_table_walk m m' root t : (∀ q, vpath q → walk m' root q = walk m root q) → is_table m' root t ↔ is_table m root t.
Proof. intros H. split; intros (q & Hq & Hw); exists q; (split; [done|]); [by rewrite <-H|by rewrite H]. Qed.

Lemma footprint_same m m' root p :
  (∀ q, vpath q → walk m' root q = walk m root q) → (∀ va, slot m' root va = slot m root va) → footprint m' root p ↔ footprint m root p.
Proof. intros Hw Hs. unfold footprint. rewrite (is_table_walk m m' root p Hw). by setoid_rewrite Hs. Qed.

Lemma user_ok_data m m' a root :
  user_ok m a root → (∀ x, is_table m root (page x) → load8 m' x = load8 m x) →
  user_ok m' a root ∧ (∀ va, slot m' root va = slot m root va) ∧ ∀ p, footprint m' root p ↔ footprint m root p.
Proof.
  intros Ho H. destruct (slots_ext m m' a root (uo_tree _ _ _ Ho) H) as (Hinv & Hw & Hs). pose proof (λ t, is_table_walk m m' root t Hw) as Ht.
  split; [|split; [done|intros p; by apply footprint_same]]. destruct Ho as [_ O1 O2 O3 O4]. split; [done|..].
  - intros t. rewrite Ht. apply O1.
  - intros va e. rewrite Hs, Ht. apply O2.
  - intros va va' e e'. rewrite !Hs. apply O3.
  - intros va e. rewrite Hs. apply O4.
Qed.

(** The bytes [data] are at [dst] of the user's memory, and nothing else has changed. *)
Record written (m m' : mem) (root dst : Z) (data : list Z) : Prop := {
  wr_slot va : slot m' root va = slot m root va;
  wr_only x : load8 m' x = load8 m x ∨ ∃ va e, dst ≤ va < dst + zlen data ∧ slot m root va = Some (false, e) ∧ x = frame_of e + va mod 4096;
  wr_byte va : 0 ≤ va < USER_TOP → ubyte m' root va = if decide (dst ≤ va < dst + zlen data) then data !! Z.to_nat (va - dst) else ubyte m root va
}.

Lemma written_nil m root dst : written m m root dst [].
Proof. split; [done|by left|]. intros va _. change (zlen (@nil Z)) with 0. by rewrite decide_False by lia. Qed.

Lemma written_app m m1 m2 root dst d1 d2 : written m m1 root dst d1 → written m1 m2 root (dst + zlen d1) d2 → written m m2 root dst (d1 ++ d2).
Proof.
  intros [S1 O1 B1] [S2 O2 B2]. pose proof (zlen_nonneg d1). pose proof (zlen_nonneg d2). split.
  - intros va. by rewrite S2.
  - intros x. rewrite zlen_app. destruct (O2 x) as [->|(va & e & Hr & Hs & ->)]; [destruct (O1 x) as [->|(va & e & Hr & Hs & ->)]; [by left|]|]; right; exists va, e.
    + split; [lia|done].
    + rewrite <-S1. split; [lia|done].
  - intros va Hva. rewrite B2, B1 by done. rewrite zlen_app. repeat dec_if; try lia; try done.
    + rewrite lookup_app_r by (unfold zlen in *; lia). f_equal. unfold zlen in *. lia.
    + rewrite lookup_app_l; [done|]. unfold zlen in *. lia.
Qed.

(** One chunk. *)
Lemma write_chunk m a root cur e d :
  user_ok m a root → 0 ≤ cur → 0 < zlen d → cur + zlen d ≤ USER_TOP → cur mod 4096 + zlen d ≤ 4096 → slot m root cur = Some (false, e) →
  let m' := store_bytes m (frame_of e + cur mod 4096) d in written m m' root cur d ∧ user_ok m' a root.
Proof.
  intros Ho H0 Hd Ht Hp Hs. cbv zeta. set (m' := store_bytes _ _ _). pose proof (Z.mod_pos_bound cur 4096 ltac:(lia)) as Hm.
  destruct (frame_page e) as [Hfp Hfr].
  assert (∀ x, load8 m' x = if decide (frame_of e + cur mod 4096 ≤ x < frame_of e + cur mod 4096 + zlen d) then default 0 (d !! Z.to_nat (x - (frame_of e + cur mod 4096))) else load8 m x) as Hl
    by (intros x; apply load8_store_bytes).
  assert (∀ x, frame_of e + cur mod 4096 ≤ x < frame_of e + cur mod 4096 + zlen d → page x = frame_of e) as Hpg by (intros x Hx; unfold page; zlia).
  destruct (user_ok_data m m' a root Ho) as (Ho' & Hs' & _).
  { intros x Hx. rewrite Hl, decide_False; [done|]. intros Hr. rewrite (Hpg x Hr) in Hx. destruct (uo_leaf _ _ _ Ho cur e Hs) as (_ & Hn & _). done. }
  assert (∀ va, 0 ≤ va < USER_TOP → va / 4096 = cur / 4096 → slot m root va = Some (false, e)) as Hsame.
  { intros va Hva E. rewrite <-Hs. apply slot_vpn. rewrite !vpn_user by lia. done. }
  split; [|done]. split; [done|..].
  - intros x. rewrite Hl. dec_if as Hx; [|by left]. right. exists (cur + (x - (frame_of e + cur mod 4096))), e. split; [lia|]. split; [apply Hsame; zlia|]. zlia.
  - intros va Hva. unfold ubyte. rewrite Hs'. destruct (decide (cur ≤ va < cur + zlen d)) as [Hr|Hr].
    + rewrite (Hsame va Hva) by zlia. rewrite Hl, decide_True by zlia. replace (frame_of e + va mod 4096 - (frame_of e + cur mod 4096)) with (va - cur) by zlia.
      destruct (lookup_in d (va - cur)) as [b ->]; [lia|done].
    + destruct (slot m root va) as [[[] e']|] eqn:Es; [done| |done]. rewrite Hl, decide_False; [done|]. intros Hx. apply Hr.
      assert (frame_of e' = frame_of e) as Ef by (rewrite <-(page_frame e' va); by apply Hpg).
      pose proof (uo_inj _ _ _ Ho va cur e' e Es Hs Ef) as Hv. rewrite !vpn_user in Hv by lia. rewrite Ef in Hx. zlia.
Qed.

(** *** The copy loops *)

(** The pages that are left to copy. *)
Definition pages_left (dst size done : Z) : Z := if decide (done = size) then 0 else (dst + size - 1) / 4096 - (dst + done) / 4096 + 1.

Lemma page_chunk_spec cur rest : 0 ≤ cur → 0 < rest → page_chunk cur rest = Z.min rest (4096 - cur mod 4096).
Proof.
  intros H1 H2. unfold page_chunk. rewrite page_offset_spec. unfold PAGE_SIZE. destruct (Z.ltb_spec rest (4096 - cur mod 4096)); lia.
Qed.

Lemma pages_left_step dst size done : 0 ≤ dst → 0 ≤ done < size →
  let n := Z.min (size - done) (4096 - (dst + done) mod 4096) in
  0 < n ∧ done + n ≤ size ∧ (dst + done) mod 4096 + n ≤ 4096 ∧ 0 ≤ pages_left dst size (done + n) < pages_left dst size done.
Proof.
  intros H1 H2. cbv zeta. pose proof (Z.mod_pos_bound (dst + done) 4096 ltac:(lia)). split; [lia|]. split; [lia|]. split; [lia|].
  unfold pages_left. repeat dec_if; try lia; zlia.
Qed.

Lemma pages_left_fuel dst size : 0 ≤ dst → 0 ≤ size → 0 ≤ pages_left dst size 0 < Z.of_nat (copy_fuel size).
Proof. intros H1 H2. unfold pages_left, copy_fuel, PAGE_SIZE. dec_if; zlia. Qed.

Section Copy.
Context {H : Type} {KA : Kalloc H}.
Implicit Types s : us H.

Definition with_mem s (m : mem) : us H := mk_us m (us_pmm s) (us_heap s) (us_spaces s) (us_cr3 s) (us_kernel s).

(** All of the range is mapped by user pages. *)
Definition mapped (m : mem) (root addr size : Z) : Prop := ∀ va, addr ≤ va < addr + size → ∃ e, slot m root va = Some (false, e).

Lemma copy_to_spec s space root dst src soff size :
  us_spaces s !! space = Some root → space ≠ 0 → user_ok (us_mem s) (us_pmm s) root → 0 ≤ dst → 0 ≤ size → dst + size ≤ USER_TOP →
  0 ≤ soff → soff + size ≤ zlen src → mapped (us_mem s) root dst size →
  wp (user_copy_to_space space dst src soff size) s (λ r s', r = 0 ∧ ∃ m', s' = with_mem s m' ∧ written (us_mem s) m' root dst (zslice src soff size) ∧ user_ok m' (us_pmm s) root).
Proof.
  intros Hsp Hnz Ho Hd Hsz Ht Hso Hsl Hmap. unfold user_copy_to_space. destruct (Z.eqb_spec space 0) as [|_]; [done|].
  apply (wp_while (λ done s', 0 ≤ done ≤ size ∧ ∃ m', s' = with_mem s m' ∧ written (us_mem s) m' root dst (zslice src soff done) ∧ user_ok m' (us_pmm s) root) (pages_left dst size)).
  - intros done s' (Hdone & m & -> & Hw & Hok). unfold copy_to_step. destruct (Z.eqb_spec (size - done) 0) as [E|Hne].
    { apply wp_ret. replace size with done in * by lia. split; [done|]. by exists m. }
    destruct (pages_left_step dst size done) as (Hn & Hle & Hpg & Hmu); [done|lia|]. eapply wp_known; [unfold get_pml4; cbn [with_mem us_spaces]; by rewrite Hsp|].
    eapply wp_known; [done|]. cbn [with_mem us_mem]. rewrite u64_small by (unfold USER_TOP in *; lia).
    destruct (Hmap (dst + done)) as [e He]; [lia|]. rewrite <-(wr_slot _ _ _ _ _ Hw) in He. rewrite (translate_user _ _ _ _ _ (uo_tree _ _ _ Hok) He).
    rewrite mapped_translate by (apply Z.mod_pos_bound; lia). rewrite page_chunk_spec by lia. set (n := Z.min _ _) in *.
    assert (source src (soff + done) n = Ret (zslice src (soff + done) n)) as Hsrc.
    { unfold source. destruct (Z.leb_spec 0 (soff + done)), (Z.leb_spec (soff + done + n) (zlen src)); done || lia. }
    eapply wp_lift_bind; [exact Hsrc|]. assert (zlen (zslice src (soff + done) n) = n) as Hzl by (apply zlen_zslice; lia).
    destruct (write_chunk m (us_pmm s) root (dst + done) e (zslice src (soff + done) n) Hok) as [Hw2 Hok2]; [lia|lia|lia|lia|done|].
    eapply wp_known; [done|]. apply wp_ret. split; [|done]. split; [lia|]. eexists. split; [done|]. split; [|done].
    rewrite zslice_plus by lia. eapply written_app; [exact Hw|]. by rewrite zlen_zslice by lia.
  - split; [lia|]. exists (us_mem s). split; [by destruct s|]. split; [apply written_nil|done].
  - by apply pages_left_fuel.
Qed.

(** The bytes of the user from [addr] on. *)
Definition uslice (m : mem) (root addr n : Z) : list Z := (λ i, default 0 (ubyte m root (addr + i))) <$> seqZ 0 n.

Lemma zlen_uslice m root addr n : 0 ≤ n → zlen (uslice m root addr n) = n.
Proof. intros Hn. unfold uslice, zlen. rewrite length_fmap, length_seqZ. lia. Qed.

Lemma lookup_uslice m root addr n i : 0 ≤ i < n → uslice m root addr n !! Z.to_nat i = Some (default 0 (ubyte m root (addr + i))).
Proof. intros Hi. unfold uslice. rewrite list_lookup_fmap, lookup_seqZ_lt by lia. cbn. by rewrite Z2Nat.id, Z.add_0_l by lia. Qed.

Lemma uslice_plus m root addr n k : 0 ≤ n → 0 ≤ k → uslice m root addr (n + k) = uslice m root addr n ++ uslice m root (addr + n) k.
Proof.
  intros Hn Hk. unfold uslice. rewrite seqZ_app, fmap_app by done. f_equal. rewrite Z.add_0_l. replace (seqZ n k) with (Z.add n <$> seqZ 0 k) by (rewrite fmap_add_seqZ; f_equal; lia).
  rewrite <-list_fmap_compose. apply list_fmap_ext. intros i x _. cbn. by rewrite Z.add_assoc.
Qed.

(** The bytes of a chunk, at the frame. *)
Lemma load_chunk m root cur e n :
  0 ≤ cur → cur + n ≤ USER_TOP → cur mod 4096 + n ≤ 4096 → slot m root cur = Some (false, e) →
  load_bytes m (frame_of e + cur mod 4096) n = uslice m root cur n.
Proof.
  intros H0 Ht Hp Hs. unfold load_bytes, uslice. apply list_fmap_ext. intros k i [-> Hk]%lookup_seqZ. rewrite Z.add_0_l. unfold ubyte. set (i := Z.of_nat k). assert (0 ≤ i < n) by lia.
  assert (slot m root (cur + i) = Some (false, e)) as ->; [|cbn [from_option id]; f_equal; zlia].
  rewrite <-Hs. apply slot_vpn. rewrite !vpn_user by (unfold USER_TOP in *; lia). zlia.
Qed.

Lemma copy_from_spec s space root dst src size :
  us_spaces s !! space = Some root → space ≠ 0 → user_ok (us_mem s) (us_pmm s) root → 0 ≤ src → 0 ≤ size ≤ zlen dst → src + size ≤ USER_TOP →
  mapped (us_mem s) root src size →
  wp (user_copy_from_space space dst src size) s (λ r s', r = (0, zsplice dst 0 (uslice (us_mem s) root src size)) ∧ s' = s).
Proof.
  intros Hsp Hnz Ho Hd Hsz Ht Hmap. unfold user_copy_from_space. destruct (Z.eqb_spec space 0) as [|_]; [done|].
  apply (wp_while (λ l s', 0 ≤ l.1 ≤ size ∧ s' = s ∧ l.2 = zsplice dst 0 (uslice (us_mem s) root src l.1)) (λ l, pages_left src size l.1)).
  - intros [done d] s' (Hdone & -> & Hdd). cbn [fst snd] in *. subst d. unfold copy_from_step. destruct (Z.eqb_spec (size - done) 0) as [E|Hne].
    { apply wp_ret. by replace size with done in * by lia. }
    destruct (pages_left_step src size done) as (Hn & Hle & Hpg & Hmu); [done|lia|]. eapply wp_known; [unfold get_pml4; by rewrite Hsp|].
    eapply wp_known; [done|]. rewrite u64_small by (unfold USER_TOP in *; lia).
    destruct (Hmap (src + done)) as [e He]; [lia|]. rewrite (translate_user _ _ _ _ _ (uo_tree _ _ _ Ho) He).
    rewrite mapped_translate by (apply Z.mod_pos_bound; lia). rewrite page_chunk_spec by lia. set (n := Z.min _ _) in *.
    rewrite (load_chunk _ _ _ _ n) by (done || lia). pose proof (zlen_uslice (us_mem s) root src done ltac:(lia)) as L1. pose proof (zlen_uslice (us_mem s) root (src + done) n ltac:(lia)) as L2.
    eapply wp_lift_bind; [apply memcpy_from_spec; rewrite ?zlen_zsplice; lia|]. apply wp_ret. split; [|done]. cbn [fst snd]. split; [lia|]. split; [done|].
    rewrite zslice_all by done. rewrite uslice_plus by lia. rewrite <-L1 at 2. apply zsplice_plus. lia.
  - split; [cbn [fst]; lia|]. split; [done|]. cbn [fst snd]. unfold uslice, zsplice. cbn. by rewrite take_0, drop_0.
  - cbn [fst]. apply pages_left_fuel; lia.
Qed.

Lemma zero_spec s space root dst size :
  us_spaces s !! space = Some root → space ≠ 0 → user_ok (us_mem s) (us_pmm s) root → 0 ≤ dst → 0 ≤ size → dst + size ≤ USER_TOP →
  mapped (us_mem s) root dst size →
  wp (user_zero_in_space space dst size) s (λ r s', r = 0 ∧ ∃ m', s' = with_mem s m' ∧ written (us_mem s) m' root dst (replicate (Z.to_nat size) 0) ∧ user_ok m' (us_pmm s) root).
Proof.
  intros Hsp Hnz Ho Hd Hsz Ht Hmap. unfold user_zero_in_space. destruct (Z.eqb_spec space 0) as [|_]; [done|].
  apply (wp_while (λ done s', 0 ≤ done ≤ size ∧ ∃ m', s' = with_mem s m' ∧ written (us_mem s) m' root dst (replicate (Z.to_nat done) 0) ∧ user_ok m' (us_pmm s) root) (pages_left dst size)).
  - intros done s' (Hdone & m & -> & Hw & Hok). unfold zero_step. destruct (Z.eqb_spec (size - done) 0) as [E|Hne].
    { apply wp_ret. replace size with done in * by lia. split; [done|]. by exists m. }
    destruct (pages_left_step dst size done) as (Hn & Hle & Hpg & Hmu); [done|lia|]. eapply wp_known; [unfold get_pml4; cbn [with_mem us_spaces]; by rewrite Hsp|].
    eapply wp_known; [done|]. cbn [with_mem us_mem]. rewrite u64_small by (unfold USER_TOP in *; lia).
    destruct (Hmap (dst + done)) as [e He]; [lia|]. rewrite <-(wr_slot _ _ _ _ _ Hw) in He. rewrite (translate_user _ _ _ _ _ (uo_tree _ _ _ Hok) He).
    rewrite mapped_translate by (apply Z.mod_pos_bound; lia). rewrite page_chunk_spec by lia. set (n := Z.min _ _) in *.
    assert (zlen (replicate (Z.to_nat n) 0) = n) as Hzl by (rewrite zlen_replicate; lia).
    destruct (write_chunk m (us_pmm s) root (dst + done) e (replicate (Z.to_nat n) 0) Hok) as [Hw2 Hok2]; [lia|lia|lia|lia|done|].
    eapply wp_known; [done|]. apply wp_ret. split; [|done]. split; [lia|]. eexists. split; [done|]. split; [|done].
    rewrite Z2Nat.inj_add, replicate_add by lia. eapply written_app; [exact Hw|]. by rewrite zlen_replicate, Z2Nat.id by lia.
  - split; [lia|]. exists (us_mem s). split; [by destruct s|]. split; [apply written_nil|done].
  - by apply pages_left_fuel.
Qed.

(** *** What [user_range_is_valid] accepts *)

(** User code may read the range, and write it when [w]. *)
Definition accessible (m : mem) (root addr n : Z) (w : bool) : Prop :=
  addr + n ≤ USER_TOP ∧ ∀ va, addr ≤ va < addr + n → ∃ e, slot m root va = Some (false, e) ∧ (w = true → has e PAGE_WRITABLE = true).

Lemma accessible_mapped m root addr n w : accessible m root addr n w → mapped m root addr n.
Proof. intros [_ Ha] va Hva. destruct (Ha va Hva) as (e & He & _). by exists e. Qed.

(** The test of one page. *)
Lemma valid_page m a root va w : user_ok m a root →
  let e := (walk_leaf m root va).1 in
  negb (has e PAGE_PRESENT) || negb (has e PAGE_USER) = false ∧ w && negb (has e PAGE_WRITABLE) = false ↔
  ∃ e, slot m root va = Some (false, e) ∧ (w = true → has e PAGE_WRITABLE = true).
Proof.
  intros Ho. cbv zeta. rewrite (walk_leaf_slot m a root va (uo_tree _ _ _ Ho)). destruct (slot m root va) as [[[] e]|] eqn:Es.
  - rewrite (uo_large _ _ _ Ho va e Es), orb_true_r. split; [by intros [? _]|by intros (? & ? & _)].
  - rewrite (slot_present _ _ _ _ _ Es). destruct (uo_leaf _ _ _ Ho va e Es) as (-> & _). cbn. split.
    + intros [_ Hw]. exists e. split; [done|]. intros ->. by destruct (has e PAGE_WRITABLE).
    + intros (e' & [= <-] & Hw). split; [done|]. destruct w; [by rewrite Hw|done].
  - split; [by intros [? _]|by intros (? & ? & _)].
Qed.

Lemma valid_loop m a root first n w : user_ok m a root → 0 ≤ n →
  ∃ r, find_range 0 n (valid_body m root first w) tt = Ret r ∧
    (match r with inl _ => true | inr _ => false end = true ↔ ∀ i, 0 ≤ i < n → ∃ e, slot m root (first + i * 4096) = Some (false, e) ∧ (w = true → has e PAGE_WRITABLE = true)).
Proof.
  intros Ho Hn. destruct (find_range_inv (λ i _, ∀ j, 0 ≤ j < i → ∃ e, slot m root (first + j * 4096) = Some (false, e) ∧ (w = true → has e PAGE_WRITABLE = true))
    (λ _, ¬ ∀ i, 0 ≤ i < n → ∃ e, slot m root (first + i * 4096) = Some (false, e) ∧ (w = true → has e PAGE_WRITABLE = true)) (valid_body m root first w) 0 n tt Hn) as [([] & -> & HI)|(r & -> & HQ)].
  - intros i [] Hi HI. unfold valid_body. pose proof (valid_page m a root (first + i * PAGE_SIZE) w Ho) as Hv. cbv zeta in Hv. change PAGE_SIZE with 4096 in *.
    set (e := (walk_leaf m root (first + i * 4096)).1) in *.
    destruct (negb (has e PAGE_PRESENT) || negb (has e PAGE_USER)) eqn:E1; [|destruct (w && negb (has e PAGE_WRITABLE)) eqn:E2].
    + right. exists tt. split; [done|]. intros Hall. by apply Hv in Hall as [? _].
    + right. exists tt. split; [done|]. intros Hall. by apply Hv in Hall as [_ ?].
    + left. exists tt. split; [done|]. intros j Hj. destruct (decide (j = i)) as [->|]; [by apply Hv|apply HI; lia].
  - lia.
  - exists (inl tt). split; [done|]. split; [done|done].
  - exists (inr r). split; [done|]. split; [done|]. intros Hall. by destruct HQ.
Qed.

Lemma valid_spec s space root addr n w :
  us_spaces s !! space = Some root → space ≠ 0 → user_ok (us_mem s) (us_pmm s) root → is_u64 addr → 0 < n < 2 ^ 64 →
  ∃ b : bool, user_range_is_valid space addr n w s = Ret (s, b) ∧ (b = true ↔ accessible (us_mem s) root addr n w).
Proof.
  intros Hsp Hnz Ho Ha Hn. unfold is_u64 in Ha. unfold user_range_is_valid. destruct (Z.eqb_spec space 0) as [|_]; [done|]. destruct (Z.eqb_spec n 0) as [|_]; [lia|].
  pose proof (u64_add addr n ltac:(done) ltac:(unfold is_u64; lia)) as Eu.
  cbv zeta. destruct ((u64 (addr + n) <=? addr) || (USER_TOP <? u64 (addr + n))) eqn:E.
  { exists false. split; [done|]. split; [done|]. intros [Ht _]. unfold USER_TOP in *. rewrite Eu, decide_True in E by lia.
    apply orb_prop in E as [E%Z.leb_le|E%Z.ltb_lt]; lia. }
  apply orb_false_iff in E as [E1%Z.leb_gt E2%Z.ltb_ge]. rewrite Eu in *. destruct (decide (addr + n < 2 ^ 64)) as [Hlt|]; [|lia]. clear Eu.
  destruct (valid_loop (us_mem s) (us_pmm s) root (PAGE_ALIGN_DOWN addr) (span_pages (PAGE_ALIGN_DOWN addr) (addr + n)) w Ho) as (r & Er & Hr).
  { rewrite page_align_down_spec by (unfold is_u64; lia). unfold span_pages. change PAGE_MASK with 4095. change PAGE_SIZE with 4096. zlia. }
  exists (match r with inl _ => true | inr _ => false end). split.
  { unfold get_pml4, mbind, stM_bind. cbn. rewrite Hsp. cbn. unfold lift. rewrite Er. done. }
  rewrite Hr. rewrite page_align_down_spec by (unfold is_u64; lia). unfold span_pages. change PAGE_MASK with 4095. change PAGE_SIZE with 4096. unfold accessible. split.
  - intros Hall. split; [done|]. intros va Hva. destruct (Hall (va / 4096 - addr / 4096)) as (e & He & Hw); [zlia|]. exists e. split; [|done]. rewrite <-He.
    apply slot_vpn. rewrite !vpn_user by (unfold USER_TOP in *; zlia). zlia.
  - intros [_ Hall] i Hi. destruct (Hall (Z.max addr (addr - addr mod 4096 + i * 4096))) as (e & He & Hw); [zlia|]. exists e. split; [|done]. rewrite <-He.
    apply slot_vpn. rewrite !vpn_user by (unfold USER_TOP in *; zlia). zlia.
Qed.

(** *** The copies of [user_copy.c] *)

Lemma copy_to_user_spec s space root udst src n :
  us_spaces s !! space = Some root → space ≠ 0 → user_ok (us_mem s) (us_pmm s) root → is_u64 udst → 0 < n ≤ zlen src → n < 2 ^ 64 →
  wp (user_copy_to_user space udst src n) s (λ r s',
    (accessible (us_mem s) root udst n true ∧ r = 0 ∧ ∃ m', s' = with_mem s m' ∧ written (us_mem s) m' root udst (take (Z.to_nat n) src) ∧ user_ok m' (us_pmm s) root) ∨
    (¬ accessible (us_mem s) root udst n true ∧ r = - SYS_EFAULT ∧ s' = s)).
Proof.
  intros Hsp Hnz Ho Hu Hn Hn2. unfold user_copy_to_user. destruct (Z.eqb_spec n 0) as [|_]; [lia|]. destruct (Z.eqb_spec space 0) as [|_]; [done|].
  eapply wp_known; [done|]. set (s1 := mk_us _ _ _ _ _ _). destruct (valid_spec s1 space root udst n true) as (b & Eb & Hb); [done|done|done|done|lia|].
  eapply wp_known; [exact Eb|]. destruct b.
  - assert (accessible (us_mem s) root udst n true) as Hacc by (by apply Hb). eapply wp_step; [apply (copy_to_spec s1 space root); try done; try lia; [unfold is_u64 in *; lia|apply Hacc|by eapply accessible_mapped]|].
    intros r s' (-> & m' & -> & Hw & Hok). eapply wp_known; [done|]. apply wp_ret. left. split; [done|]. split; [done|]. exists m'. split; [done|].
    unfold zslice in Hw. by rewrite drop_0 in Hw.
  - eapply wp_known; [done|]. eapply wp_known; [done|]. apply wp_ret. right. split; [by intros Hc%Hb|]. split; [done|]. by destruct s.
Qed.

Lemma copy_from_user_spec s space root dst usrc n :
  us_spaces s !! space = Some root → space ≠ 0 → user_ok (us_mem s) (us_pmm s) root → is_u64 usrc → 0 < n ≤ zlen dst → n < 2 ^ 64 →
  wp (user_copy_from_user space dst usrc n) s (λ r s',
    s' = s ∧ ((accessible (us_mem s) root usrc n false ∧ r = (0, zsplice dst 0 (uslice (us_mem s) root usrc n))) ∨
              (¬ accessible (us_mem s) root usrc n false ∧ r = (- SYS_EFAULT, dst)))).
Proof.
  intros Hsp Hnz Ho Hu Hn Hn2. unfold user_copy_from_user. destruct (Z.eqb_spec n 0) as [|_]; [lia|]. destruct (Z.eqb_spec space 0) as [|_]; [done|].
  eapply wp_known; [done|]. set (s1 := mk_us _ _ _ _ _ _). destruct (valid_spec s1 space root usrc n false) as (b & Eb & Hb); [done|done|done|done|lia|].
  eapply wp_known; [exact Eb|]. destruct b.
  - assert (accessible (us_mem s) root usrc n false) as Hacc by (by apply Hb). eapply wp_step; [apply (copy_from_spec s1 space root); try done; try lia; [unfold is_u64 in *; lia|apply Hacc|by eapply accessible_mapped]|].
    intros r s' (-> & ->). eapply wp_known; [done|]. apply wp_ret. split; [by destruct s|]. by left.
  - eapply wp_known; [done|]. eapply wp_known; [done|]. apply wp_ret. split; [by destruct s|]. right. split; [by intros Hc%Hb|done].
Qed.

(** A NUL terminated string of the user. *)
Definition ustring (m : mem) (root addr : Z) (t : list Z) : Prop :=
  accessible m root addr (zlen t + 1) false ∧ uslice m root addr (zlen t + 1) = t ++ [0] ∧ 0 ∉ t.

Lemma ustring_unique m root addr t t' : ustring m root addr t → ustring m root addr t' → t = t'.
Proof.
  assert (∀ t t', ustring m root addr t → ustring m root addr t' → zlen t ≤ zlen t') as Hle.
  { intros t1 t2 (_ & H1 & N1) (_ & H2 & _). destruct (decide (zlen t1 ≤ zlen t2)); [done|]. exfalso. apply N1. pose proof (zlen_nonneg t2).
    assert (t1 = uslice m root addr (zlen t1)) as ->.
    { rewrite uslice_plus in H1 by lia. apply app_inj_tail in H1. symmetry. apply H1. }
    replace (zlen t1) with ((zlen t2 + 1) + (zlen t1 - (zlen t2 + 1))) by lia. rewrite uslice_plus, H2 by lia. set_solver. }
  intros H1 H2. assert (zlen t = zlen t') as E by (apply Z.le_antisymm; by apply Hle). destruct H1 as (_ & H1 & _), H2 as (_ & H2 & _).
  rewrite E, H2 in H1. by apply app_inj_tail in H1 as [-> _].
Qed.

(** The loop that looks for the NUL. *)
Lemma measure_spec s space root usrc maxlen :
  us_spaces s !! space = Some root → space ≠ 0 → user_ok (us_mem s) (us_pmm s) root → is_u64 usrc → 0 < maxlen < 2 ^ 64 →
  wp (while (Z.to_nat maxlen + 1) (measure_step space usrc maxlen) 0) s (λ r s', s' = s ∧
    match r with
    | Some len => ∃ t, ustring (us_mem s) root usrc t ∧ len = zlen t + 1 ∧ len ≤ maxlen
    | None => ∀ t, ustring (us_mem s) root usrc t → maxlen < zlen t + 1
    end).
Proof.
  intros Hsp Hnz Ho Hu Hm. unfold is_u64 in Hu.
  apply (wp_while (λ len s', s' = s ∧ 0 ≤ len ≤ maxlen ∧ (0 < len → accessible (us_mem s) root usrc len false) ∧ 0 ∉ uslice (us_mem s) root usrc len) (λ len, maxlen - len)).
  2: { split; [done|]. split; [lia|]. split; [lia|]. cbn. set_solver. }
  2: { lia. }
  intros len s' (-> & Hlen & Hacc & Hnz0). unfold measure_step.
  assert (∀ t, ustring (us_mem s) root usrc t → len ≤ zlen t) as Hlong.
  { intros t (_ & Ht & _). destruct (decide (len ≤ zlen t)); [done|]. exfalso. apply Hnz0. pose proof (zlen_nonneg t).
    replace len with ((zlen t + 1) + (len - (zlen t + 1))) by lia. rewrite uslice_plus by lia. rewrite Ht. set_solver. }
  destruct (Z.ltb_spec len maxlen) as [Hlt|]; [|apply wp_ret; split; [done|]; intros t Ht%Hlong; lia].
  assert (u64 (usrc + len) = usrc + len) as ->.
  { destruct (decide (len = 0)) as [->|]; [rewrite u64_small; lia|]. destruct (Hacc ltac:(lia)) as [Ht _]. unfold USER_TOP in Ht. rewrite u64_small; lia. }
  assert (is_u64 (usrc + len)) as Hul.
  { unfold is_u64. destruct (decide (len = 0)) as [->|]; [lia|]. destruct (Hacc ltac:(lia)) as [Ht _]. unfold USER_TOP in Ht. lia. }
  destruct (valid_spec s space root (usrc + len) 1 false Hsp Hnz Ho Hul ltac:(lia)) as (b & Eb & Hb). eapply wp_known; [exact Eb|]. destruct b; cbn [negb].
  2: { apply wp_ret. split; [done|]. intros t Ht. pose proof (Hlong t Ht) as Hle. destruct Ht as ([Htop Hall] & _). exfalso. enough (false = true) by done. apply Hb.
       split; [lia|]. intros va Hva. apply Hall. lia. }
  destruct Hb as [Hb _]. destruct (Hb eq_refl) as [Htop Hbyte]. destruct (Hbyte (usrc + len)) as (e & He & _); [lia|].
  assert (uslice (us_mem s) root usrc (len + 1) = uslice (us_mem s) root usrc len ++ [load8 (us_mem s) (frame_of e + (usrc + len) mod 4096)]) as Esl.
  { rewrite uslice_plus by lia. f_equal. unfold uslice. change (seqZ 0 1) with [0]. cbn [fmap list_fmap]. rewrite Z.add_0_r. unfold ubyte. by rewrite He. }
  assert (accessible (us_mem s) root usrc (len + 1) false) as Hacc1.
  { split; [lia|]. intros va Hva. destruct (decide (va = usrc + len)) as [->|]; [by exists e|]. apply (Hacc ltac:(lia)). lia. }
  unfold user_address_space_cr3. destruct (Z.eqb_spec space 0) as [|_]; [done|]. eapply wp_known; [unfold get_pml4; by rewrite Hsp|]. eapply wp_known; [done|].
  rewrite (translate_user _ _ _ _ _ (uo_tree _ _ _ Ho) He), mapped_translate by (apply Z.mod_pos_bound; lia).
  pose proof (zlen_uslice (us_mem s) root usrc len ltac:(lia)) as Ezl. destruct (Z.eqb_spec (load8 (us_mem s) (frame_of e + (usrc + len) mod 4096)) 0) as [E0|Hne].
  - apply wp_ret. split; [done|]. exists (uslice (us_mem s) root usrc len). unfold ustring. rewrite Ezl. rewrite E0 in Esl. done || (split; [done|lia]).
  - apply wp_ret. split; [|lia]. split; [done|]. split; [lia|]. split; [done|]. rewrite Esl. set_solver.
Qed.

(** The string is copied when it is there, with its NUL in [maxlen] bytes, and there is memory for it. *)
Lemma copy_string_spec s kmem space root usrc maxlen :
  us_spaces s !! space = Some root → space ≠ 0 → user_ok (us_mem s) (us_pmm s) root → is_u64 usrc → 0 < maxlen < 2 ^ 64 →
  (∀ n b, kmem n = Some b → zlen b = n) →
  wp (user_copy_string_from_user kmem space usrc maxlen) s (λ r s', s' = s ∧
    match r with
    | Some b => ∃ t, ustring (us_mem s) root usrc t ∧ b = t ++ [0] ∧ zlen t < maxlen
    | None => ∀ t, ustring (us_mem s) root usrc t → zlen t < maxlen → kmem (zlen t + 1) = None
    end).
Proof.
  intros Hsp Hnz Ho Hu Hm Hk. unfold user_copy_string_from_user. destruct (Z.eqb_spec space 0) as [|_]; [done|]. destruct (Z.eqb_spec maxlen 0) as [|_]; [lia|]. cbn [orb].
  eapply wp_known; [done|]. set (s1 := mk_us _ _ _ _ _ _). eapply wp_step; [by apply (measure_spec s1 space root)|].
  assert (∀ s', s' = s1 → mk_us (us_mem s') (us_pmm s') (us_heap s') (us_spaces s') (us_cr3 s) (us_kernel s') = s) as Hback by (intros ? ->; by destruct s).
  intros [len|] s' [-> Hr].
  2: { eapply wp_known; [done|]. eapply wp_known; [done|]. apply wp_ret. split; [by apply Hback|]. intros t Ht%Hr. lia. }
  destruct Hr as (t & Ht & -> & Hle). pose proof (zlen_nonneg t). destruct (kmem (zlen t + 1)) as [buf|] eqn:Ek.
  2: { eapply wp_known; [done|]. eapply wp_known; [done|]. apply wp_ret. split; [by apply Hback|]. intros t' Ht' _. by rewrite <-(ustring_unique _ _ _ _ _ Ht Ht'). }
  apply Hk in Ek. eapply (wp_step _ _ _ (λ r s', r = Some (zsplice buf 0 (uslice (us_mem s1) root usrc (zlen t + 1))) ∧ s' = s1)).
  { eapply wp_step; [apply (copy_from_spec s1 space root); try done; try lia; [unfold is_u64 in Hu; lia|apply Ht|eapply accessible_mapped; apply Ht]|]. intros r s' (-> & ->). by apply wp_ret. }
  intros r s' [Er ->]. eapply wp_known; [done|]. apply wp_ret. split; [by apply Hback|]. rewrite Er. exists t. split; [done|]. split; [|lia].
  rewrite zsplice_all; [by apply Ht|]. rewrite zlen_uslice; lia.
Qed.

End Copy.
