(* ===== verification/UspaceMap.v ===== *)
(** The functions that change an address space: what [user_map_range], [user_unmap_range] and [user_address_space_destroy] of
    [Uspace] do to the user's memory, to the page allocator and to the rest of physical memory. *)

From stdpp Require Import gmap.
From S2P Require Import Prelude Kmath CString Layout Pmm Memory Paging Vmm StateM Heap Kalloc Uspace UspaceSpec.

(** ** Freeing a page *)

Lemma free_page_spec (a : pmm) p :
  pa_ok a → p mod 4096 = 0 → ¬ pa_isfree a p → pa_managed (pa_geometry a) p →
  ∃ a', pmm_free_page a p = Ret a' ∧ pa_ok a' ∧ pa_geometry a' = pa_geometry a ∧ pa_nfree a' = pa_nfree a + 1 ∧
    ∀ q, pa_isfree a' q ↔ pa_isfree a q ∨ page q = p.
Proof.
  intros [Hwf Ht] Hm Hf Hman. pose proof Hwf as [Hb Hl]. pose proof Hman as Hman'. cbn [pa_managed pa_geometry pmm_laws fst] in Hman'.
  destruct (free_managed a p Hwf Hm ltac:(clear -Ht Hm Hman'; zlia) Hf Hman) as (a' & E & Hmk). exists a'. split; [done|].
  pose proof (marked_total _ _ _ _ _ Hmk) as Htot. pose proof (mk_used _ _ _ _ _ Hmk) as Hu.
  assert (used (g_bitmap a) (p / 4096) = true) as Hup by (destruct (used (g_bitmap a) (p / 4096)) eqn:Eu; [done|by destruct Hf]).
  cbn [pa_ok pa_geometry pa_nfree pa_isfree pmm_laws]. rewrite Htot. split; [split; [split|lia]|split; [|split]].
  - apply Hmk.
  - intros q Hq Hqt. rewrite Hu, decide_False by lia. apply Hl; [done|lia].
  - by rewrite (mk_rest _ _ _ _ _ Hmk).
  - rewrite (pb_free _ (mk_bits _ _ _ _ _ Hmk)), (pb_free _ Hb), Htot. rewrite (nfree_change (g_bitmap a) (g_bitmap a') _ (p / 4096) false); [rewrite Hup; cbn; lia|lia|].
    intros q Hq. rewrite Hu by done. repeat dec_if; done || lia.
  - intros q. unfold page. destruct (decide (256 ≤ q / 4096 < g_total_pages a)) as [Hq|Hq].
    + rewrite Hu by lia. dec_if as Hr; [|naive_solver zlia]. split; [intros _; right; clear -Hr Hm; zlia|]. by intros _.
    + split; [tauto|]. intros [?|<-]; [tauto|]. exfalso. apply Hq. clear -Hman'. zlia.
Qed.

(** A page that is not part of the space may be freed. *)
Lemma user_ok_free m (a a' : pmm) root p :
  user_ok m a root → ¬ footprint m root p → pa_ok a' → pa_geometry a' = pa_geometry a → (∀ q, pa_isfree a' q ↔ pa_isfree a q ∨ page q = p) → user_ok m a' root.
Proof.
  intros Ho Hp Hok Hg Hf. pose proof (uo_tree _ _ _ Ho) as Hinv.
  assert (∀ q, footprint m root q → ¬ pa_isfree a' q) as Hused.
  { intros q Hq [Hc|Hc]%Hf; [by apply (footprint_used _ _ _ _ Ho Hq)|]. rewrite (footprint_page _ _ _ _ Hinv Hq) in Hc. by subst q. }
  split.
  - constructor; [done| |apply Hinv|apply Hinv]. intros q t Hq Hw. destruct (pi_page _ _ _ Hinv q t Hq Hw) as (? & ? & _). split; [done|]. split; [done|].
    apply Hused. left. by exists q.
  - rewrite Hg. apply Ho.
  - intros va e Hs. rewrite Hg. destruct (uo_leaf _ _ _ Ho va e Hs) as (? & ? & _ & ?). split; [done|]. split; [done|]. split; [|done]. apply Hused. right. by exists va, e.
  - apply Ho.
  - apply Ho.
Qed.

(** ** Mapping pages *)

Definition user_flags (flags : Z) : Z := Z.lor (Z.lor (Z.land flags PAGE_WRITABLE) PAGE_USER) PAGE_PRESENT.

Lemma user_flags_entry pa flags : pa mod 4096 = 0 → 0 ≤ pa < 2 ^ 52 →
  is_u64 (user_flags flags) ∧ Z.land (user_flags flags) PAGE_ADDR_MASK = 0 ∧ frame_of (leaf_entry pa (user_flags flags)) = pa ∧
  has (leaf_entry pa (user_flags flags)) PAGE_USER = true ∧ has (leaf_entry pa (user_flags flags)) PAGE_WRITABLE = has flags PAGE_WRITABLE.
Proof.
  intros Hm Hp.
  assert (is_u64 (user_flags flags)) as Hu.
  { apply lor_u_range; [done| |done]. apply lor_u_range; [done| |done]. rewrite Z.land_comm. by apply land_u_range. }
  assert (Z.land (user_flags flags) PAGE_ADDR_MASK = 0) as Hf.
  { unfold user_flags. rewrite !Z.land_lor_distr_l, <-Z.land_assoc. change (Z.land PAGE_WRITABLE PAGE_ADDR_MASK) with 0. by rewrite Z.land_0_r. }
  split; [done|]. split; [done|]. split; [|split].
  - unfold frame_of, leaf_entry. rewrite (proj2 (proj2 (flags_entry pa (user_flags flags) Hu Hf))). by apply mask_id.
  - change PAGE_USER with (Z.shiftl 1 2). rewrite has_bit by lia. unfold leaf_entry, user_flags. repeat rewrite ?Z.lor_spec, ?Z.land_spec.
    change (Z.testbit PAGE_USER 2) with true. change (Z.testbit (not64 PAGE_HUGE) 2) with true. by rewrite !orb_true_r.
  - change PAGE_WRITABLE with (Z.shiftl 1 1). rewrite !has_bit by lia. unfold leaf_entry, user_flags. rewrite mask_id by done. repeat rewrite ?Z.lor_spec, ?Z.land_spec.
    assert (Z.testbit pa 1 = false) as ->. { rewrite <-(mask_id pa) by done. by rewrite Z.land_spec, andb_false_r. }
    change (Z.testbit PAGE_USER 1) with false. change (Z.testbit (not64 PAGE_HUGE) 1) with true. change (Z.testbit PAGE_WRITABLE 1) with true. change (Z.testbit PAGE_PRESENT 1) with false.
    by rewrite ?orb_false_r, ?orb_false_l, ?andb_true_r, ?orb_false_r.
Qed.

Lemma aligned_has va : va mod 4096 = 0 → has va PAGE_MASK = false.
Proof. intros E. change PAGE_MASK with (2 ^ 12 - 1). rewrite has_mask by lia. change (2 ^ 12) with 4096. by rewrite E. Qed.

(** The user's memory with the pages [lo .. hi) fresh. *)
Record extended (m m' : mem) (root lo hi : Z) (flags : Z) : Prop := {
  ex_slot va : 0 ≤ va < USER_TOP → ¬ lo ≤ va / 4096 < hi → slot m' root va = slot m root va;
  ex_byte va : 0 ≤ va < USER_TOP → ¬ lo ≤ va / 4096 < hi → ubyte m' root va = ubyte m root va;
  ex_new va : 0 ≤ va < USER_TOP → lo ≤ va / 4096 < hi →
    ubyte m' root va = Some 0 ∧ ∃ e, slot m' root va = Some (false, e) ∧ has e PAGE_WRITABLE = has flags PAGE_WRITABLE
}.

(** A page of the allocator, filled with zeros. *)
Record fresh_frame (m : mem) (a : pmm) (m1 : mem) (a1 : pmm) (root pa : Z) : Prop := {
  ff_ok : user_ok m1 a1 root;
  ff_slot va : slot m1 root va = slot m root va;
  ff_page : pa mod 4096 = 0 ∧ 0 < pa < 2 ^ 52;
  ff_free : pa_isfree a pa ∧ ¬ pa_isfree a1 pa;
  ff_foot p : footprint m1 root p ↔ footprint m root p;
  ff_mono q : pa_isfree a1 q → pa_isfree a q;
  ff_geometry : pa_geometry a1 = pa_geometry a;
  ff_count : pa_nfree a1 = pa_nfree a - 1;
  ff_zero o : 0 ≤ o < 4096 → load8 m1 (pa + o) = 0;
  ff_byte x : page x ≠ pa → load8 m1 x = load8 m x
}.

Lemma user_ok_alloc m (a a1 : pmm) root :
  user_ok m a root → pa_ok a1 → pa_geometry a1 = pa_geometry a → (∀ q, pa_isfree a1 q → pa_isfree a q) → user_ok m a1 root.
Proof.
  intros [O0 O1 O2 O3 O4] Hok Hg Hmono. split; [by apply (pt_inv_alloc _ a)|by rewrite Hg| |done|done].
  intros va e Hs. rewrite Hg. destruct (O2 va e Hs) as (? & ? & ? & ?). split_and!; auto.
Qed.

Lemma alloc_zero m (a : pmm) root :
  user_ok m a root →
  (pa_nfree a = 0 ∧ pmm_alloc_page a = Ret (a, 0)) ∨
  ∃ a1 pa, pmm_alloc_page a = Ret (a1, pa) ∧ fresh_frame m a (store_bytes m pa zero_page) a1 root pa.
Proof.
  intros Ho. destruct (pa_alloc a (pi_alloc _ _ _ (uo_tree _ _ _ Ho))) as [?|(a1 & pa & E & Hok & Hc & Hm & Hr & Hman & Hf & Hnf & Hg & Hmono)]; [by left|right].
  exists a1, pa. split; [exact E|]. pose proof (user_ok_alloc m a a1 root Ho Hok Hg Hmono) as Ho1. set (m1 := store_bytes m pa zero_page).
  assert (∀ x, load8 m1 x = if decide (page x = pa) then 0 else load8 m x) as Hl.
  { intros x. unfold m1. rewrite load8_store_bytes. unfold zero_page. rewrite zlen_replicate. change (Z.of_nat (Z.to_nat PAGE_SIZE)) with 4096.
    assert (pa ≤ x < pa + 4096 ↔ page x = pa) as Hiff by (unfold page; zlia). destruct (decide (page x = pa)) as [Hx|Hx].
    - rewrite decide_True by (by apply Hiff). rewrite lookup_replicate_2; [done|]. apply Hiff in Hx. change PAGE_SIZE with 4096. lia.
    - by rewrite decide_False by (by rewrite Hiff). }
  destruct (user_ok_data m m1 a1 root Ho1) as (Ho2 & Hs & Hfp).
  { intros x Hx. rewrite Hl, decide_False; [done|]. intros Ex. rewrite Ex in Hx. apply (footprint_used _ _ _ _ Ho (or_introl Hx)), Hf. }
  clearbody m1. split; try done.
  - intros o Hoo. rewrite Hl, decide_True; [done|]. by apply page_add.
  - intros x Hx. by rewrite Hl, decide_False.
Qed.

(** The tables grow by free pages, and at most the page of [va] gets a new entry, with a frame that is not in the space. *)
Lemma grow_ok k m (a : pmm) m' (a' : pmm) root (P : Z → Prop) e0 :
  user_ok m a root → grows k m a m' a' root → pt_inv m' a' root →
  (∀ va, (P va ∧ slot m' root va = Some (false, e0)) ∨ (¬ P va ∧ slot m' root va = slot m root va)) → (∀ va va', P va → P va' → vpn va = vpn va') →
  (∀ va, P va → has e0 PAGE_USER = true ∧ ¬ pa_isfree a (frame_of e0) ∧ ¬ footprint m root (frame_of e0) ∧ pa_managed (pa_geometry a) (frame_of e0)) →
  user_ok m' a' root.
Proof.
  intros Ho (_ & Hf & Hg & Ht & _) Hinv Hs HP He.
  assert (∀ va e, slot m root va = Some (false, e) → footprint m root (frame_of e)) as Hfoot by (intros va e Hv; right; by exists va, e).
  split; [done|..].
  - intros t [Hx|Hx]%Ht; rewrite Hg; [by apply Ho|by apply free_is_managed].
  - intros va e Hv. rewrite Hg. destruct (Hs va) as [[Hp E]|[Hp E]]; rewrite E in Hv.
    + injection Hv as <-. destruct (He va Hp) as (? & ? & Hnf & ?). split; [done|]. split; [|split; [auto|done]]. intros [Hx|Hx]%Ht; [|done]. apply Hnf. by left.
    + destruct (uo_leaf _ _ _ Ho va e Hv) as (? & ? & ? & ?). split; [done|]. split; [|split; [auto|done]]. intros [|]%Ht; done.
  - intros va va' e e' Hv Hv' Ef. destruct (Hs va) as [[Hp E]|[Hp E]], (Hs va') as [[Hp' E']|[Hp' E']]; rewrite E in Hv; rewrite E' in Hv'.
    + by apply HP.
    + injection Hv as <-. destruct (He va Hp) as (_ & _ & Hnf & _). destruct Hnf. rewrite Ef. by eapply Hfoot.
    + injection Hv' as <-. destruct (He va' Hp') as (_ & _ & Hnf & _). destruct Hnf. rewrite <-Ef. by eapply Hfoot.
    + by apply (uo_inj _ _ _ Ho va va' e e').
  - intros va e Hv. destruct (Hs va) as [[Hp E]|[Hp E]]; rewrite E in Hv; [done|]. by apply (uo_large _ _ _ Ho va).
Qed.

(** One page of [user_map_range]. *)
Record map_one (m : mem) (a : pmm) (m2 : mem) (a2 : pmm) (root va flags : Z) (covered : bool) : Prop := {
  mo_ok : user_ok m2 a2 root;
  mo_within : within m a m2 a2 root;
  mo_count : pa_nfree a - 4 ≤ pa_nfree a2;
  mo_old va' : covered = true ∨ vpn va' ≠ vpn va → slot m2 root va' = slot m root va' ∧ ubyte m2 root va' = ubyte m root va';
  mo_new va' : covered = false → vpn va' = vpn va →
    ubyte m2 root va' = Some 0 ∧ ∃ e, slot m2 root va' = Some (false, e) ∧ has e PAGE_WRITABLE = has flags PAGE_WRITABLE
}.

Lemma map_one_spec m (a : pmm) m1 (a1 : pmm) root pa va flags :
  user_ok m a root → fresh_frame m a m1 a1 root pa →
  let c := covered_2m m root va in
  (paging_map_4k m1 a1 root va pa (user_flags flags) = Panic ∧ pa_nfree a < 4) ∨
  ∃ m2 a2, paging_map_4k m1 a1 root va pa (user_flags flags) = Ret (m2, a2, if c then K_ERR_EXISTS else K_OK) ∧
    if c then ∃ a3, pmm_free_page a2 pa = Ret a3 ∧ map_one m a m2 a3 root va flags true else map_one m a m2 a2 root va flags false.
Proof.
  intros Ho F. cbv zeta. destruct (ff_page _ _ _ _ _ _ F) as [Hm Hr]. destruct (ff_free _ _ _ _ _ _ F) as [Hfree Hnf]. pose proof (ff_ok _ _ _ _ _ _ F) as Ho1.
  destruct (user_flags_entry pa flags Hm ltac:(lia)) as (Hu & Hfm & Hfr & Hus & Hw). pose proof (ff_count _ _ _ _ _ _ F) as Hc.
  destruct (paging_map_4k_try m1 a1 root va pa (user_flags flags) (uo_tree _ _ _ Ho1) Hu Hfm) as [[? ?]|(m2 & a2 & E & Hinv & Hg & Hs)]; [left; split; [done|lia]|right].
  assert (covered_2m m1 root va = covered_2m m root va) as Ec by (rewrite (covered_slot _ _ _ _ (uo_tree _ _ _ Ho1)), (covered_slot _ _ _ _ (uo_tree _ _ _ Ho)); by rewrite (ff_slot _ _ _ _ _ _ F)).
  rewrite Ec in *. exists m2, a2. split; [exact E|]. set (e0 := leaf_entry pa (user_flags flags)) in *. set (c := covered_2m m root va) in *. clearbody c.
  assert (¬ footprint m1 root pa) as Hnp by (rewrite (ff_foot _ _ _ _ _ _ F); intros Hx; by apply (footprint_used _ _ _ _ Ho Hx)).
  assert (∀ va', slot m2 root va' = if decide (c = false ∧ vpn va' = vpn va) then Some (false, e0) else slot m root va') as Hs'.
  { intros va'. rewrite Hs. by rewrite (ff_slot _ _ _ _ _ _ F). }
  assert (user_ok m2 a2 root) as Ho2.
  { apply (grow_ok 3 m1 a1 m2 a2 root (λ va', c = false ∧ vpn va' = vpn va) e0 Ho1 Hg Hinv); [|intros ? ? [_ ->] [_ ->]; done|].
    - intros va'. rewrite Hs. dec_if as Hd; [by left|by right].
    - intros va' _. rewrite Hfr. split; [done|]. split; [done|]. split; [done|]. rewrite (ff_geometry _ _ _ _ _ _ F). by apply free_is_managed. }
  destruct Hg as (G1 & G2 & G3 & G4 & G5). fold (page) in G5.
  assert (∀ x, ¬ pa_isfree a (page x) → ¬ is_table m1 root (page x) → load8 m2 x = load8 m x) as HB.
  { intros x Hx Ht. rewrite G5; [|intros Hc'; apply Hx, F, Hc'|done]. apply F. intros Ex. by rewrite Ex in Hx. }
  assert (∀ p, footprint m2 root p → footprint m root p ∨ pa_isfree a p) as Hfp.
  { intros p [[Ht|Ht]%G4|(va' & e & Hv & ->)]; [left; apply F; by left|right; by apply F|]. rewrite Hs' in Hv. revert Hv. dec_if; [intros [= <-]; right; by rewrite Hfr|left; right; by exists va', e]. }
  assert (within m a m2 a2 root) as Hwi.
  { split; [by rewrite G3; apply F|]. split; [|split; [intros x Hx; left; by apply F, G2|intros x; apply Hfp]].
    intros x Hx Hnx. apply HB; [done|]. intros Ht. apply Hnx, F. by left. }
  assert (∀ va', c = true ∨ vpn va' ≠ vpn va → slot m2 root va' = slot m root va' ∧ ubyte m2 root va' = ubyte m root va') as Hold.
  { intros va' Hd. assert (slot m2 root va' = slot m root va') as E2 by (rewrite Hs', decide_False; [done|destruct c; naive_solver]).
    split; [done|]. unfold ubyte. rewrite E2. destruct (slot m root va') as [[[] e]|] eqn:Ev; [done| |done]. f_equal. apply HB; rewrite page_frame; [by apply (uo_leaf _ _ _ Ho va')|].
    apply (uo_leaf _ _ _ Ho1 va'). by rewrite (ff_slot _ _ _ _ _ _ F). }
  assert (∀ va', c = false → vpn va' = vpn va → ubyte m2 root va' = Some 0 ∧ ∃ e, slot m2 root va' = Some (false, e) ∧ has e PAGE_WRITABLE = has flags PAGE_WRITABLE) as Hnew.
  { intros va' Hd Hv. assert (slot m2 root va' = Some (false, e0)) as E2 by (by rewrite Hs', decide_True). split; [|by exists e0]. unfold ubyte. rewrite E2, Hfr. f_equal.
    pose proof (Z.mod_pos_bound va' 4096 ltac:(lia)). rewrite G5; fold (page (pa + va' mod 4096)); rewrite ?page_add by done; [by apply F|done|intros Ht; apply Hnp; by left]. }
  destruct c; [|by split; [done|done|lia|..]].
  assert (¬ footprint m2 root pa) as Hnp2.
  { intros [[Ht|Ht]%G4|(va' & e & Hv & Ep)]; [apply Hnp; by left|done|]. rewrite Hs', decide_False in Hv by naive_solver. apply Hnp. right. exists va', e. by rewrite (ff_slot _ _ _ _ _ _ F). }
  destruct (free_page_spec a2 pa) as (a3 & E3 & Hok3 & Hg3 & Hn3 & Hf3); [apply Hinv|done|auto|rewrite G3, (ff_geometry _ _ _ _ _ _ F); by apply free_is_managed|].
  exists a3. split; [exact E3|]. split; [by apply (user_ok_free m2 a2 a3 root pa)| |lia|intros va' _; by apply Hold; left|done].
  destruct Hwi as (W1 & W2 & W3 & W4). split; [by rewrite Hg3|]. split; [done|]. split; [|done]. intros x [Hx|Hx]%Hf3; [by apply W3|]. left.
  rewrite (page_id (page x)) in Hx by apply page_mod. by rewrite Hx.
Qed.

Section Map.
Context {H : Type} {KA : Kalloc H}.
Implicit Types s : us H.

Definition with_pages s (m : mem) (a : pmm) : us H := mk_us m a (us_heap s) (us_spaces s) (us_cr3 s) (us_kernel s).

(** The rest of an iteration, with the zeroed page. *)
Lemma map_tail_spec s m1 a1 pa space root va flags :
  us_spaces s !! space = Some root → space ≠ 0 → user_ok (us_mem s) (us_pmm s) root → fresh_frame (us_mem s) (us_pmm s) m1 a1 root pa →
  va mod 4096 = 0 → 0 ≤ va < USER_TOP →
  may (pa_nfree (us_pmm s) < 4) (r ← user_map_page space va pa flags; if negb (r =? 0) then free_frame pa;; mret (inr tt) else mret (inl tt)) (with_pages s m1 a1) (λ r s', ∃ m a, s' = with_pages s m a ∧
    let c := covered_2m (us_mem s) root va in map_one (us_mem s) (us_pmm s) m a root va flags c ∧ r = if c then inr tt else inl tt : unit + unit).
Proof.
  intros Hsp Hnz Ho F Hm Hr. destruct (ff_page _ _ _ _ _ _ F) as [Hpm _]. pose proof (map_one_spec _ _ m1 a1 root pa va flags Ho F) as Hc.
  assert (∀ o, paging_map_4k m1 a1 root va pa (user_flags flags) = o → user_map_page space va pa flags (with_pages s m1 a1) = '(m, a, rc) ← o; Ret (with_pages s m a, if rc =? K_OK then 0 else -1)) as Eu.
  { intros o Eo. unfold user_map_page. rewrite !aligned_has by done. destruct (Z.eqb_spec space 0) as [|_]; [done|]. destruct (Z.leb_spec USER_TOP va) as [|_]; [lia|]. cbn [orb].
    unfold get_pml4, mbind, stM_bind. cbn [with_pages us_spaces mbind outcome_bind]. rewrite Hsp. cbn [mbind outcome_bind]. unfold on_tables. cbn [with_pages us_mem us_pmm]. fold (user_flags flags). rewrite Eo.
    by destruct o as [[[m a] rc]| | |]. }
  cbv zeta in *. set (c := covered_2m (us_mem s) root va) in *. clearbody c. destruct Hc as [[Ep Hp]|(m2 & a2 & Em & Hc)].
  { apply may_panic; [|done]. by rewrite (Eu _ Ep). }
  eapply (may_known _ _ _ _ (with_pages s m2 a2) (if c then -1 else 0)); [rewrite (Eu _ Em); by destruct c|].
  destruct c; cbn [Z.eqb negb].
  - destruct Hc as (a3 & E3 & Hmo). eapply (may_known _ _ _ _ (with_pages s m2 a3) tt); [unfold free_frame, on_tables; cbn [with_pages us_mem us_pmm]; by rewrite E3|]. apply may_ret. by exists m2, a3.
  - apply may_ret. by exists m2, a2.
Qed.

Lemma map_body_spec s space root base flags i :
  let va := base + i * PAGE_SIZE in
  us_spaces s !! space = Some root → space ≠ 0 → user_ok (us_mem s) (us_pmm s) root → va mod 4096 = 0 → 0 ≤ va < USER_TOP →
  may (pa_nfree (us_pmm s) < 4) (map_range_body space base flags i tt) s (λ r s', (pa_nfree (us_pmm s) = 0 ∧ s' = s ∧ r = inr tt) ∨ ∃ m a, s' = with_pages s m a ∧
    let c := covered_2m (us_mem s) root va in map_one (us_mem s) (us_pmm s) m a root va flags c ∧ r = if c then inr tt else inl tt).
Proof.
  intros va Hsp Hnz Ho Hm Hr. unfold map_range_body. fold va. destruct (alloc_zero _ _ _ Ho) as [[Hn0 Ea]|(a1 & pa & Ea & F)].
  { eapply (may_known _ _ _ _ s 0); [unfold alloc_frame, on_tables; rewrite Ea; by destruct s|]. apply may_ret. by left. }
  destruct (ff_page _ _ _ _ _ _ F) as [_ Hpr].
  eapply (may_known _ _ _ _ (with_pages s (us_mem s) a1) pa); [unfold alloc_frame, on_tables; by rewrite Ea|]. destruct (Z.eqb_spec pa PMM_INVALID_PAGE) as [Ep|_]; [change PMM_INVALID_PAGE with 0 in Ep; lia|].
  eapply (may_known _ get_mem _ _ (with_pages s (us_mem s) a1) (us_mem s)); [reflexivity|].
  eapply (may_known _ (put_mem _) _ _ (with_pages s (store_bytes (us_mem s) pa zero_page) a1) tt); [reflexivity|].
  eapply may_mono; [by apply (map_tail_spec s _ a1 pa space root va flags)|done|]. intros r s' Hx. by right.
Qed.

(** The state after pages [lo .. hi) of the range were mapped. *)
Record mapped_upto s s' (root va flags n : Z) : Prop := {
  mu_pages : s' = with_pages s (us_mem s') (us_pmm s');
  mu_ok : user_ok (us_mem s') (us_pmm s') root;
  mu_within : within (us_mem s) (us_pmm s) (us_mem s') (us_pmm s') root;
  mu_ext : extended (us_mem s) (us_mem s') root (va / 4096) (va / 4096 + n) flags
}.

Lemma mapped_upto_0 s root va flags : user_ok (us_mem s) (us_pmm s) root → mapped_upto s s root va flags 0.
Proof. intros Ho. split; [by destruct s|done|apply within_refl|]. split; [done|done|]. intros; lia. Qed.

(** One more page. *)
Lemma mapped_upto_step s s' m a root va flags i c :
  mapped_upto s s' root va flags i → 0 ≤ i → va mod 4096 = 0 → 0 ≤ va → va + i * 4096 < USER_TOP →
  map_one (us_mem s') (us_pmm s') m a root (va + i * 4096) flags c → mapped_upto s (with_pages s' m a) root va flags (if c then i else i + 1).
Proof.
  intros [M1 M2 M3 M5] Hi Hm Hva Ht Mo.
  assert (∀ va', 0 ≤ va' < USER_TOP → vpn va' = vpn (va + i * 4096) ↔ va' / 4096 = va / 4096 + i) as Hvpn.
  { intros va' Hva'. rewrite !vpn_user by lia. zlia. }
  split; cbn [with_pages us_mem us_pmm us_heap us_spaces us_cr3 us_kernel].
  - rewrite M1. done.
  - apply Mo.
  - eapply within_trans; [done|apply Mo].
  - destruct M5 as [X1 X2 X3].
    assert (∀ va', 0 ≤ va' < USER_TOP → ¬ (c = false ∧ va' / 4096 = va / 4096 + i) → slot m root va' = slot (us_mem s') root va' ∧ ubyte m root va' = ubyte (us_mem s') root va') as Hold.
    { intros va' Hva' Hd. apply (mo_old _ _ _ _ _ _ _ _ Mo). destruct c; [by left|right]. rewrite Hvpn by done. naive_solver. }
    split; intros va' Hva' Hr.
    + destruct (Hold va' Hva') as [-> _]; [destruct c; naive_solver lia|]. apply X1; [done|]. destruct c; lia.
    + destruct (Hold va' Hva') as [_ ->]; [destruct c; naive_solver lia|]. apply X2; [done|]. destruct c; lia.
    + destruct (decide (c = false ∧ va' / 4096 = va / 4096 + i)) as [[-> Hd]|Hd]; [apply (mo_new _ _ _ _ _ _ _ _ Mo); [done|by apply Hvpn]|].
      destruct (Hold va' Hva' Hd) as [-> ->]. apply X3; [done|]. destruct c; [lia|naive_solver lia].
Qed.

(** The pages of a range. *)
Definition pages_of (size : Z) : Z := (size + 4095) / 4096.

Lemma range_guard va size : va mod 4096 = 0 → 0 ≤ va → 0 < size → va + size ≤ USER_TOP →
  let end_ := u64 (va + PAGE_ALIGN_UP size) in (end_ <=? va) || (USER_TOP <? end_) = false ∧ span_pages va end_ = pages_of size ∧ va + 4096 * pages_of size ≤ USER_TOP.
Proof.
  intros Hm H0 Hs Ht. unfold USER_TOP in *. rewrite page_align_up_spec by lia. fold (pages_of size). unfold pages_of, span_pages in *. change PAGE_MASK with 4095. change PAGE_SIZE with 4096.
  cbv zeta. rewrite u64_small by zlia. split; [|zlia]. apply orb_false_iff. split; [apply Z.leb_gt|apply Z.ltb_ge]; zlia.
Qed.

(** The pages of the range up to the first that is in a large page or for which there is no memory. *)
Lemma map_range_try s space root va size flags :
  us_spaces s !! space = Some root → space ≠ 0 → user_ok (us_mem s) (us_pmm s) root →
  va mod 4096 = 0 → 0 ≤ va → 0 < size → va + size ≤ USER_TOP →
  may (pa_nfree (us_pmm s) < 4 * pages_of size) (user_map_range space va size flags) s (λ r s', ∃ n, 0 ≤ n ≤ pages_of size ∧ mapped_upto s s' root va flags n ∧ pa_nfree (us_pmm s) - 4 * pages_of size ≤ pa_nfree (us_pmm s') ∧
    (∀ i, 0 ≤ i < n → covered_2m (us_mem s) root (va + i * 4096) = false) ∧
    ((r = 0 ∧ n = pages_of size) ∨
     (r = -1 ∧ n < pages_of size ∧ (covered_2m (us_mem s) root (va + n * 4096) = true ∨ pa_nfree (us_pmm s) < 4 * pages_of size ∧ pa_nfree (us_pmm s') = 0)))).
Proof.
  intros Hsp Hnz Ho Hm H0 Hs Ht. destruct (range_guard va size Hm H0 Hs Ht) as (Eg & Es & Hend). unfold user_map_range. destruct (Z.eqb_spec space 0) as [|_]; [done|].
  rewrite aligned_has by done. cbn [orb]. cbv zeta. rewrite Eg, Es. set (np := pages_of size) in *.
  set (clear := λ n, ∀ i, 0 ≤ i < n → covered_2m (us_mem s) root (va + i * 4096) = false).
  set (stop := λ n s', covered_2m (us_mem s) root (va + n * 4096) = true ∨ pa_nfree (us_pmm s) < 4 * np ∧ pa_nfree (us_pmm s') = 0).
  eapply may_step; [apply (may_seek _ (λ i _ s', mapped_upto s s' root va flags i ∧ pa_nfree (us_pmm s) - 4 * i ≤ pa_nfree (us_pmm s') ∧ clear i)
    (λ _ s', ∃ n, 0 ≤ n < np ∧ mapped_upto s s' root va flags n ∧ pa_nfree (us_pmm s) - 4 * np ≤ pa_nfree (us_pmm s') ∧ clear n ∧ stop n s'))|].
  - unfold np, pages_of. zlia.
  - intros i [] s' Hi (Mu & Hn & Hcl). pose proof (mu_pages _ _ _ _ _ _ Mu) as Ep. eapply may_mono; [apply (map_body_spec s' space root)|..].
    + by rewrite Ep.
    + done.
    + apply Mu.
    + change PAGE_SIZE with 4096. zlia.
    + change PAGE_SIZE with 4096. lia.
    + lia.
    + change PAGE_SIZE with 4096. intros r s2 [(Hz & -> & ->)|(m & a & -> & Mo & ->)]; [exists i; split; [lia|]; split; [done|]; split; [lia|]; split; [done|right; lia]|].
      pose proof (mo_count _ _ _ _ _ _ _ _ Mo) as Hc.
      assert (covered_2m (us_mem s') root (va + i * 4096) = covered_2m (us_mem s) root (va + i * 4096)) as Ec.
      { rewrite !(covered_slot _ (us_pmm s') _ _ (uo_tree _ _ _ (mu_ok _ _ _ _ _ _ Mu))), (covered_slot _ (us_pmm s) _ _ (uo_tree _ _ _ Ho)).
        rewrite (ex_slot _ _ _ _ _ _ (mu_ext _ _ _ _ _ _ Mu)); [done|lia|zlia]. }
      pose proof (mapped_upto_step s s' m a root va flags i _ Mu ltac:(lia) Hm H0 ltac:(lia) Mo) as Mu2. rewrite Ec in *.
      destruct (covered_2m (us_mem s) root (va + i * 4096)) eqn:Ecv; [exists i; split; [lia|]; split; [done|]; split; [cbn [with_pages us_pmm]; lia|]; split; [done|by left]|]. cbn [with_pages us_pmm]. split; [done|]. split; [lia|].
      intros j Hj. destruct (decide (j = i)) as [->|]; [done|apply Hcl; lia].
  - split; [by apply mapped_upto_0|]. split; [lia|]. intros i Hi. lia.
  - intros [[]|[]] s'; [intros (Mu & Hnf & Hcl)|intros (n & Hn & Mu & Hnf & Hcl & Hcov)]; apply may_ret; [exists np; split; [unfold np, pages_of; zlia|]|exists n; split; [lia|]]; (split; [done|split; [done|split; [done|]]]); [by left|right].
    split; [done|]. split; [lia|done].
Qed.

(** With memory for every page and its tables. *)
Lemma map_range_spec s space root va size flags :
  us_spaces s !! space = Some root → space ≠ 0 → user_ok (us_mem s) (us_pmm s) root →
  va mod 4096 = 0 → 0 ≤ va → 0 < size → va + size ≤ USER_TOP → 4 * pages_of size ≤ pa_nfree (us_pmm s) →
  wp (user_map_range space va size flags) s (λ r s', ∃ n, 0 ≤ n ≤ pages_of size ∧ mapped_upto s s' root va flags n ∧ pa_nfree (us_pmm s) - 4 * pages_of size ≤ pa_nfree (us_pmm s') ∧
    (∀ i, 0 ≤ i < n → covered_2m (us_mem s) root (va + i * 4096) = false) ∧
    ((r = 0 ∧ n = pages_of size) ∨ (r = -1 ∧ n < pages_of size ∧ covered_2m (us_mem s) root (va + n * 4096) = true))).
Proof.
  intros Hsp Hnz Ho Hm H0 Hs Ht Hf. eapply wp_mono; [apply (may_wp _ _ _ _ (map_range_try s space root va size flags Hsp Hnz Ho Hm H0 Hs Ht)); lia|].
  intros r s' (n & Hn & Mu & Hc & Hcl & Hr). exists n. split; [done|]. split; [done|]. split; [done|]. split; [done|].
  destruct Hr as [?|(-> & ? & [?|[? _]])]; [by left|by right|lia].
Qed.

(** *** Unmapping *)

(** The pages [lo .. hi) are gone and their frames are free. *)
Record removed (m : mem) (a : pmm) (m' : mem) (a' : pmm) (root lo hi : Z) : Prop := {
  rm_ok : user_ok m' a' root;
  rm_geometry : pa_geometry a' = pa_geometry a;
  rm_walk q : vpath q → walk m' root q = walk m root q;
  rm_slot va : slot m' root va = if decide (lo ≤ vpn va < hi) then None else slot m root va;
  rm_byte x : ¬ is_table m root (page x) → load8 m' x = load8 m x;
  rm_free q : pa_isfree a' q ↔ pa_isfree a q ∨ ∃ va e, lo ≤ vpn va < hi ∧ slot m root va = Some (false, e) ∧ page q = frame_of e
}.

Lemma removed_none m a root lo : user_ok m a root → removed m a m a root lo lo.
Proof.
  intros Ho. split; [done|done|done|..|done|].
  - intros va. by rewrite decide_False by lia.
  - intros q. split; [by left|]. intros [?|(va & e & ? & _)]; [done|lia].
Qed.

(** The page of [va] is not mapped. *)
Lemma removed_skip m a m' a' root lo va :
  removed m a m' a' root lo (vpn va) → lo ≤ vpn va → slot m root va = None → removed m a m' a' root lo (vpn va + 1).
Proof.
  intros [R1 R2 R3 R4 R5 R6] Hlo Hn.
  assert (∀ va', vpn va' = vpn va → slot m root va' = None) as Hsame by (intros va' E; rewrite <-Hn; by apply slot_vpn).
  split; [done|done|done|..|done|].
  - intros va'. rewrite R4. repeat dec_if; try done; try lia. apply Hsame. lia.
  - intros q. rewrite R6. split; (intros [?|(va' & e & Hr & Hs & Hq)]; [by left|right; exists va', e; split; [|done]]); [lia|].
    destruct (decide (vpn va' = vpn va)) as [E|]; [|lia]. by rewrite (Hsame va' E) in Hs.
Qed.

(** The page of [va] is unmapped and its frame is freed. *)
Lemma removed_step m a m' a' root lo va e :
  removed m a m' a' root lo (vpn va) → lo ≤ vpn va → va mod 4096 = 0 → slot m root va = Some (false, e) →
  paging_translate m' root va = frame_of e ∧
  ∃ a2, pmm_free_page a' (frame_of e) = Ret a2 ∧ removed m a (paging_unmap_4k m' root va).1 a2 root lo (vpn va + 1).
Proof.
  intros [R1 R2 R3 R4 R5 R6] Hlo Hm Hs. assert (slot m' root va = Some (false, e)) as Hs1 by (by rewrite R4, decide_False by lia).
  split; [rewrite (translate_user _ _ _ _ _ (uo_tree _ _ _ R1) Hs1), Hm; lia|].
  destruct (uo_leaf _ _ _ R1 va e Hs1) as (_ & Hnt & Hnf & Hman). destruct (frame_page e) as [Hfm Hfr].
  destruct (free_page_spec a' (frame_of e) (pi_alloc _ _ _ (uo_tree _ _ _ R1)) Hfm Hnf Hman) as (a2 & E2 & Hok & Hg & _ & Hf). exists a2. split; [done|].
  destruct (paging_unmap_4k_slots m' a' root va (uo_tree _ _ _ R1)) as (_ & Hinv & Hw & Hb & L). rewrite Hs1 in L. cbn [andb] in L. set (m2 := (paging_unmap_4k m' root va).1) in *.
  assert (∀ t, is_table m2 root t ↔ is_table m' root t) as Ht by (intros t; by apply is_table_walk).
  assert (∀ va' e', slot m2 root va' = Some (false, e') → slot m' root va' = Some (false, e') ∧ frame_of e' ≠ frame_of e) as Hsub.
  { intros va' e' Hv. rewrite L in Hv. case_bool_decide as Hv'; [done|]. split; [done|]. intros Ef. by apply Hv', (uo_inj _ _ _ R1 va' va e' e). }
  assert (user_ok m2 a' root) as Ho2.
  { destruct R1 as [O0 O1 O2 O3 O4]. split; [done|intros t; rewrite Ht; apply O1|..].
    - intros va' e' [Hv _]%Hsub. rewrite Ht. by apply (O2 va').
    - intros va1 va2 e1 e2 [Hv1 _]%Hsub [Hv2 _]%Hsub. by apply (O3 va1 va2 e1 e2).
    - intros va' e' Hv. rewrite L in Hv. case_bool_decide; [done|]. by apply (O4 va'). }
  split.
  - apply (user_ok_free m2 a' a2 root (frame_of e)); try done. intros [Hx|(va' & e' & Hv & Ef)]; [by apply Hnt, Ht|]. by destruct (Hsub va' e' Hv).
  - by rewrite Hg.
  - intros q Hq. by rewrite Hw, R3.
  - intros va'. rewrite L. case_bool_decide as Hd; [by rewrite decide_True by lia|]. rewrite R4. repeat dec_if; done || lia.
  - intros x Hx. rewrite Hb; [by apply R5|]. intros Hx'. by apply Hx, (is_table_walk m m' root _ R3).
  - intros q. rewrite Hf, R6. split.
    + intros [[?|(va' & e' & ? & ? & ?)]|Hq]; [by left|right; exists va', e'; split; [lia|done]|right; exists va, e; split; [lia|done]].
    + intros [?|(va' & e' & Hr & Hs' & Hq)]; [by left; left|]. destruct (decide (vpn va' = vpn va)) as [E|]; [|left; right; exists va', e'; split; [lia|done]].
      right. rewrite (slot_vpn m root va' va E), Hs in Hs'. by injection Hs' as <-.
Qed.

Lemma unmap_range_spec s space root va size :
  us_spaces s !! space = Some root → space ≠ 0 → user_ok (us_mem s) (us_pmm s) root →
  va mod 4096 = 0 → 0 ≤ va → 0 < size → va + size ≤ USER_TOP →
  (∀ i, 0 ≤ i < pages_of size → covered_2m (us_mem s) root (va + i * 4096) = false) →
  wp (user_unmap_range space va size) s (λ r s', r = 0 ∧ s' = with_pages s (us_mem s') (us_pmm s') ∧
    removed (us_mem s) (us_pmm s) (us_mem s') (us_pmm s') root (va / 4096) (va / 4096 + pages_of size)).
Proof.
  intros Hsp Hnz Ho Hm H0 Hs Ht Hcov. destruct (range_guard va size Hm H0 Hs Ht) as (Eg & Es & Hend). unfold user_unmap_range. destruct (Z.eqb_spec space 0) as [|_]; [done|].
  rewrite aligned_has by done. cbn [orb]. cbv zeta. rewrite Eg, Es. set (np := pages_of size) in *.
  eapply wp_step; [apply (wp_seek (λ i _ s', s' = with_pages s (us_mem s') (us_pmm s') ∧ removed (us_mem s) (us_pmm s) (us_mem s') (us_pmm s') root (va / 4096) (va / 4096 + i)) (λ _ _, False))|].
  - unfold np, pages_of. zlia.
  - intros i [] s' Hi [Ep R]. unfold unmap_range_body. change PAGE_SIZE with 4096. set (v := va + i * 4096). assert (0 ≤ v < USER_TOP) as Hv by lia.
    assert (va / 4096 + i = vpn v) as Ev by (rewrite vpn_user by done; unfold v; zlia).
    replace (va / 4096 + (i + 1)) with (vpn v + 1) by lia. rewrite Ev in R. assert (v mod 4096 = 0) as Hvm by (unfold v; zlia).
    assert (us_spaces s' !! space = Some root) as Hsp' by (by rewrite Ep). eapply (wp_known _ _ _ s' root); [unfold get_pml4; by rewrite Hsp'|]. eapply (wp_known get_mem _ _ s' (us_mem s')); [done|].
    pose proof (Hcov i Hi) as Hc. rewrite (covered_slot _ _ _ _ (uo_tree _ _ _ Ho)) in Hc. fold v in Hc. destruct (slot (us_mem s) root v) as [[[] e]|] eqn:Ev2; [done|..].
    + destruct (removed_step _ _ _ _ root (va / 4096) v e R ltac:(lia) Hvm Ev2) as (Et & a2 & E2 & R2). rewrite Et. pose proof (mapped_translate e 0 ltac:(lia)) as Hmt. rewrite Z.add_0_r in Hmt. rewrite Hmt. cbn [negb].
      destruct (frame_page e) as [Hfm Hfr]. rewrite (mask_id (frame_of e)) by done.
      eapply (wp_known (put_mem _) _ _ (with_pages s' (paging_unmap_4k (us_mem s') root v).1 (us_pmm s')) tt); [done|].
      eapply (wp_known _ _ _ (with_pages s' (paging_unmap_4k (us_mem s') root v).1 a2) tt); [unfold free_frame, on_tables; cbn [with_pages us_mem us_pmm]; by rewrite E2|].
      apply wp_ret. cbn [with_pages us_mem us_pmm]. split; [|done]. rewrite Ep. done.
    + assert (slot (us_mem s') root v = None) as En by (rewrite (rm_slot _ _ _ _ _ _ _ R); by rewrite decide_False by lia).
      rewrite (translate_leaf _ _ _ _ (uo_tree _ _ _ (rm_ok _ _ _ _ _ _ _ R))). unfold leaf. rewrite En. rewrite Z.eqb_refl. cbn [negb]. apply wp_ret. split; [done|].
      apply removed_skip; [done|lia|done].
  - split; [by destruct s|]. rewrite Z.add_0_r. by apply removed_none.
  - intros [[]|] s'; [|done]. intros [Ep R]. by apply wp_ret.
Qed.

End Map.
