(* ===== verification/UspaceFree.v ===== *)
(** [user_address_space_destroy] of [Uspace]: the four nested loops free every page of the space, each of them once. The pages
    of a space are the tables, at paths of up to three indices, and the frames, at paths of four; the loops visit these paths
    so that a page is freed after all pages below it. *)

From stdpp Require Import gmap.
From S2P Require Import Prelude Kmath CString Layout Pmm Memory Paging Vmm StateM Heap Kalloc Uspace UspaceSpec UspaceMap.

(** ** Pages and their paths *)

Definition path_of (va : Z) : list Z := [idx_pml4 va; idx_pdpt va; idx_pd va; idx_pt va].
Definition va_of (i j k l : Z) : Z := i * 2 ^ 39 + j * 2 ^ 30 + k * 2 ^ 21 + l * 2 ^ 12.

Lemma path_of_va i j k l : 0 ≤ i < 512 → 0 ≤ j < 512 → 0 ≤ k < 512 → 0 ≤ l < 512 → path_of (va_of i j k l) = [i; j; k; l].
Proof.
  intros. unfold path_of, idx_pml4, idx_pdpt, idx_pd, idx_pt. rewrite !idx_div by lia. unfold va_of.
  assert ((i * 2 ^ 39 + j * 2 ^ 30 + k * 2 ^ 21 + l * 2 ^ 12) / 2 ^ 39 = i) as -> by zlia.
  assert ((i * 2 ^ 39 + j * 2 ^ 30 + k * 2 ^ 21 + l * 2 ^ 12) / 2 ^ 30 = i * 512 + j) as -> by zlia.
  assert ((i * 2 ^ 39 + j * 2 ^ 30 + k * 2 ^ 21 + l * 2 ^ 12) / 2 ^ 21 = (i * 512 + j) * 512 + k) as -> by zlia.
  assert ((i * 2 ^ 39 + j * 2 ^ 30 + k * 2 ^ 21 + l * 2 ^ 12) / 2 ^ 12 = ((i * 512 + j) * 512 + k) * 512 + l) as -> by zlia.
  f_equal; [zlia|]. f_equal; [zlia|]. f_equal; [zlia|]. f_equal. zlia.
Qed.

Section Free.
Variables (m : mem) (a0 : pmm) (root : Z).
Hypothesis Hok : user_ok m a0 root.

Definition item (p : list Z) (q : Z) : Prop :=
  (vpath p ∧ walk m root p = Some q) ∨ ∃ va e, slot m root va = Some (false, e) ∧ p = path_of va ∧ q = frame_of e.

Lemma item_footprint q : (∃ p, item p q) ↔ footprint m root q.
Proof.
  split.
  - intros [p [Hp|(va & e & Hs & _ & ->)]]; [left; by exists p|right; by exists va, e].
  - intros [[p Hp]|(va & e & Hs & ->)]; [exists p; by left|exists (path_of va); right; by exists va, e].
Qed.

Lemma item_inj p p' q : item p q → item p' q → p = p'.
Proof.
  pose proof (uo_tree _ _ _ Hok) as Hinv. intros [[Hp Hw]|(va & e & Hs & -> & ->)] [[Hp' Hw']|(va' & e' & Hs' & -> & E)].
  - by apply (pi_inj _ _ _ Hinv p p' q).
  - exfalso. destruct (uo_leaf _ _ _ Hok va' e' Hs') as (_ & Hn & _). apply Hn. rewrite <-E. by exists p.
  - exfalso. destruct (uo_leaf _ _ _ Hok va e Hs) as (_ & Hn & _). apply Hn. by exists p'.
  - pose proof (uo_inj _ _ _ Hok va va' e e' Hs Hs' E) as [Hl Hi]%vpn_idx. apply lpn_idx in Hl. injection Hl as E1 E2 E3. unfold path_of. congruence.
Qed.

Lemma path_slot va va' : path_of va = path_of va' → slot m root va = slot m root va'.
Proof. intros [= E1 E2 E3 E4]. apply slot_vpn, vpn_idx. split; [apply lpn_idx; congruence|done]. Qed.

Lemma item_fun p q q' : item p q → item p q' → q = q'.
Proof.
  intros [[Hp Hw]|(va & e & Hs & -> & ->)] [[Hp' Hw']|(va' & e' & Hs' & Ep & ->)].
  - congruence.
  - subst p. destruct Hp as [Hl _]. cbn in Hl. lia.
  - destruct Hp' as [Hl _]. cbn in Hl. lia.
  - rewrite (path_slot _ _ Ep) in Hs. congruence.
Qed.

Lemma item_page p q : item p q → q mod 4096 = 0 ∧ ¬ pa_isfree a0 q ∧ pa_managed (pa_geometry a0) q.
Proof.
  intros Hi. assert (footprint m root q) as Hf by (apply item_footprint; by exists p). split; [|split; [by apply (footprint_used m a0 root)|]].
  - rewrite <-(footprint_page _ _ _ _ (uo_tree _ _ _ Hok) Hf). apply page_mod.
  - destruct Hf as [Ht|(va & e & Hs & ->)]; [by apply Hok|by apply (uo_leaf _ _ _ Hok va)].
Qed.

(** ** What is freed so far *)

Definition frees (D : list Z → Prop) (a : pmm) : Prop :=
  pa_ok a ∧ pa_geometry a = pa_geometry a0 ∧ ∀ q, pa_isfree a q ↔ pa_isfree a0 q ∨ ∃ p, D p ∧ item p (page q).

Lemma frees_ext (D D' : list Z → Prop) a : (∀ p q, item p q → D p ↔ D' p) → frees D a → frees D' a.
Proof. intros H (H1 & H2 & H3). split; [done|]. split; [done|]. intros q. rewrite H3. split; (intros [?|(p & HD & Hi)]; [by left|right; exists p; split; [by apply (H p _ Hi)|done]]). Qed.

Lemma frees_one D a p q : frees D a → item p q → ¬ D p → ∃ a', pmm_free_page a q = Ret a' ∧ frees (λ p', D p' ∨ p' = p) a'.
Proof.
  intros (H1 & H2 & H3) Hi HD. destruct (item_page p q Hi) as (Hm & Hf & Hman).
  destruct (free_page_spec a q H1 Hm) as (a' & E & Ha1 & Ha2 & _ & Ha3); [|by rewrite H2|].
  { intros [?|(p' & HD' & Hi')]%H3; [done|]. rewrite page_id in Hi' by done. by rewrite (item_inj p p' q Hi Hi') in HD. }
  exists a'. split; [done|]. split; [done|]. split; [congruence|]. intros x. rewrite Ha3, H3. split.
  - intros [[?|(p' & ? & ?)]|Hx]; [by left|right; exists p'; tauto|right; exists p; split; [by right|by rewrite Hx]].
  - intros [?|(p' & [?| ->] & Hi')]; [by left; left|left; right; by exists p'|right; by apply (item_fun p)].
Qed.

(** [f] frees the pages at [p] and below it. *)
Definition clears (p : list Z) (f : pmm → outcome pmm) : Prop :=
  ∀ D a, frees D a → (∀ p', p `prefix_of` p' → ¬ D p') → ∃ a', f a = Ret a' ∧ frees (λ p', D p' ∨ p `prefix_of` p') a'.

Lemma clears_nothing p : (∀ p' q, p `prefix_of` p' → ¬ item p' q) → clears p Ret.
Proof. intros H D a HF _. exists a. split; [done|]. apply (frees_ext D); [|done]. intros p' q Hi. split; [by left|]. intros [?|Hp]; [done|]. by destruct (H p' q Hp). Qed.

(** The items below a table are the table and those below its entries. *)
Lemma below_split p p' q : p `prefix_of` p' → item p' q → p' = p ∨ ∃ x, 0 ≤ x < 512 ∧ p ++ [x] `prefix_of` p'.
Proof.
  intros [[|x r] ->] Hi; [left; by rewrite app_nil_r|]. right. exists x. split; [|exists r; by rewrite <-app_assoc].
  assert (Forall (λ i, 0 ≤ i < 512) (p ++ x :: r)) as Hf; [|by apply Forall_app in Hf as [_ [? _]%Forall_cons]].
  destruct Hi as [[[_ Hf] _]|(va & e & _ & -> & _)]; [done|]. repeat constructor; apply idx_range.
Qed.

Lemma snoc_prefix_inj p (x y : Z) p' : p ++ [x] `prefix_of` p' → p ++ [y] `prefix_of` p' → x = y.
Proof. intros [r ->] [r' E]. rewrite <-!app_assoc in E. apply app_inv_head in E. by injection E as -> _. Qed.

Lemma clears_table p t inner :
  vpath p → walk m root p = Some t → (∀ x, 0 ≤ x < 512 → clears (p ++ [x]) (inner x)) →
  clears p (λ a, a ← for_range 0 512 inner a; pmm_free_page a t).
Proof.
  intros Hp Hw Hin D a HF Hd. assert (item p t) as Hi by (by left).
  destruct (for_range_inv (λ n a', frees (λ p', D p' ∨ ∃ x, 0 ≤ x < n ∧ p ++ [x] `prefix_of` p') a') inner 0 512 a) as (a1 & -> & HF1); [lia|..].
  - intros n a' Hn HF'. destruct (Hin n Hn _ a' HF') as (a2 & E & HF2).
    { intros p' Hp' [HD|(x & Hx & Hp2)]; [apply (Hd p'); [|done]; eapply prefix_app_l; exact Hp'|]. pose proof (snoc_prefix_inj p n x p' Hp' Hp2). lia. }
    exists a2. split; [done|]. eapply frees_ext; [|exact HF2]. intros p' q _. split.
    + intros [[?|(x & ? & ?)]|?]; [by left|right; exists x; split; [lia|done]|right; exists n; split; [lia|done]].
    + intros [?|(x & Hx & ?)]; [by left; left|]. destruct (decide (x = n)) as [->|]; [by right|left; right; exists x; split; [lia|done]].
  - eapply frees_ext; [|exact HF]. intros p' q _. split; [by left|]. intros [?|(x & ? & _)]; [done|lia].
  - cbn [mbind outcome_bind]. destruct (frees_one _ a1 p t HF1 Hi) as (a2 & E & HF2).
    { intros [HD|(x & _ & Hx%prefix_length)]; [by apply (Hd p)|]. rewrite length_app in Hx. cbn in Hx. lia. }
    exists a2. split; [done|]. eapply frees_ext; [|exact HF2]. intros p' q Hi'. split.
    + intros [[?|(x & _ & Hx)]| ->]; [by left|right; by eapply prefix_app_l|by right].
    + intros [?|Hpre]; [by left; left|]. destruct (below_split p p' q Hpre Hi') as [->|(x & ? & ?)]; [by right|left; right; by exists x].
Qed.

(** Nothing is below an entry that leads nowhere. *)
Lemma nothing_below p : (length p ≤ 3)%nat → walk m root p = None → ∀ p' q, p `prefix_of` p' → ¬ item p' q.
Proof.
  intros Hl Hw p' q [r ->] [[_ Hw']|(va & e & Hs & Ep & _)]; [by rewrite walk_app_None in Hw'|].
  assert (walk m root (take 3 (path_of va)) = None) as Hn.
  { rewrite <-Ep, take_app_ge by lia. by apply walk_app_None. }
  unfold slot in Hs. change (take 3 (path_of va)) with [idx_pml4 va; idx_pdpt va; idx_pd va] in Hn. rewrite Hn in Hs.
  destruct (walk m root [idx_pml4 va; idx_pdpt va]) as [pd|]; cbn [mbind option_bind] in Hs; [|done]. cbv zeta in Hs. destruct (has _ _); done.
Qed.

(** The entries of a page table. *)
Lemma clears_leaf i j k pt l : vpath [i; j; k] → walk m root [i; j; k] = Some pt → 0 ≤ l < 512 → clears ([i; j; k] ++ [l]) (free_leaf_body m pt l).
Proof.
  intros [_ Hv] Hw Hl. rewrite !Forall_cons in Hv. destruct Hv as (Hi & Hj & Hk & _). pose proof (path_of_va i j k l Hi Hj Hk Hl) as Ep.
  set (va := va_of i j k l) in *. clearbody va. injection Ep as E1 E2 E3 E4.
  assert (slot m root va = if has (pte m pt l) PAGE_PRESENT then Some (false, pte m pt l) else None) as Hs.
  { unfold slot. by rewrite E1, E2, E3, Hw, E4. }
  unfold free_leaf_body. destruct (has (pte m pt l) PAGE_PRESENT) eqn:Epr; cbn [andb].
  - destruct (uo_leaf _ _ _ Hok va _ Hs) as (-> & _). intros D a HF Hd.
    assert (item ([i; j; k] ++ [l]) (frame_of (pte m pt l))) as Hit by (right; exists va, (pte m pt l); unfold path_of; by rewrite E1, E2, E3, E4).
    destruct (frees_one D a _ _ HF Hit (Hd _ ltac:(reflexivity))) as (a' & E & HF'). exists a'. split; [exact E|]. eapply frees_ext; [|exact HF'].
    intros p' q Hi'. split; [intros [?| ->]; [by left|by right]|]. intros [?|[r ->]]; [by left|right]. destruct r as [|x r]; [by rewrite app_nil_r|].
    destruct Hi' as [[[Hlen _] _]|(va' & e' & _ & E' & _)]; [cbn in Hlen; lia|done].
  - intros D a HF _. exists a. split; [done|]. eapply frees_ext; [|exact HF]. intros p' q Hi'. split; [by left|]. intros [?|[r ->]]; [done|]. exfalso.
    destruct Hi' as [[[Hlen _] _]|(va' & e' & Hs' & E' & _)]; [cbn in Hlen; lia|]. destruct r; [|done].
    rewrite (path_slot va' va), Hs in Hs'; [done|]. rewrite <-E'. unfold path_of. by rewrite E1, E2, E3, E4.
Qed.

(** A level of tables above. *)
Lemma clears_level p t x inner (c : bool) :
  vpath p → (length p ≤ 2)%nat → walk m root p = Some t → 0 ≤ x < 512 →
  c = negb (has (pte m t x) PAGE_PRESENT) || has (pte m t x) PAGE_HUGE →
  (∀ n, vpath (p ++ [x]) → walk m root (p ++ [x]) = Some n → ∀ y, 0 ≤ y < 512 → clears ((p ++ [x]) ++ [y]) (inner n y)) →
  clears (p ++ [x]) (λ a, if c then Ret a else a ← for_range 0 512 (inner (Z.land (pte m t x) PAGE_ADDR_MASK)) a; pmm_free_page a (Z.land (pte m t x) PAGE_ADDR_MASK)).
Proof.
  intros Hp Hl Hw Hx -> Hin. assert (walk m root (p ++ [x]) = enter m t x) as Hw' by (rewrite walk_snoc, Hw; done).
  pose proof (vpath_snoc_2 p x Hp Hl Hx) as Hv. unfold enter in Hw'.
  destruct (has (pte m t x) PAGE_PRESENT), (has (pte m t x) PAGE_HUGE); cbn [negb orb andb] in *.
  2: { apply clears_table; [done|done|]. by apply Hin. }
  all: apply clears_nothing, nothing_below; [rewrite length_app; cbn; lia|done].
Qed.

Lemma free_space_spec : ∃ a', free_space m root a0 = Ret a' ∧ pa_ok a' ∧ pa_geometry a' = pa_geometry a0 ∧ ∀ q, pa_isfree a' q ↔ pa_isfree a0 q ∨ footprint m root (page q).
Proof.
  pose proof (uo_tree _ _ _ Hok) as Hinv. assert (vpath []) as V0 by (split; [cbn; lia|constructor]).
  assert (clears [] (free_space m root)) as Hc.
  { unfold free_space. apply (clears_table [] root); [done|done|]. intros i Hi. unfold free_pdpt_body.
    apply (clears_level [] root i (λ n, free_pd_body m n)); [done|cbn; lia|done|done|by rewrite (not_huge m a0 root [] root i Hinv V0 ltac:(cbn; lia) eq_refl Hi), orb_false_r|].
    intros pdpt V1 W1 j Hj. apply (clears_level ([] ++ [i]) pdpt j (λ n, free_pt_body m n)); [done|cbn; lia|done|done|done|].
    intros pd V2 W2 k Hk. apply (clears_level (([] ++ [i]) ++ [j]) pd k (λ n, free_leaf_body m n)); [done|cbn; lia|done|done|done|].
    intros pt V3 W3 l Hl. by apply (clears_leaf i j k). }
  destruct (Hc (λ _, False) a0) as (a' & E & H1 & H2 & H3); [|tauto|].
  - split; [apply Hinv|]. split; [done|]. intros q. split; [by left|]. intros [?|(p & [] & _)]; done.
  - exists a'. split; [done|]. split; [done|]. split; [done|]. intros q. rewrite H3, <-item_footprint. split; (intros [?|(p & Hp)]; [by left|right; exists p]); [tauto|].
    split; [right; apply prefix_nil|done].
Qed.

End Free.
