(* ===== verification/UspaceNew.v ===== *)
(** [user_address_space_create] of [Uspace]: a new space has the kernel's windows, 2 MiB supervisor pages that map addresses to
    themselves, and no page of the user. *)

From stdpp Require Import gmap.
From S2P Require Import Prelude Kmath CString Layout Pmm Memory Paging Vmm StateM Heap Kalloc Uspace UspaceSpec UspaceMap UspaceFree.

(** ** An entry above the page directories *)

(** Flags that the walk does not look at may change. *)
Lemma write_upper m (a : pmm) root p t i e' :
  pt_inv m a root → vpath p → (length p ≤ 1)%nat → walk m root p = Some t → 0 ≤ i < 512 → is_u64 e' →
  has e' PAGE_PRESENT = has (pte m t i) PAGE_PRESENT → has e' PAGE_HUGE = has (pte m t i) PAGE_HUGE → frame_of e' = frame_of (pte m t i) →
  let m' := set_pte m t i e' in
  pt_inv m' a root ∧ (∀ q, vpath q → walk m' root q = walk m root q) ∧ (∀ va, slot m' root va = slot m root va) ∧
  ∀ x, ¬ is_table m root (page x) → load8 m' x = load8 m x.
Proof.
  intros Hinv Hp Hl Hw Hi Hu Hpr Hh Hfr m'. pose proof (set_same_but m a root p t i e' Hinv Hp Hw Hi) as Hsame. fold m' in Hsame.
  assert (∀ q, vpath q → walk m' root q = walk m root q) as Hwalk.
  { intros q. induction q as [|j q IH] using rev_ind; intros Hq; [done|]. apply vpath_snoc in Hq as [Hq Hj]. rewrite !walk_snoc, IH by done.
    destruct (walk m root q) as [s|] eqn:Hs; [|done]. cbn [mbind option_bind]. destruct (decide ((q, j) = (p, i))) as [[= -> ->]|Hne]; [|unfold enter; by rewrite (Hsame q s j)].
    assert (s = t) as -> by congruence. unfold enter, m'. rewrite pte_set, Hpr, Hh by done. fold (frame_of e') (frame_of (pte m t i)). by rewrite Hfr. }
  split; [|split; [done|split]].
  - constructor; [apply Hinv|intros q s Hq; rewrite Hwalk by done; by apply Hinv|intros q1 q2 s H1 H2; rewrite !Hwalk by done; by apply Hinv|].
    intros q s j Hq Hql. rewrite Hwalk by done. intros Hs Hj. destruct (decide ((q, j) = (p, i))) as [[= -> ->]|Hne]; [|rewrite (Hsame q s j) by done; by apply Hinv].
    assert (s = t) as -> by congruence. unfold m'. rewrite pte_set, Hpr, Hh by done. by apply (pi_huge _ _ _ Hinv).
  - intros va. destruct (vpath_va va) as (_ & V2 & V3). unfold slot. rewrite !Hwalk by done. destruct (walk m root [idx_pml4 va; idx_pdpt va; idx_pd va]) as [pt|] eqn:W3.
    + rewrite (Hsame _ pt (idx_pt va) V3 W3); [done|apply idx_range|]. intros [= <- _]. cbn in Hl. lia.
    + destruct (walk m root [idx_pml4 va; idx_pdpt va]) as [pd|] eqn:W2; [|done]. cbn [mbind option_bind].
      rewrite (Hsame _ pd (idx_pd va) V2 W2); [done|apply idx_range|]. intros [= <- _]. cbn in Hl. lia.
  - intros x Hx. destruct (pi_page _ _ _ Hinv p t Hp Hw) as [Ht _]. apply load8_set_pte; try done. intros E. apply Hx. unfold page. rewrite E. by exists p.
Qed.

(** An entry is 64 bits wide. *)
Lemma set_pte_u64 m t i v : set_pte m t i v = set_pte m t i (u64 v).
Proof. unfold set_pte, store64. f_equal. unfold u64. by rewrite Z.mod_mod. Qed.

(** [e |= PAGE_USER] is not seen by the walk. *)
Lemma user_bit e : let e' := u64 (Z.lor e PAGE_USER) in
  is_u64 e' ∧ has e' PAGE_PRESENT = has e PAGE_PRESENT ∧ has e' PAGE_HUGE = has e PAGE_HUGE ∧ frame_of e' = frame_of e.
Proof.
  assert (∀ x i, 0 ≤ i < 64 → Z.testbit (u64 x) i = Z.testbit x i) as Hb by (intros x i Hi; unfold u64; apply Z.mod_pow2_bits_low; lia).
  cbv zeta. split; [apply u64_range|]. rewrite !has_present, !has_huge, !Hb, !Z.lor_spec by lia. change (Z.testbit PAGE_USER 0) with false. change (Z.testbit PAGE_USER 7) with false.
  rewrite !orb_false_r. split; [done|]. split; [done|]. unfold frame_of. apply Z.bits_inj'. intros i Hi. rewrite !Z.land_spec, mask_bit by done.
  destruct (Z.leb_spec 12 i); [|by rewrite !andb_false_r]. destruct (Z.ltb_spec i 52); [|by rewrite !andb_false_r]. rewrite Hb, Z.lor_spec by lia.
  change PAGE_USER with (2 ^ 2). rewrite Z.pow2_bits_false by lia. by rewrite orb_false_r.
Qed.

(** ** The windows *)

Definition window_flags (flags : Z) : Prop := is_u64 flags ∧ Z.land flags PAGE_ADDR_MASK = 0 ∧ has flags PAGE_USER = false.

Definition window_ok (w : Z * Z * Z) : Prop := 0 ≤ w.1.1 ∧ 0 < w.1.2 ∧ w.1.1 + w.1.2 ≤ 2 ^ 46 ∧ window_flags w.2.

(** The large pages of a window. *)
Definition window_first (w : Z * Z * Z) : Z := w.1.1 / 2 ^ 21.
Definition window_end (w : Z * Z * Z) : Z := (w.1.1 + w.1.2 + (2 ^ 21 - 1)) / 2 ^ 21.

(** What a space is that only has windows: [P] are the large pages that are mapped. *)
Record bare (m0 : mem) (a0 : pmm) (m : mem) (a : pmm) (root : Z) (P : Z → Prop) : Prop := {
  ba_tree : pt_inv m a root;
  ba_tables t : is_table m root t → pa_isfree a0 t;
  ba_slot va : match slot m root va with
    | Some (l, e) => l = true ∧ has e PAGE_USER = false ∧ frame_of e = lpn va * 2 ^ 21 ∧ P (lpn va)
    | None => ¬ P (lpn va)
    end;
  ba_free q : pa_isfree a q → pa_isfree a0 q;
  ba_geometry : pa_geometry a = pa_geometry a0;
  ba_byte x : ¬ pa_isfree a0 (page x) → load8 m x = load8 m0 x
}.

Lemma bare_ext m0 a0 m a root (P Q : Z → Prop) : (∀ j, P j ↔ Q j) → bare m0 a0 m a root P → bare m0 a0 m a root Q.
Proof. intros HPQ [B1 B2 B3 B4 B5 B6]. split; try done. intros va. specialize (B3 va). destruct (slot m root va) as [[l e]|]; by rewrite <-HPQ. Qed.

(** It satisfies the invariant, has no user page, and its pages were free. *)
Lemma bare_ok m0 a0 m a root P : bare m0 a0 m a root P → user_ok m a root ∧ ∀ p, footprint m root p ↔ is_table m root p.
Proof.
  intros [B1 B2 B3 B4 B5 B6]. assert (∀ va e, slot m root va ≠ Some (false, e)) as Hno by (intros va e Hs; specialize (B3 va); rewrite Hs in B3; by destruct B3).
  split; [split; [done|..]|].
  - intros t Ht%B2. rewrite B5. by apply free_is_managed.
  - intros va e Hs. by destruct (Hno va e).
  - intros va va' e e' Hs. by destruct (Hno va e).
  - intros va e Hs. specialize (B3 va). rewrite Hs in B3. apply B3.
  - intros p. split; [intros [?|(va & e & Hs & _)]; [done|by destruct (Hno va e)]|by left].
Qed.

(** [PAGE_USER] on the way to the user image. *)
Lemma bare_allow m0 a0 m a root P : bare m0 a0 m a root P → P 0 → bare m0 a0 (allow_user m root) a root P.
Proof.
  intros [B1 B2 B3 B4 B5 B6] HP. assert (vpath []) as V0 by (split; [cbn; lia|constructor]).
  destruct (vpath_va 0) as (V1 & V2 & V3). change (idx_pml4 0) with 0 in *. change (idx_pdpt 0) with 0 in *. change (idx_pd 0) with 0 in *.
  assert (∃ pd, walk m root [0; 0] = Some pd) as [pd Wd].
  { specialize (B3 0). unfold slot in B3. change (idx_pml4 0) with 0 in *. change (idx_pdpt 0) with 0 in *. change (idx_pd 0) with 0 in *.
    change [0; 0; 0] with ([0; 0] ++ [0]) in B3. rewrite walk_snoc in B3. destruct (walk m root [0; 0]) as [pd|]; [by exists pd|]. cbn in B3. by destruct B3. }
  assert (∃ pdpt, walk m root [0] = Some pdpt) as [pdpt Wp].
  { change [0; 0] with ([0] ++ [0]) in Wd. rewrite walk_snoc in Wd. destruct (walk m root [0]) as [pdpt|]; [by exists pdpt|done]. }
  unfold allow_user. change (idx_pml4 USER_IMAGE_BASE) with 0. change (idx_pdpt USER_IMAGE_BASE) with 0.
  rewrite (set_pte_u64 m root). destruct (user_bit (pte m root 0)) as (U1 & U2 & U3 & U4).
  destruct (write_upper m a root [] root 0 _ B1 V0 ltac:(cbn; lia) eq_refl ltac:(lia) U1 U2 U3 U4) as (I1 & W1 & S1 & Y1). set (m1 := set_pte m root 0 _) in *.
  assert (Z.land (pte m1 root 0) PAGE_ADDR_MASK = pdpt) as ->.
  { unfold m1. rewrite pte_set by done. fold (frame_of (u64 (Z.lor (pte m root 0) PAGE_USER))). rewrite U4. change [0] with ([] ++ [0]) in Wp. rewrite walk_snoc in Wp. cbn [walk foldl mbind option_bind] in Wp.
    unfold enter in Wp. destruct (_ && _); [|done]. by injection Wp. }
  rewrite <-(W1 [0] V1) in Wp. rewrite (set_pte_u64 m1 pdpt). destruct (user_bit (pte m1 pdpt 0)) as (U1' & U2' & U3' & U4').
  destruct (write_upper m1 a root [0] pdpt 0 _ I1 V1 ltac:(cbn; lia) Wp ltac:(lia) U1' U2' U3' U4') as (I2 & W2 & S2 & Y2). set (m2 := set_pte m1 pdpt 0 _) in *.
  assert (∀ t, is_table m2 root t ↔ is_table m root t) as Ht by (intros t; apply is_table_walk; intros q Hq; by rewrite W2, W1).
  assert (∀ t, is_table m1 root t ↔ is_table m root t) as Ht1 by (intros t; by apply is_table_walk).
  split; [done|intros t; rewrite Ht; apply B2|intros va; rewrite S2, S1; apply B3|done|done|].
  intros x Hx. rewrite Y2, Y1; [by apply B6|intros Hc; by apply Hx, B2|rewrite Ht1; intros Hc; by apply Hx, B2].
Qed.

Lemma supervisor_entry i flags : 0 ≤ i < 2 ^ 26 → window_flags flags →
  let e := Z.lor (leaf_entry (i * 2 ^ 21) flags) PAGE_HUGE in frame_of e = i * 2 ^ 21 ∧ has e PAGE_USER = false.
Proof.
  intros Hi (Hu & Hf & Hn). cbv zeta. split; [apply (large_entry (i * 2 ^ 21) flags Hu Hf); [by rewrite Z_mod_mult|lia]|].
  change PAGE_USER with (Z.shiftl 1 2) in *. rewrite has_bit in * by lia. unfold leaf_entry. repeat rewrite ?Z.lor_spec, ?Z.land_spec. rewrite Hn.
  change (Z.testbit PAGE_ADDR_MASK 2) with false. change (Z.testbit PAGE_PRESENT 2) with false. change (Z.testbit PAGE_HUGE 2) with false. by rewrite andb_false_r.
Qed.

(** One large page. *)
Lemma bare_step m0 a0 m a root P flags i :
  bare m0 a0 m a root P → 0 ≤ i < 2 ^ 25 → window_flags flags →
  paging_map_2m m a root (i * 2 ^ 21) (i * 2 ^ 21) flags = Panic ∨
  ∃ m' a', paging_map_2m m a root (i * 2 ^ 21) (i * 2 ^ 21) flags = Ret (m', a', K_OK) ∧ bare m0 a0 m' a' root (λ j, P j ∨ j = i).
Proof.
  intros [B1 B2 B3 B4 B5 B6] Hi Hw. pose proof Hw as (Hu & Hf & _).
  destruct (paging_map_2m_try m a root (i * 2 ^ 21) (i * 2 ^ 21) flags B1 Hu Hf) as [[? _]|(m' & a' & E & Hinv & (G1 & G2 & G3 & G4 & G5) & Hs)]; [by rewrite Z_mod_mult|by rewrite Z_mod_mult|lia|by left|right].
  exists m', a'. split; [done|]. split; [done|..].
  - intros t [Ht|Ht]%G4; [by apply B2|by apply B4].
  - intros va. rewrite Hs. assert (lpn (i * 2 ^ 21) = i) as -> by (rewrite lpn_small, Z.div_mul by lia; done). dec_if as Hd.
    + destruct (supervisor_entry i flags ltac:(lia) Hw) as [-> ->]. split; [done|]. split; [done|]. rewrite Hd. auto.
    + specialize (B3 va). destruct (slot m root va) as [[l e]|]; [naive_solver|]. intros [?|?]; [by apply B3|done].
  - auto.
  - congruence.
  - intros x Hx. rewrite G5; [by apply B6|intros Hc; by apply Hx, B4|intros Hc; by apply Hx, B2].
Qed.

Section New.
Context {H : Type} {KA : Kalloc H}.
Implicit Types s : us H.

Lemma window_pages w : window_ok w →
  0 ≤ window_first w < window_end w ∧ window_end w ≤ 2 ^ 25 ∧ LARGE_ALIGN_DOWN w.1.1 = window_first w * 2 ^ 21 ∧ LARGE_ALIGN_UP (u64 (w.1.1 + w.1.2)) = window_end w * 2 ^ 21.
Proof.
  intros (H1 & H2 & H3 & _). unfold window_first, window_end. rewrite u64_small by lia. rewrite large_align_down_spec, large_align_up_spec by (unfold is_u64; lia). split_and!; zlia.
Qed.

Lemma map_window s m0 a0 root base size flags P :
  window_ok (base, size, flags) → bare m0 a0 (us_mem s) (us_pmm s) root P →
  runs (map_supervisor_2m root base size flags) s (λ r s', r = 0 ∧ s' = with_pages s (us_mem s') (us_pmm s') ∧
    bare m0 a0 (us_mem s') (us_pmm s') root (λ j, P j ∨ window_first (base, size, flags) ≤ j < window_end (base, size, flags))).
Proof.
  intros Hw Hb. destruct (window_pages _ Hw) as (Hr & He & E1 & E2). cbn [fst snd] in E1, E2. destruct Hw as (_ & _ & _ & Hfl). cbn [snd] in Hfl.
  set (lo := window_first (base, size, flags)) in *. set (hi := window_end (base, size, flags)) in *. unfold map_supervisor_2m. rewrite E1, E2, large_pages_spec.
  eapply runs_step; [apply (runs_seek (λ i _ s', s' = with_pages s (us_mem s') (us_pmm s') ∧ bare m0 a0 (us_mem s') (us_pmm s') root (λ j, P j ∨ lo ≤ j < lo + i)) (λ _ _, False))|].
  - lia.
  - intros i [] s' Hi (Ep & Hb'). unfold supervisor_body. change LARGE_PAGE_SIZE with (2 ^ 21). replace (lo * 2 ^ 21 + i * 2 ^ 21) with ((lo + i) * 2 ^ 21) by lia.
    destruct (bare_step m0 a0 _ _ root _ flags (lo + i) Hb' ltac:(lia) Hfl) as [E|(m' & a' & E & Hb2)].
    { apply (may_runs True), may_panic; [|done]. unfold on_tables. by rewrite E. }
    apply wp_runs. eapply (wp_known _ _ _ (with_pages s' m' a') K_OK); [unfold on_tables; by rewrite E|]. apply wp_ret. cbn [with_pages us_mem us_pmm]. split; [rewrite Ep; done|].
    destruct Hb2 as [B1 B2 B3 B4 B5 B6]. split; try done. intros va. specialize (B3 va). destruct (slot m' root va) as [[l e]|]; [destruct B3 as (? & ? & ? & [[?|?]|?])|]; [split_and!; auto with lia..|].
    intros [?|?]; apply B3; [auto|]. destruct (decide (lpn va = lo + i)); [auto|left; right; lia].
  - split; [by destruct s|]. destruct Hb as [B1 B2 B3 B4 B5 B6]. split; try done. intros va. specialize (B3 va). destruct (slot (us_mem s) root va) as [[l e]|]; [naive_solver|].
    intros [?|?]; [by apply B3|lia].
  - intros [[]|] s'; [|done]. intros (Ep & Hb'). apply wp_runs, wp_ret. split; [done|]. split; [done|]. by replace (lo + (hi - lo)) with hi in Hb' by lia.
Qed.

Lemma map_windows_spec m0 a0 root ws s P :
  Forall window_ok ws → bare m0 a0 (us_mem s) (us_pmm s) root P →
  runs (map_windows root ws) s (λ r s', r = 0 ∧ s' = with_pages s (us_mem s') (us_pmm s') ∧
    bare m0 a0 (us_mem s') (us_pmm s') root (λ j, P j ∨ Exists (λ w, window_first w ≤ j < window_end w) ws)).
Proof.
  revert s P. induction ws as [|[[base size] flags] ws IH]; intros s P Hok Hb.
  - apply wp_runs, wp_ret. split; [done|]. split; [by destruct s|]. eapply bare_ext; [|exact Hb]. intros j. rewrite Exists_nil. tauto.
  - apply Forall_cons in Hok as [Hw Hok]. cbn [map_windows].
    eapply runs_step; [apply (map_window s m0 a0 root base size flags P Hw Hb)|]. intros r s1 (-> & E1 & Hb1). cbn [Z.eqb negb].
    eapply runs_mono; [apply (IH s1 _ Hok Hb1)|]. intros r s2 (-> & E2 & Hb2). split; [done|]. split; [rewrite E2, E1; done|].
    eapply bare_ext; [|exact Hb2]. intros j. cbn beta. rewrite Exists_cons. tauto.
Qed.

Lemma new_table_bare (m : mem) (a : pmm) : pa_ok a →
  paging_new_table m a = Panic ∨
  ∃ m' a' root, paging_new_table m a = Ret (m', a', root) ∧ bare m a m' a' root (λ _, False) ∧ root ≠ 0.
Proof.
  intros Hok. unfold paging_new_table. destruct (pa_alloc a Hok) as [[_ ->]|(a' & root & E & Hok' & Hc & Hm & Hr & Hman & Hf & Hnf & Hg & Hmono)]; [by left|right].
  rewrite E. cbn [mbind outcome_bind]. destruct (Z.eqb_spec root 0) as [|_]; [lia|]. destruct (clear_table m root Hm) as (m' & -> & Hz & _ & Hb). cbn [mbind outcome_bind].
  exists m', a', root. split; [done|]. split; [|lia]. destruct (empty_inv m' a' root Hok' Hm ltac:(lia) Hnf Hz) as [Hinv Hno].
  assert (∀ p t, vpath p → walk m' root p = Some t → t = root) as Honly.
  { intros [|i p] t [_ Hp] Hw; [by injection Hw|]. apply Forall_cons in Hp as [Hi _]. exfalso. enough (walk m' root ([i] ++ p) = None) by (cbn [app] in *; congruence).
    apply walk_app_None. change [i] with ([] ++ [i]). rewrite walk_snoc. cbn [walk foldl mbind option_bind]. unfold enter. by rewrite Hz. }
  split; [done|..].
  - intros t (p & Hp & Hw). by rewrite (Honly p t Hp Hw).
  - intros va. specialize (Hno va). rewrite (translate_leaf _ _ _ _ Hinv) in Hno. apply leaf_mapped in Hno. rewrite Hno. by intros [].
  - done.
  - done.
  - intros x Hx. apply Hb. fold (page x). intros Ex. by rewrite Ex in Hx.
Qed.

(** The windows of [mc] are inside the identity map. *)
Definition machine_ok (mc : machine) : Prop :=
  u64 (kernel_base (mc_boot mc) + kernel_size (mc_boot mc)) ≤ USER_IMAGE_BASE ∧
  (fb_base (mc_boot mc) ≠ 0 → fb_size (mc_boot mc) ≠ 0 → 0 ≤ fb_base (mc_boot mc) ∧ 0 < fb_size (mc_boot mc) ∧ fb_base (mc_boot mc) + fb_size (mc_boot mc) ≤ 2 ^ 46) ∧
  0 ≤ mc_lapic mc < 2 ^ 45 ∧
  (mc_initramfs_base mc ≠ 0 → mc_initramfs_size mc ≠ 0 → 0 ≤ mc_initramfs_base mc ∧ 0 < mc_initramfs_size mc ∧ mc_initramfs_base mc + mc_initramfs_size mc ≤ 2 ^ 46).

Lemma windows_ok mc : machine_ok mc → Forall window_ok (windows mc).
Proof.
  intros (_ & H1 & H2 & H3). unfold windows. rewrite !Forall_app. split_and!.
  - repeat constructor; done.
  - destruct (Z.eqb_spec (fb_base (mc_boot mc)) 0), (Z.eqb_spec (fb_size (mc_boot mc)) 0); cbn [negb andb]; constructor; [|constructor]. destruct H1 as (? & ? & ?); [done..|]. split_and!; done.
  - constructor; [|constructor]. change LARGE_PAGE_SIZE with (2 ^ 21). split_and!; cbn [fst snd]; (lia || done).
  - destruct (Z.eqb_spec (mc_initramfs_base mc) 0), (Z.eqb_spec (mc_initramfs_size mc) 0); cbn [negb andb]; constructor; [|constructor]. destruct H3 as (? & ? & ?); [done..|]. split_and!; done.
Qed.

(** The large pages that every space has. *)
Definition kernel_window (mc : machine) (j : Z) : Prop := Exists (λ w, window_first w ≤ j < window_end w) (windows mc).

Lemma kernel_window_0 mc : kernel_window mc 0.
Proof. unfold kernel_window, windows. apply Exists_app. left. constructor. split; reflexivity || done. Qed.

Context {KL : KallocLaws H}.

Lemma create_spec s mc L :
  machine_ok mc → pa_ok (us_pmm s) → klive (us_heap s) L →
  runs (user_address_space_create mc) s (λ space s', ∃ root h, space ≠ 0 ∧ space ∉ L ∧ klive h ({[space]} ∪ L) ∧
    s' = mk_us (us_mem s') (us_pmm s') h (<[space := root]> (us_spaces s)) (us_cr3 s) (us_kernel s) ∧
    bare (us_mem s) (us_pmm s) (us_mem s') (us_pmm s') root (kernel_window mc)).
Proof.
  intros Hmc Hok Hl. unfold user_address_space_create. destruct (Z.ltb_spec USER_IMAGE_BASE (u64 (kernel_base (mc_boot mc) + kernel_size (mc_boot mc)))); [destruct Hmc; lia|].
  assert (runs new_space s (λ p s', ∃ h, p ≠ 0 ∧ p ∉ L ∧ klive h ({[p]} ∪ L) ∧ s' = mk_us (us_mem s) (us_pmm s) h (<[p := 0]> (us_spaces s)) (us_cr3 s) (us_kernel s))) as Hnew.
  { unfold runs, new_space. destruct (knew_spec (us_heap s) L 8 Hl ltac:(lia)) as [-> |(h & p & -> & Hp & Hpl & Hl')]; [done|]. cbn [mbind outcome_bind].
    exists h. destruct (Z.eqb_spec p 0) as [|_]; [done|]. done. }
  eapply runs_step; [exact Hnew|]. intros space s1 (h & Hp & HpL & Hl1 & ->). destruct (Z.eqb_spec space 0) as [|_]; [done|].
  destruct (new_table_bare (us_mem s) (us_pmm s) Hok) as [Et|(m1 & a1 & root & Et & Hb1 & Hr)].
  { apply (may_runs True), may_panic; [|done]. unfold on_tables. cbn [us_mem us_pmm]. by rewrite Et. }
  set (s2 := mk_us m1 a1 h (<[space := root]> (<[space := 0]> (us_spaces s))) (us_cr3 s) (us_kernel s)). apply (may_runs True).
  eapply (may_known _ _ _ _ (mk_us m1 a1 h (<[space := 0]> (us_spaces s)) (us_cr3 s) (us_kernel s)) root); [unfold on_tables; cbn [us_mem us_pmm]; by rewrite Et|].
  eapply (may_known _ _ _ _ s2 tt); [done|]. eapply runs_step; [apply (map_windows_spec (us_mem s) (us_pmm s) root (windows mc) s2 _ (windows_ok mc Hmc) Hb1)|].
  intros r s3 (-> & E3 & Hb3). cbn [Z.eqb negb]. apply wp_runs. eapply (wp_known get_mem _ _ s3 (us_mem s3)); [done|]. eapply (wp_known _ _ _ (with_pages s3 (allow_user (us_mem s3) root) (us_pmm s3)) tt); [done|].
  apply wp_ret. exists root, h. split; [done|]. split; [done|]. split; [done|]. cbn [with_pages us_mem us_pmm]. split.
  { rewrite E3. unfold with_pages, s2. cbn [us_mem us_pmm us_heap us_spaces us_cr3 us_kernel]. by rewrite insert_insert_eq. }
  apply bare_allow; [eapply bare_ext; [|exact Hb3]; unfold kernel_window; tauto|apply kernel_window_0].
Qed.

End New.
