(* ===== verification/UspaceIso.v ===== *)
(** Processes do not see each other: through a sequence of operations on the address spaces of [Uspace], each with arguments as
    in [op_ok], every space keeps its invariant, no page belongs to two spaces, and an operation on one space changes nothing in another. *)

From stdpp Require Import gmap.
From S2P Require Import Prelude Kmath CString Layout Pmm Memory Paging Vmm StateM Heap Kalloc Uspace UspaceSpec UspaceMap UspaceFree UspaceNew.

(** ** Two spaces *)

Definition apart (m : mem) (r r' : Z) : Prop := ∀ p, footprint m r p → ¬ footprint m r' p.

(** The space at [r] is the same before and after. *)
Record untouched (m : mem) (m' : mem) (r : Z) : Prop := {
  un_slot va : slot m' r va = slot m r va;
  un_byte va : ubyte m' r va = ubyte m r va;
  un_foot p : footprint m' r p ↔ footprint m r p
}.

Lemma space_untouched_trans m m1 m2 r : untouched m m1 r → untouched m1 m2 r → untouched m m2 r.
Proof. intros [U1 U2 U3] [V1 V2 V3]. split; intros; [by rewrite V1|by rewrite V2|by rewrite V3]. Qed.

(** Bytes of its own pages are the same. *)
Lemma untouched_bytes m a m' a' r :
  user_ok m a r → (∀ x, footprint m r (page x) → load8 m' x = load8 m x) → pa_ok a' → pa_geometry a' = pa_geometry a →
  (∀ p, footprint m r p → ¬ pa_isfree a' p) → user_ok m' a' r ∧ untouched m m' r.
Proof.
  intros Ho Hb Hok Hg Hf. destruct (slots_ext m m' a r (uo_tree _ _ _ Ho)) as (Hinv & Hw & Hs); [intros x Hx; apply Hb; by left|].
  assert (∀ p, footprint m' r p ↔ footprint m r p) as Hfp by (intros p; by apply footprint_same). pose proof (λ t, is_table_walk m m' r t Hw) as Ht.
  split; [|split; [done| |done]].
  - destruct Ho as [O0 O1 O2 O3 O4]. split.
    + constructor; [done| |apply Hinv|apply Hinv]. intros q t Hq Hw'. destruct (pi_page _ _ _ Hinv q t Hq Hw') as (? & ? & _). split; [done|]. split; [done|].
      apply Hf, Hfp. left. by exists q.
    + intros t. rewrite Ht, Hg. apply O1.
    + intros va e. rewrite Hs, Ht, Hg. intros Hv. destruct (O2 va e Hv) as (? & ? & _ & ?). split; [done|]. split; [done|]. split; [|done]. apply Hf. right. by exists va, e.
    + intros va va' e e'. rewrite !Hs. apply O3.
    + intros va e. rewrite Hs. apply O4.
  - intros va. unfold ubyte. rewrite Hs. destruct (slot m r va) as [[[] e]|] eqn:Ev; [done| |done]. f_equal. apply Hb. rewrite page_frame. right. by exists va, e.
Qed.

(** A step of one space does not touch another. *)
Lemma within_other m a m' a' r r' :
  user_ok m a r → user_ok m a r' → apart m r r' → within m a m' a' r → pa_ok a' → user_ok m' a' r' ∧ untouched m m' r' ∧ apart m' r r'.
Proof.
  intros Ho Ho' Hap (W1 & W2 & W3 & W4) Hok.
  destruct (untouched_bytes m a m' a' r' Ho') as [Ho2 Hu]; [|done|done| |].
  - intros x Hx. apply W2; [by apply (footprint_used _ _ _ _ Ho')|]. intros Hc. by apply (Hap _ Hc).
  - intros p Hp. pose proof (footprint_page _ _ _ _ (uo_tree _ _ _ Ho') Hp) as E. rewrite <-E. intros [Hf|Hf]%W3; rewrite E in Hf; [by apply (footprint_used _ _ _ _ Ho' Hp)|by apply (Hap _ Hf)].
  - split; [done|]. split; [done|]. intros p Hp Hp'. rewrite (un_foot _ _ _ Hu) in Hp'. pose proof (footprint_page _ _ _ _ (uo_tree _ _ _ Ho') Hp') as E. rewrite <-E in Hp.
    destruct (W4 p Hp) as [Hq|Hq]; rewrite E in Hq; [by apply (Hap _ Hq)|]. by apply (footprint_used _ _ _ _ Ho' Hp').
Qed.

(** ** The operations *)

(** A write to user pages. *)
Lemma written_within m a m' root dst d : user_ok m a root → written m m' root dst d → within m a m' a root.
Proof.
  intros Ho Hw.
  assert (∀ x, ¬ footprint m root (page x) ∨ is_table m root (page x) → load8 m' x = load8 m x) as Hb.
  { intros x Hx. destruct (wr_only _ _ _ _ _ Hw x) as [?|(va & e & _ & Hs & ->)]; [done|]. exfalso. rewrite page_frame in Hx. destruct Hx as [Hx|Hx]; [apply Hx; right; by exists va, e|].
    by destruct (uo_leaf _ _ _ Ho va e Hs) as (_ & ? & _). }
  destruct (user_ok_data m m' a root Ho) as (_ & _ & Hfp); [intros x Hx; apply Hb; by right|].
  split; [done|]. split; [intros x _ Hx; apply Hb; by left|]. split; [by left|]. intros x Hx. left. by apply Hfp.
Qed.

Lemma removed_within m a m' a' root lo hi : user_ok m a root → removed m a m' a' root lo hi → within m a m' a' root.
Proof.
  intros Ho [R1 R2 R3 R4 R5 R6]. split; [done|]. split; [intros x _ Hx; apply R5; intros Ht; apply Hx; by left|]. split.
  - intros x [?|(va & e & _ & Hs & Ex)]%R6; [by left|]. right. right. exists va, e. split; [done|]. by rewrite page_id in Ex by apply page_mod.
  - intros x [Ht|(va & e & Hs & Ex)]; left; [left; by apply (is_table_walk m m' root _ R3)|right; exists va, e]. split; [|done].
    rewrite R4 in Hs. revert Hs. by dec_if.
Qed.

Section Iso.
Context {H : Type} {KA : Kalloc H} {KL : KallocLaws H}.
Implicit Types s : us H.

Record spaces_ok s : Prop := {
  so_alloc : pa_ok (us_pmm s);
  so_heap : ∃ L, klive (us_heap s) L ∧ dom (us_spaces s) ⊆ L;
  so_space space root : us_spaces s !! space = Some root → space ≠ 0 ∧ user_ok (us_mem s) (us_pmm s) root;
  so_apart space space' root root' : space ≠ space' → us_spaces s !! space = Some root → us_spaces s !! space' = Some root' → apart (us_mem s) root root'
}.

(** What the kernel does for user processes. *)
Inductive uop :=
| Create (mc : machine)
| Map (space va size flags : Z)
| Unmap (space va size : Z)
| CopyTo (space udst : Z) (src : list Z) (n : Z)
| CopyFrom (space : Z) (dst : list Z) (usrc n : Z)
| Fill (space dst : Z) (src : list Z) (soff size : Z)
| Zero (space dst size : Z)
| Destroy (space : Z).

Definition run_op (op : uop) : stM (us H) unit :=
  match op with
  | Create mc => user_address_space_create mc;; mret tt
  | Map space va size flags => user_map_range space va size flags;; mret tt
  | Unmap space va size => user_unmap_range space va size;; mret tt
  | CopyTo space udst src n => user_copy_to_user space udst src n;; mret tt
  | CopyFrom space dst usrc n => user_copy_from_user space dst usrc n;; mret tt
  | Fill space dst src soff size => user_copy_to_space space dst src soff size;; mret tt
  | Zero space dst size => user_zero_in_space space dst size;; mret tt
  | Destroy space => user_address_space_destroy space
  end.

Definition target (op : uop) : option Z :=
  match op with
  | Create _ => None
  | Map space _ _ _ | Unmap space _ _ | CopyTo space _ _ _ | CopyFrom space _ _ _ | Fill space _ _ _ _ | Zero space _ _ | Destroy space => Some space
  end.

(** What the operations are given. The address spaces exist. The arguments of [Map], [CopyTo] and [CopyFrom] are any of their
    types, up to the length of the kernel's buffer; there may be too little memory. [Unmap] is not for a range with a 2 MiB
    page of the kernel, whose memory it would free. [Fill] and [Zero], which the loader calls and which check nothing, are for
    ranges that are mapped. The windows of [Create] are below 2^46. *)
Definition op_ok s (op : uop) : Prop :=
  match op with
  | Create mc => machine_ok mc
  | Map space va size _ => is_Some (us_spaces s !! space) ∧ is_u64 va ∧ is_u64 size
  | Unmap space va size => ∃ root, us_spaces s !! space = Some root ∧ is_u64 va ∧ is_u64 size ∧
      ∀ i, 0 ≤ i < pages_of size → covered_2m (us_mem s) root (va + i * 4096) = false
  | CopyTo space udst src n => is_Some (us_spaces s !! space) ∧ is_u64 udst ∧ 0 ≤ n ≤ zlen src ∧ n < 2 ^ 64
  | CopyFrom space dst usrc n => is_Some (us_spaces s !! space) ∧ is_u64 usrc ∧ 0 ≤ n ≤ zlen dst ∧ n < 2 ^ 64
  | Fill space dst src soff size => ∃ root, us_spaces s !! space = Some root ∧ 0 ≤ dst ∧ 0 ≤ size ∧ dst + size ≤ USER_TOP ∧
      0 ≤ soff ∧ soff + size ≤ zlen src ∧ mapped (us_mem s) root dst size
  | Zero space dst size => ∃ root, us_spaces s !! space = Some root ∧ 0 ≤ dst ∧ 0 ≤ size ∧ dst + size ≤ USER_TOP ∧ mapped (us_mem s) root dst size
  | Destroy space => is_Some (us_spaces s !! space)
  end.

(** What an operation on [t] leaves alone. *)
Definition others_kept (t : option Z) s s' : Prop :=
  ∀ space root, us_spaces s !! space = Some root → t ≠ Some space → us_spaces s' !! space = Some root ∧ untouched (us_mem s) (us_mem s') root.

Definition step_ok (t : option Z) s s' : Prop := spaces_ok s' ∧ others_kept t s s'.

Lemma untouched_refl m r : untouched m m r.
Proof. by split. Qed.

Lemma step_ok_refl t s : spaces_ok s → step_ok t s s.
Proof. intros Hs. split; [done|]. intros space root Hl _. split; [done|apply untouched_refl]. Qed.

(** A step within one space that keeps the table of spaces. *)
Lemma step_within s m' a' space root :
  spaces_ok s → us_spaces s !! space = Some root → within (us_mem s) (us_pmm s) m' a' root → user_ok m' a' root → step_ok (Some space) s (with_pages s m' a').
Proof.
  intros [S1 S2 S3 S4] Hsp Hw Ho. pose proof (pi_alloc _ _ _ (uo_tree _ _ _ Ho)) as Hok. destruct (S3 _ _ Hsp) as [_ Ho0].
  assert (∀ sp r, us_spaces s !! sp = Some r → sp ≠ space → user_ok m' a' r ∧ untouched (us_mem s) m' r ∧ apart m' root r) as Hother.
  { intros sp r Hl Hne. destruct (S3 _ _ Hl) as [_ Hr]. apply (within_other (us_mem s) (us_pmm s)); try done. by apply (S4 space sp). }
  split; [split; cbn [with_pages us_pmm us_heap us_mem us_spaces]; try done|].
  - intros sp r Hl. split; [by apply (S3 _ _ Hl)|]. destruct (decide (sp = space)) as [->|Hne]; [congruence|by apply (Hother sp)].
  - intros sp sp' r r' Hne Hl Hl'. destruct (decide (sp = space)) as [->|Hn1].
    { assert (r = root) as -> by congruence. apply (Hother sp'); congruence. }
    destruct (Hother sp r Hl Hn1) as (_ & Hu & Hap). destruct (decide (sp' = space)) as [->|Hn2].
    { assert (r' = root) as -> by congruence. intros p Hp Hp'. by apply (Hap p). }
    destruct (Hother sp' r' Hl' Hn2) as (_ & Hu' & _). intros p Hp%(un_foot _ _ _ Hu) Hp'%(un_foot _ _ _ Hu'). by apply (S4 sp sp' r r' Hne Hl Hl' p).
  - intros sp r Hl Hne. split; [done|]. apply (Hother sp); congruence.
Qed.

(** The arguments that the range operations accept. *)
Lemma range_accepted va size : is_u64 va → is_u64 size →
  has va PAGE_MASK = false → (let end_ := u64 (va + PAGE_ALIGN_UP size) in (end_ <=? va) || (USER_TOP <? end_) = false) →
  va mod 4096 = 0 ∧ 0 < size ∧ va + size ≤ USER_TOP.
Proof.
  unfold is_u64. intros Hv Hs Hm Hg. change PAGE_MASK with (2 ^ 12 - 1) in Hm. rewrite has_mask in Hm by lia. apply negb_false_iff, Z.eqb_eq in Hm. change (2 ^ 12) with 4096 in Hm. split; [done|].
  cbv zeta in Hg. apply orb_false_iff in Hg as [G1%Z.leb_gt G2%Z.ltb_ge]. unfold USER_TOP in *.
  destruct (decide (size + 4095 < 2 ^ 64)) as [Hlt|Hlt].
  - rewrite page_align_up_spec in * by lia. destruct (decide (va + 4096 * ((size + 4095) / 4096) < 2 ^ 64)).
    + rewrite u64_small in * by zlia. split; zlia.
    + exfalso. assert (u64 (va + 4096 * ((size + 4095) / 4096)) = va + 4096 * ((size + 4095) / 4096) - 2 ^ 64) as E by (unfold u64; symmetry; apply (Z.mod_unique _ _ 1); zlia). rewrite E in *. zlia.
  - exfalso. assert (PAGE_ALIGN_UP size = 0) as E; [|rewrite E, Z.add_0_r, u64_small in G1; lia].
    unfold PAGE_ALIGN_UP. change PAGE_MASK with 4095. assert (u64 (size + 4095) = size + 4095 - 2 ^ 64) as -> by (unfold u64; symmetry; apply (Z.mod_unique _ _ 1); lia).
    change 4095 with (2 ^ 12 - 1) at 2. rewrite land_not_low by (unfold is_u64; lia). change (2 ^ 12) with 4096. zlia.
Qed.

Lemma then_unit {A} (m : stM (us H) A) s (Q : us H → Prop) : runs m s (λ _ s', Q s') → runs (m;; mret tt) s (λ _ s', Q s').
Proof. intros Hm. eapply runs_step; [exact Hm|]. intros a s' HQ. exact HQ. Qed.

Lemma map_step s space va size flags : spaces_ok s → op_ok s (Map space va size flags) → runs (user_map_range space va size flags) s (λ _ s', step_ok (Some space) s s').
Proof.
  intros Hs ([root Hl] & Hv & Hz). destruct (so_space _ Hs _ _ Hl) as [Hnz Ho]. unfold user_map_range. destruct (Z.eqb_spec space 0) as [|_]; [done|]. cbn [orb].
  destruct (has va PAGE_MASK) eqn:Em; [by apply step_ok_refl|]. cbv zeta.
  destruct ((u64 (va + PAGE_ALIGN_UP size) <=? va) || (USER_TOP <? u64 (va + PAGE_ALIGN_UP size))) eqn:Eg; [by apply step_ok_refl|].
  destruct (range_accepted va size Hv Hz Em Eg) as (Hm & Hs0 & Ht). pose proof (map_range_try s space root va size flags Hl Hnz Ho Hm (proj1 Hv) Hs0 Ht) as Hw.
  unfold user_map_range in Hw. destruct (Z.eqb_spec space 0) as [|_]; [done|]. rewrite Em in Hw. cbn [orb] in Hw. cbv zeta in Hw. rewrite Eg in Hw.
  eapply may_runs, may_mono; [exact Hw|exact id|]. intros r s' (n & _ & Mu & _). rewrite (mu_pages _ _ _ _ _ _ Mu). by apply (step_within _ _ _ _ root Hs Hl); apply Mu.
Qed.

Lemma unmap_step s space va size : spaces_ok s → op_ok s (Unmap space va size) → runs (user_unmap_range space va size) s (λ _ s', step_ok (Some space) s s').
Proof.
  intros Hs (root & Hl & Hv & Hz & Hc). destruct (so_space _ Hs _ _ Hl) as [Hnz Ho]. unfold user_unmap_range. destruct (Z.eqb_spec space 0) as [|_]; [done|]. cbn [orb].
  destruct (has va PAGE_MASK) eqn:Em; [by apply step_ok_refl|]. cbv zeta.
  destruct ((u64 (va + PAGE_ALIGN_UP size) <=? va) || (USER_TOP <? u64 (va + PAGE_ALIGN_UP size))) eqn:Eg; [by apply step_ok_refl|].
  destruct (range_accepted va size Hv Hz Em Eg) as (Hm & Hs0 & Ht). pose proof (unmap_range_spec s space root va size Hl Hnz Ho Hm (proj1 Hv) Hs0 Ht Hc) as Hw.
  unfold user_unmap_range in Hw. destruct (Z.eqb_spec space 0) as [|_]; [done|]. rewrite Em in Hw. cbn [orb] in Hw. cbv zeta in Hw. rewrite Eg in Hw.
  apply wp_runs. eapply wp_mono; [exact Hw|]. intros r s' (_ & -> & R). apply (step_within _ _ _ _ root Hs Hl); [by eapply removed_within|apply R].
Qed.

(** A write to user pages of one space. *)
Lemma bytes_step s space root m' dst d :
  spaces_ok s → us_spaces s !! space = Some root → written (us_mem s) m' root dst d → user_ok m' (us_pmm s) root → step_ok (Some space) s (with_mem s m').
Proof.
  intros Hs Hl Hw Hok. destruct (so_space _ Hs _ _ Hl) as [_ Ho]. change (with_mem s m') with (with_pages s m' (us_pmm s)).
  apply (step_within _ _ _ _ root Hs Hl); [by eapply written_within|done].
Qed.

Lemma copy_to_step_ok s space udst src n : spaces_ok s → op_ok s (CopyTo space udst src n) → runs (user_copy_to_user space udst src n) s (λ _ s', step_ok (Some space) s s').
Proof.
  intros Hs ([root Hl] & Hu & Hn & Hn2). destruct (so_space _ Hs _ _ Hl) as [Hnz Ho]. destruct (decide (n = 0)) as [->|]; [by apply step_ok_refl|].
  apply wp_runs. eapply wp_mono; [apply (copy_to_user_spec s space root udst src n Hl Hnz Ho Hu); lia|].
  intros r s' [(_ & _ & m' & -> & Hw & Hok)|(_ & _ & ->)]; [by eapply bytes_step|by apply step_ok_refl].
Qed.

Lemma copy_from_step_ok s space dst usrc n : spaces_ok s → op_ok s (CopyFrom space dst usrc n) → runs (user_copy_from_user space dst usrc n) s (λ _ s', step_ok (Some space) s s').
Proof.
  intros Hs ([root Hl] & Hu & Hn & Hn2). destruct (so_space _ Hs _ _ Hl) as [Hnz Ho]. destruct (decide (n = 0)) as [->|]; [by apply step_ok_refl|].
  apply wp_runs. eapply wp_mono; [apply (copy_from_user_spec s space root dst usrc n Hl Hnz Ho Hu); lia|]. intros r s' [-> _]. by apply step_ok_refl.
Qed.

Lemma fill_step s space dst src soff size : spaces_ok s → op_ok s (Fill space dst src soff size) → runs (user_copy_to_space space dst src soff size) s (λ _ s', step_ok (Some space) s s').
Proof.
  intros Hs (root & Hl & Hd & Hz & Ht & Hso & Hsl & Hm). destruct (so_space _ Hs _ _ Hl) as [Hnz Ho].
  apply wp_runs. eapply wp_mono; [by apply (copy_to_spec s space root dst src soff size)|]. intros r s' (_ & m' & -> & Hw & Hok). by eapply bytes_step.
Qed.

Lemma zero_step_ok s space dst size : spaces_ok s → op_ok s (Zero space dst size) → runs (user_zero_in_space space dst size) s (λ _ s', step_ok (Some space) s s').
Proof.
  intros Hs (root & Hl & Hd & Hz & Ht & Hm). destruct (so_space _ Hs _ _ Hl) as [Hnz Ho].
  apply wp_runs. eapply wp_mono; [by apply (zero_spec s space root dst size)|]. intros r s' (_ & m' & -> & Hw & Hok). by eapply bytes_step.
Qed.

(** A new space. *)
Lemma create_step s mc : spaces_ok s → op_ok s (Create mc) → runs (user_address_space_create mc) s (λ _ s', step_ok None s s').
Proof.
  intros [S1 (L & S2 & Hdom) S3 S4] Hmc. eapply runs_mono; [apply (create_spec s mc L Hmc S1 S2)|]. intros space s' (root & h & Hnz & HnL & Hl' & -> & Hb). cbn [us_mem us_pmm] in *.
  set (m' := us_mem s') in *. set (a' := us_pmm s') in *. destruct (bare_ok _ _ _ _ _ _ Hb) as [Hok Hfp]. destruct Hb as [B1 B2 B3 B4 B5 B6].
  assert (us_spaces s !! space = None) as Hfresh by (apply not_elem_of_dom; set_solver).
  assert (∀ sp r, us_spaces s !! sp = Some r → sp ≠ 0 ∧ user_ok m' a' r ∧ untouched (us_mem s) m' r ∧ apart m' root r) as Hother.
  { intros sp r Hl. destruct (S3 _ _ Hl) as [? Hr]. split; [done|]. destruct (untouched_bytes (us_mem s) (us_pmm s) m' a' r Hr) as [Hr' Hu]; [|apply B1|done| |].
    - intros x Hx. apply B6. by apply (footprint_used _ _ _ _ Hr).
    - intros p Hp Hf%B4. by apply (footprint_used _ _ _ _ Hr Hp).
    - split; [done|]. split; [done|]. intros p Hp%Hfp%B2 Hp'%(un_foot _ _ _ Hu). by apply (footprint_used _ _ _ _ Hr Hp'). }
  assert (∀ sp r, <[space := root]> (us_spaces s) !! sp = Some r → (sp = space ∧ r = root) ∨ (sp ≠ space ∧ us_spaces s !! sp = Some r)) as Hlook.
  { intros sp r. rewrite lookup_insert_Some. naive_solver. }
  split; [split; cbn [us_mem us_pmm us_heap us_spaces]|].
  - apply B1.
  - exists ({[space]} ∪ L). split; [done|]. rewrite dom_insert. set_solver.
  - intros sp r [[-> ->]|[_ Hl]]%Hlook; [done|]. destruct (Hother _ _ Hl) as (? & ? & _). done.
  - intros sp sp' r r' Hne [[-> ->]|[_ Hl1]]%Hlook [[-> ->]|[_ Hl2]]%Hlook; [done|by apply (Hother sp')| |].
    + intros p Hp Hp'. by apply (proj2 (proj2 (proj2 (Hother _ _ Hl1))) p).
    + destruct (Hother _ _ Hl1) as (_ & _ & U1 & _), (Hother _ _ Hl2) as (_ & _ & U2 & _). intros p Hp%(un_foot _ _ _ U1) Hp'%(un_foot _ _ _ U2). by apply (S4 sp sp' r r' Hne Hl1 Hl2 p).
  - intros sp r Hl _. cbn [us_mem us_spaces]. split; [rewrite lookup_insert_ne; [done|congruence]|]. by apply (Hother sp).
Qed.

(** A space and all its pages are given back. *)
Lemma destroy_spec s space root L :
  us_spaces s !! space = Some root → space ≠ 0 → user_ok (us_mem s) (us_pmm s) root → klive (us_heap s) L → space ∈ L →
  wp (user_address_space_destroy space) s (λ _ s', ∃ a' h, s' = mk_us (us_mem s) a' h (delete space (us_spaces s)) (us_cr3 s) (us_kernel s) ∧ klive h (L ∖ {[space]}) ∧
    pa_ok a' ∧ pa_geometry a' = pa_geometry (us_pmm s) ∧ ∀ q, pa_isfree a' q ↔ pa_isfree (us_pmm s) q ∨ footprint (us_mem s) root (page q)).
Proof.
  intros Hl Hnz Ho HL Hin. unfold user_address_space_destroy. destruct (Z.eqb_spec space 0) as [|_]; [done|]. eapply (wp_known _ _ _ s root); [unfold get_pml4; by rewrite Hl|].
  assert (root ≠ 0) as Hr.
  { intros ->. assert (is_table (us_mem s) 0 0) as Ht by (exists []; split; [split; [cbn; lia|constructor]|done]). apply Ho in Ht. destruct Ht as [Ht _]. by apply Ht. }
  destruct (Z.eqb_spec root 0) as [|_]; [done|]. destruct (free_space_spec _ _ _ Ho) as (a' & E & Hok & Hg & Hf). destruct (kdrop_spec (us_heap s) L space HL Hin) as (h & Eh & Hh).
  eapply (wp_known _ _ _ (with_pages s (us_mem s) a') tt); [unfold on_tables; by rewrite E|]. unfold wp, drop_space. cbn [with_pages us_heap]. rewrite Eh. cbn [mbind outcome_bind].
  exists a', h. done.
Qed.

Lemma destroy_step s space : spaces_ok s → op_ok s (Destroy space) → runs (user_address_space_destroy space) s (λ _ s', step_ok (Some space) s s').
Proof.
  intros [S1 (L & S2 & Hdom) S3 S4] [root Hl]. destruct (S3 _ _ Hl) as [Hnz Ho].
  assert (space ∈ L) as Hin by (apply Hdom, elem_of_dom; by exists root). apply wp_runs. eapply wp_mono; [by apply (destroy_spec s space root L)|].
  intros _ s' (a' & h & -> & HL & Hok & Hg & Hf).
  assert (within (us_mem s) (us_pmm s) (us_mem s) a' root) as Hw.
  { split; [done|]. split; [done|]. split; [|by left]. intros x Hx%Hf. by rewrite (page_id (page x)) in Hx by apply page_mod. }
  assert (∀ sp r, delete space (us_spaces s) !! sp = Some r → us_spaces s !! sp = Some r ∧ sp ≠ space ∧ sp ≠ 0 ∧ user_ok (us_mem s) a' r) as Hother.
  { intros sp r [Hne Hs]%lookup_delete_Some. split; [done|]. split; [done|]. destruct (S3 _ _ Hs) as [? Hr]. split; [done|]. by apply (within_other (us_mem s) (us_pmm s) _ a' root r Ho Hr (S4 space sp root r Hne Hl Hs) Hw). }
  split; [split; cbn [us_mem us_pmm us_heap us_spaces]|].
  - done.
  - exists (L ∖ {[space]}). split; [done|]. rewrite dom_delete. set_solver.
  - intros sp r (_ & _ & ? & ?)%Hother. done.
  - intros sp sp' r r' Hne (H1 & _)%Hother (H2 & _)%Hother. by apply (S4 sp sp').
  - intros sp r Hs Hne. cbn [us_mem us_spaces]. split; [apply lookup_delete_Some; split; [congruence|done]|apply untouched_refl].
Qed.

Lemma op_step s op : spaces_ok s → op_ok s op → runs (run_op op) s (λ _ s', step_ok (target op) s s').
Proof.
  intros Hs Ho. destruct op; cbn [run_op target]; [apply then_unit..|].
  - by apply create_step.
  - by apply map_step.
  - by apply unmap_step.
  - by apply copy_to_step_ok.
  - by apply copy_from_step_ok.
  - by apply fill_step.
  - by apply zero_step_ok.
  - by apply destroy_step.
Qed.

(** Sequences of operations. *)
Inductive usteps : list uop → us H → us H → Prop :=
| usteps_nil s : usteps [] s s
| usteps_cons op ops s s1 s2 : op_ok s op → run_op op s = Ret (s1, tt) → usteps ops s1 s2 → usteps (op :: ops) s s2.

Lemma usteps_ok ops s s' : usteps ops s s' → spaces_ok s → spaces_ok s' ∧
  ∀ space root, us_spaces s !! space = Some root → Forall (λ op, target op ≠ Some space) ops → us_spaces s' !! space = Some root ∧ untouched (us_mem s) (us_mem s') root.
Proof.
  induction 1 as [s|op ops s s1 s2 Ho Hr _ IH]; intros Hs.
  - split; [done|]. intros space root Hl _. split; [done|apply untouched_refl].
  - destruct (runs_ret _ _ _ _ _ (op_step s op Hs Ho) Hr) as [Hs1 Hk]. destruct (IH Hs1) as [Hs2 Hk2]. split; [done|].
    intros space root Hl [Ht Hts]%Forall_cons. destruct (Hk space root Hl Ht) as [Hl1 U1]. destruct (Hk2 space root Hl1 Hts) as [Hl2 U2]. split; [done|]. by eapply space_untouched_trans.
Qed.

End Iso.
