(* ===== verification/UspaceThm.v ===== *)
(** The properties of user address spaces: isolation of processes, exact copies, zeroed pages, release of all pages, and what
    [user_unmap_range] does to pages of the kernel. *)

From stdpp Require Import gmap.
From S2P Require Import Prelude Kmath CString Layout Pmm Memory Paging Vmm StateM Heap Kalloc Files Uspace UspaceSpec UspaceMap UspaceFree UspaceNew UspaceIso.

Section Thm.
Context {H : Type} {KA : Kalloc H} {KL : KallocLaws H}.
Implicit Types s : us H.

(** The pages [lo .. hi) are user pages, each with a frame of its own. *)
Definition own_pages (m : mem) (root lo hi : Z) : Prop :=
  ∀ va, 0 ≤ va < USER_TOP → lo ≤ va / 4096 < hi → ∃ e, slot m root va = Some (false, e) ∧ has e PAGE_USER = true ∧
    ∀ va' e', slot m root va' = Some (false, e') → frame_of e' = frame_of e → vpn va' = vpn va.

Lemma mapped_own s s' root va flags lo n :
  mapped_upto s s' root va flags n → lo = va / 4096 → own_pages (us_mem s') root lo (lo + n).
Proof.
  intros Mu -> va' Hva Hr. pose proof (mu_ok _ _ _ _ _ _ Mu) as Ho. destruct (ex_new _ _ _ _ _ _ (mu_ext _ _ _ _ _ _ Mu) va' Hva Hr) as (_ & e & He & _).
  exists e. split; [done|]. split; [by apply (uo_leaf _ _ _ Ho va')|]. intros va2 e2 H2 Ef. by apply (uo_inj _ _ _ Ho va2 va' e2 e).
Qed.

(** C1. Isolation. Through a sequence of operations on address spaces (creating and destroying them, mapping, unmapping, copying
    in and out, and the loader's copies and clears) every space keeps its invariant, no page of memory belongs to two spaces,
    and a space that no operation was for has the same mappings, pages and bytes as before. Memory may run out at any point,
    an operation that fails may have done a part of its work, and the sequence ends where the kernel panics. The operations are
    on spaces that exist, and as in [op_ok]: no range to unmap has a 2 MiB page of the kernel in it ([munmap_kernel_page] is
    what happens then), the loader's ranges are mapped, and the kernel windows of a new space are below 2^46. *)
Theorem user_isolation ops s s' :
  spaces_ok s → usteps ops s s' → spaces_ok s' ∧
  ∀ space root, us_spaces s !! space = Some root → Forall (λ op, target op ≠ Some space) ops →
    us_spaces s' !! space = Some root ∧ ∀ va, slot (us_mem s') root va = slot (us_mem s) root va ∧ ubyte (us_mem s') root va = ubyte (us_mem s) root va.
Proof.
  intros Hs Hu. destruct (usteps_ok ops s s' Hu Hs) as [Hs' Hk]. split; [done|]. intros space root Hl Hf. destruct (Hk space root Hl Hf) as [Hl' [U1 U2 _]]. split; [done|]. intros va. by rewrite U1, U2.
Qed.

(** C5. [user_copy_to_user] writes the bytes when the whole range is in user pages that are writable, and then changes nothing
    else of the user's memory, and [user_copy_from_user] reads the same bytes back; otherwise the result is -EFAULT and
    nothing has changed. *)
Theorem user_copy_exact s space root udst src n :
  spaces_ok s → us_spaces s !! space = Some root → is_u64 udst → 0 < n ≤ zlen src → n < 2 ^ 64 →
  wp (user_copy_to_user space udst src n) s (λ r s',
    (accessible (us_mem s) root udst n true ∧ r = 0 ∧
      (∀ va, 0 ≤ va < USER_TOP → ubyte (us_mem s') root va = if decide (udst ≤ va < udst + n) then src !! Z.to_nat (va - udst) else ubyte (us_mem s) root va) ∧
      ∀ dst, zlen dst = n → user_copy_from_user space dst udst n s' = Ret (s', (0, take (Z.to_nat n) src))) ∨
    (¬ accessible (us_mem s) root udst n true ∧ r = - SYS_EFAULT ∧ s' = s)).
Proof.
  intros Hs Hl Hu Hn Hn2. destruct (so_space _ Hs _ _ Hl) as [Hnz Ho]. eapply wp_mono; [by apply (copy_to_user_spec s space root udst src n)|].
  assert (zlen (take (Z.to_nat n) src) = n) as Hzl by (unfold zlen in *; rewrite length_take; lia).
  intros r s' [(Hacc & -> & m' & -> & Hw & Hok)|?]; [left|by right]. split; [done|]. split; [done|]. cbn [with_mem us_mem].
  assert (∀ va, 0 ≤ va < USER_TOP → ubyte m' root va = if decide (udst ≤ va < udst + n) then src !! Z.to_nat (va - udst) else ubyte (us_mem s) root va) as Hb.
  { intros va Hva. rewrite (wr_byte _ _ _ _ _ Hw va Hva), Hzl. dec_if; [|done]. rewrite lookup_take_lt; [done|]. lia. }
  split; [done|]. intros dst Hd. destruct (wp_run _ _ _ (copy_from_user_spec (with_mem s m') space root dst udst n Hl Hnz Hok Hu ltac:(lia) Hn2)) as (s2 & r & E & -> & Hr).
  rewrite E. do 2 f_equal. destruct Hr as [[Ha ->]|[Hna _]].
  - f_equal. rewrite zsplice_all by (rewrite zlen_uslice; lia). apply list_eq_Z. intros i Hi. destruct (decide (i < n)) as [Hlt|].
    + rewrite lookup_uslice by lia. cbn [with_mem us_mem]. rewrite Hb by (destruct Ha; unfold is_u64 in Hu; lia). rewrite decide_True by lia. rewrite lookup_take_lt by lia.
      replace (udst + i - udst) with i by lia. destruct (lookup_in src i) as [b ->]; [lia|done].
    + rewrite !lookup_ge_None_2; [done|unfold zlen in *; lia|]. pose proof (zlen_uslice (us_mem (with_mem s m')) root udst n). unfold zlen in *. lia.
  - destruct Hna. destruct Hacc as [Ht Hall]. split; [done|]. intros va Hva. destruct (Hall va Hva) as (e & He & _). exists e. split; [|done]. cbn [with_mem us_mem]. by rewrite (wr_slot _ _ _ _ _ Hw).
Qed.

(** C11. [user_map_range] on a page-aligned range of user addresses. It maps the first [n] pages of the range: each is then a user
    page that reads as zeros and is writable as asked, no two of them have the same frame and no frame is a page of another
    space; all other memory of the space and of the other spaces is unchanged. It returns 0 when these are all pages. It returns
    -1 otherwise, and then either a 2 MiB page of the kernel has page [n] or there were less than four free pages for each page
    of the range and none is left. It panics only with less than that many free pages. *)
Theorem user_map_range_zeroed s space root va size flags :
  spaces_ok s → us_spaces s !! space = Some root → va mod 4096 = 0 → 0 ≤ va → 0 < size → va + size ≤ USER_TOP →
  may (pa_nfree (us_pmm s) < 4 * pages_of size) (user_map_range space va size flags) s (λ r s', ∃ n,
    step_ok (Some space) s s' ∧
    extended (us_mem s) (us_mem s') root (va / 4096) (va / 4096 + n) flags ∧ own_pages (us_mem s') root (va / 4096) (va / 4096 + n) ∧
    (∀ i, 0 ≤ i < n → covered_2m (us_mem s) root (va + i * 4096) = false) ∧
    ((r = 0 ∧ n = pages_of size) ∨
     (r = -1 ∧ 0 ≤ n < pages_of size ∧
       (covered_2m (us_mem s) root (va + n * 4096) = true ∨ pa_nfree (us_pmm s) < 4 * pages_of size ∧ pa_nfree (us_pmm s') = 0)))).
Proof.
  intros Hs Hl Hm H0 Hsz Ht. destruct (so_space _ Hs _ _ Hl) as [Hnz Ho]. eapply may_mono; [by apply (map_range_try s space root)|done|].
  intros r s' (n & Hr & Mu & _ & Hc & Hd). exists n. split.
  { rewrite (mu_pages _ _ _ _ _ _ Mu). by apply (step_within _ _ _ _ root Hs Hl); apply Mu. }
  split; [apply Mu|]. split; [by apply (mapped_own _ _ _ _ _ _ _ Mu)|]. split; [done|]. naive_solver.
Qed.

(** C10. [user_address_space_destroy] does not panic, whatever the user has mapped: every page of the space, its tables and its
    frames, is given back once, and no other page is. *)
Theorem user_destroy_exact s space root :
  spaces_ok s → us_spaces s !! space = Some root →
  wp (user_address_space_destroy space) s (λ _ s', us_spaces s' = delete space (us_spaces s) ∧ us_mem s' = us_mem s ∧
    ∀ q, pa_isfree (us_pmm s') q ↔ pa_isfree (us_pmm s) q ∨ footprint (us_mem s) root (page q)).
Proof.
  intros Hs Hl. destruct (so_space _ Hs _ _ Hl) as [Hnz Ho]. destruct (so_heap _ Hs) as (L & HL & Hdom).
  eapply wp_mono; [apply (destroy_spec s space root L); try done; apply Hdom, elem_of_dom; by exists root|]. intros _ s' (a' & h & -> & _ & _ & _ & Hf). done.
Qed.

(** [user_unmap_range] of a page in a window of the kernel, a 2 MiB supervisor page: the window stays mapped and the page of
    memory behind it goes to [pmm_free_page]. *)
Lemma unmap_window s space root va e :
  spaces_ok s → us_spaces s !! space = Some root → va mod 4096 = 0 → 0 ≤ va → va + 4096 ≤ USER_TOP →
  slot (us_mem s) root va = Some (true, e) → frame_of e = lpn va * 2 ^ 21 →
  user_unmap_range space va 4096 s = a' ← pmm_free_page (us_pmm s) va; Ret (with_pages s (us_mem s) a', 0).
Proof.
  intros Hs Hl Hm H0 Ht Hsl Hfr. destruct (so_space _ Hs _ _ Hl) as [Hnz Ho]. pose proof (uo_tree _ _ _ Ho) as Hinv.
  destruct (range_guard va 4096 Hm H0 ltac:(lia) Ht) as (Eg & Es & _). change (pages_of 4096) with 1 in Es.
  assert (paging_translate (us_mem s) root va = va) as Et.
  { rewrite (translate_leaf _ _ _ _ Hinv). unfold leaf. rewrite Hsl. fold (frame_of e). rewrite Hfr. assert (lpn va = va / 2 ^ 21) as El by (apply lpn_small; unfold USER_TOP in *; lia). rewrite El.
    rewrite <-(land_ones_mod va 21) by lia. rewrite page_offset_add; [|lia|by rewrite Z_mod_mult]. pose proof (Z.div_mod va (2 ^ 21)). lia. }
  assert ((paging_unmap_4k (us_mem s) root va).1 = us_mem s) as Eu.
  { rewrite (unmap_walk _ _ _ _ Hinv). pose proof (covered_slot _ _ root va Hinv) as Hc. rewrite Hsl in Hc. by rewrite (covered_walk _ _ _ Hc). }
  unfold user_unmap_range. destruct (Z.eqb_spec space 0) as [|_]; [done|]. rewrite aligned_has by done. cbn [orb]. cbv zeta. rewrite Eg, Es.
  assert (unmap_range_body space va 0 tt s = a' ← pmm_free_page (us_pmm s) va; Ret (with_pages s (us_mem s) a', inl tt)) as Eb.
  { unfold unmap_range_body. rewrite (bind_run _ _ s s root) by (unfold get_pml4; by rewrite Hl). rewrite (bind_run get_mem _ s s (us_mem s)) by done. cbv zeta. rewrite Z.mul_0_l, Z.add_0_r, Et, Eu.
    destruct (Z.eqb_spec va PAGING_NO_MAP) as [Ep|_]; [change PAGING_NO_MAP with (2 ^ 64 - 1) in Ep; unfold USER_TOP in *; lia|]. cbn [negb].
    rewrite (bind_run (put_mem (us_mem s)) _ s s tt) by (by destruct s). assert (0 ≤ va < 2 ^ 52) as Hv by (unfold USER_TOP in *; lia). rewrite (mask_id va Hm Hv).
    unfold mbind, stM_bind, free_frame, on_tables. by destruct (pmm_free_page (us_pmm s) va). }
  unfold seek. change (Z.to_nat (1 - 0)) with 1%nat. cbn [seek_up]. unfold mbind, stM_bind in *. rewrite Eb. by destruct (pmm_free_page (us_pmm s) va).
Qed.

End Thm.

(** ** Example: two processes *)

#[local] Instance ex_kalloc : Kalloc heap := heap_kalloc ex_arena.
#[local] Instance ex_laws : KallocLaws heap := heap_laws ex_arena eq_refl.

(** 2.6 MiB of memory; the first pages above 1 MiB belong to the kernel, those at 2 MiB to its heap. *)
Definition ex_frames : pmm := mk_pmm (replicate 33 0xFF ++ replicate 31 0 ++ replicate 4 0xFF ++ replicate 16 0) 84 672 376 296 0x100000 1 0x108000 0x2A0000.
Definition ex_machine : machine := mk_machine (mk_boot_info 0x100000 0 0 0 [] 0 0 0x101000 0x7000 0x101000) 0 0 0xFEE00000.
Definition ex_boot : us heap := mk_us ∅ ex_frames fresh_heap ∅ 0x101000 0x101000.

Definition after (op : uop) (s : us heap) : us heap := match run_op op s with Ret (s', _) => s' | _ => s end.

Definition ex_a : Z := 0x200010.
Definition ex_b : Z := 0x200030.
Definition ex_root_a : Z := 0x108000.
Definition ex_root_b : Z := 0x10C000.
Definition ex_va : Z := 0x400000.
Definition ex_one : us heap := after (Create ex_machine) ex_boot.
Definition ex_two : us heap := after (Create ex_machine) ex_one.
Definition ex_mapped : us heap := after (Map ex_a ex_va 8192 PAGE_WRITABLE) ex_two.

Lemma after_run op s : returned (run_op op s) = true → run_op op s = Ret (after op s, tt).
Proof. intros [[s' []] E]%returned_inv. unfold after. by rewrite E. Qed.

Lemma after_ok op s : spaces_ok s → op_ok s op → returned (run_op op s) = true → spaces_ok (after op s).
Proof. intros Hs Ho Hr%after_run. by destruct (runs_ret _ _ _ _ _ (op_step s op Hs Ho) Hr). Qed.

Lemma ex_boot_ok : spaces_ok ex_boot.
Proof.
  split; cbn [ex_boot us_pmm us_heap us_spaces].
  - split; [|done]. apply pmm_wfb_sound. vm_compute. reflexivity.
  - exists ∅. split; [exact ex_live|]. by rewrite dom_empty.
  - intros space root Hl. by rewrite lookup_empty in Hl.
  - intros space space' root root' _ Hl. by rewrite lookup_empty in Hl.
Qed.

Lemma ex_machine_ok : machine_ok ex_machine.
Proof. split; [by vm_compute|]. split; [done|]. split; [by vm_compute|done]. Qed.

Lemma ex_one_ok : spaces_ok ex_one.
Proof. apply after_ok; [exact ex_boot_ok|exact ex_machine_ok|]. vm_compute. reflexivity. Qed.

Lemma ex_two_ok : spaces_ok ex_two.
Proof. apply after_ok; [exact ex_one_ok|exact ex_machine_ok|]. vm_compute. reflexivity. Qed.

Lemma ex_two_spaces : us_spaces ex_two !! ex_a = Some ex_root_a ∧ us_spaces ex_two !! ex_b = Some ex_root_b ∧ (8 <=? g_free_pages (us_pmm ex_two)) = true.
Proof. vm_compute. split_and!; reflexivity. Qed.

Lemma ex_map_ok : op_ok ex_two (Map ex_a ex_va 8192 PAGE_WRITABLE).
Proof. destruct ex_two_spaces as (Ha & _ & _). split; [exists ex_root_a; exact Ha|]. split; clear; by vm_compute. Qed.

Lemma ex_map_run : run_op (Map ex_a ex_va 8192 PAGE_WRITABLE) ex_two = Ret (ex_mapped, tt).
Proof. apply after_run. vm_compute. reflexivity. Qed.

Lemma ex_mapped_ok : spaces_ok ex_mapped.
Proof. apply after_ok; [exact ex_two_ok|exact ex_map_ok|]. vm_compute. reflexivity. Qed.

Lemma ex_mapped_space : us_spaces ex_mapped !! ex_a = Some ex_root_a.
Proof. vm_compute. reflexivity. Qed.

Definition ex_written : us heap := after (CopyTo ex_a (ex_va + 4094) [1; 2; 3; 4] 4) ex_mapped.
Definition ex_gone : us heap := after (Destroy ex_a) ex_written.

Lemma ex_copy_ok : op_ok ex_mapped (CopyTo ex_a (ex_va + 4094) [1; 2; 3; 4] 4).
Proof. split; [exists ex_root_a; exact ex_mapped_space|]. split_and!; clear; by vm_compute. Qed.

Lemma ex_copy_run : run_op (CopyTo ex_a (ex_va + 4094) [1; 2; 3; 4] 4) ex_mapped = Ret (ex_written, tt).
Proof. apply after_run. vm_compute. reflexivity. Qed.

Lemma ex_destroy_ok : op_ok ex_written (Destroy ex_a).
Proof. exists ex_root_a. vm_compute. reflexivity. Qed.

Lemma ex_destroy_run : run_op (Destroy ex_a) ex_written = Ret (ex_gone, tt).
Proof. apply after_run. vm_compute. reflexivity. Qed.

(** One process maps pages, gets bytes and is destroyed; the other does not notice. *)
Lemma user_isolation_witness :
  spaces_ok ex_gone ∧ us_spaces ex_gone !! ex_b = Some ex_root_b ∧
  ∀ va, slot (us_mem ex_gone) ex_root_b va = slot (us_mem ex_two) ex_root_b va ∧ ubyte (us_mem ex_gone) ex_root_b va = ubyte (us_mem ex_two) ex_root_b va.
Proof.
  destruct (user_isolation [Map ex_a ex_va 8192 PAGE_WRITABLE; CopyTo ex_a (ex_va + 4094) [1; 2; 3; 4] 4; Destroy ex_a] ex_two ex_gone) as [Hs Hk]; [exact ex_two_ok| |].
  - exact (usteps_cons _ _ _ _ _ ex_map_ok ex_map_run (usteps_cons _ _ _ _ _ ex_copy_ok ex_copy_run (usteps_cons _ _ _ _ _ ex_destroy_ok ex_destroy_run (usteps_nil ex_gone)))).
  - split; [exact Hs|]. apply Hk; [apply ex_two_spaces|]. repeat constructor; cbn; discriminate.
Defined.

(** The bytes cross a page. *)
Lemma user_copy_exact_witness :
  wp (user_copy_to_user ex_a (ex_va + 4094) [1; 2; 3; 4] 4) ex_mapped (λ r s',
    (accessible (us_mem ex_mapped) ex_root_a (ex_va + 4094) 4 true ∧ r = 0 ∧
      (∀ va, 0 ≤ va < USER_TOP → ubyte (us_mem s') ex_root_a va =
         if decide (ex_va + 4094 ≤ va < ex_va + 4094 + 4) then [1; 2; 3; 4] !! Z.to_nat (va - (ex_va + 4094)) else ubyte (us_mem ex_mapped) ex_root_a va) ∧
      ∀ dst, zlen dst = 4 → user_copy_from_user ex_a dst (ex_va + 4094) 4 s' = Ret (s', (0, [1; 2; 3; 4]))) ∨
    (¬ accessible (us_mem ex_mapped) ex_root_a (ex_va + 4094) 4 true ∧ r = - SYS_EFAULT ∧ s' = ex_mapped)).
Proof.
  apply (user_copy_exact ex_mapped ex_a ex_root_a (ex_va + 4094) [1; 2; 3; 4] 4); [exact ex_mapped_ok|exact ex_mapped_space|by vm_compute|by vm_compute|by vm_compute].
Defined.

Lemma user_map_range_zeroed_witness :
  may (pa_nfree (us_pmm ex_two) < 4 * pages_of 8192) (user_map_range ex_a ex_va 8192 PAGE_WRITABLE) ex_two (λ r s', ∃ n,
    step_ok (Some ex_a) ex_two s' ∧
    extended (us_mem ex_two) (us_mem s') ex_root_a (ex_va / 4096) (ex_va / 4096 + n) PAGE_WRITABLE ∧ own_pages (us_mem s') ex_root_a (ex_va / 4096) (ex_va / 4096 + n) ∧
    (∀ i, 0 ≤ i < n → covered_2m (us_mem ex_two) ex_root_a (ex_va + i * 4096) = false) ∧
    ((r = 0 ∧ n = pages_of 8192) ∨
     (r = -1 ∧ 0 ≤ n < pages_of 8192 ∧
       (covered_2m (us_mem ex_two) ex_root_a (ex_va + n * 4096) = true ∨ pa_nfree (us_pmm ex_two) < 4 * pages_of 8192 ∧ pa_nfree (us_pmm s') = 0)))).
Proof.
  destruct ex_two_spaces as (Ha & _ & _).
  apply (user_map_range_zeroed ex_two ex_a ex_root_a ex_va 8192 PAGE_WRITABLE); [exact ex_two_ok|exact Ha|clear; by vm_compute..].
Defined.

Lemma user_destroy_exact_witness :
  wp (user_address_space_destroy ex_a) ex_mapped (λ _ s', us_spaces s' = delete ex_a (us_spaces ex_mapped) ∧ us_mem s' = us_mem ex_mapped ∧
    ∀ q, pa_isfree (us_pmm s') q ↔ pa_isfree (us_pmm ex_mapped) q ∨ footprint (us_mem ex_mapped) ex_root_a (page q)).
Proof. apply (user_destroy_exact ex_mapped ex_a ex_root_a); [exact ex_mapped_ok|exact ex_mapped_space]. Defined.
