(* ===== verification/Loader.v ===== *)
(** The program loader, [kernel/user/user_loader.c]: the HXE1 image is a buffer of bytes, read field by field ([rd] faults outside
    the buffer); its segments are mapped and filled with the functions of [Uspace]. *)

From stdpp Require Import gmap.
From S2P Require Import Prelude Bytes Kmath CString Layout Pmm Memory Paging Vmm StateM Heap Kalloc Files Uspace UspaceSpec UspaceMap UspaceNew UspaceIso.

(** ** Definitions *)

Definition HXE_MAGIC : Z := 0x31455848.
Definition HXE_VERSION : Z := 1.
Definition HXE_SEG_WRITE : Z := 2.
Definition HXE_SEG_EXEC : Z := 4.

(** The fields of [struct hxe_header]. *)
Definition sizeof_hxe_header : Z := 32.
Definition h_magic (img : list Z) : outcome Z := rd img 0 4.
Definition h_version (img : list Z) : outcome Z := rd img 4 4.
Definition h_entry (img : list Z) : outcome Z := rd img 8 8.
Definition h_segment_count (img : list Z) : outcome Z := rd img 16 8.
Definition h_header_size (img : list Z) : outcome Z := rd img 24 8.

(** The fields of [segs[i]], a [struct hxe_segment] of the table at [off]. *)
Definition sizeof_hxe_segment : Z := 40.
Definition s_virtual_address (img : list Z) (off i : Z) : outcome Z := rd img (off + sizeof_hxe_segment * i) 8.
Definition s_memory_size (img : list Z) (off i : Z) : outcome Z := rd img (off + sizeof_hxe_segment * i + 8) 8.
Definition s_file_size (img : list Z) (off i : Z) : outcome Z := rd img (off + sizeof_hxe_segment * i + 16) 8.
Definition s_file_offset (img : list Z) (off i : Z) : outcome Z := rd img (off + sizeof_hxe_segment * i + 24) 8.
Definition s_flags (img : list Z) (off i : Z) : outcome Z := rd img (off + sizeof_hxe_segment * i + 32) 8.

Definition seg_executable (img : list Z) (off i : Z) : outcome bool :=
  fl ← s_flags img off i; Ret (negb (Z.land fl HXE_SEG_EXEC =? 0)).

Definition overlap_body (img : list Z) (off a0 a1 j : Z) (_ : unit) : outcome (unit + unit) :=
  va ← s_virtual_address img off j;
  ms ← s_memory_size img off j;
  let b0 := PAGE_ALIGN_DOWN va in
  let b1 := PAGE_ALIGN_UP (u64 (va + ms)) in
  Ret (if (a0 <? b1) && (b0 <? a1) then inr tt else inl tt).

(** [inr] is [return -1]. *)
Definition validate_body (img : list Z) (image_size off i : Z) (_ : unit) : outcome (unit + unit) :=
  fs ← s_file_size img off i;
  ms ← s_memory_size img off i;
  if ms <? fs then Ret (inr tt)
  else
    va ← s_virtual_address img off i;
    if (USER_TOP <=? va) || (USER_TOP <? u64 (va + ms)) || (u64 (va + ms) <? va) then Ret (inr tt)
    else if va <? USER_IMAGE_BASE then Ret (inr tt)
    else
      bad ← (if negb (fs =? 0) then
               fo ← s_file_offset img off i;
               Ret ((image_size <? u64 (fo + fs)) || (u64 (fo + fs) <? fo))
             else Ret false);
      if bad : bool then Ret (inr tt)
      else
        let a0 := PAGE_ALIGN_DOWN va in
        let a1 := PAGE_ALIGN_UP (u64 (va + ms)) in
        find_range 0 i (overlap_body img off a0 a1) tt.

(** [inr] is the [break]. *)
Definition entry_body (img : list Z) (off entry i : Z) (_ : unit) : outcome (unit + unit) :=
  ex ← seg_executable img off i;
  if negb ex then Ret (inl tt)
  else
    va ← s_virtual_address img off i;
    if entry <? va then Ret (inl tt)
    else
      ms ← s_memory_size img off i;
      Ret (if entry <? u64 (va + ms) then inr tt else inl tt).

Section Loader.
Context {H : Type} {KA : Kalloc H}.
Notation St := (us H).

Definition load_body (space : Z) (img : list Z) (off i : Z) (_ : unit) : stM St (unit + unit) :=
  va ← lift (s_virtual_address img off i);
  ms ← lift (s_memory_size img off i);
  let page_va := PAGE_ALIGN_DOWN va in
  let span := u64 (PAGE_ALIGN_UP (u64 (va + ms)) - page_va) in
  fl ← lift (s_flags img off i);
  let flags := if negb (Z.land fl HXE_SEG_WRITE =? 0) then PAGE_WRITABLE else 0 in
  r ← user_map_range space page_va span flags;
  if negb (r =? 0) then mret (inr tt)
  else
    fs ← lift (s_file_size img off i);
    if negb (fs =? 0) then
      fo ← lift (s_file_offset img off i);
      r ← user_copy_to_space space va img fo fs;
      mret (if negb (r =? 0) then inr tt else inl tt)
    else mret (inl tt).

(** The result is the return value and [*out_entry], [None] when it is not written. *)
Definition user_loader_load (space : Z) (img : list Z) (image_size : Z) : stM St (Z * option Z) :=
  if (space =? 0) || (image_size <? sizeof_hxe_header) then mret (-1, None)
  else
    magic ← lift (h_magic img);
    version ← lift (h_version img);
    if negb (magic =? HXE_MAGIC) || negb (version =? HXE_VERSION) then mret (-1, None)
    else
      table_off ← lift (h_header_size img);
      if table_off <? sizeof_hxe_header then mret (-1, None)
      else
        count ← lift (h_segment_count img);
        let table_bytes := u64 (count * sizeof_hxe_segment) in
        if (count =? 0) || (image_size <? u64 (table_off + table_bytes)) then mret (-1, None)
        else
          v ← lift (find_range 0 count (validate_body img image_size table_off) tt);
          if match v with inl _ => false | inr _ => true end then mret (-1, None)
          else
            entry ← lift (h_entry img);
            e ← lift (find_range 0 count (entry_body img table_off entry) tt);
            if match e with inl _ => true | inr _ => false end then mret (-1, None)
            else
              r ← seek 0 count (load_body space img table_off) tt;
              match r with
              | inr _ => mret (-1, None)
              | inl _ => mret (0, Some entry)
              end.

End Loader.
