(* ===== verification/LoaderSpec.v ===== *)
(** What the loader of [Loader] accepts and what it leaves in the user's memory. *)

From stdpp Require Import gmap.
From S2P Require Import Prelude Bytes Kmath CString Layout Pmm Memory Paging Vmm StateM Heap Kalloc Files Uspace UspaceSpec UspaceMap UspaceNew UspaceIso UspaceThm Loader.

(** ** Specification *)

Section Image.
Variable img : list Z.

Definition i_count : Z := le_at img 16 8.
Definition i_table : Z := le_at img 24 8.
Definition i_entry : Z := le_at img 8 8.
Definition sg (i k : Z) : Z := le_at img (i_table + 40 * i + 8 * k) 8.
Definition sg_va (i : Z) : Z := sg i 0.
Definition sg_mem (i : Z) : Z := sg i 1.
Definition sg_file (i : Z) : Z := sg i 2.
Definition sg_off (i : Z) : Z := sg i 3.
Definition sg_flags (i : Z) : Z := sg i 4.

(** The first page of a segment and the page after its last. *)
Definition sg_first (i : Z) : Z := sg_va i / 4096.
Definition sg_end (i : Z) : Z := (sg_va i + sg_mem i + 4095) / 4096.
Definition sg_pages (i : Z) : Z := sg_end i - sg_first i.

Record seg_ok (i : Z) : Prop := {
  sk_size : sg_file i ≤ sg_mem i;
  sk_low : USER_IMAGE_BASE ≤ sg_va i;
  sk_below : sg_va i < USER_TOP;
  sk_high : sg_va i + sg_mem i ≤ USER_TOP;
  sk_bytes : sg_file i ≠ 0 → sg_off i + sg_file i ≤ zlen img
}.

Definition segs_apart (i j : Z) : Prop := sg_end j ≤ sg_first i ∨ sg_end i ≤ sg_first j.

Definition entry_ok : Prop :=
  ∃ i, 0 ≤ i < i_count ∧ Z.land (sg_flags i) HXE_SEG_EXEC ≠ 0 ∧ sg_va i ≤ i_entry < sg_va i + sg_mem i.

(** The header is there and the table is in the image; [i_table + 40 * i_count] is a number, it does not wrap. *)
Definition header_ok : Prop :=
  32 ≤ zlen img ∧ le_at img 0 4 = HXE_MAGIC ∧ le_at img 4 4 = HXE_VERSION ∧ 32 ≤ i_table ∧ i_count ≠ 0 ∧ i_table + 40 * i_count ≤ zlen img.

Definition segs_valid (n : Z) : Prop := ∀ i, 0 ≤ i < n → seg_ok i ∧ ∀ j, 0 ≤ j < i → segs_apart i j.

Definition image_ok : Prop := header_ok ∧ segs_valid i_count ∧ entry_ok.

(** The memory of a segment that is loaded. *)
Definition loaded (m : mem) (root i : Z) : Prop := ∀ va, sg_va i ≤ va < sg_va i + sg_mem i →
  ubyte m root va = (if decide (va - sg_va i < sg_file i) then img !! Z.to_nat (sg_off i + (va - sg_va i)) else Some 0) ∧
  ∃ e, slot m root va = Some (false, e) ∧ has e PAGE_WRITABLE = negb (Z.land (sg_flags i) HXE_SEG_WRITE =? 0).

(** The pages of the segments below [n]. *)
Definition pages_upto (n : Z) : Z := foldr (λ i acc, sg_pages i + acc) 0 (seqZ 0 n).

(** ** Lemmas *)

Hypothesis Hbytes : bytes img.
Hypothesis Hlen : zlen img < 2 ^ 63.

Section Table.
Hypothesis Hhead : header_ok.

Lemma count_pos : 0 < i_count.
Proof. destruct Hhead as (H1 & _ & _ & _ & H2 & _). pose proof (le_at_range img 16 8 Hbytes ltac:(lia) ltac:(lia) ltac:(lia)). unfold i_count in *. lia. Qed.

Lemma sg_range i k : 0 ≤ i < i_count → 0 ≤ k < 5 → is_u64 (sg i k).
Proof. intros Hi Hk. destruct Hhead as (_ & _ & _ & H1 & _ & H2). apply (le_at_range img (i_table + 40 * i + 8 * k) 8 Hbytes); lia. Qed.

Lemma fields_rd i : 0 ≤ i < i_count →
  s_virtual_address img i_table i = Ret (sg_va i) ∧ s_memory_size img i_table i = Ret (sg_mem i) ∧ s_file_size img i_table i = Ret (sg_file i) ∧
  s_file_offset img i_table i = Ret (sg_off i) ∧ s_flags img i_table i = Ret (sg_flags i).
Proof.
  intros Hi. destruct Hhead as (_ & _ & _ & H1 & _ & H2). unfold s_virtual_address, s_memory_size, s_file_size, s_file_offset, s_flags, sizeof_hxe_segment.
  rewrite !rd_in by lia. unfold sg_va, sg_mem, sg_file, sg_off, sg_flags, sg. split_and!; do 2 f_equal; lia.
Qed.

(** *** Validation *)

Lemma align_first i : 0 ≤ i < i_count → PAGE_ALIGN_DOWN (sg_va i) = sg_first i * 4096.
Proof. intros Hi. rewrite page_align_down_spec by (by apply sg_range). unfold sg_first. zlia. Qed.

Lemma align_end i : 0 ≤ i < i_count → sg_va i + sg_mem i ≤ USER_TOP → PAGE_ALIGN_UP (u64 (sg_va i + sg_mem i)) = sg_end i * 4096.
Proof.
  intros Hi Ht. pose proof (sg_range i 0 Hi ltac:(lia)) as R1. pose proof (sg_range i 1 Hi ltac:(lia)) as R2. unfold is_u64, USER_TOP in *. fold (sg_va i) (sg_mem i) in *.
  rewrite u64_small by lia. rewrite page_align_up_spec by lia. unfold sg_end. lia.
Qed.

Lemma overlap_loop i : 0 ≤ i < i_count → sg_va i + sg_mem i ≤ USER_TOP → (∀ j, 0 ≤ j < i → seg_ok j) →
  ∃ r, find_range 0 i (overlap_body img i_table (sg_first i * 4096) (sg_end i * 4096)) tt = Ret r ∧
    (r = inl tt ∧ (∀ j, 0 ≤ j < i → segs_apart i j) ∨ r = inr tt ∧ ¬ ∀ j, 0 ≤ j < i → segs_apart i j).
Proof.
  intros Hi Ht Hok. destruct (find_range_inv (λ k _, ∀ j, 0 ≤ j < k → segs_apart i j) (λ _, ¬ ∀ j, 0 ≤ j < i → segs_apart i j)
    (overlap_body img i_table (sg_first i * 4096) (sg_end i * 4096)) 0 i tt) as [([] & -> & HI)|([] & -> & HQ)].
  - lia.
  - intros j [] Hj HI. unfold overlap_body. destruct (fields_rd j ltac:(lia)) as (-> & -> & _). cbn [mbind outcome_bind]. rewrite align_first, align_end by (lia || by apply Hok).
    destruct (decide (segs_apart i j)) as [Ha|Ha].
    + left. exists tt. split; [|intros k Hk; destruct (decide (k = j)) as [->|]; [done|apply HI; lia]]. destruct (Z.ltb_spec (sg_first i * 4096) (sg_end j * 4096)), (Z.ltb_spec (sg_first j * 4096) (sg_end i * 4096)); try done.
      exfalso. destruct Ha; lia.
    + right. exists tt. split; [|intros Hall; apply Ha, Hall; lia]. unfold segs_apart in Ha. destruct (Z.ltb_spec (sg_first i * 4096) (sg_end j * 4096)), (Z.ltb_spec (sg_first j * 4096) (sg_end i * 4096)); try done; lia.
  - lia.
  - exists (inl tt). split; [done|]. by left.
  - exists (inr tt). split; [done|]. by right.
Qed.

(** One segment: [inl] when it and those before it are as they have to be. *)
Lemma validate_step i : 0 ≤ i < i_count → segs_valid i →
  ∃ r, validate_body img (zlen img) i_table i tt = Ret r ∧ (r = inl tt ∧ segs_valid (i + 1) ∨ r = inr tt ∧ ¬ segs_valid (i + 1)).
Proof.
  intros Hi HI.
  assert (seg_ok i → (∀ j, 0 ≤ j < i → segs_apart i j) → segs_valid (i + 1)) as Hgood.
  { intros Hs Ha k Hk. destruct (decide (k = i)) as [->|]; [done|apply HI; lia]. }
  assert (∀ r : unit + unit, r = inr tt → ¬ seg_ok i → r = inl tt ∧ segs_valid (i + 1) ∨ r = inr tt ∧ ¬ segs_valid (i + 1)) as Hbad.
  { intros r -> Hn. right. split; [done|]. intros Hv. apply Hn, (Hv i). lia. }
  pose proof (sg_range i 0 Hi ltac:(lia)) as R0. pose proof (sg_range i 1 Hi ltac:(lia)) as R1. pose proof (sg_range i 2 Hi ltac:(lia)) as R2. pose proof (sg_range i 3 Hi ltac:(lia)) as R3.
  fold (sg_va i) (sg_mem i) (sg_file i) (sg_off i) in *. unfold is_u64 in *. destruct (fields_rd i Hi) as (Eva & Ems & Efs & Efo & _).
  unfold validate_body. rewrite Efs. cbn [mbind outcome_bind]. rewrite Ems. cbn [mbind outcome_bind].
  destruct (Z.ltb_spec (sg_mem i) (sg_file i)) as [Hc|Hc]; [exists (inr tt); split; [done|]; apply Hbad; [done|]; intros []; lia|]. rewrite Eva. cbn [mbind outcome_bind].
  pose proof (u64_add (sg_va i) (sg_mem i) R0 R1) as Eu. pose proof (u64_add (sg_off i) (sg_file i) R3 R2) as Ef. unfold USER_TOP in *.
  destruct ((0x800000000000 <=? sg_va i) || (0x800000000000 <? u64 (sg_va i + sg_mem i)) || (u64 (sg_va i + sg_mem i) <? sg_va i)) eqn:E1.
  { exists (inr tt). split; [done|]. apply Hbad; [done|]. intros [_ _ K1 K2 _]. unfold USER_TOP in *. rewrite Eu, decide_True in E1 by lia.
    apply orb_prop in E1 as [[E1%Z.leb_le|E1%Z.ltb_lt]%orb_prop|E1%Z.ltb_lt]; lia. }
  apply orb_false_iff in E1 as [[E1%Z.leb_gt E2%Z.ltb_ge]%orb_false_iff E3%Z.ltb_ge]. rewrite Eu in E2, E3. revert E2 E3. dec_if as Hw; [intros E2 E3|lia]. clear Eu.
  destruct (Z.ltb_spec (sg_va i) USER_IMAGE_BASE) as [Hl|Hl]; [exists (inr tt); split; [done|]; apply Hbad; [done|]; intros []; lia|].
  set (bad := if negb (sg_file i =? 0) then _ else Ret false).
  assert (bad = Ret (negb (bool_decide (sg_file i ≠ 0 → sg_off i + sg_file i ≤ zlen img)))) as ->.
  { unfold bad. rewrite Efo. cbn [mbind outcome_bind]. rewrite Ef. destruct (Z.eqb_spec (sg_file i) 0) as [E|E]; cbn [negb]; f_equal; [rewrite bool_decide_true; [done|lia]|].
    dec_if as Hw2; case_bool_decide as Hb; (repeat match goal with |- context [?a <? ?b] => destruct (Z.ltb_spec a b) end; cbn [orb negb]; try done; exfalso; naive_solver lia). }
  cbn [mbind outcome_bind]. case_bool_decide as Hfo; cbn [negb]; [|exists (inr tt); split; [done|]; apply Hbad; [done|]; by intros []].
  assert (seg_ok i) as Hs by (split; unfold USER_TOP; auto; lia). rewrite align_first by done. rewrite align_end by (unfold USER_TOP; done).
  destruct (overlap_loop i Hi ltac:(unfold USER_TOP; lia)) as (r & -> & Hr); [intros j Hj; by apply HI|]. exists r. split; [done|].
  destruct Hr as [[-> Ha]|[-> Ha]]; [left; auto|right]. split; [done|]. intros Hv. by apply Ha, (Hv i ltac:(lia)).
Qed.

Lemma segs_valid_mono n n' : n ≤ n' → segs_valid n' → segs_valid n.
Proof. intros Hn Hv i Hi. apply Hv. lia. Qed.

Lemma validate_loop : ∃ r, find_range 0 i_count (validate_body img (zlen img) i_table) tt = Ret r ∧ (r = inl tt ∧ segs_valid i_count ∨ r = inr tt ∧ ¬ segs_valid i_count).
Proof.
  pose proof count_pos. destruct (find_range_inv (λ i _, segs_valid i) (λ _, ¬ segs_valid i_count) (validate_body img (zlen img) i_table) 0 i_count tt) as [([] & -> & HI)|([] & -> & HQ)].
  - lia.
  - intros i [] Hi HI. destruct (validate_step i Hi HI) as (r & -> & [[-> Hv]|[-> Hv]]); [left; by exists tt|right]. exists tt. split; [done|]. intros Hc. by apply Hv, (segs_valid_mono _ i_count); [lia|].
  - intros i Hi. lia.
  - exists (inl tt). split; [done|]. by left.
  - exists (inr tt). split; [done|]. by right.
Qed.

Lemma entry_loop : segs_valid i_count →
  ∃ r, find_range 0 i_count (entry_body img i_table i_entry) tt = Ret r ∧ (r = inr tt ∧ entry_ok ∨ r = inl tt ∧ ¬ entry_ok).
Proof.
  intros Hv. pose proof count_pos.
  set (P := λ i, Z.land (sg_flags i) HXE_SEG_EXEC ≠ 0 ∧ sg_va i ≤ i_entry < sg_va i + sg_mem i).
  destruct (find_range_inv (λ i _, ∀ j, 0 ≤ j < i → ¬ P j) (λ _, entry_ok) (entry_body img i_table i_entry) 0 i_count tt) as [([] & -> & HI)|([] & -> & HQ)].
  - lia.
  - intros i [] Hi HI. unfold entry_body, seg_executable. destruct (fields_rd i Hi) as (-> & -> & _ & _ & ->). cbn [mbind outcome_bind].
    assert (u64 (sg_va i + sg_mem i) = sg_va i + sg_mem i) as ->.
    { destruct (Hv i Hi) as [[_ _ _ K _] _]. unfold USER_TOP in K. pose proof (sg_range i 0 Hi ltac:(lia)) as R0. pose proof (sg_range i 1 Hi ltac:(lia)) as R1. unfold is_u64, sg_va, sg_mem in *. apply u64_small. lia. }
    assert (¬ P i → ∀ j, 0 ≤ j < i + 1 → ¬ P j) as Hno by (intros Hn j Hj; destruct (decide (j = i)) as [->|]; [done|apply HI; lia]).
    destruct (Z.eqb_spec (Z.land (sg_flags i) HXE_SEG_EXEC) 0) as [E|E]; cbn [negb]; [left; exists tt; split; [done|]; apply Hno; by intros [? _]|].
    destruct (Z.ltb_spec i_entry (sg_va i)); [left; exists tt; split; [done|]; apply Hno; intros [_ ?]; lia|].
    destruct (Z.ltb_spec i_entry (sg_va i + sg_mem i)); [right; exists tt; split; [done|]; by exists i|left; exists tt; split; [done|]; apply Hno; intros [_ ?]; lia].
  - intros j Hj. lia.
  - exists (inl tt). split; [done|]. right. split; [done|]. intros (i & Hi & Hp). by apply (HI i Hi).
  - exists (inr tt). split; [done|]. by left.
Qed.

(** *** Loading *)

Section Load.
Context {H : Type} {KA : Kalloc H}.
Implicit Types s : us H.

Definition outside (i va : Z) : Prop := 0 ≤ va < USER_TOP ∧ ¬ sg_first i ≤ va / 4096 < sg_end i.

(** Why a valid segment can not be mapped: it has no pages, or a large page of the kernel is in the way. *)
Definition unmappable (m : mem) (root i : Z) : Prop :=
  sg_pages i = 0 ∨ ∃ p, sg_first i ≤ p < sg_end i ∧ covered_2m m root (p * 4096) = true.

Lemma seg_geometry i : 0 ≤ i < i_count → seg_ok i →
  0 ≤ sg_pages i ∧ 0 ≤ sg_first i ∧ sg_end i * 4096 ≤ USER_TOP ∧
  u64 (PAGE_ALIGN_UP (u64 (sg_va i + sg_mem i)) - PAGE_ALIGN_DOWN (sg_va i)) = sg_pages i * 4096 ∧
  ∀ va, sg_va i ≤ va < sg_va i + sg_mem i → 0 ≤ va < USER_TOP ∧ sg_first i ≤ va / 4096 < sg_end i.
Proof.
  intros Hi [K1 K2 K3 K4 K5]. rewrite align_first, align_end by done. pose proof (sg_range i 0 Hi ltac:(lia)) as R0. pose proof (sg_range i 1 Hi ltac:(lia)) as R1. fold (sg_va i) (sg_mem i) in *.
  unfold is_u64, USER_TOP, sg_pages, sg_first, sg_end in *. rewrite u64_small by zlia. split; [zlia|]. split; [zlia|]. split; [zlia|]. split; [zlia|]. intros va Hva. split; [lia|zlia].
Qed.

Definition seg_flags (i : Z) : Z := if negb (Z.land (sg_flags i) HXE_SEG_WRITE =? 0) then PAGE_WRITABLE else 0.

Lemma seg_flags_writable i : has (seg_flags i) PAGE_WRITABLE = negb (Z.land (sg_flags i) HXE_SEG_WRITE =? 0).
Proof. unfold seg_flags. by destruct (Z.land (sg_flags i) HXE_SEG_WRITE =? 0). Qed.

(** The file bytes go into pages of zeros. *)
Lemma fill_loaded m m1 m2 root i :
  0 ≤ i < i_count → seg_ok i → extended m m1 root (sg_first i) (sg_end i) (seg_flags i) →
  (sg_file i = 0 ∧ m2 = m1 ∨ sg_file i ≠ 0 ∧ written m1 m2 root (sg_va i) (zslice img (sg_off i) (sg_file i))) →
  loaded m2 root i ∧ ∀ va, outside i va → slot m2 root va = slot m root va ∧ ubyte m2 root va = ubyte m root va.
Proof.
  intros Hi Hk Hx Hf. destruct (seg_geometry i Hi Hk) as (_ & _ & _ & _ & Hg). pose proof (sg_range i 2 Hi ltac:(lia)) as R2. pose proof (sg_range i 3 Hi ltac:(lia)) as R3. fold (sg_file i) (sg_off i) in *. unfold is_u64 in *.
  assert (sg_file i ≠ 0 → zlen (zslice img (sg_off i) (sg_file i)) = sg_file i) as Hzl by (intros Hne; apply zlen_zslice; [lia|lia|by apply Hk]).
  pose proof (sk_size _ Hk) as Hsz. split.
  - intros va Hva. destruct (Hg va Hva) as [Hu Hr]. destruct (ex_new _ _ _ _ _ _ Hx va Hu Hr) as (Hb & e & He & Hw). rewrite seg_flags_writable in Hw.
    destruct Hf as [[E ->]|[Hne Hwr]]; [split; [by rewrite decide_False by lia|by exists e]|].
    rewrite (wr_byte _ _ _ _ _ Hwr va Hu), (wr_slot _ _ _ _ _ Hwr va), Hzl by done. split; [|by exists e]. repeat dec_if; try lia; [|done].
    rewrite lookup_zslice by lia. by rewrite decide_True by lia.
  - intros va [Hu Hr]. destruct Hf as [[E ->]|[Hne Hwr]]; [by rewrite (ex_slot _ _ _ _ _ _ Hx va Hu Hr), (ex_byte _ _ _ _ _ _ Hx va Hu Hr)|].
    rewrite (wr_byte _ _ _ _ _ Hwr va Hu), (wr_slot _ _ _ _ _ Hwr va), Hzl by done. rewrite decide_False by (intros Hc; destruct (Hg va); [lia|done]).
    by rewrite (ex_slot _ _ _ _ _ _ Hx va Hu Hr), (ex_byte _ _ _ _ _ _ Hx va Hu Hr).
Qed.

(** The state after an iteration. *)
Record seg_step s s' (root i : Z) : Prop := {
  ss_pages : s' = with_pages s (us_mem s') (us_pmm s');
  ss_ok : user_ok (us_mem s') (us_pmm s') root;
  ss_within : within (us_mem s) (us_pmm s) (us_mem s') (us_pmm s') root;
  ss_count : pa_nfree (us_pmm s) - 4 * sg_pages i ≤ pa_nfree (us_pmm s')
}.

Lemma load_step s space root i :
  us_spaces s !! space = Some root → space ≠ 0 → user_ok (us_mem s) (us_pmm s) root → 0 ≤ i < i_count → seg_ok i → 4 * sg_pages i ≤ pa_nfree (us_pmm s) →
  wp (load_body space img i_table i tt) s (λ r s', seg_step s s' root i ∧
    (r = inl tt ∧ loaded (us_mem s') root i ∧ (∀ va, outside i va → slot (us_mem s') root va = slot (us_mem s) root va ∧ ubyte (us_mem s') root va = ubyte (us_mem s) root va) ∨
     r = inr tt ∧ unmappable (us_mem s) root i)).
Proof.
  intros Hsp Hnz Ho Hi Hk Hn. destruct (seg_geometry i Hi Hk) as (G1 & G2 & G3 & G4 & G5). destruct (fields_rd i Hi) as (Eva & Ems & Efs & Efo & Efl). unfold load_body.
  eapply wp_lift_bind; [exact Eva|]. eapply wp_lift_bind; [exact Ems|]. eapply wp_lift_bind; [exact Efl|]. cbv zeta. rewrite G4, align_first by done. fold (seg_flags i).
  destruct (decide (sg_pages i = 0)) as [E0|Hne].
  { rewrite E0. eapply (wp_known _ _ _ s (-1)); [|apply wp_ret; split; [|right; split; [done|by left]]].
    - unfold user_map_range. destruct (Z.eqb_spec space 0) as [|_]; [done|]. rewrite aligned_has by (by rewrite Z_mod_mult). cbn [orb]. cbv zeta.
      change (PAGE_ALIGN_UP (0 * 4096)) with 0. rewrite Z.add_0_r, u64_small by (unfold USER_TOP, sg_pages in *; lia). by rewrite Z.leb_refl.
    - split; [by destruct s|done|apply within_refl|lia]. }
  assert (pages_of (sg_pages i * 4096) = sg_pages i) as Ep by (unfold pages_of; zlia).
  eapply wp_step; [apply (map_range_spec s space root (sg_first i * 4096) (sg_pages i * 4096) (seg_flags i) Hsp Hnz Ho); unfold sg_pages in *; try lia; by rewrite Z_mod_mult|].
  rewrite Ep. intros r s1 (n & Hnr & Mu & Hnf & _ & Hr).
  assert (seg_step s s1 root i) as Hst by (split; [apply Mu|apply Mu|apply Mu|done]).
  destruct Hr as [[-> ->]|(-> & Hlt & Hcov)]; cbn [Z.eqb negb].
  2: { apply wp_ret. split; [done|]. right. split; [done|]. right. exists (sg_first i + n). split; [unfold sg_pages in *; lia|]. by replace ((sg_first i + n) * 4096) with (sg_first i * 4096 + n * 4096) by lia. }
  pose proof (mu_ext _ _ _ _ _ _ Mu) as Hx. rewrite Z.div_mul in Hx by lia. replace (sg_first i + sg_pages i) with (sg_end i) in Hx by (unfold sg_pages; lia).
  eapply wp_lift_bind; [exact Efs|]. destruct (Z.eqb_spec (sg_file i) 0) as [Ef|Hf]; cbn [negb].
  { apply wp_ret. split; [done|]. left. split; [done|]. apply (fill_loaded (us_mem s) (us_mem s1)); [done|done|done|by left]. }
  eapply wp_lift_bind; [exact Efo|]. pose proof (sg_range i 2 Hi ltac:(lia)) as R2. pose proof (sg_range i 3 Hi ltac:(lia)) as R3. pose proof (sg_range i 0 Hi ltac:(lia)) as R0. fold (sg_va i) (sg_file i) (sg_off i) in *. unfold is_u64 in *.
  pose proof Hk as [K1 K2 K3 K4 K5]. assert (us_spaces s1 !! space = Some root) as Hsp1 by (by rewrite (mu_pages _ _ _ _ _ _ Mu)).
  eapply wp_step; [apply (copy_to_spec s1 space root (sg_va i) img (sg_off i) (sg_file i) Hsp1 Hnz (mu_ok _ _ _ _ _ _ Mu)); try lia|].
  { intros va Hva. destruct (G5 va) as [Hu Hrg]; [lia|]. destruct (ex_new _ _ _ _ _ _ Hx va Hu Hrg) as (_ & e & He & _). by exists e. }
  intros r s2 (-> & m2 & -> & Hw & Hok2). cbn [Z.eqb negb]. apply wp_ret. split.
  - destruct Hst as [S1 S2 S3 S4]. split; cbn [with_mem us_mem us_pmm]; [rewrite S1; done|done| |done]. eapply within_trans; [done|by eapply written_within].
  - left. split; [done|]. cbn [with_mem us_mem]. apply (fill_loaded (us_mem s) (us_mem s1)); [done|done|done|by right].
Qed.

Lemma pages_upto_S n : 0 ≤ n → pages_upto (n + 1) = pages_upto n + sg_pages n.
Proof.
  intros Hn. unfold pages_upto. rewrite seqZ_app, foldr_app by lia. rewrite Z.add_0_l. change (seqZ n 1) with [n]. cbn [foldr].
  generalize (seqZ 0 n). intros l. induction l as [|x l IH]; cbn [foldr]; [lia|]. rewrite IH. lia.
Qed.

Lemma pages_upto_mono k n : segs_valid i_count → 0 ≤ k ≤ n → n ≤ i_count → pages_upto k ≤ pages_upto n.
Proof.
  intros Hv Hk Hn. replace n with (k + Z.of_nat (Z.to_nat (n - k))) by lia. assert (k + Z.of_nat (Z.to_nat (n - k)) ≤ i_count) as Hle by lia. revert Hle.
  induction (Z.to_nat (n - k)) as [|d IH]; intros Hle; [by rewrite Z.add_0_r|]. replace (k + Z.of_nat (S d)) with (k + Z.of_nat d + 1) by lia. rewrite pages_upto_S by lia.
  destruct (Hv (k + Z.of_nat d) ltac:(lia)) as [Hk2 _]. destruct (seg_geometry (k + Z.of_nat d) ltac:(lia) Hk2) as (Hp & _). specialize (IH ltac:(lia)). lia.
Qed.

(** All segments. *)
Lemma load_loop s space root :
  us_spaces s !! space = Some root → space ≠ 0 → user_ok (us_mem s) (us_pmm s) root → segs_valid i_count → 4 * pages_upto i_count ≤ pa_nfree (us_pmm s) →
  wp (seek 0 i_count (load_body space img i_table) tt) s (λ r s',
    s' = with_pages s (us_mem s') (us_pmm s') ∧ user_ok (us_mem s') (us_pmm s') root ∧ within (us_mem s) (us_pmm s) (us_mem s') (us_pmm s') root ∧
    match r with
    | inl _ => (∀ i, 0 ≤ i < i_count → loaded (us_mem s') root i) ∧
        ∀ va, (∀ i, 0 ≤ i < i_count → outside i va) → slot (us_mem s') root va = slot (us_mem s) root va ∧ ubyte (us_mem s') root va = ubyte (us_mem s) root va
    | inr _ => ∃ i, 0 ≤ i < i_count ∧ unmappable (us_mem s) root i
    end).
Proof.
  intros Hsp Hnz Ho Hv Hn. pose proof count_pos as Hc.
  set (base := λ s', s' = with_pages s (us_mem s') (us_pmm s') ∧ user_ok (us_mem s') (us_pmm s') root ∧ within (us_mem s) (us_pmm s) (us_mem s') (us_pmm s') root).
  eapply wp_mono; [apply (wp_seek (λ i _ s', base s' ∧ pa_nfree (us_pmm s) - 4 * pages_upto i ≤ pa_nfree (us_pmm s') ∧ (∀ j, 0 ≤ j < i → loaded (us_mem s') root j) ∧
      ∀ va, (∀ j, 0 ≤ j < i → outside j va) → 0 ≤ va < USER_TOP → slot (us_mem s') root va = slot (us_mem s) root va ∧ ubyte (us_mem s') root va = ubyte (us_mem s) root va)
    (λ _ s', base s' ∧ ∃ i, 0 ≤ i < i_count ∧ unmappable (us_mem s) root i))|].
  - lia.
  - intros i [] s1 Hi ((B1 & B2 & B3) & Hn1 & Hld & Hout). destruct (Hv i Hi) as [Hk Hap]. pose proof (pages_upto_mono (i + 1) i_count Hv ltac:(lia) ltac:(lia)) as Hm. rewrite pages_upto_S in Hm by lia.
    assert (us_spaces s1 !! space = Some root) as Hsp1 by (by rewrite B1). destruct (seg_geometry i Hi Hk) as (_ & G2 & G3 & _).
    eapply wp_mono; [apply (load_step s1 space root i Hsp1 Hnz B2 Hi Hk); lia|]. intros r s2 [[S1 S2 S3 S4] Hr].
    assert (base s2) as Hb2 by (split; [rewrite S1, B1; done|]; split; [done|]; by eapply within_trans).
    assert (∀ j, 0 ≤ j < i → ∀ p, sg_first i ≤ p < sg_end i → ¬ sg_first j ≤ p < sg_end j) as Hdis by (intros j Hj p Hp Hp'; destruct (Hap j Hj); lia).
    destruct Hr as [(-> & Hl2 & Hs2)|(-> & Hun)].
    + split; [done|]. rewrite pages_upto_S by lia. split; [lia|]. split.
      * intros j Hj. destruct (decide (j = i)) as [->|Hne]; [done|]. destruct (Hv j ltac:(lia)) as [Hkj _]. destruct (seg_geometry j ltac:(lia) Hkj) as (_ & _ & _ & _ & Gj).
        intros va Hva. destruct (Gj va Hva) as [Hu Hp]. destruct (Hs2 va) as [-> ->]; [split; [done|intros Hp'; by apply (Hdis j ltac:(lia) _ Hp')]|]. apply Hld; [lia|done].
      * intros va Hva Hu. destruct (Hs2 va) as [-> ->]; [apply Hva; lia|]. apply Hout; [|done]. intros j Hj. apply Hva. lia.
    + split; [done|]. exists i. split; [done|]. destruct Hun as [?|(p & Hp & Hcov)]; [by left|right]. exists p. split; [done|].
      rewrite (covered_slot _ _ _ _ (uo_tree _ _ _ B2)) in Hcov. rewrite (covered_slot _ _ _ _ (uo_tree _ _ _ Ho)). destruct (Hout (p * 4096)) as [E _]; [|lia|by rewrite E in Hcov].
      intros j Hj. split; [lia|]. rewrite Z.div_mul by lia. intros Hp'. by apply (Hdis j Hj p).
  - split; [split; [by destruct s|split; [done|apply within_refl]]|]. change (pages_upto 0) with 0. split; [lia|]. split; [intros j Hj; lia|done].
  - intros [[]|[]] s'; [intros ((B1 & B2 & B3) & _ & Hld & Hout)|intros ((B1 & B2 & B3) & Hun)]; (split; [done|split; [done|split; [done|]]]); [|done]. split; [done|].
    intros va Hva. apply Hout; [done|]. by apply (Hva 0).
Qed.

End Load.
End Table.
End Image.

(** ** Theorems *)

Section LoadThm.
Context {H : Type} {KA : Kalloc H} {KL : KallocLaws H}.
Implicit Types s : us H.

Lemma header_cases img : bytes img → i_table img + 40 * i_count img < 2 ^ 64 →
  header_ok img ∨ (¬ header_ok img ∧ ∀ s space, user_loader_load space img (zlen img) s = Ret (s, (-1, None))).
Proof.
  intros Hb Hnw. destruct (decide (header_ok img)) as [Hh|Hh]; [by left|right]. split; [done|]. intros s space. unfold user_loader_load.
  destruct (Z.eqb_spec space 0) as [|_]; [done|]. cbn [orb]. unfold sizeof_hxe_header. destruct (Z.ltb_spec (zlen img) 32) as [|H32]; [done|].
  unfold h_magic, h_version, h_header_size, h_segment_count, lift, mbind, stM_bind. rewrite !rd_in by lia. cbn [mbind outcome_bind].
  fold (i_table img) (i_count img). destruct (Z.eqb_spec (le_at img 0 4) HXE_MAGIC) as [E1|]; [|done]. destruct (Z.eqb_spec (le_at img 4 4) HXE_VERSION) as [E2|]; [|done]. cbn [negb orb].
  destruct (Z.ltb_spec (i_table img) 32) as [|Ht]; [done|]. cbn [mbind outcome_bind]. destruct (Z.eqb_spec (i_count img) 0) as [|Hc]; [done|]. cbn [orb].
  pose proof (le_at_range img 16 8 Hb ltac:(lia) ltac:(lia) ltac:(lia)) as Rc. fold (i_count img) in Rc. unfold sizeof_hxe_segment. rewrite (u64_small (i_count img * 40)), u64_small by lia.
  destruct (Z.ltb_spec (zlen img) (i_table img + i_count img * 40)) as [|Hfit]; [done|]. exfalso. apply Hh. split_and!; try done; lia.
Qed.

(** C6. Loading a program whose segment table does not wrap, with enough memory. The loader accepts exactly the images whose
    segments are in the image, in user addresses, apart from each other, with the entry in an executable one; it then returns
    the entry, every segment has the bytes of the file followed by zeros and is writable as its flags say, and the rest of the
    user's memory is as before. Otherwise it returns -1: at once, or when a segment has no pages or lies in a window of the
    kernel. In every case no other address space is touched. *)
Theorem hxe_load_exact s space root img :
  spaces_ok s → us_spaces s !! space = Some root → bytes img → zlen img < 2 ^ 63 → i_table img + 40 * i_count img < 2 ^ 64 →
  4 * pages_upto img (i_count img) ≤ pa_nfree (us_pmm s) →
  wp (user_loader_load space img (zlen img)) s (λ r s', step_ok (Some space) s s' ∧
    ((r = (0, Some (i_entry img)) ∧ image_ok img ∧ (∀ i, 0 ≤ i < i_count img → loaded img (us_mem s') root i) ∧
       ∀ va, (∀ i, 0 ≤ i < i_count img → outside img i va) → ubyte (us_mem s') root va = ubyte (us_mem s) root va) ∨
     (r = (-1, None) ∧ (¬ image_ok img ∧ s' = s ∨ ∃ i, 0 ≤ i < i_count img ∧ unmappable img (us_mem s) root i)))).
Proof.
  intros Hs Hl Hb Hlen Hnw Hn. destruct (so_space _ Hs _ _ Hl) as [Hnz Ho].
  destruct (header_cases img Hb Hnw) as [Hh|[Hh E]]; [|unfold wp; rewrite E; split; [by apply step_ok_refl|]; right; split; [done|]; left; split; [|done]; by intros [? _]].
  assert (¬ image_ok img → step_ok (Some space) s s ∧ ((((-1, None) : Z * option Z) = (0, Some (i_entry img)) ∧ image_ok img ∧ (∀ i, 0 ≤ i < i_count img → loaded img (us_mem s) root i) ∧
       ∀ va, (∀ i, 0 ≤ i < i_count img → outside img i va) → ubyte (us_mem s) root va = ubyte (us_mem s) root va) ∨
     (((-1, None) : Z * option Z) = (-1, None) ∧ (¬ image_ok img ∧ s = s ∨ ∃ i, 0 ≤ i < i_count img ∧ unmappable img (us_mem s) root i)))) as Hrej
    by (intros Hn'; split; [by apply step_ok_refl|]; right; split; [done|]; by left).
  pose proof Hh as (H1 & H2 & H3 & H4 & H5 & H6). pose proof (count_pos img Hb Hh) as Hc.
  unfold user_loader_load. destruct (Z.eqb_spec space 0) as [|_]; [done|]. cbn [orb]. unfold sizeof_hxe_header. destruct (Z.ltb_spec (zlen img) 32) as [|_]; [lia|].
  eapply wp_lift_bind; [apply rd_in; lia|]. eapply wp_lift_bind; [apply rd_in; lia|]. rewrite H2, H3, !Z.eqb_refl. cbn [negb orb].
  eapply wp_lift_bind; [apply rd_in; lia|]. fold (i_table img). destruct (Z.ltb_spec (i_table img) 32) as [|_]; [lia|].
  eapply wp_lift_bind; [apply rd_in; lia|]. fold (i_count img). cbv zeta. unfold sizeof_hxe_segment. rewrite (u64_small (i_count img * 40)), u64_small by lia.
  destruct (Z.eqb_spec (i_count img) 0) as [|_]; [done|]. destruct (Z.ltb_spec (zlen img) (i_table img + i_count img * 40)) as [|_]; [lia|]. cbn [orb].
  destruct (validate_loop img Hb Hlen Hh) as (r & Er & Hr). eapply wp_lift_bind; [exact Er|]. destruct Hr as [[-> Hv]|[-> Hv]]; [|apply wp_ret, Hrej; by intros (_ & ? & _)].
  eapply wp_lift_bind; [apply rd_in; lia|]. fold (i_entry img). destruct (entry_loop img Hb Hh Hv) as (r & Ee & Hr). eapply wp_lift_bind; [exact Ee|].
  destruct Hr as [[-> He]|[-> He]]; [|apply wp_ret, Hrej; by intros (_ & _ & ?)].
  eapply wp_step; [by apply (load_loop img Hb Hh s space root)|]. intros r s' (E & Hok & Hw & Hr).
  assert (step_ok (Some space) s s') as Hst by (rewrite E; by apply (step_within s _ _ space root)).
  destruct r as [[]|[]]; apply wp_ret; (split; [done|]); [left|right; split; [done|by right]]. split; [done|]. split; [done|]. destruct Hr as [Hld Hout]. split; [done|]. intros va Hva. by apply Hout.
Qed.

(** A 32-byte image: the magic number, version 1, and 2^61 segments. *)
Definition wrap_image : list Z := le_bytes 4 HXE_MAGIC ++ le_bytes 4 HXE_VERSION ++ le_bytes 8 USER_IMAGE_BASE ++ le_bytes 8 (2 ^ 61) ++ le_bytes 8 32.

(** C38. The size of the segment table wraps around: with 2^61 segments of 40 bytes it is computed as 0, the image of 32 bytes is
    accepted, and the loader reads segments outside the image. *)
Theorem hxe_table_wraps s : zlen wrap_image = 32 ∧ user_loader_load 1 wrap_image 32 s = Fault.
Proof.
  split; [done|]. unfold user_loader_load. cbn [Z.eqb orb]. change (32 <? sizeof_hxe_header) with false. cbv iota.
  rewrite (bind_run (lift _) _ s s HXE_MAGIC) by done. rewrite (bind_run (lift _) _ s s HXE_VERSION) by done. rewrite !Z.eqb_refl. cbn [negb orb].
  rewrite (bind_run (lift _) _ s s 32) by done. change (32 <? sizeof_hxe_header) with false. cbv iota. rewrite (bind_run (lift _) _ s s (2 ^ 61)) by done. cbv zeta.
  change ((2 ^ 61 =? 0) || (32 <? u64 (32 + u64 (2 ^ 61 * sizeof_hxe_segment)))) with false. cbv iota. apply bind_fault. unfold lift.
  assert (find_range 0 (2 ^ 61) (validate_body wrap_image 32 32) tt = Fault) as ->; [|done].
  unfold find_range. destruct (Z.to_nat (2 ^ 61 - 0)) as [|n] eqn:En; [lia|]. done.
Qed.

End LoadThm.

(** ** Example: a program of one segment *)

#[local] Instance ex_kalloc : Kalloc heap := heap_kalloc ex_arena.
#[local] Instance ex_laws : KallocLaws heap := heap_laws ex_arena eq_refl.

Definition ex_program : list Z :=
  le_bytes 4 HXE_MAGIC ++ le_bytes 4 HXE_VERSION ++ le_bytes 8 0x400010 ++ le_bytes 8 1 ++ le_bytes 8 32 ++
  le_bytes 8 0x400010 ++ le_bytes 8 32 ++ le_bytes 8 4 ++ le_bytes 8 72 ++ le_bytes 8 5 ++ [0x90; 0x90; 0xEB; 0xFE].

Lemma ex_program_fits : (4 * pages_upto ex_program (i_count ex_program) <=? g_free_pages (us_pmm ex_two)) = true.
Proof. vm_compute. reflexivity. Qed.

Lemma ex_program_bytes : bytes ex_program.
Proof. apply (bool_decide_unpack _). vm_compute. exact I. Qed.

Lemma ex_program_ok : zlen ex_program < 2 ^ 63 ∧ i_table ex_program + 40 * i_count ex_program < 2 ^ 64.
Proof. split; by vm_compute. Qed.

Lemma hxe_load_exact_witness :
  wp (user_loader_load ex_a ex_program (zlen ex_program)) ex_two (λ r s', step_ok (Some ex_a) ex_two s' ∧
    ((r = (0, Some (i_entry ex_program)) ∧ image_ok ex_program ∧ (∀ i, 0 ≤ i < i_count ex_program → loaded ex_program (us_mem s') ex_root_a i) ∧
       ∀ va, (∀ i, 0 ≤ i < i_count ex_program → outside ex_program i va) → ubyte (us_mem s') ex_root_a va = ubyte (us_mem ex_two) ex_root_a va) ∨
     (r = (-1, None) ∧ (¬ image_ok ex_program ∧ s' = ex_two ∨ ∃ i, 0 ≤ i < i_count ex_program ∧ unmappable ex_program (us_mem ex_two) ex_root_a i)))).
Proof.
  apply (hxe_load_exact ex_two ex_a ex_root_a ex_program); [exact ex_two_ok|apply ex_two_spaces|exact ex_program_bytes|apply ex_program_ok|apply ex_program_ok|].
  apply Z.leb_le. exact ex_program_fits.
Defined.
