(* ===== verification/Usermem.v ===== *)
(** The memory system calls: [process_brk] and [process_sbrk] of [kernel/process/proc_ext.c], [sys_brk], [sys_sbrk], [sys_mmap] and
    [sys_munmap] of [kernel/user/syscall_proc.c], on the address spaces of [Uspace]. The fields of [struct process] that they
    use are [procmem]. *)

From stdpp Require Import gmap.
From S2P Require Import Prelude Kmath CString Layout Pmm Memory Paging Vmm StateM Heap Kalloc Files Uspace UspaceSpec UspaceMap UspaceNew UspaceIso UspaceThm.

(** ** Definitions *)

Definition PROCESS_BRK_BASE : Z := 0x5000000000.
Definition PROCESS_BRK_INITIAL : Z := 0x40000.
Definition PROCESS_MMAP_BASE : Z := 0x6000000000.
Definition PROT_WRITE : Z := 2.

Record procmem := mk_procmem { address_space : Z; brk_base : Z; brk_current : Z; brk_max : Z; mmap_next : Z }.

(** The fields as [process_init_ext] sets them. *)
Definition fresh_procmem (space : Z) : procmem :=
  mk_procmem space PROCESS_BRK_BASE PROCESS_BRK_BASE (PROCESS_BRK_BASE + PROCESS_BRK_INITIAL) PROCESS_MMAP_BASE.

Definition with_brk (p : procmem) (cur max : Z) : procmem := mk_procmem (address_space p) (brk_base p) cur max (mmap_next p).

Section Usermem.
Context {H : Type} {KA : Kalloc H}.
Notation St := (us H).

Definition process_brk (p : procmem) (new_break : Z) : stM St (procmem * Z) :=
  if new_break =? 0 then mret (p, brk_current p)
  else if new_break <? brk_base p then mret (p, brk_current p)
  else if new_break <=? brk_max p then mret (with_brk p new_break (brk_max p), new_break)
  else
    let want_end := align_up_u64 new_break 0x1000 in
    let add := u64 (want_end - brk_max p) in
    saved ← user_with_kernel_cr3;
    rc ← user_map_range (address_space p) (brk_max p) add 2;
    user_restore_cr3 saved;;
    let p := if rc =? 0 then with_brk p new_break want_end else p in
    mret (p, brk_current p).

(** [delta] is signed; the result is unsigned, [2^64 - 1] for (uint64_t)-1. *)
Definition process_sbrk (p : procmem) (delta : Z) : stM St (procmem * Z) :=
  let old := brk_current p in
  if delta =? 0 then mret (p, old)
  else
    let target :=
      if delta <? 0 then
        let dec := u64 (- delta) in
        if u64 (old - brk_base p) <? dec then brk_base p else u64 (old - dec)
      else u64 (old + delta) in
    r ← process_brk p target;
    if (0 <? delta) && (r.2 <? target) then mret (r.1, 2 ^ 64 - 1) else mret (r.1, old).

(** The handlers, for the current process; [None] is the process that is not there. *)
Definition sys_brk (p : option procmem) (rdi : Z) : stM St (option procmem * Z) :=
  match p with
  | None => mret (None, - SYS_ESRCH)
  | Some p => r ← process_brk p rdi; mret (Some r.1, i64 r.2)
  end.

Definition sys_sbrk (p : option procmem) (rdi : Z) : stM St (option procmem * Z) :=
  match p with
  | None => mret (None, - SYS_ESRCH)
  | Some p =>
      r ← process_sbrk p (i64 rdi);
      if r.2 =? 2 ^ 64 - 1 then mret (Some r.1, - SYS_ENOMEM) else mret (Some r.1, i64 r.2)
  end.

Definition sys_mmap (p : option procmem) (rdi rsi rdx : Z) : stM St (option procmem * Z) :=
  match p with
  | None => mret (None, - SYS_ESRCH)
  | Some p =>
      if rsi =? 0 then mret (Some p, - SYS_EINVAL)
      else
        let length := PAGE_ALIGN_UP rsi in
        let pflags := if negb (Z.land rdx PROT_WRITE =? 0) then 2 else 0 in
        let addr := if negb (rdi =? 0) then PAGE_ALIGN_DOWN rdi else mmap_next p in
        saved ← user_with_kernel_cr3;
        rc ← user_map_range (address_space p) addr length pflags;
        user_restore_cr3 saved;;
        if negb (rc =? 0) then mret (Some p, - SYS_ENOMEM)
        else
          let p := if rdi =? 0 then mk_procmem (address_space p) (brk_base p) (brk_current p) (brk_max p) (u64 (addr + length)) else p in
          mret (Some p, i64 addr)
  end.

Definition sys_munmap (p : option procmem) (rdi rsi : Z) : stM St Z :=
  match p with
  | None => mret (- SYS_ESRCH)
  | Some p =>
      let length := PAGE_ALIGN_UP rsi in
      if (length =? 0) || negb (Z.land rdi PAGE_MASK =? 0) then mret (- SYS_EINVAL)
      else
        saved ← user_with_kernel_cr3;
        rc ← user_unmap_range (address_space p) rdi length;
        user_restore_cr3 saved;;
        if negb (rc =? 0) then mret (- SYS_EINVAL) else mret 0
  end.

End Usermem.

(** ** Lemmas *)

Section Spec.
Context {H : Type} {KA : Kalloc H} {KL : KallocLaws H}.
Implicit Types s : us H.

Definition with_cr3 s (cr3 : Z) : us H := mk_us (us_mem s) (us_pmm s) (us_heap s) (us_spaces s) cr3 (us_kernel s).

Lemma spaces_ok_cr3 s cr3 : spaces_ok s → spaces_ok (with_cr3 s cr3).
Proof. intros [S1 S2 S3 S4]. by split. Qed.

Lemma step_ok_cr3 t s s' c c' : step_ok t (with_cr3 s c) s' → step_ok t s (with_cr3 s' c').
Proof. intros [S1 S2]. split; [by apply spaces_ok_cr3|exact S2]. Qed.

(** [user_map_range] on any arguments. *)
Definition range_fits (va size : Z) : Prop := va mod 4096 = 0 ∧ 0 < size ∧ va + size ≤ USER_TOP.

Lemma map_range_any s space root va size flags :
  spaces_ok s → us_spaces s !! space = Some root → is_u64 va → is_u64 size →
  may (range_fits va size ∧ pa_nfree (us_pmm s) < 4 * pages_of size) (user_map_range space va size flags) s (λ r s', step_ok (Some space) s s' ∧ s' = with_pages s (us_mem s') (us_pmm s') ∧
    ∃ n, 0 ≤ n ≤ pages_of size ∧ extended (us_mem s) (us_mem s') root (va / 4096) (va / 4096 + n) flags ∧ ((r = 0 ∧ range_fits va size ∧ n = pages_of size) ∨ r = -1)).
Proof.
  intros Hs Hl Hv Hz. destruct (so_space _ Hs _ _ Hl) as [Hnz Ho]. set (P := range_fits va size ∧ _).
  assert (may P (mret (-1)) s (λ r s', step_ok (Some space) s s' ∧ s' = with_pages s (us_mem s') (us_pmm s') ∧
    ∃ n, 0 ≤ n ≤ pages_of size ∧ extended (us_mem s) (us_mem s') root (va / 4096) (va / 4096 + n) flags ∧ ((r = 0 ∧ range_fits va size ∧ n = pages_of size) ∨ r = -1))) as Hrej.
  { apply may_ret. split; [by apply step_ok_refl|]. split; [by destruct s|]. exists 0. split; [unfold is_u64, pages_of in *; zlia|]. split; [|by right]. apply (mapped_upto_0 s root va flags Ho). }
  destruct (has va PAGE_MASK) eqn:Em; [unfold user_map_range; rewrite Em, orb_true_r; exact Hrej|].
  destruct ((u64 (va + PAGE_ALIGN_UP size) <=? va) || (USER_TOP <? u64 (va + PAGE_ALIGN_UP size))) eqn:Eg.
  { unfold user_map_range. rewrite Em, (proj2 (Z.eqb_neq space 0) Hnz). cbn [orb]. cbv zeta. rewrite Eg. exact Hrej. }
  destruct (range_accepted va size Hv Hz Em Eg) as (Hm & Hs0 & Ht).
  eapply may_mono; [apply (map_range_try s space root va size flags Hl Hnz Ho Hm (proj1 Hv) Hs0 Ht)|by intros|].
  intros r s' (n & Hr & Mu & _ & _ & Hd). pose proof (mu_pages _ _ _ _ _ _ Mu) as Ep. split; [rewrite Ep; by apply (step_within _ _ _ _ root Hs Hl); apply Mu|]. split; [done|].
  exists n. split; [lia|]. split; [apply Mu|]. destruct Hd as [[-> ->]|[-> _]]; [left|by right]. done.
Qed.

(** With memory for the pages and their tables. *)
Lemma map_range_total s space root va size flags :
  spaces_ok s → us_spaces s !! space = Some root → is_u64 va → is_u64 size →
  (va mod 4096 = 0 → 0 < size → va + size ≤ USER_TOP → 4 * pages_of size ≤ pa_nfree (us_pmm s)) →
  wp (user_map_range space va size flags) s (λ r s', step_ok (Some space) s s' ∧ s' = with_pages s (us_mem s') (us_pmm s') ∧
    ∃ n, 0 ≤ n ≤ pages_of size ∧ extended (us_mem s) (us_mem s') root (va / 4096) (va / 4096 + n) flags ∧
      ((r = 0 ∧ va mod 4096 = 0 ∧ 0 < size ∧ va + size ≤ USER_TOP ∧ n = pages_of size) ∨ r = -1)).
Proof.
  intros Hs Hl Hv Hz Hn. eapply wp_mono; [apply (may_wp _ _ _ _ (map_range_any s space root va size flags Hs Hl Hv Hz))|].
  - intros ((F1 & F2 & F3) & Hlt). specialize (Hn F1 F2 F3). lia.
  - intros r s' (Hst & Ep & n & Hr & Hx & Hd). split; [done|]. split; [done|]. exists n. split; [done|]. split; [done|].
    destruct Hd as [(-> & (? & ? & ?) & ->)| ->]; [by left|by right].
Qed.

(** What a call changes outside the range [addr .. addr + n * 4096). *)
Definition kept_outside (m m' : mem) (root addr n : Z) : Prop :=
  ∀ va, 0 ≤ va < USER_TOP → ¬ addr ≤ va < addr + 4096 * n → slot m' root va = slot m root va ∧ ubyte m' root va = ubyte m root va.

Lemma extended_outside m m' root addr n k fl : addr mod 4096 = 0 → n ≤ k → extended m m' root (addr / 4096) (addr / 4096 + n) fl → kept_outside m m' root addr k.
Proof. intros Ha Hk Hx va Hva Hout. split; [apply (ex_slot _ _ _ _ _ _ Hx)|apply (ex_byte _ _ _ _ _ _ Hx)]; zlia. Qed.

(** *** The program break *)

Record arena_ok (m : mem) (root : Z) (p : procmem) : Prop := {
  ar_base : 0 < brk_base p ∧ brk_base p mod 4096 = 0;
  ar_order : brk_base p ≤ brk_current p ≤ brk_max p ∧ brk_max p ≤ USER_TOP;
  ar_aligned : brk_max p mod 4096 = 0;
  ar_access : accessible m root (brk_base p) (brk_max p - brk_base p) true
}.

(** What a change of the break does to the user's memory: what was there stays, what is new is zeros. *)
Definition break_moved (m m' : mem) (root : Z) (p p' : procmem) : Prop :=
  (∀ va, 0 ≤ va < brk_max p → ubyte m' root va = ubyte m root va) ∧ ∀ va, brk_max p ≤ va < brk_max p' → ubyte m' root va = Some 0.

Lemma break_kept m root p cur : break_moved m m root p (with_brk p cur (brk_max p)).
Proof. split; [done|]. cbn [with_brk brk_max]. intros va Hva. lia. Qed.

Lemma writable_flag : has 2 PAGE_WRITABLE = true.
Proof. done. Qed.

(** The arena after its end moved to [want]. *)
Lemma arena_extended m m' root p new want :
  arena_ok m root p → extended m m' root (brk_max p / 4096) (want / 4096) 2 → brk_max p ≤ new ≤ want → want ≤ USER_TOP → want mod 4096 = 0 →
  arena_ok m' root (with_brk p new want) ∧ break_moved m m' root p (with_brk p new want).
Proof.
  intros [[A0 A1] [A2 A3] A4 [A5 A6]] Hx Hn Hw Ha. unfold break_moved. cbn [with_brk brk_max brk_base]. split.
  - split; cbn [with_brk brk_base brk_current brk_max]; try done; try lia. split; [lia|]. intros va Hva. destruct (decide (va < brk_max p)).
    + destruct (A6 va) as (e & He & Hwr); [lia|]. exists e. split; [|done]. rewrite (ex_slot _ _ _ _ _ _ Hx); [done|lia|zlia].
    + destruct (ex_new _ _ _ _ _ _ Hx va) as (_ & e & He & Hwr); [lia|zlia|]. exists e. split; [done|]. intros _. by rewrite Hwr.
  - split; intros va Hva; [apply (ex_byte _ _ _ _ _ _ Hx); [lia|zlia]|apply (ex_new _ _ _ _ _ _ Hx); [lia|zlia]].
Qed.

(** A failed extension leaves the arena as it was. *)
Lemma arena_kept m m' root p n : arena_ok m root p → 0 ≤ n → extended m m' root (brk_max p / 4096) (brk_max p / 4096 + n) 2 → arena_ok m' root p ∧ break_moved m m' root p p.
Proof.
  intros [[A0 A1] [A2 A3] A4 [A5 A6]] Hn Hx. split.
  - split; try done. split; [done|]. intros va Hva. destruct (A6 va Hva) as (e & He & Hwr). exists e. split; [|done]. rewrite (ex_slot _ _ _ _ _ _ Hx); [done|lia|zlia].
  - split; intros va Hva; [apply (ex_byte _ _ _ _ _ _ Hx); [lia|zlia]|lia].
Qed.

(** There may be too little memory for the pages up to [nb]. *)
Definition brk_short s (p : procmem) (nb : Z) : Prop := brk_max p < nb ≤ USER_TOP ∧ pa_nfree (us_pmm s) < 4 * pages_of (nb - brk_max p).

Lemma process_brk_spec s p root nb :
  spaces_ok s → us_spaces s !! address_space p = Some root → arena_ok (us_mem s) root p → is_u64 nb →
  may (brk_short s p nb) (process_brk p nb) s (λ r s', step_ok (Some (address_space p)) s s' ∧ us_cr3 s' = us_cr3 s ∧ arena_ok (us_mem s') root r.1 ∧
    (break_moved (us_mem s) (us_mem s') root p r.1 ∧ kept_outside (us_mem s) (us_mem s') root (brk_max p) (pages_of (nb - brk_max p))) ∧
    (address_space r.1 = address_space p ∧ brk_base r.1 = brk_base p) ∧ r.2 = brk_current r.1 ∧
    (brk_current r.1 = nb ∧ brk_base p ≤ nb ∨ r.1 = p) ∧ (brk_base p ≤ nb ≤ brk_max p → brk_current r.1 = nb)).
Proof.
  intros Hs Hl Ha Hnb. unfold process_brk. pose proof Ha as [[A0 A1] [A2 A3] A4 A5]. unfold is_u64 in Hnb.
  assert (break_moved (us_mem s) (us_mem s) root p p ∧ kept_outside (us_mem s) (us_mem s) root (brk_max p) (pages_of (nb - brk_max p))) as [Hbm Hkm] by (split; [split; [done|]; intros va Hva; lia|done]).
  destruct (Z.eqb_spec nb 0) as [->|Hz]; [apply may_ret; cbn [fst snd]; split; [by apply step_ok_refl|]; split_and!; auto; lia|].
  destruct (Z.ltb_spec nb (brk_base p)) as [Hlow|Hlow]; [apply may_ret; cbn [fst snd]; split; [by apply step_ok_refl|]; split_and!; auto; lia|].
  destruct (Z.leb_spec nb (brk_max p)) as [Hin|Hout].
  { apply may_ret. cbn [fst snd]. split; [by apply step_ok_refl|]. split; [done|]. split; [split; cbn [with_brk brk_base brk_current brk_max]; done || lia|]. split; [split; [apply break_kept|done]|].
    cbn [with_brk brk_current]. split; [done|]. split; [done|]. split; [left; lia|lia]. }
  unfold USER_TOP in *. cbv zeta. eapply (may_known _ _ _ _ (with_cr3 s (us_kernel s)) (us_cr3 s)); [done|].
  set (want := align_up_u64 nb 4096). set (add := u64 (want - brk_max p)).
  assert (nb ≤ 2 ^ 64 - 4096 → want mod 4096 = 0 ∧ nb ≤ want < nb + 4096 ∧ add = want - brk_max p) as Hwant.
  { intros Hno. destruct (align_up_least nb 12 ltac:(lia) ltac:(unfold is_u64; lia) ltac:(change (2 ^ 12) with 4096; lia)) as (W1 & W2 & _). change (2 ^ 12) with 4096 in W1, W2. fold want in W1, W2.
    split; [done|]. split; [done|]. unfold add. apply u64_small. lia. }
  assert (¬ nb ≤ 2 ^ 64 - 4096 → add = 2 ^ 64 - brk_max p) as Hwrap.
  { intros Ho. assert (want = 0) as Ew.
    - unfold want, align_up_u64. change (u64 (4096 - 1)) with (2 ^ 12 - 1). assert (u64 (nb + (2 ^ 12 - 1)) = nb + (2 ^ 12 - 1) - 2 ^ 64) as -> by (rewrite u64_add by (unfold is_u64; lia); by rewrite decide_False by lia).
      rewrite land_not_low by (unfold is_u64; lia). change (2 ^ 12) with 4096. zlia.
    - unfold add. rewrite Ew. unfold u64. symmetry. apply (Z.mod_unique _ _ (-1)); lia. }
  assert (pages_of add = pages_of (nb - brk_max p)) as Epg.
  { unfold pages_of. destruct (decide (nb ≤ 2 ^ 64 - 4096)) as [Hno|Hw]; [destruct (Hwant Hno) as (? & ? & ->); zlia|rewrite (Hwrap Hw); zlia]. }
  assert (range_fits (brk_max p) add → nb ≤ 2 ^ 64 - 4096) as Hfit.
  { intros (_ & _ & Ht). unfold USER_TOP in Ht. destruct (decide (nb ≤ 2 ^ 64 - 4096)) as [|Hw]; [done|]. specialize (Hwrap Hw). lia. }
  eapply may_step; [eapply may_mono; [apply (map_range_any (with_cr3 s (us_kernel s)) (address_space p) root (brk_max p) add 2); [by apply spaces_ok_cr3|done|unfold is_u64; lia|apply u64_range]| |intros rc s1 Hpost; exact Hpost]|].
  { intros [Hf Hlt]. destruct (Hwant (Hfit Hf)) as (W1 & W2 & W3). destruct Hf as (_ & _ & Ht). unfold brk_short, USER_TOP in *. rewrite Epg in Hlt. cbn [with_cr3 us_pmm] in Hlt. lia. }
  intros rc s1 (Hst & Ep & n & Hn0 & Hx & Hrc). eapply (may_known _ _ _ _ (with_cr3 s1 (us_cr3 s)) tt); [done|]. apply may_ret. cbn [with_cr3 us_mem us_pmm] in *.
  pose proof (extended_outside _ _ _ _ n (pages_of (nb - brk_max p)) _ A4 ltac:(lia) Hx) as Hko.
  split; [by eapply step_ok_cr3|]. split; [done|]. destruct Hrc as [(-> & Hf & ->)| ->]; cbn [Z.eqb fst snd].
  - destruct (Hwant (Hfit Hf)) as (W1 & W2 & W3). destruct Hf as (_ & _ & Ht). unfold USER_TOP in Ht.
    replace (brk_max p / 4096 + pages_of add) with (want / 4096) in Hx by (unfold pages_of; zlia).
    destruct (arena_extended (us_mem s) (us_mem s1) root p nb want Ha Hx) as [Ha' Hb']; [lia|unfold USER_TOP; lia|done|]. split; [done|]. split; [done|]. cbn [with_brk brk_current]. split; [done|]. split; [done|]. split; [left; lia|lia].
  - destruct (arena_kept (us_mem s) (us_mem s1) root p n Ha (proj1 Hn0) Hx) as [Ha' Hb']. split; [done|]. split; [done|]. split; [done|]. split; [done|]. split; [by right|lia].
Qed.

(** ** Theorems *)

(** C18. [process_sbrk]: the arena stays mapped and writable up to the break; a call that grows it by [delta] and does not fail
    returns the old break, and the bytes from there on are then the caller's to write; the bytes below the old end are
    unchanged and those above are zeros. A call that shrinks it stops at the start of the arena. A call that fails returns -1
    and leaves the process record as it was, but pages above the end that it mapped before it failed stay mapped. Whatever the
    result, nothing changes outside the pages from the old end to the new break, nor in other address spaces. The kernel panics
    only when there are less than four free pages for each of these pages. *)
Theorem sbrk_memory s p root delta :
  spaces_ok s → us_spaces s !! address_space p = Some root → arena_ok (us_mem s) root p → - 2 ^ 63 < delta < 2 ^ 63 →
  may (brk_short s p (brk_current p + delta)) (process_sbrk p delta) s (λ r s', step_ok (Some (address_space p)) s s' ∧ us_cr3 s' = us_cr3 s ∧
    arena_ok (us_mem s') root r.1 ∧ break_moved (us_mem s) (us_mem s') root p r.1 ∧
    kept_outside (us_mem s) (us_mem s') root (brk_max p) (pages_of (brk_current p + delta - brk_max p)) ∧
    ((r.2 = brk_current p ∧ brk_current r.1 = Z.max (brk_base p) (brk_current p + delta) ∧ accessible (us_mem s') root (brk_current p) (Z.max 0 delta) true) ∨
     (r.2 = 2 ^ 64 - 1 ∧ r.1 = p ∧ 0 < delta))).
Proof.
  intros Hs Hl Ha Hd. pose proof Ha as [[A0 A1] [A2 A3] A4 A5]. unfold USER_TOP in *. unfold process_sbrk.
  assert (break_moved (us_mem s) (us_mem s) root p p) as Hbm by (split; [done|]; intros va Hva; lia).
  destruct (Z.eqb_spec delta 0) as [->|Hnz].
  { apply may_ret. split; [by apply step_ok_refl|]. cbn [fst snd]. split_and!; try done. left. split; [done|]. split; [lia|]. split; [unfold USER_TOP; lia|]. intros va Hva. lia. }
  cbv zeta. set (target := if delta <? 0 then _ else _).
  assert (target = Z.max (brk_base p) (brk_current p + delta)) as Et.
  { unfold target. destruct (Z.ltb_spec delta 0); [|rewrite u64_small; lia]. rewrite (u64_small (- delta)), (u64_small (brk_current p - brk_base p)) by lia.
    destruct (Z.ltb_spec (brk_current p - brk_base p) (- delta)); [lia|]. rewrite u64_small; lia. }
  rewrite Et. clearbody target. clear Et. set (nb := Z.max (brk_base p) (brk_current p + delta)) in *.
  assert (brk_max p < nb → nb = brk_current p + delta) as Enb by lia.
  eapply may_step; [eapply may_mono; [apply (process_brk_spec s p root nb Hs Hl Ha); unfold is_u64; lia| |intros r s' Hpost; exact Hpost]|].
  { intros [Hb Hlt]. rewrite Enb in * by lia. done. }
  intros [p' r] s' (Hst & Hc3 & Ha' & [Hb' Hko] & [_ Eb] & Hr & Hcur & Hin). cbn [fst snd] in *. subst r. pose proof Ha' as [_ [B2 B3] _ [B5 B6]].
  assert (kept_outside (us_mem s) (us_mem s') root (brk_max p) (pages_of (brk_current p + delta - brk_max p))) as Hko'.
  { intros va Hva Hout. apply Hko; [done|]. destruct (decide (brk_max p < nb)) as [Hgt|Hle]; [by rewrite Enb|]. unfold pages_of. zlia. }
  destruct ((0 <? delta) && (brk_current p' <? nb)) eqn:Ef; apply may_ret; cbn [fst snd]; (split; [done|]); (split; [done|]); (split; [done|]); (split; [done|]); (split; [done|]).
  - apply andb_true_iff in Ef as [E1%Z.ltb_lt E2%Z.ltb_lt]. right. split; [done|]. destruct Hcur as [[Hc _]| ->]; [lia|done].
  - left. split; [done|]. assert (brk_current p' = nb) as Ec.
    { destruct Hcur as [[Hc _]|Hp]; [done|]. destruct (decide (0 < delta)) as [Hpos|Hneg]; [|apply Hin; lia]. destruct (Z.ltb_spec 0 delta); [|lia]. cbn [andb] in Ef. apply Z.ltb_ge in Ef. rewrite Hp in *. lia. }
    split; [done|].
    split; [unfold USER_TOP in *; lia|]. intros va Hva. apply B6. lia.
Qed.

(** The process after a successful call: the range that follows is next when the caller gave no address. *)
Definition mmap_next_moved (p : procmem) (rdi next : Z) : procmem :=
  mk_procmem (address_space p) (brk_base p) (brk_current p) (brk_max p) (if rdi =? 0 then next else mmap_next p).

(** C19. [sys_mmap], with enough memory: it returns an error, or the page-aligned address of a range that is mapped, reads as
    zeros, and is writable exactly when PROT_WRITE is set, and when the kernel chose the address the next choice is after the
    range. In both cases the pages of the caller outside the range are as they were. *)
Theorem mmap_memory s p root rdi rsi rdx :
  spaces_ok s → us_spaces s !! address_space p = Some root → is_u64 rdi → is_u64 rsi → mmap_next p mod 4096 = 0 → 0 ≤ mmap_next p < USER_TOP → rdi < USER_TOP →
  (rsi ≤ USER_TOP → 4 * pages_of rsi ≤ pa_nfree (us_pmm s)) →
  wp (sys_mmap (Some p) rdi rsi rdx) s (λ r s', step_ok (Some (address_space p)) s s' ∧ us_cr3 s' = us_cr3 s ∧
    let addr := if rdi =? 0 then mmap_next p else PAGE_ALIGN_DOWN rdi in
    kept_outside (us_mem s) (us_mem s') root addr (pages_of rsi) ∧
    (((r.2 = - SYS_EINVAL ∧ rsi = 0 ∨ r.2 = - SYS_ENOMEM) ∧ r.1 = Some p) ∨
     (r.2 = addr ∧ addr mod 4096 = 0 ∧ addr + 4096 * pages_of rsi ≤ USER_TOP ∧ r.1 = Some (mmap_next_moved p rdi (addr + 4096 * pages_of rsi)) ∧
      ∀ va, addr ≤ va < addr + rsi → ubyte (us_mem s') root va = Some 0 ∧
        ∃ e, slot (us_mem s') root va = Some (false, e) ∧ has e PAGE_WRITABLE = negb (Z.land rdx PROT_WRITE =? 0)))).
Proof.
  intros Hs Hl Hdi Hsi Hma Hmr Hdt Hn. unfold sys_mmap. cbv zeta. unfold is_u64 in *. destruct (Z.eqb_spec rsi 0) as [E0|Hnz].
  { apply wp_ret. split; [by apply step_ok_refl|]. split; [done|]. cbv zeta. split; [done|]. left. cbn [fst snd]. split; [by left|done]. }
  set (addr := if rdi =? 0 then mmap_next p else PAGE_ALIGN_DOWN rdi). assert ((if negb (rdi =? 0) then PAGE_ALIGN_DOWN rdi else mmap_next p) = addr) as -> by (unfold addr; by destruct (rdi =? 0)).
  assert (addr mod 4096 = 0 ∧ 0 ≤ addr < USER_TOP) as [Ham Har].
  { unfold addr. destruct (rdi =? 0); [done|]. rewrite page_align_down_spec by (unfold is_u64; lia). split; zlia. }
  set (fl := if negb (Z.land rdx PROT_WRITE =? 0) then 2 else 0). assert (has fl PAGE_WRITABLE = negb (Z.land rdx PROT_WRITE =? 0)) as Hfl by (unfold fl; by destruct (Z.land rdx PROT_WRITE =? 0)).
  assert (is_u64 (PAGE_ALIGN_UP rsi)) as Hlu by (unfold PAGE_ALIGN_UP; rewrite Z.land_comm; apply land_u_range; done).
  assert (PAGE_ALIGN_UP rsi + addr ≤ USER_TOP → 0 < PAGE_ALIGN_UP rsi → rsi + 4095 < 2 ^ 64) as Hsmall.
  { intros Ht Hp. destruct (decide (rsi + 4095 < 2 ^ 64)) as [|Ho]; [done|]. exfalso. revert Hp. unfold PAGE_ALIGN_UP. change PAGE_MASK with (2 ^ 12 - 1).
    rewrite u64_add by (unfold is_u64; lia). rewrite decide_False by lia. rewrite land_not_low by (unfold is_u64; lia). change (2 ^ 12) with 4096. zlia. }
  eapply (wp_known _ _ _ (with_cr3 s (us_kernel s)) (us_cr3 s)); [done|].
  eapply wp_step; [apply (map_range_total (with_cr3 s (us_kernel s)) (address_space p) root addr (PAGE_ALIGN_UP rsi) fl); [by apply spaces_ok_cr3|done|unfold is_u64, USER_TOP in *; lia|done|]|].
  { intros _ Hp Ht. specialize (Hsmall ltac:(lia) Hp). rewrite page_align_up_spec in * by lia. replace (pages_of (4096 * ((rsi + 4095) / 4096))) with (pages_of rsi) by (unfold pages_of; zlia). apply Hn. zlia. }
  intros rc s1 (Hst & Ep & n & Hn0 & Hx & Hrc). eapply (wp_known _ _ _ (with_cr3 s1 (us_cr3 s)) tt); [done|]. cbn [with_cr3 us_mem us_pmm] in *.
  assert (pages_of (PAGE_ALIGN_UP rsi) ≤ pages_of rsi) as Hle.
  { destruct (decide (rsi + 4095 < 2 ^ 64)) as [|Ho]; [rewrite page_align_up_spec by lia; unfold pages_of; zlia|]. replace (PAGE_ALIGN_UP rsi) with 0; [unfold pages_of; zlia|].
    unfold PAGE_ALIGN_UP. change PAGE_MASK with (2 ^ 12 - 1). rewrite u64_add by (unfold is_u64; lia). rewrite decide_False by lia. rewrite land_not_low by (unfold is_u64; lia). change (2 ^ 12) with 4096. zlia. }
  pose proof (extended_outside _ _ _ _ n (pages_of rsi) _ Ham ltac:(lia) Hx) as Hout.
  destruct Hrc as [(-> & _ & Hp & Ht & ->)| ->]; cbn [Z.eqb negb]; apply wp_ret; (split; [by eapply step_ok_cr3|]); (split; [done|]); (split; [done|]); cbn [fst snd with_cr3 us_mem]; [right|left; split; [by right|done]].
  specialize (Hsmall ltac:(lia) Hp). rewrite page_align_up_spec in * by lia. split; [unfold i64, USER_TOP in *; rewrite Z.mod_small; lia|].
  split; [done|]. split; [unfold pages_of; lia|]. split.
  { unfold mmap_next_moved, pages_of. destruct (rdi =? 0); [rewrite u64_small by (unfold is_u64, USER_TOP in *; lia)|destruct p]; done. }
  intros va Hva. rewrite <-Hfl. apply (ex_new _ _ _ _ _ _ Hx); [unfold USER_TOP in *; zlia|unfold pages_of; zlia].
Qed.

(** C39. [sys_munmap] of a page of the kernel. Every address space has 2 MiB supervisor pages for the kernel, and the call does not
    tell them from pages of the user: when the kernel uses the page of memory, the call succeeds and gives the page to the
    allocator while the kernel still has it mapped; otherwise, as for the first page of memory, the kernel panics. *)
Theorem munmap_kernel_page s p root va e :
  spaces_ok s → us_spaces s !! address_space p = Some root → va mod 4096 = 0 → 0 ≤ va → va + 4096 ≤ USER_TOP →
  slot (us_mem s) root va = Some (true, e) → frame_of e = lpn va * 2 ^ 21 →
  (¬ pa_isfree (us_pmm s) va → pa_managed (pa_geometry (us_pmm s)) va →
     ∃ s', sys_munmap (Some p) va 4096 s = Ret (s', 0) ∧ us_mem s' = us_mem s ∧ ∀ q, pa_isfree (us_pmm s') q ↔ pa_isfree (us_pmm s) q ∨ page q = va) ∧
  (pa_isfree (us_pmm s) va ∨ ¬ pa_managed (pa_geometry (us_pmm s)) va → sys_munmap (Some p) va 4096 s = Panic).
Proof.
  intros Hs Hl Hm H0 Ht Hsl Hfr. set (k := with_cr3 s (us_kernel s)).
  pose proof (unmap_window k (address_space p) root va e (spaces_ok_cr3 s _ Hs) Hl Hm H0 Ht Hsl Hfr) as Eu. cbn [k with_cr3 us_pmm us_mem] in Eu.
  assert (sys_munmap (Some p) va 4096 s = a' ← pmm_free_page (us_pmm s) va; Ret (with_pages s (us_mem s) a', 0)) as E.
  { unfold sys_munmap. change (PAGE_ALIGN_UP 4096) with 4096. cbv zeta. rewrite page_offset_spec, Hm. cbn [Z.eqb negb orb]. rewrite (bind_run user_with_kernel_cr3 _ s k (us_cr3 s)) by done.
    unfold mbind, stM_bind at 1. fold k in Eu. rewrite Eu. by destruct (pmm_free_page (us_pmm s) va). }
  rewrite E. pose proof (so_alloc _ Hs) as Hok. split.
  - intros Hf Hman. destruct (free_page_spec (us_pmm s) va Hok Hm Hf Hman) as (a' & -> & _ & _ & _ & Hq). exists (with_pages s (us_mem s) a'). done.
  - intros Hbad. pose proof (pmm_free_page_spec (us_pmm s) va (proj1 (proj1 Hok)) ltac:(unfold is_u64, USER_TOP in *; lia)) as Hp. rewrite decide_False in Hp; [by rewrite Hp|].
    unfold LOW_MEMORY_RESERVED_END. intros (_ & Hlow & Htot & Hu). destruct Hbad as [[_ Hb]|Hb]; [congruence|]. apply Hb. cbn [pa_managed pa_geometry pmm_laws fst]. split; [|done]. clear -Hlow. zlia.
Qed.

End Spec.

(** ** Example: a process with a small arena *)

#[local] Instance ex_kalloc : Kalloc heap := heap_kalloc ex_arena.
#[local] Instance ex_laws : KallocLaws heap := heap_laws ex_arena eq_refl.

Definition final {A} (s : us heap) (o : outcome (us heap * A)) : us heap := match o with Ret (s', _) => s' | _ => s end.
Definition succeeds (o : outcome (us heap * Z)) : bool := match o with Ret (_, r) => r =? 0 | _ => false end.
Definition ex_grown : us heap := final ex_two (user_map_range ex_a PROCESS_BRK_BASE 8192 2 ex_two).
Definition ex_proc : procmem := mk_procmem ex_a PROCESS_BRK_BASE (PROCESS_BRK_BASE + 100) (PROCESS_BRK_BASE + 8192) PROCESS_MMAP_BASE.

Lemma with_pages_spaces (s : us heap) m a : us_spaces (with_pages s m a) = us_spaces s.
Proof. reflexivity. Qed.

Lemma ex_grown_run : succeeds (user_map_range ex_a PROCESS_BRK_BASE 8192 2 ex_two) = true.
Proof. vm_compute. reflexivity. Qed.

Lemma ex_grown_arena : spaces_ok ex_grown ∧ us_spaces ex_grown !! ex_a = Some ex_root_a ∧ arena_ok (us_mem ex_grown) ex_root_a ex_proc.
Proof.
  destruct ex_two_spaces as (Ha & _ & Hn%Z.leb_le).
  destruct (wp_run _ _ _ (map_range_total ex_two ex_a ex_root_a PROCESS_BRK_BASE 8192 2 ex_two_ok Ha ltac:(clear; by vm_compute) ltac:(clear; by vm_compute) ltac:(intros _ _ _; exact Hn)))
    as (s & r & E & Hst & Es & n & Hn0 & Hx & Hr).
  pose proof ex_grown_run as Hz. unfold ex_grown. rewrite E in Hz |- *. change (final ex_two (Ret (s, r))) with s. change (succeeds (Ret (s, r))) with (r =? 0) in Hz. apply Z.eqb_eq in Hz. destruct Hr as [(_ & _ & _ & _ & ->)|Hr]; [|rewrite Hr in Hz; discriminate Hz].
  split; [apply Hst|]. split; [rewrite Es, with_pages_spaces; exact Ha|]. split; [clear; by vm_compute|clear; by vm_compute|clear; by vm_compute|]. split; [clear; by vm_compute|].
  cbn [ex_proc brk_base brk_max]. intros va Hva. destruct (ex_new _ _ _ _ _ _ Hx va) as (_ & e & He & Hw).
  - clear -Hva. unfold PROCESS_BRK_BASE, USER_TOP in *. lia.
  - clear -Hva. change (pages_of 8192) with 2. unfold PROCESS_BRK_BASE in *. zlia.
  - exists e. split; [exact He|]. intros _. by rewrite Hw.
Qed.

Lemma ex_grown_free : (8 <=? g_free_pages (us_pmm ex_grown)) = true.
Proof. vm_compute. reflexivity. Qed.

Lemma sbrk_memory_witness :
  may (brk_short ex_grown ex_proc (PROCESS_BRK_BASE + 100 + 8192)) (process_sbrk ex_proc 8192) ex_grown (λ r s', step_ok (Some ex_a) ex_grown s' ∧ us_cr3 s' = us_cr3 ex_grown ∧
    arena_ok (us_mem s') ex_root_a r.1 ∧ break_moved (us_mem ex_grown) (us_mem s') ex_root_a ex_proc r.1 ∧
    kept_outside (us_mem ex_grown) (us_mem s') ex_root_a (PROCESS_BRK_BASE + 8192) (pages_of (PROCESS_BRK_BASE + 100 + 8192 - (PROCESS_BRK_BASE + 8192))) ∧
    ((r.2 = PROCESS_BRK_BASE + 100 ∧ brk_current r.1 = Z.max PROCESS_BRK_BASE (PROCESS_BRK_BASE + 100 + 8192) ∧ accessible (us_mem s') ex_root_a (PROCESS_BRK_BASE + 100) 8192 true) ∨
     (r.2 = 2 ^ 64 - 1 ∧ r.1 = ex_proc ∧ 0 < 8192))).
Proof.
  destruct ex_grown_arena as (Hs & Hl & Ha).
  apply (sbrk_memory ex_grown ex_proc ex_root_a 8192 Hs Hl Ha). clear; by vm_compute.
Defined.

Lemma mmap_memory_witness :
  wp (sys_mmap (Some ex_proc) 0 5000 3) ex_grown (λ r s', step_ok (Some ex_a) ex_grown s' ∧ us_cr3 s' = us_cr3 ex_grown ∧
    let addr := if 0 =? 0 then mmap_next ex_proc else PAGE_ALIGN_DOWN 0 in
    kept_outside (us_mem ex_grown) (us_mem s') ex_root_a addr (pages_of 5000) ∧
    (((r.2 = - SYS_EINVAL ∧ 5000 = 0 ∨ r.2 = - SYS_ENOMEM) ∧ r.1 = Some ex_proc) ∨
     (r.2 = addr ∧ addr mod 4096 = 0 ∧ addr + 4096 * pages_of 5000 ≤ USER_TOP ∧ r.1 = Some (mmap_next_moved ex_proc 0 (addr + 4096 * pages_of 5000)) ∧
      ∀ va, addr ≤ va < addr + 5000 → ubyte (us_mem s') ex_root_a va = Some 0 ∧
        ∃ e, slot (us_mem s') ex_root_a va = Some (false, e) ∧ has e PAGE_WRITABLE = negb (Z.land 3 PROT_WRITE =? 0)))).
Proof.
  destruct ex_grown_arena as (Hs & Hl & Ha). pose proof ex_grown_free as Hn%Z.leb_le.
  apply (mmap_memory ex_grown ex_proc ex_root_a 0 5000 3 Hs Hl); [clear; by vm_compute|clear; by vm_compute|clear; by vm_compute|clear; by vm_compute|clear; by vm_compute|]. intros _. exact Hn.
Defined.

(** The page at 0x102000 is one that the kernel uses. *)
Lemma munmap_kernel_page_witness :
  ∃ s', sys_munmap (Some ex_proc) 0x102000 4096 ex_two = Ret (s', 0) ∧ us_mem s' = us_mem ex_two ∧ ∀ q, pa_isfree (us_pmm s') q ↔ pa_isfree (us_pmm ex_two) q ∨ page q = 0x102000.
Proof.
  destruct ex_two_spaces as (Ha & _ & _).
  destruct (munmap_kernel_page ex_two ex_proc ex_root_a 0x102000 (default (false, 0) (slot (us_mem ex_two) ex_root_a 0x102000)).2 ex_two_ok Ha) as [Hfree _];
    [clear; by vm_compute|clear; by vm_compute|clear; by vm_compute|clear; vm_compute; reflexivity|clear; vm_compute; reflexivity|].
  apply Hfree; [|clear; by vm_compute]. intros [_ Hf]. clear -Hf. vm_compute in Hf. discriminate Hf.
Defined.
