(* ===== verification/Ustack.v ===== *)
(** The first stack of a program, [build_user_stack] of [kernel/process/process.c]: the strings of the arguments from the top of the
    stack down, below them the block that the program finds at its stack pointer, the count, the pointers and a NULL. *)

From stdpp Require Import gmap.
From S2P Require Import Prelude Bytes Kmath CString Layout Pmm Memory Paging Vmm StateM Heap Kalloc Files Uspace UspaceSpec UspaceMap UspaceNew UspaceIso UspaceThm Usermem.

(** ** Definitions *)

Definition PROCESS_MAX_ARGS : Z := 32.
Definition USER_STACK_TOP : Z := 0x7FFFFFFFE000.
Definition USER_STACK_SIZE : Z := 0x40000.

Section Ustack.
Context {H : Type} {KA : Kalloc H}.
Notation St := (us H).

(** The strings: [sp] goes down, [addrs[i]] is set; [inr] is [return 0]. *)
Definition string_body (space : Z) (argv : list (list Z)) (i : Z) (l : Z * list Z) : stM St (Z * list Z + unit) :=
  let '(sp, addrs) := l in
  str ← lift (aget argv i);
  len ← lift (kstrlen str);
  let len := u64 (len + 1) in
  let sp := u64 (sp - len) in
  r ← user_copy_to_space space sp str 0 len;
  if negb (r =? 0) then mret (inr tt)
  else
    addrs ← lift (aset addrs i sp);
    mret (inl (sp, addrs)).

Definition pointer_body (space base : Z) (addrs : list Z) (i : Z) (_ : unit) : stM St (unit + unit) :=
  a ← lift (aget addrs i);
  r ← user_copy_to_space space (u64 (base + 8 + i * 8)) (le_bytes 8 a) 0 8;
  mret (if negb (r =? 0) then inr tt else inl tt).

(** [argc] is an int; the array [addrs] of the C code is not initialised, [junk] is what is there. *)
Definition build_user_stack (junk : list Z) (space argc : Z) (argv : list (list Z)) : stM St Z :=
  let argc := if argc <? 0 then 0 else argc in
  let argc := if PROCESS_MAX_ARGS <? argc then PROCESS_MAX_ARGS else argc in
  r ← seek 0 argc (string_body space argv) (USER_STACK_TOP, junk);
  match r with
  | inr _ => mret 0
  | inl (sp, addrs) =>
      let sp := Z.land sp (not64 0xF) in
      let slots := argc + 2 in
      let sp := if negb (Z.land slots 1 =? 0) then u64 (sp - 8) else sp in
      let base := u64 (sp - slots * 8) in
      r ← user_copy_to_space space base (le_bytes 8 argc) 0 8;
      if negb (r =? 0) then mret 0
      else
        r ← seek 0 argc (pointer_body space base addrs) tt;
        match r with
        | inr _ => mret 0
        | inl _ =>
            r ← user_copy_to_space space (u64 (base + 8 + argc * 8)) (le_bytes 8 0) 0 8;
            if negb (r =? 0) then mret 0 else mret base
        end
  end.

End Ustack.

(** ** Specification *)

(** The bytes [d] are at [addr] of the user's memory. *)
Definition holds (m : mem) (root addr : Z) (d : list Z) : Prop := ∀ k, 0 ≤ k < zlen d → ubyte m root (addr + k) = d !! Z.to_nat k.

(** The bytes the strings need, with their NULs. *)
Definition strings_size (ts : list (list Z)) : Z := foldr (λ t n, zlen t + 1 + n) 0 ts.

(** The stack pointer after the strings. *)
Definition string_at (ts : list (list Z)) (i : Z) : Z := USER_STACK_TOP - strings_size (take (Z.to_nat (i + 1)) ts).

Definition stack_mapped (m : mem) (root : Z) : Prop := mapped m root (USER_STACK_TOP - USER_STACK_SIZE) USER_STACK_SIZE.

Record argv_block (m : mem) (root base : Z) (ts : list (list Z)) : Prop := {
  ab_aligned : base mod 16 = 0;
  ab_range : USER_STACK_TOP - USER_STACK_SIZE ≤ base < USER_STACK_TOP;
  ab_argc : holds m root base (le_bytes 8 (zlen ts));
  ab_argv i : 0 ≤ i < zlen ts → holds m root (base + 8 + 8 * i) (le_bytes 8 (string_at ts i));
  ab_null : holds m root (base + 8 + 8 * zlen ts) (le_bytes 8 0);
  ab_string i t : 0 ≤ i → ts !! Z.to_nat i = Some t → holds m root (string_at ts i) (t ++ [0])
}.

(** ** Lemmas *)

Lemma holds_kept m m' root dst d addr d' :
  written m m' root dst d → holds m root addr d' → 0 ≤ addr → addr + zlen d' ≤ USER_TOP → dst + zlen d ≤ addr ∨ addr + zlen d' ≤ dst → holds m' root addr d'.
Proof.
  intros Hw Hh H0 Ht Hd k Hk. rewrite (wr_byte _ _ _ _ _ Hw) by lia. rewrite decide_False by lia. by apply Hh.
Qed.

Lemma written_holds m m' root dst d : written m m' root dst d → 0 ≤ dst → dst + zlen d ≤ USER_TOP → holds m' root dst d.
Proof.
  intros Hw H0 Ht k Hk. rewrite (wr_byte _ _ _ _ _ Hw) by lia. rewrite decide_True by lia. f_equal. lia.
Qed.

Lemma mapped_written m m' root dst d a n : written m m' root dst d → mapped m root a n → mapped m' root a n.
Proof. intros Hw Hm va Hva. destruct (Hm va Hva) as [e He]. exists e. by rewrite (wr_slot _ _ _ _ _ Hw). Qed.

Lemma mapped_sub m root a n b k : mapped m root a n → a ≤ b → b + k ≤ a + n → mapped m root b k.
Proof. intros Hm H1 H2 va Hva. apply Hm. lia. Qed.

Lemma strings_size_nonneg ts : 0 ≤ strings_size ts.
Proof. induction ts as [|t ts IH]; cbn [strings_size foldr]; [lia|]. fold (strings_size ts). pose proof (zlen_nonneg t). lia. Qed.

Lemma strings_size_app a b : strings_size (a ++ b) = strings_size a + strings_size b.
Proof. induction a as [|t a IH]; cbn [app strings_size foldr]; [done|]. fold (strings_size (a ++ b)) (strings_size a). lia. Qed.

Lemma strings_size_S ts i t : 0 ≤ i → ts !! Z.to_nat i = Some t → strings_size (take (Z.to_nat (i + 1)) ts) = strings_size (take (Z.to_nat i) ts) + zlen t + 1.
Proof.
  intros Hi Ht. replace (Z.to_nat (i + 1)) with (S (Z.to_nat i)) by lia. rewrite (take_S_r _ _ t Ht), strings_size_app. cbn [strings_size foldr]. lia.
Qed.

Lemma strings_size_mono ts i j : 0 ≤ i ≤ j → strings_size (take (Z.to_nat i) ts) ≤ strings_size (take (Z.to_nat j) ts).
Proof.
  intros Hij. replace (take (Z.to_nat j) ts) with (take (Z.to_nat i) ts ++ take (Z.to_nat j - Z.to_nat i) (drop (Z.to_nat i) ts)); [rewrite strings_size_app; pose proof (strings_size_nonneg (take (Z.to_nat j - Z.to_nat i) (drop (Z.to_nat i) ts))); lia|].
  rewrite take_take_drop. f_equal. lia.
Qed.

Section Spec.
Context {H : Type} {KA : Kalloc H} {KL : KallocLaws H}.
Implicit Types s : us H.
Variables (s : us H) (space root : Z).
Hypothesis Hs : spaces_ok s.
Hypothesis Hl : us_spaces s !! space = Some root.

(** The stack may be written to; other pages are not touched. *)
Definition stack_ok (m : mem) : Prop :=
  user_ok m (us_pmm s) root ∧ stack_mapped m root ∧ within (us_mem s) (us_pmm s) m (us_pmm s) root.

Lemma stack_write m dst src n :
  stack_ok m → USER_STACK_TOP - USER_STACK_SIZE ≤ dst → dst + n ≤ USER_STACK_TOP → 0 ≤ n ≤ zlen src →
  wp (user_copy_to_space space dst src 0 n) (with_mem s m) (λ r s', r = 0 ∧ ∃ m', s' = with_mem s m' ∧ written m m' root dst (zslice src 0 n) ∧ stack_ok m').
Proof.
  intros (Ho & Hm & Hw) H1 H2 Hn. destruct (so_space _ Hs _ _ Hl) as [Hnz _]. unfold USER_STACK_TOP, USER_STACK_SIZE in *.
  eapply wp_mono; [apply (copy_to_spec (with_mem s m) space root dst src 0 n Hl Hnz Ho); unfold USER_TOP; try lia|].
  - eapply mapped_sub; [exact Hm|unfold USER_STACK_TOP, USER_STACK_SIZE; lia..].
  - intros r s' (-> & m' & -> & Hwr & Ho'). split; [done|]. exists m'. split; [done|]. cbn [with_mem us_mem] in Hwr. split; [done|]. split; [done|].
    split; [by eapply mapped_written|]. eapply within_trans; [exact Hw|by eapply written_within].
Qed.

Variables (argv : list (list Z)) (ts : list (list Z)) (junk : list Z).
Hypothesis Hargv : Forall2 cstr argv ts.
Hypothesis Hcount : zlen ts ≤ PROCESS_MAX_ARGS.
Hypothesis Hjunk : zlen junk = PROCESS_MAX_ARGS.
Hypothesis Hfits : strings_size ts + 16 + 8 * (zlen ts + 3) ≤ USER_STACK_SIZE.

Lemma arg_string i : 0 ≤ i < zlen ts → ∃ str t rest, argv !! Z.to_nat i = Some str ∧ ts !! Z.to_nat i = Some t ∧ str = t ++ 0 :: rest ∧ 0 ∉ t ∧ zlen t + 1 ≤ strings_size ts ∧
  strings_size (take (Z.to_nat (i + 1)) ts) = strings_size (take (Z.to_nat i) ts) + zlen t + 1 ∧ strings_size (take (Z.to_nat (i + 1)) ts) ≤ strings_size ts.
Proof.
  intros Hi. destruct (lookup_in ts i Hi) as [t Ht]. destruct (Forall2_lookup_r _ _ _ _ _ Hargv Ht) as (str & Hstr & Hn & rest & ->).
  pose proof (strings_size_S ts i t ltac:(lia) Ht) as E. pose proof (strings_size_mono ts (i + 1) (zlen ts) ltac:(lia)) as Hm.
  assert (take (Z.to_nat (zlen ts)) ts = ts) as Et by (apply take_ge; unfold zlen; lia). rewrite Et in Hm. pose proof (strings_size_nonneg (take (Z.to_nat i) ts)).
  exists (t ++ 0 :: rest), t, rest. split_and!; done || lia.
Qed.

Record strings_done (i : Z) (l : Z * list Z) (m : mem) : Prop := {
  sd_sp : l.1 = USER_STACK_TOP - strings_size (take (Z.to_nat i) ts);
  sd_len : zlen l.2 = PROCESS_MAX_ARGS;
  sd_addr j : 0 ≤ j < i → l.2 !! Z.to_nat j = Some (string_at ts j);
  sd_ok : stack_ok m;
  sd_string j t : 0 ≤ j < i → ts !! Z.to_nat j = Some t → holds m root (string_at ts j) (t ++ [0])
}.

Lemma string_place j t : 0 ≤ j → ts !! Z.to_nat j = Some t →
  string_at ts j + zlen (t ++ [0]) = USER_STACK_TOP - strings_size (take (Z.to_nat j) ts) ∧ USER_STACK_TOP - strings_size ts ≤ string_at ts j.
Proof.
  intros Hj Ht. destruct (arg_string j) as (str & t' & rest & _ & Ht' & _ & _ & _ & E & Hle). { split; [done|]. apply lookup_lt_Some in Ht. unfold zlen. lia. }
  assert (t' = t) as -> by congruence. unfold string_at. rewrite zlen_app. change (zlen [0]) with 1. lia.
Qed.

Lemma string_step i l m : 0 ≤ i < zlen ts → strings_done i l m →
  wp (string_body space argv i l) (with_mem s m) (λ r s', ∃ l' m', r = inl l' ∧ s' = with_mem s m' ∧ strings_done (i + 1) l' m').
Proof.
  intros Hi [S1 S2 S3 S4 S5]. destruct l as [sp addrs]. cbn [fst snd] in *. destruct (arg_string i Hi) as (str & t & rest & Hstr & Ht & -> & Hn & Hsz & E & Hle).
  unfold string_body. eapply wp_lift_bind; [apply aget_Some; [lia|exact Hstr]|]. unfold USER_STACK_SIZE, USER_STACK_TOP, PROCESS_MAX_ARGS in *. pose proof (zlen_nonneg t). pose proof (strings_size_nonneg (take (Z.to_nat i) ts)).
  eapply wp_lift_bind; [apply (kstrlen_spec _ t); [split; [done|by exists rest]|lia]|]. cbv zeta. rewrite (u64_small (zlen t + 1)), S1, u64_small by lia.
  assert (0x7FFFFFFFE000 - strings_size (take (Z.to_nat i) ts) - (zlen t + 1) = string_at ts i) as -> by (unfold string_at, USER_STACK_TOP; lia).
  destruct (string_place i t ltac:(lia) Ht) as [P1 P2]. unfold USER_STACK_TOP in P1, P2. rewrite zlen_app in P1. change (zlen [0]) with 1 in P1.
  assert (zslice (t ++ 0 :: rest) 0 (zlen t + 1) = t ++ [0]) as Ez.
  { unfold zslice. rewrite drop_0. replace (Z.to_nat (zlen t + 1)) with (length t + 1)%nat by (unfold zlen; lia). rewrite firstn_app_2. done. }
  eapply wp_step; [apply (stack_write m (string_at ts i) (t ++ 0 :: rest) (zlen t + 1) S4); unfold USER_STACK_SIZE, USER_STACK_TOP; try lia; rewrite zlen_app, zlen_cons; pose proof (zlen_nonneg rest); lia|].
  intros r s' (-> & m' & -> & Hw & Hok). rewrite Ez in Hw. cbn [Z.eqb negb]. eapply wp_lift_bind; [apply aset_in; lia|]. apply wp_ret. eexists _, m'. split; [done|]. split; [done|].
  split; cbn [fst snd]; [unfold string_at, USER_STACK_TOP; done|by rewrite zlen_insert| |done|].
  - intros j Hj. destruct (decide (j = i)) as [->|Hne]; [rewrite list_lookup_insert_eq; [done|unfold zlen in *; lia]|]. rewrite list_lookup_insert_ne by lia. apply S3. lia.
  - intros j t' Hj Ht'. destruct (decide (j = i)) as [->|Hne].
    + assert (t' = t) as -> by congruence. apply (written_holds m); [done|lia|]. unfold USER_TOP. rewrite zlen_app. change (zlen [0]) with 1. lia.
    + destruct (string_place j t' ltac:(lia) Ht') as [Q1 Q2]. pose proof (strings_size_mono ts (j + 1) i ltac:(lia)) as Hm. pose proof (strings_size_nonneg (take (Z.to_nat j) ts)). unfold USER_STACK_TOP in Q1, Q2.
      apply (holds_kept m _ _ _ _ _ _ Hw); [apply S5; [lia|done]|lia|unfold USER_TOP; lia|]. left. rewrite zlen_app. change (zlen [0]) with 1. unfold string_at at 2. unfold USER_STACK_TOP. lia.
Qed.

(** The block, as far as it is written: [n] pointers. *)
Record block_done (base n : Z) (m : mem) : Prop := {
  bd_ok : stack_ok m;
  bd_argc : holds m root base (le_bytes 8 (zlen ts));
  bd_argv i : 0 ≤ i < n → holds m root (base + 8 + 8 * i) (le_bytes 8 (string_at ts i));
  bd_string i t : 0 ≤ i → ts !! Z.to_nat i = Some t → holds m root (string_at ts i) (t ++ [0])
}.

(** Where the block is. *)
Definition block_place (base : Z) : Prop :=
  USER_STACK_TOP - USER_STACK_SIZE ≤ base ∧ base + 8 * (zlen ts + 2) ≤ USER_STACK_TOP - strings_size ts ∧ base mod 16 = 0.

(** One word of the block. *)
Lemma block_write base n m dst w :
  block_place base → block_done base n m → 0 ≤ n → base + 8 + 8 * n ≤ dst → dst + 8 ≤ base + 8 * (zlen ts + 2) →
  wp (user_copy_to_space space dst (le_bytes 8 w) 0 8) (with_mem s m) (λ r s', r = 0 ∧ ∃ m', s' = with_mem s m' ∧ holds m' root dst (le_bytes 8 w) ∧ block_done base n m').
Proof.
  intros (P1 & P2 & _) [B1 B2 B3 B4] Hn H1 H2. pose proof (zlen_le_bytes 8 w) as Zw. pose proof (strings_size_nonneg ts). unfold USER_STACK_TOP, USER_STACK_SIZE in *.
  eapply wp_mono; [apply (stack_write m dst (le_bytes 8 w) 8 B1); unfold USER_STACK_TOP, USER_STACK_SIZE; lia|]. intros r s' (-> & m' & -> & Hw & Hok).
  rewrite zslice_all in Hw by done. split; [done|]. exists m'. split; [done|]. split; [apply (written_holds m); [done|lia|rewrite Zw; unfold USER_TOP; lia]|].
  split; [done|..].
  - apply (holds_kept m _ _ _ _ _ _ Hw B2); rewrite ?zlen_le_bytes; unfold USER_TOP; lia.
  - intros i Hi. apply (holds_kept m _ _ _ _ _ _ Hw (B3 i Hi)); rewrite ?zlen_le_bytes; unfold USER_TOP; lia.
  - intros i t Hi Ht. destruct (string_place i t Hi Ht) as [Q1 Q2]. pose proof (strings_size_nonneg (take (Z.to_nat i) ts)). unfold USER_STACK_TOP in Q1, Q2.
    apply (holds_kept m _ _ _ _ _ _ Hw (B4 i t Hi Ht)); [lia|unfold USER_TOP; lia|]. left. rewrite Zw. lia.
Qed.

Lemma stack_base sp : sp = USER_STACK_TOP - strings_size ts →
  let sp1 := Z.land sp (not64 0xF) in let slots := zlen ts + 2 in
  let sp2 := if negb (Z.land slots 1 =? 0) then u64 (sp1 - 8) else sp1 in block_place (u64 (sp2 - slots * 8)).
Proof.
  intros ->. cbv zeta. pose proof (strings_size_nonneg ts) as H0. pose proof (zlen_nonneg ts) as H1. unfold block_place, USER_STACK_TOP, USER_STACK_SIZE, PROCESS_MAX_ARGS in *.
  set (n := zlen ts) in *. set (z := strings_size ts) in *. change 0xF with (2 ^ 4 - 1). rewrite land_not_low by (unfold is_u64; lia). change (2 ^ 4) with 16.
  assert (Z.land (n + 2) 1 = (n + 2) mod 2) as -> by (apply (land_ones_mod (n + 2) 1); lia). destruct (Z.eqb_spec ((n + 2) mod 2) 0) as [E|E]; cbn [negb].
  - rewrite u64_small by zlia. split_and!; zlia.
  - rewrite (u64_small (_ - 8)) by zlia. rewrite u64_small by zlia. split_and!; zlia.
Qed.

Lemma build_stack_spec : stack_ok (us_mem s) →
  wp (build_user_stack junk space (zlen ts) argv) s (λ base s', base ≠ 0 ∧ ∃ m', s' = with_mem s m' ∧ stack_ok m' ∧ argv_block m' root base ts).
Proof.
  intros Hok. unfold build_user_stack. pose proof (zlen_nonneg ts) as H0. destruct (Z.ltb_spec (zlen ts) 0) as [|_]; [lia|]. destruct (Z.ltb_spec PROCESS_MAX_ARGS (zlen ts)) as [|_]; [lia|]. cbv zeta.
  eapply wp_step; [apply (wp_seek (λ i l s', ∃ m, s' = with_mem s m ∧ strings_done i l m) (λ _ _, False))|].
  - lia.
  - intros i l s' Hi (m & -> & Hd). eapply wp_mono; [by apply string_step|]. intros r s' (l' & m' & -> & -> & Hd'). by exists m'.
  - exists (us_mem s). split; [by destruct s|]. split; cbn [fst snd]; [rewrite take_0; change (strings_size []) with 0; lia|done|intros; lia|done|intros; lia].
  - intros [[sp addrs]|] s' Hr; [|done]. destruct Hr as (m & -> & [S1 S2 S3 S4 S5]). cbn [fst snd] in *.
    assert (take (Z.to_nat (zlen ts)) ts = ts) as Et by (apply take_ge; unfold zlen; lia). rewrite Et in S1. pose proof (stack_base sp S1) as Hb. cbv zeta in Hb.
    set (base := u64 (_ - (zlen ts + 2) * 8)) in *. clearbody base. pose proof Hb as (P1 & P2 & P3). pose proof (strings_size_nonneg ts).
    assert (∀ x, 0 ≤ x ≤ 8 * (zlen ts + 2) → u64 (base + x) = base + x) as Hu by (intros x Hx; unfold USER_STACK_TOP, USER_STACK_SIZE in *; apply u64_small; lia).
    eapply wp_step; [apply (stack_write m base (le_bytes 8 (zlen ts)) 8 S4); rewrite ?zlen_le_bytes; lia|]. intros r s' (-> & m1 & -> & Hw & Hok1). rewrite zslice_all in Hw by apply zlen_le_bytes.
    assert (block_done base 0 m1) as Hbd.
    { unfold USER_STACK_TOP, USER_STACK_SIZE in *. split; [done|apply (written_holds m); [done|lia|rewrite zlen_le_bytes; unfold USER_TOP; lia]|lia|]. intros i t Hi Ht. destruct (string_place i t Hi Ht) as [Q1 Q2].
      pose proof (strings_size_nonneg (take (Z.to_nat i) ts)). unfold USER_STACK_TOP in Q1, Q2.
      apply (holds_kept m _ _ _ _ _ _ Hw); [apply S5; [|done]; apply lookup_lt_Some in Ht; unfold zlen; lia|lia|unfold USER_TOP; lia|]. left. rewrite zlen_le_bytes. lia. }
    cbn [Z.eqb negb]. eapply wp_step; [apply (wp_seek (λ i _ s', ∃ m, s' = with_mem s m ∧ block_done base i m) (λ _ _, False))|].
    + lia.
    + intros i [] s' Hi (m2 & -> & Hbi). unfold pointer_body. eapply wp_lift_bind; [apply aget_Some; [lia|by apply S3]|]. replace (base + 8 + i * 8) with (base + (8 + 8 * i)) by lia. rewrite Hu by lia.
      eapply wp_step; [apply (block_write base i m2); [done|done|lia|lia|lia]|]. intros r s' (-> & m3 & -> & Hh & [B1 B2 B3 B4]). apply wp_ret. exists m3. split; [done|].
      split; [done|done| |done]. intros j Hj. destruct (decide (j = i)) as [->|]; [by replace (base + 8 + 8 * i) with (base + (8 + 8 * i)) by lia|apply B3; lia].
    + by exists m1.
    + intros [[]|] s' Hr; [|done]. destruct Hr as (m2 & -> & Hbn). replace (base + 8 + zlen ts * 8) with (base + (8 + 8 * zlen ts)) by lia. rewrite Hu by lia.
      eapply wp_step; [apply (block_write base (zlen ts) m2); [done|done|lia|lia|lia]|]. intros r s' (-> & m3 & -> & Hh & [B1 B2 B3 B4]). cbn [Z.eqb negb]. apply wp_ret.
      split; [unfold USER_STACK_TOP, USER_STACK_SIZE in *; lia|]. exists m3. split; [done|]. split; [done|]. split; try done; [lia|]. by replace (base + 8 + 8 * zlen ts) with (base + (8 + 8 * zlen ts)) by lia.
Qed.

End Spec.

Section Thm.
Context {H : Type} {KA : Kalloc H} {KL : KallocLaws H}.
Implicit Types s : us H.

(** C17. [build_user_stack], when the stack is mapped and there are at most 32 arguments, which fit on it: the result is a stack pointer aligned to 16 in
    the stack; the words from there up are the number of arguments, the addresses of their strings and a NULL, and at each
    of these addresses is the argument's string with its NUL. No other address space is touched. *)
Theorem user_stack_layout s space root argv ts junk :
  spaces_ok s → us_spaces s !! space = Some root → stack_mapped (us_mem s) root →
  Forall2 cstr argv ts → zlen ts ≤ PROCESS_MAX_ARGS → zlen junk = PROCESS_MAX_ARGS → strings_size ts + 16 + 8 * (zlen ts + 3) ≤ USER_STACK_SIZE →
  wp (build_user_stack junk space (zlen ts) argv) s (λ base s', base ≠ 0 ∧ step_ok (Some space) s s' ∧ argv_block (us_mem s') root base ts).
Proof.
  intros Hs Hl Hm Ha Hc Hj Hf. destruct (so_space _ Hs _ _ Hl) as [_ Ho].
  eapply wp_mono; [apply (build_stack_spec s space root Hs Hl argv ts junk Ha Hc Hj Hf); split; [done|split; [done|apply within_refl]]|].
  intros base s' (Hb & m' & -> & (Ho' & _ & Hw) & Hbl). split; [done|]. split; [|done]. change (with_mem s m') with (with_pages s m' (us_pmm s)). by apply (step_within _ _ _ _ root Hs Hl).
Qed.

(** A range that no page of the kernel covers is mapped. *)
Lemma map_run s space root va size flags :
  spaces_ok s → us_spaces s !! space = Some root → va mod 4096 = 0 → 0 ≤ va → 0 < size → va + size ≤ USER_TOP → 4 * pages_of size ≤ pa_nfree (us_pmm s) →
  forallb (λ i, negb (covered_2m (us_mem s) root (va + i * 4096))) (seqZ 0 (pages_of size)) = true → ∃ s', user_map_range space va size flags s = Ret (s', 0).
Proof.
  intros Hs Hl Hm H0 Hsz Ht Hn Hc. destruct (so_space _ Hs _ _ Hl) as [Hnz Ho].
  destruct (wp_run _ _ _ (map_range_spec s space root va size flags Hl Hnz Ho Hm H0 Hsz Ht Hn)) as (s' & r & E & n & Hn' & _ & _ & _ & Hr).
  exists s'. rewrite E. destruct Hr as [[-> _]|(_ & Hlt & Hcov)]; [done|]. rewrite forallb_forall in Hc. specialize (Hc n). rewrite Hcov in Hc. discriminate Hc. apply list_elem_of_In, elem_of_seqZ. lia.
Qed.

(** A range that was mapped with success. *)
Lemma map_mapped s space root va size flags s' :
  spaces_ok s → us_spaces s !! space = Some root → is_u64 va → is_u64 size → 4 * pages_of size ≤ pa_nfree (us_pmm s) → user_map_range space va size flags s = Ret (s', 0) →
  spaces_ok s' ∧ us_spaces s' !! space = Some root ∧ mapped (us_mem s') root va size.
Proof.
  intros Hs Hl Hv Hz Hn E. destruct (wp_run _ _ _ (map_range_total s space root va size flags Hs Hl Hv Hz ltac:(done))) as (s2 & r & E' & [Hst _] & Ep & n & Hn0 & Hx & Hr).
  rewrite E in E'. injection E' as <- <-. split; [done|]. split; [by rewrite Ep|]. destruct Hr as [(_ & Hm & Hs0 & Ht & ->)|Hr]; [|discriminate Hr].
  intros v Hva. destruct (ex_new _ _ _ _ _ _ Hx v) as (_ & e & He & _); [unfold is_u64, USER_TOP in *; lia|unfold is_u64, pages_of in *; zlia|]. by exists e.
Qed.

End Thm.

(** ** Example *)

#[local] Instance ex_kalloc : Kalloc heap := heap_kalloc ex_arena.
#[local] Instance ex_laws : KallocLaws heap := heap_laws ex_arena eq_refl.

Definition ex_stack : us heap := final ex_two (user_map_range ex_a (USER_STACK_TOP - USER_STACK_SIZE) USER_STACK_SIZE 2 ex_two).

(** There are pages enough, and no page of the kernel is in the way. *)
Lemma ex_stack_room :
  (256 <=? g_free_pages (us_pmm ex_two)) && forallb (λ i, negb (covered_2m (us_mem ex_two) ex_root_a (USER_STACK_TOP - USER_STACK_SIZE + i * 4096))) (seqZ 0 64) = true.
Proof. vm_compute. reflexivity. Qed.

Lemma ex_stack_ok : spaces_ok ex_stack ∧ us_spaces ex_stack !! ex_a = Some ex_root_a ∧ stack_mapped (us_mem ex_stack) ex_root_a.
Proof.
  destruct ex_two_spaces as (Ha & _ & _). destruct (andb_prop _ _ ex_stack_room) as [Hn%Z.leb_le Hc].
  destruct (map_run ex_two ex_a ex_root_a (USER_STACK_TOP - USER_STACK_SIZE) USER_STACK_SIZE 2 ex_two_ok Ha) as (s' & E);
    [clear; by vm_compute|clear; by vm_compute|clear; by vm_compute|clear; by vm_compute|exact Hn|exact Hc|].
  destruct (map_mapped ex_two ex_a ex_root_a (USER_STACK_TOP - USER_STACK_SIZE) USER_STACK_SIZE 2 s' ex_two_ok Ha) as (S1 & L1 & M1);
    [clear; by vm_compute|clear; by vm_compute|exact Hn|exact E|].
  unfold ex_stack. rewrite E. change (final ex_two (Ret (s', 0))) with s'. split; [exact S1|]. split; [exact L1|]. intros va Hva. apply M1. clear -Hva. unfold USER_STACK_TOP, USER_STACK_SIZE in *. lia.
Qed.

Definition ex_args : list (list Z) := [[47; 98; 0]; [45; 120; 0; 7]].
Definition ex_texts : list (list Z) := [[47; 98]; [45; 120]].

Lemma ex_args_ok : Forall2 cstr ex_args ex_texts.
Proof. repeat constructor; try (apply (bool_decide_unpack _); vm_compute; exact I); [by exists []|by exists [7]]. Qed.

Lemma user_stack_layout_witness :
  wp (build_user_stack (replicate 32 0) ex_a 2 ex_args) ex_stack (λ base s', base ≠ 0 ∧ step_ok (Some ex_a) ex_stack s' ∧ argv_block (us_mem s') ex_root_a base ex_texts).
Proof.
  destruct ex_stack_ok as (Hs & Hl & Hm).
  apply (user_stack_layout ex_stack ex_a ex_root_a ex_args ex_texts (replicate 32 0) Hs Hl Hm ex_args_ok); clear; by vm_compute.
Defined.
