(* ===== verification/Dcache.v ===== *)
(** The name cache, [kernel/fs/dcache.c]: a hash table from the hash of a path to its entry, and a list of the entries, the
    one used last first. Pointers to [struct dentry] are integers, 0 is NULL; [dc_dentries] are the entries that are
    allocated and [dc_lru] is the list as the sequence of its entries. [kmem_cache_alloc] is a parameter: [fresh used] is the
    address of a block that is not in [used], or [None]. *)

From stdpp Require Import gmap.
From S2P Require Import Prelude CString Hashtable StateM.

(** ** Definitions *)

Definition DENTRY_PATH : Z := 256.

Record dentry (V : Type) := mk_dentry { de_path : list Z; de_vnode : option V; de_negative : Z; de_hash : Z; de_hits : Z }.
Arguments mk_dentry {V} _ _ _ _ _.
Arguments de_path {V} _.
Arguments de_vnode {V} _.
Arguments de_negative {V} _.
Arguments de_hash {V} _.
Arguments de_hits {V} _.

Record dcache_stats := mk_dstats { ds_lookups : Z; ds_hits : Z; ds_misses : Z; ds_inserts : Z; ds_evictions : Z; ds_entries : Z; ds_capacity : Z }.

Record dcache (V : Type) := mk_dcache {
  dc_index : hashtable;
  dc_lru : list Z;
  dc_dentries : gmap Z (dentry V);
  dc_capacity : Z;
  dc_entries : Z;
  dc_stats : dcache_stats;
  dc_inited : bool
}.
Arguments mk_dcache {V} _ _ _ _ _ _ _.
Arguments dc_index {V} _.
Arguments dc_lru {V} _.
Arguments dc_dentries {V} _.
Arguments dc_capacity {V} _.
Arguments dc_entries {V} _.
Arguments dc_stats {V} _.
Arguments dc_inited {V} _.

Section Dcache.
Context {V : Type}.
Notation M := (stM (dcache V)).
Implicit Types (s : dcache V) (d : dentry V).

Definition put_index (ht : hashtable) : M unit := λ s,
  Ret (mk_dcache ht (dc_lru s) (dc_dentries s) (dc_capacity s) (dc_entries s) (dc_stats s) (dc_inited s), tt).
Definition put_lru (l : list Z) : M unit := λ s,
  Ret (mk_dcache (dc_index s) l (dc_dentries s) (dc_capacity s) (dc_entries s) (dc_stats s) (dc_inited s), tt).
Definition put_dentries (m : gmap Z (dentry V)) : M unit := λ s,
  Ret (mk_dcache (dc_index s) (dc_lru s) m (dc_capacity s) (dc_entries s) (dc_stats s) (dc_inited s), tt).
Definition put_entries (n : Z) : M unit := λ s,
  Ret (mk_dcache (dc_index s) (dc_lru s) (dc_dentries s) (dc_capacity s) n (dc_stats s) (dc_inited s), tt).
Definition on_stats (f : dcache_stats → dcache_stats) : M unit := λ s,
  Ret (mk_dcache (dc_index s) (dc_lru s) (dc_dentries s) (dc_capacity s) (dc_entries s) (f (dc_stats s)) (dc_inited s), tt).
Definition gets {A} (f : dcache V → A) : M A := λ s, Ret (s, f s).

Definition inc_lookups (t : dcache_stats) : dcache_stats := mk_dstats (u64 (ds_lookups t + 1)) (ds_hits t) (ds_misses t) (ds_inserts t) (ds_evictions t) (ds_entries t) (ds_capacity t).
Definition inc_hits (t : dcache_stats) : dcache_stats := mk_dstats (ds_lookups t) (u64 (ds_hits t + 1)) (ds_misses t) (ds_inserts t) (ds_evictions t) (ds_entries t) (ds_capacity t).
Definition inc_misses (t : dcache_stats) : dcache_stats := mk_dstats (ds_lookups t) (ds_hits t) (u64 (ds_misses t + 1)) (ds_inserts t) (ds_evictions t) (ds_entries t) (ds_capacity t).
Definition inc_inserts (n : Z) (t : dcache_stats) : dcache_stats := mk_dstats (ds_lookups t) (ds_hits t) (ds_misses t) (u64 (ds_inserts t + 1)) (ds_evictions t) n (ds_capacity t).
Definition inc_evictions (t : dcache_stats) : dcache_stats := mk_dstats (ds_lookups t) (ds_hits t) (ds_misses t) (ds_inserts t) (u64 (ds_evictions t + 1)) (ds_entries t) (ds_capacity t).
Definition set_entries (n : Z) (t : dcache_stats) : dcache_stats := mk_dstats (ds_lookups t) (ds_hits t) (ds_misses t) (ds_inserts t) (ds_evictions t) n (ds_capacity t).

(** [d->...], a fault when nothing is allocated at [d]. *)
Definition load_dentry (p : Z) : M (dentry V) := λ s, match dc_dentries s !! p with Some d => Ret (s, d) | None => Fault end.
Definition store_dentry (p : Z) (d : dentry V) : M unit := m ← gets dc_dentries; put_dentries (<[p := d]> m).
Definition dentry_free (p : Z) : M unit := _ ← load_dentry p; m ← gets dc_dentries; put_dentries (delete p m).

(** [list_del_init(&d->lru)] and [list_add(&d->lru, &g_lru)]. *)
Definition lru_del (p : Z) : M unit := l ← gets dc_lru; put_lru (filter (.≠ p) l).
Definition lru_add (p : Z) : M unit := l ← gets dc_lru; put_lru (p :: l).

Definition index_remove (h : Z) : M unit := ht ← gets dc_index; '(ht, _) ← lift (hashtable_remove ht h); put_index ht.

(** The result of [hashtable_init] is not looked at. *)
Definition dcache_init (fuel : nat) (alloc : Z → bool) (capacity : Z) : M unit := λ s,
  '(ht, _) ← hashtable_init fuel alloc (dc_index s) (u32 (capacity * 2));
  let cap := if capacity =? 0 then 64 else capacity in
  Ret (mk_dcache ht [] (dc_dentries s) cap 0 (mk_dstats 0 0 0 0 0 0 cap) true, tt).

Definition path_hash (path : list Z) : outcome Z := n ← strlen path; hash_bytes path n.

Definition find_entry (path : list Z) (h : Z) : M Z :=
  ht ← gets dc_index;
  '(p, found) ← lift (hashtable_get ht h);
  if negb (found =? 0) && negb (p =? 0) then
    d ← load_dentry p;
    c ← lift (strcmp (de_path d) path);
    mret (if c =? 0 then p else 0)
  else mret 0.

Definition evict_one : M unit :=
  l ← gets dc_lru;
  match last l with
  | None => mret tt
  | Some victim =>
      lru_del victim;;
      d ← load_dentry victim;
      index_remove (de_hash d);;
      dentry_free victim;;
      n ← gets dc_entries; put_entries (u32 (n - 1));;
      on_stats inc_evictions
  end.

Definition touch (p : Z) : M unit := lru_del p;; lru_add p.

(** The vnode, and what is stored to [found] and [is_negative]. *)
Definition dcache_lookup (path : list Z) : M (option V * Z * Z) :=
  i ← gets dc_inited;
  if negb i then mret (None, 0, 0)
  else
    on_stats inc_lookups;;
    h ← lift (path_hash path);
    p ← find_entry path h;
    if p =? 0 then on_stats inc_misses;; mret (None, 0, 0)
    else
      on_stats inc_hits;;
      d ← load_dentry p;
      store_dentry p (mk_dentry (de_path d) (de_vnode d) (de_negative d) (de_hash d) (u64 (de_hits d + 1)));;
      touch p;;
      mret (de_vnode d, 1, de_negative d).

(** One turn of [while (g_entries >= g_capacity) evict_one()]. *)
Definition evict_step (_ : unit) : M (unit + unit) :=
  n ← gets dc_entries;
  c ← gets dc_capacity;
  if c <=? n then evict_one;; mret (inl tt) else mret (inr tt).

(** [junk] is what the new block holds; [alloc] says whether [hashtable_put] gets memory for a node. *)
Definition insert_common (fresh : gset Z → option Z) (junk : list Z) (alloc : bool) (path : list Z) (vnode : option V) (negative : Z) : M unit :=
  i ← gets dc_inited;
  if negb i then mret tt
  else
    h ← lift (path_hash path);
    existing ← find_entry path h;
    if negb (existing =? 0) then
      d ← load_dentry existing;
      store_dentry existing (mk_dentry (de_path d) vnode negative (de_hash d) (de_hits d));;
      touch existing
    else
      n ← gets dc_entries;
      while (S (Z.to_nat n)) evict_step tt;;
      used ← gets dc_dentries;
      match fresh (dom used) with
      | None => mret tt
      | Some p =>
          '(dp, _) ← lift (strlcpy junk path DENTRY_PATH);
          store_dentry p (mk_dentry dp vnode negative h 0);;
          ht ← gets dc_index;
          '(ht, r) ← lift (hashtable_put alloc ht h p);
          put_index ht;;
          if negb (r =? 0) then dentry_free p
          else
            lru_add p;;
            n ← gets dc_entries;
            put_entries (u32 (n + 1));;
            on_stats (inc_inserts (u32 (n + 1)))
      end.

Definition dcache_insert fresh junk alloc (path : list Z) (vnode : option V) : M unit := insert_common fresh junk alloc path vnode 0.
Definition dcache_insert_negative fresh junk alloc (path : list Z) : M unit := insert_common fresh junk alloc path None 1.

Definition dcache_invalidate (path : list Z) : M unit :=
  i ← gets dc_inited;
  if negb i then mret tt
  else
    h ← lift (path_hash path);
    p ← find_entry path h;
    if p =? 0 then mret tt
    else
      lru_del p;;
      index_remove h;;
      dentry_free p;;
      n ← gets dc_entries;
      put_entries (u32 (n - 1));;
      on_stats (set_entries (u32 (n - 1))).

(** [list_for_each_safe] over the list as it is at the start. *)
Fixpoint flush_loop (l : list Z) : M unit :=
  match l with
  | [] => mret tt
  | p :: l =>
      lru_del p;;
      d ← load_dentry p;
      index_remove (de_hash d);;
      dentry_free p;;
      flush_loop l
  end.

Definition dcache_flush : M unit :=
  i ← gets dc_inited;
  if negb i then mret tt
  else
    l ← gets dc_lru;
    flush_loop l;;
    put_entries 0;;
    on_stats (set_entries 0).

Definition dcache_get_stats : M dcache_stats := t ← gets dc_stats; n ← gets dc_entries; mret (set_entries n t).

(** ** Invariant *)

(** What the table finds is in the list under its hash; what is in the list is allocated and has a string for a path. Two paths
    with one hash have two entries in the list, and the table has the later one. *)
Record dcache_core s : Prop := {
  dw_index : ∃ bs, ht_wf (dc_index s) bs;
  dw_found h p : ht_map (dc_index s) !! h = Some p → p ∈ dc_lru s ∧ ∃ d, dc_dentries s !! p = Some d ∧ de_hash d = h;
  dw_lru : NoDup (dc_lru s);
  dw_nonzero : 0 ∉ dc_lru s;
  dw_live p : p ∈ dc_lru s → ∃ d t, dc_dentries s !! p = Some d ∧ cstr (de_path d) t ∧ Forall is_u8 t
}.

Definition dcache_wf s : Prop := dcache_core s ∧ dc_entries s = zlen (dc_lru s) ∧ zlen (dc_lru s) ≤ dc_capacity s ∧ 0 < dc_capacity s < 2 ^ 32.
Definition dcache_ok s : Prop := dc_inited s = true → dcache_wf s.

(** ** Lemmas *)

Lemma hash_bytes_total (b : list Z) n : 0 ≤ n ≤ zlen b → ∃ h, hash_bytes b n = Ret h.
Proof.
  intros Hn. destruct (for_range_inv (λ _ _, True) (hash_bytes_body b) 0 n 0xCBF29CE484222325) as (h & E & _); [lia| |done|by exists h].
  intros i h Hi _. unfold hash_bytes_body. destruct (aget_in b i ltac:(lia)) as (x & _ & ->). by eexists.
Qed.

Lemma path_hash_total path t : cstr path t → zlen t < 2 ^ 64 → ∃ h, path_hash path = Ret h.
Proof.
  intros Hp Ht. unfold path_hash, strlen. rewrite (kstrlen_spec path t Hp Ht). cbn [mbind outcome_bind]. apply hash_bytes_total.
  destruct Hp as [_ [rest ->]]. rewrite zlen_app. pose proof (zlen_nonneg t). pose proof (zlen_nonneg (0 :: rest)). lia.
Qed.

(** The entry that [find_entry] returns: the one the table has for the hash, when it is for the path. *)
Lemma find_entry_spec s path t h : dcache_core s → cstr path t → Forall is_u8 t →
  ∃ p, find_entry path h s = Ret (s, p) ∧ (p ≠ 0 → ht_map (dc_index s) !! h = Some p) ∧ (ht_map (dc_index s) !! h = None → p = 0).
Proof.
  intros [[bs Hb] Hf _ _ Hl] Hp Ht. destruct (hashtable_get_spec _ _ h Hb) as [E _]. unfold find_entry, gets, lift, mbind, stM_bind. cbn [mbind outcome_bind]. rewrite E. cbn [mbind outcome_bind].
  destruct (ht_map (dc_index s) !! h) as [p|] eqn:Em; [|by exists 0]. destruct (Hf h p Em) as [Hin (d & Hd & _)]. destruct (Hl p Hin) as (d' & t' & Hd' & Hc & Hu). simplify_eq.
  change (negb (1 =? 0)) with true. cbn [andb]. destruct (Z.eqb_spec p 0); [by exists 0|]. cbn [negb]. unfold load_dentry. rewrite Hd. cbn [mbind outcome_bind].
  destruct (strcmp_spec _ _ _ _ Hc Hp Hu Ht) as (r & -> & _). cbn [mbind outcome_bind]. destruct (r =? 0); [by exists p|by exists 0].
Qed.

(** An entry is removed from the list, the table and the memory. *)
Definition dropped s (p : Z) s' : Prop :=
  dcache_core s' ∧ dc_lru s' = filter (.≠ p) (dc_lru s) ∧ dc_entries s' = dc_entries s ∧ dc_capacity s' = dc_capacity s ∧ dc_inited s' = dc_inited s ∧
  ∀ d, dc_dentries s !! p = Some d → ht_map (dc_index s') = delete (de_hash d) (ht_map (dc_index s)).

Lemma index_remove_spec s p d : dcache_core s → p ∈ dc_lru s → dc_dentries s !! p = Some d →
  ∃ ht, index_remove (de_hash d) (mk_dcache (dc_index s) (filter (.≠ p) (dc_lru s)) (dc_dentries s) (dc_capacity s) (dc_entries s) (dc_stats s) (dc_inited s)) =
      Ret (mk_dcache ht (filter (.≠ p) (dc_lru s)) (dc_dentries s) (dc_capacity s) (dc_entries s) (dc_stats s) (dc_inited s), tt) ∧
    dropped s p (mk_dcache ht (filter (.≠ p) (dc_lru s)) (delete p (dc_dentries s)) (dc_capacity s) (dc_entries s) (dc_stats s) (dc_inited s)).
Proof.
  intros [[bs Hb] Hf Hn H0 Hl] Hp Hd. destruct (hashtable_remove_spec _ _ (de_hash d) Hb) as (ht & bs' & E & Hb' & Em). exists ht. split.
  { unfold index_remove, gets, lift, put_index, mbind, stM_bind. cbn [mbind outcome_bind dc_index]. by rewrite E. }
  split; [|split_and!; [done..|intros d' Hd'; simplify_eq; exact Em]]. split; cbn.
  - by exists bs'.
  - intros h q Hq. rewrite Em in Hq. apply lookup_delete_Some in Hq as [Hne Hq]. destruct (Hf h q Hq) as [Hin (e & He & Hh)].
    assert (q ≠ p) as Hqp by (intros ->; simplify_eq). split; [by apply list_elem_of_filter|]. exists e. by rewrite lookup_delete_ne.
  - by apply NoDup_filter.
  - rewrite list_elem_of_filter. tauto.
  - intros q [Hq Hin]%list_elem_of_filter. rewrite lookup_delete_ne by done. by apply Hl.
Qed.

(** The name cache has nothing for the path. *)
Definition not_cached (path : list Z) s : Prop := ∃ s', dcache_lookup path s = Ret (s', (None, 0, 0)).

Lemma find_entry_same s s' path h p : find_entry path h s = Ret (s, p) → dc_index s' = dc_index s → dc_dentries s' = dc_dentries s → find_entry path h s' = Ret (s', p).
Proof.
  unfold find_entry, gets, load_dentry, lift, mbind, stM_bind, mret, stM_ret. cbn [mbind outcome_bind]. intros E Ei Ed. rewrite Ei.
  destruct (hashtable_get _ _) as [[q found]| | |]; cbn [mbind outcome_bind] in *; [|done..]. destruct (negb _ && _); [|congruence]. rewrite Ed.
  destruct (dc_dentries s !! q) as [d|]; cbn [mbind outcome_bind] in *; [|done]. destruct (strcmp _ _); cbn [mbind outcome_bind] in *; [|done..]. congruence.
Qed.

Lemma not_cached_miss s path h : path_hash path = Ret h → find_entry path h s = Ret (s, 0) → not_cached path s.
Proof.
  intros Eh Ef. unfold not_cached, dcache_lookup. erewrite bind_run by reflexivity. destruct (dc_inited s); [|by eexists]. cbn [negb]. erewrite bind_run by reflexivity.
  erewrite bind_run by (unfold lift; by rewrite Eh). erewrite bind_run by (eapply find_entry_same; [exact Ef|reflexivity..]). change (0 =? 0) with true. cbv iota. erewrite bind_run by reflexivity. by eexists.
Qed.

Lemma filter_others (p : Z) (l : list Z) : p ∉ l → filter (.≠ p) l = l.
Proof. induction l as [|x l IH]; [done|]. intros [Hx Hl]%not_elem_of_cons. rewrite filter_cons_True by done. by rewrite IH. Qed.

Lemma filter_one (p : Z) (l : list Z) : NoDup l → p ∈ l → zlen (filter (.≠ p) l) = zlen l - 1.
Proof.
  intros Hn Hp. apply list_elem_of_split in Hp as (l1 & l2 & ->). apply NoDup_app in Hn as (Hn1 & Hd & [Hp2 Hn2]%NoDup_cons).
  rewrite filter_app, filter_cons_False by tauto. rewrite !filter_others; [rewrite !zlen_app, zlen_cons; lia|done|]. intros Hp1. apply (Hd p Hp1), list_elem_of_here.
Qed.

(** The counters after an entry is gone. *)
Lemma dropped_wf s p s1 f :
  dcache_wf s → p ∈ dc_lru s → dropped s p s1 →
  dcache_wf (mk_dcache (dc_index s1) (dc_lru s1) (dc_dentries s1) (dc_capacity s1) (u32 (dc_entries s1 - 1)) (f (dc_stats s1)) (dc_inited s1)).
Proof.
  intros (Hc & He & Hle & Hcap) Hp (Hc1 & El & Ee & Ec & _). pose proof (filter_one p _ (dw_lru _ Hc) Hp) as Hz. rewrite <-El in Hz. pose proof (zlen_nonneg (dc_lru s1)).
  split; [by destruct Hc1; split|]. cbn. rewrite Ee, Ec, He. split; [|lia]. rewrite u32_small by lia. lia.
Qed.

(** [dcache_invalidate] removes what the cache has for the path. *)
Lemma dcache_invalidate_spec s path t :
  dcache_ok s → cstr path t → Forall is_u8 t → zlen t < 2 ^ 64 → wp (dcache_invalidate path) s (λ _ s', dcache_ok s' ∧ not_cached path s').
Proof.
  intros Hok Hp Ht Hl. destruct (path_hash_total path t Hp Hl) as [h Eh]. unfold dcache_invalidate. eapply wp_known; [reflexivity|].
  destruct (dc_inited s) eqn:Ei; cbn [negb].
  2:{ apply wp_ret. split; [done|]. exists s. unfold dcache_lookup. erewrite bind_run by reflexivity. by rewrite Ei. }
  specialize (Hok Ei). pose proof Hok as (Hc & _). eapply wp_known; [unfold lift; by rewrite Eh|]. destruct (find_entry_spec s path t h Hc Hp Ht) as (p & E & Hin & _).
  eapply wp_known; [exact E|]. destruct (Z.eqb_spec p 0) as [->|Hne]; [apply wp_ret; split; [by intros _|by apply (not_cached_miss s path h)]|]. specialize (Hin Hne).
  destruct (dw_found _ Hc h p Hin) as [Hpl (d & Hd & <-)]. destruct (index_remove_spec s p d Hc Hpl Hd) as (ht & Er & Hdr). eapply wp_known; [reflexivity|]. eapply wp_known; [exact Er|].
  eapply wp_known; [unfold dentry_free; erewrite bind_run; [|unfold load_dentry; cbn [dc_dentries]; by rewrite Hd]; reflexivity|].
  eapply wp_known; [reflexivity|]. eapply wp_known; [reflexivity|]. unfold wp, on_stats. pose proof (dropped_wf s p _ (set_entries (u32 (dc_entries s - 1))) Hok Hpl Hdr) as Hw. split; [intros _; exact Hw|].
  destruct Hdr as (_ & _ & _ & _ & _ & Em). specialize (Em d Hd). cbn [dc_index] in Em. pose proof Hw as (Hc' & _). destruct (find_entry_spec _ path t (de_hash d) Hc' Hp Ht) as (q & Eq & _ & H0).
  eapply not_cached_miss; [exact Eh|]. assert (q = 0) as ->; [|exact Eq]. apply H0. cbn [dc_index]. rewrite Em. apply lookup_delete_eq.
Qed.

(** An entry is written, with its path and hash as they were, and moved to the front. *)
Lemma touch_wf s p d v n k f :
  dcache_wf s → p ∈ dc_lru s → dc_dentries s !! p = Some d →
  dcache_wf (mk_dcache (dc_index s) (p :: filter (.≠ p) (dc_lru s)) (<[p := mk_dentry (de_path d) v n (de_hash d) k]> (dc_dentries s)) (dc_capacity s) (dc_entries s) (f (dc_stats s)) (dc_inited s)).
Proof.
  intros ([Hb Hf Hn H0 Hl] & He & Hle & Hcap) Hp Hd. pose proof (filter_one p _ Hn Hp) as Hz.
  assert (∀ q, q ∈ p :: filter (.≠ p) (dc_lru s) ↔ q ∈ dc_lru s) as Hq by (intros q; rewrite elem_of_cons, list_elem_of_filter; destruct (decide (q = p)) as [->|]; tauto).
  split; [|split_and!; cbn; rewrite ?zlen_cons; lia]. split; cbn.
  - done.
  - intros h q Hh. destruct (Hf h q Hh) as [Hin (e & He' & Hhe)]. split; [by apply Hq|]. destruct (decide (q = p)) as [->|Hne]; [|rewrite lookup_insert_ne by done; by exists e].
    rewrite lookup_insert_eq. eexists. split; [done|]. cbn. congruence.
  - apply NoDup_cons. split; [rewrite list_elem_of_filter; tauto|by apply NoDup_filter].
  - by rewrite Hq.
  - intros q Hin%Hq. destruct (Hl q Hin) as (e & t & He' & Ht). destruct (decide (q = p)) as [->|Hne]; [|rewrite lookup_insert_ne by done; by exists e, t].
    rewrite lookup_insert_eq. eexists _, t. split; [done|]. cbn. by simplify_eq.
Qed.

Lemma dcache_lookup_spec s path t : dcache_ok s → cstr path t → Forall is_u8 t → zlen t < 2 ^ 64 → wp (dcache_lookup path) s (λ _ s', dcache_ok s').
Proof.
  intros Hok Hp Ht Hl. destruct (path_hash_total path t Hp Hl) as [h Eh]. unfold dcache_lookup. eapply wp_known; [reflexivity|].
  destruct (dc_inited s) eqn:Ei; cbn [negb]; [|by apply wp_ret]. specialize (Hok Ei). pose proof Hok as (Hc & He). eapply wp_known; [reflexivity|].
  set (s1 := mk_dcache _ _ _ _ _ _ _). assert (dcache_wf s1) as Hok1 by (split; [by destruct Hc; split|done]). eapply wp_known; [unfold lift; by rewrite Eh|].
  destruct (find_entry_spec s1 path t h (proj1 Hok1) Hp Ht) as (p & E & Hin & _). eapply wp_known; [exact E|].
  destruct (Z.eqb_spec p 0) as [->|Hne]; [eapply wp_known; [reflexivity|]; apply wp_ret; intros _; split; [by destruct Hc; split|done]|].
  destruct (dw_found _ (proj1 Hok1) h p (Hin Hne)) as [Hpl (d & Hd & _)]. eapply wp_known; [reflexivity|]. eapply wp_known; [unfold load_dentry; cbn [dc_dentries]; by rewrite Hd|].
  eapply wp_known; [reflexivity|]. eapply wp_known; [reflexivity|]. apply wp_ret. intros _. exact (touch_wf s1 p d _ _ _ inc_hits Hok1 Hpl Hd).
Qed.

Lemma evict_one_spec s : dcache_wf s → 0 < dc_entries s →
  wp evict_one s (λ _ s', dcache_wf s' ∧ dc_entries s' = dc_entries s - 1 ∧ dc_capacity s' = dc_capacity s ∧ dc_inited s' = dc_inited s).
Proof.
  intros Hok Hpos. pose proof Hok as (Hc & He & Hle & Hcap). unfold evict_one. eapply wp_known; [reflexivity|]. destruct (last (dc_lru s)) as [p|] eqn:El.
  2:{ apply last_None in El. rewrite El in He. by rewrite He in Hpos. }
  assert (p ∈ dc_lru s) as Hpl by (apply last_Some in El as [l ->]; set_solver). destruct (dw_live _ Hc p Hpl) as (d & t & Hd & _). destruct (index_remove_spec s p d Hc Hpl Hd) as (ht & Er & Hdr).
  eapply wp_known; [reflexivity|]. eapply wp_known; [unfold load_dentry; cbn [dc_dentries]; by rewrite Hd|]. eapply wp_known; [exact Er|].
  eapply wp_known; [unfold dentry_free; erewrite bind_run; [|unfold load_dentry; cbn [dc_dentries]; by rewrite Hd]; reflexivity|].
  eapply wp_known; [reflexivity|]. eapply wp_known; [reflexivity|]. unfold wp, on_stats. split; [exact (dropped_wf s p _ inc_evictions Hok Hpl Hdr)|]. cbn. rewrite u32_small by lia. done.
Qed.

Lemma evict_step_spec s : dcache_wf s →
  wp (evict_step tt) s (λ r s', dcache_wf s' ∧ dc_inited s' = dc_inited s ∧ match r with inl _ => 0 < dc_entries s ∧ dc_entries s' = dc_entries s - 1 | inr _ => dc_entries s' < dc_capacity s' end).
Proof.
  intros Hok. pose proof Hok as (_ & _ & _ & Hcap). unfold evict_step. do 2 (eapply wp_known; [reflexivity|]). destruct (Z.leb_spec (dc_capacity s) (dc_entries s)); [|by apply wp_ret].
  eapply wp_step; [apply evict_one_spec; [done|lia]|]. intros [] s' (Hw & He & Hc & Hi). apply wp_ret. split_and!; try done. lia.
Qed.

(** The loop makes room for an entry. *)
Lemma evict_spec n s : dcache_wf s → dc_entries s ≤ Z.of_nat n →
  wp (while (S n) evict_step tt) s (λ _ s', dcache_wf s' ∧ dc_entries s' < dc_capacity s' ∧ dc_inited s' = dc_inited s).
Proof.
  revert s. induction n as [|n IH]; intros s Hok Hn; (eapply wp_step; [by apply evict_step_spec|]); intros [[]|[]] s' (Hw & Hi & Hr).
  - lia.
  - by apply wp_ret.
  - destruct Hr as [Hpos Hr]. eapply wp_mono; [apply IH; [done|lia]|]. intros _ s'' (Hw'' & Hlt & Hi''). split_and!; try done. by rewrite Hi''.
  - by apply wp_ret.
Qed.

(** A new entry of the list and the table. *)
Lemma insert_wf s ht bs p d t f :
  dcache_wf s → dc_entries s < dc_capacity s → p ∉ dom (dc_dentries s) → p ≠ 0 → cstr (de_path d) t → Forall is_u8 t → ht_wf ht bs → ht_map ht = <[de_hash d := p]> (ht_map (dc_index s)) →
  dcache_wf (mk_dcache ht (p :: dc_lru s) (<[p := d]> (dc_dentries s)) (dc_capacity s) (u32 (dc_entries s + 1)) (f (dc_stats s)) (dc_inited s)).
Proof.
  intros ([Hb Hf Hn H0 Hl] & He & Hle & Hcap) Hlt Hp Hnz Hd Ht Hw Em. apply not_elem_of_dom in Hp.
  assert (∀ q, q ∈ dc_lru s → q ≠ p) as Hne by (intros q Hq ->; destruct (Hl p Hq) as (e & _ & He' & _); congruence). pose proof (zlen_nonneg (dc_lru s)).
  split; [|split_and!; cbn; rewrite ?zlen_cons; try lia; rewrite u32_small by lia; lia]. split; cbn.
  - by exists bs.
  - intros h q Hh. rewrite Em in Hh. apply lookup_insert_Some in Hh as [[<- <-]|[_ Hh]]; [split; [apply list_elem_of_here|exists d; by rewrite lookup_insert_eq]|].
    destruct (Hf h q Hh) as [Hin (e & He' & Hhe)]. split; [by apply list_elem_of_further|]. exists e. rewrite lookup_insert_ne; [done|]. apply not_eq_sym. auto.
  - apply NoDup_cons. split; [|done]. intros Hin. by apply (Hne p).
  - rewrite elem_of_cons. intros [<-|?]; done.
  - intros q [->|Hin]%elem_of_cons; [exists d, t; by rewrite lookup_insert_eq|]. rewrite lookup_insert_ne by (apply not_eq_sym; auto). by apply Hl.
Qed.

(** The block that [kmem_cache_alloc] returns is none of those in use. *)
Definition fresh_ok (fresh : gset Z → option Z) : Prop := ∀ used p, fresh used = Some p → p ∉ used ∧ p ≠ 0.

(** The entry that is put into the cache after there is room. *)
Lemma put_entry_spec s fresh junk alloc path t h vnode negative :
  dcache_wf s → dc_entries s < dc_capacity s → fresh_ok fresh → zlen junk = DENTRY_PATH → cstr path t → Forall is_u8 t → zlen t < 2 ^ 64 →
  wp (used ← gets dc_dentries;
      match fresh (dom used) with
      | None => mret tt
      | Some p =>
          '(dp, _) ← lift (strlcpy junk path DENTRY_PATH);
          store_dentry p (mk_dentry dp vnode negative h 0);;
          ht ← gets dc_index;
          '(ht, r) ← lift (hashtable_put alloc ht h p);
          put_index ht;;
          if negb (r =? 0) then dentry_free p
          else lru_add p;; n ← gets dc_entries; put_entries (u32 (n + 1));; on_stats (inc_inserts (u32 (n + 1)))
      end) s (λ _ s', dcache_wf s').
Proof.
  intros Hok Hlt Hfr Hj Hp Ht Hl. pose proof Hok as (Hc & He). destruct (dw_index _ Hc) as [bs Hb]. eapply wp_known; [reflexivity|]. destruct (fresh (dom (dc_dentries s))) as [p|] eqn:Ef; [|by apply wp_ret].
  destruct (Hfr _ _ Ef) as [Hdom Hnz]. eapply wp_lift_bind; [apply (strlcpy_spec junk path t); [done|done|rewrite Hj; unfold DENTRY_PATH; lia]|]. change (DENTRY_PATH =? 0) with false. cbv iota beta.
  set (t' := take (Z.to_nat (DENTRY_PATH - 1)) t). set (dp := t' ++ _).
  assert (cstr dp t' ∧ Forall is_u8 t') as [Hcs Hu] by (split; [split; [|by eexists]|by apply Forall_take]; destruct Hp as [H0 _]; intros Hin; apply H0; by eapply subseteq_take).
  eapply wp_known; [reflexivity|]. eapply wp_known; [reflexivity|]. cbn [dc_index]. pose proof (hashtable_put_spec (dc_index s) bs alloc h p Hb) as Hput.
  destruct (alloc || _).
  - destruct Hput as (ht & bs' & E & Hb' & Em). eapply wp_lift_bind; [exact E|]. cbv beta iota. eapply wp_known; [reflexivity|]. change (negb (0 =? 0)) with false. cbv iota.
    do 3 (eapply wp_known; [reflexivity|]). exact (insert_wf s ht bs' p (mk_dentry dp vnode negative h 0) t' (inc_inserts (u32 (dc_entries s + 1))) Hok Hlt Hdom Hnz Hcs Hu Hb' Em).
  - eapply wp_lift_bind; [exact Hput|]. cbv beta iota. eapply wp_known; [reflexivity|]. change (negb (-1 =? 0)) with true. cbv iota.
    eapply wp_known; [unfold load_dentry; cbn [dc_dentries]; by rewrite lookup_insert_eq|]. eapply wp_known; [reflexivity|]. unfold wp, put_dentries. cbn [dc_dentries].
    rewrite delete_insert_id by (by apply not_elem_of_dom). split; [by destruct Hc; split|exact He].
Qed.

Lemma insert_common_spec s fresh junk alloc path t vnode negative :
  dcache_ok s → fresh_ok fresh → zlen junk = DENTRY_PATH → cstr path t → Forall is_u8 t → zlen t < 2 ^ 64 →
  wp (insert_common fresh junk alloc path vnode negative) s (λ _ s', dcache_ok s').
Proof.
  intros Hok Hfr Hj Hp Ht Hl. destruct (path_hash_total path t Hp Hl) as [h Eh]. unfold insert_common. eapply wp_known; [reflexivity|]. destruct (dc_inited s) eqn:Ei; cbn [negb]; [|by apply wp_ret].
  specialize (Hok Ei). pose proof Hok as (Hc & He & _). eapply wp_known; [unfold lift; by rewrite Eh|]. destruct (find_entry_spec s path t h Hc Hp Ht) as (p & E & Hin & _). eapply wp_known; [exact E|].
  destruct (Z.eqb_spec p 0) as [->|Hne]; cbn [negb].
  - eapply wp_known; [reflexivity|]. eapply wp_step; [apply evict_spec; [done|pose proof (zlen_nonneg (dc_lru s)); lia]|]. intros _ s1 (Hw1 & Hlt & _).
    eapply wp_mono; [by eapply put_entry_spec|]. intros u s' Hw _. exact Hw.
  - destruct (dw_found _ Hc h p (Hin Hne)) as [Hpl (d & Hd & _)]. eapply wp_known; [unfold load_dentry; by rewrite Hd|]. eapply wp_known; [reflexivity|]. intros _. exact (touch_wf s p d _ _ _ id Hok Hpl Hd).
Qed.

Lemma flush_loop_spec l s : dcache_core s → dc_lru s = l →
  wp (flush_loop l) s (λ _ s', dcache_core s' ∧ dc_lru s' = [] ∧ dc_capacity s' = dc_capacity s).
Proof.
  revert s. induction l as [|p l IH]; intros s Hc El; [by apply wp_ret|]. assert (p ∈ dc_lru s) as Hpl by (rewrite El; apply list_elem_of_here).
  destruct (dw_live _ Hc p Hpl) as (d & t & Hd & _). destruct (index_remove_spec s p d Hc Hpl Hd) as (ht & Er & Hdr). cbn [flush_loop].
  eapply wp_known; [reflexivity|]. eapply wp_known; [unfold load_dentry; cbn [dc_dentries]; by rewrite Hd|]. eapply wp_known; [exact Er|].
  eapply wp_known; [unfold dentry_free; erewrite bind_run; [|unfold load_dentry; cbn [dc_dentries]; by rewrite Hd]; reflexivity|].
  destruct Hdr as (Hc' & _). eapply wp_mono; [apply IH; [exact Hc'|]|by intros u s']. cbn [dc_lru]. pose proof (dw_lru _ Hc) as Hn. rewrite El in *. apply NoDup_cons in Hn as [Hp _].
  rewrite filter_cons_False by tauto. by apply filter_others.
Qed.

Lemma dcache_flush_spec s : dcache_ok s → wp dcache_flush s (λ _ s', dcache_ok s' ∧ (dc_inited s = true → dc_lru s' = [])).
Proof.
  intros Hok. unfold dcache_flush. eapply wp_known; [reflexivity|]. destruct (dc_inited s) eqn:Ei; cbn [negb]; [|by apply wp_ret]. destruct (Hok Ei) as (Hc & _ & _ & Hcap). eapply wp_known; [reflexivity|].
  eapply wp_step; [by apply flush_loop_spec|]. intros u s' (Hc' & El & Ec). eapply wp_known; [reflexivity|]. unfold wp, on_stats. split; [intros _|done].
  split; [by destruct Hc'; split|]. cbn. rewrite El. change (zlen []) with 0. lia.
Qed.

(** [dcache_init] makes an empty cache when it gets memory for the table. *)
Lemma dcache_init_spec fuel alloc capacity s : 60 ≤ Z.of_nat fuel → (∀ n, alloc n = true) → 0 ≤ capacity < 2 ^ 32 → wp (dcache_init fuel alloc capacity) s (λ _ s', dcache_wf s').
Proof.
  intros Hf Ha Hcap. destruct (hashtable_init_spec fuel alloc (dc_index s) (u32 (capacity * 2)) Hf) as (k & _ & _ & _ & Hi); [pose proof (u32_range (capacity * 2)) as Hr; unfold is_u32 in Hr; lia|]. rewrite Ha in Hi. destruct Hi as (ht & bs & E & Hb & _ & Em).
  unfold wp, dcache_init. rewrite E. cbn [mbind outcome_bind]. split; [split; cbn|cbn; change (zlen []) with 0; destruct (Z.eqb_spec capacity 0); lia].
  - by exists bs.
  - intros h p. by rewrite Em.
  - apply NoDup_nil_2.
  - apply not_elem_of_nil.
  - by intros p ?%not_elem_of_nil.
Qed.

End Dcache.
