(* ===== verification/Vnode.v ===== *)
(** Vnodes ([kernel/fs/inode.h], [kernel/fs/inode.c], [struct filesystem] of [kernel/fs/vfs.h]): what the virtual file system
    knows of a file system. A file system is an instance of [Filesystems]: [W] is its state, [F] are pointers to
    [struct filesystem] and [V] pointers to [struct vnode]. *)

From S2P Require Import Prelude StateM.

(** ** Definitions *)

Inductive vnode_type := VNODE_FILE | VNODE_DIR | VNODE_CHARDEV.
#[export] Instance vnode_type_eq_dec : EqDecision vnode_type.
Proof. solve_decision. Defined.

Record dirent := mk_vdirent { d_name : list Z; d_size : Z; d_type : vnode_type }.
Record stat := mk_stat { st_size : Z; st_type : vnode_type; st_mode : Z }.

(** The fields of a vnode that the virtual file system reads, and which operations are not NULL. *)
Record vnode := mk_vnode {
  vn_type : vnode_type;
  vn_size : Z;
  vn_has_read : bool;
  vn_has_write : bool;
  vn_has_readdir : bool;
  vn_has_create : bool;
  vn_has_unlink : bool
}.

(** The fields [name] and [lookup] of a [struct filesystem] are constants, [fs_has_lookup] says that [lookup] is not NULL, and
    [fs_set_data] stores to [data]. An operation that takes a buffer returns what the buffer holds afterwards. *)
Class Filesystems (W F V : Type) := {
  fs_name : F → option (list Z);
  fs_has_lookup : F → bool;
  fs_lookup : F → list Z → stM W (option V);
  fs_set_data : F → Z → stM W unit;
  vn_load : V → W → outcome vnode;
  op_read : V → list Z → Z → Z → stM W (Z * list Z);
  op_write : V → list Z → Z → Z → stM W Z;
  op_readdir : V → Z → dirent → stM W (Z * dirent);
  op_create : V → list Z → vnode_type → stM W Z;
  op_unlink : V → list Z → stM W Z
}.

Section Dispatch.
Context {W F V : Type} {FS : Filesystems W F V}.

Definition load_vnode (vn : V) : stM W vnode := λ w, v ← vn_load vn w; Ret (w, v).

Definition vnode_read (vn : option V) (buf : list Z) (size offset : Z) : stM W (Z * list Z) :=
  match vn with
  | None => mret (- SYS_EINVAL, buf)
  | Some p =>
      v ← load_vnode p;
      if negb (vn_has_read v) then mret (- SYS_EINVAL, buf)
      else if decide (vn_type v = VNODE_DIR) then mret (- SYS_EISDIR, buf)
      else op_read p buf size offset
  end.

Definition vnode_write (vn : option V) (buf : list Z) (size offset : Z) : stM W Z :=
  match vn with
  | None => mret (- SYS_EINVAL)
  | Some p =>
      v ← load_vnode p;
      if negb (vn_has_write v) then mret (- SYS_EINVAL)
      else if decide (vn_type v = VNODE_DIR) then mret (- SYS_EISDIR)
      else op_write p buf size offset
  end.

Definition vnode_readdir (vn : option V) (index : Z) (out : dirent) : stM W (Z * dirent) :=
  match vn with
  | None => mret (- SYS_ENOTDIR, out)
  | Some p =>
      v ← load_vnode p;
      if negb (bool_decide (vn_type v = VNODE_DIR)) || negb (vn_has_readdir v) then mret (- SYS_ENOTDIR, out)
      else op_readdir p index out
  end.

End Dispatch.

(** Two file systems side by side. *)
Definition on_left {W1 W2 A} (m : stM W1 A) : stM (W1 * W2) A := λ w, '(w1, a) ← m w.1; Ret ((w1, w.2), a).
Definition on_right {W1 W2 A} (m : stM W2 A) : stM (W1 * W2) A := λ w, '(w2, a) ← m w.2; Ret ((w.1, w2), a).

#[export] Instance fs_sum {W1 F1 V1 W2 F2 V2} (FS1 : Filesystems W1 F1 V1) (FS2 : Filesystems W2 F2 V2) :
  Filesystems (W1 * W2) (F1 + F2) (V1 + V2) := {|
  fs_name f := match f with inl f => fs_name f | inr f => fs_name f end;
  fs_has_lookup f := match f with inl f => fs_has_lookup f | inr f => fs_has_lookup f end;
  fs_lookup f rel := match f with
                     | inl f => v ← on_left (fs_lookup f rel); mret (inl <$> v)
                     | inr f => v ← on_right (fs_lookup f rel); mret (inr <$> v)
                     end;
  fs_set_data f data := match f with inl f => on_left (fs_set_data f data) | inr f => on_right (fs_set_data f data) end;
  vn_load v w := match v with inl v => vn_load v w.1 | inr v => vn_load v w.2 end;
  op_read v buf size offset := match v with inl v => on_left (op_read v buf size offset) | inr v => on_right (op_read v buf size offset) end;
  op_write v buf size offset := match v with inl v => on_left (op_write v buf size offset) | inr v => on_right (op_write v buf size offset) end;
  op_readdir v index out := match v with inl v => on_left (op_readdir v index out) | inr v => on_right (op_readdir v index out) end;
  op_create v name type := match v with inl v => on_left (op_create v name type) | inr v => on_right (op_create v name type) end;
  op_unlink v name := match v with inl v => on_left (op_unlink v name) | inr v => on_right (op_unlink v name) end
|}.

(** ** Lemmas *)

Section Lemmas.
Context {W F V : Type} {FS : Filesystems W F V}.

Lemma vnode_read_spec p v buf size offset w (Q : Z * list Z → W → Prop) :
  vn_load p w = Ret v → vn_has_read v = true → vn_type v ≠ VNODE_DIR → wp (op_read p buf size offset) w Q → wp (vnode_read (Some p) buf size offset) w Q.
Proof.
  intros Hv Hr Ht Hq. unfold vnode_read. eapply wp_known; [unfold load_vnode; by rewrite Hv|]. rewrite Hr. cbn [negb]. by rewrite decide_False.
Qed.

Lemma vnode_write_spec p v buf size offset w (Q : Z → W → Prop) :
  vn_load p w = Ret v → vn_has_write v = true → vn_type v ≠ VNODE_DIR → wp (op_write p buf size offset) w Q → wp (vnode_write (Some p) buf size offset) w Q.
Proof.
  intros Hv Hr Ht Hq. unfold vnode_write. eapply wp_known; [unfold load_vnode; by rewrite Hv|]. rewrite Hr. cbn [negb]. by rewrite decide_False.
Qed.

Lemma on_right_spec {W1 A} (m : stM W A) (w : W1 * W) (Q : A → W → Prop) : wp m w.2 Q → wp (on_right m) w (λ a w', ∃ w2, w' = (w.1, w2) ∧ Q a w2).
Proof. unfold wp, on_right. destruct (m w.2) as [[w2 a]| | |]; try done. cbn. eauto. Qed.

End Lemmas.
