(* ===== verification/Vfs.v ===== *)
(** The virtual file system ([kernel/fs/vfs.c]): the mount table, and the operations on paths and descriptors of the current
    process. File systems are an instance of [Filesystems]; open files are those of [Files]. [vfs_init] and [vfs_mount]
    are the state's constructors; log messages are left out. *)

From stdpp Require Import gmap.
From S2P Require Import Prelude CString StateM Kalloc Files Path Vnode.

(** ** Definitions *)

Definition VFS_MAX_MOUNTS : Z := 8.
Definition O_DIRECTORY : Z := 0x10.
Definition O_CREAT : Z := 0x40.
Definition SEEK_SET : Z := 0.
Definition SEEK_CUR : Z := 1.
Definition SEEK_END : Z := 2.

Record mount (F : Type) := mk_mount { m_path : list Z; m_fs : option F; m_used : bool }.
Arguments mk_mount {F} _ _ _.
Arguments m_path {F} _.
Arguments m_fs {F} _.
Arguments m_used {F} _.

(** The current process: its descriptor table and working directory. *)
Record proc := mk_proc { p_fds : Z; p_cwd : list Z }.

Record vfs (H W F V : Type) := mk_vfs { v_mounts : list (mount F); v_files : files H V; v_world : W; v_proc : option proc }.
Arguments mk_vfs {H W F V} _ _ _ _.
Arguments v_mounts {H W F V} _.
Arguments v_files {H W F V} _.
Arguments v_world {H W F V} _.
Arguments v_proc {H W F V} _.

Section Vfs.
Context {H W F V : Type} {KA : Kalloc H} {FS : Filesystems W F V}.
Notation St := (vfs H W F V).
Implicit Types s : St.

Definition on_files {A} (m : stM (files H V) A) : stM St A := λ s,
  '(f, a) ← m (v_files s); Ret (mk_vfs (v_mounts s) f (v_world s) (v_proc s), a).
Definition on_world {A} (m : stM W A) : stM St A := λ s,
  '(w, a) ← m (v_world s); Ret (mk_vfs (v_mounts s) (v_files s) w (v_proc s), a).
Definition get_proc : stM St (option proc) := λ s, Ret (s, v_proc s).

(** *** Mounts *)

Definition vfs_init (mounts : list (mount F)) : list (mount F) := (λ m, mk_mount (m_path m) (m_fs m) false) <$> mounts.

Definition mount_slot (mounts : list (mount F)) (i : Z) (_ : unit) : outcome (unit + Z) :=
  m ← aget mounts i; Ret (if negb (m_used m) then inr i else inl tt).

(** [path] and [fs] are [None], and [data] is 0, for NULL. *)
Definition vfs_mount (path : option (list Z)) (fs : option F) (data : Z) : stM St Z := λ s,
  match path, fs with
  | Some path, Some fs =>
      c ← aget path 0;
      if negb (c =? SLASH) then Ret (s, - SYS_EINVAL)
      else
        '(s, _) ← (if negb (data =? 0) then on_world (fs_set_data fs data) s else Ret (s, tt));
        r ← find_range 0 VFS_MAX_MOUNTS (mount_slot (v_mounts s)) tt;
        match r with
        | inl _ => Ret (s, - SYS_ENOMEM)
        | inr i =>
            m ← aget (v_mounts s) i;
            '(p, _) ← strlcpy (m_path m) path VFS_PATH_MAX;
            l ← aset (v_mounts s) i (mk_mount p (Some fs) true);
            Ret (mk_vfs l (v_files s) (v_world s) (v_proc s), 0)
        end
  | _, _ => Ret (s, - SYS_EINVAL)
  end.

Definition mount_match (abspath mp : list Z) (ml : Z) : outcome bool :=
  root ← (if ml =? 1 then c ← aget mp 0; Ret (c =? SLASH) else Ret false);
  if root : bool then Ret true
  else
    d ← strncmp abspath mp (Z.to_nat ml);
    if d =? 0 then c ← aget abspath ml; Ret ((c =? SLASH) || (c =? 0)) else Ret false.

(** The best mount so far, and the length of its path. *)
Definition mount_step (mounts : list (mount F)) (abspath : list Z) (i : Z) (b : option Z * Z) : outcome (option Z * Z) :=
  let '(best, best_len) := b in
  m ← aget mounts i;
  if negb (m_used m) then Ret b
  else
    ml ← strlen (m_path m);
    mt ← mount_match abspath (m_path m) ml;
    Ret (if mt && (best_len <=? ml) then (Some i, ml) else b).

(** [while ( *rel == '/') rel++]. *)
Fixpoint rel_skip (rel : list Z) : outcome (list Z) :=
  match rel with [] => Fault | c :: l => if c =? SLASH then rel_skip l else Ret rel end.

(** The mount and the path inside it. *)
Definition find_mount (mounts : list (mount F)) (abspath : list Z) : outcome (option (Z * list Z)) :=
  '(best, best_len) ← for_range 0 VFS_MAX_MOUNTS (mount_step mounts abspath) (None, 0);
  match best with
  | None => Ret None
  | Some i => rel ← rel_skip (drop (Z.to_nat best_len) abspath); Ret (Some (i, rel))
  end.

Definition vfs_resolve (abspath : list Z) : stM St (option V) := λ s,
  r ← find_mount (v_mounts s) abspath;
  match r with
  | None => Ret (s, None)
  | Some (i, rel) =>
      m ← aget (v_mounts s) i;
      match m_fs m with
      | None => Fault
      | Some fs => if negb (fs_has_lookup fs) then Ret (s, None) else on_world (fs_lookup fs rel) s
      end
  end.

(** *** Names *)

Definition path_buf : list Z := replicate (Z.to_nat VFS_PATH_MAX) 0.
Definition name_buf : list Z := replicate (Z.to_nat VFS_NAME_MAX) 0.

(** [p ? process_cwd(p) : "/"]. *)
Definition cwd_or_root (p : option proc) : list Z := match p with Some p => p_cwd p | None => [SLASH; 0] end.

(** The directory and the name, or the error. *)
Definition resolve_parent (path : option (list Z)) : stM St (Z + V * list Z) :=
  p ← get_proc;
  '(abs, r) ← lift (path_resolve (Some (cwd_or_root p)) path path_buf VFS_PATH_MAX);
  if r <? 0 then mret (inl r)
  else
    '(parent, r) ← lift (path_parent abs path_buf VFS_PATH_MAX);
    if r <? 0 then mret (inl (- SYS_EINVAL))
    else
      base ← lift (path_basename abs);
      c ← lift (aget base 0);
      if c =? 0 then mret (inl (- SYS_EINVAL))
      else
        '(name, _) ← lift (strlcpy name_buf base VFS_NAME_MAX);
        dir ← vfs_resolve parent;
        match dir with
        | None => mret (inl (- SYS_ENOENT))
        | Some dir =>
            v ← on_world (load_vnode dir);
            if negb (bool_decide (vn_type v = VNODE_DIR)) then mret (inl (- SYS_ENOTDIR)) else mret (inr (dir, name))
        end.

Definition vfs_make (path : option (list Z)) (type : vnode_type) : stM St Z :=
  r ← resolve_parent path;
  match r with
  | inl r => mret r
  | inr (dir, name) =>
      v ← on_world (load_vnode dir);
      if negb (vn_has_create v) then mret (- SYS_EPERM) else on_world (op_create dir name type)
  end.

Definition vfs_mkdir (path : option (list Z)) : stM St Z := vfs_make path VNODE_DIR.
Definition vfs_create (path : option (list Z)) : stM St Z := vfs_make path VNODE_FILE.

Definition vfs_unlink (path : option (list Z)) : stM St Z :=
  r ← resolve_parent path;
  match r with
  | inl r => mret r
  | inr (dir, name) =>
      v ← on_world (load_vnode dir);
      if negb (vn_has_unlink v) then mret (- SYS_EPERM) else on_world (op_unlink dir name)
  end.

Definition vfs_stat (path : option (list Z)) (out : stat) : stM St (Z * stat) :=
  p ← get_proc;
  '(abs, r) ← lift (path_resolve (Some (cwd_or_root p)) path path_buf VFS_PATH_MAX);
  if r <? 0 then mret (r, out)
  else
    vn ← vfs_resolve abs;
    match vn with
    | None => mret (- SYS_ENOENT, out)
    | Some vn => v ← on_world (load_vnode vn); mret (0, mk_stat (vn_size v) (vn_type v) 0)
    end.

(** *** Descriptors *)

(** [O_TRUNC] has no effect in the source. *)
Definition vfs_open (path : option (list Z)) (flags : Z) : stM St Z :=
  p ← get_proc;
  match p with
  | None => mret (- SYS_EFAULT)
  | Some p =>
      '(abs, r) ← lift (path_resolve (Some (p_cwd p)) path path_buf VFS_PATH_MAX);
      if r <? 0 then mret r
      else
        vn ← vfs_resolve abs;
        vn ← match vn with
             | Some vn => mret (Some vn)
             | None =>
                 if negb (Z.land flags O_CREAT =? 0) then
                   r ← vfs_create (Some abs);
                   if r =? 0 then vfs_resolve abs else mret None
                 else mret None
             end;
        match vn with
        | None => mret (- SYS_ENOENT)
        | Some vn =>
            v ← on_world (load_vnode vn);
            if negb (Z.land flags O_DIRECTORY =? 0) && negb (bool_decide (vn_type v = VNODE_DIR)) then mret (- SYS_ENOTDIR)
            else on_files (open_file (p_fds p) vn flags abs)
        end
  end.

(** [current_fds], 0 for NULL. *)
Definition current_fds : stM St Z := p ← get_proc; mret (match p with Some p => p_fds p | None => 0 end).

Definition vfs_close (fd : Z) : stM St Z :=
  t ← current_fds;
  if t =? 0 then mret (- SYS_EBADF) else on_files (fd_close t fd).

(** [if (n > 0) f->offset += n]. *)
Definition advance (p n : Z) : stM St unit :=
  if 0 <? n then on_files (f ← load_file p; store_file p (set_offset f (i64 (f_offset f + n)))) else mret tt.

Definition vfs_read (fd : Z) (buffer : list Z) (size : Z) : stM St (Z * list Z) :=
  t ← current_fds;
  p ← on_files (fd_get t fd);
  if p =? 0 then mret (- SYS_EBADF, buffer)
  else
    f ← on_files (load_file p);
    '(n, buffer) ← on_world (vnode_read (Some (f_vnode f)) buffer size (u64 (f_offset f)));
    advance p n;;
    mret (n, buffer).

Definition vfs_write (fd : Z) (buffer : list Z) (size : Z) : stM St Z :=
  t ← current_fds;
  p ← on_files (fd_get t fd);
  if p =? 0 then mret (- SYS_EBADF)
  else
    f ← on_files (load_file p);
    n ← on_world (vnode_write (Some (f_vnode f)) buffer size (u64 (f_offset f)));
    advance p n;;
    mret n.

Definition vfs_lseek (fd offset whence : Z) : stM St Z :=
  t ← current_fds;
  p ← on_files (fd_get t fd);
  if p =? 0 then mret (- SYS_EBADF)
  else
    f ← on_files (load_file p);
    base ← (if whence =? SEEK_SET then mret (Some 0)
            else if whence =? SEEK_CUR then mret (Some (f_offset f))
            else if whence =? SEEK_END then v ← on_world (load_vnode (f_vnode f)); mret (Some (i64 (vn_size v)))
            else mret None);
    match base with
    | None => mret (- SYS_EINVAL)
    | Some base =>
        let no := i64 (base + offset) in
        if no <? 0 then mret (- SYS_EINVAL)
        else on_files (store_file p (set_offset f no));; mret no
    end.

Definition vfs_readdir (fd : Z) (out : dirent) : stM St (Z * dirent) :=
  t ← current_fds;
  p ← on_files (fd_get t fd);
  if p =? 0 then mret (- SYS_EBADF, out)
  else
    f ← on_files (load_file p);
    v ← on_world (load_vnode (f_vnode f));
    if negb (bool_decide (vn_type v = VNODE_DIR)) then mret (- SYS_ENOTDIR, out)
    else
      '(r, out) ← on_world (vnode_readdir (Some (f_vnode f)) (u64 (f_offset f)) out);
      if r =? 0 then on_files (store_file p (set_offset f (i64 (f_offset f + 1))));; mret (1, out) else mret (0, out).

(** *** Introspection *)

Definition mount_count_step (mounts : list (mount F)) (i n : Z) : outcome Z := m ← aget mounts i; Ret (if m_used m then n + 1 else n).
Definition vfs_mount_count (mounts : list (mount F)) : outcome Z := for_range 0 VFS_MAX_MOUNTS (mount_count_step mounts) 0.

Definition mount_info_step (mounts : list (mount F)) (index i n : Z) : outcome (Z + Z) :=
  m ← aget mounts i; Ret (if negb (m_used m) then inl n else if n =? index then inr i else inl (n + 1)).

Definition vfs_mount_info (mounts : list (mount F)) (index : Z) (path_out : list Z) (path_size : Z) (fs_out : list Z) (fs_size : Z) : outcome (list Z * list Z * Z) :=
  r ← find_range 0 VFS_MAX_MOUNTS (mount_info_step mounts index) 0;
  match r with
  | inl _ => Ret (path_out, fs_out, -1)
  | inr i =>
      m ← aget mounts i;
      '(path_out, _) ← strlcpy path_out (m_path m) path_size;
      fs ← match m_fs m with Some fs => Ret fs | None => Fault end;
      '(fs_out, _) ← strlcpy fs_out (default [63; 0] (fs_name fs)) fs_size;
      Ret (path_out, fs_out, 0)
  end.

End Vfs.

(** ** Mounts *)

(** A mount at the path with the components [ms]. *)
Definition mounted_at {F} (m : mount F) (ms : list (list Z)) : Prop := cstr (m_path m) (join ms) ∧ Forall plain ms ∧ bytes (join ms) ∧ zlen (join ms) < 2 ^ 64.

Definition mounts_ok {F} (mounts : list (mount F)) : Prop :=
  zlen mounts = VFS_MAX_MOUNTS ∧ ∀ i m, mounts !! i = Some m → m_used m = true → is_Some (m_fs m) ∧ ∃ ms, mounted_at m ms.

Lemma slashed_app cs ds : slashed (cs ++ ds) = slashed cs ++ slashed ds.
Proof. unfold slashed. by rewrite fmap_app, concat_app. Qed.

Lemma slashed_head cs : cs ≠ [] → ∃ l, slashed cs = SLASH :: l.
Proof. destruct cs as [|c cs]; [done|]. intros _. unfold slashed. cbn. by eexists. Qed.

Lemma comps_join cs : Forall plain cs → comps (join cs) = cs.
Proof. intros Hcs. destruct cs as [|c cs]; [done|]. unfold join. rewrite <-(app_nil_r (slashed _)), comps_slashed by auto. apply app_nil_r. Qed.

(** A path starts with the path of the mount, up to a slash or its end. *)
Lemma join_prefix ms cs rest : Forall plain ms → Forall plain cs → ms ≠ [] → join cs = slashed ms ++ rest → (rest = [] ∨ ∃ r, rest = SLASH :: r) → cs = ms ++ comps rest.
Proof. intros Hms Hcs Hne E Hr. rewrite <-(comps_join cs Hcs), E. by apply comps_slashed. Qed.

Lemma join_longer ms ms' : Forall plain ms → ms `prefix_of` ms' → Forall plain ms' → zlen (join ms') ≤ zlen (join ms) → ms' = ms.
Proof.
  intros Hms [k ->] Hms' Hl. destruct k as [|d k]; [by rewrite app_nil_r|]. exfalso. apply Forall_app in Hms' as [_ Hd]. apply Forall_inv in Hd as (Hd & _).
  assert (join (ms ++ d :: k) = slashed ms ++ slashed (d :: k)) as E by (rewrite <-slashed_app; by destruct ms). rewrite E, zlen_app in Hl.
  assert (2 ≤ zlen (slashed (d :: k))) as H2. { unfold slashed. cbn. destruct d as [|x d]; [done|]. cbn. rewrite !zlen_cons. pose proof (zlen_nonneg (d ++ concat ((λ c, SLASH :: c) <$> k))). lia. }
  destruct ms; [|unfold join in Hl at 1; lia]. change (zlen (join [])) with 1 in Hl. change (zlen (slashed [])) with 0 in Hl. lia.
Qed.

Lemma mount_match_spec abspath cs mp ms :
  cstr abspath (join cs) → Forall plain cs → bytes (join cs) → cstr mp (join ms) → Forall plain ms → bytes (join ms) →
  mount_match abspath mp (zlen (join ms)) = Ret (bool_decide (ms `prefix_of` cs)).
Proof.
  intros Ha Hcs Hb Hm Hms Hmb. unfold mount_match. destruct (decide (ms = [])) as [->|Hne].
  { change (zlen (join []) =? 1) with true. destruct Hm as [_ [r ->]]. cbn. rewrite bool_decide_true; [done|]. apply prefix_nil. }
  assert (join ms = slashed ms) as Ej by (by destruct ms). rewrite Ej in *. destruct (slashed_end ms Hms Hne) as (l & x & El & Hx & Hl0).
  assert (zlen (slashed ms) ≠ 1) as Hl1. { rewrite El, zlen_app. destruct l as [|y l]; [done|]. rewrite zlen_cons. change (zlen [x]) with 1. pose proof (zlen_nonneg l). lia. }
  destruct (Z.eqb_spec (zlen (slashed ms)) 1); [done|]. cbn [mbind outcome_bind]. pose proof (zlen_nonneg (slashed ms)).
  destruct (strncmp_spec abspath mp _ _ (Z.to_nat (zlen (slashed ms))) Ha Hm Hb Hmb) as (d & -> & Hd). cbn [mbind outcome_bind].
  rewrite (take_ge (slashed ms)) in Hd by (unfold zlen; lia). destruct (Z.eqb_spec d 0) as [->|Hd0].
  - symmetry in Hd. apply lexcmp_eq in Hd. set (rest := drop (Z.to_nat (zlen (slashed ms))) (join cs)). assert (join cs = slashed ms ++ rest) as E by (etrans; [symmetry; apply (take_drop (Z.to_nat (zlen (slashed ms))))|]; by rewrite Hd).
    assert (∃ c, abspath !! Z.to_nat (zlen (slashed ms)) = Some c ∧ match rest with [] => c = 0 | y :: _ => c = y end) as (c & Hc & Hcr).
    { destruct Ha as [_ [r ->]]. rewrite E, <-app_assoc, lookup_app_r by (unfold zlen; lia). replace (Z.to_nat (zlen (slashed ms)) - length (slashed ms))%nat with O by (unfold zlen; lia). destruct rest; cbn; eauto. }
    rewrite (aget_Some _ _ c) by done. cbn [mbind outcome_bind]. f_equal. destruct rest as [|y rest'] eqn:Er.
    + subst c. cbn. rewrite bool_decide_true; [done|]. exists []. rewrite (join_prefix ms cs []) by auto. done.
    + subst c. assert (y ≠ 0) as Hy by (intros ->; apply (proj1 Ha); rewrite E; apply elem_of_app; right; by left). destruct (Z.eqb_spec y SLASH) as [->|Hys].
      * cbn. rewrite bool_decide_true; [done|]. eexists. apply (join_prefix ms cs (SLASH :: rest')); eauto.
      * destruct (Z.eqb_spec y 0); [done|]. cbn. rewrite bool_decide_false; [done|]. intros [k ->].
        assert (join (ms ++ k) = slashed ms ++ slashed k) as E2 by (rewrite <-slashed_app; by destruct ms). rewrite E2 in E. apply app_inv_head in E. destruct k as [|d k]; [done|]. by injection E as E _.
  - rewrite bool_decide_false; [done|]. intros [k ->]. assert (join (ms ++ k) = slashed ms ++ slashed k) as E2 by (rewrite <-slashed_app; by destruct ms).
    rewrite E2, take_app_length' in Hd by (unfold zlen; lia). apply Hd0. rewrite (proj2 (lexcmp_eq _ _) eq_refl) in Hd. by apply Z.compare_eq_iff.
Qed.

Lemma rel_skip_spec t rest : 0 ∉ t → ∃ t', rel_skip (t ++ 0 :: rest) = Ret (t' ++ 0 :: rest) ∧ 0 ∉ t' ∧ comps t' = comps t ∧ (∀ x, x ∈ t' → x ∈ t).
Proof.
  induction t as [|c t IH]; intros H0; cbn [app rel_skip]; [by exists []|]. apply not_elem_of_cons in H0 as H0'. destruct H0' as [_ Ht]. destruct (Z.eqb_spec c SLASH) as [->|].
  - destruct (IH Ht) as (t' & -> & H1 & H2 & H3). exists t'. split; [done|]. split; [done|]. split; [|intros x Hx; right; auto]. rewrite H2. symmetry. apply (comps_skip [SLASH]). by constructor.
  - by exists (c :: t).
Qed.

Lemma join_drop ms cs : ms `prefix_of` cs → Forall plain cs → comps (drop (Z.to_nat (zlen (join ms))) (join cs)) = drop (length ms) cs.
Proof.
  intros [k ->] Hp. rewrite drop_app_length. apply Forall_app in Hp as [Hms Hk]. destruct (decide (ms = [])) as [->|Hne].
  - change (Z.to_nat (zlen (join []))) with 1%nat. change ([] ++ k) with k. destruct k as [|d k]; [done|]. unfold join, slashed. cbn [fmap list_fmap concat app]. rewrite skipn_cons, drop_0.
    change (d ++ concat ((λ c, SLASH :: c) <$> k)) with (d ++ slashed k). etrans; [symmetry; apply (comps_skip [SLASH]); by constructor|].
    change ([SLASH] ++ d ++ slashed k) with (join (d :: k)). by apply comps_join.
  - assert (join ms = slashed ms) as -> by (by destruct ms). assert (join (ms ++ k) = slashed ms ++ slashed k) as -> by (rewrite <-slashed_app; by destruct ms).
    unfold zlen. rewrite Nat2Z.id, drop_app_length. destruct k as [|d k]; [done|]. by apply (comps_join (d :: k)).
Qed.

Lemma mounted_inj {F} (m : mount F) ms ms' : mounted_at m ms → mounted_at m ms' → ms = ms'.
Proof.
  intros ([H0 [r E]] & Hp & _) ([H0' [r' E']] & Hp' & _). rewrite <-(comps_join ms Hp), <-(comps_join ms' Hp'). f_equal. rewrite E in E'. clear E Hp Hp'.
  revert H0 H0' E'. generalize (join ms), (join ms'). intros a. induction a as [|x a IH]; intros [|y b] H0 H0' E'; cbn in E'; injection E' as ?.
  - done.
  - subst. exfalso. apply H0'. by left.
  - subst. exfalso. apply H0. by left.
  - subst. f_equal. apply IH; [set_solver|set_solver|done].
Qed.

(** The used mounts below [k] whose path is a prefix. *)
Definition candidate {F} (mounts : list (mount F)) (cs : list (list Z)) (j : Z) (ms : list (list Z)) : Prop :=
  0 ≤ j ∧ ∃ m, mounts !! Z.to_nat j = Some m ∧ m_used m = true ∧ mounted_at m ms ∧ ms `prefix_of` cs.

Lemma mount_loop_spec {F} (mounts : list (mount F)) abspath cs :
  mounts_ok mounts → cstr abspath (join cs) → Forall plain cs → bytes (join cs) →
  ∃ best len, for_range 0 VFS_MAX_MOUNTS (mount_step mounts abspath) (None, 0) = Ret (best, len) ∧
    match best with
    | None => ∀ j ms, ¬ candidate mounts cs j ms
    | Some i => ∃ ms, candidate mounts cs i ms ∧ len = zlen (join ms) ∧ ∀ j ms', candidate mounts cs j ms' → zlen (join ms') ≤ len ∧ (zlen (join ms') = len → j ≤ i)
    end.
Proof.
  intros [Hl Hm] Ha Hcs Hb.
  destruct (for_range_inv (λ k b, match b.1 with
    | None => b.2 = 0 ∧ ∀ j ms, j < k → ¬ candidate mounts cs j ms
    | Some i => i < k ∧ ∃ ms, candidate mounts cs i ms ∧ b.2 = zlen (join ms) ∧ ∀ j ms', j < k → candidate mounts cs j ms' → zlen (join ms') ≤ b.2 ∧ (zlen (join ms') = b.2 → j ≤ i)
    end) (mount_step mounts abspath) 0 VFS_MAX_MOUNTS (None, 0)) as ([best len] & -> & Hi).
  - by vm_compute.
  - intros k [best len] Hk Hi. cbn [fst snd] in Hi. unfold mount_step. destruct (aget_in mounts k) as (m & Hmk & ->); [lia|]. cbn [mbind outcome_bind]. destruct (m_used m) eqn:Hu; cbn [negb].
    2:{ exists (best, len). split; [done|]. cbn [fst snd]. assert (∀ ms, ¬ candidate mounts cs k ms) as Hno by (intros ms (_ & m' & Hm' & Hu' & _); congruence).
        destruct best as [i|].
        - destruct Hi as (Hik & ms & Hc & -> & Hmax). split; [lia|]. exists ms. split_and!; try done. intros j ms' Hj Hc'. destruct (decide (j = k)) as [->|]; [by apply Hno in Hc'|]. apply Hmax; [lia|done].
        - destruct Hi as [-> Hn]. split; [done|]. intros j ms Hj Hc. destruct (decide (j = k)) as [->|]; [by eapply Hno|]. by apply (Hn j ms); [lia|]. }
    destruct (Hm _ _ Hmk Hu) as [_ [ms Hms]]. pose proof Hms as (Hms1 & Hms2 & Hms3 & Hms4). unfold strlen. rewrite (kstrlen_spec _ _ Hms1 Hms4). cbn [mbind outcome_bind].
    rewrite (mount_match_spec abspath cs (m_path m) ms) by done. cbn [mbind outcome_bind]. eexists. split; [done|].
    assert (∀ ms', candidate mounts cs k ms' → ms' = ms) as Hinj by (intros ms' (_ & m' & Hm' & _ & Hat & _); rewrite Hmk in Hm'; injection Hm' as <-; by eapply mounted_inj).
    case_bool_decide as Hpre; cbn [andb].
    + assert (candidate mounts cs k ms) as Hc by (split; [lia|by exists m]). destruct (Z.leb_spec len (zlen (join ms))) as [Hle|Hgt]; cbn [fst snd].
      * split; [lia|]. exists ms. split_and!; try done. intros j ms' Hj Hc'. destruct (decide (j = k)) as [->|]; [apply Hinj in Hc' as ->; lia|].
        destruct best as [i|]; [|exfalso; by apply (proj2 Hi j ms'); [lia|]]. destruct Hi as (_ & ms0 & _ & -> & Hmax). destruct (Hmax j ms' ltac:(lia) Hc'). lia.
      * destruct best as [i|]; [|destruct Hi as [-> _]; pose proof (zlen_nonneg (join ms)); lia]. destruct Hi as (Hik & ms0 & Hc0 & -> & Hmax). split; [lia|]. exists ms0. split_and!; try done.
        intros j ms' Hj Hc'. destruct (decide (j = k)) as [->|]; [apply Hinj in Hc' as ->; lia|]. apply Hmax; [lia|done].
    + assert (∀ ms', ¬ candidate mounts cs k ms') as Hno by (intros ms' Hc'; pose proof Hc' as (_ & _ & _ & _ & _ & Hp'); apply Hinj in Hc' as ->; done). cbn [fst snd].
      destruct best as [i|].
      * destruct Hi as (Hik & ms0 & Hc & -> & Hmax). split; [lia|]. exists ms0. split_and!; try done. intros j ms' Hj Hc'. destruct (decide (j = k)) as [->|]; [by apply Hno in Hc'|]. apply Hmax; [lia|done].
      * destruct Hi as [-> Hn]. split; [done|]. intros j ms' Hj Hc. destruct (decide (j = k)) as [->|]; [by eapply Hno|]. by apply (Hn j ms'); [lia|].
  - split; [done|]. intros j ms Hj [? _]. lia.
  - exists best, len. split; [done|]. cbn [fst snd] in Hi. assert (∀ j ms, candidate mounts cs j ms → j < VFS_MAX_MOUNTS) as Hlt.
    { intros j ms (Hj & m & Hmj & _). apply lookup_lt_Some in Hmj. unfold zlen in Hl. lia. }
    destruct best as [i|]; [destruct Hi as (_ & ms & Hc & -> & Hmax); exists ms; split_and!; try done; intros j ms' Hc'; apply Hmax; [by eapply Hlt|done]|].
    destruct Hi as [_ Hn]. intros j ms Hc. by apply (Hn j ms (Hlt _ _ Hc)).
Qed.

Lemma elem_drop {A} (x : A) n l : x ∈ drop n l → x ∈ l.
Proof. intros Hx. rewrite <-(take_drop n l). apply elem_of_app. by right. Qed.

Lemma find_mount_spec {F} (mounts : list (mount F)) abspath cs :
  mounts_ok mounts → cstr abspath (join cs) → Forall plain cs → bytes (join cs) →
  ∃ r, find_mount mounts abspath = Ret r ∧
    match r with
    | None => ∀ j ms, ¬ candidate mounts cs j ms
    | Some (i, rel) => ∃ ms t, candidate mounts cs i ms ∧ cstr rel t ∧ comps t = drop (length ms) cs ∧ (∀ x, x ∈ t → x ∈ join cs) ∧
        ∀ j ms', candidate mounts cs j ms' → ms' `prefix_of` ms ∧ (ms' = ms → j ≤ i)
    end.
Proof.
  intros Hm Ha Hcs Hb. unfold find_mount. destruct (mount_loop_spec mounts abspath cs Hm Ha Hcs Hb) as (best & len & -> & Hbest). cbn [mbind outcome_bind].
  destruct best as [i|]; [|by exists None]. destruct Hbest as (ms & Hc & -> & Hmax). pose proof Hc as (_ & m & _ & _ & (_ & Hms & _) & Hpre). pose proof Ha as [H0 [rest E]].
  assert (zlen (join ms) ≤ zlen (join cs)) as Hle.
  { destruct (decide (ms = [])) as [->|Hne]; [apply join_pos|]. destruct Hpre as [k ->]. assert (join (ms ++ k) = slashed ms ++ slashed k) as -> by (rewrite <-slashed_app; by destruct ms).
    assert (join ms = slashed ms) as -> by (by destruct ms). rewrite zlen_app. pose proof (zlen_nonneg (slashed k)). lia. }
  rewrite E, drop_app_le by (unfold zlen in *; lia). destruct (rel_skip_spec (drop (Z.to_nat (zlen (join ms))) (join cs)) rest) as (t & -> & Ht0 & Ht & Hsub).
  { intros Hin. by eapply H0, elem_drop. }
  cbn [mbind outcome_bind]. eexists. split; [done|]. exists ms, t. split; [done|]. split; [split; [done|by exists rest]|]. split; [rewrite Ht; by apply join_drop|]. split.
  { intros x Hx. by eapply elem_drop, Hsub. }
  intros j ms' Hc'. destruct (Hmax j ms' Hc') as [H1 H2]. pose proof Hc' as (_ & m' & _ & _ & (_ & Hms' & _) & Hpre'). split; [|intros ->; by apply H2].
  destruct (prefix_weak_total ms' ms cs Hpre' Hpre) as [?|Hp]; [done|]. rewrite (join_longer ms ms') by done. done.
Qed.

(** C26. The mount of a path is the right one: for a normal absolute path, [find_mount] returns the mount whose path is the
    longest prefix by whole components (of mounts at the same place the last), with the path that is left inside it; it
    returns NULL exactly when no mount has a prefix of the path. *)
Theorem find_mount_longest {F} (mounts : list (mount F)) abspath cs :
  mounts_ok mounts → cstr abspath (join cs) → Forall plain cs → bytes (join cs) →
  ∃ r, find_mount mounts abspath = Ret r ∧
    match r with
    | None => ∀ j ms, ¬ candidate mounts cs j ms
    | Some (i, rel) => ∃ ms t, candidate mounts cs i ms ∧ cstr rel t ∧ comps t = drop (length ms) cs ∧ (∀ x, x ∈ t → x ∈ join cs) ∧
        ∀ j ms', candidate mounts cs j ms' → ms' `prefix_of` ms ∧ (ms' = ms → j ≤ i)
    end.
Proof. apply find_mount_spec. Qed.

(** [/], [/dev] and [/disk], as [kernel_main] mounts them. *)
Definition name_dev : list Z := [100; 101; 118].
Definition name_disk : list Z := [100; 105; 115; 107].
Definition mount_buf (t : list Z) : list Z := t ++ replicate (256 - length t) 0.
Definition ex_mounts : list (mount Z) :=
  [mk_mount (mount_buf (join [])) (Some 1) true; mk_mount (mount_buf (join [name_dev])) (Some 2) true; mk_mount (mount_buf (join [name_disk])) (Some 3) true] ++
  replicate 5 (mk_mount (replicate 256 0) None false).

Lemma plain_dec c : bool_decide (c ≠ [] ∧ SLASH ∉ c ∧ 0 ∉ c ∧ c ≠ [DOT] ∧ c ≠ [DOT; DOT]) = true → plain c.
Proof. intros H. by apply bool_decide_eq_true in H. Qed.

Lemma mount_buf_cstr t : bool_decide (0 ∉ t) = true → bool_decide (length t < 256)%nat = true → cstr (mount_buf t) t.
Proof.
  intros H0%bool_decide_eq_true Hl%bool_decide_eq_true. split; [done|]. unfold mount_buf. exists (replicate (255 - length t) 0). f_equal. by replace (256 - length t)%nat with (S (255 - length t)) by lia.
Qed.

Lemma ex_mounts_ok : mounts_ok ex_mounts.
Proof.
  split; [by vm_compute|]. intros i m Hi Hu. assert (∃ ms, m_path m = mount_buf (join ms) ∧ is_Some (m_fs m) ∧ (ms = [] ∨ ms = [name_dev] ∨ ms = [name_disk])) as (ms & Ep & Hf & Hms).
  { destruct i as [|[|[|i]]]; [injection Hi as <-; exists []; eauto|injection Hi as <-; exists [name_dev]; eauto|injection Hi as <-; exists [name_disk]; eauto 10|].
    unfold ex_mounts in Hi. cbn [app lookup list_lookup] in Hi. apply lookup_replicate in Hi as [-> _]. done. }
  split; [done|]. exists ms. unfold mounted_at. rewrite Ep.
  destruct Hms as [-> | [-> | ->]]; (split; [by apply mount_buf_cstr; vm_compute|]); (split; [repeat (constructor; [by apply plain_dec; vm_compute|]); constructor|]); (split; [by repeat constructor|by vm_compute]).
Qed.

(** [/disk/f] is [f] of the third mount. *)
Lemma find_mount_longest_witness :
  find_mount ex_mounts (mount_buf (join [name_disk; [102]])) = Ret (Some (2, [102] ++ 0 :: replicate 248 0)) ∧
  ∃ ms t, candidate ex_mounts [name_disk; [102]] 2 ms ∧ cstr ([102] ++ 0 :: replicate 248 0) t ∧ comps t = drop (length ms) [name_disk; [102]] ∧
    ∀ j ms', candidate ex_mounts [name_disk; [102]] j ms' → ms' `prefix_of` ms.
Proof.
  assert (find_mount ex_mounts (mount_buf (join [name_disk; [102]])) = Ret (Some (2, [102] ++ 0 :: replicate 248 0))) as E by (vm_compute; reflexivity). split; [exact E|].
  destruct (find_mount_longest ex_mounts (mount_buf (join [name_disk; [102]])) [name_disk; [102]]) as (r & Er & Hr).
  - exact ex_mounts_ok.
  - by apply mount_buf_cstr; vm_compute.
  - repeat (constructor; [by apply plain_dec; vm_compute|]); constructor.
  - by repeat constructor.
  - rewrite E in Er. injection Er as <-. destruct Hr as (ms & t & H1 & H2 & H3 & _ & H4). exists ms, t. split; [exact H1|]. split; [exact H2|]. split; [exact H3|]. intros j ms' Hc. exact (proj1 (H4 j ms' Hc)).
Defined.
