(* ===== verification/Block.v ===== *)
(** The block layer: the write-through sector cache [kernel/block/block_cache.c]
    the transfers on top of it, [kernel/block/block_device.c], and partitions as
    devices, [kernel/partition/partition.c]. The driver of a disk is an interface,
    [Drive]; what is asked of a working drive is [DriveLaws]. A device is the
    address of its [struct block_device]; a disk and its partitions share a drive. *)

From S2P Require Import Prelude CString.

(** ** Definitions *)

Definition BLOCK_SECTOR_SIZE : Z := 512.
Definition CACHE_LINES : Z := 64.

(** The functions [read] and [write] of a device, for one sector: [read] gets the
    bytes that are in the buffer before the call. *)
Class Drive (D : Type) := {
  drive_read : D → Z → list Z → D * list Z * Z;
  drive_write : D → Z → list Z → D * Z
}.

(** [driver_data] with [read] and [write]: a drive, or [part_read] and [part_write]
    with their [struct partition_info]. *)
Inductive bdev_ops := DriveOps (k : Z) | PartOps (parent lba_offset lba_count : Z).

Record block_device := mk_bdev {
  bd_sector_count : Z; bd_sector_size : Z; bd_ops : bdev_ops; bd_has_read : bool; bd_has_write : bool
}.

Record cache_line := mk_line { l_dev : Z; l_lba : Z; l_valid : bool; l_dirty : bool; l_data : list Z }.

Record block_stats := mk_bstats { bs_reads : Z; bs_writes : Z; bs_read_sectors : Z; bs_write_sectors : Z; bs_errors : Z }.

(** The variables of the two files, and the devices. *)
Record block (D : Type) := mk_block {
  g_lines : list cache_line;
  g_hits : Z; g_misses : Z; g_writes : Z; g_evictions : Z;
  g_block_stats : block_stats;
  b_devs : gmap Z block_device;
  b_drives : gmap Z D
}.
Arguments mk_block {D}.
Arguments g_lines {D}.
Arguments g_hits {D}.
Arguments g_misses {D}.
Arguments g_writes {D}.
Arguments g_evictions {D}.
Arguments g_block_stats {D}.
Arguments b_devs {D}.
Arguments b_drives {D}.

Section Block.
Context {D : Type} {DR : Drive D}.
Implicit Types s : block D.

Definition bl_lines s (x : list cache_line) : block D :=
  mk_block x (g_hits s) (g_misses s) (g_writes s) (g_evictions s) (g_block_stats s) (b_devs s) (b_drives s).
Definition bl_counts s (hits misses writes evictions : Z) : block D :=
  mk_block (g_lines s) (u64 (g_hits s + hits)) (u64 (g_misses s + misses)) (u64 (g_writes s + writes))
    (u64 (g_evictions s + evictions)) (g_block_stats s) (b_devs s) (b_drives s).
Definition bl_stats s (x : block_stats) : block D :=
  mk_block (g_lines s) (g_hits s) (g_misses s) (g_writes s) (g_evictions s) x (b_devs s) (b_drives s).
Definition bl_drive s (k : Z) (d : D) : block D :=
  mk_block (g_lines s) (g_hits s) (g_misses s) (g_writes s) (g_evictions s) (g_block_stats s) (b_devs s) (<[k := d]> (b_drives s)).

Definition get_dev s (dev : Z) : outcome block_device :=
  match b_devs s !! dev with Some b => Ret b | None => Fault end.
Definition get_drive s (k : Z) : outcome D :=
  match b_drives s !! k with Some d => Ret d | None => Fault end.

(** [dev->read(dev, lba, buf, 1)], a call through NULL being a fault. [part_read]
    calls the parent's; [fuel] bounds the depth of partitions in partitions. *)
Fixpoint dev_read (fuel : nat) s (dev lba : Z) (buf : list Z) : outcome (block D * list Z * Z) :=
  b ← get_dev s dev;
  if negb (bd_has_read b) then Fault
  else
    match bd_ops b with
    | DriveOps k =>
        d ← get_drive s k;
        let '(d, data, rc) := drive_read d lba buf in Ret (bl_drive s k d, data, rc)
    | PartOps parent off count =>
        if count <? u64 (lba + 1) then Ret (s, buf, -1)
        else match fuel with O => Loop | S fuel => dev_read fuel s parent (u64 (off + lba)) buf end
    end.

(** [dev->write(dev, lba, buf, 1)], with the bytes at [buf]. *)
Fixpoint dev_write (fuel : nat) s (dev lba : Z) (data : list Z) : outcome (block D * Z) :=
  b ← get_dev s dev;
  if negb (bd_has_write b) then Fault
  else
    match bd_ops b with
    | DriveOps k =>
        d ← get_drive s k;
        let '(d, rc) := drive_write d lba data in Ret (bl_drive s k d, rc)
    | PartOps parent off count =>
        if count <? u64 (lba + 1) then Ret (s, -1)
        else match fuel with O => Loop | S fuel => dev_write fuel s parent (u64 (off + lba)) data end
    end.

(** No chain of parents is longer than the number of devices. *)
Definition dev_depth s : nat := size (b_devs s).

Definition clear_line (l : cache_line) : cache_line := mk_line (l_dev l) (l_lba l) false false (l_data l).

Definition block_cache_init s : block D :=
  mk_block (clear_line <$> g_lines s) 0 0 0 0 (g_block_stats s) (b_devs s) (b_drives s).

Definition slot_for (dev lba : Z) : Z := u64 (u64 (lba * 2654435761) + Z.shiftr dev 4) mod CACHE_LINES.

Definition line_is (l : cache_line) (dev lba : Z) : bool := (l_dev l =? dev) && (l_lba l =? lba).

(** The sector is copied to [buf] at [pos]. *)
Definition block_cache_read s (dev lba : Z) (buf : list Z) (pos : Z) : outcome (block D * list Z * Z) :=
  l ← aget (g_lines s) (slot_for dev lba);
  if l_valid l && line_is l dev lba then
    buf ← memcpy_from buf pos (l_data l) 0 BLOCK_SECTOR_SIZE;
    Ret (bl_counts s 1 0 0 0, buf, 0)
  else
    let s := bl_counts s 0 1 0 (b2z (l_valid l && negb (line_is l dev lba))) in
    b ← get_dev s dev;
    if negb (bd_has_read b) then
      lines ← aset (g_lines s) (slot_for dev lba) (mk_line (l_dev l) (l_lba l) false (l_dirty l) (l_data l));
      Ret (bl_lines s lines, buf, -1)
    else
      '(s, data, rc) ← dev_read (dev_depth s) s dev lba (l_data l);
      if negb (rc =? 0) then
        lines ← aset (g_lines s) (slot_for dev lba) (mk_line (l_dev l) (l_lba l) false (l_dirty l) data);
        Ret (bl_lines s lines, buf, -1)
      else
        lines ← aset (g_lines s) (slot_for dev lba) (mk_line dev lba true false data);
        buf ← memcpy_from buf pos data 0 BLOCK_SECTOR_SIZE;
        Ret (bl_lines s lines, buf, 0).

(** The bytes a driver takes from [buf] at [pos]. *)
Definition sector_at (buf : list Z) (pos : Z) : outcome (list Z) :=
  memcpy_from (replicate (Z.to_nat BLOCK_SECTOR_SIZE) 0) 0 buf pos BLOCK_SECTOR_SIZE.

Definition block_cache_write s (dev lba : Z) (buf : list Z) (pos : Z) : outcome (block D * Z) :=
  let s := bl_counts s 0 0 1 0 in
  b ← get_dev s dev;
  if negb (bd_has_write b) then Ret (s, -1)
  else
    data ← sector_at buf pos;
    '(s, rc) ← dev_write (dev_depth s) s dev lba data;
    if negb (rc =? 0) then Ret (s, -1)
    else
      l ← aget (g_lines s) (slot_for dev lba);
      let s := bl_counts s 0 0 0 (b2z (l_valid l && negb (line_is l dev lba))) in
      data ← memcpy_from (l_data l) 0 buf pos BLOCK_SECTOR_SIZE;
      lines ← aset (g_lines s) (slot_for dev lba) (mk_line dev lba true false data);
      Ret (bl_lines s lines, 0).

Definition block_cache_flush_all s : block D :=
  bl_lines s ((λ l, mk_line (l_dev l) (l_lba l) (l_valid l) false (l_data l)) <$> g_lines s).

Definition block_cache_dirty s : Z := zlen (filter (λ l, l_valid l && l_dirty l) (g_lines s)).

Definition count_error s : block D :=
  let t := g_block_stats s in
  bl_stats s (mk_bstats (bs_reads t) (bs_writes t) (bs_read_sectors t) (bs_write_sectors t) (u64 (bs_errors t + 1))).
Definition count_read s (n : Z) : block D :=
  let t := g_block_stats s in
  bl_stats s (mk_bstats (u64 (bs_reads t + 1)) (bs_writes t) (u64 (bs_read_sectors t + n)) (bs_write_sectors t) (bs_errors t)).
Definition count_write s (n : Z) : block D :=
  let t := g_block_stats s in
  bl_stats s (mk_bstats (bs_reads t) (u64 (bs_writes t + 1)) (bs_read_sectors t) (u64 (bs_write_sectors t + n)) (bs_errors t)).

(** [inr] is the return from the loop with an error. *)
Definition read_body (dev lba size i : Z) (st : block D * list Z) : outcome (block D * list Z + block D * list Z) :=
  '(s, buf, rc) ← block_cache_read st.1 dev (u64 (lba + i)) st.2 (i * size);
  Ret (if negb (rc =? 0) then inr (count_error s, buf) else inl (s, buf)).

Definition block_read s (dev lba : Z) (buf : list Z) (count : Z) : outcome (block D * list Z * Z) :=
  if dev =? 0 then Ret (count_error s, buf, -1)
  else
    b ← get_dev s dev;
    r ← find_range 0 count (read_body dev lba (bd_sector_size b)) (s, buf);
    Ret (match r with
         | inr (s, buf) => (s, buf, -1)
         | inl (s, buf) => (count_read s count, buf, 0)
         end).

Definition write_body (dev lba size : Z) (buf : list Z) (i : Z) s : outcome (block D + block D) :=
  '(s, rc) ← block_cache_write s dev (u64 (lba + i)) buf (i * size);
  Ret (if negb (rc =? 0) then inr (count_error s) else inl s).

Definition block_write s (dev lba : Z) (buf : list Z) (count : Z) : outcome (block D * Z) :=
  if dev =? 0 then Ret (count_error s, -1)
  else
    b ← get_dev s dev;
    r ← find_range 0 count (write_body dev lba (bd_sector_size b) buf) s;
    Ret (match r with inr s => (s, -1) | inl s => (count_write s count, 0) end).

Definition block_get_stats s : block_stats := g_block_stats s.
Definition block_stats_reset s : block D := bl_stats s (mk_bstats 0 0 0 0 0).

End Block.

(** ** Specification *)

(** A working drive: it has [drive_size] sectors, transfers succeed on these and fail on others, and a
    read gives what was written last. *)
Class DriveLaws (D : Type) `{Drive D} := {
  drive_size : D → Z;
  drive_get : D → Z → list Z;
  drive_get_len d i : zlen (drive_get d i) = BLOCK_SECTOR_SIZE;
  drive_read_len d i buf : zlen buf = BLOCK_SECTOR_SIZE → zlen (drive_read d i buf).1.2 = BLOCK_SECTOR_SIZE;
  drive_read_keeps d i buf :
    drive_size (drive_read d i buf).1.1 = drive_size d ∧ ∀ j, drive_get (drive_read d i buf).1.1 j = drive_get d j;
  drive_read_in d i buf : 0 ≤ i < drive_size d → (drive_read d i buf).1.2 = drive_get d i ∧ (drive_read d i buf).2 = 0;
  drive_read_out d i buf : ¬ (0 ≤ i < drive_size d) → (drive_read d i buf).2 ≠ 0;
  drive_write_size d i x : drive_size (drive_write d i x).1 = drive_size d;
  drive_write_in d i x : 0 ≤ i < drive_size d → zlen x = BLOCK_SECTOR_SIZE →
    (drive_write d i x).2 = 0 ∧ ∀ j, drive_get (drive_write d i x).1 j = if decide (j = i) then x else drive_get d j;
  drive_write_out d i x : ¬ (0 ≤ i < drive_size d) → (drive_write d i x).2 ≠ 0 ∧ ∀ j, drive_get (drive_write d i x).1 j = drive_get d j
}.

Section Spec.
Context {D : Type} {DR : Drive D} {HD : DriveLaws D}.
Implicit Types s : block D.

(** Drives with the same contents. *)
#[export] Instance drive_equiv : Equiv D := λ d d', drive_size d' = drive_size d ∧ ∀ i, drive_get d' i = drive_get d i.
#[export] Instance drive_equivalence : Equivalence (≡@{D}).
Proof.
  split.
  - by intros d.
  - intros d d' [H1 H2]. split; [done|]. intros i. by rewrite H2.
  - intros d d' d'' [H1 H2] [H3 H4]. split; [congruence|]. intros i. by rewrite H4.
Qed.

(** The drive and the sector on it that a sector of a device is. *)
Fixpoint resolve (fuel : nat) (devs : gmap Z block_device) (dev lba : Z) : option (Z * Z) :=
  b ← devs !! dev;
  match bd_ops b with
  | DriveOps k => Some (k, lba)
  | PartOps parent off count =>
      if lba <? count then match fuel with O => None | S fuel => resolve fuel devs parent (off + lba) end else None
  end.

(** The device and its parents are there and the partition fits in 64 bits. *)
Fixpoint chain_ok (fuel : nat) (devs : gmap Z block_device) (drives : gmap Z D) (dev : Z) : Prop :=
  match devs !! dev with
  | None => False
  | Some b =>
      bd_has_read b = true ∧ bd_has_write b = true ∧
      match bd_ops b with
      | DriveOps k => is_Some (drives !! k)
      | PartOps parent off count =>
          0 ≤ off ∧ off + count < 2 ^ 64 ∧ match fuel with O => False | S fuel => chain_ok fuel devs drives parent end
      end
  end.

Definition usable s (dev : Z) : Prop := dev ≠ 0 ∧ chain_ok (dev_depth s) (b_devs s) (b_drives s) dev ∧
  ∃ b, b_devs s !! dev = Some b ∧ bd_sector_size b = BLOCK_SECTOR_SIZE.

Definition place s (dev lba : Z) : option (Z * Z) := resolve (dev_depth s) (b_devs s) dev lba.

Definition on_drive (drives : gmap Z D) (kp : Z * Z) : option (list Z) :=
  d ← drives !! kp.1; if (0 <=? kp.2) && (kp.2 <? drive_size d) then Some (drive_get d kp.2) else None.

(** What the sector holds, if there is one. *)
Definition sector s (dev lba : Z) : option (list Z) := kp ← place s dev lba; on_drive (b_drives s) kp.

(** The lines that cache [dev] are where they are looked up and hold what is on the drive. *)
Definition coherent s (dev : Z) : Prop :=
  zlen (g_lines s) = CACHE_LINES ∧ Forall (λ l, zlen (l_data l) = BLOCK_SECTOR_SIZE) (g_lines s) ∧
  ∀ i l, g_lines s !! i = Some l → l_valid l = true → l_dev l = dev →
    Z.of_nat i = slot_for dev (l_lba l) ∧ sector s dev (l_lba l) = Some (l_data l).

(** ** Lemmas *)

#[export] Instance on_drive_proper : Proper ((≡@{gmap Z D}) ==> (=) ==> (=)) on_drive.
Proof.
  intros m m' Hm kp ? <-. unfold on_drive. specialize (Hm kp.1).
  destruct (m !! kp.1) as [d|], (m' !! kp.1) as [d'|]; inversion Hm as [? ? [H1 H2]|]; subst; cbn; [|done].
  by rewrite H1, H2.
Qed.

Lemma chain_ok_drives fuel devs drives drives' dev :
  (∀ k, is_Some (drives !! k) → is_Some (drives' !! k)) → chain_ok fuel devs drives dev → chain_ok fuel devs drives' dev.
Proof.
  intros Hd. revert dev. induction fuel as [|fuel IH]; intros dev; cbn [chain_ok]; destruct (devs !! dev) as [b|]; try done;
    destruct (bd_ops b); naive_solver.
Qed.

Lemma resolve_inj fuel devs drives dev a b kp :
  chain_ok fuel devs drives dev → resolve fuel devs dev a = Some kp → resolve fuel devs dev b = Some kp → a = b.
Proof.
  revert dev a b. induction fuel as [|fuel IH]; intros dev a b Hc; cbn [chain_ok resolve] in *;
    destruct (devs !! dev) as [d|]; try done; cbn [mbind option_bind]; destruct Hc as (_ & _ & Hc);
    destruct (bd_ops d) as [k|parent off count]; try (intros; congruence).
  - destruct (a <? count), (b <? count); done.
  - destruct Hc as (_ & _ & Hc). destruct (a <? count), (b <? count); try done. intros Ha Hb. specialize (IH _ _ _ Hc Ha Hb). lia.
Qed.

(** A transfer that changes nothing on the drives. *)
Definition keeps s s' : Prop := b_devs s' = b_devs s ∧ b_drives s' ≡ b_drives s.

Lemma keeps_refl s : keeps s s.
Proof. by split. Qed.
Lemma keeps_trans s1 s2 s3 : keeps s1 s2 → keeps s2 s3 → keeps s1 s3.
Proof. intros [E1 H1] [E2 H2]. split; [congruence|]. by rewrite H2. Qed.

Lemma keeps_place s s' dev lba : b_devs s' = b_devs s → place s' dev lba = place s dev lba.
Proof. intros E. unfold place, dev_depth. by rewrite E. Qed.

Lemma keeps_sector s s' dev lba : keeps s s' → sector s' dev lba = sector s dev lba.
Proof. intros [E H]. unfold sector. rewrite (keeps_place _ _ _ _ E). destruct (place s dev lba); cbn; [|done]. by rewrite H. Qed.

Lemma usable_devs s s' dev :
  b_devs s' = b_devs s → (∀ k, is_Some (b_drives s !! k) → is_Some (b_drives s' !! k)) → usable s dev → usable s' dev.
Proof.
  intros E H (H0 & Hc & Hb). unfold usable, dev_depth in *. rewrite E. split; [done|]. split; [|done]. by eapply chain_ok_drives.
Qed.

Lemma keeps_usable s s' dev : keeps s s' → usable s dev → usable s' dev.
Proof.
  intros [E H]. apply usable_devs; [done|]. intros k [d Hd]. specialize (H k). rewrite Hd in H. inversion H. eauto.
Qed.

Lemma drive_insert_keeps s k d d' : b_drives s !! k = Some d → d' ≡ d → keeps s (bl_drive s k d').
Proof.
  intros Hk Hd. split; [done|]. cbn [bl_drive b_drives]. intros j. destruct (decide (k = j)) as [<-|Hj].
  - rewrite lookup_insert_eq, Hk. by constructor.
  - by rewrite lookup_insert_ne.
Qed.

Lemma drive_read_spec s k lba buf :
  is_Some (b_drives s !! k) → zlen buf = BLOCK_SECTOR_SIZE →
  ∃ s' data rc, (d ← get_drive s k; let '(d, data, rc) := drive_read d lba buf in Ret (bl_drive s k d, data, rc)) = Ret (s', data, rc) ∧
    keeps s s' ∧ g_lines s' = g_lines s ∧ zlen data = BLOCK_SECTOR_SIZE ∧
    match on_drive (b_drives s) (k, lba) with Some x => data = x ∧ rc = 0 | None => rc ≠ 0 end.
Proof.
  intros [d Hd] Hb. unfold get_drive, on_drive. cbn [fst snd]. rewrite Hd. cbn [mbind outcome_bind option_bind].
  pose proof (drive_read_keeps d lba buf) as Hk. pose proof (drive_read_len d lba buf Hb) as Hz.
  pose proof (drive_read_in d lba buf) as Hin. pose proof (drive_read_out d lba buf) as Hout.
  destruct (drive_read d lba buf) as [[d' data] rc]. cbn [fst snd] in *.
  eexists _, _, _. split; [done|]. split; [apply (drive_insert_keeps _ _ d); [done|symmetry; exact Hk]|].
  split; [done|]. split; [done|]. destruct (Z.leb_spec 0 lba), (Z.ltb_spec lba (drive_size d)); cbn [andb]; [apply Hin|apply Hout..]; lia.
Qed.

Lemma dev_read_spec fuel s dev lba buf :
  chain_ok fuel (b_devs s) (b_drives s) dev → 0 ≤ lba < 2 ^ 64 - 1 → zlen buf = BLOCK_SECTOR_SIZE →
  ∃ s' data rc, dev_read fuel s dev lba buf = Ret (s', data, rc) ∧ keeps s s' ∧ g_lines s' = g_lines s ∧
    zlen data = BLOCK_SECTOR_SIZE ∧
    match resolve fuel (b_devs s) dev lba ≫= on_drive (b_drives s) with Some x => data = x ∧ rc = 0 | None => rc ≠ 0 end.
Proof.
  revert dev lba. induction fuel as [|fuel IH]; intros dev lba Hc Hl Hb; cbn [dev_read chain_ok resolve] in *; unfold get_dev;
    destruct (b_devs s !! dev) as [b|]; try done; destruct Hc as (Hr & _ & Hc); cbn [mbind outcome_bind option_bind]; rewrite Hr;
    destruct (bd_ops b) as [k|parent off count]; cbn [negb mbind option_bind]; try by apply drive_read_spec.
  - by destruct Hc as (_ & _ & []).
  - destruct Hc as (Ho & Hoc & Hc). rewrite u64_small by lia. destruct (Z.ltb_spec lba count), (Z.ltb_spec count (lba + 1)); try lia.
    + rewrite u64_small by lia. apply IH; [done|lia|done].
    + eexists s, buf, _. by split_and!.
Qed.

(** After a write, the place that was written holds [x] and all others what they held. *)
Definition wrote (kp : Z * Z) (x : list Z) s s' : Prop :=
  b_devs s' = b_devs s ∧ (∀ k, is_Some (b_drives s !! k) → is_Some (b_drives s' !! k)) ∧
  ∀ q, on_drive (b_drives s') q = if decide (q = kp) then Some x else on_drive (b_drives s) q.

Lemma drive_write_spec s k lba x :
  is_Some (b_drives s !! k) → zlen x = BLOCK_SECTOR_SIZE →
  ∃ s' rc, (d ← get_drive s k; let '(d, rc) := drive_write d lba x in Ret (bl_drive s k d, rc)) = Ret (s', rc) ∧
    g_lines s' = g_lines s ∧
    match on_drive (b_drives s) (k, lba) with Some _ => wrote (k, lba) x s s' ∧ rc = 0 | None => keeps s s' ∧ rc ≠ 0 end.
Proof.
  intros [d Hd] Hx. unfold get_drive. rewrite Hd. unfold on_drive at 1. cbn [mbind outcome_bind option_bind fst snd]. rewrite Hd.
  pose proof (drive_write_size d lba x) as Hs. pose proof (drive_write_in d lba x) as Hin. pose proof (drive_write_out d lba x) as Hout.
  destruct (drive_write d lba x) as [d' rc]. cbn [fst snd mbind option_bind] in *.
  eexists _, _. split; [done|]. split; [done|].
  destruct (Z.leb_spec 0 lba), (Z.ltb_spec lba (drive_size d)); cbn [andb];
    try (destruct Hout as [Hrc Hg]; [lia|]; split; [|done]; apply (drive_insert_keeps _ _ d); [done|]; symmetry; by split).
  destruct Hin as [-> Hg]; [lia|done|]. split; [|done]. split; [done|]. split.
  - intros j Hj. cbn [bl_drive b_drives]. destruct (decide (k = j)) as [<-|Hk]; [rewrite lookup_insert_eq; eauto|by rewrite lookup_insert_ne].
  - intros [j p]. unfold on_drive. cbn [bl_drive b_drives fst snd]. destruct (decide (k = j)) as [<-|Hk].
    + rewrite lookup_insert_eq, Hd. cbn [mbind option_bind]. rewrite Hs, Hg. destruct (decide (p = lba)) as [->|Hp].
      * rewrite decide_True by done. by rewrite (proj2 (Z.leb_le _ _)), (proj2 (Z.ltb_lt _ _)) by lia.
      * rewrite decide_False by congruence. done.
    + rewrite lookup_insert_ne by done. by rewrite decide_False by congruence.
Qed.

Lemma dev_write_spec fuel s dev lba x :
  chain_ok fuel (b_devs s) (b_drives s) dev → 0 ≤ lba < 2 ^ 64 - 1 → zlen x = BLOCK_SECTOR_SIZE →
  ∃ s' rc, dev_write fuel s dev lba x = Ret (s', rc) ∧ g_lines s' = g_lines s ∧
    match resolve fuel (b_devs s) dev lba with
    | Some kp => match on_drive (b_drives s) kp with Some _ => wrote kp x s s' ∧ rc = 0 | None => keeps s s' ∧ rc ≠ 0 end
    | None => keeps s s' ∧ rc ≠ 0
    end.
Proof.
  revert dev lba. induction fuel as [|fuel IH]; intros dev lba Hc Hl Hb; cbn [dev_write chain_ok resolve] in *; unfold get_dev;
    destruct (b_devs s !! dev) as [b|]; try done; destruct Hc as (_ & Hr & Hc); cbn [mbind outcome_bind option_bind]; rewrite Hr;
    destruct (bd_ops b) as [k|parent off count]; cbn [negb mbind option_bind]; try by apply drive_write_spec.
  - by destruct Hc as (_ & _ & []).
  - destruct Hc as (Ho & Hoc & Hc). rewrite u64_small by lia. destruct (Z.ltb_spec lba count), (Z.ltb_spec count (lba + 1)); try lia.
    + rewrite u64_small by lia. apply IH; [done|lia|done].
    + eexists s, _. by split_and!.
Qed.

Lemma slot_for_range dev lba : 0 ≤ slot_for dev lba < CACHE_LINES.
Proof. unfold slot_for, CACHE_LINES. apply Z.mod_pos_bound. lia. Qed.

Lemma line_is_true l dev lba : line_is l dev lba = true → l_dev l = dev ∧ l_lba l = lba.
Proof. unfold line_is. lia. Qed.

(** The cache stays coherent when its drives hold the same and one line is replaced by a line that is coherent too. *)
Lemma coherent_set s lines s' dev i l :
  coherent s dev → lines = g_lines s → g_lines s' = <[Z.to_nat i := l]> lines → zlen (l_data l) = BLOCK_SECTOR_SIZE →
  (l_valid l = true → l_dev l = dev → i = slot_for dev (l_lba l) ∧ sector s' dev (l_lba l) = Some (l_data l)) →
  (∀ lba, slot_for dev lba ≠ i → sector s' dev lba = sector s dev lba) →
  0 ≤ i → coherent s' dev.
Proof.
  intros (Hz & Hd & Hl) -> E Hn Hv Hf Hi. split; [by rewrite E, zlen_insert|]. rewrite E.
  split; [by apply Forall_insert|]. intros j l' Hj.
  destruct (decide (Z.of_nat j = i)) as [Hji|Hji].
  - replace (Z.to_nat i) with j in Hj by lia. apply lookup_lt_Some in Hj as Hlt. rewrite length_insert in Hlt.
    rewrite list_lookup_insert_eq in Hj by done. injection Hj as <-. by rewrite Hji.
  - rewrite list_lookup_insert_ne in Hj by lia. intros H1 H2.
    destruct (Hl _ _ Hj H1 H2) as [Hu Hs]. split; [done|]. rewrite Hf by congruence. done.
Qed.

Lemma coherent_keeps s s' dev : keeps s s' → g_lines s' = g_lines s → coherent s dev → coherent s' dev.
Proof.
  intros Hk E (Hz & Hd & Hl). unfold coherent. rewrite E. split; [done|]. split; [done|]. 
  intros i l Hi Hv Hld. rewrite (keeps_sector s s') by done. by apply Hl.
Qed.

Lemma block_cache_read_spec s dev lba buf pos :
  usable s dev → coherent s dev → 0 ≤ lba < 2 ^ 64 - 1 → 0 ≤ pos → pos + BLOCK_SECTOR_SIZE ≤ zlen buf →
  ∃ s' buf' rc, block_cache_read s dev lba buf pos = Ret (s', buf', rc) ∧ keeps s s' ∧ coherent s' dev ∧
    match sector s dev lba with Some x => rc = 0 ∧ buf' = zsplice buf pos x | None => rc = -1 ∧ buf' = buf end.
Proof.
  intros (Hd0 & Hc & b & Hb & Hbs) Hco Hl Hp Hpl. pose proof Hco as (Hz & Hd & Hv).
  pose proof (slot_for_range dev lba) as Hsl. unfold block_cache_read.
  destruct (aget_in (g_lines s) (slot_for dev lba)) as (l & Hlk & ->); [by rewrite Hz|]. cbn [mbind outcome_bind].
  rewrite Forall_lookup in Hd. specialize (Hd _ _ Hlk). specialize (Hv _ _ Hlk).
  destruct (l_valid l && line_is l dev lba) eqn:Ehit.
  { apply andb_true_iff in Ehit as [Evl Eli]. apply line_is_true in Eli as [E1 E2]. destruct (Hv Evl E1) as [_ Hs].
    rewrite E2 in Hs. rewrite Hs.
    rewrite memcpy_from_spec by (unfold BLOCK_SECTOR_SIZE in *; lia). cbn [mbind outcome_bind]. rewrite (zslice_all (l_data l)) by done.
    eexists _, _, _. split; [done|]. split; [by split|]. split; [|done]. by apply (coherent_keeps s). }
  set (s1 := bl_counts s 0 1 0 _). assert (keeps s s1) as Hk1 by by split.
  assert (∃ b', get_dev s1 dev = Ret b' ∧ bd_has_read b' = true) as (b' & -> & Hhr).
  { unfold get_dev. cbn [s1 bl_counts b_devs]. rewrite Hb. exists b. split; [done|].
    destruct (dev_depth s); cbn [chain_ok] in Hc; rewrite Hb in Hc; apply Hc. }
  cbn [mbind outcome_bind]. rewrite Hhr. cbn [negb].
  destruct (dev_read_spec (dev_depth s1) s1 dev lba (l_data l)) as (s2 & data & rc & -> & Hk2 & El2 & Hdl & Hm); [done|lia|done|].
  cbn [mbind outcome_bind]. assert (keeps s s2) as Hk by by eapply keeps_trans.
  assert (g_lines s2 = g_lines s) as El by (rewrite El2; done).
  change (resolve (dev_depth s1) (b_devs s1) dev lba ≫= on_drive (b_drives s1)) with (sector s dev lba) in Hm.
  rewrite !aset_in by (rewrite El, Hz; lia). cbn [mbind outcome_bind].
  destruct (sector s dev lba) as [x|] eqn:Ex.
  - destruct Hm as [-> ->]. cbn [Z.eqb negb].
    rewrite memcpy_from_spec by (unfold BLOCK_SECTOR_SIZE in *; lia). cbn [mbind outcome_bind]. rewrite (zslice_all x) by done.
    eexists _, _, _. split; [done|]. split; [exact Hk|]. split; [|done].
    eapply (coherent_set s); [done|exact El|done|done| | |lia].
    + intros _ _. split; [done|]. cbn [l_lba l_data]. rewrite <-Ex. by apply keeps_sector.
    + intros j _. by apply keeps_sector.
  - destruct (Z.eqb_spec rc 0); [done|]. cbn [negb]. eexists _, _, _. split; [done|]. split; [exact Hk|]. split; [|done].
    eapply (coherent_set s); [done|exact El|done|done|done| |lia]. intros j _. by apply keeps_sector.
Qed.

(** What a device's sectors are after one of them was written. *)
Lemma wrote_sector s s' dev lba kp x :
  usable s dev → place s dev lba = Some kp → wrote kp x s s' →
  ∀ j, sector s' dev j = if decide (j = lba) then Some x else sector s dev j.
Proof.
  intros (_ & Hc & _) Hp (E & _ & Hw) j. unfold sector. rewrite (keeps_place _ _ _ _ E).
  destruct (place s dev j) as [q|] eqn:Ej; cbn [mbind option_bind]; [rewrite Hw|]; dec_if as H1.
  - subst q. by rewrite (resolve_inj _ _ _ _ _ _ _ Hc Hp Ej), decide_True.
  - rewrite decide_False; [done|]. congruence.
  - congruence.
  - done.
Qed.

Lemma block_cache_write_spec s dev lba buf pos :
  usable s dev → coherent s dev → 0 ≤ lba < 2 ^ 64 - 1 → 0 ≤ pos → pos + BLOCK_SECTOR_SIZE ≤ zlen buf →
  ∃ s' rc, block_cache_write s dev lba buf pos = Ret (s', rc) ∧ coherent s' dev ∧
    (∀ i, 0 ≤ i → i ≠ slot_for dev lba → g_lines s' !! Z.to_nat i = g_lines s !! Z.to_nat i) ∧
    match sector s dev lba with
    | Some _ => rc = 0 ∧ ∃ kp, place s dev lba = Some kp ∧ wrote kp (zslice buf pos BLOCK_SECTOR_SIZE) s s'
    | None => rc = -1 ∧ keeps s s'
    end.
Proof.
  intros Hu Hco Hl Hp Hpl. pose proof Hu as (Hd0 & Hc & b & Hb & Hbs). pose proof Hco as (Hz & Hd & Hv).
  pose proof (slot_for_range dev lba) as Hsl. unfold block_cache_write.
  set (s1 := bl_counts s 0 0 1 0). assert (keeps s s1) as Hk1 by by split.
  assert (∃ b', get_dev s1 dev = Ret b' ∧ bd_has_write b' = true) as (b' & -> & Hhr).
  { unfold get_dev. cbn [s1 bl_counts b_devs]. rewrite Hb. exists b. split; [done|].
    destruct (dev_depth s); cbn [chain_ok] in Hc; rewrite Hb in Hc; apply Hc. }
  cbn [mbind outcome_bind]. rewrite Hhr. cbn [negb]. unfold sector_at.
  set (x := zslice buf pos BLOCK_SECTOR_SIZE). assert (zlen x = BLOCK_SECTOR_SIZE) as Hx by (apply zlen_zslice; unfold BLOCK_SECTOR_SIZE in *; lia).
  rewrite memcpy_from_spec by (rewrite ?zlen_replicate; unfold BLOCK_SECTOR_SIZE in *; lia).
  fold x. rewrite zsplice_all by (rewrite zlen_replicate, Hx; done). cbn [mbind outcome_bind].
  destruct (dev_write_spec (dev_depth s1) s1 dev lba x) as (s2 & rc & -> & El2 & Hm); [done|lia|done|].
  cbn [mbind outcome_bind]. assert (g_lines s2 = g_lines s) as El by (rewrite El2; done).
  unfold sector. change (resolve (dev_depth s1) (b_devs s1) dev lba) with (place s dev lba) in Hm.
  assert (match place s dev lba ≫= on_drive (b_drives s) with
    | Some _ => rc = 0 ∧ ∃ kp, place s dev lba = Some kp ∧ wrote kp x s s2
    | None => rc ≠ 0 ∧ keeps s s2 end) as Hm'.
  { destruct (place s dev lba) as [kp|]; cbn [mbind option_bind]; [|by destruct Hm].
    change (on_drive (b_drives s1) kp) with (on_drive (b_drives s) kp) in Hm. destruct (on_drive (b_drives s) kp); destruct Hm; eauto. }
  destruct (place s dev lba ≫= on_drive (b_drives s)) as [y|] eqn:Ey.
  - destruct Hm' as [-> (kp & Hkp & Hw)]. cbn [Z.eqb negb].
    destruct (aget_in (g_lines s2) (slot_for dev lba)) as (l & Hlk & ->); [by rewrite El, Hz|]. cbn [mbind outcome_bind].
    rewrite El in Hlk. rewrite Forall_lookup in Hd. specialize (Hd _ _ Hlk).
    rewrite memcpy_from_spec by (unfold BLOCK_SECTOR_SIZE in *; lia). fold x. rewrite zsplice_all by congruence. cbn [mbind outcome_bind].
    rewrite aset_in by (cbn [bl_counts g_lines]; rewrite El, Hz; lia). cbn [mbind outcome_bind]. eexists _, _. split; [done|].
    cbn [bl_lines g_lines bl_counts]. rewrite El. split; [|split; [intros i Hi1 Hi2; apply list_lookup_insert_ne; lia|eauto]].
    pose proof (wrote_sector _ _ _ _ _ _ Hu Hkp Hw) as Hws.
    eapply (coherent_set s); [done|reflexivity|done|done| | |lia].
    + intros _ _. split; [done|]. cbn [l_lba l_data]. etransitivity; [apply Hws|]. by rewrite decide_True.
    + intros j Hj. etransitivity; [apply Hws|]. rewrite decide_False; [done|congruence].
  - destruct Hm' as [Hrc Hk]. destruct (Z.eqb_spec rc 0); [done|]. cbn [negb]. eexists _, _. split; [done|]. rewrite El. split; [|done].
    by apply (coherent_keeps s).
Qed.
(** *** Transfers *)

(** A disk without a cache: what each sector holds. *)
Definition sectors := Z → option (list Z).

Definition uncached_read (m : sectors) (lba : Z) (buf : list Z) (count : Z) : outcome (list Z * Z) :=
  r ← find_range 0 count (λ i buf,
        Ret (match m (lba + i) with Some x => inl (zsplice buf (i * BLOCK_SECTOR_SIZE) x) | None => inr buf end)) buf;
  Ret (match r with inl buf => (buf, 0) | inr buf => (buf, -1) end).

Definition uncached_write (m : sectors) (lba : Z) (buf : list Z) (count : Z) : outcome (sectors * Z) :=
  r ← find_range 0 count (λ i (m : sectors),
        Ret (match m (lba + i) with
             | Some _ => inl (λ j, if decide (j = lba + i) then Some (zslice buf (i * BLOCK_SECTOR_SIZE) BLOCK_SECTOR_SIZE) else m j)
             | None => inr m
             end)) m;
  Ret (match r with inl m => (m, 0) | inr m => (m, -1) end).

(** The state stands for the disk [m]. *)
Definition stands s dev (m : sectors) : Prop := usable s dev ∧ coherent s dev ∧ ∀ j, sector s dev j = m j.

Lemma stands_stats s x dev m : stands s dev m → stands (bl_stats s x) dev m.
Proof. intros H. exact H. Qed.

Lemma stands_sector_len s dev m j x : stands s dev m → m j = Some x → zlen x = BLOCK_SECTOR_SIZE.
Proof.
  intros (_ & _ & H) Hj. rewrite <-H in Hj. unfold sector, on_drive in Hj.
  destruct (place s dev j) as [kp|]; [|done]. cbn [mbind option_bind] in Hj.
  destruct (b_drives s !! kp.1) as [d|]; [|done]. cbn [mbind option_bind] in Hj.
  destruct (_ && _); [|done]. injection Hj as <-. apply drive_get_len.
Qed.

Lemma block_read_spec s dev m lba buf count :
  stands s dev m → 0 ≤ lba → 0 ≤ count → lba + count < 2 ^ 64 → count * BLOCK_SECTOR_SIZE ≤ zlen buf →
  ∃ s' buf' rc, block_read s dev lba buf count = Ret (s', buf', rc) ∧ uncached_read m lba buf count = Ret (buf', rc) ∧
    stands s' dev m ∧ keeps s s' ∧ zlen buf' = zlen buf.
Proof.
  intros Hst Hl Hcn Hlc Hbl. pose proof Hst as [(Hd0 & _ & b & Hb & Hbs) _]. unfold block_read, uncached_read.
  destruct (Z.eqb_spec dev 0); [done|]. unfold get_dev. rewrite Hb. cbn [mbind outcome_bind]. rewrite Hbs.
  set (P := λ (st : block D * list Z) buf', st.2 = buf' ∧ stands st.1 dev m ∧ keeps s st.1 ∧ zlen buf' = zlen buf).
  destruct (find_range_sim (λ _, P) P (read_body dev lba BLOCK_SECTOR_SIZE)
    (λ i buf, Ret (match m (lba + i) with Some x => inl (zsplice buf (i * BLOCK_SECTOR_SIZE) x) | None => inr buf end)) 0 count (s, buf) buf)
    as (x & x' & E & E' & H); [done| |by split_and!|].
  - intros i [s1 b1] b2 Hi (Eb & Hs1 & Hk1 & Hz1). cbn [fst snd] in *. subst b2. unfold read_body. cbn [fst snd].
    rewrite u64_small by lia. pose proof Hs1 as (Hu1 & Hc1 & Hm1).
    destruct (block_cache_read_spec s1 dev (lba + i) b1 (i * BLOCK_SECTOR_SIZE)) as (s2 & b2 & rc & -> & Hk2 & Hc2 & Hr);
      [done|done|lia|unfold BLOCK_SECTOR_SIZE; lia|unfold BLOCK_SECTOR_SIZE in *; lia|].
    cbn [mbind outcome_bind]. eexists _, _. split; [done|]. split; [done|].
    assert (stands s2 dev m) as Hs2.
    { split; [by eapply keeps_usable|]. split; [done|]. intros j. by rewrite (keeps_sector s1 s2). }
    assert (keeps s s2) by by eapply keeps_trans.
    rewrite Hm1 in Hr. destruct (m (lba + i)) as [x|] eqn:Ex; destruct Hr as [-> ->]; cbn [Z.eqb negb sum_rel].
    + split; [done|]. split; [done|]. split; [done|]. pose proof (stands_sector_len _ _ _ _ _ Hs1 Ex) as Hx.
      rewrite zlen_zsplice; [done| |]; rewrite ?Hx; unfold BLOCK_SECTOR_SIZE in *; lia.
    + split; [done|]. split; [by apply stands_stats|]. done.
  - rewrite E, E'. cbn [mbind outcome_bind]. destruct x as [[s1 b1]|[s1 b1]], x' as [b2|b2]; try done; destruct H as (Eb & Hs1 & Hk1 & Hz1);
      cbn [fst snd] in *; subst b2; eexists _, _, _; (split; [done|]); (split; [done|]); done.
Qed.

Lemma block_write_spec s dev m lba buf count :
  stands s dev m → 0 ≤ lba → 0 ≤ count → lba + count < 2 ^ 64 → count * BLOCK_SECTOR_SIZE ≤ zlen buf →
  ∃ s' m' rc, block_write s dev lba buf count = Ret (s', rc) ∧ uncached_write m lba buf count = Ret (m', rc) ∧ stands s' dev m'.
Proof.
  intros Hst Hl Hcn Hlc Hbl. pose proof Hst as [(Hd0 & _ & b & Hb & Hbs) _]. unfold block_write, uncached_write.
  destruct (Z.eqb_spec dev 0); [done|]. unfold get_dev. rewrite Hb. cbn [mbind outcome_bind]. rewrite Hbs.
  destruct (find_range_sim (λ _ s m, stands s dev m) (λ s m, stands s dev m) (write_body dev lba BLOCK_SECTOR_SIZE buf)
    (λ i (m : sectors),
        Ret (match m (lba + i) with
             | Some _ => inl (λ j, if decide (j = lba + i) then Some (zslice buf (i * BLOCK_SECTOR_SIZE) BLOCK_SECTOR_SIZE) else m j)
             | None => inr m
             end)) 0 count s m)
    as (x & x' & E & E' & H); [done| |done|].
  - intros i s1 m1 Hi Hs1. unfold write_body. rewrite u64_small by lia. pose proof Hs1 as (Hu1 & Hc1 & Hm1).
    destruct (block_cache_write_spec s1 dev (lba + i) buf (i * BLOCK_SECTOR_SIZE)) as (s2 & rc & -> & Hc2 & _ & Hr);
      [done|done|lia|unfold BLOCK_SECTOR_SIZE; lia|unfold BLOCK_SECTOR_SIZE in *; lia|].
    cbn [mbind outcome_bind]. eexists _, _. split; [done|]. split; [done|].
    rewrite Hm1 in Hr. destruct (m1 (lba + i)) as [x|] eqn:Ex.
    + destruct Hr as (-> & kp & Hkp & Hw). cbn [Z.eqb negb sum_rel]. pose proof Hw as (Ed & Hdr & _).
      split; [by eapply usable_devs|]. split; [done|]. intros j. rewrite (wrote_sector _ _ _ _ _ _ Hu1 Hkp Hw). dec_if; done.
    + destruct Hr as (-> & Hk). cbn [Z.eqb negb sum_rel]. apply stands_stats.
      split; [by eapply keeps_usable|]. split; [done|]. intros j. by rewrite (keeps_sector s1 s2).
  - rewrite E, E'. cbn [mbind outcome_bind]. destruct x as [s1|s1], x' as [m1|m1]; try done; cbn [sum_rel] in H;
      eexists _, _, _; (split; [done|]); (split; [done|]); done.
Qed.

(** A sequence of transfers on a device and the answer to each: the return value, and the buffer after a read. *)
Inductive transfer := Rd (lba : Z) (buf : list Z) (count : Z) | Wr (lba : Z) (buf : list Z) (count : Z).

Definition transfer_ok (t : transfer) : Prop :=
  match t with Rd lba buf count | Wr lba buf count =>
    0 ≤ lba ∧ 0 ≤ count ∧ lba + count < 2 ^ 64 ∧ count * BLOCK_SECTOR_SIZE ≤ zlen buf end.

Fixpoint cached_run s (dev : Z) (ts : list transfer) : outcome (block D * list (Z * list Z)) :=
  match ts with
  | [] => Ret (s, [])
  | Rd lba buf count :: ts =>
      '(s, buf, rc) ← block_read s dev lba buf count; '(s, rs) ← cached_run s dev ts; Ret (s, (rc, buf) :: rs)
  | Wr lba buf count :: ts =>
      '(s, rc) ← block_write s dev lba buf count; '(s, rs) ← cached_run s dev ts; Ret (s, (rc, buf) :: rs)
  end.

Fixpoint uncached_run (m : sectors) (ts : list transfer) : outcome (sectors * list (Z * list Z)) :=
  match ts with
  | [] => Ret (m, [])
  | Rd lba buf count :: ts =>
      '(buf, rc) ← uncached_read m lba buf count; '(m, rs) ← uncached_run m ts; Ret (m, (rc, buf) :: rs)
  | Wr lba buf count :: ts =>
      '(m, rc) ← uncached_write m lba buf count; '(m, rs) ← uncached_run m ts; Ret (m, (rc, buf) :: rs)
  end.

(** C14. The sector cache cannot be seen: on a device whose lines are coherent, any sequence of transfers through the
    cache gives the same return values and the same buffers as the same transfers on a disk that has no cache, and at the end
    the drive holds what that disk holds and the cache is coherent again. *)
Theorem block_cache_transparent s dev m ts :
  stands s dev m → Forall transfer_ok ts →
  ∃ s' m' rs, cached_run s dev ts = Ret (s', rs) ∧ uncached_run m ts = Ret (m', rs) ∧ stands s' dev m'.
Proof.
  intros Hs Hts. revert s m Hs. induction Hts as [|t ts Ht _ IH]; intros s m Hs; [by eexists _, _, _|].
  destruct t as [lba buf count|lba buf count]; destruct Ht as (H1 & H2 & H3 & H4); cbn [cached_run uncached_run].
  - destruct (block_read_spec s dev m lba buf count) as (s1 & buf1 & rc & -> & -> & Hs1 & _); [done..|]. cbn [mbind outcome_bind].
    destruct (IH _ _ Hs1) as (s2 & m2 & rs & -> & -> & Hs2). cbn [mbind outcome_bind]. by eexists _, _, _.
  - destruct (block_write_spec s dev m lba buf count) as (s1 & m1 & rc & -> & -> & Hs1); [done..|]. cbn [mbind outcome_bind].
    destruct (IH _ _ Hs1) as (s2 & m2 & rs & -> & -> & Hs2). cbn [mbind outcome_bind]. by eexists _, _, _.
Qed.

(** C34. The lines are keyed by the device, so a disk and a partition of it cache the same sector twice: after a write through
    the partition, a sector that was cached for the disk is read with its old contents although the drive holds the new ones, when the two lines
    are in different slots of the cache. *)
Theorem partition_write_stale s disk part lba plba kp l buf out :
  usable s disk → usable s part → coherent s part → 0 ≤ plba < 2 ^ 64 - 1 → disk ≠ part →
  place s part plba = Some kp → place s disk lba = Some kp → sector s part plba ≠ None →
  slot_for part plba ≠ slot_for disk lba → g_lines s !! Z.to_nat (slot_for disk lba) = Some l →
  l_valid l = true → l_dev l = disk → l_lba l = lba → zlen (l_data l) = BLOCK_SECTOR_SIZE →
  zlen buf = BLOCK_SECTOR_SIZE → zlen out = BLOCK_SECTOR_SIZE →
  ∃ s' s'', block_cache_write s part plba buf 0 = Ret (s', 0) ∧ sector s' disk lba = Some buf ∧
    block_cache_read s' disk lba out 0 = Ret (s'', l_data l, 0).
Proof.
  intros Hu Hup Hc Hl Hne Hpp Hpd Hsec Hslot Hlk Hv Hld Hll Hz Hb Ho.
  destruct (block_cache_write_spec s part plba buf 0) as (s' & rc & E & _ & Hg & Hm); [done|done|lia|lia|lia|].
  destruct (sector s part plba) as [y|]; [|done]. destruct Hm as (-> & kp' & Hkp' & Hw). simplify_eq.
  rewrite zslice_all in Hw by done. eexists s', _. split; [exact E|]. split.
  { rewrite (wrote_sector s s' (l_dev l) (l_lba l) kp buf Hu Hpd Hw). by rewrite decide_True. }
  pose proof (slot_for_range (l_dev l) (l_lba l)) as Hr. unfold block_cache_read.
  rewrite (aget_Some _ _ l); [|lia|rewrite Hg by (done || lia); done]. cbn [mbind outcome_bind].
  unfold line_is. rewrite Hv, !Z.eqb_refl. cbn [andb].
  rewrite memcpy_from_spec by (unfold BLOCK_SECTOR_SIZE in *; lia). cbn [mbind outcome_bind].
  by rewrite (zslice_all (l_data l)), zsplice_all by congruence.
Qed.

(** After [block_cache_init] the cache is coherent. *)
Lemma block_cache_init_stands s dev :
  usable s dev → zlen (g_lines s) = CACHE_LINES → Forall (λ l, zlen (l_data l) = BLOCK_SECTOR_SIZE) (g_lines s) →
  stands (block_cache_init s) dev (sector s dev).
Proof.
  intros Hu Hz Hl. split; [exact Hu|]. split; [|done]. unfold coherent. cbn [block_cache_init g_lines]. split_and!.
  - unfold zlen in *. by rewrite length_fmap.
  - by apply Forall_fmap.
  - intros i l Hi Hv. apply list_lookup_fmap_Some in Hi as (l' & -> & _). done.
Qed.

End Spec.

(** ** A drive *)

(** Sectors in memory. *)
Record ram_disk := mk_ram { rd_size : Z; rd_map : gmap Z (list Z) }.

Definition no_data : list Z := replicate 512 0.
Definition rd_get (d : ram_disk) (i : Z) : list Z :=
  match rd_map d !! i with Some x => if zlen x =? BLOCK_SECTOR_SIZE then x else no_data | None => no_data end.
Definition rd_in (d : ram_disk) (i : Z) : bool := (0 <=? i) && (i <? rd_size d).

#[export] Instance ram_drive : Drive ram_disk := {
  drive_read d i buf := if rd_in d i then (d, rd_get d i, 0) else (d, buf, -1);
  drive_write d i x := if rd_in d i then (mk_ram (rd_size d) (<[i := x]> (rd_map d)), 0) else (d, -1)
}.

#[export] Program Instance ram_drive_laws : DriveLaws ram_disk := { drive_size := rd_size; drive_get := rd_get }.
Next Obligation.
  intros d i. unfold rd_get. destruct (rd_map d !! i) as [x|]; [|done]. destruct (Z.eqb_spec (zlen x) BLOCK_SECTOR_SIZE); done.
Qed.
Next Obligation. intros d i buf Hb. cbn. destruct (rd_in d i); [|done]. cbn. apply ram_drive_laws_obligation_1. Qed.
Next Obligation. intros d i buf. cbn. by destruct (rd_in d i). Qed.
Next Obligation. intros d i buf Hi. cbn. unfold rd_in. rewrite (proj2 (Z.leb_le _ _)), (proj2 (Z.ltb_lt _ _)) by lia. done. Qed.
Next Obligation. intros d i buf Hi. cbn. unfold rd_in. destruct (Z.leb_spec 0 i), (Z.ltb_spec i (rd_size d)); try lia; done. Qed.
Next Obligation. intros d i x. cbn. by destruct (rd_in d i). Qed.
Next Obligation.
  intros d i x Hi Hx. cbn. unfold rd_in. rewrite (proj2 (Z.leb_le _ _)), (proj2 (Z.ltb_lt _ _)) by lia. split; [done|].
  intros j. unfold rd_get. cbn. destruct (decide (j = i)) as [->|Hj].
  - by rewrite lookup_insert_eq, (proj2 (Z.eqb_eq _ _) Hx).
  - by rewrite lookup_insert_ne.
Qed.
Next Obligation. intros d i x Hi. cbn. unfold rd_in. destruct (Z.leb_spec 0 i), (Z.ltb_spec i (rd_size d)); try lia; done. Qed.

(** ** Examples *)

(** A drive of 16 sectors, the disk on it and a partition of its sectors 2 to 5. *)
Definition ex_disk : Z := 4096.
Definition ex_part : Z := 8192.
Definition ex_empty_line : cache_line := mk_line 0 0 false false no_data.
Definition ex_block : block ram_disk :=
  mk_block (replicate 64 ex_empty_line) 0 0 0 0 (mk_bstats 0 0 0 0 0)
    {[ ex_disk := mk_bdev 16 512 (DriveOps 0) true true; ex_part := mk_bdev 4 512 (PartOps ex_disk 2 4) true true ]}
    {[ 0 := mk_ram 16 ∅ ]}.
Definition ex_data (z : Z) : list Z := replicate 512 z.

Lemma ex_usable_disk : usable ex_block ex_disk.
Proof. split; [done|]. split; [|by eexists]. split; [done|]. split; [done|]. by eexists. Qed.
Lemma ex_usable_part : usable ex_block ex_part.
Proof. split; [done|]. split; [|by eexists]. do 6 (split; [done|]). by eexists. Qed.

Lemma ex_stands dev : usable ex_block dev → stands (block_cache_init ex_block) dev (sector ex_block dev).
Proof.
  intros Hu. apply block_cache_init_stands; [done|by vm_compute|]. apply Forall_replicate. by vm_compute.
Qed.

Lemma block_cache_transparent_witness :
  ∃ s' m' rs,
    cached_run (block_cache_init ex_block) ex_part [Wr 1 (ex_data 7) 1; Rd 1 (ex_data 0) 1; Rd 3 (ex_data 0 ++ ex_data 1) 2] = Ret (s', rs) ∧
    uncached_run (sector ex_block ex_part) [Wr 1 (ex_data 7) 1; Rd 1 (ex_data 0) 1; Rd 3 (ex_data 0 ++ ex_data 1) 2] = Ret (m', rs) ∧
    stands s' ex_part m'.
Proof.
  apply block_cache_transparent; [apply ex_stands, ex_usable_part|].
  repeat constructor; by vm_compute.
Defined.

(** Sector 3 of the disk, which is sector 1 of the partition, is cached for the disk. *)
Definition ex_line : cache_line := mk_line ex_disk 3 true false no_data.
Definition ex_cached : block ram_disk := bl_lines ex_block (<[Z.to_nat (slot_for ex_disk 3) := ex_line]> (g_lines ex_block)).

Lemma ex_cached_coherent : coherent ex_cached ex_part.
Proof.
  split; [by vm_compute|]. split.
  - apply Forall_insert; [|by vm_compute]. apply Forall_replicate. by vm_compute.
  - intros i l Hi Hv Hd. exfalso.
    assert (Forall (λ l, l_dev l ≠ ex_part) (g_lines ex_cached)) as Hf by (apply Forall_insert; [by apply Forall_replicate|done]).
    rewrite Forall_lookup in Hf. exact (Hf _ _ Hi Hd).
Qed.

Lemma partition_write_stale_witness :
  ∃ s' s'', block_cache_write ex_cached ex_part 1 (ex_data 7) 0 = Ret (s', 0) ∧ sector s' ex_disk 3 = Some (ex_data 7) ∧
    block_cache_read s' ex_disk 3 (ex_data 1) 0 = Ret (s'', no_data, 0).
Proof.
  apply (partition_write_stale ex_cached ex_disk ex_part 3 1 (0, 3) ex_line);
    [exact ex_usable_disk|exact ex_usable_part|exact ex_cached_coherent|lia|..]; by vm_compute.
Defined.
