(* ===== verification/Hnxfs.v ===== *)
(** The file system HNXFS ([kernel/fs/hnxfs]): the format on disk, the allocation bitmaps, inodes, file data, directories
    and the operations on them. Its disk is the interface [Disk], blocks of 4 KiB, which [HnxfsDisk] implements on the
    block layer. *)

From S2P Require Import Prelude Bytes CString StateM.

(** ** The format on disk *)

Definition HNXFS_MAGIC : Z := 0x315346584E48.
Definition HNXFS_VERSION : Z := 1.
Definition HNXFS_BLOCK_SIZE : Z := 4096.
Definition HNXFS_SECTORS_PER_BLOCK : Z := 8.
Definition HNXFS_DIRECT : Z := 12.
Definition HNXFS_NAME_MAX : Z := 120.
Definition HNXFS_ROOT_INODE : Z := 1.
Definition HNXFS_INODE_SIZE : Z := 128.
Definition HNXFS_INODES_PER_BLOCK : Z := 32.
Definition HNXFS_DIRENTS_PER_BLOCK : Z := 32.
Definition HNXFS_TYPE_FREE : Z := 0.
Definition HNXFS_TYPE_FILE : Z := 1.
Definition HNXFS_TYPE_DIR : Z := 2.

Record hnxfs_superblock := mk_sb {
  sb_magic : Z; sb_version : Z; sb_block_size : Z; sb_total_blocks : Z; sb_inode_count : Z;
  sb_inode_bitmap_block : Z; sb_data_bitmap_block : Z; sb_inode_table_block : Z; sb_inode_table_blocks : Z;
  sb_data_block_start : Z; sb_data_block_count : Z; sb_root_inode : Z
}.

Record hnxfs_inode := mk_inode {
  in_type : Z; in_mode : Z; in_size : Z; in_blocks : Z; in_direct : list Z; in_mtime : Z
}.

Record hnxfs_dirent := mk_dirent { de_inode : Z; de_name : list Z }.

(** Integers of [n] bytes, the least significant byte first. *)
Definition decode_superblock (b : list Z) : hnxfs_superblock :=
  mk_sb (le_at b 0 8) (le_at b 8 4) (le_at b 12 4) (le_at b 16 8) (le_at b 24 8) (le_at b 32 8) (le_at b 40 8)
    (le_at b 48 8) (le_at b 56 8) (le_at b 64 8) (le_at b 72 8) (le_at b 80 8).

Definition decode_inode (b : list Z) : hnxfs_inode :=
  mk_inode (le_at b 0 4) (le_at b 4 4) (le_at b 8 8) (le_at b 16 8)
    ((λ i, le_at b (24 + 8 * i) 8) <$> seqZ 0 HNXFS_DIRECT) (le_at b 120 8).

Definition encode_inode (i : hnxfs_inode) : list Z :=
  le_bytes 4 (in_type i) ++ le_bytes 4 (in_mode i) ++ le_bytes 8 (in_size i) ++ le_bytes 8 (in_blocks i) ++
  concat (le_bytes 8 <$> in_direct i) ++ le_bytes 8 (in_mtime i).

(** The entry in slot [s] of a directory block. *)
Definition dirent_at (b : list Z) (s : Z) : hnxfs_dirent :=
  mk_dirent (le_at b (s * 128) 8) (zslice b (s * 128 + 8) HNXFS_NAME_MAX).

(** ** The disk *)

(** [hnxfs_read_block], whose result is [None] when it does not return 0 (no caller looks at the buffer then), and
    [hnxfs_write_block]. *)
Class Disk (St : Type) := {
  hnxfs_read_block : Z → stM St (option (list Z));
  hnxfs_write_block : Z → list Z → stM St Z
}.

Section Hnxfs.
Context {St : Type} {DI : Disk St}.
Context (sb : hnxfs_superblock).

(** ** Allocation *)

Definition hnxfs_bitmap_step (bitmap_block : Z) (buf : list Z) (i : Z) (_ : unit) : stM St (unit + Z) :=
  b ← lift (aget buf (Z.shiftr i 3));
  if Z.land b (Z.shiftl 1 (Z.land i 7)) =? 0 then
    buf ← lift (aset buf (Z.shiftr i 3) (Z.lor b (u8 (Z.shiftl 1 (Z.land i 7)))));
    rc ← hnxfs_write_block bitmap_block buf;
    mret (inr (if negb (rc =? 0) then -1 else i))
  else mret (inl tt).

Definition hnxfs_bitmap_alloc (bitmap_block limit first : Z) : stM St Z :=
  r ← hnxfs_read_block bitmap_block;
  match r with
  | None => mret (-1)
  | Some buf =>
      r ← seek first limit (hnxfs_bitmap_step bitmap_block buf) tt;
      mret (match r with inl _ => -1 | inr i => i end)
  end.

Definition hnxfs_bitmap_free (bitmap_block index : Z) : stM St unit :=
  r ← hnxfs_read_block bitmap_block;
  match r with
  | None => mret tt
  | Some buf =>
      b ← lift (aget buf (Z.shiftr index 3));
      buf ← lift (aset buf (Z.shiftr index 3) (Z.land b (not8 (Z.shiftl 1 (Z.land index 7)))));
      _ ← hnxfs_write_block bitmap_block buf;
      mret tt
  end.

Definition hnxfs_alloc_inode : stM St Z :=
  i ← hnxfs_bitmap_alloc (sb_inode_bitmap_block sb) (sb_inode_count sb) 2;
  mret (if i <? 0 then 0 else i).

Definition hnxfs_free_inode (num : Z) : stM St unit :=
  if 2 <=? num then hnxfs_bitmap_free (sb_inode_bitmap_block sb) num else mret tt.

Definition g_zero_block : list Z := replicate (Z.to_nat HNXFS_BLOCK_SIZE) 0.

Definition hnxfs_alloc_block : stM St Z :=
  i ← hnxfs_bitmap_alloc (sb_data_bitmap_block sb) (sb_data_block_count sb) 0;
  if i <? 0 then mret 0
  else
    let absblk := u64 (sb_data_block_start sb + i) in
    _ ← hnxfs_write_block absblk g_zero_block;
    mret absblk.

Definition hnxfs_free_block (absblk : Z) : stM St unit :=
  if absblk <? sb_data_block_start sb then mret tt
  else hnxfs_bitmap_free (sb_data_bitmap_block sb) (absblk - sb_data_block_start sb).

(** ** Inodes *)

(** [inl] is the error that is returned. *)
Definition hnxfs_read_inode (num : Z) : stM St (Z + hnxfs_inode) :=
  if (num =? 0) || (sb_inode_count sb <=? num) then mret (inl (- SYS_EINVAL))
  else
    let blk := u64 (sb_inode_table_block sb + num / HNXFS_INODES_PER_BLOCK) in
    let idx := num mod HNXFS_INODES_PER_BLOCK in
    r ← hnxfs_read_block blk;
    match r with
    | None => mret (inl (- SYS_EIO))
    | Some buf => mret (inr (decode_inode (zslice buf (idx * HNXFS_INODE_SIZE) HNXFS_INODE_SIZE)))
    end.

Definition hnxfs_write_inode (num : Z) (i : hnxfs_inode) : stM St Z :=
  if (num =? 0) || (sb_inode_count sb <=? num) then mret (- SYS_EINVAL)
  else
    let blk := u64 (sb_inode_table_block sb + num / HNXFS_INODES_PER_BLOCK) in
    let idx := num mod HNXFS_INODES_PER_BLOCK in
    r ← hnxfs_read_block blk;
    match r with
    | None => mret (- SYS_EIO)
    | Some buf =>
        buf ← lift (memcpy_from buf (idx * HNXFS_INODE_SIZE) (encode_inode i) 0 HNXFS_INODE_SIZE);
        rc ← hnxfs_write_block blk buf;
        mret (if rc =? 0 then 0 else - SYS_EIO)
    end.

Definition set_direct (i : hnxfs_inode) (direct : list Z) : hnxfs_inode :=
  mk_inode (in_type i) (in_mode i) (in_size i) (in_blocks i) direct (in_mtime i).
Definition set_blocks (i : hnxfs_inode) (blocks : Z) : hnxfs_inode :=
  mk_inode (in_type i) (in_mode i) (in_size i) blocks (in_direct i) (in_mtime i).
Definition set_size (i : hnxfs_inode) (size : Z) : hnxfs_inode :=
  mk_inode (in_type i) (in_mode i) size (in_blocks i) (in_direct i) (in_mtime i).

(** ** File data *)

(** The part of the transfer that is in the block of [pos]. *)
Definition chunk_at (pos left : Z) : Z :=
  let chunk := HNXFS_BLOCK_SIZE - pos mod HNXFS_BLOCK_SIZE in if left <? chunk then left else chunk.

(** The number of the block, 0 in a hole. *)
Definition block_or_hole (i : hnxfs_inode) (bidx : Z) : stM St Z :=
  if in_blocks i <=? bidx then mret 0 else lift (aget (in_direct i) bidx).

Definition file_read_step (i : hnxfs_inode) (size offset : Z) (l : Z * list Z) : stM St (Z * list Z + Z * list Z) :=
  let '(done, dst) := l in
  if done <? size then
    let pos := u64 (offset + done) in
    let bidx := pos / HNXFS_BLOCK_SIZE in
    let within := pos mod HNXFS_BLOCK_SIZE in
    let chunk := chunk_at pos (size - done) in
    p ← block_or_hole i bidx;
    if p =? 0 then
      dst ← lift (memset dst done 0 chunk);
      mret (inl (done + chunk, dst))
    else
      r ← hnxfs_read_block p;
      match r with
      | Some blk =>
          dst ← lift (memcpy_from dst done blk within chunk);
          mret (inl (done + chunk, dst))
      | None => mret (inr (done, dst))
      end
  else mret (inr (done, dst)).

(** The result has the bytes of [buf] after the call. *)
Definition hnxfs_file_read (inode_num : Z) (buf : list Z) (size offset : Z) : stM St (Z * list Z) :=
  r ← hnxfs_read_inode inode_num;
  match r with
  | inl _ => mret (- SYS_EIO, buf)
  | inr i =>
      if in_size i <=? offset then mret (0, buf)
      else
        let avail := in_size i - offset in
        let size := if avail <? size then avail else size in
        while (Z.to_nat size + 1) (file_read_step i size offset) (0, buf)
  end.

(** The inode with a block for [bidx], [None] when the disk is full. *)
Definition ensure_block (i : hnxfs_inode) (bidx : Z) : stM St (option hnxfs_inode) :=
  p ← lift (aget (in_direct i) bidx);
  if p =? 0 then
    nb ← hnxfs_alloc_block;
    if nb =? 0 then mret None
    else
      direct ← lift (aset (in_direct i) bidx nb);
      let i := set_direct i direct in
      mret (Some (if in_blocks i <? bidx + 1 then set_blocks i (bidx + 1) else i))
  else mret (Some i).

Definition file_write_step (buf : list Z) (size offset : Z) (l : Z * hnxfs_inode) : stM St (Z * hnxfs_inode + Z * hnxfs_inode) :=
  let '(done, i) := l in
  if done <? size then
    let pos := u64 (offset + done) in
    let bidx := pos / HNXFS_BLOCK_SIZE in
    let within := pos mod HNXFS_BLOCK_SIZE in
    if HNXFS_DIRECT <=? bidx then mret (inr (done, i))
    else
      r ← ensure_block i bidx;
      match r with
      | None => mret (inr (done, i))
      | Some i =>
          let chunk := chunk_at pos (size - done) in
          p ← lift (aget (in_direct i) bidx);
          r ← hnxfs_read_block p;
          match r with
          | None => mret (inr (done, i))
          | Some blk =>
              blk ← lift (memcpy_from blk within buf done chunk);
              rc ← hnxfs_write_block p blk;
              if negb (rc =? 0) then mret (inr (done, i)) else mret (inl (done + chunk, i))
          end
      end
  else mret (inr (done, i)).

Definition hnxfs_file_write (inode_num : Z) (buf : list Z) (size offset : Z) : stM St Z :=
  r ← hnxfs_read_inode inode_num;
  match r with
  | inl _ => mret (- SYS_EIO)
  | inr i =>
      '(done, i) ← while (Z.to_nat size + 1) (file_write_step buf size offset) (0, i);
      let i := if in_size i <? u64 (offset + done) then set_size i (u64 (offset + done)) else i in
      _ ← hnxfs_write_inode inode_num i;
      mret done
  end.

Definition truncate_step (b : Z) (i : hnxfs_inode) : stM St (hnxfs_inode + unit) :=
  p ← lift (aget (in_direct i) b);
  if negb (p =? 0) then
    _ ← hnxfs_free_block p;
    direct ← lift (aset (in_direct i) b 0);
    mret (inl (set_direct i direct))
  else mret (inl i).

Definition hnxfs_file_truncate (inode_num : Z) : stM St unit :=
  r ← hnxfs_read_inode inode_num;
  match r with
  | inl _ => mret tt
  | inr i =>
      r ← seek 0 (Z.min (in_blocks i) HNXFS_DIRECT) truncate_step i;
      match r with
      | inl i => _ ← hnxfs_write_inode inode_num (set_size (set_blocks i 0) 0); mret tt
      | inr _ => mret tt
      end
  end.

(** ** Directories *)

Definition name_eq (a b : list Z) : outcome bool :=
  r ← strncmp a b (Z.to_nat HNXFS_NAME_MAX); Ret (r =? 0).

Definition is_dot (n : list Z) : outcome bool :=
  c0 ← aget n 0; c1 ← aget n 1; c2 ← aget n 2;
  Ret ((c0 =? 46) && (c1 =? 0) || (c0 =? 46) && (c1 =? 46) && (c2 =? 0)).

(** The inode of the directory, if it is one. *)
Definition read_dir (dir_inode : Z) : stM St (option hnxfs_inode) :=
  r ← hnxfs_read_inode dir_inode;
  mret (match r with inl _ => None | inr d => if in_type d =? HNXFS_TYPE_DIR then Some d else None end).

(** The loop over the blocks of a directory that the functions below share: a block that cannot be read is skipped. *)
Definition dir_blocks {L R} (d : hnxfs_inode) (visit : Z → list Z → L → stM St (L + R)) (l : L) : stM St (L + R) :=
  seek 0 (Z.min (in_blocks d) HNXFS_DIRECT) (λ b l,
    p ← lift (aget (in_direct d) b);
    r ← hnxfs_read_block p;
    match r with None => mret (inl l) | Some buf => visit p buf l end) l.

Definition match_slot (name buf : list Z) (s : Z) (_ : unit) : outcome (unit + Z) :=
  let de := dirent_at buf s in
  if negb (de_inode de =? 0) then
    m ← name_eq (de_name de) name; Ret (if m : bool then inr s else inl tt)
  else Ret (inl tt).

Definition lookup_visit (name : list Z) (p : Z) (buf : list Z) (_ : unit) : stM St (unit + Z) :=
  r ← lift (find_range 0 HNXFS_DIRENTS_PER_BLOCK (match_slot name buf) tt);
  mret (match r with inl _ => inl tt | inr s => inr (de_inode (dirent_at buf s)) end).

Definition hnxfs_dir_lookup (dir_inode : Z) (name : list Z) : stM St Z :=
  d ← read_dir dir_inode;
  match d with
  | None => mret 0
  | Some d => r ← dir_blocks d (lookup_visit name) tt; mret (match r with inl _ => 0 | inr i => i end)
  end.

(** [de->inode = child; strlcpy(de->name, name, HNXFS_NAME_MAX)]. *)
Definition set_dirent (buf : list Z) (s child : Z) (name : list Z) : outcome (list Z) :=
  buf ← memcpy_from buf (s * 128) (le_bytes 8 child) 0 8;
  '(nm, _) ← strlcpy (de_name (dirent_at buf s)) name HNXFS_NAME_MAX;
  memcpy_from buf (s * 128 + 8) nm 0 HNXFS_NAME_MAX.

Definition free_slot (buf : list Z) (s : Z) (_ : unit) : outcome (unit + Z) :=
  Ret (if de_inode (dirent_at buf s) =? 0 then inr s else inl tt).

Definition add_visit (name : list Z) (child : Z) (p : Z) (buf : list Z) (_ : unit) : stM St (unit + Z) :=
  r ← lift (find_range 0 HNXFS_DIRENTS_PER_BLOCK (free_slot buf) tt);
  match r with
  | inl _ => mret (inl tt)
  | inr s =>
      buf ← lift (set_dirent buf s child name);
      rc ← hnxfs_write_block p buf;
      mret (inr (if rc =? 0 then 0 else - SYS_EIO))
  end.

Definition hnxfs_dir_add (dir_inode : Z) (name : list Z) (child : Z) : stM St Z :=
  d ← read_dir dir_inode;
  match d with
  | None => mret (- SYS_ENOTDIR)
  | Some d =>
      r ← dir_blocks d (add_visit name child) tt;
      match r with
      | inr rc => mret rc
      | inl _ =>
          if HNXFS_DIRECT <=? in_blocks d then mret (- SYS_ENOMEM)
          else
            blk ← hnxfs_alloc_block;
            if blk =? 0 then mret (- SYS_ENOMEM)
            else
              direct ← lift (aset (in_direct d) (in_blocks d) blk);
              let d := set_blocks (set_direct d direct) (u64 (in_blocks d + 1)) in
              let d := set_size d (u64 (in_blocks d * HNXFS_BLOCK_SIZE)) in
              rc ← hnxfs_write_inode dir_inode d;
              if negb (rc =? 0) then mret (- SYS_EIO)
              else
                buf ← lift (set_dirent g_zero_block 0 child name);
                rc ← hnxfs_write_block blk buf;
                mret (if rc =? 0 then 0 else - SYS_EIO)
      end
  end.

(** [de->inode = 0; de->name[0] = 0]. *)
Definition clear_dirent (buf : list Z) (s : Z) : outcome (list Z) :=
  buf ← memcpy_from buf (s * 128) (le_bytes 8 0) 0 8; aset buf (s * 128 + 8) 0.

Definition remove_visit (name : list Z) (p : Z) (buf : list Z) (_ : unit) : stM St (unit + Z) :=
  r ← lift (find_range 0 HNXFS_DIRENTS_PER_BLOCK (match_slot name buf) tt);
  match r with
  | inl _ => mret (inl tt)
  | inr s =>
      buf ← lift (clear_dirent buf s);
      rc ← hnxfs_write_block p buf;
      mret (inr (if rc =? 0 then 0 else - SYS_EIO))
  end.

Definition hnxfs_dir_remove (dir_inode : Z) (name : list Z) : stM St Z :=
  d ← read_dir dir_inode;
  match d with
  | None => mret (- SYS_ENOTDIR)
  | Some d => r ← dir_blocks d (remove_visit name) tt; mret (match r with inl _ => - SYS_ENOENT | inr rc => rc end)
  end.

Definition nth_slot (index : Z) (buf : list Z) (s seen : Z) : outcome (Z + Z) :=
  let de := dirent_at buf s in
  if de_inode de =? 0 then Ret (inl seen)
  else
    dot ← is_dot (de_name de);
    Ret (if dot : bool then inl seen else if seen =? index then inr s else inl (u64 (seen + 1))).

Definition get_visit (index : Z) (p : Z) (buf : list Z) (seen : Z) : stM St (Z + hnxfs_dirent) :=
  r ← lift (find_range 0 HNXFS_DIRENTS_PER_BLOCK (nth_slot index buf) seen);
  mret (match r with inl seen => inl seen | inr s => inr (dirent_at buf s) end).

(** [None] when it returns -1. *)
Definition hnxfs_dir_get (dir_inode index : Z) : stM St (option hnxfs_dirent) :=
  d ← read_dir dir_inode;
  match d with
  | None => mret None
  | Some d => r ← dir_blocks d (get_visit index) 0; mret (match r with inl _ => None | inr de => Some de end)
  end.

Definition hnxfs_dir_empty (dir_inode : Z) : stM St bool :=
  r ← hnxfs_dir_get dir_inode 0; mret (match r with None => true | Some _ => false end).

(** ** Creation and removal *)

Definition zero_inode : hnxfs_inode := mk_inode 0 0 0 0 (replicate (Z.to_nat HNXFS_DIRECT) 0) 0.
Definition new_inode (dir : bool) : hnxfs_inode :=
  mk_inode (if dir then HNXFS_TYPE_DIR else HNXFS_TYPE_FILE) 420 (in_size zero_inode) (in_blocks zero_inode)
    (in_direct zero_inode) (in_mtime zero_inode).

(** [v_create] up to the vnode of the result: the inode number, or the error. *)
Definition v_create (dir_inode : Z) (name : list Z) (dir : bool) : stM St (Z + Z) :=
  old ← hnxfs_dir_lookup dir_inode name;
  if negb (old =? 0) then mret (inl (- SYS_EEXIST))
  else
    child ← hnxfs_alloc_inode;
    if child =? 0 then mret (inl (- SYS_ENOMEM))
    else
      rc ← hnxfs_write_inode child (new_inode dir);
      if negb (rc =? 0) then _ ← hnxfs_free_inode child; mret (inl (- SYS_EIO))
      else
        rc ← hnxfs_dir_add dir_inode name child;
        if negb (rc =? 0) then _ ← hnxfs_free_inode child; mret (inl (- SYS_EIO))
        else mret (inr child).

Definition v_unlink (dir_inode : Z) (name : list Z) : stM St Z :=
  child ← hnxfs_dir_lookup dir_inode name;
  if child =? 0 then mret (- SYS_ENOENT)
  else
    r ← hnxfs_read_inode child;
    match r with
    | inl _ => mret (- SYS_EIO)
    | inr i =>
        empty ← (if in_type i =? HNXFS_TYPE_DIR then hnxfs_dir_empty child else mret true);
        if negb empty then mret (- SYS_EINVAL)
        else
          _ ← hnxfs_file_truncate child;
          _ ← hnxfs_free_inode child;
          hnxfs_dir_remove dir_inode name
    end.

End Hnxfs.
