(* ===== verification/HnxfsSpec.v ===== *)
(** What the functions of [Hnxfs] do to the disk, block by block: [DiskLaws] is what they ask of the disk, [fs_ok] the
    invariant of the file system (no block has two owners, the blocks in use are marked, a file is zero past its end).
    The contents of a file are a list of bytes, [fdata]; reads and writes are slices of it. *)

From S2P Require Import Prelude Bytes CString StateM Hnxfs.

(** ** Inodes on disk *)

(** The fields of the inode fit. *)
Definition inode_fits (i : hnxfs_inode) : Prop :=
  is_u32 (in_type i) ∧ is_u32 (in_mode i) ∧ is_u64 (in_size i) ∧ is_u64 (in_blocks i) ∧ is_u64 (in_mtime i) ∧
  zlen (in_direct i) = HNXFS_DIRECT ∧ Forall is_u64 (in_direct i).

Lemma zlen_encode_inode i : zlen (in_direct i) = HNXFS_DIRECT → zlen (encode_inode i) = HNXFS_INODE_SIZE.
Proof.
  intros Hd. unfold encode_inode. rewrite !zlen_app, !zlen_le_bytes.
  assert (∀ l, zlen (concat (le_bytes 8 <$> l)) = 8 * zlen l) as Hc.
  { induction l as [|x l IH]; [done|]. cbn [fmap list_fmap concat]. rewrite zlen_app, zlen_le_bytes, IH, zlen_cons. lia. }
  rewrite Hc, Hd. done.
Qed.

Lemma bytes_encode_inode i : bytes (encode_inode i).
Proof.
  unfold encode_inode, bytes. rewrite !Forall_app. repeat (split; [apply bytes_le_bytes|]). split; [|apply bytes_le_bytes].
  induction (in_direct i) as [|x l IH]; [constructor|]. cbn [fmap list_fmap concat]. apply Forall_app. split; [apply bytes_le_bytes|done].
Qed.

Lemma decode_encode_inode i : inode_fits i → decode_inode (encode_inode i) = i.
Proof.
  destruct i as [t m sz bl d mt]. intros (H1 & H2 & H3 & H4 & H5 & H6 & H7). cbn [in_type in_mode in_size in_blocks in_direct in_mtime] in *.
  do 12 (destruct d as [|? d]; [done|]). destruct d as [|? d]; [|rewrite !zlen_cons in H6; pose proof (zlen_nonneg d); unfold HNXFS_DIRECT in H6; lia].
  repeat (apply Forall_cons in H7 as [? H7]).
  transitivity (mk_inode (le_int (le_bytes 4 t)) (le_int (le_bytes 4 m)) (le_int (le_bytes 8 sz)) (le_int (le_bytes 8 bl))
    ((λ z, le_int (le_bytes 8 z)) <$> [z; z0; z1; z2; z3; z4; z5; z6; z7; z8; z9; z10]) (le_int (le_bytes 8 mt))); [reflexivity|].
  cbn [fmap list_fmap]. by rewrite !le_int_bytes by done.
Qed.

Lemma decode_inode_fits b : bytes b → zlen b = HNXFS_INODE_SIZE → inode_fits (decode_inode b).
Proof.
  intros Hb Hl. unfold HNXFS_INODE_SIZE in Hl.
  assert (∀ off, 0 ≤ off → off + 8 ≤ 128 → is_u64 (le_at b off 8)) as H8 by (intros; apply (le_at_range b _ 8); lia || done).
  assert (∀ off, 0 ≤ off → off + 4 ≤ 128 → is_u32 (le_at b off 4)) as H4 by (intros; apply (le_at_range b _ 4); lia || done).
  unfold inode_fits, decode_inode. cbn [in_type in_mode in_size in_blocks in_direct in_mtime].
  split_and!; [apply H4; lia|apply H4; lia|apply H8; lia|apply H8; lia|apply H8; lia|done|].
  apply Forall_fmap, Forall_forall. intros i Hi%elem_of_seqZ. apply H8; unfold HNXFS_DIRECT in *; lia.
Qed.

(** ** Bitmaps *)

Definition bit_at (buf : list Z) (k : Z) : bool := Z.testbit (buf !!! Z.to_nat (k / 8)) (k mod 8).
Definition set_bit (buf : list Z) (k : Z) : list Z :=
  <[Z.to_nat (k / 8) := Z.lor (buf !!! Z.to_nat (k / 8)) (2 ^ (k mod 8))]> buf.
Definition clear_bit (buf : list Z) (k : Z) : list Z :=
  <[Z.to_nat (k / 8) := Z.land (buf !!! Z.to_nat (k / 8)) (not8 (2 ^ (k mod 8)))]> buf.

Definition BITS : Z := 8 * HNXFS_BLOCK_SIZE.

Section Bitmap.
Context (buf : list Z) (Hlen : zlen buf = HNXFS_BLOCK_SIZE) (Hbytes : bytes buf).

Lemma bit_byte k : 0 ≤ k < BITS → 0 ≤ k / 8 < zlen buf ∧ 0 ≤ k mod 8 < 8.
Proof. intros Hk. rewrite Hlen. unfold BITS, HNXFS_BLOCK_SIZE in *. zlia. Qed.

Lemma aget_bit k : 0 ≤ k < BITS → aget buf (Z.shiftr k 3) = Ret (buf !!! Z.to_nat (k / 8)).
Proof.
  intros Hk. destruct (bit_byte k Hk) as [Hk1 _]. rewrite Z.shiftr_div_pow2 by lia. change (2 ^ 3) with 8.
  destruct (aget_in buf (k / 8) Hk1) as (x & Hx & ->). by rewrite (list_lookup_total_correct _ _ _ Hx).
Qed.

Lemma is_u8_byte n : is_u8 (buf !!! n).
Proof.
  destruct (buf !! n) as [x|] eqn:E; [rewrite (list_lookup_total_correct _ _ _ E); by apply (Forall_lookup_1 _ _ _ _ Hbytes E)|].
  rewrite list_lookup_total_alt, E. done.
Qed.

Lemma shift_bit k : Z.shiftl 1 (Z.land k 7) = 2 ^ (k mod 8).
Proof. change 7 with (2 ^ 3 - 1). rewrite land_ones_mod, Z.shiftl_1_l by lia. done. Qed.

Lemma test_bit k : 0 ≤ k → (Z.land (buf !!! Z.to_nat (k / 8)) (Z.shiftl 1 (Z.land k 7)) =? 0) = negb (bit_at buf k).
Proof.
  intros Hk. rewrite shift_bit. unfold bit_at. assert (0 ≤ k mod 8 < 8) as Hm by zlia.
  set (b := buf !!! Z.to_nat (k / 8)). assert (∀ i, Z.testbit (Z.land b (2 ^ (k mod 8))) i = Z.testbit b i && bool_decide (i = k mod 8)) as E.
  { intros i. rewrite Z.land_spec, testbit_pow2 by lia. done. }
  destruct (Z.eqb_spec (Z.land b (2 ^ (k mod 8))) 0) as [H0|H0].
  - specialize (E (k mod 8)). rewrite H0, Z.bits_0, bool_decide_true, andb_true_r in E by done. by rewrite <-E.
  - destruct (Z.testbit b (k mod 8)) eqn:Eb; [done|]. destruct H0. apply Z.bits_inj'. intros i Hi. rewrite E, Z.bits_0.
    case_bool_decide; subst; rewrite ?Eb, ?andb_false_r; done.
Qed.

Lemma bit_update k j x :
  0 ≤ k < BITS → 0 ≤ j < BITS →
  bit_at (<[Z.to_nat (k / 8) := x]> buf) j = if decide (j / 8 = k / 8) then Z.testbit x (j mod 8) else bit_at buf j.
Proof.
  intros Hk Hj. destruct (bit_byte k Hk) as [Hk1 _]. destruct (bit_byte j Hj) as [Hj1 _]. unfold bit_at.
  rewrite !list_lookup_total_alt, lookup_insert_Z by lia. destruct (decide (k / 8 = j / 8)), (decide (j / 8 = k / 8)); try lia; done.
Qed.

Lemma set_bit_spec k j : 0 ≤ k < BITS → 0 ≤ j < BITS → bit_at (set_bit buf k) j = bool_decide (j = k) || bit_at buf j.
Proof.
  intros Hk Hj. unfold set_bit. rewrite bit_update by done. dec_if as H.
  - rewrite Z.lor_spec, testbit_pow2 by zlia. unfold bit_at. rewrite H.
    rewrite orb_comm. f_equal. apply bool_decide_ext. zlia.
  - rewrite bool_decide_false by congruence. done.
Qed.

Lemma clear_bit_spec k j : 0 ≤ k < BITS → 0 ≤ j < BITS → bit_at (clear_bit buf k) j = negb (bool_decide (j = k)) && bit_at buf j.
Proof.
  intros Hk Hj. unfold clear_bit. rewrite bit_update by done. assert (0 ≤ j mod 8 < 8) as Hm by zlia. dec_if as H.
  - rewrite Z.land_spec. unfold not8, u8. rewrite testbit_mod_pow2, Z.lnot_spec, testbit_pow2 by zlia. unfold bit_at. rewrite H.
    rewrite (proj2 (Z.ltb_lt _ _)) by lia. cbn [andb]. rewrite andb_comm. f_equal. f_equal. apply bool_decide_ext. zlia.
  - rewrite bool_decide_false by congruence. done.
Qed.

Lemma set_bit_block k : 0 ≤ k < BITS → zlen (set_bit buf k) = HNXFS_BLOCK_SIZE ∧ bytes (set_bit buf k).
Proof.
  intros Hk. unfold set_bit. rewrite zlen_insert. split; [done|]. apply Forall_insert; [done|].
  apply (lor_u_range _ _ 8); [lia|apply is_u8_byte|]. split; [lia|]. apply Z.pow_lt_mono_r; zlia.
Qed.

Lemma clear_bit_block k : 0 ≤ k < BITS → zlen (clear_bit buf k) = HNXFS_BLOCK_SIZE ∧ bytes (clear_bit buf k).
Proof.
  intros Hk. unfold clear_bit. rewrite zlen_insert. split; [done|]. apply Forall_insert; [done|].
  apply (land_u_range _ _ 8); [lia|apply is_u8_byte].
Qed.

End Bitmap.

(** ** The disk *)

Definition DISK_MAX : Z := 2 ^ 60.

(** A disk that works: [dsees s v] says that it has the blocks [v]. They can be read and written, others give an error. *)
Class DiskLaws (St : Type) {DI : Disk St} := {
  dsees : St → gmap Z (list Z) → Prop;
  dsees_block s v b x : dsees s v → v !! b = Some x → zlen x = HNXFS_BLOCK_SIZE ∧ bytes x;
  read_block_spec s v b : dsees s v → 0 ≤ b < DISK_MAX →
    wp (hnxfs_read_block b) s (λ r s', r = v !! b ∧ dsees s' v);
  write_block_spec s v b x : dsees s v → 0 ≤ b < DISK_MAX → zlen x = HNXFS_BLOCK_SIZE → bytes x →
    wp (hnxfs_write_block b x) s (λ rc s',
      match v !! b with Some _ => rc = 0 ∧ dsees s' (<[b := x]> v) | None => rc ≠ 0 ∧ dsees s' v end)
}.

(** The regions of the disk are in order, as [hnxfs_fsck_superblock] asks, and the bitmaps have a bit for everything. *)
Record layout (sb : hnxfs_superblock) : Prop := {
  lay_ibm : 1 ≤ sb_inode_bitmap_block sb < sb_data_bitmap_block sb;
  lay_dbm : sb_data_bitmap_block sb < sb_inode_table_block sb;
  lay_itb : sb_inode_table_block sb + sb_inode_table_blocks sb ≤ sb_data_block_start sb;
  lay_data : 0 ≤ sb_data_block_count sb ∧ sb_data_block_start sb + sb_data_block_count sb ≤ sb_total_blocks sb;
  lay_total : sb_total_blocks sb < DISK_MAX;
  lay_icount : 0 ≤ sb_inode_count sb ≤ HNXFS_INODES_PER_BLOCK * sb_inode_table_blocks sb;
  lay_ibits : sb_inode_count sb ≤ BITS;
  lay_dbits : sb_data_block_count sb ≤ BITS
}.

Existing Class layout.

Definition blk (v : gmap Z (list Z)) (b : Z) : list Z := default [] (v !! b).

Section Spec.
Context {St : Type} {DI : Disk St} {DL : DiskLaws St}.
Context (sb : hnxfs_superblock) {Hlay : layout sb}.
Implicit Types (s : St) (v : gmap Z (list Z)).

(** All blocks of the file system are there. *)
Definition whole v : Prop :=
  (∀ b, 0 ≤ b < sb_total_blocks sb → is_Some (v !! b)) ∧ (∀ b x, v !! b = Some x → zlen x = HNXFS_BLOCK_SIZE ∧ bytes x).

Lemma whole_blk v b : whole v → 0 ≤ b < sb_total_blocks sb → v !! b = Some (blk v b) ∧ zlen (blk v b) = HNXFS_BLOCK_SIZE ∧ bytes (blk v b).
Proof. intros [Hw Hb] H. unfold blk. destruct (Hw b H) as [x Hx]. rewrite Hx. split; [done|]. by apply (Hb b). Qed.

Lemma whole_insert v b x : whole v → zlen x = HNXFS_BLOCK_SIZE → bytes x → whole (<[b := x]> v).
Proof.
  intros [Hw Hb] Hz Hx. split.
  - intros c Hc. destruct (decide (b = c)) as [<-|]; [rewrite lookup_insert_eq; eauto|rewrite lookup_insert_ne by done; auto].
  - intros c y. destruct (decide (b = c)) as [<-|]; [rewrite lookup_insert_eq; intros [= <-]; done|rewrite lookup_insert_ne by done; apply Hb].
Qed.

Lemma blk_insert v b x : blk (<[b := x]> v) b = x.
Proof. unfold blk. by rewrite lookup_insert_eq. Qed.
Lemma blk_insert_ne v b c x : b ≠ c → blk (<[b := x]> v) c = blk v c.
Proof. intros H. unfold blk. by rewrite lookup_insert_ne. Qed.

Lemma read_blk s v b :
  dsees s v → whole v → 0 ≤ b < sb_total_blocks sb → wp (hnxfs_read_block b) s (λ r s', r = Some (blk v b) ∧ dsees s' v).
Proof.
  intros Hs Hw Hb. pose proof (lay_total _ Hlay). destruct (whole_blk v b Hw Hb) as [<- _]. apply read_block_spec; [done|lia].
Qed.

Lemma write_blk s v b x :
  dsees s v → whole v → 0 ≤ b < sb_total_blocks sb → zlen x = HNXFS_BLOCK_SIZE → bytes x →
  wp (hnxfs_write_block b x) s (λ rc s', rc = 0 ∧ dsees s' (<[b := x]> v)).
Proof.
  intros Hs Hw Hb Hz Hx. pose proof (lay_total _ Hlay). destruct (whole_blk v b Hw Hb) as [E _].
  eapply wp_mono; [apply write_block_spec; [done|lia|done|done]|]. intros rc s' H'. by rewrite E in H'.
Qed.

(** *** The bitmaps *)

Lemma bitmap_alloc_spec s v bm limit first :
  dsees s v → whole v → 0 ≤ bm < sb_total_blocks sb → 0 ≤ first → limit ≤ BITS →
  wp (hnxfs_bitmap_alloc bm limit first) s (λ r s',
    (r = -1 ∧ (∀ k, first ≤ k < limit → bit_at (blk v bm) k = true) ∧ dsees s' v) ∨
    (first ≤ r < limit ∧ bit_at (blk v bm) r = false ∧ (∀ k, first ≤ k < r → bit_at (blk v bm) k = true) ∧
     dsees s' (<[bm := set_bit (blk v bm) r]> v))).
Proof.
  intros Hs Hw Hb Hf Hl. unfold hnxfs_bitmap_alloc. destruct (whole_blk v bm Hw Hb) as (_ & Hz & Hy).
  wstep read_blk; [done|done|done|]. intros r s1 [-> Hs1].
  destruct (decide (first ≤ limit)) as [Hfl|Hfl].
  2: { unfold seek. replace (Z.to_nat (limit - first)) with O by lia. cbn [seek_up]. eapply wp_step; [by apply (wp_ret _ s1 (λ r s, r = inl tt ∧ dsees s v))|].
       intros r s2 [-> Hs2]. apply wp_ret. left. split_and!; [done|lia|done]. }
  wstep (wp_seek (λ i (_ : unit) s, dsees s v ∧ ∀ k, first ≤ k < i → bit_at (blk v bm) k = true)
    (λ r s, first ≤ r < limit ∧ bit_at (blk v bm) r = false ∧ (∀ k, first ≤ k < r → bit_at (blk v bm) k = true) ∧
       dsees s (<[bm := set_bit (blk v bm) r]> v))); [done| | |].
  - intros i [] s2 Hi [Hs2 Hk]. unfold hnxfs_bitmap_step. eapply wp_lift_bind; [apply aget_bit; [done|lia]|].
    rewrite test_bit by lia. destruct (bit_at (blk v bm) i) eqn:Ei; cbn [negb].
    + apply wp_ret. split; [done|]. intros k Hk'. destruct (decide (k = i)) as [->|]; [done|apply Hk; lia].
    + assert (u8 (Z.shiftl 1 (Z.land i 7)) = 2 ^ (i mod 8)) as ->.
      { rewrite shift_bit. apply u8_small. split; [lia|]. apply Z.pow_lt_mono_r; zlia. }
      rewrite Z.shiftr_div_pow2 by lia. change (2 ^ 3) with 8. destruct (bit_byte (blk v bm) Hz i) as [Hi8 _]; [lia|].
      eapply wp_lift_bind; [by apply aset_in|]. fold (set_bit (blk v bm) i). destruct (set_bit_block (blk v bm) Hz Hy i) as [H1 H2]; [lia|].
      wstep write_blk; [done|done|done|done|done|]. intros rc s3 [-> Hs3]. apply wp_ret. cbn [Z.eqb negb]. split_and!; [lia|lia|done|done|done].
  - split; [done|]. lia.
  - intros [[]|r] s2 H; apply wp_ret; [left|right]; [by destruct H|done].
Qed.

Lemma bitmap_free_spec s v bm k :
  dsees s v → whole v → 0 ≤ bm < sb_total_blocks sb → 0 ≤ k < BITS →
  wp (hnxfs_bitmap_free bm k) s (λ _ s', dsees s' (<[bm := clear_bit (blk v bm) k]> v)).
Proof.
  intros Hs Hw Hb Hk. unfold hnxfs_bitmap_free. destruct (whole_blk v bm Hw Hb) as (_ & Hz & Hy).
  wstep read_blk; [done|done|done|]. intros r s1 [-> Hs1].
  eapply wp_lift_bind; [by apply aget_bit|]. rewrite shift_bit, Z.shiftr_div_pow2 by lia. change (2 ^ 3) with 8.
  destruct (bit_byte (blk v bm) Hz k) as [Hi8 _]; [lia|]. eapply wp_lift_bind; [by apply aset_in|].
  fold (clear_bit (blk v bm) k). destruct (clear_bit_block (blk v bm) Hz Hy k) as [H1 H2]; [lia|].
  wstep write_blk; [done|done|done|done|done|]. intros rc s3 [-> Hs3]. by apply wp_ret.
Qed.

(** *** Inodes *)

Definition inode_block (num : Z) : Z := sb_inode_table_block sb + num / HNXFS_INODES_PER_BLOCK.
Definition inode_pos (num : Z) : Z := num mod HNXFS_INODES_PER_BLOCK * HNXFS_INODE_SIZE.
Definition itab v (num : Z) : hnxfs_inode := decode_inode (zslice (blk v (inode_block num)) (inode_pos num) HNXFS_INODE_SIZE).
Definition put_inode v (num : Z) (ino : hnxfs_inode) : gmap Z (list Z) :=
  <[inode_block num := zsplice (blk v (inode_block num)) (inode_pos num) (encode_inode ino)]> v.

Definition is_inode (num : Z) : Prop := 1 ≤ num < sb_inode_count sb.

Lemma inode_block_in num : is_inode num →
  sb_inode_table_block sb ≤ inode_block num < sb_inode_table_block sb + sb_inode_table_blocks sb ∧
  u64 (sb_inode_table_block sb + num / HNXFS_INODES_PER_BLOCK) = inode_block num ∧ 0 ≤ inode_block num < sb_total_blocks sb ∧
  0 ≤ inode_pos num ∧ inode_pos num + HNXFS_INODE_SIZE ≤ HNXFS_BLOCK_SIZE.
Proof.
  intros Hn. destruct Hlay. unfold is_inode, inode_block, inode_pos, HNXFS_INODES_PER_BLOCK, HNXFS_INODE_SIZE, HNXFS_BLOCK_SIZE, DISK_MAX in *.
  rewrite u64_small; zlia.
Qed.

Lemma itab_fits v num : whole v → is_inode num → inode_fits (itab v num).
Proof.
  intros Hw Hn. destruct (inode_block_in num Hn) as (_ & _ & Hb & Hp & Hp2). destruct (whole_blk v _ Hw Hb) as (_ & Hz & Hy).
  apply decode_inode_fits; [by apply bytes_zslice|]. apply zlen_zslice; unfold HNXFS_INODE_SIZE, HNXFS_BLOCK_SIZE in *; lia.
Qed.

Lemma itab_put v a c ino :
  whole v → is_inode a → is_inode c → inode_fits ino → itab (put_inode v a ino) c = if decide (c = a) then ino else itab v c.
Proof.
  intros Hw Ha Hc Hi. destruct (inode_block_in a Ha) as (_ & _ & Hb & Hp & Hp2). destruct (inode_block_in c Hc) as (_ & _ & Hb' & Hp' & Hp2').
  destruct (whole_blk v _ Hw Hb) as (_ & Hz & Hy). assert (zlen (encode_inode ino) = HNXFS_INODE_SIZE) as He by (apply zlen_encode_inode, Hi).
  unfold itab, put_inode. destruct (decide (inode_block a = inode_block c)) as [E|E].
  - rewrite <-E, blk_insert. dec_if as H.
    + subst c. rewrite <-He, zslice_zsplice by lia. by apply decode_encode_inode.
    + rewrite zslice_zsplice_ne; [done|lia|lia|lia|]. rewrite He. unfold inode_block, inode_pos, HNXFS_INODE_SIZE, HNXFS_INODES_PER_BLOCK, is_inode in *. zlia.
  - rewrite blk_insert_ne by done. rewrite decide_False; [done|]. congruence.
Qed.

Lemma put_inode_whole v num ino : whole v → is_inode num → inode_fits ino → whole (put_inode v num ino).
Proof.
  intros Hw Hn Hi. destruct (inode_block_in num Hn) as (_ & _ & Hb & Hp & Hp2). destruct (whole_blk v _ Hw Hb) as (_ & Hz & Hy).
  assert (zlen (encode_inode ino) = HNXFS_INODE_SIZE) as He by (apply zlen_encode_inode, Hi).
  apply whole_insert; [done|rewrite zlen_zsplice; [done|lia|lia]|apply bytes_zsplice; [done|apply bytes_encode_inode]].
Qed.

Lemma read_inode_spec s v num :
  dsees s v → whole v → is_inode num → wp (hnxfs_read_inode sb num) s (λ r s', r = inr (itab v num) ∧ dsees s' v).
Proof.
  intros Hs Hw Hn. unfold hnxfs_read_inode. destruct (inode_block_in num Hn) as (_ & E & Hb & _).
  unfold is_inode in Hn. destruct (Z.eqb_spec num 0), (Z.leb_spec (sb_inode_count sb) num); try lia. cbn [orb]. rewrite E.
  wstep read_blk; [done|done|done|]. intros r s1 [-> Hs1]. by apply wp_ret.
Qed.

Lemma read_inode_bad s v num :
  ¬ is_inode num → 0 ≤ num → wp (hnxfs_read_inode sb num) s (λ r s', r = inl (- SYS_EINVAL) ∧ s' = s).
Proof.
  intros Hn H0. unfold hnxfs_read_inode, is_inode in *. destruct (Z.eqb_spec num 0), (Z.leb_spec (sb_inode_count sb) num); try lia; by apply wp_ret.
Qed.

Lemma write_inode_spec s v num ino :
  dsees s v → whole v → is_inode num → inode_fits ino → wp (hnxfs_write_inode sb num ino) s (λ rc s', rc = 0 ∧ dsees s' (put_inode v num ino)).
Proof.
  intros Hs Hw Hn Hi. unfold hnxfs_write_inode. destruct (inode_block_in num Hn) as (_ & E & Hb & Hp & Hp2).
  pose proof (put_inode_whole v num ino Hw Hn Hi) as Hw'. destruct (whole_blk v _ Hw Hb) as (_ & Hz & Hy).
  assert (zlen (encode_inode ino) = HNXFS_INODE_SIZE) as He by (apply zlen_encode_inode, Hi).
  unfold is_inode in Hn. destruct (Z.eqb_spec num 0), (Z.leb_spec (sb_inode_count sb) num); try lia. cbn [orb]. rewrite E.
  wstep read_blk; [done|done|done|]. intros r s1 [-> Hs1]. fold (inode_pos num).
  eapply wp_lift_bind; [apply memcpy_from_spec; unfold HNXFS_INODE_SIZE, HNXFS_BLOCK_SIZE in *; lia|].
  rewrite (zslice_all (encode_inode ino)) by done. destruct Hw' as [_ Hw'].
  destruct (Hw' (inode_block num) (zsplice (blk v (inode_block num)) (inode_pos num) (encode_inode ino))) as [H1 H2]; [apply lookup_insert_eq|].
  wstep write_blk; [done|done|done|done|done|]. intros rc s2 [-> Hs2]. by apply wp_ret.
Qed.

(** *** Data blocks *)

Definition dbit v (k : Z) : bool := bit_at (blk v (sb_data_bitmap_block sb)) k.

(** [v] with data block [k] taken and zeroed, and with it free again. *)
Definition claim_block v (k : Z) : gmap Z (list Z) :=
  <[sb_data_block_start sb + k := g_zero_block]> (<[sb_data_bitmap_block sb := set_bit (blk v (sb_data_bitmap_block sb)) k]> v).
Definition drop_block v (k : Z) : gmap Z (list Z) :=
  <[sb_data_bitmap_block sb := clear_bit (blk v (sb_data_bitmap_block sb)) k]> v.

Lemma dbm_in : 0 ≤ sb_data_bitmap_block sb < sb_total_blocks sb.
Proof. destruct Hlay. unfold HNXFS_INODES_PER_BLOCK in *. lia. Qed.
Lemma ibm_in : 0 ≤ sb_inode_bitmap_block sb < sb_total_blocks sb.
Proof. destruct Hlay. unfold HNXFS_INODES_PER_BLOCK in *. lia. Qed.

Lemma zero_block : zlen g_zero_block = HNXFS_BLOCK_SIZE ∧ bytes g_zero_block.
Proof. split; [apply zlen_replicate|]. by apply Forall_replicate. Qed.

Lemma alloc_block_spec s v :
  dsees s v → whole v →
  wp (hnxfs_alloc_block sb) s (λ r s',
    (r = 0 ∧ (∀ k, 0 ≤ k < sb_data_block_count sb → dbit v k = true) ∧ dsees s' v) ∨
    (∃ k, r = sb_data_block_start sb + k ∧ r ≠ 0 ∧ 0 ≤ k < sb_data_block_count sb ∧ dbit v k = false ∧ dsees s' (claim_block v k))).
Proof.
  intros Hs Hw. unfold hnxfs_alloc_block. pose proof dbm_in as Hdb. destruct (whole_blk v _ Hw Hdb) as (_ & Hz & Hy).
  wstep bitmap_alloc_spec; [done|done|done|lia|apply (lay_dbits _ Hlay)|]. intros r s1 [(-> & Hall & Hs1)|(Hr & Hbit & _ & Hs1)].
  - apply wp_ret. by left.
  - destruct (Z.ltb_spec r 0); [lia|]. pose proof (lay_dbits _ Hlay).
    assert (0 ≤ sb_data_block_start sb + r < sb_total_blocks sb ∧ sb_data_block_start sb ≠ 0) as [Hin Hnz] by (destruct Hlay; unfold HNXFS_INODES_PER_BLOCK in *; lia).
    destruct (set_bit_block _ Hz Hy r) as [H1 H2]; [lia|]. destruct zero_block as [Z1 Z2].
    rewrite u64_small by (destruct Hlay; unfold DISK_MAX in *; lia).
    wstep write_blk; [done|by apply whole_insert|done|done|done|]. intros rc s2 [-> Hs2]. apply wp_ret. right. exists r.
    split_and!; [done|destruct Hlay; unfold HNXFS_INODES_PER_BLOCK in *; lia|lia|lia|done|done].
Qed.

Lemma free_block_spec s v k :
  dsees s v → whole v → 0 ≤ k < sb_data_block_count sb →
  wp (hnxfs_free_block sb (sb_data_block_start sb + k)) s (λ _ s', dsees s' (drop_block v k)).
Proof.
  intros Hs Hw Hk. unfold hnxfs_free_block. destruct (Z.ltb_spec (sb_data_block_start sb + k) (sb_data_block_start sb)); [lia|].
  replace (sb_data_block_start sb + k - sb_data_block_start sb) with k by lia. pose proof (lay_dbits _ Hlay).
  apply bitmap_free_spec; [done|done|apply dbm_in|lia].
Qed.

Lemma claim_block_whole v k : whole v → 0 ≤ k < sb_data_block_count sb → whole (claim_block v k).
Proof.
  intros Hw Hk. destruct (whole_blk v _ Hw dbm_in) as (_ & Hz & Hy). pose proof (lay_dbits _ Hlay).
  destruct (set_bit_block _ Hz Hy k) as [H1 H2]; [lia|]. destruct zero_block. by repeat apply whole_insert.
Qed.

Lemma drop_block_whole v k : whole v → 0 ≤ k < sb_data_block_count sb → whole (drop_block v k).
Proof.
  intros Hw Hk. destruct (whole_blk v _ Hw dbm_in) as (_ & Hz & Hy). pose proof (lay_dbits _ Hlay).
  destruct (clear_bit_block _ Hz Hy k) as [H1 H2]; [lia|]. by apply whole_insert.
Qed.

(** ** Files *)

Definition is_data (p : Z) : Prop := sb_data_block_start sb ≤ p < sb_data_block_start sb + sb_data_block_count sb.

(** [p] is the block of the file at index [b]. *)
Definition ptr (ino : hnxfs_inode) (b p : Z) : Prop := 0 ≤ b < HNXFS_DIRECT ∧ in_direct ino !! Z.to_nat b = Some p ∧ p ≠ 0.

(** The inodes [T] and the data bitmap fit together. *)
Record owned (T : Z → hnxfs_inode) v : Prop := {
  ow_fits num : is_inode num → inode_fits (T num) ∧ in_blocks (T num) ≤ HNXFS_DIRECT;
  ow_hole num b p : is_inode num → ptr (T num) b p → b < in_blocks (T num);
  ow_data num b p : is_inode num → ptr (T num) b p → is_data p ∧ dbit v (p - sb_data_block_start sb) = true;
  ow_inj i b j c p : is_inode i → is_inode j → ptr (T i) b p → ptr (T j) c p → i = j ∧ b = c
}.

(** The byte of the file at [pos]; holes are zero. *)
Definition fbyte v (ino : hnxfs_inode) (pos : Z) : Z :=
  match in_direct ino !! Z.to_nat (pos / HNXFS_BLOCK_SIZE) with
  | Some p => if p =? 0 then 0 else blk v p !!! Z.to_nat (pos mod HNXFS_BLOCK_SIZE)
  | None => 0
  end.

Definition fdata v (ino : hnxfs_inode) : list Z := fbyte v ino <$> seqZ 0 (in_size ino).

Definition fs_ok v : Prop :=
  whole v ∧ owned (itab v) v ∧ ∀ num pos, is_inode num → in_size (itab v num) ≤ pos → fbyte v (itab v num) pos = 0.

Definition full v : Prop := ∀ k, 0 ≤ k < sb_data_block_count sb → dbit v k = true.

(** [v'] differs from [v] in data blocks and their bitmap only, and no file of [T] but [num] is touched. *)
Definition frame (T : Z → hnxfs_inode) (num : Z) v v' : Prop :=
  (∀ c, ¬ is_data c → c ≠ sb_data_bitmap_block sb → v' !! c = v !! c) ∧
  (∀ j pos, is_inode j → j ≠ num → 0 ≤ pos → fbyte v' (T j) pos = fbyte v (T j) pos).

Definition upd (T : Z → hnxfs_inode) (num : Z) (ino : hnxfs_inode) (j : Z) : hnxfs_inode := if decide (j = num) then ino else T j.

Lemma upd_eq T num ino : upd T num ino num = ino.
Proof. unfold upd. by rewrite decide_True. Qed.
Lemma upd_ne T num ino j : j ≠ num → upd T num ino j = T j.
Proof. intros H. unfold upd. by rewrite decide_False. Qed.

Lemma frame_refl T num v : frame T num v v.
Proof. by split. Qed.
Lemma frame_trans T num v1 v2 v3 : frame T num v1 v2 → frame T num v2 v3 → frame T num v1 v3.
Proof. intros [A1 B1] [A2 B2]. split; intros; [rewrite A2, A1|rewrite B2, B1]; done. Qed.

Lemma data_in p : is_data p → 0 ≤ p < sb_total_blocks sb ∧ p ≠ sb_data_bitmap_block sb ∧ p ≠ 0 ∧ sb_inode_table_block sb + sb_inode_table_blocks sb ≤ p.
Proof. intros H. destruct Hlay. unfold is_data, HNXFS_INODES_PER_BLOCK in *. lia. Qed.

Lemma not_data_block num : is_inode num → ¬ is_data (inode_block num) ∧ inode_block num ≠ sb_data_bitmap_block sb.
Proof. intros Hn. destruct (inode_block_in num Hn) as [H _]. destruct Hlay. unfold is_data. lia. Qed.

Lemma itab_frame T num v v' j : frame T num v v' → is_inode j → itab v' j = itab v j.
Proof. intros [H _] Hj. destruct (not_data_block j Hj). unfold itab, blk. by rewrite H. Qed.

Lemma fbyte_ext v v' ino pos : (∀ b p, ptr ino b p → blk v' p = blk v p) → 0 ≤ pos → zlen (in_direct ino) = HNXFS_DIRECT → fbyte v' ino pos = fbyte v ino pos.
Proof.
  intros H Hp Hl. unfold fbyte. destruct (in_direct ino !! _) as [p|] eqn:E; [|done]. destruct (Z.eqb_spec p 0); [done|].
  rewrite (H (pos / HNXFS_BLOCK_SIZE) p); [done|]. apply lookup_lt_Some in E as Hlt. unfold ptr, zlen in *.
  split; [|done]. unfold HNXFS_BLOCK_SIZE in *. zlia.
Qed.

Lemma ptr_pos v T num b p : owned T v → is_inode num → ptr (T num) b p → 0 ≤ p < sb_total_blocks sb ∧ p ≠ sb_data_bitmap_block sb.
Proof. intros Ho Hn Hp. destruct (ow_data _ _ Ho num b p Hn Hp) as [Hd _]. destruct (data_in p Hd) as (? & ? & _). done. Qed.

(** *** A new block *)

Lemma claim_block_dbit v k j :
  whole v → 0 ≤ k < sb_data_block_count sb → 0 ≤ j < sb_data_block_count sb → dbit (claim_block v k) j = bool_decide (j = k) || dbit v j.
Proof.
  intros Hw Hk Hj. destruct (whole_blk v _ Hw dbm_in) as (_ & Hz & Hy). pose proof (lay_dbits _ Hlay).
  destruct (data_in (sb_data_block_start sb + k)) as (_ & Hne & _); [unfold is_data; lia|].
  unfold dbit, claim_block. rewrite blk_insert_ne, blk_insert by done. apply set_bit_spec; [done|lia|lia].
Qed.

Lemma claim_block_blk v k c : c ≠ sb_data_bitmap_block sb → c ≠ sb_data_block_start sb + k → blk (claim_block v k) c = blk v c.
Proof. intros H1 H2. unfold claim_block. by rewrite !blk_insert_ne. Qed.

(** A free block has no owner. *)
Lemma claim_block_fbyte v k T num pos :
  owned T v → is_inode num → dbit v k = false → 0 ≤ pos → fbyte (claim_block v k) (T num) pos = fbyte v (T num) pos.
Proof.
  intros Ho Hn Hk Hp. destruct (ow_fits _ _ Ho num Hn) as [(_ & _ & _ & _ & _ & Hl & _) _]. apply fbyte_ext; [|done|done].
  intros b p Hptr. destruct (ow_data _ _ Ho num b p Hn Hptr) as [Hd Hb]. destruct (data_in p Hd) as (_ & Hne & _).
  apply claim_block_blk; [done|]. intros ->. replace (sb_data_block_start sb + k - sb_data_block_start sb) with k in Hb by lia. congruence.
Qed.

Definition give_block (ino : hnxfs_inode) (b p : Z) : hnxfs_inode :=
  let ino := set_direct ino (<[Z.to_nat b := p]> (in_direct ino)) in
  if in_blocks ino <? b + 1 then set_blocks ino (b + 1) else ino.

Lemma give_block_direct ino b p : in_direct (give_block ino b p) = <[Z.to_nat b := p]> (in_direct ino).
Proof. unfold give_block. by destruct (_ <? _). Qed.

Lemma give_block_fields ino b p :
  in_type (give_block ino b p) = in_type ino ∧ in_mode (give_block ino b p) = in_mode ino ∧ in_size (give_block ino b p) = in_size ino ∧
  in_mtime (give_block ino b p) = in_mtime ino ∧ in_blocks (give_block ino b p) = Z.max (in_blocks ino) (b + 1).
Proof. unfold give_block. cbn [set_direct in_blocks]. destruct (Z.ltb_spec (in_blocks ino) (b + 1)); cbn; split_and!; try done; lia. Qed.

Lemma give_block_fits ino b p : inode_fits ino → 0 ≤ b < HNXFS_DIRECT → is_u64 p → inode_fits (give_block ino b p).
Proof.
  intros (H1 & H2 & H3 & H4 & H5 & H6 & H7) Hb Hp. destruct (give_block_fields ino b p) as (E1 & E2 & E3 & E4 & E5).
  unfold inode_fits. rewrite E1, E2, E3, E4, E5, give_block_direct, zlen_insert. split_and!; try done.
  - unfold is_u64, HNXFS_DIRECT in *. lia.
  - by apply Forall_insert.
Qed.

Lemma give_block_ptr ino b p c q : zlen (in_direct ino) = HNXFS_DIRECT → 0 ≤ b < HNXFS_DIRECT →
  ptr (give_block ino b p) c q ↔ (c = b ∧ q = p ∧ p ≠ 0) ∨ (c ≠ b ∧ ptr ino c q).
Proof.
  intros Hl Hb. unfold ptr. rewrite give_block_direct. destruct (decide (c = b)) as [->|Hc].
  - rewrite list_lookup_insert_eq by (unfold zlen in Hl; lia). naive_solver.
  - split.
    + intros (H1 & H2 & H3). rewrite list_lookup_insert_ne in H2 by lia. naive_solver.
    + intros [?|(_ & H1 & H2 & H3)]; [naive_solver|]. rewrite list_lookup_insert_ne by lia. done.
Qed.

Lemma owned_give T v num b k :
  owned T v → whole v → is_inode num → 0 ≤ b < HNXFS_DIRECT → 0 ≤ k < sb_data_block_count sb → dbit v k = false →
  owned (upd T num (give_block (T num) b (sb_data_block_start sb + k))) (claim_block v k).
Proof.
  intros Ho Hw Hn Hb Hk Hbit. destruct (ow_fits _ _ Ho num Hn) as [Hf Hbl]. pose proof Hf as (_ & _ & _ & _ & _ & Hl & _).
  set (p := sb_data_block_start sb + k). set (ino := give_block (T num) b p).
  assert (is_data p) as Hpd by (unfold is_data, p; lia). destruct (data_in p Hpd) as (Hpin & _ & Hp0 & _).
  assert (in_blocks ino = Z.max (in_blocks (T num)) (b + 1)) as Eb by apply give_block_fields.
  assert (∀ j c q, is_inode j → ptr (upd T num ino j) c q → (j = num ∧ c = b ∧ q = p) ∨ (ptr (T j) c q ∧ q ≠ p)) as Hcase.
  { intros j c q Hj Hq. assert (∀ c, ¬ ptr (T j) c p) as Hno.
    { intros c' Hc'. destruct (ow_data _ _ Ho j c' p Hj Hc') as [_ Hbp]. replace (p - sb_data_block_start sb) with k in Hbp by (unfold p; lia). congruence. }
    unfold upd in Hq. destruct (decide (j = num)) as [->|].
    - apply give_block_ptr in Hq as [(-> & -> & _)|[_ Hq]]; [by left| |done|done]. right. split; [done|]. intros ->. by eapply Hno.
    - right. split; [done|]. intros ->. by eapply Hno. }
  split.
  - intros j Hj. destruct (decide (j = num)) as [->|]; [|by rewrite upd_ne; auto; apply Ho].
    rewrite upd_eq. split; [apply give_block_fits; [done|done|]|].
    + unfold is_u64. pose proof (lay_total _ Hlay). unfold DISK_MAX in *. lia.
    + rewrite Eb. lia.
  - intros j c q Hj Hq. destruct (Hcase j c q Hj Hq) as [(-> & -> & ->)|[Hq' _]].
    + rewrite upd_eq. rewrite Eb. lia.
    + pose proof (ow_hole _ _ Ho j c q Hj Hq'). unfold upd. dec_if; [subst j|done]. rewrite Eb. lia.
  - intros j c q Hj Hq. destruct (Hcase j c q Hj Hq) as [(-> & -> & ->)|[Hq' _]].
    + split; [done|]. replace (p - sb_data_block_start sb) with k by (unfold p; lia). rewrite claim_block_dbit by done. by rewrite bool_decide_true.
    + destruct (ow_data _ _ Ho j c q Hj Hq') as [Hd Hb']. split; [done|]. unfold is_data in Hd. rewrite claim_block_dbit by (done || lia). rewrite Hb'. apply orb_true_r.
  - intros i1 b1 j c q Hi Hj Hq1 Hq2. destruct (Hcase i1 b1 q Hi Hq1) as [(E1 & E2 & E3)|[Hq1' Hn1]], (Hcase j c q Hj Hq2) as [(F1 & F2 & F3)|[Hq2' Hn2]];
      [split; congruence|congruence|congruence|]. by apply (ow_inj _ _ Ho i1 b1 j c q).
Qed.

(** The invariant looks at the pointers of the inodes and the bitmap only. *)
Lemma owned_same T T' v v' :
  (∀ j, is_inode j → in_direct (T' j) = in_direct (T j) ∧ in_blocks (T' j) = in_blocks (T j) ∧ inode_fits (T' j)) →
  (∀ k, 0 ≤ k < sb_data_block_count sb → dbit v' k = dbit v k) → owned T v → owned T' v'.
Proof.
  intros HT Hv Ho. assert (∀ j b p, is_inode j → ptr (T' j) b p → ptr (T j) b p) as Hp.
  { intros j b p Hj. unfold ptr. by destruct (HT j Hj) as [-> _]. }
  split.
  - intros j Hj. destruct (HT j Hj) as (_ & -> & Hf). split; [done|]. by apply Ho.
  - intros j b p Hj Hq. destruct (HT j Hj) as (_ & -> & _). apply (ow_hole _ _ Ho j b p); auto.
  - intros j b p Hj Hq. destruct (ow_data _ _ Ho j b p) as [Hd Hb]; [auto..|]. split; [done|]. unfold is_data in Hd. by rewrite Hv by lia.
  - intros i b j c p Hi Hj H1 H2. apply (ow_inj _ _ Ho i b j c p); auto.
Qed.

Lemma owned_ext T T' v v' :
  (∀ j, is_inode j → T' j = T j) → (∀ k, 0 ≤ k < sb_data_block_count sb → dbit v' k = dbit v k) → owned T v → owned T' v'.
Proof.
  intros HT Hv Ho. apply (owned_same T _ v); [|done|done]. intros j Hj. rewrite HT by done. split_and!; try done. by apply Ho.
Qed.

Lemma frame_upd T num ino v v' : frame T num v v' ↔ frame (upd T num ino) num v v'.
Proof. split; intros [H1 H2]; split; try done; intros j pos Hj Hne; specialize (H2 j pos Hj Hne); by rewrite upd_ne in *. Qed.

Lemma claim_block_frame T num v k :
  owned T v → 0 ≤ k < sb_data_block_count sb → dbit v k = false → frame T num v (claim_block v k).
Proof.
  intros Ho Hk Hb. split.
  - intros c Hd Hc. unfold claim_block. rewrite !lookup_insert_ne; [done|done|]. intros <-. apply Hd. unfold is_data. lia.
  - intros j pos Hj _ Hp. by apply claim_block_fbyte.
Qed.

Lemma claim_block_give v T num b k pos :
  owned T v → is_inode num → 0 ≤ b < HNXFS_DIRECT → in_direct (T num) !! Z.to_nat b = Some 0 → 0 ≤ k < sb_data_block_count sb →
  dbit v k = false → 0 ≤ pos → fbyte (claim_block v k) (give_block (T num) b (sb_data_block_start sb + k)) pos = fbyte v (T num) pos.
Proof.
  intros Ho Hn Hb Hd Hk Hbit Hp. rewrite <-(claim_block_fbyte v k T num pos) by done.
  destruct (ow_fits _ _ Ho num Hn) as [(_ & _ & _ & _ & _ & Hl & _) _]. unfold fbyte. rewrite give_block_direct.
  assert (0 ≤ pos / HNXFS_BLOCK_SIZE) by (apply Z.div_pos; unfold HNXFS_BLOCK_SIZE; lia).
  rewrite lookup_insert_Z by lia. dec_if as E; [|done]. rewrite <-E, Hd. cbn [Z.eqb].
  destruct (Z.eqb_spec (sb_data_block_start sb + k) 0); [done|]. unfold claim_block. rewrite blk_insert. unfold g_zero_block.
  apply lookup_total_replicate_2. unfold HNXFS_BLOCK_SIZE. pose proof (Z.mod_pos_bound pos 4096). lia.
Qed.

(** The two inodes differ in their blocks only. *)
Definition alike (i1 i2 : hnxfs_inode) : Prop :=
  in_type i2 = in_type i1 ∧ in_mode i2 = in_mode i1 ∧ in_size i2 = in_size i1 ∧ in_mtime i2 = in_mtime i1.

Lemma ensure_block_spec s v T num b :
  dsees s v → whole v → owned T v → is_inode num → 0 ≤ b < HNXFS_DIRECT →
  wp (ensure_block sb (T num) b) s (λ r s', ∃ v', dsees s' v' ∧ whole v' ∧ frame T num v v' ∧
    match r with
    | None => full v ∧ v' = v
    | Some ino => alike (T num) ino ∧ owned (upd T num ino) v' ∧ (∃ p, ptr ino b p) ∧ ∀ pos, 0 ≤ pos → fbyte v' ino pos = fbyte v (T num) pos
    end).
Proof.
  intros Hs Hw Ho Hn Hb. destruct (ow_fits _ _ Ho num Hn) as [(_ & _ & _ & _ & _ & Hl & _) Hbl]. unfold ensure_block.
  destruct (aget_in (in_direct (T num)) b) as (p & Hp & Ep); [lia|]. eapply wp_lift_bind; [exact Ep|].
  destruct (Z.eqb_spec p 0) as [->|Hp0].
  - wstep alloc_block_spec; [done|done|]. intros r s1 [(-> & Hfull & Hs1)|(k & -> & Hr0 & Hk & Hbit & Hs1)].
    + apply wp_ret. exists v. split_and!; try done.
    + destruct (Z.eqb_spec (sb_data_block_start sb + k) 0); [done|]. eapply wp_lift_bind; [apply aset_in; lia|].
      apply wp_ret. fold (give_block (T num) b (sb_data_block_start sb + k)). exists (claim_block v k).
      split; [done|]. split; [by apply claim_block_whole|]. split; [by apply claim_block_frame|].
      split; [destruct (give_block_fields (T num) b (sb_data_block_start sb + k)) as (? & ? & ? & ? & _); done|].
      split; [by apply owned_give|]. split; [|intros pos Hpos; by apply claim_block_give].
      exists (sb_data_block_start sb + k). apply give_block_ptr; [done|done|]. by left.
  - apply wp_ret. exists v. split_and!; try done.
    + apply (owned_ext T _ v); [|done|done]. intros j _. unfold upd. dec_if; [by subst|done].
    + exists p. done.
Qed.

(** *** Writing a block of a file *)

Lemma data_write T v num b p x :
  whole v → owned T v → is_inode num → ptr (T num) b p → zlen x = HNXFS_BLOCK_SIZE → bytes x →
  whole (<[p := x]> v) ∧ owned T (<[p := x]> v) ∧ frame T num v (<[p := x]> v) ∧
  ∀ pos, 0 ≤ pos → fbyte (<[p := x]> v) (T num) pos =
    if decide (pos / HNXFS_BLOCK_SIZE = b) then x !!! Z.to_nat (pos mod HNXFS_BLOCK_SIZE) else fbyte v (T num) pos.
Proof.
  intros Hw Ho Hn Hp Hx Hy. destruct (ow_data _ _ Ho num b p Hn Hp) as [Hd _]. destruct (data_in p Hd) as (_ & Hne & _).
  assert (∀ j c q, is_inode j → ptr (T j) c q → (j ≠ num ∨ c ≠ b) → blk (<[p := x]> v) q = blk v q) as Hother.
  { intros j c q Hj Hq Hjc. apply blk_insert_ne. intros ->. destruct (ow_inj _ _ Ho num b j c q Hn Hj Hp Hq). naive_solver. }
  split; [by apply whole_insert|]. split; [|split].
  - apply (owned_ext T _ v); [done| |done]. intros k Hk. unfold dbit. by rewrite blk_insert_ne.
  - split; [intros c Hc _; rewrite lookup_insert_ne; [done|congruence]|]. intros j pos Hj Hjn Hpos.
    destruct (ow_fits _ _ Ho j Hj) as [(_ & _ & _ & _ & _ & Hl & _) _]. apply fbyte_ext; [|done|done]. intros c q Hq. apply (Hother j c); eauto.
  - intros pos Hpos. unfold fbyte. dec_if as E.
    + rewrite E. destruct Hp as (_ & -> & Hp0). destruct (Z.eqb_spec p 0); [done|]. by rewrite blk_insert.
    + destruct (in_direct (T num) !! Z.to_nat (pos / HNXFS_BLOCK_SIZE)) as [q|] eqn:Eq; [|done]. destruct (Z.eqb_spec q 0); [done|].
      destruct (ow_fits _ _ Ho num Hn) as [(_ & _ & _ & _ & _ & Hl & _) _]. apply lookup_lt_Some in Eq as Hlt.
      assert (0 ≤ pos / HNXFS_BLOCK_SIZE) by (apply Z.div_pos; unfold HNXFS_BLOCK_SIZE; lia).
      rewrite (Hother num (pos / HNXFS_BLOCK_SIZE) q); [done|done| |by right]. split; [unfold zlen in Hl; lia|done].
Qed.

Lemma chunk_at_spec pos left : 0 ≤ pos → 0 < left →
  0 < chunk_at pos left ≤ left ∧ pos mod HNXFS_BLOCK_SIZE + chunk_at pos left ≤ HNXFS_BLOCK_SIZE ∧ 0 ≤ pos mod HNXFS_BLOCK_SIZE.
Proof. intros Hp Hl. unfold chunk_at, HNXFS_BLOCK_SIZE. pose proof (Z.mod_pos_bound pos 4096). destruct (Z.ltb_spec left (4096 - pos mod 4096)); lia. Qed.

(** *** [hnxfs_file_write] *)

Section Write.
Context (T : Z → hnxfs_inode) (num : Z) (Hnum : is_inode num) (v0 : gmap Z (list Z)).
Context (buf : list Z) (size offset : Z).
Context (Hbuf : bytes buf) (Hsize : 0 ≤ size ≤ zlen buf) (Hoff : 0 ≤ offset) (Hend : offset + size < 2 ^ 64).

(** The file after the first [done] bytes. *)
Definition written (done pos : Z) : Z :=
  if decide (offset ≤ pos < offset + done) then buf !!! Z.to_nat (pos - offset) else fbyte v0 (T num) pos.

Definition writing (l : Z * hnxfs_inode) v : Prop :=
  whole v ∧ owned (upd T num l.2) v ∧ frame T num v0 v ∧ alike (T num) l.2 ∧ 0 ≤ l.1 ≤ size ∧
  ∀ pos, 0 ≤ pos → fbyte v l.2 pos = written l.1 pos.

Lemma written_step done chunk x y pos :
  0 ≤ pos → 0 ≤ done → 0 < chunk → done + chunk ≤ size → let p0 := offset + done in let w := p0 mod HNXFS_BLOCK_SIZE in
  w + chunk ≤ HNXFS_BLOCK_SIZE → zlen x = HNXFS_BLOCK_SIZE →
  (pos / HNXFS_BLOCK_SIZE = p0 / HNXFS_BLOCK_SIZE → x !!! Z.to_nat (pos mod HNXFS_BLOCK_SIZE) = written done pos) →
  (pos / HNXFS_BLOCK_SIZE ≠ p0 / HNXFS_BLOCK_SIZE → y = written done pos) →
  (if decide (pos / HNXFS_BLOCK_SIZE = p0 / HNXFS_BLOCK_SIZE)
   then zsplice x w (zslice buf done chunk) !!! Z.to_nat (pos mod HNXFS_BLOCK_SIZE) else y) = written (done + chunk) pos.
Proof.
  intros Hp Hd Hc Hdc p0 w Hw Hx Hin Hout. assert (0 ≤ p0) as Hp0 by (unfold p0; lia).
  pose proof (Z.mod_pos_bound pos HNXFS_BLOCK_SIZE) as M1. pose proof (Z.mod_pos_bound p0 HNXFS_BLOCK_SIZE) as M2.
  pose proof (Z.div_mod pos HNXFS_BLOCK_SIZE) as D1. pose proof (Z.div_mod p0 HNXFS_BLOCK_SIZE) as D2. fold w in M2, D2.
  unfold HNXFS_BLOCK_SIZE in *. assert (zlen (zslice buf done chunk) = chunk) as Hz by (apply zlen_zslice; lia).
  dec_if as E.
  - rewrite list_lookup_total_alt, lookup_zsplice by lia. rewrite Hz. specialize (Hin E). unfold written in *. dec_if as H.
    + rewrite lookup_zslice by lia. rewrite !decide_True by lia. rewrite list_lookup_total_alt. do 3 f_equal. lia.
    + rewrite list_lookup_total_alt in Hin. rewrite Hin. destruct (decide (offset ≤ pos < offset + done)), (decide (offset ≤ pos < offset + (done + chunk))); try done; lia.
  - rewrite (Hout E). unfold written. destruct (decide (offset ≤ pos < offset + done)), (decide (offset ≤ pos < offset + (done + chunk))); try done; try lia.
Qed.

Lemma file_write_step_spec l s v :
  dsees s v → writing l v →
  wp (file_write_step sb buf size offset l) s (λ r s', ∃ v', dsees s' v' ∧
    match r with
    | inl l' => writing l' v' ∧ 0 ≤ size - l'.1 < size - l.1
    | inr l' => writing l' v' ∧ (l'.1 < size → HNXFS_DIRECT * HNXFS_BLOCK_SIZE ≤ offset + l'.1 ∨ full v')
    end).
Proof.
  destruct l as [done ino]. intros Hs (Hw & Ho & Hf & Ha & Hd & Hfb). cbn [fst snd] in *. unfold file_write_step.
  destruct (Z.ltb_spec done size) as [Hlt|Hge]; [|apply wp_ret; exists v; split; [done|]; split; [done|cbn; lia]].
  rewrite u64_small by lia. set (p0 := offset + done). set (b := p0 / HNXFS_BLOCK_SIZE).
  assert (0 ≤ b) as Hb0 by (apply Z.div_pos; unfold p0, HNXFS_BLOCK_SIZE; lia).
  destruct (Z.leb_spec HNXFS_DIRECT b) as [Hmax|Hb].
  { apply wp_ret. exists v. split; [done|]. split; [done|]. intros _. left. cbn [fst]. fold p0. unfold b, HNXFS_BLOCK_SIZE in *. zlia. }
  pose proof (upd_eq T num ino) as Eino. rewrite <-Eino at 1.
  wstep ensure_block_spec; [done|done|done|done|lia|]. rewrite Eino.
  intros [ino1|] s1 (v1 & Hs1 & Hw1 & Hf1 & Hr); apply frame_upd in Hf1.
  2: { destruct Hr as [Hfull ->]. apply wp_ret. exists v. split; [done|]. split; [done|]. by right. }
  destruct Hr as (Ha1 & Ho1 & [p Hp] & Hfb1). rewrite ?Eino in Ha1. rewrite ?Eino in Hfb1.
  assert (owned (upd T num ino1) v1) as Ho1'.
  { apply (owned_ext (upd (upd T num ino) num ino1) _ v1); [|done|done]. intros j _. unfold upd. by dec_if. }
  pose proof (upd_eq T num ino1) as Eino1. assert (ptr (upd T num ino1 num) b p) as Hp' by by rewrite Eino1.
  destruct (ptr_pos _ _ _ _ _ Ho1' Hnum Hp') as [Hpin _]. destruct (whole_blk v1 p Hw1 Hpin) as (_ & Hz & Hy).
  destruct (chunk_at_spec p0 (size - done)) as (Hc1 & Hc2 & Hc3); [unfold p0; lia|lia|]. set (chunk := chunk_at p0 (size - done)) in *.
  eapply wp_lift_bind; [apply aget_Some; [lia|]; apply Hp|].
  wstep read_blk; [done|done|done|]. intros r s2 [-> Hs2].
  eapply wp_lift_bind; [apply memcpy_from_spec; lia|]. set (x := zsplice _ _ _).
  assert (zlen x = HNXFS_BLOCK_SIZE) as Hx by (unfold x; rewrite zlen_zsplice; [done|lia|rewrite zlen_zslice; lia]).
  assert (bytes x) as Hxb by (apply bytes_zsplice; [done|by apply bytes_zslice]).
  wstep write_blk; [done|done|done|done|done|]. intros rc s3 [-> Hs3]. cbn [Z.eqb negb]. apply wp_ret. exists (<[p := x]> v1).
  split; [done|]. split; [|cbn [fst]; lia].
  destruct (data_write (upd T num ino1) v1 num b p x Hw1 Ho1' Hnum Hp' Hx Hxb) as (Hw2 & Ho2 & Hf2 & Hfb2). rewrite Eino1 in Hfb2.
  split; [done|]. split; [done|]. split; [apply (frame_trans _ _ _ v); [done|]; apply (frame_trans _ _ _ v1); [done|]; by apply frame_upd in Hf2|].
  split; [unfold alike in *; cbn [fst snd]; naive_solver congruence|]. split; [cbn [fst]; lia|]. intros pos Hpos. cbn [fst snd]. rewrite Hfb2 by done.
  apply written_step; [done|lia|lia|lia|done|done| |].
  - intros E. change (pos / HNXFS_BLOCK_SIZE = b) in E. rewrite <-Hfb, <-Hfb1 by done. unfold fbyte. rewrite E. destruct Hp as (_ & -> & Hp0). by destruct (Z.eqb_spec p 0).
  - intros _. by rewrite Hfb1, Hfb.
Qed.

End Write.
(** *** The contents as lists *)

Definition pad (l : list Z) (n : Z) : list Z := l ++ replicate (Z.to_nat (n - zlen l)) 0.

(** [l] with [x] written at [off], and zeros before it if it ends before [off]. *)
Definition write_at (l : list Z) (off : Z) (x : list Z) : list Z := zsplice (pad l (off + zlen x)) off x.

Lemma zlen_pad l n : zlen (pad l n) = Z.max (zlen l) n.
Proof. unfold pad. rewrite zlen_app, zlen_replicate. pose proof (zlen_nonneg l). lia. Qed.

Lemma lookup_pad l n k : 0 ≤ k →
  pad l n !! Z.to_nat k = if decide (k < zlen l) then l !! Z.to_nat k else if decide (k < n) then Some 0 else None.
Proof.
  intros Hk. unfold pad, zlen. dec_if as H; [by rewrite lookup_app_l by lia|]. rewrite lookup_app_r by lia. dec_if as H'.
  - apply lookup_replicate_2. lia.
  - apply lookup_ge_None. rewrite length_replicate. lia.
Qed.

Lemma lookup_fdata v ino k : 0 ≤ k → fdata v ino !! Z.to_nat k = if decide (k < in_size ino) then Some (fbyte v ino k) else None.
Proof.
  intros Hk. unfold fdata. rewrite list_lookup_fmap. dec_if as H.
  - rewrite lookup_seqZ_lt by lia. cbn [fmap option_fmap option_map]. do 2 f_equal. lia.
  - by rewrite lookup_seqZ_ge by lia.
Qed.

Lemma zlen_fdata v ino : 0 ≤ in_size ino → zlen (fdata v ino) = in_size ino.
Proof. intros H. unfold fdata, zlen. rewrite length_fmap, length_seqZ. lia. Qed.

Lemma fdata_ext v v' ino ino' :
  in_size ino' = in_size ino → (∀ pos, 0 ≤ pos → fbyte v' ino' pos = fbyte v ino pos) → fdata v' ino' = fdata v ino.
Proof.
  intros Hs Hf. apply list_eq_Z. intros k Hk. rewrite !lookup_fdata, Hs by done. dec_if; [by rewrite Hf|done].
Qed.

Lemma fdata_write v v' ino ino' offset buf n :
  0 ≤ in_size ino → 0 ≤ offset → 0 ≤ n ≤ zlen buf → in_size ino' = Z.max (in_size ino) (offset + n) →
  (∀ pos, in_size ino ≤ pos → fbyte v ino pos = 0) →
  (∀ pos, 0 ≤ pos → fbyte v' ino' pos = if decide (offset ≤ pos < offset + n) then buf !!! Z.to_nat (pos - offset) else fbyte v ino pos) →
  fdata v' ino' = write_at (fdata v ino) offset (zslice buf 0 n).
Proof.
  intros H0 Ho Hn Hs Ht Hf. assert (zlen (zslice buf 0 n) = n) as Hz by (apply zlen_zslice; lia). unfold write_at. rewrite Hz.
  apply list_eq_Z. intros k Hk. rewrite lookup_fdata, Hs by done.
  rewrite lookup_zsplice by (rewrite ?zlen_pad, ?Hz; lia). rewrite Hz, Hf by lia. rewrite lookup_pad, zlen_fdata, lookup_fdata by lia.
  destruct (decide (offset ≤ k < offset + n)) as [Hin|Hout].
  - rewrite lookup_zslice, !decide_True by lia. rewrite list_lookup_total_alt. destruct (lookup_in buf (k - offset)) as [z Hz']; [lia|].
    rewrite Z.add_0_l, Hz'. done.
  - destruct (decide (k < in_size ino)).
    + by rewrite decide_True by lia.
    + destruct (decide (k < offset + n)); [rewrite decide_True by lia; by rewrite Ht by lia|by rewrite decide_False by lia].
Qed.

(** *** The inode is written back *)

Lemma put_inode_frame v num ino c : is_inode num → is_data c ∨ c = sb_data_bitmap_block sb ∨ c = sb_inode_bitmap_block sb → blk (put_inode v num ino) c = blk v c.
Proof.
  intros Hn Hc. destruct (inode_block_in num Hn) as [Hb _]. unfold put_inode. apply blk_insert_ne. intros E. destruct Hlay. unfold is_data in *. lia.
Qed.

Lemma put_inode_fbyte T v num ino j i' pos :
  owned T v → is_inode num → is_inode j → 0 ≤ pos → in_direct i' = in_direct (T j) → fbyte (put_inode v num ino) i' pos = fbyte v (T j) pos.
Proof.
  intros Ho Hn Hj Hp E. transitivity (fbyte (put_inode v num ino) (T j) pos); [unfold fbyte; by rewrite E|].
  destruct (ow_fits _ _ Ho j Hj) as [(_ & _ & _ & _ & _ & Hl & _) _]. apply fbyte_ext; [|done|done]. intros b p Hptr.
  apply put_inode_frame; [done|]. left. by destruct (ow_data _ _ Ho j b p Hj Hptr).
Qed.

(** The pending inode [ino'] of [num] is put on disk: the disk is a file system again, with that inode. *)
Lemma put_inode_ok T v num ino ino' :
  whole v → is_inode num → (∀ j, is_inode j → itab v j = T j) → owned (upd T num ino) v →
  in_direct ino' = in_direct ino → in_blocks ino' = in_blocks ino → inode_fits ino' →
  (∀ j pos, is_inode j → j ≠ num → in_size (T j) ≤ pos → fbyte v (T j) pos = 0) →
  (∀ pos, in_size ino' ≤ pos → fbyte v ino pos = 0) →
  (∀ j, is_inode j → 0 ≤ in_size (T j)) →
  let v' := put_inode v num ino' in
  fs_ok v' ∧ itab v' num = ino' ∧ (∀ j, is_inode j → j ≠ num → itab v' j = T j) ∧
  (∀ pos, 0 ≤ pos → fbyte v' ino' pos = fbyte v ino pos) ∧
  (∀ j pos, is_inode j → j ≠ num → 0 ≤ pos → fbyte v' (T j) pos = fbyte v (T j) pos).
Proof.
  intros Hw Hn HT Ho Ed Eb Hfit Htail Htail' Hsz v'.
  assert (∀ j, is_inode j → itab v' j = upd T num ino' j) as Hit.
  { intros j Hj. unfold v'. rewrite itab_put by done. unfold upd. dec_if; [done|]. by apply HT. }
  assert (itab v' num = ino') as E1 by (rewrite Hit by done; apply upd_eq).
  assert (∀ j, is_inode j → j ≠ num → itab v' j = T j) as E2 by (intros; rewrite Hit by done; by apply upd_ne).
  assert (∀ pos, 0 ≤ pos → fbyte v' ino' pos = fbyte v ino pos) as F1.
  { intros pos Hp. unfold v'. rewrite (put_inode_fbyte (upd T num ino) v num ino' num ino' pos Ho Hn Hn Hp); rewrite upd_eq; done. }
  assert (∀ j pos, is_inode j → j ≠ num → 0 ≤ pos → fbyte v' (T j) pos = fbyte v (T j) pos) as F2.
  { intros j pos Hj Hne Hp. unfold v'. rewrite (put_inode_fbyte (upd T num ino) v num ino' j (T j) pos Ho Hn Hj Hp); rewrite upd_ne; done. }
  split_and!; try done. split; [by apply put_inode_whole|]. split.
  - apply (owned_same (upd T num ino) _ v); [|intros k Hk; unfold dbit, v'; rewrite put_inode_frame; auto|done]. intros j Hj. rewrite Hit by done.
    unfold upd. dec_if; [done|]. split_and!; try done. rewrite <-HT by done. by apply itab_fits.
  - intros j pos Hj Hp. destruct (decide (j = num)) as [->|Hne].
    + rewrite E1 in *. rewrite F1; [by apply Htail'|]. destruct Hfit as (_ & _ & Hs & _). unfold is_u64 in Hs. lia.
    + rewrite E2 in * by done. rewrite F2; [by apply Htail|done|done|]. specialize (Hsz j Hj). lia.
Qed.

Lemma alike_fits i1 i2 : alike i1 i2 → inode_fits i1 → inode_fits i2 ↔ is_u64 (in_blocks i2) ∧ zlen (in_direct i2) = HNXFS_DIRECT ∧ Forall is_u64 (in_direct i2).
Proof. intros (E1 & E2 & E3 & E4) (H1 & H2 & H3 & H4 & H5 & H6 & H7). unfold inode_fits. rewrite E1, E2, E3, E4. naive_solver. Qed.

Lemma set_size_fits ino n : inode_fits ino → is_u64 n → inode_fits (set_size ino n).
Proof. intros (H1 & H2 & H3 & H4 & H5 & H6 & H7) Hn. by split_and!. Qed.

(** The disk [v'] has the files of [v] but for [num], and the same inode bitmap. *)
Definition others v v' (num : Z) : Prop :=
  blk v' (sb_inode_bitmap_block sb) = blk v (sb_inode_bitmap_block sb) ∧
  ∀ j, is_inode j → j ≠ num → itab v' j = itab v j ∧ fdata v' (itab v' j) = fdata v (itab v j).

Lemma itab_size v num : whole v → is_inode num → 0 ≤ in_size (itab v num).
Proof. intros Hw Hn. destruct (itab_fits v num Hw Hn) as (_ & _ & H & _). unfold is_u64 in H. lia. Qed.

(** The inode [ino'] is put in the place of [num] on a disk that differs from [v] in the data of that file only. *)
Lemma put_inode_others v v2 num ino ino' :
  fs_ok v → whole v2 → is_inode num → frame (itab v) num v v2 → owned (upd (itab v) num ino) v2 → in_direct ino' = in_direct ino →
  in_blocks ino' = in_blocks ino → inode_fits ino' → (∀ pos, in_size ino' ≤ pos → fbyte v2 ino pos = 0) →
  let v' := put_inode v2 num ino' in
  fs_ok v' ∧ itab v' num = ino' ∧ others v v' num ∧ ∀ pos, 0 ≤ pos → fbyte v' ino' pos = fbyte v2 ino pos.
Proof.
  intros (Hw & Ho & Ht) Hw2 Hn Hf Ho2 E1 E2 Hfit Hz v'.
  destruct (put_inode_ok (itab v) v2 num ino ino') as (Hok & I1 & I2 & F1 & F2); try done.
  { intros j Hj. by apply (itab_frame (itab v) num v v2). }
  { intros j pos Hj Hne Hp. destruct Hf as [_ Hf]. pose proof (itab_size v j Hw Hj). rewrite Hf by (done || lia). by apply Ht. }
  { intros j Hj. by apply itab_size. }
  split_and!; try done. split.
  - unfold v'. rewrite put_inode_frame by auto. unfold blk. destruct Hf as [Hf _]. rewrite Hf; [done| |]; destruct Hlay; unfold is_data, HNXFS_INODES_PER_BLOCK in *; lia.
  - intros j Hj Hne. unfold v'. rewrite I2 by done. split; [done|]. apply fdata_ext; [done|]. intros pos Hp. rewrite F2 by done. by apply Hf.
Qed.

(** The number of bytes written is smaller than [size] only at the greatest size of a file or when the disk is full. *)
Lemma file_write_spec s v num buf size offset :
  dsees s v → fs_ok v → is_inode num → bytes buf → 0 ≤ size ≤ zlen buf → 0 ≤ offset → offset + size < 2 ^ 64 →
  wp (hnxfs_file_write sb num buf size offset) s (λ n s', ∃ v', dsees s' v' ∧ fs_ok v' ∧ 0 ≤ n ≤ size ∧
    (n < size → HNXFS_DIRECT * HNXFS_BLOCK_SIZE ≤ offset + n ∨ full v') ∧
    fdata v' (itab v' num) = write_at (fdata v (itab v num)) offset (zslice buf 0 n) ∧
    in_type (itab v' num) = in_type (itab v num) ∧ others v v' num).
Proof.
  intros Hs Hok Hn Hbuf Hsize Hoff Hend. pose proof Hok as (Hw & Ho & Ht). unfold hnxfs_file_write.
  wstep read_inode_spec; [done|done|done|]. intros r s1 [-> Hs1]. pose proof (itab_size v num Hw Hn) as Hsz0.
  wstep (wp_while (λ l s, ∃ v', dsees s v' ∧ writing (itab v) num v buf size offset l v') (λ l, size - l.1)
    (λ l s, ∃ v', dsees s v' ∧ writing (itab v) num v buf size offset l v' ∧ (l.1 < size → HNXFS_DIRECT * HNXFS_BLOCK_SIZE ≤ offset + l.1 ∨ full v'))).
  - intros l s2 (v2 & Hs2 & Hwr). eapply wp_mono; [by apply (file_write_step_spec (itab v) num Hn v buf size offset Hbuf Hsize Hoff Hend l s2 v2)|].
    intros [l'|l'] s3 (v3 & Hs3 & H); [destruct H; eauto|destruct H; eauto].
  - exists v. split; [done|]. split; [done|]. split; [apply (owned_ext (itab v) _ v); [|done|done]; intros j _; unfold upd; dec_if; [by subst|done]|].
    split; [apply frame_refl|]. split; [done|]. split; [cbn; lia|]. intros pos Hp. unfold written. by rewrite decide_False by (cbn; lia).
  - cbn [fst]. lia.
  - intros [n ino] s2 (v2 & Hs2 & (Hw2 & Ho2 & Hf2 & Ha2 & Hn2 & Hfb2) & Hdone). cbn [fst snd] in *. rewrite u64_small by lia.
    assert (inode_fits ino) as Hfi by (pose proof (ow_fits _ _ Ho2 num Hn) as [H _]; by rewrite upd_eq in H).
    assert (in_size ino = in_size (itab v num)) as Esz by apply Ha2. set (ino' := if in_size ino <? offset + n then _ else _).
    assert (in_direct ino' = in_direct ino ∧ in_blocks ino' = in_blocks ino ∧ inode_fits ino' ∧ in_type ino' = in_type ino ∧
            in_size ino' = Z.max (in_size (itab v num)) (offset + n)) as (E1 & E2 & E3 & E4 & E5).
    { unfold ino'. destruct (Z.ltb_spec (in_size ino) (offset + n)); split_and!; try done; try lia; [apply set_size_fits; [done|]; unfold is_u64; lia|].
      cbn [set_size in_size]. lia. }
    destruct (put_inode_others v v2 num ino ino') as (Hok' & I1 & I2 & F1); try done.
    { intros pos Hp. rewrite Hfb2 by lia. unfold written. rewrite decide_False by lia. apply Ht; [done|]. lia. }
    wstep write_inode_spec; [done|done|done|done|]. intros rc s3 [-> Hs3]. apply wp_ret. exists (put_inode v2 num ino').
    split; [done|]. split; [done|]. split; [done|]. split.
    { intros Hlt. destruct (Hdone Hlt) as [|Hfull]; [by left|right]. intros k Hk. unfold dbit. rewrite put_inode_frame by auto. by apply Hfull. }
    rewrite I1. split; [|split; [rewrite E4; apply Ha2|done]].
    apply (fdata_write v); [done|done|lia|done|intros pos Hp; by apply Ht|]. intros pos Hp. by rewrite F1, Hfb2 by done.
Qed.

(** *** [hnxfs_file_read] *)

Lemma extend_copy (buf data : list Z) offset done chunk :
  0 ≤ offset → 0 ≤ done → 0 ≤ chunk → offset + done + chunk ≤ zlen data → done + chunk ≤ zlen buf →
  zsplice (zsplice buf 0 (zslice data offset done)) done (zslice data (offset + done) chunk) = zsplice buf 0 (zslice data offset (done + chunk)).
Proof.
  intros H1 H2 H3 H4 H5. assert (zlen (zslice data offset done) = done) as Z1 by (apply zlen_zslice; lia).
  assert (zlen (zslice data (offset + done) chunk) = chunk) as Z2 by (apply zlen_zslice; lia).
  assert (zlen (zslice data offset (done + chunk)) = done + chunk) as Z3 by (apply zlen_zslice; lia).
  apply list_eq_Z. intros k Hk. rewrite lookup_zsplice by (rewrite ?zlen_zsplice, ?Z2; lia). rewrite !lookup_zsplice by lia. rewrite Z1, Z2, Z3.
  destruct (decide (done ≤ k < done + chunk)); [|destruct (decide (0 ≤ k < 0 + done))].
  - rewrite decide_True by lia. rewrite !lookup_zslice by lia. rewrite !decide_True by lia. f_equal. lia.
  - rewrite decide_True by lia. rewrite !lookup_zslice by lia. by rewrite !decide_True by lia.
  - by rewrite decide_False by lia.
Qed.

(** What is at [pos] in the file, up to the end of the block: zeros in a hole, the block's bytes else. *)
Lemma fdata_chunk T v num pos chunk :
  whole v → owned T v → is_inode num → 0 ≤ pos → 0 ≤ chunk → pos mod HNXFS_BLOCK_SIZE + chunk ≤ HNXFS_BLOCK_SIZE → pos + chunk ≤ in_size (T num) →
  let b := pos / HNXFS_BLOCK_SIZE in
  (∃ p, ptr (T num) b p ∧ b < in_blocks (T num) ∧ zslice (fdata v (T num)) pos chunk = zslice (blk v p) (pos mod HNXFS_BLOCK_SIZE) chunk) ∨
  ((in_blocks (T num) ≤ b ∨ (b < HNXFS_DIRECT ∧ in_direct (T num) !! Z.to_nat b = Some 0)) ∧
   zslice (fdata v (T num)) pos chunk = replicate (Z.to_nat chunk) 0).
Proof.
  intros Hw Ho Hn Hp Hc Hm Hsz b. destruct (ow_fits _ _ Ho num Hn) as [(_ & _ & _ & _ & _ & Hl & _) Hbl].
  assert (0 ≤ b) as Hb by (apply Z.div_pos; unfold HNXFS_BLOCK_SIZE; lia).
  pose proof (Z.mod_pos_bound pos HNXFS_BLOCK_SIZE eq_refl) as M. pose proof (Z.div_mod pos HNXFS_BLOCK_SIZE ltac:(done)) as Dv. fold b in Dv.
  assert (∀ k, 0 ≤ k < chunk → (pos + k) / HNXFS_BLOCK_SIZE = b ∧ (pos + k) mod HNXFS_BLOCK_SIZE = pos mod HNXFS_BLOCK_SIZE + k) as Hk.
  { intros k Hk. unfold HNXFS_BLOCK_SIZE in *. zlia. }
  destruct (in_direct (T num) !! Z.to_nat b) as [p|] eqn:Ep; [destruct (decide (p = 0)) as [->|Hp0]|].
  2: { left. exists p. apply lookup_lt_Some in Ep as Hlt. assert (ptr (T num) b p) as Hptr by (split; [unfold zlen in Hl; lia|done]).
       split; [done|]. split; [by apply (ow_hole _ _ Ho num b p)|]. destruct (ptr_pos _ _ _ _ _ Ho Hn Hptr) as [Hin _].
       destruct (whole_blk v p Hw Hin) as (_ & Hz & _).
       apply list_eq_Z. intros k Hk0. rewrite !lookup_zslice by lia. dec_if as H; [|done]. rewrite lookup_fdata, decide_True by lia.
       destruct (Hk k) as [K1 K2]; [lia|]. unfold fbyte. rewrite K1, K2, Ep. destruct (Z.eqb_spec p 0); [done|].
       destruct (lookup_in (blk v p) (pos mod HNXFS_BLOCK_SIZE + k)) as [z Ez]; [lia|]. by rewrite (list_lookup_total_correct _ _ _ Ez). }
  all: right; split.
  2, 4: apply list_eq_Z; intros k Hk0; rewrite lookup_zslice by lia; dec_if as H;
    [rewrite lookup_fdata, decide_True by lia; destruct (Hk k) as [K1 K2]; [lia|]; unfold fbyte; rewrite K1, Ep; symmetry; apply lookup_replicate_2; lia
    |symmetry; apply lookup_ge_None; rewrite length_replicate; lia].
  - right. split; [|done]. apply lookup_lt_Some in Ep as Hlt. unfold zlen in Hl. lia.
  - left. apply lookup_ge_None in Ep. unfold zlen in Hl. lia.
Qed.

Lemma file_read_spec s v num buf size offset :
  dsees s v → fs_ok v → is_inode num → 0 ≤ size ≤ zlen buf → 0 ≤ offset →
  let data := fdata v (itab v num) in
  let n := Z.max 0 (Z.min size (zlen data - offset)) in
  wp (hnxfs_file_read sb num buf size offset) s (λ r s', dsees s' v ∧ r = (n, zsplice buf 0 (zslice data offset n))).
Proof.
  intros Hs (Hw & Ho & Ht) Hn Hsize Hoff data n. unfold hnxfs_file_read. wstep read_inode_spec; [done|done|done|]. intros r s1 [-> Hs1].
  destruct (itab_fits v num Hw Hn) as (_ & _ & Hsz & _). unfold is_u64 in Hsz.
  assert (zlen data = in_size (itab v num)) as Hz by (apply zlen_fdata; lia). unfold n. rewrite Hz.
  destruct (Z.leb_spec (in_size (itab v num)) offset) as [Hge|Hlt].
  { apply wp_ret. split; [done|]. by replace (Z.max 0 _) with 0 by lia. }
  set (m := if _ <? size then _ else _). assert (m = Z.min size (in_size (itab v num) - offset)) as Em.
  { unfold m. destruct (Z.ltb_spec (in_size (itab v num) - offset) size); lia. }
  replace (Z.max 0 _) with m by lia. clearbody m.
  apply (wp_while (λ l s, 0 ≤ l.1 ≤ m ∧ l.2 = zsplice buf 0 (zslice data offset l.1) ∧ dsees s v) (λ l, m - l.1)).
  - intros [done dst] s2 (Hd & Edst & Hs2). cbn [fst snd] in *. unfold file_read_step. destruct (Z.ltb_spec done m) as [Hlm|Hge].
    2: { apply wp_ret. split; [done|]. assert (done = m) as Edm by lia. by rewrite Edst, Edm. }
    assert (zlen dst = zlen buf) as Hdst by (rewrite Edst; apply zlen_zsplice; rewrite ?zlen_zslice; lia).
    rewrite u64_small by lia. set (pos := offset + done). destruct (chunk_at_spec pos (m - done)) as (C1 & C2 & C3); [unfold pos; lia|lia|].
    set (chunk := chunk_at pos (m - done)) in *.
    assert (zsplice dst done (zslice data pos chunk) = zsplice buf 0 (zslice data offset (done + chunk))) as Eext.
    { rewrite Edst. apply extend_copy; lia. }
    assert (0 ≤ pos / HNXFS_BLOCK_SIZE) as Hb0 by (apply Z.div_pos; unfold pos, HNXFS_BLOCK_SIZE; lia). unfold block_or_hole.
    destruct (fdata_chunk (itab v) v num pos chunk) as [(p & Hp & Hpb & Ec)|[Hh Ec]]; [done|done|done|unfold pos; lia|lia|lia|unfold pos; lia|..];
      fold data in Ec; rewrite Ec in Eext.
    + destruct (Z.leb_spec (in_blocks (itab v num)) (pos / HNXFS_BLOCK_SIZE)); [lia|]. eapply wp_lift_bind; [apply aget_Some; [lia|]; apply Hp|].
      destruct (Z.eqb_spec p 0); [by destruct Hp as (_ & _ & [])|]. destruct (ptr_pos _ _ _ _ _ Ho Hn Hp) as [Hpin _].
      destruct (whole_blk v p Hw Hpin) as (_ & Hzb & _). wstep read_blk; [done|done|done|]. intros r s3 [-> Hs3].
      eapply wp_lift_bind; [apply memcpy_from_spec; lia|]. apply wp_ret. cbn [fst snd]. split_and!; [lia|lia|done|done|lia|lia].
    + apply (wp_step _ _ _ (λ p s, p = 0 ∧ dsees s v)).
      { destruct (Z.leb_spec (in_blocks (itab v num)) (pos / HNXFS_BLOCK_SIZE)); [by apply wp_ret|]. destruct Hh as [|[_ Hh]]; [lia|].
        eapply wp_lift; [by apply aget_Some|done]. }
      intros p s3 [-> Hs3]. cbn [Z.eqb]. eapply wp_lift_bind; [apply memset_spec; lia|]. apply wp_ret. cbn [fst snd].
      change (u8 0) with 0. split_and!; [lia|lia|done|done|lia|lia].
  - cbn [fst snd]. split_and!; [lia|lia|done|done].
  - cbn [fst]. lia.
Qed.

(** *** [hnxfs_file_truncate] *)

(** Pointers may be dropped. *)
Lemma owned_sub T T' v v' :
  owned T v →
  (∀ j, is_inode j → inode_fits (T' j) ∧ in_blocks (T' j) ≤ HNXFS_DIRECT) →
  (∀ j b p, is_inode j → ptr (T' j) b p → ptr (T j) b p ∧ b < in_blocks (T' j) ∧ dbit v' (p - sb_data_block_start sb) = true) →
  owned T' v'.
Proof.
  intros Ho Hf Hp. split; [done| | |].
  - intros j b p Hj Hq. by destruct (Hp j b p Hj Hq) as (_ & ? & _).
  - intros j b p Hj Hq. destruct (Hp j b p Hj Hq) as (Hq' & _ & ?). split; [|done]. by apply (ow_data _ _ Ho j b p).
  - intros i b j c p Hi Hj H1 H2. apply (ow_inj _ _ Ho i b j c p); [done|done|by apply Hp|by apply Hp].
Qed.

Lemma drop_block_dbit v k j :
  whole v → 0 ≤ k < sb_data_block_count sb → 0 ≤ j < sb_data_block_count sb → dbit (drop_block v k) j = negb (bool_decide (j = k)) && dbit v j.
Proof.
  intros Hw Hk Hj. destruct (whole_blk v _ Hw dbm_in) as (_ & Hz & Hy). pose proof (lay_dbits _ Hlay).
  unfold dbit, drop_block. rewrite blk_insert. apply clear_bit_spec; [done|lia|lia].
Qed.

Lemma drop_block_fbyte T v k num pos : owned T v → is_inode num → 0 ≤ pos → fbyte (drop_block v k) (T num) pos = fbyte v (T num) pos.
Proof.
  intros Ho Hn Hp. destruct (ow_fits _ _ Ho num Hn) as [(_ & _ & _ & _ & _ & Hl & _) _]. apply fbyte_ext; [|done|done]. intros b p Hptr.
  destruct (ptr_pos _ _ _ _ _ Ho Hn Hptr) as [_ Hne]. by apply blk_insert_ne.
Qed.

Lemma drop_block_frame T v k num : owned T v → frame T num v (drop_block v k).
Proof.
  intros Ho. split; [|intros j pos Hj _ Hp; by apply drop_block_fbyte]. intros c _ Hc. unfold drop_block. by rewrite lookup_insert_ne.
Qed.

Definition clear_ptr (ino : hnxfs_inode) (b : Z) : hnxfs_inode := set_direct ino (<[Z.to_nat b := 0]> (in_direct ino)).

Lemma clear_ptr_ptr ino b c q : zlen (in_direct ino) = HNXFS_DIRECT → 0 ≤ b < HNXFS_DIRECT → ptr (clear_ptr ino b) c q ↔ c ≠ b ∧ ptr ino c q.
Proof.
  intros Hl Hb. unfold ptr, clear_ptr. cbn [set_direct in_direct]. destruct (decide (c = b)) as [->|Hc].
  - rewrite list_lookup_insert_eq by (unfold zlen in Hl; lia). naive_solver.
  - split.
    + intros (H1 & H2 & H3). rewrite list_lookup_insert_ne in H2 by lia. done.
    + intros (_ & H1 & H2 & H3). rewrite list_lookup_insert_ne by lia. done.
Qed.

Lemma clear_ptr_fits ino b : inode_fits ino → inode_fits (clear_ptr ino b).
Proof.
  intros (H1 & H2 & H3 & H4 & H5 & H6 & H7). unfold clear_ptr. split_and!; try done; cbn [set_direct in_direct]; [by rewrite zlen_insert|by apply Forall_insert].
Qed.

Lemma owned_clear T v num b k :
  owned T v → whole v → is_inode num → 0 ≤ k < sb_data_block_count sb → ptr (T num) b (sb_data_block_start sb + k) →
  owned (upd T num (clear_ptr (T num) b)) (drop_block v k).
Proof.
  intros Ho Hw Hn Hk Hp. pose proof Hp as (Hb & _). destruct (ow_fits _ _ Ho num Hn) as [Hf Hbl]. pose proof Hf as (_ & _ & _ & _ & _ & Hl & _).
  apply (owned_sub T _ v); [done| |].
  - intros j Hj. unfold upd. dec_if; [|by apply Ho]. split; [by apply clear_ptr_fits|done].
  - intros j c q Hj Hq. assert (ptr (T j) c q ∧ (j ≠ num ∨ c ≠ b)) as [Hq' Hne].
    { unfold upd in Hq. destruct (decide (j = num)) as [->|]; [|by auto]. apply clear_ptr_ptr in Hq as [? ?]; auto. }
    destruct (ow_data _ _ Ho j c q Hj Hq') as [Hd Hbit]. split; [done|]. pose proof (ow_hole _ _ Ho j c q Hj Hq').
    split; [unfold upd; dec_if; [by subst|done]|]. unfold is_data in Hd. rewrite drop_block_dbit by (done || lia). rewrite Hbit, andb_true_r.
    rewrite bool_decide_false; [done|]. intros E. replace (sb_data_block_start sb + k) with q in Hp by lia.
    destruct (ow_inj _ _ Ho num b j c q Hn Hj Hp Hq') as [<- <-]. destruct Hne; done.
Qed.

Definition emptied (ino : hnxfs_inode) : hnxfs_inode :=
  mk_inode (in_type ino) (in_mode ino) 0 0 (replicate (Z.to_nat HNXFS_DIRECT) 0) (in_mtime ino).

(** The state of the loop: the pointers below [b] are gone. *)
Definition truncating (T : Z → hnxfs_inode) (num : Z) v0 (b : Z) (ino : hnxfs_inode) v : Prop :=
  whole v ∧ owned (upd T num ino) v ∧ frame T num v0 v ∧ alike (T num) ino ∧ in_blocks ino = in_blocks (T num) ∧ (∀ c p, ptr ino c p → b ≤ c).

Lemma truncate_step_spec T num v0 b ino s v :
  dsees s v → truncating T num v0 b ino v → is_inode num → 0 ≤ b < HNXFS_DIRECT →
  wp (truncate_step sb b ino) s (λ r s', match r with inl ino' => ∃ v', dsees s' v' ∧ truncating T num v0 (b + 1) ino' v' | inr _ => False end).
Proof.
  intros Hs (Hw & Ho & Hf & Ha & Hbl & Hc) Hn Hb. pose proof (upd_eq T num ino) as Eino.
  destruct (ow_fits _ _ Ho num Hn) as [(_ & _ & _ & _ & _ & Hl & _) _]. rewrite Eino in Hl. unfold truncate_step.
  destruct (aget_in (in_direct ino) b) as (p & Hp & Ep); [lia|]. eapply wp_lift_bind; [exact Ep|].
  destruct (Z.eqb_spec p 0) as [->|Hp0]; cbn [negb].
  - apply wp_ret. exists v. split; [done|]. split_and!; try done. intros c q Hq. specialize (Hc c q Hq).
    destruct (decide (c = b)) as [->|]; [|lia]. destruct Hq as (_ & Hq & Hq0). congruence.
  - assert (ptr (upd T num ino num) b p) as Hptr by (rewrite Eino; done). destruct (ow_data _ _ Ho num b p Hn Hptr) as [Hd _]. unfold is_data in Hd.
    set (k := p - sb_data_block_start sb). replace p with (sb_data_block_start sb + k) by (unfold k; lia).
    replace p with (sb_data_block_start sb + k) in Hptr by (unfold k; lia).
    wstep free_block_spec; [done|done|unfold k; lia|]. intros [] s1 Hs1. eapply wp_lift_bind; [apply aset_in; lia|]. apply wp_ret.
    exists (drop_block v k). split; [done|]. fold (clear_ptr ino b). split; [apply drop_block_whole; [done|unfold k; lia]|].
    split.
    { pose proof (owned_clear _ v num b k Ho Hw Hn ltac:(unfold k; lia) Hptr) as Ho'. rewrite Eino in Ho'.
      apply (owned_ext _ (upd T num (clear_ptr ino b)) _ (drop_block v k)) in Ho'; [done| |done]. intros j _. unfold upd. by dec_if. }
    split; [apply (frame_trans _ _ _ v); [done|]; by apply (frame_upd T num ino), drop_block_frame|]. split; [done|]. split; [done|].
    intros c q Hq. apply clear_ptr_ptr in Hq as [Hcb Hq]; [|done|done]. specialize (Hc c q Hq). lia.
Qed.

Lemma no_ptr_direct ino : zlen (in_direct ino) = HNXFS_DIRECT → (∀ c p, ¬ ptr ino c p) → in_direct ino = replicate (Z.to_nat HNXFS_DIRECT) 0.
Proof.
  intros Hl Hno. apply list_eq_Z. intros c Hc. destruct (in_direct ino !! Z.to_nat c) as [p|] eqn:Ep.
  - apply lookup_lt_Some in Ep as Hlt. unfold zlen in Hl. destruct (decide (p = 0)) as [->|Hp].
    + symmetry. apply lookup_replicate_2. lia.
    + destruct (Hno c p). split; [lia|done].
  - symmetry. apply lookup_ge_None. rewrite length_replicate. apply lookup_ge_None in Ep. unfold zlen in Hl. lia.
Qed.

Lemma fbyte_zero v ino pos : in_direct ino = replicate (Z.to_nat HNXFS_DIRECT) 0 → fbyte v ino pos = 0.
Proof.
  intros E. unfold fbyte. rewrite E. destruct (replicate _ 0 !! _) as [z|] eqn:Ez; [|done]. by apply lookup_replicate in Ez as [-> _].
Qed.

(** An inode without blocks can take the place of one without pointers. *)
Lemma owned_emptied T v num ino ino' :
  owned (upd T num ino) v → is_inode num → (∀ c p, ¬ ptr ino c p) → in_direct ino' = replicate (Z.to_nat HNXFS_DIRECT) 0 → inode_fits ino' →
  in_blocks ino' = 0 → owned (upd T num ino') v.
Proof.
  intros Ho Hn Hno Ed Hf Hb. apply (owned_sub (upd T num ino) _ v); [done| |].
  - intros j Hj. pose proof (ow_fits _ _ Ho j Hj) as H. unfold upd in *. destruct (decide (j = num)); [by rewrite Hb|done].
  - intros j c p Hj Hp. unfold upd in Hp. destruct (decide (j = num)) as [->|Hne].
    + destruct Hp as (P1 & P2 & P3). rewrite Ed in P2. by apply lookup_replicate in P2 as [-> _].
    + assert (ptr (upd T num ino j) c p) as Hp' by (by rewrite upd_ne). rewrite (upd_ne T num ino') by done.
      split; [done|]. pose proof (ow_hole _ _ Ho j c p Hj Hp') as H1. rewrite upd_ne in H1 by done. split; [done|]. by apply (ow_data _ _ Ho j c p).
Qed.

Lemma file_truncate_spec s v num :
  dsees s v → fs_ok v → is_inode num →
  wp (hnxfs_file_truncate sb num) s (λ _ s', ∃ v', dsees s' v' ∧ fs_ok v' ∧ itab v' num = emptied (itab v num) ∧ others v v' num).
Proof.
  intros Hs Hok Hn. pose proof Hok as (Hw & Ho & Ht). unfold hnxfs_file_truncate. wstep read_inode_spec; [done|done|done|]. intros r s1 [-> Hs1].
  destruct (ow_fits _ _ Ho num Hn) as [Hfit Hbl]. pose proof Hfit as (G1 & G2 & G3 & G4 & G5 & G6 & G7). unfold is_u64 in G4. rewrite Z.min_l by done.
  wstep (wp_seek (λ b ino s, ∃ v', dsees s v' ∧ truncating (itab v) num v b ino v') (λ (_ : unit) _, False)); [lia| | |].
  - intros b ino s2 Hb (v2 & Hs2 & Htr). eapply wp_mono; [by apply (truncate_step_spec (itab v) num v b ino s2 v2); [| | |lia]|]. by intros [ino'|[]].
  - exists v. split; [done|]. split_and!; try done.
    + apply (owned_ext (itab v) _ v); [|done|done]. intros j _. unfold upd. dec_if; [by subst|done].
    + intros c p Hp. apply Hp.
  - intros [ino|[]] s2 H; [|done]. destruct H as (v2 & Hs2 & Hw2 & Ho2 & Hf2 & Ha2 & Hb2 & Hc2).
    assert (∀ c p, ¬ ptr ino c p) as Hno.
    { intros c p Hp. specialize (Hc2 c p Hp). pose proof (ow_hole _ _ Ho2 num c p Hn) as H. rewrite upd_eq in H. specialize (H Hp). lia. }
    pose proof (ow_fits _ _ Ho2 num Hn) as [Hfi _]. rewrite upd_eq in Hfi. pose proof Hfi as (_ & _ & _ & _ & _ & F6 & _).
    pose proof (no_ptr_direct ino F6 Hno) as Edir.
    assert (set_size (set_blocks ino 0) 0 = emptied (itab v num)) as ->.
    { destruct Ha2 as (A1 & A2 & A3 & A4). unfold set_size, set_blocks, emptied. cbn. by rewrite A1, A2, A4, Edir. }
    assert (inode_fits (emptied (itab v num))) as Hfe by (split_and!; try done; by apply Forall_replicate).
    destruct (put_inode_others v v2 num (emptied (itab v num)) (emptied (itab v num))) as (Hok' & I1 & I2 & _); try done.
    { by apply (owned_emptied _ _ _ ino). }
    { intros pos _. by apply fbyte_zero. }
    wstep write_inode_spec; [done|done|done|done|]. intros rc s3 [-> Hs3]. apply wp_ret. by exists (put_inode v2 num (emptied (itab v num))).
Qed.

End Spec.
