(* ===== verification/HnxfsDir.v ===== *)
(** Directories of [Hnxfs]: the slots of a directory as a list, and the map from names to inodes that they are. Looking up,
    adding and removing a name are the operations of that map; [v_create] and [v_unlink] keep the invariant of the file
    system. *)

From S2P Require Import Prelude Bytes CString StateM Hnxfs HnxfsSpec.

(** ** Names *)

(** A string in an array: what is before the first NUL, if there is one. *)
Fixpoint cut (l : list Z) : list Z :=
  match l with [] => [] | c :: l => if c =? 0 then [] else c :: cut l end.

Lemma cut_nonzero l : 0 ∉ cut l.
Proof.
  induction l as [|c l IH]; cbn [cut]; [apply not_elem_of_nil|]. destruct (Z.eqb_spec c 0); [apply not_elem_of_nil|]. apply not_elem_of_cons. by split.
Qed.

Lemma cut_app t rest : 0 ∉ t → cut (t ++ 0 :: rest) = t.
Proof.
  induction t as [|c t IH]; intros Ht; [done|]. apply not_elem_of_cons in Ht as [Hc Ht]. cbn [app cut].
  destruct (Z.eqb_spec c 0); [done|]. by rewrite IH.
Qed.

Lemma cut_length l : (length (cut l) ≤ length l)%nat.
Proof. induction l as [|c l IH]; cbn [cut]; [done|]. destruct (c =? 0); cbn [length]; lia. Qed.

Lemma strncmp_cut a b t : bytes a → cstr b t → bytes t → ∃ r, strncmp a b (length a) = Ret r ∧ (r = 0 ↔ cut a = take (length a) t).
Proof.
  intros Ha [Ht [rest ->]]. revert t Ht. induction Ha as [|x a Hx Ha IH]; intros t Ht Hb; [by exists 0|].
  destruct t as [|y t]; cbn [length strncmp app cut take].
  - destruct (Z.eqb_spec x 0); cbn [negb]; [by exists 0|]. exists (x - 0). split; [done|]. split; [lia|done].
  - apply not_elem_of_cons in Ht as [Hy Ht]. apply Forall_cons in Hb as [Hyb Hb]. destruct (Z.eqb_spec x y) as [->|Hne]; cbn [negb].
    + rewrite (proj2 (Z.eqb_neq y 0)) by done. destruct (IH t Ht Hb) as (r & -> & Hr). exists r. split; [done|]. rewrite Hr. split; [by intros ->|by intros [= ->]].
    + exists (x - y). split; [done|]. split; [lia|]. destruct (Z.eqb_spec x 0); [done|]. intros [= E _]. done.
Qed.

(** ** Slots *)

Definition live (de : hnxfs_dirent) : bool := negb (de_inode de =? 0).
Definition named (t : list Z) (de : hnxfs_dirent) : bool := live de && bool_decide (cut (de_name de) = t).

Definition entries (sl : list hnxfs_dirent) : list (list Z * Z) := (λ de, (cut (de_name de), de_inode de)) <$> filter live sl.
Definition dirmap (sl : list hnxfs_dirent) : gmap (list Z) Z := list_to_map (entries sl).

(** No name twice. *)
Definition dir_uniq (sl : list hnxfs_dirent) : Prop := NoDup (entries sl).*1.

(** [k] is the first index of an element that satisfies [P]. *)
Definition first_at (P : hnxfs_dirent → bool) (sl : list hnxfs_dirent) (k : Z) : Prop :=
  0 ≤ k ∧ (∃ de, sl !! Z.to_nat k = Some de ∧ P de = true) ∧ ∀ j de, 0 ≤ j < k → sl !! Z.to_nat j = Some de → P de = false.

Lemma first_at_split P sl k : first_at P sl k →
  ∃ pre de post, sl = pre ++ de :: post ∧ zlen pre = k ∧ P de = true ∧ Forall (λ de, P de = false) pre.
Proof.
  intros (Hk & (de & Hde & HP) & Hpre). exists (take (Z.to_nat k) sl), de, (drop (S (Z.to_nat k)) sl). split_and!.
  - symmetry. by apply take_drop_middle.
  - apply lookup_lt_Some in Hde. unfold zlen. rewrite length_take. lia.
  - done.
  - apply Forall_lookup. intros j x Hj. apply lookup_take_Some in Hj as [Hj Hlt]. apply (Hpre (Z.of_nat j)); [lia|]. by rewrite Nat2Z.id.
Qed.

Lemma entries_app a b : entries (a ++ b) = entries a ++ entries b.
Proof. unfold entries. by rewrite filter_app, fmap_app. Qed.

Lemma entries_cons de b : entries (de :: b) = (if live de then [(cut (de_name de), de_inode de)] else []) ++ entries b.
Proof. unfold entries. rewrite filter_cons. unfold Is_true. by destruct (live de). Qed.

Lemma not_named_keys t pre : Forall (λ de, named t de = false) pre → t ∉ (entries pre).*1.
Proof.
  induction 1 as [|de pre Hde _ IH]; [apply not_elem_of_nil|]. rewrite entries_cons, fmap_app, elem_of_app. intros [H|H]; [|done].
  unfold named in Hde. destruct (live de); [|by apply elem_of_nil in H]. cbn in H. apply list_elem_of_singleton in H. by rewrite bool_decide_true in Hde.
Qed.

Lemma dirmap_None sl t : Forall (λ de, named t de = false) sl → dirmap sl !! t = None.
Proof. intros H. apply not_elem_of_list_to_map_1. by apply not_named_keys. Qed.

Lemma dirmap_first pre de post t : Forall (λ de, named t de = false) pre → named t de = true → dirmap (pre ++ de :: post) !! t = Some (de_inode de).
Proof.
  intros Hpre Hde. unfold dirmap. rewrite entries_app, list_to_map_app, lookup_union_r by by apply not_elem_of_list_to_map_1, not_named_keys.
  apply andb_true_iff in Hde as [Hl Hn]. rewrite entries_cons, Hl. apply bool_decide_eq_true in Hn. cbn. by rewrite Hn, lookup_insert_eq.
Qed.

(** A name that is not there is put in a free slot. *)
Lemma dirmap_add pre de post new t c :
  dir_uniq (pre ++ de :: post) → live de = false → dirmap (pre ++ de :: post) !! t = None → cut (de_name new) = t → de_inode new = c → c ≠ 0 →
  dirmap (pre ++ new :: post) = <[t := c]> (dirmap (pre ++ de :: post)) ∧ dir_uniq (pre ++ new :: post).
Proof.
  intros Hu Hde Ht Hnm Hc Hc0. assert (live new = true) as Hnew by (unfold live; rewrite Hc; by destruct (Z.eqb_spec c 0)).
  assert (entries (pre ++ new :: post) ≡ₚ (t, c) :: entries (pre ++ de :: post)) as Hp.
  { rewrite !entries_app, !entries_cons, Hnew, Hde, Hnm, Hc. symmetry. apply Permutation_middle. }
  apply not_elem_of_list_to_map_2 in Ht.
  assert (NoDup ((t, c) :: entries (pre ++ de :: post)).*1) as Hnd by (apply NoDup_cons; split; done).
  split.
  - unfold dirmap. symmetry. by rewrite <-(list_to_map_proper _ _ Hnd (Permutation_sym Hp)).
  - unfold dir_uniq. by rewrite Hp.
Qed.

(** A name is taken out. *)
Lemma dirmap_remove pre de post new t :
  dir_uniq (pre ++ de :: post) → named t de = true → live new = false →
  dirmap (pre ++ new :: post) = delete t (dirmap (pre ++ de :: post)) ∧ dir_uniq (pre ++ new :: post).
Proof.
  intros Hu Hde Hnew. apply andb_true_iff in Hde as [Hl Hn]. apply bool_decide_eq_true in Hn.
  assert (entries (pre ++ de :: post) ≡ₚ (t, de_inode de) :: entries (pre ++ new :: post)) as Hp.
  { rewrite !entries_app, !entries_cons, Hnew, Hl, Hn. symmetry. apply Permutation_middle. }
  unfold dir_uniq in *. pose proof Hu as Hnd. rewrite Hp in Hnd. cbn in Hnd. apply NoDup_cons in Hnd as [Hnot Hnd]. split; [|done].
  unfold dirmap. rewrite (list_to_map_proper _ _ Hu Hp). cbn. symmetry. apply delete_insert_id. by apply not_elem_of_list_to_map_1.
Qed.

(** A directory that grows by empty slots. *)
Lemma entries_empty sl : Forall (λ de, live de = false) sl → entries sl = [].
Proof. induction 1 as [|de sl Hde _ IH]; [done|]. by rewrite entries_cons, Hde, IH. Qed.

Lemma dirmap_grow sl new rest t c :
  dir_uniq sl → Forall (λ de, live de = false) rest → dirmap sl !! t = None → cut (de_name new) = t → de_inode new = c → c ≠ 0 →
  dirmap (sl ++ new :: rest) = <[t := c]> (dirmap sl) ∧ dir_uniq (sl ++ new :: rest).
Proof.
  intros Hu Hr Ht Hnm Hc Hc0. destruct (dirmap_add sl (mk_dirent 0 []) rest new t c) as [H1 H2]; try done.
  - unfold dir_uniq. by rewrite entries_app, entries_cons, (entries_empty rest), !app_nil_r.
  - unfold dirmap. by rewrite entries_app, entries_cons, (entries_empty rest), !app_nil_r.
  - split; [|done]. rewrite H1. f_equal. unfold dirmap. by rewrite entries_app, entries_cons, (entries_empty rest), !app_nil_r.
Qed.

(** ** A directory block *)

Definition dir_block (buf : list Z) : Prop := zlen buf = HNXFS_BLOCK_SIZE ∧ bytes buf.

Lemma dirent_at_ne buf off x s : 0 ≤ off → off + zlen x ≤ zlen buf → 0 ≤ s → (s * 128 + 128 ≤ off ∨ off + zlen x ≤ s * 128) →
  dirent_at (zsplice buf off x) s = dirent_at buf s.
Proof.
  intros H1 H2 H3 H4. unfold dirent_at, le_at. rewrite !zslice_zsplice_ne; [done|unfold HNXFS_NAME_MAX; lia..].
Qed.

Lemma insert_zsplice {A} (l : list A) i x : 0 ≤ i < zlen l → <[Z.to_nat i := x]> l = zsplice l i [x].
Proof.
  intros Hi. apply list_eq_Z. intros j Hj. assert (zlen [x] = 1) as H1 by done. rewrite lookup_insert_Z, lookup_zsplice, H1 by (rewrite ?H1; lia).
  destruct (decide (i = j)) as [->|]; [|by rewrite decide_False by lia]. rewrite decide_True by lia. by replace (j - j) with 0 by lia.
Qed.

Lemma set_dirent_spec buf s child name t :
  dir_block buf → 0 ≤ s < HNXFS_DIRENTS_PER_BLOCK → is_u64 child → cstr name t → bytes t → zlen t < 2 ^ 64 →
  ∃ buf' new, set_dirent buf s child name = Ret buf' ∧ dir_block buf' ∧ de_inode new = child ∧ cut (de_name new) = take 119 t ∧
    ∀ j, 0 ≤ j < HNXFS_DIRENTS_PER_BLOCK → dirent_at buf' j = if decide (j = s) then new else dirent_at buf j.
Proof.
  intros [Hz Hb] Hs Hc Hn Ht Hl. unfold set_dirent, HNXFS_BLOCK_SIZE, HNXFS_DIRENTS_PER_BLOCK in *.
  assert (zlen (le_bytes 8 child) = 8) as H8 by apply zlen_le_bytes.
  rewrite memcpy_from_spec by lia. rewrite (zslice_all (le_bytes 8 child)) by done. cbn [mbind outcome_bind].
  set (b1 := zsplice buf (s * 128) (le_bytes 8 child)). assert (zlen b1 = 4096) as Hz1 by (unfold b1; rewrite zlen_zsplice; lia).
  assert (bytes b1) as Hb1 by (apply bytes_zsplice; [done|apply bytes_le_bytes]).
  set (dst := de_name (dirent_at b1 s)). assert (zlen dst = HNXFS_NAME_MAX) as Hd by (apply zlen_zslice; unfold HNXFS_NAME_MAX; lia).
  assert (bytes dst) as Hdb by (by apply bytes_zslice).
  rewrite (strlcpy_spec dst name t) by (done || rewrite Hd; unfold HNXFS_NAME_MAX; lia). cbn [mbind outcome_bind].
  change (HNXFS_NAME_MAX =? 0) with false. change (Z.to_nat (HNXFS_NAME_MAX - 1)) with 119%nat. cbn iota. set (nm := take 119 t ++ 0 :: _).
  assert (length (take 119 t) ≤ 119)%nat as Htl by (rewrite length_take; lia).
  assert (zlen nm = HNXFS_NAME_MAX) as Hnm.
  { unfold nm. rewrite zlen_app, zlen_cons. unfold zlen in *. rewrite length_drop. unfold HNXFS_NAME_MAX in *. lia. }
  assert (bytes nm) as Hnb.
  { unfold nm. apply Forall_app. split; [by apply Forall_take|]. apply Forall_cons. split; [done|]. by apply Forall_drop. }
  unfold HNXFS_NAME_MAX in *. rewrite memcpy_from_spec by lia. rewrite (zslice_all nm) by done. cbn [mbind outcome_bind].
  eexists _, (mk_dirent child nm). split; [done|]. split; [split; [rewrite zlen_zsplice; unfold HNXFS_BLOCK_SIZE; lia|by apply bytes_zsplice]|]. split; [done|].
  split; [apply cut_app; intros Hin; apply elem_of_take in Hin as (i & Hi & _); destruct Hn as [Hn _]; by apply Hn, (list_elem_of_lookup_2 t i)|].
  intros j Hj. dec_if as E.
  - subst j. unfold dirent_at, le_at, HNXFS_NAME_MAX. f_equal.
    + rewrite zslice_zsplice_ne by lia. unfold b1. rewrite <-H8, zslice_zsplice by lia. by apply le_int_bytes.
    + rewrite <-Hnm. apply zslice_zsplice; lia.
  - rewrite dirent_at_ne by lia. unfold b1. apply dirent_at_ne; lia.
Qed.

Lemma clear_dirent_spec buf s :
  dir_block buf → 0 ≤ s < HNXFS_DIRENTS_PER_BLOCK →
  ∃ buf' new, clear_dirent buf s = Ret buf' ∧ dir_block buf' ∧ live new = false ∧
    ∀ j, 0 ≤ j < HNXFS_DIRENTS_PER_BLOCK → dirent_at buf' j = if decide (j = s) then new else dirent_at buf j.
Proof.
  intros [Hz Hb] Hs. unfold clear_dirent, HNXFS_BLOCK_SIZE, HNXFS_DIRENTS_PER_BLOCK in *.
  assert (zlen (le_bytes 8 0) = 8) as H8 by apply zlen_le_bytes.
  rewrite memcpy_from_spec by lia. rewrite (zslice_all (le_bytes 8 0)) by done. cbn [mbind outcome_bind].
  set (b1 := zsplice buf (s * 128) (le_bytes 8 0)). assert (zlen b1 = 4096) as Hz1 by (unfold b1; rewrite zlen_zsplice; lia).
  assert (bytes b1) as Hb1 by (apply bytes_zsplice; [done|apply bytes_le_bytes]).
  rewrite aset_in, insert_zsplice by lia. eexists _, (dirent_at (zsplice b1 (s * 128 + 8) [0]) s). split; [done|].
  assert (zlen [0] = 1) as H1 by done. split; [split; [rewrite zlen_zsplice; unfold HNXFS_BLOCK_SIZE; lia|apply bytes_zsplice; [done|by repeat constructor]]|]. split.
  - unfold live, dirent_at, le_at. cbn [de_inode]. rewrite zslice_zsplice_ne by lia. unfold b1. rewrite <-H8, zslice_zsplice by lia. done.
  - intros j Hj. dec_if as E; [by subst j|]. rewrite dirent_at_ne by lia. unfold b1. apply dirent_at_ne; lia.
Qed.

(** The first slot of a block that satisfies [P]. *)
Lemma scan_block (f : Z → unit → outcome (unit + Z)) (P : hnxfs_dirent → bool) buf :
  (∀ s, 0 ≤ s < HNXFS_DIRENTS_PER_BLOCK → f s tt = Ret (if P (dirent_at buf s) then inr s else inl tt)) →
  ∃ r, find_range 0 HNXFS_DIRENTS_PER_BLOCK f tt = Ret r ∧
    match r with
    | inl _ => ∀ j, 0 ≤ j < HNXFS_DIRENTS_PER_BLOCK → P (dirent_at buf j) = false
    | inr s => 0 ≤ s < HNXFS_DIRENTS_PER_BLOCK ∧ P (dirent_at buf s) = true ∧ ∀ j, 0 ≤ j < s → P (dirent_at buf j) = false
    end.
Proof.
  intros Hf. destruct (find_range_inv (λ s (_ : unit), ∀ j, 0 ≤ j < s → P (dirent_at buf j) = false)
    (λ s, 0 ≤ s < HNXFS_DIRENTS_PER_BLOCK ∧ P (dirent_at buf s) = true ∧ ∀ j, 0 ≤ j < s → P (dirent_at buf j) = false)
    f 0 HNXFS_DIRENTS_PER_BLOCK tt) as [(r & E & H)|(r & E & H)]; [done| |lia|eauto|eauto].
  intros s [] Hs Hj. rewrite Hf by done. destruct (P (dirent_at buf s)) eqn:E; [right; eauto|left]. exists tt. split; [done|].
  intros j Hj'. destruct (decide (j = s)) as [->|]; [done|apply Hj; lia].
Qed.

Lemma dirent_name_block buf s : dir_block buf → 0 ≤ s < HNXFS_DIRENTS_PER_BLOCK →
  length (de_name (dirent_at buf s)) = Z.to_nat HNXFS_NAME_MAX ∧ bytes (de_name (dirent_at buf s)).
Proof.
  intros [Hz Hb] Hs. unfold HNXFS_BLOCK_SIZE, HNXFS_DIRENTS_PER_BLOCK in *. split; [|by apply bytes_zslice].
  assert (zlen (de_name (dirent_at buf s)) = HNXFS_NAME_MAX) as H by (apply zlen_zslice; unfold HNXFS_NAME_MAX; lia). unfold zlen in H. lia.
Qed.

Lemma match_slot_spec name t buf s :
  dir_block buf → cstr name t → bytes t → 0 ≤ s < HNXFS_DIRENTS_PER_BLOCK →
  match_slot name buf s tt = Ret (if named (take 120 t) (dirent_at buf s) then inr s else inl tt).
Proof.
  intros Hb Hn Ht Hs. destruct (dirent_name_block buf s Hb Hs) as [Hl Hy]. unfold match_slot, named. fold (live (dirent_at buf s)).
  destruct (live (dirent_at buf s)); [|done]. unfold name_eq. rewrite <-Hl.
  destruct (strncmp_cut (de_name (dirent_at buf s)) name t Hy Hn Ht) as (r & -> & Hr). cbn [mbind outcome_bind andb].
  rewrite Hl in Hr. change (Z.to_nat HNXFS_NAME_MAX) with 120%nat in Hr.
  destruct (Z.eqb_spec r 0) as [E|E]; [rewrite bool_decide_true by by apply Hr|rewrite bool_decide_false by (intros E'; by apply E, Hr)]; done.
Qed.

(** ** Directories on disk *)

Section Dir.
Context {St : Type} {DI : Disk St} {DL : DiskLaws St}.
Context (sb : hnxfs_superblock) {Hlay : layout sb}.
Implicit Types (s : St) (v : gmap Z (list Z)).
Local Notation whole := (whole sb).
Local Notation owned := (owned sb).
Local Notation itab := (itab sb).
Local Notation fs_ok := (fs_ok sb).
Local Notation is_inode := (is_inode sb).
Local Notation others := (others sb).
Local Notation frame := (frame sb).

(** The number of block [b], and the slots of all blocks. *)
Definition dptr (d : hnxfs_inode) (b : Z) : Z := default 0 (in_direct d !! Z.to_nat b).
Definition slot_at v (d : hnxfs_inode) (k : Z) : hnxfs_dirent :=
  dirent_at (blk v (dptr d (k / HNXFS_DIRENTS_PER_BLOCK))) (k mod HNXFS_DIRENTS_PER_BLOCK).
Definition dslots v (d : hnxfs_inode) : list hnxfs_dirent := slot_at v d <$> seqZ 0 (HNXFS_DIRENTS_PER_BLOCK * in_blocks d).

(** A directory has no holes and its size is that of its blocks. *)
Definition dir_ok (d : hnxfs_inode) : Prop :=
  in_type d = HNXFS_TYPE_DIR ∧ in_size d = in_blocks d * HNXFS_BLOCK_SIZE ∧ ∀ b, 0 ≤ b < in_blocks d → ∃ p, ptr d b p.

Lemma lookup_dslots v d k : 0 ≤ k → dslots v d !! Z.to_nat k = if decide (k < HNXFS_DIRENTS_PER_BLOCK * in_blocks d) then Some (slot_at v d k) else None.
Proof.
  intros Hk. unfold dslots. rewrite list_lookup_fmap. dec_if as H.
  - rewrite lookup_seqZ_lt by lia. cbn [fmap option_fmap option_map]. do 2 f_equal. lia.
  - by rewrite lookup_seqZ_ge by lia.
Qed.

Lemma slot_at_block v d b j : 0 ≤ j < HNXFS_DIRENTS_PER_BLOCK → slot_at v d (HNXFS_DIRENTS_PER_BLOCK * b + j) = dirent_at (blk v (dptr d b)) j.
Proof.
  intros Hj. unfold slot_at, HNXFS_DIRENTS_PER_BLOCK in *.
  replace ((32 * b + j) / 32) with b by zlia. by replace ((32 * b + j) mod 32) with j by zlia.
Qed.

Lemma dptr_ptr d b : dir_ok d → 0 ≤ b < in_blocks d → ptr d b (dptr d b).
Proof. intros (_ & _ & H) Hb. destruct (H b Hb) as (p & Hp). pose proof Hp as (_ & E & _). unfold dptr. by rewrite E. Qed.

Lemma dir_block_in v num b : fs_ok v → is_inode num → dir_ok (itab v num) → 0 ≤ b < in_blocks (itab v num) →
  0 ≤ dptr (itab v num) b < sb_total_blocks sb ∧ dir_block (blk v (dptr (itab v num) b)).
Proof.
  intros (Hw & Ho & _) Hn Hd Hb. pose proof (dptr_ptr _ _ Hd Hb) as Hp. destruct (ptr_pos sb _ _ _ _ _ Ho Hn Hp) as [Hin _].
  split; [done|]. destruct (whole_blk sb v _ Hw Hin) as (_ & Hz & Hy). by split.
Qed.

Lemma read_dir_spec s v num : dsees s v → fs_ok v → is_inode num → dir_ok (itab v num) →
  wp (read_dir sb num) s (λ r s', r = Some (itab v num) ∧ dsees s' v).
Proof.
  intros Hs (Hw & _) Hn (Ht & _). unfold read_dir. wstep (read_inode_spec sb); [done|done|done|]. intros r s1 [-> Hs1]. apply wp_ret.
  by rewrite Ht.
Qed.

(** A loop that acts on the first slot that satisfies [P]. *)
Lemma dir_scan {R} s v num (visit : Z → list Z → unit → stM St (unit + R)) P (Q : Z → R → St → Prop) :
  dsees s v → fs_ok v → is_inode num → dir_ok (itab v num) →
  (∀ b s, 0 ≤ b < in_blocks (itab v num) → dsees s v → let buf := blk v (dptr (itab v num) b) in dir_block buf →
    wp (visit (dptr (itab v num) b) buf tt) s (λ r s', match r with
      | inl _ => dsees s' v ∧ ∀ j, 0 ≤ j < HNXFS_DIRENTS_PER_BLOCK → P (dirent_at buf j) = false
      | inr a => ∃ j, 0 ≤ j < HNXFS_DIRENTS_PER_BLOCK ∧ P (dirent_at buf j) = true ∧ (∀ i, 0 ≤ i < j → P (dirent_at buf i) = false) ∧
          (first_at P (dslots v (itab v num)) (HNXFS_DIRENTS_PER_BLOCK * b + j) → Q (HNXFS_DIRENTS_PER_BLOCK * b + j) a s')
      end)) →
  wp (dir_blocks (itab v num) visit tt) s (λ r s', match r with
    | inl _ => dsees s' v ∧ Forall (λ de, P de = false) (dslots v (itab v num))
    | inr a => ∃ k, first_at P (dslots v (itab v num)) k ∧ Q k a s'
    end).
Proof.
  intros Hs Hok Hn Hd Hvisit. set (d := itab v num) in *. unfold dir_blocks. pose proof Hok as (Hw & Ho & _).
  destruct (ow_fits _ _ _ Ho num Hn) as [(_ & _ & _ & Hbl & _ & Hl & _) Hbl2]. fold d in Hbl, Hl, Hbl2. unfold is_u64 in Hbl.
  rewrite Z.min_l by done. set (B := HNXFS_DIRENTS_PER_BLOCK) in *.
  eapply wp_mono; [apply (wp_seek (λ b (_ : unit) s, dsees s v ∧ ∀ k, 0 ≤ k < B * b → P (slot_at v d k) = false)
    (λ a s, ∃ k, first_at P (dslots v d) k ∧ Q k a s)); [lia| |split; [done|lia]]|].
  - intros b [] s1 Hb [Hs1 Hno]. destruct (dir_block_in v num b Hok Hn Hd Hb) as [Hin Hblk]. fold d in Hin, Hblk.
    eapply wp_lift_bind; [apply (aget_Some _ _ (dptr d b)); [lia|]; apply (dptr_ptr d b Hd Hb)|].
    wstep (read_blk sb); [done|done|done|]. intros r s2 [-> Hs2]. eapply wp_mono; [by apply Hvisit|]. intros [[]|a] s3 H; cbn beta iota in H.
    + destruct H as [Hs3 H]. split; [done|]. intros k Hk. destruct (decide (k < B * b)); [apply Hno; lia|].
      replace k with (B * b + (k - B * b)) by lia. unfold B. rewrite slot_at_block by (fold B; lia). apply H. lia.
    + destruct H as (j & Hj & HP & Hpre & HQ). assert (first_at P (dslots v d) (B * b + j)) as Hfirst; [|eauto].
      assert (0 < B) by done. split; [lia|]. split.
      * exists (dirent_at (blk v (dptr d b)) j). split; [|done]. rewrite lookup_dslots, decide_True by (fold B; nia). f_equal. by apply slot_at_block.
      * intros k de Hk. rewrite lookup_dslots, decide_True by (fold B; nia). intros [= <-]. destruct (decide (k < B * b)); [apply Hno; lia|].
        replace k with (B * b + (k - B * b)) by lia. unfold B. rewrite slot_at_block by (fold B; lia). apply Hpre. lia.
  - intros [[]|a] s1 H; [|done]. destruct H as [Hs1 H]. split; [done|]. apply Forall_lookup. intros k de Hk. rewrite <-(Nat2Z.id k) in Hk.
    rewrite lookup_dslots in Hk by lia. destruct (decide _); [|done]. injection Hk as <-. apply H. fold B. lia.
Qed.

Lemma dir_lookup_spec s v num name t :
  dsees s v → fs_ok v → is_inode num → dir_ok (itab v num) → cstr name t → bytes t →
  wp (hnxfs_dir_lookup sb num name) s (λ r s', r = default 0 (dirmap (dslots v (itab v num)) !! take 120 t) ∧ dsees s' v).
Proof.
  intros Hs Hok Hn Hd Hname Ht. unfold hnxfs_dir_lookup. wstep read_dir_spec; [done|done|done|done|]. intros r s1 [-> Hs1].
  wstep (dir_scan s1 v num (lookup_visit name) (named (take 120 t)) (λ k a s', (∀ de, dslots v (itab v num) !! Z.to_nat k = Some de → a = de_inode de) ∧ dsees s' v));
    [done|done|done|done| |].
  - intros b s2 Hb Hs2 buf Hbuf. unfold lookup_visit. destruct (scan_block (match_slot name buf) (named (take 120 t)) buf) as (r & E & Hr).
    { intros j Hj. by apply match_slot_spec. }
    eapply wp_lift_bind; [exact E|]. apply wp_ret. destruct r as [[]|j]; [done|]. exists j. destruct Hr as (H1 & H2 & H3). split_and!; try done; try lia.
    intros _. split; [|done]. intros de Hde. rewrite lookup_dslots in Hde by (unfold HNXFS_DIRENTS_PER_BLOCK in *; lia). destruct (decide _); [|done]. injection Hde as <-.
    by rewrite slot_at_block.
  - intros [[]|a] s2 H; apply wp_ret.
    + destruct H as [Hs2 H]. split; [|done]. by rewrite dirmap_None.
    + destruct H as (k & Hk & Ha & Hs2). split; [|done]. destruct (first_at_split _ _ _ Hk) as (pre & de & post & E & Hz & Hde & Hpre).
      rewrite E at 1. rewrite dirmap_first by done. cbn [default]. apply Ha. rewrite E. unfold zlen in Hz. rewrite <-Hz, Nat2Z.id. by apply list_lookup_middle.
Qed.

(** A slot of a directory is replaced. *)
Lemma dir_write v num b j buf' new :
  fs_ok v → is_inode num → dir_ok (itab v num) → 0 ≤ b < in_blocks (itab v num) → 0 ≤ j < HNXFS_DIRENTS_PER_BLOCK → dir_block buf' →
  (∀ i, 0 ≤ i < HNXFS_DIRENTS_PER_BLOCK → dirent_at buf' i = if decide (i = j) then new else dirent_at (blk v (dptr (itab v num) b)) i) →
  let v' := <[dptr (itab v num) b := buf']> v in
  fs_ok v' ∧ others v v' num ∧ itab v' num = itab v num ∧
  dslots v' (itab v num) = <[Z.to_nat (HNXFS_DIRENTS_PER_BLOCK * b + j) := new]> (dslots v (itab v num)).
Proof.
  intros Hok Hn Hd Hb Hj [Hz Hy] Hbuf v'. pose proof Hok as (Hw & Ho & Ht). pose proof (dptr_ptr _ _ Hd Hb) as Hp.
  destruct (data_write sb (itab v) v num b _ buf' Hw Ho Hn Hp Hz Hy) as (Hw' & Ho' & Hf & Hfb). fold v' in Hw', Ho', Hf, Hfb.
  assert (∀ i, is_inode i → itab v' i = itab v i) as Hit by (intros i Hi; by apply (itab_frame sb (itab v) num)).
  split_and!.
  - split; [done|]. split; [by apply (owned_ext sb (itab v) _ v')|]. intros i pos Hi Hpos. rewrite Hit in * by done.
    destruct (decide (i = num)) as [->|Hne].
    + destruct Hd as (_ & Hsz & _). pose proof (itab_size sb v num Hw Hn). rewrite Hfb by lia. rewrite decide_False; [by apply Ht|]. unfold HNXFS_BLOCK_SIZE in *. zlia.
    + destruct Hf as [_ Hf]. pose proof (itab_size sb v i Hw Hi). rewrite Hf by (done || lia). by apply Ht.
  - split.
    + destruct (ow_data _ _ _ Ho num b _ Hn Hp) as [Hdata _]. unfold v'. rewrite blk_insert_ne; [done|]. intros E. destruct Hlay. unfold is_data, HNXFS_INODES_PER_BLOCK in *. lia.
    + intros i Hi Hne. rewrite Hit by done. split; [done|]. apply fdata_ext; [done|]. intros pos Hpos. by apply Hf.
  - by apply Hit.
  - apply list_eq_Z. intros k Hk. set (B := HNXFS_DIRENTS_PER_BLOCK) in *. assert (B = 32) as EB by done.
    assert (zlen (dslots v (itab v num)) = B * in_blocks (itab v num)) as Hlen by (unfold dslots, zlen; rewrite length_fmap, length_seqZ; fold B; lia).
    rewrite lookup_insert_Z, !lookup_dslots by (rewrite ?Hlen; nia). fold B.
    destruct (decide (k < B * in_blocks (itab v num))) as [Hlt|]; [|rewrite decide_False by nia; done].
    unfold slot_at. fold B. destruct (decide (k / B = b)) as [Eb|Eb].
    + rewrite Eb. unfold v'. rewrite blk_insert. rewrite Hbuf by (apply Z.mod_pos_bound; lia).
      destruct (decide (k mod B = j)) as [Ej|Ej]; [rewrite decide_True by (rewrite EB in *; zlia); done|rewrite decide_False by (rewrite EB in *; zlia); done].
    + rewrite decide_False by (rewrite EB in *; zlia). unfold v'. rewrite blk_insert_ne; [done|]. intros E.
      assert (ptr (itab v num) (k / B) (dptr (itab v num) (k / B))) as Hp2 by (apply dptr_ptr; [done|rewrite EB in *; zlia]).
      rewrite <-E in Hp2. destruct (ow_inj _ _ _ Ho num b num (k / B) _ Hn Hn Hp Hp2) as [_ E']. congruence.
Qed.

Lemma dirent_zero j : live (dirent_at g_zero_block j) = false.
Proof.
  unfold live, dirent_at, le_at, g_zero_block, zslice. cbn [de_inode]. rewrite drop_replicate, take_replicate.
  induction (Z.to_nat 8 `min` _)%nat as [|n IH]; [done|]. cbn [replicate le_int]. destruct (Z.eqb_spec (le_int (replicate n 0)) 0) as [->|]; done.
Qed.

(** A directory gets a new block of empty slots. *)
Lemma dir_grow v num k :
  fs_ok v → is_inode num → dir_ok (itab v num) → in_blocks (itab v num) < HNXFS_DIRECT → 0 ≤ k < sb_data_block_count sb → dbit sb v k = false →
  let p := sb_data_block_start sb + k in let d := itab v num in
  let d' := set_size (give_block d (in_blocks d) p) ((in_blocks d + 1) * HNXFS_BLOCK_SIZE) in
  let v' := put_inode sb (claim_block sb v k) num d' in
  inode_fits d' ∧ fs_ok v' ∧ others v v' num ∧ itab v' num = d' ∧ dir_ok d' ∧ in_blocks d' = in_blocks d + 1 ∧ dptr d' (in_blocks d) = p ∧
  blk v' p = g_zero_block ∧ ∃ rest, Forall (λ de, live de = false) rest ∧ zlen rest = HNXFS_DIRENTS_PER_BLOCK ∧ dslots v' d' = dslots v d ++ rest.
Proof.
  intros Hok Hn Hd Hbl Hk Hbit p d d' v'. pose proof Hok as (Hw & Ho & Ht). destruct (ow_fits _ _ _ Ho num Hn) as [Hfit _]. pose proof Hfit as (_ & _ & _ & Hb0 & _ & Hl & _).
  fold d in Hfit, Hl, Hb0, Hbl, Hd. unfold is_u64 in Hb0. assert (is_data sb p) as Hpd by (unfold is_data, p; lia).
  destruct (data_in sb p Hpd) as (Hpin & _ & Hp0 & _). pose proof (lay_total _ Hlay) as Htot. unfold DISK_MAX in Htot.
  destruct (give_block_fields d (in_blocks d) p) as (_ & _ & _ & _ & Eblk). rewrite Z.max_r in Eblk by lia.
  assert (inode_fits d') as Hfit'.
  { apply set_size_fits; [apply give_block_fits; [done|lia|unfold is_u64; lia]|]. unfold is_u64, HNXFS_DIRECT, HNXFS_BLOCK_SIZE in *. lia. }
  assert (in_direct d !! Z.to_nat (in_blocks d) = Some 0) as Hfree.
  { destruct (lookup_in (in_direct d) (in_blocks d)) as [q Hq]; [lia|]. destruct (decide (q = 0)) as [->|Hq0]; [done|].
    pose proof (ow_hole _ _ _ Ho num (in_blocks d) q Hn) as H. fold d in H. assert (in_blocks d < in_blocks d); [|lia]. apply H. split; [lia|done]. }
  assert (owned (upd (itab v) num (give_block d (in_blocks d) p)) (claim_block sb v k)) as Ho1 by (apply owned_give; done || lia).
  destruct (put_inode_others sb v (claim_block sb v k) num (give_block d (in_blocks d) p) d') as (Hok' & Hit & Hoth & _);
    [done|by apply claim_block_whole|done|by apply claim_block_frame|done|done|done|done| |].
  { change (in_size d') with ((in_blocks d + 1) * HNXFS_BLOCK_SIZE). intros pos Hpos. destruct Hd as (_ & Hsz & _).
    assert (in_size d ≤ pos ∧ 0 ≤ pos) as [H1 H2] by (unfold HNXFS_BLOCK_SIZE in *; lia).
    transitivity (fbyte v d pos); [apply (claim_block_give sb v (itab v)); done || lia|by apply Ht]. }
  assert (∀ c, dptr d' c = if decide (Z.to_nat c = Z.to_nat (in_blocks d)) then p else dptr d c) as Hdp.
  { intros c. unfold dptr. change (in_direct d') with (in_direct (give_block d (in_blocks d) p)). rewrite give_block_direct. dec_if as E.
    - rewrite E, list_lookup_insert_eq by (unfold zlen in Hl; lia). done.
    - by rewrite list_lookup_insert_ne. }
  assert (blk v' p = g_zero_block) as Hzero.
  { unfold v'. rewrite (put_inode_frame sb) by auto. apply blk_insert. }
  assert (∀ c, 0 ≤ c < in_blocks d → blk v' (dptr d c) = blk v (dptr d c)) as Hold.
  { intros c Hc. pose proof (dptr_ptr d c Hd Hc) as Hq. destruct (ow_data _ _ _ Ho num c _ Hn Hq) as [Hqd Hqb]. destruct (data_in sb _ Hqd) as (_ & Hqne & _).
    unfold v'. rewrite (put_inode_frame sb) by auto. apply claim_block_blk; [done|]. intros E. rewrite E in Hqb.
    replace (sb_data_block_start sb + k - sb_data_block_start sb) with k in Hqb by lia. congruence. }
  split_and!; try done.
  - destruct Hd as (Hty & _ & Hptr). split; [|split].
    + change (in_type d') with (in_type (give_block d (in_blocks d) p)). by destruct (give_block_fields d (in_blocks d) p) as (-> & _).
    + change (in_blocks d') with (in_blocks (give_block d (in_blocks d) p)). by rewrite Eblk.
    + change (in_blocks d') with (in_blocks (give_block d (in_blocks d) p)). rewrite Eblk. intros c Hc.
      assert (∃ q, ptr (give_block d (in_blocks d) p) c q) as [q Hq]; [|by exists q].
      destruct (decide (c = in_blocks d)) as [->|Hne]; [exists p; apply give_block_ptr; [done|lia|by left]|].
      destruct (Hptr c) as [q Hq]; [lia|]. exists q. apply give_block_ptr; [done|lia|by right].
  - rewrite Hdp. by rewrite decide_True.
  - exists (slot_at v' d' <$> seqZ (HNXFS_DIRENTS_PER_BLOCK * in_blocks d) HNXFS_DIRENTS_PER_BLOCK). split_and!.
    + apply Forall_fmap, Forall_forall. intros c Hc%elem_of_seqZ. cbn [compose]. unfold slot_at. unfold HNXFS_DIRENTS_PER_BLOCK in *.
      rewrite Hdp, decide_True by zlia. rewrite Hzero. apply dirent_zero.
    + done.
    + unfold dslots. change (in_blocks d') with (in_blocks (give_block d (in_blocks d) p)). rewrite Eblk.
      replace (HNXFS_DIRENTS_PER_BLOCK * (in_blocks d + 1)) with (HNXFS_DIRENTS_PER_BLOCK * in_blocks d + HNXFS_DIRENTS_PER_BLOCK) by lia.
      unfold HNXFS_DIRENTS_PER_BLOCK in *. rewrite seqZ_app, fmap_app by lia. rewrite Z.add_0_l. f_equal. apply list_fmap_ext. intros i c Hc.
      apply lookup_seqZ in Hc as [-> Hc]. unfold slot_at, HNXFS_DIRENTS_PER_BLOCK. rewrite Hdp, decide_False by zlia. by rewrite Hold by zlia.
Qed.

Lemma others_trans v1 v2 v3 num : others v1 v2 num → others v2 v3 num → others v1 v3 num.
Proof.
  intros [A1 B1] [A2 B2]. split; [congruence|]. intros j Hj Hne. destruct (B1 j Hj Hne), (B2 j Hj Hne). split; congruence.
Qed.

Lemma insert_split {A} (pre : list A) x y post : <[Z.to_nat (zlen pre) := y]> (pre ++ x :: post) = pre ++ y :: post.
Proof. unfold zlen. rewrite Nat2Z.id. replace (length pre) with (length pre + 0)%nat by lia. by rewrite insert_app_r. Qed.

(** What a name operation leaves: a file system in which only this directory is changed, and its new map. *)
Definition dir_result v v' (num : Z) (m : gmap (list Z) Z) : Prop :=
  fs_ok v' ∧ others v v' num ∧ dir_ok (itab v' num) ∧ dir_uniq (dslots v' (itab v' num)) ∧ dirmap (dslots v' (itab v' num)) = m.

Lemma dir_add_old v num k child name t :
  fs_ok v → is_inode num → dir_ok (itab v num) → dir_uniq (dslots v (itab v num)) → cstr name t → bytes t → zlen t < HNXFS_NAME_MAX → is_u64 child → child ≠ 0 →
  dirmap (dslots v (itab v num)) !! t = None → first_at (λ de, negb (live de)) (dslots v (itab v num)) k →
  ∀ b j, k = HNXFS_DIRENTS_PER_BLOCK * b + j → 0 ≤ b < in_blocks (itab v num) → 0 ≤ j < HNXFS_DIRENTS_PER_BLOCK →
  ∃ buf', set_dirent (blk v (dptr (itab v num) b)) j child name = Ret buf' ∧ dir_block buf' ∧
    dir_result v (<[dptr (itab v num) b := buf']> v) num (<[t := child]> (dirmap (dslots v (itab v num)))).
Proof.
  intros Hok Hn Hd Hu Hname Ht Hlt Hc Hc0 Hnew Hfirst b j -> Hb Hj. destruct (dir_block_in v num b Hok Hn Hd Hb) as [_ Hblk].
  destruct (set_dirent_spec _ j child name t Hblk Hj Hc Hname Ht) as (buf' & new & E & Hblk' & Hin & Hcut & Hslots); [unfold HNXFS_NAME_MAX in *; lia|].
  exists buf'. split; [done|]. split; [done|].
  destruct (dir_write v num b j buf' new Hok Hn Hd Hb Hj Hblk' Hslots) as (Hok' & Hoth & Hit & Hds).
  destruct (first_at_split _ _ _ Hfirst) as (pre & de & post & Es & Hz & Hde & _). rewrite <-Hz, Es, insert_split in Hds. rewrite Es in Hu, Hnew.
  destruct (dirmap_add pre de post new t child) as [H1 H2]; try done.
  { by destruct (live de). }
  { rewrite Hcut. apply take_ge. unfold zlen, HNXFS_NAME_MAX in *. lia. }
  split; [done|]. split; [done|]. rewrite Hit, Hds, H1, Es. done.
Qed.

Lemma dir_add_new v num k child name t :
  fs_ok v → is_inode num → dir_ok (itab v num) → dir_uniq (dslots v (itab v num)) → cstr name t → bytes t → zlen t < HNXFS_NAME_MAX → is_u64 child → child ≠ 0 →
  dirmap (dslots v (itab v num)) !! t = None → in_blocks (itab v num) < HNXFS_DIRECT → 0 ≤ k < sb_data_block_count sb → dbit sb v k = false →
  let p := sb_data_block_start sb + k in let d := itab v num in
  let d' := set_size (give_block d (in_blocks d) p) ((in_blocks d + 1) * HNXFS_BLOCK_SIZE) in
  let v' := put_inode sb (claim_block sb v k) num d' in
  ∃ buf', set_dirent g_zero_block 0 child name = Ret buf' ∧ dir_block buf' ∧ inode_fits d' ∧ whole v' ∧
    dir_result v (<[p := buf']> v') num (<[t := child]> (dirmap (dslots v d))).
Proof.
  intros Hok Hn Hd Hu Hname Ht Hlt Hc Hc0 Hnew Hbl Hk Hbit p d d' v'.
  destruct (dir_grow v num k Hok Hn Hd Hbl Hk Hbit) as (Hfit & Hok1 & Hoth1 & Hit1 & Hd1 & Eb1 & Hp1 & Hz1 & rest & Hrest & Hlen & Hds1).
  fold p d in Hfit, Hok1, Hoth1, Hit1, Hd1, Eb1, Hp1, Hz1, Hds1. fold d' in Hfit, Hok1, Hoth1, Hit1, Hd1, Eb1, Hp1, Hz1, Hds1. fold v' in Hok1, Hoth1, Hit1, Hz1, Hds1.
  assert (dir_block g_zero_block) as Hzb by apply zero_block.
  destruct (set_dirent_spec g_zero_block 0 child name t Hzb) as (buf' & new & E & Hblk' & Hin & Hcut & Hslots); [done|done|done|done|unfold HNXFS_NAME_MAX in *; lia|].
  exists buf'. split; [done|]. split; [done|]. split; [done|]. split; [apply Hok1|].
  destruct (ow_fits _ _ _ (proj1 (proj2 Hok)) num Hn) as [(_ & _ & _ & Hb0 & _) _]. fold d in Hb0. unfold is_u64 in Hb0.
  destruct (dir_write v' num (in_blocks d) 0 buf' new) as (Hok2 & Hoth2 & Hit2 & Hds2);
    [exact Hok1|exact Hn|rewrite Hit1; exact Hd1|rewrite Hit1, Eb1; lia|done|exact Hblk'|rewrite Hit1, Hp1, Hz1; exact Hslots|].
  rewrite Hit1, Hp1 in *. destruct rest as [|de rest]; [discriminate Hlen|].
  assert (zlen (dslots v d) = HNXFS_DIRENTS_PER_BLOCK * in_blocks d + 0) as Hzd.
  { unfold dslots, zlen. rewrite length_fmap, length_seqZ. unfold HNXFS_DIRENTS_PER_BLOCK. lia. }
  rewrite <-Hzd, Hds1, insert_split in Hds2. apply Forall_cons in Hrest as [_ Hrest].
  destruct (dirmap_grow (dslots v d) new rest t child) as [H1 H2]; [exact Hu|exact Hrest|exact Hnew| |exact Hin|exact Hc0|].
  { rewrite Hcut. apply take_ge. unfold zlen, HNXFS_NAME_MAX in *. lia. }
  split; [exact Hok2|]. split; [exact (others_trans _ _ _ _ Hoth1 Hoth2)|]. rewrite Hit2, Hds2, H1. exact (conj Hd1 (conj H2 eq_refl)).
Qed.

Lemma dir_result_refl v num : fs_ok v → dir_ok (itab v num) → dir_uniq (dslots v (itab v num)) → dir_result v v num (dirmap (dslots v (itab v num))).
Proof. intros H1 H2 H3. by split_and!. Qed.

(** Adding a name that is not there: it is there afterwards, or the directory cannot grow. *)
Lemma dir_add_spec s v num name t child :
  dsees s v → fs_ok v → is_inode num → dir_ok (itab v num) → dir_uniq (dslots v (itab v num)) → cstr name t → bytes t → zlen t < HNXFS_NAME_MAX →
  is_u64 child → child ≠ 0 → dirmap (dslots v (itab v num)) !! t = None →
  wp (hnxfs_dir_add sb num name child) s (λ rc s', ∃ v', dsees s' v' ∧
    ((rc = 0 ∧ dir_result v v' num (<[t := child]> (dirmap (dslots v (itab v num))))) ∨
     (rc = - SYS_ENOMEM ∧ v' = v ∧ (in_blocks (itab v num) = HNXFS_DIRECT ∨ full sb v)))).
Proof.
  intros Hs Hok Hn Hd Hu Hname Ht Hlt Hc Hc0 Hnew. pose proof Hok as (Hw & Ho & _). unfold hnxfs_dir_add.
  wstep read_dir_spec; [done|done|done|done|]. intros r s1 [-> Hs1].
  wstep (dir_scan s1 v num (add_visit name child) (λ de, negb (live de))
    (λ k rc s', ∃ v', dsees s' v' ∧ rc = 0 ∧ dir_result v v' num (<[t := child]> (dirmap (dslots v (itab v num)))))); [done|done|done|done| |].
  - intros b s2 Hb Hs2 buf Hbuf. unfold add_visit. destruct (scan_block (free_slot buf) (λ de, negb (live de)) buf) as (r & E & Hr).
    { intros j Hj. unfold free_slot, live. by destruct (_ =? 0). }
    eapply wp_lift_bind; [exact E|]. destruct r as [[]|j]; [by apply wp_ret|]. destruct Hr as (Hj & HP & Hpre).
    destruct (set_dirent_spec buf j child name t) as (buf1 & new & Eset & Hb1 & _); [done|done|done|done|done|unfold HNXFS_NAME_MAX in *; lia|].
    eapply wp_lift_bind; [exact Eset|]. destruct Hb1 as [Z1 Y1]. destruct (dir_block_in v num b Hok Hn Hd Hb) as [Hin _].
    wstep (write_blk sb); [done|done|done|done|done|]. intros rc s3 [-> Hs3]. apply wp_ret. exists j. split; [done|]. split; [done|]. split; [done|].
    intros Hfirst. exists (<[dptr (itab v num) b := buf1]> v). split; [done|]. split; [done|].
    destruct (dir_add_old v num _ child name t Hok Hn Hd Hu Hname Ht Hlt Hc Hc0 Hnew Hfirst b j eq_refl Hb Hj) as (buf2 & E2 & _ & Hres).
    unfold buf in Eset. rewrite Eset in E2. injection E2 as <-. exact Hres.
  - intros [[]|rc] s2 H.
    2: { apply wp_ret. destruct H as (k & _ & v' & Hs2 & -> & Hres). exists v'. split; [done|]. by left. }
    destruct H as [Hs2 _]. destruct (ow_fits _ _ _ Ho num Hn) as [(_ & _ & _ & Hb0 & _ & Hl & _) Hbl]. unfold is_u64 in Hb0.
    destruct (Z.leb_spec HNXFS_DIRECT (in_blocks (itab v num))) as [Hmax|Hmax].
    { apply wp_ret. exists v. split; [done|]. right. split; [done|]. split; [done|]. left. lia. }
    wstep (alloc_block_spec sb); [done|done|]. intros r s3 [(-> & Hfull & Hs3)|(k & -> & Hr0 & Hk & Hbit & Hs3)].
    { apply wp_ret. exists v. split; [done|]. right. split; [done|]. split; [done|]. by right. }
    destruct (Z.eqb_spec (sb_data_block_start sb + k) 0); [done|]. eapply wp_lift_bind; [apply aset_in; lia|].
    destruct (dir_add_new v num k child name t Hok Hn Hd Hu Hname Ht Hlt Hc Hc0 Hnew Hmax Hk Hbit) as (buf' & Eset & [Z1 Y1] & Hfit & Hw' & Hres).
    set (p := sb_data_block_start sb + k) in *. set (d' := set_size (give_block (itab v num) (in_blocks (itab v num)) p) _) in *.
    match goal with |- wp (hnxfs_write_inode sb num ?x ≫= _) _ _ => assert (x = d') as -> end.
    { unfold d', give_block, set_size, set_blocks, set_direct. cbn [in_blocks in_direct in_type in_mode in_mtime in_size].
      destruct (Z.ltb_spec (in_blocks (itab v num)) (in_blocks (itab v num) + 1)); [|lia]. unfold HNXFS_DIRECT, HNXFS_BLOCK_SIZE in *. by rewrite !u64_small by (rewrite ?u64_small; lia). }
    wstep (write_inode_spec sb); [done|by apply claim_block_whole|done|done|]. intros rc s4 [-> Hs4]. cbn [Z.eqb negb].
    eapply wp_lift_bind; [exact Eset|]. destruct (data_in sb p) as (Hpin & _); [unfold is_data, p; lia|].
    wstep (write_blk sb); [done|done|done|done|done|]. intros rc s5 [-> Hs5]. apply wp_ret. eexists _. split; [exact Hs5|]. by left.
Qed.

Lemma dir_remove_spec s v num name t :
  dsees s v → fs_ok v → is_inode num → dir_ok (itab v num) → dir_uniq (dslots v (itab v num)) → cstr name t → bytes t →
  let m := dirmap (dslots v (itab v num)) in
  wp (hnxfs_dir_remove sb num name) s (λ rc s', ∃ v', dsees s' v' ∧ dir_result v v' num (delete (take 120 t) m) ∧
    rc = if m !! take 120 t is Some _ then 0 else - SYS_ENOENT).
Proof.
  intros Hs Hok Hn Hd Hu Hname Ht m. unfold hnxfs_dir_remove. wstep read_dir_spec; [done|done|done|done|]. intros r s1 [-> Hs1].
  wstep (dir_scan s1 v num (remove_visit name) (named (take 120 t))
    (λ k rc s', ∃ v', dsees s' v' ∧ rc = 0 ∧ dir_result v v' num (delete (take 120 t) m) ∧ is_Some (m !! take 120 t))); [done|done|done|done| |].
  - intros b s2 Hb Hs2 buf Hbuf. unfold remove_visit. destruct (scan_block (match_slot name buf) (named (take 120 t)) buf) as (r & E & Hr).
    { intros j Hj. by apply match_slot_spec. }
    eapply wp_lift_bind; [exact E|]. destruct r as [[]|j]; [by apply wp_ret|]. destruct Hr as (Hj & HP & Hpre).
    destruct (clear_dirent_spec buf j Hbuf Hj) as (buf' & new & Eset & [Z1 Y1] & Hnew & Hslots). eapply wp_lift_bind; [exact Eset|].
    destruct (dir_block_in v num b Hok Hn Hd Hb) as [Hin _]. pose proof Hok as (Hw & _).
    wstep (write_blk sb); [done|done|done|done|done|]. intros rc s3 [-> Hs3]. apply wp_ret. exists j. split; [done|]. split; [done|]. split; [done|].
    intros Hfirst. exists (<[dptr (itab v num) b := buf']> v). split; [done|]. split; [done|].
    destruct (dir_write v num b j buf' new Hok Hn Hd Hb Hj) as (Hok' & Hoth & Hit & Hds); [done|done|].
    destruct (first_at_split _ _ _ Hfirst) as (pre & de & post & Es & Hz & Hde & Hpre'). rewrite <-Hz, Es, insert_split in Hds.
    unfold m. rewrite Es in Hu |- *. destruct (dirmap_remove pre de post new (take 120 t) Hu Hde Hnew) as [H1 H2].
    split; [|rewrite (dirmap_first pre de post) by done; eauto]. split; [done|]. split; [done|]. rewrite Hit, Hds. done.
  - intros [[]|rc] s2 H; apply wp_ret.
    + destruct H as [Hs2 H]. exists v. split; [done|]. pose proof (dirmap_None _ _ H) as Hnone. fold m in Hnone. rewrite delete_id by done.
      split; [by apply dir_result_refl|by rewrite Hnone].
    + destruct H as (k & _ & v' & Hs2 & -> & Hres & [x Hx]). exists v'. split; [done|]. split; [done|]. by rewrite Hx.
Qed.

(** *** Listing *)

(** The entries that are listed: not [.] and [..]. *)
Definition dot (de : hnxfs_dirent) : bool := bool_decide (cut (de_name de) = [46] ∨ cut (de_name de) = [46; 46]).
Definition listed (de : hnxfs_dirent) : bool := live de && negb (dot de).
Definition visible (sl : list hnxfs_dirent) : list hnxfs_dirent := filter listed sl.

Lemma is_dot_spec de : (3 ≤ length (de_name de))%nat → is_dot (de_name de) = Ret (dot de).
Proof.
  intros Hl. unfold dot. destruct (de_name de) as [|a [|b [|c l]]]; cbn [length] in Hl; try lia. 
  change (is_dot (a :: b :: c :: l)) with (Ret ((a =? 46) && (b =? 0) || (a =? 46) && (b =? 46) && (c =? 0))).
  f_equal. cbn [cut]. destruct (Z.eqb_spec a 46), (Z.eqb_spec a 0), (Z.eqb_spec b 46), (Z.eqb_spec b 0), (Z.eqb_spec c 0); try lia; subst;
    cbn [andb orb]; case_bool_decide as E; first [done|exfalso; destruct E; congruence|exfalso; apply E; by auto].
Qed.

Lemma visible_step sl k de : 0 ≤ k → sl !! Z.to_nat k = Some de →
  visible (take (Z.to_nat (k + 1)) sl) = visible (take (Z.to_nat k) sl) ++ (if listed de then [de] else []).
Proof.
  intros Hk Hde. replace (Z.to_nat (k + 1)) with (S (Z.to_nat k)) by lia. unfold visible. rewrite (take_S_r _ _ de) by done. rewrite filter_app. f_equal.
  rewrite filter_cons. unfold Is_true. by destruct (listed de).
Qed.

Lemma visible_found sl k de index : 0 ≤ k → sl !! Z.to_nat k = Some de → listed de = true → index = zlen (visible (take (Z.to_nat k) sl)) →
  visible sl !! Z.to_nat index = Some de.
Proof.
  intros Hk Hde Hl ->. assert (visible sl = visible (take (Z.to_nat k) sl) ++ de :: visible (drop (S (Z.to_nat k)) sl)) as ->.
  { unfold visible. rewrite <-(filter_cons_True listed) by (by rewrite Hl). rewrite <-filter_app. by rewrite take_drop_middle. }
  unfold zlen. rewrite Nat2Z.id. by apply list_lookup_middle.
Qed.

Lemma nth_slot_spec index buf (s : Z) seen : dir_block buf → 0 ≤ s < HNXFS_DIRENTS_PER_BLOCK → 0 ≤ seen < 2 ^ 32 →
  nth_slot index buf s seen =
  Ret (if listed (dirent_at buf s) then if seen =? index then inr s else inl (seen + 1) else inl seen).
Proof.
  intros Hb Hs Hseen. destruct (dirent_name_block buf s Hb Hs) as [Hl _]. unfold nth_slot, listed, live.
  destruct (de_inode (dirent_at buf s) =? 0); [done|]. rewrite is_dot_spec by (rewrite Hl; unfold HNXFS_NAME_MAX; lia). cbn [mbind outcome_bind negb andb].
  destruct (dot (dirent_at buf s)); [done|]. cbn [negb]. destruct (seen =? index); [done|]. by rewrite u64_small by lia.
Qed.

Lemma dir_get_spec s v num index :
  dsees s v → fs_ok v → is_inode num → dir_ok (itab v num) → 0 ≤ index →
  wp (hnxfs_dir_get sb num index) s (λ r s', r = visible (dslots v (itab v num)) !! Z.to_nat index ∧ dsees s' v).
Proof.
  intros Hs Hok Hn Hd Hi. pose proof Hok as (Hw & Ho & _). unfold hnxfs_dir_get. wstep read_dir_spec; [done|done|done|done|]. intros r s1 [-> Hs1].
  destruct (ow_fits _ _ _ Ho num Hn) as [(_ & _ & _ & Hb0 & _ & Hl & _) Hbl]. unfold is_u64 in Hb0. unfold dir_blocks. rewrite Z.min_l by done.
  set (sl := dslots v (itab v num)). set (B := HNXFS_DIRENTS_PER_BLOCK). assert (B = 32) as EB by done.
  set (I := λ k seen, seen = zlen (visible (take (Z.to_nat k) sl)) ∧ seen ≤ index).
  assert (∀ k seen, 0 ≤ k ≤ 12 * B → I k seen → 0 ≤ seen < 2 ^ 32) as Hsmall.
  { intros k seen Hk [-> _]. unfold visible, zlen. pose proof (length_filter listed (take (Z.to_nat k) sl)). rewrite length_take in H. lia. }
  wstep (wp_seek (λ b seen s, dsees s v ∧ I (B * b) seen) (λ de s, dsees s v ∧ visible sl !! Z.to_nat index = Some de)); [lia| | |].
  - intros b seen s2 Hb [Hs2 HI]. destruct (dir_block_in v num b Hok Hn Hd Hb) as [Hin Hblk].
    eapply wp_lift_bind; [apply (aget_Some _ _ (dptr (itab v num) b)); [lia|]; apply (dptr_ptr _ b Hd Hb)|].
    wstep (read_blk sb); [done|done|done|]. intros r s3 [-> Hs3]. unfold get_visit. set (buf := blk v (dptr (itab v num) b)) in *.
    assert (∀ j, 0 ≤ j < B → sl !! Z.to_nat (B * b + j) = Some (dirent_at buf j)) as Hslot.
    { intros j Hj. unfold sl. rewrite lookup_dslots, decide_True by (fold B; nia). f_equal. by apply slot_at_block. }
    destruct (find_range_inv (λ j seen, I (B * b + j) seen) (λ j, visible sl !! Z.to_nat index = Some (dirent_at buf j)) (nth_slot index buf) 0 B seen) as [(r & E & H)|(r & E & H)];
      [done| |by rewrite Z.add_0_r|..].
    + intros j sn Hj HIj. rewrite nth_slot_spec; [|done|done|apply (Hsmall (B * b + j)); [unfold HNXFS_DIRECT in *; nia|done]]. destruct HIj as [E Hle].
      pose proof (visible_step sl (B * b + j) _ ltac:(nia) (Hslot j Hj)) as Hstep.
      destruct (listed (dirent_at buf j)) eqn:Elist; [destruct (Z.eqb_spec sn index)|].
      * right. exists j. split; [done|]. apply (visible_found sl (B * b + j)); [nia|by apply Hslot|done|congruence].
      * left. eexists. split; [done|]. split; [|lia]. rewrite Z.add_assoc, Hstep, zlen_app, E. done.
      * left. eexists. split; [done|]. split; [|done]. by rewrite Z.add_assoc, Hstep, app_nil_r.
    + eapply wp_lift_bind; [exact E|]. apply wp_ret. split; [done|]. by replace (B * (b + 1)) with (B * b + B) by lia.
    + eapply wp_lift_bind; [exact E|]. by apply wp_ret.
  - split; [done|]. rewrite Z.mul_0_r. split; [done|]. cbn. lia.
  - intros [seen|de] s2 H; apply wp_ret; [|by destruct H]. destruct H as [Hs2 [E Hle]]. split; [|done]. symmetry. apply lookup_ge_None.
    rewrite take_ge in E by (unfold sl, dslots; rewrite length_fmap, length_seqZ; fold B; lia). unfold zlen in E. lia.
Qed.

Lemma dir_empty_spec s v num :
  dsees s v → fs_ok v → is_inode num → dir_ok (itab v num) →
  wp (hnxfs_dir_empty sb num) s (λ r s', r = bool_decide (visible (dslots v (itab v num)) = []) ∧ dsees s' v).
Proof.
  intros Hs Hok Hn Hd. unfold hnxfs_dir_empty. wstep dir_get_spec; [done|done|done|done|done|]. intros r s1 [-> Hs1]. apply wp_ret. split; [|done].
  destruct (visible _) as [|de l]; [by rewrite bool_decide_true|by rewrite bool_decide_false].
Qed.

(** *** Creation and removal *)

Definition ibit v (k : Z) : bool := bit_at (blk v (sb_inode_bitmap_block sb)) k.

(** The inode bitmap is not part of any file. *)
Lemma ibm_write v x :
  fs_ok v → dir_block x → let v' := <[sb_inode_bitmap_block sb := x]> v in
  fs_ok v' ∧ (∀ j, is_inode j → itab v' j = itab v j ∧ fdata v' (itab v' j) = fdata v (itab v j)) ∧ (∀ b, b ≠ sb_inode_bitmap_block sb → blk v' b = blk v b).
Proof.
  intros (Hw & Ho & Ht) [Hz Hy] v'. assert (∀ b, b ≠ sb_inode_bitmap_block sb → blk v' b = blk v b) as Hb by (intros b Hne; by apply blk_insert_ne).
  assert (∀ j, is_inode j → itab v' j = itab v j) as Hit.
  { intros j Hj. unfold HnxfsSpec.itab. rewrite Hb; [done|]. destruct (inode_block_in sb j Hj) as [Hjb _]. destruct Hlay. lia. }
  assert (∀ j pos, is_inode j → 0 ≤ pos → fbyte v' (itab v j) pos = fbyte v (itab v j) pos) as Hf.
  { intros j pos Hj Hp. destruct (ow_fits _ _ _ Ho j Hj) as [(_ & _ & _ & _ & _ & Hl & _) _]. apply fbyte_ext; [|done|done]. intros b p Hptr. apply Hb.
    destruct (ow_data _ _ _ Ho j b p Hj Hptr) as [Hd _]. destruct Hlay. unfold is_data, HNXFS_INODES_PER_BLOCK in *. lia. }
  split_and!; [|intros j Hj; rewrite Hit by done; split; [done|]; apply fdata_ext; [done|]; intros; by apply Hf|done].
  split; [by apply whole_insert|]. split.
  - apply (owned_ext sb (itab v) _ v); [done| |done]. intros k Hk. unfold dbit. rewrite Hb; [done|]. destruct Hlay. lia.
  - intros j pos Hj Hp. rewrite Hit in * by done. pose proof (itab_size sb v j Hw Hj). rewrite Hf by (done || lia). by apply Ht.
Qed.

Lemma alloc_inode_spec s v :
  dsees s v → fs_ok v →
  wp (hnxfs_alloc_inode sb) s (λ r s',
    (r = 0 ∧ (∀ k, 2 ≤ k < sb_inode_count sb → ibit v k = true) ∧ dsees s' v) ∨
    (2 ≤ r < sb_inode_count sb ∧ ibit v r = false ∧ dsees s' (<[sb_inode_bitmap_block sb := set_bit (blk v (sb_inode_bitmap_block sb)) r]> v))).
Proof.
  intros Hs (Hw & _). unfold hnxfs_alloc_inode. wstep (bitmap_alloc_spec sb); [done|done|by apply ibm_in|lia|apply (lay_ibits _ Hlay)|].
  intros r s1 [(-> & Hall & Hs1)|(Hr & Hbit & _ & Hs1)]; apply wp_ret; [by left|right]. destruct (Z.ltb_spec r 0); [lia|]. split_and!; try done; lia.
Qed.

Lemma free_inode_spec s v num :
  dsees s v → fs_ok v → 2 ≤ num < sb_inode_count sb →
  wp (hnxfs_free_inode sb num) s (λ _ s', dsees s' (<[sb_inode_bitmap_block sb := clear_bit (blk v (sb_inode_bitmap_block sb)) num]> v)).
Proof.
  intros Hs (Hw & _) Hn. unfold hnxfs_free_inode. destruct (Z.leb_spec 2 num); [|lia]. pose proof (lay_ibits _ Hlay).
  apply (bitmap_free_spec sb); [done|done|by apply ibm_in|lia].
Qed.

Lemma ibm_block v : fs_ok v → dir_block (blk v (sb_inode_bitmap_block sb)).
Proof. intros (Hw & _). destruct (whole_blk sb v _ Hw (ibm_in sb)) as (_ & Hz & Hy). by split. Qed.

(** The slots of a directory are in its data. *)
Lemma dslots_fdata v v' num :
  fs_ok v → fs_ok v' → is_inode num → dir_ok (itab v num) → itab v' num = itab v num → fdata v' (itab v num) = fdata v (itab v num) →
  dslots v' (itab v num) = dslots v (itab v num).
Proof.
  intros Hok Hok' Hn Hd Eit Efd. apply list_eq_Z. intros k Hk. rewrite !lookup_dslots by done. dec_if as Hlt; [|done]. f_equal. unfold slot_at. f_equal.
  set (b := k / HNXFS_DIRENTS_PER_BLOCK). assert (0 ≤ b < in_blocks (itab v num)) as Hb by (unfold b, HNXFS_DIRENTS_PER_BLOCK in *; zlia).
  destruct (dir_block_in v num b Hok Hn Hd Hb) as [_ [Hz _]]. destruct (dir_block_in v' num b) as [_ [Hz' _]]; [done|done|by rewrite Eit|by rewrite Eit|].
  rewrite Eit in Hz'. pose proof Hd as (_ & Hsz & _). pose proof (dptr_ptr _ b Hd Hb) as (Hb12 & Hp & Hp0).
  apply list_eq_Z. intros i Hi. destruct (decide (i < HNXFS_BLOCK_SIZE)) as [Hi2|Hi2].
  2: { rewrite !lookup_ge_None_2; [done|unfold zlen in *; lia..]. }
  pose proof (f_equal (λ l, l !! Z.to_nat (b * HNXFS_BLOCK_SIZE + i)) Efd) as E. cbn beta in E. unfold HNXFS_BLOCK_SIZE in *.
  rewrite !lookup_fdata, !decide_True in E by nia. unfold fbyte, HNXFS_BLOCK_SIZE in E. replace ((b * 4096 + i) / 4096) with b in E by zlia.
  replace ((b * 4096 + i) mod 4096) with i in E by zlia. rewrite Hp in E. destruct (Z.eqb_spec (dptr (itab v num) b) 0); [done|]. injection E as E.
  destruct (lookup_in (blk v (dptr (itab v num) b)) i) as [x Hx]; [lia|]. destruct (lookup_in (blk v' (dptr (itab v num) b)) i) as [y Hy]; [lia|].
  rewrite (list_lookup_total_correct _ _ _ Hx), (list_lookup_total_correct _ _ _ Hy) in E. congruence.
Qed.

(** The directory [num] has the names [m]. *)
Definition names v (num : Z) (m : gmap (list Z) Z) : Prop :=
  dir_ok (itab v num) ∧ dir_uniq (dslots v (itab v num)) ∧ dirmap (dslots v (itab v num)) = m.

(** Inodes not in [l], and the data of these files, are as they were. *)
Definition untouched v v' (l : list Z) : Prop :=
  ∀ j, is_inode j → j ∉ l → itab v' j = itab v j ∧ fdata v' (itab v' j) = fdata v (itab v j).

Lemma untouched_trans v1 v2 v3 l l' : untouched v1 v2 l → untouched v2 v3 l' → untouched v1 v3 (l ++ l').
Proof. intros H1 H2 j Hj Hne. apply not_elem_of_app in Hne as [N1 N2]. destruct (H1 j Hj N1), (H2 j Hj N2). split; congruence. Qed.

Lemma others_untouched v v' num : others v v' num → untouched v v' [num].
Proof. intros [_ H] j Hj Hne. apply H; [done|]. intros ->. by apply Hne, list_elem_of_singleton. Qed.

Lemma names_untouched v v' num m l : fs_ok v → fs_ok v' → is_inode num → num ∉ l → untouched v v' l → names v num m → names v' num m.
Proof.
  intros Hok Hok' Hn Hl Hun (Hd & Hu & Hm). destruct (Hun num Hn Hl) as [E1 E2]. rewrite E1 in E2.
  pose proof (dslots_fdata v v' num Hok Hok' Hn Hd E1 E2) as E. unfold names. rewrite E1, E. done.
Qed.

Lemma dirmap_nonzero sl t c : dirmap sl !! t = Some c → c ≠ 0.
Proof.
  intros H%elem_of_list_to_map_2. unfold entries in H. apply list_elem_of_fmap in H as (de & [= -> ->] & Hde).
  apply list_elem_of_filter in Hde as [Hl _]. unfold live in Hl. by destruct (Z.eqb_spec (de_inode de) 0).
Qed.

Lemma new_inode_fits dir : inode_fits (new_inode dir).
Proof. by destruct dir; split_and!; try done; apply Forall_replicate. Qed.

(** An inode is replaced by one without blocks. *)
Lemma put_empty v num ino :
  fs_ok v → is_inode num → inode_fits ino → in_direct ino = replicate (Z.to_nat HNXFS_DIRECT) 0 → in_blocks ino = 0 →
  let v' := put_inode sb v num ino in fs_ok v' ∧ itab v' num = ino ∧ others v v' num.
Proof.
  intros Hok Hn Hfit Hdir Hbl v'. pose proof Hok as (Hw & Ho & _).
  destruct (put_inode_others sb v v num ino ino) as (H1 & H2 & H3 & _); try done.
  - apply (owned_sub sb (itab v) _ v); [done| |].
    + intros j Hj. unfold upd. dec_if; [by rewrite Hbl|]. by apply Ho.
    + intros j c p Hj Hp. unfold upd in *. destruct (decide (j = num)) as [->|].
      * destruct Hp as (_ & P2 & P3). rewrite Hdir in P2. by apply lookup_replicate in P2 as [-> _].
      * split; [done|]. split; [by apply (ow_hole _ _ _ Ho j c p)|by apply (ow_data _ _ _ Ho j c p)].
  - intros pos _. by apply fbyte_zero.
Qed.

Lemma ibm_untouched v x : fs_ok v → dir_block x → untouched v (<[sb_inode_bitmap_block sb := x]> v) [].
Proof. intros Hok Hx j Hj _. by apply (ibm_write v x Hok Hx). Qed.

Lemma ibit_ibm v x k : ibit (<[sb_inode_bitmap_block sb := x]> v) k = bit_at x k.
Proof. unfold ibit. by rewrite blk_insert. Qed.

(** The inode number of a new file was free and is taken now; the name is in the directory, and nothing else is changed. When
    [v_create] fails, the names and the inodes in use are what they were. *)
Definition created v v' num m t dir (r : Z + Z) : Prop :=
  match r with
  | inr child => 2 ≤ child < sb_inode_count sb ∧ ibit v child = false ∧ (∀ k, 0 ≤ k < sb_inode_count sb → ibit v' k = bool_decide (k = child) || ibit v k) ∧
      names v' num (<[t := child]> m) ∧ itab v' child = new_inode dir ∧ untouched v v' [child; num] ∧ m !! t = None
  | inl e => names v' num m ∧ (∀ k, 0 ≤ k < sb_inode_count sb → ibit v' k = ibit v k) ∧
      (e = - SYS_EEXIST ∧ is_Some (m !! t) ∧ v' = v ∨ e = - SYS_ENOMEM ∧ (∀ k, 2 ≤ k < sb_inode_count sb → ibit v k = true) ∧ v' = v ∨
       e = - SYS_EIO ∧ ∃ child, ibit v child = false ∧ untouched v v' [child] ∧ (in_blocks (itab v num) = HNXFS_DIRECT ∨ full sb v))
  end.

Lemma v_create_spec s v num m name t dir :
  dsees s v → fs_ok v → is_inode num → ibit v num = true → names v num m → cstr name t → bytes t → zlen t < HNXFS_NAME_MAX →
  wp (v_create sb num name dir) s (λ r s', ∃ v', dsees s' v' ∧ fs_ok v' ∧ created v v' num m t dir r).
Proof.
  intros Hs Hok Hn Hused Hnm Hname Ht Hlt. pose proof Hnm as (Hd & Hu & Hm). unfold v_create.
  wstep dir_lookup_spec; [done|done|done|done|done|done|]. intros r s1 [-> Hs1]. rewrite Hm, take_ge by (unfold zlen, HNXFS_NAME_MAX in *; lia).
  destruct (m !! t) as [c|] eqn:Emt; cbn [from_option id].
  { rewrite <-Hm in Emt. pose proof (dirmap_nonzero _ _ _ Emt). destruct (Z.eqb_spec c 0); [done|]. cbn [negb]. apply wp_ret. exists v.
    rewrite Hm in Emt. split; [done|]. split; [done|]. split; [done|]. split; [done|]. left. split; [done|]. split; [|done]. by exists c. }
  cbn [Z.eqb negb]. wstep alloc_inode_spec; [done|done|]. intros child s2 [(-> & Hall & Hs2)|(Hc & Hbit & Hs2)].
  { apply wp_ret. exists v. split; [done|]. split; [done|]. split; [done|]. split; [done|]. right. by left. }
  destruct (Z.eqb_spec child 0); [lia|]. assert (is_inode child) as Hci by (unfold HnxfsSpec.is_inode; lia). assert (num ≠ child) as Hne by congruence.
  pose proof (lay_ibits _ Hlay) as Hib. pose proof (ibm_block v Hok) as [Hbz Hby].
  destruct (set_bit_block _ Hbz Hby child) as [Z1 Y1]; [lia|]. set (v1 := <[sb_inode_bitmap_block sb := _]> v) in *.
  destruct (ibm_write v _ Hok (conj Z1 Y1)) as (Hok1 & _ & _). fold v1 in Hok1. pose proof (ibm_untouched v _ Hok (conj Z1 Y1)) as Hun1. fold v1 in Hun1.
  assert (∀ k, 0 ≤ k < sb_inode_count sb → ibit v1 k = bool_decide (k = child) || ibit v k) as Hb1.
  { intros k Hk. unfold v1. rewrite ibit_ibm. apply set_bit_spec; [done|lia|lia]. }
  wstep (write_inode_spec sb); [done|apply Hok1|done|apply new_inode_fits|]. intros rc s3 [-> Hs3]. cbn [Z.eqb negb].
  destruct (put_empty v1 child (new_inode dir) Hok1 Hci (new_inode_fits dir)) as (Hok2 & Hit2 & Hoth2); [done|done|]. set (v2 := put_inode sb v1 child (new_inode dir)) in *.
  pose proof (untouched_trans _ _ _ _ _ Hun1 (others_untouched _ _ _ Hoth2)) as Hun2. cbn [app] in Hun2.
  assert (names v2 num m) as Hnm2 by (apply (names_untouched v v2 num m [child]); try done; by rewrite list_elem_of_singleton).
  pose proof Hnm2 as (Hd2 & Hu2 & Hm2).
  wstep dir_add_spec; [done|done|done|done|done|done|done|done|unfold is_u64, BITS, HNXFS_BLOCK_SIZE in *; lia|lia|by rewrite Hm2|].
  intros rc s4 (v3 & Hs4 & [(-> & Hok3 & Hoth3 & Hd3 & Hu3 & Hm3)|(-> & -> & Hwhy)]); cbn [Z.eqb negb].
  - apply wp_ret. exists v3. split; [done|]. split; [done|]. split; [done|]. split; [done|]. split.
    { intros k Hk. rewrite <-Hb1 by done. unfold ibit. destruct Hoth3 as [-> _], Hoth2 as [-> _]. done. }
    rewrite Hm2 in Hm3. split; [done|]. split; [destruct Hoth3 as [_ H3]; destruct (H3 child Hci) as [-> _]; congruence|].
    split; [exact (untouched_trans _ _ _ _ _ Hun2 (others_untouched _ _ _ Hoth3))|done].
  - wstep free_inode_spec; [done|done|done|]. intros [] s5 Hs5. apply wp_ret. pose proof (ibm_block v2 Hok2) as [Hbz2 Hby2].
    destruct (clear_bit_block _ Hbz2 Hby2 child) as [Z2 Y2]; [lia|]. eexists. split; [exact Hs5|].
    destruct (ibm_write v2 _ Hok2 (conj Z2 Y2)) as (Hok5 & _ & _). split; [done|]. pose proof (ibm_untouched v2 _ Hok2 (conj Z2 Y2)) as Hun5.
    split; [apply (names_untouched v2 _ num m []); try done; apply not_elem_of_nil|]. split.
    + intros k Hk. rewrite ibit_ibm, clear_bit_spec by (done || lia). destruct Hoth2 as [-> _]. fold (ibit v1 k). rewrite Hb1 by done.
      destruct (bool_decide_reflect (k = child)) as [->|]; [by rewrite Hbit|done].
    + right. right. split; [done|]. exists child. split; [done|]. split; [exact (untouched_trans _ _ _ _ _ Hun2 Hun5)|].
      destruct (Hun2 num Hn) as [<- _]; [by rewrite list_elem_of_singleton|]. destruct Hwhy as [|Hfull]; [by left|right]. intros k Hk. rewrite <-(Hfull k Hk). unfold dbit, v2.
      rewrite (put_inode_frame sb) by auto. unfold v1. by rewrite blk_insert_ne by (pose proof (lay_ibm _ Hlay); lia).
Qed.

(** [v_unlink] on a name [t]: the file is emptied, its inode is free and the name is gone; a directory that has entries stays. *)
Definition unlinked v v' num m t (rc : Z) : Prop :=
  match m !! t with
  | None => rc = - SYS_ENOENT ∧ v' = v
  | Some child =>
      (rc = - SYS_EINVAL ∧ in_type (itab v child) = HNXFS_TYPE_DIR ∧ visible (dslots v (itab v child)) ≠ [] ∧ v' = v) ∨
      (rc = 0 ∧ (in_type (itab v child) = HNXFS_TYPE_DIR → visible (dslots v (itab v child)) = []) ∧ names v' num (delete t m) ∧
       itab v' child = emptied (itab v child) ∧ (∀ k, 0 ≤ k < sb_inode_count sb → ibit v' k = negb (bool_decide (k = child)) && ibit v k) ∧
       untouched v v' [child; num])
  end.

Lemma v_unlink_spec s v num m name t :
  dsees s v → fs_ok v → is_inode num → names v num m → cstr name t → bytes t → zlen t < HNXFS_NAME_MAX →
  (∀ child, m !! t = Some child → 2 ≤ child < sb_inode_count sb ∧ child ≠ num ∧ (in_type (itab v child) = HNXFS_TYPE_DIR → dir_ok (itab v child))) →
  wp (v_unlink sb num name) s (λ rc s', ∃ v', dsees s' v' ∧ fs_ok v' ∧ unlinked v v' num m t rc).
Proof.
  intros Hs Hok Hn Hnm Hname Ht Hlt Hchild. pose proof Hnm as (Hd & Hu & Hm). unfold v_unlink, unlinked.
  assert (take 120 t = t) as Etake by (apply take_ge; unfold zlen, HNXFS_NAME_MAX in *; lia).
  wstep dir_lookup_spec; [done|done|done|done|done|done|]. intros r s1 [-> Hs1]. rewrite Hm, Etake.
  destruct (m !! t) as [child|] eqn:Emt; cbn [from_option id]; [|apply wp_ret; exists v; by split_and!].
  destruct (Hchild child eq_refl) as (Hc & Hne & Hcd). destruct (Z.eqb_spec child 0); [lia|]. assert (is_inode child) as Hci by (unfold HnxfsSpec.is_inode; lia).
  wstep (read_inode_spec sb); [done|apply Hok|done|]. intros r s2 [-> Hs2].
  apply (wp_step _ _ _ (λ e s', e = (if in_type (itab v child) =? HNXFS_TYPE_DIR then bool_decide (visible (dslots v (itab v child)) = []) else true) ∧ dsees s' v)).
  { destruct (Z.eqb_spec (in_type (itab v child)) HNXFS_TYPE_DIR) as [E|E]; [|by apply wp_ret]. apply dir_empty_spec; [done|done|done|by apply Hcd]. }
  intros e s3 [-> Hs3]. set (e := if _ =? _ then _ else _). destruct e eqn:Ee; cbn [negb].
  2: { apply wp_ret. exists v. split; [done|]. split; [done|]. left. unfold e in Ee. destruct (Z.eqb_spec (in_type (itab v child)) HNXFS_TYPE_DIR) as [E|E]; [|done].
       by apply bool_decide_eq_false in Ee. }
  assert (in_type (itab v child) = HNXFS_TYPE_DIR → visible (dslots v (itab v child)) = []) as Hempty.
  { intros E. unfold e in Ee. rewrite E in Ee. by apply bool_decide_eq_true in Ee. }
  wstep (file_truncate_spec sb); [done|done|done|]. intros [] s4 (v4 & Hs4 & Hok4 & Hit4 & Hoth4).
  wstep free_inode_spec; [done|done|done|]. intros [] s5 Hs5. pose proof (ibm_block v4 Hok4) as [Hbz Hby]. pose proof (lay_ibits _ Hlay) as Hib.
  destruct (clear_bit_block _ Hbz Hby child) as [Z1 Y1]; [lia|]. set (v5 := <[sb_inode_bitmap_block sb := _]> v4) in *.
  destruct (ibm_write v4 _ Hok4 (conj Z1 Y1)) as (Hok5 & Hit5 & _). fold v5 in Hok5, Hit5. pose proof (ibm_untouched v4 _ Hok4 (conj Z1 Y1)) as Hun5. fold v5 in Hun5.
  pose proof (untouched_trans _ _ _ _ _ (others_untouched _ _ _ Hoth4) Hun5) as Hun. rewrite app_nil_r in Hun.
  assert (names v5 num m) as (Hd5 & Hu5 & Hm5) by (apply (names_untouched v v5 num m [child]); try done; by rewrite list_elem_of_singleton).
  eapply wp_mono; [by apply (dir_remove_spec s5 v5 num name t)|]. intros rc s6 (v6 & Hs6 & (Hok6 & Hoth6 & Hd6 & Hu6 & Hm6) & Hrc). rewrite Hm5, Etake in *. rewrite Emt in Hrc.
  exists v6. split; [done|]. split; [done|]. right. split; [done|]. split; [done|]. split; [done|]. split; [|split].
  - destruct Hoth6 as [_ H6]. destruct (H6 child Hci Hne) as [-> _]. destruct (Hit5 child Hci) as [-> _]. done.
  - intros k Hk. unfold ibit at 1. destruct Hoth6 as [-> _]. fold (ibit v5 k). unfold v5. rewrite ibit_ibm, clear_bit_spec by (done || lia). by destruct Hoth4 as [-> _].
  - exact (untouched_trans _ _ _ _ _ Hun (others_untouched _ _ _ Hoth6)).
Qed.

End Dir.
