(* ===== verification/HnxfsTree.v ===== *)
(** The directories of an HNXFS disk are a tree: every directory in use is well formed, every name in it is that of an inode
    in use, and no inode has two names ([tree]). The image that [tools/fs/mkhnxfs.py] makes is such a tree, and creating,
    removing and writing files keep it one. *)

From S2P Require Import Prelude Bytes CString StateM Hnxfs HnxfsSpec HnxfsDir.

Definition dot_name (t : list Z) : Prop := t = [46] ∨ t = [46; 46].

Section Tree.
Context {St : Type} {DI : Disk St} {DL : DiskLaws St}.
Context (sb : hnxfs_superblock) {Hlay : layout sb}.
Implicit Types (s : St) (v : gmap Z (list Z)).
Local Notation itab := (itab sb).
Local Notation fs_ok := (fs_ok sb).
Local Notation is_inode := (is_inode sb).
Local Notation names := (names sb).
Local Notation untouched := (untouched sb).
Local Notation ibit := (ibit sb).

Definition is_dir v (num : Z) : Prop := is_inode num ∧ ibit v num = true ∧ in_type (itab v num) = HNXFS_TYPE_DIR.
Definition dmap v (num : Z) : gmap (list Z) Z := dirmap (dslots v (itab v num)).

(** The directory [num] has the file [c] under the name [t]. *)
Definition entry v (num : Z) (t : list Z) (c : Z) : Prop := is_dir v num ∧ dmap v num !! t = Some c ∧ ¬ dot_name t.

Record tree v : Prop := {
  tr_ok : fs_ok v;
  tr_root : is_dir v HNXFS_ROOT_INODE;
  tr_dir num : is_dir v num → names v num (dmap v num);
  tr_entry num t c : entry v num t c → 2 ≤ c < sb_inode_count sb ∧ ibit v c = true ∧ c ≠ num;
  tr_once n1 t1 n2 t2 c : entry v n1 t1 c → entry v n2 t2 c → n1 = n2 ∧ t1 = t2
}.

Lemma names_dmap v num m : names v num m → dmap v num = m.
Proof. by intros (_ & _ & ?). Qed.

(** The files not in [l] are the same directories with the same names. *)
Lemma untouched_dir v v' l num :
  fs_ok v → fs_ok v' → untouched v v' l → (∀ k, 0 ≤ k < sb_inode_count sb → k ∉ l → ibit v' k = ibit v k) → num ∉ l →
  (is_dir v' num ↔ is_dir v num) ∧ (is_dir v num → dir_ok (itab v num) → dmap v' num = dmap v num ∧ (names v num (dmap v num) → names v' num (dmap v num))).
Proof.
  intros Hok Hok' Hun Hbit Hl. split.
  - unfold is_dir. split; intros (H1 & H2 & H3); destruct (Hun num H1 Hl) as [E _]; (split; [done|]); unfold HnxfsSpec.is_inode in H1;
      rewrite (Hbit num) in * by (done || lia); [rewrite <-E|rewrite E]; done.
  - intros (H1 & _ & _) Hd. destruct (Hun num H1 Hl) as [E1 E2]. rewrite E1 in E2. split.
    + unfold dmap. rewrite E1. by rewrite (dslots_fdata sb v v' num).
    + by apply names_untouched with l.
Qed.

(** A file that is no directory is written. *)
Lemma tree_write v v' num :
  tree v → fs_ok v' → others sb v v' num → in_type (itab v num) ≠ HNXFS_TYPE_DIR → in_type (itab v' num) = in_type (itab v num) → tree v'.
Proof.
  intros Ht Hok' Hoth Hty Hty'. pose proof (tr_ok _ Ht) as Hok. pose proof (others_untouched _ _ _ _ Hoth) as Hun.
  assert (∀ k, ibit v' k = ibit v k) as Hbit by (intros k; unfold HnxfsDir.ibit; by destruct Hoth as [-> _]).
  assert (∀ n, is_dir v' n → is_dir v n ∧ n ≠ num) as Hdir.
  { intros n Hn. assert (n ≠ num) as Hne by (intros ->; destruct Hn as (_ & _ & Hn); congruence). split; [|done].
    by apply (untouched_dir v v' [num] n Hok Hok' Hun); [intros; apply Hbit|rewrite list_elem_of_singleton|]. }
  assert (∀ n, is_dir v n → n ≠ num → dmap v' n = dmap v n ∧ names v' n (dmap v n)) as Hmap.
  { intros n Hn Hne. pose proof (tr_dir _ Ht n Hn) as Hnm. pose proof Hnm as (Hd & _).
    destruct (untouched_dir v v' [num] n Hok Hok' Hun) as [_ H]; [intros; apply Hbit|by rewrite list_elem_of_singleton|]. destruct (H Hn Hd). auto. }
  assert (∀ n t c, entry v' n t c → entry v n t c) as Hent.
  { intros n t c (Hn & Hm & Hdt). destruct (Hdir n Hn) as [Hn' Hne]. destruct (Hmap n Hn' Hne) as [E _]. by rewrite E in Hm. }
  split; [done| | | |].
  - destruct (tr_root _ Ht) as (R1 & R2 & R3). assert (HNXFS_ROOT_INODE ≠ num) as Hne by congruence. destruct Hoth as [_ Ho]. destruct (Ho _ R1 Hne) as [E _].
    split; [done|]. by rewrite Hbit, E.
  - intros n Hn. destruct (Hdir n Hn) as [Hn' Hne]. by destruct (Hmap n Hn' Hne) as [-> H].
  - intros n t c He. destruct (tr_entry _ Ht n t c (Hent _ _ _ He)) as (H1 & H2 & H3). by rewrite Hbit.
  - intros n1 t1 n2 t2 c H1 H2. apply (tr_once _ Ht n1 t1 n2 t2 c); by apply Hent.
Qed.

Lemma names_type v num m : names v num m → in_type (itab v num) = HNXFS_TYPE_DIR.
Proof. by intros ((? & _) & _). Qed.

Lemma dslots_empty v d : in_blocks d = 0 → dslots v d = [].
Proof. intros E. unfold dslots. by rewrite E. Qed.

(** A directory that is neither in [l] is the same after the operation. *)
Lemma same_dir v v' l n :
  tree v → fs_ok v' → untouched v v' l → (∀ k, 0 ≤ k < sb_inode_count sb → k ∉ l → ibit v' k = ibit v k) → n ∉ l → is_dir v' n →
  is_dir v n ∧ dmap v' n = dmap v n ∧ names v' n (dmap v' n).
Proof.
  intros Ht Hok' Hun Hbit Hl Hn. destruct (untouched_dir v v' l n (tr_ok _ Ht) Hok' Hun Hbit Hl) as [H1 H2]. apply H1 in Hn.
  pose proof (tr_dir _ Ht n Hn) as Hnm. destruct (H2 Hn (proj1 Hnm)) as [E H3]. rewrite E. auto.
Qed.

Lemma tree_create v v' num t dir child :
  tree v → fs_ok v' → is_dir v num → ¬ dot_name t → created sb v v' num (dmap v num) t dir (inr child) → tree v'.
Proof.
  intros Ht Hok' Hd Hdot (Hc & Hfree & Hbit & Hnm & Hnew & Hun & Hnone). pose proof Hd as (Hi & Hib & _).
  assert (num ≠ child) as Hne by congruence. assert (is_inode child) as Hci by (unfold HnxfsSpec.is_inode; lia).
  assert (∀ k, 0 ≤ k < sb_inode_count sb → k ∉ [child; num] → ibit v' k = ibit v k) as Hbit'.
  { intros k Hk Hkl. rewrite Hbit by done. rewrite bool_decide_false; [done|]. intros ->. apply Hkl. by left. }
  assert (∀ n, is_dir v' n → n = child ∧ names v' child ∅ ∨ n = num ∨ (is_dir v n ∧ dmap v' n = dmap v n ∧ names v' n (dmap v' n))) as Hcase.
  { intros n Hn. destruct (decide (n = child)) as [->|N1]; [left; split; [done|]|destruct (decide (n = num)) as [->|N2]; [by auto|]].
    - destruct Hn as (_ & _ & Hty). unfold HnxfsDir.names. rewrite Hnew in *. destruct dir; [|done]. rewrite dslots_empty by done.
      split; [|split; [constructor|done]]. split; [done|]. split; [done|]. cbn. lia.
    - right. right. apply (same_dir v v' [child; num]); try done. by rewrite !not_elem_of_cons; split_and!; [| |apply not_elem_of_nil]. }
  assert (∀ n t' c, entry v' n t' c → (n = num ∧ t' = t ∧ c = child) ∨ entry v n t' c) as Hent.
  { intros n t' c (Hn & Hm & Hdt). destruct (Hcase n Hn) as [(-> & Hnm0)|[->|(Hn' & E & _)]].
    - apply names_dmap in Hnm0. by rewrite Hnm0 in Hm.
    - rewrite (names_dmap _ _ _ Hnm) in Hm. apply lookup_insert_Some in Hm as [[<- <-]|[_ Hm]]; [by left|by right].
    - right. by rewrite E in Hm. }
  assert (∀ n t', ¬ entry v n t' child) as Hno by (intros n t' He; apply tr_entry in He as (_ & H & _); congruence).
  split; [done| | | |].
  - destruct (decide (num = HNXFS_ROOT_INODE)) as [<-|Hr]; [split; [done|]; split; [|by apply (names_type _ _ _ Hnm)]|].
    + rewrite Hbit, Hib by (unfold HnxfsSpec.is_inode in Hi; lia). apply orb_true_r.
    + apply (untouched_dir v v' [child; num]); [apply Ht|done|done|done| |apply Ht]. rewrite !not_elem_of_cons. unfold HNXFS_ROOT_INODE in *.
      split_and!; [lia|congruence|apply not_elem_of_nil].
  - intros n Hn. destruct (Hcase n Hn) as [(-> & Hnm0)|[->|(_ & _ & H)]]; [by rewrite (names_dmap _ _ _ Hnm0)|by rewrite (names_dmap _ _ _ Hnm)|done].
  - intros n t' c He. destruct (Hent _ _ _ He) as [(-> & -> & ->)|He'].
    + rewrite Hbit by lia. rewrite bool_decide_true by done. done.
    + destruct (tr_entry _ Ht _ _ _ He') as (H1 & H2 & H3). rewrite Hbit, H2 by lia. split_and!; [lia|lia|apply orb_true_r|done].
  - intros n1 t1 n2 t2 c H1 H2. destruct (Hent _ _ _ H1) as [(E1 & E2 & E3)|H1'], (Hent _ _ _ H2) as [(F1 & F2 & F3)|H2'].
    + split; congruence.
    + rewrite E3 in H2'. by destruct (Hno _ _ H2').
    + rewrite F3 in H1'. by destruct (Hno _ _ H1').
    + by apply (tr_once _ Ht n1 t1 n2 t2 c).
Qed.

Lemma tree_create_fails v v' num t dir e :
  tree v → fs_ok v' → created sb v v' num (dmap v num) t dir (inl e) → tree v'.
Proof.
  intros Ht Hok' (Hnm & Hbit & [(_ & _ & ->)|[(_ & _ & ->)|(_ & child & Hfree & Hun & _)]]); [done|done|].
  assert (∀ n, is_dir v' n → is_dir v n ∧ dmap v' n = dmap v n ∧ names v' n (dmap v' n)) as Hcase.
  { intros n Hn. apply (same_dir v v' [child]); [done|done|done|auto| |done]. rewrite list_elem_of_singleton. intros ->. destruct Hn as (H1 & H2 & _).
    rewrite Hbit in H2 by (unfold HnxfsSpec.is_inode in H1; lia). congruence. }
  assert (∀ n t' c, entry v' n t' c → entry v n t' c) as Hent.
  { intros n t' c (Hn & Hm & Hdt). destruct (Hcase n Hn) as (Hn' & E & _). by rewrite E in Hm. }
  split; [done| | | |].
  - pose proof (tr_root _ Ht) as (_ & R & _). apply (untouched_dir v v' [child]); [apply Ht|done|done|auto| |apply Ht]. rewrite list_elem_of_singleton. intros <-. congruence.
  - intros n Hn. apply (Hcase n Hn).
  - intros n t' c He. destruct (tr_entry _ Ht _ _ _ (Hent _ _ _ He)) as (H1 & H2 & H3). rewrite Hbit by lia. done.
  - intros n1 t1 n2 t2 c H1 H2. apply (tr_once _ Ht n1 t1 n2 t2 c); by apply Hent.
Qed.

Lemma tree_unlink v v' num t rc :
  tree v → fs_ok v' → is_dir v num → ¬ dot_name t → unlinked sb v v' num (dmap v num) t rc → tree v'.
Proof.
  intros Ht Hok' Hd Hdot H. unfold unlinked in H. destruct (dmap v num !! t) as [child|] eqn:Em; [|by destruct H as [_ ->]].
  destruct H as [(_ & _ & _ & ->)|(_ & _ & Hnm & Hempty & Hbit & Hun)]; [done|].
  assert (entry v num t child) as Hech by done. destruct (tr_entry _ Ht _ _ _ Hech) as (Hc & Hcb & Hne).
  assert (∀ k, 0 ≤ k < sb_inode_count sb → k ∉ [child; num] → ibit v' k = ibit v k) as Hbit'.
  { intros k Hk Hkl. rewrite Hbit by done. rewrite bool_decide_false; [done|]. intros ->. apply Hkl. by left. }
  assert (∀ n, is_dir v' n → n ≠ child ∧ (n = num ∨ (is_dir v n ∧ dmap v' n = dmap v n ∧ names v' n (dmap v' n)))) as Hcase.
  { intros n Hn. assert (n ≠ child) as N1.
    { intros ->. destruct Hn as (_ & Hn & _). rewrite Hbit, bool_decide_true in Hn by (done || lia). done. }
    split; [done|]. destruct (decide (n = num)) as [->|N2]; [by left|right].
    apply (same_dir v v' [child; num]); try done. by rewrite !not_elem_of_cons; split_and!; [| |apply not_elem_of_nil]. }
  assert (∀ n t' c, entry v' n t' c → entry v n t' c ∧ c ≠ child) as Hent.
  { intros n t' c (Hn & Hm & Hdt). destruct (Hcase n Hn) as [N1 [->|(Hn' & E & _)]].
    - rewrite (names_dmap _ _ _ Hnm) in Hm. apply lookup_delete_Some in Hm as [Htt Hm]. split; [done|]. intros ->.
      destruct (tr_once _ Ht num t num t' child) as [_ ?]; done.
    - rewrite E in Hm. split; [done|]. intros ->. destruct (tr_once _ Ht num t n t' child) as [<- <-]; [done|done|].
      rewrite (names_dmap _ _ _ Hnm) in E. pose proof Em as Em'. rewrite <-E in Em'. by rewrite lookup_delete_eq in Em'. }
  destruct Hd as (Hi & Hib & _). split; [done| | | |].
  - destruct (decide (num = HNXFS_ROOT_INODE)) as [<-|Hr]; [split; [done|]; split; [|by apply (names_type _ _ _ Hnm)]|].
    + rewrite Hbit, Hib, bool_decide_false by (done || unfold HnxfsSpec.is_inode in Hi; lia). done.
    + apply (untouched_dir v v' [child; num]); [apply Ht|done|done|done| |apply Ht]. rewrite !not_elem_of_cons. unfold HNXFS_ROOT_INODE in *.
      split_and!; [lia|congruence|apply not_elem_of_nil].
  - intros n Hn. destruct (Hcase n Hn) as [_ [->|(_ & _ & H)]]; [by rewrite (names_dmap _ _ _ Hnm)|done].
  - intros n t' c He. destruct (Hent _ _ _ He) as [He' Hcc]. destruct (tr_entry _ Ht _ _ _ He') as (H1 & H2 & H3). rewrite Hbit, bool_decide_false by (done || lia). done.
  - intros n1 t1 n2 t2 c H1 H2. apply (tr_once _ Ht n1 t1 n2 t2 c); by apply Hent.
Qed.

End Tree.

(** ** The image that [mkhnxfs.py] writes *)

Definition INODE_TABLE_BLOCKS : Z := 8.

Definition mk_superblock (total_blocks data_start data_count inode_count : Z) : hnxfs_superblock :=
  mk_sb HNXFS_MAGIC HNXFS_VERSION HNXFS_BLOCK_SIZE total_blocks inode_count 1 2 3 INODE_TABLE_BLOCKS data_start data_count 1.

Definition pack_superblock (s : hnxfs_superblock) : list Z :=
  le_bytes 8 (sb_magic s) ++ le_bytes 4 (sb_version s) ++ le_bytes 4 (sb_block_size s) ++ le_bytes 8 (sb_total_blocks s) ++
  le_bytes 8 (sb_inode_count s) ++ le_bytes 8 (sb_inode_bitmap_block s) ++ le_bytes 8 (sb_data_bitmap_block s) ++
  le_bytes 8 (sb_inode_table_block s) ++ le_bytes 8 (sb_inode_table_blocks s) ++ le_bytes 8 (sb_data_block_start s) ++
  le_bytes 8 (sb_data_block_count s) ++ le_bytes 8 (sb_root_inode s).

Definition pack_inode (itype size blocks : Z) (direct : list Z) : list Z :=
  encode_inode (mk_inode itype 493 size blocks (take 12 (direct ++ replicate 12 0)) 0).

Definition pack_dirent (inode : Z) (name : list Z) : list Z :=
  let nb := take 119 name in le_bytes 8 inode ++ nb ++ replicate (120 - length nb) 0.

(** [img[block * BLOCK + off ...] = x]. *)
Definition img_put (img : gmap Z (list Z)) (b off : Z) (x : list Z) : gmap Z (list Z) := <[b := zsplice (blk img b) off x]> img.

(** The superblock and the blocks of an image of [size_mb] MiB; [None] when it is too small. *)
Definition mkhnxfs (total_blocks : Z) : option (hnxfs_superblock * gmap Z (list Z)) :=
  let data_start := 3 + INODE_TABLE_BLOCKS in
  if total_blocks <=? data_start + 1 then None
  else
    let s := mk_superblock total_blocks data_start (total_blocks - data_start) (INODE_TABLE_BLOCKS * HNXFS_INODES_PER_BLOCK) in
    let img : gmap Z (list Z) := list_to_map ((λ b, (b, g_zero_block)) <$> seqZ 0 total_blocks) in
    let img := img_put img 0 0 (pack_superblock s) in
    let img := img_put img 1 0 [3] in
    let img := img_put img 2 0 [1] in
    let img := img_put img 3 (1 * HNXFS_INODE_SIZE) (pack_inode HNXFS_TYPE_DIR HNXFS_BLOCK_SIZE 1 [data_start]) in
    let img := img_put img data_start 0 (pack_dirent 1 [46]) in
    let img := img_put img data_start 128 (pack_dirent 1 [46; 46]) in
    Some (s, img).

Section Image.
Context (total : Z) (Htotal : 12 < total ≤ 11 + BITS).

Definition img_sb : hnxfs_superblock := mk_superblock total 11 (total - 11) 256.
Definition img : gmap Z (list Z) := match mkhnxfs total with Some (_, v) => v | None => ∅ end.

Lemma mkhnxfs_eq : mkhnxfs total = Some (img_sb, img).
Proof. unfold img, mkhnxfs, INODE_TABLE_BLOCKS. destruct (Z.leb_spec total (3 + 8 + 1)); [lia|done]. Qed.

Lemma img_layout : layout img_sb.
Proof. unfold BITS, HNXFS_BLOCK_SIZE in Htotal. split; cbn; unfold BITS, HNXFS_BLOCK_SIZE, DISK_MAX, HNXFS_INODES_PER_BLOCK, INODE_TABLE_BLOCKS; lia. Qed.

Definition zeros_map : gmap Z (list Z) := list_to_map ((λ b, (b, g_zero_block)) <$> seqZ 0 total).

Lemma zeros_map_lookup b : zeros_map !! b = if decide (0 ≤ b < total) then Some g_zero_block else None.
Proof.
  unfold zeros_map. dec_if as H.
  - apply elem_of_list_to_map_1.
    + rewrite <-list_fmap_compose. cbn. rewrite list_fmap_id. apply NoDup_seqZ.
    + apply list_elem_of_fmap. exists b. split; [done|]. by apply elem_of_seqZ.
  - apply not_elem_of_list_to_map_1. rewrite <-list_fmap_compose. cbn. rewrite list_fmap_id, elem_of_seqZ. lia.
Qed.

Lemma zeros_blk b : 0 ≤ b < total → blk zeros_map b = g_zero_block.
Proof. intros Hb. unfold blk. by rewrite zeros_map_lookup, decide_True. Qed.

Definition img_block (b : Z) : list Z :=
  if decide (b = 0) then zsplice g_zero_block 0 (pack_superblock img_sb)
  else if decide (b = 1) then zsplice g_zero_block 0 [3]
  else if decide (b = 2) then zsplice g_zero_block 0 [1]
  else if decide (b = 3) then zsplice g_zero_block 128 (pack_inode 2 4096 1 [11])
  else if decide (b = 11) then zsplice (zsplice g_zero_block 0 (pack_dirent 1 [46])) 128 (pack_dirent 1 [46; 46])
  else g_zero_block.

Lemma img_put_blk v b off x c : blk (img_put v b off x) c = if decide (b = c) then zsplice (blk v b) off x else blk v c.
Proof. unfold img_put. dec_if as H; [subst; apply blk_insert|by apply blk_insert_ne]. Qed.

Lemma img_put_dom v b off x : 0 ≤ b < total → (∀ c, is_Some (v !! c) ↔ 0 ≤ c < total) → ∀ c, is_Some (img_put v b off x !! c) ↔ 0 ≤ c < total.
Proof.
  intros Hb Hv c. unfold img_put. destruct (decide (b = c)) as [->|]; [rewrite lookup_insert_eq; split; eauto|by rewrite lookup_insert_ne].
Qed.

Lemma img_eq : img = img_put (img_put (img_put (img_put (img_put (img_put zeros_map 0 0 (pack_superblock img_sb)) 1 0 [3]) 2 0 [1])
  3 128 (pack_inode 2 4096 1 [11])) 11 0 (pack_dirent 1 [46])) 11 128 (pack_dirent 1 [46; 46]).
Proof. unfold img, mkhnxfs, INODE_TABLE_BLOCKS. destruct (Z.leb_spec total (3 + 8 + 1)); [lia|done]. Qed.

Lemma img_blk b : 0 ≤ b < total → blk img b = img_block b.
Proof.
  intros Hb. rewrite img_eq, !img_put_blk. unfold img_block.
  destruct (decide (b = 0)) as [->|]; [rewrite !zeros_blk by lia; done|]. destruct (decide (b = 1)) as [->|]; [rewrite !zeros_blk by lia; done|].
  destruct (decide (b = 2)) as [->|]; [rewrite !zeros_blk by lia; done|]. destruct (decide (b = 3)) as [->|]; [rewrite !zeros_blk by lia; done|].
  destruct (decide (b = 11)) as [->|]; [rewrite !zeros_blk by lia; done|]. rewrite !decide_False by done. by apply zeros_blk.
Qed.

Lemma img_Some b : is_Some (img !! b) ↔ 0 ≤ b < total.
Proof.
  assert (∀ c, is_Some (zeros_map !! c) ↔ 0 ≤ c < total) as H.
  { intros c. rewrite zeros_map_lookup. dec_if; split; done. }
  rewrite img_eq. revert b. repeat (apply img_put_dom; [lia|]). exact H.
Qed.

Lemma zslice_zero off n : zslice g_zero_block off n = replicate (Z.to_nat n `min` (4096 - Z.to_nat off)) 0.
Proof. unfold zslice, g_zero_block. by rewrite drop_replicate, take_replicate. Qed.

Definition root_inode : hnxfs_inode := decode_inode (pack_inode 2 4096 1 [11]).

Lemma img_itab num : is_inode img_sb num → itab img_sb img num = if decide (num = 1) then root_inode else zero_inode.
Proof.
  intros Hn. destruct (inode_block_in img_sb (Hlay := img_layout) num Hn) as (_ & _ & Hb & Hp & _). unfold itab. rewrite img_blk by done.
  unfold is_inode in Hn. cbn in Hn. unfold inode_block, inode_pos in *. cbn [img_sb mk_superblock sb_inode_table_block] in *.
  unfold HNXFS_INODES_PER_BLOCK, HNXFS_INODE_SIZE in *. unfold img_block. rewrite !decide_False by zlia.
  assert (∀ k, 0 ≤ k < 32 → zslice g_zero_block (k * 128) 128 = replicate 128 0) as Hz.
  { intros k Hk. rewrite zslice_zero. f_equal. lia. }
  assert (zlen (pack_inode 2 4096 1 [11]) = 128) as Hl by by vm_compute. assert (zlen g_zero_block = 4096) as Hg by by vm_compute.
  destruct (decide (3 + num / 32 = 3)) as [E|E].
  - replace (num mod 32) with num by zlia. destruct (decide (num = 1)) as [->|Hne].
    + change (1 * 128) with 128. by rewrite <-Hl, zslice_zsplice by (rewrite ?Hl; lia).
    + rewrite zslice_zsplice_ne by lia. rewrite Hz by zlia. by vm_compute.
  - rewrite decide_False by zlia. rewrite decide_False by zlia. rewrite Hz by zlia. by vm_compute.
Qed.

Lemma img_blocks b x : img !! b = Some x → zlen x = HNXFS_BLOCK_SIZE ∧ bytes x.
Proof.
  intros Hx. assert (0 ≤ b < total) as Hb by (apply img_Some; eauto). pose proof (img_blk b Hb) as E. unfold blk in E. rewrite Hx in E. cbn in E. rewrite E.
  destruct zero_block as [Z1 Y1]. assert (∀ off y, 0 ≤ off → off + zlen y ≤ 4096 → bytes y → zlen (zsplice g_zero_block off y) = HNXFS_BLOCK_SIZE ∧ bytes (zsplice g_zero_block off y)) as H.
  { intros off y H1 H2 H3. split; [by rewrite zlen_zsplice|by apply bytes_zsplice]. }
  unfold img_block. destruct (decide (b = 0)).
  { apply H; [done|unfold pack_superblock; rewrite !zlen_app, !zlen_le_bytes; lia|]. unfold pack_superblock, bytes. rewrite !Forall_app. split_and!; apply bytes_le_bytes. }
  destruct (decide (b = 1)); [apply H; [done|done|by repeat constructor]|]. destruct (decide (b = 2)); [apply H; [done|done|by repeat constructor]|].
  destruct (decide (b = 3)); [apply H; [done|by vm_compute|apply bytes_encode_inode]|]. destruct (decide (b = 11)); [|done].
  split; [by vm_compute|]. repeat apply bytes_zsplice; [done|..]; unfold pack_dirent, bytes; rewrite !Forall_app; (split; [apply bytes_le_bytes|]); split; try (by repeat constructor); by apply Forall_replicate.
Qed.

Lemma img_ptr num b p : is_inode img_sb num → ptr (itab img_sb img num) b p → num = 1 ∧ b = 0 ∧ p = 11.
Proof.
  intros Hn (Hb & Hp & Hp0). rewrite img_itab in Hp by done. destruct (decide (num = 1)) as [->|].
  - change (in_direct root_inode) with (11 :: replicate 11 0) in Hp. destruct (decide (b = 0)) as [->|]; [change (Some 11 = Some p) in Hp; by injection Hp as <-|].
    replace (Z.to_nat b) with (S (Z.to_nat (b - 1))) in Hp by lia. change ((11 :: replicate 11 0) !! S (Z.to_nat (b - 1))) with (replicate 11 0 !! Z.to_nat (b - 1)) in Hp.
    by apply lookup_replicate in Hp as [-> _].
  - change (in_direct zero_inode) with (replicate 12 0) in Hp. by apply lookup_replicate in Hp as [-> _].
Qed.

Lemma img_fs_ok : fs_ok img_sb img.
Proof.
  assert (∀ num, is_inode img_sb num → in_size (itab img_sb img num) = if decide (num = 1) then 4096 else 0) as Hsz.
  { intros num Hn. rewrite img_itab by done. by dec_if. }
  split; [split; [intros b Hb; by apply img_Some|apply img_blocks]|]. split.
  - split.
    + intros num Hn. rewrite img_itab by done. dec_if; split; try done; split_and!; try done; by repeat constructor.
    + intros num b p Hn Hp. destruct (img_ptr _ _ _ Hn Hp) as (-> & -> & ->). by rewrite img_itab.
    + intros num b p Hn Hp. destruct (img_ptr _ _ _ Hn Hp) as (-> & -> & ->). split; [unfold is_data; cbn; lia|]. unfold dbit. cbn. rewrite img_blk by lia. by vm_compute.
    + intros i b j c p Hi Hj H1 H2. destruct (img_ptr _ _ _ Hi H1) as (-> & -> & ->), (img_ptr _ _ _ Hj H2) as (-> & -> & _). done.
  - intros num pos Hn Hp. rewrite Hsz in Hp by done. rewrite img_itab by done. destruct (decide (num = 1)); [|by apply fbyte_zero].
    unfold fbyte. unfold HNXFS_BLOCK_SIZE. replace (Z.to_nat (pos / 4096)) with (S (Z.to_nat (pos / 4096 - 1))) by zlia.
    change (in_direct root_inode !! S (Z.to_nat (pos / 4096 - 1))) with (replicate 11 0 !! Z.to_nat (pos / 4096 - 1)).
    destruct (replicate 11 0 !! _) as [z|] eqn:E; [|done]. by apply lookup_replicate in E as [-> _].
Qed.

Lemma img_dslots : dslots img root_inode = dirent_at (img_block 11) <$> seqZ 0 32.
Proof.
  unfold dslots. change (HNXFS_DIRENTS_PER_BLOCK * in_blocks root_inode) with 32. apply list_fmap_ext. intros i k Hk. apply lookup_seqZ in Hk as [-> Hk].
  unfold slot_at, HNXFS_DIRENTS_PER_BLOCK. replace ((0 + Z.of_nat i) / 32) with 0 by zlia. change (dptr root_inode 0) with 11. rewrite img_blk by lia. f_equal. zlia.
Qed.

Lemma img_entries : entries (dslots img root_inode) = [([46], 1); ([46; 46], 1)].
Proof. rewrite img_dslots. by vm_compute. Qed.

Lemma img_dir num : is_dir img_sb img num → num = 1.
Proof. intros (Hn & _ & Ht). rewrite img_itab in Ht by done. by destruct (decide (num = 1)). Qed.

Lemma img_tree : tree img_sb img.
Proof.
  assert (is_inode img_sb 1) as H1 by (unfold is_inode; cbn; lia). assert (itab img_sb img 1 = root_inode) as Ei by (by rewrite img_itab).
  assert (∀ num t c, entry img_sb img num t c → False) as Hno.
  { intros num t c (Hd & Hm & Hdot). apply img_dir in Hd as ->. unfold dmap, dirmap in Hm. rewrite Ei, img_entries in Hm. apply elem_of_list_to_map_2 in Hm.
    apply Hdot. unfold dot_name. set_solver. }
  split.
  - exact img_fs_ok.
  - change HNXFS_ROOT_INODE with 1. split; [done|]. split; [|by rewrite Ei]. unfold ibit. cbn [img_sb mk_superblock sb_inode_bitmap_block]. rewrite img_blk by lia. by vm_compute.
  - intros num Hd. apply img_dir in Hd as ->. unfold names, dmap, dir_uniq. rewrite Ei, img_entries. split_and!; [split; [done|split; [done|]]| |done].
    + intros b Hb. change (in_blocks root_inode) with 1 in Hb. replace b with 0 by lia. by exists 11.
    + cbn. rewrite !NoDup_cons, list_elem_of_singleton. split_and!; [done|apply not_elem_of_nil|constructor].
  - intros num t c He. by destruct (Hno num t c He).
  - intros n1 t1 n2 t2 c H _. by destruct (Hno n1 t1 c H).
Qed.

Lemma zslice_zsplice_in {A} (l x : list A) n off : 0 ≤ off → 0 ≤ n → off + n ≤ zlen x → zlen x ≤ zlen l → zslice (zsplice l 0 x) off n = zslice x off n.
Proof.
  intros H1 H2 H3 H4. apply list_eq_Z. intros i Hi. rewrite !lookup_zslice by lia. dec_if as H; [|done]. rewrite lookup_zsplice, decide_True by lia. f_equal. lia.
Qed.

Lemma decode_pack_superblock s : is_u64 (sb_total_blocks s) → is_u64 (sb_data_block_count s) → s = mk_superblock (sb_total_blocks s) 11 (sb_data_block_count s) 256 →
  decode_superblock (pack_superblock s) = s.
Proof.
  intros H1 H2 ->. set (t := sb_total_blocks s) in *. set (c := sb_data_block_count s) in *. clearbody t c.
  transitivity (mk_superblock (le_int (le_bytes 8 t)) 11 (le_int (le_bytes 8 c)) 256); [reflexivity|]. by rewrite !le_int_bytes.
Qed.

(** A mount of the image finds the superblock. *)
Lemma img_superblock : decode_superblock (blk img 0) = img_sb.
Proof.
  unfold BITS, HNXFS_BLOCK_SIZE in Htotal. rewrite img_blk by lia. change (img_block 0) with (zsplice g_zero_block 0 (pack_superblock img_sb)).
  assert (zlen (pack_superblock img_sb) = 88) as Hl by (unfold pack_superblock; by rewrite !zlen_app, !zlen_le_bytes).
  transitivity (decode_superblock (pack_superblock img_sb)).
  - unfold decode_superblock, le_at. rewrite !zslice_zsplice_in; [done|rewrite ?Hl; by vm_compute..].
  - apply decode_pack_superblock; [unfold is_u64; cbn; lia..|done].
Qed.

End Image.
