(* ===== verification/HnxfsDisk.v ===== *)
(** HNXFS on the block layer: [hnxfs_read_block] and [hnxfs_write_block] of [kernel/fs/hnxfs/hnxfs.c] are eight sectors of
    [block_read] and [block_write], and satisfy [DiskLaws] on any device whose cache is coherent. The theorems about the
    file system are stated here. *)

From S2P Require Import Prelude Bytes CString StateM Block Hnxfs HnxfsSpec HnxfsDir HnxfsTree.

(** ** Definitions *)

(** The block layer and [g_hnxfs.dev]. *)
Record hdisk (D : Type) := mk_hdisk { hd_block : block D; hd_dev : Z }.
Arguments mk_hdisk {D}.
Arguments hd_block {D}.
Arguments hd_dev {D}.

Section Disk.
Context {D : Type} {DR : Drive D}.

Definition read_fsblock (fsblk : Z) : stM (hdisk D) (option (list Z)) := λ s,
  '(b, buf, rc) ← block_read (hd_block s) (hd_dev s) (u64 (fsblk * HNXFS_SECTORS_PER_BLOCK)) g_zero_block HNXFS_SECTORS_PER_BLOCK;
  Ret (mk_hdisk b (hd_dev s), if rc =? 0 then Some buf else None).

Definition write_fsblock (fsblk : Z) (buf : list Z) : stM (hdisk D) Z := λ s,
  '(b, rc) ← block_write (hd_block s) (hd_dev s) (u64 (fsblk * HNXFS_SECTORS_PER_BLOCK)) buf HNXFS_SECTORS_PER_BLOCK;
  Ret (mk_hdisk b (hd_dev s), rc).

#[export] Instance hnxfs_disk : Disk (hdisk D) := { hnxfs_read_block := read_fsblock; hnxfs_write_block := write_fsblock }.

End Disk.

(** *** [hnxfs_fsck.c] *)

Definition HNXFS_FSCK_BAD_MAGIC : Z := 0x1.
Definition HNXFS_FSCK_BAD_VERSION : Z := 0x2.
Definition HNXFS_FSCK_BAD_BLOCKSIZE : Z := 0x4.
Definition HNXFS_FSCK_BAD_LAYOUT : Z := 0x8.
Definition HNXFS_FSCK_BAD_ROOT : Z := 0x10.
Definition HNXFS_FSCK_BAD_COUNTS : Z := 0x20.
Definition HNXFS_FSCK_READ_ERROR : Z := 0x40.

Record hnxfs_fsck_report := mk_report { rep_problems : Z; rep_problem_count : Z; rep_total_blocks : Z; rep_inode_count : Z }.

Definition flag (rep : hnxfs_fsck_report) (b : Z) : hnxfs_fsck_report :=
  mk_report (Z.lor (rep_problems rep) b) (if Z.land (rep_problems rep) b =? 0 then u32 (rep_problem_count rep + 1) else rep_problem_count rep)
    (rep_total_blocks rep) (rep_inode_count rep).

(** [if (c) flag(rep, b)]. *)
Definition flag_if (c : bool) (b : Z) (rep : hnxfs_fsck_report) : hnxfs_fsck_report := if c then flag rep b else rep.

Definition fsck_result (rep : hnxfs_fsck_report) : Z := if negb (rep_problem_count rep =? 0) then - i32 (rep_problem_count rep) else 0.

Definition hnxfs_fsck_superblock (sb : hnxfs_superblock) : hnxfs_fsck_report * Z :=
  let rep := mk_report 0 0 (sb_total_blocks sb) (sb_inode_count sb) in
  let rep := flag_if (negb (sb_magic sb =? HNXFS_MAGIC)) HNXFS_FSCK_BAD_MAGIC rep in
  let rep := flag_if (negb (sb_version sb =? HNXFS_VERSION)) HNXFS_FSCK_BAD_VERSION rep in
  let rep := flag_if (negb (sb_block_size sb =? HNXFS_BLOCK_SIZE)) HNXFS_FSCK_BAD_BLOCKSIZE rep in
  let rep := flag_if (negb (sb_root_inode sb =? HNXFS_ROOT_INODE)) HNXFS_FSCK_BAD_ROOT rep in
  let rep := flag_if ((sb_inode_count sb =? 0) || (sb_total_blocks sb =? 0)) HNXFS_FSCK_BAD_COUNTS rep in
  let rep := flag_if (negb ((1 <=? sb_inode_bitmap_block sb) && (sb_inode_bitmap_block sb <? sb_data_bitmap_block sb) &&
                            (sb_data_bitmap_block sb <? sb_inode_table_block sb) &&
                            (u64 (sb_inode_table_block sb + sb_inode_table_blocks sb) <=? sb_data_block_start sb))) HNXFS_FSCK_BAD_LAYOUT rep in
  let rep := flag_if (sb_total_blocks sb <? u64 (sb_data_block_start sb + sb_data_block_count sb)) HNXFS_FSCK_BAD_LAYOUT rep in
  let rep := flag_if ((sb_inode_table_blocks sb =? 0) || (u64 (sb_inode_table_blocks sb * HNXFS_INODES_PER_BLOCK) <? sb_inode_count sb)) HNXFS_FSCK_BAD_COUNTS rep in
  (rep, fsck_result rep).

Definition hnxfs_fsck_device {D : Type} {DR : Drive D} (b : block D) (dev : Z) : outcome (block D * hnxfs_fsck_report * Z) :=
  let rep := mk_report 0 0 0 0 in
  '(b, buf, rc) ← block_read b dev 0 g_zero_block HNXFS_SECTORS_PER_BLOCK;
  Ret (if negb (rc =? 0) then let rep := flag rep HNXFS_FSCK_READ_ERROR in (b, rep, - i32 (rep_problem_count rep))
       else let '(rep, r) := hnxfs_fsck_superblock (decode_superblock buf) in (b, rep, r)).

(** ** The laws *)

(** The eight sectors of block [b] are [x]. *)
Definition block_is (m : sectors) (b : Z) (x : list Z) : Prop :=
  zlen x = HNXFS_BLOCK_SIZE ∧ ∀ i, 0 ≤ i < HNXFS_SECTORS_PER_BLOCK → m (b * HNXFS_SECTORS_PER_BLOCK + i) = Some (zslice x (i * BLOCK_SECTOR_SIZE) BLOCK_SECTOR_SIZE).

Lemma sector_slice (x : list Z) k : 0 ≤ k → zlen x = HNXFS_BLOCK_SIZE →
  x !! Z.to_nat k = zslice x (k / BLOCK_SECTOR_SIZE * BLOCK_SECTOR_SIZE) BLOCK_SECTOR_SIZE !! Z.to_nat (k mod BLOCK_SECTOR_SIZE).
Proof.
  intros Hk Hx. unfold BLOCK_SECTOR_SIZE. rewrite lookup_zslice by zlia. rewrite decide_True by zlia. f_equal. f_equal. zlia.
Qed.

Lemma block_is_inj m b x y : block_is m b x → block_is m b y → x = y.
Proof.
  intros [Hx H1] [Hy H2]. apply list_eq_Z. intros k Hk. destruct (decide (k < HNXFS_BLOCK_SIZE)).
  - rewrite (sector_slice x), (sector_slice y) by done. assert (0 ≤ k / BLOCK_SECTOR_SIZE < HNXFS_SECTORS_PER_BLOCK) as Hi.
    { unfold HNXFS_BLOCK_SIZE, BLOCK_SECTOR_SIZE, HNXFS_SECTORS_PER_BLOCK in *. zlia. }
    specialize (H1 _ Hi). specialize (H2 _ Hi). congruence.
  - rewrite !lookup_ge_None_2; [done|unfold zlen in *; lia..].
Qed.

Lemma block_is_bytes m b x : (∀ lba y, m lba = Some y → bytes y) → block_is m b x → bytes x.
Proof.
  intros Hm [Hx H1]. apply Forall_lookup. intros k z Hz. rewrite <-(Nat2Z.id k) in Hz. rewrite sector_slice in Hz by (done || lia).
  apply lookup_lt_Some in Hz as Hlt. set (q := Z.of_nat k) in *.
  assert (0 ≤ q / BLOCK_SECTOR_SIZE < HNXFS_SECTORS_PER_BLOCK) as Hi.
  { unfold zslice in Hlt. rewrite length_take, length_drop in Hlt. unfold zlen, HNXFS_BLOCK_SIZE, BLOCK_SECTOR_SIZE, HNXFS_SECTORS_PER_BLOCK in *. zlia. }
  specialize (Hm _ _ (H1 _ Hi)). exact (Forall_lookup_1 _ _ _ _ Hm Hz).
Qed.

Lemma uncached_read_block m b buf0 :
  (∀ lba y, m lba = Some y → zlen y = BLOCK_SECTOR_SIZE) → zlen buf0 = HNXFS_BLOCK_SIZE →
  ∃ buf rc, uncached_read m (b * HNXFS_SECTORS_PER_BLOCK) buf0 HNXFS_SECTORS_PER_BLOCK = Ret (buf, rc) ∧
    ((rc = 0 ∧ block_is m b buf) ∨ (rc = -1 ∧ ∃ i, 0 ≤ i < HNXFS_SECTORS_PER_BLOCK ∧ m (b * HNXFS_SECTORS_PER_BLOCK + i) = None)).
Proof.
  intros Hm H0. unfold uncached_read. set (lba := b * HNXFS_SECTORS_PER_BLOCK).
  destruct (find_range_inv (λ i buf, zlen buf = HNXFS_BLOCK_SIZE ∧ ∀ j, 0 ≤ j < i → m (lba + j) = Some (zslice buf (j * BLOCK_SECTOR_SIZE) BLOCK_SECTOR_SIZE))
    (λ buf, ∃ i, 0 ≤ i < HNXFS_SECTORS_PER_BLOCK ∧ m (lba + i) = None)
    (λ i buf, Ret (match m (lba + i) with Some x => inl (zsplice buf (i * BLOCK_SECTOR_SIZE) x) | None => inr buf end)) 0 HNXFS_SECTORS_PER_BLOCK buf0)
    as [(buf & E & H)|(buf & E & H)]; [done| |split; [done|lia]|..].
  - intros i buf Hi [Hz Hj]. destruct (m (lba + i)) as [x|] eqn:Ex; [left|right; eauto]. eexists. split; [done|]. pose proof (Hm _ _ Ex) as Hx.
    assert (0 ≤ i * BLOCK_SECTOR_SIZE ∧ i * BLOCK_SECTOR_SIZE + zlen x ≤ zlen buf) as [B1 B2].
    { unfold HNXFS_BLOCK_SIZE, BLOCK_SECTOR_SIZE, HNXFS_SECTORS_PER_BLOCK in *. lia. }
    split; [by rewrite zlen_zsplice|]. intros j Hj'. destruct (decide (j = i)) as [->|Hne].
    + pose proof (zslice_zsplice buf x (i * BLOCK_SECTOR_SIZE) B1 B2) as E. rewrite Hx in E. by rewrite Ex, E.
    + rewrite zslice_zsplice_ne; [apply Hj; lia|done|done|unfold BLOCK_SECTOR_SIZE; lia|]. unfold BLOCK_SECTOR_SIZE in *. lia.
  - rewrite E. cbn [mbind outcome_bind]. eexists _, _. split; [done|]. left. by split.
  - rewrite E. cbn [mbind outcome_bind]. eexists _, _. split; [done|]. right. by split.
Qed.

(** [m] with the first [n] sectors of block [b] replaced by those of [x]. *)
Definition over (m : sectors) (b : Z) (x : list Z) (n : Z) (m' : sectors) : Prop :=
  ∀ lba, m' lba = if decide (b * HNXFS_SECTORS_PER_BLOCK ≤ lba < b * HNXFS_SECTORS_PER_BLOCK + n)
                  then Some (zslice x ((lba - b * HNXFS_SECTORS_PER_BLOCK) * BLOCK_SECTOR_SIZE) BLOCK_SECTOR_SIZE) else m lba.

Lemma uncached_write_block m b x :
  ∃ m' rc n, uncached_write m (b * HNXFS_SECTORS_PER_BLOCK) x HNXFS_SECTORS_PER_BLOCK = Ret (m', rc) ∧ over m b x n m' ∧
    ((rc = 0 ∧ n = HNXFS_SECTORS_PER_BLOCK ∧ ∀ i, 0 ≤ i < n → is_Some (m (b * HNXFS_SECTORS_PER_BLOCK + i))) ∨
     (rc = -1 ∧ 0 ≤ n < HNXFS_SECTORS_PER_BLOCK ∧ m (b * HNXFS_SECTORS_PER_BLOCK + n) = None)).
Proof.
  unfold uncached_write. set (lba := b * HNXFS_SECTORS_PER_BLOCK).
  destruct (find_range_inv (λ i m', over m b x i m' ∧ ∀ j, 0 ≤ j < i → is_Some (m (lba + j)))
    (λ m', ∃ n, over m b x n m' ∧ 0 ≤ n < HNXFS_SECTORS_PER_BLOCK ∧ m (lba + n) = None)
    (λ i (m : sectors), Ret (match m (lba + i) with
             | Some _ => inl (λ j, if decide (j = lba + i) then Some (zslice x (i * BLOCK_SECTOR_SIZE) BLOCK_SECTOR_SIZE) else m j)
             | None => inr m
             end)) 0 HNXFS_SECTORS_PER_BLOCK m) as [(m' & E & H)|(m' & E & H)]; [done| |split; [|lia]|..].
  - intros i m1 Hi [Hov Hj]. fold lba in Hov. destruct (m1 (lba + i)) as [y|] eqn:Ey.
    + left. eexists. split; [done|]. rewrite (Hov (lba + i)) in Ey. fold lba in Ey. rewrite decide_False in Ey by lia. split.
      * intros l. fold lba. destruct (decide (l = lba + i)) as [->|Hne]; [rewrite decide_True by lia; do 2 f_equal; lia|].
        rewrite (Hov l). fold lba. destruct (decide (lba ≤ l < lba + i)), (decide (lba ≤ l < lba + (i + 1))); try done; lia.
      * intros j Hj'. destruct (decide (j = i)) as [->|]; [by rewrite Ey|apply Hj; lia].
    + right. eexists. split; [done|]. rewrite (Hov (lba + i)) in Ey. fold lba in Ey. rewrite decide_False in Ey by lia. eauto.
  - intros l. fold lba. by rewrite decide_False by lia.
  - rewrite E. cbn [mbind outcome_bind]. destruct H. eexists _, _, _. split; [done|]. split; [done|]. by left.
  - rewrite E. cbn [mbind outcome_bind]. destruct H as (n & H1 & H2 & H3). eexists _, _, n. split; [done|]. split; [done|]. by right.
Qed.

Section Laws.
Context {D : Type} {DR : Drive D} {HD : DriveLaws D}.

Definition hdisk_sees (s : hdisk D) (v : gmap Z (list Z)) : Prop :=
  ∃ m, stands (hd_block s) (hd_dev s) m ∧ (∀ lba y, m lba = Some y → bytes y) ∧
    (∀ b x, v !! b = Some x → 0 ≤ b < DISK_MAX) ∧ ∀ b x, 0 ≤ b < DISK_MAX → v !! b = Some x ↔ block_is m b x.

Lemma fsblk_lba b : 0 ≤ b < DISK_MAX → u64 (b * HNXFS_SECTORS_PER_BLOCK) = b * HNXFS_SECTORS_PER_BLOCK ∧ 0 ≤ b * HNXFS_SECTORS_PER_BLOCK ∧ b * HNXFS_SECTORS_PER_BLOCK + HNXFS_SECTORS_PER_BLOCK < 2 ^ 64.
Proof. unfold DISK_MAX, HNXFS_SECTORS_PER_BLOCK. intros Hb. rewrite u64_small by lia. lia. Qed.

Lemma hdisk_read s v b : hdisk_sees s v → 0 ≤ b < DISK_MAX → wp (read_fsblock b) s (λ r s', r = v !! b ∧ hdisk_sees s' v).
Proof.
  intros (m & Hst & Hby & Hdom & Hv) Hb. destruct (fsblk_lba b Hb) as (E & H1 & H2). unfold wp, read_fsblock. rewrite E.
  destruct (block_read_spec (hd_block s) (hd_dev s) m (b * HNXFS_SECTORS_PER_BLOCK) g_zero_block HNXFS_SECTORS_PER_BLOCK) as (s1 & buf & rc & -> & Eu & Hst1 & _); [done|done|done|done|by vm_compute|].
  cbn [mbind outcome_bind]. destruct (uncached_read_block m b g_zero_block) as (buf' & rc' & Eu' & Hr); [intros lba y; by apply (stands_sector_len _ _ _ _ _ Hst)|done|].
  rewrite Eu in Eu'. injection Eu' as <- <-. split; [|exists m; by split_and!].
  destruct Hr as [(-> & Hblk)|(-> & i & Hi & Hnone)]; cbn [Z.eqb]; [symmetry; by apply Hv|].
  destruct (v !! b) as [x|] eqn:Ex; [|done]. apply Hv in Ex as [_ Ex]; [|done]. rewrite Ex in Hnone by done. done.
Qed.

Lemma hdisk_write s v b x : hdisk_sees s v → 0 ≤ b < DISK_MAX → zlen x = HNXFS_BLOCK_SIZE → bytes x →
  wp (write_fsblock b x) s (λ rc s', match v !! b with Some _ => rc = 0 ∧ hdisk_sees s' (<[b := x]> v) | None => rc ≠ 0 ∧ hdisk_sees s' v end).
Proof.
  intros (m & Hst & Hby & Hdom & Hv) Hb Hx Hxb. destruct (fsblk_lba b Hb) as (E & H1 & H2). unfold wp, write_fsblock. rewrite E.
  destruct (block_write_spec (hd_block s) (hd_dev s) m (b * HNXFS_SECTORS_PER_BLOCK) x HNXFS_SECTORS_PER_BLOCK) as (s1 & m1 & rc & -> & Eu & Hst1); [done|done|done|done|by rewrite Hx|].
  cbn [mbind outcome_bind]. destruct (uncached_write_block m b x) as (m' & rc' & n & Eu' & Hov & Hr).
  rewrite Eu in Eu'. injection Eu' as <- <-. set (B := HNXFS_SECTORS_PER_BLOCK) in *. assert (B = 8) as EB by done.
  assert (∀ lba y, m1 lba = Some y → bytes y) as Hby1.
  { intros lba y. rewrite (Hov lba). dec_if; [intros [= <-]; by apply bytes_zslice|apply Hby]. }
  assert (n ≤ B) as HnB by (destruct Hr as [(_ & -> & _)|(_ & ? & _)]; lia).
  assert (∀ c y, c ≠ b → block_is m1 c y ↔ block_is m c y) as Hother.
  { intros c y Hc. assert (∀ i, 0 ≤ i < B → m1 (c * B + i) = m (c * B + i)) as Heq.
    { intros i Hi. rewrite (Hov (c * B + i)). fold B. rewrite decide_False by nia. done. }
    split; intros [Hy H]; (split; [done|]); intros i Hi; rewrite <-(H i Hi); [symmetry|]; by apply Heq. }
  destruct Hr as [(-> & -> & Hall)|(-> & Hn & Hnone)].
  - assert (is_Some (v !! b)) as [y ->].
    { destruct (uncached_read_block m b g_zero_block) as (buf & rc & _ & [[_ Hbuf]|(_ & i & Hi & Hnone)]); [intros lba y; by apply (stands_sector_len _ _ _ _ _ Hst)|done| |].
      - exists buf. by apply Hv.
      - destruct (Hall i Hi) as [z Hz]. unfold B in Hz. by rewrite Hnone in Hz. }
    split; [done|]. exists m1. split; [done|]. split; [done|]. split.
    { intros c y'. destruct (decide (c = b)) as [->|Hne]; [done|rewrite lookup_insert_ne by done; apply Hdom]. }
    intros c y' Hc. destruct (decide (c = b)) as [->|Hne]; [rewrite lookup_insert_eq|rewrite lookup_insert_ne by done; rewrite Hother by done; by apply Hv].
    assert (block_is m1 b x) as Hbx.
    { split; [done|]. intros i Hi. fold B in Hi. fold B. rewrite (Hov (b * B + i)). fold B. rewrite decide_True by lia. do 2 f_equal. lia. }
    split; [by intros [= <-]|]. intros Hy'. by rewrite (block_is_inj _ _ _ _ Hbx Hy').
  - assert (∀ y, ¬ block_is m b y) as Hno by (intros y [_ Hy]; fold B in Hy; rewrite Hy in Hnone by done; done).
    destruct (v !! b) as [y|] eqn:Ey; [by apply Hv, Hno in Ey|]. split; [done|]. exists m1. split; [done|]. split; [done|]. split; [done|].
    intros c y' Hc. destruct (decide (c = b)) as [->|Hne]; [|rewrite Hother by done; by apply Hv]. rewrite Ey. split; [done|]. intros [_ Hy]. fold B in Hy.
    specialize (Hy n Hn). rewrite (Hov (b * B + n)) in Hy. fold B in Hy. rewrite decide_False in Hy by lia. by rewrite Hnone in Hy.
Qed.

#[export] Program Instance hdisk_laws : DiskLaws (hdisk D) := { dsees := hdisk_sees }.
Next Obligation.
  intros s v b x (m & Hst & Hby & Hdom & Hv) Hx. pose proof (Hdom _ _ Hx) as Hb. apply Hv in Hx; [|done]. split; [apply Hx|by apply (block_is_bytes m b)].
Qed.
Next Obligation. intros. by apply hdisk_read. Qed.
Next Obligation. intros. by apply hdisk_write. Qed.

End Laws.

(** ** An image in memory *)

Definition ram_of (v : gmap Z (list Z)) (n : Z) : ram_disk :=
  mk_ram (8 * n) (list_to_map ((λ lba, (lba, zslice (blk v (lba / 8)) (lba mod 8 * 512) 512)) <$> seqZ 0 (8 * n))).

Definition fresh_disk (v : gmap Z (list Z)) (n : Z) : hdisk ram_disk :=
  mk_hdisk (mk_block (replicate 64 ex_empty_line) 0 0 0 0 (mk_bstats 0 0 0 0 0)
    {[ ex_disk := mk_bdev (8 * n) 512 (DriveOps 0) true true ]} {[ 0 := ram_of v n ]}) ex_disk.

Lemma ram_of_lookup v n lba : 0 ≤ lba < 8 * n → rd_map (ram_of v n) !! lba = Some (zslice (blk v (lba / 8)) (lba mod 8 * 512) 512).
Proof.
  intros Hl. apply elem_of_list_to_map_1.
  - rewrite <-list_fmap_compose. cbn. rewrite list_fmap_id. apply NoDup_seqZ.
  - apply list_elem_of_fmap. exists lba. split; [done|]. by apply elem_of_seqZ.
Qed.

Lemma fresh_disk_sector v n lba : (∀ b, 0 ≤ b < n → zlen (blk v b) = HNXFS_BLOCK_SIZE) →
  sector (hd_block (fresh_disk v n)) ex_disk lba = if decide (0 ≤ lba < 8 * n) then Some (zslice (blk v (lba / 8)) (lba mod 8 * 512) 512) else None.
Proof.
  intros Hv. unfold sector. change (place (hd_block (fresh_disk v n)) ex_disk lba) with (Some (0, lba)). cbn [mbind option_bind]. unfold on_drive.
  change (b_drives (hd_block (fresh_disk v n)) !! (0, lba).1) with (Some (ram_of v n)). cbn [mbind option_bind fst snd]. cbn [drive_size ram_drive_laws ram_of rd_size].
  dec_if as H.
  - rewrite (proj2 (Z.leb_le _ _)), (proj2 (Z.ltb_lt _ _)) by lia. cbn [andb]. f_equal. cbn [drive_get ram_drive_laws]. unfold rd_get. rewrite ram_of_lookup by done.
    rewrite zlen_zslice; [done|zlia|lia|]. rewrite Hv by zlia. unfold HNXFS_BLOCK_SIZE. zlia.
  - destruct (Z.leb_spec 0 lba), (Z.ltb_spec lba (8 * n)); try lia; done.
Qed.

Lemma fresh_disk_sees v n :
  n < DISK_MAX → (∀ b, is_Some (v !! b) ↔ 0 ≤ b < n) → (∀ b x, v !! b = Some x → zlen x = HNXFS_BLOCK_SIZE ∧ bytes x) → dsees (fresh_disk v n) v.
Proof.
  intros Hn Hdom Hblk. assert (∀ b, 0 ≤ b < n → v !! b = Some (blk v b) ∧ zlen (blk v b) = HNXFS_BLOCK_SIZE ∧ bytes (blk v b)) as Hb.
  { intros b Hb. apply Hdom in Hb as [x Hx]. unfold blk. rewrite Hx. split; [done|]. by apply (Hblk b). }
  exists (sector (hd_block (fresh_disk v n)) ex_disk). split_and!.
  - split; [split; [done|]; split; [|by eexists]; split; [done|]; split; [done|]; by eexists|]. split; [|done]. split; [done|]. split; [by apply Forall_replicate|].
    intros i l Hi Hl. apply lookup_replicate in Hi as [-> _]. done.
  - intros lba y. rewrite fresh_disk_sector by (intros; by apply Hb). dec_if as H; [|done]. intros [= <-]. apply bytes_zslice, Hb. zlia.
  - intros b x Hx. assert (0 ≤ b < n) by (apply Hdom; eauto). lia.
  - intros b x Hbm. unfold block_is, HNXFS_SECTORS_PER_BLOCK, BLOCK_SECTOR_SIZE. split.
    + intros Hx. assert (0 ≤ b < n) as Hbn by (apply Hdom; eauto). destruct (Hb b Hbn) as (E & Hz & _). rewrite Hx in E. injection E as ->. split; [done|].
      intros i Hi. rewrite fresh_disk_sector by (intros; by apply Hb). rewrite decide_True by lia.
      replace ((b * 8 + i) / 8) with b by zlia. by replace ((b * 8 + i) mod 8) with i by zlia.
    + intros [Hz H]. assert (0 ≤ b < n) as Hbn.
      { specialize (H 0 ltac:(lia)). rewrite fresh_disk_sector in H by (intros; by apply Hb). destruct (decide (0 ≤ b * 8 + 0 < 8 * n)); [lia|done]. }
      destruct (Hb b Hbn) as (-> & Hz' & _). f_equal. apply (block_is_inj (sector (hd_block (fresh_disk v n)) ex_disk) b); [|by split].
      split; [done|]. unfold HNXFS_SECTORS_PER_BLOCK, BLOCK_SECTOR_SIZE. intros i Hi. rewrite fresh_disk_sector by (intros; by apply Hb). rewrite decide_True by lia.
      replace ((b * 8 + i) / 8) with b by zlia. by replace ((b * 8 + i) mod 8) with i by zlia.
Qed.

(** ** Theorems *)

(** The calls of the file system. A name is its bytes with a NUL. *)
Inductive fs_call :=
  | Create (num : Z) (t : list Z) (dir : bool)
  | Unlink (num : Z) (t : list Z)
  | Write (num : Z) (buf : list Z) (offset : Z)
  | Read (num : Z) (buf : list Z) (offset : Z).

Section Theorems.
Context {D : Type} {DR : Drive D} {HD : DriveLaws D}.
Context (sb : hnxfs_superblock) {Hlay : layout sb}.
Implicit Types s : hdisk D.

Definition run (c : fs_call) : stM (hdisk D) Z :=
  match c with
  | Create num t dir => r ← v_create sb num (t ++ [0]) dir; mret (match r with inl e => e | inr child => child end)
  | Unlink num t => v_unlink sb num (t ++ [0])
  | Write num buf offset => hnxfs_file_write sb num buf (zlen buf) offset
  | Read num buf offset => '(n, _) ← hnxfs_file_read sb num buf (zlen buf) offset; mret n
  end.

(** A name that a directory entry can hold. *)
Definition good_name (t : list Z) : Prop := 0 ∉ t ∧ bytes t ∧ zlen t < HNXFS_NAME_MAX ∧ ¬ dot_name t.

(** The calls that the theorem is about: names go to directories, data to files, and a name is one that an entry can hold. The
    layer above keeps to this but for the length of names: [vfs.c] passes on components of up to 127 bytes, of which an entry
    keeps the first 119, so that two files of a directory can get the same name. *)
Definition call_ok (v : gmap Z (list Z)) (c : fs_call) : Prop :=
  match c with
  | Create num t _ | Unlink num t => is_dir sb v num ∧ good_name t
  | Write num buf offset => is_inode sb num ∧ in_type (itab sb v num) ≠ HNXFS_TYPE_DIR ∧ bytes buf ∧ 0 ≤ offset ∧ offset + zlen buf < 2 ^ 64
  | Read num buf offset => is_inode sb num ∧ 0 ≤ offset
  end.

(** The states that calls lead to from [s0]. *)
Inductive reached s0 : hdisk D → Prop :=
  | reached_here : reached s0 s0
  | reached_call s v c s' r : reached s0 s → dsees s v → call_ok v c → run c s = Ret (s', r) → reached s0 s'.

Lemma dsees_inj s v v' : dsees s v → dsees s v' → v = v'.
Proof.
  intros (m & (_ & _ & Hm) & _ & H1 & H2) (m' & (_ & _ & Hm') & _ & H1' & H2'). apply map_eq. intros b.
  assert (∀ b x, block_is m b x ↔ block_is m' b x) as Heq.
  { intros c x. unfold block_is. split; intros [Hz H]; (split; [done|]); intros i Hi; rewrite <-(H i Hi); [rewrite <-Hm, <-Hm'|rewrite <-Hm', <-Hm]; done. }
  apply option_eq. intros x. split; intros Hx.
  - pose proof (H1 _ _ Hx). apply H2' ; [done|]. apply Heq. by apply H2.
  - pose proof (H1' _ _ Hx). apply H2 ; [done|]. apply Heq. by apply H2'.
Qed.

Lemma good_name_cstr t : good_name t → cstr (t ++ [0]) t.
Proof. intros (H & _). split; [done|]. by exists []. Qed.

(** Every call returns, and leaves a tree. *)
Lemma run_spec s v c : dsees s v → tree sb v → call_ok v c → wp (run c) s (λ _ s', ∃ v', dsees s' v' ∧ tree sb v').
Proof.
  intros Hs Ht Hc. pose proof (tr_ok _ _ Ht) as Hok. destruct c as [num t dir|num t|num buf offset|num buf offset]; cbn [run call_ok] in *.
  - destruct Hc as [Hd Hg]. pose proof Hg as (_ & Hb & Hl & Hdot). pose proof Hd as (Hi & Hib & _).
    wstep (v_create_spec sb); [done|done|done|done|by apply tr_dir|by apply good_name_cstr|done|done|]. intros [e|child] s1 (v1 & Hs1 & Hok1 & Hcr); apply wp_ret; exists v1; split; try done.
    + by eapply tree_create_fails.
    + by eapply tree_create.
  - destruct Hc as [Hd Hg]. pose proof Hg as (_ & Hb & Hl & Hdot). pose proof Hd as (Hi & Hib & _).
    eapply wp_mono; [eapply (v_unlink_spec sb s v num (dmap sb v num)); [done|done|done|by apply tr_dir|by apply good_name_cstr|done|done|]|].
    + intros child Hch. destruct (tr_entry _ _ Ht num t child) as (H1 & H2 & H3); [by split_and!|]. split; [done|]. split; [done|]. intros Hty.
      assert (is_dir sb v child) as Hcd by (split; [unfold is_inode; lia|done]). by destruct (tr_dir _ _ Ht child Hcd).
    + intros rc s1 (v1 & Hs1 & Hok1 & Hun). exists v1. split; [done|]. by eapply tree_unlink.
  - destruct Hc as (Hi & Hty & Hb & Ho & Hl). eapply wp_mono; [apply (file_write_spec sb s v num buf (zlen buf) offset); try done; pose proof (zlen_nonneg buf); lia|].
    intros n s1 (v1 & Hs1 & Hok1 & _ & _ & _ & Hty1 & Hoth). exists v1. split; [done|]. by eapply tree_write.
  - destruct Hc as (Hi & Ho). wstep (file_read_spec sb); [done|done|done|pose proof (zlen_nonneg buf); lia|done|]. intros [n buf'] s1 [Hs1 _]. apply wp_ret. by exists v.
Qed.

(** C4. The tree of directories is an invariant of the file system: from a disk that is a tree, through any sequence of calls that
    create, unlink, write and read, every call returns, and the disk is a tree again: no block belongs to two files, the blocks
    of files are marked in the bitmap, every name stands for one inode in use, and no inode has two names. The calls are as in
    [call_ok]: names of at most 119 bytes other than [.] and [..], given with a directory, and data given with a file that is not
    one. The volume has a superblock with the regions in order and bitmaps of one block each, so at most 32768 inodes and blocks
    (what happens on others that fsck accepts is [fsck_accepts_overrun]), and the drive reads and writes the sectors it has. *)
Theorem hnxfs_tree_kept s0 v0 s :
  dsees s0 v0 → tree sb v0 → reached s0 s →
  ∃ v, dsees s v ∧ tree sb v ∧ ∀ c, call_ok v c → ∃ s' r, run c s = Ret (s', r).
Proof.
  intros Hs0 Ht0 Hr. assert (∃ v, dsees s v ∧ tree sb v) as (v & Hs & Ht).
  { induction Hr as [|s v c s' r _ IH Hs Hc E]; [eauto|]. destruct IH as (v1 & Hs1 & Ht1). rewrite <-(dsees_inj s v v1 Hs Hs1) in Ht1.
    pose proof (run_spec s v c Hs Ht1 Hc) as H. unfold wp in H. by rewrite E in H. }
  exists v. split; [done|]. split; [done|]. intros c Hc. destruct (wp_run _ _ _ (run_spec s v c Hs Ht Hc)) as (s' & r & E & _). eauto.
Qed.

(** C21. What is written to a file is read back: the write returns [n], which is the whole size unless the file is at its
    greatest size or the disk is full, and a read of [n] bytes at that offset gives the bytes written. Other files, their
    inodes and the inode bitmap are as before. *)
Theorem hnxfs_write_read s v num buf offset out :
  dsees s v → fs_ok sb v → is_inode sb num → bytes buf → 0 ≤ offset → offset + zlen buf < 2 ^ 64 → zlen buf ≤ zlen out →
  ∃ s1 s2 v' n, hnxfs_file_write sb num buf (zlen buf) offset s = Ret (s1, n) ∧
    hnxfs_file_read sb num out n offset s1 = Ret (s2, (n, zsplice out 0 (zslice buf 0 n))) ∧
    0 ≤ n ≤ zlen buf ∧ (n < zlen buf → HNXFS_DIRECT * HNXFS_BLOCK_SIZE ≤ offset + n ∨ full sb v') ∧
    dsees s2 v' ∧ fs_ok sb v' ∧ others sb v v' num.
Proof.
  intros Hs Hok Hn Hb Ho Hl Hout. pose proof (zlen_nonneg buf).
  destruct (wp_run _ _ _ (file_write_spec sb s v num buf (zlen buf) offset Hs Hok Hn Hb ltac:(lia) Ho Hl)) as (s1 & n & E1 & v' & Hs1 & Hok1 & Hn1 & Hfull & Hdata & _ & Hoth).
  destruct (wp_run _ _ _ (file_read_spec sb s1 v' num out n offset Hs1 Hok1 Hn ltac:(lia) Ho)) as (s2 & r & E2 & Hs2 & ->). rewrite Hdata in E2.
  assert (zlen (zslice buf 0 n) = n) as Hz by (apply zlen_zslice; lia). set (data := fdata v (itab sb v num)) in *.
  assert (offset + n ≤ zlen (write_at data offset (zslice buf 0 n))) as Hlen.
  { unfold write_at. rewrite zlen_zsplice; rewrite ?zlen_pad, ?Hz; lia. }
  replace (Z.max 0 (Z.min n (zlen (write_at data offset (zslice buf 0 n)) - offset))) with n in E2 by lia.
  unfold write_at in E2 at 1. pose proof (zslice_zsplice (pad data (offset + zlen (zslice buf 0 n))) (zslice buf 0 n) offset Ho) as Esl.
  rewrite Hz in Esl. rewrite Hz in E2. rewrite Esl in E2 by (rewrite zlen_pad; lia). by exists s1, s2, v', n.
Qed.

(** C16. A directory is a finite map from names to inodes: [hnxfs_dir_lookup] looks a name up, [v_create] adds a name that is
    not there with an inode that was free, [v_unlink] deletes a name and frees its inode; other directories and files, and
    the names and data they have, stay. For names of at most 119 bytes, other than [.] and [..]. *)
Theorem hnxfs_names_refine s v num m t dir :
  dsees s v → fs_ok sb v → is_inode sb num → ibit sb v num = true → names sb v num m → good_name t →
  (∀ child, m !! t = Some child → 2 ≤ child < sb_inode_count sb ∧ child ≠ num ∧ (in_type (itab sb v child) = HNXFS_TYPE_DIR → dir_ok (itab sb v child))) →
  (∃ s', hnxfs_dir_lookup sb num (t ++ [0]) s = Ret (s', default 0 (m !! t)) ∧ dsees s' v) ∧
  (∃ s' r v', v_create sb num (t ++ [0]) dir s = Ret (s', r) ∧ dsees s' v' ∧ fs_ok sb v' ∧ created sb v v' num m t dir r) ∧
  (∃ s' rc v', v_unlink sb num (t ++ [0]) s = Ret (s', rc) ∧ dsees s' v' ∧ fs_ok sb v' ∧ unlinked sb v v' num m t rc).
Proof.
  intros Hs Hok Hn Hib Hnm Hg Hch. pose proof Hg as (_ & Hb & Hl & _). pose proof (good_name_cstr t Hg) as Hc. pose proof Hnm as (Hd & _ & Hm). split_and!.
  - destruct (wp_run _ _ _ (dir_lookup_spec sb s v num (t ++ [0]) t Hs Hok Hn Hd Hc Hb)) as (s' & r & E & -> & Hs'). exists s'.
    rewrite Hm, take_ge in E by (unfold zlen, HNXFS_NAME_MAX in *; lia). done.
  - destruct (wp_run _ _ _ (v_create_spec sb s v num m (t ++ [0]) t dir Hs Hok Hn Hib Hnm Hc Hb Hl)) as (s' & r & E & v' & H). exists s', r, v'. done.
  - destruct (wp_run _ _ _ (v_unlink_spec sb s v num m (t ++ [0]) t Hs Hok Hn Hnm Hc Hb Hl Hch)) as (s' & r & E & v' & H). exists s', r, v'. done.
Qed.

End Theorems.

(** *** [mkhnxfs.py] and [hnxfs_fsck_superblock] *)

(** C22. The image that [mkhnxfs.py] writes is a file system, for every size up to what the data bitmap covers: the first block
    decodes to the superblock, [hnxfs_fsck_superblock] finds no problem, the regions are in order, and the disk is a tree with
    an empty root directory. *)
Theorem mkhnxfs_is_tree total :
  12 < total ≤ 11 + BITS →
  ∃ sb v, mkhnxfs total = Some (sb, v) ∧ decode_superblock (blk v 0) = sb ∧ (hnxfs_fsck_superblock sb).2 = 0 ∧ layout sb ∧ tree sb v ∧
    visible (dslots v (itab sb v HNXFS_ROOT_INODE)) = [].
Proof.
  intros Ht. exists (img_sb total), (img total). split; [by apply mkhnxfs_eq|]. split; [by apply img_superblock|]. split; [|split; [by apply img_layout|split; [by apply img_tree|]]].
  - unfold BITS, HNXFS_BLOCK_SIZE in Ht. unfold hnxfs_fsck_superblock, img_sb, mk_superblock.
    cbn [sb_magic sb_version sb_block_size sb_root_inode sb_inode_count sb_total_blocks sb_inode_bitmap_block sb_data_bitmap_block sb_inode_table_block sb_inode_table_blocks sb_data_block_start sb_data_block_count].
    rewrite (u64_small (11 + (total - 11))) by lia. destruct (Z.eqb_spec total 0), (Z.ltb_spec total (11 + (total - 11))); try lia. done.
  - assert (is_inode (img_sb total) HNXFS_ROOT_INODE) as Hi by (unfold is_inode, HNXFS_ROOT_INODE; cbn; lia). rewrite img_itab by done. change (decide (HNXFS_ROOT_INODE = 1)) with (decide (1 = 1)).
    rewrite decide_True by done. rewrite img_dslots by done. by vm_compute.
Qed.

Lemma mkhnxfs_is_tree_witness :
  12 < 2048 ≤ 11 + BITS ∧
  ∃ sb v, mkhnxfs 2048 = Some (sb, v) ∧ decode_superblock (blk v 0) = sb ∧ (hnxfs_fsck_superblock sb).2 = 0 ∧ layout sb ∧ tree sb v ∧
    visible (dslots v (itab sb v HNXFS_ROOT_INODE)) = [].
Proof. split; [by vm_compute|]. apply (mkhnxfs_is_tree 2048). by vm_compute. Defined.

Section Overrun.
Context {St : Type} {DI : Disk St} {DL : DiskLaws St}.

Definition ones_block : list Z := replicate 4096 255.

Lemma overrun_step bm i (s : St) : 0 ≤ i < BITS → hnxfs_bitmap_step bm ones_block i tt s = Ret (s, inl tt).
Proof.
  intros Hi. assert (bit_at ones_block i = true) as Hb.
  { unfold bit_at, ones_block. rewrite lookup_total_replicate_2 by (unfold BITS, HNXFS_BLOCK_SIZE in *; zlia). change 255 with (Z.ones 8). apply Z.ones_spec_low. zlia. }
  cbv [hnxfs_bitmap_step mbind stM_bind lift outcome_bind]. rewrite aget_bit by done. rewrite test_bit, Hb by lia. done.
Qed.

Lemma overrun_end bm (s : St) : hnxfs_bitmap_step bm ones_block BITS tt s = Fault.
Proof.
  apply bind_fault. unfold lift. assert (aget ones_block (Z.shiftr BITS 3) = Fault) as -> by (vm_compute; reflexivity). reflexivity.
Qed.

Lemma overrun_loop bm n i (s : St) : 0 ≤ i ≤ BITS → BITS < i + Z.of_nat n → seek_up n i (hnxfs_bitmap_step bm ones_block) tt s = Fault.
Proof.
  revert i. induction n as [|n IH]; intros i Hi Hn; [lia|]. cbn [seek_up]. destruct (decide (i = BITS)) as [->|Hne]; [by apply bind_fault, overrun_end|].
  erewrite bind_run; [|apply overrun_step; lia]. apply IH; lia.
Qed.

Lemma overrun_alloc bm n (s s1 : St) : BITS < n → hnxfs_read_block bm s = Ret (s1, Some ones_block) → hnxfs_bitmap_alloc bm n 2 s = Fault.
Proof.
  intros Hn E. unfold hnxfs_bitmap_alloc. erewrite bind_run; [|exact E]. apply bind_fault. unfold seek. apply overrun_loop; unfold BITS, HNXFS_BLOCK_SIZE in *; lia.
Qed.

End Overrun.

(** A superblock for 40000 inodes; a bitmap block has 32768 bits. *)
Definition overrun_sb : hnxfs_superblock := mk_sb HNXFS_MAGIC HNXFS_VERSION HNXFS_BLOCK_SIZE 2000 40000 1 2 3 1250 1253 700 1.

(** C35. [hnxfs_fsck_superblock] accepts a superblock with more inodes than its bitmap block has bits; when the bitmap is full,
    [hnxfs_alloc_inode] then reads past the end of the block buffer on the stack. *)
Theorem fsck_accepts_overrun {D : Type} {DR : Drive D} {HD : DriveLaws D} (s : hdisk D) v :
  dsees s v → v !! sb_inode_bitmap_block overrun_sb = Some ones_block →
  hnxfs_fsck_superblock overrun_sb = (mk_report 0 0 2000 40000, 0) ∧ hnxfs_alloc_inode overrun_sb s = Fault.
Proof.
  intros Hs Hv. split; [by vm_compute|].
  destruct (wp_run _ _ _ (read_block_spec s v (sb_inode_bitmap_block overrun_sb) Hs ltac:(by vm_compute))) as (s1 & r & E & -> & _). rewrite Hv in E.
  apply bind_fault. apply (overrun_alloc _ _ s s1); [by vm_compute|exact E].
Qed.

(** ** Examples *)

(** The image of 64 blocks on a disk in memory. *)
Lemma ex_range : 12 < 64 ≤ 11 + BITS.
Proof. by vm_compute. Qed.
Definition ex_sb : hnxfs_superblock := img_sb 64.
Definition ex_img : gmap Z (list Z) := img 64.
Definition ex_fs : hdisk ram_disk := fresh_disk ex_img 64.
#[export] Instance ex_layout : layout ex_sb := img_layout 64 ex_range.

Lemma ex_sees : dsees ex_fs ex_img.
Proof. apply fresh_disk_sees; [by vm_compute|intros b; exact (img_Some 64 ex_range b)|exact (img_blocks 64 ex_range)]. Qed.
Lemma ex_tree : tree ex_sb ex_img.
Proof. exact (img_tree 64 ex_range). Qed.
Lemma ex_good : good_name [102].
Proof. split; [rewrite list_elem_of_singleton; done|]. split; [by repeat constructor|]. split; [by vm_compute|]. by intros [|]. Qed.

(** A file is created in the root directory. *)
Lemma hnxfs_tree_kept_witness :
  ∃ s, reached ex_sb ex_fs s ∧ ∃ v, dsees s v ∧ tree ex_sb v ∧ ∀ c, call_ok ex_sb v c → ∃ s' r, run ex_sb c s = Ret (s', r).
Proof.
  assert (call_ok ex_sb ex_img (Create 1 [102] false)) as Hc by (split; [exact (tr_root _ _ ex_tree)|exact ex_good]).
  pose proof (run_spec ex_sb ex_fs ex_img (Create 1 [102] false) ex_sees ex_tree Hc) as H. apply wp_run in H as (s' & r & E & _). exists s'.
  assert (reached ex_sb ex_fs s') as Hr by exact (reached_call ex_sb ex_fs ex_fs ex_img (Create 1 [102] false) s' r (reached_here ex_sb ex_fs) ex_sees Hc E).
  split; [exact Hr|]. exact (hnxfs_tree_kept ex_sb ex_fs ex_img s' ex_sees ex_tree Hr).
Defined.

Lemma hnxfs_write_read_witness :
  ∃ s1 s2 v' n, hnxfs_file_write ex_sb 2 [104; 105] 2 5000 ex_fs = Ret (s1, n) ∧
    hnxfs_file_read ex_sb 2 [0; 0] n 5000 s1 = Ret (s2, (n, zsplice [0; 0] 0 (zslice [104; 105] 0 n))) ∧
    0 ≤ n ≤ 2 ∧ (n < 2 → HNXFS_DIRECT * HNXFS_BLOCK_SIZE ≤ 5000 + n ∨ full ex_sb v') ∧ dsees s2 v' ∧ fs_ok ex_sb v' ∧ others ex_sb ex_img v' 2.
Proof.
  apply (hnxfs_write_read ex_sb ex_fs ex_img 2 [104; 105] 5000 [0; 0]); [exact ex_sees|exact (tr_ok _ _ ex_tree)|..]; try by vm_compute. by repeat constructor.
Defined.

Lemma ex_children child : dmap ex_sb ex_img 1 !! [102] = Some child →
  2 ≤ child < sb_inode_count ex_sb ∧ child ≠ 1 ∧ (in_type (itab ex_sb ex_img child) = HNXFS_TYPE_DIR → dir_ok (itab ex_sb ex_img child)).
Proof.
  intros Hch. pose proof (tr_root _ _ ex_tree) as Hr. destruct (tr_entry _ _ ex_tree 1 [102] child) as (H1 & H2 & H3); [split; [exact Hr|split; [exact Hch|by intros [|]]]|].
  split; [exact H1|]. split; [exact H3|]. intros Hty. assert (is_dir ex_sb ex_img child) as Hcd by (split; [unfold is_inode; lia|exact (conj H2 Hty)]). by destruct (tr_dir _ _ ex_tree child Hcd).
Qed.

Lemma hnxfs_names_refine_witness :
  let m := dmap ex_sb ex_img 1 in
  (∃ s', hnxfs_dir_lookup ex_sb 1 ([102] ++ [0]) ex_fs = Ret (s', default 0 (m !! [102])) ∧ dsees s' ex_img) ∧
  (∃ s' r v', v_create ex_sb 1 ([102] ++ [0]) true ex_fs = Ret (s', r) ∧ dsees s' v' ∧ fs_ok ex_sb v' ∧ created ex_sb ex_img v' 1 m [102] true r) ∧
  (∃ s' rc v', v_unlink ex_sb 1 ([102] ++ [0]) ex_fs = Ret (s', rc) ∧ dsees s' v' ∧ fs_ok ex_sb v' ∧ unlinked ex_sb ex_img v' 1 m [102] rc).
Proof.
  exact (hnxfs_names_refine ex_sb ex_fs ex_img 1 (dmap ex_sb ex_img 1) [102] true ex_sees (tr_ok _ _ ex_tree) (proj1 (tr_root _ _ ex_tree))
    (proj1 (proj2 (tr_root _ _ ex_tree))) (tr_dir _ _ ex_tree 1 (tr_root _ _ ex_tree)) ex_good ex_children).
Defined.

(** A disk of two blocks whose second block is the full bitmap. *)
Definition ex_ones : gmap Z (list Z) := {[ 0 := g_zero_block; 1 := ones_block ]}.

Lemma fsck_accepts_overrun_witness :
  hnxfs_fsck_superblock overrun_sb = (mk_report 0 0 2000 40000, 0) ∧ hnxfs_alloc_inode overrun_sb (fresh_disk ex_ones 2) = Fault.
Proof.
  apply (fsck_accepts_overrun (fresh_disk ex_ones 2) ex_ones); [|reflexivity]. apply fresh_disk_sees; [by vm_compute| |].
  - intros b. unfold ex_ones. split.
    + intros [x Hx]. apply lookup_insert_Some in Hx as [[<- _]|[_ Hx]]; [lia|]. apply lookup_singleton_Some in Hx as [<- _]. lia.
    + intros Hb. assert (b = 0 ∨ b = 1) as [-> | ->] by lia; [exists g_zero_block|exists ones_block]; reflexivity.
  - intros b x Hx. unfold ex_ones in Hx. apply lookup_insert_Some in Hx as [[_ <-]|[_ Hx]]; [apply zero_block|]. apply lookup_singleton_Some in Hx as [_ <-].
    split; [by vm_compute|]. by apply Forall_replicate.
Defined.
