(* ===== verification/HnxfsVnode.v ===== *)
(** HNXFS as a file system of the virtual file system ([kernel/fs/hnxfs/hnxfs.c]): the cache of vnodes, the operations of
    vnodes, the walk of a path from the root directory, and the mount. A pointer to a vnode is its slot in [g_hnxfs.vnodes]. *)

From stdpp Require Import gmap.
From S2P Require Import Prelude Bytes CString StateM Block Hnxfs HnxfsSpec HnxfsDir HnxfsTree HnxfsDisk Path Vnode.

(** ** Definitions *)

Definition HNXFS_VNODE_CACHE : Z := 64.

(** A vnode: [hv_ops] says whether [ops] is set, [hv_priv] is the inode number. *)
Record hvnode := mk_hvnode { hv_type : vnode_type; hv_size : Z; hv_ops : bool; hv_priv : Z }.

(** [g_hnxfs]; the superblock is a parameter, it does not change while mounted. *)
Record hnxfs (St : Type) := mk_hnxfs { h_disk : St; h_vnodes : list hvnode; h_vnode_inode : list Z; h_vnode_count : Z }.
Arguments mk_hnxfs {St} _ _ _ _.
Arguments h_disk {St} _.
Arguments h_vnodes {St} _.
Arguments h_vnode_inode {St} _.
Arguments h_vnode_count {St} _.

Definition type_of (hnxfs_type : Z) : vnode_type := if hnxfs_type =? HNXFS_TYPE_DIR then VNODE_DIR else VNODE_FILE.

(** [while ( *p == '/') p++]. *)
Fixpoint skip_slashes (p : list Z) : outcome (list Z) :=
  match p with [] => Fault | c :: l => if c =? SLASH then skip_slashes l else Ret p end.

(** [while ( *p && *p != '/' && n < HNXFS_NAME_MAX - 1) comp[n++] = *p++]. *)
Fixpoint take_comp (n : Z) (p : list Z) : outcome (list Z * list Z) :=
  match p with
  | [] => Fault
  | c :: l =>
      if negb (c =? 0) && negb (c =? SLASH) && (n <? HNXFS_NAME_MAX - 1) then '(comp, rest) ← take_comp (n + 1) l; Ret (c :: comp, rest)
      else Ret ([], p)
  end.

Section Vnode.
Context {St : Type} {DI : Disk St}.
Context (sb : hnxfs_superblock).

Definition on_disk {A} (m : stM St A) : stM (hnxfs St) A := λ h,
  '(s, a) ← m (h_disk h); Ret (mk_hnxfs s (h_vnodes h) (h_vnode_inode h) (h_vnode_count h), a).

Definition load_hvnode (i : Z) : stM (hnxfs St) hvnode := λ h, v ← aget (h_vnodes h) i; Ret (h, v).
Definition store_hvnode (i : Z) (v : hvnode) : stM (hnxfs St) unit := λ h,
  l ← aset (h_vnodes h) i v; Ret (mk_hnxfs (h_disk h) l (h_vnode_inode h) (h_vnode_count h), tt).

(** *** Vnode operations *)

Definition v_read (vn : Z) (buf : list Z) (size offset : Z) : stM (hnxfs St) (Z * list Z) :=
  v ← load_hvnode vn;
  on_disk (hnxfs_file_read sb (hv_priv v) buf size offset).

Definition v_write (vn : Z) (buf : list Z) (size offset : Z) : stM (hnxfs St) Z :=
  v ← load_hvnode vn;
  w ← on_disk (hnxfs_file_write sb (hv_priv v) buf size offset);
  r ← on_disk (hnxfs_read_inode sb (hv_priv v));
  match r with
  | inr i => store_hvnode vn (mk_hvnode (hv_type v) (in_size i) (hv_ops v) (hv_priv v));; mret w
  | inl _ => mret w
  end.

Definition v_readdir (vn index : Z) (out : dirent) : stM (hnxfs St) (Z * dirent) :=
  v ← load_hvnode vn;
  r ← on_disk (hnxfs_dir_get sb (hv_priv v) index);
  match r with
  | None => mret (-1, out)
  | Some de =>
      '(name, _) ← lift (strlcpy (d_name out) (de_name de) VFS_NAME_MAX);
      r ← on_disk (hnxfs_read_inode sb (de_inode de));
      mret (0, match r with inr i => mk_vdirent name (in_size i) (type_of (in_type i)) | inl _ => mk_vdirent name 0 VNODE_FILE end)
  end.

(** [v_create] and [v_unlink] with the vnode of the directory; [vfs_make] passes NULL for [outp]. *)
Definition vn_create (dir : Z) (name : list Z) (type : vnode_type) : stM (hnxfs St) Z :=
  v ← load_hvnode dir;
  r ← on_disk (v_create sb (hv_priv v) name (bool_decide (type = VNODE_DIR)));
  mret (match r with inl e => e | inr _ => 0 end).

Definition vn_unlink (dir : Z) (name : list Z) : stM (hnxfs St) Z :=
  v ← load_hvnode dir;
  on_disk (v_unlink sb (hv_priv v) name).

(** *** The cache of vnodes *)

Definition cached_step (inode_num i : Z) (_ : unit) : stM (hnxfs St) (unit + Z) := λ h,
  n ← aget (h_vnode_inode h) i; Ret (h, if n =? inode_num then inr i else inl tt).

Definition bump_count : stM (hnxfs St) Z := λ h,
  Ret (mk_hnxfs (h_disk h) (h_vnodes h) (h_vnode_inode h) (h_vnode_count h + 1), h_vnode_count h).

Definition store_inode_num (slot n : Z) : stM (hnxfs St) unit := λ h,
  l ← aset (h_vnode_inode h) slot n; Ret (mk_hnxfs (h_disk h) (h_vnodes h) l (h_vnode_count h), tt).

Definition get_count : stM (hnxfs St) Z := λ h, Ret (h, h_vnode_count h).

Definition hnxfs_get_vnode (inode_num : Z) : stM (hnxfs St) (option Z) :=
  count ← get_count;
  c ← seek 0 count (cached_step inode_num) tt;
  match c with
  | inr i =>
      r ← on_disk (hnxfs_read_inode sb inode_num);
      match r with
      | inr ino =>
          v ← load_hvnode i;
          store_hvnode i (mk_hvnode (type_of (in_type ino)) (in_size ino) (hv_ops v) (hv_priv v));;
          mret (Some i)
      | inl _ => mret (Some i)
      end
  | inl _ =>
      slot ← (if count <? HNXFS_VNODE_CACHE then bump_count else mret (inode_num mod HNXFS_VNODE_CACHE));
      r ← on_disk (hnxfs_read_inode sb inode_num);
      match r with
      | inl _ => mret None
      | inr ino =>
          store_inode_num slot inode_num;;
          store_hvnode slot (mk_hvnode (type_of (in_type ino)) (in_size ino) true inode_num);;
          mret (Some slot)
      end
  end.

(** *** Paths *)

(** The loop over the components; 0 is the return of NULL. *)
Fixpoint lookup_loop (fuel : nat) (inode : Z) (p : list Z) : stM (hnxfs St) Z :=
  c ← lift (aget p 0);
  if c =? 0 then mret inode
  else
    '(comp, p) ← lift (p ← skip_slashes p; take_comp 0 p);
    if zlen comp =? 0 then mret inode
    else
      inode ← on_disk (hnxfs_dir_lookup sb inode (comp ++ [0]));
      if inode =? 0 then mret 0
      else match fuel with O => (λ _, Loop) : stM (hnxfs St) Z | S fuel => lookup_loop fuel inode p end.

Definition hnxfs_lookup (rel : list Z) : stM (hnxfs St) (option Z) :=
  inode ← lookup_loop (length rel) HNXFS_ROOT_INODE rel;
  if inode =? 0 then mret None else hnxfs_get_vnode inode.

(** [g_hnxfs_ops] has all operations. *)
Definition hnxfs_vnode (v : hvnode) : vnode := mk_vnode (hv_type v) (hv_size v) (hv_ops v) (hv_ops v) (hv_ops v) (hv_ops v) (hv_ops v).

(** HNXFS keeps its volume in [g_hnxfs] and never reads the [data] of its [struct filesystem], which has no place in the state. *)
#[export] Instance hnxfs_fs : Filesystems (hnxfs St) unit Z := {|
  fs_name _ := Some [104; 110; 120; 102; 115; 0];
  fs_has_lookup _ := true;
  fs_lookup _ rel := hnxfs_lookup rel;
  fs_set_data _ _ := mret tt;
  vn_load vn h := v ← aget (h_vnodes h) vn; Ret (hnxfs_vnode v);
  op_read := v_read;
  op_write := v_write;
  op_readdir := v_readdir;
  op_create := vn_create;
  op_unlink := vn_unlink
|}.

End Vnode.

(** *** The mount *)

Definition hnxfs_mount {D : Type} {DR : Drive D} (b : block D) (dev : option Z) (old : hnxfs (hdisk D)) : outcome (block D * option (hnxfs_superblock * hnxfs (hdisk D))) :=
  match dev with
  | None => Ret (b, None)
  | Some dev =>
      '(b, buf, rc) ← block_read b dev 0 (replicate (Z.to_nat HNXFS_BLOCK_SIZE) 0) HNXFS_SECTORS_PER_BLOCK;
      if negb (rc =? 0) then Ret (b, None)
      else
        let sb := decode_superblock buf in
        if negb (sb_magic sb =? HNXFS_MAGIC) || negb (sb_version sb =? HNXFS_VERSION) then Ret (b, None)
        else Ret (b, Some (sb, mk_hnxfs (mk_hdisk b dev) (h_vnodes old) (h_vnode_inode old) 0))
  end.

(** ** Strings *)

Lemma skip_slashes_spec sl rest : Forall (λ c, c = SLASH) sl → head rest ≠ Some SLASH → rest ≠ [] → skip_slashes (sl ++ rest) = Ret rest.
Proof.
  intros Hs Hr Hne. induction Hs as [|c sl -> _ IH]; [|done]. destruct rest as [|c rest]; [done|]. cbn [app skip_slashes]. destruct (Z.eqb_spec c SLASH); [|done]. by subst.
Qed.

Lemma take_comp_spec n word c rest : 0 ∉ word → SLASH ∉ word → (c = 0 ∨ c = SLASH) → n + zlen word < HNXFS_NAME_MAX → take_comp n (word ++ c :: rest) = Ret (word, c :: rest).
Proof.
  intros H0 Hs Hc. revert n. induction word as [|x word IH]; intros n Hn; cbn [app take_comp].
  - destruct (Z.eqb_spec c 0), (Z.eqb_spec c SLASH); try done. by destruct Hc.
  - apply not_elem_of_cons in H0 as [Hx0 H0], Hs as [Hxs Hs]. rewrite zlen_cons in Hn. pose proof (zlen_nonneg word).
    destruct (Z.eqb_spec x 0), (Z.eqb_spec x SLASH), (Z.ltb_spec n (HNXFS_NAME_MAX - 1)); try congruence; try lia. cbn [negb andb]. rewrite IH by (done || lia). done.
Qed.

(** The slashes and the first component of a string. *)
Lemma first_comp t : ∃ sl word rest, t = sl ++ word ++ rest ∧ Forall (λ c, c = SLASH) sl ∧ SLASH ∉ word ∧ (rest = [] ∨ ∃ r, rest = SLASH :: r) ∧ (word = [] → rest = []).
Proof.
  assert (∀ t, ∃ word rest, t = word ++ rest ∧ SLASH ∉ word ∧ (rest = [] ∨ ∃ r, rest = SLASH :: r)) as Hw.
  { clear t. induction t as [|c t (word & rest & -> & Hn & Hr)]; [exists [], []; split_and!; [done|apply not_elem_of_nil|by left]|].
    destruct (decide (c = SLASH)) as [->|]; [exists [], (SLASH :: word ++ rest); split_and!; [done|apply not_elem_of_nil|right; by eexists]|].
    exists (c :: word), rest. split_and!; try done. by apply not_elem_of_cons. }
  induction t as [|c t (sl & word & rest & Et & Hs & Hn & Hr & Hw0)]; [exists [], [], []; split_and!; try done; [apply not_elem_of_nil|by left]|].
  destruct (decide (c = SLASH)) as [->|Hne]; [exists (SLASH :: sl), word, rest; rewrite Et; split_and!; try done; by constructor|].
  destruct (Hw (c :: t)) as (w & r & E & H1 & H2). exists [], w, r. split_and!; try done. intros ->. destruct H2 as [->|[r' ->]]; [done|]. cbn in E. congruence.
Qed.

Lemma comps_first sl word rest : Forall (λ c, c = SLASH) sl → SLASH ∉ word → (rest = [] ∨ ∃ r, rest = SLASH :: r) → (word = [] → rest = []) →
  comps (sl ++ word ++ rest) = flush word ++ comps rest.
Proof.
  intros Hs Hw Hr He. rewrite comps_skip by done. destruct (decide (word = [])) as [->|Hne]; [by rewrite (He eq_refl)|]. rewrite comps_word by done. by destruct word.
Qed.

Lemma next_comp t rest : t ≠ [] → 0 ∉ t → Forall (λ c, zlen c < HNXFS_NAME_MAX) (comps t) →
  ∃ word r, (p ← skip_slashes (t ++ 0 :: rest); take_comp 0 p) = Ret (word, r ++ 0 :: rest) ∧ comps t = flush word ++ comps r ∧ 0 ∉ r ∧
    (if decide (word = []) then comps t = [] else (length r < length t)%nat).
Proof.
  intros Hne H0 Hcs. destruct (first_comp t) as (sl & word & r & E & Hsl & Hw & Hr & Hwe). exists word, r.
  assert (comps t = flush word ++ comps r) as Ec by (rewrite E; by apply comps_first). rewrite Ec in Hcs |- *.
  assert (0 ∉ word ∧ 0 ∉ r) as [Hw0 Hr0] by (rewrite E, !not_elem_of_app in H0; tauto).
  assert (zlen word < HNXFS_NAME_MAX) as Hlw by (destruct word; [done|]; by apply Forall_inv in Hcs). split_and!; try done.
  - rewrite E. rewrite <-!app_assoc. rewrite skip_slashes_spec; [|done| |by destruct word, r].
    + cbn [mbind outcome_bind]. destruct Hr as [->|[r' ->]]; cbn [app]; apply take_comp_spec; try done; by auto.
    + destruct word as [|x word]; [rewrite (Hwe eq_refl); done|]. cbn. intros [= ->]. apply Hw. by left.
  - dec_if as Hw'; [by rewrite Hw', (Hwe Hw')|]. rewrite E, !length_app. destruct word; [done|]. cbn. lia.
Qed.

(** ** Specification *)

Section Spec.
Context {St : Type} {DI : Disk St} {DL : DiskLaws St}.
Context (sb : hnxfs_superblock) {Hlay : layout sb}.
Implicit Types (h : hnxfs St) (v : gmap Z (list Z)).

(** The inode that a path leads to. *)
Fixpoint walk_tree v (num : Z) (cs : list (list Z)) : option Z :=
  match cs with
  | [] => Some num
  | c :: cs => if in_type (itab sb v num) =? HNXFS_TYPE_DIR then n ← dmap sb v num !! c; walk_tree v n cs else None
  end.

(** A slot holds the vnode of the inode that is recorded for it. *)
Record cache_ok h : Prop := {
  co_vnodes : zlen (h_vnodes h) = HNXFS_VNODE_CACHE;
  co_inodes : zlen (h_vnode_inode h) = HNXFS_VNODE_CACHE;
  co_count : 0 ≤ h_vnode_count h ≤ HNXFS_VNODE_CACHE;
  co_slot i vn n : 0 ≤ i < h_vnode_count h → h_vnodes h !! Z.to_nat i = Some vn → h_vnode_inode h !! Z.to_nat i = Some n → hv_ops vn = true ∧ hv_priv vn = n
}.

Definition fresh_vnode v (num : Z) : hvnode := mk_hvnode (type_of (in_type (itab sb v num))) (in_size (itab sb v num)) true num.

(** The same cache. *)
Definition same_cache h h' : Prop := h_vnodes h' = h_vnodes h ∧ h_vnode_inode h' = h_vnode_inode h ∧ h_vnode_count h' = h_vnode_count h.

Lemma same_cache_refl h : same_cache h h.
Proof. done. Qed.
Lemma same_cache_trans h1 h2 h3 : same_cache h1 h2 → same_cache h2 h3 → same_cache h1 h3.
Proof. intros (E1 & E2 & E3) (E4 & E5 & E6). split; [congruence|]. split; congruence. Qed.
Lemma same_cache_ok h h' : same_cache h h' → cache_ok h → cache_ok h'.
Proof. intros (E1 & E2 & E3) [H1 H2 H3 H4]. split; rewrite ?E1, ?E2, ?E3; done. Qed.

Lemma on_disk_spec {A} (m : stM St A) h (Q : A → St → Prop) : wp m (h_disk h) Q → wp (on_disk m) h (λ a h', Q a (h_disk h') ∧ same_cache h h').
Proof. unfold wp, on_disk. destruct (m (h_disk h)) as [[s a]| | |]; done. Qed.

Lemma load_hvnode_run h i vn : 0 ≤ i → h_vnodes h !! Z.to_nat i = Some vn → load_hvnode i h = Ret (h, vn).
Proof. intros Hi Hv. unfold load_hvnode. by rewrite (aget_Some _ i vn). Qed.

Lemma store_hvnode_run h i vn : 0 ≤ i < zlen (h_vnodes h) →
  store_hvnode i vn h = Ret (mk_hnxfs (h_disk h) (<[Z.to_nat i := vn]> (h_vnodes h)) (h_vnode_inode h) (h_vnode_count h), tt).
Proof. intros Hi. unfold store_hvnode. by rewrite aset_in. Qed.

Lemma cache_ok_store h i vn n : cache_ok h → 0 ≤ i < h_vnode_count h → hv_ops vn = true → hv_priv vn = n →
  cache_ok (mk_hnxfs (h_disk h) (<[Z.to_nat i := vn]> (h_vnodes h)) (<[Z.to_nat i := n]> (h_vnode_inode h)) (h_vnode_count h)).
Proof.
  intros [H1 H2 H3 H4] Hi Ho Hp. split; cbn [h_vnodes h_vnode_inode h_vnode_count]; rewrite ?zlen_insert; try done.
  intros j vn' n' Hj. rewrite !lookup_insert_Z by lia. dec_if; [intros [= <-] [= <-]; done|]. by apply H4.
Qed.

(** The scan of the cache. *)
Lemma cached_spec h num : cache_ok h →
  wp (seek 0 (h_vnode_count h) (cached_step num) tt) h (λ r h', h' = h ∧
    match r with inr i => 0 ≤ i < h_vnode_count h ∧ h_vnode_inode h !! Z.to_nat i = Some num | inl _ => ∀ j, 0 ≤ j < h_vnode_count h → h_vnode_inode h !! Z.to_nat j ≠ Some num end).
Proof.
  intros [Hv Hi Hk Hsl]. eapply wp_mono; [apply (wp_seek (λ i _ h', h' = h ∧ ∀ j, 0 ≤ j < i → h_vnode_inode h !! Z.to_nat j ≠ Some num)
    (λ i h', h' = h ∧ 0 ≤ i < h_vnode_count h ∧ h_vnode_inode h !! Z.to_nat i = Some num))|].
  - lia.
  - intros i u h' Hr [-> Hno]. destruct (aget_in (h_vnode_inode h) i) as (n & Hin & E); [lia|]. unfold wp, cached_step. rewrite E. cbn [mbind outcome_bind].
    destruct (Z.eqb_spec n num) as [->|Hne]; [done|]. split; [done|]. intros j Hj. destruct (decide (j = i)) as [->|]; [congruence|]. apply Hno. lia.
  - split; [done|lia].
  - by intros [u|i] h1 [-> Hr].
Qed.

(** [hnxfs_get_vnode] gives a slot with the vnode of the inode as it is on the disk. *)
Lemma get_vnode_spec h v num : dsees (h_disk h) v → whole sb v → is_inode sb num → cache_ok h →
  wp (hnxfs_get_vnode sb num) h (λ r h', dsees (h_disk h') v ∧ cache_ok h' ∧ ∃ i, r = Some i ∧ 0 ≤ i < HNXFS_VNODE_CACHE ∧
    h_vnodes h' = <[Z.to_nat i := fresh_vnode v num]> (h_vnodes h) ∧
    (h_vnode_count h = HNXFS_VNODE_CACHE → num ∉ h_vnode_inode h → i = num mod HNXFS_VNODE_CACHE)).
Proof.
  intros Hs Hw Hn Hc. pose proof Hc as [Hv Hi Hk Hsl]. unfold hnxfs_get_vnode. eapply wp_known; [done|]. wstep cached_spec; [done|].
  intros [u|i] h1 [-> Hr].
  - eapply (wp_step _ _ _ (λ slot h1, 0 ≤ slot < h_vnode_count h1 ∧ h_disk h1 = h_disk h ∧ cache_ok (mk_hnxfs (h_disk h) (<[Z.to_nat slot := fresh_vnode v num]> (h_vnodes h)) (<[Z.to_nat slot := num]> (h_vnode_inode h)) (h_vnode_count h1)) ∧
      h_vnodes h1 = h_vnodes h ∧ h_vnode_inode h1 = h_vnode_inode h ∧ (h_vnode_count h = HNXFS_VNODE_CACHE → slot = num mod HNXFS_VNODE_CACHE))).
    { destruct (Z.ltb_spec (h_vnode_count h) HNXFS_VNODE_CACHE).
      - unfold wp, bump_count. cbn [h_vnode_count h_disk h_vnodes h_vnode_inode]. split_and!; try done; [lia|lia| |lia]. split; cbn [h_vnodes h_vnode_inode h_vnode_count]; rewrite ?zlen_insert; try done; [lia|].
        intros j vn n Hj. rewrite !lookup_insert_Z by lia. dec_if; [intros [= <-] [= <-]; done|]. apply Hsl. lia.
      - apply wp_ret. assert (h_vnode_count h = HNXFS_VNODE_CACHE) as Ec by lia. assert (0 ≤ num mod HNXFS_VNODE_CACHE < HNXFS_VNODE_CACHE) by (apply Z.mod_pos_bound; done).
        split_and!; try done; try lia. apply cache_ok_store; try done. lia. }
    intros slot h1 (Hslot & Hd & Hc1 & Ev & Ei & Hfull). wstep (on_disk_spec (hnxfs_read_inode sb num)); [rewrite Hd; by apply read_inode_spec|].
    intros r h2 [[-> Hs2] (E1 & E2 & E3)]. pose proof (co_count _ Hc1) as Hc1k. cbn [h_vnode_count] in Hc1k.
    eapply wp_known. { unfold store_inode_num. rewrite aset_in by (rewrite E2, Ei; lia). reflexivity. }
    eapply wp_known; [apply store_hvnode_run; cbn [h_vnodes]; rewrite E1, Ev; lia|]. apply wp_ret. cbn [h_disk h_vnodes h_vnode_inode h_vnode_count]. rewrite E1, E2, E3, Ev, Ei.
    split; [done|]. split; [by destruct Hc1; split|]. exists slot. split; [done|]. split; [lia|]. split; [done|]. intros Hk' _. by apply Hfull.
  - destruct Hr as [Hri Hin]. wstep (on_disk_spec (hnxfs_read_inode sb num)); [by apply read_inode_spec|]. intros r h2 [[-> Hs2] (E1 & E2 & E3)].
    destruct (lookup_in (h_vnodes h) i) as [vn Hvn]; [lia|]. eapply wp_known; [apply load_hvnode_run; [lia|by rewrite E1]|].
    eapply wp_known; [apply store_hvnode_run; rewrite E1; lia|]. apply wp_ret. cbn [h_disk h_vnodes h_vnode_inode h_vnode_count]. rewrite E1, E2, E3. split; [done|].
    destruct (Hsl i vn num Hri Hvn Hin) as [Ho Hp]. split; [|exists i; split; [done|split; [lia|split; [by rewrite Ho, Hp|intros _ Hni; destruct Hni; by eapply list_elem_of_lookup_2]]]].
    pose proof (cache_ok_store h i (fresh_vnode v num) num Hc Hri eq_refl eq_refl) as Hc2. rewrite (list_insert_id (h_vnode_inode h) _ num Hin) in Hc2. rewrite Ho, Hp. by destruct Hc2; split.
Qed.

Lemma dir_lookup_file s v num name : dsees s v → fs_ok sb v → is_inode sb num → in_type (itab sb v num) ≠ HNXFS_TYPE_DIR →
  wp (hnxfs_dir_lookup sb num name) s (λ r s', r = 0 ∧ dsees s' v).
Proof.
  intros Hs (Hw & _) Hn Ht. unfold hnxfs_dir_lookup, read_dir. apply (wp_step _ _ _ (λ r s', r = None ∧ dsees s' v)).
  - wstep (read_inode_spec sb); [done|done|done|]. intros r s1 [-> Hs1]. apply wp_ret. by destruct (Z.eqb_spec (in_type (itab sb v num)) HNXFS_TYPE_DIR).
  - intros r s1 [-> Hs1]. by apply wp_ret.
Qed.

(** A component of a path that HNXFS can hold. *)
Definition short (c : list Z) : Prop := plain c ∧ bytes c ∧ zlen c < HNXFS_NAME_MAX.

Definition in_tree v (num : Z) : Prop := is_inode sb num ∧ ibit sb v num = true.

Lemma walk_tree_in v num cs n : tree sb v → in_tree v num → Forall short cs → walk_tree v num cs = Some n → in_tree v n.
Proof.
  intros Ht Hn Hcs. revert num Hn. induction Hcs as [|c cs (Hp & _) _ IH]; intros num Hn; cbn [walk_tree]; [by intros [= <-]|].
  destruct (Z.eqb_spec (in_type (itab sb v num)) HNXFS_TYPE_DIR) as [Hd|]; [|done]. destruct (dmap sb v num !! c) as [m|] eqn:Em; cbn [mbind option_bind]; [|done]. apply IH.
  destruct (tr_entry _ _ Ht num c m) as (H1 & H2 & _); [|split; [unfold is_inode; lia|done]]. split; [split; [apply Hn|split; [apply Hn|done]]|]. split; [done|]. destruct Hp as (_ & _ & _ & ? & ?). by intros [|].
Qed.

Lemma lookup_loop_spec fuel h v num t rest :
  dsees (h_disk h) v → tree sb v → in_tree v num → 0 ∉ t → Forall short (comps t) → (length t ≤ fuel)%nat →
  wp (lookup_loop sb fuel num (t ++ 0 :: rest)) h (λ r h', r = default 0 (walk_tree v num (comps t)) ∧ dsees (h_disk h') v ∧ same_cache h h').
Proof.
  intros Hs Ht Hn H0 Hcs Hf. remember (length t) as n eqn:En. revert fuel h num t En Hs Hn H0 Hcs Hf. induction (lt_wf n) as [n _ IH]. intros fuel h num t -> Hs Hn H0 Hcs Hf.
  destruct (decide (t = [])) as [->|Hne]. { destruct fuel; (eapply wp_known; [done|]); change (0 =? 0) with true; by apply wp_ret. }
  assert (∃ c t', t = c :: t' ∧ c ≠ 0) as (c & t' & Et & Hc0).
  { destruct t as [|c t']; [done|]. exists c, t'. split; [done|]. apply not_elem_of_cons in H0 as [? _]. done. }
  destruct (next_comp t rest Hne H0) as (word & r & Hcomp & Ec & Hr0 & Hlr); [eapply Forall_impl; [exact Hcs|by intros ? (_ & _ & ?)]|].
  assert (∀ fuel, lookup_loop sb fuel num (t ++ 0 :: rest) = (c ← lift (aget (t ++ 0 :: rest) 0); if c =? 0 then mret num else
    '(comp, p) ← lift (p ← skip_slashes (t ++ 0 :: rest); take_comp 0 p); if zlen comp =? 0 then mret num else
      inode ← on_disk (hnxfs_dir_lookup sb num (comp ++ [0])); if inode =? 0 then mret 0 else match fuel with O => (λ _, Loop) : stM (hnxfs St) Z | S fuel => lookup_loop sb fuel inode p end)) as Hun by (by intros []).
  rewrite Hun. eapply wp_lift_bind; [rewrite Et; done|]. destruct (Z.eqb_spec c 0); [done|]. eapply wp_lift_bind; [exact Hcomp|]. cbv iota beta.
  destruct (decide (word = [])) as [->|Hwne]. { rewrite Hlr. change (zlen [] =? 0) with true. by apply wp_ret. }
  assert (zlen word ≠ 0) as Hz by (destruct word; [done|]; rewrite zlen_cons; pose proof (zlen_nonneg word); lia). destruct (Z.eqb_spec (zlen word) 0); [done|].
  assert (flush word = [word]) as Ew by (by destruct word). rewrite Ec, Ew in *. cbn [app walk_tree] in *. apply Forall_cons in Hcs as [Hsh Hcs]. pose proof Hsh as (Hpl & Hby & Hlw).
  assert (cstr (word ++ [0]) word) as Hcstr by (split; [by destruct Hpl as (_ & _ & ? & _)|by exists []]). destruct fuel as [|fuel]; [lia|]. pose proof (tr_ok _ _ Ht) as Hok.
  destruct (Z.eqb_spec (in_type (itab sb v num)) HNXFS_TYPE_DIR) as [Hd|Hd].
  - assert (is_dir sb v num) as Hid by (split; [apply Hn|split; [apply Hn|done]]). destruct (tr_dir _ _ Ht num Hid) as (Hdok & _).
    wstep (on_disk_spec (hnxfs_dir_lookup sb num (word ++ [0]))); [by eapply (dir_lookup_spec sb); [| |apply Hn| | |]|]. intros m h1 [[-> Hs1] Hc1]. fold (dmap sb v num).
    rewrite take_ge by (unfold zlen, HNXFS_NAME_MAX in *; lia). destruct (dmap sb v num !! word) as [m|] eqn:Em; cbn [from_option id mbind option_bind default]; [|by apply wp_ret].
    destruct (tr_entry _ _ Ht num word m) as (H1 & H2 & _); [split; [done|]; split; [done|]; destruct Hpl as (_ & _ & _ & ? & ?); by intros [|]|]. destruct (Z.eqb_spec m 0); [lia|].
    eapply wp_mono; [eapply (IH (length r)); [done|done|done|split; [unfold is_inode; lia|done]|done|done|lia]|]. intros x h2 (-> & Hs2 & Hc2). split; [done|]. split; [done|]. by eapply same_cache_trans.
  - wstep (on_disk_spec (hnxfs_dir_lookup sb num (word ++ [0]))); [apply dir_lookup_file; [done|done|apply Hn|done]|]. intros m h1 [[-> Hs1] Hc1]. by apply wp_ret.
Qed.

(** [hnxfs_lookup] follows the path from the root. *)
Lemma hnxfs_lookup_spec h v t rest :
  dsees (h_disk h) v → tree sb v → cache_ok h → 0 ∉ t → Forall short (comps t) →
  wp (hnxfs_lookup sb (t ++ 0 :: rest)) h (λ r h', dsees (h_disk h') v ∧ cache_ok h' ∧
    match walk_tree v HNXFS_ROOT_INODE (comps t) with
    | None => r = None ∧ h_vnodes h' = h_vnodes h
    | Some num => ∃ i, r = Some i ∧ 0 ≤ i < HNXFS_VNODE_CACHE ∧ h_vnodes h' = <[Z.to_nat i := fresh_vnode v num]> (h_vnodes h)
    end).
Proof.
  intros Hs Ht Hc H0 Hcs. unfold hnxfs_lookup. destruct (tr_root _ _ Ht) as (Hi & Hb & _).
  wstep lookup_loop_spec; [done|done|by split|done|done|rewrite length_app; lia|]. intros n h1 (-> & Hs1 & Hc1).
  destruct (walk_tree v HNXFS_ROOT_INODE (comps t)) as [n|] eqn:Ew; cbn [from_option id default].
  - pose proof (walk_tree_in v _ _ n Ht ltac:(by split) Hcs Ew) as [Hin _]. unfold is_inode in Hin. destruct (Z.eqb_spec n 0); [lia|]. destruct (tr_ok _ _ Ht) as [Hw _].
    eapply wp_mono; [apply get_vnode_spec; [done|done|done|by eapply same_cache_ok]|]. intros r h2 (Hs2 & Hc2 & i & -> & Hir & Hv & _). split; [done|]. split; [done|]. destruct Hc1 as (<- & _). by exists i.
  - apply wp_ret. split; [done|]. split; [by eapply same_cache_ok|]. by destruct Hc1 as (-> & _).
Qed.

(** *** Vnode operations *)

Definition slot_of h (i num : Z) : Prop := 0 ≤ i < HNXFS_VNODE_CACHE ∧ ∃ vn, h_vnodes h !! Z.to_nat i = Some vn ∧ hv_ops vn = true ∧ hv_priv vn = num.

Lemma v_read_spec h v i num buf size offset :
  dsees (h_disk h) v → fs_ok sb v → is_inode sb num → slot_of h i num → 0 ≤ size ≤ zlen buf → 0 ≤ offset →
  let data := fdata v (itab sb v num) in
  let n := Z.max 0 (Z.min size (zlen data - offset)) in
  wp (v_read sb i buf size offset) h (λ r h', dsees (h_disk h') v ∧ same_cache h h' ∧ r = (n, zsplice buf 0 (zslice data offset n))).
Proof.
  intros Hs Hok Hn (Hi & vn & Hvn & _ & Hp) Hsz Ho data n. unfold v_read. eapply wp_known; [apply load_hvnode_run; [lia|done]|]. rewrite Hp.
  eapply wp_mono; [by apply (on_disk_spec (hnxfs_file_read sb num buf size offset)), (file_read_spec sb _ v)|]. by intros r h' [[? ->] ?].
Qed.

(** A write to a file; the vnode gets the new size. *)
Lemma v_write_spec h v i num buf size offset :
  dsees (h_disk h) v → tree sb v → cache_ok h → is_inode sb num → in_type (itab sb v num) ≠ HNXFS_TYPE_DIR → slot_of h i num →
  bytes buf → 0 ≤ size ≤ zlen buf → 0 ≤ offset → offset + size < 2 ^ 64 →
  wp (v_write sb i buf size offset) h (λ n h', ∃ v', dsees (h_disk h') v' ∧ tree sb v' ∧ cache_ok h' ∧ 0 ≤ n ≤ size ∧
    (n < size → HNXFS_DIRECT * HNXFS_BLOCK_SIZE ≤ offset + n ∨ full sb v') ∧
    fdata v' (itab sb v' num) = write_at (fdata v (itab sb v num)) offset (zslice buf 0 n) ∧ in_type (itab sb v' num) = in_type (itab sb v num) ∧ others sb v v' num ∧
    (∀ j n', slot_of h j n' → slot_of h' j n')).
Proof.
  intros Hs Ht Hc Hn Hty Hsl Hb Hsz Ho Hend. pose proof Hsl as (Hi & vn & Hvn & Hop & Hp). unfold v_write. eapply wp_known; [apply load_hvnode_run; [lia|done]|]. rewrite Hp.
  wstep (on_disk_spec (hnxfs_file_write sb num buf size offset)); [by apply (file_write_spec sb _ v); try apply Ht|].
  intros n h1 [(v' & Hs1 & Hok1 & Hn1 & Hfull & Hdata & Hty1 & Hoth) Hc1]. pose proof Hok1 as (Hw1 & _).
  wstep (on_disk_spec (hnxfs_read_inode sb num)); [by apply read_inode_spec|]. intros r h2 [[-> Hs2] Hc2]. pose proof (same_cache_trans _ _ _ Hc1 Hc2) as (E1 & E2 & E3). pose proof (co_vnodes _ Hc) as Hlen.
  eapply wp_known; [apply store_hvnode_run; rewrite E1; lia|]. apply wp_ret. exists v'. cbn [h_disk h_vnodes]. split; [done|]. split; [by eapply tree_write|]. split.
  { destruct Hc as [C1 C2 C3 C4]. split; cbn [h_vnodes h_vnode_inode h_vnode_count]; rewrite ?zlen_insert, ?E1, ?E2, ?E3; try done. intros j vn' m Hj. rewrite lookup_insert_Z by lia. dec_if; [|by apply C4].
    intros [= <-] Hm. cbn. subst j. split; [done|]. destruct (C4 i vn m Hj Hvn Hm). congruence. }
  split_and!; try done; try lia. intros j m (Hj & vn' & Hvn' & Ho' & Hp'). split; [done|]. cbn [h_vnodes]. rewrite E1, lookup_insert_Z by lia. dec_if; [|by exists vn'].
  eexists. split; [done|]. cbn. subst j. split; congruence.
Qed.

Lemma vn_create_spec h v i num m name t type :
  dsees (h_disk h) v → tree sb v → cache_ok h → in_tree v num → is_dir sb v num → slot_of h i num → m = dmap sb v num → cstr name t → short t →
  wp (vn_create sb i name type) h (λ r h', ∃ v' c, dsees (h_disk h') v' ∧ tree sb v' ∧ same_cache h h' ∧ created sb v v' num m t (bool_decide (type = VNODE_DIR)) c ∧ r = match c with inl e => e | inr _ => 0 end).
Proof.
  intros Hs Ht Hc [Hn Hib] Hd (Hi & vn & Hvn & _ & Hp) -> Hname (Hpl & Hby & Hl). unfold vn_create. eapply wp_known; [apply load_hvnode_run; [lia|done]|]. rewrite Hp.
  wstep (on_disk_spec (v_create sb num name (bool_decide (type = VNODE_DIR)))); [apply (v_create_spec sb _ v num (dmap sb v num) name t); [done|by apply Ht|done|done|by apply tr_dir|done|done|done]|].
  intros c h1 [(v' & Hs1 & Hok1 & Hcr) Hc1]. apply wp_ret. exists v', c. split; [done|]. split; [|done]. destruct c as [e|child]; [by eapply tree_create_fails|]. eapply tree_create; try done. destruct Hpl as (_ & _ & _ & ? & ?). by intros [|].
Qed.

Lemma vn_unlink_spec h v i num name t :
  dsees (h_disk h) v → tree sb v → cache_ok h → is_dir sb v num → slot_of h i num → cstr name t → short t →
  wp (vn_unlink sb i name) h (λ r h', ∃ v', dsees (h_disk h') v' ∧ tree sb v' ∧ same_cache h h' ∧ unlinked sb v v' num (dmap sb v num) t r).
Proof.
  intros Hs Ht Hc Hd (Hi & vn & Hvn & _ & Hp) Hname (Hpl & Hby & Hl). unfold vn_unlink. eapply wp_known; [apply load_hvnode_run; [lia|done]|]. rewrite Hp. pose proof Hd as (Hn & _).
  assert (¬ dot_name t) as Hdot by (destruct Hpl as (_ & _ & _ & ? & ?); by intros [|]).
  eapply wp_mono; [apply (on_disk_spec (v_unlink sb num name)), (v_unlink_spec sb _ v num (dmap sb v num) name t); [done|by apply Ht|done|by apply tr_dir|done|done|done|]|].
  - intros child Hch. destruct (tr_entry _ _ Ht num t child) as (H1 & H2 & H3); [by split_and!|]. split; [done|]. split; [done|]. intros Hty.
    assert (is_dir sb v child) as Hcd by (split; [unfold is_inode; lia|done]). by destruct (tr_dir _ _ Ht child Hcd).
  - intros r h1 [(v' & Hs1 & Hok1 & Hun) Hc1]. exists v'. split; [done|]. split; [by eapply tree_unlink|]. done.
Qed.

(** *** Paths that stay *)

(** Every directory stays one, with all its names. *)
Definition grows v v' : Prop := ∀ n, in_tree v n → in_type (itab sb v n) = HNXFS_TYPE_DIR → in_type (itab sb v' n) = HNXFS_TYPE_DIR ∧ dmap sb v n ⊆ dmap sb v' n.

Lemma walk_tree_mono v v' num cs n : tree sb v → grows v v' → in_tree v num → Forall short cs → walk_tree v num cs = Some n → walk_tree v' num cs = Some n.
Proof.
  intros Ht Hg Hn Hcs. revert num Hn. induction Hcs as [|c cs Hc Hcs IH]; intros num Hn; cbn [walk_tree]; [done|].
  destruct (Z.eqb_spec (in_type (itab sb v num)) HNXFS_TYPE_DIR) as [Hd|]; [|done]. destruct (Hg num Hn Hd) as [Hd' Hsub]. rewrite Hd', Z.eqb_refl.
  destruct (dmap sb v num !! c) as [m|] eqn:Em; cbn [mbind option_bind]; [|done]. rewrite (lookup_weaken _ _ _ _ Em Hsub). cbn [mbind option_bind]. apply IH.
  apply (walk_tree_in v num [c] m Ht Hn); [by constructor|]. cbn [walk_tree]. by rewrite Hd, Z.eqb_refl, Em.
Qed.

Lemma walk_tree_snoc v num cs c : walk_tree v num (cs ++ [c]) = (n ← walk_tree v num cs; if in_type (itab sb v n) =? HNXFS_TYPE_DIR then dmap sb v n !! c else None).
Proof.
  revert num. induction cs as [|d cs IH]; intros num; cbn [app walk_tree mbind option_bind].
  - destruct (_ =? _); [|done]. by destruct (dmap sb v num !! c).
  - destruct (_ =? _); [|done]. destruct (dmap sb v num !! d); cbn [mbind option_bind]; [|done]. apply IH.
Qed.

(** Every directory stays one, with the names of its directories. *)
Definition keeps_dirs v v' : Prop := ∀ n, in_tree v n → in_type (itab sb v n) = HNXFS_TYPE_DIR → in_type (itab sb v' n) = HNXFS_TYPE_DIR ∧
  ∀ c m, dmap sb v n !! c = Some m → in_type (itab sb v m) = HNXFS_TYPE_DIR → dmap sb v' n !! c = Some m.

Lemma grows_keeps v v' : grows v v' → keeps_dirs v v'.
Proof. intros Hg n Hn Hd. destruct (Hg n Hn Hd) as [H1 H2]. split; [done|]. intros c m Hm _. by eapply lookup_weaken. Qed.

Lemma walk_tree_dirs v v' num cs n : tree sb v → keeps_dirs v v' → in_tree v num → Forall short cs → walk_tree v num cs = Some n → in_type (itab sb v n) = HNXFS_TYPE_DIR → walk_tree v' num cs = Some n.
Proof.
  intros Ht Hg Hn Hcs. revert num Hn. induction Hcs as [|c cs Hc Hcs IH]; intros num Hn; cbn [walk_tree]; [done|].
  destruct (Z.eqb_spec (in_type (itab sb v num)) HNXFS_TYPE_DIR) as [Hd|]; [|done]. destruct (Hg num Hn Hd) as [Hd' Hsub]. rewrite Hd', Z.eqb_refl.
  destruct (dmap sb v num !! c) as [m|] eqn:Em; cbn [mbind option_bind]; [|done]. intros Hw Hdn.
  assert (in_type (itab sb v m) = HNXFS_TYPE_DIR) as Hm. { destruct cs as [|d cs]; cbn [walk_tree] in Hw; [congruence|]. by destruct (Z.eqb_spec (in_type (itab sb v m)) HNXFS_TYPE_DIR). }
  rewrite (Hsub c m Em Hm). cbn [mbind option_bind]. apply IH; [|done|done].
  apply (walk_tree_in v num [c] m Ht Hn); [by constructor|]. cbn [walk_tree]. by rewrite Hd, Z.eqb_refl, Em.
Qed.

Lemma untouched_grows v v' l n : tree sb v → tree sb v' → untouched sb v v' l → (∀ k, 0 ≤ k < sb_inode_count sb → k ∉ l → ibit sb v' k = ibit sb v k) → n ∉ l →
  in_tree v n → in_type (itab sb v n) = HNXFS_TYPE_DIR → in_type (itab sb v' n) = HNXFS_TYPE_DIR ∧ dmap sb v n ⊆ dmap sb v' n.
Proof.
  intros Ht Ht' Hun Hb Hl [Hn Hib] Hty. assert (is_dir sb v n) as Hd by done. destruct (tr_dir _ _ Ht n Hd) as (Hdok & _).
  destruct (untouched_dir sb v v' l n (tr_ok _ _ Ht) (tr_ok _ _ Ht') Hun Hb Hl) as [_ H2]. destruct (H2 Hd Hdok) as [-> _]. destruct (Hun n Hn Hl) as [-> _]. done.
Qed.

Lemma write_grows v v' num : tree sb v → tree sb v' → others sb v v' num → in_type (itab sb v num) ≠ HNXFS_TYPE_DIR → grows v v'.
Proof.
  intros Ht Ht' Ho Hty n Hn Hd. apply (untouched_grows v v' [num] n Ht Ht'); try done; [by apply others_untouched| |by rewrite list_elem_of_singleton; congruence].
  intros k _ _. unfold ibit. by destruct Ho as [-> _].
Qed.

Lemma create_grows v v' num t dir child : tree sb v → tree sb v' → is_dir sb v num → created sb v v' num (dmap sb v num) t dir (inr child) → grows v v'.
Proof.
  intros Ht Ht' Hdir (Hc & Hfree & Hbit & Hnm & Hnew & Hun & Hnone) n Hn Hd. destruct (decide (n = num)) as [->|Hne].
  - pose proof Hnm as (Hdok & _ & Hm). split; [apply Hdok|]. rewrite (names_dmap _ _ _ _ Hnm). by apply insert_subseteq.
  - assert (n ≠ child) as Hne' by (intros ->; destruct Hn; congruence). apply (untouched_grows v v' [child; num] n Ht Ht'); try done; [|set_solver].
    intros k Hk Hl. rewrite Hbit by done. rewrite bool_decide_false; [done|]. intros ->. apply Hl. by left.
Qed.

Lemma create_fails_grows v v' num t dir e : tree sb v → tree sb v' → created sb v v' num (dmap sb v num) t dir (inl e) → grows v v'.
Proof.
  intros Ht Ht' (Hnm & Hbit & [(_ & _ & ->)|[(_ & _ & ->)|(_ & child & Hfree & Hun & _)]]) n Hn Hd; [done|done|]. apply (untouched_grows v v' [child] n Ht Ht'); try done; [by auto|].
  intros ->%list_elem_of_singleton. destruct Hn. congruence.
Qed.

Lemma unlink_keeps v v' num t child : tree sb v → tree sb v' → is_dir sb v num → unlinked sb v v' num (dmap sb v num) t 0 → dmap sb v num !! t = Some child → in_type (itab sb v child) ≠ HNXFS_TYPE_DIR →
  keeps_dirs v v' ∧ dmap sb v' num = delete t (dmap sb v num) ∧ itab sb v' child = emptied (itab sb v child).
Proof.
  intros Ht Ht' Hdir Hun Hch Hty. unfold unlinked in Hun. rewrite Hch in Hun. destruct Hun as [(? & _)|(_ & _ & Hnm & Hem & Hbit & Hun)]; [done|]. split; [|split; [by apply (names_dmap sb)|done]].
  intros n Hn Hd. destruct (decide (n = num)) as [->|Hne].
  - pose proof Hnm as (Hdok & _). split; [apply Hdok|]. intros c m Hm Hmd. rewrite (names_dmap _ _ _ _ Hnm). apply lookup_delete_Some. split; [|done]. intros ->. congruence.
  - assert (n ≠ child) as Hne' by congruence. destruct (untouched_grows v v' [child; num] n Ht Ht') as [H1 H2]; try done; [|set_solver|].
    + intros k Hk Hl. rewrite Hbit by done. rewrite bool_decide_false; [done|]. intros ->. apply Hl. by left.
    + split; [done|]. intros c m Hm _. by eapply lookup_weaken.
Qed.

(** C36. A vnode that an open file uses can become the vnode of another file: when all 64 slots are in use and a further file [b]
    is looked up, [hnxfs_get_vnode] takes the slot [b mod 64], whatever file [a] it stands for. A write through a descriptor
    that was opened for [a], which holds that slot, then writes the data to [b], and [a] keeps its contents. *)
Theorem vnode_reuse_redirects h v a b buf :
  dsees (h_disk h) v → tree sb v → cache_ok h → h_vnode_count h = HNXFS_VNODE_CACHE → is_inode sb b → b ∉ h_vnode_inode h → in_type (itab sb v b) ≠ HNXFS_TYPE_DIR →
  slot_of h (b mod HNXFS_VNODE_CACHE) a → is_inode sb a → a ≠ b → bytes buf → zlen buf < 2 ^ 63 →
  ∃ h1 h2 n v', hnxfs_get_vnode sb b h = Ret (h1, Some (b mod HNXFS_VNODE_CACHE)) ∧ v_write sb (b mod HNXFS_VNODE_CACHE) buf (zlen buf) 0 h1 = Ret (h2, n) ∧ dsees (h_disk h2) v' ∧
    fdata v' (itab sb v' b) = write_at (fdata v (itab sb v b)) 0 (zslice buf 0 n) ∧ (n < zlen buf → HNXFS_DIRECT * HNXFS_BLOCK_SIZE ≤ n ∨ full sb v') ∧
    fdata v' (itab sb v' a) = fdata v (itab sb v a).
Proof.
  intros Hs Ht Hc Hk Hb Hnb Hty Hsl Ha Hab Hbuf Hl. destruct (tr_ok _ _ Ht) as [Hw _]. pose proof (zlen_nonneg buf).
  destruct (wp_run _ _ _ (get_vnode_spec h v b Hs Hw Hb Hc)) as (h1 & r & E1 & Hs1 & Hc1 & i & -> & Hi & Hv & Hslot). rewrite (Hslot Hk Hnb) in *.
  assert (slot_of h1 (b mod HNXFS_VNODE_CACHE) b) as Hsl1.
  { split; [done|]. exists (fresh_vnode v b). split; [|done]. rewrite Hv. apply list_lookup_insert_eq. pose proof (co_vnodes _ Hc) as Hlen. unfold zlen in Hlen. lia. }
  destruct (wp_run _ _ _ (v_write_spec h1 v (b mod HNXFS_VNODE_CACHE) b buf (zlen buf) 0 Hs1 Ht Hc1 Hb Hty Hsl1 Hbuf ltac:(lia) ltac:(lia) ltac:(lia))) as (h2 & n & E2 & v' & Hs2 & _ & _ & _ & Hfull & Hd & _ & Hoth & _).
  exists h1, h2, n, v'. rewrite Z.add_0_l in Hfull. split_and!; try done. destruct Hoth as [_ Hoth]. by apply Hoth.
Qed.

End Spec.

(** The inodes 1 to 64 have the 64 slots; inode 65 takes the slot of inode 2. *)
Definition ex_full : hnxfs (hdisk ram_disk) := mk_hnxfs ex_fs ((λ i, mk_hvnode VNODE_FILE 0 true i) <$> seqZ 1 64) (seqZ 1 64) 64.

Lemma ex_full_ok : cache_ok ex_full.
Proof.
  split; [by vm_compute|by vm_compute|by vm_compute|]. intros i vn n Hi Hv Hn. cbn [h_vnodes h_vnode_inode ex_full] in *. rewrite list_lookup_fmap, Hn in Hv. injection Hv as <-. done.
Qed.

Lemma vnode_reuse_redirects_witness :
  ∃ h1 h2 n v', hnxfs_get_vnode ex_sb 65 ex_full = Ret (h1, Some 1) ∧ v_write ex_sb 1 [104] 1 0 h1 = Ret (h2, n) ∧ dsees (h_disk h2) v' ∧
    fdata v' (itab ex_sb v' 65) = write_at (fdata ex_img (itab ex_sb ex_img 65)) 0 (zslice [104] 0 n) ∧ (n < 1 → HNXFS_DIRECT * HNXFS_BLOCK_SIZE ≤ n ∨ full ex_sb v') ∧
    fdata v' (itab ex_sb v' 2) = fdata ex_img (itab ex_sb ex_img 2).
Proof.
  apply (vnode_reuse_redirects ex_sb ex_full ex_img 2 65 [104]).
  - exact ex_sees.
  - exact ex_tree.
  - exact ex_full_ok.
  - reflexivity.
  - by split.
  - intros Hin. apply elem_of_seqZ in Hin. lia.
  - vm_compute. discriminate.
  - split; [by split|]. exists (mk_hvnode VNODE_FILE 0 true 2). by split.
  - by split.
  - discriminate.
  - by repeat constructor.
  - by vm_compute.
Defined.
