(* ===== verification/VfsHnxfs.v ===== *)
(** The virtual file system over HNXFS: what is written to a path is read from that path. The other mounts are file systems of
    any kind, [FS']; the state of HNXFS is next to theirs. *)

From stdpp Require Import gmap.
From S2P Require Import Prelude Bytes CString Heap StateM Kalloc Files Path Vnode Vfs Block Hnxfs HnxfsSpec HnxfsDir HnxfsTree HnxfsDisk HnxfsVnode.

(** ** Steps of the virtual file system *)

Section Steps.
Context {H W F V : Type} {KA : Kalloc H} {KL : KallocLaws H} {FS : Filesystems W F V}.
Notation VFS := (vfs H W F V).
Implicit Types s : VFS.

Definition with_world s (w : W) : VFS := mk_vfs (v_mounts s) (v_files s) w (v_proc s).
Definition with_files s (f : files H V) : VFS := mk_vfs (v_mounts s) f (v_world s) (v_proc s).

Lemma on_world_spec {A} (m : stM W A) s (Q : A → W → Prop) : wp m (v_world s) Q → wp (on_world m) s (λ a s', ∃ w, s' = with_world s w ∧ Q a w).
Proof. unfold wp, on_world. destruct (m (v_world s)) as [[w a]| | |]; try done. cbn. eauto. Qed.
Lemma on_files_spec {A} (m : stM (files H V) A) s (Q : A → files H V → Prop) : wp m (v_files s) Q → wp (on_files m) s (λ a s', ∃ f, s' = with_files s f ∧ Q a f).
Proof. unfold wp, on_files. destruct (m (v_files s)) as [[f a]| | |]; try done. cbn. eauto. Qed.
Lemma on_files_runs {A} (m : stM (files H V) A) s (Q : A → files H V → Prop) : runs m (v_files s) Q → runs (on_files m) s (λ a s', ∃ f, s' = with_files s f ∧ Q a f).
Proof. unfold runs, on_files. destruct (m (v_files s)) as [[f a]| | |]; try done. cbn. eauto. Qed.
Lemma on_files_run {A} (m : stM (files H V) A) s f a : m (v_files s) = Ret (f, a) → on_files m s = Ret (with_files s f, a).
Proof. unfold on_files. by intros ->. Qed.

(** The descriptor [fd] of the current process stands for the open file [f] at [p]. *)
Definition opened s (t fd p : Z) (f : file V) : Prop :=
  (∃ pr, v_proc s = Some pr ∧ p_fds pr = t) ∧ files_ok (v_files s) [] ∧ 0 ≤ fd < FD_MAX ∧
  (∃ l, fl_tables (v_files s) !! t = Some l ∧ l !! Z.to_nat fd = Some p) ∧ fl_files (v_files s) !! p = Some f.

Lemma opened_nonzero s t fd p f : opened s t fd p f → p ≠ 0.
Proof. intros (_ & Ho & _ & _ & Hf). by apply (file_nonzero _ _ p Ho). Qed.

(** How the operations on descriptors start. *)
Lemma opened_start {A} s t fd p f (k : Z → stM VFS A) (Q : A → VFS → Prop) :
  opened s t fd p f → wp (k p) s Q → wp (t ← current_fds; p ← on_files (fd_get t fd); k p) s Q.
Proof.
  intros ((pr & Hp & <-) & Ho & Hfd & (l & Hl & He) & Hf) Hk. unfold wp. erewrite bind_run; [|unfold current_fds; erewrite bind_run; [|reflexivity]; rewrite Hp; reflexivity].
  erewrite bind_run; [|apply on_files_run; by apply (fd_get_spec _ [])]. destruct (decide (0 ≤ fd)); [|lia]. rewrite He. cbn [from_option id default]. by destruct s.
Qed.

Definition moved s (p : Z) (f : file V) (n : Z) : VFS :=
  if 0 <? n then with_files s (mk_files (fl_heap (v_files s)) (<[p := set_offset f (i64 (f_offset f + n))]> (fl_files (v_files s))) (fl_tables (v_files s))) else s.

Lemma advance_run s p f n : fl_files (v_files s) !! p = Some f → advance p n s = Ret (moved s p f n, tt).
Proof.
  intros Hf. unfold advance, moved. destruct (0 <? n); [|done]. apply on_files_run. erewrite bind_run by (by apply load_file_run). by eapply store_file_run.
Qed.

Lemma vfs_write_spec s t fd p f v buf size (Q : Z → W → Prop) :
  opened s t fd p f → vn_load (f_vnode f) (v_world s) = Ret v → vn_has_write v = true → vn_type v ≠ VNODE_DIR →
  wp (op_write (f_vnode f) buf size (u64 (f_offset f))) (v_world s) Q →
  wp (vfs_write fd buf size) s (λ n s', ∃ w, s' = moved (with_world s w) p f n ∧ Q n w).
Proof.
  intros Hop Hv Hw Hty Hq. pose proof (opened_nonzero _ _ _ _ _ Hop) as Hp0. unfold vfs_write. eapply opened_start; [done|]. destruct (Z.eqb_spec p 0) as [|_]; [done|]. destruct Hop as (_ & _ & _ & _ & Hf).
  eapply wp_known; [apply on_files_run; by apply load_file_run|]. replace (with_files s (v_files s)) with s by (by destruct s).
  wstep (on_world_spec (vnode_write (Some (f_vnode f)) buf size (u64 (f_offset f)))); [by eapply vnode_write_spec|]. intros n s1 (w & -> & Hn).
  eapply wp_known; [by apply advance_run|]. apply wp_ret. eauto.
Qed.

Lemma vfs_read_spec s t fd p f v buf size (Q : Z * list Z → W → Prop) :
  opened s t fd p f → vn_load (f_vnode f) (v_world s) = Ret v → vn_has_read v = true → vn_type v ≠ VNODE_DIR →
  wp (op_read (f_vnode f) buf size (u64 (f_offset f))) (v_world s) Q →
  wp (vfs_read fd buf size) s (λ r s', ∃ w, s' = moved (with_world s w) p f r.1 ∧ Q r w).
Proof.
  intros Hop Hv Hw Hty Hq. pose proof (opened_nonzero _ _ _ _ _ Hop) as Hp0. unfold vfs_read. eapply opened_start; [done|]. destruct (Z.eqb_spec p 0) as [|_]; [done|]. destruct Hop as (_ & _ & _ & _ & Hf).
  eapply wp_known; [apply on_files_run; by apply load_file_run|]. replace (with_files s (v_files s)) with s by (by destruct s).
  wstep (on_world_spec (vnode_read (Some (f_vnode f)) buf size (u64 (f_offset f)))); [by eapply vnode_read_spec|]. intros [n buf'] s1 (w & -> & Hn).
  eapply wp_known; [by apply advance_run|]. apply wp_ret. eauto.
Qed.

Lemma opened_moved s t fd p f n w : opened s t fd p f → ∃ f', opened (moved (with_world s w) p f n) t fd p f'.
Proof.
  intros (Hp & Ho & Hfd & Hl & Hf). unfold moved. destruct (0 <? n); [|by exists f]. eexists. split; [done|]. split; [by eapply files_ok_file|]. split; [done|]. split; [done|]. apply lookup_insert_eq.
Qed.

Lemma moved_same s p f n : v_mounts (moved s p f n) = v_mounts s ∧ v_world (moved s p f n) = v_world s ∧ v_proc (moved s p f n) = v_proc s ∧ fl_tables (v_files (moved s p f n)) = fl_tables (v_files s).
Proof. unfold moved. by destruct (0 <? n). Qed.

(** The descriptor is free again; what else there is stays. *)
Lemma vfs_close_spec s t fd p f l : opened s t fd p f → fl_tables (v_files s) !! t = Some l →
  wp (vfs_close fd) s (λ r s', r = 0 ∧ ∃ fl, s' = with_files s fl ∧ files_ok fl [] ∧ fl_tables fl = <[t := <[Z.to_nat fd := 0]> l]> (fl_tables (v_files s))).
Proof.
  intros Hop Hl. pose proof (opened_nonzero _ _ _ _ _ Hop) as Hp0. destruct Hop as ((pr & Hp & <-) & Ho & Hfd & (l' & Hl' & He) & _). rewrite Hl in Hl'. injection Hl' as <-.
  unfold vfs_close. eapply wp_known; [unfold current_fds; erewrite bind_run; [|reflexivity]; rewrite Hp; reflexivity|]. pose proof (table_nonzero _ _ (p_fds pr) Ho ltac:(eauto)) as Ht0.
  destruct (Z.eqb_spec (p_fds pr) 0); [done|]. eapply wp_mono; [apply on_files_spec; by apply (fd_close_spec _ [] (p_fds pr) l fd Ho)|]. intros r s' (fl & -> & Hfl & Hr).
  rewrite decide_True in Hr by lia. rewrite He, decide_False in Hr by done. destruct Hr as [-> Ht]. split; [done|]. exists fl. done.
Qed.

End Steps.

(** ** HNXFS *)

Section Hnx.
Context {H : Type} {KA : Kalloc H} {KL : KallocLaws H}.
Context {W' F' V' : Type} {FS' : Filesystems W' F' V'}.
Context {St : Type} {DI : Disk St} {DL : DiskLaws St}.
Context (sb : hnxfs_superblock) {Hlay : layout sb}.
#[local] Instance both : Filesystems (W' * hnxfs St) (F' + unit) (V' + Z) := fs_sum FS' (hnxfs_fs sb).
Notation VFS := (vfs H (W' * hnxfs St) (F' + unit) (V' + Z)).
Implicit Types (s : VFS) (v : gmap Z (list Z)).

Definition hnx s : hnxfs St := (v_world s).2.
Definition with_hnx s (h : hnxfs St) : VFS := with_world s ((v_world s).1, h).

(** HNXFS is mounted at [ms], and no other mount is in the way of [ms ++ ks]. *)
Definition hnx_at s (ms ks : list (list Z)) : Prop :=
  mounts_ok (v_mounts s) ∧ ∃ i m, 0 ≤ i ∧ v_mounts s !! Z.to_nat i = Some m ∧ m_used m = true ∧ m_fs m = Some (inr tt) ∧ mounted_at m ms ∧
  ∀ j ms', candidate (v_mounts s) (ms ++ ks) j ms' → ms' `prefix_of` ms ∧ (ms' = ms → j ≤ i).

(** The disk is a tree with the blocks [v], and the vnodes are what they should be. *)
Definition hnx_ok s v : Prop := dsees (h_disk (hnx s)) v ∧ tree sb v ∧ cache_ok (hnx s).

Lemma hnx_at_prefix s ms ks ks' : hnx_at s ms (ks ++ ks') → hnx_at s ms ks.
Proof.
  intros (Hm & i & m & Hi & Hmi & Hu & Hf & Hat & Hmax). split; [done|]. exists i, m. split_and!; try done. intros j ms' (Hj & m' & H1 & H2 & H3 & H4). apply Hmax. split; [done|]. exists m'. split_and!; try done.
  rewrite app_assoc. by apply prefix_app_r.
Qed.

(** A path below the mount leads to the vnode of its inode. *)
Definition resolved_to s v s' (r : option (V' + Z)) (num : option Z) : Prop := ∃ h, s' = with_hnx s h ∧ hnx_ok s' v ∧
  match num with
  | None => r = None ∧ h_vnodes h = h_vnodes (hnx s)
  | Some num => ∃ i, r = Some (inr i) ∧ 0 ≤ i < HNXFS_VNODE_CACHE ∧ h_vnodes h = <[Z.to_nat i := fresh_vnode sb v num]> (h_vnodes (hnx s))
  end.

Lemma join_bytes cs : Forall bytes cs → bytes (join cs).
Proof.
  intros Hcs. assert (bytes (slashed cs)) as Hs. { induction Hcs as [|c cs Hc _ IH]; [constructor|]. unfold slashed, bytes in *. cbn [fmap list_fmap concat app]. constructor; [done|]. by apply Forall_app. }
  destruct cs; [by repeat constructor|done].
Qed.

Lemma short_plain cs : Forall short cs → Forall plain cs.
Proof. intros Hcs. eapply Forall_impl; [exact Hcs|]. by intros c (? & _). Qed.
Lemma short_bytes cs : Forall short cs → Forall bytes cs.
Proof. intros Hcs. eapply Forall_impl; [exact Hcs|]. by intros c (_ & ? & _). Qed.

Lemma resolve_spec s v ms ks abspath :
  hnx_at s ms ks → hnx_ok s v → Forall short ms → Forall short ks → cstr abspath (join (ms ++ ks)) →
  wp (vfs_resolve abspath) s (λ r s', resolved_to s v s' r (walk_tree sb v HNXFS_ROOT_INODE ks)).
Proof.
  intros (Hm & i & m & Hi & Hmi & Hu & Hfs & Hat & Hmax) (Hs & Ht & Hc) Hms Hks Ha. pose proof (proj2 (Forall_app _ _ _) (conj Hms Hks)) as Hall.
  destruct (find_mount_spec (v_mounts s) abspath (ms ++ ks) Hm Ha) as (r & Ef & Hr); [by apply short_plain|by apply join_bytes, short_bytes|].
  assert (candidate (v_mounts s) (ms ++ ks) i ms) as Hci by (split; [done|]; exists m; split_and!; try done; by apply prefix_app_r).
  destruct r as [[i' rel]|]; [|by apply Hr in Hci]. destruct Hr as (ms' & t & Hc' & [Ht0 [rest ->]] & Hcomp & _ & Hmax').
  assert (ms' = ms ∧ i' = i) as [-> ->].
  { destruct (Hmax _ _ Hc') as [H1 H2], (Hmax' _ _ Hci) as [H3 H4]. assert (ms' = ms) as -> by (by apply (anti_symm prefix)). split; [done|]. specialize (H2 eq_refl). specialize (H4 eq_refl). lia. }
  rewrite drop_app_length in Hcomp. unfold wp, vfs_resolve. rewrite Ef. cbn [mbind outcome_bind]. rewrite (aget_Some _ i m Hi Hmi). cbn [mbind outcome_bind]. rewrite Hfs.
  change (fs_has_lookup (inr tt : F' + unit)) with true. cbn [negb].
  pose proof (hnxfs_lookup_spec sb (hnx s) v t rest Hs Ht Hc Ht0 ltac:(by rewrite Hcomp)) as Hl. apply (on_right_spec _ (v_world s)) in Hl. rewrite Hcomp in Hl.
  change (wp (on_world (v ← on_right (hnxfs_lookup sb (t ++ 0 :: rest)); mret ((inr : Z → V' + Z) <$> v))) s (λ r s', resolved_to s v s' r (walk_tree sb v HNXFS_ROOT_INODE ks))).
  eapply wp_mono; [apply (on_world_spec _ s (λ r w, resolved_to s v (with_world s w) r (walk_tree sb v HNXFS_ROOT_INODE ks)))|by intros r s' (w & -> & Hr)].
  eapply wp_step; [exact Hl|]. intros r w (h & -> & Hs' & Hc'' & Hr). apply wp_ret. exists h. split; [done|]. split; [done|].
  destruct (walk_tree sb v HNXFS_ROOT_INODE ks); [destruct Hr as (slot & -> & ? & ?); by exists slot|destruct Hr as [-> ?]; done].
Qed.

(** What [vfs_load] reads of a slot. *)
Lemma slot_load s i num : slot_of (hnx s) i num → ∃ vn, vn_load (inr i : V' + Z) (v_world s) = Ret (hnxfs_vnode vn) ∧ h_vnodes (hnx s) !! Z.to_nat i = Some vn ∧ hv_ops vn = true.
Proof.
  intros (Hi & vn & Hvn & Ho & _). exists vn. split; [|done]. change (vn_load (inr i : V' + Z) (v_world s)) with (v ← aget (h_vnodes (hnx s)) i; Ret (hnxfs_vnode v)). by rewrite (aget_Some _ i vn) by (done || lia).
Qed.

(** A normal path resolves to itself. *)
Lemma resolved_join tc cs : Forall plain cs → zlen cs ≤ MAX_COMPONENTS → zlen (join cs) < VFS_PATH_MAX → resolved tc (join cs) VFS_PATH_MAX = inr cs.
Proof.
  intros Hp Hc Hl. unfold resolved. assert (head (join cs) = Some SLASH) as Hh by (by destruct cs). destruct (decide (head (join cs) = Some SLASH)) as [_|]; [|done]. change ([] ++ join cs) with (join cs). cbn [orb].
  destruct (Z.leb_spec (VFS_PATH_MAX * 2) (zlen (join cs))); [unfold VFS_PATH_MAX in *; lia|]. rewrite normal_join by done. rewrite decide_False; [done|]. lia.
Qed.

(** The current process and its working directory. *)
Definition in_cwd s (pr : proc) (tc : list Z) : Prop := v_proc s = Some pr ∧ cstr (p_cwd pr) tc ∧ zlen tc < 2 ^ 64.

(** The path of the arguments leads to [ms ++ ks ++ [name]]. *)
Definition names_path (tc path tp : list Z) (cs : list (list Z)) : Prop := cstr path tp ∧ zlen tp < 2 ^ 64 ∧ resolved (Some tc) tp VFS_PATH_MAX = inr cs.

Lemma names_path_run s pr tc path tp cs : in_cwd s pr tc → names_path tc path tp cs →
  ∃ abs, path_resolve (Some (p_cwd pr)) (Some path) path_buf VFS_PATH_MAX = Ret (abs, 0) ∧ cstr abs (join cs) ∧ Forall plain cs ∧ zlen cs ≤ MAX_COMPONENTS ∧ zlen (join cs) < VFS_PATH_MAX.
Proof.
  intros (Hp & Hc & Hl) (Hpath & Hpl & Hr). destruct (path_resolve_spec (Some (p_cwd pr)) (Some tc) path tp path_buf VFS_PATH_MAX) as (abs & rc & -> & Hlen & Hres); [done|done|done|by vm_compute|].
  rewrite Hr in Hres. destruct Hres as (-> & Ha & Hpn & Hn). exists abs. split; [done|]. split; [done|]. split; [done|]. split.
  - unfold normal in Hn. rewrite comps_join in Hn by done. destruct (walk_plain cs [] cs Hn) as [_ Hm]; [|constructor|by apply Hm]. eapply Forall_impl; [exact Hpn|]. by intros c (? & ? & ? & _).
  - pose proof (cstr_len _ _ Ha) as Hcl. rewrite Hlen in Hcl. exact Hcl.
Qed.

Lemma strlcpy_name base t : cstr base t → zlen t < HNXFS_NAME_MAX → ∃ name n, strlcpy name_buf base VFS_NAME_MAX = Ret (name, n) ∧ cstr name t.
Proof.
  intros Hb Hl. unfold HNXFS_NAME_MAX in Hl. pose proof (strlcpy_spec name_buf base t VFS_NAME_MAX Hb ltac:(lia) ltac:(by vm_compute)) as E. change (VFS_NAME_MAX =? 0) with false in E. cbv iota in E.
  eexists _, _. split; [exact E|]. rewrite take_ge by (unfold zlen in Hl; change (Z.to_nat (VFS_NAME_MAX - 1)) with 127%nat; lia). split; [by destruct Hb|by eexists].
Qed.

(** The directory of a path and the last name. *)
Lemma resolve_parent_spec s v ms ks name pr tc path tp :
  hnx_at s ms (ks ++ [name]) → hnx_ok s v → Forall short ms → Forall short (ks ++ [name]) → in_cwd s pr tc → names_path tc path tp (ms ++ ks ++ [name]) →
  wp (resolve_parent (Some path)) s (λ r s', ∃ h, s' = with_hnx s h ∧ hnx_ok s' v ∧
    match walk_tree sb v HNXFS_ROOT_INODE ks with
    | None => r = inl (- SYS_ENOENT)
    | Some d => if in_type (itab sb v d) =? HNXFS_TYPE_DIR
                then ∃ i base, r = inr (inr i, base) ∧ slot_of h i d ∧ cstr base name ∧ h_vnodes h = <[Z.to_nat i := fresh_vnode sb v d]> (h_vnodes (hnx s))
                else r = inl (- SYS_ENOTDIR)
    end).
Proof.
  intros Hat Hok Hms Hks Hcwd Hpath. destruct (names_path_run s pr tc path tp _ Hcwd Hpath) as (abs & Er & Ha & Hpl & Hcm & Hjl). pose proof Hcwd as (Hpr & _).
  unfold resolve_parent. eapply wp_known; [done|]. rewrite Hpr. eapply wp_lift_bind; [exact Er|]. change (0 <? 0) with false. cbv iota.
  rewrite app_assoc in Ha, Hpl. assert (zlen (join (ms ++ ks)) < VFS_PATH_MAX) as Hjp.
  { rewrite app_assoc in Hjl. rewrite join_snoc, zlen_app, zlen_cons in Hjl. pose proof (zlen_nonneg name). pose proof (zlen_nonneg (slashed (ms ++ ks))). unfold join. destruct (ms ++ ks); [by vm_compute|lia]. }
  destruct (path_parent_spec abs (ms ++ ks) name path_buf VFS_PATH_MAX Ha Hpl) as (parent & Ep & Hpar & _); [rewrite <-app_assoc; unfold VFS_PATH_MAX in *; lia|done|split; [done|by vm_compute]|].
  eapply wp_lift_bind; [exact Ep|]. change (0 <? 0) with false. cbv iota. apply Forall_app in Hks as Hks'. destruct Hks' as [Hks' Hn]. apply Forall_inv in Hn as (Hnp & Hnb & Hnl). pose proof Hnp as (Hn0 & Hns & Hnz & _).
  destruct (path_basename_spec abs (ms ++ ks) name Ha Hns) as (base & Eb & Hb). eapply wp_lift_bind; [exact Eb|].
  destruct name as [|c name']; [done|]. pose proof Hb as [_ [rest Erest]]. eapply wp_lift_bind; [apply (aget_Some _ 0 c); [done|by rewrite Erest]|]. apply not_elem_of_cons in Hnz as [Hc0 _]. destruct (Z.eqb_spec c 0); [done|].
  destruct (strlcpy_name base (c :: name') Hb Hnl) as (nm & k & Enm & Hnm). eapply wp_lift_bind; [exact Enm|]. cbv iota beta.
  wstep (resolve_spec s v ms ks parent); [by eapply hnx_at_prefix|done|done|done|done|]. intros r s1 (h & -> & Hok1 & Hr). destruct (walk_tree sb v HNXFS_ROOT_INODE ks) as [d|].
  - destruct Hr as (i & -> & Hi & Hv). pose proof Hok1 as (_ & _ & Hc1). assert (h_vnodes h !! Z.to_nat i = Some (fresh_vnode sb v d)) as Hslot.
    { pose proof (co_vnodes _ Hc1) as Hlen. change (hnx (with_hnx s h)) with h in Hlen. rewrite Hv. apply list_lookup_insert_eq. rewrite Hv, zlen_insert in Hlen. unfold zlen in Hlen. lia. }
    assert (slot_of h i d) as Hso by (split; [done|by exists (fresh_vnode sb v d)]). destruct (slot_load (with_hnx s h) i d Hso) as (vn & El & Hvn & _). change (hnx (with_hnx s h)) with h in Hvn. rewrite Hslot in Hvn. injection Hvn as <-.
    eapply wp_known. { unfold on_world, load_vnode. rewrite El. reflexivity. }
    assert (vn_type (hnxfs_vnode (fresh_vnode sb v d)) = if in_type (itab sb v d) =? HNXFS_TYPE_DIR then VNODE_DIR else VNODE_FILE) as -> by done.
    destruct (in_type (itab sb v d) =? HNXFS_TYPE_DIR); apply wp_ret; exists h; (split; [done|]); (split; [done|]); [exists i, nm; split; [done|]; split; [exact Hso|]; split; [exact Hnm|exact Hv]|done].
  - destruct Hr as [-> _]. apply wp_ret. by exists h.
Qed.

(** The outcome of [vfs_create]: a new file in the directory, or an error. *)
Definition made v v' (ks : list (list Z)) (name : list Z) (r : Z) : Prop :=
  (r = 0 ∧ ∃ d child, walk_tree sb v HNXFS_ROOT_INODE ks = Some d ∧ is_dir sb v d ∧ created sb v v' d (dmap sb v d) name false (inr child)) ∨
  (r < 0 ∧ (walk_tree sb v HNXFS_ROOT_INODE ks = None ∨
    ∃ d, walk_tree sb v HNXFS_ROOT_INODE ks = Some d ∧ (in_type (itab sb v d) ≠ HNXFS_TYPE_DIR ∨ created sb v v' d (dmap sb v d) name false (inl r)))).

(** The only vnode that changed is that of the directory. *)
Definition dir_cached s (h : hnxfs St) v (ks : list (list Z)) : Prop := ∃ i d, 0 ≤ i ∧ walk_tree sb v HNXFS_ROOT_INODE ks = Some d ∧ in_type (itab sb v d) = HNXFS_TYPE_DIR ∧
  h_vnodes h = <[Z.to_nat i := fresh_vnode sb v d]> (h_vnodes (hnx s)).

Lemma vfs_create_spec s v ms ks name pr tc path tp :
  hnx_at s ms (ks ++ [name]) → hnx_ok s v → Forall short ms → Forall short (ks ++ [name]) → in_cwd s pr tc → names_path tc path tp (ms ++ ks ++ [name]) →
  wp (vfs_create (Some path)) s (λ r s', ∃ h v', s' = with_hnx s h ∧ hnx_ok s' v' ∧ made v v' ks name r ∧ (r = 0 → dir_cached s h v ks)).
Proof.
  intros Hat Hok Hms Hks Hcwd Hpath. unfold vfs_create, vfs_make. wstep resolve_parent_spec; [done..|]. intros r s1 (h & -> & Hok1 & Hr). apply Forall_app in Hks as Hks'. destruct Hks' as [Hks' Hn]. apply Forall_inv in Hn.
  destruct (walk_tree sb v HNXFS_ROOT_INODE ks) as [d|] eqn:Ew; [|subst r; apply wp_ret; exists h, v; split; [done|]; split; [done|]; split; [|done]; right; split; [by vm_compute|by left]].
  destruct (Z.eqb_spec (in_type (itab sb v d)) HNXFS_TYPE_DIR) as [Hd|Hd]; [|subst r; apply wp_ret; exists h, v; split; [done|]; split; [done|]; split; [|done]; right; split; [by vm_compute|]; right; eauto].
  destruct Hr as (i & base & -> & Hsl & Hb & Hvs). destruct (slot_load (with_hnx s h) i d Hsl) as (vn & El & _ & Hops).
  eapply wp_known. { unfold on_world, load_vnode. rewrite El. reflexivity. }
  cbn [vn_has_create hnxfs_vnode]. rewrite Hops. cbn [negb]. destruct Hok1 as (Hs1 & Ht1 & Hc1). change (hnx (with_hnx s h)) with h in *.
  destruct (tr_root _ _ Ht1) as (R1 & R2 & _). pose proof (walk_tree_in sb v _ ks d Ht1 ltac:(by split) Hks' Ew) as Hin. assert (is_dir sb v d) as Hdir by (split; [apply Hin|split; [apply Hin|done]]).
  change (wp (on_world (on_right (vn_create sb i base VNODE_FILE))) (with_hnx s h) (λ r s', ∃ h v', s' = with_hnx s h ∧ hnx_ok s' v' ∧ made v v' ks name r ∧ (r = 0 → dir_cached s h v ks))).
  eapply wp_mono; [apply on_world_spec, on_right_spec; by eapply (vn_create_spec sb h v i d (dmap sb v d))|]. intros r s2 (w & -> & h2 & -> & v' & c & Hs2 & Ht2 & Hc2 & Hcr & ->). exists h2, v'.
  split; [done|]. split; [split_and!; try done; by eapply same_cache_ok|]. split; [|intros _; exists i, d; destruct Hc2 as (-> & _); split_and!; try done; apply Hsl]. destruct c as [e|child].
  - right. split; [|eauto]. destruct Hcr as (_ & _ & [(-> & _)|[(-> & _)|(-> & _)]]); by vm_compute.
  - left. split; [done|]. by exists d, child.
Qed.

Lemma vfs_unlink_spec s v ms ks name pr tc path tp d :
  hnx_at s ms (ks ++ [name]) → hnx_ok s v → Forall short ms → Forall short (ks ++ [name]) → in_cwd s pr tc → names_path tc path tp (ms ++ ks ++ [name]) →
  walk_tree sb v HNXFS_ROOT_INODE ks = Some d → in_type (itab sb v d) = HNXFS_TYPE_DIR →
  wp (vfs_unlink (Some path)) s (λ r s', ∃ h v', s' = with_hnx s h ∧ hnx_ok s' v' ∧ unlinked sb v v' d (dmap sb v d) name r ∧ dir_cached s h v ks).
Proof.
  intros Hat Hok Hms Hks Hcwd Hpath Hw Hd. unfold vfs_unlink. wstep resolve_parent_spec; [done..|]. rewrite Hw, Hd, Z.eqb_refl. intros r s1 (h & -> & Hok1 & i & base & -> & Hsl & Hb & Hvs).
  apply Forall_app in Hks as Hks'. destruct Hks' as [Hks' Hn]. apply Forall_inv in Hn. destruct (slot_load (with_hnx s h) i d Hsl) as (vn & El & _ & Hops).
  eapply wp_known. { unfold on_world, load_vnode. rewrite El. reflexivity. }
  cbn [vn_has_unlink hnxfs_vnode]. rewrite Hops. cbn [negb]. destruct Hok1 as (Hs1 & Ht1 & Hc1). change (hnx (with_hnx s h)) with h in *.
  destruct (tr_root _ _ Ht1) as (R1 & R2 & _). pose proof (walk_tree_in sb v _ ks d Ht1 ltac:(by split) Hks' Hw) as Hin. assert (is_dir sb v d) as Hdir by (split; [apply Hin|split; [apply Hin|done]]).
  change (wp (on_world (on_right (vn_unlink sb i base))) (with_hnx s h) (λ r s', ∃ h v', s' = with_hnx s h ∧ hnx_ok s' v' ∧ unlinked sb v v' d (dmap sb v d) name r ∧ dir_cached s h v ks)).
  eapply wp_mono; [apply on_world_spec, on_right_spec; by eapply (vn_unlink_spec sb h v i d)|]. intros r s2 (w & -> & h2 & -> & v' & Hs2 & Ht2 & Hc2 & Hun). exists h2, v'.
  split; [done|]. split; [split_and!; try done; by eapply same_cache_ok|]. split; [done|]. exists i, d. destruct Hc2 as (-> & _). split_and!; try done. apply Hsl.
Qed.

(** *** Opening *)

(** The path is open as a file of inode [num]; the disk is now [v']. *)
Definition open_at s s' (fd num : Z) v' : Prop := ∃ p f i pr, v_proc s' = v_proc s ∧ v_proc s' = Some pr ∧ v_mounts s' = v_mounts s ∧ hnx_ok s' v' ∧ opened s' (p_fds pr) fd p f ∧
  f_vnode f = inr i ∧ f_offset f = 0 ∧ slot_of (hnx s') i num ∧ h_vnodes (hnx s') !! Z.to_nat i = Some (fresh_vnode sb v' num).

Lemma open_tail s v' num i pr tc l abs tabs flags :
  in_cwd s pr tc → files_ok (v_files s) [] → fl_tables (v_files s) !! p_fds pr = Some l → hnx_ok s v' → 0 ≤ i < HNXFS_VNODE_CACHE → h_vnodes (hnx s) !! Z.to_nat i = Some (fresh_vnode sb v' num) →
  cstr abs tabs → zlen tabs < 2 ^ 64 → Z.land flags O_DIRECTORY = 0 →
  runs (v ← on_world (load_vnode (inr i : V' + Z));
        if negb (Z.land flags O_DIRECTORY =? 0) && negb (bool_decide (vn_type v = VNODE_DIR)) then mret (- SYS_ENOTDIR)
        else on_files (open_file (p_fds pr) (inr i : V' + Z) flags abs)) s (λ fd s',
    (0 ≤ fd ∧ open_at s s' fd num v' ∧ ∃ p, fl_tables (v_files s') !! p_fds pr = Some (<[Z.to_nat fd := p]> l) ∧ l !! Z.to_nat fd = Some 0) ∨
    (fd = - SYS_EMFILE ∧ 0 ∉ l)).
Proof.
  intros (Hpr & _) Ho Hl Hok Hi Hslot Ha Hal Hfl. assert (slot_of (hnx s) i num) as Hso by (split; [done|by eexists]).
  destruct (slot_load s i num Hso) as (vn & El & _). eapply runs_step; [apply wp_runs; unfold wp, on_world, load_vnode; rewrite El; exact (conj eq_refl eq_refl : (λ a s', a = hnxfs_vnode vn ∧ s' = with_world s (v_world s)) _ _)|].
  intros x s1 [-> ->]. replace (with_world s (v_world s)) with s by (by destruct s). rewrite Hfl. cbn [Z.eqb negb andb].
  eapply runs_mono; [apply on_files_runs; by eapply open_file_spec|]. intros fd s1 (fl & -> & [Hok1 Hdom] & [(Hfd & Hfree & _ & p & name & Hnew & Hf & Ht & _)|(-> & Hfull & _)]); [|by right].
  left. split; [lia|]. assert (zlen l = FD_MAX) as Hlen by (by eapply (fo_len _ _ Ho)).
  assert (fl_tables fl !! p_fds pr = Some (<[Z.to_nat fd := p]> l)) as Htb by (rewrite Ht; apply lookup_insert_eq). split; [|by exists p].
  exists p, (mk_file (inr i) 0 flags 1 name), i, pr. split; [done|]. split; [done|]. split; [done|]. split; [done|]. split; [|done].
  split; [by exists pr|]. split; [done|]. split; [done|]. split; [|done]. exists (<[Z.to_nat fd := p]> l). split; [done|]. apply list_lookup_insert_eq. unfold zlen in Hlen. lia.
Qed.

Lemma fresh_slot s v' num i h : hnx_ok (with_hnx s h) v' → 0 ≤ i < HNXFS_VNODE_CACHE → h_vnodes h = <[Z.to_nat i := fresh_vnode sb v' num]> (h_vnodes (hnx s)) →
  h_vnodes h !! Z.to_nat i = Some (fresh_vnode sb v' num).
Proof.
  intros (_ & _ & Hc) Hi Hv. pose proof (co_vnodes _ Hc) as Hlen. change (hnx (with_hnx s h)) with h in Hlen. rewrite Hv. apply list_lookup_insert_eq. rewrite Hv, zlen_insert in Hlen. unfold zlen in Hlen. lia.
Qed.

(** The state of the other parts, and what is known of the arguments. *)
Record at_path s ms cs pr tc l path tp : Prop := {
  ap_at : hnx_at s ms cs;
  ap_ms : Forall short ms;
  ap_cs : Forall short cs;
  ap_cwd : in_cwd s pr tc;
  ap_path : names_path tc path tp (ms ++ cs);
  ap_files : files_ok (v_files s) [];
  ap_table : fl_tables (v_files s) !! p_fds pr = Some l
}.

(** An open file, and the table it is in. *)
Definition open_result s s' pr l (fd num : Z) v' : Prop :=
  0 ≤ fd ∧ open_at s s' fd num v' ∧ ∃ p, fl_tables (v_files s') !! p_fds pr = Some (<[Z.to_nat fd := p]> l) ∧ l !! Z.to_nat fd = Some 0.

Lemma vfs_open_existing s v ms cs pr tc l path tp flags num :
  at_path s ms cs pr tc l path tp → hnx_ok s v → walk_tree sb v HNXFS_ROOT_INODE cs = Some num → Z.land flags O_DIRECTORY = 0 →
  runs (vfs_open (Some path) flags) s (λ fd s', open_result s s' pr l fd num v ∨ (fd = - SYS_EMFILE ∧ 0 ∉ l)).
Proof.
  intros [Hat Hms Hcs Hcwd Hpath Hfo Hl] Hok Hw Hfl. destruct (names_path_run s pr tc path tp _ Hcwd Hpath) as (abs & Er & Ha & Hpl & Hcm & Hjl). pose proof Hcwd as (Hpr & _).
  unfold vfs_open. eapply runs_step; [apply wp_runs; exact (conj eq_refl eq_refl : (λ a s', a = v_proc s ∧ s' = s) _ _)|]. intros x s1 [-> ->]. rewrite Hpr.
  eapply runs_step; [apply wp_runs; unfold wp, lift; rewrite Er; exact (conj eq_refl eq_refl : (λ a s', a = (abs, 0) ∧ s' = s) _ _)|]. intros x s1 [-> ->]. change (0 <? 0) with false. cbv iota.
  eapply runs_step; [apply wp_runs; by apply (resolve_spec s v ms cs abs)|]. intros r s1 (h & -> & Hok1 & Hr). rewrite Hw in Hr. destruct Hr as (i & -> & Hi & Hv). pose proof (fresh_slot s v num i h Hok1 Hi Hv) as Hslot.
  eapply runs_step; [apply wp_runs; exact (conj eq_refl eq_refl : (λ a s', a = Some (inr i : V' + Z) ∧ s' = with_hnx s h) _ _)|]. intros x s1 [-> ->].
  eapply runs_mono; [eapply (open_tail (with_hnx s h) v num i pr tc l abs); try done; unfold VFS_PATH_MAX in *; lia|]. intros fd s1 [(Hfd & Hop & Htb)|?]; [left|by right]. split; [done|]. split; [|done]. exact Hop.
Qed.

Lemma vfs_open_new s v ms ks name pr tc l path tp flags :
  at_path s ms (ks ++ [name]) pr tc l path tp → hnx_ok s v → walk_tree sb v HNXFS_ROOT_INODE (ks ++ [name]) = None →
  Z.land flags O_DIRECTORY = 0 → Z.land flags O_CREAT ≠ 0 →
  runs (vfs_open (Some path) flags) s (λ fd s',
    (∃ d child v', walk_tree sb v HNXFS_ROOT_INODE ks = Some d ∧ is_dir sb v d ∧ created sb v v' d (dmap sb v d) name false (inr child) ∧ open_result s s' pr l fd child v') ∨
    (fd = - SYS_ENOENT ∧ ∃ r v', r < 0 ∧ made v v' ks name r) ∨ (fd = - SYS_EMFILE ∧ 0 ∉ l)).
Proof.
  intros [Hat Hms Hcs Hcwd Hpath Hfo Hl] Hok Hw Hfl Hcreat. destruct (names_path_run s pr tc path tp _ Hcwd Hpath) as (abs & Er & Ha & Hpl & Hcm & Hjl). pose proof Hcwd as (Hpr & _).
  unfold vfs_open. eapply runs_step; [apply wp_runs; exact (conj eq_refl eq_refl : (λ a s', a = v_proc s ∧ s' = s) _ _)|]. intros x s1 [-> ->]. rewrite Hpr.
  eapply runs_step; [apply wp_runs; unfold wp, lift; rewrite Er; exact (conj eq_refl eq_refl : (λ a s', a = (abs, 0) ∧ s' = s) _ _)|]. intros x s1 [-> ->]. change (0 <? 0) with false. cbv iota.
  eapply runs_step; [apply wp_runs; by apply (resolve_spec s v ms (ks ++ [name]) abs)|]. intros r s1 (h & -> & Hok1 & Hr). rewrite Hw in Hr. destruct Hr as [-> Hv].
  assert (names_path tc abs (join (ms ++ ks ++ [name])) (ms ++ ks ++ [name])) as Habs by (split; [done|]; split; [unfold VFS_PATH_MAX in *; lia|by apply resolved_join]).
  destruct (Z.eqb_spec (Z.land flags O_CREAT) 0); [done|]. cbn [negb].
  apply (runs_step _ _ _ (λ r s', (r = None ∧ ∃ rc v', rc < 0 ∧ made v v' ks name rc) ∨
    ∃ d child v' i h, s' = with_hnx s h ∧ r = Some (inr i) ∧ walk_tree sb v HNXFS_ROOT_INODE ks = Some d ∧ is_dir sb v d ∧ created sb v v' d (dmap sb v d) name false (inr child) ∧
      hnx_ok s' v' ∧ 0 ≤ i < HNXFS_VNODE_CACHE ∧ h_vnodes h !! Z.to_nat i = Some (fresh_vnode sb v' child))).
  - apply wp_runs. wstep (vfs_create_spec (with_hnx s h) v ms ks name pr tc abs); [done|done|done|done|done|done|]. intros rc s2 (h2 & v' & -> & Hok2 & Hmade & _).
    destruct Hmade as [(-> & d & child & Hd & Hdir & Hcr)|(Hneg & Hrest)].
    + change (0 =? 0) with true. cbv iota. change (with_hnx (with_hnx s h) h2) with (with_hnx s h2) in *. pose proof Hok as (_ & Ht & _). pose proof Hok2 as (_ & Ht' & _). destruct (tr_root _ _ Ht) as (R1 & R2 & _).
      assert (walk_tree sb v' HNXFS_ROOT_INODE (ks ++ [name]) = Some child) as Hw'.
      { rewrite walk_tree_snoc. rewrite (walk_tree_mono sb v v' _ ks d Ht (create_grows sb v v' d name false child Ht Ht' Hdir Hcr)); [|by split|by apply Forall_app in Hcs as [? _]|done]. cbn [mbind option_bind].
        destruct Hcr as (_ & _ & _ & Hnm & _). pose proof Hnm as (Hdok & _). rewrite (proj1 Hdok), Z.eqb_refl. rewrite (names_dmap _ _ _ _ Hnm). apply lookup_insert_eq. }
      eapply wp_mono; [by apply (resolve_spec (with_hnx s h2) v' ms (ks ++ [name]) abs)|]. intros r s3 (h3 & -> & Hok3 & Hr). rewrite Hw' in Hr. destruct Hr as (i & -> & Hi & Hv3).
      right. exists d, child, v', i, h3. split_and!; try done; try lia. by apply (fresh_slot (with_hnx s h2) v' child i h3).
    + destruct (Z.eqb_spec rc 0); [lia|]. apply wp_ret. left. split; [done|]. exists rc, v'. split; [done|]. by right.
  - intros r s2 [(-> & Hmade)|(d & child & v' & i & h2 & -> & -> & Hd & Hdir & Hcr & Hok2 & Hi & Hslot)]; [apply wp_runs, wp_ret; right; by left|].
    eapply runs_mono; [eapply (open_tail (with_hnx s h2) v' child i pr tc l abs); try done; unfold VFS_PATH_MAX in *; lia|].
    intros fd s3 [(Hfd & Hop & Htb)|?]; [left|by right; right]. exists d, child, v'. split_and!; try done.
Qed.

(** *** Writing and reading a path *)

Definition write_path (path : list Z) (flags : Z) (buf : list Z) : stM VFS Z :=
  fd ← vfs_open (Some path) flags;
  if fd <? 0 then mret fd
  else
    n ← vfs_write fd buf (zlen buf);
    vfs_close fd;;
    mret n.

Definition read_path (path : list Z) (flags : Z) (out : list Z) (size : Z) : stM VFS (Z * list Z) :=
  fd ← vfs_open (Some path) flags;
  if fd <? 0 then mret (fd, out)
  else
    r ← vfs_read fd out size;
    vfs_close fd;;
    mret r.

(** The end of both: the table is what it was. *)
Lemma close_spec s s1 ms cs pr tc l path tp fd p f p' :
  at_path s ms cs pr tc l path tp → v_mounts s1 = v_mounts s → v_proc s1 = v_proc s → opened s1 (p_fds pr) fd p f → fl_tables (v_files s1) !! p_fds pr = Some (<[Z.to_nat fd := p']> l) → l !! Z.to_nat fd = Some 0 →
  wp (vfs_close fd) s1 (λ _ s', at_path s' ms cs pr tc l path tp ∧ v_world s' = v_world s1).
Proof.
  intros [Hat Hms Hcs Hcwd Hpath Hfo Hl] Em Ep Hop Htb Hfree. eapply wp_mono; [by eapply vfs_close_spec|]. intros r s' (_ & fl & -> & Hok & Ht). split; [|done]. rewrite list_insert_insert_eq, list_insert_id in Ht by done.
  split; try done.
  - destruct Hat as (Hm & Hat). unfold hnx_at. cbn [v_mounts with_files]. rewrite Em. done.
  - unfold in_cwd. cbn [v_proc with_files]. rewrite Ep. done.
  - cbn [v_files with_files]. rewrite Ht. apply lookup_insert_eq.
Qed.

Lemma fresh_file v num i s : h_vnodes (hnx s) !! Z.to_nat i = Some (fresh_vnode sb v num) → 0 ≤ i → in_type (itab sb v num) ≠ HNXFS_TYPE_DIR →
  vn_load (inr i : V' + Z) (v_world s) = Ret (hnxfs_vnode (fresh_vnode sb v num)) ∧ vn_type (hnxfs_vnode (fresh_vnode sb v num)) ≠ VNODE_DIR.
Proof.
  intros Hv Hi Hty. split.
  - change (vn_load (inr i : V' + Z) (v_world s)) with (v ← aget (h_vnodes (hnx s)) i; Ret (hnxfs_vnode v)). by rewrite (aget_Some _ i (fresh_vnode sb v num)).
  - unfold hnxfs_vnode, fresh_vnode, type_of. cbn [vn_type hv_type]. by destruct (Z.eqb_spec (in_type (itab sb v num)) HNXFS_TYPE_DIR).
Qed.

(** The file [num] of the path starts with [x]. *)
Definition holds v cs (num : Z) (x : list Z) : Prop :=
  walk_tree sb v HNXFS_ROOT_INODE cs = Some num ∧ in_type (itab sb v num) ≠ HNXFS_TYPE_DIR ∧ zlen x ≤ zlen (fdata v (itab sb v num)) ∧ zslice (fdata v (itab sb v num)) 0 (zlen x) = x.

Lemma write_at_start data x : zlen x ≤ zlen (write_at data 0 x) ∧ zslice (write_at data 0 x) 0 (zlen x) = x.
Proof.
  unfold write_at. pose proof (zlen_nonneg x). assert (zlen (pad data (0 + zlen x)) = Z.max (zlen data) (0 + zlen x)) as Hp by (rewrite zlen_pad; lia). split; [rewrite zlen_zsplice; lia|apply zslice_zsplice; lia].
Qed.

Lemma written_spec s s1 v1 ms cs pr tc l path tp fd num buf :
  at_path s ms cs pr tc l path tp → open_result s s1 pr l fd num v1 → walk_tree sb v1 HNXFS_ROOT_INODE cs = Some num → in_type (itab sb v1 num) ≠ HNXFS_TYPE_DIR → bytes buf → zlen buf < 2 ^ 63 →
  wp (n ← vfs_write fd buf (zlen buf); vfs_close fd;; mret n) s1 (λ n s', ∃ v', at_path s' ms cs pr tc l path tp ∧ hnx_ok s' v' ∧ 0 ≤ n ≤ zlen buf ∧
    holds v' cs num (zslice buf 0 n) ∧ (n < zlen buf → HNXFS_DIRECT * HNXFS_BLOCK_SIZE ≤ n ∨ full sb v')).
Proof.
  intros Hap (_ & (p & f & i & pr' & Ep & Epr & Em & Hok & Hop & Hvn & Hoff & Hsl & Hslot) & p' & Htb & Hfree) Hw Hty Hb Hbl.
  assert (pr' = pr) as -> by (pose proof (ap_cwd _ _ _ _ _ _ _ _ Hap) as [E _]; congruence). pose proof Hsl as [Hi _]. destruct (fresh_file v1 num i s1 Hslot ltac:(lia) Hty) as [Hload Hnd]. destruct Hok as (Hs & Ht & Hc).
  destruct (tr_root _ _ Ht) as (R1 & R2 & _). pose proof (walk_tree_in sb v1 _ cs num Ht ltac:(by split) (ap_cs _ _ _ _ _ _ _ _ Hap) Hw) as Hin. pose proof (zlen_nonneg buf).
  wstep (vfs_write_spec s1 (p_fds pr) fd p f (hnxfs_vnode (fresh_vnode sb v1 num)) buf (zlen buf)); [done|by rewrite Hvn|done|done| |].
  { rewrite Hvn, Hoff. apply on_right_spec. eapply (v_write_spec sb (hnx s1) v1 i num buf (zlen buf) (u64 0)); try done; [apply Hin|change (u64 0) with 0; lia..]. }
  change (u64 0) with 0. intros n s2 (w & -> & h & -> & v' & Hs' & Ht' & Hc' & Hn & Hfull & Hdata & Hty' & Hoth & _). destruct (opened_moved s1 (p_fds pr) fd p f n ((v_world s1).1, h) Hop) as [f' Hop'].
  destruct (moved_same (with_world s1 ((v_world s1).1, h)) p f n) as (Em' & Ew' & Ep' & Et'). eapply wp_step; [eapply (close_spec s); [done|by rewrite Em'|by rewrite Ep'|exact Hop'|by rewrite Et'|done]|].
  intros u s3 [Hap3 Ew3]. apply wp_ret. exists v'. split; [done|]. split; [unfold hnx_ok, hnx; rewrite Ew3, Ew'; done|]. split; [done|]. split; [|by rewrite Z.add_0_l in Hfull].
  split; [eapply (walk_tree_mono sb v1 v'); [done|by eapply write_grows|by split|by apply Hap|done]|]. split; [congruence|]. rewrite Hdata. apply write_at_start.
Qed.

Lemma read_path_spec s v ms cs pr tc l path tp num x out flags :
  at_path s ms cs pr tc l path tp → hnx_ok s v → holds v cs num x → 0 ∈ l → zlen x ≤ zlen out → Z.land flags O_DIRECTORY = 0 →
  runs (read_path path flags out (zlen x)) s (λ r s', r = (zlen x, zsplice out 0 x) ∧ at_path s' ms cs pr tc l path tp ∧ hnx_ok s' v).
Proof.
  intros Hap Hok (Hw & Hty & Hlen & Hx) Hl0 Hout Hfl. pose proof (zlen_nonneg x). unfold read_path. eapply runs_step; [by eapply vfs_open_existing|].
  intros fd s1 [(Hfd & (p & f & i & pr' & Ep & Epr & Em & Hok1 & Hop & Hvn & Hoff & Hsl & Hslot) & p' & Htb & Hfree)|[_ ?]]; [|done]. destruct (Z.ltb_spec fd 0); [lia|]. apply wp_runs.
  assert (pr' = pr) as -> by (pose proof (ap_cwd _ _ _ _ _ _ _ _ Hap) as [E _]; congruence). pose proof Hsl as [Hi _]. destruct (fresh_file v num i s1 Hslot ltac:(lia) Hty) as [Hload Hnd]. destruct Hok1 as (Hs & Ht & Hc).
  destruct (tr_root _ _ Ht) as (R1 & R2 & _). pose proof (walk_tree_in sb v _ cs num Ht ltac:(by split) (ap_cs _ _ _ _ _ _ _ _ Hap) Hw) as Hin.
  wstep (vfs_read_spec s1 (p_fds pr) fd p f (hnxfs_vnode (fresh_vnode sb v num)) out (zlen x)); [done|by rewrite Hvn|done|done| |].
  { rewrite Hvn, Hoff. apply on_right_spec. eapply (v_read_spec sb (hnx s1) v i num out (zlen x) (u64 0)); try done; [apply Ht|apply Hin]. }
  change (u64 0) with 0. rewrite Z.sub_0_r, Z.min_l, Z.max_r by lia. rewrite Hx. intros r s2 (w & -> & h & -> & Hs' & Hc' & ->). cbn [fst].
  destruct (opened_moved s1 (p_fds pr) fd p f (zlen x) ((v_world s1).1, h) Hop) as [f' Hop'].
  destruct (moved_same (with_world s1 ((v_world s1).1, h)) p f (zlen x)) as (Em' & Ew' & Ep' & Et'). eapply wp_step; [eapply (close_spec s); [done|by rewrite Em'|by rewrite Ep'|exact Hop'|by rewrite Et'|done]|].
  intros u s3 [Hap3 Ew3]. apply wp_ret. split; [done|]. split; [done|]. unfold hnx_ok, hnx. rewrite Ew3, Ew'. split; [done|]. split; [done|]. by eapply same_cache_ok.
Qed.

Definition save_and_load (path : list Z) (flags : Z) (buf out : list Z) : stM VFS (Z + Z * (Z * list Z)) :=
  n ← write_path path flags buf;
  if n <? 0 then mret (inl n)
  else
    r ← read_path path 0 out n;
    mret (inr (n, r)).

(** What comes of it: the descriptors are used up, the file can not be made, or [n] bytes are written and read back. *)
Definition round_trip v cs ks name (l buf out : list Z) (r : Z + Z * (Z * list Z)) s' : Prop :=
  match r with
  | inl e => (e = - SYS_EMFILE ∧ 0 ∉ l) ∨ (e = - SYS_ENOENT ∧ walk_tree sb v HNXFS_ROOT_INODE cs = None ∧ ∃ e v', e < 0 ∧ made v v' ks name e)
  | inr (n, (k, out')) => 0 ≤ n ≤ zlen buf ∧ k = n ∧ out' = zsplice out 0 (zslice buf 0 n) ∧
      ∃ v' num, hnx_ok s' v' ∧ holds v' cs num (zslice buf 0 n) ∧ (n < zlen buf → HNXFS_DIRECT * HNXFS_BLOCK_SIZE ≤ n ∨ full sb v')
  end.

(** C2. What is written to a path is read from that path, through the whole stack: path resolution, mount table, directory
    lookup, vnode cache, file descriptors, blocks, bitmaps and the block cache. [open] with [O_CREAT], [write], [close], then
    [open], [read], [close] either fail at the first [open] (no descriptor, or the file can not be created), or panic for
    lack of heap memory, or give back the [n] bytes written, all of them unless the file is at its greatest size or the disk
    is full; the disk is again a tree in which the path leads to the file. The path leads to a mounted HNXFS volume and not to a
    directory of it, and its components have at most 119 bytes. *)
Theorem vfs_file_roundtrip s v ms ks name pr tc l path tp flags buf out :
  at_path s ms (ks ++ [name]) pr tc l path tp → hnx_ok s v → (∀ num, walk_tree sb v HNXFS_ROOT_INODE (ks ++ [name]) = Some num → in_type (itab sb v num) ≠ HNXFS_TYPE_DIR) →
  Z.land flags O_DIRECTORY = 0 → Z.land flags O_CREAT ≠ 0 → bytes buf → zlen buf < 2 ^ 63 → zlen buf ≤ zlen out →
  runs (save_and_load path flags buf out) s (round_trip v (ks ++ [name]) ks name l buf out).
Proof.
  intros Hap Hok Hfile Hfl Hcr Hb Hbl Hout. unfold save_and_load, write_path. set (cs := ks ++ [name]) in *.
  apply (runs_step _ _ _ (λ n s', (n < 0 ∧ round_trip v cs ks name l buf out (inl n) s') ∨
    ∃ v' num, 0 ≤ n ≤ zlen buf ∧ at_path s' ms cs pr tc l path tp ∧ hnx_ok s' v' ∧ 0 ∈ l ∧ holds v' cs num (zslice buf 0 n) ∧ (n < zlen buf → HNXFS_DIRECT * HNXFS_BLOCK_SIZE ≤ n ∨ full sb v'))).
  - apply (runs_step _ _ _ (λ fd s', (fd < 0 ∧ round_trip v cs ks name l buf out (inl fd) s') ∨
      ∃ v1 num, open_result s s' pr l fd num v1 ∧ walk_tree sb v1 HNXFS_ROOT_INODE cs = Some num ∧ in_type (itab sb v1 num) ≠ HNXFS_TYPE_DIR)).
    + destruct (walk_tree sb v HNXFS_ROOT_INODE cs) as [num|] eqn:Ew.
      * eapply runs_mono; [by eapply vfs_open_existing|]. intros fd s1 [Hop|[-> Hn]]; [right; exists v, num; by auto|left; split; [by vm_compute|by left]].
      * eapply runs_mono; [by eapply vfs_open_new|]. intros fd s1 [(d & child & v' & Hd & Hdir & Hcre & Hop)|[(-> & Hm)|[-> Hn]]]; [right|left; split; [by vm_compute|]; by right|left; split; [by vm_compute|by left]].
        exists v', child. split; [done|]. pose proof Hop as (_ & (_ & _ & _ & _ & _ & _ & _ & (_ & Ht' & _) & _) & _). destruct Hok as (_ & Ht & _). destruct (tr_root _ _ Ht) as (R1 & R2 & _). split.
        -- unfold cs. rewrite walk_tree_snoc. pose proof (ap_cs _ _ _ _ _ _ _ _ Hap) as Hcs. apply Forall_app in Hcs as [Hks _].
           rewrite (walk_tree_mono sb v v' _ ks d Ht (create_grows sb v v' d name false child Ht Ht' Hdir Hcre)); [|by split|done|done]. cbn [mbind option_bind].
           destruct Hcre as (_ & _ & _ & Hnm & _). pose proof Hnm as (Hdok & _). rewrite (proj1 Hdok), Z.eqb_refl. rewrite (names_dmap _ _ _ _ Hnm). apply lookup_insert_eq.
        -- destruct Hcre as (_ & _ & _ & _ & -> & _). done.
    + intros fd s1 [[Hneg Hr]|(v1 & num & Hop & Hw & Hty)]; [destruct (Z.ltb_spec fd 0); [|lia]; apply wp_runs, wp_ret; by left|]. pose proof Hop as (Hfd & _ & p' & _ & Hfree). destruct (Z.ltb_spec fd 0); [lia|].
      apply wp_runs. eapply wp_mono; [by eapply written_spec|]. intros n s2 (v' & Hap2 & Hok2 & Hn & Hh & Hfull). right. exists v', num. split_and!; try done; try lia. by eapply list_elem_of_lookup_2.
  - intros n s1 [[Hneg Hr]|(v' & num & Hn & Hap1 & Hok1 & Hl0 & Hh & Hfull)]; [destruct (Z.ltb_spec n 0); [|lia]; by apply wp_runs, wp_ret|]. destruct (Z.ltb_spec n 0); [lia|].
    assert (zlen (zslice buf 0 n) = n) as Hz by (apply zlen_zslice; lia).
    eapply runs_step; [pose proof (read_path_spec s1 v' ms cs pr tc l path tp num (zslice buf 0 n) out 0 Hap1 Hok1 Hh Hl0 ltac:(lia) eq_refl) as Hr; rewrite Hz in Hr; exact Hr|].
    intros r s2 (-> & Hap2 & Hok2). apply wp_runs, wp_ret. split; [done|]. split; [done|]. split; [done|]. by exists v', num.
Qed.

End Hnx.

(** ** Example: [/disk/f] on the image of [mkhnxfs.py] *)

#[local] Instance no_fs : Filesystems unit Empty_set Empty_set := {|
  fs_name := λ f : Empty_set, match f with end;
  fs_has_lookup := λ f : Empty_set, match f with end;
  fs_lookup := λ (f : Empty_set) _, match f with end;
  fs_set_data := λ (f : Empty_set) _, match f with end;
  vn_load := λ (v : Empty_set) _, match v with end;
  op_read := λ (v : Empty_set) _ _ _, match v with end;
  op_write := λ (v : Empty_set) _ _ _, match v with end;
  op_readdir := λ (v : Empty_set) _ _, match v with end;
  op_create := λ (v : Empty_set) _ _, match v with end;
  op_unlink := λ (v : Empty_set) _, match v with end
|}.
#[local] Instance ex_heap : Kalloc heap := heap_kalloc ex_arena.
#[local] Instance ex_heap_laws : KallocLaws heap := heap_laws ex_arena eq_refl.

Definition ex_hnxfs : hnxfs (hdisk ram_disk) := mk_hnxfs ex_fs (replicate 64 (mk_hvnode VNODE_FILE 0 false 0)) (replicate 64 0) 0.
Definition ex_mount : mount (Empty_set + unit) := mk_mount (mount_buf (join [name_disk])) (Some (inr tt)) true.
Definition ex_vmounts : list (mount (Empty_set + unit)) := ex_mount :: replicate 7 (mk_mount (replicate 256 0) None false).
Definition ex_vfs (fl : files heap (Empty_set + Z)) (t : Z) : vfs heap (unit * hnxfs (hdisk ram_disk)) (Empty_set + unit) (Empty_set + Z) :=
  mk_vfs ex_vmounts fl (tt, ex_hnxfs) (Some (mk_proc t [SLASH; 0])).

(** [disk/f] from [/]. *)
Definition ex_name : list Z := name_disk ++ [SLASH; 102].

Lemma ex_vmounts_ok : mounts_ok ex_vmounts ∧ mounted_at ex_mount [name_disk].
Proof.
  assert (mounted_at ex_mount [name_disk]) as Hm.
  { split; [by apply mount_buf_cstr; vm_compute|]. split; [constructor; [by apply plain_dec; vm_compute|constructor]|]. split; [by repeat constructor|by vm_compute]. }
  split; [|exact Hm]. split; [by vm_compute|]. intros [|i] m Hi Hu; [injection Hi as <-; split; [by eexists|by eexists]|].
  unfold ex_vmounts in Hi. cbn [lookup list_lookup] in Hi. apply lookup_replicate in Hi as [-> _]. done.
Qed.

Lemma ex_hnx_at fl t : hnx_at (ex_vfs fl t) [name_disk] [[102]].
Proof.
  destruct ex_vmounts_ok as [Hm Hat]. split; [exact Hm|]. exists 0, ex_mount. split; [done|]. split; [done|]. split; [done|]. split; [done|]. split; [exact Hat|].
  intros j ms' (Hj & m & Hmj & Hu & Hat' & _). cbn [v_mounts ex_vfs] in Hmj. destruct (Z.to_nat j) as [|k] eqn:Ej.
  - injection Hmj as <-. rewrite (mounted_inj _ _ _ Hat' Hat). split; [done|]. lia.
  - unfold ex_vmounts in Hmj. cbn [lookup list_lookup] in Hmj. apply lookup_replicate in Hmj as [-> _]. done.
Qed.

Lemma ex_short : Forall short [name_disk] ∧ Forall short [[102]].
Proof.
  split; (constructor; [|constructor]); (split; [by apply plain_dec; vm_compute|]); (split; [by repeat constructor|by vm_compute]).
Qed.

Lemma ex_cache : cache_ok ex_hnxfs.
Proof. split; [by vm_compute|by vm_compute|by vm_compute|]. intros i vn n Hi. cbn [h_vnode_count ex_hnxfs] in Hi. lia. Qed.

Lemma ex_walk : walk_tree ex_sb ex_img HNXFS_ROOT_INODE [[102]] = None.
Proof. vm_compute. reflexivity. Qed.

(** A process with an empty table. *)
Definition ex_files0 : files heap (Empty_set + Z) := mk_files fresh_heap ∅ ∅.

Lemma ex_files0_ok : files_ok ex_files0 [].
Proof. exact (fd_reached_ok fresh_heap ex_files0 ex_live (fd_start fresh_heap)). Qed.

Lemma ex_created : returned (fd_table_create ex_files0) = true.
Proof. vm_compute. reflexivity. Qed.

Lemma ex_few : Z.of_nat (size (fl_tables ex_files0)) < PROCESS_MAX.
Proof. by vm_compute. Qed.

Lemma ex_files : ∃ (fl : files heap (Empty_set + Z)) t, files_ok fl [] ∧ fl_tables fl !! t = Some (replicate (Z.to_nat FD_MAX) 0).
Proof.
  destruct (returned_inv _ ex_created) as [[s1 t] E]. destruct (runs_ret _ _ _ _ _ (fd_table_create_spec ex_files0 [] ex_files0_ok ex_few) E) as (Ho & _ & _ & _ & Ht).
  exists s1, t. split; [exact Ho|]. rewrite Ht. apply lookup_insert_eq.
Qed.

Lemma vfs_file_roundtrip_witness :
  ∃ s pr l, at_path s [name_disk] ([] ++ [[102]]) pr [SLASH] l (ex_name ++ [0]) ex_name ∧ hnx_ok ex_sb s ex_img ∧
    runs (save_and_load ex_sb (ex_name ++ [0]) O_CREAT [104; 105] [0; 0]) s (round_trip ex_sb ex_img ([] ++ [[102]]) [] [102] l [104; 105] [0; 0]).
Proof.
  destruct ex_files as (fl & t & Ho & Ht). exists (ex_vfs fl t), (mk_proc t [SLASH; 0]), (replicate (Z.to_nat FD_MAX) 0). destruct ex_short as [Hs1 Hs2].
  assert (at_path (ex_vfs fl t) [name_disk] ([] ++ [[102]]) (mk_proc t [SLASH; 0]) [SLASH] (replicate (Z.to_nat FD_MAX) 0) (ex_name ++ [0]) ex_name) as Hap.
  { split.
    - exact (ex_hnx_at fl t).
    - exact Hs1.
    - exact Hs2.
    - split; [reflexivity|]. split; [|by vm_compute]. split; [by apply (bool_decide_unpack _)|by exists []].
    - split; [split; [by apply (bool_decide_unpack _)|by exists []]|]. split; [by vm_compute|]. vm_compute. reflexivity.
    - exact Ho.
    - exact Ht. }
  assert (hnx_ok ex_sb (ex_vfs fl t) ex_img) as Hok by (split; [exact ex_sees|split; [exact ex_tree|exact ex_cache]]).
  split; [exact Hap|]. split; [exact Hok|].
  apply (vfs_file_roundtrip ex_sb (ex_vfs fl t) ex_img [name_disk] [] [102] (mk_proc t [SLASH; 0]) [SLASH] (replicate (Z.to_nat FD_MAX) 0) (ex_name ++ [0]) ex_name).
  - exact Hap.
  - exact Hok.
  - intros num Hw. exfalso. pose proof (eq_trans (eq_sym ex_walk) Hw) as E. discriminate E.
  - reflexivity.
  - discriminate.
  - by repeat constructor.
  - by vm_compute.
  - by vm_compute.
Defined.
