(* ===== verification/VfsOps.v ===== *)
(** Rename, link and truncate ([kernel/fs/vfs_ops.c]), which copy files through the vnode operations and remove the paths from
    the name cache of [Dcache]; the state is that of [Vfs] and the name cache. [kmem_alloc] is a parameter: [kmem n] is the
    contents of the block it returns, [None] for NULL. The block is used by one call and freed at its end, and nothing else
    refers to it; [kmem_free] is left out. *)

From stdpp Require Import gmap.
From S2P Require Import Prelude Hashtable Bytes CString Heap StateM Kalloc Files Path Dcache Vnode Vfs Block Hnxfs HnxfsSpec HnxfsDir HnxfsTree HnxfsDisk HnxfsVnode VfsHnxfs.

(** ** Definitions *)

Definition VOPS_CHUNK : Z := 4096.

Section Ops.
Context {H W F V : Type} {KA : Kalloc H} {FS : Filesystems W F V}.
Context (kmem : Z → option (list Z)).
Notation VFS := (vfs H W F V).
Notation OPS := (VFS * dcache V)%type.

Definition chunk (n : Z) : Z := if VOPS_CHUNK <? n then VOPS_CHUNK else n.

(** One turn of the loop of [copy_vnode]; [inr] leaves it, with [true] for the return of [-SYS_EIO]. *)
Definition copy_step (src dst : V) (size : Z) (l : Z * list Z) : stM VFS (Z * list Z + bool) :=
  let '(off, buf) := l in
  if off <? size then
    '(r, buf) ← on_world (vnode_read (Some src) buf (chunk (size - off)) off);
    if r <=? 0 then mret (inr false)
    else
      w ← on_world (vnode_write (Some dst) buf r off);
      if negb (w =? r) then mret (inr true) else mret (inl (u64 (off + r), buf))
  else mret (inr false).

Definition copy_vnode (src dst : V) : stM VFS Z :=
  match kmem VOPS_CHUNK with
  | None => mret (- SYS_ENOMEM)
  | Some buf =>
      v ← on_world (load_vnode src);
      err ← while (S (Z.to_nat (vn_size v))) (copy_step src dst (vn_size v)) (0, buf);
      mret (if err : bool then - SYS_EIO else 0)
  end.

Definition vfs_rename (oldpath newpath : list Z) : stM OPS Z :=
  src ← on_left (vfs_resolve oldpath);
  match src with
  | None => mret (- SYS_ENOENT)
  | Some src =>
      v ← on_left (on_world (load_vnode src));
      if negb (bool_decide (vn_type v = VNODE_FILE)) then mret (- SYS_EISDIR)
      else
        old ← on_left (vfs_resolve newpath);
        (match old with
         | Some _ => on_left (vfs_unlink (Some newpath));; on_right (dcache_invalidate newpath)
         | None => mret tt
         end);;
        r ← on_left (vfs_create (Some newpath));
        if negb (r =? 0) then mret (- SYS_EIO)
        else
          dst ← on_left (vfs_resolve newpath);
          match dst with
          | None => mret (- SYS_EIO)
          | Some dst =>
              rc ← on_left (copy_vnode src dst);
              if negb (rc =? 0) then mret rc
              else
                on_left (vfs_unlink (Some oldpath));;
                on_right (dcache_invalidate oldpath);;
                on_right (dcache_invalidate newpath);;
                mret 0
          end
  end.

Definition vfs_link (oldpath newpath : list Z) : stM OPS Z :=
  src ← on_left (vfs_resolve oldpath);
  match src with
  | None => mret (- SYS_ENOENT)
  | Some src =>
      v ← on_left (on_world (load_vnode src));
      if negb (bool_decide (vn_type v = VNODE_FILE)) then mret (- SYS_EPERM)
      else
        old ← on_left (vfs_resolve newpath);
        match old with
        | Some _ => mret (- SYS_EEXIST)
        | None =>
            r ← on_left (vfs_create (Some newpath));
            if negb (r =? 0) then mret (- SYS_EIO)
            else
              dst ← on_left (vfs_resolve newpath);
              match dst with None => mret (- SYS_EIO) | Some dst => on_left (copy_vnode src dst) end
        end
  end.

(** The loop that reads the first [keep] bytes to [buf]. *)
Definition keep_step (vn : V) (keep : Z) (l : Z * list Z) : stM VFS (Z * list Z + list Z) :=
  let '(off, buf) := l in
  if off <? keep then
    '(r, part) ← on_world (vnode_read (Some vn) (drop (Z.to_nat off) buf) (chunk (keep - off)) off);
    let buf := take (Z.to_nat off) buf ++ part in
    if r <=? 0 then mret (inr buf) else mret (inl (u64 (off + r), buf))
  else mret (inr buf).

(** The loops that write from an offset to an end: of [buf], or zeros. *)
Definition put_step (nv : V) (buf : list Z) (fin off : Z) : stM VFS (Z + unit) :=
  if off <? fin then
    let n := chunk (fin - off) in
    on_world (vnode_write (Some nv) (drop (Z.to_nat off) buf) n off);;
    mret (inl (off + n))
  else mret (inr tt).

Definition zero_step (nv : V) (fin off : Z) : stM VFS (Z + unit) :=
  if off <? fin then
    let n := chunk (fin - off) in
    on_world (vnode_write (Some nv) (replicate (Z.to_nat VOPS_CHUNK) 0) n off);;
    mret (inl (off + n))
  else mret (inr tt).

Definition vfs_truncate (path : list Z) (length : Z) : stM OPS Z :=
  vn ← on_left (vfs_resolve path);
  match vn with
  | None => mret (- SYS_ENOENT)
  | Some vn =>
      v ← on_left (on_world (load_vnode vn));
      if negb (bool_decide (vn_type v = VNODE_FILE)) then mret (- SYS_EISDIR)
      else
        let old := vn_size v in
        if length =? old then mret 0
        else
          let keep := if length <? old then length else old in
          match (if negb (keep =? 0) then kmem keep else Some []) with
          | None => mret (- SYS_ENOMEM)
          | Some buf =>
              buf ← (if negb (keep =? 0) then on_left (while (S (Z.to_nat keep)) (keep_step vn keep) (0, buf)) else mret buf);
              on_left (vfs_unlink (Some path));;
              on_right (dcache_invalidate path);;
              r ← on_left (vfs_create (Some path));
              if negb (r =? 0) then mret (- SYS_EIO)
              else
                nv ← on_left (vfs_resolve path);
                match nv with
                | None => mret (- SYS_EIO)
                | Some nv =>
                    (if negb (keep =? 0) then on_left (while (S (Z.to_nat keep)) (put_step nv buf keep) 0) else mret tt);;
                    (if old <? length then on_left (while (S (Z.to_nat (length - old))) (zero_step nv length) old) else mret tt);;
                    mret 0
                end
          end
  end.

End Ops.

(** ** A file that is renamed to itself *)

Section Rename.
Context {H : Type} {KA : Kalloc H} {KL : KallocLaws H}.
Context {W' F' V' : Type} {FS' : Filesystems W' F' V'}.
Context {St : Type} {DI : Disk St} {DL : DiskLaws St}.
Context (sb : hnxfs_superblock) {Hlay : layout sb}.
Context (kmem : Z → option (list Z)).
#[local] Hint Extern 0 (Filesystems _ _ _) => exact (both (FS' := FS') sb) : typeclass_instances.
Notation VFS := (vfs H (W' * hnxfs St) (F' + unit) (V' + Z)).
Implicit Types (s : VFS) (v : gmap Z (list Z)) (h : hnxfs St).

Notation OPS := (VFS * dcache (V' + Z))%type.

Lemma left_step {A B} (m : stM VFS A) (f : A → stM OPS B) s dc Q (R : B → OPS → Prop) : wp m s Q → (∀ a s', Q a s' → wp (f a) (s', dc) R) → wp (on_left m ≫= f) (s, dc) R.
Proof. intros (s' & a & E & Hq)%wp_run Hf. apply (wp_known _ _ _ (s', dc) a); [unfold on_left; cbn [fst]; by rewrite E|]. by apply Hf. Qed.
Lemma right_step {A B} (m : stM (dcache (V' + Z)) A) (f : A → stM OPS B) s dc Q (R : B → OPS → Prop) : wp m dc Q → (∀ a dc', Q a dc' → wp (f a) (s, dc') R) → wp (on_right m ≫= f) (s, dc) R.
Proof. intros (dc' & a & E & Hq)%wp_run Hf. apply (wp_known _ _ _ (s, dc') a); [unfold on_right; cbn [snd]; by rewrite E|]. by apply Hf. Qed.

Lemma invalidate_path (dc : dcache (V' + Z)) ms ks path : dcache_ok dc → Forall short ms → Forall short ks → cstr path (join (ms ++ ks)) → zlen (join (ms ++ ks)) < VFS_PATH_MAX →
  wp (dcache_invalidate path) dc (λ _ dc', dcache_ok dc' ∧ not_cached path dc').
Proof.
  intros Hok Hms Hks Hp Hl. apply (dcache_invalidate_spec dc path (join (ms ++ ks))); [done|done| |unfold VFS_PATH_MAX in Hl; lia]. apply join_bytes, short_bytes. by apply Forall_app.
Qed.

(** The vnode in the slot: a directory, an empty file, or the file [num]. *)
Definition no_data h (i num : Z) : Prop := 0 ≤ i ∧ ∃ vn, h_vnodes h !! Z.to_nat i = Some vn ∧ hv_ops vn = true ∧ (hv_type vn = VNODE_DIR ∨ hv_size vn = 0 ∨ hv_priv vn = num).

Lemma no_data_insert h h' i j num vn : no_data h i num → 0 ≤ j → h_vnodes h' = <[Z.to_nat j := vn]> (h_vnodes h) → hv_ops vn = true → (hv_type vn = VNODE_DIR ∨ hv_size vn = 0 ∨ hv_priv vn = num) → no_data h' i num.
Proof.
  intros (Hi & vn0 & Hv0 & Ho0 & Hc0) Hj E Ho Hc. split; [done|]. rewrite E. destruct (decide (j = i)) as [->|Hne].
  - exists vn. split; [|done]. apply list_lookup_insert_eq. by apply lookup_lt_Some in Hv0.
  - exists vn0. split; [|done]. rewrite list_lookup_insert_ne by lia. done.
Qed.

Lemma no_data_same h h' i num : no_data h i num → same_cache h h' → no_data h' i num.
Proof. intros Hn (E & _). unfold no_data. by rewrite E. Qed.

Lemma no_data_dir s h v ks i num : no_data (hnx s) i num → dir_cached sb s h v ks → no_data h i num.
Proof.
  intros Hn (j & d & Hj & _ & Hd & E). eapply no_data_insert; [done|done|exact E|done|]. left. unfold fresh_vnode, type_of. cbn [hv_type]. by rewrite Hd, Z.eqb_refl.
Qed.

(** Nothing is copied. *)
Lemma copy_nothing s v i num dst buf :
  hnx_ok sb s v → no_data (hnx s) i num → is_inode sb num → fdata v (itab sb v num) = [] → kmem VOPS_CHUNK = Some buf → zlen buf = VOPS_CHUNK →
  wp (copy_vnode kmem (inr i) dst) s (λ r s', r = 0 ∧ ∃ h, s' = with_hnx s h ∧ hnx_ok sb s' v ∧ same_cache (hnx s) h).
Proof.
  intros (Hs & Ht & Hc) (Hi & vn & Hvn & Hops & Hcase) Hnum Hemp Hk Hb. unfold copy_vnode. rewrite Hk.
  assert (vn_load (inr i : V' + Z) (v_world s) = Ret (hnxfs_vnode vn)) as El.
  { change (vn_load (inr i : V' + Z) (v_world s)) with (v ← aget (h_vnodes (hnx s)) i; Ret (hnxfs_vnode v)). by rewrite (aget_Some _ i vn). }
  assert (s = with_hnx s (hnx s)) as Es by (by destruct s as [? ? [? ?] ?]).
  eapply wp_known. { unfold on_world, load_vnode. rewrite El. cbn [mbind outcome_bind]. replace (mk_vfs (v_mounts s) (v_files s) (v_world s) (v_proc s)) with s by (by destruct s). reflexivity. }
  change (vn_size (hnxfs_vnode vn)) with (hv_size vn). cbn [while].
  apply (wp_step _ _ _ (λ err s', err = false ∧ ∃ h, s' = with_hnx s h ∧ hnx_ok sb s' v ∧ same_cache (hnx s) h)).
  2:{ intros err s' (-> & Hr). apply wp_ret. done. }
  assert (hnx_ok sb (with_hnx s (hnx s)) v) as Hok by done.
  apply (wp_step _ _ _ (λ r s', r = inr false ∧ ∃ h, s' = with_hnx s h ∧ hnx_ok sb s' v ∧ same_cache (hnx s) h)); [|intros r s' (-> & Hr); by apply wp_ret].
  unfold copy_step. destruct (Z.ltb_spec 0 (hv_size vn)) as [Hsz|Hsz]; [|apply wp_ret; split; [done|]; exists (hnx s); split; [exact Es|]; split; [exact Hok|done]].
  apply (wp_step _ _ _ (λ r s', r.1 ≤ 0 ∧ ∃ h, s' = with_hnx s h ∧ hnx_ok sb s' v ∧ same_cache (hnx s) h)); [|intros [r b] s' (Hr & Hrest); cbn [fst] in Hr; destruct (Z.leb_spec r 0); [by apply wp_ret|lia]].
  destruct (decide (hv_type vn = VNODE_DIR)) as [Hd|Hd].
  - unfold wp, on_world, vnode_read. erewrite bind_run; [|unfold load_vnode; rewrite El; reflexivity]. cbn [vn_has_read hnxfs_vnode vn_type]. rewrite Hops. cbn [negb]. rewrite decide_True by done. split; [by vm_compute|].
    exists (hnx s). split; [by destruct s as [? ? [? ?] ?]|]. split; [by destruct s as [? ? [? ?] ?]|done].
  - destruct Hcase as [?|[?|Hp]]; [done|lia|]. eapply wp_mono; [apply on_world_spec; eapply vnode_read_spec; [exact El|done|done|]|].
    { apply on_right_spec, (v_read_spec sb (hnx s) v i num); [done|by apply Ht|done| | |done].
      - split; [pose proof (co_vnodes _ Hc); apply lookup_lt_Some in Hvn; unfold zlen in *; lia|]. by exists vn.
      - unfold chunk, VOPS_CHUNK in *. rewrite Hb. destruct (Z.ltb_spec 4096 (hv_size vn - 0)); lia. }
    rewrite Hemp. intros r s' (w & -> & h & -> & Hs' & Hc' & ->). cbn [fst]. change (zlen []) with 0. split; [lia|]. exists h. split; [done|]. split; [|done]. split_and!; try done. by eapply same_cache_ok.
Qed.

(** A path that leads nowhere. *)
Definition gone s v cs : Prop := hnx_ok sb s v ∧ walk_tree sb v HNXFS_ROOT_INODE cs = None.

Lemma gone_snoc v ks name d : walk_tree sb v HNXFS_ROOT_INODE ks = Some d → dmap sb v d !! name = None → walk_tree sb v HNXFS_ROOT_INODE (ks ++ [name]) = None.
Proof. intros Hw Hn. rewrite walk_tree_snoc, Hw. cbn [mbind option_bind]. by destruct (_ =? _). Qed.

(** The unlink of a file that is there. *)
Lemma unlink_file s v ms ks name pr tc path tp d child i num :
  hnx_at s ms (ks ++ [name]) → hnx_ok sb s v → Forall short ms → Forall short (ks ++ [name]) → in_cwd s pr tc → names_path tc path tp (ms ++ ks ++ [name]) →
  walk_tree sb v HNXFS_ROOT_INODE ks = Some d → in_type (itab sb v d) = HNXFS_TYPE_DIR → dmap sb v d !! name = Some child → in_type (itab sb v child) ≠ HNXFS_TYPE_DIR → no_data (hnx s) i num →
  wp (vfs_unlink (Some path)) s (λ _ s', ∃ h v', s' = with_hnx s h ∧ gone s' v' (ks ++ [name]) ∧ itab sb v' child = emptied (itab sb v child) ∧
    walk_tree sb v' HNXFS_ROOT_INODE ks = Some d ∧ in_type (itab sb v' d) = HNXFS_TYPE_DIR ∧ no_data h i num).
Proof.
  intros Hat Hok Hms Hks Hcwd Hpath Hw Hd Hch Hty Hnd. pose proof Hok as (_ & Ht & _). apply Forall_app in Hks as Hks'. destruct Hks' as [Hks' _]. destruct (tr_root _ _ Ht) as (R1 & R2 & _).
  assert (is_dir sb v d) as Hdir by (pose proof (walk_tree_in sb v _ ks d Ht ltac:(by split) Hks' Hw) as Hin; split; [apply Hin|split; [apply Hin|done]]).
  eapply wp_mono; [by eapply (vfs_unlink_spec sb s v ms ks name pr tc path tp d)|]. intros r s' (h & v' & -> & Hok' & Hun & Hdc). pose proof Hok' as (_ & Ht' & _).
  assert (r = 0) as -> by (unfold unlinked in Hun; rewrite Hch in Hun; destruct Hun as [(_ & ? & _)|(-> & _)]; done). destruct (unlink_keeps sb v v' d name child Ht Ht' Hdir Hun Hch Hty) as (Hkeep & Hdel & Hem).
  assert (walk_tree sb v' HNXFS_ROOT_INODE ks = Some d) as Hw' by (eapply (walk_tree_dirs sb v v'); [done|done|by split|done|done|done]). destruct (Hkeep d) as [Hd' _]; [destruct Hdir as (? & ? & _); by split|done|].
  exists h, v'. split; [done|]. split; [|split; [done|split; [done|split; [done|by eapply no_data_dir]]]]. split; [done|]. eapply gone_snoc; [done|]. rewrite Hdel. apply lookup_delete_eq.
Qed.

(** The path leads nowhere, and the name cache has nothing for it. *)
Definition forgotten (path : list Z) cs (x : OPS) : Prop := (∃ v, gone x.1 v cs) ∧ dcache_ok x.2 ∧ not_cached path x.2.

(** The rest of [vfs_rename], after the file is gone. *)
Lemma rename_tail s dc v ms ks name pr tc path tp d i num buf :
  hnx_at s ms (ks ++ [name]) → gone s v (ks ++ [name]) → Forall short ms → Forall short (ks ++ [name]) → in_cwd s pr tc → names_path tc path tp (ms ++ ks ++ [name]) → cstr path (join (ms ++ ks ++ [name])) →
  walk_tree sb v HNXFS_ROOT_INODE ks = Some d → in_type (itab sb v d) = HNXFS_TYPE_DIR → is_inode sb num → in_type (itab sb v num) ≠ HNXFS_TYPE_DIR → fdata v (itab sb v num) = [] → no_data (hnx s) i num →
  kmem VOPS_CHUNK = Some buf → zlen buf = VOPS_CHUNK → zlen (join (ms ++ ks ++ [name])) < VFS_PATH_MAX → dcache_ok dc → not_cached path dc →
  wp (r ← on_left (vfs_create (Some path));
      if negb (r =? 0) then mret (- SYS_EIO)
      else dst ← on_left (vfs_resolve path);
           match dst with
           | None => mret (- SYS_EIO)
           | Some dst =>
               rc ← on_left (copy_vnode kmem (inr i) dst);
               if negb (rc =? 0) then mret rc
               else on_left (vfs_unlink (Some path));; on_right (dcache_invalidate path);; on_right (dcache_invalidate path);; mret 0
           end) (s, dc)
    (λ r x, (r = 0 ∨ r = - SYS_EIO) ∧ forgotten path (ks ++ [name]) x).
Proof.
  intros Hat [Hok Hg] Hms Hks Hcwd Hpath Hp Hw Hd Hnum Hty Hemp Hnd Hk Hb Hl Hdc0 Hnc. pose proof Hok as (_ & Ht & _). destruct (tr_root _ _ Ht) as (R1 & R2 & _). apply Forall_app in Hks as Hks'. destruct Hks' as [Hks' _].
  pose proof Hg as Hg'. rewrite walk_tree_snoc, Hw in Hg'. cbn [mbind option_bind] in Hg'. rewrite Hd, Z.eqb_refl in Hg'.
  assert (is_dir sb v d) as Hdir by (pose proof (walk_tree_in sb v _ ks d Ht ltac:(by split) Hks' Hw) as Hin; split; [apply Hin|split; [apply Hin|done]]).
  eapply left_step; [by apply (vfs_create_spec sb s v ms ks name pr tc path tp)|]. intros r s1 (h1 & v1 & -> & Hok1 & Hmade & Hdc). pose proof Hok1 as (_ & Ht1 & _).
  destruct Hmade as [(-> & d' & child & Hd' & _ & Hcr)|(Hneg & [?|(d' & Hd' & [?|Hcr])])]; [|congruence|congruence|]; rewrite Hw in Hd'; injection Hd' as <-.
  2:{ destruct (Z.eqb_spec r 0); [lia|]. apply wp_ret. split; [by right|]. split; [|done]. exists v1. split; [done|]. pose proof (create_fails_grows sb v v1 d name false r Ht Ht1 Hcr) as Hgr.
      eapply gone_snoc; [by eapply (walk_tree_mono sb v v1); [| |split| |]|]. destruct Hcr as (Hnm & _). by rewrite (names_dmap _ _ _ _ Hnm). }
  change (negb (0 =? 0)) with false. cbv iota. pose proof (create_grows sb v v1 d name false child Ht Ht1 Hdir Hcr) as Hgr. pose proof Hcr as (Hci & _ & _ & Hnm & Hnew & Hun & _).
  assert (walk_tree sb v1 HNXFS_ROOT_INODE ks = Some d) as Hw1 by (by eapply (walk_tree_mono sb v v1); [| |split| |]). destruct (Hgr d) as [Hd1 _]; [destruct Hdir as (? & ? & _); by split|done|].
  assert (dmap sb v1 d !! name = Some child) as Hch by (rewrite (names_dmap _ _ _ _ Hnm); apply lookup_insert_eq).
  assert (walk_tree sb v1 HNXFS_ROOT_INODE (ks ++ [name]) = Some child) as Hwc by (rewrite walk_tree_snoc, Hw1; cbn [mbind option_bind]; by rewrite Hd1, Z.eqb_refl).
  eapply left_step; [by apply (resolve_spec sb (with_hnx s h1) v1 ms (ks ++ [name]) path)|]. intros r s2 (h2 & -> & Hok2 & Hr). rewrite Hwc in Hr. destruct Hr as (j & -> & Hj & Hv2).
  assert (no_data h2 i num) as Hnd2.
  { eapply no_data_insert; [by eapply no_data_dir; [|apply Hdc]|apply Hj|exact Hv2|done|]. right. left. unfold fresh_vnode. cbn [hv_size]. by rewrite Hnew. }
  assert (fdata v1 (itab sb v1 num) = [] ∧ in_type (itab sb v1 child) ≠ HNXFS_TYPE_DIR) as [Hemp1 Htc].
  { split; [|by rewrite Hnew]. destruct (decide (num = child)) as [->|Hne]; [by rewrite Hnew|]. destruct (Hun num Hnum) as [_ ->]; [|done]. set_solver. }
  eapply left_step; [by apply (copy_nothing (with_hnx s h2) v1 i num (inr j) buf)|]. intros r s3 (-> & h3 & -> & Hok3 & Hc3). change (negb (0 =? 0)) with false. cbv iota.
  eapply left_step; [eapply (unlink_file (with_hnx s h3) v1 ms ks name pr tc path tp d child i num); try done; by eapply no_data_same|]. intros u s4 (h4 & v4 & -> & Hg4 & _).
  do 2 (eapply right_step; [by apply invalidate_path with (ms := ms) (ks := ks ++ [name])|clear dc Hdc0 Hnc; intros [] dc [Hdc0 Hnc]]). apply wp_ret. split; [by left|]. split; [by exists v4|done].
Qed.

(** C37. A file that is renamed to itself is lost: [vfs_rename] with the same path twice, on a file of HNXFS, removes the file as
    the destination, creates an empty one, copies nothing, and removes it as the source. It returns 0 (or [-SYS_EIO] when
    the file can not be created again); the path leads nowhere then, and the name cache, which may have had it, does not. When
    there is memory for the copy's buffer. *)
Theorem vfs_rename_self_deletes s dc v ms ks name pr tc path num buf :
  hnx_at s ms (ks ++ [name]) → hnx_ok sb s v → Forall short ms → Forall short (ks ++ [name]) → in_cwd s pr tc →
  cstr path (join (ms ++ ks ++ [name])) → zlen (join (ms ++ ks ++ [name])) < VFS_PATH_MAX → zlen (ms ++ ks ++ [name]) ≤ MAX_COMPONENTS →
  walk_tree sb v HNXFS_ROOT_INODE (ks ++ [name]) = Some num → in_type (itab sb v num) ≠ HNXFS_TYPE_DIR → kmem VOPS_CHUNK = Some buf → zlen buf = VOPS_CHUNK → dcache_ok dc →
  wp (vfs_rename kmem path path) (s, dc) (λ r x, (r = 0 ∨ r = - SYS_EIO) ∧ forgotten path (ks ++ [name]) x).
Proof.
  intros Hat Hok Hms Hks Hcwd Hp Hl Hcm Hw Hty Hk Hb Hdc. pose proof Hok as (_ & Ht & _). destruct (tr_root _ _ Ht) as (R1 & R2 & _). apply Forall_app in Hks as Hks'. destruct Hks' as [Hks' _].
  assert (names_path tc path (join (ms ++ ks ++ [name])) (ms ++ ks ++ [name])) as Hpath.
  { split; [done|]. split; [unfold VFS_PATH_MAX in *; lia|]. apply resolved_join; [|done|done]. apply Forall_app. split; by apply short_plain. }
  pose proof Hw as Hw0. rewrite walk_tree_snoc in Hw0. destruct (walk_tree sb v HNXFS_ROOT_INODE ks) as [d|] eqn:Ewd; cbn [mbind option_bind] in Hw0; [|done].
  destruct (Z.eqb_spec (in_type (itab sb v d)) HNXFS_TYPE_DIR) as [Hd|]; [|done]. pose proof (walk_tree_in sb v _ (ks ++ [name]) num Ht ltac:(by split) Hks Hw) as [Hnum _].
  unfold vfs_rename. eapply left_step; [by apply (resolve_spec sb s v ms (ks ++ [name]) path)|]. intros r s1 (h1 & -> & Hok1 & Hr). rewrite Hw in Hr. destruct Hr as (i & -> & Hi & Hv1).
  pose proof (fresh_slot sb s v num i h1 Hok1 Hi Hv1) as Hslot. assert (no_data h1 i num) as Hnd1 by (split; [lia|]; exists (fresh_vnode sb v num); split; [done|]; split; [done|by right; right]).
  destruct (fresh_file sb v num i (with_hnx s h1) Hslot ltac:(lia) Hty) as [Hload _]. eapply wp_known. { unfold on_left, on_world, load_vnode. cbn [fst]. rewrite Hload. reflexivity. }
  assert (vn_type (hnxfs_vnode (fresh_vnode sb v num)) = VNODE_FILE) as -> by (unfold hnxfs_vnode, fresh_vnode, type_of; cbn [vn_type hv_type]; by destruct (Z.eqb_spec (in_type (itab sb v num)) HNXFS_TYPE_DIR)).
  rewrite bool_decide_true by done. cbn [negb]. cbn [fst snd]. replace (mk_vfs _ _ _ _) with (with_hnx s h1) by done.
  eapply left_step; [by apply (resolve_spec sb (with_hnx s h1) v ms (ks ++ [name]) path)|]. intros r s2 (h2 & -> & Hok2 & Hr). rewrite Hw in Hr. destruct Hr as (j & -> & Hj & Hv2).
  assert (no_data h2 i num) as Hnd2 by (eapply no_data_insert; [exact Hnd1|apply Hj|exact Hv2|done|by right; right]). change (with_hnx (with_hnx s h1) h2) with (with_hnx s h2) in *.
  apply (wp_step _ _ _ (λ _ x, ∃ h v', x.1 = with_hnx s h ∧ dcache_ok x.2 ∧ not_cached path x.2 ∧ gone x.1 v' (ks ++ [name]) ∧ itab sb v' num = emptied (itab sb v num) ∧
    walk_tree sb v' HNXFS_ROOT_INODE ks = Some d ∧ in_type (itab sb v' d) = HNXFS_TYPE_DIR ∧ no_data h i num)).
  { eapply left_step; [by eapply (unlink_file (with_hnx s h2) v ms ks name pr tc path _ d num i num)|]. intros u s3 (h3 & v3 & -> & H3).
    pose proof (invalidate_path dc ms (ks ++ [name]) path Hdc Hms Hks Hp Hl) as (dc' & [] & E & H1 & H2)%wp_run. unfold wp, on_right. cbn [snd]. rewrite E. by exists h3, v3. }
  intros u [s3 dc3] (h3 & v3 & Es & Hdc3 & Hnc3 & Hg3 & Hem3 & Hw3 & Hd3 & Hnd3). cbn [fst snd] in *. subst s3. eapply (rename_tail (with_hnx s h3) dc3 v3); try done.
  - by rewrite Hem3.
  - rewrite Hem3. done.
Qed.

End Rename.

(** ** Example *)

(** The example disk has a free inode, a free block, and room in its root. *)
Lemma ex_ibit : ibit ex_sb ex_img 2 = false.
Proof. vm_compute. reflexivity. Qed.
Lemma ex_dbit : dbit ex_sb ex_img 1 = false.
Proof. vm_compute. reflexivity. Qed.
Lemma ex_blocks : in_blocks (itab ex_sb ex_img 1) = 1.
Proof. vm_compute. reflexivity. Qed.

Lemma ex_not_full : ¬ full ex_sb ex_img.
Proof.
  intros Hf. assert (0 ≤ 1 < sb_data_block_count ex_sb) as Hr by (split; [lia|reflexivity]). unfold full in Hf. specialize (Hf 1 Hr).
  pose proof (eq_trans (eq_sym Hf) ex_dbit) as Eb. discriminate Eb.
Qed.

(** The example disk with the file [f] in its root. *)
Lemma ex_with_file : ∃ d v num, dsees d v ∧ tree ex_sb v ∧ walk_tree ex_sb v HNXFS_ROOT_INODE [[102]] = Some num ∧ in_type (itab ex_sb v num) ≠ HNXFS_TYPE_DIR.
Proof.
  destruct (tr_root _ _ ex_tree) as (R1 & R2 & R3). assert (is_dir ex_sb ex_img 1) as Hdir by exact (conj R1 (conj R2 R3)).
  destruct (wp_run _ _ _ (v_create_spec ex_sb ex_fs ex_img 1 (dmap ex_sb ex_img 1) ([102] ++ [0]) [102] false ex_sees (tr_ok _ _ ex_tree) R1 R2 (tr_dir _ _ ex_tree 1 Hdir)
    ltac:(split; [exact (proj1 ex_good)|by exists []]) (proj1 (proj2 ex_good)) (proj1 (proj2 (proj2 ex_good))))) as (d & r & E & v & Hs & Hok & Hc).
  destruct r as [e|child].
  - exfalso. destruct Hc as (_ & _ & [(_ & [c Hsome] & _)|[(_ & Hall & _)|(_ & _ & _ & _ & [Hb|Hf])]]).
    + pose proof ex_walk as Hw. cbn [walk_tree] in Hw. unfold HNXFS_ROOT_INODE in Hw. destruct (Z.eqb_spec (in_type (itab ex_sb ex_img 1)) HNXFS_TYPE_DIR) as [_|Hne]; [|by apply Hne].
      pose proof (eq_trans (eq_sym Hw) (f_equal (λ o, o ≫= Some) Hsome)) as Ec. discriminate Ec.
    + pose proof (eq_trans (eq_sym (Hall 2 ltac:(by vm_compute))) ex_ibit) as Eb. discriminate Eb.
    + pose proof (eq_trans (eq_sym Hb) ex_blocks) as Eb. discriminate Eb.
    + apply ex_not_full. exact Hf.
  - exists d, v, child. split; [exact Hs|]. split; [exact (tree_create ex_sb ex_img v 1 [102] false child ex_tree Hok Hdir (proj2 (proj2 (proj2 ex_good))) Hc)|].
    destruct Hc as (_ & _ & _ & Hnm & Hnew & _ & _). split; [|rewrite Hnew; discriminate]. pose proof Hnm as (Hd & _ & _). cbn [walk_tree]. unfold HNXFS_ROOT_INODE.
    destruct (Z.eqb_spec (in_type (itab ex_sb v 1)) HNXFS_TYPE_DIR) as [_|Hne]; [|by destruct Hne; apply Hd].
    rewrite (names_dmap _ _ _ _ Hnm). by rewrite lookup_insert_eq.
Qed.

(** The table of files of the example, over a disk [d]. *)
Definition ex_over (d : hdisk ram_disk) (fl : files heap (Empty_set + Z)) (t : Z) : vfs heap (unit * hnxfs (hdisk ram_disk)) (Empty_set + unit) (Empty_set + Z) :=
  mk_vfs ex_vmounts fl (tt, mk_hnxfs d (h_vnodes ex_hnxfs) (h_vnode_inode ex_hnxfs) 0) (Some (mk_proc t [SLASH; 0])).
Definition ex_kmem (n : Z) : option (list Z) := Some (replicate (Z.to_nat n) 0).
Definition ex_path : list Z := join ([name_disk] ++ [] ++ [[102]]).

(** A name cache with the path in it. *)
Definition ex_no_dcache : dcache (Empty_set + Z) := mk_dcache (mk_hashtable None 0 0 0) [] ∅ 0 0 (mk_dstats 0 0 0 0 0 0 0) false.
Definition ex_fresh (used : gset Z) : option Z := if bool_decide (4096 ∈ used) then None else Some 4096.
Definition ex_fill : stM (dcache (Empty_set + Z)) unit :=
  dcache_init 64 (λ _, true) 4;; dcache_insert ex_fresh (replicate 256 0) true (ex_path ++ [0]) (Some (inr 0)).

Lemma ex_path_cstr : cstr (ex_path ++ [0]) ex_path.
Proof. split; [by apply (bool_decide_unpack _)|by exists []]. Qed.

Lemma ex_dcache : ∃ dc : dcache (Empty_set + Z), dcache_ok dc ∧ ∃ dc', dcache_lookup (ex_path ++ [0]) dc = Ret (dc', (Some (inr 0), 1, 0)).
Proof.
  assert (wp ex_fill ex_no_dcache (λ _ dc, dcache_ok dc)) as (dc & [] & E & Hok)%wp_run.
  - eapply wp_step; [apply dcache_init_spec; [lia|done|lia]|]. intros [] dc Hw. apply (insert_common_spec dc _ _ _ _ ex_path); [by intros _| |done|exact ex_path_cstr| |by vm_compute].
    + intros used p. unfold ex_fresh. destruct (bool_decide_reflect (4096 ∈ used)); [done|]. by intros [= <-].
    + by apply (bool_decide_unpack _).
  - exists dc. split; [exact Hok|]. assert (Some dc = match ex_fill ex_no_dcache with Ret (dc, _) => Some dc | _ => None end) as Ed by (by rewrite E). vm_compute in Ed. injection Ed as ->. eexists. vm_compute. reflexivity.
Qed.

Lemma vfs_rename_self_deletes_witness :
  ∃ s (dc : dcache (Empty_set + Z)) v num, hnx_ok ex_sb s v ∧ walk_tree ex_sb v HNXFS_ROOT_INODE [[102]] = Some num ∧ (∃ dc', dcache_lookup (ex_path ++ [0]) dc = Ret (dc', (Some (inr 0), 1, 0))) ∧
    wp (vfs_rename (FS := both (FS' := no_fs) ex_sb) ex_kmem (ex_path ++ [0]) (ex_path ++ [0])) (s, dc) (λ r (x : vfs heap (unit * hnxfs (hdisk ram_disk)) (Empty_set + unit) (Empty_set + Z) * dcache (Empty_set + Z)),
      (r = 0 ∨ r = - SYS_EIO) ∧ forgotten ex_sb (ex_path ++ [0]) ([] ++ [[102]]) x).
Proof.
  destruct ex_with_file as (d & v & num & Hs & Ht & Hw & Hty). destruct ex_files as (fl & t & _ & _). destruct ex_dcache as (dc & Hdc & Hhit). exists (ex_over d fl t), dc, v, num. destruct ex_short as [Hs1 Hs2].
  assert (hnx_ok ex_sb (ex_over d fl t) v) as Hok.
  { split; [exact Hs|]. split; [exact Ht|]. destruct ex_cache as [C1 C2 C3 _]. split; [exact C1|exact C2|exact C3|]. intros i vn n Hi. cbn in Hi. lia. }
  split; [exact Hok|]. split; [exact Hw|]. split; [exact Hhit|].
  apply (vfs_rename_self_deletes (FS' := no_fs) ex_sb ex_kmem (ex_over d fl t) dc v [name_disk] [] [102] (mk_proc t [SLASH; 0]) [SLASH] (ex_path ++ [0]) num (replicate (Z.to_nat VOPS_CHUNK) 0)).
  - exact (ex_hnx_at fl t).
  - exact Hok.
  - exact Hs1.
  - exact Hs2.
  - split; [reflexivity|]. split; [|by vm_compute]. split; [by apply (bool_decide_unpack _)|by exists []].
  - exact ex_path_cstr.
  - by vm_compute.
  - by vm_compute.
  - exact Hw.
  - exact Hty.
  - reflexivity.
  - by vm_compute.
  - exact Hdc.
Defined.
